(* ===== verification/_CoqProject ===== *)
-Q . S2P
Prelude.v
RustStd.v
Crates.v
CoreError.v
Tlv.v
BgpTypes.v
PathStatusTlv.v
Evpn.v
Nlri.v
Flowspec.v
SrPolicy.v
Srv6.v
Mvpn.v
BgpLs.v
BgpAttributes.v
BgpUpdate.v
Capabilities.v
BmpTypes.v
BmpParser.v
CollectorProtocol.v
HashMaps.v
RibTable.v
RibSession.v
RibFilter.v
RibEvent.v
RibManager.v
Jsonl.v
Journal.v
EventJournal.v
RoutingService.v
Recovery.v
Reconnect.v
Netflow.v
Approval.v
CorrelationBuffer.v
HaCoordinator.v
StreamBmp.v
Sflow.v
Text.v
Ber.v
Snmp.v
Trust.v
Remediation.v
WriteCoordinator.v
Clock.v
Session.v
Mfa.v
Shun.v
Syslog.v
Registry.v
Assignment.v
IngestQueue.v
Telemetry.v
SubscriptionStatus.v
Debounce.v
Credentials.v
IncidentResponse.v
Float64.v
Investigation.v
Summarizer.v
