(* ===== verification/Prelude.v ===== *)
(** * Verification of the bonsai BMP collector

    bonsai monitors BGP routers through the BGP Monitoring Protocol (RFC 7854).
    Octets arrive on a stream per monitored router (a "speaker"), are framed and
    parsed into BMP messages ([crates/rbmp-core]), and are fed into an in-memory
    model of the speakers' routing tables that emits versioned events
    ([crates/rbmp-rib]).  The routing service ([src/routing_service]) keeps the
    messages and the events in journals ([crates/rbmp-store]) from which it
    recovers after a crash.  This library models both crates, the journals, the
    service, and components of the server beside them: its own BMP receiver and
    those of NetFlow and sFlow ([src/streaming]) and of SNMP traps, the link
    from a collector to the core, the buffer that groups signals into
    incidents, the coordinator of two instances, the task that writes to the
    graph, and the remediation of incidents (proposals that an operator decides
    on, the trust they earn, and the executor of approved changes); the registry
    of devices and their assignment to collectors; the disk queue, the debouncer,
    the classification and the summaries of telemetry; login sessions and second
    factors, the credential vault, shun rules, syslog, incident workflows and
    the investigations that ask a language model.

    ** The pipeline and the files that model it

    - [Prelude]: outcomes of Rust code (value, error, panic), loops with fuel,
      and the program logic [wp] the safety theorems are stated with.
      [RustStd]: octets, slices, big-endian integers, checked and wrapping
      arithmetic, UTF-8 decoding, formatting, addresses.  [Crates]: the
      interfaces of the crates the code calls ([bytes], [ipnet], [chrono]) as
      classes whose fields are documented behaviour, with a reference instance
      for each.  [HashMaps]: the iteration order of a hash map as a parameter.
      [Tlv]: the two TLV scanning loops the parsers share.
    - [CoreError]: [error.rs].  [BgpTypes]: [bgp/types.rs].
    - NLRI and attribute decoders, one file each: [Nlri] ([bgp/nlri.rs]),
      [Evpn], [Flowspec], [SrPolicy], [Srv6], [Mvpn], [BgpLs], then [BgpAttributes]
      ([bgp/attributes.rs], which calls them) and [BgpUpdate]
      ([bgp/update.rs]).  [Capabilities]: [bgp/capabilities.rs] and
      [bgp/open.rs].
    - [BmpTypes] ([bmp/types.rs]), [PathStatusTlv] ([bmp/path_status_tlv.rs])
      and [BmpParser] ([bmp/parser.rs]): framing, per-peer header, messages.
    - [RibTable] ([table.rs]): the routes of one peer.  [RibSession]
      ([session.rs]): peers and speakers.  [RibFilter] ([filter.rs],
      [filter_expr.rs]): the filter chain.  [RibEvent] ([event.rs]): what the
      manager emits.  [RibManager] ([manager.rs]): the state machine that
      composes them.
    - [Jsonl]: files of JSON records, one per line, and the loop that reads one
      back and repairs its tail.  [Journal]: [BmpJournal] and its replay.
      [EventJournal]: [RibEventJournal] and its queries (both
      [rbmp-store/src/journal.rs]).  [RoutingService]
      ([routing_service/mod.rs]): start-up, ingestion, transport gaps.
      [Recovery]: runs of the service, crashes and restarts.
    - Beside the pipeline: [CollectorProtocol]
      ([rbmp-core/src/collector_protocol.rs]), [Netflow], [Sflow] and
      [StreamBmp] ([streaming/netflow.rs], [sflow.rs], [bmp.rs]),
      [CorrelationBuffer] ([src/correlation_buffer.rs]), [HaCoordinator]
      ([src/ha_coordinator.rs]).
    - SNMP ([signals/snmp.rs]): [Ber], the reader of its encoding, and [Snmp],
      messages and the receiver; [Text]: operations on text they share.
    - Remediation: [Approval] ([remediation/approval.rs]), [Trust]
      ([remediation/trust.rs], [graduation.rs], [rollback.rs]) and
      [Remediation] ([http_server/remediation.rs] with the functions of
      [graph/mod.rs] it calls).  [WriteCoordinator] ([write_coordinator.rs],
      [playbook.rs]): the task that writes to the graph and makes proposals of
      playbooks.
    - Security: [Clock] (readings of clocks and their arithmetic), [Session] and
      [Mfa] ([security/session.rs], [mfa.rs]), [Credentials]
      ([credentials.rs]), [IncidentResponse] ([security/incident_response.rs]).
    - Devices: [Registry] ([registry.rs] on [sqlite_store.rs]), [Assignment]
      ([assignment.rs] with what it calls of [discovery.rs] and [api.rs]).
    - Telemetry: [Telemetry] ([telemetry.rs]), [Debounce] and [IngestQueue]
      ([ingest.rs]), [SubscriptionStatus] ([subscription_status.rs]),
      [Summarizer] ([counter_summarizer.rs]).
    - Signals: [Syslog] ([signals/syslog.rs]), [Shun] ([shun.rs] with its
      handlers).
    - [Float64]: double precision numbers, on the executable specification of
      the Standard Library.  [Investigation] ([investigation_runtime.rs]).

    Records and enumerations keep the names of the source with a constructor
    prefix; a function [f] of the source is the definition [f], a loop body is
    [f_step], and an arm of a long [match] has a definition of its own, so that
    the composition reads as in the source.

    ** Modelling choices

    A function that can fail returns [Outcome E A]; a slice out of range, a
    failed [unwrap], and arithmetic overflow when the build checks it are
    [Panic].  Integers are [Z] with their width written where it matters:
    [BuildProfile] says whether overflow is checked or wraps, and every theorem
    holds for both unless it says otherwise.  Octets are [Byte.byte], buffers
    are lists, hash maps are [gmap] read in an arbitrary order ([HashOrder]).
    A [while] loop is [loop] with fuel one more than the length of its buffer
    (each round consumes an octet at least); [Diverge] is what a lack of fuel
    would give, and [wp] excludes it, so the safety theorems are also
    termination theorems.  The recursion of SR Policy segment lists is fuelled
    by the length of the buffer in the same way.

    ** What the theorems show

    - Parsers ([Nlri], [Evpn], [Flowspec], [SrPolicy], [BgpLs],
      [BgpAttributes], [BgpUpdate], [Capabilities], [BmpParser]): round trips
      with encoders written from the RFC layouts; exactness (accepted if and
      only if an encoding) of the strict TLV loops; termination and absence of
      panics on every input, or the exact sources of panics where the code has
      some; the invariants of what is returned (canonical prefixes, path
      identifiers parallel to prefixes, lengths within bounds).
    - [RibTable], [RibSession], [RibFilter]: a table refines a finite map;
      best-path selection picks a most preferred route whatever the hash order;
      stale routes are kept, dated and drained as long-lived graceful restart
      asks; a session's views of its capabilities agree; the filter chain is
      first-match and its lazy context is unobservable.
    - [RibManager]: an invariant of every reachable state, isolation of
      speakers, numbering of events, a refinement (replaying the events of a
      message on the routes before gives the routes after), fencing of stale
      connections by epochs, and what Termination and Peer Down leave behind.
    - [Journal], [EventJournal], [Recovery]: what is read back from a journal
      that was cut short anywhere; a restart after a crash at any point of a
      call gives exactly the state before or after it; the pages and the prefix
      history of the event journal; and the one live step that is not
      journalled (accepting a connection), with its consequence.
    - [Netflow], [Sflow], [StreamBmp]: every packet is handled in finite time,
      and the ways to a panic where there are some; what is sent as documented
      is published, and where the code departs from its own layout.  A BMP
      connection publishes its messages in order whatever else is on it, and
      both BMP parsers agree on the messages both read.
    - [Ber], [Snmp]: the reader accepts exactly the encodings; notifications are
      read as they were sent; the memory of duplicates is as good as an
      unbounded one; which traps pass the lists of communities.
    - [CollectorProtocol]: what a collector writes the core reads, and a frame
      that is cut short is an error, not the end of the stream.
    - [CorrelationBuffer]: no signal is lost or duplicated, which signals are
      grouped, and when a group is closed.  [HaCoordinator]: an election has
      one winner, and when two instances lead all the same.
    - [Approval]: a change is executed exactly when every gate is passed, at
      most once per key, only on a plan the digital twin accepted; the journal
      survives a restart, unless its last line is torn.
    - [Trust]: the records and the graduation hints are functions of the
      history of a tuple; the windows that are offered are the open ones.
      [Remediation]: the whole effect of an approval on every component; no
      handler but the operator's graduation takes a tuple out of approval; a
      rollback is done once, unless two requests race; and that a decision
      does not bind.  [WriteCoordinator]: no update is lost or reordered while
      the task runs, a detection is written behind the telemetry before it, and
      what happens to the proposals it makes once they are decided on.

    - [Session], [Mfa]: quotas, revocation and what outlives it, attempts and
      backup codes.  [Credentials]: the vault is a map that survives restarts,
      and how a new passphrase is undone.  [IncidentResponse]: no action before
      an approval, each workflow once and in order, the end of every execution,
      substitution independent of the order of a hash map; and that a failure
      ends as resolved.
    - [Registry], [Assignment]: the announced changes replay to the registry,
      devices survive a restart, addresses are well formed, rules are applied by
      priority, and where a departed collector gets its devices back.
    - [IngestQueue]: two files refine a bounded queue, and which crashes they
      survive.  [Telemetry], [Debounce], [SubscriptionStatus]: what is
      recognised, what is dropped as unchanged, and what the store says of a
      subscription.  [Summarizer]: summaries are those of their windows.
    - [Syslog], [Shun]: framing round trips, nothing read is missing in the
      archive, retired rules do not fire.
    - [Investigation]: reservations are exactly those of waiting investigations,
      outcomes are honest, tool calls are not repeated, every investigation
      ends; and that a daily budget is never given back.

    The theorems about panics record defects of the source: overlong prefixes
    in labeled, VPN, Flowspec, MVPN and BGP-LS decoders, the product of the
    timestamp's microseconds, the counter of BGPsec blocks, enterprise fields
    of IPFIX templates, IPv6 prefixes in the server's own BMP receiver.

    ** Not modelled

    Logging, metrics and serialisation derive macros have no effect on the
    modelled state.  Readers of YAML, the expression grammar and the Roto
    script compiler are other crates: what they return is a parameter.  The
    asynchronous reader of a frame is a function that returns octets, an error
    or a timeout.  [serde_json] is a class whose laws say that a record is read
    back from its text and not from a proper prefix of it; SHA-256 and HMAC are
    functions.  A file is its octets; failures of the file system other than
    those an argument stands for are left out.  Locks are left out too: a call
    of the service is one step, as its callers await it.
    The token, one-time password, regular expression, cache and encryption
    crates are classes with what they document; lower case beyond ASCII and the
    text of floats and debug formats are functions.  Conversions of floats in
    telemetry are left out.
    The graph database is a list of nodes with the order of its rows as a
    parameter, and a device is a function that says what a step does.
    Listeners and sockets, the gRPC clients and servers, the database store and
    the rest of the server (start-up, most HTTP handlers, configuration files,
    enrichment and output adapters, most of the topology graph, machine-learning
    jobs) are calls of other libraries or formatting of what they return, and
    are not modelled. *)

From Stdlib Require Import ZArith Lia ZifyBool.
From stdpp Require Import base numbers list option.

Local Open Scope Z_scope.

(** ** Outcomes of Rust code

    A Rust function that returns [Result<A, E>] either returns [Ok a],
    returns [Err e], or panics (index out of bounds, arithmetic overflow with
    overflow checks on, slice out of range).  [Diverge] is what a loop of the
    model returns when its fuel runs out; no loop of the source corresponds to
    it, and the theorems exclude it. *)
Inductive Outcome (E A : Type) : Type :=
| Ok (a : A)
| Err (e : E)
| Panic
| Diverge.

Arguments Ok {E A} a.
Arguments Err {E A} e.
Arguments Panic {E A}.
Arguments Diverge {E A}.

#[global] Instance outcome_ret E : MRet (Outcome E) := fun A a => Ok a.

#[global] Instance outcome_bind E : MBind (Outcome E) := fun A B f o =>
  match o with
  | Ok a => f a
  | Err e => Err e
  | Panic => Panic
  | Diverge => Diverge
  end.

#[global] Instance outcome_fmap E : FMap (Outcome E) := fun A B f o =>
  match o with
  | Ok a => Ok (f a)
  | Err e => Err e
  | Panic => Panic
  | Diverge => Diverge
  end.

(** Reading an option whose [None] is a panic of the callee. *)
Definition or_panic {E A} (o : option A) : Outcome E A :=
  match o with Some a => Ok a | None => Panic end.

(** Reading an option whose [None] becomes an error of the caller
    ([.map_err(...)?] and [.ok_or(...)?]). *)
Definition or_err {E A} (o : option A) (e : E) : Outcome E A :=
  match o with Some a => Ok a | None => Err e end.

(** [r.unwrap_or(d)] and [r.unwrap_or_default()] of a [Result]. *)
Definition unwrap_or {E E' A} (d : A) (o : Outcome E A) : Outcome E' A :=
  match o with
  | Ok a => Ok a
  | Err _ => Ok d
  | Panic => Panic
  | Diverge => Diverge
  end.

(** [r.ok()] of a [Result]. *)
Definition result_ok {E E' A} (o : Outcome E A) : Outcome E' (option A) :=
  match o with
  | Ok a => Ok (Some a)
  | Err _ => Ok None
  | Panic => Panic
  | Diverge => Diverge
  end.

(** [while] and [loop] of the source.  The body returns [inl s] to go round
    again with state [s] and [inr r] to leave the loop with [r]. *)
Fixpoint loop {E S R} (fuel : nat) (body : S -> Outcome E (S + R)) (s : S) : Outcome E R :=
  match fuel with
  | O => Diverge
  | Datatypes.S fuel' =>
      match body s with
      | Ok (inl s') => loop fuel' body s'
      | Ok (inr r) => Ok r
      | Err e => Err e
      | Panic => Panic
      | Diverge => Diverge
      end
  end.

(** [for x in xs { ... }] over a sequence known before the loop starts. *)
Fixpoint for_each {E A S} (xs : list A) (body : A -> S -> Outcome E S) (s : S) : Outcome E S :=
  match xs with
  | [] => Ok s
  | x :: xs' => body x s ≫= for_each xs' body
  end.

(** ** A small program logic

    [wp pn o Q]: the outcome [o] is not divergence, it is a panic only if [pn]
    allows it, and if it is [Ok a] then [Q a].  With [pn := False] it states
    termination and absence of panics, with [pn := True] termination alone. *)
Definition wp {E A} (pn : Prop) (o : Outcome E A) (Q : A -> Prop) : Prop :=
  match o with
  | Ok a => Q a
  | Err _ => True
  | Panic => pn
  | Diverge => False
  end.

(** The run did not panic and did not diverge. *)
Definition safe {E A} (o : Outcome E A) : Prop := wp False o (fun _ => True).

(** The run ended (normally, with an error or with a panic). *)
Definition terminates {E A} (o : Outcome E A) : Prop := wp True o (fun _ => True).

Create HintDb wp.

Section WpRules.
Context {E : Type} (pn : Prop).

Lemma wp_ok {A} (a : A) (Q : A -> Prop) : Q a -> wp (E := E) pn (Ok a) Q.
Proof. done. Qed.

Lemma wp_err {A} (e : E) (Q : A -> Prop) : wp pn (Err e) Q.
Proof. exact I. Qed.

Lemma wp_mono {A} (o : Outcome E A) (Q Q' : A -> Prop) :
  wp pn o Q -> (forall a, Q a -> Q' a) -> wp pn o Q'.
Proof. destruct o; simpl; auto. Qed.

Lemma wp_bind {A B} (o : Outcome E A) (f : A -> Outcome E B) (Q : B -> Prop) :
  wp pn o (fun a => wp pn (f a) Q) -> wp pn (o ≫= f) Q.
Proof. by destruct o. Qed.

Lemma wp_bind_inv {A B} (o : Outcome E A) (f : A -> Outcome E B) (Q : B -> Prop) :
  wp pn (o ≫= f) Q -> wp pn o (fun a => wp pn (f a) Q).
Proof. by destruct o. Qed.

Lemma wp_fmap {A B} (o : Outcome E A) (f : A -> B) (Q : B -> Prop) :
  wp pn o (fun a => Q (f a)) -> wp pn (f <$> o) Q.
Proof. by destruct o. Qed.

(** For a chain of guards whose failure tells nothing of use. *)
Lemma wp_guard {A} (c : bool) (o1 o2 : Outcome E A) (Q : A -> Prop) :
  (c = true -> wp pn o1 Q) -> wp pn o2 Q -> wp pn (if c then o1 else o2) Q.
Proof. destruct c; auto. Qed.

Lemma wp_or_err {A} (o : option A) (e : E) (Q : A -> Prop) :
  (forall a, o = Some a -> Q a) -> wp pn (or_err o e) Q.
Proof. destruct o; simpl; auto. Qed.

Lemma wp_or_panic {A} (o : option A) (Q : A -> Prop) :
  (o = None -> pn) -> (forall a, o = Some a -> Q a) -> wp (E := E) pn (or_panic o) Q.
Proof. destruct o; simpl; auto. Qed.

Lemma wp_unwrap_or {E' A} (d : A) (o : Outcome E' A) (Q : A -> Prop) :
  Q d -> wp pn o Q -> wp (E := E) pn (unwrap_or d o) Q.
Proof. by destruct o. Qed.

Lemma wp_result_ok {E' A} (o : Outcome E' A) (Q : option A -> Prop) :
  Q None -> wp pn o (fun a => Q (Some a)) -> wp (E := E) pn (result_ok o) Q.
Proof. by destruct o. Qed.

(** The loop rule: an invariant, a measure below the fuel, and a body that
    keeps the first and lowers the second whenever it goes round again. *)
Lemma wp_loop {S R} (I : S -> Prop) (m : S -> nat) (fuel : nat)
    (body : S -> Outcome E (S + R)) (s : S) (Q : R -> Prop) :
  I s -> (m s < fuel)%nat ->
  (forall s, I s ->
     wp pn (body s) (fun r => match r with
                              | inl s' => I s' /\ (m s' < m s)%nat
                              | inr x => Q x
                              end)) ->
  wp pn (loop fuel body s) Q.
Proof.
  intros HI Hm Hbody. revert s HI Hm.
  induction fuel as [|fuel IH]; intros s HI Hm; [lia|]. simpl.
  specialize (Hbody s HI). destruct (body s) as [[s'|r]| | |]; simpl in *; auto.
  destruct Hbody. apply IH; [done|lia].
Qed.

Lemma wp_for_each {A S} (I : S -> Prop) (xs : list A) (body : A -> S -> Outcome E S) (s : S) :
  I s -> (forall x s, x ∈ xs -> I s -> wp pn (body x s) I) ->
  wp pn (for_each xs body s) I.
Proof.
  revert s. induction xs as [|x xs IH]; intros s HI Hbody; simpl; [done|].
  apply wp_bind. eapply wp_mono; [apply Hbody; [apply list_elem_of_here|done]|].
  intros s' HI'. apply IH; [done|]. intros y t Hy. apply Hbody. by apply list_elem_of_further.
Qed.

(** The rule for a traversal whose invariant speaks of the elements done. *)
Lemma wp_for_each_done {A S} (I : list A -> S -> Prop) (xs : list A) (body : A -> S -> Outcome E S) (s : S) :
  I [] s ->
  (forall prev x s, (exists todo, xs = prev ++ x :: todo) -> I prev s -> wp pn (body x s) (I (prev ++ [x]))) ->
  wp pn (for_each xs body s) (I xs).
Proof.
  intros HI Hbody.
  assert (forall todo prev s, xs = prev ++ todo -> I prev s -> wp pn (for_each todo body s) (I xs)) as Hgen.
  { induction todo as [|x todo IH]; intros prev s' Hxs HI'; simpl.
    - by rewrite Hxs, app_nil_r.
    - apply wp_bind. eapply wp_mono; [apply (Hbody prev); [by exists todo|done]|].
      intros s'' HI''. apply (IH (prev ++ [x])); [by rewrite <- app_assoc|done]. }
  by apply (Hgen xs []).
Qed.

End WpRules.

(** The rule of consequence, with the panic condition weakened too. *)
Lemma wp_conseq {E A} (pn pn' : Prop) (o : Outcome E A) (Q Q' : A -> Prop) :
  wp pn o Q -> (pn -> pn') -> (forall a, Q a -> Q' a) -> wp pn' o Q'.
Proof. destruct o; simpl; auto. Qed.

Lemma wp_and {E A} (pn : Prop) (o : Outcome E A) (P Q : A -> Prop) :
  wp pn o P -> wp True o Q -> wp pn o (fun a => P a /\ Q a).
Proof. by destruct o. Qed.

(** What [wp] says of an outcome that is known. *)
Lemma wp_ok_inv {E A} pn (o : Outcome E A) (Q : A -> Prop) a :
  wp pn o Q -> o = Ok a -> Q a.
Proof. by intros H ->. Qed.

Lemma wp_not_diverge {E A} pn (o : Outcome E A) (Q : A -> Prop) :
  wp pn o Q -> o <> Diverge.
Proof. by intros H ->. Qed.

Lemma wp_no_panic {E A} (o : Outcome E A) (Q : A -> Prop) :
  wp False o Q -> o <> Panic.
Proof. by intros H ->. Qed.

Lemma wp_post {E A} (pn : Prop) (o : Outcome E A) (Q : A -> Prop) :
  wp pn o (fun _ => True) -> (forall a, o = Ok a -> Q a) -> wp pn o Q.
Proof. destruct o; simpl; auto. Qed.

Lemma wp_true {E A} (pn : Prop) (o : Outcome E A) (Q : A -> Prop) :
  wp pn o Q -> wp pn o (fun _ => True).
Proof. destruct o; simpl; auto. Qed.

(** Inverting a successful run. *)
Lemma bind_Ok_inv {E A B} (o : Outcome E A) (f : A -> Outcome E B) b :
  o ≫= f = Ok b -> exists a, o = Ok a /\ f a = Ok b.
Proof. destruct o; simpl; intros H; try discriminate. eauto. Qed.

Lemma bind_Ok {E A B} (a : A) (f : A -> Outcome E B) : Ok a ≫= f = f a.
Proof. done. Qed.

Lemma loop_S {E S R} fuel (body : S -> Outcome E (S + R)) s :
  loop (Datatypes.S fuel) body s =
    match body s with
    | Ok (inl s') => loop fuel body s'
    | Ok (inr r) => Ok r
    | Err e => Err e
    | Panic => Panic
    | Diverge => Diverge
    end.
Proof. done. Qed.

(** More fuel than the loop needs does not change what it returns. *)
Lemma loop_fuel_mono {E S R} (body : S -> Outcome E (S + R)) fuel fuel' s o :
  loop fuel body s = o -> o <> Diverge -> (fuel <= fuel')%nat -> loop fuel' body s = o.
Proof.
  revert fuel' s. induction fuel as [|fuel IH]; intros fuel' s H Ho Hle; simpl in *; [congruence|].
  destruct fuel' as [|fuel']; [lia|]. simpl.
  destruct (body s) as [[s'|r]| | |]; auto. apply IH; auto with lia.
Qed.

(** A loop whose states and results are images of another's returns the image
    of what the other returns. *)
Lemma loop_sim {E S S' R R'} (f : S -> S') (g : R -> R')
    (body : S -> Outcome E (S + R)) (body' : S' -> Outcome E (S' + R')) fuel s :
  (forall s, body' (f s) =
     (fun r => match r with inl s1 => inl (f s1) | inr x => inr (g x) end) <$> body s) ->
  loop fuel body' (f s) = g <$> loop fuel body s.
Proof.
  intros Hsim. revert s. induction fuel as [|fuel IH]; intros s; [done|].
  simpl. rewrite Hsim. destruct (body s) as [[s1|r]| | |]; simpl; auto.
Qed.

(** ** Streams

    A decoder that takes one encoded item off the front of its buffer per
    iteration decodes the concatenation of encoded items. *)
Lemma loop_stream_prefix {E A B C R} (step : list B * list C -> Outcome E ((list B * list C) + R))
    (enc : A -> list B) (out : A -> C) (P : A -> Prop) (tail : list B) es acc fuel :
  (forall e rest acc, P e -> step (enc e ++ rest, acc) = Ok (inl (rest, acc ++ [out e]))) ->
  Forall P es ->
  loop (length es + fuel) step ((es ≫= enc) ++ tail, acc) = loop fuel step (tail, acc ++ (out <$> es)).
Proof.
  intros Hstep HP. revert acc. induction HP as [|e es He HP IH]; intros acc.
  - by rewrite app_nil_r.
  - simpl length. rewrite Nat.add_succ_l, loop_S, bind_cons, <- app_assoc, Hstep by done.
    rewrite IH. by rewrite <- app_assoc.
Qed.

(** The fuel the decoders use, one more than the octets of the buffer, is
    enough when no item is empty. *)
Lemma length_stream {A B} (enc : A -> list B) (P : A -> Prop) (es : list A) :
  (forall e, P e -> enc e <> []) -> Forall P es -> (length es <= length (es ≫= enc))%nat.
Proof.
  intros Hne. induction 1 as [|e es He _ IH]; [done|]. rewrite bind_cons, length_app. simpl.
  specialize (Hne e He). destruct (enc e); [done|]. simpl. lia.
Qed.

Lemma loop_stream_tail {E A B C R} (step : list B * list C -> Outcome E ((list B * list C) + R))
    (enc : A -> list B) (out : A -> C) (P : A -> Prop) (tail : list B) es acc (o : Outcome E R) :
  (forall e rest acc, P e -> step (enc e ++ rest, acc) = Ok (inl (rest, acc ++ [out e]))) ->
  (forall e, P e -> enc e <> []) ->
  (forall fuel, loop (S fuel) step (tail, acc ++ (out <$> es)) = o) ->
  Forall P es ->
  loop (S (length ((es ≫= enc) ++ tail))) step ((es ≫= enc) ++ tail, acc) = o.
Proof.
  intros Hstep Hne Htail HP. pose proof (length_stream enc P es Hne HP).
  rewrite length_app. set (n := length (es ≫= enc)) in *.
  replace (S (n + length tail)) with (length es + S (n - length es + length tail))%nat by lia.
  by rewrite (loop_stream_prefix step enc out P).
Qed.

Lemma loop_stream {E A B} (step : list B * list A -> Outcome E ((list B * list A) + list A))
    (enc : A -> list B) (P : A -> Prop) es :
  (forall e rest acc, P e -> step (enc e ++ rest, acc) = Ok (inl (rest, acc ++ [e]))) ->
  (forall e, P e -> enc e <> []) ->
  (forall acc, step ([], acc) = Ok (inr acc)) ->
  Forall P es ->
  loop (S (length (es ≫= enc))) step (es ≫= enc, []) = Ok es.
Proof.
  intros Hstep Hne Hnil HP. rewrite <- (app_nil_r (es ≫= enc)).
  apply (loop_stream_tail step enc id P); [done|done| |done].
  intros fuel. by rewrite loop_S, Hnil, list_fmap_id.
Qed.

(** A traversal of a concatenation is the one traversal after the other. *)
Lemma for_each_app {E A S} (xs ys : list A) (body : A -> S -> Outcome E S) s :
  for_each (xs ++ ys) body s = (s ← for_each xs body s; for_each ys body s).
Proof. revert s. induction xs as [|x xs IH]; intros s; [done|]. cbn [app for_each]. destruct (body x s); [apply IH|done..]. Qed.

(** A filter that keeps everything, and one that keeps nothing. *)
Lemma filter_all {A} (P : A -> Prop) `{forall x, Decision (P x)} (l : list A) : Forall P l -> base.filter P l = l.
Proof. induction 1 as [|x l Hx _ IH]; [done|]. rewrite filter_cons_True by done. by f_equal. Qed.

Lemma filter_none {A} (P : A -> Prop) `{forall x, Decision (P x)} (l : list A) :
  Forall (fun x => ~ P x) l -> base.filter P l = [].
Proof. induction 1 as [|x l Hx _ IH]; [done|]. by rewrite filter_cons_False. Qed.

(** [mapM] over a concatenation: the second part runs if the first succeeds. *)
Lemma mapM_app_outcome {E A B} (f : A -> Outcome E B) l1 l2 :
  mapM f (l1 ++ l2) = (r1 ← mapM f l1; r2 ← mapM f l2; Ok (r1 ++ r2)).
Proof.
  induction l1 as [|x l1 IH]; simpl; [by destruct (mapM f l2)|].
  destruct (f x); simpl; try done. rewrite IH.
  destruct (mapM f l1); simpl; try done. by destruct (mapM f l2).
Qed.

(** A stream decoder that parses each item with [f] is [mapM f] of the items. *)
Lemma loop_stream_mapM {E A B C} (step : list B * list C -> Outcome E ((list B * list C) + list C))
    (enc : A -> list B) (f : A -> Outcome E C) (P : A -> Prop) (tail : list B) es acc fuel :
  (forall e rest acc, P e ->
     step (enc e ++ rest, acc) = (r ← f e; Ok (inl (rest, acc ++ [r])))) ->
  (forall acc, step (tail, acc) = Ok (inr acc)) ->
  Forall P es -> (length es < fuel)%nat ->
  loop fuel step ((es ≫= enc) ++ tail, acc) = (rs ← mapM f es; Ok (acc ++ rs)).
Proof.
  intros Hstep Htail HP. revert acc fuel. induction HP as [|e es He HP IH]; intros acc fuel Hf.
  all: destruct fuel as [|fuel]; [simpl in Hf; lia|]; rewrite loop_S.
  - simpl. rewrite Htail. by rewrite app_nil_r.
  - rewrite bind_cons, <- app_assoc, Hstep by done. simpl mapM.
    destruct (f e) as [r| | |]; try done. simpl. rewrite IH by (simpl in Hf; lia).
    destruct (mapM f es); simpl; try done. by rewrite <- app_assoc.
Qed.

(** ** Tactics *)

(** Split the boolean tests a hypothesis or the goal depends on. *)
Ltac case_if :=
  match goal with
  | |- context [if ?c then _ else _] => destruct c eqn:?
  | H : context [if ?c then _ else _] |- _ => destruct c eqn:?
  end.

(** Invert a successful bind: [H : o ≫= f = Ok b]. *)
Ltac inv_ok H :=
  let a := fresh "a" in let H1 := fresh "Heq" in
  apply bind_Ok_inv in H as (a & H1 & H).

(** One structural step of a [wp] goal. *)
Ltac wp_core :=
  lazymatch goal with
  | |- wp _ (mret _) _ => apply wp_ok
  | |- wp _ (Ok _) _ => apply wp_ok
  | |- wp _ (Err _) _ => apply wp_err
  | |- wp _ (_ ≫= _) _ => apply wp_bind
  | |- wp _ (_ <$> _) _ => apply wp_fmap
  | |- wp _ (or_err _ _) _ => apply wp_or_err; intros ? ?
  | |- wp _ (if ?c then _ else _) _ => destruct c eqn:?
  | |- wp _ (let '(_, _) := ?x in _) _ => destruct x eqn:?
  | |- wp _ (match ?x with _ => _ end) _ => destruct x eqn:?
  end.

(** Arithmetic side conditions of reads: bounds from the guards. *)
Ltac bounds := simpl in *; subst; try lia.

(** Use a specification from the [wp] hint database. *)
Ltac wp_call := eapply wp_mono; [solve [eauto with wp]|].
