(* ===== verification/RustStd.v ===== *)
(** * The parts of the Rust language and standard library the sources use

    Byte slices with checked indexing, big-endian integers, machine-width
    arithmetic under the two overflow regimes, strings (UTF-8 with lossy
    decoding, number formatting) and IP addresses.

    A [u8] inside a buffer is a [Byte.byte]; every other integer is a [Z] and
    its width is written out where it matters.  [usize] positions are [Z]:
    they are bounded by buffer lengths, which never reach [2^63]. *)

From Stdlib Require Import ZArith Lia ZifyBool String Ascii.
From stdpp Require Import base numbers list option strings pretty countable.
From S2P Require Import Prelude.

Local Open Scope Z_scope.

(** ** Bytes *)

Abbreviation byte := Byte.byte.
Abbreviation bytes := (list Byte.byte).

#[global] Instance byte_eq_dec : EqDecision byte := Byte.byte_eq_dec.

(** The value of a [u8]. *)
Definition u8 (b : byte) : Z := Z.of_N (Byte.to_N b).

(** [v as u8]: the low eight bits. *)
Definition as_u8 (v : Z) : byte :=
  match Byte.of_N (Z.to_N (v mod 256)) with Some b => b | None => Byte.x00 end.

(** Byte strings written as numbers. *)
Definition bs (l : list Z) : bytes := as_u8 <$> l.

Definition blen {A} (b : list A) : Z := Z.of_nat (length b).

(** [buf[i]] *)
Definition idx {E} (b : bytes) (i : Z) : Outcome E Z :=
  if (0 <=? i) && (i <? blen b)
  then match b !! Z.to_nat i with Some v => Ok (u8 v) | None => Panic end
  else Panic.

(** [&buf[i..j]] *)
Definition slice {E A} (b : list A) (i j : Z) : Outcome E (list A) :=
  if (0 <=? i) && (i <=? j) && (j <=? blen b)
  then Ok (take (Z.to_nat (j - i)) (drop (Z.to_nat i) b))
  else Panic.

(** [&buf[i..]] *)
Definition slice_from {E A} (b : list A) (i : Z) : Outcome E (list A) :=
  slice b i (blen b).

(** [uN::from_be_bytes] *)
Definition be (b : bytes) : Z := foldl (fun acc v => acc * 256 + u8 v) 0 b.

(** [uN::from_be_bytes([buf[p], ..., buf[p + n - 1]])] *)
Definition be_at {E} (n : Z) (b : bytes) (p : Z) : Outcome E Z := be <$> slice b p (p + n).

(** [uN::to_be_bytes], [n] octets. *)
Fixpoint to_be (n : nat) (v : Z) : bytes :=
  match n with
  | O => []
  | S n' => to_be n' (v / 256) ++ [as_u8 v]
  end.

(** [dst[..src.len()].copy_from_slice(src)] on a zeroed array of [n] bytes:
    a source longer than the array makes the slice of the array panic. *)
Definition copy_into_zeroed {E} (n : Z) (src : bytes) : Outcome E bytes :=
  if blen src <=? n then Ok (src ++ replicate (Z.to_nat (n - blen src)) Byte.x00) else Panic.

(** [n.div_ceil(8)] *)
Definition div_ceil8 (n : Z) : Z := (n + 7) / 8.

(** [v & mask != 0] *)
Definition bit_set (v mask : Z) : bool := negb (Z.land v mask =? 0).

(** ** Arithmetic at machine width

    Overflow panics when the build has overflow checks (the [dev] and [ci]
    profiles) and wraps when it has none (the [release] profile). *)
Class BuildProfile := overflow_checks : bool.

Definition checked_width {E} `{BuildProfile} (w v : Z) : Outcome E Z :=
  if (0 <=? v) && (v <? 2 ^ w) then Ok v
  else if overflow_checks then Panic else Ok (v mod 2 ^ w).

(** [as i64] and arithmetic on [i64]. *)
Definition as_i64 (v : Z) : Z := (v + 2 ^ 63) mod 2 ^ 64 - 2 ^ 63.

Definition checked_i64 {E} `{BuildProfile} (v : Z) : Outcome E Z :=
  if (- 2 ^ 63 <=? v) && (v <? 2 ^ 63) then Ok v
  else if overflow_checks then Panic else Ok (as_i64 v).

Lemma checked_i64_ok {E} `{BuildProfile} v : - 2 ^ 63 <= v < 2 ^ 63 -> checked_i64 (E := E) v = Ok v.
Proof. intros Hv. unfold checked_i64. by rewrite (proj2 (Z.leb_le _ _)), (proj2 (Z.ltb_lt _ _)) by lia. Qed.

(** [wrapping_add] and [wrapping_mul] on [u64] *)
Definition wrapping_add64 (a b : Z) : Z := (a + b) mod 2 ^ 64.
Definition wrapping_mul64 (a b : Z) : Z := (a * b) mod 2 ^ 64.

(** ** Strings *)

(** A Rust [String] is a sequence of UTF-8 octets: here a [string] of them. *)
Definition string_of_bytes (b : bytes) : string := string_of_list_byte b.

Definition utf8_cont (b : byte) : bool := (0x80 <=? u8 b) && (u8 b <=? 0xBF).

Definition in_range (lo hi v : Z) : bool := (lo <=? v) && (v <=? hi).

(** The second octet a three- or four-octet sequence may have. *)
Definition utf8_second_ok (b0 b1 : byte) : bool :=
  let v0 := u8 b0 in let v1 := u8 b1 in
  if v0 =? 0xE0 then in_range 0xA0 0xBF v1
  else if v0 =? 0xED then in_range 0x80 0x9F v1
  else if v0 =? 0xF0 then in_range 0x90 0xBF v1
  else if v0 =? 0xF4 then in_range 0x80 0x8F v1
  else in_range 0x80 0xBF v1.

(** One step of the decoder behind [String::from_utf8_lossy]: whether the
    octets at the front form a character, and how many octets are taken (for
    an ill-formed sequence, its maximal well-formed prefix). *)
Definition utf8_step (b0 : byte) (rest : bytes) : bool * nat :=
  let v0 := u8 b0 in
  if v0 <? 0x80 then (true, 1%nat)
  else if in_range 0xC2 0xDF v0 then
    match rest with
    | b1 :: _ => if utf8_cont b1 then (true, 2%nat) else (false, 1%nat)
    | [] => (false, 1%nat)
    end
  else if in_range 0xE0 0xEF v0 then
    match rest with
    | b1 :: rest1 =>
        if utf8_second_ok b0 b1 then
          match rest1 with
          | b2 :: _ => if utf8_cont b2 then (true, 3%nat) else (false, 2%nat)
          | [] => (false, 2%nat)
          end
        else (false, 1%nat)
    | [] => (false, 1%nat)
    end
  else if in_range 0xF0 0xF4 v0 then
    match rest with
    | b1 :: rest1 =>
        if utf8_second_ok b0 b1 then
          match rest1 with
          | b2 :: rest2 =>
              if utf8_cont b2 then
                match rest2 with
                | b3 :: _ => if utf8_cont b3 then (true, 4%nat) else (false, 3%nat)
                | [] => (false, 3%nat)
                end
              else (false, 2%nat)
          | [] => (false, 2%nat)
          end
        else (false, 1%nat)
    | [] => (false, 1%nat)
    end
  else (false, 1%nat).

(** U+FFFD REPLACEMENT CHARACTER *)
Definition replacement : bytes := [Byte.xef; Byte.xbf; Byte.xbd].

Fixpoint utf8_lossy (fuel : nat) (b : bytes) : bytes :=
  match fuel, b with
  | S fuel', b0 :: rest =>
      let '(valid, n) := utf8_step b0 rest in
      (if valid then take n b else replacement) ++ utf8_lossy fuel' (drop n b)
  | _, _ => []
  end.

(** [String::from_utf8_lossy]: every step takes at least one octet, so the
    length of the input is enough fuel. *)
Definition from_utf8_lossy (b : bytes) : string := string_of_bytes (utf8_lossy (length b) b).

(** Number formatting: [{}] and [{:x}] and [{:02x}]. *)
Definition fmt_dec (v : Z) : string := pretty v.

Definition hex_digit (v : Z) : string :=
  match String.get (Z.to_nat v) "0123456789abcdef" with
  | Some c => String c EmptyString
  | None => EmptyString
  end.

Fixpoint fmt_hex_fuel (fuel : nat) (v : Z) : string :=
  match fuel with
  | O => EmptyString
  | S fuel' => if v <? 16 then hex_digit v
               else (fmt_hex_fuel fuel' (v / 16) ++ hex_digit (v mod 16))%string
  end.

(** Sixteen digits are enough for a [u64]. *)
Definition fmt_hex (v : Z) : string := fmt_hex_fuel 16 v.

Definition fmt_hex2 (b : byte) : string :=
  (hex_digit (u8 b / 16) ++ hex_digit (u8 b mod 16))%string.

(** [hex::encode] and [iter().map(|b| format!("{b:02x}")).collect::<String>()] *)
Definition hex_encode (b : bytes) : string := String.concat "" (fmt_hex2 <$> b).

(** ** IP addresses *)

Abbreviation Ipv4Addr := (list Byte.byte) (only parsing).
Abbreviation Ipv6Addr := (list Byte.byte) (only parsing).

(** [std::net::IpAddr], each address its octets. *)
Inductive IpAddr : Type :=
| IpAddr_V4 (a : Ipv4Addr)
| IpAddr_V6 (a : Ipv6Addr).

(** [Display for Ipv4Addr] *)
Definition ipv4_to_string (a : Ipv4Addr) : string :=
  String.concat "." ((fun b => fmt_dec (u8 b)) <$> a).

(** The eight 16-bit segments of an IPv6 address. *)
Fixpoint ipv6_segments (a : bytes) : list Z :=
  match a with
  | h :: l :: a' => (u8 h * 256 + u8 l) :: ipv6_segments a'
  | _ => []
  end.

(** The longest run of zero segments (the first of the longest), as
    [(start, length)]. *)
Fixpoint longest_zero_run (segs : list Z) (i cur_start cur_len best_start best_len : nat)
    : nat * nat :=
  match segs with
  | [] => (best_start, best_len)
  | s :: segs' =>
      if s =? 0 then
        let start := if (cur_len =? 0)%nat then i else cur_start in
        let len := S cur_len in
        if (best_len <? len)%nat
        then longest_zero_run segs' (S i) start len start len
        else longest_zero_run segs' (S i) start len best_start best_len
      else longest_zero_run segs' (S i) 0 0 best_start best_len
  end.

Definition fmt_segments (segs : list Z) : string := String.concat ":" (fmt_hex <$> segs).

(** [Display for Ipv6Addr] *)
Definition ipv6_to_string (a : Ipv6Addr) : string :=
  if bool_decide (take 12 a = replicate 10 Byte.x00 ++ [Byte.xff; Byte.xff])
  then ("::ffff:" ++ ipv4_to_string (drop 12 a))%string
  else
    let segs := ipv6_segments a in
    let '(start, len) := longest_zero_run segs 0 0 0 0 0 in
    if (1 <? len)%nat
    then (fmt_segments (take start segs) ++ "::" ++ fmt_segments (drop (start + len) segs))%string
    else fmt_segments segs.

(** [Display for IpAddr] *)
Definition ip_to_string (a : IpAddr) : string :=
  match a with IpAddr_V4 a => ipv4_to_string a | IpAddr_V6 a => ipv6_to_string a end.

(** ** Instances *)

#[global] Instance byte_countable : Countable byte.
Proof.
  refine (inj_countable Byte.to_N Byte.of_N _).
  intros b. apply Byte.of_to_N.
Defined.

#[global] Instance ipaddr_eq_dec : EqDecision IpAddr.
Proof. solve_decision. Defined.

#[global] Instance ipaddr_countable : Countable IpAddr.
Proof.
  refine (inj_countable'
    (fun a => match a with IpAddr_V4 a => inl a | IpAddr_V6 a => inr a end)
    (fun a => match a with inl a => IpAddr_V4 a | inr a => IpAddr_V6 a end) _).
  by intros [].
Defined.

(** ** Lemmas *)

Lemma u8_bounds b : 0 <= u8 b < 256.
Proof. unfold u8. pose proof (Byte.to_N_bounded b). lia. Qed.

Lemma as_u8_u8 b : as_u8 (u8 b) = b.
Proof.
  unfold as_u8. rewrite Z.mod_small by apply u8_bounds.
  unfold u8. by rewrite N2Z.id, Byte.of_to_N.
Qed.

Lemma u8_as_u8 v : 0 <= v < 256 -> u8 (as_u8 v) = v.
Proof.
  intros Hv. unfold as_u8. rewrite Z.mod_small by lia.
  destruct (Byte.of_N (Z.to_N v)) as [b|] eqn:Hb.
  - apply Byte.to_of_N in Hb. unfold u8. lia.
  - apply Byte.of_N_None_iff in Hb. lia.
Qed.

Lemma as_u8_mod v : as_u8 v = as_u8 (v mod 256).
Proof. unfold as_u8. by rewrite Z.mod_mod by lia. Qed.

Lemma u8_inj b b' : u8 b = u8 b' -> b = b'.
Proof. intros H. by rewrite <- (as_u8_u8 b), H, as_u8_u8. Qed.

Lemma blen_nonneg {A} (b : list A) : 0 <= blen b.
Proof. unfold blen. lia. Qed.

Lemma blen_nil {A} : @blen A [] = 0.
Proof. done. Qed.

Lemma blen_cons {A} (x : A) b : blen (x :: b) = 1 + blen b.
Proof. unfold blen. simpl. lia. Qed.

Lemma blen_app {A} (b c : list A) : blen (b ++ c) = blen b + blen c.
Proof. unfold blen. rewrite length_app. lia. Qed.

Lemma blen_take {A} (b : list A) n :
  0 <= n <= blen b -> blen (take (Z.to_nat n) b) = n.
Proof. unfold blen. rewrite length_take. lia. Qed.

Lemma blen_drop {A} (b : list A) n :
  0 <= n <= blen b -> blen (drop (Z.to_nat n) b) = blen b - n.
Proof. unfold blen. rewrite length_drop. lia. Qed.

Lemma blen_zero_nil {A} (b : list A) : blen b <= 0 -> b = [].
Proof. destruct b; [done|]. unfold blen. simpl. lia. Qed.

Lemma length_blen {A} (b : list A) : length b = Z.to_nat (blen b).
Proof. unfold blen. lia. Qed.

Lemma slice_ok {E A} (b : list A) i j :
  0 <= i -> i <= j -> j <= blen b ->
  slice (E := E) b i j = Ok (take (Z.to_nat (j - i)) (drop (Z.to_nat i) b)).
Proof.
  intros. unfold slice.
  by rewrite (proj2 (Z.leb_le 0 i)), (proj2 (Z.leb_le i j)), (proj2 (Z.leb_le j _)) by done.
Qed.

Lemma slice_inv {E A} (b r : list A) i j :
  slice (E := E) b i j = Ok r ->
  0 <= i <= j /\ j <= blen b /\ blen r = j - i /\
  r = take (Z.to_nat (j - i)) (drop (Z.to_nat i) b).
Proof.
  unfold slice. case_if; [|done]. intros [= <-].
  repeat split; try lia. rewrite blen_take; [done|]. rewrite blen_drop; lia.
Qed.

(** Reading the middle of a buffer. *)
Lemma slice_app {E A} (pre x post : list A) i j :
  i = blen pre -> j = blen pre + blen x -> slice (E := E) (pre ++ x ++ post) i j = Ok x.
Proof.
  intros -> ->. pose proof (blen_nonneg pre). pose proof (blen_nonneg x). pose proof (blen_nonneg post).
  rewrite slice_ok by (rewrite ?blen_app; lia).
  replace (Z.to_nat (blen pre + blen x - blen pre)) with (length x) by (rewrite length_blen; lia).
  rewrite <- length_blen, drop_app_length, take_app_length. done.
Qed.

Lemma slice_from_app {E A} (pre x : list A) i :
  i = blen pre -> slice_from (E := E) (pre ++ x) i = Ok x.
Proof.
  intros ->. unfold slice_from. rewrite blen_app. rewrite <- (app_nil_r x) at 1. by apply slice_app.
Qed.

Lemma slice_to_app {E A} (x post : list A) j :
  j = blen x -> slice (E := E) (x ++ post) 0 j = Ok x.
Proof. intros ->. by apply (slice_app [] x post). Qed.

Lemma slice_split {E A} (b r : list A) i j :
  slice (E := E) b i j = Ok r ->
  exists pre post, b = pre ++ r ++ post /\ blen pre = i /\ blen r = j - i.
Proof.
  intros (?&?&Hr&->)%slice_inv.
  exists (take (Z.to_nat i) b), (drop (Z.to_nat (j - i)) (drop (Z.to_nat i) b)).
  rewrite take_drop, take_drop. split; [done|]. split; [apply blen_take; lia|done].
Qed.

Lemma be_at_app {E} n pre x post i :
  i = blen pre -> blen x = n -> be_at (E := E) n (pre ++ x ++ post) i = Ok (be x).
Proof. intros -> <-. unfold be_at. by rewrite (slice_app pre x post). Qed.

(** The same, for a buffer known by its parts. *)
Lemma slice_at {E A} (b pre x post : list A) i j :
  b = pre ++ x ++ post -> blen pre = i -> i + blen x = j -> slice (E := E) b i j = Ok x.
Proof. intros -> <- <-. by apply slice_app. Qed.

Lemma be_at_at {E} n (b pre x post : bytes) i :
  b = pre ++ x ++ post -> blen pre = i -> blen x = n -> be_at (E := E) n b i = Ok (be x).
Proof. intros -> <- <-. by apply be_at_app. Qed.

Lemma be_snoc b v : be (b ++ [v]) = be b * 256 + u8 v.
Proof. unfold be. by rewrite foldl_app. Qed.

Lemma be_bounds b : 0 <= be b < 256 ^ blen b.
Proof.
  induction b as [|v b IH] using rev_ind; [done|].
  rewrite be_snoc, blen_app. change (blen [v]) with 1.
  rewrite Z.pow_add_r by (pose proof (blen_nonneg b); lia).
  pose proof (u8_bounds v). lia.
Qed.

Lemma length_to_be n v : length (to_be n v) = n.
Proof. revert v. induction n; intros v; simpl; [done|]. rewrite length_app, IHn. simpl. lia. Qed.

Lemma blen_to_be n v : blen (to_be n v) = Z.of_nat n.
Proof. unfold blen. by rewrite length_to_be. Qed.

Lemma be_to_be n v : 0 <= v < 256 ^ Z.of_nat n -> be (to_be n v) = v.
Proof.
  revert v. induction n as [|n IH]; intros v Hv; simpl to_be.
  - change (256 ^ Z.of_nat 0) with 1 in Hv. unfold be. simpl. lia.
  - rewrite be_snoc. rewrite Nat2Z.inj_succ, Z.pow_succ_r in Hv by lia.
    rewrite IH by (split; [apply Z.div_pos; lia|apply Z.div_lt_upper_bound; lia]).
    assert (0 <= v mod 256 < 256) as Hm by (apply Z.mod_pos_bound; lia).
    rewrite as_u8_mod, u8_as_u8 by done. pose proof (Z.div_mod v 256). lia.
Qed.

Lemma to_be_be b : to_be (length b) (be b) = b.
Proof.
  induction b as [|v b IH] using rev_ind; [done|].
  rewrite be_snoc, length_app. simpl. rewrite Nat.add_1_r. simpl.
  pose proof (u8_bounds v).
  replace ((be b * 256 + u8 v) / 256) with (be b)
    by (rewrite Z.div_add_l by lia; rewrite Z.div_small by lia; lia).
  rewrite IH, as_u8_mod. f_equal. f_equal.
  rewrite Z.add_comm, Z.mod_add, Z.mod_small by lia. apply as_u8_u8.
Qed.

Lemma to_be_be_len n b : blen b = Z.of_nat n -> to_be n (be b) = b.
Proof. unfold blen. intros ?. replace n with (length b) by lia. apply to_be_be. Qed.

Lemma be_at_inv {E} n (b : bytes) p v :
  be_at (E := E) n b p = Ok v ->
  0 <= p /\ p <= p + n /\ p + n <= blen b /\
  v = be (take (Z.to_nat n) (drop (Z.to_nat p) b)).
Proof.
  unfold be_at. destruct (slice (E := E) b p (p + n)) as [r| | |] eqn:Hs; try done.
  apply slice_inv in Hs as (?&?&?&->). intros [= <-].
  replace (p + n - p) with n by lia. repeat split; lia.
Qed.

Lemma idx_at {E} data pre b rest i : data = pre ++ b :: rest -> blen pre = i -> idx (E := E) data i = Ok (u8 b).
Proof.
  intros -> <-. unfold idx. rewrite (proj2 (Z.leb_le _ _)) by apply blen_nonneg.
  pose proof (blen_nonneg rest). rewrite (proj2 (Z.ltb_lt _ _)) by (rewrite blen_app, blen_cons; lia). cbn [andb].
  by rewrite <- length_blen, list_lookup_middle.
Qed.

Lemma idx_cons {E} b r : idx (E := E) (b :: r) 0 = Ok (u8 b).
Proof.
  unfold idx. rewrite blen_cons. pose proof (blen_nonneg r).
  by rewrite (proj2 (Z.ltb_lt 0 _)) by lia.
Qed.

Lemma idx_cons_1 {E} b b' r : idx (E := E) (b :: b' :: r) 1 = Ok (u8 b').
Proof.
  unfold idx. rewrite !blen_cons. pose proof (blen_nonneg r).
  by rewrite (proj2 (Z.ltb_lt 1 _)) by lia.
Qed.

Lemma slice_from_1 {E A} (b : A) r : slice_from (E := E) (b :: r) 1 = Ok r.
Proof. by apply (slice_from_app [b]). Qed.

Lemma slice_from_2 {E A} (b b' : A) r : slice_from (E := E) (b :: b' :: r) 2 = Ok r.
Proof. by apply (slice_from_app [b; b']). Qed.

Section Wp.
Context {E : Type} (pn : Prop).

Lemma wp_idx b i (Q : Z -> Prop) :
  (~ (0 <= i < blen b) -> pn) ->
  (forall v, 0 <= i < blen b -> 0 <= v < 256 -> Q v) ->
  wp (E := E) pn (idx b i) Q.
Proof.
  intros Hp HQ. unfold idx. case_if; simpl; [|apply Hp; lia].
  destruct (lookup_lt_is_Some_2 b (Z.to_nat i)) as [v Hv]; [unfold blen in *; lia|].
  rewrite Hv. simpl. apply HQ; [lia|apply u8_bounds].
Qed.

Lemma wp_slice {A} (b : list A) i j (Q : list A -> Prop) :
  (~ (0 <= i <= j /\ j <= blen b) -> pn) ->
  (forall r, 0 <= i <= j -> j <= blen b -> blen r = j - i -> Q r) ->
  wp (E := E) pn (slice b i j) Q.
Proof.
  intros Hp HQ. destruct (slice (E := E) b i j) as [r| | |] eqn:Hs; simpl.
  - apply slice_inv in Hs as (?&?&?&?). by apply HQ.
  - unfold slice in Hs. by case_if.
  - apply Hp. intros [? ?]. by rewrite slice_ok in Hs by lia.
  - unfold slice in Hs. by case_if.
Qed.

Lemma wp_slice_from {A} (b : list A) i (Q : list A -> Prop) :
  (~ (0 <= i <= blen b) -> pn) ->
  (forall r, 0 <= i <= blen b -> blen r = blen b - i -> Q r) ->
  wp (E := E) pn (slice_from b i) Q.
Proof. intros Hp HQ. apply wp_slice; intros; [apply Hp; lia|apply HQ; lia]. Qed.

Lemma wp_be_at n b p (Q : Z -> Prop) :
  0 <= n ->
  (~ (0 <= p /\ p + n <= blen b) -> pn) ->
  (forall v, 0 <= p -> p + n <= blen b -> 0 <= v < 256 ^ n -> Q v) ->
  wp (E := E) pn (be_at n b p) Q.
Proof.
  intros Hn Hp HQ. apply wp_fmap, wp_slice; [intros; apply Hp; lia|].
  intros r ? ? Hr. apply HQ; [lia|lia|]. pose proof (be_bounds r) as Hb.
  replace n with (blen r) by lia. done.
Qed.

Lemma wp_copy_into_zeroed n src (Q : bytes -> Prop) :
  (~ blen src <= n -> pn) ->
  (forall r, blen src <= n -> blen r = n -> Q r) ->
  wp (E := E) pn (copy_into_zeroed n src) Q.
Proof.
  intros Hp HQ. unfold copy_into_zeroed. case_if; simpl; [|apply Hp; lia].
  apply HQ; [lia|]. rewrite blen_app. unfold blen at 2. rewrite length_replicate.
  pose proof (blen_nonneg src). lia.
Qed.

End Wp.

(** A loop over positions of [buf]: it ends when every round moves the position
    forward and never past the end. *)
Lemma wp_loop_pos_inv {E A R} (pn : Prop) (buf : bytes) p0 (step : Z * A -> Outcome E ((Z * A) + R)) a
    (I : A -> Prop) (Q : R -> Prop) :
  0 <= p0 <= blen buf -> I a ->
  (forall pos acc, 0 <= pos <= blen buf -> I acc ->
     wp pn (step (pos, acc)) (fun r => match r with
                                       | inl st => pos < st.1 <= blen buf /\ I st.2
                                       | inr x => Q x
                                       end)) ->
  wp pn (loop (S (length buf)) step (p0, a)) Q.
Proof.
  intros Hp Ha Hstep.
  apply (wp_loop _ (fun st => 0 <= st.1 <= blen buf /\ I st.2) (fun st => Z.to_nat (blen buf - st.1)));
    [done|simpl; rewrite length_blen; lia|].
  intros [pos acc] [Hpos Hacc]. eapply wp_mono; [apply Hstep; [apply Hpos|apply Hacc]|].
  intros [st|x] Hr; [|done]. simpl in *. destruct Hr. split; [split; [lia|done]|lia].
Qed.

Lemma wp_loop_pos {E A R} (pn : Prop) (buf : bytes) p0 (step : Z * A -> Outcome E ((Z * A) + R)) a
    (Q : R -> Prop) :
  0 <= p0 <= blen buf ->
  (forall pos acc, 0 <= pos <= blen buf ->
     wp pn (step (pos, acc)) (fun r => match r with
                                       | inl st => pos < st.1 <= blen buf
                                       | inr x => Q x
                                       end)) ->
  wp pn (loop (S (length buf)) step (p0, a)) Q.
Proof.
  intros Hp Hstep. apply (wp_loop_pos_inv _ _ _ _ _ (fun _ => True)); [done|done|].
  intros pos acc Hpos _. eapply wp_mono; [by apply Hstep|]. by intros [st|x] Hr.
Qed.

(** A decoder that keeps a position into a fixed buffer: if every iteration
    that starts at an encoded item steps over it, the loop returns the items. *)
Lemma loop_stream_pos {E A B} (step : Z * list A -> Outcome E ((Z * list A) + list A))
    (enc : A -> list B) (P : A -> Prop) (buf : list B) es :
  (forall pre e post acc, P e -> buf = pre ++ enc e ++ post ->
     step (blen pre, acc) = Ok (inl (blen pre + blen (enc e), acc ++ [e]))) ->
  (forall acc, step (blen buf, acc) = Ok (inr acc)) ->
  forall pre acc fuel, Forall P es -> buf = pre ++ (es ≫= enc) -> (length es < fuel)%nat ->
  loop fuel step (blen pre, acc) = Ok (acc ++ es).
Proof.
  intros Hstep Hend. induction es as [|e es IH]; intros pre acc fuel HP Hbuf Hfuel.
  all: destruct fuel as [|fuel]; [simpl in Hfuel; lia|]; rewrite loop_S.
  - simpl in Hbuf. rewrite app_nil_r in *. by rewrite <- Hbuf, Hend.
  - apply Forall_cons_1 in HP as [He HP]. rewrite bind_cons in Hbuf.
    rewrite (Hstep pre e (es ≫= enc) acc He Hbuf).
    rewrite <- blen_app, IH; [by rewrite <- app_assoc|done|by rewrite <- app_assoc|simpl in Hfuel; lia].
Qed.

(** Arithmetic facts about [256 ^ n] for the widths in use. *)
Lemma pow256_1 : 256 ^ 1 = 256. Proof. done. Qed.
Lemma pow256_2 : 256 ^ 2 = 65536. Proof. done. Qed.
Lemma pow256_3 : 256 ^ 3 = 16777216. Proof. done. Qed.
Lemma pow256_4 : 256 ^ 4 = 4294967296. Proof. done. Qed.
Lemma pow256_8 : 256 ^ 8 = 18446744073709551616. Proof. done. Qed.

(** ** Proof automation for byte readers *)

Ltac blen_simpl :=
  rewrite ?pow256_1, ?pow256_2, ?pow256_3, ?pow256_4, ?pow256_8 in *.

Ltac bounded := try tauto; blen_simpl;
  repeat match goal with
         | b : list ?A |- _ =>
             lazymatch goal with
             | _ : 0 <= blen b |- _ => fail
             | _ => pose proof (blen_nonneg b)
             end
         end; first [lia | repeat case_if; lia].

(** One step through a byte reader, reads included. *)
Ltac wp_step :=
  lazymatch goal with
  | |- wp _ (idx _ _) _ => apply wp_idx; [intros; first [exact I|exfalso; bounded]|intros ? ? ?]
  | |- wp _ (slice _ _ _) _ => apply wp_slice; [intros; first [exact I|exfalso; bounded]|intros ? ? ? ?]
  | |- wp _ (slice_from _ _) _ => apply wp_slice_from; [intros; first [exact I|exfalso; bounded]|intros ? ? ?]
  | |- wp _ (be_at _ _ _) _ => apply wp_be_at; [lia|intros; first [exact I|exfalso; bounded]|intros ? ? ? ?]
  | |- wp _ (copy_into_zeroed _ _) _ =>
      apply wp_copy_into_zeroed; [intros; first [exact I|exfalso; bounded]|intros ? ? ?]
  | |- _ => wp_core
  end.

Ltac wp_steps := repeat (wp_step; try (intros; progress simpl)).

(** Checked arithmetic that returns, returns the value modulo the width. *)
Lemma wp_checked_mod {E} `{BuildProfile} (pn : Prop) w v (Q : Z -> Prop) :
  (overflow_checks = true -> ~ 0 <= v < 2 ^ w -> pn) ->
  ((overflow_checks = true -> 0 <= v < 2 ^ w) -> Q (v mod 2 ^ w)) ->
  wp (E := E) pn (checked_width w v) Q.
Proof.
  intros Hp HQ. unfold checked_width. case_if; [rewrite Z.mod_small in HQ by lia; apply HQ; intros _; lia|].
  destruct overflow_checks; simpl; [apply Hp; [done|lia]|by apply HQ].
Qed.

(** ** Text *)

Lemma string_app_assoc (s t u : string) : ((s ++ t) ++ u = s ++ t ++ u)%string.
Proof. induction s as [|c s IH]; [done|]. change (String c ((s ++ t) ++ u) = String c (s ++ t ++ u))%string. by rewrite IH. Qed.
