(* ===== verification/Crates.v ===== *)
(** * Interfaces of the third-party crates the sources call

    The [bytes], [ipnet] and [chrono] crates are not part of the repository.
    Each is a class: the operations the sources use, with the laws their
    documentation states.  The models take the class as an argument, so their
    theorems hold of any implementation that keeps the laws; the reference
    instances at the end show that the laws can be met and let the models run. *)

From Stdlib Require Import ZArith Lia ZifyBool.
From stdpp Require Import base numbers list option countable.
From S2P Require Import Prelude RustStd.

Local Open Scope Z_scope.

(** ** [bytes::Buf]

    A [Buf] ([&[u8]], [Cursor<&[u8]>] or [Bytes]) is represented by the octets
    it has not handed out yet, so [remaining()] is their number and [chunk()]
    is the list itself.  [get_uN] reads big-endian and advances; it and
    [copy_to_bytes] panic when there are too few octets ([None]). *)

Definition read_be (n : Z) (buf : bytes) : option (Z * bytes) :=
  if n <=? blen buf then Some (be (take (Z.to_nat n) buf), drop (Z.to_nat n) buf) else None.

Class BytesBuf := {
  buf_get_u8 : bytes -> option (Z * bytes);
  buf_get_u16 : bytes -> option (Z * bytes);
  buf_get_u32 : bytes -> option (Z * bytes);
  buf_copy_to_bytes : Z -> bytes -> option (bytes * bytes);
  buf_get_u8_spec : forall buf, buf_get_u8 buf = read_be 1 buf;
  buf_get_u16_spec : forall buf, buf_get_u16 buf = read_be 2 buf;
  buf_get_u32_spec : forall buf, buf_get_u32 buf = read_be 4 buf;
  buf_copy_to_bytes_spec : forall n buf, 0 <= n ->
    buf_copy_to_bytes n buf =
      if n <=? blen buf then Some (take (Z.to_nat n) buf, drop (Z.to_nat n) buf) else None;
}.

Definition get_u8 {E} `{BytesBuf} (buf : bytes) : Outcome E (Z * bytes) := or_panic (buf_get_u8 buf).
Definition get_u16 {E} `{BytesBuf} (buf : bytes) : Outcome E (Z * bytes) := or_panic (buf_get_u16 buf).
Definition get_u32 {E} `{BytesBuf} (buf : bytes) : Outcome E (Z * bytes) := or_panic (buf_get_u32 buf).
Definition copy_to_bytes {E} `{BytesBuf} (n : Z) (buf : bytes) : Outcome E (bytes * bytes) :=
  or_panic (buf_copy_to_bytes n buf).

(** ** [ipnet] *)

Record Ipv4Net := mkIpv4Net { ipv4net_addr : Ipv4Addr; ipv4net_prefix_len : Z }.
Record Ipv6Net := mkIpv6Net { ipv6net_addr : Ipv6Addr; ipv6net_prefix_len : Z }.

(** The octet [b] with only its first [k] bits kept. *)
Definition mask_octet (k : Z) (b : byte) : byte :=
  if k <=? 0 then Byte.x00
  else if 8 <=? k then b
  else as_u8 (u8 b - u8 b mod 2 ^ (8 - k)).

(** The address [a] with only its first [p] bits kept. *)
Fixpoint mask_octets (p : Z) (a : bytes) : bytes :=
  match a with
  | [] => []
  | b :: a' => mask_octet p b :: mask_octets (p - 8) a'
  end.

(** [new] fails exactly when the length exceeds the address width; [trunc]
    clears the host bits. *)
Class IpNetCrate := {
  ipv4net_new : Ipv4Addr -> Z -> option Ipv4Net;
  ipv4net_trunc : Ipv4Net -> Ipv4Net;
  ipv6net_new : Ipv6Addr -> Z -> option Ipv6Net;
  ipv6net_trunc : Ipv6Net -> Ipv6Net;
  ipv4net_new_spec : forall a p,
    ipv4net_new a p = if p <=? 32 then Some (mkIpv4Net a p) else None;
  ipv4net_trunc_spec : forall n,
    ipv4net_trunc n = mkIpv4Net (mask_octets (ipv4net_prefix_len n) (ipv4net_addr n))
                                (ipv4net_prefix_len n);
  ipv6net_new_spec : forall a p,
    ipv6net_new a p = if p <=? 128 then Some (mkIpv6Net a p) else None;
  ipv6net_trunc_spec : forall n,
    ipv6net_trunc n = mkIpv6Net (mask_octets (ipv6net_prefix_len n) (ipv6net_addr n))
                                (ipv6net_prefix_len n);
}.

(** ** [chrono]

    [timestamp_opt secs nsecs] is [Utc.timestamp_opt(secs, nsecs).single()];
    [num_seconds a b] is [(a - b).num_seconds()]. *)
Class Chrono := {
  DateTime : Type;
  timestamp_opt : Z -> Z -> option DateTime;
  num_seconds : DateTime -> DateTime -> Z;
}.

(** [Utc::now()]: the instant at which the code that reads it runs. *)
Class Clock `{Chrono} := utc_now : DateTime.

(** ** Instances *)

#[global] Instance ipv4net_eq_dec : EqDecision Ipv4Net.
Proof. solve_decision. Defined.
#[global] Instance ipv6net_eq_dec : EqDecision Ipv6Net.
Proof. solve_decision. Defined.

#[global] Instance ipv4net_countable : Countable Ipv4Net.
Proof.
  refine (inj_countable' (fun n => (ipv4net_addr n, ipv4net_prefix_len n))
                 (fun p => mkIpv4Net p.1 p.2) _).
  by intros [].
Defined.
#[global] Instance ipv6net_countable : Countable Ipv6Net.
Proof.
  refine (inj_countable' (fun n => (ipv6net_addr n, ipv6net_prefix_len n))
                 (fun p => mkIpv6Net p.1 p.2) _).
  by intros [].
Defined.

(** Reference implementations: not declared as instances, so that no theorem
    depends on them by accident. *)
Definition reference_bytes : BytesBuf.
Proof.
  refine {| buf_get_u8 := read_be 1; buf_get_u16 := read_be 2; buf_get_u32 := read_be 4;
            buf_copy_to_bytes n buf :=
              if n <=? blen buf then Some (take (Z.to_nat n) buf, drop (Z.to_nat n) buf)
              else None |}; reflexivity.
Defined.

Definition reference_ipnet : IpNetCrate.
Proof.
  refine {| ipv4net_new a p := if p <=? 32 then Some (mkIpv4Net a p) else None;
            ipv4net_trunc n := mkIpv4Net (mask_octets (ipv4net_prefix_len n) (ipv4net_addr n))
                                         (ipv4net_prefix_len n);
            ipv6net_new a p := if p <=? 128 then Some (mkIpv6Net a p) else None;
            ipv6net_trunc n := mkIpv6Net (mask_octets (ipv6net_prefix_len n) (ipv6net_addr n))
                                         (ipv6net_prefix_len n) |}; reflexivity.
Defined.

(** Instants as nanoseconds since the epoch. *)
Definition reference_chrono : Chrono := {|
  DateTime := Z;
  timestamp_opt secs nsecs := if nsecs <? 2000000000 then Some (secs * 1000000000 + nsecs) else None;
  num_seconds a b := (a - b) ÷ 1000000000;
|}.

(** ** Lemmas *)

Section BufWp.
Context {E : Type} (pn : Prop) `{BytesBuf}.

Lemma wp_read_be n buf (Q : Z * bytes -> Prop) :
  0 <= n -> (~ n <= blen buf -> pn) ->
  (forall v r, n <= blen buf -> 0 <= v < 256 ^ n -> blen r = blen buf - n -> Q (v, r)) ->
  wp (E := E) pn (or_panic (read_be n buf)) Q.
Proof.
  intros Hn Hp HQ. unfold read_be. case_if; simpl; [|apply Hp; lia].
  apply HQ; [lia| |apply blen_drop; lia].
  pose proof (be_bounds (take (Z.to_nat n) buf)) as Hb. by rewrite blen_take in Hb by lia.
Qed.

Lemma wp_get_u8 buf (Q : Z * bytes -> Prop) :
  (~ 1 <= blen buf -> pn) ->
  (forall v r, 1 <= blen buf -> 0 <= v < 256 -> blen r = blen buf - 1 -> Q (v, r)) ->
  wp (E := E) pn (get_u8 buf) Q.
Proof. unfold get_u8. rewrite buf_get_u8_spec. apply wp_read_be. lia. Qed.

Lemma wp_get_u16 buf (Q : Z * bytes -> Prop) :
  (~ 2 <= blen buf -> pn) ->
  (forall v r, 2 <= blen buf -> 0 <= v < 65536 -> blen r = blen buf - 2 -> Q (v, r)) ->
  wp (E := E) pn (get_u16 buf) Q.
Proof. unfold get_u16. rewrite buf_get_u16_spec. apply wp_read_be. lia. Qed.

Lemma wp_get_u32 buf (Q : Z * bytes -> Prop) :
  (~ 4 <= blen buf -> pn) ->
  (forall v r, 4 <= blen buf -> 0 <= v < 4294967296 -> blen r = blen buf - 4 -> Q (v, r)) ->
  wp (E := E) pn (get_u32 buf) Q.
Proof. unfold get_u32. rewrite buf_get_u32_spec. apply wp_read_be. lia. Qed.

Lemma wp_copy_to_bytes n buf (Q : bytes * bytes -> Prop) :
  0 <= n -> (~ n <= blen buf -> pn) ->
  (forall a r, n <= blen buf -> blen a = n -> blen r = blen buf - n -> Q (a, r)) ->
  wp (E := E) pn (copy_to_bytes n buf) Q.
Proof.
  intros Hn Hp HQ. unfold copy_to_bytes. rewrite buf_copy_to_bytes_spec by done.
  case_if; simpl; [|apply Hp; lia].
  apply HQ; [lia|apply blen_take; lia|apply blen_drop; lia].
Qed.

End BufWp.

Section BufRun.
Context {E : Type} `{BytesBuf}.

Lemma get_u8_cons b r : get_u8 (E := E) (b :: r) = Ok (u8 b, r).
Proof.
  unfold get_u8. rewrite buf_get_u8_spec. unfold read_be.
  rewrite (proj2 (Z.leb_le _ _)); [|rewrite blen_cons; pose proof (blen_nonneg r); lia].
  done.
Qed.

Lemma read_be_app n a r :
  blen a = n -> read_be n (a ++ r) = Some (be a, r).
Proof.
  intros <-. unfold read_be. rewrite (proj2 (Z.leb_le _ _)).
  - unfold blen. rewrite Nat2Z.id. by rewrite take_app_length, drop_app_length.
  - rewrite blen_app. pose proof (blen_nonneg r). lia.
Qed.

Lemma get_u16_app a r : blen a = 2 -> get_u16 (E := E) (a ++ r) = Ok (be a, r).
Proof. intros Ha. unfold get_u16. by rewrite buf_get_u16_spec, read_be_app. Qed.

Lemma get_u32_app a r : blen a = 4 -> get_u32 (E := E) (a ++ r) = Ok (be a, r).
Proof. intros Ha. unfold get_u32. by rewrite buf_get_u32_spec, read_be_app. Qed.

Lemma copy_to_bytes_app n a r : blen a = n -> copy_to_bytes (E := E) n (a ++ r) = Ok (a, r).
Proof.
  intros <-. unfold copy_to_bytes. rewrite buf_copy_to_bytes_spec by apply blen_nonneg.
  rewrite (proj2 (Z.leb_le _ _)).
  - unfold blen. rewrite Nat2Z.id. by rewrite take_app_length, drop_app_length.
  - rewrite blen_app. pose proof (blen_nonneg r). lia.
Qed.

Lemma copy_to_bytes_inv n buf a r :
  0 <= n -> copy_to_bytes (E := E) n buf = Ok (a, r) -> buf = a ++ r /\ blen a = n.
Proof.
  intros Hn. unfold copy_to_bytes. rewrite buf_copy_to_bytes_spec by done.
  case_if; [|done]. intros [= <- <-]. split; [by rewrite take_drop|apply blen_take; lia].
Qed.

Lemma read_be_inv n buf v r :
  0 <= n -> read_be n buf = Some (v, r) -> buf = to_be (Z.to_nat n) v ++ r /\ 0 <= v < 256 ^ n.
Proof.
  intros Hn. unfold read_be. case_if; [|done]. intros [= <- <-].
  assert (blen (take (Z.to_nat n) buf) = n) as Hl by (apply blen_take; lia).
  pose proof (be_bounds (take (Z.to_nat n) buf)) as Hb. rewrite Hl in Hb. split; [|done].
  rewrite to_be_be_len by lia. by rewrite take_drop.
Qed.

Lemma get_u8_inv buf v r : get_u8 (E := E) buf = Ok (v, r) -> buf = as_u8 v :: r /\ 0 <= v < 256.
Proof.
  unfold get_u8. rewrite buf_get_u8_spec. destruct (read_be 1 buf) as [[v' r']|] eqn:Hr; [|done].
  intros [= <- <-]. by apply read_be_inv in Hr.
Qed.

Lemma get_u16_inv buf v r : get_u16 (E := E) buf = Ok (v, r) -> buf = to_be 2 v ++ r /\ 0 <= v < 65536.
Proof.
  unfold get_u16. rewrite buf_get_u16_spec. destruct (read_be 2 buf) as [[v' r']|] eqn:Hr; [|done].
  intros [= <- <-]. by apply read_be_inv in Hr.
Qed.

End BufRun.

Lemma blen_mask_octets p a : blen (mask_octets p a) = blen a.
Proof.
  revert p. induction a as [|b a IH]; intros p; [done|].
  simpl. by rewrite !blen_cons, IH.
Qed.

Lemma mask_octet_idemp k b : mask_octet k (mask_octet k b) = mask_octet k b.
Proof.
  unfold mask_octet. destruct (k <=? 0) eqn:?; [done|]. destruct (8 <=? k) eqn:?; [done|].
  pose proof (u8_bounds b).
  assert (0 < 2 ^ (8 - k)) by (apply Z.pow_pos_nonneg; lia).
  pose proof (Z.mod_pos_bound (u8 b) (2 ^ (8 - k)) ltac:(lia)).
  pose proof (Z.mod_le (u8 b) (2 ^ (8 - k)) ltac:(lia) ltac:(lia)).
  rewrite u8_as_u8 by lia. f_equal.
  rewrite Zminus_mod_idemp_r, Z.sub_diag, Z.mod_0_l by lia. lia.
Qed.

Lemma mask_octets_idemp p a : mask_octets p (mask_octets p a) = mask_octets p a.
Proof.
  revert p. induction a as [|b a IH]; intros p; [done|]. simpl. by rewrite mask_octet_idemp, IH.
Qed.

(** Steps through [Buf] readers as well as slices. *)
Ltac buf_step :=
  lazymatch goal with
  | |- wp _ (get_u8 _) _ => apply wp_get_u8; [intros; first [exact I|exfalso; bounded]|intros ? ? ? ? ?]
  | |- wp _ (get_u16 _) _ => apply wp_get_u16; [intros; first [exact I|exfalso; bounded]|intros ? ? ? ? ?]
  | |- wp _ (get_u32 _) _ => apply wp_get_u32; [intros; first [exact I|exfalso; bounded]|intros ? ? ? ? ?]
  | |- wp _ (copy_to_bytes _ _) _ =>
      apply wp_copy_to_bytes; [bounded|intros; first [exact I|exfalso; bounded]|intros ? ? ? ? ?]
  | |- _ => wp_step
  end.
