(* ===== verification/CoreError.v ===== *)
(** * The error type of the routing core ([crates/rbmp-core/src/error.rs]) *)

From Stdlib Require Import ZArith String.
From stdpp Require Import base.
From S2P Require Import Prelude.

Local Open Scope Z_scope.

(** [Error]; the payload of an I/O error is its [std::io::ErrorKind]. *)
Inductive IoErrorKind : Type :=
| Io_UnexpectedEof
| Io_TimedOut
| Io_Other.

Inductive Error : Type :=
| BmpParse (msg : string)
| BgpParse (msg : string)
| UnexpectedEof (needed have : Z)
| InvalidBmpVersion (v : Z)
| InvalidMessageType (v : Z)
| FrameTooLarge (len max : Z)
| InvalidBgpMarker
| InvalidBgpMessageType (v : Z)
| InvalidAfi (v : Z)
| InvalidSafi (v : Z)
| InvalidPrefixLen (prefix_len afi : Z)
| TruncatedAttribute (attr_type declared available : Z)
| Io (kind : IoErrorKind).

(** [pub type Result<T> = std::result::Result<T, Error>] *)
Abbreviation Result := (Outcome Error).
