(* ===== verification/Tlv.v ===== *)
(** * Type-length-value streams

    The wire format several decoders walk: a 16-bit type, a 16-bit length and
    that many octets.  This is the specification side: a list of TLVs and the
    octets that encode it; the decoders are proved against it. *)

From Stdlib Require Import ZArith Lia ZifyBool.
From stdpp Require Import base numbers list option.
From S2P Require Import Prelude RustStd Crates CoreError.

Local Open Scope Z_scope.

Record Tlv := mkTlv { tlv_type : Z; tlv_value : bytes }.

Definition tlv_wf (t : Tlv) : Prop :=
  0 <= tlv_type t < 65536 /\ blen (tlv_value t) < 65536.

Definition encode_tlv (t : Tlv) : bytes :=
  to_be 2 (tlv_type t) ++ to_be 2 (blen (tlv_value t)) ++ tlv_value t.

Definition encode_tlvs (ts : list Tlv) : bytes := ts ≫= encode_tlv.

Lemma blen_encode_tlv t : blen (encode_tlv t) = 4 + blen (tlv_value t).
Proof.
  unfold encode_tlv. rewrite !blen_app. unfold blen at 1 2. rewrite !length_to_be. lia.
Qed.

Lemma encode_tlvs_cons t ts : encode_tlvs (t :: ts) = encode_tlv t ++ encode_tlvs ts.
Proof. done. Qed.

Lemma encode_tlvs_nil : encode_tlvs [] = [].
Proof. done. Qed.

(** Each TLV has at least its header, so a stream has no more TLVs than octets. *)
Lemma length_encode_tlvs ts : (length ts <= length (encode_tlvs ts))%nat.
Proof.
  induction ts as [|t ts IH]; [done|]. rewrite encode_tlvs_cons, length_app.
  pose proof (blen_encode_tlv t). unfold blen in *. simpl. lia.
Qed.

Section Read.
Context {E : Type} (pre post : bytes) (t : Tlv).
Hypothesis Hwf : tlv_wf t.

(** The three reads of a decoder standing at a TLV. *)
Lemma read_tlv_type pos :
  pos = blen pre -> be_at (E := E) 2 (pre ++ encode_tlv t ++ post) pos = Ok (tlv_type t).
Proof.
  intros ->. destruct Hwf as [? ?]. unfold encode_tlv. rewrite <- !app_assoc.
  rewrite be_at_app by (done || (unfold blen; by rewrite length_to_be)).
  by rewrite be_to_be.
Qed.

Lemma read_tlv_len pos :
  pos = blen pre + 2 -> be_at (E := E) 2 (pre ++ encode_tlv t ++ post) pos = Ok (blen (tlv_value t)).
Proof.
  intros ->. destruct Hwf as [? ?]. unfold encode_tlv. rewrite <- !app_assoc, (app_assoc pre).
  rewrite be_at_app.
  - rewrite be_to_be; [done|]. pose proof (blen_nonneg (tlv_value t)). done.
  - rewrite blen_app. unfold blen at 3. rewrite length_to_be. lia.
  - unfold blen. by rewrite length_to_be.
Qed.

Lemma read_tlv_value i j :
  i = blen pre + 4 -> j = blen pre + 4 + blen (tlv_value t) ->
  slice (E := E) (pre ++ encode_tlv t ++ post) i j = Ok (tlv_value t).
Proof.
  intros -> ->. unfold encode_tlv. rewrite <- !app_assoc, (app_assoc pre), (app_assoc (pre ++ _)).
  rewrite slice_app; [done| |]; rewrite !blen_app; unfold blen at 3 4 || idtac;
    unfold blen; rewrite ?length_to_be; lia.
Qed.

End Read.

(** Conversely, a decoder whose bounds tests passed at [pos] stands at a TLV. *)
Lemma tlv_at_inv {E} (buf v : bytes) pos ty l :
  be_at (E := E) 2 buf pos = Ok ty -> be_at (E := E) 2 buf (pos + 2) = Ok l ->
  slice (E := E) buf (pos + 4) (pos + 4 + l) = Ok v ->
  exists pre post, buf = pre ++ encode_tlv (mkTlv ty v) ++ post /\ blen pre = pos /\ tlv_wf (mkTlv ty v).
Proof.
  intros (?&?&?&->)%be_at_inv (?&?&?&->)%be_at_inv (?&?&Hv&->)%slice_inv.
  assert (blen (drop (Z.to_nat pos) buf) = blen buf - pos) as Hd by (apply blen_drop; lia).
  rewrite !Z2Nat.inj_add, <- !drop_drop in * by lia.
  pose proof (take_drop (Z.to_nat pos) buf) as Hbuf.
  exists (take (Z.to_nat pos) buf).
  destruct (drop (Z.to_nat pos) buf) as [|b0 [|b1 [|b2 [|b3 d]]]];
    try (unfold blen in *; simpl in *; lia).
  change (take (Z.to_nat 2) (drop (Z.to_nat 2) (b0 :: b1 :: b2 :: b3 :: d))) with [b2; b3] in *.
  change (drop (Z.to_nat 4) (b0 :: b1 :: b2 :: b3 :: d)) with d in *.
  change (take (Z.to_nat 2) (b0 :: b1 :: b2 :: b3 :: d)) with [b0; b1].
  replace (pos + 4 + be [b2; b3] - (pos + 4)) with (be [b2; b3]) in * by lia.
  exists (drop (Z.to_nat (be [b2; b3])) d). split_and!; [|apply blen_take; lia|].
  - unfold encode_tlv. simpl tlv_type. simpl tlv_value. rewrite Hv, !to_be_be_len by done.
    rewrite <- !app_assoc, take_drop. by rewrite <- Hbuf at 1.
  - split; simpl; [|rewrite Hv]; apply (be_bounds [_; _]).
Qed.

(** ** The two loops of the sources over such streams

    The BGP-LS and tunnel decoders are written in one of two styles, a cursor
    or a position; they differ only in what they do with a TLV, the [body].
    Both stop at a TLV that overruns the buffer and ignore a tail of less than
    four octets. *)
Section Loops.
Context {S : Type}.

(** [while cur.remaining() >= 4 { get_u16; get_u16; ...; copy_to_bytes }] *)
Definition cursor_tlv_step `{BytesBuf} (body : Z -> bytes -> S -> Result S) (st : bytes * S)
    : Result ((bytes * S) + S) :=
  let '(cur, s) := st in
  if 4 <=? blen cur then
    '(tlv_type, cur) ← get_u16 cur;
    '(tlv_len, cur) ← get_u16 cur;
    if blen cur <? tlv_len then Ok (inr s)
    else
      '(val, cur) ← copy_to_bytes tlv_len cur;
      s ← body tlv_type val s;
      Ok (inl (cur, s))
  else Ok (inr s).

Definition cursor_tlv_loop `{BytesBuf} (body : Z -> bytes -> S -> Result S) (cur : bytes) (s : S)
    : Result S :=
  loop (Datatypes.S (length cur)) (cursor_tlv_step body) (cur, s).

(** [while pos + 4 <= buf.len() { buf[pos..]; pos += 4; ...; pos += len }] *)
Definition pos_tlv_step (body : Z -> bytes -> S -> Result S) (buf : bytes) (st : Z * S)
    : Result ((Z * S) + S) :=
  let '(pos, s) := st in
  if pos + 4 <=? blen buf then
    tlv_type ← be_at 2 buf pos;
    tlv_len ← be_at 2 buf (pos + 2);
    let pos := pos + 4 in
    if blen buf <? pos + tlv_len then Ok (inr s)
    else
      data ← slice buf pos (pos + tlv_len);
      let pos := pos + tlv_len in
      s ← body tlv_type data s;
      Ok (inl (pos, s))
  else Ok (inr s).

Definition pos_tlv_loop (body : Z -> bytes -> S -> Result S) (buf : bytes) (pos : Z) (s : S)
    : Result S :=
  loop (Datatypes.S (length buf)) (pos_tlv_step body buf) (pos, s).

Lemma wp_cursor_tlv_loop `{BytesBuf} pn (I : S -> Prop) body cur s :
  I s -> (forall ty v s, I s -> wp pn (body ty v s) I) -> wp pn (cursor_tlv_loop body cur s) I.
Proof.
  intros Hs Hbody.
  apply (wp_loop _ (fun st => I st.2) (fun st => length st.1)); [done|simpl; lia|].
  intros [c s'] Hs'. cbn [snd] in Hs'. unfold cursor_tlv_step. wp_core; [|done].
  apply wp_bind. buf_step. apply wp_bind. buf_step. wp_core; [done|]. apply wp_bind. buf_step.
  apply wp_bind. eapply wp_mono; [by apply Hbody|]. intros s'' Hs''. apply wp_ok.
  split; [done|]. rewrite !length_blen. simpl. lia.
Qed.

Lemma wp_pos_tlv_loop pn (I : S -> Prop) body buf pos s :
  0 <= pos <= blen buf -> I s -> (forall ty v s, blen v <= blen buf -> I s -> wp pn (body ty v s) I) ->
  wp pn (pos_tlv_loop body buf pos s) I.
Proof.
  intros Hpos Hs Hbody. apply (wp_loop_pos_inv _ _ _ _ _ I); [done|done|].
  intros p s' Hp Hs'. unfold pos_tlv_step. wp_core; [|done].
  apply wp_bind. wp_step. apply wp_bind. wp_step. cbn zeta. wp_core; [done|].
  apply wp_bind. wp_step. apply wp_bind. eapply wp_mono; [apply Hbody; [lia|done]|].
  intros s'' Hs''. apply wp_ok. split; [simpl; lia|done].
Qed.

(** Both loops run the body on every TLV of a well-formed stream, in order. *)
Lemma pos_tlv_loop_tlvs body ts tail s :
  Forall tlv_wf ts -> blen tail < 4 ->
  pos_tlv_loop body (encode_tlvs ts ++ tail) 0 s =
    for_each ts (fun t => body (tlv_type t) (tlv_value t)) s.
Proof.
  intros Hwf Htail. unfold pos_tlv_loop. set (buf := encode_tlvs ts ++ tail).
  assert (length ts < Datatypes.S (length buf))%nat as Hfuel.
  { unfold buf. rewrite length_app. pose proof (length_encode_tlvs ts). lia. }
  assert (exists pre, buf = pre ++ encode_tlvs ts ++ tail /\ blen pre = 0) as (pre & Hbuf & Hpre)
    by (by exists []).
  rewrite <- Hpre. clear Hpre. clearbody buf. revert pre s Hbuf Hfuel.
  generalize (Datatypes.S (length buf)) as fuel.
  induction Hwf as [|t ts Ht Hwf IH]; intros fuel pre s Hbuf Hfuel;
    (destruct fuel as [|fuel]; [simpl in Hfuel; lia|]); rewrite loop_S; unfold pos_tlv_step at 1.
  - rewrite Hbuf, encode_tlvs_nil, app_nil_l, blen_app, (proj2 (Z.leb_gt _ _)) by lia. done.
  - rewrite encode_tlvs_cons, <- app_assoc in Hbuf. pose proof (blen_encode_tlv t) as Hlen.
    pose proof (blen_nonneg (tlv_value t)). pose proof (blen_nonneg (encode_tlvs ts ++ tail)).
    rewrite Hbuf, (read_tlv_type _ _ t Ht (blen pre) eq_refl), (read_tlv_len _ _ t Ht _ eq_refl).
    rewrite !blen_app, Hlen.
    rewrite (proj2 (Z.leb_le _ _)) by (rewrite ?blen_app in *; lia). rewrite !bind_Ok. cbn zeta.
    rewrite (proj2 (Z.ltb_ge _ _)) by (rewrite ?blen_app in *; lia).
    rewrite read_tlv_value, bind_Ok, <- Hbuf by done. cbn [for_each].
    destruct (body (tlv_type t) (tlv_value t) s) as [s'| | |]; try done. rewrite !bind_Ok.
    replace (blen pre + 4 + blen (tlv_value t)) with (blen (pre ++ encode_tlv t))
      by (rewrite blen_app; lia).
    apply IH; [by rewrite Hbuf, <- app_assoc|simpl in Hfuel; lia].
Qed.

End Loops.
