(* ===== verification/BgpTypes.v ===== *)
(** * BGP data model ([crates/rbmp-core/src/bgp/types.rs])

    Address families, prefixes, AS paths, communities, capabilities and the
    decoding context a session negotiates. *)

From Stdlib Require Import ZArith Lia ZifyBool String.
From stdpp Require Import base numbers list option strings gmap countable.
From S2P Require Import Prelude RustStd Crates CoreError.

Local Open Scope Z_scope.

(** ** LLGR life cycle (RFC 9494) *)
Inductive LlgrState : Type :=
| Llgr_Normal
| Llgr_StaleMarked
| Llgr_Deleted.

(** ** AFI and SAFI *)
Inductive Afi : Type :=
| Afi_Ipv4
| Afi_Ipv6
| Afi_L2Vpn
| Afi_BgpLs
| Afi_Unknown (v : Z).

(** [impl From<u16> for Afi] *)
Definition afi_from (v : Z) : Afi :=
  match v with
  | 1 => Afi_Ipv4
  | 2 => Afi_Ipv6
  | 25 => Afi_L2Vpn
  | 16388 => Afi_BgpLs
  | _ => Afi_Unknown v
  end.

Definition afi_as_u16 (a : Afi) : Z :=
  match a with
  | Afi_Ipv4 => 1
  | Afi_Ipv6 => 2
  | Afi_L2Vpn => 25
  | Afi_BgpLs => 16388
  | Afi_Unknown v => v
  end.

Inductive Safi : Type :=
| Safi_Unicast
| Safi_Multicast
| Safi_MplsVpnMulticast
| Safi_LabeledUnicast
| Safi_MplsVpn
| Safi_Evpn
| Safi_BgpLs
| Safi_BgpLsSrv6
| Safi_SrPolicy
| Safi_Flowspec
| Safi_FlowspecVpn
| Safi_Vpls
| Safi_RouteTargetConstraint
| Safi_McastVpn
| Safi_Unknown (v : Z).

(** [impl From<u8> for Safi] *)
Definition safi_from (v : Z) : Safi :=
  match v with
  | 1 => Safi_Unicast
  | 2 => Safi_Multicast
  | 4 => Safi_LabeledUnicast
  | 5 => Safi_MplsVpnMulticast
  | 65 => Safi_Vpls
  | 70 => Safi_Evpn
  | 71 => Safi_BgpLs
  | 72 => Safi_BgpLsSrv6
  | 73 => Safi_SrPolicy
  | 128 => Safi_MplsVpn
  | 129 => Safi_McastVpn
  | 132 => Safi_RouteTargetConstraint
  | 133 => Safi_Flowspec
  | 134 => Safi_FlowspecVpn
  | _ => Safi_Unknown v
  end.

Definition safi_as_u8 (s : Safi) : Z :=
  match s with
  | Safi_Unicast => 1
  | Safi_Multicast => 2
  | Safi_LabeledUnicast => 4
  | Safi_MplsVpnMulticast => 5
  | Safi_Vpls => 65
  | Safi_Evpn => 70
  | Safi_BgpLs => 71
  | Safi_BgpLsSrv6 => 72
  | Safi_SrPolicy => 73
  | Safi_MplsVpn => 128
  | Safi_McastVpn => 129
  | Safi_RouteTargetConstraint => 132
  | Safi_Flowspec => 133
  | Safi_FlowspecVpn => 134
  | Safi_Unknown v => v
  end.

Inductive FamilySupportStatus : Type :=
| Family_Supported
| Family_ExperimentalParseOnly
| Family_Unsupported.

Record AfiSafi := mkAfiSafi { afi : Afi; safi : Safi }.

Definition afi_safi_new (a s : Z) : AfiSafi := mkAfiSafi (afi_from a) (safi_from s).
Definition ipv4_unicast : AfiSafi := afi_safi_new 1 1.
Definition ipv6_unicast : AfiSafi := afi_safi_new 2 1.
Definition ipv4_vpn : AfiSafi := afi_safi_new 1 128.
Definition ipv6_vpn : AfiSafi := afi_safi_new 2 128.
Definition evpn_family : AfiSafi := afi_safi_new 25 70.
Definition ipv4_labeled : AfiSafi := afi_safi_new 1 4.
Definition ipv6_labeled : AfiSafi := afi_safi_new 2 4.

Definition support_status (f : AfiSafi) : FamilySupportStatus :=
  match afi f, safi f with
  | (Afi_Ipv4 | Afi_Ipv6), (Safi_Unicast | Safi_Multicast | Safi_LabeledUnicast | Safi_MplsVpn) =>
      Family_Supported
  | Afi_L2Vpn, (Safi_Evpn | Safi_Vpls)
  | Afi_BgpLs, (Safi_BgpLs | Safi_BgpLsSrv6)
  | (Afi_Ipv4 | Afi_Ipv6),
    (Safi_Flowspec | Safi_FlowspecVpn | Safi_SrPolicy | Safi_RouteTargetConstraint
    | Safi_McastVpn | Safi_MplsVpnMulticast) => Family_ExperimentalParseOnly
  | _, _ => Family_Unsupported
  end.

(** [Display for AfiSafi] *)
Definition afi_safi_to_string (f : AfiSafi) : string :=
  match afi f, safi f with
  | Afi_Ipv4, Safi_Unicast => "ipv4-unicast"
  | Afi_Ipv6, Safi_Unicast => "ipv6-unicast"
  | Afi_Ipv4, Safi_Multicast => "ipv4-multicast"
  | Afi_Ipv6, Safi_Multicast => "ipv6-multicast"
  | Afi_Ipv4, Safi_LabeledUnicast => "ipv4-labeled-unicast"
  | Afi_Ipv6, Safi_LabeledUnicast => "ipv6-labeled-unicast"
  | Afi_Ipv4, Safi_MplsVpn => "ipv4-vpn"
  | Afi_Ipv6, Safi_MplsVpn => "ipv6-vpn"
  | Afi_L2Vpn, Safi_Evpn => "l2vpn-evpn"
  | Afi_Ipv4, Safi_Flowspec => "ipv4-flowspec"
  | Afi_Ipv6, Safi_Flowspec => "ipv6-flowspec"
  | a, s => ("afi" ++ fmt_dec (afi_as_u16 a) ++ "-safi" ++ fmt_dec (safi_as_u8 s))%string
  end.

(** ** Prefixes *)

(** [RouteDistinguisher(pub [u8; 8])] *)
Record RouteDistinguisher := mkRD { rd_bytes : bytes }.

Inductive Prefix : Type :=
| Prefix_V4 (n : Ipv4Net)
| Prefix_V6 (n : Ipv6Net)
| Prefix_Labeled (prefix : Prefix) (labels : list Z)
| Prefix_Vpn (rd : RouteDistinguisher) (prefix : Prefix) (labels : list Z).

Fixpoint addr_family (p : Prefix) : Afi :=
  match p with
  | Prefix_V4 _ => Afi_Ipv4
  | Prefix_V6 _ => Afi_Ipv6
  | Prefix_Labeled p _ | Prefix_Vpn _ p _ => addr_family p
  end.

Definition prefix_afi_safi (p : Prefix) : AfiSafi :=
  match p with
  | Prefix_V4 _ => ipv4_unicast
  | Prefix_V6 _ => ipv6_unicast
  | Prefix_Labeled p _ =>
      match addr_family p with Afi_Ipv6 => ipv6_labeled | _ => ipv4_labeled end
  | Prefix_Vpn _ p _ =>
      match addr_family p with Afi_Ipv6 => ipv6_vpn | _ => ipv4_vpn end
  end.

Definition rd_zero : RouteDistinguisher := mkRD (replicate 8 Byte.x00).
Definition rd_is_zero (rd : RouteDistinguisher) : bool :=
  bool_decide (rd_bytes rd = replicate 8 Byte.x00).
Definition rd_type (rd : RouteDistinguisher) : Z := be (take 2 (rd_bytes rd)).

(** [Display for RouteDistinguisher] *)
Definition rd_to_string (rd : RouteDistinguisher) : string :=
  let b := rd_bytes rd in
  match rd_type rd with
  | 0 => (fmt_dec (be (take 2 (drop 2 b))) ++ ":" ++ fmt_dec (be (take 4 (drop 4 b))))%string
  | 1 => (ipv4_to_string (take 4 (drop 2 b)) ++ ":" ++ fmt_dec (be (take 2 (drop 6 b))))%string
  | 2 => (fmt_dec (be (take 4 (drop 2 b))) ++ ":" ++ fmt_dec (be (take 2 (drop 6 b))))%string
  | _ => ("0x" ++ hex_encode b)%string
  end.

(** ** AS paths *)

Inductive AsPathSegment : Type :=
| Seg_Set (asns : list Z)
| Seg_Sequence (asns : list Z)
| Seg_ConfedSequence (asns : list Z)
| Seg_ConfedSet (asns : list Z).

Definition seg_asns (s : AsPathSegment) : list Z :=
  match s with
  | Seg_Set v | Seg_Sequence v | Seg_ConfedSequence v | Seg_ConfedSet v => v
  end.

(** [AsPath(pub Vec<AsPathSegment>)] *)
Record AsPath := mkAsPath { as_segments : list AsPathSegment }.

Definition as_path_is_empty (p : AsPath) : bool :=
  match as_segments p with [] => true | _ => false end.

Definition hop_count (p : AsPath) : Z :=
  foldr Z.add 0
    ((fun seg => match seg with Seg_Sequence v => blen v | _ => 0 end) <$> as_segments p).

(** [iter().find_map(f)] *)
Fixpoint find_map {A B} (f : A -> option B) (l : list A) : option B :=
  match l with
  | [] => None
  | x :: l' => match f x with Some y => Some y | None => find_map f l' end
  end.

Definition origin_asn (p : AsPath) : option Z :=
  find_map (fun seg => match seg with Seg_Sequence v => list.last v | _ => None end) (as_segments p).

Definition first_asn (p : AsPath) : option Z :=
  find_map (fun seg => match seg with Seg_Sequence v => head v | _ => None end) (as_segments p).

(** The inner loop of [has_prepending]. *)
Fixpoint prepending_from (prev : option Z) (v : list Z) : bool :=
  match v with
  | [] => false
  | asn :: v' => if bool_decide (Some asn = prev) then true else prepending_from (Some asn) v'
  end.

Fixpoint has_prepending_segs (segs : list AsPathSegment) : bool :=
  match segs with
  | [] => false
  | Seg_Sequence v :: segs' => if prepending_from None v then true else has_prepending_segs segs'
  | _ :: segs' => has_prepending_segs segs'
  end.

Definition has_prepending (p : AsPath) : bool := has_prepending_segs (as_segments p).

(** The loop over every ASN of every segment, with the [HashSet] of those seen. *)
Fixpoint loop_from (seen : gset Z) (asns : list Z) : bool :=
  match asns with
  | [] => false
  | asn :: asns' => if bool_decide (asn ∈ seen) then true else loop_from ({[asn]} ∪ seen) asns'
  end.

Definition all_asns (p : AsPath) : list Z := as_segments p ≫= seg_asns.

Definition has_loop (p : AsPath) : bool := loop_from ∅ (all_asns p).

(** [Display for AsPath] *)
Definition seg_to_string (s : AsPathSegment) : string :=
  let join sep v := String.concat sep (fmt_dec <$> v) in
  match s with
  | Seg_Sequence v => join " " v
  | Seg_Set v => ("{" ++ join "," v ++ "}")%string
  | Seg_ConfedSequence v => ("(" ++ join " " v ++ ")")%string
  | Seg_ConfedSet v => ("[" ++ join "," v ++ "]")%string
  end.

Definition as_path_to_string (p : AsPath) : string :=
  String.concat " " (seg_to_string <$> as_segments p).

(** ** Communities *)

(** [StandardCommunity(pub u32)] *)
Record StandardCommunity := mkCommunity { comm_value : Z }.

Definition community_new (asn value : Z) : StandardCommunity :=
  mkCommunity (Z.lor (Z.shiftl asn 16) value).
Definition community_asn (c : StandardCommunity) : Z := (Z.shiftr (comm_value c) 16) mod 2 ^ 16.
Definition community_value (c : StandardCommunity) : Z := Z.land (comm_value c) 0xFFFF.

Definition no_export : StandardCommunity := mkCommunity 0xFFFFFF01.
Definition no_advertise : StandardCommunity := mkCommunity 0xFFFFFF02.
Definition no_export_subconfed : StandardCommunity := mkCommunity 0xFFFFFF03.
Definition blackhole : StandardCommunity := mkCommunity 0xFFFF029A.
Definition graceful_shutdown : StandardCommunity := mkCommunity 0xFFFF0000.
Definition accept_own : StandardCommunity := mkCommunity 0xFFFF0001.

Definition is_well_known (c : StandardCommunity) : bool := 0xFFFF0000 <=? comm_value c.

Definition community_name (c : StandardCommunity) : option string :=
  match comm_value c with
  | 0xFFFFFF01 => Some "NO_EXPORT"%string
  | 0xFFFFFF02 => Some "NO_ADVERTISE"%string
  | 0xFFFFFF03 => Some "NO_EXPORT_SUBCONFED"%string
  | 0xFFFF029A => Some "BLACKHOLE"%string
  | 0xFFFF0000 => Some "GRACEFUL_SHUTDOWN"%string
  | 0xFFFF0001 => Some "ACCEPT_OWN"%string
  | _ => None
  end.

(** [Display for StandardCommunity] *)
Definition community_to_string (c : StandardCommunity) : string :=
  match community_name c with
  | Some name => name
  | None => (fmt_dec (community_asn c) ++ ":" ++ fmt_dec (community_value c))%string
  end.

Record ExtendedCommunity := mkExtCommunity {
  ext_type_high : Z;
  ext_type_low : Z;
  ext_value : bytes;
}.

(** [from_bytes(b: &[u8; 8])] *)
Definition ext_from_bytes (b : bytes) : ExtendedCommunity :=
  mkExtCommunity (be (take 1 b)) (be (take 1 (drop 1 b))) (drop 2 b).

Definition ext_is_transitive (c : ExtendedCommunity) : bool :=
  Z.land (ext_type_high c) 0x40 =? 0.

Definition ext_kind (c : ExtendedCommunity) : string :=
  match Z.land (ext_type_high c) 0x3F, ext_type_low c with
  | 0x00, 0x02 | 0x02, 0x02 => "route-target"
  | 0x01, 0x02 => "route-target"
  | 0x00, 0x03 | 0x02, 0x03 => "route-origin-soo"
  | 0x01, 0x03 => "route-origin-soo"
  | 0x03, 0x0B => "sr-te-color"
  | 0x41, 0x0C | 0x01, 0x0C => "vxlan-vni"
  | _, _ => "extended-community"
  end.

(** [Display for ExtendedCommunity] *)
Definition ext_to_string (c : ExtendedCommunity) : string :=
  let v := ext_value c in
  let as_specific := (fmt_dec (be (take 2 v)) ++ ":" ++ fmt_dec (be (take 4 (drop 2 v))))%string in
  let ip_specific := (ipv4_to_string (take 4 v) ++ ":" ++ fmt_dec (be (take 2 (drop 4 v))))%string in
  match Z.land (ext_type_high c) 0x3F, ext_type_low c with
  | 0x00, 0x02 | 0x02, 0x02 => ("rt:" ++ as_specific)%string
  | 0x01, 0x02 => ("rt:" ++ ip_specific)%string
  | 0x00, 0x03 | 0x02, 0x03 => ("soo:" ++ as_specific)%string
  | 0x01, 0x03 => ("soo:" ++ ip_specific)%string
  | 0x03, 0x0B => ("color:" ++ fmt_dec (be (take 4 (drop 2 v))))%string
  | 0x41, 0x0C | 0x01, 0x0C => ("vni:" ++ fmt_dec (be (take 3 (drop 3 v))))%string
  | _, _ => ("ext:0x" ++ fmt_hex2 (as_u8 (ext_type_high c)) ++ fmt_hex2 (as_u8 (ext_type_low c))
             ++ ":" ++ hex_encode v)%string
  end.

Record LargeCommunity := mkLargeCommunity {
  global_admin : Z;
  local_data_1 : Z;
  local_data_2 : Z;
}.

(** [Display for LargeCommunity] *)
Definition large_to_string (c : LargeCommunity) : string :=
  (fmt_dec (global_admin c) ++ ":" ++ fmt_dec (local_data_1 c) ++ ":" ++ fmt_dec (local_data_2 c))%string.

(** ** ORIGIN *)

Inductive Origin : Type := Origin_Igp | Origin_Egp | Origin_Incomplete.

(** [impl TryFrom<u8> for Origin] *)
Definition origin_try_from (v : Z) : Result Origin :=
  match v with
  | 0 => Ok Origin_Igp
  | 1 => Ok Origin_Egp
  | 2 => Ok Origin_Incomplete
  | _ => Err (BgpParse ("invalid ORIGIN value " ++ fmt_dec v))
  end.

(** ** Capabilities (RFC 5492) *)

Inductive BgpCapability : Type :=
| Cap_Multiprotocol (f : AfiSafi)
| Cap_RouteRefresh
| Cap_ExtendedNextHop (a : Afi) (s : Safi) (next_hop_afi : Afi)
| Cap_ExtendedMessage
| Cap_BgpRole (role : Z)
| Cap_GracefulRestart (restart_time : Z) (afi_safis : list (AfiSafi * Z))
| Cap_FourByteAsn (asn : Z)
| Cap_AddPath (entries : list (AfiSafi * Z))
| Cap_EnhancedRouteRefresh
| Cap_LongLivedGracefulRestart (entries : bytes)
| Cap_Fqdn (hostname domain : string)
| Cap_Unknown (code : Z) (data : bytes).

Definition capability_code (c : BgpCapability) : Z :=
  match c with
  | Cap_Multiprotocol _ => 1
  | Cap_RouteRefresh => 2
  | Cap_ExtendedNextHop _ _ _ => 5
  | Cap_ExtendedMessage => 6
  | Cap_BgpRole _ => 9
  | Cap_GracefulRestart _ _ => 64
  | Cap_FourByteAsn _ => 65
  | Cap_AddPath _ => 69
  | Cap_EnhancedRouteRefresh => 70
  | Cap_LongLivedGracefulRestart _ => 71
  | Cap_Fqdn _ _ => 73
  | Cap_Unknown code _ => code
  end.

(** ** Decidable equality and countability *)

#[global] Instance llgr_state_eq_dec : EqDecision LlgrState.
Proof. solve_decision. Defined.
#[global] Instance afi_eq_dec : EqDecision Afi.
Proof. solve_decision. Defined.
#[global] Instance safi_eq_dec : EqDecision Safi.
Proof. solve_decision. Defined.
#[global] Instance afi_safi_eq_dec : EqDecision AfiSafi.
Proof. solve_decision. Defined.
#[global] Instance rd_eq_dec : EqDecision RouteDistinguisher.
Proof. solve_decision. Defined.
#[global] Instance prefix_eq_dec : EqDecision Prefix.
Proof. solve_decision. Defined.
#[global] Instance capability_eq_dec : EqDecision BgpCapability.
Proof. solve_decision. Defined.

#[global] Instance afi_countable : Countable Afi.
Proof.
  refine (inj_countable'
    (fun a => match a with
              | Afi_Ipv4 => inl 1%nat | Afi_Ipv6 => inl 2%nat
              | Afi_L2Vpn => inl 3%nat | Afi_BgpLs => inl 4%nat
              | Afi_Unknown v => inr v
              end)
    (fun c => match c with
              | inl 1%nat => Afi_Ipv4 | inl 2%nat => Afi_Ipv6
              | inl 3%nat => Afi_L2Vpn | inl _ => Afi_BgpLs
              | inr v => Afi_Unknown v
              end) _).
  by intros [].
Defined.

#[global] Instance safi_countable : Countable Safi.
Proof.
  refine (inj_countable'
    (fun s => match s with Safi_Unknown v => inr v | s => inl (safi_as_u8 s) end)
    (fun c => match c with inr v => Safi_Unknown v | inl v => safi_from v end) _).
  by intros [].
Defined.

#[global] Instance afi_safi_countable : Countable AfiSafi.
Proof.
  refine (inj_countable' (fun f => (afi f, safi f)) (fun p => mkAfiSafi p.1 p.2) _).
  by intros [].
Defined.

Definition prefix_leaf : Type := Ipv4Net + Ipv6Net + (bytes * list Z).

Fixpoint prefix_to_tree (p : Prefix) : gen_tree prefix_leaf :=
  match p with
  | Prefix_V4 n => GenLeaf (inl (inl n))
  | Prefix_V6 n => GenLeaf (inl (inr n))
  | Prefix_Labeled p ls => GenNode 0 [GenLeaf (inr ([], ls)); prefix_to_tree p]
  | Prefix_Vpn rd p ls => GenNode 1 [GenLeaf (inr (rd_bytes rd, ls)); prefix_to_tree p]
  end.

Fixpoint prefix_of_tree (t : gen_tree prefix_leaf) : Prefix :=
  match t with
  | GenLeaf (inl (inl n)) => Prefix_V4 n
  | GenLeaf (inl (inr n)) => Prefix_V6 n
  | GenNode 0 [GenLeaf (inr (_, ls)); t] => Prefix_Labeled (prefix_of_tree t) ls
  | GenNode _ [GenLeaf (inr (rd, ls)); t] => Prefix_Vpn (mkRD rd) (prefix_of_tree t) ls
  | _ => Prefix_V4 (mkIpv4Net [] 0)
  end.

#[global] Instance prefix_countable : Countable Prefix.
Proof.
  refine (inj_countable' prefix_to_tree prefix_of_tree _).
  intros p. induction p as [| |p IH|rd p IH]; simpl; rewrite ?IH; by try destruct rd.
Defined.

(** ** Decoding context *)

Record BgpDecodeContext := mkDecodeContext {
  four_byte_asn : bool;
  add_path_families : gset AfiSafi;
}.

Definition default_context : BgpDecodeContext := mkDecodeContext true ∅.

Definition context_new (four_byte : bool) : BgpDecodeContext := mkDecodeContext four_byte ∅.

Definition with_four_byte_asn (ctx : BgpDecodeContext) (four_byte : bool) : BgpDecodeContext :=
  mkDecodeContext four_byte (add_path_families ctx).

Definition with_add_path_ipv4 (add_path_ipv4 : bool) : BgpDecodeContext :=
  if add_path_ipv4
  then mkDecodeContext (four_byte_asn default_context)
         ({[ipv4_unicast]} ∪ add_path_families default_context)
  else default_context.

Definition with_add_path_family (ctx : BgpDecodeContext) (f : AfiSafi) : BgpDecodeContext :=
  mkDecodeContext (four_byte_asn ctx) ({[f]} ∪ add_path_families ctx).

(** One capability of the loop in [from_capabilities]. *)
Definition from_capabilities_step (st : gset AfiSafi * bool) (cap : BgpCapability)
    : gset AfiSafi * bool :=
  match cap with
  | Cap_FourByteAsn _ => (st.1, true)
  | Cap_AddPath entries =>
      (foldl (fun fams '(f, mode) => if mode =? 3 then {[f]} ∪ fams else fams) st.1 entries, st.2)
  | _ => st
  end.

Definition from_capabilities (four_byte : bool) (caps : list BgpCapability) : BgpDecodeContext :=
  let '(fams, cap_four_byte) := foldl from_capabilities_step (∅, false) caps in
  mkDecodeContext (four_byte || cap_four_byte) fams.

(** The [AddPath] entries of a capability, none for the others. *)
Definition add_path_entries (cap : BgpCapability) : list (AfiSafi * Z) :=
  match cap with Cap_AddPath entries => entries | _ => [] end.

Definition is_four_byte_cap (cap : BgpCapability) : bool :=
  match cap with Cap_FourByteAsn _ => true | _ => false end.

(** The test of the innermost loop of [from_negotiated_open]. *)
Definition add_path_active (sent_mode recv_mode : Z) : bool :=
  let inbound_active := bit_set sent_mode 1 && bit_set recv_mode 2 in
  let outbound_active := bit_set sent_mode 2 && bit_set recv_mode 1 in
  inbound_active || outbound_active.

(** [from_negotiated_open]: the four nested loops over sent capabilities,
    their entries, received capabilities and their entries. *)
Definition from_negotiated_open (four_byte : bool) (sent_caps recv_caps : list BgpCapability)
    : BgpDecodeContext :=
  let cap_four_byte := existsb is_four_byte_cap (sent_caps ++ recv_caps) in
  let fams :=
    foldl (fun fams sent_cap =>
      foldl (fun fams '(sent_af, sent_mode) =>
        foldl (fun fams recv_cap =>
          foldl (fun fams '(recv_af, recv_mode) =>
            if bool_decide (sent_af = recv_af) && add_path_active sent_mode recv_mode
            then {[sent_af]} ∪ fams else fams)
            fams (add_path_entries recv_cap))
          fams recv_caps)
        fams (add_path_entries sent_cap))
      (∅ : gset AfiSafi) sent_caps in
  mkDecodeContext (four_byte || cap_four_byte) fams.

Definition has_add_path (ctx : BgpDecodeContext) (f : AfiSafi) : bool :=
  bool_decide (f ∈ add_path_families ctx).
