(* ===== verification/PathStatusTlv.v ===== *)
(** * The experimental Path Status TLV ([crates/rbmp-core/src/bmp/path_status_tlv.rs]) *)

From Stdlib Require Import ZArith Lia ZifyBool String.
From stdpp Require Import base numbers list option strings.
From S2P Require Import Prelude RustStd CoreError Tlv.

Local Open Scope Z_scope.

Definition PATH_STATUS_TLV_TYPE : Z := 6.

Record PathStatusTlv := mkPathStatusTlv { status : Z; reason : Z }.

Definition STATUS_INVALID : Z := 0x0001.
Definition STATUS_BEST : Z := 0x0002.
Definition STATUS_NONSELECTED : Z := 0x0004.
Definition STATUS_PRIMARY : Z := 0x0008.
Definition STATUS_BACKUP : Z := 0x0010.
Definition STATUS_NON_INSTALLED : Z := 0x0020.
Definition STATUS_BEST_EXTERNAL : Z := 0x0040.
Definition STATUS_ADD_PATH : Z := 0x0080.
Definition STATUS_FILTERED_INBOUND : Z := 0x0100.
Definition STATUS_FILTERED_OUTBOUND : Z := 0x0200.
Definition STATUS_STALE : Z := 0x0400.
Definition STATUS_SUPPRESSED : Z := 0x0800.

Definition is_invalid (t : PathStatusTlv) : bool := bit_set (status t) STATUS_INVALID.
Definition is_best_path (t : PathStatusTlv) : bool := bit_set (status t) STATUS_BEST.
Definition is_nonselected (t : PathStatusTlv) : bool := bit_set (status t) STATUS_NONSELECTED.
Definition is_primary (t : PathStatusTlv) : bool := bit_set (status t) STATUS_PRIMARY.
Definition is_backup (t : PathStatusTlv) : bool := bit_set (status t) STATUS_BACKUP.
Definition is_non_installed (t : PathStatusTlv) : bool := bit_set (status t) STATUS_NON_INSTALLED.
Definition is_best_external (t : PathStatusTlv) : bool := bit_set (status t) STATUS_BEST_EXTERNAL.
Definition is_add_path (t : PathStatusTlv) : bool := bit_set (status t) STATUS_ADD_PATH.
Definition is_filtered_inbound (t : PathStatusTlv) : bool := bit_set (status t) STATUS_FILTERED_INBOUND.
Definition is_filtered_outbound (t : PathStatusTlv) : bool := bit_set (status t) STATUS_FILTERED_OUTBOUND.
Definition is_stale (t : PathStatusTlv) : bool := bit_set (status t) STATUS_STALE.
Definition is_suppressed (t : PathStatusTlv) : bool := bit_set (status t) STATUS_SUPPRESSED.

Definition status_label (t : PathStatusTlv) : string :=
  if is_best_path t then "best"
  else if is_primary t then "primary"
  else if is_backup t then "backup"
  else if is_best_external t then "best-external"
  else if is_add_path t then "add-path"
  else if is_nonselected t then "nonselected"
  else if is_filtered_inbound t then "filtered-inbound"
  else if is_filtered_outbound t then "filtered-outbound"
  else if is_stale t then "stale"
  else if is_suppressed t then "suppressed"
  else if is_non_installed t then "non-installed"
  else if is_invalid t then "invalid"
  else "unknown".

Definition reason_label (t : PathStatusTlv) : string :=
  match reason t with
  | 0x0001 => "AS loop"
  | 0x0002 => "unresolvable nexthop"
  | 0x0003 => "not preferred: LOCAL_PREF"
  | 0x0004 => "not preferred: AS_PATH length"
  | 0x0005 => "not preferred: ORIGIN type"
  | 0x0006 => "not preferred: MED"
  | 0x0007 => "not preferred: peer type"
  | 0x0008 => "not preferred: IGP cost"
  | 0x0009 => "not preferred: router-ID"
  | 0x000A => "not preferred: peer address"
  | 0x000B => "not preferred: AIGP"
  | _ => ""
  end.

Definition is_active (t : PathStatusTlv) : bool := is_best_path t || is_primary t.

(** [parse_path_status_tlv]: [None] when the bitmap does not fit. *)
Definition parse_path_status_tlv (data : bytes) : Result (option PathStatusTlv) :=
  if blen data <? 4 then Ok None
  else
    status ← be_at 4 data 0;
    reason ← (if 6 <=? blen data then be_at 2 data 4 else Ok 0);
    Ok (Some (mkPathStatusTlv status reason)).

Inductive PathMarkingProfile : Type :=
| Profile_Disabled
| Profile_ExperimentalDraft05 (tlv_type : Z).

(** The guard against scanning a BGP message: sixteen leading 0xFF octets. *)
Definition starts_with_marker (data : bytes) : bool :=
  (16 <=? blen data) && forallb (fun b => u8 b =? 0xFF) (take 16 data).

(** One round of the scan: [inl pos] goes on, [inr r] returns. *)
Definition find_path_status_step (data : bytes) (ty pos : Z)
    : Result (Z + option PathStatusTlv) :=
  if pos + 4 <=? blen data then
    t ← be_at 2 data pos;
    l ← be_at 2 data (pos + 2);
    let pos := pos + 4 in
    if blen data <? pos + l then Ok (inr None)
    else if t =? ty then
      v ← slice data pos (pos + l);
      r ← parse_path_status_tlv v;
      Ok (inr r)
    else Ok (inl (pos + l))
  else Ok (inr None).

Definition find_path_status_tlv (data : bytes) (ty : Z) : Result (option PathStatusTlv) :=
  if starts_with_marker data then Ok None
  else loop (S (length data)) (find_path_status_step data ty) 0.

Definition find_path_status_tlv_with_profile (data : bytes) (profile : PathMarkingProfile)
    : Result (option PathStatusTlv) :=
  match profile with
  | Profile_Disabled => Ok None
  | Profile_ExperimentalDraft05 ty => find_path_status_tlv data ty
  end.

(** ** Properties *)

(** The specification of the scan: the first TLV of the type decides. *)
Fixpoint first_of_type (ty : Z) (ts : list Tlv) : option bytes :=
  match ts with
  | [] => None
  | t :: ts' => if tlv_type t =? ty then Some (tlv_value t) else first_of_type ty ts'
  end.

Lemma parse_path_status_tlv_safe pn data :
  wp pn (parse_path_status_tlv data) (fun r =>
    match r with
    | Some t => 4 <= blen data /\ 0 <= status t < 2 ^ 32 /\ 0 <= reason t < 2 ^ 16
    | None => blen data < 4
    end).
Proof. unfold parse_path_status_tlv. repeat wp_step; simpl; blen_simpl; lia. Qed.

#[export] Hint Resolve parse_path_status_tlv_safe : wp.

Lemma find_path_status_tlv_safe data ty : safe (find_path_status_tlv data ty).
Proof.
  unfold find_path_status_tlv, safe. wp_step; [exact I|].
  apply (wp_loop _ (fun pos => 0 <= pos) (fun pos => Z.to_nat (blen data - pos))).
  - done.
  - rewrite length_blen. lia.
  - intros pos Hpos. unfold find_path_status_step.
    repeat first [wp_step | wp_call; intros]; simpl; try done. blen_simpl. lia.
Qed.

#[export] Hint Resolve find_path_status_tlv_safe : wp.

Lemma find_path_status_step_tlv pre t post ty :
  tlv_wf t ->
  find_path_status_step (pre ++ encode_tlv t ++ post) ty (blen pre) =
    if tlv_type t =? ty then inr <$> parse_path_status_tlv (tlv_value t)
    else Ok (inl (blen (pre ++ encode_tlv t))).
Proof.
  intros Ht. unfold find_path_status_step.
  pose proof (blen_nonneg (tlv_value t)). pose proof (blen_nonneg post).
  rewrite (read_tlv_type pre post t Ht (blen pre)) by done.
  rewrite bind_Ok, (read_tlv_len pre post t Ht), bind_Ok by done.
  rewrite !blen_app, blen_encode_tlv.
  rewrite (proj2 (Z.leb_le _ _)), (proj2 (Z.ltb_ge _ _)) by lia.
  rewrite read_tlv_value, bind_Ok by (done || lia).
  case_if; [by destruct (parse_path_status_tlv _)|]. do 2 f_equal. lia.
Qed.

Lemma find_path_status_loop ty ts pre fuel :
  Forall tlv_wf ts ->
  (length ts < fuel)%nat ->
  loop fuel (find_path_status_step (pre ++ encode_tlvs ts) ty) (blen pre) =
    match first_of_type ty ts with
    | Some v => parse_path_status_tlv v
    | None => Ok None
    end.
Proof.
  revert pre fuel. induction ts as [|t ts IH]; intros pre fuel Hwf Hfuel.
  all: destruct fuel as [|fuel]; [simpl in Hfuel; lia|]; rewrite loop_S.
  - rewrite encode_tlvs_nil, app_nil_r. unfold find_path_status_step. case_if; [lia|done].
  - apply Forall_cons in Hwf as [Ht Hts]. rewrite encode_tlvs_cons, find_path_status_step_tlv by done.
    simpl first_of_type. case_if; [by destruct (parse_path_status_tlv _)|].
    rewrite app_assoc. apply IH; [done|]. simpl in *. lia.
Qed.

(** On a well-formed TLV trailer the scan returns the first TLV of
    the requested type, decoded, and nothing when there is none. *)
Theorem find_path_status_tlv_first (ts : list Tlv) (ty : Z) :
  Forall tlv_wf ts ->
  starts_with_marker (encode_tlvs ts) = false ->
  find_path_status_tlv (encode_tlvs ts) ty =
    match first_of_type ty ts with
    | Some v => parse_path_status_tlv v
    | None => Ok None
    end.
Proof.
  intros Hwf Hmark. unfold find_path_status_tlv. rewrite Hmark.
  apply (find_path_status_loop ty ts []); [done|]. pose proof (length_encode_tlvs ts). lia.
Qed.

(** The label names an active status exactly for active paths. *)
Theorem active_iff_label (t : PathStatusTlv) :
  is_active t = true <-> status_label t = "best"%string \/ status_label t = "primary"%string.
Proof.
  unfold is_active, status_label.
  destruct (is_best_path t), (is_primary t); simpl; try tauto.
  split; [done|]. repeat case_if; intros []; done.
Qed.

Lemma find_path_status_tlv_first_witness :
  find_path_status_tlv (encode_tlvs [mkTlv 1 (bs [7]); mkTlv 5 (bs [0; 0; 0; 2; 0; 6])]) 5 =
    Ok (Some (mkPathStatusTlv 2 6)).
Proof. rewrite find_path_status_tlv_first; [reflexivity|by repeat constructor|reflexivity]. Defined.
