(* ===== verification/Evpn.v ===== *)
(** * EVPN NLRI ([crates/rbmp-core/src/bgp/evpn.rs]) *)

From Stdlib Require Import ZArith Lia ZifyBool String.
From stdpp Require Import base numbers list option strings.
From S2P Require Import Prelude RustStd CoreError.

Local Open Scope Z_scope.

Inductive EvpnRoute : Type :=
| Evpn_EthernetAutoDiscovery (rd esi : bytes) (ethernet_tag mpls_label : Z)
| Evpn_MacIpAdvertisement (rd esi : bytes) (ethernet_tag : Z) (mac : bytes)
    (ip : option IpAddr) (mpls_label1 : Z) (mpls_label2 : option Z)
| Evpn_InclusiveMulticastEthernetTag (rd : bytes) (ethernet_tag : Z) (originating_router_ip : IpAddr)
| Evpn_EthernetSegment (rd esi : bytes) (originating_router_ip : IpAddr)
| Evpn_IpPrefix (rd esi : bytes) (ethernet_tag : Z) (prefix : IpAddr) (prefix_len : Z)
    (gw_ip : option IpAddr) (mpls_label : Z)
| Evpn_SelectiveMulticastEthernetTag (rd : bytes) (ethernet_tag : Z)
    (multicast_source multicast_group originating_router_ip : IpAddr)
| Evpn_IgmpJoinSynch (rd : bytes) (ethernet_tag : Z)
    (multicast_source multicast_group originating_router_ip : IpAddr)
| Evpn_IgmpLeaveSynch (rd : bytes) (ethernet_tag : Z)
    (multicast_source multicast_group originating_router_ip : IpAddr)
| Evpn_PerRegionIPmsi (rd : bytes) (ethernet_tag : Z) (originating_router_ip : IpAddr)
| Evpn_SPmsi (rd : bytes) (ethernet_tag : Z)
    (multicast_source multicast_group originating_router_ip : IpAddr)
| Evpn_LeafAD (route_key : bytes) (path_id : Z)
| Evpn_Unknown (route_type : Z) (data : bytes).

Definition route_type_name (r : EvpnRoute) : string :=
  match r with
  | Evpn_EthernetAutoDiscovery _ _ _ _ => "ethernet-auto-discovery"
  | Evpn_MacIpAdvertisement _ _ _ _ _ _ _ => "mac-ip-advertisement"
  | Evpn_InclusiveMulticastEthernetTag _ _ _ => "inclusive-multicast-ethernet-tag"
  | Evpn_EthernetSegment _ _ _ => "ethernet-segment"
  | Evpn_IpPrefix _ _ _ _ _ _ _ => "ip-prefix"
  | Evpn_SelectiveMulticastEthernetTag _ _ _ _ _ => "selective-multicast-ethernet-tag"
  | Evpn_IgmpJoinSynch _ _ _ _ _ => "igmp-join-synch"
  | Evpn_IgmpLeaveSynch _ _ _ _ _ => "igmp-leave-synch"
  | Evpn_PerRegionIPmsi _ _ _ => "per-region-i-pmsi"
  | Evpn_SPmsi _ _ _ _ _ => "s-pmsi"
  | Evpn_LeafAD _ _ => "leaf-ad"
  | Evpn_Unknown _ _ => "unknown"
  end.

Definition route_type_code (r : EvpnRoute) : Z :=
  match r with
  | Evpn_EthernetAutoDiscovery _ _ _ _ => 1
  | Evpn_MacIpAdvertisement _ _ _ _ _ _ _ => 2
  | Evpn_InclusiveMulticastEthernetTag _ _ _ => 3
  | Evpn_EthernetSegment _ _ _ => 4
  | Evpn_IpPrefix _ _ _ _ _ _ _ => 5
  | Evpn_SelectiveMulticastEthernetTag _ _ _ _ _ => 6
  | Evpn_IgmpJoinSynch _ _ _ _ _ => 7
  | Evpn_IgmpLeaveSynch _ _ _ _ _ => 8
  | Evpn_PerRegionIPmsi _ _ _ => 9
  | Evpn_SPmsi _ _ _ _ _ => 10
  | Evpn_LeafAD _ _ => 11
  | Evpn_Unknown route_type _ => route_type
  end.

(** [decode_mpls_label]: the top 20 of 24 bits. *)
Definition decode_mpls_label (b : bytes) : Result Z :=
  raw ← be_at 3 b 0; Ok (Z.shiftr raw 4).

Definition decode_evpn_router_ip (ip_len : Z) (buf : bytes) : Result IpAddr :=
  if ip_len =? 32 then
    if blen buf <? 4 then Err (UnexpectedEof 4 (blen buf))
    else a ← slice buf 0 4; Ok (IpAddr_V4 a)
  else if ip_len =? 128 then
    if blen buf <? 16 then Err (UnexpectedEof 16 (blen buf))
    else b ← slice buf 0 16; Ok (IpAddr_V6 b)
  else Err (BgpParse ("EVPN originator IP length " ++ fmt_dec ip_len ++ " not 32 or 128")).

(** Type 1: RD(8) + ESI(10) + ETag(4) + Label(3). *)
Definition parse_evpn_type1 (v : bytes) : Result EvpnRoute :=
  if blen v <? 25 then Err (UnexpectedEof 25 (blen v))
  else
    rd ← slice v 0 8;
    esi ← slice v 8 18;
    ethernet_tag ← be_at 4 v 18;
    mpls_label ← slice v 22 25 ≫= decode_mpls_label;
    Ok (Evpn_EthernetAutoDiscovery rd esi ethernet_tag mpls_label).

(** Type 2: RD, ESI, ETag, MAC length and MAC, IP length and IP, one or two labels. *)
Definition parse_evpn_type2 (v : bytes) : Result EvpnRoute :=
  if blen v <? 33 then Err (UnexpectedEof 33 (blen v))
  else
    rd ← slice v 0 8;
    esi ← slice v 8 18;
    ethernet_tag ← be_at 4 v 18;
    mac_len ← idx v 22;
    if negb (mac_len =? 48) then
      Err (BgpParse ("EVPN type2 mac_len=" ++ fmt_dec mac_len ++ ", expected 48"))
    else
      mac ← slice v 23 29;
      ip_len ← idx v 29;
      let pos := 30 in
      '(ip, pos) ←
        (if ip_len =? 0 then Ok (None, pos)
         else if ip_len =? 32 then
           if blen v <? pos + 4 then Err (UnexpectedEof (pos + 4) (blen v))
           else a ← slice v pos (pos + 4); Ok (Some (IpAddr_V4 a), pos + 4)
         else if ip_len =? 128 then
           if blen v <? pos + 16 then Err (UnexpectedEof (pos + 16) (blen v))
           else b ← slice v pos (pos + 16); Ok (Some (IpAddr_V6 b), pos + 16)
         else Err (BgpParse ("EVPN type2 ip_len=" ++ fmt_dec ip_len)));
      if blen v <? pos + 3 then Err (UnexpectedEof (pos + 3) (blen v))
      else
        mpls_label1 ← slice v pos (pos + 3) ≫= decode_mpls_label;
        mpls_label2 ←
          (if pos + 6 <=? blen v
           then l ← slice v (pos + 3) (pos + 6) ≫= decode_mpls_label; Ok (Some l)
           else Ok None);
        Ok (Evpn_MacIpAdvertisement rd esi ethernet_tag mac ip mpls_label1 mpls_label2).

(** Type 3: RD(8) + ETag(4) + IP length and IP. *)
Definition parse_evpn_type3 (v : bytes) : Result EvpnRoute :=
  if blen v <? 13 then Err (UnexpectedEof 13 (blen v))
  else
    rd ← slice v 0 8;
    ethernet_tag ← be_at 4 v 8;
    ip_len ← idx v 12;
    ip ← slice_from v 13 ≫= decode_evpn_router_ip ip_len;
    Ok (Evpn_InclusiveMulticastEthernetTag rd ethernet_tag ip).

(** Type 4: RD(8) + ESI(10) + IP length and IP. *)
Definition parse_evpn_type4 (v : bytes) : Result EvpnRoute :=
  if blen v <? 19 then Err (UnexpectedEof 19 (blen v))
  else
    rd ← slice v 0 8;
    esi ← slice v 8 18;
    ip_len ← idx v 18;
    ip ← slice_from v 19 ≫= decode_evpn_router_ip ip_len;
    Ok (Evpn_EthernetSegment rd esi ip).

(** The address of [ip_octets] octets at [off]. *)
Definition evpn_ip_at (v : bytes) (off ip_octets : Z) : Result IpAddr :=
  if ip_octets =? 4 then a ← slice v off (off + 4); Ok (IpAddr_V4 a)
  else b ← slice v off (off + 16); Ok (IpAddr_V6 b).

(** Type 5: RD, ESI, ETag, prefix length, prefix, gateway (all zero = none), label. *)
Definition parse_evpn_type5 (v : bytes) : Result EvpnRoute :=
  if blen v <? 34 then Err (UnexpectedEof 34 (blen v))
  else
    rd ← slice v 0 8;
    esi ← slice v 8 18;
    ethernet_tag ← be_at 4 v 18;
    prefix_len ← idx v 22;
    let ip_octets := if prefix_len <=? 32 then 4 else 16 in
    if blen v <? 23 + ip_octets * 2 + 3 then
      Err (UnexpectedEof (23 + ip_octets * 2 + 3) (blen v))
    else
      prefix ← evpn_ip_at v 23 ip_octets;
      let gw_off := 23 + ip_octets in
      gw_bytes ← slice v gw_off (gw_off + ip_octets);
      gw_ip ←
        (if forallb (fun b => u8 b =? 0) gw_bytes then Ok None
         else a ← evpn_ip_at v gw_off ip_octets; Ok (Some a));
      let label_off := gw_off + ip_octets in
      mpls_label ← slice v label_off (label_off + 3) ≫= decode_mpls_label;
      Ok (Evpn_IpPrefix rd esi ethernet_tag prefix prefix_len gw_ip mpls_label).

(** Types 6, 7, 8 and 10 share their layout: RD(8) + ETag(4) and three
    length-prefixed addresses (source, group, originator). *)
Definition parse_evpn_multicast (v : bytes)
    (mk : bytes -> Z -> IpAddr -> IpAddr -> IpAddr -> EvpnRoute) : Result EvpnRoute :=
  if blen v <? 13 then Err (UnexpectedEof 13 (blen v))
  else
    rd ← slice v 0 8;
    ethernet_tag ← be_at 4 v 8;
    let pos := 12 in
    src_ip_len ← idx v pos;
    let pos := pos + 1 in
    multicast_source ← slice_from v pos ≫= decode_evpn_router_ip src_ip_len;
    let pos := pos + (if src_ip_len =? 32 then 4 else 16) in
    if blen v <=? pos then Err (UnexpectedEof (pos + 1) (blen v))
    else
      grp_ip_len ← idx v pos;
      let pos := pos + 1 in
      multicast_group ← slice_from v pos ≫= decode_evpn_router_ip grp_ip_len;
      let pos := pos + (if grp_ip_len =? 32 then 4 else 16) in
      if blen v <=? pos then Err (UnexpectedEof (pos + 1) (blen v))
      else
        orig_ip_len ← idx v pos;
        let pos := pos + 1 in
        originating_router_ip ← slice_from v pos ≫= decode_evpn_router_ip orig_ip_len;
        Ok (mk rd ethernet_tag multicast_source multicast_group originating_router_ip).

(** Type 9: RD(8) + ETag(4) + IP length and IP. *)
Definition parse_evpn_type9 (v : bytes) : Result EvpnRoute :=
  if blen v <? 13 then Err (UnexpectedEof 13 (blen v))
  else
    rd ← slice v 0 8;
    ethernet_tag ← be_at 4 v 8;
    ip_len ← idx v 12;
    ip ← slice_from v 13 ≫= decode_evpn_router_ip ip_len;
    Ok (Evpn_PerRegionIPmsi rd ethernet_tag ip).

(** Type 11: route key, then a path id in the last four octets. *)
Definition parse_evpn_type11 (v : bytes) : Result EvpnRoute :=
  if blen v <? 4 then Err (UnexpectedEof 4 (blen v))
  else
    path_id ← be_at 4 v (blen v - 4);
    route_key ← slice v 0 (blen v - 4);
    Ok (Evpn_LeafAD route_key path_id).

Definition parse_evpn_route (route_type : Z) (v : bytes) : Result EvpnRoute :=
  match route_type with
  | 1 => parse_evpn_type1 v
  | 2 => parse_evpn_type2 v
  | 3 => parse_evpn_type3 v
  | 4 => parse_evpn_type4 v
  | 5 => parse_evpn_type5 v
  | 6 => parse_evpn_multicast v Evpn_SelectiveMulticastEthernetTag
  | 7 => parse_evpn_multicast v Evpn_IgmpJoinSynch
  | 8 => parse_evpn_multicast v Evpn_IgmpLeaveSynch
  | 9 => parse_evpn_type9 v
  | 10 => parse_evpn_multicast v Evpn_SPmsi
  | 11 => parse_evpn_type11 v
  | _ => Ok (Evpn_Unknown route_type v)
  end.

(** One route of the stream: Route-Type(1) + Length(1) + Value. *)
Definition decode_evpn_step (st : bytes * list EvpnRoute)
    : Result ((bytes * list EvpnRoute) + list EvpnRoute) :=
  let '(buf, routes) := st in
  if 2 <=? blen buf then
    route_type ← idx buf 0;
    length ← idx buf 1;
    buf ← slice_from buf 2;
    if blen buf <? length then Err (UnexpectedEof length (blen buf))
    else
      value ← slice buf 0 length;
      buf ← slice_from buf length;
      route ← parse_evpn_route route_type value;
      Ok (inl (buf, routes ++ [route]))
  else Ok (inr routes).

Definition decode_evpn_nlri (buf : bytes) : Result (list EvpnRoute) :=
  loop (S (length buf)) decode_evpn_step (buf, []).

(** ** Safety: EVPN decoding never panics and always ends *)

Lemma decode_mpls_label_safe pn b :
  blen b = 3 -> wp pn (decode_mpls_label b) (fun l => 0 <= l < 2 ^ 20).
Proof.
  intros Hb. unfold decode_mpls_label. repeat wp_step; blen_simpl.
  rewrite Z.shiftr_div_pow2 by lia. split; [apply Z.div_pos; lia|].
  apply Z.div_lt_upper_bound; lia.
Qed.

Lemma decode_evpn_router_ip_safe pn ip_len buf :
  wp pn (decode_evpn_router_ip ip_len buf) (fun _ =>
    (ip_len = 32 /\ 4 <= blen buf) \/ (ip_len = 128 /\ 16 <= blen buf)).
Proof. unfold decode_evpn_router_ip. repeat wp_step; simpl; lia. Qed.

Lemma evpn_ip_at_safe pn v off n :
  0 <= off -> (n = 4 \/ n = 16) -> off + n <= blen v ->
  wp pn (evpn_ip_at v off n) (fun _ => True).
Proof. intros. unfold evpn_ip_at. repeat wp_step; done. Qed.

Ltac evpn_step := first
  [ wp_step
  | eapply wp_mono; [apply decode_mpls_label_safe; bounded|intros ? ?]
  | eapply wp_mono; [apply decode_evpn_router_ip_safe|intros ? ?]
  | eapply wp_mono; [apply evpn_ip_at_safe; bounded|intros ? ?] ].

(** The type code a parser's route carries, from the constructor it builds. *)
Lemma parse_evpn_multicast_safe pn v mk (P : EvpnRoute -> Prop) :
  (forall a b c d e, P (mk a b c d e)) -> wp pn (parse_evpn_multicast v mk) P.
Proof.
  intros HP. unfold parse_evpn_multicast. repeat evpn_step; try apply HP; simpl in *; lia.
Qed.

Lemma parse_evpn_route_safe pn route_type v :
  wp pn (parse_evpn_route route_type v) (fun r => route_type_code r = route_type).
Proof.
  unfold parse_evpn_route.
  repeat case_match; try done; try (by apply parse_evpn_multicast_safe).
  all: unfold parse_evpn_type1, parse_evpn_type2, parse_evpn_type3, parse_evpn_type4,
         parse_evpn_type5, parse_evpn_type9, parse_evpn_type11.
  all: repeat evpn_step; simpl in *; try done; lia.
Qed.

#[export] Hint Resolve parse_evpn_route_safe : wp.

Lemma decode_evpn_nlri_safe pn buf : wp pn (decode_evpn_nlri buf) (fun _ => True).
Proof.
  apply (wp_loop _ (fun _ => True) (fun st => length st.1)); [done|simpl; lia|].
  intros [b routes] _. unfold decode_evpn_step.
  repeat first [wp_step | wp_call; intros]; try done.
  split; [done|]. rewrite !length_blen in *. simpl. lia.
Qed.

#[export] Hint Resolve decode_evpn_nlri_safe : wp.

(** ** The stream format *)

(** A framed route: its type octet, its length octet and its value. *)
Definition encode_evpn_frame (f : Z * bytes) : bytes :=
  [as_u8 f.1; as_u8 (blen f.2)] ++ f.2.

Definition evpn_frame_wf (f : Z * bytes) : Prop := 0 <= f.1 < 256 /\ blen f.2 < 256.

Lemma decode_evpn_step_frame f rest routes :
  evpn_frame_wf f ->
  decode_evpn_step (encode_evpn_frame f ++ rest, routes) =
    (r ← parse_evpn_route f.1 f.2; Ok (inl (rest, routes ++ [r]))).
Proof.
  destruct f as [ty v]. intros [Hty Hv]. cbn [fst snd] in *. pose proof (blen_nonneg v).
  pose proof (blen_nonneg rest). unfold decode_evpn_step, encode_evpn_frame. cbn [fst snd].
  rewrite <- app_assoc. set (buf := [_; _] ++ v ++ rest).
  assert (blen buf = 2 + blen v + blen rest) as Hb.
  { unfold buf. rewrite !blen_app. change (blen [as_u8 ty; as_u8 (blen v)]) with 2. lia. }
  rewrite (proj2 (Z.leb_le _ _)) by lia.
  assert (idx (E := Error) buf 0 = Ok ty) as ->.
  { unfold idx. rewrite Hb, (proj2 (Z.ltb_lt _ _)) by lia. simpl. by rewrite u8_as_u8. }
  assert (idx (E := Error) buf 1 = Ok (blen v)) as ->.
  { unfold idx. rewrite Hb, (proj2 (Z.ltb_lt _ _)) by lia. simpl. by rewrite u8_as_u8. }
  rewrite !bind_Ok. unfold buf. rewrite slice_from_app by done.
  rewrite bind_Ok, blen_app, (proj2 (Z.ltb_ge _ _)) by lia.
  by rewrite slice_to_app, bind_Ok, slice_from_app.
Qed.

(** Decoding a stream of framed EVPN routes (and at most one stray
    octet, which the source ignores) decodes each frame with the parser of its
    type, in order, and stops at the first frame that is not well-formed. *)
Theorem decode_evpn_nlri_frames (fs : list (Z * bytes)) (tail : bytes) :
  Forall evpn_frame_wf fs -> blen tail < 2 ->
  decode_evpn_nlri ((fs ≫= encode_evpn_frame) ++ tail) =
    mapM (fun f => parse_evpn_route f.1 f.2) fs.
Proof.
  intros Hwf Htail. unfold decode_evpn_nlri.
  rewrite (loop_stream_mapM _ encode_evpn_frame (fun f => parse_evpn_route f.1 f.2) evpn_frame_wf);
    [by destruct (mapM _ fs)| | |done|].
  - intros. by apply decode_evpn_step_frame.
  - intros acc. simpl. by rewrite (proj2 (Z.leb_gt _ _)) by lia.
  - rewrite length_app. pose proof (length_stream encode_evpn_frame evpn_frame_wf fs). simpl in *.
    apply Nat.lt_succ_r. etransitivity; [by apply H|]. lia.
Qed.

Lemma decode_evpn_nlri_frames_witness :
  decode_evpn_nlri (bs [3; 17; 0; 1; 10; 0; 0; 1; 0; 100; 0; 0; 0; 7; 32; 192; 0; 2; 1; 200; 1; 9]) =
    Ok [Evpn_InclusiveMulticastEthernetTag (bs [0; 1; 10; 0; 0; 1; 0; 100]) 7 (IpAddr_V4 (bs [192; 0; 2; 1]));
        Evpn_Unknown 200 (bs [9])].
Proof.
  apply (decode_evpn_nlri_frames
    [(3, bs [0; 1; 10; 0; 0; 1; 0; 100; 0; 0; 0; 7; 32; 192; 0; 2; 1]); (200, bs [9])] []);
    [by repeat constructor|done].
Defined.
