(* ===== verification/Nlri.v ===== *)
(** * NLRI decoding ([crates/rbmp-core/src/bgp/nlri.rs])

    Plain, Add-Path, labeled, VPN and VPLS NLRI and MP_REACH next hops, with
    the encoders they are inverse to on the specification side. *)

From Stdlib Require Import ZArith Lia ZifyBool String.
From stdpp Require Import base numbers list option strings.
From S2P Require Import Prelude RustStd Crates CoreError BgpTypes.

Local Open Scope Z_scope.

(** [VplsNlri] of [types.rs] *)
Record VplsNlri := mkVplsNlri {
  vpls_rd : bytes;
  ve_id : Z;
  ve_block_offset : Z;
  ve_block_size : Z;
  label_base : Z;
}.

Section Nlri.
Context `{BytesBuf} `{IpNetCrate}.

(** [match afi { Afi::Ipv6 => 128, _ => 32 }] *)
Definition max_bits (a : Afi) : Z := match a with Afi_Ipv6 => 128 | _ => 32 end.

(** The end every NLRI decoder shares: take [octets] octets, copy them to the
    front of a zeroed address ([addr[..octets]] panics when the address is
    shorter) and build the truncated network. *)
Definition read_prefix (a : Afi) (prefix_len octets : Z) (buf : bytes) : Result (Prefix * bytes) :=
  match a with
  | Afi_Ipv6 =>
      '(chunk, buf) ← copy_to_bytes octets buf;
      addr ← copy_into_zeroed 16 chunk;
      net ← or_err (ipv6net_new addr prefix_len) (InvalidPrefixLen prefix_len (afi_as_u16 a));
      Ok (Prefix_V6 (ipv6net_trunc net), buf)
  | _ =>
      '(chunk, buf) ← copy_to_bytes octets buf;
      addr ← copy_into_zeroed 4 chunk;
      net ← or_err (ipv4net_new addr prefix_len) (InvalidPrefixLen prefix_len (afi_as_u16 a));
      Ok (Prefix_V4 (ipv4net_trunc net), buf)
  end.

(** The body both plain decoders share: prefix length, bounds, prefix. *)
Definition decode_prefix_entry (a : Afi) (buf : bytes) : Result (Prefix * bytes) :=
  '(prefix_len, buf) ← get_u8 buf;
  let octets := div_ceil8 prefix_len in
  if blen buf <? octets then Err (UnexpectedEof octets (blen buf))
  else if max_bits a <? prefix_len then Err (InvalidPrefixLen prefix_len (afi_as_u16 a))
  else read_prefix a prefix_len octets buf.

(** One entry of [decode_nlri_with_path_id]. *)
Definition decode_nlri_with_path_id_step (a : Afi) (add_path : bool)
    (st : bytes * list (Prefix * option Z))
    : Result ((bytes * list (Prefix * option Z)) + list (Prefix * option Z)) :=
  let '(buf, prefixes) := st in
  if 0 <? blen buf then
    '(path_id, buf) ←
      (if add_path then
         if blen buf <? 4 then Err (UnexpectedEof 4 (blen buf))
         else '(v, buf) ← get_u32 buf; Ok (Some v, buf)
       else Ok (None, buf));
    if blen buf <? 1 then Err (UnexpectedEof 1 0)
    else
      '(prefix, buf) ← decode_prefix_entry a buf;
      Ok (inl (buf, prefixes ++ [(prefix, path_id)]))
  else Ok (inr prefixes).

Definition decode_nlri_with_path_id (buf : bytes) (a : Afi) (add_path : bool)
    : Result (list (Prefix * option Z)) :=
  loop (S (length buf)) (decode_nlri_with_path_id_step a add_path) (buf, []).

(** One entry of [decode_nlri]. *)
Definition decode_nlri_step (a : Afi) (st : bytes * list Prefix)
    : Result ((bytes * list Prefix) + list Prefix) :=
  let '(buf, prefixes) := st in
  if 0 <? blen buf then
    '(prefix, buf) ← decode_prefix_entry a buf;
    Ok (inl (buf, prefixes ++ [prefix]))
  else Ok (inr prefixes).

Definition decode_nlri (buf : bytes) (a : Afi) : Result (list Prefix) :=
  loop (S (length buf)) (decode_nlri_step a) (buf, []).

(** The label-stack loop of [decode_labeled_nlri]: labels until the
    bottom-of-stack bit. *)
Definition read_labels_step (st : bytes * list Z)
    : Result ((bytes * list Z) + (bytes * list Z)) :=
  let '(buf, labels) := st in
  if blen buf <? 3 then Err (UnexpectedEof 3 (blen buf))
  else
    '(b, buf) ← copy_to_bytes 3 buf;
    let raw := be b in
    let label := Z.shiftr raw 4 in
    let bos := bit_set raw 0x01 in
    let labels := labels ++ [label] in
    if bos then Ok (inr (buf, labels)) else Ok (inl (buf, labels)).

Definition read_labels (buf : bytes) : Result (bytes * list Z) :=
  loop (S (length buf)) read_labels_step (buf, []).

(** One entry of [decode_labeled_nlri]. *)
Definition decode_labeled_nlri_step (a : Afi) (st : bytes * list Prefix)
    : Result ((bytes * list Prefix) + list Prefix) :=
  let '(buf, prefixes) := st in
  if 0 <? blen buf then
    '(total_len, buf) ← get_u8 buf;
    '(buf, labels) ← read_labels buf;
    let label_bits := blen labels * 24 in
    if total_len <? label_bits then
      Err (BgpParse ("labeled NLRI bit length " ++ fmt_dec total_len
                     ++ " smaller than label stack bits " ++ fmt_dec label_bits))
    else
      let prefix_len := (total_len - label_bits) mod 256 in
      let octets := div_ceil8 prefix_len in
      if blen buf <? octets then Err (UnexpectedEof octets (blen buf))
      else
        '(inner, buf) ← read_prefix a prefix_len octets buf;
        Ok (inl (buf, prefixes ++ [Prefix_Labeled inner labels]))
  else Ok (inr prefixes).

Definition decode_labeled_nlri (buf : bytes) (a : Afi) : Result (list Prefix) :=
  loop (S (length buf)) (decode_labeled_nlri_step a) (buf, []).

(** One entry of [decode_vpn_nlri]. *)
Definition decode_vpn_nlri_step (a : Afi) (st : bytes * list Prefix)
    : Result ((bytes * list Prefix) + list Prefix) :=
  let '(buf, prefixes) := st in
  if 0 <? blen buf then
    '(total_len, buf) ← get_u8 buf;
    if blen buf <? 3 then Err (UnexpectedEof 3 (blen buf))
    else
      '(b, buf) ← copy_to_bytes 3 buf;
      let label := Z.shiftr (be b) 4 in
      if blen buf <? 8 then Err (UnexpectedEof 8 (blen buf))
      else
        '(rd, buf) ← copy_to_bytes 8 buf;
        if total_len <? 24 + 64 then
          Err (BgpParse ("VPN NLRI bit length " ++ fmt_dec total_len
                         ++ " smaller than 88-bit label+RD header"))
        else
          let prefix_len := (total_len - (24 + 64)) mod 256 in
          let octets := div_ceil8 prefix_len in
          if blen buf <? octets then Err (UnexpectedEof octets (blen buf))
          else
            '(inner, buf) ← read_prefix a prefix_len octets buf;
            Ok (inl (buf, prefixes ++ [Prefix_Vpn (mkRD rd) inner [label]]))
  else Ok (inr prefixes).

Definition decode_vpn_nlri (buf : bytes) (a : Afi) : Result (list Prefix) :=
  loop (S (length buf)) (decode_vpn_nlri_step a) (buf, []).

(** One entry of [decode_vpls_nlri]: a truncated one ends the loop, one
    shorter than 17 octets is skipped. *)
Definition decode_vpls_nlri_step (st : bytes * list VplsNlri)
    : Result ((bytes * list VplsNlri) + list VplsNlri) :=
  let '(cur, result) := st in
  if 2 <=? blen cur then
    '(nlri_len, cur) ← get_u16 cur;
    if blen cur <? nlri_len then Ok (inr result)
    else
      '(nlri, cur) ← copy_to_bytes nlri_len cur;
      if blen nlri <? 17 then Ok (inl (cur, result))
      else
        rd ← slice nlri 0 8;
        ve_id ← be_at 2 nlri 8;
        ve_block_offset ← be_at 2 nlri 10;
        ve_block_size ← be_at 2 nlri 12;
        label_raw ← be_at 3 nlri 14;
        let label_base := Z.shiftr label_raw 4 in
        Ok (inl (cur, result ++ [mkVplsNlri rd ve_id ve_block_offset ve_block_size label_base]))
  else Ok (inr result).

Definition decode_vpls_nlri (buf : bytes) : Result (list VplsNlri) :=
  loop (S (length buf)) decode_vpls_nlri_step (buf, []).

(** The loop of [decode_next_hops] over the next-hop octets. *)
Definition decode_next_hops_step (a : Afi) (hop_size : Z) (nh_bytes : bytes)
    (st : Z * list IpAddr) : Result ((Z * list IpAddr) + list IpAddr) :=
  let '(pos, hops) := st in
  if pos + hop_size <=? blen nh_bytes then
    addr ← match a with
           | Afi_Ipv6 => b ← slice nh_bytes pos (pos + 16); Ok (IpAddr_V6 b)
           | _ => b ← slice nh_bytes pos (pos + 4); Ok (IpAddr_V4 b)
           end;
    Ok (inl (pos + hop_size, hops ++ [addr]))
  else Ok (inr hops).

(** [decode_next_hops]; the buffer it leaves behind is returned as well. *)
Definition decode_next_hops (buf : bytes) (a : Afi) : Result (list IpAddr * bytes) :=
  if blen buf <? 1 then Err (UnexpectedEof 1 0)
  else
    '(nh_len, buf) ← get_u8 buf;
    if blen buf <? nh_len then Err (UnexpectedEof nh_len (blen buf))
    else
      '(nh_bytes, buf) ← copy_to_bytes nh_len buf;
      let hop_size := match a with Afi_Ipv6 => 16 | _ => 4 end in
      if (nh_len =? 0) || negb (nh_len mod hop_size =? 0) then
        Err (BgpParse ("invalid MP_REACH next-hop length " ++ fmt_dec nh_len
                       ++ " for AFI " ++ fmt_dec (afi_as_u16 a)))
      else
        hops ← loop (S (length nh_bytes)) (decode_next_hops_step a hop_size nh_bytes) (0, []);
        Ok (hops, buf).

End Nlri.

(** ** Specification: canonical prefixes and their encoding *)

(** A network of [w] bits: its address has that width, the length fits, and no
    host bit is set. *)
Definition net_canonical (w : Z) (addr : bytes) (len : Z) : Prop :=
  blen addr = w / 8 /\ 0 <= len <= w /\ mask_octets len addr = addr.

(** A plain prefix of the family: IPv6 for AFI 2, IPv4 for every other AFI, as
    the decoders have it. *)
Definition prefix_canonical (a : Afi) (p : Prefix) : Prop :=
  match p with
  | Prefix_V4 n => a <> Afi_Ipv6 /\ net_canonical 32 (ipv4net_addr n) (ipv4net_prefix_len n)
  | Prefix_V6 n => a = Afi_Ipv6 /\ net_canonical 128 (ipv6net_addr n) (ipv6net_prefix_len n)
  | _ => False
  end.

Definition net_addr (p : Prefix) : bytes :=
  match p with
  | Prefix_V4 n => ipv4net_addr n
  | Prefix_V6 n => ipv6net_addr n
  | _ => []
  end.

Definition net_len (p : Prefix) : Z :=
  match p with
  | Prefix_V4 n => ipv4net_prefix_len n
  | Prefix_V6 n => ipv6net_prefix_len n
  | _ => 0
  end.

(** The octets of a prefix that go on the wire. *)
Definition net_octets (p : Prefix) : bytes := take (Z.to_nat (div_ceil8 (net_len p))) (net_addr p).

Definition encode_prefix (p : Prefix) : bytes := as_u8 (net_len p) :: net_octets p.

(** With Add-Path every entry has its path identifier in front. *)
Definition encode_entry (e : Prefix * option Z) : bytes :=
  match e.2 with Some id => to_be 4 id | None => [] end ++ encode_prefix e.1.

Definition path_id_ok (add_path : bool) (id : option Z) : Prop :=
  match id with
  | Some v => add_path = true /\ 0 <= v < 2 ^ 32
  | None => add_path = false
  end.

Definition entry_wf (a : Afi) (add_path : bool) (e : Prefix * option Z) : Prop :=
  prefix_canonical a e.1 /\ path_id_ok add_path e.2.

(** ** Lemmas on octets and prefixes *)

Lemma div_ceil8_bounds n : 0 <= n -> 0 <= div_ceil8 n /\ n <= 8 * div_ceil8 n <= n + 7.
Proof.
  intros. unfold div_ceil8. pose proof (Z.div_mod (n + 7) 8).
  pose proof (Z.mod_pos_bound (n + 7) 8). lia.
Qed.

Lemma drop_mask_octets p a :
  drop (Z.to_nat (div_ceil8 p)) (mask_octets p a) =
    replicate (length a - Z.to_nat (div_ceil8 p)) Byte.x00.
Proof.
  revert p. induction a as [|b a IH]; intros p; simpl; [by rewrite drop_nil|].
  destruct (decide (p <= 0)).
  - assert (div_ceil8 p <= 0) as Hp by (unfold div_ceil8; apply Z.lt_succ_r, Z.div_lt_upper_bound; lia).
    replace (Z.to_nat (div_ceil8 p)) with 0%nat by lia. simpl. f_equal.
    + unfold mask_octet. by rewrite (proj2 (Z.leb_le _ _)) by lia.
    + specialize (IH (p - 8)).
      assert (div_ceil8 (p - 8) <= 0) by (unfold div_ceil8; apply Z.lt_succ_r, Z.div_lt_upper_bound; lia).
      replace (Z.to_nat (div_ceil8 (p - 8))) with 0%nat in IH by lia.
      by rewrite drop_0, Nat.sub_0_r in IH.
  - assert (div_ceil8 p = 1 + div_ceil8 (p - 8)) as ->.
    { unfold div_ceil8. replace (p + 7) with (1 * 8 + (p - 8 + 7)) by lia. rewrite Z.div_add_l; lia. }
    assert (0 <= div_ceil8 (p - 8)) by (unfold div_ceil8; apply Z.div_pos; lia).
    rewrite Z2Nat.inj_add by lia. simpl. apply IH.
Qed.

(** Copying a canonical address' wire octets into a zeroed buffer restores it. *)
Lemma copy_into_zeroed_net {E} w addr len :
  net_canonical w addr len -> 0 <= w -> w mod 8 = 0 ->
  copy_into_zeroed (E := E) (w / 8) (take (Z.to_nat (div_ceil8 len)) addr) = Ok addr /\
  blen (take (Z.to_nat (div_ceil8 len)) addr) = div_ceil8 len.
Proof.
  intros (Hlen & Hle & Hmask) Hw Hw8. pose proof (div_ceil8_bounds len ltac:(lia)).
  pose proof (Z.div_mod w 8).
  assert (blen (take (Z.to_nat (div_ceil8 len)) addr) = div_ceil8 len) as Ht by (apply blen_take; lia).
  split; [|done]. unfold copy_into_zeroed. rewrite Ht, (proj2 (Z.leb_le _ _)) by lia. f_equal.
  rewrite <- (take_drop (Z.to_nat (div_ceil8 len)) addr) at 2. f_equal.
  rewrite <- Hmask at 1. rewrite drop_mask_octets. f_equal. rewrite length_blen. lia.
Qed.

Section NlriFacts.
Context `{BytesBuf} `{IpNetCrate}.

Lemma read_prefix_canonical a p rest :
  prefix_canonical a p ->
  read_prefix a (net_len p) (div_ceil8 (net_len p)) (net_octets p ++ rest) = Ok (p, rest).
Proof.
  destruct p as [n|n| |]; simpl; intros Hp; try done; destruct Hp as [Ha Hc];
    pose proof Hc as (Hl & Hle & Hm).
  - destruct (copy_into_zeroed_net (E := Error) _ _ _ Hc) as [Hz Hb]; [done..|].
    unfold read_prefix, net_octets. simpl.
    assert (forall e : Error, or_err (ipv4net_new (ipv4net_addr n) (ipv4net_prefix_len n)) e = Ok n) as Hnew.
    { intros e. rewrite ipv4net_new_spec, (proj2 (Z.leb_le _ _)) by lia. by destruct n. }
    destruct a; try done; rewrite copy_to_bytes_app by done; rewrite bind_Ok;
      change (copy_into_zeroed 4) with (copy_into_zeroed (E := Error) (32 / 8)); rewrite Hz, bind_Ok, Hnew, bind_Ok, ipv4net_trunc_spec, Hm;
      by destruct n.
  - destruct (copy_into_zeroed_net (E := Error) _ _ _ Hc) as [Hz Hb]; [done..|]. subst a.
    unfold read_prefix, net_octets. simpl. rewrite copy_to_bytes_app by done. rewrite bind_Ok.
    change (copy_into_zeroed 16) with (copy_into_zeroed (E := Error) (128 / 8)). rewrite Hz, bind_Ok, ipv6net_new_spec, (proj2 (Z.leb_le _ _)) by lia.
    simpl. rewrite ipv6net_trunc_spec. simpl. rewrite Hm. by destruct n.
Qed.

(** The result of a successful read is canonical; the read panics only when
    the declared length exceeds the address. *)
Lemma wp_read_prefix pn a len buf :
  0 <= len -> div_ceil8 len <= blen buf -> (len > max_bits a -> pn) ->
  wp pn (read_prefix a len (div_ceil8 len) buf) (fun r =>
    prefix_canonical a r.1 /\ net_len r.1 = len /\ blen r.2 = blen buf - div_ceil8 len).
Proof.
  intros Hlen Hbuf Hp. pose proof (div_ceil8_bounds len Hlen).
  assert (forall n (Q : bytes -> Prop) c, blen c = div_ceil8 len -> max_bits a = 8 * n ->
    (forall r, blen r = n -> Q r) -> wp (E := Error) pn (copy_into_zeroed n c) Q) as Hcp.
  { intros n Q c Hc Hn HQ. apply wp_copy_into_zeroed; [|auto]. intros. apply Hp. lia. }
  unfold read_prefix.
  destruct a; apply wp_bind, wp_copy_to_bytes; try lia; intros c rest _ Hc Hr;
    apply wp_bind, Hcp; try done; intros addr Haddr; apply wp_bind, wp_or_err; intros net Hnet;
    apply wp_ok; simpl.
  all: rewrite ?ipv4net_new_spec, ?ipv6net_new_spec in Hnet; case_if; simplify_eq.
  all: rewrite ?ipv4net_trunc_spec, ?ipv6net_trunc_spec; simpl; unfold net_canonical;
    rewrite blen_mask_octets, mask_octets_idemp; split_and!; try done; try lia.
Qed.

(** What a canonical prefix looks like on the wire. *)
Lemma prefix_canonical_wire a p :
  prefix_canonical a p ->
  0 <= net_len p <= max_bits a /\ blen (net_octets p) = div_ceil8 (net_len p).
Proof.
  destruct p as [n|n| |]; simpl; intros Hp; try done; destruct Hp as [Ha Hc].
  all: destruct (copy_into_zeroed_net (E := Error) _ _ _ Hc) as [_ Hb]; [done..|].
  all: destruct Hc as (?&?&?); split; [|done]; destruct a; simpl; lia || done.
Qed.

Lemma max_bits_le a : max_bits a = 32 \/ max_bits a = 128.
Proof. destruct a; simpl; auto. Qed.

(** ** Plain and Add-Path NLRI *)

Lemma decode_prefix_entry_canonical a p rest :
  prefix_canonical a p -> decode_prefix_entry a (encode_prefix p ++ rest) = Ok (p, rest).
Proof.
  intros Hp. destruct (prefix_canonical_wire a p Hp) as [Hl Ho]. pose proof (max_bits_le a).
  pose proof (blen_nonneg rest). unfold decode_prefix_entry, encode_prefix. rewrite <- app_comm_cons.
  rewrite get_u8_cons, bind_Ok, u8_as_u8 by lia. cbn zeta.
  rewrite blen_app, !(proj2 (Z.ltb_ge _ _)) by lia. by apply read_prefix_canonical.
Qed.

Lemma wp_decode_prefix_entry pn a buf :
  0 < blen buf ->
  wp pn (decode_prefix_entry a buf) (fun r => prefix_canonical a r.1 /\ blen r.2 < blen buf).
Proof.
  intros Hb. unfold decode_prefix_entry. apply wp_bind. buf_step. rename v into len.
  pose proof (div_ceil8_bounds len ltac:(lia)). repeat wp_core.
  eapply wp_mono; [apply wp_read_prefix; lia|]. intros [p r0]; simpl. intros (?&?&?). split; [done|lia].
Qed.

Lemma decode_step_entry a add_path e rest acc :
  entry_wf a add_path e ->
  decode_nlri_with_path_id_step a add_path (encode_entry e ++ rest, acc) = Ok (inl (rest, acc ++ [e])).
Proof.
  destruct e as [p id]. intros [Hp Hid]. cbn [fst snd] in *.
  assert (0 < blen (encode_prefix p ++ rest)) as Hpos.
  { unfold encode_prefix. rewrite <- app_comm_cons, blen_cons.
    pose proof (blen_nonneg (net_octets p ++ rest)). lia. }
  unfold decode_nlri_with_path_id_step, encode_entry. destruct id as [v|]; simpl in Hid; cbn [fst snd].
  - destruct Hid as [-> Hv]. rewrite <- app_assoc, blen_app.
    assert (blen (to_be 4 v) = 4) as Hv4 by (unfold blen; by rewrite length_to_be).
    rewrite Hv4, (proj2 (Z.ltb_lt _ _)), (proj2 (Z.ltb_ge _ _)) by lia.
    rewrite get_u32_app, be_to_be, !bind_Ok by done.
    rewrite (proj2 (Z.ltb_ge _ _)) by lia. by rewrite decode_prefix_entry_canonical.
  - subst. rewrite app_nil_l, (proj2 (Z.ltb_lt _ _)), bind_Ok, (proj2 (Z.ltb_ge _ _)) by lia.
    by rewrite decode_prefix_entry_canonical.
Qed.

Lemma encode_entry_nonempty e : encode_entry e <> [].
Proof. unfold encode_entry, encode_prefix. destruct e as [p [v|]]; simpl; [|done]. by destruct (to_be 4 v). Qed.

Lemma decode_nlri_entries a add_path (es : list (Prefix * option Z)) :
  Forall (entry_wf a add_path) es ->
  decode_nlri_with_path_id (es ≫= encode_entry) a add_path = Ok es.
Proof. apply loop_stream; auto using decode_step_entry, encode_entry_nonempty. Qed.

(** Add-Path and plain NLRI round trip: decoding the concatenation of
    encoded entries gives back exactly those entries. *)
Theorem decode_nlri_with_path_id_roundtrip a add_path (es : list (Prefix * option Z)) :
  Forall (entry_wf a add_path) es ->
  decode_nlri_with_path_id (es ≫= encode_entry) a add_path = Ok es.
Proof. apply decode_nlri_entries. Qed.

Lemma wp_decode_nlri_with_path_id pn buf a add_path :
  wp pn (decode_nlri_with_path_id buf a add_path) (Forall (entry_wf a add_path)).
Proof.
  apply (wp_loop _ (fun st => Forall (entry_wf a add_path) st.2) (fun st => length st.1));
    [done|simpl; lia|].
  intros [b acc] Hacc. simpl in Hacc. unfold decode_nlri_with_path_id_step.
  destruct (0 <? blen b) eqn:?; [|done]. repeat buf_step.
  all: eapply wp_mono; [apply wp_decode_prefix_entry; lia|]; intros [p r1] [Hp Hr]; simpl in *.
  all: split; [|rewrite !length_blen; lia].
  all: apply Forall_app; split; [done|]; apply Forall_singleton; split; [done|]; simpl; auto with lia.
Qed.

(** On every input, the plain and Add-Path decoder ends without a
    panic, and every entry it returns is canonical: the prefix is of the
    requested family, no longer than the address, has no host bits set, and
    carries a 32-bit path identifier exactly when Add-Path is on. *)
Theorem decode_nlri_with_path_id_canonical buf a add_path :
  wp False (decode_nlri_with_path_id buf a add_path) (Forall (entry_wf a add_path)).
Proof. apply wp_decode_nlri_with_path_id. Qed.

(** The plain decoder is the Add-Path decoder with Add-Path off. *)
Theorem decode_nlri_plain buf a :
  decode_nlri buf a = (fun es : list (Prefix * option Z) => es.*1) <$> decode_nlri_with_path_id buf a false.
Proof.
  unfold decode_nlri, decode_nlri_with_path_id.
  rewrite <- (loop_sim (fun st : bytes * list (Prefix * option Z) => (st.1, st.2.*1)) _ _ (decode_nlri_step a)); [done|].
  intros [b acc]. simpl. case_if; [|done]. rewrite (proj2 (Z.ltb_ge _ _)) by lia.
  destruct (decode_prefix_entry a b) as [[p r]| | |]; simpl; try done. by rewrite fmap_app.
Qed.

End NlriFacts.

(** ** Labeled and VPN NLRI *)

Definition label_ok (l : Z) : Prop := 0 <= l < 2 ^ 20.

Definition encode_label (bos : bool) (l : Z) : bytes := to_be 3 (l * 16 + Z.b2z bos).

Fixpoint encode_labels (ls : list Z) : bytes :=
  match ls with
  | [] => []
  | [l] => encode_label true l
  | l :: ls' => encode_label false l ++ encode_labels ls'
  end.

(** A labeled entry: total bit length, label stack, [len] bits of prefix. *)
Definition encode_labeled_entry (ls : list Z) (len : Z) (octets : bytes) : bytes :=
  as_u8 (24 * blen ls + len) :: encode_labels ls ++ octets.

Definition encode_vpn_entry (rd : RouteDistinguisher) (l len : Z) (octets : bytes) : bytes :=
  as_u8 (88 + len) :: encode_label true l ++ rd_bytes rd ++ octets.

Definition encode_labeled (p : Prefix) : bytes :=
  match p with
  | Prefix_Labeled inner ls => encode_labeled_entry ls (net_len inner) (net_octets inner)
  | Prefix_Vpn rd inner (l :: _) => encode_vpn_entry rd l (net_len inner) (net_octets inner)
  | _ => []
  end.

Definition labeled_wf (a : Afi) (p : Prefix) : Prop :=
  match p with
  | Prefix_Labeled inner ls =>
      prefix_canonical a inner /\ ls <> [] /\ Forall label_ok ls /\ 24 * blen ls + net_len inner <= 255
  | _ => False
  end.

Definition vpn_wf (a : Afi) (p : Prefix) : Prop :=
  match p with
  | Prefix_Vpn rd inner [l] =>
      prefix_canonical a inner /\ label_ok l /\ blen (rd_bytes rd) = 8 /\ 88 + net_len inner <= 255
  | _ => False
  end.

Lemma encode_label_value bos l :
  label_ok l ->
  Z.shiftr (be (encode_label bos l)) 4 = l /\ bit_set (be (encode_label bos l)) 0x01 = bos.
Proof.
  unfold label_ok, encode_label, bit_set. intros Hl.
  assert (0 <= Z.b2z bos <= 1) by (destruct bos; simpl; lia).
  rewrite be_to_be by (change (256 ^ Z.of_nat 3) with (2 ^ 24); lia).
  split.
  - rewrite Z.shiftr_div_pow2 by lia. change (2 ^ 4) with 16.
    rewrite Z.div_add_l, Z.div_small by lia. lia.
  - change 1 with (Z.ones 1). rewrite Z.land_ones by lia. change (2 ^ 1) with 2.
    replace (l * 16 + Z.b2z bos) with (Z.b2z bos + l * 8 * 2) by lia.
    rewrite Z.mod_add by lia. by destruct bos.
Qed.

Section LabeledFacts.
Context `{BytesBuf} `{IpNetCrate}.

Lemma read_labels_step_label bos l rest acc :
  label_ok l ->
  read_labels_step (encode_label bos l ++ rest, acc) =
    Ok (if bos then inr (rest, acc ++ [l]) else inl (rest, acc ++ [l])).
Proof.
  intros Hl. destruct (encode_label_value bos l Hl) as [Hs Hb].
  assert (blen (encode_label bos l) = 3) as H3 by apply blen_to_be.
  unfold read_labels_step. rewrite blen_app, H3, (proj2 (Z.ltb_ge _ _))
    by (pose proof (blen_nonneg rest); lia).
  rewrite copy_to_bytes_app, bind_Ok by done. cbn zeta. rewrite Hs, Hb. by destruct bos.
Qed.

Lemma loop_read_labels ls rest acc fuel :
  ls <> [] -> Forall label_ok ls -> (length ls <= fuel)%nat ->
  loop fuel read_labels_step (encode_labels ls ++ rest, acc) = Ok (rest, acc ++ ls).
Proof.
  revert acc fuel. induction ls as [|l ls IH]; intros acc fuel Hne Hls Hf; [done|].
  apply Forall_cons in Hls as [Hl Hls]. destruct fuel as [|fuel]; [simpl in Hf; lia|].
  rewrite loop_S. destruct ls as [|l' ls].
  - simpl encode_labels. by rewrite read_labels_step_label.
  - change (encode_labels (l :: l' :: ls)) with (encode_label false l ++ encode_labels (l' :: ls)).
    rewrite <- app_assoc, read_labels_step_label by done.
    rewrite IH by (done || (simpl in *; lia)). by rewrite <- app_assoc.
Qed.

Lemma blen_encode_labels ls : blen (encode_labels ls) = 3 * blen ls.
Proof.
  induction ls as [|l ls IH]; [done|]. destruct ls as [|l' ls].
  - apply blen_to_be.
  - change (encode_labels (l :: l' :: ls)) with (encode_label false l ++ encode_labels (l' :: ls)).
    rewrite blen_app, IH, !blen_cons. unfold encode_label. rewrite blen_to_be. lia.
Qed.

Lemma read_labels_stack ls rest :
  ls <> [] -> Forall label_ok ls -> read_labels (encode_labels ls ++ rest) = Ok (rest, ls).
Proof.
  intros Hne Hls. unfold read_labels. rewrite loop_read_labels; [done..|].
  pose proof (blen_encode_labels ls). rewrite length_app. unfold blen in *. lia.
Qed.

(** The step of the labeled decoder on an entry whose header is well-formed:
    all that is left is to read the prefix. *)
Lemma decode_labeled_step_entry a ls len octets rest acc :
  ls <> [] -> Forall label_ok ls -> 0 <= len -> 24 * blen ls + len <= 255 ->
  blen octets = div_ceil8 len ->
  decode_labeled_nlri_step a (encode_labeled_entry ls len octets ++ rest, acc) =
    ('(inner, buf) ← read_prefix a len (div_ceil8 len) (octets ++ rest);
     Ok (inl (buf, acc ++ [Prefix_Labeled inner ls]))).
Proof.
  intros Hne Hls Hlen Htot Ho. unfold decode_labeled_nlri_step, encode_labeled_entry.
  rewrite <- app_comm_cons, blen_cons, <- app_assoc.
  set (r := encode_labels ls ++ octets ++ rest). pose proof (blen_nonneg r). pose proof (blen_nonneg ls).
  rewrite (proj2 (Z.ltb_lt _ _)), get_u8_cons, bind_Ok, u8_as_u8 by lia.
  unfold r. rewrite read_labels_stack, bind_Ok by done. cbn zeta.
  rewrite (proj2 (Z.ltb_ge _ _)) by lia.
  replace ((24 * blen ls + len - blen ls * 24) mod 256) with len
    by (replace (24 * blen ls + len - blen ls * 24) with len by lia; rewrite Z.mod_small; lia).
  pose proof (blen_nonneg rest).
  by rewrite blen_app, (proj2 (Z.ltb_ge _ _)) by lia.
Qed.

Lemma decode_vpn_step_entry a rd l len octets rest acc :
  label_ok l -> blen (rd_bytes rd) = 8 -> 0 <= len -> 88 + len <= 255 -> blen octets = div_ceil8 len ->
  decode_vpn_nlri_step a (encode_vpn_entry rd l len octets ++ rest, acc) =
    ('(inner, buf) ← read_prefix a len (div_ceil8 len) (octets ++ rest);
     Ok (inl (buf, acc ++ [Prefix_Vpn rd inner [l]]))).
Proof.
  intros Hl Hrd Hlen Htot Ho. unfold decode_vpn_nlri_step, encode_vpn_entry.
  rewrite <- app_comm_cons, blen_cons, <- !app_assoc.
  destruct (encode_label_value true l Hl) as [Hs _].
  assert (blen (encode_label true l) = 3) as H3 by apply blen_to_be.
  pose proof (blen_nonneg rest). pose proof (blen_nonneg octets).
  rewrite !blen_app, H3, Hrd, (proj2 (Z.ltb_lt _ _)), get_u8_cons, bind_Ok, u8_as_u8 by lia.
  rewrite !blen_app, H3, Hrd, (proj2 (Z.ltb_ge _ _)) by lia.
  rewrite copy_to_bytes_app, bind_Ok by done. cbn zeta. rewrite Hs.
  rewrite !blen_app, Hrd, (proj2 (Z.ltb_ge _ _)) by lia.
  rewrite copy_to_bytes_app, bind_Ok, (proj2 (Z.ltb_ge _ _)) by lia. cbn zeta.
  replace ((88 + len - (24 + 64)) mod 256) with len
    by (replace (88 + len - (24 + 64)) with len by lia; rewrite Z.mod_small; lia).
  rewrite blen_app, (proj2 (Z.ltb_ge _ _)) by lia. by destruct rd.
Qed.

Lemma decode_labeled_step_wf a p rest acc :
  labeled_wf a p ->
  decode_labeled_nlri_step a (encode_labeled p ++ rest, acc) = Ok (inl (rest, acc ++ [p])).
Proof.
  destruct p as [| |inner ls|]; try done. intros (Hin & Hne & Hls & Htot).
  destruct (prefix_canonical_wire a inner Hin) as [Hlen Ho]. simpl encode_labeled.
  rewrite decode_labeled_step_entry by (done || lia). by rewrite read_prefix_canonical.
Qed.

Lemma decode_vpn_step_wf a p rest acc :
  vpn_wf a p -> decode_vpn_nlri_step a (encode_labeled p ++ rest, acc) = Ok (inl (rest, acc ++ [p])).
Proof.
  destruct p as [| | |rd inner [|l [|]]]; try done. intros (Hin & Hl & Hrd & Htot).
  destruct (prefix_canonical_wire a inner Hin) as [Hlen Ho]. simpl encode_labeled.
  rewrite decode_vpn_step_entry by (done || lia). by rewrite read_prefix_canonical.
Qed.

Lemma encode_labeled_nonempty a p : labeled_wf a p \/ vpn_wf a p -> encode_labeled p <> [].
Proof. destruct p as [| |inner ls|rd inner [|l [|]]]; simpl; by intros [|]. Qed.

(** Labeled-unicast NLRI (RFC 8277) round trip, label stacks of any
    depth included. *)
Theorem decode_labeled_nlri_roundtrip a (ps : list Prefix) :
  Forall (labeled_wf a) ps -> decode_labeled_nlri (ps ≫= encode_labeled) a = Ok ps.
Proof.
  apply loop_stream; eauto using decode_labeled_step_wf, encode_labeled_nonempty.
Qed.

(** VPN NLRI (RFC 4364) round trip. *)
Theorem decode_vpn_nlri_roundtrip a (ps : list Prefix) :
  Forall (vpn_wf a) ps -> decode_vpn_nlri (ps ≫= encode_labeled) a = Ok ps.
Proof.
  apply loop_stream; eauto using decode_vpn_step_wf, encode_labeled_nonempty.
Qed.

(** Reading a prefix longer than the address panics before the length is checked. *)
Lemma read_prefix_overlong a len octets rest :
  max_bits a < len -> blen octets = div_ceil8 len ->
  read_prefix a len (div_ceil8 len) (octets ++ rest) = Panic.
Proof.
  intros Hlen Ho. destruct (max_bits_le a) as [Hm|Hm];
    pose proof (div_ceil8_bounds len ltac:(lia)); unfold read_prefix;
    destruct a; try done; rewrite copy_to_bytes_app, bind_Ok by done;
    unfold copy_into_zeroed; by rewrite (proj2 (Z.leb_gt _ _)) by (simpl in *; lia).
Qed.

(** One labeled entry whose prefix is longer than the address of its
    family crashes the decoder, wherever it stands in the NLRI field and
    whatever follows: the range check of [Ipv4Net::new] comes after the copy
    that panics. *)
Theorem decode_labeled_nlri_overlong_panics a (ps : list Prefix) ls len octets rest :
  Forall (labeled_wf a) ps -> ls <> [] -> Forall label_ok ls ->
  max_bits a < len -> 24 * blen ls + len <= 255 -> blen octets = div_ceil8 len ->
  decode_labeled_nlri ((ps ≫= encode_labeled) ++ encode_labeled_entry ls len octets ++ rest) a = Panic.
Proof.
  intros Hps Hne Hls Hlen Htot Ho. pose proof (max_bits_le a).
  apply (loop_stream_tail _ encode_labeled id (labeled_wf a));
    eauto using decode_labeled_step_wf, encode_labeled_nonempty.
  intros fuel. rewrite loop_S, decode_labeled_step_entry by (done || lia). by rewrite read_prefix_overlong.
Qed.

(** Likewise for a VPN entry. *)
Theorem decode_vpn_nlri_overlong_panics a (ps : list Prefix) rd l len octets rest :
  Forall (vpn_wf a) ps -> label_ok l -> blen (rd_bytes rd) = 8 ->
  max_bits a < len -> 88 + len <= 255 -> blen octets = div_ceil8 len ->
  decode_vpn_nlri ((ps ≫= encode_labeled) ++ encode_vpn_entry rd l len octets ++ rest) a = Panic.
Proof.
  intros Hps Hl Hrd Hlen Htot Ho. pose proof (max_bits_le a).
  apply (loop_stream_tail _ encode_labeled id (vpn_wf a));
    eauto using decode_vpn_step_wf, encode_labeled_nonempty.
  intros fuel. rewrite loop_S, decode_vpn_step_entry by (done || lia). by rewrite read_prefix_overlong.
Qed.

(** ** Termination and canonical results on every input *)

Definition labeled_canonical (a : Afi) (p : Prefix) : Prop :=
  match p with
  | Prefix_Labeled inner ls => prefix_canonical a inner /\ ls <> [] /\ Forall label_ok ls
  | _ => False
  end.

Definition vpn_canonical (a : Afi) (p : Prefix) : Prop :=
  match p with
  | Prefix_Vpn rd inner [l] => prefix_canonical a inner /\ label_ok l /\ blen (rd_bytes rd) = 8
  | _ => False
  end.

Lemma label_of_bytes b : blen b = 3 -> label_ok (Z.shiftr (be b) 4).
Proof.
  intros Hb. unfold label_ok. pose proof (be_bounds b) as Hv. rewrite Hb, pow256_3 in Hv.
  rewrite Z.shiftr_div_pow2 by lia.
  split; [apply Z.div_pos; lia|apply Z.div_lt_upper_bound; lia].
Qed.

Lemma wp_read_labels pn buf :
  wp pn (read_labels buf) (fun r => r.2 <> [] /\ Forall label_ok r.2 /\ blen r.1 < blen buf).
Proof.
  unfold read_labels.
  apply (wp_loop _ (fun st => Forall label_ok st.2 /\ blen st.1 <= blen buf) (fun st => length st.1));
    [split; [constructor|simpl; lia]|simpl; lia|].
  intros [b acc] [Hacc Hb]. simpl in *. unfold read_labels_step.
  wp_core; [apply wp_err|]. apply wp_bind. buf_step. cbn zeta.
  assert (Forall label_ok (acc ++ [Z.shiftr (be a) 4])).
  { apply Forall_app; split; [done|]. by apply Forall_singleton, label_of_bytes. }
  wp_core; apply wp_ok; split_and!; try done; simpl; try lia; [by destruct acc|].
  rewrite !length_blen; lia.
Qed.

Lemma wp_decode_labeled_nlri buf a :
  wp True (decode_labeled_nlri buf a) (Forall (labeled_canonical a)).
Proof.
  apply (wp_loop _ (fun st => Forall (labeled_canonical a) st.2) (fun st => length st.1));
    [constructor|simpl; lia|].
  intros [b acc] Hacc. simpl in Hacc. unfold decode_labeled_nlri_step.
  destruct (0 <? blen b) eqn:?; [|done]. apply wp_bind. buf_step. apply wp_bind.
  eapply wp_mono; [apply wp_read_labels|]. intros [r2 ls] (Hne & Hls & Hr2). cbn [fst snd] in *.
  wp_core; [apply wp_err|]. cbn zeta. wp_core; [apply wp_err|]. apply wp_bind.
  pose proof (Z.mod_pos_bound (v - blen ls * 24) 256 ltac:(lia)).
  eapply wp_mono; [apply wp_read_prefix; done || lia|]. intros [p r3] (Hp & _ & Hr3); cbn [fst snd] in *.
  pose proof (div_ceil8_bounds ((v - blen ls * 24) mod 256) ltac:(lia)).
  apply wp_ok. split; [|simpl; rewrite !length_blen; lia].
  apply Forall_app; split; [done|]. by apply Forall_singleton.
Qed.

Lemma wp_decode_vpn_nlri buf a : wp True (decode_vpn_nlri buf a) (Forall (vpn_canonical a)).
Proof.
  apply (wp_loop _ (fun st => Forall (vpn_canonical a) st.2) (fun st => length st.1));
    [constructor|simpl; lia|].
  intros [b acc] Hacc. simpl in Hacc. unfold decode_vpn_nlri_step.
  destruct (0 <? blen b) eqn:?; [|done]. apply wp_bind. buf_step.
  wp_core; [apply wp_err|]. apply wp_bind. buf_step. cbn zeta.
  wp_core; [apply wp_err|]. apply wp_bind. buf_step.
  wp_core; [apply wp_err|]. cbn zeta. wp_core; [apply wp_err|]. apply wp_bind.
  pose proof (Z.mod_pos_bound (v - (24 + 64)) 256 ltac:(lia)).
  eapply wp_mono; [apply wp_read_prefix; done || lia|]. intros [p r3] (Hp & _ & Hr3); cbn [fst snd] in *.
  pose proof (div_ceil8_bounds ((v - (24 + 64)) mod 256) ltac:(lia)).
  apply wp_ok. split; [|simpl; rewrite !length_blen; lia].
  apply Forall_app; split; [done|]. apply Forall_singleton. split_and!; try done. by apply label_of_bytes.
Qed.

Lemma wp_decode_vpls_nlri pn buf : wp pn (decode_vpls_nlri buf) (fun _ => True).
Proof.
  apply (wp_loop _ (fun _ => True) (fun st => length st.1)); [done|simpl; lia|].
  intros [b acc] _. unfold decode_vpls_nlri_step. repeat buf_step; try done.
  all: split; [done|]; rewrite !length_blen; simpl; lia.
Qed.

Lemma wp_decode_next_hops pn buf a :
  wp pn (decode_next_hops buf a) (fun r => blen r.2 < blen buf /\ 0 < blen r.1).
Proof.
  unfold decode_next_hops. wp_core; [apply wp_err|]. apply wp_bind. buf_step.
  wp_core; [apply wp_err|]. apply wp_bind. buf_step. cbn zeta.
  set (hs := match a with Afi_Ipv6 => 16 | _ => 4 end).
  assert (hs = 16 /\ a = Afi_Ipv6 \/ hs = 4 /\ a <> Afi_Ipv6) as Hhs by (destruct a; unfold hs; auto).
  wp_core; [apply wp_err|]. apply wp_bind.
  assert (hs <= v) as Hge.
  { assert (v mod hs = 0) as Hmod by lia. pose proof (Z.div_mod v hs ltac:(lia)).
    assert (v / hs <> 0) by lia. assert (0 <= v / hs) by (apply Z.div_pos; lia). nia. }
  eapply wp_mono.
  - apply (wp_loop _ (fun st => 0 <= st.1 /\ (st.1 = 0 \/ 0 < blen st.2))
             (fun st => Z.to_nat (blen a0 - st.1)) _ _ _ (fun hops => 0 < blen hops)).
    + simpl; lia.
    + simpl. rewrite length_blen. lia.
    + intros [pos hops] [Hpos Hh]; simpl in *. unfold decode_next_hops_step. wp_core; [|apply wp_ok; lia].
      apply wp_bind. eapply (wp_mono _ _ (fun _ => True)); [destruct a; repeat buf_step; try done|].
      all: try (exfalso; destruct Hhs as [[? ?]|[? ?]]; by try lia).
      intros hop _. apply wp_ok. cbn [fst snd]. rewrite blen_app. pose proof (blen_nonneg hops).
      change (blen [hop]) with 1. lia.
  - intros hops Hh. apply wp_ok. split; [simpl; lia|exact Hh].
Qed.

(** ** MP_REACH next hops *)

Definition ip_octets (ip : IpAddr) : bytes :=
  match ip with IpAddr_V4 a => a | IpAddr_V6 a => a end.

Definition hop_wf (a : Afi) (ip : IpAddr) : Prop :=
  match ip with
  | IpAddr_V4 o => a <> Afi_Ipv6 /\ blen o = 4
  | IpAddr_V6 o => a = Afi_Ipv6 /\ blen o = 16
  end.

Lemma blen_hops a hops :
  Forall (hop_wf a) hops ->
  blen (hops ≫= ip_octets) = blen hops * (match a with Afi_Ipv6 => 16 | _ => 4 end).
Proof.
  induction 1 as [|h hops Hh _ IH]; [done|]. rewrite bind_cons, blen_app, IH, blen_cons.
  destruct h as [o|o]; destruct Hh as [Ha Ho]; simpl ip_octets; rewrite Ho; destruct a; done || lia.
Qed.

(** An MP_REACH next-hop field of one or more addresses of the family
    (an IPv6 global address followed by a link-local one, say) is decoded to
    exactly those addresses and the rest of the attribute is left untouched. *)
Theorem decode_next_hops_roundtrip a hops rest :
  Forall (hop_wf a) hops -> hops <> [] -> blen (hops ≫= ip_octets) < 256 ->
  decode_next_hops (as_u8 (blen (hops ≫= ip_octets)) :: (hops ≫= ip_octets) ++ rest) a = Ok (hops, rest).
Proof.
  intros Hwf Hne Hlen. pose proof (blen_hops a hops Hwf) as Hb. set (field := hops ≫= ip_octets) in *.
  set (hs := match a with Afi_Ipv6 => 16 | _ => 4 end) in *.
  assert (hs = 4 \/ hs = 16) as Hhs by (destruct a; auto). pose proof (blen_nonneg field).
  assert (0 < blen hops) by (destruct hops; [done|]; rewrite blen_cons; pose proof (blen_nonneg hops); lia).
  unfold decode_next_hops. rewrite blen_cons, blen_app, (proj2 (Z.ltb_ge _ _))
    by (pose proof (blen_nonneg rest); lia).
  rewrite get_u8_cons, bind_Ok, u8_as_u8, blen_app, (proj2 (Z.ltb_ge _ _))
    by (pose proof (blen_nonneg rest); lia).
  rewrite copy_to_bytes_app, bind_Ok by done. cbn zeta. fold hs.
  assert ((blen field =? 0) || negb (blen field mod hs =? 0) = false) as ->.
  { rewrite Hb, Z.mod_mul by lia. rewrite (proj2 (Z.eqb_neq _ _)) by nia. done. }
  pose proof (loop_stream_pos (decode_next_hops_step a hs field) ip_octets (hop_wf a) field hops) as Hl.
  change 0 with (blen (@nil byte)) at 1. rewrite Hl; [done| | |done|done|].
  - intros pre h post acc Hh Hf. unfold decode_next_hops_step.
    rewrite Hf, !blen_app.
    destruct h as [o|o]; destruct Hh as [Ha Ho]; simpl ip_octets; pose proof (blen_nonneg post).
    + replace hs with 4 by (unfold hs; by destruct a). rewrite Ho, (proj2 (Z.leb_le _ _)) by lia.
      rewrite slice_app by lia. by destruct a.
    + subst a. simpl in hs. unfold hs. rewrite Ho, (proj2 (Z.leb_le _ _)) by lia.
      by rewrite slice_app by lia.
  - intros acc. unfold decode_next_hops_step. by rewrite (proj2 (Z.leb_gt _ _)) by lia.
  - rewrite (length_blen field), (length_blen hops). nia.
Qed.

End LabeledFacts.

#[export] Hint Resolve wp_decode_nlri_with_path_id wp_decode_labeled_nlri wp_decode_vpn_nlri
  wp_decode_vpls_nlri wp_decode_next_hops : wp.

(** ** Witnesses *)

Section Witnesses.
#[local] Instance witness_bytes : BytesBuf := reference_bytes.
#[local] Instance witness_ipnet : IpNetCrate := reference_ipnet.

Definition net_10_1_2 : Prefix := Prefix_V4 (mkIpv4Net (bs [10; 1; 2; 0]) 24).

Lemma net_10_1_2_canonical : prefix_canonical Afi_Ipv4 net_10_1_2.
Proof. by split_and!. Qed.

Lemma decode_nlri_with_path_id_roundtrip_witness :
  decode_nlri_with_path_id (bs [0; 0; 0; 7; 24; 10; 1; 2]) Afi_Ipv4 true = Ok [(net_10_1_2, Some 7)].
Proof.
  apply (decode_nlri_with_path_id_roundtrip Afi_Ipv4 true [(net_10_1_2, Some 7)]).
  apply Forall_singleton. split; [apply net_10_1_2_canonical|by split].
Defined.

Lemma decode_nlri_with_path_id_canonical_witness :
  Forall (entry_wf Afi_Ipv4 false) [(Prefix_V4 (mkIpv4Net (bs [10; 1; 128; 0]) 17), None)].
Proof.
  exact (decode_nlri_with_path_id_canonical (bs [17; 10; 1; 255]) Afi_Ipv4 false).
Defined.

Lemma decode_nlri_plain_witness :
  decode_nlri (bs [24; 10; 1; 2; 0]) Afi_Ipv4 =
    Ok [net_10_1_2; Prefix_V4 (mkIpv4Net (bs [0; 0; 0; 0]) 0)].
Proof. rewrite decode_nlri_plain. reflexivity. Defined.

Lemma decode_labeled_nlri_roundtrip_witness :
  decode_labeled_nlri (bs [48; 0; 6; 65; 10; 1; 2]) Afi_Ipv4 = Ok [Prefix_Labeled net_10_1_2 [100]].
Proof.
  apply (decode_labeled_nlri_roundtrip Afi_Ipv4 [Prefix_Labeled net_10_1_2 [100]]).
  apply Forall_singleton. split_and!; first [done|apply net_10_1_2_canonical|by repeat constructor].
Defined.

Lemma decode_vpn_nlri_roundtrip_witness :
  decode_vpn_nlri (bs [112; 0; 6; 65; 0; 0; 253; 232; 0; 0; 0; 1; 10; 1; 2]) Afi_Ipv4 =
    Ok [Prefix_Vpn (mkRD (bs [0; 0; 253; 232; 0; 0; 0; 1])) net_10_1_2 [100]].
Proof.
  apply (decode_vpn_nlri_roundtrip Afi_Ipv4
    [Prefix_Vpn (mkRD (bs [0; 0; 253; 232; 0; 0; 0; 1])) net_10_1_2 [100]]).
  apply Forall_singleton. split_and!; first [done|apply net_10_1_2_canonical].
Defined.

Lemma decode_labeled_nlri_overlong_panics_witness :
  decode_labeled_nlri (bs [64; 0; 6; 65; 10; 1; 2; 3; 4]) Afi_Ipv4 = Panic.
Proof.
  apply (decode_labeled_nlri_overlong_panics Afi_Ipv4 [] [100] 40 (bs [10; 1; 2; 3; 4]) []);
    try done; by repeat constructor.
Defined.

Lemma decode_vpn_nlri_overlong_panics_witness :
  decode_vpn_nlri (bs [128; 0; 6; 65; 0; 0; 253; 232; 0; 0; 0; 1; 10; 1; 2; 3; 4]) Afi_Ipv4 = Panic.
Proof.
  apply (decode_vpn_nlri_overlong_panics Afi_Ipv4 [] (mkRD (bs [0; 0; 253; 232; 0; 0; 0; 1])) 100 40
           (bs [10; 1; 2; 3; 4]) []); done.
Defined.

Lemma decode_next_hops_roundtrip_witness :
  decode_next_hops (bs [4; 192; 0; 2; 1; 99]) Afi_Ipv4 = Ok ([IpAddr_V4 (bs [192; 0; 2; 1])], bs [99]).
Proof.
  apply (decode_next_hops_roundtrip Afi_Ipv4 [IpAddr_V4 (bs [192; 0; 2; 1])] (bs [99]));
    [by repeat constructor|done|done].
Defined.

End Witnesses.
