(* ===== verification/Flowspec.v ===== *)
(** * Flowspec NLRI ([crates/rbmp-core/src/bgp/flowspec.rs]) *)

From Stdlib Require Import ZArith Lia ZifyBool String.
From stdpp Require Import base numbers list option strings.
From S2P Require Import Prelude RustStd CoreError Nlri.

Local Open Scope Z_scope.

Record NumericOp := mkNumericOp {
  num_lt : bool;
  num_gt : bool;
  num_eq : bool;
  num_and_bit : bool;
  num_value : Z;
}.

Record BitmaskOp := mkBitmaskOp {
  mask_not : bool;
  mask_match_bit : bool;
  mask_and_bit : bool;
  mask_value : Z;
}.

Inductive FlowspecComponent : Type :=
| Flow_DestPrefix (prefix : string) (prefix_len : Z)
| Flow_SrcPrefix (prefix : string) (prefix_len : Z)
| Flow_IpProtocol (ops : list NumericOp)
| Flow_Port (ops : list NumericOp)
| Flow_DstPort (ops : list NumericOp)
| Flow_SrcPort (ops : list NumericOp)
| Flow_IcmpType (ops : list NumericOp)
| Flow_IcmpCode (ops : list NumericOp)
| Flow_TcpFlags (ops : list BitmaskOp)
| Flow_PktLen (ops : list NumericOp)
| Flow_Dscp (ops : list NumericOp)
| Flow_Fragment (ops : list BitmaskOp)
| Flow_Unknown (component_type : Z) (data : bytes).

Record FlowspecNlri := mkFlowspecNlri {
  flow_components : list FlowspecComponent;
  flow_summary : string;
}.

(** One operator of [parse_numeric_ops]. *)
Definition parse_numeric_ops_step (buf : bytes) (st : Z * list NumericOp)
    : Result ((Z * list NumericOp) + (list NumericOp * Z)) :=
  let '(pos, ops) := st in
  if blen buf <=? pos then Ok (inr (ops, pos))
  else
    op_byte ← idx buf pos;
    let pos := pos + 1 in
    let eol := bit_set op_byte 0x80 in
    let and_bit := bit_set op_byte 0x40 in
    let len_code := Z.land (Z.shiftr op_byte 4) 0x03 in
    let lt := bit_set op_byte 0x04 in
    let gt := bit_set op_byte 0x02 in
    let eq := bit_set op_byte 0x01 in
    let vlen := Z.shiftl 1 len_code in
    if blen buf <? pos + vlen then Ok (inr (ops, pos))
    else
      value ← match vlen with
              | 1 => idx buf pos
              | 2 => be_at 2 buf pos
              | 4 => be_at 4 buf pos
              | 8 => be_at 8 buf pos
              | _ => Ok 0
              end;
      let pos := pos + vlen in
      let ops := ops ++ [mkNumericOp lt gt eq and_bit value] in
      if eol then Ok (inr (ops, pos)) else Ok (inl (pos, ops)).

Definition parse_numeric_ops (buf : bytes) : Result (list NumericOp * Z) :=
  loop (S (length buf)) (parse_numeric_ops_step buf) (0, []).

(** One operator of [parse_bitmask_ops]: four- and eight-octet values read as 0. *)
Definition parse_bitmask_ops_step (buf : bytes) (st : Z * list BitmaskOp)
    : Result ((Z * list BitmaskOp) + (list BitmaskOp * Z)) :=
  let '(pos, ops) := st in
  if blen buf <=? pos then Ok (inr (ops, pos))
  else
    op_byte ← idx buf pos;
    let pos := pos + 1 in
    let eol := bit_set op_byte 0x80 in
    let and_bit := bit_set op_byte 0x40 in
    let len_code := Z.land (Z.shiftr op_byte 4) 0x03 in
    let not_bit := bit_set op_byte 0x02 in
    let match_bit := bit_set op_byte 0x01 in
    let vlen := Z.shiftl 1 len_code in
    if blen buf <? pos + vlen then Ok (inr (ops, pos))
    else
      value ← match vlen with
              | 1 => idx buf pos
              | 2 => be_at 2 buf pos
              | _ => Ok 0
              end;
      let pos := pos + vlen in
      let ops := ops ++ [mkBitmaskOp not_bit match_bit and_bit value] in
      if eol then Ok (inr (ops, pos)) else Ok (inl (pos, ops)).

Definition parse_bitmask_ops (buf : bytes) : Result (list BitmaskOp * Z) :=
  loop (S (length buf)) (parse_bitmask_ops_step buf) (0, []).

(** The prefix arm of [parse_flowspec_component] (types 1 and 2): for IPv6
    [a[..octets]] panics past sixteen octets, for IPv4 the copy is cut at four. *)
Definition parse_flowspec_prefix (t : Z) (buf : bytes) (ipv6 : bool)
    : Result (FlowspecComponent * string * Z) :=
  if blen buf =? 0 then Err (UnexpectedEof 1 0)
  else
    prefix_len ← idx buf 0;
    let octets := div_ceil8 prefix_len in
    if blen buf <? 1 + octets then Err (UnexpectedEof (1 + octets) (blen buf))
    else
      prefix ←
        (if ipv6 then
           src ← slice buf 1 (1 + octets);
           a ← copy_into_zeroed 16 src;
           Ok (ipv6_to_string a)
         else
           let n := octets `min` 4 in
           src ← slice buf 1 (1 + n);
           a ← copy_into_zeroed 4 src;
           Ok (ipv4_to_string a));
      let label := if t =? 1 then "dst"%string else "src"%string in
      let summary := (label ++ "=" ++ prefix ++ "/" ++ fmt_dec prefix_len)%string in
      let comp := if t =? 1 then Flow_DestPrefix prefix prefix_len
                  else Flow_SrcPrefix prefix prefix_len in
      Ok (comp, summary, 1 + octets).

Definition numeric_label (t : Z) : string :=
  match t with
  | 3 => "proto"
  | 4 => "port"
  | 5 => "dstport"
  | 6 => "srcport"
  | 7 => "icmptype"
  | 8 => "icmpcode"
  | 10 => "pktlen"
  | _ => "dscp"
  end.

Definition numeric_component (t : Z) (ops : list NumericOp) : FlowspecComponent :=
  match t with
  | 3 => Flow_IpProtocol ops
  | 4 => Flow_Port ops
  | 5 => Flow_DstPort ops
  | 6 => Flow_SrcPort ops
  | 7 => Flow_IcmpType ops
  | 8 => Flow_IcmpCode ops
  | 10 => Flow_PktLen ops
  | _ => Flow_Dscp ops
  end.

(** [parse_flowspec_component]: the component, its summary and the octets it
    takes. *)
Definition parse_flowspec_component (t : Z) (buf : bytes) (ipv6 : bool)
    : Result (FlowspecComponent * string * Z) :=
  match t with
  | 1 | 2 => parse_flowspec_prefix t buf ipv6
  | 3 | 4 | 5 | 6 | 7 | 8 | 10 | 11 =>
      '(ops, consumed) ← parse_numeric_ops buf;
      let summary := (numeric_label t ++ "="
                      ++ String.concat "," ((fun o => fmt_dec (num_value o)) <$> ops))%string in
      Ok (numeric_component t ops, summary, consumed)
  | 9 | 12 =>
      '(ops, consumed) ← parse_bitmask_ops buf;
      let label := if t =? 9 then "tcpflags"%string else "fragment"%string in
      let summary := (label ++ "=0x" ++ fmt_hex (default 0 (mask_value <$> head ops)))%string in
      let comp := if t =? 9 then Flow_TcpFlags ops else Flow_Fragment ops in
      Ok (comp, summary, consumed)
  | _ => Ok (Flow_Unknown t buf, ("unknown-type-" ++ fmt_dec t)%string, blen buf)
  end.

(** One component of [parse_flowspec_nlri]. *)
Definition parse_flowspec_nlri_step (afi_is_ipv6 : bool)
    (st : bytes * (list FlowspecComponent * list string))
    : Result ((bytes * (list FlowspecComponent * list string))
              + (list FlowspecComponent * list string)) :=
  let '(buf, (components, summary_parts)) := st in
  if negb (blen buf =? 0) then
    comp_type ← idx buf 0;
    buf ← slice_from buf 1;
    '(comp, summary, consumed) ← parse_flowspec_component comp_type buf afi_is_ipv6;
    buf ← slice_from buf consumed;
    Ok (inl (buf, (components ++ [comp], summary_parts ++ [summary])))
  else Ok (inr (components, summary_parts)).

Definition parse_flowspec_nlri (buf : bytes) (afi_is_ipv6 : bool) : Result FlowspecNlri :=
  '(components, summary_parts) ←
    loop (S (length buf)) (parse_flowspec_nlri_step afi_is_ipv6) (buf, ([], []));
  Ok (mkFlowspecNlri components (String.concat " " summary_parts)).

(** One NLRI of [decode_flowspec_nlri]: a one- or two-octet length; a truncated
    NLRI ends the loop. *)
Definition decode_flowspec_nlri_step (afi_is_ipv6 : bool) (st : bytes * list FlowspecNlri)
    : Result ((bytes * list FlowspecNlri) + list FlowspecNlri) :=
  let '(buf, result) := st in
  if negb (blen buf =? 0) then
    b0 ← idx buf 0;
    hdr ←
      (if b0 <? 0xF0 then Ok (Some (b0, 1))
       else if 2 <=? blen buf then
         b1 ← idx buf 1;
         Ok (Some (Z.lor (Z.shiftl (Z.land b0 0x0F) 8) b1, 2))
       else Ok None);
    match hdr with
    | None => Ok (inr result)
    | Some (length, header_size) =>
        if blen buf <? header_size + length then Ok (inr result)
        else
          nlri_bytes ← slice buf header_size (header_size + length);
          buf ← slice_from buf (header_size + length);
          nlri ← parse_flowspec_nlri nlri_bytes afi_is_ipv6;
          Ok (inl (buf, result ++ [nlri]))
    end
  else Ok (inr result).

Definition decode_flowspec_nlri (buf : bytes) (afi_is_ipv6 : bool) : Result (list FlowspecNlri) :=
  loop (S (length buf)) (decode_flowspec_nlri_step afi_is_ipv6) (buf, []).

(** ** Safety *)

Lemma vlen_bounds op : 1 <= Z.shiftl 1 (Z.land (Z.shiftr op 4) 0x03) <= 8.
Proof.
  change 0x03 with (Z.ones 2). rewrite Z.land_ones by lia.
  pose proof (Z.mod_pos_bound (Z.shiftr op 4) (2 ^ 2) ltac:(lia)) as Hb.
  set (k := Z.shiftr op 4 mod 2 ^ 2) in *.
  assert (k = 0 \/ k = 1 \/ k = 2 \/ k = 3) as [-> | [-> | [-> | ->]]] by lia; done.
Qed.

Lemma wp_parse_numeric_ops pn buf :
  wp pn (parse_numeric_ops buf) (fun r => 0 <= r.2 <= blen buf).
Proof.
  apply (wp_loop _ (fun st => 0 <= st.1 <= blen buf) (fun st => Z.to_nat (blen buf - st.1)));
    [simpl; pose proof (blen_nonneg buf); lia|simpl; rewrite length_blen; lia|].
  intros [pos ops] Hpos. cbn [fst] in Hpos. unfold parse_numeric_ops_step.
  wp_step; [by apply wp_ok|]. apply wp_bind. wp_step. pose proof (vlen_bounds v).
  set (vlen := Z.shiftl 1 _) in *. cbn zeta. wp_step; [apply wp_ok; simpl; lia|].
  apply wp_bind, (wp_mono _ _ (fun _ => True)).
  - repeat wp_step; done.
  - intros value _. wp_step; apply wp_ok; simpl; lia.
Qed.

Lemma wp_parse_bitmask_ops pn buf :
  wp pn (parse_bitmask_ops buf) (fun r => 0 <= r.2 <= blen buf).
Proof.
  apply (wp_loop _ (fun st => 0 <= st.1 <= blen buf) (fun st => Z.to_nat (blen buf - st.1)));
    [simpl; pose proof (blen_nonneg buf); lia|simpl; rewrite length_blen; lia|].
  intros [pos ops] Hpos. cbn [fst] in Hpos. unfold parse_bitmask_ops_step.
  wp_step; [by apply wp_ok|]. apply wp_bind. wp_step. pose proof (vlen_bounds v).
  set (vlen := Z.shiftl 1 _) in *. cbn zeta. wp_step; [apply wp_ok; simpl; lia|].
  apply wp_bind, (wp_mono _ _ (fun _ => True)).
  - repeat wp_step; done.
  - intros value _. wp_step; apply wp_ok; simpl; lia.
Qed.

#[export] Hint Resolve wp_parse_numeric_ops wp_parse_bitmask_ops : wp.

Section FlowSafety.
Context (pn : Prop) (ipv6 : bool).
(** IPv4 components never panic; IPv6 ones may. *)
Hypothesis Hpn : ipv6 = true -> pn.

Lemma wp_parse_flowspec_component t buf :
  wp pn (parse_flowspec_component t buf ipv6) (fun r => 0 <= r.2 <= blen buf).
Proof.
  assert (wp pn (parse_flowspec_prefix t buf ipv6) (fun r => 0 <= r.2 <= blen buf)) as Hprefix.
  { unfold parse_flowspec_prefix. wp_core; [apply wp_err|]. apply wp_bind. wp_step. cbn zeta.
    pose proof (div_ceil8_bounds v ltac:(lia)). wp_core; [apply wp_err|].
    apply wp_bind, (wp_mono _ _ (fun _ => True)); [|intros; apply wp_ok; simpl; lia].
    destruct ipv6; repeat first [wp_core|wp_step]; try done.
    apply wp_copy_into_zeroed; intros; [by apply Hpn|done]. }
  pose proof (blen_nonneg buf).
  unfold parse_flowspec_component. repeat case_match; try exact Hprefix.
  all: try (apply wp_ok; simpl; lia).
  all: apply wp_bind; wp_call; intros [ops c] Hc; apply wp_ok; exact Hc.
Qed.

Lemma wp_parse_flowspec_nlri buf : wp pn (parse_flowspec_nlri buf ipv6) (fun _ => True).
Proof.
  apply wp_bind, (wp_loop _ (fun _ => True) (fun st => length st.1)); [done|simpl; lia|].
  intros [b [cs ss]] _. unfold parse_flowspec_nlri_step. wp_core; [|done].
  apply wp_bind. wp_step. apply wp_bind. wp_step. apply wp_bind.
  eapply wp_mono; [apply wp_parse_flowspec_component|]. intros [[c s] n] Hn. cbn [snd] in Hn.
  apply wp_bind. wp_step. apply wp_ok. split; [done|]. rewrite !length_blen. simpl. lia.
Qed.

Lemma wp_decode_flowspec_nlri buf : wp pn (decode_flowspec_nlri buf ipv6) (fun _ => True).
Proof.
  apply (wp_loop _ (fun _ => True) (fun st => length st.1)); [done|simpl; lia|].
  intros [b acc] _. unfold decode_flowspec_nlri_step. wp_core; [|done].
  apply wp_bind. wp_step. apply wp_bind.
  apply (wp_mono _ _ (fun h => match h with
                               | Some (l, hs) => 0 <= l /\ 1 <= hs
                               | None => True
                               end)).
  - repeat wp_step; try done; [lia|]. split; [|lia]. apply Z.lor_nonneg. split; [|lia].
    apply Z.shiftl_nonneg, Z.land_nonneg. lia.
  - intros [[l hs]|] Hh; [|done]. wp_core; [done|]. apply wp_bind. wp_step. apply wp_bind. wp_step.
    apply wp_bind. eapply wp_mono; [apply wp_parse_flowspec_nlri|]. intros ? _.
    apply wp_ok. split; [done|]. rewrite !length_blen. simpl. lia.
Qed.

End FlowSafety.

#[export] Hint Resolve wp_decode_flowspec_nlri : wp.

(** IPv4 Flowspec decoding ends without a panic on every input. *)
Theorem decode_flowspec_nlri_ipv4_safe buf : safe (decode_flowspec_nlri buf false).
Proof. by apply wp_decode_flowspec_nlri. Qed.

(** An IPv6 Flowspec prefix component with a length above 128 (whose
    octets are present) crashes the decoder, whatever follows it. *)
Theorem decode_flowspec_nlri_ipv6_overlong_panics t len octets rest :
  (t = 1 \/ t = 2) -> 128 < len < 256 -> blen octets = div_ceil8 len ->
  decode_flowspec_nlri
    (as_u8 (2 + div_ceil8 len) :: as_u8 t :: as_u8 len :: octets ++ rest) true = Panic.
Proof.
  intros Ht Hlen Ho. pose proof (div_ceil8_bounds len ltac:(lia)). pose proof (blen_nonneg rest).
  assert (forall b : bytes, blen b = 2 + div_ceil8 len -> b = as_u8 t :: as_u8 len :: octets ->
    parse_flowspec_nlri b true = Panic) as Hnlri.
  { intros b Hb ->. unfold parse_flowspec_nlri. rewrite loop_S. unfold parse_flowspec_nlri_step at 1.
    rewrite Hb, (proj2 (Z.eqb_neq _ _)) by lia. cbn [negb].
    rewrite idx_cons, slice_from_1, !bind_Ok, u8_as_u8 by lia.
    assert (parse_flowspec_component t (as_u8 len :: octets) true = Panic) as ->; [|done].
    transitivity (parse_flowspec_prefix t (as_u8 len :: octets) true); [by destruct Ht as [-> | ->]|].
    unfold parse_flowspec_prefix. rewrite blen_cons, (proj2 (Z.eqb_neq _ _)) by lia.
    rewrite idx_cons, bind_Ok, u8_as_u8, (proj2 (Z.ltb_ge _ _)) by lia.
    replace (as_u8 len :: octets) with ([as_u8 len] ++ octets ++ []) by by rewrite app_nil_r.
    rewrite slice_app by (change (blen [as_u8 len]) with 1; lia). rewrite bind_Ok.
    unfold copy_into_zeroed. by rewrite (proj2 (Z.leb_gt _ _)) by lia. }
  unfold decode_flowspec_nlri. rewrite loop_S. unfold decode_flowspec_nlri_step at 1.
  set (nl := as_u8 t :: as_u8 len :: octets).
  replace (as_u8 (2 + div_ceil8 len) :: as_u8 t :: as_u8 len :: octets ++ rest)
    with ([as_u8 (2 + div_ceil8 len)] ++ nl ++ rest) by done.
  assert (blen nl = 2 + div_ceil8 len) as Hnl by (unfold nl; rewrite !blen_cons; lia).
  rewrite !blen_app, Hnl. change (blen [as_u8 (2 + div_ceil8 len)]) with 1.
  rewrite (proj2 (Z.eqb_neq _ _)) by lia. cbn [negb].
  rewrite (idx_cons (as_u8 (2 + div_ceil8 len)) (nl ++ rest) : idx ([_] ++ _) 0 = _).
  rewrite !bind_Ok, u8_as_u8, (proj2 (Z.ltb_lt _ _)), bind_Ok, (proj2 (Z.ltb_ge _ _)) by lia.
  rewrite slice_app, bind_Ok by (change (blen [as_u8 (2 + div_ceil8 len)]) with 1; lia).
  rewrite app_assoc, slice_from_app by (rewrite blen_app; change (blen [as_u8 (2 + div_ceil8 len)]) with 1; lia).
  by rewrite bind_Ok, (Hnlri nl Hnl).
Qed.

(** ** Witnesses: the inputs of the source's own tests, and a crash *)

Lemma decode_flowspec_nlri_ipv4_safe_witness :
  decode_flowspec_nlri (bs [5; 1; 24; 192; 0; 2]) false =
    Ok [mkFlowspecNlri [Flow_DestPrefix "192.0.2.0" 24] "dst=192.0.2.0/24"] /\
  safe (decode_flowspec_nlri (bs [5; 1; 24; 192; 0; 2]) false).
Proof. split; [vm_compute; reflexivity|apply decode_flowspec_nlri_ipv4_safe]. Defined.

Lemma decode_flowspec_nlri_ipv6_overlong_panics_witness :
  decode_flowspec_nlri (bs (19 :: 1 :: 129 :: replicate 17 32)) true = Panic.
Proof.
  apply (decode_flowspec_nlri_ipv6_overlong_panics 1 129 (bs (replicate 17 32)) []);
    [by left|done|done].
Defined.
