(* ===== verification/SrPolicy.v ===== *)
(** * SR Policy and Route Target Constraint NLRI
    ([crates/rbmp-core/src/bgp/srpolicy.rs]) *)

From Stdlib Require Import ZArith Lia ZifyBool String.
From stdpp Require Import base numbers list option strings.
From S2P Require Import Prelude RustStd CoreError Nlri.

Set Warnings "-register-all".

Local Open Scope Z_scope.

Record SrPolicyNlri := mkSrPolicyNlri {
  sr_distinguisher : Z;
  sr_color : Z;
  sr_endpoint : IpAddr;
}.

Inductive Segment : Type :=
| Segment_MplsLabel (label tc : Z) (s : bool) (ttl : Z)
| Segment_Srv6Sid (sid : bytes) (endpoint_behavior : option Z)
| Segment_Ipv4Prefix (prefix : Ipv4Addr) (prefix_len algorithm : Z)
| Segment_Ipv6Prefix (prefix : Ipv6Addr) (prefix_len algorithm : Z)
| Segment_Ipv4Adjacency (local_id remote_id : Z)
| Segment_Ipv4Interface (local_addr remote_addr : Ipv4Addr)
| Segment_Ipv6LocalAdj (local_id : Z) (local_addr remote_addr : Ipv6Addr)
| Segment_Ipv6Adjacency (local_id remote_id : Z) (local_addr remote_addr : Ipv6Addr)
| Segment_Ipv4NextHop (nexthop : Ipv4Addr) (algorithm : Z)
| Segment_Ipv6NextHop (nexthop : Ipv6Addr) (algorithm : Z)
| Segment_SubList (sub_segments : list Segment)
| Segment_Unknown (seg_type : Z) (data : bytes).

Record SegmentList := mkSegmentList { sl_weight : Z; sl_segments : list Segment }.

Record CandidatePath := mkCandidatePath {
  cp_preference : Z;
  cp_name : option string;
  cp_segment_lists : list SegmentList;
  cp_is_best : bool;
}.

(** One policy of [decode_srpolicy_nlri]. *)
Definition decode_srpolicy_nlri_step (afi_is_ipv6 : bool) (buf : bytes)
    (st : Z * list SrPolicyNlri) : Result ((Z * list SrPolicyNlri) + list SrPolicyNlri) :=
  let '(pos, policies) := st in
  let ep_octets := if afi_is_ipv6 then 16 else 4 in
  let nlri_size := 4 + 4 + ep_octets in
  if pos + nlri_size <=? blen buf then
    distinguisher ← be_at 4 buf pos;
    let pos := pos + 4 in
    color ← be_at 4 buf pos;
    let pos := pos + 4 in
    endpoint ← (if afi_is_ipv6 then b ← slice buf pos (pos + 16); Ok (IpAddr_V6 b)
                else b ← slice buf pos (pos + 4); Ok (IpAddr_V4 b));
    let pos := pos + ep_octets in
    Ok (inl (pos, policies ++ [mkSrPolicyNlri distinguisher color endpoint]))
  else Ok (inr policies).

Definition decode_srpolicy_nlri (buf : bytes) (afi_is_ipv6 : bool) : Result (list SrPolicyNlri) :=
  loop (S (length buf)) (decode_srpolicy_nlri_step afi_is_ipv6 buf) (0, []).

(** The [match seg_type] of [parse_segments]; [sub] decodes a nested list. *)
Definition parse_segment_body (sub : bytes -> Result (list Segment)) (seg_type : Z) (data : bytes)
    : Result Segment :=
  let n := blen data in
  if (seg_type =? 1) && (3 <=? n) then
    raw ← be_at 3 data 0;
    Ok (Segment_MplsLabel (Z.shiftr raw 12) (Z.land (Z.shiftr raw 9) 0x07)
          (bit_set (Z.shiftr raw 8) 0x01) (Z.land raw 0xFF))
  else if (seg_type =? 2) && (16 <=? n) then
    sid ← slice data 0 16;
    endpoint_behavior ← (if 18 <=? n then b ← be_at 2 data 16; Ok (Some b) else Ok None);
    Ok (Segment_Srv6Sid sid endpoint_behavior)
  else if (seg_type =? 3) && (6 <=? n) then
    prefix ← slice data 0 4; prefix_len ← idx data 4; algorithm ← idx data 5;
    Ok (Segment_Ipv4Prefix prefix prefix_len algorithm)
  else if (seg_type =? 4) && (18 <=? n) then
    prefix ← slice data 0 16; prefix_len ← idx data 16; algorithm ← idx data 17;
    Ok (Segment_Ipv6Prefix prefix prefix_len algorithm)
  else if (seg_type =? 5) && (8 <=? n) then
    local_id ← be_at 4 data 0; remote_id ← be_at 4 data 4;
    Ok (Segment_Ipv4Adjacency local_id remote_id)
  else if (seg_type =? 6) && (8 <=? n) then
    local_addr ← slice data 0 4; remote_addr ← slice data 4 8;
    Ok (Segment_Ipv4Interface local_addr remote_addr)
  else if (seg_type =? 7) && (36 <=? n) then
    local_id ← be_at 4 data 0; la ← slice data 4 20; ra ← slice data 20 36;
    Ok (Segment_Ipv6LocalAdj local_id la ra)
  else if (seg_type =? 8) && (40 <=? n) then
    local_id ← be_at 4 data 0; remote_id ← be_at 4 data 4;
    la ← slice data 8 24; ra ← slice data 24 40;
    Ok (Segment_Ipv6Adjacency local_id remote_id la ra)
  else if (seg_type =? 9) && (5 <=? n) then
    nexthop ← slice data 0 4; algorithm ← idx data 4;
    Ok (Segment_Ipv4NextHop nexthop algorithm)
  else if (seg_type =? 10) && (17 <=? n) then
    nexthop ← slice data 0 16; algorithm ← idx data 16;
    Ok (Segment_Ipv6NextHop nexthop algorithm)
  else if seg_type =? 11 then
    sub_segs ← unwrap_or [] (sub data);
    Ok (Segment_SubList sub_segs)
  else Ok (Segment_Unknown seg_type data).

(** One segment of [parse_segments]: type, length, flags, reserved, data. *)
Definition parse_segments_step (sub : bytes -> Result (list Segment)) (buf : bytes)
    (st : Z * list Segment) : Result ((Z * list Segment) + list Segment) :=
  let '(pos, segs) := st in
  if pos + 2 <=? blen buf then
    seg_type ← idx buf pos;
    let pos := pos + 1 in
    seg_len ← idx buf pos;
    let pos := pos + 1 in
    if (seg_len <? 2) || (blen buf <? pos + seg_len - 2) then Ok (inr segs)
    else
      _flags ← (if pos <? blen buf then idx buf pos else Ok 0);
      let pos := pos + 1 in
      _rsvd ← (if pos <? blen buf then idx buf pos else Ok 0);
      let pos := pos + 1 in
      let data_len := Z.max 0 (seg_len - 2) in
      if blen buf <? pos + data_len then Ok (inr segs)
      else
        data ← slice buf pos (pos + data_len);
        let pos := pos + data_len in
        seg ← parse_segment_body sub seg_type data;
        Ok (inl (pos, segs ++ [seg]))
  else Ok (inr segs).

(** [parse_segments]; a nested list is shorter than the buffer around it, so
    the depth of the recursion is below the length of the buffer. *)
Fixpoint parse_segments_depth (depth : nat) (buf : bytes) : Result (list Segment) :=
  match depth with
  | O => Diverge
  | S depth' =>
      loop (S (length buf)) (parse_segments_step (parse_segments_depth depth') buf) (0, [])
  end.

Definition parse_segments (buf : bytes) : Result (list Segment) :=
  parse_segments_depth (S (length buf)) buf.

(** The header all three TLV loops of the file read: type(1), length(2). *)
Definition read_sub_tlv (buf : bytes) (pos : Z) : Result (Z * Z * Z) :=
  t ← idx buf pos;
  let pos := pos + 1 in
  len ← be_at 2 buf pos;
  let pos := pos + 2 in
  Ok (t, len, pos).

Definition parse_segment_lists_step (buf : bytes) (st : Z * list SegmentList)
    : Result ((Z * list SegmentList) + list SegmentList) :=
  let '(pos, lists) := st in
  if pos + 3 <=? blen buf then
    '(sub_type, sub_len, pos) ← read_sub_tlv buf pos;
    if blen buf <? pos + sub_len then Ok (inr lists)
    else
      data ← slice buf pos (pos + sub_len);
      let pos := pos + sub_len in
      if (sub_type =? 132) && (4 <=? blen data) then
        weight ← be_at 4 data 0;
        rest ← slice_from data 4;
        segments ← unwrap_or [] (parse_segments rest);
        Ok (inl (pos, lists ++ [mkSegmentList weight segments]))
      else Ok (inl (pos, lists))
  else Ok (inr lists).

Definition parse_segment_lists (buf : bytes) : Result (list SegmentList) :=
  loop (S (length buf)) (parse_segment_lists_step buf) (0, []).

Definition extract_path_name_step (buf : bytes) (pos : Z) : Result (Z + option string) :=
  if pos + 3 <=? blen buf then
    '(t, len, pos) ← read_sub_tlv buf pos;
    if blen buf <? pos + len then Ok (inr None)
    else if t =? 130 then
      name ← slice buf pos (pos + len);
      Ok (inr (Some (from_utf8_lossy name)))
    else Ok (inl (pos + len))
  else Ok (inr None).

Definition extract_path_name (buf : bytes) : Result (option string) :=
  if blen buf <? 8 then Ok None
  else loop (S (length buf)) (extract_path_name_step buf) 8.

(** [paths.iter_mut().max_by_key(|p| p.preference)]: the last of the greatest. *)
Fixpoint last_max_index (ps : list CandidatePath) (i : nat) (best : option (nat * Z)) : option nat :=
  match ps with
  | [] => fst <$> best
  | p :: ps' =>
      last_max_index ps' (S i)
        (match best with
         | Some (j, k) => if k <=? cp_preference p then Some (i, cp_preference p) else Some (j, k)
         | None => Some (i, cp_preference p)
         end)
  end.

Definition set_is_best (p : CandidatePath) : CandidatePath :=
  mkCandidatePath (cp_preference p) (cp_name p) (cp_segment_lists p) true.

Definition mark_best (ps : list CandidatePath) : list CandidatePath :=
  match last_max_index ps 0 None with
  | Some i => alter set_is_best i ps
  | None => ps
  end.

Definition parse_srpolicy_candidate_paths_step (buf : bytes) (st : Z * list CandidatePath)
    : Result ((Z * list CandidatePath) + list CandidatePath) :=
  let '(pos, paths) := st in
  if pos + 3 <=? blen buf then
    '(sub_type, sub_len, pos) ← read_sub_tlv buf pos;
    if blen buf <? pos + sub_len then Ok (inr paths)
    else
      sub_data ← slice buf pos (pos + sub_len);
      let pos := pos + sub_len in
      if (sub_type =? 128) && (8 <=? sub_len) then
        preference ← be_at 4 sub_data 4;
        seg_lists ←
          (if 8 <? blen sub_data
           then rest ← slice_from sub_data 8; unwrap_or [] (parse_segment_lists rest)
           else Ok []);
        name ← extract_path_name sub_data;
        Ok (inl (pos, paths ++ [mkCandidatePath preference name seg_lists false]))
      else Ok (inl (pos, paths))
  else Ok (inr paths).

Definition parse_srpolicy_candidate_paths (buf : bytes) : Result (list CandidatePath) :=
  paths ← loop (S (length buf)) (parse_srpolicy_candidate_paths_step buf) (0, []);
  Ok (mark_best paths).

(** ** Route Target Constraint *)

Inductive RtcNlri : Type :=
| Rtc_Wildcard
| Rtc_Specific (origin_as : option Z) (prefix_len : Z) (data : bytes).

Definition decode_rtc_nlri_step (buf : bytes) (st : Z * list RtcNlri)
    : Result ((Z * list RtcNlri) + list RtcNlri) :=
  let '(pos, result) := st in
  if pos <? blen buf then
    prefix_len ← idx buf pos;
    let pos := pos + 1 in
    if prefix_len =? 0 then Ok (inl (pos, result ++ [Rtc_Wildcard]))
    else
      let octets := div_ceil8 prefix_len in
      if blen buf <? pos + octets then Err (UnexpectedEof (pos + octets) (blen buf))
      else
        data ← slice buf pos (pos + octets);
        let pos := pos + octets in
        origin_as ← (if 4 <=? octets then v ← be_at 4 data 0; Ok (Some v) else Ok None);
        Ok (inl (pos, result ++ [Rtc_Specific origin_as prefix_len data]))
  else Ok (inr result).

Definition decode_rtc_nlri (buf : bytes) : Result (list RtcNlri) :=
  loop (S (length buf)) (decode_rtc_nlri_step buf) (0, []).

(** ** Safety *)

Section SrSafety.
Context (pn : Prop).

Lemma wp_read_sub_tlv buf pos :
  0 <= pos -> pos + 3 <= blen buf ->
  wp pn (read_sub_tlv buf pos) (fun r => 0 <= r.1.2 < 65536 /\ r.2 = pos + 3).
Proof. intros. unfold read_sub_tlv. repeat wp_step. simpl. blen_simpl. lia. Qed.

Lemma wp_decode_srpolicy_nlri buf ipv6 : wp pn (decode_srpolicy_nlri buf ipv6) (fun _ => True).
Proof.
  apply wp_loop_pos; [pose proof (blen_nonneg buf); lia|]. intros pos acc Hpos.
  unfold decode_srpolicy_nlri_step. destruct ipv6; repeat wp_step; try done; simpl; lia.
Qed.

Lemma wp_decode_rtc_nlri buf : wp pn (decode_rtc_nlri buf) (fun _ => True).
Proof.
  apply wp_loop_pos; [pose proof (blen_nonneg buf); lia|]. intros pos acc Hpos.
  unfold decode_rtc_nlri_step. wp_core; [|done]. apply wp_bind. wp_step. cbn zeta.
  pose proof (div_ceil8_bounds v ltac:(lia)).
  wp_core; [apply wp_ok; simpl; lia|]. wp_core; [apply wp_err|].
  repeat wp_step; simpl; lia.
Qed.

Lemma wp_parse_segment_body sub seg_type data :
  wp pn (sub data) (fun _ => True) -> wp pn (parse_segment_body sub seg_type data) (fun _ => True).
Proof.
  intros Hsub. unfold parse_segment_body. cbn zeta. repeat wp_step; try done.
  by apply wp_unwrap_or.
Qed.

Lemma wp_parse_segments_depth depth buf :
  (length buf < depth)%nat -> wp pn (parse_segments_depth depth buf) (fun _ => True).
Proof.
  revert buf. induction depth as [|depth IH]; intros buf Hd; [lia|].
  cbn [parse_segments_depth]. apply wp_loop_pos; [pose proof (blen_nonneg buf); lia|].
  intros pos acc Hpos. unfold parse_segments_step. wp_core; [|done]. apply wp_bind. wp_step. cbn zeta.
  apply wp_bind. wp_step. wp_core; [done|].
  apply wp_bind. apply (wp_mono _ _ (fun _ => True)); [repeat wp_step; done|]. intros _ _. cbn zeta.
  apply wp_bind. apply (wp_mono _ _ (fun _ => True)); [repeat wp_step; done|]. intros _ _. cbn zeta.
  wp_core; [done|]. apply wp_bind. wp_step. apply wp_bind.
  eapply wp_mono; [apply wp_parse_segment_body, IH|].
  - rewrite length_blen in *. lia.
  - intros ? _. apply wp_ok. simpl. lia.
Qed.

Lemma wp_parse_segments buf : wp pn (parse_segments buf) (fun _ => True).
Proof. apply wp_parse_segments_depth. lia. Qed.

Lemma wp_parse_segment_lists buf : wp pn (parse_segment_lists buf) (fun _ => True).
Proof.
  apply wp_loop_pos; [pose proof (blen_nonneg buf); lia|]. intros pos acc Hpos.
  unfold parse_segment_lists_step. wp_core; [|done]. apply wp_bind.
  eapply wp_mono; [apply wp_read_sub_tlv; lia|]. intros [[t l] p] [Hl Hp]. cbn [fst snd] in *. subst p.
  wp_core; [done|]. apply wp_bind. wp_step. cbn zeta. wp_core; [|apply wp_ok; simpl; lia].
  apply wp_bind. wp_step. apply wp_bind. wp_step. apply wp_bind, wp_unwrap_or.
  - apply wp_ok. simpl. lia.
  - eapply wp_mono; [apply wp_parse_segments|]. intros ? _. apply wp_ok. simpl. lia.
Qed.

Lemma wp_extract_path_name buf : wp pn (extract_path_name buf) (fun _ => True).
Proof.
  unfold extract_path_name. wp_core; [done|].
  apply (wp_loop _ (fun pos => 0 <= pos <= blen buf) (fun pos => Z.to_nat (blen buf - pos)));
    [lia|rewrite length_blen; lia|].
  intros pos Hpos. unfold extract_path_name_step. wp_core; [|done]. apply wp_bind.
  eapply wp_mono; [apply wp_read_sub_tlv; lia|]. intros [[t l] p] [Hl Hp]. cbn [fst snd] in *. subst p.
  wp_core; [done|]. wp_core; [apply wp_bind; by wp_step|]. apply wp_ok. lia.
Qed.

Lemma wp_candidate_path_loop buf :
  wp pn (loop (S (length buf)) (parse_srpolicy_candidate_paths_step buf) (0, []))
    (Forall (fun p => cp_is_best p = false)).
Proof.
  apply (wp_loop_pos_inv _ _ _ _ _ (Forall (fun p => cp_is_best p = false)));
    [pose proof (blen_nonneg buf); lia|constructor|]. intros pos acc Hpos Hacc.
  unfold parse_srpolicy_candidate_paths_step. wp_core; [|done]. apply wp_bind.
  eapply wp_mono; [apply wp_read_sub_tlv; lia|]. intros [[t l] p] [Hl Hp]. cbn [fst snd] in *. subst p.
  wp_core; [done|]. apply wp_bind. wp_step. cbn zeta. wp_core; [|apply wp_ok; simpl; split; [lia|done]].
  apply wp_bind. wp_step. apply wp_bind. apply (wp_mono _ _ (fun _ => True)).
  - wp_core; [|done]. apply wp_bind. wp_step. apply wp_unwrap_or; [done|]. apply wp_parse_segment_lists.
  - intros ? _. apply wp_bind. eapply wp_mono; [apply wp_extract_path_name|]. intros ? _.
    apply wp_ok. split; [simpl; lia|]. apply Forall_app; split; [done|]. by apply Forall_singleton.
Qed.

End SrSafety.

#[export] Hint Resolve wp_decode_srpolicy_nlri wp_decode_rtc_nlri : wp.

(** ** The best candidate path *)

(** Invariant of the scan: the index found so far is the last of the greatest. *)
Definition last_max_of (ps : list CandidatePath) (best : option (nat * Z)) : Prop :=
  match best with
  | None => ps = []
  | Some (j, k) =>
      (exists p, ps !! j = Some p /\ cp_preference p = k) /\
      (forall j' p', ps !! j' = Some p' ->
         cp_preference p' <= k /\ ((j < j')%nat -> cp_preference p' < k))
  end.

Lemma last_max_index_spec ps done best :
  last_max_of done best ->
  match last_max_index ps (length done) best with
  | None => done ++ ps = []
  | Some i => exists k, last_max_of (done ++ ps) (Some (i, k))
  end.
Proof.
  revert done best. induction ps as [|p ps IH]; intros done best Hbest; simpl.
  - rewrite app_nil_r. destruct best as [[j k]|]; simpl; [by exists k|done].
  - replace (S (length done)) with (length (done ++ [p])) by (rewrite length_app; simpl; lia).
    replace (done ++ p :: ps) with ((done ++ [p]) ++ ps) by by rewrite <- app_assoc.
    apply IH. destruct best as [[j k]|]; simpl in *.
    + destruct Hbest as [(q & Hj & Hq) Hmax]. destruct (k <=? cp_preference p) eqn:Hk; simpl.
      * split; [exists p; split; [by apply list_lookup_middle|done]|].
        intros j' p' [Hj'|[Hj' [? <-]%list_lookup_singleton_Some]]%lookup_app_Some; [|lia].
        apply Hmax in Hj' as ?. apply lookup_lt_Some in Hj'. lia.
      * split; [exists q; split; [by apply lookup_app_l_Some|done]|].
        intros j' p' [Hj'|[Hj' [? <-]%list_lookup_singleton_Some]]%lookup_app_Some; [by apply Hmax|lia].
    + subst done. simpl. split; [by exists p|]. intros [|j'] p'; simpl; [|done]. intros [= <-]. lia.
Qed.

(** SR Policy candidate paths are decoded without a panic on every
    input, and when there is one, exactly one of them is marked best: a path of
    the greatest preference, and the last such path. *)
Theorem srpolicy_best_candidate buf :
  wp False (parse_srpolicy_candidate_paths buf) (fun ps =>
    ps = [] \/ exists i p, ps !! i = Some p /\ cp_is_best p = true /\
      forall j q, ps !! j = Some q ->
        cp_preference q <= cp_preference p /\
        ((i < j)%nat -> cp_preference q < cp_preference p) /\
        (cp_is_best q = true -> j = i)).
Proof.
  apply wp_bind. eapply wp_mono; [apply wp_candidate_path_loop|]. intros ps Hnb. apply wp_ok.
  unfold mark_best. pose proof (last_max_index_spec ps [] None eq_refl) as Hspec. simpl in Hspec.
  destruct (last_max_index ps 0 None) as [i|]; [right|by left].
  destruct Hspec as (k & (p & Hi & Hk) & Hmax). exists i, (set_is_best p).
  split; [by rewrite list_lookup_alter_eq, Hi|]. split; [done|]. intros j q Hq.
  destruct (decide (i = j)) as [<-|Hne].
  - rewrite list_lookup_alter_eq, Hi in Hq. injection Hq as <-. simpl. split_and!; [lia|lia|done].
  - rewrite list_lookup_alter_ne in Hq by done. apply Hmax in Hq as Hle. simpl.
    rewrite Forall_lookup in Hnb. apply Hnb in Hq. rewrite Hq. simpl. split_and!; [lia|lia|done].
Qed.

Lemma srpolicy_best_candidate_witness :
  wp False
    (parse_srpolicy_candidate_paths
       (bs [128; 0; 8; 0; 0; 0; 0; 0; 0; 0; 50; 128; 0; 8; 0; 0; 0; 0; 0; 0; 0; 100]))
    (fun ps => cp_is_best <$> ps = [false; true]) /\
  wp False
    (parse_srpolicy_candidate_paths
       (bs [128; 0; 8; 0; 0; 0; 0; 0; 0; 0; 50; 128; 0; 8; 0; 0; 0; 0; 0; 0; 0; 100]))
    (fun ps => ps = [] \/ exists i p, ps !! i = Some p /\ cp_is_best p = true /\
      forall j q, ps !! j = Some q ->
        cp_preference q <= cp_preference p /\
        ((i < j)%nat -> cp_preference q < cp_preference p) /\
        (cp_is_best q = true -> j = i)).
Proof. split; [vm_compute; reflexivity|apply srpolicy_best_candidate]. Defined.

(** A type A segment carries the label in the top 20 of 32 bits; the source
    reads 24 bits and shifts by 12, so label 16000 is decoded as 62. *)
Example segment_label_truncated :
  parse_segment_body parse_segments 1 (bs [0x03; 0xE8; 0x00; 0x00]) =
    Ok (Segment_MplsLabel 62 4 false 0).
Proof. vm_compute. reflexivity. Qed.
