(* ===== verification/Srv6.v ===== *)
(** * The Prefix-SID attribute ([crates/rbmp-core/src/bgp/srv6.rs]) *)

From Stdlib Require Import ZArith Lia ZifyBool String.
From stdpp Require Import base numbers list option strings.
From S2P Require Import Prelude RustStd CoreError.

Local Open Scope Z_scope.

(** [Srv6SubSubTlv], [Srv6L3Service] and [PrefixSid] of [types.rs] *)
Record Srv6SubSubTlv := mkSrv6SubSubTlv {
  srv6_sid : bytes;
  sid_flags : Z;
  endpoint_behavior : Z;
}.

Record Srv6L3Service := mkSrv6L3Service { sub_sub_tlvs : list Srv6SubSubTlv }.

Record PrefixSid := mkPrefixSid {
  label_index : option Z;
  originator_srgb : option (Z * list (Z * Z));
  srv6_l3_service : option Srv6L3Service;
  raw_tlvs : list (Z * bytes);
}.

(** The SRGB loop of the type 3 arm: base(3) and range(3). *)
Definition parse_srgbs_step (tlv_data : bytes) (st : Z * list (Z * Z))
    : Result ((Z * list (Z * Z)) + list (Z * Z)) :=
  let '(i, srgbs) := st in
  if i + 6 <=? blen tlv_data then
    base ← be_at 3 tlv_data i;
    range ← be_at 3 tlv_data (i + 3);
    Ok (inl (i + 6, srgbs ++ [(base, range)]))
  else Ok (inr srgbs).

(** [parse_srv6_l3_service]: sub-TLVs after one reserved octet. *)
Definition parse_srv6_l3_service_step (buf : bytes) (st : Z * list Srv6SubSubTlv)
    : Result ((Z * list Srv6SubSubTlv) + list Srv6SubSubTlv) :=
  let '(pos, tlvs) := st in
  if pos + 3 <=? blen buf then
    sub_type ← idx buf pos;
    sub_len ← be_at 2 buf (pos + 1);
    let pos := pos + 3 in
    if blen buf <? pos + sub_len then Ok (inr tlvs)
    else
      sub_data ← slice buf pos (pos + sub_len);
      let pos := pos + sub_len in
      if (sub_type =? 1) && (19 <=? blen sub_data) then
        sid ← slice sub_data 0 16;
        flags ← idx sub_data 16;
        behavior ← be_at 2 sub_data 17;
        Ok (inl (pos, tlvs ++ [mkSrv6SubSubTlv sid flags behavior]))
      else Ok (inl (pos, tlvs))
  else Ok (inr tlvs).

Definition parse_srv6_l3_service (buf : bytes) : Result Srv6L3Service :=
  tlvs ← loop (S (length buf)) (parse_srv6_l3_service_step buf) (1, []);
  Ok (mkSrv6L3Service tlvs).

(** One TLV of [parse_prefix_sid]: type(1), length(2), value; a TLV that
    overruns the attribute ends the loop. *)
Definition parse_prefix_sid_step (buf : bytes) (st : Z * PrefixSid)
    : Result ((Z * PrefixSid) + PrefixSid) :=
  let '(pos, sid) := st in
  if pos + 3 <=? blen buf then
    tlv_type ← idx buf pos;
    tlv_len ← be_at 2 buf (pos + 1);
    let pos := pos + 3 in
    if blen buf <? pos + tlv_len then Ok (inr sid)
    else
      tlv_data ← slice buf pos (pos + tlv_len);
      let pos := pos + tlv_len in
      sid ←
        match tlv_type with
        | 1 =>
            if 6 <=? blen tlv_data then
              v ← be_at 4 tlv_data 2;
              Ok (mkPrefixSid (Some v) (originator_srgb sid) (srv6_l3_service sid) (raw_tlvs sid))
            else Ok sid
        | 3 =>
            if 2 <=? blen tlv_data then
              flags ← be_at 2 tlv_data 0;
              srgbs ← loop (S (length tlv_data)) (parse_srgbs_step tlv_data) (2, []);
              Ok (mkPrefixSid (label_index sid) (Some (flags, srgbs)) (srv6_l3_service sid)
                    (raw_tlvs sid))
            else Ok sid
        | 5 =>
            svc ← parse_srv6_l3_service tlv_data;
            Ok (mkPrefixSid (label_index sid) (originator_srgb sid) (Some svc) (raw_tlvs sid))
        | _ =>
            Ok (mkPrefixSid (label_index sid) (originator_srgb sid) (srv6_l3_service sid)
                  (raw_tlvs sid ++ [(tlv_type, tlv_data)]))
        end;
      Ok (inl (pos, sid))
  else Ok (inr sid).

Definition parse_prefix_sid (buf : bytes) : Result PrefixSid :=
  loop (S (length buf)) (parse_prefix_sid_step buf) (0, mkPrefixSid None None None []).

(** ** Safety *)

Section Srv6Safety.
Context (pn : Prop).

Lemma wp_parse_srgbs buf :
  2 <= blen buf -> wp pn (loop (S (length buf)) (parse_srgbs_step buf) (2, [])) (fun _ => True).
Proof.
  intros Hb. apply wp_loop_pos; [lia|]. intros pos acc Hpos. unfold parse_srgbs_step.
  repeat wp_step; try done. simpl. lia.
Qed.

(** The service loop starts after the reserved octet, which may be missing. *)
Lemma wp_parse_srv6_l3_service buf : wp pn (parse_srv6_l3_service buf) (fun _ => True).
Proof.
  apply wp_bind.
  apply (wp_loop _ (fun st => 1 <= st.1) (fun st => Z.to_nat (blen buf - st.1)));
    [done|simpl; rewrite length_blen; lia|].
  intros [pos tlvs] Hpos. cbn [fst] in Hpos. unfold parse_srv6_l3_service_step.
  repeat wp_step; try done; blen_simpl; simpl; lia.
Qed.

Lemma wp_parse_prefix_sid buf : wp pn (parse_prefix_sid buf) (fun _ => True).
Proof.
  apply wp_loop_pos; [pose proof (blen_nonneg buf); lia|]. intros pos sid Hpos.
  unfold parse_prefix_sid_step. wp_core; [|done]. apply wp_bind. wp_step. apply wp_bind. wp_step.
  cbn zeta. wp_core; [done|]. apply wp_bind. wp_step. apply wp_bind, (wp_mono _ _ (fun _ => True)).
  - repeat first [wp_step
      | eapply wp_mono; [apply wp_parse_srgbs; lia|intros ? _]
      | eapply wp_mono; [apply wp_parse_srv6_l3_service|intros ? _]]; done.
  - intros sid' _. apply wp_ok. simpl. lia.
Qed.

End Srv6Safety.

#[export] Hint Resolve wp_parse_prefix_sid : wp.
