(* ===== verification/Mvpn.v ===== *)
(** * Multicast VPN routes ([crates/rbmp-core/src/bgp/mvpn.rs])

    The seven route types of MCAST-VPN NLRI.  The module is not called by the
    attribute parser; its entry points are [parse_mvpn_nlri] and
    [parse_mvpn_nlri_list]. *)

From Stdlib Require Import ZArith Lia ZifyBool.
From stdpp Require Import base numbers list option strings.
From S2P Require Import Prelude RustStd CoreError.

Local Open Scope Z_scope.

Inductive MvpnNlri : Type :=
| Mvpn_IntraAsIPmsi (rd : bytes) (origin_asn : Z)
| Mvpn_InterAsIPmsi (rd : bytes) (source_as : Z)
| Mvpn_SPmsi (rd : bytes) (multicast_source multicast_group : IpAddr) (origin_asn : Z)
| Mvpn_LeafAd (rd : bytes) (source_addr multicast_group originating_router : IpAddr)
| Mvpn_SourceActive (rd : bytes) (multicast_source multicast_group : IpAddr)
| Mvpn_SharedTreeJoin (rd : bytes) (source_as : Z) (rp_addr multicast_group : IpAddr)
| Mvpn_SourceTreeJoin (rd : bytes) (source_as : Z) (multicast_source multicast_group : IpAddr)
| Mvpn_Unknown (route_type : Z) (data : bytes).

Definition mvpn_route_type (n : MvpnNlri) : Z :=
  match n with
  | Mvpn_IntraAsIPmsi _ _ => 1
  | Mvpn_InterAsIPmsi _ _ => 2
  | Mvpn_SPmsi _ _ _ _ => 3
  | Mvpn_LeafAd _ _ _ _ => 4
  | Mvpn_SourceActive _ _ _ => 5
  | Mvpn_SharedTreeJoin _ _ _ _ => 6
  | Mvpn_SourceTreeJoin _ _ _ _ => 7
  | Mvpn_Unknown t _ => t
  end.

Definition mvpn_type_name (n : MvpnNlri) : string :=
  match n with
  | Mvpn_IntraAsIPmsi _ _ => "Intra-AS I-PMSI A-D"
  | Mvpn_InterAsIPmsi _ _ => "Inter-AS I-PMSI A-D"
  | Mvpn_SPmsi _ _ _ _ => "S-PMSI A-D"
  | Mvpn_LeafAd _ _ _ _ => "Leaf A-D"
  | Mvpn_SourceActive _ _ _ => "Source Active A-D"
  | Mvpn_SharedTreeJoin _ _ _ _ => "Shared Tree Join"
  | Mvpn_SourceTreeJoin _ _ _ _ => "Source Tree Join"
  | Mvpn_Unknown _ _ => "Unknown"
  end.

(** ** Readers *)

Definition read_rd (buf : bytes) (pos : Z) : Result bytes :=
  if blen buf <? pos + 8 then Err (BgpParse "MVPN: truncated RD") else slice buf pos (pos + 8).

Definition read_asn (buf : bytes) (pos : Z) : Result Z :=
  if blen buf <? pos + 4 then Err (BgpParse "MVPN: truncated ASN") else be_at 4 buf pos.

Definition read_ipv4 (buf : bytes) (pos : Z) : Result IpAddr :=
  if blen buf <? pos + 4 then Err (BgpParse "MVPN: truncated IPv4") else IpAddr_V4 <$> slice buf pos (pos + 4).

Definition read_ipv6 (buf : bytes) (pos : Z) : Result IpAddr :=
  if blen buf <? pos + 16 then Err (BgpParse "MVPN: truncated IPv6") else IpAddr_V6 <$> slice buf pos (pos + 16).

Definition read_ip (buf : bytes) (pos : Z) (is_v6 : bool) : Result IpAddr :=
  if is_v6 then read_ipv6 buf pos else read_ipv4 buf pos.

Definition unspecified : IpAddr := IpAddr_V4 (replicate 4 Byte.x00).

(** ** The route types *)

Definition parse_intra_as_ipmsi (data : bytes) : Result MvpnNlri :=
  if blen data <? 12 then Err (BgpParse "MVPN type-1: too short")
  else
    rd ← read_rd data 0;
    router_ip ← (if blen data - 8 =? 16 then read_ipv6 data 8 else read_ipv4 data 8);
    Ok (Mvpn_IntraAsIPmsi rd (match router_ip with IpAddr_V4 a => be a | IpAddr_V6 _ => 0 end)).

Definition parse_inter_as_ipmsi (data : bytes) : Result MvpnNlri :=
  if blen data <? 12 then Err (BgpParse "MVPN type-2: too short")
  else
    rd ← read_rd data 0;
    source_as ← read_asn data 8;
    Ok (Mvpn_InterAsIPmsi rd source_as).

(** The originating router is read and not used. *)
Definition parse_spmsi (data : bytes) : Result MvpnNlri :=
  if blen data <? 10 then Err (BgpParse "MVPN type-3: too short")
  else
    rd ← read_rd data 0;
    src_bits ← idx data 8;
    let src_len := src_bits / 8 in
    src ← read_ip data 9 (src_len =? 16);
    let pos := 9 + src_len in
    grp_bits ← idx data pos;
    let grp_len := grp_bits / 8 in
    let pos := pos + 1 in
    grp ← read_ip data pos (grp_len =? 16);
    let pos := pos + grp_len in
    _router ← (if pos + 4 <=? blen data then result_ok (read_ipv4 data pos) else Ok None);
    Ok (Mvpn_SPmsi rd src grp 0).

Definition parse_leaf_ad (data : bytes) : Result MvpnNlri :=
  if blen data <? 8 then Err (BgpParse "MVPN type-4: too short")
  else
    rd ← read_rd data 0;
    src ← (if 24 <=? blen data then read_ipv4 data 8 else Ok unspecified);
    grp ← (if 28 <=? blen data then read_ipv4 data 12 else Ok unspecified);
    router ← (if 32 <=? blen data then read_ipv4 data 28 else Ok unspecified);
    Ok (Mvpn_LeafAd rd src grp router).

Definition parse_source_active (data : bytes) : Result MvpnNlri :=
  if blen data <? 10 then Err (BgpParse "MVPN type-5: too short")
  else
    rd ← read_rd data 0;
    src_bits ← idx data 8;
    let src_len := src_bits / 8 in
    src ← read_ip data 9 (src_len =? 16);
    let pos := 9 + src_len in
    grp_len ← (if pos <? blen data then b ← idx data pos; Ok (b / 8) else Ok 4);
    let pos := pos + 1 in
    grp ← read_ip data pos (grp_len =? 16);
    Ok (Mvpn_SourceActive rd src grp).

Definition parse_shared_tree_join (data : bytes) : Result MvpnNlri :=
  if blen data <? 17 then Err (BgpParse "MVPN type-6: too short")
  else
    rd ← read_rd data 0;
    source_as ← read_asn data 8;
    rp ← read_ipv4 data 12;
    grp ← read_ipv4 data 16;
    Ok (Mvpn_SharedTreeJoin rd source_as rp grp).

Definition parse_source_tree_join (data : bytes) : Result MvpnNlri :=
  if blen data <? 20 then Err (BgpParse "MVPN type-7: too short")
  else
    rd ← read_rd data 0;
    source_as ← read_asn data 8;
    src ← read_ipv4 data 12;
    grp ← read_ipv4 data 16;
    Ok (Mvpn_SourceTreeJoin rd source_as src grp).

(** ** The entry points *)

Definition parse_mvpn_nlri (buf : bytes) : Result (MvpnNlri * Z) :=
  if blen buf <? 2 then Err (BgpParse "MVPN NLRI too short")
  else
    nlri_type ← idx buf 0;
    nlri_len ← idx buf 1;
    if blen buf <? 2 + nlri_len then
      Err (BgpParse ("MVPN NLRI type=" ++ fmt_dec nlri_type ++ " claims " ++ fmt_dec nlri_len ++ " bytes but only "
                     ++ fmt_dec (blen buf - 2) ++ " remain"))
    else
      data ← slice buf 2 (2 + nlri_len);
      nlri ← match nlri_type with
             | 1 => parse_intra_as_ipmsi data
             | 2 => parse_inter_as_ipmsi data
             | 3 => parse_spmsi data
             | 4 => parse_leaf_ad data
             | 5 => parse_source_active data
             | 6 => parse_shared_tree_join data
             | 7 => parse_source_tree_join data
             | _ => Ok (Mvpn_Unknown nlri_type data)
             end;
      Ok (nlri, 2 + nlri_len).

(** Parsing stops silently at the first route that is not understood. *)
Definition mvpn_list_step {E} (buf : bytes) (st : Z * list MvpnNlri)
    : Outcome E ((Z * list MvpnNlri) + list MvpnNlri) :=
  let '(pos, result) := st in
  if pos <? blen buf then
    rest ← slice_from buf pos;
    parsed ← result_ok (parse_mvpn_nlri rest);
    match parsed with
    | Some (nlri, consumed) => Ok (inl (pos + consumed, result ++ [nlri]))
    | None => Ok (inr result)
    end
  else Ok (inr result).

Definition parse_mvpn_nlri_list {E} (buf : bytes) : Outcome E (list MvpnNlri) :=
  loop (S (length buf)) (mvpn_list_step buf) (0, []).

(** ** Round trip *)

Definition sized (a : IpAddr) : Prop := match a with IpAddr_V4 b => blen b = 4 | IpAddr_V6 b => blen b = 16 end.
Definition is_v4 (a : IpAddr) : Prop := match a with IpAddr_V4 b => blen b = 4 | IpAddr_V6 _ => False end.
Definition octets (a : IpAddr) : bytes := match a with IpAddr_V4 b | IpAddr_V6 b => b end.

(** An address behind its length in bits. *)
Definition encode_bits (a : IpAddr) : bytes :=
  match a with IpAddr_V4 b => Byte.x20 :: b | IpAddr_V6 b => Byte.x80 :: b end.

Definition encode_mvpn_body (n : MvpnNlri) : bytes :=
  match n with
  | Mvpn_IntraAsIPmsi rd asn | Mvpn_InterAsIPmsi rd asn => rd ++ to_be 4 asn
  | Mvpn_SPmsi rd src grp _ | Mvpn_SourceActive rd src grp => rd ++ encode_bits src ++ encode_bits grp
  | Mvpn_LeafAd rd src grp router => rd ++ octets src ++ octets grp ++ replicate 12 Byte.x00 ++ octets router
  | Mvpn_SharedTreeJoin rd asn a grp | Mvpn_SourceTreeJoin rd asn a grp => rd ++ to_be 4 asn ++ octets a ++ octets grp
  | Mvpn_Unknown _ data => data
  end.

Definition encode_mvpn (n : MvpnNlri) : bytes :=
  as_u8 (mvpn_route_type n) :: as_u8 (blen (encode_mvpn_body n)) :: encode_mvpn_body n.

(** The values the parser can return: no originator is kept of a type 3 route,
    and types 4, 6 and 7 have IPv4 addresses. *)
Definition mvpn_wf (n : MvpnNlri) : Prop :=
  match n with
  | Mvpn_IntraAsIPmsi rd asn | Mvpn_InterAsIPmsi rd asn => blen rd = 8 /\ 0 <= asn < 2 ^ 32
  | Mvpn_SPmsi rd src grp asn => blen rd = 8 /\ sized src /\ sized grp /\ asn = 0
  | Mvpn_SourceActive rd src grp => blen rd = 8 /\ sized src /\ sized grp
  | Mvpn_LeafAd rd a b c => blen rd = 8 /\ is_v4 a /\ is_v4 b /\ is_v4 c
  | Mvpn_SharedTreeJoin rd asn a b | Mvpn_SourceTreeJoin rd asn a b =>
      blen rd = 8 /\ 0 <= asn < 2 ^ 32 /\ is_v4 a /\ is_v4 b
  | Mvpn_Unknown t data => (t = 0 \/ 8 <= t < 256) /\ blen data < 256
  end.

Lemma read_rd_at data rd rest : data = rd ++ rest -> blen rd = 8 -> read_rd data 0 = Ok rd.
Proof.
  intros -> Hrd. unfold read_rd. pose proof (blen_nonneg rest).
  rewrite (proj2 (Z.ltb_ge _ _)) by (rewrite blen_app; lia). by apply (slice_at _ [] rd rest).
Qed.

Lemma read_asn_at data pre v rest i : data = pre ++ to_be 4 v ++ rest -> blen pre = i -> 0 <= v < 2 ^ 32 ->
  read_asn data i = Ok v.
Proof.
  intros -> Hi Hv. unfold read_asn. pose proof (blen_nonneg rest).
  assert (blen (to_be 4 v) = 4) as Hl by (unfold blen; by rewrite length_to_be).
  rewrite (proj2 (Z.ltb_ge _ _)) by (rewrite !blen_app; lia). rewrite (be_at_at 4 _ pre (to_be 4 v) rest) by done.
  by rewrite be_to_be.
Qed.

Lemma read_ip_at data pre a rest i : data = pre ++ octets a ++ rest -> blen pre = i -> sized a ->
  read_ip data i (match a with IpAddr_V4 _ => false | IpAddr_V6 _ => true end) = Ok a.
Proof.
  intros -> Hi Ha. pose proof (blen_nonneg rest). destruct a as [b|b]; unfold read_ip, read_ipv4, read_ipv6; cbn [octets sized] in *;
    rewrite (proj2 (Z.ltb_ge _ _)) by (rewrite !blen_app; lia); by rewrite (slice_at _ pre b rest) by (done || lia).
Qed.

Lemma read_ipv4_at data pre a rest i : data = pre ++ octets a ++ rest -> blen pre = i -> is_v4 a ->
  read_ipv4 data i = Ok a.
Proof. intros Hd Hi Ha. destruct a as [b|b]; [|done]. by apply (read_ip_at data pre (IpAddr_V4 b) rest). Qed.

(** An address behind its length. *)
Lemma read_bits_at data pre a rest i : data = pre ++ encode_bits a ++ rest -> blen pre = i -> sized a ->
  exists n, idx (E := Error) data i = Ok n /\ n / 8 = blen (octets a) /\ read_ip data (i + 1) (n / 8 =? 16) = Ok a.
Proof.
  intros Hd Hi Ha. destruct a as [b|b]; cbn [encode_bits octets sized] in *; rewrite <- app_comm_cons in Hd.
  all: eexists; split; [by apply (idx_at data pre _ _ i Hd)|]; split; [done|].
  - apply (read_ip_at data (pre ++ [Byte.x20]) (IpAddr_V4 b) rest); [by rewrite <- app_assoc|rewrite blen_app, blen_cons, blen_nil; lia|done].
  - apply (read_ip_at data (pre ++ [Byte.x80]) (IpAddr_V6 b) rest); [by rewrite <- app_assoc|rewrite blen_app, blen_cons, blen_nil; lia|done].
Qed.

Lemma blen_encode_bits a : blen (encode_bits a) = 1 + blen (octets a).
Proof. destruct a; apply blen_cons. Qed.

Lemma parse_spmsi_body rd src grp : blen rd = 8 -> sized src -> sized grp ->
  parse_spmsi (rd ++ encode_bits src ++ encode_bits grp) = Ok (Mvpn_SPmsi rd src grp 0).
Proof.
  intros Hrd Hs Hg. set (data := rd ++ _). unfold parse_spmsi.
  destruct (read_bits_at data rd src (encode_bits grp) 8 eq_refl Hrd Hs) as (n & Hn & Hl & Hsrc).
  destruct (read_bits_at data (rd ++ encode_bits src) grp [] (8 + 1 + blen (octets src))) as (m & Hm & Hl' & Hgrp);
    [unfold data; by rewrite app_nil_r, <- app_assoc|rewrite blen_app, blen_encode_bits; lia|done|].
  assert (blen data = 10 + blen (octets src) + blen (octets grp)) as Hlen
    by (unfold data; rewrite !blen_app, !blen_encode_bits; lia).
  pose proof (blen_nonneg (octets src)). pose proof (blen_nonneg (octets grp)).
  rewrite (proj2 (Z.ltb_ge _ _)) by lia. rewrite (read_rd_at data rd _ eq_refl Hrd), bind_Ok, Hn, bind_Ok. cbv zeta.
  change 9 with (8 + 1). rewrite Hsrc, bind_Ok, Hl, Hm, bind_Ok, Hgrp, bind_Ok, Hl'.
  rewrite (proj2 (Z.leb_gt _ _)) by lia. done.
Qed.

Lemma parse_source_active_body rd src grp : blen rd = 8 -> sized src -> sized grp ->
  parse_source_active (rd ++ encode_bits src ++ encode_bits grp) = Ok (Mvpn_SourceActive rd src grp).
Proof.
  intros Hrd Hs Hg. set (data := rd ++ _). unfold parse_source_active.
  destruct (read_bits_at data rd src (encode_bits grp) 8 eq_refl Hrd Hs) as (n & Hn & Hl & Hsrc).
  destruct (read_bits_at data (rd ++ encode_bits src) grp [] (8 + 1 + blen (octets src))) as (m & Hm & Hl' & Hgrp);
    [unfold data; by rewrite app_nil_r, <- app_assoc|rewrite blen_app, blen_encode_bits; lia|done|].
  assert (blen data = 10 + blen (octets src) + blen (octets grp)) as Hlen
    by (unfold data; rewrite !blen_app, !blen_encode_bits; lia).
  pose proof (blen_nonneg (octets src)). pose proof (blen_nonneg (octets grp)).
  rewrite (proj2 (Z.ltb_ge _ _)) by lia. rewrite (read_rd_at data rd _ eq_refl Hrd), bind_Ok, Hn, bind_Ok. cbv zeta.
  change 9 with (8 + 1). rewrite Hsrc, bind_Ok, Hl. rewrite (proj2 (Z.ltb_lt _ _)) by lia.
  rewrite Hm, !bind_Ok, Hgrp, bind_Ok. done.
Qed.

Lemma is_v4_octets a : is_v4 a -> blen (octets a) = 4.
Proof. by destruct a. Qed.

Lemma blen_asn asn : blen (to_be 4 asn) = 4.
Proof. unfold blen. by rewrite length_to_be. Qed.

Lemma parse_intra_body rd asn : blen rd = 8 -> 0 <= asn < 2 ^ 32 ->
  parse_intra_as_ipmsi (rd ++ to_be 4 asn) = Ok (Mvpn_IntraAsIPmsi rd asn).
Proof.
  intros Hrd Hasn. pose proof (blen_asn asn) as Hl.
  unfold parse_intra_as_ipmsi. rewrite blen_app, Hrd, Hl. cbn [Z.add Z.ltb Z.compare Pos.compare Pos.compare_cont].
  rewrite (read_rd_at _ rd (to_be 4 asn) eq_refl Hrd), bind_Ok. change (8 + 4 - 8 =? 16) with false. cbn iota.
  rewrite (read_ipv4_at _ rd (IpAddr_V4 (to_be 4 asn)) [] 8), bind_Ok; [by rewrite be_to_be|by rewrite app_nil_r|done|done].
Qed.

Lemma parse_inter_body rd asn : blen rd = 8 -> 0 <= asn < 2 ^ 32 ->
  parse_inter_as_ipmsi (rd ++ to_be 4 asn) = Ok (Mvpn_InterAsIPmsi rd asn).
Proof.
  intros Hrd Hasn. pose proof (blen_asn asn) as Hl.
  unfold parse_inter_as_ipmsi. rewrite blen_app, Hrd, Hl.
  rewrite (read_rd_at _ rd (to_be 4 asn) eq_refl Hrd).
  by rewrite (read_asn_at _ rd asn [] 8); [|by rewrite app_nil_r| |].
Qed.

Lemma parse_leaf_body rd a b c : blen rd = 8 -> is_v4 a -> is_v4 b -> is_v4 c ->
  parse_leaf_ad (rd ++ octets a ++ octets b ++ replicate 12 Byte.x00 ++ octets c) = Ok (Mvpn_LeafAd rd a b c).
Proof.
  intros Hrd Ha Hb Hc. pose proof (is_v4_octets _ Ha) as Hla. pose proof (is_v4_octets _ Hb) as Hlb. pose proof (is_v4_octets _ Hc) as Hlc.
  set (data := rd ++ _). unfold parse_leaf_ad.
  assert (blen data = 32) as Hd by (unfold data; rewrite !blen_app, Hrd, Hla, Hlb, Hlc; done).
  rewrite Hd, (read_rd_at data rd _ eq_refl Hrd), bind_Ok.
  change (32 <? 8) with false. change (24 <=? 32) with true. change (28 <=? 32) with true. change (32 <=? 32) with true.
  cbn iota. rewrite (read_ipv4_at data rd a (octets b ++ replicate 12 Byte.x00 ++ octets c) 8 eq_refl Hrd Ha), bind_Ok.
  rewrite (read_ipv4_at data (rd ++ octets a) b (replicate 12 Byte.x00 ++ octets c) 12), bind_Ok;
    [|unfold data; by rewrite <- !app_assoc|rewrite blen_app; lia|done].
  by rewrite (read_ipv4_at data (rd ++ octets a ++ octets b ++ replicate 12 Byte.x00) c [] 28);
    [|unfold data; by rewrite app_nil_r, <- !app_assoc|rewrite !blen_app; change (blen (replicate 12 Byte.x00)) with 12; lia|].
Qed.

Lemma parse_shared_body rd asn a b : blen rd = 8 -> 0 <= asn < 2 ^ 32 -> is_v4 a -> is_v4 b ->
  parse_shared_tree_join (rd ++ to_be 4 asn ++ octets a ++ octets b) = Ok (Mvpn_SharedTreeJoin rd asn a b).
Proof.
  intros Hrd Hasn Ha Hb. pose proof (blen_asn asn) as Hl. pose proof (is_v4_octets _ Ha) as Hla. pose proof (is_v4_octets _ Hb) as Hlb.
  set (data := rd ++ _). unfold parse_shared_tree_join.
  assert (blen data = 20) as Hd by (unfold data; rewrite !blen_app, Hrd, Hl, Hla, Hlb; done).
  rewrite Hd, (read_rd_at data rd _ eq_refl Hrd), bind_Ok. change (20 <? 17) with false. cbn iota.
  rewrite (read_asn_at data rd asn (octets a ++ octets b) 8 eq_refl Hrd Hasn), bind_Ok.
  rewrite (read_ipv4_at data (rd ++ to_be 4 asn) a (octets b) 12), bind_Ok;
    [|unfold data; by rewrite <- !app_assoc|rewrite blen_app; lia|done].
  by rewrite (read_ipv4_at data (rd ++ to_be 4 asn ++ octets a) b [] 16);
    [|unfold data; by rewrite app_nil_r, <- !app_assoc|rewrite !blen_app; lia|].
Qed.

Lemma parse_source_tree_body rd asn a b : blen rd = 8 -> 0 <= asn < 2 ^ 32 -> is_v4 a -> is_v4 b ->
  parse_source_tree_join (rd ++ to_be 4 asn ++ octets a ++ octets b) = Ok (Mvpn_SourceTreeJoin rd asn a b).
Proof.
  intros Hrd Hasn Ha Hb. pose proof (blen_asn asn) as Hl. pose proof (is_v4_octets _ Ha) as Hla. pose proof (is_v4_octets _ Hb) as Hlb.
  set (data := rd ++ _). unfold parse_source_tree_join.
  assert (blen data = 20) as Hd by (unfold data; rewrite !blen_app, Hrd, Hl, Hla, Hlb; done).
  rewrite Hd, (read_rd_at data rd _ eq_refl Hrd), bind_Ok. change (20 <? 20) with false. cbn iota.
  rewrite (read_asn_at data rd asn (octets a ++ octets b) 8 eq_refl Hrd Hasn), bind_Ok.
  rewrite (read_ipv4_at data (rd ++ to_be 4 asn) a (octets b) 12), bind_Ok;
    [|unfold data; by rewrite <- !app_assoc|rewrite blen_app; lia|done].
  by rewrite (read_ipv4_at data (rd ++ to_be 4 asn ++ octets a) b [] 16);
    [|unfold data; by rewrite app_nil_r, <- !app_assoc|rewrite !blen_app; lia|].
Qed.

Lemma blen_mvpn_body n : mvpn_wf n -> 0 <= blen (encode_mvpn_body n) < 256 /\ 0 <= mvpn_route_type n < 256.
Proof.
  assert (forall asn, blen (to_be 4 asn) = 4) as Hl by (intros; unfold blen; by rewrite length_to_be).
  assert (forall a, sized a -> 0 <= blen (octets a) <= 16) as Hs by (intros [b|b] Ha; cbn [octets sized] in *; lia).
  destruct n; cbn [mvpn_wf encode_mvpn_body mvpn_route_type]; intros Hwf; (split; [|lia]);
    destruct_and?; rewrite ?blen_app, ?Hl, ?blen_encode_bits;
    repeat match goal with Ha : is_v4 _ |- _ => apply is_v4_octets in Ha end;
    repeat match goal with Ha : sized _ |- _ => apply Hs in Ha end;
    try (change (blen (replicate 12 Byte.x00)) with 12); try lia.
  pose proof (blen_nonneg data). lia.
Qed.

Lemma parse_mvpn_encoded n rest : mvpn_wf n ->
  parse_mvpn_nlri (encode_mvpn n ++ rest) = Ok (n, blen (encode_mvpn n)).
Proof.
  intros Hwf. destruct (blen_mvpn_body n Hwf) as [Hb Ht]. unfold encode_mvpn, parse_mvpn_nlri.
  set (body := encode_mvpn_body n) in *. rewrite <- !app_comm_cons. set (buf := as_u8 _ :: _).
  assert (blen buf = 2 + blen body + blen rest) as Hlen by (unfold buf; rewrite !blen_cons, blen_app; lia).
  pose proof (blen_nonneg rest). rewrite (proj2 (Z.ltb_ge _ _)) by lia.
  rewrite (idx_at buf [] (as_u8 (mvpn_route_type n)) (as_u8 (blen body) :: body ++ rest) 0 eq_refl eq_refl), bind_Ok.
  rewrite (idx_at buf [as_u8 (mvpn_route_type n)] (as_u8 (blen body)) (body ++ rest) 1 eq_refl eq_refl), bind_Ok.
  rewrite !u8_as_u8 by done. rewrite (proj2 (Z.ltb_ge _ _)) by lia.
  rewrite (slice_at buf [as_u8 (mvpn_route_type n); as_u8 (blen body)] body rest 2 _ eq_refl eq_refl eq_refl), bind_Ok.
  rewrite !blen_cons. replace (1 + (1 + blen body)) with (2 + blen body) by lia.
  unfold body in *. clear -Hwf Ht. 
  destruct n as [rd asn|rd asn|rd a b o|rd a b c|rd a b|rd asn a b|rd asn a b|t data];
    cbn [mvpn_wf encode_mvpn_body mvpn_route_type] in *; destruct_and?; subst.
  - by rewrite parse_intra_body.
  - by rewrite parse_inter_body.
  - by rewrite parse_spmsi_body.
  - by rewrite parse_leaf_body.
  - by rewrite parse_source_active_body.
  - by rewrite parse_shared_body.
  - by rewrite parse_source_tree_body.
  - assert (t <> 1 /\ t <> 2 /\ t <> 3 /\ t <> 4 /\ t <> 5 /\ t <> 6 /\ t <> 7) as Hne by lia.
    destruct t as [|p|]; [done| |done]. do 3 (try (destruct p as [p|p|]; [..|lia]; try done)).
Qed.

(** A list of multicast VPN routes of any types round trips. *)
Theorem mvpn_list_roundtrip {E} ns : Forall mvpn_wf ns -> parse_mvpn_nlri_list (E := E) (ns ≫= encode_mvpn) = Ok ns.
Proof.
  intros Hns. unfold parse_mvpn_nlri_list.
  apply (loop_stream_pos (mvpn_list_step _) encode_mvpn mvpn_wf (ns ≫= encode_mvpn) ns) with (pre := []) (acc := []);
    [|intros acc; unfold mvpn_list_step; by rewrite Z.ltb_irrefl|done|done|].
  - intros pre n post acc Hn Hbuf. unfold mvpn_list_step. rewrite Hbuf.
    pose proof (blen_nonneg post). assert (2 <= blen (encode_mvpn n)) as Hl.
    { unfold encode_mvpn. rewrite !blen_cons. pose proof (blen_nonneg (encode_mvpn_body n)). lia. }
    rewrite (proj2 (Z.ltb_lt _ _)) by (rewrite !blen_app; lia). rewrite (slice_from_app pre), bind_Ok by done.
    rewrite parse_mvpn_encoded by done. cbn [result_ok]. by rewrite bind_Ok.
  - assert (length ns <= length (ns ≫= encode_mvpn))%nat; [|lia].
    apply (length_stream encode_mvpn (fun _ => True)); [done|by apply Forall_true].
Qed.

(** ** The panics *)

(** What makes a type 3 route panic: the source is followed by nothing, or its
    length in bits, other than 128, is too big for the route. *)
Definition spmsi_overrun (data : bytes) : Prop :=
  let n := be (take 1 (drop 8 data)) / 8 in
  if n =? 16 then blen data = 25 else 13 <= blen data <= 9 + n.

Lemma read_ip_cases data pos (v6 : bool) : 0 <= pos ->
  pos + (if v6 then 16 else 4) <= blen data /\ (exists a, read_ip data pos v6 = Ok a) \/
  blen data < pos + (if v6 then 16 else 4) /\ exists e, read_ip data pos v6 = Err e.
Proof.
  intros Hp. unfold read_ip, read_ipv4, read_ipv6.
  destruct v6; (case_if; [right; split; [lia|by eexists]|]); left; (split; [lia|]); rewrite slice_ok by lia; by eexists.
Qed.

Lemma idx_panic {E} b i : blen b <= i -> idx (E := E) b i = Panic.
Proof. intros Hi. unfold idx. by rewrite (proj2 (Z.ltb_ge _ _)), andb_false_r by done. Qed.

(** A type 3 route panics exactly when its source address is not
    followed by another octet although the address itself is there: a route
    that ends with its source, or whose source length in bits points past the
    end. *)
Theorem spmsi_panics_iff data : parse_spmsi data = Panic <-> 10 <= blen data /\ spmsi_overrun data.
Proof.
  unfold parse_spmsi. case_if; [split; [done|lia]|].
  assert (read_rd data 0 = Ok (take 8 data)) as ->.
  { unfold read_rd. rewrite (proj2 (Z.ltb_ge _ _)) by lia. by rewrite slice_ok by lia. }
  assert (idx (E := Error) data 8 = Ok (be (take 1 (drop 8 data)))) as ->.
  { unfold idx. rewrite (proj2 (Z.leb_le _ _)), (proj2 (Z.ltb_lt _ _)) by lia. change (Z.to_nat 8) with 8%nat. cbn [andb].
    destruct (data !! 8%nat) as [b|] eqn:Hb; [|apply lookup_ge_None in Hb; unfold blen in *; lia].
    by rewrite (drop_S _ _ _ Hb). }
  rewrite !bind_Ok. cbv zeta. unfold spmsi_overrun. set (n := be (take 1 (drop 8 data)) / 8).
  assert (0 <= n) as Hn by (apply Z.div_pos; [apply be_bounds|lia]).
  destruct (read_ip_cases data 9 (n =? 16) ltac:(lia)) as [[Hl [src ->]]|[Hl [e ->]]].
  2:{ split; [done|]. intros [_ Ho]. destruct (n =? 16); lia. }
  rewrite bind_Ok. destruct (Z.le_gt_cases (blen data) (9 + n)) as [Hge|Hlt].
  { rewrite idx_panic by done. split; [intros _|done]. split; [lia|]. destruct (Z.eqb_spec n 16); lia. }
  split; [|intros [_ Ho]; destruct (Z.eqb_spec n 16); lia]. intros Hpanic. exfalso. revert Hpanic.
  assert (exists g, idx (E := Error) data (9 + n) = Ok g /\ 0 <= g) as (g & -> & Hg).
  { assert (wp (E := Error) False (idx data (9 + n)) (fun g => 0 <= g)) as Hw by (apply wp_idx; intros; lia).
    destruct (idx data (9 + n)) as [g|e| |] eqn:Hi; [by exists g| |done..]. unfold idx in Hi. repeat case_match; done. }
  rewrite bind_Ok. assert (0 <= g / 8) by (by apply Z.div_pos).
  destruct (read_ip_cases data (9 + n + 1) (g / 8 =? 16) ltac:(lia)) as [[_ [grp ->]]|[_ [e ->]]]; [|done].
  rewrite bind_Ok. case_if; [|done]. change (read_ipv4 data (9 + n + 1 + g / 8)) with (read_ip data (9 + n + 1 + g / 8) false).
  by destruct (read_ip_cases data (9 + n + 1 + g / 8) false ltac:(lia)) as [[_ [r ->]]|[_ [e ->]]].
Qed.

Section MvpnWitnesses.

Lemma mvpn_list_roundtrip_witness :
  let ns := [Mvpn_SPmsi (replicate 8 Byte.x00) (IpAddr_V4 (bs [10; 0; 0; 1])) (IpAddr_V4 (bs [239; 1; 1; 1])) 0;
             Mvpn_InterAsIPmsi (replicate 8 Byte.x01) 65001] in
  parse_mvpn_nlri_list (E := Error) (ns ≫= encode_mvpn) = Ok ns.
Proof. apply mvpn_list_roundtrip. repeat constructor; done. Defined.

End MvpnWitnesses.
