(* ===== verification/BgpLs.v ===== *)
(** * BGP-LS NLRI and attribute ([crates/rbmp-core/src/bgp/bgpls.rs]) *)

From Stdlib Require Import ZArith Lia ZifyBool String.
From stdpp Require Import base numbers list option strings.
From S2P Require Import Prelude RustStd Crates CoreError Tlv BgpTypes Nlri.

Local Open Scope Z_scope.

(** ** NLRI types of [types.rs] *)

Inductive BgpLsNlriType : Type :=
| LsType_Node
| LsType_Link
| LsType_Ipv4Prefix
| LsType_Ipv6Prefix
| LsType_Srv6Sid
| LsType_Unknown (v : Z).

(** [impl From<u16> for BgpLsNlriType] *)
Definition bgpls_nlri_type_from (v : Z) : BgpLsNlriType :=
  match v with
  | 1 => LsType_Node
  | 2 => LsType_Link
  | 3 => LsType_Ipv4Prefix
  | 4 => LsType_Ipv6Prefix
  | 6 => LsType_Srv6Sid
  | _ => LsType_Unknown v
  end.

Inductive BgpLsProtocol : Type :=
| Proto_IsIsLevel1
| Proto_IsIsLevel2
| Proto_Ospfv2
| Proto_Direct
| Proto_StaticConfig
| Proto_Ospfv3
| Proto_Unknown (v : Z).

(** [impl From<u8> for BgpLsProtocol] *)
Definition bgpls_protocol_from (v : Z) : BgpLsProtocol :=
  match v with
  | 1 => Proto_IsIsLevel1
  | 2 => Proto_IsIsLevel2
  | 3 => Proto_Ospfv2
  | 4 => Proto_Direct
  | 5 => Proto_StaticConfig
  | 6 => Proto_Ospfv3
  | _ => Proto_Unknown v
  end.

(** [RouterId { bytes }] and its [Display] *)
Record RouterId := mkRouterId { router_id_bytes : bytes }.

Definition router_id_to_string (r : RouterId) : string :=
  let b := router_id_bytes r in
  if blen b =? 4 then ipv4_to_string b else String.concat ":" (fmt_hex2 <$> b).

Record NodeDescriptor := mkNodeDescriptor {
  nd_asn : option Z;
  nd_bgp_ls_id : option Z;
  nd_ospf_area : option Z;
  nd_igp_router : option RouterId;
}.

Definition node_descriptor_default : NodeDescriptor := mkNodeDescriptor None None None None.

Record LinkDescriptor := mkLinkDescriptor {
  ld_local_addr : option IpAddr;
  ld_remote_addr : option IpAddr;
  ld_local_id : option Z;
  ld_remote_id : option Z;
}.

Definition link_descriptor_default : LinkDescriptor := mkLinkDescriptor None None None None.

Record Srv6SidNlri := mkSrv6SidNlri {
  ss_protocol_id : Z;
  ss_identifier : Z;
  ss_local_node : NodeDescriptor;
  ss_srv6_sid : bytes;
  ss_endpoint_behavior : option Z;
  ss_sid_structure : option (Z * Z * Z * Z);
}.

Inductive BgpLsNlri : Type :=
| Ls_Node (protocol : BgpLsProtocol) (identifier : Z) (local_node : NodeDescriptor)
| Ls_Link (protocol : BgpLsProtocol) (identifier : Z) (local_node remote_node : NodeDescriptor)
    (link : LinkDescriptor)
| Ls_Prefix (protocol : BgpLsProtocol) (identifier : Z) (local_node : NodeDescriptor)
    (prefix : Prefix)
| Ls_Srv6Sid (sid : Srv6SidNlri)
| Ls_Unknown (nlri_type : Z) (data : bytes).

Record BgpLsReachNlri := mkBgpLsReach { lsr_next_hop : option IpAddr; lsr_nlris : list BgpLsNlri }.
Record BgpLsUnreachNlri := mkBgpLsUnreach { lsu_nlris : list BgpLsNlri }.

(** [Srv6SidNlri::behavior_name] *)
Definition behavior_name (b : Z) : string :=
  match b with
  | 1 => "End"
  | 2 => "End.X"
  | 3 => "End.T"
  | 4 => "End.DX6"
  | 5 => "End.DX4"
  | 6 => "End.DT6"
  | 7 => "End.DT46"
  | 8 => "End.DT4"
  | 9 => "End.B6.Encaps"
  | 10 => "End.BM"
  | 0x41 => "End.X (PSP)"
  | 0x48 => "End.OP"
  | 0x49 => "End.Otp"
  | _ => "Unknown"
  end.

(** ** NLRI decoding *)

Section LsNlri.
Context `{BytesBuf} `{IpNetCrate}.

(** The [match] of [decode_node_sub_tlvs] (codes 512 to 515). *)
Definition node_sub_tlv (sub_type : Z) (val : bytes) (nd : NodeDescriptor) : Result NodeDescriptor :=
  if (sub_type =? 512) && (4 <=? blen val) then
    v ← be_at 4 val 0;
    Ok (mkNodeDescriptor (Some v) (nd_bgp_ls_id nd) (nd_ospf_area nd) (nd_igp_router nd))
  else if (sub_type =? 513) && (4 <=? blen val) then
    v ← be_at 4 val 0;
    Ok (mkNodeDescriptor (nd_asn nd) (Some v) (nd_ospf_area nd) (nd_igp_router nd))
  else if (sub_type =? 514) && (4 <=? blen val) then
    v ← be_at 4 val 0;
    Ok (mkNodeDescriptor (nd_asn nd) (nd_bgp_ls_id nd) (Some v) (nd_igp_router nd))
  else if sub_type =? 515 then
    Ok (mkNodeDescriptor (nd_asn nd) (nd_bgp_ls_id nd) (nd_ospf_area nd) (Some (mkRouterId val)))
  else Ok nd.

Definition decode_node_sub_tlvs (buf : bytes) (nd : NodeDescriptor) : Result NodeDescriptor :=
  cursor_tlv_loop node_sub_tlv buf nd.

Definition decode_node_descriptor (buf : bytes) : Result NodeDescriptor :=
  let nd := node_descriptor_default in
  if blen buf <? 4 then Ok nd
  else
    '(_outer_type, cur) ← get_u16 buf;
    '(outer_len, cur) ← get_u16 cur;
    if blen cur <? outer_len then Ok nd
    else
      '(sub_bytes, cur) ← copy_to_bytes outer_len cur;
      decode_node_sub_tlvs sub_bytes nd.

Record LinkState := mkLinkState {
  lk_local : NodeDescriptor;
  lk_remote : NodeDescriptor;
  lk_link : LinkDescriptor;
}.

(** The [match] of [decode_link_nlri]. *)
Definition link_tlv (tlv_type : Z) (val : bytes) (st : LinkState) : Result LinkState :=
  let '(mkLinkState local_node remote_node link) := st in
  let '(mkLinkDescriptor la ra li ri) := link in
  if tlv_type =? 256 then
    n ← decode_node_sub_tlvs val local_node; Ok (mkLinkState n remote_node link)
  else if tlv_type =? 257 then
    n ← decode_node_sub_tlvs val remote_node; Ok (mkLinkState local_node n link)
  else if (tlv_type =? 258) && (8 <=? blen val) then
    l ← be_at 4 val 0; r ← be_at 4 val 4;
    Ok (mkLinkState local_node remote_node (mkLinkDescriptor la ra (Some l) (Some r)))
  else if (tlv_type =? 259) && (4 <=? blen val) then
    a ← slice val 0 4;
    Ok (mkLinkState local_node remote_node (mkLinkDescriptor (Some (IpAddr_V4 a)) ra li ri))
  else if (tlv_type =? 260) && (4 <=? blen val) then
    a ← slice val 0 4;
    Ok (mkLinkState local_node remote_node (mkLinkDescriptor la (Some (IpAddr_V4 a)) li ri))
  else if (tlv_type =? 261) && (16 <=? blen val) then
    a ← slice val 0 16;
    Ok (mkLinkState local_node remote_node (mkLinkDescriptor (Some (IpAddr_V6 a)) ra li ri))
  else if (tlv_type =? 262) && (16 <=? blen val) then
    a ← slice val 0 16;
    Ok (mkLinkState local_node remote_node (mkLinkDescriptor la (Some (IpAddr_V6 a)) li ri))
  else Ok st.

Definition decode_link_nlri (protocol : BgpLsProtocol) (identifier : Z) (buf : bytes)
    : Result BgpLsNlri :=
  st ← cursor_tlv_loop link_tlv buf
         (mkLinkState node_descriptor_default node_descriptor_default link_descriptor_default);
  Ok (Ls_Link protocol identifier (lk_local st) (lk_remote st) (lk_link st)).

(** The [match] of [decode_prefix_nlri]: [a[..octets]] panics when the prefix
    is longer than the address. *)
Definition prefix_tlv (is_v6 : bool) (tlv_type : Z) (val : bytes)
    (st : NodeDescriptor * option Prefix) : Result (NodeDescriptor * option Prefix) :=
  let '(local_node, prefix_opt) := st in
  if tlv_type =? 256 then
    n ← decode_node_sub_tlvs val local_node; Ok (n, prefix_opt)
  else if (tlv_type =? 265) && negb (blen val =? 0) then
    plen ← idx val 0;
    let octets := div_ceil8 plen in
    if octets <? blen val then
      src ← slice val 1 (1 + octets);
      (if is_v6 then
         a ← copy_into_zeroed 16 src;
         Ok (local_node, (fun n => Prefix_V6 (ipv6net_trunc n)) <$> ipv6net_new a plen)
       else
         a ← copy_into_zeroed 4 src;
         Ok (local_node, (fun n => Prefix_V4 (ipv4net_trunc n)) <$> ipv4net_new a plen))
    else Ok st
  else Ok st.

(** [prefix_opt.unwrap_or(...)]: the default route of the family; the
    [unwrap] of [Ipv4Net::new] is eager. *)
Definition default_prefix (is_v6 : bool) : Result Prefix :=
  if is_v6 then n ← or_panic (ipv6net_new (replicate 16 Byte.x00) 0); Ok (Prefix_V6 n)
  else n ← or_panic (ipv4net_new (replicate 4 Byte.x00) 0); Ok (Prefix_V4 n).

Definition decode_prefix_nlri (protocol : BgpLsProtocol) (identifier : Z) (buf : bytes)
    (is_v6 : bool) : Result BgpLsNlri :=
  '(local_node, prefix_opt) ← cursor_tlv_loop (prefix_tlv is_v6) buf (node_descriptor_default, None);
  d ← default_prefix is_v6;
  Ok (Ls_Prefix protocol identifier local_node (default d prefix_opt)).

(** The sub-sub-TLV [match] of [decode_srv6_sid_nlri]. *)
Definition srv6_sub_tlv (sub_type : Z) (sub_data : bytes)
    (st : option Z * option (Z * Z * Z * Z)) : Result (option Z * option (Z * Z * Z * Z)) :=
  let '(behavior, structure) := st in
  if (sub_type =? 1) && (2 <=? blen sub_data) then
    v ← be_at 2 sub_data 0; Ok (Some v, structure)
  else if (sub_type =? 2) && (4 <=? blen sub_data) then
    a ← idx sub_data 0; b ← idx sub_data 1; c ← idx sub_data 2; d ← idx sub_data 3;
    Ok (behavior, Some (a, b, c, d))
  else Ok st.

Definition srv6_tlv (tlv_type : Z) (tlv_data : bytes)
    (st : bytes * (option Z * option (Z * Z * Z * Z)))
    : Result (bytes * (option Z * option (Z * Z * Z * Z))) :=
  if (tlv_type =? 1) && (16 <=? blen tlv_data) then
    sid ← slice tlv_data 0 16;
    r ← pos_tlv_loop srv6_sub_tlv tlv_data 16 st.2;
    Ok (sid, r)
  else Ok st.

Definition decode_srv6_sid_nlri (protocol_id identifier : Z) (buf : bytes) : Result BgpLsNlri :=
  local_node ← decode_node_descriptor buf;
  nd_consumed ←
    (if 4 <=? blen buf then
       l ← be_at 2 buf 2;
       let nd_len := l + 4 in Ok (Z.min nd_len (blen buf))
     else Ok (blen buf));
  '(_, cur) ← copy_to_bytes (Z.min nd_consumed (blen buf)) buf;
  '(sid, (behavior, structure)) ←
    cursor_tlv_loop srv6_tlv cur (replicate 16 Byte.x00, (None, None));
  Ok (Ls_Srv6Sid (mkSrv6SidNlri protocol_id identifier local_node sid behavior structure)).

Definition decode_one (nlri_type : Z) (buf : bytes) : Result BgpLsNlri :=
  if blen buf <? 9 then Ok (Ls_Unknown nlri_type buf)
  else
    b0 ← idx buf 0;
    let protocol := bgpls_protocol_from b0 in
    identifier ← be_at 8 buf 1;
    rest ← slice_from buf 9;
    match bgpls_nlri_type_from nlri_type with
    | LsType_Node =>
        local_node ← decode_node_descriptor rest;
        Ok (Ls_Node protocol identifier local_node)
    | LsType_Link => decode_link_nlri protocol identifier rest
    | LsType_Ipv4Prefix | LsType_Ipv6Prefix =>
        decode_prefix_nlri protocol identifier rest (nlri_type =? 4)
    | LsType_Srv6Sid => decode_srv6_sid_nlri b0 identifier rest
    | LsType_Unknown _ => Ok (Ls_Unknown nlri_type buf)
    end.

(** One NLRI of [decode_bgpls_nlri]; a truncated one is an error here. *)
Definition decode_bgpls_nlri_step (st : bytes * list BgpLsNlri)
    : Result ((bytes * list BgpLsNlri) + list BgpLsNlri) :=
  let '(cur, nlris) := st in
  if 4 <=? blen cur then
    '(nlri_type, cur) ← get_u16 cur;
    '(nlri_len, cur) ← get_u16 cur;
    if blen cur <? nlri_len then Err (UnexpectedEof nlri_len (blen cur))
    else
      '(nlri_bytes, cur) ← copy_to_bytes nlri_len cur;
      nlri ← decode_one nlri_type nlri_bytes;
      Ok (inl (cur, nlris ++ [nlri]))
  else Ok (inr nlris).

Definition decode_bgpls_nlri (buf : bytes) : Result (list BgpLsNlri) :=
  loop (S (length buf)) decode_bgpls_nlri_step (buf, []).

Definition decode_bgpls_reach (next_hop : option IpAddr) (nlri_buf : bytes) : Result BgpLsReachNlri :=
  nlris ← decode_bgpls_nlri nlri_buf; Ok (mkBgpLsReach next_hop nlris).

Definition decode_bgpls_unreach (buf : bytes) : Result BgpLsUnreachNlri :=
  nlris ← decode_bgpls_nlri buf; Ok (mkBgpLsUnreach nlris).

End LsNlri.

(** ** The BGP-LS path attribute (type 29)

    An [f32] is kept as its 32-bit pattern, which is what the source reads. *)

Record SrCapabilities := mkSrCapabilities { sc_flags : Z; srgb_ranges : list (Z * Z) }.
Record SrLocalBlock := mkSrLocalBlock { slb_flags : Z; srlb_ranges : list (Z * Z) }.
Record AdjSid := mkAdjSid { adj_flags : Z; adj_weight : Z; adj_label : Z }.
Record LanAdjSid := mkLanAdjSid {
  lan_flags : Z; lan_weight : Z; lan_neighbor_id : bytes; lan_label : Z }.
Record LsPrefixSid := mkLsPrefixSid { ps_flags : Z; ps_algorithm : Z; ps_label : Z }.
Record FlexAlgoDef := mkFlexAlgoDef {
  fad_algo_id : Z; fad_metric_type : Z; fad_calc_type : Z; fad_priority : Z;
  fad_exclude_any : option Z; fad_include_any : option Z; fad_include_all : option Z }.
Record FlexAlgoPrefixMetric := mkFlexAlgoPrefixMetric { fapm_algo_id : Z; fapm_metric : Z }.

Record BgpLsAttribute := mkBgpLsAttribute {
  node_flags : option Z;
  node_name : option string;
  isis_area_id : option bytes;
  ipv4_router_id : option Ipv4Addr;
  ipv6_router_id : option Ipv6Addr;
  sr_capabilities : option SrCapabilities;
  sr_algorithm : bytes;
  sr_local_block : option SrLocalBlock;
  link_metric_igp : option Z;
  link_metric_te : option Z;
  admin_group : option Z;
  max_bandwidth : option Z;
  max_reservable_bw : option Z;
  unreserved_bw : list Z;
  srlg : list Z;
  adj_sid : list AdjSid;
  lan_adj_sid : list LanAdjSid;
  peer_node_sid : option Z;
  peer_adj_sid : option Z;
  peer_set_sid : option Z;
  prefix_metric : option Z;
  ospf_fwd_addr : option IpAddr;
  ls_prefix_sid : list LsPrefixSid;
  flex_algo_defs : list FlexAlgoDef;
  flex_algo_prefix_metrics : list FlexAlgoPrefixMetric;
  unknown_tlvs : list (Z * bytes);
}.

(** [BgpLsAttribute::default()] *)
Definition bgpls_attribute_default : BgpLsAttribute :=
  mkBgpLsAttribute None None None None None None [] None None None None None None [] [] [] [] None None None None None [] [] [] [].

(** Assignments to one field ([attr.f = v]). *)
Definition set_node_flags (v : option Z) (a : BgpLsAttribute) : BgpLsAttribute :=
  let '(mkBgpLsAttribute _ x1 x2 x3 x4 x5 x6 x7 x8 x9 x10 x11 x12 x13 x14 x15 x16 x17 x18 x19 x20 x21 x22 x23 x24 x25) := a in
  mkBgpLsAttribute v x1 x2 x3 x4 x5 x6 x7 x8 x9 x10 x11 x12 x13 x14 x15 x16 x17 x18 x19 x20 x21 x22 x23 x24 x25.
Definition set_node_name (v : option string) (a : BgpLsAttribute) : BgpLsAttribute :=
  let '(mkBgpLsAttribute x0 _ x2 x3 x4 x5 x6 x7 x8 x9 x10 x11 x12 x13 x14 x15 x16 x17 x18 x19 x20 x21 x22 x23 x24 x25) := a in
  mkBgpLsAttribute x0 v x2 x3 x4 x5 x6 x7 x8 x9 x10 x11 x12 x13 x14 x15 x16 x17 x18 x19 x20 x21 x22 x23 x24 x25.
Definition set_isis_area_id (v : option bytes) (a : BgpLsAttribute) : BgpLsAttribute :=
  let '(mkBgpLsAttribute x0 x1 _ x3 x4 x5 x6 x7 x8 x9 x10 x11 x12 x13 x14 x15 x16 x17 x18 x19 x20 x21 x22 x23 x24 x25) := a in
  mkBgpLsAttribute x0 x1 v x3 x4 x5 x6 x7 x8 x9 x10 x11 x12 x13 x14 x15 x16 x17 x18 x19 x20 x21 x22 x23 x24 x25.
Definition set_ipv4_router_id (v : option Ipv4Addr) (a : BgpLsAttribute) : BgpLsAttribute :=
  let '(mkBgpLsAttribute x0 x1 x2 _ x4 x5 x6 x7 x8 x9 x10 x11 x12 x13 x14 x15 x16 x17 x18 x19 x20 x21 x22 x23 x24 x25) := a in
  mkBgpLsAttribute x0 x1 x2 v x4 x5 x6 x7 x8 x9 x10 x11 x12 x13 x14 x15 x16 x17 x18 x19 x20 x21 x22 x23 x24 x25.
Definition set_ipv6_router_id (v : option Ipv6Addr) (a : BgpLsAttribute) : BgpLsAttribute :=
  let '(mkBgpLsAttribute x0 x1 x2 x3 _ x5 x6 x7 x8 x9 x10 x11 x12 x13 x14 x15 x16 x17 x18 x19 x20 x21 x22 x23 x24 x25) := a in
  mkBgpLsAttribute x0 x1 x2 x3 v x5 x6 x7 x8 x9 x10 x11 x12 x13 x14 x15 x16 x17 x18 x19 x20 x21 x22 x23 x24 x25.
Definition set_sr_capabilities (v : option SrCapabilities) (a : BgpLsAttribute) : BgpLsAttribute :=
  let '(mkBgpLsAttribute x0 x1 x2 x3 x4 _ x6 x7 x8 x9 x10 x11 x12 x13 x14 x15 x16 x17 x18 x19 x20 x21 x22 x23 x24 x25) := a in
  mkBgpLsAttribute x0 x1 x2 x3 x4 v x6 x7 x8 x9 x10 x11 x12 x13 x14 x15 x16 x17 x18 x19 x20 x21 x22 x23 x24 x25.
Definition set_sr_algorithm (v : bytes) (a : BgpLsAttribute) : BgpLsAttribute :=
  let '(mkBgpLsAttribute x0 x1 x2 x3 x4 x5 _ x7 x8 x9 x10 x11 x12 x13 x14 x15 x16 x17 x18 x19 x20 x21 x22 x23 x24 x25) := a in
  mkBgpLsAttribute x0 x1 x2 x3 x4 x5 v x7 x8 x9 x10 x11 x12 x13 x14 x15 x16 x17 x18 x19 x20 x21 x22 x23 x24 x25.
Definition set_sr_local_block (v : option SrLocalBlock) (a : BgpLsAttribute) : BgpLsAttribute :=
  let '(mkBgpLsAttribute x0 x1 x2 x3 x4 x5 x6 _ x8 x9 x10 x11 x12 x13 x14 x15 x16 x17 x18 x19 x20 x21 x22 x23 x24 x25) := a in
  mkBgpLsAttribute x0 x1 x2 x3 x4 x5 x6 v x8 x9 x10 x11 x12 x13 x14 x15 x16 x17 x18 x19 x20 x21 x22 x23 x24 x25.
Definition set_link_metric_igp (v : option Z) (a : BgpLsAttribute) : BgpLsAttribute :=
  let '(mkBgpLsAttribute x0 x1 x2 x3 x4 x5 x6 x7 _ x9 x10 x11 x12 x13 x14 x15 x16 x17 x18 x19 x20 x21 x22 x23 x24 x25) := a in
  mkBgpLsAttribute x0 x1 x2 x3 x4 x5 x6 x7 v x9 x10 x11 x12 x13 x14 x15 x16 x17 x18 x19 x20 x21 x22 x23 x24 x25.
Definition set_link_metric_te (v : option Z) (a : BgpLsAttribute) : BgpLsAttribute :=
  let '(mkBgpLsAttribute x0 x1 x2 x3 x4 x5 x6 x7 x8 _ x10 x11 x12 x13 x14 x15 x16 x17 x18 x19 x20 x21 x22 x23 x24 x25) := a in
  mkBgpLsAttribute x0 x1 x2 x3 x4 x5 x6 x7 x8 v x10 x11 x12 x13 x14 x15 x16 x17 x18 x19 x20 x21 x22 x23 x24 x25.
Definition set_admin_group (v : option Z) (a : BgpLsAttribute) : BgpLsAttribute :=
  let '(mkBgpLsAttribute x0 x1 x2 x3 x4 x5 x6 x7 x8 x9 _ x11 x12 x13 x14 x15 x16 x17 x18 x19 x20 x21 x22 x23 x24 x25) := a in
  mkBgpLsAttribute x0 x1 x2 x3 x4 x5 x6 x7 x8 x9 v x11 x12 x13 x14 x15 x16 x17 x18 x19 x20 x21 x22 x23 x24 x25.
Definition set_max_bandwidth (v : option Z) (a : BgpLsAttribute) : BgpLsAttribute :=
  let '(mkBgpLsAttribute x0 x1 x2 x3 x4 x5 x6 x7 x8 x9 x10 _ x12 x13 x14 x15 x16 x17 x18 x19 x20 x21 x22 x23 x24 x25) := a in
  mkBgpLsAttribute x0 x1 x2 x3 x4 x5 x6 x7 x8 x9 x10 v x12 x13 x14 x15 x16 x17 x18 x19 x20 x21 x22 x23 x24 x25.
Definition set_max_reservable_bw (v : option Z) (a : BgpLsAttribute) : BgpLsAttribute :=
  let '(mkBgpLsAttribute x0 x1 x2 x3 x4 x5 x6 x7 x8 x9 x10 x11 _ x13 x14 x15 x16 x17 x18 x19 x20 x21 x22 x23 x24 x25) := a in
  mkBgpLsAttribute x0 x1 x2 x3 x4 x5 x6 x7 x8 x9 x10 x11 v x13 x14 x15 x16 x17 x18 x19 x20 x21 x22 x23 x24 x25.
Definition set_unreserved_bw (v : list Z) (a : BgpLsAttribute) : BgpLsAttribute :=
  let '(mkBgpLsAttribute x0 x1 x2 x3 x4 x5 x6 x7 x8 x9 x10 x11 x12 _ x14 x15 x16 x17 x18 x19 x20 x21 x22 x23 x24 x25) := a in
  mkBgpLsAttribute x0 x1 x2 x3 x4 x5 x6 x7 x8 x9 x10 x11 x12 v x14 x15 x16 x17 x18 x19 x20 x21 x22 x23 x24 x25.
Definition set_srlg (v : list Z) (a : BgpLsAttribute) : BgpLsAttribute :=
  let '(mkBgpLsAttribute x0 x1 x2 x3 x4 x5 x6 x7 x8 x9 x10 x11 x12 x13 _ x15 x16 x17 x18 x19 x20 x21 x22 x23 x24 x25) := a in
  mkBgpLsAttribute x0 x1 x2 x3 x4 x5 x6 x7 x8 x9 x10 x11 x12 x13 v x15 x16 x17 x18 x19 x20 x21 x22 x23 x24 x25.
Definition set_adj_sid (v : list AdjSid) (a : BgpLsAttribute) : BgpLsAttribute :=
  let '(mkBgpLsAttribute x0 x1 x2 x3 x4 x5 x6 x7 x8 x9 x10 x11 x12 x13 x14 _ x16 x17 x18 x19 x20 x21 x22 x23 x24 x25) := a in
  mkBgpLsAttribute x0 x1 x2 x3 x4 x5 x6 x7 x8 x9 x10 x11 x12 x13 x14 v x16 x17 x18 x19 x20 x21 x22 x23 x24 x25.
Definition set_lan_adj_sid (v : list LanAdjSid) (a : BgpLsAttribute) : BgpLsAttribute :=
  let '(mkBgpLsAttribute x0 x1 x2 x3 x4 x5 x6 x7 x8 x9 x10 x11 x12 x13 x14 x15 _ x17 x18 x19 x20 x21 x22 x23 x24 x25) := a in
  mkBgpLsAttribute x0 x1 x2 x3 x4 x5 x6 x7 x8 x9 x10 x11 x12 x13 x14 x15 v x17 x18 x19 x20 x21 x22 x23 x24 x25.
Definition set_peer_node_sid (v : option Z) (a : BgpLsAttribute) : BgpLsAttribute :=
  let '(mkBgpLsAttribute x0 x1 x2 x3 x4 x5 x6 x7 x8 x9 x10 x11 x12 x13 x14 x15 x16 _ x18 x19 x20 x21 x22 x23 x24 x25) := a in
  mkBgpLsAttribute x0 x1 x2 x3 x4 x5 x6 x7 x8 x9 x10 x11 x12 x13 x14 x15 x16 v x18 x19 x20 x21 x22 x23 x24 x25.
Definition set_peer_adj_sid (v : option Z) (a : BgpLsAttribute) : BgpLsAttribute :=
  let '(mkBgpLsAttribute x0 x1 x2 x3 x4 x5 x6 x7 x8 x9 x10 x11 x12 x13 x14 x15 x16 x17 _ x19 x20 x21 x22 x23 x24 x25) := a in
  mkBgpLsAttribute x0 x1 x2 x3 x4 x5 x6 x7 x8 x9 x10 x11 x12 x13 x14 x15 x16 x17 v x19 x20 x21 x22 x23 x24 x25.
Definition set_peer_set_sid (v : option Z) (a : BgpLsAttribute) : BgpLsAttribute :=
  let '(mkBgpLsAttribute x0 x1 x2 x3 x4 x5 x6 x7 x8 x9 x10 x11 x12 x13 x14 x15 x16 x17 x18 _ x20 x21 x22 x23 x24 x25) := a in
  mkBgpLsAttribute x0 x1 x2 x3 x4 x5 x6 x7 x8 x9 x10 x11 x12 x13 x14 x15 x16 x17 x18 v x20 x21 x22 x23 x24 x25.
Definition set_prefix_metric (v : option Z) (a : BgpLsAttribute) : BgpLsAttribute :=
  let '(mkBgpLsAttribute x0 x1 x2 x3 x4 x5 x6 x7 x8 x9 x10 x11 x12 x13 x14 x15 x16 x17 x18 x19 _ x21 x22 x23 x24 x25) := a in
  mkBgpLsAttribute x0 x1 x2 x3 x4 x5 x6 x7 x8 x9 x10 x11 x12 x13 x14 x15 x16 x17 x18 x19 v x21 x22 x23 x24 x25.
Definition set_ospf_fwd_addr (v : option IpAddr) (a : BgpLsAttribute) : BgpLsAttribute :=
  let '(mkBgpLsAttribute x0 x1 x2 x3 x4 x5 x6 x7 x8 x9 x10 x11 x12 x13 x14 x15 x16 x17 x18 x19 x20 _ x22 x23 x24 x25) := a in
  mkBgpLsAttribute x0 x1 x2 x3 x4 x5 x6 x7 x8 x9 x10 x11 x12 x13 x14 x15 x16 x17 x18 x19 x20 v x22 x23 x24 x25.
Definition set_ls_prefix_sid (v : list LsPrefixSid) (a : BgpLsAttribute) : BgpLsAttribute :=
  let '(mkBgpLsAttribute x0 x1 x2 x3 x4 x5 x6 x7 x8 x9 x10 x11 x12 x13 x14 x15 x16 x17 x18 x19 x20 x21 _ x23 x24 x25) := a in
  mkBgpLsAttribute x0 x1 x2 x3 x4 x5 x6 x7 x8 x9 x10 x11 x12 x13 x14 x15 x16 x17 x18 x19 x20 x21 v x23 x24 x25.
Definition set_flex_algo_defs (v : list FlexAlgoDef) (a : BgpLsAttribute) : BgpLsAttribute :=
  let '(mkBgpLsAttribute x0 x1 x2 x3 x4 x5 x6 x7 x8 x9 x10 x11 x12 x13 x14 x15 x16 x17 x18 x19 x20 x21 x22 _ x24 x25) := a in
  mkBgpLsAttribute x0 x1 x2 x3 x4 x5 x6 x7 x8 x9 x10 x11 x12 x13 x14 x15 x16 x17 x18 x19 x20 x21 x22 v x24 x25.
Definition set_flex_algo_prefix_metrics (v : list FlexAlgoPrefixMetric) (a : BgpLsAttribute) : BgpLsAttribute :=
  let '(mkBgpLsAttribute x0 x1 x2 x3 x4 x5 x6 x7 x8 x9 x10 x11 x12 x13 x14 x15 x16 x17 x18 x19 x20 x21 x22 x23 _ x25) := a in
  mkBgpLsAttribute x0 x1 x2 x3 x4 x5 x6 x7 x8 x9 x10 x11 x12 x13 x14 x15 x16 x17 x18 x19 x20 x21 x22 x23 v x25.
Definition set_unknown_tlvs (v : list (Z * bytes)) (a : BgpLsAttribute) : BgpLsAttribute :=
  let '(mkBgpLsAttribute x0 x1 x2 x3 x4 x5 x6 x7 x8 x9 x10 x11 x12 x13 x14 x15 x16 x17 x18 x19 x20 x21 x22 x23 x24 _) := a in
  mkBgpLsAttribute x0 x1 x2 x3 x4 x5 x6 x7 x8 x9 x10 x11 x12 x13 x14 x15 x16 x17 x18 x19 x20 x21 x22 x23 x24 v.

(** The SRGB loop (TLV 1034): range(3), sub-TLV header(2), base(3). *)
Definition srgb_step (data : bytes) (st : Z * list (Z * Z))
    : Result ((Z * list (Z * Z)) + list (Z * Z)) :=
  let '(i, ranges) := st in
  if i + 8 <=? blen data then
    range ← be_at 3 data i;
    base ← be_at 3 data (i + 5);
    Ok (inl (i + 8, ranges ++ [(base, range)]))
  else Ok (inr ranges).

(** The SRLB loop (TLV 1036): range(3), base(3). *)
Definition srlb_step (data : bytes) (st : Z * list (Z * Z))
    : Result ((Z * list (Z * Z)) + list (Z * Z)) :=
  let '(i, ranges) := st in
  if i + 6 <=? blen data then
    range ← be_at 3 data i;
    base ← (if i + 6 <=? blen data then be_at 3 data (i + 3) else Ok 0);
    Ok (inl (i + 6, ranges ++ [(base, range)]))
  else Ok (inr ranges).

(** The SRLG loop (TLV 1094) appends to what is there. *)
Definition srlg_step (data : bytes) (st : Z * list Z) : Result ((Z * list Z) + list Z) :=
  let '(i, groups) := st in
  if i + 4 <=? blen data then
    v ← be_at 4 data i;
    Ok (inl (i + 4, groups ++ [v]))
  else Ok (inr groups).

(** The sub-TLV [match] of the Flex Algorithm Definition (TLV 1039). *)
Definition flex_algo_sub_tlv (st : Z) (sv : bytes) (acc : option Z * option Z * option Z)
    : Result (option Z * option Z * option Z) :=
  let '(exclude_any, include_any, include_all) := acc in
  if 4 <=? blen sv then
    v ← be_at 4 sv 0;
    match st with
    | 1 => Ok (Some v, include_any, include_all)
    | 2 => Ok (exclude_any, Some v, include_all)
    | 3 => Ok (exclude_any, include_any, Some v)
    | _ => Ok acc
    end
  else Ok acc.

Definition igp_metric (tlv_len : Z) (data : bytes) : Result Z :=
  match tlv_len with
  | 1 => idx data 0
  | 2 => be_at 2 data 0
  | 3 => be_at 3 data 0
  | _ => be_at 4 data 0
  end.

(** The [match tlv_type] of [parse_bgpls_attribute], arm by arm. *)
Definition bgpls_attribute_tlv (ty : Z) (data : bytes) (attr : BgpLsAttribute)
    : Result BgpLsAttribute :=
  let n := blen data in
  if (ty =? 1024) && (1 <=? n) then v ← idx data 0; Ok (set_node_flags (Some v) attr)
  else if ty =? 1026 then Ok (set_node_name (Some (from_utf8_lossy data)) attr)
  else if ty =? 1027 then Ok (set_isis_area_id (Some data) attr)
  else if (ty =? 1028) && (n =? 4) then
    a ← slice data 0 4; Ok (set_ipv4_router_id (Some a) attr)
  else if (ty =? 1029) && (n =? 16) then
    a ← slice data 0 16; Ok (set_ipv6_router_id (Some a) attr)
  else if (ty =? 1034) && (2 <=? n) then
    flags ← idx data 0;
    ranges ← loop (S (length data)) (srgb_step data) (2, []);
    Ok (set_sr_capabilities (Some (mkSrCapabilities flags ranges)) attr)
  else if ty =? 1035 then Ok (set_sr_algorithm data attr)
  else if (ty =? 1036) && (2 <=? n) then
    flags ← idx data 0;
    ranges ← loop (S (length data)) (srlb_step data) (2, []);
    Ok (set_sr_local_block (Some (mkSrLocalBlock flags ranges)) attr)
  else if (ty =? 1081) && (n =? 4) then
    v ← be_at 4 data 0; Ok (set_max_bandwidth (Some v) attr)
  else if (ty =? 1082) && (n =? 4) then
    v ← be_at 4 data 0; Ok (set_max_reservable_bw (Some v) attr)
  else if (ty =? 1083) && (n =? 32) then
    bw ← for_each [0; 1; 2; 3; 4; 5; 6; 7]
           (fun i acc => v ← be_at 4 data (i * 4); Ok (acc ++ [v])) (unreserved_bw attr);
    Ok (set_unreserved_bw bw attr)
  else if (ty =? 1088) && (n =? 4) then
    v ← be_at 4 data 0; Ok (set_admin_group (Some v) attr)
  else if (ty =? 1092) && (n =? 4) then
    v ← be_at 4 data 0; Ok (set_link_metric_te (Some v) attr)
  else if ty =? 1094 then
    groups ← loop (S (length data)) (srlg_step data) (0, srlg attr);
    Ok (set_srlg groups attr)
  else if (ty =? 1095) && (1 <=? n) && (n <=? 4) then
    metric ← igp_metric n data; Ok (set_link_metric_igp (Some metric) attr)
  else if (ty =? 1099) && (7 <=? n) then
    flags ← idx data 0; weight ← idx data 1; label ← be_at 3 data 4;
    Ok (set_adj_sid (adj_sid attr ++ [mkAdjSid flags weight label]) attr)
  else if (ty =? 1100) && (14 <=? n) then
    flags ← idx data 0; weight ← idx data 1; neighbor_id ← slice data 2 9; label ← be_at 3 data 11;
    Ok (set_lan_adj_sid (lan_adj_sid attr ++ [mkLanAdjSid flags weight neighbor_id label]) attr)
  else if (ty =? 1101) && (7 <=? n) then
    v ← be_at 3 data 4; Ok (set_peer_node_sid (Some v) attr)
  else if (ty =? 1102) && (7 <=? n) then
    v ← be_at 3 data 4; Ok (set_peer_adj_sid (Some v) attr)
  else if (ty =? 1103) && (7 <=? n) then
    v ← be_at 3 data 4; Ok (set_peer_set_sid (Some v) attr)
  else if (ty =? 1155) && (n =? 4) then
    v ← be_at 4 data 0; Ok (set_prefix_metric (Some v) attr)
  else if (ty =? 1156) && (n =? 4) then
    a ← slice data 0 4; Ok (set_ospf_fwd_addr (Some (IpAddr_V4 a)) attr)
  else if (ty =? 1156) && (n =? 16) then
    a ← slice data 0 16; Ok (set_ospf_fwd_addr (Some (IpAddr_V6 a)) attr)
  else if (ty =? 1158) && (7 <=? n) then
    flags ← idx data 0; algorithm ← idx data 1;
    label ← (if 8 <=? n then be_at 4 data 4 else be_at 3 data 4);
    Ok (set_ls_prefix_sid (ls_prefix_sid attr ++ [mkLsPrefixSid flags algorithm label]) attr)
  else if (ty =? 1039) && (4 <=? n) then
    algo_id ← idx data 0; metric_type ← idx data 1; calc_type ← idx data 2; priority ← idx data 3;
    '(exclude_any, include_any, include_all) ←
      pos_tlv_loop flex_algo_sub_tlv data 4 (None, None, None);
    Ok (set_flex_algo_defs
          (flex_algo_defs attr ++
           [mkFlexAlgoDef algo_id metric_type calc_type priority exclude_any include_any include_all])
          attr)
  else if (ty =? 1044) && (5 <=? n) then
    algo_id ← idx data 0; metric ← be_at 4 data 1;
    Ok (set_flex_algo_prefix_metrics
          (flex_algo_prefix_metrics attr ++ [mkFlexAlgoPrefixMetric algo_id metric]) attr)
  else Ok (set_unknown_tlvs (unknown_tlvs attr ++ [(ty, data)]) attr).

Definition parse_bgpls_attribute (buf : bytes) : Result BgpLsAttribute :=
  pos_tlv_loop bgpls_attribute_tlv buf 0 bgpls_attribute_default.

(** ** Safety *)

Section LsAttrSafety.
Context (pn : Prop).

Lemma wp_srgb data : 2 <= blen data ->
  wp pn (loop (S (length data)) (srgb_step data) (2, [])) (fun _ => True).
Proof.
  intros. apply wp_loop_pos; [lia|]. intros i acc Hi. unfold srgb_step.
  repeat wp_step; try done. simpl. lia.
Qed.

Lemma wp_srlb data : 2 <= blen data ->
  wp pn (loop (S (length data)) (srlb_step data) (2, [])) (fun _ => True).
Proof.
  intros. apply wp_loop_pos; [lia|]. intros i acc Hi. unfold srlb_step.
  repeat wp_step; try done; simpl; lia.
Qed.

Lemma wp_srlg data acc : wp pn (loop (S (length data)) (srlg_step data) (0, acc)) (fun _ => True).
Proof.
  apply wp_loop_pos; [pose proof (blen_nonneg data); lia|]. intros i acc' Hi. unfold srlg_step.
  repeat wp_step; try done. simpl. lia.
Qed.

Lemma wp_flex_algo data : 4 <= blen data ->
  wp pn (pos_tlv_loop flex_algo_sub_tlv data 4 (None, None, None)) (fun _ => True).
Proof.
  intros. apply wp_pos_tlv_loop; [lia|done|]. intros ty v [[a b] c] _ _. unfold flex_algo_sub_tlv.
  repeat wp_step; done.
Qed.

Lemma wp_unreserved_bw data acc : blen data = 32 ->
  wp (E := Error) pn (for_each [0; 1; 2; 3; 4; 5; 6; 7]
        (fun i acc => v ← be_at 4 data (i * 4); Ok (acc ++ [v])) acc) (fun _ => True).
Proof.
  intros Hd. apply wp_for_each; [done|]. intros i s Hi _.
  assert (0 <= i <= 7) by (repeat (apply elem_of_cons in Hi as [->|Hi]; [lia|]); by apply elem_of_nil in Hi). repeat wp_step. done.
Qed.

Lemma wp_parse_bgpls_attribute buf : wp pn (parse_bgpls_attribute buf) (fun _ => True).
Proof.
  apply wp_pos_tlv_loop; [pose proof (blen_nonneg buf); lia|done|].
  intros ty data attr _ _. unfold bgpls_attribute_tlv, igp_metric. cbn zeta.
  repeat (apply wp_guard; [intros ?|]).
  all: repeat first
    [ wp_step
    | eapply wp_mono; [apply wp_srgb; lia|intros ? _]
    | eapply wp_mono; [apply wp_srlb; lia|intros ? _]
    | eapply wp_mono; [apply wp_srlg|intros ? _]
    | eapply wp_mono; [apply wp_flex_algo; lia|intros ? _]
    | eapply wp_mono; [apply wp_unreserved_bw; lia|intros ? _] ]; done.
Qed.

End LsAttrSafety.

Section LsNlriSafety.
Context `{BytesBuf} `{IpNetCrate} (pn : Prop).

Lemma wp_decode_node_sub_tlvs buf nd : wp pn (decode_node_sub_tlvs buf nd) (fun _ => True).
Proof.
  apply wp_cursor_tlv_loop; [done|]. intros ty v s _. unfold node_sub_tlv. repeat wp_step; done.
Qed.

Lemma wp_decode_node_descriptor buf : wp pn (decode_node_descriptor buf) (fun _ => True).
Proof.
  unfold decode_node_descriptor. cbn zeta. repeat buf_step; try done. apply wp_decode_node_sub_tlvs.
Qed.

Lemma wp_decode_link_nlri p id buf : wp pn (decode_link_nlri p id buf) (fun _ => True).
Proof.
  apply wp_bind. eapply wp_mono; [apply (wp_cursor_tlv_loop _ (fun _ => True)); [done|]|done].
  intros ty v [l r [la ra li ri]] _. unfold link_tlv.
  repeat first [wp_step | eapply wp_mono; [apply wp_decode_node_sub_tlvs|intros ? _]]; done.
Qed.

Lemma wp_decode_srv6_sid_nlri p id buf : wp pn (decode_srv6_sid_nlri p id buf) (fun _ => True).
Proof.
  apply wp_bind. eapply wp_mono; [apply wp_decode_node_descriptor|]. intros nd _.
  apply wp_bind. apply (wp_mono _ _ (fun n => 0 <= n)).
  - repeat wp_step; pose proof (blen_nonneg buf); simpl; blen_simpl; lia.
  - intros n Hn. apply wp_bind, wp_copy_to_bytes; [pose proof (blen_nonneg buf); lia|lia|].
    intros _ cur _ _ _. apply wp_bind.
    eapply wp_mono; [apply (wp_cursor_tlv_loop _ (fun _ => True)); [done|]|].
    + intros ty v st _. unfold srv6_tlv. wp_core; [|done]. apply wp_bind. wp_step. apply wp_bind.
      eapply wp_mono; [apply (wp_pos_tlv_loop _ (fun _ => True)); [lia|done|]|done].
      intros ty' v' [b s] _ _. unfold srv6_sub_tlv. repeat wp_step; done.
    + by intros [sid [b s]] _.
Qed.

(** Only the prefix NLRI can panic. *)
Hypothesis Hpn : pn.

Lemma wp_default_prefix is_v6 : wp pn (default_prefix is_v6) (fun _ => True).
Proof.
  unfold default_prefix. destruct is_v6; rewrite ?ipv4net_new_spec, ?ipv6net_new_spec; exact I.
Qed.

Lemma wp_decode_prefix_nlri p id buf is_v6 :
  wp pn (decode_prefix_nlri p id buf is_v6) (fun _ => True).
Proof.
  apply wp_bind.
  eapply wp_mono; [apply (wp_cursor_tlv_loop _ (fun _ => True)); [done|]|].
  - intros ty v [n po] _. unfold prefix_tlv. wp_core.
    + apply wp_bind. eapply wp_mono; [apply wp_decode_node_sub_tlvs|done].
    + wp_core; [|done]. apply wp_bind. wp_step. cbn zeta. wp_core; [|done].
      pose proof (div_ceil8_bounds v0 ltac:(lia)). apply wp_bind. wp_step.
      wp_core; apply wp_bind, wp_copy_into_zeroed; done.
  - intros [n po] _. apply wp_bind. eapply wp_mono; [apply wp_default_prefix|done].
Qed.

Lemma wp_decode_one ty buf : wp pn (decode_one ty buf) (fun _ => True).
Proof.
  unfold decode_one. wp_core; [done|]. apply wp_bind. wp_step. cbn zeta. apply wp_bind. wp_step.
  apply wp_bind. wp_step. wp_core; [|apply wp_decode_link_nlri|apply wp_decode_prefix_nlri
    |apply wp_decode_prefix_nlri|apply wp_decode_srv6_sid_nlri|done].
  apply wp_bind. eapply wp_mono; [apply wp_decode_node_descriptor|done].
Qed.

Lemma wp_decode_bgpls_nlri buf : wp pn (decode_bgpls_nlri buf) (fun _ => True).
Proof.
  apply (wp_loop _ (fun _ => True) (fun st => length st.1)); [done|simpl; lia|].
  intros [c acc] _. unfold decode_bgpls_nlri_step. wp_core; [|done].
  apply wp_bind. buf_step. apply wp_bind. buf_step. wp_core; [done|]. apply wp_bind. buf_step.
  apply wp_bind. eapply wp_mono; [apply wp_decode_one|]. intros ? _. apply wp_ok.
  split; [done|]. rewrite !length_blen. simpl. lia.
Qed.

Lemma wp_decode_bgpls_reach nh buf : wp pn (decode_bgpls_reach nh buf) (fun _ => True).
Proof. apply wp_bind. eapply wp_mono; [apply wp_decode_bgpls_nlri|done]. Qed.

Lemma wp_decode_bgpls_unreach buf : wp pn (decode_bgpls_unreach buf) (fun _ => True).
Proof. apply wp_bind. eapply wp_mono; [apply wp_decode_bgpls_nlri|done]. Qed.

End LsNlriSafety.

#[export] Hint Resolve wp_parse_bgpls_attribute wp_decode_bgpls_reach wp_decode_bgpls_unreach : wp.

(** ** What the attribute parser does with a stream *)

(** The BGP-LS attribute of any well-formed TLV stream (and a tail
    too short for a header) is the default attribute updated by each TLV in
    turn, so a later TLV of a type overwrites or extends an earlier one and no
    TLV is skipped. *)
Theorem parse_bgpls_attribute_tlvs ts tail :
  Forall tlv_wf ts -> blen tail < 4 ->
  parse_bgpls_attribute (encode_tlvs ts ++ tail) =
    for_each ts (fun t => bgpls_attribute_tlv (tlv_type t) (tlv_value t)) bgpls_attribute_default.
Proof. apply pos_tlv_loop_tlvs. Qed.

Lemma parse_bgpls_attribute_tlvs_witness :
  Forall tlv_wf [mkTlv 1088 (bs [0; 0; 0; 7]); mkTlv 9999 (bs [1])] /\
  admin_group <$> parse_bgpls_attribute (bs [4; 64; 0; 4; 0; 0; 0; 7; 39; 15; 0; 1; 1; 0; 0]) = Ok (Some 7).
Proof.
  assert (Forall tlv_wf [mkTlv 1088 (bs [0; 0; 0; 7]); mkTlv 9999 (bs [1])]) as Hwf
    by by repeat constructor.
  split; [exact Hwf|].
  pose proof (parse_bgpls_attribute_tlvs [mkTlv 1088 (bs [0; 0; 0; 7]); mkTlv 9999 (bs [1])]
                (bs [0; 0]) Hwf eq_refl) as Ht.
  change (encode_tlvs _ ++ _) with (bs [4; 64; 0; 4; 0; 0; 0; 7; 39; 15; 0; 1; 1; 0; 0]) in Ht.
  rewrite Ht. reflexivity.
Defined.
