(* ===== verification/BgpAttributes.v ===== *)
(** * Path attributes ([crates/rbmp-core/src/bgp/attributes.rs])

    The attribute loop of an UPDATE, the AS_PATH and AS4_PATH decoders and
    their reconciliation, MP_REACH and MP_UNREACH for every family, tunnel
    encapsulation and BGPsec. *)

From Stdlib Require Import ZArith Lia ZifyBool String.
From stdpp Require Import base numbers list option strings gmap.
From S2P Require Import Prelude RustStd Crates CoreError Tlv BgpTypes PathStatusTlv.
From S2P Require Import Evpn Flowspec SrPolicy Srv6 Nlri BgpLs.

Local Open Scope Z_scope.

(** ** Data ([types.rs]) *)

Record EvpnReachNlri := mkEvpnReach { evr_next_hops : list IpAddr; evr_routes : list EvpnRoute }.
Record EvpnUnreachNlri := mkEvpnUnreach { evu_routes : list EvpnRoute }.

Record TunnelEncapEntry := mkTunnelEncapEntry {
  tunnel_type : Z;
  tunnel_type_label : string;
  tunnel_endpoint : option IpAddr;
  tunnel_color : option Z;
}.

Definition tunnel_type_name (t : Z) : string :=
  match t with
  | 1 => "l2tpv3-over-ip"
  | 2 => "gre"
  | 3 => "transmit-tunnel-endpoint"
  | 4 => "ipsec-in-tunnel-mode"
  | 5 => "ip-in-ip-with-ipsec"
  | 6 => "mpls-in-ip-with-ipsec"
  | 7 => "ip-in-ip"
  | 8 => "vxlan"
  | 9 => "nvgre"
  | 10 => "mpls"
  | 11 => "mpls-in-gre"
  | 12 => "vxlan-gpe"
  | 13 => "mpls-in-udp"
  | 14 => "ipv6-tunnel"
  | 15 => "sr-mpls"
  | 16 => "geneve"
  | 17 => "endpoint"
  | 23 => "srv6"
  | _ => "unknown"
  end.

Record RawAttribute := mkRawAttribute { raw_flags : Z; raw_type_code : Z; raw_value : bytes }.

Record MpReachNlri := mkMpReach {
  mpr_afi_safi : AfiSafi;
  mpr_next_hops : list IpAddr;
  mpr_prefixes : list Prefix;
  mpr_path_ids : list (option Z);
}.

Record MpUnreachNlri := mkMpUnreach {
  mpu_afi_safi : AfiSafi;
  mpu_prefixes : list Prefix;
  mpu_path_ids : list (option Z);
}.

(** [BgpsecPath] of [attributes.rs] *)
Record BgpsecPath := mkBgpsecPath {
  signing_asns : list Z;
  sig_block_count : Z;
  bgpsec_raw : bytes;
}.

Record PathAttributes := mkPathAttributes {
  origin : option Origin;
  as_path : option AsPath;
  next_hop : option IpAddr;
  multi_exit_disc : option Z;
  local_pref : option Z;
  atomic_aggregate : bool;
  aggregator : option (Z * Ipv4Addr);
  communities : list StandardCommunity;
  extended_communities : list ExtendedCommunity;
  large_communities : list LargeCommunity;
  originator_id : option Ipv4Addr;
  cluster_list : list Ipv4Addr;
  mp_reach : option MpReachNlri;
  mp_unreach : option MpUnreachNlri;
  as4_path : option AsPath;
  as4_aggregator : option (Z * Ipv4Addr);
  evpn_reach : option EvpnReachNlri;
  evpn_unreach : option EvpnUnreachNlri;
  flowspec_reach : option (list FlowspecNlri);
  flowspec_unreach : option (list FlowspecNlri);
  prefix_sid : option PrefixSid;
  tunnel_encap : option (list TunnelEncapEntry);
  only_to_customer : option Z;
  bgpls_reach : option BgpLsReachNlri;
  bgpls_unreach : option BgpLsUnreachNlri;
  bgpls_attr : option BgpLsAttribute;
  sr_policy_nlris : list SrPolicyNlri;
  sr_policy_paths : list CandidatePath;
  rtc_nlris : list RtcNlri;
  bgpsec_path : option BgpsecPath;
  path_status : option PathStatusTlv;
  unknown : list RawAttribute;
}.

(** [PathAttributes::default()] *)
Definition path_attributes_default : PathAttributes :=
  mkPathAttributes None None None None None false None [] [] [] None [] None None None None None None None None None None None None None None [] [] [] None None [].

(** Assignments to one field ([attrs.f = v]). *)
Definition set_origin (v : option Origin) (a : PathAttributes) : PathAttributes :=
  let '(mkPathAttributes _ x1 x2 x3 x4 x5 x6 x7 x8 x9 x10 x11 x12 x13 x14 x15 x16 x17 x18 x19 x20 x21 x22 x23 x24 x25 x26 x27 x28 x29 x30 x31) := a in
  mkPathAttributes v x1 x2 x3 x4 x5 x6 x7 x8 x9 x10 x11 x12 x13 x14 x15 x16 x17 x18 x19 x20 x21 x22 x23 x24 x25 x26 x27 x28 x29 x30 x31.
Definition set_as_path (v : option AsPath) (a : PathAttributes) : PathAttributes :=
  let '(mkPathAttributes x0 _ x2 x3 x4 x5 x6 x7 x8 x9 x10 x11 x12 x13 x14 x15 x16 x17 x18 x19 x20 x21 x22 x23 x24 x25 x26 x27 x28 x29 x30 x31) := a in
  mkPathAttributes x0 v x2 x3 x4 x5 x6 x7 x8 x9 x10 x11 x12 x13 x14 x15 x16 x17 x18 x19 x20 x21 x22 x23 x24 x25 x26 x27 x28 x29 x30 x31.
Definition set_next_hop (v : option IpAddr) (a : PathAttributes) : PathAttributes :=
  let '(mkPathAttributes x0 x1 _ x3 x4 x5 x6 x7 x8 x9 x10 x11 x12 x13 x14 x15 x16 x17 x18 x19 x20 x21 x22 x23 x24 x25 x26 x27 x28 x29 x30 x31) := a in
  mkPathAttributes x0 x1 v x3 x4 x5 x6 x7 x8 x9 x10 x11 x12 x13 x14 x15 x16 x17 x18 x19 x20 x21 x22 x23 x24 x25 x26 x27 x28 x29 x30 x31.
Definition set_multi_exit_disc (v : option Z) (a : PathAttributes) : PathAttributes :=
  let '(mkPathAttributes x0 x1 x2 _ x4 x5 x6 x7 x8 x9 x10 x11 x12 x13 x14 x15 x16 x17 x18 x19 x20 x21 x22 x23 x24 x25 x26 x27 x28 x29 x30 x31) := a in
  mkPathAttributes x0 x1 x2 v x4 x5 x6 x7 x8 x9 x10 x11 x12 x13 x14 x15 x16 x17 x18 x19 x20 x21 x22 x23 x24 x25 x26 x27 x28 x29 x30 x31.
Definition set_local_pref (v : option Z) (a : PathAttributes) : PathAttributes :=
  let '(mkPathAttributes x0 x1 x2 x3 _ x5 x6 x7 x8 x9 x10 x11 x12 x13 x14 x15 x16 x17 x18 x19 x20 x21 x22 x23 x24 x25 x26 x27 x28 x29 x30 x31) := a in
  mkPathAttributes x0 x1 x2 x3 v x5 x6 x7 x8 x9 x10 x11 x12 x13 x14 x15 x16 x17 x18 x19 x20 x21 x22 x23 x24 x25 x26 x27 x28 x29 x30 x31.
Definition set_atomic_aggregate (v : bool) (a : PathAttributes) : PathAttributes :=
  let '(mkPathAttributes x0 x1 x2 x3 x4 _ x6 x7 x8 x9 x10 x11 x12 x13 x14 x15 x16 x17 x18 x19 x20 x21 x22 x23 x24 x25 x26 x27 x28 x29 x30 x31) := a in
  mkPathAttributes x0 x1 x2 x3 x4 v x6 x7 x8 x9 x10 x11 x12 x13 x14 x15 x16 x17 x18 x19 x20 x21 x22 x23 x24 x25 x26 x27 x28 x29 x30 x31.
Definition set_aggregator (v : option (Z * Ipv4Addr)) (a : PathAttributes) : PathAttributes :=
  let '(mkPathAttributes x0 x1 x2 x3 x4 x5 _ x7 x8 x9 x10 x11 x12 x13 x14 x15 x16 x17 x18 x19 x20 x21 x22 x23 x24 x25 x26 x27 x28 x29 x30 x31) := a in
  mkPathAttributes x0 x1 x2 x3 x4 x5 v x7 x8 x9 x10 x11 x12 x13 x14 x15 x16 x17 x18 x19 x20 x21 x22 x23 x24 x25 x26 x27 x28 x29 x30 x31.
Definition set_communities (v : list StandardCommunity) (a : PathAttributes) : PathAttributes :=
  let '(mkPathAttributes x0 x1 x2 x3 x4 x5 x6 _ x8 x9 x10 x11 x12 x13 x14 x15 x16 x17 x18 x19 x20 x21 x22 x23 x24 x25 x26 x27 x28 x29 x30 x31) := a in
  mkPathAttributes x0 x1 x2 x3 x4 x5 x6 v x8 x9 x10 x11 x12 x13 x14 x15 x16 x17 x18 x19 x20 x21 x22 x23 x24 x25 x26 x27 x28 x29 x30 x31.
Definition set_extended_communities (v : list ExtendedCommunity) (a : PathAttributes) : PathAttributes :=
  let '(mkPathAttributes x0 x1 x2 x3 x4 x5 x6 x7 _ x9 x10 x11 x12 x13 x14 x15 x16 x17 x18 x19 x20 x21 x22 x23 x24 x25 x26 x27 x28 x29 x30 x31) := a in
  mkPathAttributes x0 x1 x2 x3 x4 x5 x6 x7 v x9 x10 x11 x12 x13 x14 x15 x16 x17 x18 x19 x20 x21 x22 x23 x24 x25 x26 x27 x28 x29 x30 x31.
Definition set_large_communities (v : list LargeCommunity) (a : PathAttributes) : PathAttributes :=
  let '(mkPathAttributes x0 x1 x2 x3 x4 x5 x6 x7 x8 _ x10 x11 x12 x13 x14 x15 x16 x17 x18 x19 x20 x21 x22 x23 x24 x25 x26 x27 x28 x29 x30 x31) := a in
  mkPathAttributes x0 x1 x2 x3 x4 x5 x6 x7 x8 v x10 x11 x12 x13 x14 x15 x16 x17 x18 x19 x20 x21 x22 x23 x24 x25 x26 x27 x28 x29 x30 x31.
Definition set_originator_id (v : option Ipv4Addr) (a : PathAttributes) : PathAttributes :=
  let '(mkPathAttributes x0 x1 x2 x3 x4 x5 x6 x7 x8 x9 _ x11 x12 x13 x14 x15 x16 x17 x18 x19 x20 x21 x22 x23 x24 x25 x26 x27 x28 x29 x30 x31) := a in
  mkPathAttributes x0 x1 x2 x3 x4 x5 x6 x7 x8 x9 v x11 x12 x13 x14 x15 x16 x17 x18 x19 x20 x21 x22 x23 x24 x25 x26 x27 x28 x29 x30 x31.
Definition set_cluster_list (v : list Ipv4Addr) (a : PathAttributes) : PathAttributes :=
  let '(mkPathAttributes x0 x1 x2 x3 x4 x5 x6 x7 x8 x9 x10 _ x12 x13 x14 x15 x16 x17 x18 x19 x20 x21 x22 x23 x24 x25 x26 x27 x28 x29 x30 x31) := a in
  mkPathAttributes x0 x1 x2 x3 x4 x5 x6 x7 x8 x9 x10 v x12 x13 x14 x15 x16 x17 x18 x19 x20 x21 x22 x23 x24 x25 x26 x27 x28 x29 x30 x31.
Definition set_mp_reach (v : option MpReachNlri) (a : PathAttributes) : PathAttributes :=
  let '(mkPathAttributes x0 x1 x2 x3 x4 x5 x6 x7 x8 x9 x10 x11 _ x13 x14 x15 x16 x17 x18 x19 x20 x21 x22 x23 x24 x25 x26 x27 x28 x29 x30 x31) := a in
  mkPathAttributes x0 x1 x2 x3 x4 x5 x6 x7 x8 x9 x10 x11 v x13 x14 x15 x16 x17 x18 x19 x20 x21 x22 x23 x24 x25 x26 x27 x28 x29 x30 x31.
Definition set_mp_unreach (v : option MpUnreachNlri) (a : PathAttributes) : PathAttributes :=
  let '(mkPathAttributes x0 x1 x2 x3 x4 x5 x6 x7 x8 x9 x10 x11 x12 _ x14 x15 x16 x17 x18 x19 x20 x21 x22 x23 x24 x25 x26 x27 x28 x29 x30 x31) := a in
  mkPathAttributes x0 x1 x2 x3 x4 x5 x6 x7 x8 x9 x10 x11 x12 v x14 x15 x16 x17 x18 x19 x20 x21 x22 x23 x24 x25 x26 x27 x28 x29 x30 x31.
Definition set_as4_path (v : option AsPath) (a : PathAttributes) : PathAttributes :=
  let '(mkPathAttributes x0 x1 x2 x3 x4 x5 x6 x7 x8 x9 x10 x11 x12 x13 _ x15 x16 x17 x18 x19 x20 x21 x22 x23 x24 x25 x26 x27 x28 x29 x30 x31) := a in
  mkPathAttributes x0 x1 x2 x3 x4 x5 x6 x7 x8 x9 x10 x11 x12 x13 v x15 x16 x17 x18 x19 x20 x21 x22 x23 x24 x25 x26 x27 x28 x29 x30 x31.
Definition set_as4_aggregator (v : option (Z * Ipv4Addr)) (a : PathAttributes) : PathAttributes :=
  let '(mkPathAttributes x0 x1 x2 x3 x4 x5 x6 x7 x8 x9 x10 x11 x12 x13 x14 _ x16 x17 x18 x19 x20 x21 x22 x23 x24 x25 x26 x27 x28 x29 x30 x31) := a in
  mkPathAttributes x0 x1 x2 x3 x4 x5 x6 x7 x8 x9 x10 x11 x12 x13 x14 v x16 x17 x18 x19 x20 x21 x22 x23 x24 x25 x26 x27 x28 x29 x30 x31.
Definition set_evpn_reach (v : option EvpnReachNlri) (a : PathAttributes) : PathAttributes :=
  let '(mkPathAttributes x0 x1 x2 x3 x4 x5 x6 x7 x8 x9 x10 x11 x12 x13 x14 x15 _ x17 x18 x19 x20 x21 x22 x23 x24 x25 x26 x27 x28 x29 x30 x31) := a in
  mkPathAttributes x0 x1 x2 x3 x4 x5 x6 x7 x8 x9 x10 x11 x12 x13 x14 x15 v x17 x18 x19 x20 x21 x22 x23 x24 x25 x26 x27 x28 x29 x30 x31.
Definition set_evpn_unreach (v : option EvpnUnreachNlri) (a : PathAttributes) : PathAttributes :=
  let '(mkPathAttributes x0 x1 x2 x3 x4 x5 x6 x7 x8 x9 x10 x11 x12 x13 x14 x15 x16 _ x18 x19 x20 x21 x22 x23 x24 x25 x26 x27 x28 x29 x30 x31) := a in
  mkPathAttributes x0 x1 x2 x3 x4 x5 x6 x7 x8 x9 x10 x11 x12 x13 x14 x15 x16 v x18 x19 x20 x21 x22 x23 x24 x25 x26 x27 x28 x29 x30 x31.
Definition set_flowspec_reach (v : option (list FlowspecNlri)) (a : PathAttributes) : PathAttributes :=
  let '(mkPathAttributes x0 x1 x2 x3 x4 x5 x6 x7 x8 x9 x10 x11 x12 x13 x14 x15 x16 x17 _ x19 x20 x21 x22 x23 x24 x25 x26 x27 x28 x29 x30 x31) := a in
  mkPathAttributes x0 x1 x2 x3 x4 x5 x6 x7 x8 x9 x10 x11 x12 x13 x14 x15 x16 x17 v x19 x20 x21 x22 x23 x24 x25 x26 x27 x28 x29 x30 x31.
Definition set_flowspec_unreach (v : option (list FlowspecNlri)) (a : PathAttributes) : PathAttributes :=
  let '(mkPathAttributes x0 x1 x2 x3 x4 x5 x6 x7 x8 x9 x10 x11 x12 x13 x14 x15 x16 x17 x18 _ x20 x21 x22 x23 x24 x25 x26 x27 x28 x29 x30 x31) := a in
  mkPathAttributes x0 x1 x2 x3 x4 x5 x6 x7 x8 x9 x10 x11 x12 x13 x14 x15 x16 x17 x18 v x20 x21 x22 x23 x24 x25 x26 x27 x28 x29 x30 x31.
Definition set_prefix_sid (v : option PrefixSid) (a : PathAttributes) : PathAttributes :=
  let '(mkPathAttributes x0 x1 x2 x3 x4 x5 x6 x7 x8 x9 x10 x11 x12 x13 x14 x15 x16 x17 x18 x19 _ x21 x22 x23 x24 x25 x26 x27 x28 x29 x30 x31) := a in
  mkPathAttributes x0 x1 x2 x3 x4 x5 x6 x7 x8 x9 x10 x11 x12 x13 x14 x15 x16 x17 x18 x19 v x21 x22 x23 x24 x25 x26 x27 x28 x29 x30 x31.
Definition set_tunnel_encap (v : option (list TunnelEncapEntry)) (a : PathAttributes) : PathAttributes :=
  let '(mkPathAttributes x0 x1 x2 x3 x4 x5 x6 x7 x8 x9 x10 x11 x12 x13 x14 x15 x16 x17 x18 x19 x20 _ x22 x23 x24 x25 x26 x27 x28 x29 x30 x31) := a in
  mkPathAttributes x0 x1 x2 x3 x4 x5 x6 x7 x8 x9 x10 x11 x12 x13 x14 x15 x16 x17 x18 x19 x20 v x22 x23 x24 x25 x26 x27 x28 x29 x30 x31.
Definition set_only_to_customer (v : option Z) (a : PathAttributes) : PathAttributes :=
  let '(mkPathAttributes x0 x1 x2 x3 x4 x5 x6 x7 x8 x9 x10 x11 x12 x13 x14 x15 x16 x17 x18 x19 x20 x21 _ x23 x24 x25 x26 x27 x28 x29 x30 x31) := a in
  mkPathAttributes x0 x1 x2 x3 x4 x5 x6 x7 x8 x9 x10 x11 x12 x13 x14 x15 x16 x17 x18 x19 x20 x21 v x23 x24 x25 x26 x27 x28 x29 x30 x31.
Definition set_bgpls_reach (v : option BgpLsReachNlri) (a : PathAttributes) : PathAttributes :=
  let '(mkPathAttributes x0 x1 x2 x3 x4 x5 x6 x7 x8 x9 x10 x11 x12 x13 x14 x15 x16 x17 x18 x19 x20 x21 x22 _ x24 x25 x26 x27 x28 x29 x30 x31) := a in
  mkPathAttributes x0 x1 x2 x3 x4 x5 x6 x7 x8 x9 x10 x11 x12 x13 x14 x15 x16 x17 x18 x19 x20 x21 x22 v x24 x25 x26 x27 x28 x29 x30 x31.
Definition set_bgpls_unreach (v : option BgpLsUnreachNlri) (a : PathAttributes) : PathAttributes :=
  let '(mkPathAttributes x0 x1 x2 x3 x4 x5 x6 x7 x8 x9 x10 x11 x12 x13 x14 x15 x16 x17 x18 x19 x20 x21 x22 x23 _ x25 x26 x27 x28 x29 x30 x31) := a in
  mkPathAttributes x0 x1 x2 x3 x4 x5 x6 x7 x8 x9 x10 x11 x12 x13 x14 x15 x16 x17 x18 x19 x20 x21 x22 x23 v x25 x26 x27 x28 x29 x30 x31.
Definition set_bgpls_attr (v : option BgpLsAttribute) (a : PathAttributes) : PathAttributes :=
  let '(mkPathAttributes x0 x1 x2 x3 x4 x5 x6 x7 x8 x9 x10 x11 x12 x13 x14 x15 x16 x17 x18 x19 x20 x21 x22 x23 x24 _ x26 x27 x28 x29 x30 x31) := a in
  mkPathAttributes x0 x1 x2 x3 x4 x5 x6 x7 x8 x9 x10 x11 x12 x13 x14 x15 x16 x17 x18 x19 x20 x21 x22 x23 x24 v x26 x27 x28 x29 x30 x31.
Definition set_sr_policy_nlris (v : list SrPolicyNlri) (a : PathAttributes) : PathAttributes :=
  let '(mkPathAttributes x0 x1 x2 x3 x4 x5 x6 x7 x8 x9 x10 x11 x12 x13 x14 x15 x16 x17 x18 x19 x20 x21 x22 x23 x24 x25 _ x27 x28 x29 x30 x31) := a in
  mkPathAttributes x0 x1 x2 x3 x4 x5 x6 x7 x8 x9 x10 x11 x12 x13 x14 x15 x16 x17 x18 x19 x20 x21 x22 x23 x24 x25 v x27 x28 x29 x30 x31.
Definition set_sr_policy_paths (v : list CandidatePath) (a : PathAttributes) : PathAttributes :=
  let '(mkPathAttributes x0 x1 x2 x3 x4 x5 x6 x7 x8 x9 x10 x11 x12 x13 x14 x15 x16 x17 x18 x19 x20 x21 x22 x23 x24 x25 x26 _ x28 x29 x30 x31) := a in
  mkPathAttributes x0 x1 x2 x3 x4 x5 x6 x7 x8 x9 x10 x11 x12 x13 x14 x15 x16 x17 x18 x19 x20 x21 x22 x23 x24 x25 x26 v x28 x29 x30 x31.
Definition set_rtc_nlris (v : list RtcNlri) (a : PathAttributes) : PathAttributes :=
  let '(mkPathAttributes x0 x1 x2 x3 x4 x5 x6 x7 x8 x9 x10 x11 x12 x13 x14 x15 x16 x17 x18 x19 x20 x21 x22 x23 x24 x25 x26 x27 _ x29 x30 x31) := a in
  mkPathAttributes x0 x1 x2 x3 x4 x5 x6 x7 x8 x9 x10 x11 x12 x13 x14 x15 x16 x17 x18 x19 x20 x21 x22 x23 x24 x25 x26 x27 v x29 x30 x31.
Definition set_bgpsec_path (v : option BgpsecPath) (a : PathAttributes) : PathAttributes :=
  let '(mkPathAttributes x0 x1 x2 x3 x4 x5 x6 x7 x8 x9 x10 x11 x12 x13 x14 x15 x16 x17 x18 x19 x20 x21 x22 x23 x24 x25 x26 x27 x28 _ x30 x31) := a in
  mkPathAttributes x0 x1 x2 x3 x4 x5 x6 x7 x8 x9 x10 x11 x12 x13 x14 x15 x16 x17 x18 x19 x20 x21 x22 x23 x24 x25 x26 x27 x28 v x30 x31.
Definition set_path_status (v : option PathStatusTlv) (a : PathAttributes) : PathAttributes :=
  let '(mkPathAttributes x0 x1 x2 x3 x4 x5 x6 x7 x8 x9 x10 x11 x12 x13 x14 x15 x16 x17 x18 x19 x20 x21 x22 x23 x24 x25 x26 x27 x28 x29 _ x31) := a in
  mkPathAttributes x0 x1 x2 x3 x4 x5 x6 x7 x8 x9 x10 x11 x12 x13 x14 x15 x16 x17 x18 x19 x20 x21 x22 x23 x24 x25 x26 x27 x28 x29 v x31.
Definition set_unknown (v : list RawAttribute) (a : PathAttributes) : PathAttributes :=
  let '(mkPathAttributes x0 x1 x2 x3 x4 x5 x6 x7 x8 x9 x10 x11 x12 x13 x14 x15 x16 x17 x18 x19 x20 x21 x22 x23 x24 x25 x26 x27 x28 x29 x30 _) := a in
  mkPathAttributes x0 x1 x2 x3 x4 x5 x6 x7 x8 x9 x10 x11 x12 x13 x14 x15 x16 x17 x18 x19 x20 x21 x22 x23 x24 x25 x26 x27 x28 x29 x30 v.

Definition FLAG_EXT_LEN : Z := 0x10.
Definition AS_TRANS : Z := 23456.

(** ** AS paths *)

(** [r.or(Err(e))] *)
Definition or_else_err {A} (o : Result A) (e : Error) : Result A :=
  match o with Err _ => Err e | o => o end.

(** [for i in 0..seg_len]: the ASNs of a segment. *)
Definition read_asns (buf : bytes) (seg_len asn_size : Z) : Result (list Z) :=
  for_each (seqZ 0 seg_len)
    (fun i asns =>
       asn ← (if asn_size =? 4 then be_at 4 buf (i * 4) else be_at 2 buf (i * 2));
       Ok (asns ++ [asn])) [].

Definition make_segment (seg_type : Z) (asns : list Z) : Result AsPathSegment :=
  match seg_type with
  | 1 => Ok (Seg_Set asns)
  | 2 => Ok (Seg_Sequence asns)
  | 3 => Ok (Seg_ConfedSequence asns)
  | 4 => Ok (Seg_ConfedSet asns)
  | _ => Err (BgpParse ("unknown AS_PATH segment type " ++ fmt_dec seg_type))
  end.

(** One segment of [parse_as_path_with_asn_size]. *)
Definition parse_as_path_step (asn_size : Z) (st : bytes * list AsPathSegment)
    : Result ((bytes * list AsPathSegment) + list AsPathSegment) :=
  let '(buf, segments) := st in
  if negb (blen buf =? 0) then
    if blen buf <? 2 then Err (UnexpectedEof 2 (blen buf))
    else
      seg_type ← idx buf 0;
      seg_len ← idx buf 1;
      buf ← slice_from buf 2;
      let needed := seg_len * asn_size in
      if blen buf <? needed then Err (UnexpectedEof needed (blen buf))
      else
        asns ← read_asns buf seg_len asn_size;
        buf ← slice_from buf needed;
        seg ← make_segment seg_type asns;
        Ok (inl (buf, segments ++ [seg]))
  else Ok (inr segments).

Definition parse_as_path_with_asn_size (buf : bytes) (asn_size : Z) : Result AsPath :=
  segments ← loop (S (length buf)) (parse_as_path_step asn_size) (buf, []);
  Ok (mkAsPath segments).

(** [parse_as_path]: the expected width first, then the other; if both fail,
    the first error. *)
Definition parse_as_path (buf : bytes) (four_byte : bool) : Result AsPath :=
  if four_byte then
    match parse_as_path_with_asn_size buf 4 with
    | Err original_err => or_else_err (parse_as_path_with_asn_size buf 2) original_err
    | o => o
    end
  else
    match parse_as_path_with_asn_size buf 2 with
    | Err original_err => or_else_err (parse_as_path_with_asn_size buf 4) original_err
    | o => o
    end.

Definition is_confed (seg : AsPathSegment) : bool :=
  match seg with Seg_ConfedSequence _ | Seg_ConfedSet _ => true | _ => false end.

(** [iter().map(|s| s.asns().len()).sum()] *)
Definition asn_count (segs : list AsPathSegment) : nat :=
  foldr (fun seg n => (length (seg_asns seg) + n)%nat) 0%nat segs.

(** The segment with other ASNs. *)
Definition with_asns (seg : AsPathSegment) (asns : list Z) : AsPathSegment :=
  match seg with
  | Seg_Set _ => Seg_Set asns
  | Seg_Sequence _ => Seg_Sequence asns
  | Seg_ConfedSequence _ => Seg_ConfedSequence asns
  | Seg_ConfedSet _ => Seg_ConfedSet asns
  end.

(** The first loop of [reconstruct_as_path]: the leading [keep] ASNs. *)
Fixpoint keep_leading (keep : nat) (segs : list AsPathSegment) : list AsPathSegment :=
  match segs with
  | [] => []
  | seg :: segs' =>
      if (keep =? 0)%nat then []
      else
        let asns := seg_asns seg in
        let n := (keep `min` length asns)%nat in
        let piece := take n asns in
        (if (length piece =? 0)%nat then [] else [with_asns seg piece])
          ++ keep_leading (keep - n) segs'
  end.

(** The second loop: a sequence that follows a sequence extends it. *)
Definition push_segment (out : list AsPathSegment) (seg : AsPathSegment) : list AsPathSegment :=
  match list.last out, seg with
  | Some (Seg_Sequence prev), Seg_Sequence next =>
      take (length out - 1) out ++ [Seg_Sequence (prev ++ next)]
  | _, other => out ++ [other]
  end.

Definition reconstruct_as_path (as_path as4_path : AsPath) : AsPath :=
  let as4_segments := filter (fun seg => is_confed seg = false) (as_segments as4_path) in
  let n_as := asn_count (as_segments as_path) in
  let n_as4 := asn_count as4_segments in
  if ((n_as4 =? 0) || (n_as <? n_as4))%nat then as_path
  else
    let keep := (n_as - n_as4)%nat in
    let out := keep_leading keep (as_segments as_path) in
    mkAsPath (foldl push_segment out as4_segments).

(** ** Tunnel encapsulation and BGPsec *)

Definition parse_tunnel_subtlvs_step (buf : bytes) (st : Z * (option IpAddr * option Z))
    : Result ((Z * (option IpAddr * option Z)) + (option IpAddr * option Z)) :=
  let '(pos, (endpoint, color)) := st in
  if pos + 2 <=? blen buf then
    sub_type ← idx buf pos;
    sub_len ← idx buf (pos + 1);
    let pos := pos + 2 in
    if blen buf <? pos + sub_len then Ok (inr (endpoint, color))
    else
      data ← slice buf pos (pos + sub_len);
      let pos := pos + sub_len in
      if (sub_type =? 1) && (blen data =? 4) then
        a ← slice data 0 4; Ok (inl (pos, (Some (IpAddr_V4 a), color)))
      else if (sub_type =? 1) && (blen data =? 16) then
        a ← slice data 0 16; Ok (inl (pos, (Some (IpAddr_V6 a), color)))
      else if (sub_type =? 9) && (4 <=? blen data) && (6 <=? blen data) then
        c ← be_at 4 data 2; Ok (inl (pos, (endpoint, Some c)))
      else Ok (inl (pos, (endpoint, color)))
  else Ok (inr (endpoint, color)).

Definition parse_tunnel_subtlvs (buf : bytes) : Result (option IpAddr * option Z) :=
  loop (S (length buf)) (parse_tunnel_subtlvs_step buf) (0, (None, None)).

(** The body of the loop of [parse_tunnel_encap] on one TLV. *)
Definition tunnel_encap_tlv (tunnel_type : Z) (sub_buf : bytes) (entries : list TunnelEncapEntry)
    : Result (list TunnelEncapEntry) :=
  '(endpoint, color) ← parse_tunnel_subtlvs sub_buf;
  Ok (entries ++ [mkTunnelEncapEntry tunnel_type (tunnel_type_name tunnel_type) endpoint color]).

Definition parse_tunnel_encap (buf : bytes) : Result (list TunnelEncapEntry) :=
  pos_tlv_loop tunnel_encap_tlv buf 0 [].

(** The Secure_Path loop: pCount(1), flags(1), ASN(4). *)
Definition secure_path_step (buf : bytes) (secure_path_end : Z) (st : Z * list Z)
    : Result ((Z * list Z) + list Z) :=
  let '(pos, asns) := st in
  if pos + 6 <=? secure_path_end then
    _pcount ← idx buf pos;
    _flags ← idx buf (pos + 1);
    asn ← be_at 4 buf (pos + 2);
    Ok (inl (pos + 6, asns ++ [asn]))
  else Ok (inr asns).

(** The block count loop; [sig_block_count] is a [u8]. *)
Definition sig_block_step `{BuildProfile} (buf : bytes) (st : Z * Z) : Result ((Z * Z) + Z) :=
  let '(pos, count) := st in
  if pos + 3 <=? blen buf then
    block_len ← be_at 2 buf pos;
    count ← checked_width 8 (count + 1);
    Ok (inl (pos + (2 + block_len), count))
  else Ok (inr count).

Definition parse_bgpsec_path `{BuildProfile} (buf : bytes) : Result BgpsecPath :=
  if blen buf <? 2 then Ok (mkBgpsecPath [] 0 buf)
  else
    secure_path_len ← be_at 2 buf 0;
    if blen buf <? 2 + secure_path_len then Ok (mkBgpsecPath [] 0 buf)
    else
      let secure_path_end := 2 + secure_path_len in
      asns ← loop (S (length buf)) (secure_path_step buf secure_path_end) (2, []);
      count ← loop (S (length buf)) (sig_block_step buf) (secure_path_end, 0);
      Ok (mkBgpsecPath asns count buf).

(** ** MP_REACH and MP_UNREACH *)

Definition is_ipv6 (a : Afi) : bool := match a with Afi_Ipv6 => true | _ => false end.

Definition ParsedMpReach : Type :=
  MpReachNlri * option EvpnReachNlri * option (list FlowspecNlri) * option BgpLsReachNlri
  * list SrPolicyNlri * list RtcNlri.

Definition ParsedMpUnreach : Type :=
  MpUnreachNlri * option EvpnUnreachNlri * option (list FlowspecNlri) * option BgpLsUnreachNlri
  * option (list SrPolicyNlri) * list RtcNlri.

Section Mp.
Context `{BytesBuf} `{IpNetCrate}.

Definition parse_mp_reach (buf : bytes) (ctx : BgpDecodeContext) : Result ParsedMpReach :=
  if blen buf <? 4 then Err (UnexpectedEof 4 (blen buf))
  else
    a ← be_at 2 buf 0;
    s ← idx buf 2;
    let afi_safi := afi_safi_new a s in
    cur ← slice_from buf 3;
    '(next_hops, cur) ← decode_next_hops cur (afi afi_safi);
    if blen cur <? 1 then Err (UnexpectedEof 1 (blen cur))
    else
      '(_snpa, cur) ← get_u8 cur;
      let remaining := cur in
      let add_path := has_add_path ctx afi_safi in
      let mp ps ids := mkMpReach afi_safi next_hops ps ids in
      match safi afi_safi with
      | Safi_Evpn =>
          routes ← decode_evpn_nlri remaining;
          Ok (mp [] [], Some (mkEvpnReach next_hops routes), None, None, [], [])
      | Safi_Flowspec | Safi_FlowspecVpn =>
          fs ← decode_flowspec_nlri remaining (is_ipv6 (afi afi_safi));
          Ok (mp [] [], None, Some fs, None, [], [])
      | Safi_BgpLs | Safi_BgpLsSrv6 =>
          ls ← decode_bgpls_reach (head next_hops) remaining;
          Ok (mp [] [], None, None, Some ls, [], [])
      | Safi_Vpls =>
          _vpls ← decode_vpls_nlri remaining;
          Ok (mp [] [], None, None, None, [], [])
      | Safi_SrPolicy =>
          nlris ← decode_srpolicy_nlri remaining (is_ipv6 (afi afi_safi));
          Ok (mp [] [], None, None, None, nlris, [])
      | Safi_RouteTargetConstraint =>
          rtcs ← decode_rtc_nlri remaining;
          Ok (mp [] [], None, None, None, [], rtcs)
      | Safi_Unicast | Safi_Multicast =>
          with_ids ← decode_nlri_with_path_id remaining (afi afi_safi) add_path;
          Ok (mp with_ids.*1 with_ids.*2, None, None, None, [], [])
      | Safi_LabeledUnicast =>
          p ← decode_labeled_nlri remaining (afi afi_safi);
          Ok (mp p (replicate (length p) None), None, None, None, [], [])
      | Safi_MplsVpn =>
          p ← decode_vpn_nlri remaining (afi afi_safi);
          Ok (mp p (replicate (length p) None), None, None, None, [], [])
      | Safi_McastVpn | Safi_MplsVpnMulticast => Ok (mp [] [], None, None, None, [], [])
      | Safi_Unknown _ => Ok (mp [] [], None, None, None, [], [])
      end.

Definition parse_mp_unreach (buf : bytes) (ctx : BgpDecodeContext) : Result ParsedMpUnreach :=
  if blen buf <? 3 then Err (UnexpectedEof 3 (blen buf))
  else
    a ← be_at 2 buf 0;
    s ← idx buf 2;
    let afi_safi := afi_safi_new a s in
    remaining ← slice_from buf 3;
    let add_path := has_add_path ctx afi_safi in
    let mp ps ids := mkMpUnreach afi_safi ps ids in
    if blen remaining =? 0 then Ok (mp [] [], None, None, None, None, [])
    else
      match safi afi_safi with
      | Safi_Evpn =>
          routes ← decode_evpn_nlri remaining;
          Ok (mp [] [], Some (mkEvpnUnreach routes), None, None, None, [])
      | Safi_Flowspec | Safi_FlowspecVpn =>
          fs ← decode_flowspec_nlri remaining (is_ipv6 (afi afi_safi));
          Ok (mp [] [], None, Some fs, None, None, [])
      | Safi_BgpLs =>
          ls ← decode_bgpls_unreach remaining;
          Ok (mp [] [], None, None, Some ls, None, [])
      | Safi_SrPolicy =>
          nlris ← decode_srpolicy_nlri remaining (is_ipv6 (afi afi_safi));
          Ok (mp [] [], None, None, None, Some nlris, [])
      | Safi_RouteTargetConstraint =>
          rtcs ← decode_rtc_nlri remaining;
          Ok (mp [] [], None, None, None, None, rtcs)
      | Safi_Unicast | Safi_Multicast =>
          with_ids ← decode_nlri_with_path_id remaining (afi afi_safi) add_path;
          Ok (mp with_ids.*1 with_ids.*2, None, None, None, None, [])
      | Safi_LabeledUnicast =>
          p ← decode_labeled_nlri remaining (afi afi_safi);
          Ok (mp p (replicate (length p) None), None, None, None, None, [])
      | Safi_MplsVpn =>
          p ← decode_vpn_nlri remaining (afi afi_safi);
          Ok (mp p (replicate (length p) None), None, None, None, None, [])
      | _ => Ok (mp [] [], None, None, None, None, [])
      end.

End Mp.

(** ** The attribute loop *)

(** [while cb.len() >= n { ...; cb = &cb[n..] }] *)
Definition chunk_step {A} (n : Z) (mk : bytes -> A) (st : bytes * list A)
    : Result ((bytes * list A) + list A) :=
  let '(cb, acc) := st in
  if n <=? blen cb then
    c ← slice cb 0 n;
    cb ← slice_from cb n;
    Ok (inl (cb, acc ++ [mk c]))
  else Ok (inr acc).

Definition chunk_loop {A} (n : Z) (mk : bytes -> A) (cb : bytes) (acc : list A) : Result (list A) :=
  loop (S (length cb)) (chunk_step n mk) (cb, acc).

Definition large_from_bytes (c : bytes) : LargeCommunity :=
  mkLargeCommunity (be (take 4 c)) (be (take 4 (drop 4 c))) (be (take 4 (drop 8 c))).

(** The two forms of AGGREGATOR and AS4_AGGREGATOR. *)
Definition aggregator_at (n : Z) (buf : bytes) : Result (Z * Ipv4Addr) :=
  asn ← be_at n buf 0;
  id ← slice buf n (n + 4);
  Ok (asn, id).

Definition bad_length (name : string) (attr_len expected : Z) : Error :=
  BgpParse ("invalid " ++ name ++ " attribute length " ++ fmt_dec attr_len
            ++ ", expected " ++ fmt_dec expected).

Section Attributes.
Context `{BytesBuf} `{IpNetCrate} `{BuildProfile}.

(** The [match type_code] of [parse_path_attributes_with_context]. *)
Definition apply_attribute (ctx : BgpDecodeContext) (flags type_code : Z) (attr_data : bytes)
    (attrs : PathAttributes) : Result PathAttributes :=
  let attr_len := blen attr_data in
  let raw := Ok (set_unknown (unknown attrs ++ [mkRawAttribute flags type_code attr_data]) attrs) in
  match type_code with
  | 1 =>
      if negb (attr_len =? 1) then Err (bad_length "ORIGIN" attr_len 1)
      else b ← idx attr_data 0; o ← origin_try_from b; Ok (set_origin (Some o) attrs)
  | 2 =>
      p ← parse_as_path attr_data (four_byte_asn ctx); Ok (set_as_path (Some p) attrs)
  | 3 =>
      if negb (attr_len =? 4) then Err (bad_length "NEXT_HOP" attr_len 4)
      else a ← slice attr_data 0 4; Ok (set_next_hop (Some (IpAddr_V4 a)) attrs)
  | 4 =>
      if negb (attr_len =? 4) then Err (bad_length "MULTI_EXIT_DISC" attr_len 4)
      else v ← be_at 4 attr_data 0; Ok (set_multi_exit_disc (Some v) attrs)
  | 5 =>
      if negb (attr_len =? 4) then Err (bad_length "LOCAL_PREF" attr_len 4)
      else v ← be_at 4 attr_data 0; Ok (set_local_pref (Some v) attrs)
  | 6 => Ok (set_atomic_aggregate true attrs)
  | 7 =>
      if attr_len =? 6 then g ← aggregator_at 2 attr_data; Ok (set_aggregator (Some g) attrs)
      else if attr_len =? 8 then g ← aggregator_at 4 attr_data; Ok (set_aggregator (Some g) attrs)
      else raw
  | 8 =>
      if negb (attr_len mod 4 =? 0) then
        Err (BgpParse ("invalid COMMUNITY attribute length " ++ fmt_dec attr_len
                       ++ " (must be multiple of 4)"))
      else
        cs ← chunk_loop 4 (fun c => mkCommunity (be c)) attr_data (communities attrs);
        Ok (set_communities cs attrs)
  | 9 =>
      if attr_len =? 4 then a ← slice attr_data 0 4; Ok (set_originator_id (Some a) attrs)
      else raw
  | 10 =>
      cl ← chunk_loop 4 (fun c => c) attr_data (cluster_list attrs);
      Ok (set_cluster_list cl attrs)
  | 14 =>
      '(mp, evpn, flow, ls, sr, rtc) ← parse_mp_reach attr_data ctx;
      Ok (set_rtc_nlris rtc (set_sr_policy_nlris sr (set_bgpls_reach ls
            (set_flowspec_reach flow (set_evpn_reach evpn (set_mp_reach (Some mp) attrs))))))
  | 15 =>
      '(mp, evpn, flow, ls, sr_wd, _rtc_wd) ← parse_mp_unreach attr_data ctx;
      let attrs := set_bgpls_unreach ls (set_flowspec_unreach flow
                     (set_evpn_unreach evpn (set_mp_unreach (Some mp) attrs))) in
      Ok (match sr_wd with Some nlris => set_sr_policy_nlris nlris attrs | None => attrs end)
  | 16 =>
      cs ← chunk_loop 8 ext_from_bytes attr_data (extended_communities attrs);
      Ok (set_extended_communities cs attrs)
  | 17 =>
      p ← parse_as_path_with_asn_size attr_data 4; Ok (set_as4_path (Some p) attrs)
  | 18 =>
      if attr_len =? 8 then g ← aggregator_at 4 attr_data; Ok (set_as4_aggregator (Some g) attrs)
      else raw
  | 23 => t ← parse_tunnel_encap attr_data; Ok (set_tunnel_encap (Some t) attrs)
  | 32 =>
      cs ← chunk_loop 12 large_from_bytes attr_data (large_communities attrs);
      Ok (set_large_communities cs attrs)
  | 35 =>
      if attr_len =? 4 then v ← be_at 4 attr_data 0; Ok (set_only_to_customer (Some v) attrs)
      else raw
  | 29 => ls ← parse_bgpls_attribute attr_data; Ok (set_bgpls_attr (Some ls) attrs)
  | 40 => sid ← result_ok (parse_prefix_sid attr_data); Ok (set_prefix_sid sid attrs)
  | 30 => p ← parse_bgpsec_path attr_data; Ok (set_bgpsec_path (Some p) attrs)
  | _ => raw
  end.

(** One attribute: flags, type, a one- or two-octet length, value. *)
Definition parse_path_attributes_step (ctx : BgpDecodeContext) (st : bytes * PathAttributes)
    : Result ((bytes * PathAttributes) + PathAttributes) :=
  let '(buf, attrs) := st in
  if 0 <? blen buf then
    if blen buf <? 3 then Err (UnexpectedEof 3 (blen buf))
    else
      '(flags, buf) ← get_u8 buf;
      '(type_code, buf) ← get_u8 buf;
      '(attr_len, buf) ←
        (if bit_set flags FLAG_EXT_LEN then
           if blen buf <? 2 then Err (UnexpectedEof 2 (blen buf)) else get_u16 buf
         else get_u8 buf);
      if blen buf <? attr_len then Err (TruncatedAttribute type_code attr_len (blen buf))
      else
        '(attr_data, buf) ← copy_to_bytes attr_len buf;
        attrs ← apply_attribute ctx flags type_code attr_data attrs;
        Ok (inl (buf, attrs))
  else Ok (inr attrs).

(** NEXT_HOP from MP_REACH when attribute 3 is absent. *)
Definition fill_next_hop (attrs : PathAttributes) : PathAttributes :=
  match next_hop attrs, mp_reach attrs with
  | None, Some mp => set_next_hop (head (mpr_next_hops mp)) attrs
  | _, _ => attrs
  end.

(** RFC 6793, section 4.2.3: AS_PATH from AS4_PATH. *)
Definition merge_as4_path (ctx : BgpDecodeContext) (attrs : PathAttributes) : PathAttributes :=
  match as_path attrs, as4_path attrs with
  | Some p, Some p4 =>
      if negb (four_byte_asn ctx)
         || existsb (fun seg => bool_decide (AS_TRANS ∈ seg_asns seg)) (as_segments p)
      then set_as_path (Some (reconstruct_as_path p p4)) attrs
      else attrs
  | _, _ => attrs
  end.

(** RFC 6793, section 4.2.2: AGGREGATOR from AS4_AGGREGATOR. *)
Definition merge_as4_aggregator (attrs : PathAttributes) : PathAttributes :=
  match aggregator attrs, as4_aggregator attrs with
  | Some (agg_asn, _), Some as4_agg =>
      if agg_asn =? AS_TRANS then set_aggregator (Some as4_agg) attrs else attrs
  | _, _ => attrs
  end.

Definition parse_path_attributes_with_context (buf : bytes) (ctx : BgpDecodeContext)
    : Result PathAttributes :=
  attrs ← loop (S (length buf)) (parse_path_attributes_step ctx) (buf, path_attributes_default);
  Ok (merge_as4_aggregator (merge_as4_path ctx (fill_next_hop attrs))).

Definition parse_path_attributes (buf : bytes) : Result PathAttributes :=
  parse_path_attributes_with_context buf default_context.

End Attributes.

(** ** AS paths: safety and round trip *)

Lemma wp_read_asns pn buf n asn_size :
  0 <= n -> (asn_size = 2 \/ asn_size = 4) -> n * asn_size <= blen buf ->
  wp pn (read_asns buf n asn_size) (fun _ => True).
Proof.
  intros Hn Hsz Hb. apply wp_for_each; [done|]. intros i acc Hi _. apply elem_of_seqZ in Hi.
  destruct Hsz as [-> | ->]; repeat wp_step; done.
Qed.

Lemma wp_parse_as_path_sized pn buf asn_size :
  asn_size = 2 \/ asn_size = 4 -> wp pn (parse_as_path_with_asn_size buf asn_size) (fun _ => True).
Proof.
  intros Hsz. apply wp_bind, (wp_loop _ (fun _ => True) (fun st => length st.1)); [done|simpl; lia|].
  intros [b segs] _. unfold parse_as_path_step. wp_core; [|done]. wp_core; [done|].
  apply wp_bind. wp_step. apply wp_bind. wp_step. apply wp_bind. wp_step. cbn zeta.
  wp_core; [done|]. apply wp_bind. eapply wp_mono; [apply wp_read_asns; lia|]. intros asns _.
  apply wp_bind. wp_step. apply wp_bind.
  apply (wp_mono _ _ (fun _ => True)); [unfold make_segment; repeat wp_core; done|].
  intros seg _. apply wp_ok. split; [done|]. rewrite !length_blen. simpl. nia.
Qed.

Lemma wp_parse_as_path pn buf four : wp pn (parse_as_path buf four) (fun _ => True).
Proof.
  pose proof (wp_parse_as_path_sized pn buf 2 ltac:(auto)).
  pose proof (wp_parse_as_path_sized pn buf 4 ltac:(auto)).
  unfold parse_as_path. destruct four, (parse_as_path_with_asn_size buf 2),
    (parse_as_path_with_asn_size buf 4); done.
Qed.

(** The wire form of a path with ASNs of [n] octets. *)
Definition seg_type_code (seg : AsPathSegment) : Z :=
  match seg with
  | Seg_Set _ => 1
  | Seg_Sequence _ => 2
  | Seg_ConfedSequence _ => 3
  | Seg_ConfedSet _ => 4
  end.

Definition encode_segment (n : nat) (seg : AsPathSegment) : bytes :=
  as_u8 (seg_type_code seg) :: as_u8 (blen (seg_asns seg)) :: (seg_asns seg ≫= to_be n).

Definition segment_wf (n : nat) (seg : AsPathSegment) : Prop :=
  blen (seg_asns seg) < 256 /\ Forall (fun asn => 0 <= asn < 256 ^ Z.of_nat n) (seg_asns seg).

Lemma blen_to_be_bind n (l : list Z) : blen (l ≫= to_be n) = blen l * Z.of_nat n.
Proof.
  induction l as [|v l IH]; [done|]. rewrite bind_cons, blen_app, IH, blen_cons, blen_to_be. lia.
Qed.

Lemma read_asns_encoded n asns rest :
  n = 2%nat \/ n = 4%nat -> Forall (fun asn => 0 <= asn < 256 ^ Z.of_nat n) asns ->
  read_asns ((asns ≫= to_be n) ++ rest) (blen asns) (Z.of_nat n) = Ok asns.
Proof.
  intros Hn Hasns. unfold read_asns, seqZ, blen. rewrite Nat2Z.id.
  assert (forall pre suf, asns = pre ++ suf -> 
    for_each ((fun i => Z.of_nat i + 0) <$> seq (length pre) (length suf))
      (fun i acc =>
         asn ← (if Z.of_nat n =? 4 then be_at 4 ((asns ≫= to_be n) ++ rest) (i * 4)
                else be_at 2 ((asns ≫= to_be n) ++ rest) (i * 2));
         Ok (E := Error) (acc ++ [asn])) pre = Ok (pre ++ suf)) as Hgen; [|by apply (Hgen [] asns)].
  intros pre suf. revert pre. induction suf as [|v suf IH]; intros pre Heq; simpl;
    [by rewrite app_nil_r|].
  assert ((if Z.of_nat n =? 4 then be_at (E := Error) 4 ((asns ≫= to_be n) ++ rest) ((Z.of_nat (length pre) + 0) * 4)
           else be_at 2 ((asns ≫= to_be n) ++ rest) ((Z.of_nat (length pre) + 0) * 2)) = Ok v) as ->.
  { assert (0 <= v < 256 ^ Z.of_nat n) as Hv.
    { rewrite Heq in Hasns. apply Forall_app in Hasns as [_ [? _]%Forall_cons]. done. }
    rewrite Heq, bind_app, bind_cons, <- !app_assoc.
    pose proof (blen_to_be_bind n pre) as Hpre. pose proof (blen_to_be n v) as Hv'.
    pose proof (be_to_be n v Hv) as Hbe. unfold blen in Hpre at 2.
    destruct Hn as [-> | ->];
      [change (Z.of_nat 2 =? 4) with false|change (Z.of_nat 4 =? 4) with true]; cbv iota;
      rewrite be_at_app by (done || lia); by rewrite Hbe. }
  rewrite bind_Ok. specialize (IH (pre ++ [v])). rewrite <- app_assoc, length_app, Nat.add_1_r in IH.
  by apply IH.
Qed.

Lemma make_segment_code seg : make_segment (seg_type_code seg) (seg_asns seg) = Ok seg.
Proof. by destruct seg. Qed.

Lemma parse_as_path_step_segment n seg rest acc :
  n = 2%nat \/ n = 4%nat -> segment_wf n seg ->
  parse_as_path_step (Z.of_nat n) (encode_segment n seg ++ rest, acc) = Ok (inl (rest, acc ++ [seg])).
Proof.
  intros Hn [Hlen Hasns]. unfold parse_as_path_step, encode_segment. rewrite <- !app_comm_cons.
  pose proof (blen_nonneg (seg_asns seg)). pose proof (blen_nonneg rest).
  set (body := (seg_asns seg ≫= to_be n) ++ rest).
  assert (blen body = blen (seg_asns seg) * Z.of_nat n + blen rest) as Hb
    by (unfold body; by rewrite blen_app, blen_to_be_bind).
  rewrite !blen_cons, (proj2 (Z.eqb_neq _ _)), (proj2 (Z.ltb_ge _ _)) by lia. cbn [negb].
  rewrite idx_cons, bind_Ok, u8_as_u8 by (destruct seg; simpl; lia).
  rewrite idx_cons_1, bind_Ok, u8_as_u8 by lia.
  rewrite slice_from_2, bind_Ok. cbn zeta.
  rewrite Hb, (proj2 (Z.ltb_ge _ _)) by lia. unfold body. rewrite read_asns_encoded, bind_Ok by done.
  rewrite slice_from_app by by rewrite blen_to_be_bind.
  by rewrite bind_Ok, make_segment_code.
Qed.

(** An AS_PATH of well-formed segments, encoded with the session's
    ASN width (two or four octets), is decoded to exactly those segments, and
    no ASN is reinterpreted at the other width. *)
Theorem parse_as_path_roundtrip (four_byte : bool) (segs : list AsPathSegment) :
  let n := if four_byte then 4%nat else 2%nat in
  Forall (segment_wf n) segs ->
  parse_as_path (segs ≫= encode_segment n) four_byte = Ok (mkAsPath segs).
Proof.
  intros n Hsegs.
  assert (parse_as_path_with_asn_size (segs ≫= encode_segment n) (Z.of_nat n) = Ok (mkAsPath segs)) as Hp.
  { unfold parse_as_path_with_asn_size.
    rewrite (loop_stream (parse_as_path_step (Z.of_nat n)) (encode_segment n) (segment_wf n));
      [done| | |done|done].
    - intros seg rest acc Hseg. apply parse_as_path_step_segment; [|done]. destruct four_byte; auto.
    - done. }
  unfold parse_as_path. subst n. destruct four_byte; [change 4 with (Z.of_nat 4)|change 2 with (Z.of_nat 2)];
    by rewrite Hp.
Qed.

(** ** AS4_PATH reconciliation *)

Lemma asn_count_length segs : asn_count segs = length (segs ≫= seg_asns).
Proof. induction segs as [|s segs IH]; [done|]. rewrite bind_cons, length_app. simpl. by rewrite IH. Qed.

Lemma seg_asns_with seg asns : seg_asns (with_asns seg asns) = asns.
Proof. by destruct seg. Qed.

Lemma keep_leading_asns keep segs :
  keep_leading keep segs ≫= seg_asns = take keep (segs ≫= seg_asns).
Proof.
  revert keep. induction segs as [|seg segs IH]; intros keep; [simpl; by rewrite take_nil|].
  cbn [keep_leading]. destruct (Nat.eqb_spec keep 0) as [->|Hk]; [done|].
  rewrite bind_app, IH, bind_cons, take_app. cbn zeta.
  replace (keep - keep `min` length (seg_asns seg))%nat with (keep - length (seg_asns seg))%nat by lia.
  f_equal. replace (take (keep `min` length (seg_asns seg)) (seg_asns seg)) with (take keep (seg_asns seg))
    by (rewrite <- (take_ge (seg_asns seg) (length (seg_asns seg))) at 1 by done; by rewrite take_take).
  destruct (take keep (seg_asns seg)) eqn:Ht; simpl; [done|]. by rewrite seg_asns_with, app_nil_r.
Qed.

Lemma push_segment_asns out seg :
  push_segment out seg ≫= seg_asns = (out ≫= seg_asns) ++ seg_asns seg.
Proof.
  assert ((out ++ [seg]) ≫= seg_asns = (out ≫= seg_asns) ++ seg_asns seg) as Hpush
    by (rewrite bind_app, bind_cons; simpl; by rewrite app_nil_r).
  unfold push_segment. destruct (list.last out) as [[]|] eqn:Hl; try by destruct seg.
  destruct seg; try done. apply last_Some in Hl as [out' ->].
  rewrite length_app, Nat.add_sub, take_app_length, !bind_app, !bind_cons. simpl.
  by rewrite !app_nil_r, <- !app_assoc.
Qed.

Lemma foldl_push_asns segs out :
  foldl push_segment out segs ≫= seg_asns = (out ≫= seg_asns) ++ (segs ≫= seg_asns).
Proof.
  revert out. induction segs as [|seg segs IH]; intros out; [by rewrite app_nil_r|].
  simpl foldl. rewrite IH, push_segment_asns, bind_cons. by rewrite <- app_assoc.
Qed.

(** Claim C25: reconciling AS_PATH with AS4_PATH (RFC 6793, section 4.2.3): when
    AS4_PATH without its confederation segments has ASNs, and no more than
    AS_PATH, the result reads as the leading ASNs of AS_PATH followed by all of
    those of AS4_PATH, and has exactly as many ASNs as AS_PATH; otherwise
    AS_PATH is returned unchanged. *)
Theorem reconstruct_as_path_spec (p p4 : AsPath) :
  let tail := filter (fun seg => is_confed seg = false) (as_segments p4) ≫= seg_asns in
  let r := reconstruct_as_path p p4 in
  if ((length tail =? 0) || (length (all_asns p) <? length tail))%nat then r = p
  else all_asns r = take (length (all_asns p) - length tail) (all_asns p) ++ tail
       /\ length (all_asns r) = length (all_asns p).
Proof.
  intros tail r. unfold r, reconstruct_as_path. rewrite !asn_count_length. fold tail.
  change (as_segments p ≫= seg_asns) with (all_asns p). case_if; [done|].
  assert (length tail <= length (all_asns p))%nat by lia.
  assert (all_asns (mkAsPath (foldl push_segment
            (keep_leading (length (all_asns p) - length tail) (as_segments p))
            (filter (fun seg => is_confed seg = false) (as_segments p4))))
          = take (length (all_asns p) - length tail) (all_asns p) ++ tail) as Heq.
  { unfold all_asns at 1. simpl as_segments. by rewrite foldl_push_asns, keep_leading_asns. }
  split; [done|]. rewrite Heq, length_app, length_take. lia.
Qed.

(** ** Termination, and where a panic can come from *)

Lemma wp_chunk_loop {A} pn n (mk : bytes -> A) cb acc :
  0 < n -> wp pn (chunk_loop n mk cb acc) (fun _ => True).
Proof.
  intros Hn. apply (wp_loop _ (fun _ => True) (fun st => length st.1)); [done|simpl; lia|].
  intros [b l] _. unfold chunk_step. repeat wp_step; try done. split; [done|].
  rewrite !length_blen. simpl. lia.
Qed.

Lemma wp_parse_tunnel_subtlvs pn buf : wp pn (parse_tunnel_subtlvs buf) (fun _ => True).
Proof.
  apply wp_loop_pos; [pose proof (blen_nonneg buf); lia|]. intros pos [e c] Hpos.
  unfold parse_tunnel_subtlvs_step. repeat wp_step; try done; simpl; lia.
Qed.

Lemma wp_parse_tunnel_encap pn buf : wp pn (parse_tunnel_encap buf) (fun _ => True).
Proof.
  apply wp_pos_tlv_loop; [pose proof (blen_nonneg buf); lia|done|]. intros ty v s _ _.
  apply wp_bind. eapply wp_mono; [apply wp_parse_tunnel_subtlvs|]. by intros [e c] _.
Qed.

Lemma wp_checked_width {E} `{BuildProfile} (pn : Prop) w v (Q : Z -> Prop) :
  0 <= w -> (overflow_checks = true -> ~ 0 <= v < 2 ^ w -> pn) ->
  (forall r, 0 <= r < 2 ^ w -> (0 <= v < 2 ^ w -> r = v) -> Q r) ->
  wp (E := E) pn (checked_width w v) Q.
Proof.
  intros Hw Hp HQ. unfold checked_width. case_if; [apply wp_ok, HQ; lia|].
  destruct overflow_checks; simpl; [apply Hp; [done|lia]|].
  apply HQ; [apply Z.mod_pos_bound; lia|lia].
Qed.

(** BGPsec: the block counter is an eight-bit integer. *)
Lemma wp_parse_bgpsec_path `{BuildProfile} (pn : Prop) buf :
  (overflow_checks = true -> pn) ->
  wp pn (parse_bgpsec_path buf) (fun p => 0 <= sig_block_count p < 256 /\ bgpsec_raw p = buf).
Proof.
  intros Hp. unfold parse_bgpsec_path. wp_core; [by apply wp_ok|]. apply wp_bind. wp_step.
  wp_core; [by apply wp_ok|]. cbn zeta. apply wp_bind.
  eapply (wp_mono _ _ (fun _ => True)).
  - apply wp_loop_pos; [lia|]. intros pos acc Hpos. unfold secure_path_step.
    repeat wp_step; try done. simpl. lia.
  - intros asns _. apply wp_bind. eapply wp_mono.
    + apply (wp_loop _ (fun st => 0 <= st.1 /\ 0 <= st.2 < 256) (fun st => Z.to_nat (blen buf - st.1))
               _ _ _ (fun n => 0 <= n < 256)); [simpl; lia|simpl; rewrite length_blen; lia|].
      intros [pos n] [Hpos Hn]. cbn [fst snd] in *. unfold sig_block_step. wp_core; [|by apply wp_ok].
      apply wp_bind. wp_step. apply wp_bind, wp_checked_width; [lia|auto|].
      intros r Hr _. apply wp_ok. simpl. lia.
    + intros n Hn. by apply wp_ok.
Qed.

(** The families whose NLRI decoders can panic on a hostile prefix length. *)
Definition family_may_panic (f : AfiSafi) : Prop :=
  match safi f with
  | Safi_LabeledUnicast | Safi_MplsVpn | Safi_BgpLs | Safi_BgpLsSrv6 => True
  | Safi_Flowspec | Safi_FlowspecVpn => afi f = Afi_Ipv6
  | _ => False
  end.

(** The family an MP_REACH or MP_UNREACH attribute declares. *)
Definition mp_family (data : bytes) : AfiSafi :=
  afi_safi_new (be (take 2 data)) (be (take 1 (drop 2 data))).

Lemma wp_be_at_value {E} (pn : Prop) n b p (Q : Z -> Prop) :
  0 <= p -> 0 <= n -> p + n <= blen b -> Q (be (take (Z.to_nat n) (drop (Z.to_nat p) b))) ->
  wp (E := E) pn (be_at n b p) Q.
Proof.
  intros. unfold be_at. rewrite slice_ok by lia. simpl. by replace (p + n - p) with n by lia.
Qed.

Lemma idx_be {E} b i : 0 <= i < blen b -> idx (E := E) b i = be_at 1 b i.
Proof.
  intros Hi. unfold idx, be_at. rewrite slice_ok by lia.
  rewrite (proj2 (Z.leb_le 0 i)), (proj2 (Z.ltb_lt i _)) by lia. simpl.
  replace (i + 1 - i) with 1 by lia. unfold blen in Hi.
  destruct (lookup_lt_is_Some_2 b (Z.to_nat i)) as [v Hv]; [lia|]. rewrite Hv.
  by rewrite (drop_S _ _ _ Hv).
Qed.

Section PanicSources.
Context `{BytesBuf} `{IpNetCrate} `{BuildProfile}.

Ltac mp_done := apply wp_ok; simpl; rewrite ?length_fmap, ?length_replicate; done.

Lemma wp_mp_families (pn : Prop) {A} (f : AfiSafi) (o : Result A) (Q : A -> Prop) :
  (family_may_panic f -> pn) -> wp (family_may_panic f) o Q -> wp pn o Q.
Proof. intros Hp. destruct o; simpl; auto. Qed.

Lemma wp_parse_mp_reach buf ctx :
  wp (family_may_panic (mp_family buf)) (parse_mp_reach buf ctx) (fun r =>
    let mp := r.1.1.1.1.1 in
    length (mpr_path_ids mp) = length (mpr_prefixes mp) /\ mpr_afi_safi mp = mp_family buf).
Proof.
  unfold parse_mp_reach. wp_core; [apply wp_err|].
  apply wp_bind, wp_be_at_value; [lia..|]. apply wp_bind. rewrite idx_be by lia.
  apply wp_be_at_value; [lia..|]. cbn zeta. change (drop (Z.to_nat 0) buf) with buf.
  change (afi_safi_new _ _) with (mp_family buf). set (f := mp_family buf).
  apply wp_bind. wp_step. apply wp_bind. eapply wp_mono; [apply wp_decode_next_hops|].
  intros [hops cur] _. wp_core; [apply wp_err|]. apply wp_bind. buf_step.
  unfold family_may_panic.
  destruct (safi f) eqn:Hs; try mp_done; apply wp_bind.
  all: try (eapply wp_mono; [solve [eauto with wp]|intros; mp_done]).
  all: eapply wp_mono; [|intros; mp_done].
  all: first [apply wp_decode_bgpls_reach; exact I | apply wp_decode_flowspec_nlri; by destruct (afi f)].
Qed.

Lemma wp_parse_mp_unreach buf ctx :
  wp (family_may_panic (mp_family buf)) (parse_mp_unreach buf ctx) (fun r =>
    let mp := r.1.1.1.1.1 in
    length (mpu_path_ids mp) = length (mpu_prefixes mp) /\ mpu_afi_safi mp = mp_family buf).
Proof.
  unfold parse_mp_unreach. wp_core; [apply wp_err|].
  apply wp_bind, wp_be_at_value; [lia..|]. apply wp_bind. rewrite idx_be by lia.
  apply wp_be_at_value; [lia..|]. cbn zeta. change (drop (Z.to_nat 0) buf) with buf.
  change (afi_safi_new _ _) with (mp_family buf). set (f := mp_family buf).
  apply wp_bind. wp_step. wp_core; [mp_done|]. unfold family_may_panic.
  destruct (safi f) eqn:Hs; try mp_done; apply wp_bind.
  all: try (eapply wp_mono; [solve [eauto with wp]|intros; mp_done]).
  all: eapply wp_mono; [|intros; mp_done].
  all: first [apply wp_decode_bgpls_unreach; exact I | apply wp_decode_flowspec_nlri; by destruct (afi f)].
Qed.

(** When one attribute can make the parser panic. *)
Definition attribute_may_panic (type_code : Z) (data : bytes) : Prop :=
  ((type_code = 14 \/ type_code = 15) /\ family_may_panic (mp_family data))
  \/ (type_code = 30 /\ overflow_checks = true).

(** The lists of prefixes and path identifiers run in parallel. *)
Definition path_ids_parallel (attrs : PathAttributes) : Prop :=
  (forall mp, mp_reach attrs = Some mp -> length (mpr_path_ids mp) = length (mpr_prefixes mp)) /\
  (forall mp, mp_unreach attrs = Some mp -> length (mpu_path_ids mp) = length (mpu_prefixes mp)).

(** What the attribute loop maintains; the path status is left to the caller. *)
Definition attributes_inv (attrs : PathAttributes) : Prop :=
  path_ids_parallel attrs /\ path_status attrs = None.

Lemma wp_apply_attribute ctx flags type_code data attrs :
  attributes_inv attrs ->
  wp (attribute_may_panic type_code data) (apply_attribute ctx flags type_code data attrs)
     attributes_inv.
Proof.
  intros Hpar.
  assert (forall a, attributes_inv a -> wp (E := Error) (attribute_may_panic type_code data) (Ok a) attributes_inv)
    as Hok by done.
  unfold apply_attribute. cbn zeta.
  destruct (decide (type_code = 14)) as [->|H14].
  { apply wp_bind. eapply (wp_mp_families _ (mp_family data)); [unfold attribute_may_panic; auto|].
    eapply wp_mono; [apply wp_parse_mp_reach|]. intros [[[[[mp e] f] l] s] r] [Hlen _].
    apply wp_ok. destruct attrs, Hpar as [[Hr Hu] Hs].
    split; [split|]; simpl; [by intros ? [= <-]|exact Hu|exact Hs]. }
  destruct (decide (type_code = 15)) as [->|H15].
  { apply wp_bind. eapply (wp_mp_families _ (mp_family data)); [unfold attribute_may_panic; auto|].
    eapply wp_mono; [apply wp_parse_mp_unreach|]. intros [[[[[mp e] f] l] s] r] [Hlen _].
    apply wp_ok. destruct attrs, Hpar as [[Hr Hu] Hs], s;
      (split; [split|]; simpl; [exact Hr|by intros ? [= <-]|exact Hs]). }
  destruct (decide (type_code = 30)) as [->|H30].
  { apply wp_bind. eapply wp_mono; [apply wp_parse_bgpsec_path; unfold attribute_may_panic; auto|].
    intros p _. apply wp_ok. by destruct attrs. }
  assert (forall b, wp (E := Error) (attribute_may_panic type_code data) (origin_try_from b) (fun _ => True)) as Hor
    by (intros b; unfold origin_try_from; repeat case_match; done).
  repeat case_match; try lia; unfold aggregator_at;
    repeat first
      [ wp_step
      | apply wp_result_ok
      | eapply wp_mono; [apply Hor|intros ? _]
      | eapply wp_mono; [apply wp_parse_as_path|intros ? _]
      | eapply wp_mono; [apply wp_parse_as_path_sized; auto|intros ? _]
      | eapply wp_mono; [apply wp_chunk_loop; lia|intros ? _]
      | eapply wp_mono; [apply wp_parse_tunnel_encap|intros ? _]
      | eapply wp_mono; [apply wp_parse_bgpls_attribute|intros ? _]
      | eapply wp_mono; [apply wp_parse_prefix_sid|intros ? _] ];
    by destruct attrs.
Qed.

(** ** The attribute stream *)

Record WireAttribute := mkWireAttribute { wa_flags : Z; wa_type : Z; wa_value : bytes }.

Definition wire_attribute_wf (a : WireAttribute) : Prop :=
  0 <= wa_flags a < 256 /\ 0 <= wa_type a < 256 /\
  blen (wa_value a) < (if bit_set (wa_flags a) FLAG_EXT_LEN then 65536 else 256).

(** Flags, type, a length of one octet or (extended length) two, value. *)
Definition encode_attribute (a : WireAttribute) : bytes :=
  as_u8 (wa_flags a) :: as_u8 (wa_type a) ::
  (if bit_set (wa_flags a) FLAG_EXT_LEN then to_be 2 (blen (wa_value a))
   else [as_u8 (blen (wa_value a))]) ++ wa_value a.

Lemma parse_step_attribute ctx a rest attrs :
  wire_attribute_wf a ->
  parse_path_attributes_step ctx (encode_attribute a ++ rest, attrs) =
    (attrs ← apply_attribute ctx (wa_flags a) (wa_type a) (wa_value a) attrs; Ok (inl (rest, attrs))).
Proof.
  destruct a as [flags ty v]. intros (Hf & Ht & Hv). simpl in Hf, Ht, Hv.
  unfold parse_path_attributes_step, encode_attribute. cbn [wa_flags wa_type wa_value].
  rewrite <- !app_comm_cons, !blen_cons, <- app_assoc. pose proof (blen_nonneg v). pose proof (blen_nonneg rest).
  assert (0 < blen (if bit_set flags FLAG_EXT_LEN then to_be 2 (blen v) else [as_u8 (blen v)])) as Hl
    by (destruct (bit_set flags FLAG_EXT_LEN); rewrite ?blen_to_be; done).
  rewrite (proj2 (Z.ltb_lt _ _)), (proj2 (Z.ltb_ge _ _)) by (rewrite !blen_app; lia).
  rewrite get_u8_cons, bind_Ok, u8_as_u8, get_u8_cons, bind_Ok, u8_as_u8 by done.
  destruct (bit_set flags FLAG_EXT_LEN).
  - rewrite blen_app, blen_to_be, (proj2 (Z.ltb_ge _ _)) by (rewrite blen_app; lia).
    rewrite get_u16_app, be_to_be, bind_Ok, blen_app, (proj2 (Z.ltb_ge _ _)) by (done || apply blen_to_be || lia).
    by rewrite copy_to_bytes_app, bind_Ok.
  - rewrite <- app_comm_cons, app_nil_l, get_u8_cons, bind_Ok, u8_as_u8, blen_app, (proj2 (Z.ltb_ge _ _)) by lia.
    by rewrite copy_to_bytes_app, bind_Ok.
Qed.

Lemma loop_attributes ctx l attrs fuel :
  Forall wire_attribute_wf l -> (length l < fuel)%nat ->
  loop fuel (parse_path_attributes_step ctx) (l ≫= encode_attribute, attrs) =
    for_each l (fun a => apply_attribute ctx (wa_flags a) (wa_type a) (wa_value a)) attrs.
Proof.
  intros Hwf. revert attrs fuel. induction Hwf as [|a l Ha Hwf IH]; intros attrs fuel Hf;
    (destruct fuel as [|fuel]; [simpl in Hf; lia|]); rewrite loop_S; [done|].
  rewrite bind_cons, parse_step_attribute by done. cbn [for_each].
  destruct (apply_attribute _ _ _ _ attrs) as [attrs'| | |]; try done. simpl. apply IH. simpl in Hf. lia.
Qed.

Lemma parse_attribute_stream ctx (l : list WireAttribute) :
  Forall wire_attribute_wf l ->
  parse_path_attributes_with_context (l ≫= encode_attribute) ctx =
    (attrs ← for_each l (fun a => apply_attribute ctx (wa_flags a) (wa_type a) (wa_value a))
               path_attributes_default;
     Ok (merge_as4_aggregator (merge_as4_path ctx (fill_next_hop attrs)))).
Proof.
  intros Hwf. unfold parse_path_attributes_with_context. rewrite loop_attributes; [done|done|].
  apply Nat.lt_succ_r, (length_stream _ wire_attribute_wf); done.
Qed.

(** The path attributes of a well-formed stream are handled one by
    one, in order, each with its own value, whichever of the two length
    encodings it uses; then NEXT_HOP, AS_PATH and AGGREGATOR are completed. The
    first attribute that is malformed decides the error. *)
Theorem parse_path_attributes_frames ctx (l : list WireAttribute) :
  Forall wire_attribute_wf l ->
  parse_path_attributes_with_context (l ≫= encode_attribute) ctx =
    (attrs ← for_each l (fun a => apply_attribute ctx (wa_flags a) (wa_type a) (wa_value a))
               path_attributes_default;
     Ok (merge_as4_aggregator (merge_as4_path ctx (fill_next_hop attrs)))).
Proof. apply parse_attribute_stream. Qed.

(** An attribute of the buffer that can cause a panic. *)
Definition hostile_attribute_in (buf : bytes) : Prop :=
  exists pre a post, buf = pre ++ encode_attribute a ++ post /\ wire_attribute_wf a /\
    attribute_may_panic (wa_type a) (wa_value a).

Lemma attributes_inv_finish ctx attrs :
  attributes_inv attrs ->
  attributes_inv (merge_as4_aggregator (merge_as4_path ctx (fill_next_hop attrs))).
Proof.
  intros Hp. unfold merge_as4_aggregator, merge_as4_path, fill_next_hop. destruct attrs.
  cbn [next_hop mp_reach]. repeat case_match; exact Hp.
Qed.

(** The header an iteration read is the header of an encoded attribute. *)
Lemma parse_step_header buf flags ty len v b1 b2 b3 rest :
  get_u8 (E := Error) buf = Ok (flags, b1) -> get_u8 (E := Error) b1 = Ok (ty, b2) ->
  (if bit_set flags FLAG_EXT_LEN then
     if blen b2 <? 2 then Err (UnexpectedEof 2 (blen b2)) else get_u16 b2
   else get_u8 b2) = Ok (len, b3) ->
  0 <= len -> copy_to_bytes (E := Error) len b3 = Ok (v, rest) ->
  buf = encode_attribute (mkWireAttribute flags ty v) ++ rest /\
  wire_attribute_wf (mkWireAttribute flags ty v).
Proof.
  intros [-> Hf]%get_u8_inv [-> Ht]%get_u8_inv Hlen Hpos [-> Hv]%copy_to_bytes_inv; [|done].
  unfold encode_attribute, wire_attribute_wf. cbn [wa_flags wa_type wa_value]. rewrite Hv.
  destruct (bit_set flags FLAG_EXT_LEN).
  - case_if; [done|]. apply get_u16_inv in Hlen as [-> Hl]. split; [by rewrite <- !app_comm_cons, <- app_assoc|lia].
  - apply get_u8_inv in Hlen as [-> Hl]. split; [by rewrite <- !app_comm_cons|lia].
Qed.

Lemma wp_parse_step ctx buf b attrs pre :
  buf = pre ++ b -> attributes_inv attrs ->
  wp (hostile_attribute_in buf) (parse_path_attributes_step ctx (b, attrs)) (fun r =>
    match r with
    | inl st => (attributes_inv st.2 /\ exists pre', buf = pre' ++ st.1) /\
                (length st.1 < length b)%nat
    | inr a => attributes_inv a
    end).
Proof.
  intros Hbuf Hpar. unfold parse_path_attributes_step. wp_core; [|done]. wp_core; [done|].
  apply wp_bind. apply wp_post; [buf_step; done|]. intros [flags b1] E1.
  destruct (get_u8_inv _ _ _ E1) as [Hb1 Hf].
  assert (blen b = 1 + blen b1) by (rewrite Hb1; apply blen_cons).
  apply wp_bind. apply wp_post; [buf_step; done|]. intros [ty b2] E2.
  destruct (get_u8_inv _ _ _ E2) as [Hb2 Hty].
  assert (blen b1 = 1 + blen b2) by (rewrite Hb2; apply blen_cons).
  apply wp_bind. apply wp_post; [repeat buf_step; done|]. intros [len b3] E3.
  assert (0 <= len) as Hlen.
  { destruct (bit_set flags FLAG_EXT_LEN); [case_if; [done|]; apply get_u16_inv in E3|
      apply get_u8_inv in E3]; lia. }
  wp_core; [done|]. apply wp_bind. apply wp_post; [buf_step; done|]. intros [v rest] E4.
  destruct (parse_step_header b flags ty len v b1 b2 b3 rest E1 E2 E3 Hlen E4) as [Hb Hwf].
  apply wp_bind.
  pose proof (wp_apply_attribute ctx flags ty v attrs Hpar) as Ha.
  destruct (apply_attribute ctx flags ty v attrs) as [attrs'| | |]; [|done| |done].
  - apply wp_ok, wp_ok. cbn [fst snd]. split; [split; [exact Ha|]|].
    + exists (pre ++ encode_attribute (mkWireAttribute flags ty v)). by rewrite <- app_assoc, <- Hb.
    + rewrite Hb, length_app. unfold encode_attribute. simpl. lia.
  - exists pre, (mkWireAttribute flags ty v), rest. rewrite <- Hb. split; [done|]. split; [done|exact Ha].
Qed.

Lemma wp_parse_path_attributes ctx buf :
  wp (hostile_attribute_in buf) (parse_path_attributes_with_context buf ctx) attributes_inv.
Proof.
  apply wp_bind. eapply wp_mono.
  - apply (wp_loop _ (fun st => attributes_inv st.2 /\ exists pre, buf = pre ++ st.1)
             (fun st => length st.1) _ _ _ attributes_inv);
      [split; [by split; [split|]|by exists []]|simpl; lia|].
    intros [b attrs] [Hpar [pre Hbuf]]. by apply (wp_parse_step ctx buf b attrs pre).
  - intros attrs Hpar. by apply wp_ok, attributes_inv_finish.
Qed.

(** Parsing path attributes always ends; it panics only when the
    buffer holds an MP_REACH or MP_UNREACH attribute of a family whose NLRI
    decoder can panic (labeled unicast, VPN, BGP-LS, IPv6 Flowspec) or, with
    overflow checks, a BGPsec attribute; and on success every prefix list of
    MP_REACH and MP_UNREACH has a path-identifier list of the same length. *)
Theorem parse_path_attributes_panic_sources ctx buf :
  wp (hostile_attribute_in buf) (parse_path_attributes_with_context buf ctx) path_ids_parallel.
Proof. eapply wp_mono; [apply wp_parse_path_attributes|]. by intros a [Ha _]. Qed.

End PanicSources.

(** ** BGPsec block counting *)

(** 256 signature blocks of three octets are enough to overflow the
    block counter: with overflow checks the parser panics, without them the
    count wraps to zero. *)
Theorem bgpsec_block_count_overflow :
  let attr := bs ([0; 0] ++ mjoin (replicate 256 [0; 1; 1])) in
  parse_bgpsec_path (H := true) attr = Panic /\
  parse_bgpsec_path (H := false) attr = Ok (mkBgpsecPath [] 0 attr).
Proof. split; vm_compute; reflexivity. Qed.

(** ** Witnesses *)

Section AttributeWitnesses.
#[local] Instance witness_bytes : BytesBuf := reference_bytes.
#[local] Instance witness_ipnet : IpNetCrate := reference_ipnet.
#[local] Instance witness_profile : BuildProfile := true.

Lemma parse_as_path_roundtrip_witness :
  parse_as_path (bs [2; 2; 0xFD; 0x4C; 0xFD; 0x4D]) false = Ok (mkAsPath [Seg_Sequence [64844; 64845]]).
Proof.
  apply (parse_as_path_roundtrip false [Seg_Sequence [64844; 64845]]).
  apply Forall_singleton. split; [done|]. by repeat constructor.
Defined.

Lemma reconstruct_as_path_spec_witness :
  reconstruct_as_path (mkAsPath [Seg_Sequence [65001; 23456; 23456]]) (mkAsPath [Seg_Sequence [196608; 196609]])
    = mkAsPath [Seg_Sequence [65001; 196608; 196609]] /\
  all_asns (reconstruct_as_path (mkAsPath [Seg_Sequence [65001; 23456; 23456]])
                                (mkAsPath [Seg_Sequence [196608; 196609]]))
    = [65001; 196608; 196609].
Proof.
  split; [reflexivity|].
  exact (proj1 (reconstruct_as_path_spec (mkAsPath [Seg_Sequence [65001; 23456; 23456]])
                                         (mkAsPath [Seg_Sequence [196608; 196609]]))).
Defined.

(** ORIGIN IGP, then LOCAL_PREF 200 with an extended length. *)
Definition two_attributes : list WireAttribute :=
  [mkWireAttribute 0x40 1 (bs [0]); mkWireAttribute 0x50 5 (bs [0; 0; 0; 200])].

Lemma two_attributes_wf : Forall wire_attribute_wf two_attributes.
Proof. repeat constructor; vm_compute; intuition congruence. Qed.

Lemma parse_path_attributes_frames_witness :
  parse_path_attributes_with_context
    (bs [0x40; 1; 1; 0; 0x50; 5; 0; 4; 0; 0; 0; 200]) default_context =
    Ok (set_local_pref (Some 200) (set_origin (Some Origin_Igp) path_attributes_default)).
Proof.
  change (bs [0x40; 1; 1; 0; 0x50; 5; 0; 4; 0; 0; 0; 200]) with (two_attributes ≫= encode_attribute).
  rewrite (parse_path_attributes_frames default_context two_attributes two_attributes_wf).
  reflexivity.
Defined.

Lemma parse_path_attributes_panic_sources_witness :
  path_ids_parallel (set_local_pref (Some 200) (set_origin (Some Origin_Igp) path_attributes_default)).
Proof.
  exact (parse_path_attributes_panic_sources default_context
           (bs [0x40; 1; 1; 0; 0x50; 5; 0; 4; 0; 0; 0; 200])).
Defined.

End AttributeWitnesses.
