(* ===== verification/BgpUpdate.v ===== *)
(** * BGP UPDATE ([crates/rbmp-core/src/bgp/update.rs] and [BgpUpdate] of
    [types.rs]) *)

From Stdlib Require Import ZArith Lia ZifyBool String.
From stdpp Require Import base numbers list option strings gmap.
From S2P Require Import Prelude RustStd Crates CoreError BgpTypes.
From S2P Require Import Evpn Flowspec SrPolicy Nlri BgpLs BgpAttributes.

Local Open Scope Z_scope.

Record BgpUpdate := mkBgpUpdate {
  withdrawn : list Prefix;
  withdrawn_path_ids : list (option Z);
  attributes : PathAttributes;
  announced : list Prefix;
  announced_path_ids : list (option Z);
}.

Definition is_some {A} (o : option A) : bool := match o with Some _ => true | None => false end.
Definition is_empty {A} (l : list A) : bool := match l with [] => true | _ => false end.

(** [BgpUpdate::eor_afi_safi] *)
Definition eor_afi_safi (u : BgpUpdate) : option AfiSafi :=
  let a := attributes u in
  if negb (is_empty (withdrawn u))
     || negb (is_empty (announced u))
     || is_some (mp_reach a)
     || is_some (origin a)
     || is_some (as_path a)
     || is_some (next_hop a)
     || is_some (evpn_reach a)
     || is_some (evpn_unreach a)
     || is_some (flowspec_reach a)
     || is_some (flowspec_unreach a)
     || is_some (bgpls_reach a)
     || is_some (bgpls_unreach a)
     || negb (is_empty (sr_policy_nlris a))
     || negb (is_empty (rtc_nlris a))
     || negb (is_empty (unknown a))
  then None
  else
    match mp_unreach a with
    | None => Some ipv4_unicast
    | Some mp => if is_empty (mpu_prefixes mp) then Some (mpu_afi_safi mp) else None
    end.

Definition is_eor (u : BgpUpdate) : bool := is_some (eor_afi_safi u).

(** [ps.iter().zip(ids.iter().chain(repeat(&None)))] *)
Fixpoint zip_path_ids (ps : list Prefix) (ids : list (option Z)) : list (Prefix * option Z) :=
  match ps, ids with
  | [], _ => []
  | p :: ps', [] => (p, None) :: zip_path_ids ps' []
  | p :: ps', id :: ids' => (p, id) :: zip_path_ids ps' ids'
  end.

Definition all_announced_with_path_id (u : BgpUpdate) : list (Prefix * option Z) :=
  zip_path_ids (announced u) (announced_path_ids u)
  ++ match mp_reach (attributes u) with
     | Some mp => zip_path_ids (mpr_prefixes mp) (mpr_path_ids mp)
     | None => []
     end.

Definition all_withdrawn_with_path_id (u : BgpUpdate) : list (Prefix * option Z) :=
  zip_path_ids (withdrawn u) (withdrawn_path_ids u)
  ++ match mp_unreach (attributes u) with
     | Some mp => zip_path_ids (mpu_prefixes mp) (mpu_path_ids mp)
     | None => []
     end.

Definition all_announced (u : BgpUpdate) : list Prefix :=
  announced u ++ match mp_reach (attributes u) with Some mp => mpr_prefixes mp | None => [] end.

Definition all_withdrawn (u : BgpUpdate) : list Prefix :=
  withdrawn u ++ match mp_unreach (attributes u) with Some mp => mpu_prefixes mp | None => [] end.

(** ** Parsing *)

Definition BGP_UPDATE_TYPE : Z := 2.

Definition bgp_marker : bytes := replicate 16 Byte.xff.

Section Update.
Context `{BytesBuf} `{IpNetCrate} `{BuildProfile}.

(** The three fields after the header: withdrawn routes, attributes, NLRI. *)
Definition parse_update_body (body : bytes) (ctx : BgpDecodeContext) : Result BgpUpdate :=
  let add_path_ipv4 := has_add_path ctx ipv4_unicast in
  if blen body <? 2 then Err (UnexpectedEof 2 (blen body))
  else
    '(withdrawn_len, body) ← get_u16 body;
    if blen body <? withdrawn_len then Err (UnexpectedEof withdrawn_len (blen body))
    else
      '(withdrawn_bytes, body) ← copy_to_bytes withdrawn_len body;
      withdrawn_with_ids ← decode_nlri_with_path_id withdrawn_bytes Afi_Ipv4 add_path_ipv4;
      if blen body <? 2 then Err (UnexpectedEof 2 (blen body))
      else
        '(attr_len, body) ← get_u16 body;
        if blen body <? attr_len then Err (UnexpectedEof attr_len (blen body))
        else
          '(attr_bytes, body) ← copy_to_bytes attr_len body;
          attributes ← parse_path_attributes_with_context attr_bytes ctx;
          announced_with_ids ← decode_nlri_with_path_id body Afi_Ipv4 add_path_ipv4;
          Ok (mkBgpUpdate withdrawn_with_ids.*1 withdrawn_with_ids.*2 attributes
                announced_with_ids.*1 announced_with_ids.*2).

Definition parse_bgp_update_with_context (buf : bytes) (ctx : BgpDecodeContext) : Result BgpUpdate :=
  if blen buf <? 19 then Err (UnexpectedEof 19 (blen buf))
  else
    '(marker, buf) ← copy_to_bytes 16 buf;
    if negb (bool_decide (marker = bgp_marker)) then Err InvalidBgpMarker
    else
      '(msg_len, buf) ← get_u16 buf;
      '(msg_type, buf) ← get_u8 buf;
      if negb (msg_type =? BGP_UPDATE_TYPE) then Err (InvalidBgpMessageType msg_type)
      else if negb (in_range 23 4096 msg_len) then
        Err (BgpParse ("invalid BGP UPDATE declared length " ++ fmt_dec msg_len
                       ++ " (must be 23..=4096)"))
      else
        let body_len := msg_len - 19 in
        if blen buf <? body_len then Err (UnexpectedEof msg_len (19 + blen buf))
        else if body_len <? blen buf then
          Err (BgpParse ("BGP UPDATE buffer length " ++ fmt_dec (19 + blen buf)
                         ++ " exceeds declared length " ++ fmt_dec msg_len))
        else
          '(body, buf) ← copy_to_bytes body_len buf;
          parse_update_body body ctx.

Definition parse_bgp_update (buf : bytes) (add_path_ipv4 : bool) : Result BgpUpdate :=
  parse_bgp_update_with_context buf (with_add_path_ipv4 add_path_ipv4).

(** ** Specification: the wire form of an UPDATE *)

Definition encode_update_body (wd : list (Prefix * option Z)) (attrs : bytes)
    (nlri : list (Prefix * option Z)) : bytes :=
  to_be 2 (blen (wd ≫= encode_entry)) ++ (wd ≫= encode_entry)
  ++ to_be 2 (blen attrs) ++ attrs ++ (nlri ≫= encode_entry).

Definition encode_message (msg_type : Z) (body : bytes) : bytes :=
  bgp_marker ++ to_be 2 (19 + blen body) ++ [as_u8 msg_type] ++ body.

(** ** Theorems *)

Lemma parse_message_header body ctx :
  4 <= blen body -> 19 + blen body <= 4096 ->
  parse_bgp_update_with_context (encode_message 2 body) ctx = parse_update_body body ctx.
Proof.
  intros Hlo Hhi. unfold parse_bgp_update_with_context, encode_message.
  assert (blen bgp_marker = 16) as Hm by done.
  assert (blen (to_be 2 (19 + blen body)) = 2) as H2 by apply blen_to_be.
  rewrite !blen_app, Hm, H2. change (blen [as_u8 2]) with 1.
  rewrite (proj2 (Z.ltb_ge _ _)) by lia.
  rewrite copy_to_bytes_app, bind_Ok by done. rewrite bool_decide_true by done. cbn [negb].
  rewrite get_u16_app, bind_Ok, be_to_be by (done || lia).
  change ([as_u8 2] ++ body) with (as_u8 2 :: body). rewrite get_u8_cons, bind_Ok.
  change (negb (u8 (as_u8 2) =? BGP_UPDATE_TYPE)) with false. cbv iota.
  unfold in_range. rewrite (proj2 (Z.leb_le 23 _)), (proj2 (Z.leb_le _ 4096)) by lia. cbn [andb negb]. cbn zeta.
  replace (19 + blen body - 19) with (blen body) by lia.
  rewrite !(proj2 (Z.ltb_ge _ _)) by lia.
  rewrite <- (app_nil_r body) at 2. by rewrite copy_to_bytes_app.
Qed.

Lemma parse_update_body_encoded ctx wd attrs nlri :
  Forall (entry_wf Afi_Ipv4 (has_add_path ctx ipv4_unicast)) wd ->
  Forall (entry_wf Afi_Ipv4 (has_add_path ctx ipv4_unicast)) nlri ->
  blen (wd ≫= encode_entry) < 65536 -> blen attrs < 65536 ->
  parse_update_body (encode_update_body wd attrs nlri) ctx =
    (a ← parse_path_attributes_with_context attrs ctx;
     Ok (mkBgpUpdate wd.*1 wd.*2 a nlri.*1 nlri.*2)).
Proof.
  intros Hwd Hnlri Hlw Hla. unfold parse_update_body, encode_update_body. cbn zeta.
  set (w := wd ≫= encode_entry) in *. set (n := nlri ≫= encode_entry) in *.
  pose proof (blen_nonneg w). pose proof (blen_nonneg attrs). pose proof (blen_nonneg n).
  rewrite !blen_app, !blen_to_be, (proj2 (Z.ltb_ge _ _)) by lia.
  rewrite get_u16_app, be_to_be, bind_Ok by (done || apply blen_to_be).
  rewrite !blen_app, !blen_to_be, (proj2 (Z.ltb_ge _ _)) by lia.
  rewrite copy_to_bytes_app, bind_Ok by done. unfold w. rewrite decode_nlri_entries, bind_Ok by done.
  rewrite !blen_app, !blen_to_be, (proj2 (Z.ltb_ge _ _)) by lia.
  rewrite get_u16_app, be_to_be, bind_Ok by (done || apply blen_to_be).
  rewrite blen_app, (proj2 (Z.ltb_ge _ _)) by lia.
  rewrite copy_to_bytes_app, bind_Ok by done.
  destruct (parse_path_attributes_with_context attrs ctx); [|done..]. rewrite !bind_Ok.
  unfold n. by rewrite decode_nlri_entries.
Qed.

(** Claim C24: a BGP UPDATE built from withdrawn routes, path attributes and
    announced routes (with Add-Path identifiers exactly when the session
    negotiated them for IPv4 unicast) is parsed back to those routes, in order
    and with their identifiers, together with whatever its attributes parse to. *)
Theorem parse_bgp_update_roundtrip ctx wd attrs nlri :
  Forall (entry_wf Afi_Ipv4 (has_add_path ctx ipv4_unicast)) wd ->
  Forall (entry_wf Afi_Ipv4 (has_add_path ctx ipv4_unicast)) nlri ->
  19 + blen (encode_update_body wd attrs nlri) <= 4096 ->
  parse_bgp_update_with_context (encode_message 2 (encode_update_body wd attrs nlri)) ctx =
    (a ← parse_path_attributes_with_context attrs ctx;
     Ok (mkBgpUpdate wd.*1 wd.*2 a nlri.*1 nlri.*2)).
Proof.
  intros Hwd Hnlri Hlen.
  assert (blen (encode_update_body wd attrs nlri) =
            4 + blen (wd ≫= encode_entry) + blen attrs + blen (nlri ≫= encode_entry)) as Hb.
  { unfold encode_update_body. rewrite !blen_app, !blen_to_be. lia. }
  pose proof (blen_nonneg (wd ≫= encode_entry)). pose proof (blen_nonneg attrs).
  pose proof (blen_nonneg (nlri ≫= encode_entry)).
  rewrite parse_message_header by lia. apply parse_update_body_encoded; [done|done|lia|lia].
Qed.

(** What every successfully parsed UPDATE satisfies. *)
Definition update_wf (u : BgpUpdate) : Prop :=
  length (withdrawn_path_ids u) = length (withdrawn u) /\
  length (announced_path_ids u) = length (announced u) /\
  attributes_inv (attributes u).

Lemma hostile_attribute_app pre b post :
  hostile_attribute_in b -> hostile_attribute_in (pre ++ b ++ post).
Proof.
  intros (p & a & q & -> & Ha). exists (pre ++ p), a, (q ++ post). by rewrite <- !app_assoc.
Qed.

Lemma wp_parse_update_body body ctx :
  wp (hostile_attribute_in body) (parse_update_body body ctx) update_wf.
Proof.
  unfold parse_update_body. cbn zeta.
  wp_core; [done|]. apply wp_bind, wp_post; [buf_step; done|]. intros [wl b1] [-> Hwl]%get_u16_inv.
  wp_core; [done|]. apply wp_bind, wp_post; [buf_step; done|]. intros [wb b2] [-> Hwb]%copy_to_bytes_inv; [|lia].
  apply wp_bind. eapply wp_mono; [apply wp_decode_nlri_with_path_id|]. intros w _.
  wp_core; [done|]. apply wp_bind, wp_post; [buf_step; done|]. intros [al b3] [-> Hal]%get_u16_inv.
  wp_core; [done|]. apply wp_bind, wp_post; [buf_step; done|]. intros [ab b4] [-> Hab]%copy_to_bytes_inv; [|lia].
  apply wp_bind. pose proof (wp_parse_path_attributes ctx ab) as Ha.
  destruct (parse_path_attributes_with_context ab ctx) as [attrs| | |]; [|done| |done].
  - apply wp_ok, wp_bind. eapply wp_mono; [apply wp_decode_nlri_with_path_id|]. intros n _.
    apply wp_ok. split; [|split]; simpl; [by rewrite !length_fmap..|exact Ha].
  - pose proof (hostile_attribute_app (to_be 2 wl ++ wb ++ to_be 2 al) ab b4 Ha) as Hh.
    by rewrite <- !app_assoc in Hh.
Qed.

Lemma wp_parse_bgp_update buf ctx :
  wp (hostile_attribute_in buf) (parse_bgp_update_with_context buf ctx) (fun u =>
    update_wf u /\ 23 <= blen buf <= 4096 /\ take 16 buf = bgp_marker /\
    be (take 2 (drop 16 buf)) = blen buf).
Proof.
  unfold parse_bgp_update_with_context. wp_core; [done|].
  assert (19 <= blen buf) as H19 by lia.
  apply wp_bind, wp_post; [buf_step; done|]. intros [m b1] [-> Hm]%copy_to_bytes_inv; [|lia].
  rewrite blen_app, Hm in H19.
  wp_core; [done|]. apply wp_bind, wp_post; [buf_step; done|]. intros [len b2] [-> Hlen]%get_u16_inv.
  rewrite blen_app, blen_to_be in H19. apply wp_bind, wp_post; [buf_step; done|].
  intros [ty b3] [-> Hty]%get_u8_inv. wp_core; [done|]. wp_core; [done|]. cbn zeta.
  wp_core; [done|]. wp_core; [done|]. unfold in_range in *.
  apply wp_bind, wp_post; [buf_step; done|]. intros [body b4] [-> Hbody]%copy_to_bytes_inv; [|lia].
  pose proof (wp_parse_update_body body ctx) as Hu.
  destruct (parse_update_body body ctx) as [u| | |]; [|done| |done].
  - split; [exact Hu|]. rewrite !blen_app, blen_to_be, blen_cons, Hm in *.
    assert (length m = 16%nat) as Hm16 by (unfold blen in Hm; lia). rewrite blen_app in *.
    split; [lia|]. split.
    + rewrite <- Hm16, take_app_length. by destruct (bool_decide_reflect (m = bgp_marker)).
    + rewrite <- Hm16, drop_app_length.
      rewrite <- (length_to_be 2 len) at 1. rewrite take_app_length, be_to_be by done. lia.
  - pose proof (hostile_attribute_app (m ++ to_be 2 len ++ [as_u8 ty]) body b4 Hu) as Hh.
    by rewrite <- !app_assoc in Hh.
Qed.

(** Whatever the input, parsing an UPDATE ends, and it panics only if
    the buffer holds a hostile attribute; when it succeeds the buffer starts with the marker, has between 23 and 4096 octets and exactly
    the declared length, and every route list of the result has a list of path
    identifiers of the same length. *)
Theorem parse_bgp_update_sound buf ctx :
  wp (hostile_attribute_in buf) (parse_bgp_update_with_context buf ctx) (fun u =>
    update_wf u /\ 23 <= blen buf <= 4096 /\ take 16 buf = bgp_marker /\
    be (take 2 (drop 16 buf)) = blen buf).
Proof. apply wp_parse_bgp_update. Qed.

(** ** End-of-RIB *)

(** MP_UNREACH_NLRI with no NLRI. *)
Definition eor_attribute (a s : Z) : WireAttribute := mkWireAttribute 0x80 15 (to_be 2 a ++ [as_u8 s]).

Lemma parse_mp_unreach_empty ctx a s :
  0 <= a < 65536 -> 0 <= s < 256 ->
  parse_mp_unreach (to_be 2 a ++ [as_u8 s]) ctx =
    Ok (mkMpUnreach (afi_safi_new a s) [] [], None, None, None, None, []).
Proof.
  intros Ha Hs. unfold parse_mp_unreach.
  change (blen (to_be 2 a ++ [as_u8 s]) <? 3) with false. cbv iota.
  rewrite (be_at_app 2 [] (to_be 2 a) [as_u8 s]) by (done || apply blen_to_be).
  rewrite be_to_be, bind_Ok by done.
  change (idx (to_be 2 a ++ [as_u8 s]) 2) with (Ok (E := Error) (u8 (as_u8 s))).
  rewrite u8_as_u8, bind_Ok by done. done.
Qed.

Lemma parse_eor_attribute ctx a s :
  0 <= a < 65536 -> 0 <= s < 256 ->
  parse_path_attributes_with_context (encode_attribute (eor_attribute a s)) ctx =
    Ok (set_mp_unreach (Some (mkMpUnreach (afi_safi_new a s) [] [])) path_attributes_default).
Proof.
  intros Ha Hs. rewrite <- (app_nil_r (encode_attribute _)).
  change (encode_attribute (eor_attribute a s) ++ []) with ([eor_attribute a s] ≫= encode_attribute).
  rewrite parse_attribute_stream.
  - cbn [for_each eor_attribute wa_flags wa_type wa_value]. unfold apply_attribute. cbn zeta.
    rewrite parse_mp_unreach_empty by done. done.
  - by apply Forall_singleton.
Qed.

(** Both forms of the End-of-RIB marker are recognised (RFC 4724): the
    UPDATE with no routes and no attributes as IPv4 unicast, and for every
    family the UPDATE whose only attribute is an empty MP_UNREACH of it. *)
Theorem eor_recognised ctx a s :
  0 <= a < 65536 -> 0 <= s < 256 ->
  eor_afi_safi <$> parse_bgp_update_with_context (encode_message 2 (encode_update_body [] [] [])) ctx
    = Ok (Some ipv4_unicast) /\
  eor_afi_safi <$> parse_bgp_update_with_context
      (encode_message 2 (encode_update_body [] (encode_attribute (eor_attribute a s)) [])) ctx
    = Ok (Some (afi_safi_new a s)).
Proof.
  intros Ha Hs. split.
  - rewrite parse_message_header by done. rewrite parse_update_body_encoded by done. done.
  - assert (blen (encode_attribute (eor_attribute a s)) = 6) as H6 by done.
    assert (blen (encode_update_body [] (encode_attribute (eor_attribute a s)) []) = 10) as H10.
    { unfold encode_update_body. rewrite !blen_app, H6, !blen_to_be. done. }
    rewrite parse_message_header, parse_update_body_encoded, parse_eor_attribute by (done || lia). done.
Qed.

End Update.

(** An UPDATE is taken for End-of-RIB exactly when it carries no
    route that the model of the message can hold and none of the attributes
    the test names; then the family is the one of MP_UNREACH, or IPv4 unicast. *)
Theorem eor_afi_safi_spec u f :
  eor_afi_safi u = Some f <->
  all_announced u = [] /\ all_withdrawn u = [] /\ mp_reach (attributes u) = None /\
  origin (attributes u) = None /\ as_path (attributes u) = None /\ next_hop (attributes u) = None /\
  evpn_reach (attributes u) = None /\ evpn_unreach (attributes u) = None /\
  flowspec_reach (attributes u) = None /\ flowspec_unreach (attributes u) = None /\
  bgpls_reach (attributes u) = None /\ bgpls_unreach (attributes u) = None /\
  sr_policy_nlris (attributes u) = [] /\ rtc_nlris (attributes u) = [] /\ unknown (attributes u) = [] /\
  f = default ipv4_unicast (mpu_afi_safi <$> mp_unreach (attributes u)).
Proof.
  destruct u as [w wi a n ni]. unfold eor_afi_safi, all_announced, all_withdrawn.
  cbn [attributes withdrawn announced]. split.
  - repeat match goal with
           | |- context [is_empty ?l] => destruct l; simpl; try (intros; discriminate)
           | |- context [is_some ?o] => destruct o; simpl; try (intros; discriminate)
           end.
    destruct (mp_unreach a) as [mp|]; [destruct (mpu_prefixes mp)|]; simpl; intros [= <-]; done.
  - intros ([-> ?]%app_nil & [-> Hmp]%app_nil & -> & -> & -> & -> & -> & -> & -> & -> & -> & -> & -> & -> & -> & ->).
    simpl. destruct (mp_unreach a) as [mp|]; simpl in *; [by rewrite Hmp|done].
Qed.

(** The path-identifier views list the same prefixes as the plain views. *)
Lemma zip_path_ids_fst ps ids : (zip_path_ids ps ids).*1 = ps.
Proof. revert ids. induction ps as [|p ps IH]; intros [|id ids]; simpl; f_equal; auto. Qed.

Lemma zip_path_ids_snd ps ids : length ids = length ps -> (zip_path_ids ps ids).*2 = ids.
Proof. revert ids. induction ps as [|p ps IH]; intros [|id ids]; simpl; intros; f_equal; auto with lia. Qed.

(** The announced and withdrawn routes with path identifiers are the
    announced and withdrawn routes, and in an UPDATE with parallel lists (every
    parsed one) the identifiers are exactly those of the message. *)
Theorem path_id_views u :
  (all_announced_with_path_id u).*1 = all_announced u /\
  (all_withdrawn_with_path_id u).*1 = all_withdrawn u /\
  (update_wf u ->
   (all_announced_with_path_id u).*2 =
     announced_path_ids u ++ default [] (mpr_path_ids <$> mp_reach (attributes u)) /\
   (all_withdrawn_with_path_id u).*2 =
     withdrawn_path_ids u ++ default [] (mpu_path_ids <$> mp_unreach (attributes u))).
Proof.
  unfold all_announced_with_path_id, all_withdrawn_with_path_id, all_announced, all_withdrawn.
  split_and!; [| |intros (Hw & Hn & [Hr Hu] & _); split]; rewrite fmap_app, ?zip_path_ids_fst; f_equal.
  - destruct (mp_reach _); [apply zip_path_ids_fst|done].
  - destruct (mp_unreach _); [apply zip_path_ids_fst|done].
  - by apply zip_path_ids_snd.
  - destruct (mp_reach _) eqn:Heq; simpl; [by apply zip_path_ids_snd, Hr|done].
  - by apply zip_path_ids_snd.
  - destruct (mp_unreach _) eqn:Heq; simpl; [by apply zip_path_ids_snd, Hu|done].
Qed.

(** ** Misclassified End-of-RIB *)

(** UPDATEs that are not End-of-RIB are taken for one: any UPDATE
    whose only content is attributes the test does not name (here LOCAL_PREF
    and communities), and any withdrawal of a route target constraint. *)
Theorem eor_false_positives lp cs :
  eor_afi_safi (mkBgpUpdate [] []
    (set_local_pref (Some lp) (set_communities cs path_attributes_default)) [] []) = Some ipv4_unicast /\
  eor_afi_safi <$> parse_bgp_update_with_context
      (H := reference_bytes) (H0 := reference_ipnet) (H1 := true)
      (encode_message 2 (encode_update_body []
         (bs [0x80; 15; 8; 0; 1; 132; 32; 0; 0; 253; 232]) [])) default_context
    = Ok (Some (mkAfiSafi Afi_Ipv4 Safi_RouteTargetConstraint)).
Proof. split; [reflexivity|vm_compute; reflexivity]. Qed.

(** ** Witnesses *)

Section UpdateWitnesses.
#[local] Instance witness_bytes : BytesBuf := reference_bytes.
#[local] Instance witness_ipnet : IpNetCrate := reference_ipnet.
#[local] Instance witness_profile : BuildProfile := true.

Lemma parse_bgp_update_roundtrip_witness :
  announced <$> parse_bgp_update_with_context
      (encode_message 2 (encode_update_body [] [] [(net_10_1_2, None)])) default_context
    = Ok [net_10_1_2].
Proof.
  rewrite (parse_bgp_update_roundtrip default_context [] [] [(net_10_1_2, None)]); [done|constructor| |done].
  apply Forall_singleton. split; [apply net_10_1_2_canonical|done].
Defined.

Lemma parse_bgp_update_sound_witness :
  23 <= blen (encode_message 2 (encode_update_body [] [] [(net_10_1_2, None)])) <= 4096.
Proof.
  exact (proj1 (proj2 (parse_bgp_update_sound
    (encode_message 2 (encode_update_body [] [] [(net_10_1_2, None)])) default_context))).
Defined.

Lemma eor_recognised_witness :
  eor_afi_safi <$> parse_bgp_update_with_context
      (encode_message 2 (encode_update_body [] (encode_attribute (eor_attribute 2 1)) [])) default_context
    = Ok (Some ipv6_unicast).
Proof. apply (eor_recognised default_context 2 1); done. Defined.

Lemma path_id_views_witness :
  (all_announced_with_path_id
     (mkBgpUpdate [] [] path_attributes_default [net_10_1_2] [Some 7])).*2 = [Some 7].
Proof.
  apply (path_id_views (mkBgpUpdate [] [] path_attributes_default [net_10_1_2] [Some 7])).
  by split_and!.
Defined.

End UpdateWitnesses.
