(* ===== verification/Capabilities.v ===== *)
(** * BGP OPEN and capabilities ([crates/rbmp-core/src/bgp/capabilities.rs],
    [crates/rbmp-core/src/bgp/open.rs]) and what two OPENs negotiate *)

From Stdlib Require Import ZArith Lia ZifyBool String.
From stdpp Require Import base numbers list option strings gmap.
From S2P Require Import Prelude RustStd Crates CoreError BgpTypes Nlri BgpUpdate.

Local Open Scope Z_scope.

(** [BgpOpenInfo] of [bmp/types.rs] *)
Record BgpOpenInfo := mkBgpOpenInfo {
  open_version : Z;
  open_asn : Z;
  open_hold_time : Z;
  open_bgp_id : Ipv4Addr;
  open_capabilities : list BgpCapability;
}.

(** The loop of the graceful restart arm: AFI(2), SAFI(1), flags(1), where the
    flags of a last, cut entry read as 0. *)
Definition graceful_restart_step (data : bytes) (st : Z * list (AfiSafi * Z))
    : Result ((Z * list (AfiSafi * Z)) + list (AfiSafi * Z)) :=
  let '(i, afi_safis) := st in
  if i + 3 <=? blen data then
    a ← be_at 2 data i;
    s ← idx data (i + 2);
    flags ← (if i + 3 <? blen data then idx data (i + 3) else Ok 0);
    Ok (inl (i + 4, afi_safis ++ [(afi_safi_new a s, flags)]))
  else Ok (inr afi_safis).

(** The loop of the Add-Path arm: AFI(2), SAFI(1), mode(1). *)
Definition add_path_step (data : bytes) (st : Z * list (AfiSafi * Z))
    : Result ((Z * list (AfiSafi * Z)) + list (AfiSafi * Z)) :=
  let '(i, entries) := st in
  if i + 4 <=? blen data then
    a ← be_at 2 data i;
    s ← idx data (i + 2);
    mode ← idx data (i + 3);
    Ok (inl (i + 4, entries ++ [(afi_safi_new a s, mode)]))
  else Ok (inr entries).

(** The FQDN arm. *)
Definition parse_fqdn (data : bytes) : Result BgpCapability :=
  if blen data =? 0 then Err (UnexpectedEof 1 0)
  else
    hostname_len ← idx data 0;
    if blen data <? 1 + hostname_len then Err (UnexpectedEof (1 + hostname_len) (blen data))
    else
      h ← slice data 1 (1 + hostname_len);
      let hostname := from_utf8_lossy h in
      if 1 + hostname_len <? blen data then
        domain_len ← idx data (1 + hostname_len);
        let start := 2 + hostname_len in
        if blen data <? start + domain_len then Err (UnexpectedEof (start + domain_len) (blen data))
        else
          d ← slice data start (start + domain_len);
          Ok (Cap_Fqdn hostname (from_utf8_lossy d))
      else Ok (Cap_Fqdn hostname "").

Definition parse_one_capability (code : Z) (data : bytes) : Result BgpCapability :=
  match code with
  | 1 =>
      if negb (blen data =? 4) then Err (UnexpectedEof 4 (blen data))
      else a ← be_at 2 data 0; s ← idx data 3; Ok (Cap_Multiprotocol (afi_safi_new a s))
  | 2 => Ok Cap_RouteRefresh
  | 5 =>
      if blen data <? 6 then Err (UnexpectedEof 6 (blen data))
      else
        a ← be_at 2 data 0; s ← idx data 3; nh ← be_at 2 data 4;
        Ok (Cap_ExtendedNextHop (afi_from a) (safi_from s) (afi_from nh))
  | 6 => Ok Cap_ExtendedMessage
  | 64 =>
      if blen data <? 2 then Err (UnexpectedEof 2 (blen data))
      else
        v ← be_at 2 data 0;
        let restart_time := Z.land v 0x0FFF in
        afi_safis ← loop (S (length data)) (graceful_restart_step data) (2, []);
        Ok (Cap_GracefulRestart restart_time afi_safis)
  | 65 =>
      if negb (blen data =? 4) then Err (UnexpectedEof 4 (blen data))
      else asn ← be_at 4 data 0; Ok (Cap_FourByteAsn asn)
  | 69 =>
      if negb (blen data mod 4 =? 0) then
        Err (BgpParse ("invalid Add-Path capability length " ++ fmt_dec (blen data)
                       ++ " (must be multiple of 4)"))
      else
        entries ← loop (S (length data)) (add_path_step data) (0, []);
        Ok (Cap_AddPath entries)
  | 70 => Ok Cap_EnhancedRouteRefresh
  | 71 => Ok (Cap_LongLivedGracefulRestart data)
  | 9 =>
      if blen data =? 0 then Err (UnexpectedEof 1 0)
      else r ← idx data 0; Ok (Cap_BgpRole r)
  | 73 => parse_fqdn data
  | _ => Ok (Cap_Unknown code data)
  end.

Section Open.
Context `{BytesBuf}.

(** One capability of the inner loop. *)
Definition parse_param_step (st : bytes * list BgpCapability)
    : Result ((bytes * list BgpCapability) + list BgpCapability) :=
  let '(param_buf, caps) := st in
  if 0 <? blen param_buf then
    if blen param_buf <? 2 then Err (UnexpectedEof 2 (blen param_buf))
    else
      '(cap_code, param_buf) ← get_u8 param_buf;
      '(cap_len, param_buf) ← get_u8 param_buf;
      if blen param_buf <? cap_len then Err (UnexpectedEof cap_len (blen param_buf))
      else
        '(cap_data, param_buf) ← copy_to_bytes cap_len param_buf;
        cap ← parse_one_capability cap_code cap_data;
        Ok (inl (param_buf, caps ++ [cap]))
  else Ok (inr caps).

(** One optional parameter of the outer loop; those that are not capabilities
    are skipped. *)
Definition parse_capabilities_step (st : bytes * list BgpCapability)
    : Result ((bytes * list BgpCapability) + list BgpCapability) :=
  let '(buf, caps) := st in
  if 0 <? blen buf then
    if blen buf <? 2 then Err (UnexpectedEof 2 (blen buf))
    else
      '(param_type, buf) ← get_u8 buf;
      '(param_len, buf) ← get_u8 buf;
      if blen buf <? param_len then Err (UnexpectedEof param_len (blen buf))
      else
        '(param_buf, buf) ← copy_to_bytes param_len buf;
        if negb (param_type =? 2) then Ok (inl (buf, caps))
        else
          caps ← loop (S (length param_buf)) parse_param_step (param_buf, caps);
          Ok (inl (buf, caps))
  else Ok (inr caps).

Definition parse_capabilities (buf : bytes) : Result (list BgpCapability) :=
  loop (S (length buf)) parse_capabilities_step (buf, []).

Definition BGP_OPEN_TYPE : Z := 1.

Definition four_byte_of (c : BgpCapability) : option Z :=
  match c with Cap_FourByteAsn asn => Some asn | _ => None end.

(** The fields after the header, [body_len] octets. *)
Definition parse_open_body (body_len : Z) (buf : bytes) : Result BgpOpenInfo :=
  '(version, buf) ← get_u8 buf;
  '(my_asn, buf) ← get_u16 buf;
  '(hold_time, buf) ← get_u16 buf;
  '(bgp_id, buf) ← copy_to_bytes 4 buf;
  '(opt_params_len, buf) ← get_u8 buf;
  if negb (10 + opt_params_len =? body_len) then
    Err (BgpParse ("BGP OPEN opt_params_len " ++ fmt_dec opt_params_len
                   ++ " does not match declared body length " ++ fmt_dec body_len))
  else
    '(params, buf) ← copy_to_bytes opt_params_len buf;
    capabilities ← parse_capabilities params;
    let asn := default my_asn (find_map four_byte_of capabilities) in
    Ok (mkBgpOpenInfo version asn hold_time bgp_id capabilities).

Definition parse_bgp_open (buf : bytes) : Result BgpOpenInfo :=
  if blen buf <? 19 then Err (UnexpectedEof 19 (blen buf))
  else
    '(marker, buf) ← copy_to_bytes 16 buf;
    if negb (bool_decide (marker = bgp_marker)) then Err InvalidBgpMarker
    else
      '(msg_len, buf) ← get_u16 buf;
      '(msg_type, buf) ← get_u8 buf;
      if negb (msg_type =? BGP_OPEN_TYPE) then Err (InvalidBgpMessageType msg_type)
      else if negb (in_range 29 4096 msg_len) then
        Err (BgpParse ("invalid BGP OPEN declared length " ++ fmt_dec msg_len
                       ++ " (must be 29..=4096)"))
      else
        let body_len := msg_len - 19 in
        if blen buf <? body_len then Err (UnexpectedEof msg_len (19 + blen buf))
        else if body_len <? blen buf then
          Err (BgpParse ("BGP OPEN buffer length " ++ fmt_dec (19 + blen buf)
                         ++ " exceeds declared length " ++ fmt_dec msg_len))
        else parse_open_body body_len buf.

End Open.

(** ** Safety *)

Section OpenSafety.
Context (pn : Prop).

Lemma wp_graceful_restart data : 2 <= blen data ->
  wp pn (loop (S (length data)) (graceful_restart_step data) (2, [])) (fun _ => True).
Proof.
  intros Hd.
  apply (wp_loop _ (fun st => 0 <= st.1) (fun st => Z.to_nat (blen data - st.1)));
    [done|simpl; rewrite length_blen; lia|].
  intros [i acc] Hi. cbn [fst] in Hi. unfold graceful_restart_step.
  repeat wp_step; try done; simpl; lia.
Qed.

Lemma wp_add_path data :
  wp pn (loop (S (length data)) (add_path_step data) (0, [])) (fun _ => True).
Proof.
  apply wp_loop_pos; [pose proof (blen_nonneg data); lia|]. intros i acc Hi. unfold add_path_step.
  repeat wp_step; try done. simpl. lia.
Qed.

(** The capability a parser returns has the code it was given. *)
Lemma wp_parse_one_capability code data :
  wp pn (parse_one_capability code data) (fun c => capability_code c = code).
Proof.
  assert (wp pn (parse_fqdn data) (fun c => capability_code c = 73)) as Hf
    by (unfold parse_fqdn; cbn zeta; repeat wp_step; done).
  unfold parse_one_capability.
  repeat case_match; try exact Hf;
    repeat first
      [ wp_step
      | eapply wp_mono; [apply wp_graceful_restart; lia|intros ? _]
      | eapply wp_mono; [apply wp_add_path|intros ? _] ]; done.
Qed.

Context `{BytesBuf}.

Lemma wp_parse_param buf caps :
  wp pn (loop (S (length buf)) parse_param_step (buf, caps)) (fun _ => True).
Proof.
  apply (wp_loop _ (fun _ => True) (fun st => length st.1)); [done|simpl; lia|].
  intros [b acc] _. unfold parse_param_step. wp_core; [|done]. wp_core; [done|].
  apply wp_bind. buf_step. apply wp_bind. buf_step. wp_core; [done|]. apply wp_bind. buf_step.
  apply wp_bind. eapply wp_mono; [apply wp_parse_one_capability|]. intros c _. apply wp_ok.
  split; [done|]. rewrite !length_blen. simpl. lia.
Qed.

Lemma wp_parse_capabilities buf : wp pn (parse_capabilities buf) (fun _ => True).
Proof.
  apply (wp_loop _ (fun _ => True) (fun st => length st.1)); [done|simpl; lia|].
  intros [b acc] _. unfold parse_capabilities_step. wp_core; [|done]. wp_core; [done|].
  apply wp_bind. buf_step. apply wp_bind. buf_step. wp_core; [done|]. apply wp_bind. buf_step.
  wp_core; [apply wp_ok; split; [done|]; rewrite !length_blen; simpl; lia|].
  apply wp_bind. eapply wp_mono; [apply wp_parse_param|]. intros c _. apply wp_ok.
  split; [done|]. rewrite !length_blen. simpl. lia.
Qed.

(** The ASN of an OPEN: the first four-octet ASN capability, or a two-octet ASN. *)
Definition open_wf (o : BgpOpenInfo) : Prop :=
  match find_map four_byte_of (open_capabilities o) with
  | Some asn => open_asn o = asn
  | None => 0 <= open_asn o < 65536
  end.

Lemma wp_parse_bgp_open buf :
  wp pn (parse_bgp_open buf) (fun o => open_wf o /\ 29 <= blen buf <= 4096).
Proof.
  unfold parse_bgp_open. wp_core; [done|]. apply wp_bind. buf_step. wp_core; [done|].
  apply wp_bind. buf_step. apply wp_bind. buf_step. wp_core; [done|]. wp_core; [done|]. cbn zeta.
  unfold in_range in *. wp_core; [done|]. wp_core; [done|]. unfold parse_open_body.
  apply wp_bind. buf_step. apply wp_bind. buf_step. apply wp_bind. buf_step. apply wp_bind. buf_step.
  apply wp_bind. buf_step. wp_core; [done|]. apply wp_bind. buf_step.
  apply wp_bind. eapply wp_mono; [apply wp_parse_capabilities|]. intros caps _. apply wp_ok.
  split; [|lia]. unfold open_wf. simpl. by destruct (find_map four_byte_of caps).
Qed.

End OpenSafety.

(** Parsing a BGP OPEN never panics and always ends; a parsed OPEN
    has 29 to 4096 octets, and its ASN is that of the first four-octet ASN
    capability if there is one, else the two-octet field. *)
Theorem parse_bgp_open_sound `{BytesBuf} buf :
  wp False (parse_bgp_open buf) (fun o => open_wf o /\ 29 <= blen buf <= 4096).
Proof. apply wp_parse_bgp_open. Qed.

(** ** The capability stream *)

(** An optional parameter: one of capabilities, or one of another type. *)
Inductive OptParam : Type :=
| CapParam (caps : list (Z * bytes))
| OtherParam (ty : Z) (value : bytes).

Definition encode_capability (c : Z * bytes) : bytes := as_u8 c.1 :: as_u8 (blen c.2) :: c.2.

Definition param_value (p : OptParam) : bytes :=
  match p with CapParam caps => caps ≫= encode_capability | OtherParam _ v => v end.

Definition param_type (p : OptParam) : Z := match p with CapParam _ => 2 | OtherParam ty _ => ty end.

Definition encode_param (p : OptParam) : bytes :=
  as_u8 (param_type p) :: as_u8 (blen (param_value p)) :: param_value p.

Definition param_caps (p : OptParam) : list (Z * bytes) :=
  match p with CapParam caps => caps | OtherParam _ _ => [] end.

Definition capability_wf (c : Z * bytes) : Prop := 0 <= c.1 < 256 /\ blen c.2 < 256.

Definition param_wf (p : OptParam) : Prop :=
  blen (param_value p) < 256 /\
  match p with
  | CapParam caps => Forall capability_wf caps
  | OtherParam ty _ => 0 <= ty < 256 /\ ty <> 2
  end.

Section Stream.
Context `{BytesBuf}.

Lemma parse_param_step_cap c rest acc :
  capability_wf c ->
  parse_param_step (encode_capability c ++ rest, acc) =
    (r ← parse_one_capability c.1 c.2; Ok (inl (rest, acc ++ [r]))).
Proof.
  destruct c as [code d]. intros [Hc Hd]. cbn [fst snd] in *. unfold parse_param_step, encode_capability.
  cbn [fst snd]. rewrite <- !app_comm_cons, !blen_cons. pose proof (blen_nonneg d). pose proof (blen_nonneg rest).
  rewrite (proj2 (Z.ltb_lt _ _)), (proj2 (Z.ltb_ge _ _)) by (rewrite blen_app; lia).
  rewrite get_u8_cons, bind_Ok, u8_as_u8, get_u8_cons, bind_Ok, u8_as_u8 by lia.
  rewrite blen_app, (proj2 (Z.ltb_ge _ _)) by lia. by rewrite copy_to_bytes_app, bind_Ok.
Qed.

Lemma loop_param caps acc :
  Forall capability_wf caps ->
  loop (S (length (caps ≫= encode_capability))) parse_param_step (caps ≫= encode_capability, acc) =
    (rs ← mapM (fun c => parse_one_capability c.1 c.2) caps; Ok (acc ++ rs)).
Proof.
  intros Hwf. rewrite <- (app_nil_r (caps ≫= encode_capability)) at 2.
  apply (loop_stream_mapM _ encode_capability (fun c => parse_one_capability c.1 c.2) capability_wf);
    [intros; by apply parse_param_step_cap|done|done|].
  apply Nat.lt_succ_r. by apply (length_stream _ capability_wf).
Qed.

Lemma parse_capabilities_step_param p rest acc :
  param_wf p ->
  parse_capabilities_step (encode_param p ++ rest, acc) =
    (rs ← mapM (fun c => parse_one_capability c.1 c.2) (param_caps p); Ok (inl (rest, acc ++ rs))).
Proof.
  intros [Hl Hp]. unfold parse_capabilities_step, encode_param. rewrite <- !app_comm_cons, !blen_cons.
  pose proof (blen_nonneg (param_value p)). pose proof (blen_nonneg rest).
  rewrite (proj2 (Z.ltb_lt _ _)), (proj2 (Z.ltb_ge _ _)) by (rewrite blen_app; lia).
  rewrite get_u8_cons, bind_Ok, u8_as_u8 by (destruct p; simpl in *; lia).
  rewrite get_u8_cons, bind_Ok, u8_as_u8, blen_app, (proj2 (Z.ltb_ge _ _)) by lia.
  rewrite copy_to_bytes_app, bind_Ok by done. destruct p as [caps|ty v]; cbn [param_type param_caps param_value].
  - change (negb (2 =? 2)) with false. cbv iota. rewrite loop_param by done. by destruct (mapM _ caps).
  - destruct Hp as [_ Hty]. rewrite (proj2 (Z.eqb_neq _ _)) by done. simpl. by rewrite app_nil_r.
Qed.

Lemma loop_capabilities ps acc fuel :
  Forall param_wf ps -> (length ps < fuel)%nat ->
  loop fuel parse_capabilities_step (ps ≫= encode_param, acc) =
    (rs ← mapM (fun c => parse_one_capability c.1 c.2) (ps ≫= param_caps); Ok (acc ++ rs)).
Proof.
  intros Hwf. revert acc fuel. induction Hwf as [|p ps Hp Hwf IH]; intros acc fuel Hf;
    (destruct fuel as [|fuel]; [simpl in Hf; lia|]); rewrite loop_S.
  - simpl. by rewrite app_nil_r.
  - rewrite !bind_cons, parse_capabilities_step_param, mapM_app_outcome by done.
    destruct (mapM _ (param_caps p)) as [r1| | |]; try done. simpl. rewrite IH by (simpl in Hf; lia).
    destruct (mapM _ (ps ≫= param_caps)); simpl; try done. by rewrite <- app_assoc.
Qed.

(** The capabilities of an OPEN, however they are spread over
    optional parameters and mixed with parameters of other types, are parsed
    each with its own value, in order; the first malformed one decides the
    error. *)
Theorem parse_capabilities_frames (ps : list OptParam) :
  Forall param_wf ps ->
  parse_capabilities (ps ≫= encode_param) =
    mapM (fun c => parse_one_capability c.1 c.2) (ps ≫= param_caps).
Proof.
  intros Hwf. unfold parse_capabilities. rewrite loop_capabilities; [|done|].
  - by destruct (mapM _ _).
  - apply Nat.lt_succ_r. by apply (length_stream _ param_wf).
Qed.

End Stream.

(** ** Negotiation *)

(** The family [f] with mode [mode] is among the Add-Path entries offered. *)
Definition offers (caps : list BgpCapability) (f : AfiSafi) (mode : Z) : Prop :=
  (f, mode) ∈ (caps ≫= add_path_entries).

(** A fold that inserts families is a union. *)
Lemma elem_of_foldl_union {A} (step : gset AfiSafi -> A -> gset AfiSafi) (P : A -> Prop) l s f :
  (forall s x, f ∈ step s x <-> f ∈ s \/ P x) ->
  f ∈ foldl step s l <-> f ∈ s \/ exists x, x ∈ l /\ P x.
Proof.
  intros Hstep. revert s. induction l as [|x l IH]; intros s; simpl.
  - split; [by left|]. by intros [?|(x & ?%not_elem_of_nil & _)].
  - rewrite IH, Hstep. split.
    + intros [[?|?]|(y & Hy & Hp)]; [by left| |];
        right; eauto using list_elem_of_here, list_elem_of_further.
    + intros [?|(y & Hy & Hp)]; [by left; left|].
      apply elem_of_cons in Hy as [->|Hy]; [left; by right|right; eauto].
Qed.

Lemma elem_of_negotiated four sent recv f :
  f ∈ add_path_families (from_negotiated_open four sent recv) <->
  exists sm rm, offers sent f sm /\ offers recv f rm /\ add_path_active sm rm = true.
Proof.
  unfold from_negotiated_open, offers. cbn [add_path_families].
  rewrite (elem_of_foldl_union _ (fun sc => exists e, e ∈ add_path_entries sc /\
             exists rc, rc ∈ recv /\ exists e', e' ∈ add_path_entries rc /\
               e.1 = e'.1 /\ add_path_active e.2 e'.2 = true /\ f = e.1)).
  - split.
    + intros [?|(sc & Hsc & [f1 sm] & Hs & rc & Hrc & [f2 rm] & Hr & Heq & Ha & Hf)]; [set_solver|].
      simpl in *. subst. exists sm, rm. rewrite !list_elem_of_bind. split_and!; eauto.
    + intros (sm & rm & (sc & Hs & Hsc)%list_elem_of_bind & (rc & Hr & Hrc)%list_elem_of_bind & Ha). right.
      exists sc. split; [done|]. exists (f, sm). split; [done|]. exists rc. split; [done|].
      exists (f, rm). done.
  - intros s sc. apply elem_of_foldl_union. intros s' [f1 sm]. apply elem_of_foldl_union. intros s'' rc.
    apply elem_of_foldl_union. intros t [f2 rm]. cbn [fst snd].
    destruct (bool_decide_reflect (f1 = f2)), (add_path_active sm rm); cbn [andb];
      rewrite ?elem_of_union, ?elem_of_singleton; naive_solver.
Qed.

(** Add-Path is active for a family exactly when both OPENs offer it
    with modes that complement each other, one side able to send and the other
    to receive (RFC 7911, section 5). *)
Theorem add_path_negotiation four sent recv f :
  has_add_path (from_negotiated_open four sent recv) f = true <->
  exists sm rm, offers sent f sm /\ offers recv f rm /\
    ((bit_set sm 1 = true /\ bit_set rm 2 = true) \/ (bit_set sm 2 = true /\ bit_set rm 1 = true)).
Proof.
  unfold has_add_path. rewrite bool_decide_eq_true, elem_of_negotiated. unfold add_path_active.
  split; intros (sm & rm & Hs & Hr & Ha); exists sm, rm; split_and!; try done.
  - by apply orb_true_iff in Ha as [[? ?]%andb_true_iff|[? ?]%andb_true_iff]; auto.
  - apply orb_true_iff. rewrite !andb_true_iff. tauto.
Qed.

Lemma add_path_active_sym sm rm : add_path_active sm rm = add_path_active rm sm.
Proof.
  unfold add_path_active. destruct (bit_set sm 1), (bit_set sm 2), (bit_set rm 1), (bit_set rm 2); done.
Qed.

(** Both ends of a session compute the same decoding context: swapping
    the two OPENs changes nothing, and four-octet ASNs are assumed when the
    caller says so or either side offers them. *)
Theorem negotiation_symmetric four sent recv :
  from_negotiated_open four sent recv = from_negotiated_open four recv sent /\
  four_byte_asn (from_negotiated_open four sent recv) =
    (four || existsb is_four_byte_cap sent || existsb is_four_byte_cap recv).
Proof.
  assert (forall s r, four_byte_asn (from_negotiated_open four s r) =
            (four || existsb is_four_byte_cap s || existsb is_four_byte_cap r)) as H4.
  { intros s r. unfold from_negotiated_open. cbn [four_byte_asn]. rewrite existsb_app. by rewrite orb_assoc. }
  split; [|apply H4].
  assert (add_path_families (from_negotiated_open four sent recv)
          = add_path_families (from_negotiated_open four recv sent)) as Hf.
  { apply set_eq. intros f. rewrite !elem_of_negotiated.
    split; intros (sm & rm & Hs & Hr & Ha); exists rm, sm; by rewrite add_path_active_sym. }
  pose proof (H4 sent recv) as H1. pose proof (H4 recv sent) as H2.
  rewrite <- orb_assoc, (orb_comm (existsb _ recv)), orb_assoc, <- H1 in H2.
  destruct (from_negotiated_open four sent recv), (from_negotiated_open four recv sent). simpl in *. by subst.
Qed.

(** ** Witnesses *)

Lemma parse_bgp_open_sound_witness :
  let open := encode_message 1 (bs [4; 0x5B; 0xA0; 0; 180; 10; 0; 0; 1; 8; 2; 6; 65; 4; 0; 1; 0; 0]) in
  open_asn <$> parse_bgp_open (H := reference_bytes) open = Ok 65536 /\ 29 <= blen open <= 4096.
Proof.
  intros open. split; [vm_compute; reflexivity|].
  exact (proj2 (parse_bgp_open_sound (H := reference_bytes) open)).
Defined.

Lemma parse_capabilities_frames_witness :
  parse_capabilities (H := reference_bytes) (bs [1; 1; 9; 2; 6; 2; 0; 69; 2; 1; 1]) =
    Err (BgpParse "invalid Add-Path capability length 2 (must be multiple of 4)").
Proof.
  change (bs [1; 1; 9; 2; 6; 2; 0; 69; 2; 1; 1])
    with ([OtherParam 1 (bs [9]); CapParam [(2, []); (69, bs [1; 1])]] ≫= encode_param).
  rewrite parse_capabilities_frames by (by repeat constructor).
  vm_compute. reflexivity.
Defined.

Lemma add_path_negotiation_witness :
  has_add_path (from_negotiated_open false [Cap_AddPath [(ipv4_unicast, 1)]] [Cap_AddPath [(ipv4_unicast, 2)]])
    ipv4_unicast = true.
Proof. apply add_path_negotiation. exists 1, 2. split_and!; [set_solver..|by left]. Defined.
