(* ===== verification/BmpTypes.v ===== *)
(** * BMP data model ([crates/rbmp-core/src/bmp/types.rs]) *)

From Stdlib Require Import ZArith Lia ZifyBool String.
From stdpp Require Import base numbers list option strings countable.
From S2P Require Import Prelude RustStd Crates CoreError BgpTypes.
From S2P Require Import BgpAttributes BgpUpdate Capabilities.

Local Open Scope Z_scope.

(** ** Message and peer types *)

Inductive BmpMsgType : Type :=
| Msg_RouteMonitoring
| Msg_StatsReport
| Msg_PeerDown
| Msg_PeerUp
| Msg_Initiation
| Msg_Termination
| Msg_RouteMirroring.

(** [impl TryFrom<u8> for BmpMsgType] *)
Definition msg_type_try_from (v : Z) : Result BmpMsgType :=
  match v with
  | 0 => Ok Msg_RouteMonitoring
  | 1 => Ok Msg_StatsReport
  | 2 => Ok Msg_PeerDown
  | 3 => Ok Msg_PeerUp
  | 4 => Ok Msg_Initiation
  | 5 => Ok Msg_Termination
  | 6 => Ok Msg_RouteMirroring
  | _ => Err (InvalidMessageType v)
  end.

Inductive PeerType : Type :=
| Peer_GlobalInstance
| Peer_RdInstance
| Peer_LocalInstance
| Peer_LocRib.

(** [impl TryFrom<u8> for PeerType] *)
Definition peer_type_try_from (v : Z) : Result PeerType :=
  match v with
  | 0 => Ok Peer_GlobalInstance
  | 1 => Ok Peer_RdInstance
  | 2 => Ok Peer_LocalInstance
  | 3 => Ok Peer_LocRib
  | _ => Err (BmpParse ("unknown peer type " ++ fmt_dec v))
  end.

(** [PeerFlags(pub u8)] *)
Record PeerFlags := mkPeerFlags { peer_flags_bits : Z }.

Definition flags_ipv6 (f : PeerFlags) : bool := bit_set (peer_flags_bits f) 0x80.
Definition flags_post_policy (f : PeerFlags) : bool := bit_set (peer_flags_bits f) 0x40.
Definition flags_as2 (f : PeerFlags) : bool := bit_set (peer_flags_bits f) 0x20.
Definition flags_four_byte_asn (f : PeerFlags) : bool := negb (flags_as2 f).
Definition flags_adj_rib_out (f : PeerFlags) : bool := bit_set (peer_flags_bits f) 0x10.
Definition flags_filtered (f : PeerFlags) : bool := bit_set (peer_flags_bits f) 0x80.

Inductive RibType : Type :=
| Rib_AdjRibInPrePolicy
| Rib_AdjRibInPostPolicy
| Rib_AdjRibOutPrePolicy
| Rib_AdjRibOutPostPolicy
| Rib_LocRib
| Rib_LocRibFiltered.

(** [RibType::from_peer] *)
Definition rib_type_from_peer (ty : PeerType) (flags : PeerFlags) : RibType :=
  match ty with
  | Peer_LocRib => if flags_filtered flags then Rib_LocRibFiltered else Rib_LocRib
  | Peer_GlobalInstance | Peer_RdInstance | Peer_LocalInstance =>
      if flags_adj_rib_out flags then
        if flags_post_policy flags then Rib_AdjRibOutPostPolicy else Rib_AdjRibOutPrePolicy
      else
        if flags_post_policy flags then Rib_AdjRibInPostPolicy else Rib_AdjRibInPrePolicy
  end.

(** ** Decidable equality and countability *)

#[global] Instance peer_type_eq_dec : EqDecision PeerType.
Proof. solve_decision. Defined.
#[global] Instance peer_flags_eq_dec : EqDecision PeerFlags.
Proof. solve_decision. Defined.
#[global] Instance rib_type_eq_dec : EqDecision RibType.
Proof. solve_decision. Defined.

#[global] Instance peer_type_countable : Countable PeerType.
Proof.
  refine (inj_countable
    (fun t => match t with
              | Peer_GlobalInstance => 0%nat | Peer_RdInstance => 1%nat
              | Peer_LocalInstance => 2%nat | Peer_LocRib => 3%nat
              end)
    (fun n => match n with
              | 0%nat => Some Peer_GlobalInstance | 1%nat => Some Peer_RdInstance
              | 2%nat => Some Peer_LocalInstance | _ => Some Peer_LocRib
              end) _).
  by intros [].
Defined.

#[global] Instance rib_type_countable : Countable RibType.
Proof.
  refine (inj_countable
    (fun t => match t with
              | Rib_AdjRibInPrePolicy => 0%nat | Rib_AdjRibInPostPolicy => 1%nat
              | Rib_AdjRibOutPrePolicy => 2%nat | Rib_AdjRibOutPostPolicy => 3%nat
              | Rib_LocRib => 4%nat | Rib_LocRibFiltered => 5%nat
              end)
    (fun n => match n with
              | 0%nat => Some Rib_AdjRibInPrePolicy | 1%nat => Some Rib_AdjRibInPostPolicy
              | 2%nat => Some Rib_AdjRibOutPrePolicy | 3%nat => Some Rib_AdjRibOutPostPolicy
              | 4%nat => Some Rib_LocRib | _ => Some Rib_LocRibFiltered
              end) _).
  by intros [].
Defined.

(** ** Routing identities *)

Definition EVENT_SCHEMA_VERSION : Z := 2.

Record ObservationSource := mkObservationSource {
  collector_id : string;
  exporter_id : string;
  exporter_addr : IpAddr;
  exporter_instance : string;
  session_epoch : Z;
}.

Definition observation_source_new (addr : IpAddr) (epoch : Z) : ObservationSource :=
  mkObservationSource "default" (ip_to_string addr) addr "default" epoch.

Definition observation_source_with_ids (collector exporter : string) (addr : IpAddr)
    (inst : string) (epoch : Z) : ObservationSource :=
  mkObservationSource collector exporter addr inst epoch.

Record PeerKey := mkPeerKey {
  pk_speaker_addr : IpAddr;
  pk_peer_type : PeerType;
  pk_peer_distinguisher : bytes;
  pk_peer_address : IpAddr;
}.

(** [PeerKey::distinguisher_string] *)
Definition distinguisher_string (k : PeerKey) : string :=
  let d := pk_peer_distinguisher k in
  (fmt_dec (be (take 4 d)) ++ ":" ++ fmt_dec (be (take 4 (drop 4 d))))%string.

Inductive ViewDirection : Type := View_Inbound | View_Outbound | View_Local.

Record ViewKey := mkViewKey {
  vk_peer : PeerKey;
  vk_afi_safi : AfiSafi;
  vk_rib_type : RibType;
  vk_direction : ViewDirection;
  vk_is_post_policy : bool;
  vk_is_filtered : bool;
}.

(** [ViewKey::from_peer] *)
Definition view_key_from_peer (peer : PeerKey) (f : AfiSafi) (rib : RibType) (flags : PeerFlags)
    : ViewKey :=
  let '(direction, is_post_policy, is_filtered) :=
    match rib with
    | Rib_AdjRibInPrePolicy => (View_Inbound, false, false)
    | Rib_AdjRibInPostPolicy => (View_Inbound, true, false)
    | Rib_AdjRibOutPrePolicy => (View_Outbound, false, false)
    | Rib_AdjRibOutPostPolicy => (View_Outbound, true, false)
    | Rib_LocRib => (View_Local, true, flags_filtered flags)
    | Rib_LocRibFiltered => (View_Local, true, true)
    end in
  mkViewKey peer f rib direction is_post_policy is_filtered.

Inductive CanonicalNlri : Type :=
| Nlri_IpUnicast (p : Prefix)
| Nlri_L3Vpn (rd : bytes) (prefix : Prefix)
| Nlri_Evpn (rd : string) (route_type : Z) (key : string).

(** [CanonicalNlri::from_prefix]: only the VPN label is dropped. *)
Definition canonical_from_prefix (p : Prefix) : CanonicalNlri :=
  match p with
  | Prefix_Vpn rd inner _ => Nlri_L3Vpn (rd_bytes rd) inner
  | other => Nlri_IpUnicast other
  end.

(** [CanonicalNlri::matches_prefix] *)
Definition canonical_matches_prefix (n : CanonicalNlri) (target : Prefix) : bool :=
  match n, target with
  | Nlri_IpUnicast p, t => bool_decide (p = t)
  | Nlri_L3Vpn rd prefix, Prefix_Vpn trd tp _ =>
      bool_decide (rd = rd_bytes trd) && bool_decide (prefix = tp)
  | _, _ => false
  end.

Record TableRouteKey := mkTableRouteKey { trk_nlri : CanonicalNlri; trk_path_id : option Z }.

(** [TableRouteKey::from_prefix] and [matches_prefix] *)
Definition route_key_from_prefix (p : Prefix) (path_id : option Z) : TableRouteKey :=
  mkTableRouteKey (canonical_from_prefix p) path_id.
Definition route_key_matches_prefix (k : TableRouteKey) (p : Prefix) : bool :=
  canonical_matches_prefix (trk_nlri k) p.

Record RouteKey := mkRouteKey { rk_view : ViewKey; rk_nlri : CanonicalNlri; rk_path_id : option Z }.

Record EventKey := mkEventKey { ek_schema_version : Z; ek_source : ObservationSource; ek_sequence : Z }.

Definition event_key_new (source : ObservationSource) (sequence : Z) : EventKey :=
  mkEventKey EVENT_SCHEMA_VERSION source sequence.

#[global] Instance peer_key_eq_dec : EqDecision PeerKey.
Proof. solve_decision. Defined.
#[global] Instance canonical_nlri_eq_dec : EqDecision CanonicalNlri.
Proof. solve_decision. Defined.
#[global] Instance table_route_key_eq_dec : EqDecision TableRouteKey.
Proof. solve_decision. Defined.
#[global] Instance observation_source_eq_dec : EqDecision ObservationSource.
Proof. solve_decision. Defined.

#[global] Instance peer_key_countable : Countable PeerKey.
Proof.
  refine (inj_countable'
    (fun k => (pk_speaker_addr k, pk_peer_type k, pk_peer_distinguisher k, pk_peer_address k))
    (fun '(a, t, d, p) => mkPeerKey a t d p) _).
  by intros [].
Defined.

#[global] Instance canonical_nlri_countable : Countable CanonicalNlri.
Proof.
  refine (inj_countable'
    (fun n => match n with
              | Nlri_IpUnicast p => inl (inl p)
              | Nlri_L3Vpn rd p => inl (inr (rd, p))
              | Nlri_Evpn rd t k => inr (rd, t, k)
              end)
    (fun c => match c with
              | inl (inl p) => Nlri_IpUnicast p
              | inl (inr (rd, p)) => Nlri_L3Vpn rd p
              | inr (rd, t, k) => Nlri_Evpn rd t k
              end) _).
  by intros [].
Defined.

#[global] Instance table_route_key_countable : Countable TableRouteKey.
Proof.
  refine (inj_countable' (fun k => (trk_nlri k, trk_path_id k)) (fun p => mkTableRouteKey p.1 p.2) _).
  by intros [].
Defined.

(** ** Messages *)

Inductive InitiationInfo : Type :=
| Info_SysDescr (s : string)
| Info_SysName (s : string)
| Info_AdminLabel (s : string)
| Info_Unknown (tlv_type : Z) (hex : string).

Inductive PeerDownReason : Type :=
| Down_LocalSystemClosed (notification : option bytes)
| Down_LocalSystemClosed2
| Down_RemoteSystemClosed (notification : option bytes)
| Down_RemoteSystemClosed2
| Down_PeerDeConfigured
| Down_VrfDown
| Down_Unknown (v : Z).

Record StatEntry := mkStatEntry {
  stat_type : Z;
  stat_label : string;
  stat_value : Z;
  stat_afi_safi : option AfiSafi;
}.

Definition stat_name (t : Z) : string :=
  match t with
  | 0 => "prefixes-rejected-by-inbound-policy"
  | 1 => "duplicate-prefix-advertisements"
  | 2 => "duplicate-withdrawals"
  | 3 => "cluster-list-loop-detections"
  | 4 => "as-path-loop-detections"
  | 5 => "originator-id-loop-detections"
  | 6 => "implicit-withdraw-count"
  | 7 => "explicit-withdraw-count"
  | 8 => "update-treatments-as-withdraw"
  | 9 => "prefixes-treated-as-withdraw"
  | 10 => "duplicate-update-messages"
  | 11 => "adj-rib-in-routes"
  | 12 => "loc-rib-routes"
  | 13 => "per-afi-safi-adj-rib-in-routes"
  | 14 => "per-afi-safi-loc-rib-routes"
  | 15 => "updates-subjected-to-treat-as-withdraw"
  | 16 => "prefixes-subjected-to-treat-as-withdraw"
  | 17 => "duplicate-update-messages-rcvd"
  | 18 => "pre-policy-adj-rib-in-routes"
  | 19 => "per-afi-safi-pre-policy-adj-rib-in-routes"
  | 20 => "post-policy-adj-rib-in-routes"
  | 21 => "per-afi-safi-post-policy-adj-rib-in-routes"
  | 22 => "per-afi-safi-pre-policy-routes-rejected-inbound"
  | 23 => "per-afi-safi-post-policy-routes-accepted-inbound"
  | 24 => "adj-rib-out-pre-policy-routes"
  | 25 => "per-afi-safi-adj-rib-out-pre-policy-routes"
  | 26 => "per-afi-safi-damped-routes"
  | 27 => "per-afi-safi-gr-stale-routes"
  | 28 => "per-afi-safi-llgr-stale-routes"
  | 29 => "pre-route-limit-adj-rib-in"
  | 30 => "per-afi-safi-pre-route-limit-adj-rib-in"
  | 31 => "pre-license-limit-routes"
  | 32 => "per-afi-safi-pre-license-limit-routes"
  | 33 => "max-aspath-length-rejected"
  | 34 => "per-afi-safi-max-aspath-length-rejected"
  | 35 => "per-afi-safi-rpki-invalidated-routes"
  | 36 => "per-afi-safi-rpki-not-valid-routes"
  | 37 => "adj-rib-out-post-policy-routes"
  | 38 => "per-afi-safi-adj-rib-out-post-policy-routes"
  | _ => "unknown"
  end.

Definition stat_is_per_afi_safi_11byte (t : Z) : bool :=
  match t with
  | 19 | 21 | 22 | 23 | 25 | 26 | 27 | 28 | 30 | 32 | 34 | 35 | 36 | 38 => true
  | _ => false
  end.

Definition stat_is_per_afi_safi_7byte (t : Z) : bool :=
  match t with 9 | 10 | 13 | 14 => true | _ => false end.

Section Messages.
Context `{Chrono}.

Record PeerHeader := mkPeerHeader {
  peer_type : PeerType;
  peer_flags : PeerFlags;
  peer_distinguisher : bytes;
  peer_address : IpAddr;
  peer_as : Z;
  peer_bgp_id : Ipv4Addr;
  peer_timestamp : DateTime;
  rib_type : RibType;
}.

(** [PeerKey::from_header] *)
Definition peer_key_from_header (speaker : IpAddr) (hdr : PeerHeader) : PeerKey :=
  mkPeerKey speaker (peer_type hdr) (peer_distinguisher hdr) (peer_address hdr).

Record PeerUpMessage := mkPeerUpMessage {
  pu_peer_header : PeerHeader;
  pu_local_addr : IpAddr;
  pu_local_port : Z;
  pu_remote_port : Z;
  pu_sent_open : BgpOpenInfo;
  pu_recv_open : BgpOpenInfo;
}.

Inductive BmpPayload : Type :=
| Bmp_Initiation (sys_name sys_descr : option string) (labels : list string)
| Bmp_Termination (reason_code : Z) (reason_text : option string)
| Bmp_PeerUp (m : PeerUpMessage)
| Bmp_PeerDown (hdr : PeerHeader) (reason : PeerDownReason)
| Bmp_RouteMonitoring (hdr : PeerHeader) (update : BgpUpdate)
| Bmp_StatsReport (hdr : PeerHeader) (stats : list StatEntry)
| Bmp_RouteMirroring (hdr : PeerHeader) (pdu : bytes).

(** A [Uuid] is its sixteen octets. *)
Record BmpMessage := mkBmpMessage {
  msg_id : bytes;
  msg_received_at : DateTime;
  msg_speaker_addr : IpAddr;
  msg_payload : BmpPayload;
}.

(** [BmpMessage::msg_type] *)
Definition payload_msg_type (p : BmpPayload) : string :=
  match p with
  | Bmp_Initiation _ _ _ => "initiation"
  | Bmp_Termination _ _ => "termination"
  | Bmp_PeerUp _ => "peer_up"
  | Bmp_PeerDown _ _ => "peer_down"
  | Bmp_RouteMonitoring _ _ => "route_monitoring"
  | Bmp_StatsReport _ _ => "stats_report"
  | Bmp_RouteMirroring _ _ => "route_mirroring"
  end.

End Messages.

(** ** Consistency of the derived identities *)

(** A view key built from a peer's own RIB type describes that peer:
    the direction, policy stage and filtered flag agree with the type and flag
    bits the type came from. *)
Theorem view_key_consistent peer f ty flags :
  let rib := rib_type_from_peer ty flags in
  let k := view_key_from_peer peer f rib flags in
  vk_direction k = (match ty with
                    | Peer_LocRib => View_Local
                    | _ => if flags_adj_rib_out flags then View_Outbound else View_Inbound
                    end) /\
  vk_is_post_policy k = (match ty with Peer_LocRib => true | _ => flags_post_policy flags end) /\
  vk_is_filtered k = (match ty with Peer_LocRib => flags_filtered flags | _ => false end).
Proof.
  cbn zeta. unfold rib_type_from_peer, view_key_from_peer.
  destruct ty; destruct (flags_filtered flags) eqn:?, (flags_adj_rib_out flags) eqn:?,
    (flags_post_policy flags) eqn:?; done.
Qed.

(** Two prefixes share a table key exactly when they are equal, or
    are VPN prefixes that differ only in their labels; a labeled-unicast
    prefix keeps its labels in the key. *)
Theorem table_key_identity p q id id' :
  route_key_from_prefix p id = route_key_from_prefix q id' <->
  id = id' /\
  (p = q \/ exists rd inner ls ls', p = Prefix_Vpn rd inner ls /\ q = Prefix_Vpn rd inner ls').
Proof.
  unfold route_key_from_prefix. split.
  - intros [= Hn ->]. split; [done|].
    destruct p as [| | |[rd] ip ls], q as [| | |[rd'] iq ls']; simpl in Hn; try discriminate;
      try (left; congruence).
    injection Hn as -> ->. right. by exists (mkRD rd'), iq, ls, ls'.
  - intros [-> [->|(rd & inner & ls & ls' & -> & ->)]]; done.
Qed.

(** A key matches the prefix it was built from. *)
Lemma key_matches_own p id : route_key_matches_prefix (route_key_from_prefix p id) p = true.
Proof.
  unfold route_key_matches_prefix. destruct p; simpl; by rewrite ?bool_decide_true.
Qed.
