(* ===== verification/BmpParser.v ===== *)
(** * BMP message parsing ([crates/rbmp-core/src/bmp/parser.rs]) *)

From Stdlib Require Import ZArith Lia ZifyBool String.
From stdpp Require Import base numbers list option strings.
From S2P Require Import Prelude RustStd Crates CoreError Tlv BgpTypes PathStatusTlv.
From S2P Require Import Nlri BgpAttributes BgpUpdate Capabilities BmpTypes.

Local Open Scope Z_scope.

Definition BMP_VERSION : Z := 3.
Definition BMP_HEADER_LEN : Z := 6.
Definition PEER_HEADER_LEN : Z := 42.
Definition DEFAULT_MAX_FRAME : Z := 65535.

Definition validate_bmp_header (hdr : bytes) (max_frame : Z) : Result (Z * BmpMsgType) :=
  if blen hdr <? BMP_HEADER_LEN then Err (UnexpectedEof BMP_HEADER_LEN (blen hdr))
  else
    version ← idx hdr 0;
    msg_len ← be_at 4 hdr 1;
    msg_type ← idx hdr 5;
    if negb (version =? BMP_VERSION) then Err (InvalidBmpVersion version)
    else if msg_len <? BMP_HEADER_LEN then
      Err (BmpParse ("BMP declared length " ++ fmt_dec msg_len ++ " is smaller than "
                     ++ fmt_dec BMP_HEADER_LEN ++ "-byte header"))
    else if max_frame <? msg_len then Err (FrameTooLarge msg_len max_frame)
    else
      msg_type ← msg_type_try_from msg_type;
      Ok (msg_len, msg_type).

(** ** Reading a frame from a stream

    [read_exact] of an asynchronous reader, under a deadline or without one,
    delivers the octets, meets the end of the stream, fails with another I/O
    error or (under a deadline) times out.  What it does is a parameter: for a
    requested length, the outcome and the reader that is left. *)
Inductive ReadOutcome (R : Type) : Type :=
| Read_Ok (data : bytes) (r : R)
| Read_Eof
| Read_Error
| Read_Timeout.

Arguments Read_Ok {R} data r.
Arguments Read_Eof {R}.
Arguments Read_Error {R}.
Arguments Read_Timeout {R}.

Section ReadFrame.
Context {R : Type} (read_exact : Z -> R -> ReadOutcome R).

(** [read_bmp_frame]; the reader left behind is returned with a frame.  The
    first read has no deadline. *)
Definition read_bmp_frame (reader : R) (max_frame : Z) : Result (option (bytes * R)) :=
  match read_exact 1 reader with
  | Read_Eof => Ok None
  | Read_Error | Read_Timeout => Err (Io Io_Other)
  | Read_Ok first reader =>
      match read_exact (BMP_HEADER_LEN - 1) reader with
      | Read_Eof => Err (UnexpectedEof BMP_HEADER_LEN 1)
      | Read_Error => Err (Io Io_Other)
      | Read_Timeout => Err (Io Io_TimedOut)
      | Read_Ok rest_hdr reader =>
          let hdr := first ++ rest_hdr in
          '(msg_len, _) ← validate_bmp_header hdr max_frame;
          if BMP_HEADER_LEN <? msg_len then
            match read_exact (msg_len - BMP_HEADER_LEN) reader with
            | Read_Eof => Err (UnexpectedEof msg_len BMP_HEADER_LEN)
            | Read_Error => Err (Io Io_Other)
            | Read_Timeout => Err (Io Io_TimedOut)
            | Read_Ok body reader => Ok (Some (hdr ++ body, reader))
            end
          else Ok (Some (hdr, reader))
      end
  end.

End ReadFrame.

(** ** The message parsers *)

Section Parser.
Context `{BytesBuf} `{IpNetCrate} `{BuildProfile} `{Clock}.

Definition parse_peer_header (buf : bytes) : Result (PeerHeader * bytes) :=
  if blen buf <? PEER_HEADER_LEN then Err (UnexpectedEof PEER_HEADER_LEN (blen buf))
  else
    b0 ← idx buf 0;
    peer_type ← peer_type_try_from b0;
    b1 ← idx buf 1;
    let peer_flags := mkPeerFlags b1 in
    rd ← slice buf 2 10;
    peer_address ←
      (if negb (bool_decide (peer_type = Peer_LocRib)) && flags_ipv6 peer_flags
       then b ← slice buf 10 26; Ok (IpAddr_V6 b)
       else b ← slice buf 22 26; Ok (IpAddr_V4 b));
    peer_as ← be_at 4 buf 26;
    bgp_id ← slice buf 30 34;
    ts_secs ← be_at 4 buf 34;
    ts_micros ← be_at 4 buf 38;
    ts_nanos ← checked_width 32 (ts_micros * 1000);
    let timestamp := default utc_now (timestamp_opt ts_secs ts_nanos) in
    let rib_type := rib_type_from_peer peer_type peer_flags in
    rest ← slice_from buf PEER_HEADER_LEN;
    Ok (mkPeerHeader peer_type peer_flags rd peer_address peer_as bgp_id timestamp rib_type, rest).

(** The strict TLV loop of Initiation, Termination and Route Mirroring: a
    short header or value is an error.  [body] gets type, length, the whole
    buffer, the position of the value and the state. *)
Definition strict_tlv_step {S} (body : Z -> bytes -> S -> Result S) (buf : bytes) (st : Z * S)
    : Result ((Z * S) + S) :=
  let '(pos, s) := st in
  if pos <? blen buf then
    if blen buf <? pos + 4 then Err (UnexpectedEof (pos + 4) (blen buf))
    else
      tlv_type ← be_at 2 buf pos;
      tlv_len ← be_at 2 buf (pos + 2);
      let pos := pos + 4 in
      if blen buf <? pos + tlv_len then Err (UnexpectedEof (pos + tlv_len) (blen buf))
      else
        raw ← slice buf pos (pos + tlv_len);
        s ← body tlv_type raw s;
        Ok (inl (pos + tlv_len, s))
  else Ok (inr s).

Definition strict_tlv_loop {S} (body : Z -> bytes -> S -> Result S) (buf : bytes) (s : S) : Result S :=
  loop (Datatypes.S (length buf)) (strict_tlv_step body buf) (0, s).

(** The [match] of [parse_initiation_tlvs]. *)
Definition initiation_info (tlv_type : Z) (raw : bytes) : InitiationInfo :=
  match tlv_type with
  | 0 => Info_AdminLabel (from_utf8_lossy raw)
  | 1 => Info_SysDescr (from_utf8_lossy raw)
  | 2 => Info_SysName (from_utf8_lossy raw)
  | other => Info_Unknown other (hex_encode raw)
  end.

Definition parse_initiation_tlvs (buf : bytes) : Result (list InitiationInfo) :=
  strict_tlv_loop (fun ty raw infos => Ok (infos ++ [initiation_info ty raw])) buf [].

(** The [match] of [parse_initiation]. *)
Definition apply_info (st : option string * option string * list string) (info : InitiationInfo)
    : option string * option string * list string :=
  let '(sys_name, sys_descr, labels) := st in
  match info with
  | Info_AdminLabel val => (sys_name, sys_descr, labels ++ [val])
  | Info_SysDescr val => (sys_name, Some val, labels)
  | Info_SysName val => (Some val, sys_descr, labels)
  | Info_Unknown _ _ => st
  end.

Definition parse_initiation (buf : bytes) : Result BmpPayload :=
  infos ← parse_initiation_tlvs buf;
  let '(sys_name, sys_descr, labels) := foldl apply_info (None, None, []) infos in
  Ok (Bmp_Initiation sys_name sys_descr labels).

(** The [match] of [parse_termination]. *)
Definition termination_tlv (tlv_type : Z) (raw : bytes) (st : Z * option string)
    : Result (Z * option string) :=
  let '(reason_code, reason_text) := st in
  match tlv_type with
  | 0 => Ok (reason_code, Some (from_utf8_lossy raw))
  | 1 =>
      if blen raw =? 2 then v ← be_at 2 raw 0; Ok (v, reason_text)
      else Err (BmpParse ("invalid Termination Reason TLV length " ++ fmt_dec (blen raw)
                          ++ ", expected 2"))
  | _ => Ok st
  end.

Definition parse_termination (buf : bytes) : Result BmpPayload :=
  '(reason_code, reason_text) ← strict_tlv_loop termination_tlv buf (0, None);
  Ok (Bmp_Termination reason_code reason_text).

Definition bgp_open_pdu_len (buf : bytes) : Result Z :=
  if blen buf <? 19 then Ok (blen buf) else be_at 2 buf 16.

Definition parse_bgp_open_pdu (buf : bytes) : Result BgpOpenInfo :=
  if blen buf <? 19 then Err (UnexpectedEof 19 (blen buf))
  else
    msg_len ← be_at 2 buf 16;
    if negb (in_range 29 4096 msg_len) then
      Err (BgpParse ("invalid BGP OPEN declared length " ++ fmt_dec msg_len
                     ++ " (must be 29..=4096)"))
    else if blen buf <? msg_len then Err (UnexpectedEof msg_len (blen buf))
    else pdu ← slice buf 0 msg_len; parse_bgp_open pdu.

Definition parse_peer_up (buf : bytes) : Result BmpPayload :=
  '(peer_header, rest) ← parse_peer_header buf;
  if blen rest <? 20 then Err (UnexpectedEof 20 (blen rest))
  else
    local_addr ←
      (if flags_ipv6 (peer_flags peer_header) then b ← slice rest 0 16; Ok (IpAddr_V6 b)
       else b ← slice rest 12 16; Ok (IpAddr_V4 b));
    local_port ← be_at 2 rest 16;
    remote_port ← be_at 2 rest 18;
    bgp_pdus ← slice_from rest 20;
    sent_open ← parse_bgp_open_pdu bgp_pdus;
    sent_len ← bgp_open_pdu_len bgp_pdus;
    recv_pdus ← slice_from bgp_pdus sent_len;
    recv_open ← parse_bgp_open_pdu recv_pdus;
    recv_len ← bgp_open_pdu_len recv_pdus;
    info ← slice_from recv_pdus recv_len;
    _infos ← parse_initiation_tlvs info;
    Ok (Bmp_PeerUp (mkPeerUpMessage peer_header local_addr local_port remote_port
                      sent_open recv_open)).

Definition parse_peer_down (buf : bytes) : Result BmpPayload :=
  '(peer_header, rest) ← parse_peer_header buf;
  if blen rest =? 0 then Err (UnexpectedEof 1 0)
  else
    reason_code ← idx rest 0;
    reason ←
      match reason_code with
      | 1 => n ← slice_from rest 1; Ok (Down_LocalSystemClosed (Some n))
      | 2 => Ok Down_LocalSystemClosed2
      | 3 => n ← slice_from rest 1; Ok (Down_RemoteSystemClosed (Some n))
      | 4 => Ok Down_RemoteSystemClosed2
      | 5 => Ok Down_PeerDeConfigured
      | 6 => Ok Down_VrfDown
      | _ => Ok (Down_Unknown reason_code)
      end;
    Ok (Bmp_PeerDown peer_header reason).

(** [update.attributes.path_status = Some(ps)] *)
Definition set_update_path_status (ps : PathStatusTlv) (u : BgpUpdate) : BgpUpdate :=
  mkBgpUpdate (withdrawn u) (withdrawn_path_ids u) (set_path_status (Some ps) (attributes u))
    (announced u) (announced_path_ids u).

Definition parse_route_monitoring (buf : bytes) (resolve_ctx : PeerHeader -> BgpDecodeContext)
    : Result BmpPayload :=
  '(peer_header, rest) ← parse_peer_header buf;
  if blen rest <? 19 then Err (UnexpectedEof 19 (blen rest))
  else
    path_status ← find_path_status_tlv rest PATH_STATUS_TLV_TYPE;
    let ctx := with_four_byte_asn (resolve_ctx peer_header) (negb (flags_as2 (peer_flags peer_header))) in
    update ← parse_bgp_update_with_context rest ctx;
    let update := match path_status with
                  | Some ps => set_update_path_status ps update
                  | None => update
                  end in
    Ok (Bmp_RouteMonitoring peer_header update).

(** The three layouts of a statistic. *)
Definition parse_stat_value (stat_type : Z) (v : bytes) : Result StatEntry :=
  let stat_len := blen v in
  if stat_is_per_afi_safi_11byte stat_type && (stat_len =? 11) then
    a ← be_at 2 v 0; s ← idx v 2; val ← be_at 8 v 3;
    Ok (mkStatEntry stat_type (stat_name stat_type) val (Some (afi_safi_new a s)))
  else if stat_is_per_afi_safi_7byte stat_type && (stat_len =? 7) then
    a ← be_at 2 v 0; s ← idx v 2; val ← be_at 4 v 3;
    Ok (mkStatEntry stat_type (stat_name stat_type) val (Some (afi_safi_new a s)))
  else
    value ← match stat_len with
            | 4 => be_at 4 v 0
            | 8 => be_at 8 v 0
            | _ => Ok 0
            end;
    Ok (mkStatEntry stat_type (stat_name stat_type) value None).

(** One round of [for _ in 0..stat_count]. *)
Definition parse_stat_step (rest : bytes) (st : Z * list StatEntry) : Result (Z * list StatEntry) :=
  let '(pos, stats) := st in
  if blen rest <? pos + 4 then Err (UnexpectedEof (pos + 4) (blen rest))
  else
    stat_type ← be_at 2 rest pos;
    stat_len ← be_at 2 rest (pos + 2);
    let pos := pos + 4 in
    if blen rest <? pos + stat_len then Err (UnexpectedEof (pos + stat_len) (blen rest))
    else
      v ← slice rest pos (pos + stat_len);
      entry ← parse_stat_value stat_type v;
      Ok (pos + stat_len, stats ++ [entry]).

(** [saturating_mul] on a 64-bit [usize] *)
Definition saturating_mul_usize (a b : Z) : Z := Z.min (a * b) (2 ^ 64 - 1).

Definition parse_stats_report (buf : bytes) : Result BmpPayload :=
  '(peer_header, rest) ← parse_peer_header buf;
  if blen rest <? 4 then Err (UnexpectedEof 4 (blen rest))
  else
    stat_count ← be_at 4 rest 0;
    let max_possible := Z.max 0 (blen rest - 4) / 4 in
    if max_possible <? stat_count then
      Err (UnexpectedEof (4 + saturating_mul_usize stat_count 4) (blen rest))
    else
      '(pos, stats) ← for_each (replicate (Z.to_nat stat_count) tt) (fun _ => parse_stat_step rest) (4, []);
      if negb (pos =? blen rest) then
        Err (BmpParse ("BMP StatsReport has " ++ fmt_dec (blen rest - pos)
                       ++ " trailing unparsed bytes"))
      else Ok (Bmp_StatsReport peer_header stats).

Definition mirroring_tlv (tlv_type : Z) (raw : bytes) (pdu : bytes) : Result bytes :=
  if tlv_type =? 0 then Ok raw else Ok pdu.

Definition parse_route_mirroring (buf : bytes) : Result BmpPayload :=
  '(peer_header, rest) ← parse_peer_header buf;
  pdu ← strict_tlv_loop mirroring_tlv rest [];
  Ok (Bmp_RouteMirroring peer_header pdu).

Definition parse_bmp_message_with_peer_context (buf : bytes) (_speaker_addr : IpAddr) (max_frame : Z)
    (resolve_ctx : PeerHeader -> BgpDecodeContext) : Result BmpPayload :=
  '(msg_len, msg_type) ← validate_bmp_header buf max_frame;
  if blen buf <? msg_len then Err (UnexpectedEof msg_len (blen buf))
  else if msg_len <? blen buf then
    Err (BmpParse ("BMP buffer length " ++ fmt_dec (blen buf)
                   ++ " exceeds declared message length " ++ fmt_dec msg_len))
  else
    body ← slice buf BMP_HEADER_LEN msg_len;
    match msg_type with
    | Msg_Initiation => parse_initiation body
    | Msg_Termination => parse_termination body
    | Msg_PeerUp => parse_peer_up body
    | Msg_PeerDown => parse_peer_down body
    | Msg_RouteMonitoring => parse_route_monitoring body resolve_ctx
    | Msg_StatsReport => parse_stats_report body
    | Msg_RouteMirroring => parse_route_mirroring body
    end.

Definition parse_bmp_message_with_context (buf : bytes) (speaker_addr : IpAddr) (max_frame : Z)
    (ctx : BgpDecodeContext) : Result BmpPayload :=
  parse_bmp_message_with_peer_context buf speaker_addr max_frame (fun _ => ctx).

Definition parse_bmp_message (buf : bytes) (speaker_addr : IpAddr) (max_frame : Z) : Result BmpPayload :=
  parse_bmp_message_with_peer_context buf speaker_addr max_frame (fun _ => default_context).

End Parser.

(** ** The header *)

Lemma idx_Ok {E} b i v : idx (E := E) b i = Ok v -> 0 <= i < blen b /\ v = be (take 1 (drop (Z.to_nat i) b)).
Proof.
  intros Hi. assert (0 <= i < blen b) as Hr by (unfold idx in Hi; case_if; [lia|done]).
  rewrite idx_be in Hi by done. by apply be_at_inv in Hi as (?&?&?&->).
Qed.

Lemma idx_value {E} b i :
  0 <= i < blen b -> idx (E := E) b i = Ok (be (take 1 (drop (Z.to_nat i) b))).
Proof.
  intros Hi. rewrite idx_be by done. unfold be_at. rewrite slice_ok by lia. simpl.
  by replace (i + 1 - i) with 1 by lia.
Qed.

Lemma be_at_value {E} n b p :
  0 <= n -> 0 <= p -> p + n <= blen b ->
  be_at (E := E) n b p = Ok (be (take (Z.to_nat n) (drop (Z.to_nat p) b))).
Proof. intros. unfold be_at. rewrite slice_ok by lia. simpl. by replace (p + n - p) with n by lia. Qed.

(** The field of [n] octets at [p], zero when the buffer is too short. *)
Definition field (n p : nat) (b : bytes) : Z := be (take n (drop p b)).

Lemma validate_bmp_header_iff hdr max_frame n ty :
  validate_bmp_header hdr max_frame = Ok (n, ty) <->
  6 <= blen hdr /\ field 1 0 hdr = 3 /\ field 4 1 hdr = n /\ 6 <= n <= max_frame /\
  msg_type_try_from (field 1 5 hdr) = Ok ty.
Proof.
  unfold validate_bmp_header, BMP_HEADER_LEN, BMP_VERSION. case_if.
  { split; [done|]. intros (?&_). lia. }
  rewrite !idx_value, be_at_value, !bind_Ok by lia.
  change (be (take 1 (drop (Z.to_nat 0) hdr))) with (field 1 0 hdr).
  change (be (take 1 (drop (Z.to_nat 5) hdr))) with (field 1 5 hdr).
  change (be (take (Z.to_nat 4) (drop (Z.to_nat 1) hdr))) with (field 4 1 hdr).
  destruct (Z.eqb_spec (field 1 0 hdr) 3) as [Hv|Hv]; simpl; [|split; [done|tauto]].
  case_if; [split; [done|]; intros (?&?&<-&?&?); lia|].
  case_if; [split; [done|]; intros (?&?&<-&?&?); lia|].
  destruct (msg_type_try_from (field 1 5 hdr)) as [t| | |]; simpl; split; try done.
  - intros [= <- <-]. split_and!; lia || done.
  - by intros (_&_&<-&_&[= <-]).
  - by intros (_&_&_&_&[=]).
  - by intros (_&_&_&_&[=]).
  - by intros (_&_&_&_&[=]).
Qed.

(** A BMP common header is accepted exactly when it has six octets,
    version 3, a known message type, and a declared length between six and the
    configured maximum; the declared length and the type are what is returned. *)
Theorem validate_bmp_header_spec hdr max_frame n ty :
  validate_bmp_header hdr max_frame = Ok (n, ty) <->
  6 <= blen hdr /\ field 1 0 hdr = 3 /\ field 4 1 hdr = n /\ 6 <= n <= max_frame /\
  msg_type_try_from (field 1 5 hdr) = Ok ty.
Proof. apply validate_bmp_header_iff. Qed.

Lemma wp_validate_bmp_header pn hdr max_frame :
  wp pn (validate_bmp_header hdr max_frame) (fun r => 6 <= r.1 <= max_frame).
Proof.
  unfold validate_bmp_header, BMP_HEADER_LEN. repeat wp_step; try done.
  assert (wp (E := Error) pn (msg_type_try_from v1) (fun _ => True)) as Hm
    by (unfold msg_type_try_from; repeat case_match; done).
  eapply wp_mono; [exact Hm|]. intros t _. apply wp_ok. simpl. lia.
Qed.

(** ** Framing *)

(** A frame read from a stream is exactly one BMP message of at most
    the configured size: the parser's own framing checks succeed on it, so
    reading and parsing agree on where a message ends.  [read_exact n] is
    assumed to deliver [n] octets when it succeeds. *)
Theorem read_bmp_frame_exact {R} (read_exact : Z -> R -> ReadOutcome R) :
  (forall n r data r', 0 <= n -> read_exact n r = Read_Ok data r' -> blen data = n) ->
  forall reader max_frame frame reader',
  read_bmp_frame read_exact reader max_frame = Ok (Some (frame, reader')) ->
  6 <= blen frame <= max_frame /\
  exists ty, validate_bmp_header frame max_frame = Ok (blen frame, ty).
Proof.
  intros Hread reader max_frame frame reader'. unfold read_bmp_frame.
  destruct (read_exact 1 reader) as [first r1| | |] eqn:H1; try done.
  destruct (read_exact (BMP_HEADER_LEN - 1) r1) as [rest r2| | |] eqn:H2; try done.
  apply Hread in H1; [|done]. apply Hread in H2; [|done]. unfold BMP_HEADER_LEN in *.
  intros ([n ty] & Hv & Hbody)%bind_Ok_inv. apply validate_bmp_header_iff in Hv as Hs.
  destruct Hs as (Hl & Hver & Hn & Hrange & Hty).
  assert (forall body, blen body = n - 6 -> 6 <= blen ((first ++ rest) ++ body) <= max_frame /\
            exists ty, validate_bmp_header ((first ++ rest) ++ body) max_frame
                       = Ok (blen ((first ++ rest) ++ body), ty)) as Hgo.
  { intros body Hb. rewrite !blen_app in *. split; [lia|]. exists ty. apply validate_bmp_header_iff.
    assert (forall k p, (p + k <= 6)%nat -> field k p ((first ++ rest) ++ body) = field k p (first ++ rest)) as Hf.
    { intros k p Hkp. unfold field. rewrite drop_app_le, take_app_le; [done| |].
      - rewrite length_drop, length_app. unfold blen in *. lia.
      - rewrite length_app. unfold blen in *. lia. }
    rewrite !Hf by lia. rewrite !blen_app. split_and!; try done; lia. }
  destruct (6 <? n) eqn:Hlt.
  - destruct (read_exact (n - 6) r2) as [body r3| | |] eqn:H3; try done. apply Hread in H3; [|lia].
    injection Hbody as <- <-. by apply Hgo.
  - injection Hbody as <- <-. rewrite <- (app_nil_r (first ++ rest)). apply Hgo. change (blen (@nil byte)) with 0. lia.
Qed.

(** ** Strict TLV streams *)

Section Strict.
Context {S : Type} (body : Z -> bytes -> S -> Result S).

Definition run_tlvs (ts : list Tlv) (s : S) : Result S :=
  for_each ts (fun t => body (tlv_type t) (tlv_value t)) s.

Lemma strict_tlv_step_tlv pre t post s :
  tlv_wf t ->
  strict_tlv_step body (pre ++ encode_tlv t ++ post) (blen pre, s) =
    (s' ← body (tlv_type t) (tlv_value t) s; Ok (inl (blen (pre ++ encode_tlv t), s'))).
Proof.
  intros Ht. unfold strict_tlv_step. pose proof (blen_encode_tlv t) as Hlen.
  pose proof (blen_nonneg (tlv_value t)). pose proof (blen_nonneg post).
  rewrite (read_tlv_type pre post t Ht (blen pre) eq_refl), (read_tlv_len pre post t Ht _ eq_refl).
  rewrite !blen_app, Hlen. rewrite (proj2 (Z.ltb_lt _ _)), (proj2 (Z.ltb_ge _ _)) by lia.
  rewrite !bind_Ok. cbn zeta. rewrite (proj2 (Z.ltb_ge _ _)), read_tlv_value, bind_Ok by (done || lia).
  destruct (body (tlv_type t) (tlv_value t) s); try done. rewrite !bind_Ok. do 3 f_equal. lia.
Qed.

Lemma strict_tlv_loop_encoded ts s :
  Forall tlv_wf ts -> strict_tlv_loop body (encode_tlvs ts) s = run_tlvs ts s.
Proof.
  intros Hwf. unfold strict_tlv_loop, run_tlvs. set (buf := encode_tlvs ts).
  assert (length ts < Datatypes.S (length buf))%nat as Hfuel
    by (pose proof (length_encode_tlvs ts); unfold buf; lia).
  assert (exists pre, buf = pre ++ encode_tlvs ts /\ blen pre = 0) as (pre & Hbuf & Hpre) by by exists [].
  rewrite <- Hpre. clear Hpre. clearbody buf. revert pre s Hbuf Hfuel.
  generalize (Datatypes.S (length buf)) as fuel.
  induction Hwf as [|t ts Ht Hwf IH]; intros fuel pre s Hbuf Hfuel;
    (destruct fuel as [|fuel]; [simpl in Hfuel; lia|]); rewrite loop_S.
  - rewrite encode_tlvs_nil, app_nil_r in Hbuf. unfold strict_tlv_step. subst pre. by rewrite Z.ltb_irrefl.
  - rewrite encode_tlvs_cons in Hbuf.
    rewrite Hbuf, strict_tlv_step_tlv, <- Hbuf by done. cbn [for_each].
    destruct (body (tlv_type t) (tlv_value t) s) as [s'| | |]; try done. rewrite !bind_Ok.
    apply IH; [by rewrite Hbuf, <- app_assoc|simpl in Hfuel; lia].
Qed.

(** Conversely a successful run read a well-formed stream. *)
Lemma strict_tlv_step_inv buf pos s r :
  0 <= pos <= blen buf -> strict_tlv_step body buf (pos, s) = Ok r ->
  (r = inr s /\ pos = blen buf) \/
  exists pre t post s', buf = pre ++ encode_tlv t ++ post /\ blen pre = pos /\ tlv_wf t /\
    body (tlv_type t) (tlv_value t) s = Ok s' /\ r = inl (blen (pre ++ encode_tlv t), s').
Proof.
  intros Hpos. unfold strict_tlv_step. case_if; [|intros [= <-]; left; split; [done|lia]].
  case_if; [done|]. intros (ty & Hty & (l & Hl & Hr)%bind_Ok_inv)%bind_Ok_inv. cbn zeta in Hr.
  case_if; [done|]. apply bind_Ok_inv in Hr as (v & Hv & Hr). apply bind_Ok_inv in Hr as (s' & Hs & [= <-]).
  right. destruct (tlv_at_inv buf v pos ty l Hty Hl Hv) as (pre & post & Hbuf & Hpre & Hwf).
  exists pre, (mkTlv ty v), post, s'. split_and!; try done. do 2 f_equal.
  rewrite blen_app, blen_encode_tlv, Hpre. simpl. apply slice_inv in Hv as (_&_&Hv&_). lia.
Qed.

Lemma strict_tlv_loop_inv buf s r :
  strict_tlv_loop body buf s = Ok r ->
  exists ts, Forall tlv_wf ts /\ buf = encode_tlvs ts /\ run_tlvs ts s = Ok r.
Proof.
  unfold strict_tlv_loop. generalize (Datatypes.S (length buf)) as fuel. intros fuel Hl.
  assert (forall pos s, 0 <= pos <= blen buf ->
    loop fuel (strict_tlv_step body buf) (pos, s) = Ok r ->
    exists ts pre, Forall tlv_wf ts /\ buf = pre ++ encode_tlvs ts /\ blen pre = pos /\
      run_tlvs ts s = Ok r) as Hgen.
  { clear. induction fuel as [|fuel IH]; intros pos s Hpos; [done|]. rewrite loop_S.
    destruct (strict_tlv_step body buf (pos, s)) as [x| | |] eqn:Hs; try done.
    apply strict_tlv_step_inv in Hs as [[-> Heq]|(pre & t & post & s' & Hbuf & Hp & Ht & Hb & ->)]; [| |done].
    - intros [= <-]. exists [], buf. rewrite encode_tlvs_nil, app_nil_r. done.
    - intros Hl. apply IH in Hl as (ts & pre' & Hts & Hbuf' & Hp' & Hr).
      + assert (pre' = pre ++ encode_tlv t /\ encode_tlvs ts = post) as [-> Hpost].
        { rewrite Hbuf, app_assoc in Hbuf'. apply app_inj_1 in Hbuf' as [? ?]; [done|].
          unfold blen in Hp'. lia. }
        exists (t :: ts), pre. split_and!; [by constructor| |done|].
        * by rewrite encode_tlvs_cons, Hpost.
        * unfold run_tlvs in *. cbn [for_each]. by rewrite Hb.
      + pose proof (blen_nonneg pre). pose proof (blen_nonneg (encode_tlv t)). pose proof (blen_nonneg post).
        rewrite Hbuf, !blen_app. lia. }
  destruct (Hgen 0 s) as (ts & pre & Hts & Hbuf & Hp & Hr); [pose proof (blen_nonneg buf); lia|done|].
  destruct pre; [by exists ts|rewrite blen_cons in Hp; pose proof (blen_nonneg pre); lia].
Qed.

Lemma wp_strict_tlv_loop pn (I : S -> Prop) buf s :
  I s -> (forall ty v s, I s -> wp pn (body ty v s) I) -> wp pn (strict_tlv_loop body buf s) I.
Proof.
  intros Hs Hbody. apply (wp_loop_pos_inv _ _ _ _ _ I); [pose proof (blen_nonneg buf); lia|done|].
  intros p s' Hp Hs'. unfold strict_tlv_step. wp_core; [|done]. wp_core; [done|].
  apply wp_bind. wp_step. apply wp_bind. wp_step. cbn zeta. wp_core; [done|].
  apply wp_bind. wp_step. apply wp_bind. eapply wp_mono; [by apply Hbody|].
  intros s'' Hs''. apply wp_ok. split; [simpl; lia|done].
Qed.

End Strict.

Lemma run_initiation ts acc :
  run_tlvs (fun ty raw infos => Ok (infos ++ [initiation_info ty raw])) ts acc =
    Ok (acc ++ ((fun t => initiation_info (tlv_type t) (tlv_value t)) <$> ts)).
Proof.
  revert acc. induction ts as [|t ts IH]; intros acc; unfold run_tlvs in *; cbn [for_each];
    [by rewrite app_nil_r|]. rewrite bind_Ok, IH. by rewrite <- app_assoc.
Qed.

(** Initiation (and Peer Up) information TLVs are parsed exactly: the
    parser succeeds on a buffer if and only if it is the encoding of a list of
    TLVs, and then returns one item per TLV, unknown types included. *)
Theorem parse_initiation_tlvs_exact buf infos :
  parse_initiation_tlvs buf = Ok infos <->
  exists ts, Forall tlv_wf ts /\ buf = encode_tlvs ts /\
    infos = (fun t => initiation_info (tlv_type t) (tlv_value t)) <$> ts.
Proof.
  unfold parse_initiation_tlvs. split.
  - intros (ts & Hwf & -> & Hr)%strict_tlv_loop_inv. rewrite run_initiation in Hr.
    injection Hr as <-. by exists ts.
  - intros (ts & Hwf & -> & ->). by rewrite strict_tlv_loop_encoded, run_initiation.
Qed.

Lemma parse_initiation_tlvs_exact_witness :
  parse_initiation_tlvs (bs [0; 2; 0; 4; 116; 101; 115; 116; 0; 1; 0; 2; 104; 119]) =
    Ok [Info_SysName "test"; Info_SysDescr "hw"].
Proof.
  apply parse_initiation_tlvs_exact.
  exists [mkTlv 2 (bs [116; 101; 115; 116]); mkTlv 1 (bs [104; 119])].
  split_and!; [by repeat constructor|reflexivity|reflexivity].
Defined.

(** ** The per-peer header *)

Section Peer.
Context `{BuildProfile} `{Clock}.

(** The 42 octets of a header; an IPv4 address is padded in front. *)
Definition encode_peer_header (ty : PeerType) (flags : PeerFlags) (rd : bytes) (addr : IpAddr)
    (asn : Z) (bgp_id : Ipv4Addr) (secs micros : Z) : bytes :=
  let ty_code := match ty with
                 | Peer_GlobalInstance => 0 | Peer_RdInstance => 1
                 | Peer_LocalInstance => 2 | Peer_LocRib => 3
                 end in
  let addr16 := match addr with
                | IpAddr_V4 a => replicate 12 Byte.x00 ++ a
                | IpAddr_V6 a => a
                end in
  [as_u8 ty_code; as_u8 (peer_flags_bits flags)] ++ rd ++ addr16 ++ to_be 4 asn ++ bgp_id
  ++ to_be 4 secs ++ to_be 4 micros.

(** The address family the flags announce (for a Loc-RIB peer, always IPv4). *)
Definition peer_addr_wf (ty : PeerType) (flags : PeerFlags) (addr : IpAddr) : Prop :=
  match addr with
  | IpAddr_V4 a => blen a = 4 /\ (ty = Peer_LocRib \/ flags_ipv6 flags = false)
  | IpAddr_V6 a => blen a = 16 /\ ty <> Peer_LocRib /\ flags_ipv6 flags = true
  end.

Section RoundTrip.
Context (ty : PeerType) (flags : PeerFlags) (rd : bytes) (addr : IpAddr) (asn : Z)
  (bgp_id : Ipv4Addr) (secs micros : Z) (rest : bytes).
Hypotheses (Hf : 0 <= peer_flags_bits flags < 256) (Hrd : blen rd = 8)
  (Haddr : peer_addr_wf ty flags addr) (Hasn : 0 <= asn < 2 ^ 32) (Hid : blen bgp_id = 4)
  (Hsecs : 0 <= secs < 2 ^ 32) (Hmicros : 0 <= micros < 2 ^ 32).

Let msg : bytes := encode_peer_header ty flags rd addr asn bgp_id secs micros ++ rest.

(** The two octets in front, and the address as sixteen octets. *)
Let lead : bytes := [as_u8 (match ty with
                            | Peer_GlobalInstance => 0 | Peer_RdInstance => 1
                            | Peer_LocalInstance => 2 | Peer_LocRib => 3
                            end); as_u8 (peer_flags_bits flags)].
Let addr16 : bytes := match addr with IpAddr_V4 a => replicate 12 Byte.x00 ++ a | IpAddr_V6 a => a end.

Lemma peer_msg_eq : msg = lead ++ rd ++ addr16 ++ to_be 4 asn ++ bgp_id ++ to_be 4 secs ++ to_be 4 micros ++ rest.
Proof. unfold msg, encode_peer_header. cbn zeta. by rewrite <- !app_assoc. Qed.

Lemma blen_addr16 : blen addr16 = 16.
Proof.
  unfold addr16. destruct addr; destruct Haddr as [? ?]; rewrite ?blen_app; unfold blen in *; simpl; lia.
Qed.

Ltac parts := rewrite peer_msg_eq, <- ?app_assoc; reflexivity.
Ltac lens := rewrite ?blen_app, ?blen_addr16, ?blen_to_be, ?Hrd, ?Hid; change (blen lead) with 2;
  change (blen (replicate 12 Byte.x00)) with 12; lia.

Lemma peer_msg_address :
  (if negb (bool_decide (ty = Peer_LocRib)) && flags_ipv6 flags
   then b ← slice msg 10 26; Ok (E := Error) (IpAddr_V6 b)
   else b ← slice msg 22 26; Ok (IpAddr_V4 b)) = Ok addr.
Proof using Haddr Hrd.
  pose proof peer_msg_eq as Hm. unfold addr16 in Hm.
  set (tail := to_be 4 asn ++ bgp_id ++ to_be 4 secs ++ to_be 4 micros ++ rest) in *.
  destruct addr as [a|a]; simpl in Haddr.
  - destruct Haddr as [Ha Hor].
    assert (negb (bool_decide (ty = Peer_LocRib)) && flags_ipv6 flags = false) as ->.
    { destruct Hor as [->| ->]; [done|]. by rewrite andb_false_r. }
    rewrite (slice_at _ (lead ++ rd ++ replicate 12 Byte.x00) a tail); [done| |lens|lia].
    rewrite Hm. by rewrite <- !app_assoc.
  - destruct Haddr as (Ha & Hne & Hv6). rewrite bool_decide_false, Hv6 by done. simpl.
    rewrite (slice_at _ (lead ++ rd) a tail); [done| |lens|lia]. rewrite Hm. by rewrite <- !app_assoc.
Qed.

(** Parsing an encoded header leaves only the multiplication to do. *)
Lemma peer_header_encoded :
  parse_peer_header msg =
    nanos ← checked_width 32 (micros * 1000);
    Ok (mkPeerHeader ty flags rd addr asn bgp_id
          (default utc_now (timestamp_opt secs nanos)) (rib_type_from_peer ty flags), rest).
Proof using All.
  unfold parse_peer_header, PEER_HEADER_LEN.
  assert (blen msg = 42 + blen rest) as Hlen by (rewrite peer_msg_eq; lens).
  pose proof (blen_nonneg rest). rewrite Hlen, (proj2 (Z.ltb_ge _ _)) by lia.
  assert (idx (E := Error) msg 0 = Ok (match ty with
      | Peer_GlobalInstance => 0 | Peer_RdInstance => 1 | Peer_LocalInstance => 2 | Peer_LocRib => 3 end)) as ->.
  { rewrite peer_msg_eq. unfold lead. rewrite <- !app_comm_cons, idx_cons. f_equal. by destruct ty. }
  assert (idx (E := Error) msg 1 = Ok (peer_flags_bits flags)) as ->.
  { rewrite peer_msg_eq. unfold lead. by rewrite <- !app_comm_cons, idx_cons_1, u8_as_u8. }
  assert (peer_type_try_from (match ty with
      | Peer_GlobalInstance => 0 | Peer_RdInstance => 1 | Peer_LocalInstance => 2 | Peer_LocRib => 3 end) = Ok ty)
    as Hty by by destruct ty.
  rewrite bind_Ok, Hty, !bind_Ok. replace (mkPeerFlags (peer_flags_bits flags)) with flags by by destruct flags.
  rewrite (slice_at msg lead rd _ 2 10 peer_msg_eq), bind_Ok by lens. rewrite peer_msg_address, bind_Ok.
  rewrite (be_at_at 4 msg (lead ++ rd ++ addr16) (to_be 4 asn) (bgp_id ++ to_be 4 secs ++ to_be 4 micros ++ rest) 26),
    bind_Ok, be_to_be; [|done|parts|lens|lens].
  rewrite (slice_at msg (lead ++ rd ++ addr16 ++ to_be 4 asn) bgp_id (to_be 4 secs ++ to_be 4 micros ++ rest) 30 34),
    bind_Ok; [|parts|lens|lens].
  rewrite (be_at_at 4 msg (lead ++ rd ++ addr16 ++ to_be 4 asn ++ bgp_id) (to_be 4 secs) (to_be 4 micros ++ rest) 34),
    bind_Ok, be_to_be; [|done|parts|lens|lens].
  rewrite (be_at_at 4 msg (lead ++ rd ++ addr16 ++ to_be 4 asn ++ bgp_id ++ to_be 4 secs) (to_be 4 micros) rest 38),
    bind_Ok, be_to_be; [|done|parts|lens|lens].
  unfold slice_from. rewrite Hlen.
  rewrite (slice_at msg (lead ++ rd ++ addr16 ++ to_be 4 asn ++ bgp_id ++ to_be 4 secs ++ to_be 4 micros) rest [] 42);
    [done|rewrite peer_msg_eq, app_nil_r, <- !app_assoc; reflexivity|lens|lia].
Qed.

End RoundTrip.

(** The per-peer header round trips: every field of an encoded header
    is recovered, the RIB type is the one its peer type and flags define, and
    the rest of the message is left untouched, provided the microseconds fit
    (below 4294968, which covers every legal value). *)
Theorem parse_peer_header_roundtrip ty flags rd addr asn bgp_id secs micros rest :
  0 <= peer_flags_bits flags < 256 -> blen rd = 8 -> peer_addr_wf ty flags addr ->
  0 <= asn < 2 ^ 32 -> blen bgp_id = 4 -> 0 <= secs < 2 ^ 32 -> 0 <= micros * 1000 < 2 ^ 32 ->
  parse_peer_header (encode_peer_header ty flags rd addr asn bgp_id secs micros ++ rest) =
    Ok (mkPeerHeader ty flags rd addr asn bgp_id
          (default utc_now (timestamp_opt secs (micros * 1000))) (rib_type_from_peer ty flags), rest).
Proof.
  intros. rewrite peer_header_encoded by (done || lia). unfold checked_width.
  by rewrite (proj2 (Z.leb_le _ _)), (proj2 (Z.ltb_lt _ _)) by lia.
Qed.

(** The microseconds field of a header that makes the parser overflow. *)
Definition timestamp_overflows (buf : bytes) : Prop :=
  overflow_checks = true /\ 2 ^ 32 <= field 4 38 buf * 1000.

Lemma wp_parse_peer_header buf :
  wp (timestamp_overflows buf) (parse_peer_header buf) (fun r =>
    blen r.2 = blen buf - 42 /\ r.2 = drop 42 buf /\
    rib_type r.1 = rib_type_from_peer (peer_type r.1) (peer_flags r.1)).
Proof.
  unfold parse_peer_header, PEER_HEADER_LEN. wp_core; [done|]. apply wp_bind. wp_step.
  apply wp_bind, (wp_mono _ _ (fun _ => True)); [unfold peer_type_try_from; repeat case_match; done|].
  intros ty _. apply wp_bind. wp_step. cbn zeta. apply wp_bind. wp_step.
  apply wp_bind, (wp_mono _ _ (fun _ => True)); [repeat wp_step; done|]. intros addr _.
  apply wp_bind. wp_step. apply wp_bind. wp_step. apply wp_bind. wp_step.
  apply wp_bind, wp_be_at_value; [lia..|]. change (be _) with (field 4 38 buf).
  assert (0 <= field 4 38 buf) by apply be_bounds.
  apply wp_bind, wp_checked_width; [lia|intros ? ?; split; [done|lia]|].
  intros nanos _ _. apply wp_bind, wp_post; [wp_step; done|].
  intros tl (_ & _ & Hlen & ->)%slice_inv. apply wp_ok. cbn [fst snd]. split; [done|]. split; [|done].
  by rewrite take_ge by (rewrite length_drop; unfold blen; lia).
Qed.

(** The microseconds of a per-peer header are multiplied in 32 bits:
    with overflow checks a value of 4294968 or more panics, whatever the rest
    of a header that is otherwise well-formed. *)
Theorem parse_peer_header_overflow_panics ty flags rd addr asn bgp_id secs micros rest :
  overflow_checks = true ->
  0 <= peer_flags_bits flags < 256 -> blen rd = 8 -> peer_addr_wf ty flags addr ->
  0 <= asn < 2 ^ 32 -> blen bgp_id = 4 -> 0 <= secs < 2 ^ 32 -> 4294968 <= micros < 2 ^ 32 ->
  parse_peer_header (encode_peer_header ty flags rd addr asn bgp_id secs micros ++ rest) = Panic.
Proof.
  intros Hchk **. rewrite peer_header_encoded by (done || lia). unfold checked_width.
  by rewrite Hchk, (proj2 (Z.ltb_ge _ _)), andb_false_r by lia.
Qed.

End Peer.

(** ** The message parsers *)

Section Messages.
Context `{BytesBuf} `{IpNetCrate} `{BuildProfile} `{Clock}.
Implicit Types pn : Prop.

(** What the parsed messages guarantee to their consumers. *)
Definition header_wf (h : PeerHeader) : Prop :=
  rib_type h = rib_type_from_peer (peer_type h) (peer_flags h).

Definition payload_wf (p : BmpPayload) : Prop :=
  match p with
  | Bmp_Initiation _ _ _ | Bmp_Termination _ _ => True
  | Bmp_PeerUp m =>
      header_wf (pu_peer_header m) /\ open_wf (pu_sent_open m) /\ open_wf (pu_recv_open m)
  | Bmp_PeerDown h _ | Bmp_StatsReport h _ | Bmp_RouteMirroring h _ => header_wf h
  | Bmp_RouteMonitoring h u => header_wf h /\ update_wf u
  end.

Lemma wp_parse_initiation_tlvs pn buf : wp pn (parse_initiation_tlvs buf) (fun _ => True).
Proof. by apply wp_strict_tlv_loop. Qed.

Lemma wp_parse_initiation pn buf : wp pn (parse_initiation buf) payload_wf.
Proof.
  unfold parse_initiation. apply wp_bind. eapply wp_mono; [apply wp_parse_initiation_tlvs|].
  intros infos _. by destruct (foldl apply_info (None, None, []) infos) as [[? ?] ?].
Qed.

Lemma wp_parse_termination pn buf : wp pn (parse_termination buf) payload_wf.
Proof.
  unfold parse_termination. apply wp_bind.
  eapply (wp_mono _ _ (fun _ => True)); [|by intros [? ?] _].
  apply wp_strict_tlv_loop; [done|]. intros ty v [code text] _. unfold termination_tlv.
  repeat case_match; try done. apply wp_bind. by wp_step.
Qed.

(** An accepted OPEN ends inside the buffer, so the slice behind it exists. *)
Lemma wp_parse_bgp_open_pdu pn buf :
  wp pn (parse_bgp_open_pdu buf) (fun o =>
    open_wf o /\ exists n, bgp_open_pdu_len buf = Ok n /\ 29 <= n <= blen buf).
Proof.
  unfold parse_bgp_open_pdu, bgp_open_pdu_len. wp_core; [done|].
  rewrite be_at_value, bind_Ok by lia. unfold in_range. wp_core; [done|]. wp_core; [done|].
  apply wp_bind. wp_step. eapply wp_mono; [apply wp_parse_bgp_open|]. intros o [Ho _].
  split; [done|]. eexists. split; [done|]. lia.
Qed.

Lemma wp_parse_peer_up buf : wp (timestamp_overflows buf) (parse_peer_up buf) payload_wf.
Proof.
  unfold parse_peer_up. apply wp_bind. eapply wp_mono; [apply wp_parse_peer_header|].
  intros [hdr rest] (_ & _ & Hh). cbn [fst snd] in Hh. wp_core; [done|].
  apply wp_bind, (wp_mono _ _ (fun _ => True)); [repeat wp_step; done|]. intros addr _.
  apply wp_bind. wp_step. apply wp_bind. wp_step.
  apply wp_bind, wp_post; [wp_step; done|]. intros pdus _.
  apply wp_bind. eapply wp_mono; [apply wp_parse_bgp_open_pdu|]. intros sent [Hsent (n & -> & Hn)].
  rewrite bind_Ok. apply wp_bind, wp_post; [wp_step; done|]. intros recv_pdus _.
  apply wp_bind. eapply wp_mono; [apply wp_parse_bgp_open_pdu|]. intros recv [Hrecv (m & -> & Hm)].
  rewrite bind_Ok. apply wp_bind. wp_step. apply wp_bind.
  eapply wp_mono; [apply wp_parse_initiation_tlvs|]. intros infos _. by apply wp_ok.
Qed.

Lemma wp_parse_peer_down buf : wp (timestamp_overflows buf) (parse_peer_down buf) payload_wf.
Proof.
  unfold parse_peer_down. apply wp_bind. eapply wp_mono; [apply wp_parse_peer_header|].
  intros [hdr rest] (_ & _ & Hh). pose proof (blen_nonneg rest). wp_core; [done|].
  apply wp_bind. wp_step. apply wp_bind, (wp_mono _ _ (fun _ => True)); [|intros ? _; exact Hh].
  repeat case_match; try done; apply wp_bind; by wp_step.
Qed.

Lemma wp_parse_route_mirroring buf : wp (timestamp_overflows buf) (parse_route_mirroring buf) payload_wf.
Proof.
  unfold parse_route_mirroring. apply wp_bind. eapply wp_mono; [apply wp_parse_peer_header|].
  intros [hdr rest] (_ & _ & Hh). apply wp_bind.
  eapply (wp_mono _ _ (fun _ => True)); [|intros ? _; exact Hh].
  apply wp_strict_tlv_loop; [done|]. intros. unfold mirroring_tlv. by case_if.
Qed.

Lemma wp_parse_route_monitoring buf resolve_ctx :
  wp (timestamp_overflows buf \/ hostile_attribute_in (drop 42 buf))
     (parse_route_monitoring buf resolve_ctx) (fun p =>
       payload_wf p /\ match p with
                       | Bmp_RouteMonitoring _ u => path_status (attributes u) = None
                       | _ => False
                       end).
Proof.
  unfold parse_route_monitoring. apply wp_bind.
  eapply wp_conseq; [apply wp_parse_peer_header|by left|].
  intros [hdr rest] (_ & Hrest & Hh). cbn [fst snd] in Hh, Hrest. subst rest. wp_core; [done|].
  apply wp_bind. pose proof (wp_parse_bgp_update (drop 42 buf)
    (with_four_byte_asn (resolve_ctx hdr) (negb (flags_as2 (peer_flags hdr))))) as Hu.
  destruct (starts_with_marker (drop 42 buf)) eqn:Hmark.
  - unfold find_path_status_tlv. rewrite Hmark. apply wp_ok. cbn zeta. apply wp_bind.
    eapply wp_conseq; [exact Hu|by right|]. intros u (Hwf & _). apply wp_ok. split; [done|apply Hwf].
  - eapply wp_conseq; [apply find_path_status_tlv_safe|done|]. intros ps _. cbn zeta.
    apply wp_bind. eapply wp_conseq; [exact Hu|by right|]. intros u (_ & _ & Hm & _).
    exfalso. revert Hmark. unfold starts_with_marker. rewrite Hm, (proj2 (Z.leb_le _ _)) by lia. done.
Qed.

(** The statistics are a TLV stream with a count in front. *)
Definition stat_of (t : Tlv) : Result StatEntry := parse_stat_value (tlv_type t) (tlv_value t).

Lemma wp_parse_stat_value pn ty v : wp pn (parse_stat_value ty v) (fun _ => True).
Proof.
  unfold parse_stat_value. wp_core.
  - repeat (apply wp_bind; wp_step). done.
  - wp_core.
    + repeat (apply wp_bind; wp_step). done.
    + apply wp_bind, (wp_mono _ _ (fun _ => True)); [|done]. pose proof (blen_nonneg v).
      repeat case_match; try done; wp_step; lia || done.
Qed.

Lemma stat_step_tlv pre t post stats :
  tlv_wf t ->
  parse_stat_step (pre ++ encode_tlv t ++ post) (blen pre, stats) =
    (e ← stat_of t; Ok (blen (pre ++ encode_tlv t), stats ++ [e])).
Proof.
  intros Ht. unfold parse_stat_step, stat_of. pose proof (blen_encode_tlv t) as Hlen.
  pose proof (blen_nonneg (tlv_value t)). pose proof (blen_nonneg post).
  rewrite (read_tlv_type pre post t Ht (blen pre) eq_refl), (read_tlv_len pre post t Ht _ eq_refl).
  rewrite !blen_app, Hlen. rewrite (proj2 (Z.ltb_ge _ _)) by lia. rewrite !bind_Ok. cbn zeta.
  rewrite (proj2 (Z.ltb_ge _ _)), read_tlv_value, bind_Ok by (done || lia).
  destruct (parse_stat_value _ _); try done. rewrite !bind_Ok. do 2 f_equal. lia.
Qed.

Lemma stat_steps_tlvs ts pre stats :
  Forall tlv_wf ts ->
  for_each (replicate (length ts) tt) (fun _ => parse_stat_step (pre ++ encode_tlvs ts)) (blen pre, stats) =
    (es ← mapM stat_of ts; Ok (blen (pre ++ encode_tlvs ts), stats ++ es)).
Proof.
  intros Hwf. remember (pre ++ encode_tlvs ts) as buf eqn:Hbuf. revert pre stats Hbuf.
  induction Hwf as [|t ts Ht Hwf IH]; intros pre stats Hbuf.
  - rewrite encode_tlvs_nil, app_nil_r in Hbuf. subst. simpl. by rewrite app_nil_r.
  - rewrite encode_tlvs_cons in Hbuf. cbn [length replicate for_each].
    rewrite Hbuf at 1. rewrite stat_step_tlv by done. cbn [mapM].
    destruct (stat_of t) as [e| | |]; try done. rewrite !bind_Ok.
    rewrite IH by (rewrite Hbuf; apply app_assoc). destruct (mapM stat_of ts); try done. rewrite !bind_Ok.
    by rewrite <- app_assoc.
Qed.

Lemma wp_parse_stat_steps pn rest n pos stats :
  0 <= pos <= blen rest ->
  wp pn (for_each (replicate n tt) (fun _ => parse_stat_step rest) (pos, stats)) (fun r =>
    exists pre ts post, Forall tlv_wf ts /\ length ts = n /\ blen pre = pos /\
      rest = pre ++ encode_tlvs ts ++ post /\ r.1 = blen (pre ++ encode_tlvs ts)).
Proof.
  revert pos stats. induction n as [|n IH]; intros pos stats Hpos; cbn [replicate for_each].
  - apply wp_ok. exists (take (Z.to_nat pos) rest), [], (drop (Z.to_nat pos) rest).
    rewrite encode_tlvs_nil, app_nil_l, app_nil_r, blen_take, take_drop by lia. done.
  - apply wp_bind. unfold parse_stat_step at 1. wp_core; [done|].
    apply wp_bind, wp_post; [wp_step; done|]. intros ty Hty.
    apply wp_bind, wp_post; [wp_step; done|]. intros l Hl.
    assert (0 <= l) by (apply be_at_inv in Hl as (_&_&_&->); apply be_bounds).
    cbn zeta. wp_core; [done|]. apply wp_bind, wp_post; [wp_step; done|]. intros v Hv.
    apply wp_bind. eapply wp_mono; [apply wp_parse_stat_value|]. intros e _. apply wp_ok.
    eapply wp_mono; [apply IH; lia|]. intros [p' st'] (pre & ts & post & Hwf & Hn & Hp & Hr & Hend).
    destruct (tlv_at_inv rest v pos ty l Hty Hl Hv) as (pre0 & post0 & Hrest & Hp0 & Ht).
    assert (pre = pre0 ++ encode_tlv (mkTlv ty v) /\ encode_tlvs ts ++ post = post0) as [-> Hpost].
    { rewrite Hrest, app_assoc in Hr. apply app_inj_1 in Hr as [? ?]; [done|].
      apply Nat2Z.inj. change (blen (pre0 ++ encode_tlv (mkTlv ty v)) = blen pre).
      rewrite blen_app, blen_encode_tlv, Hp0, Hp. simpl. apply slice_inv in Hv as (_&_&Hv&_). lia. }
    exists pre0, (mkTlv ty v :: ts), post. cbn [fst] in *. rewrite encode_tlvs_cons, <- !app_assoc, Hpost.
    split_and!; [by constructor|simpl; lia|done|done|]. by rewrite Hend, <- app_assoc.
Qed.

Lemma four_per_tlv ts : 4 * Z.of_nat (length ts) <= blen (encode_tlvs ts).
Proof.
  induction ts as [|t ts IH]; [done|]. rewrite encode_tlvs_cons, blen_app, blen_encode_tlv.
  pose proof (blen_nonneg (tlv_value t)). simpl length. lia.
Qed.

Lemma stats_report_after_header buf h rest :
  parse_peer_header buf = Ok (h, rest) ->
  forall stats, parse_stats_report buf = Ok (Bmp_StatsReport h stats) <->
    exists ts, Forall tlv_wf ts /\ Z.of_nat (length ts) < 2 ^ 32 /\
      rest = to_be 4 (Z.of_nat (length ts)) ++ encode_tlvs ts /\ mapM stat_of ts = Ok stats.
Proof.
  intros Hh stats. unfold parse_stats_report. rewrite Hh, bind_Ok. split.
  - case_if; [done|]. rewrite be_at_value, bind_Ok by lia. change (be _) with (field 4 0 rest). cbn zeta.
    case_if; [done|]. set (n := field 4 0 rest) in *.
    assert (0 <= n < 2 ^ 32) as Hn.
    { unfold n, field. pose proof (be_bounds (take 4 (drop 0 rest))) as Hb.
      rewrite drop_0 in *. change (take 4 rest) with (take (Z.to_nat 4) rest) in *.
      rewrite blen_take in Hb by lia. exact Hb. }
    pose proof (wp_parse_stat_steps False rest (Z.to_nat n) 4 [] ltac:(lia)) as Hw.
    intros ([pos es] & Hsteps & Hend)%bind_Ok_inv. rewrite Hsteps in Hw.
    destruct Hw as (pre & ts & post & Hwf & Hlen & Hpre & Hrest & Hpos). cbn [fst] in Hpos.
    destruct (Z.eqb_spec pos (blen rest)) as [Hall|]; [|done]. injection Hend as ->.
    assert (post = []) as ->.
    { rewrite Hrest, app_assoc, blen_app, <- Hpos in Hall. destruct post; [done|].
      rewrite blen_cons in Hall. pose proof (blen_nonneg post). lia. }
    rewrite app_nil_r in Hrest. exists ts. split_and!; [done|lia| |].
    + rewrite Hrest at 1. f_equal. rewrite Hlen, Z2Nat.id by lia. unfold n, field. rewrite drop_0, Hrest.
      rewrite take_app_length' by (unfold blen in Hpre; lia). symmetry. by apply to_be_be_len.
    + rewrite Hrest, <- Hlen, <- Hpre, stat_steps_tlvs in Hsteps by done.
      apply bind_Ok_inv in Hsteps as (es' & -> & [= _ <-]). done.
  - intros (ts & Hwf & Hlen & -> & Hes). pose proof (length_encode_tlvs ts).
    set (n := Z.of_nat (length ts)) in *. assert (blen (to_be 4 n) = 4) as Ht4 by apply blen_to_be.
    pose proof (blen_nonneg (encode_tlvs ts)).
    rewrite (proj2 (Z.ltb_ge _ _)) by (rewrite blen_app; lia).
    rewrite (be_at_at 4 _ [] (to_be 4 n) (encode_tlvs ts) 0), bind_Ok, be_to_be
      by (done || (change (256 ^ Z.of_nat 4) with (2 ^ 32); lia)). cbn zeta.
    rewrite (proj2 (Z.ltb_ge _ _)).
    2:{ rewrite blen_app, Ht4. apply Z.div_le_lower_bound; [lia|]. pose proof (four_per_tlv ts). lia. }
    replace (Z.to_nat n) with (length ts) by lia.
    pose proof (stat_steps_tlvs ts (to_be 4 n) [] Hwf) as Hst. rewrite Ht4 in Hst. rewrite Hst, Hes, !bind_Ok.
    by rewrite Z.eqb_refl.
Qed.

(** A Statistics Report is parsed exactly: behind the per-peer header
    the parser accepts precisely a 32-bit count followed by that many TLVs and
    nothing more, and the statistics are the decoded TLVs in order. *)
Theorem parse_stats_report_exact buf h rest stats :
  parse_peer_header buf = Ok (h, rest) ->
  parse_stats_report buf = Ok (Bmp_StatsReport h stats) <->
  exists ts, Forall tlv_wf ts /\ Z.of_nat (length ts) < 2 ^ 32 /\
    rest = to_be 4 (Z.of_nat (length ts)) ++ encode_tlvs ts /\ mapM stat_of ts = Ok stats.
Proof. intros Hh. by apply stats_report_after_header. Qed.

Lemma wp_parse_stats_report buf : wp (timestamp_overflows buf) (parse_stats_report buf) payload_wf.
Proof.
  unfold parse_stats_report. apply wp_bind. eapply wp_mono; [apply wp_parse_peer_header|].
  intros [hdr rest] (_ & _ & Hh). wp_core; [done|]. apply wp_bind. wp_step. cbn zeta. wp_core; [done|].
  apply wp_bind. eapply wp_mono; [apply wp_parse_stat_steps; lia|]. intros [pos es] _.
  wp_core; [done|]. exact Hh.
Qed.

(** Path-status marking never reaches a route: whatever octets a
    Route Monitoring message carries, the parsed update has no path status,
    since a PDU must start with the BGP marker and the scan gives up on it. *)
Theorem route_monitoring_path_status_none buf resolve_ctx h u :
  parse_route_monitoring buf resolve_ctx = Ok (Bmp_RouteMonitoring h u) ->
  path_status (attributes u) = None.
Proof.
  intros Hok. pose proof (wp_parse_route_monitoring buf resolve_ctx) as Hw. rewrite Hok in Hw. apply Hw.
Qed.

(** The only ways a message can make the parser panic. *)
Definition message_may_panic (buf : bytes) : Prop :=
  timestamp_overflows (drop 6 buf) \/
  (field 1 5 buf = 0 /\ hostile_attribute_in (drop 48 buf)).

(** Parsing a BMP message always ends; it can panic only on a
    timestamp that overflows (with overflow checks) or, for Route Monitoring,
    on an attribute of the listed hostile kinds; a message that parses fills
    its buffer exactly, respects the frame limit and satisfies the invariants
    of its payload (RIB types match headers, path identifiers are parallel to
    prefixes, the ASN of an OPEN is the four-octet one when present). *)
Theorem parse_bmp_message_sound buf speaker max_frame resolve_ctx :
  wp (message_may_panic buf)
     (parse_bmp_message_with_peer_context buf speaker max_frame resolve_ctx)
     (fun p => payload_wf p /\ 6 <= blen buf <= max_frame /\ field 4 1 buf = blen buf).
Proof.
  unfold parse_bmp_message_with_peer_context. apply wp_bind, wp_post;
    [eapply wp_true, wp_validate_bmp_header|].
  intros [n ty] (Hlen & _ & Hn & Hmax & Hty)%validate_bmp_header_iff.
  wp_core; [done|]. wp_core; [done|]. assert (n = blen buf) as -> by lia.
  apply wp_bind, wp_post; [unfold BMP_HEADER_LEN; wp_step; done|].
  intros body (_ & _ & _ & ->)%slice_inv. unfold BMP_HEADER_LEN.
  rewrite take_ge by (rewrite length_drop; unfold blen; lia). change (Z.to_nat 6) with 6%nat.
  assert (forall o pn, wp pn o payload_wf -> (pn -> message_may_panic buf) ->
    wp (E := Error) (message_may_panic buf) o (fun p => payload_wf p /\ 6 <= blen buf <= max_frame /\
                                               field 4 1 buf = blen buf)) as Hgo.
  { intros o pn Ho Hpn. by eapply wp_conseq; [exact Ho|exact Hpn|]. }
  destruct ty.
  - eapply Hgo.
    + eapply wp_conseq; [apply wp_parse_route_monitoring|intros Hp; exact Hp|by intros p [? _]].
    + intros [Hp|Hp]; [by left|]. right. rewrite drop_drop in Hp. split; [|exact Hp].
      revert Hty. unfold msg_type_try_from. repeat case_match; done.
  - eapply Hgo; [apply wp_parse_stats_report|by left].
  - eapply Hgo; [apply wp_parse_peer_down|by left].
  - eapply Hgo; [apply wp_parse_peer_up|by left].
  - eapply Hgo; [apply (wp_parse_initiation False)|done].
  - eapply Hgo; [apply (wp_parse_termination False)|done].
  - eapply Hgo; [apply wp_parse_route_mirroring|by left].
Qed.
End Messages.

Section Witnesses.
#[local] Instance witness_bytes : BytesBuf := reference_bytes.
#[local] Instance witness_ipnet : IpNetCrate := reference_ipnet.
#[local] Instance witness_profile : BuildProfile := true.
#[local] Instance witness_chrono : Chrono := reference_chrono.
#[local] Instance witness_clock : Clock := (0 : DateTime).

(** An in-memory reader. *)
Definition read_octets (n : Z) (r : bytes) : ReadOutcome bytes :=
  if blen r <? n then Read_Eof else Read_Ok (take (Z.to_nat n) r) (drop (Z.to_nat n) r).

Lemma read_octets_app (x rest : bytes) n : n = blen x -> read_octets n (x ++ rest) = Read_Ok x rest.
Proof.
  intros ->. unfold read_octets. rewrite (proj2 (Z.ltb_ge _ _)) by (rewrite blen_app; pose proof (blen_nonneg rest); lia).
  by rewrite <- length_blen, take_app_length, drop_app_length.
Qed.

Definition demo_header : bytes :=
  encode_peer_header Peer_GlobalInstance (mkPeerFlags 0) (replicate 8 Byte.x00)
    (IpAddr_V4 (bs [10; 0; 0; 1])) 65001 (bs [10; 0; 0; 1]) 1700000000 250000.

Definition demo_peer : PeerHeader :=
  mkPeerHeader Peer_GlobalInstance (mkPeerFlags 0) (replicate 8 Byte.x00) (IpAddr_V4 (bs [10; 0; 0; 1]))
    65001 (bs [10; 0; 0; 1]) 1700000000250000000 Rib_AdjRibInPrePolicy.

Definition demo_stats : bytes := bs [0; 0; 0; 1; 0; 7; 0; 8; 0; 0; 0; 0; 0; 0; 1; 0].

Definition demo_termination : bytes := bs [3; 0; 0; 0; 12; 5; 0; 1; 0; 2; 0; 1].

Lemma read_bmp_frame_exact_witness :
  exists ty, validate_bmp_header demo_termination 65535 = Ok (12, ty).
Proof.
  apply (read_bmp_frame_exact read_octets)
    with (reader := demo_termination ++ bs [3; 0]) (reader' := bs [3; 0]); [|reflexivity].
  intros n r data r' Hn. unfold read_octets. destruct (blen r <? n) eqn:Hr; [done|]. intros [= <- _]. apply blen_take. lia.
Defined.

Lemma parse_peer_header_roundtrip_witness :
  (fun r => (peer_as r.1, r.2)) <$> parse_peer_header (demo_header ++ bs [1; 2]) = Ok (65001, bs [1; 2]).
Proof. unfold demo_header. rewrite parse_peer_header_roundtrip; try done. by split; [|right]. Defined.

Lemma parse_peer_header_overflow_panics_witness :
  parse_peer_header (encode_peer_header Peer_GlobalInstance (mkPeerFlags 0) (replicate 8 Byte.x00)
    (IpAddr_V4 (bs [10; 0; 0; 1])) 65001 (bs [10; 0; 0; 1]) 1700000000 4294968 ++ []) = Panic.
Proof. apply parse_peer_header_overflow_panics; try done. by split; [|right]. Defined.

Lemma parse_stats_report_exact_witness :
  parse_stats_report (demo_header ++ demo_stats) =
    Ok (Bmp_StatsReport demo_peer [mkStatEntry 7 (stat_name 7) 256 None]).
Proof.
  apply (parse_stats_report_exact (demo_header ++ demo_stats) demo_peer demo_stats); [reflexivity|].
  exists [mkTlv 7 (bs [0; 0; 0; 0; 0; 0; 1; 0])].
  split_and!; [by repeat constructor|done|reflexivity|reflexivity].
Defined.

Lemma route_monitoring_path_status_none_witness :
  path_status (attributes (mkBgpUpdate [] [] path_attributes_default [] [])) = None.
Proof.
  apply (route_monitoring_path_status_none (demo_header ++ encode_message 2 (encode_update_body [] [] []))
    (fun _ => default_context) demo_peer). reflexivity.
Defined.

Lemma parse_bmp_message_sound_witness : field 4 1 demo_termination = blen demo_termination.
Proof.
  pose proof (parse_bmp_message_sound demo_termination (IpAddr_V4 (bs [10; 0; 0; 1])) 65535
    (fun _ => default_context)) as Hw. apply Hw.
Defined.

End Witnesses.
