(* ===== verification/CollectorProtocol.v ===== *)
(** * The link between collectors and the core ([collector_protocol.rs])

    A collector sends each BMP message it receives, in an envelope, as a frame:
    a 32-bit length and a MessagePack body.  The core reads the frames back.
    MessagePack is the crate [rmp_serde], an interface here. *)

From Stdlib Require Import ZArith Lia ZifyBool.
From stdpp Require Import base numbers list option strings.
From S2P Require Import Prelude RustStd Crates CoreError BmpTypes BmpParser.

Local Open Scope Z_scope.

Definition MAX_FRAME_BYTES : Z := 8 * 1024 * 1024.

Record CollectorEnvelope `{Chrono} := mkEnvelope {
  collector_id : string;
  site : string;
  speaker_addr : IpAddr;
  received_at : DateTime;
  raw_bmp : bytes;
}.

(** [rmp_serde]: an error is its text; what was written is read back, and no
    value is written as nothing. *)
Class MessagePack `{Chrono} := {
  to_vec : CollectorEnvelope -> string + bytes;
  from_slice : bytes -> string + CollectorEnvelope;
  from_slice_to_vec : forall env body, to_vec env = inr body -> from_slice body = inr env;
  to_vec_nonempty : forall env body, to_vec env = inr body -> body <> [];
}.

Section Codec.
Context `{MessagePack}.

Definition encode_frame (env : CollectorEnvelope) : Result bytes :=
  match to_vec env with
  | inl e => Err (BmpParse ("msgpack encode: " ++ e))
  | inr payload =>
      if MAX_FRAME_BYTES <? blen payload then Err (FrameTooLarge (blen payload mod 2 ^ 32) MAX_FRAME_BYTES)
      else Ok (to_be 4 (blen payload) ++ payload)
  end.

Definition decode_body (body : bytes) : Result CollectorEnvelope :=
  match from_slice body with
  | inl e => Err (BmpParse ("msgpack decode: " ++ e))
  | inr env => Ok env
  end.

(** [read_frame_with_timeout]; the reader as for BMP ([ReadOutcome]), and the
    reader left behind is returned with the envelope.  The first octet is read
    without a deadline. *)
Definition read_frame_with_timeout {R} (read_exact : Z -> R -> ReadOutcome R) (reader : R)
    : Result (option (CollectorEnvelope * R)) :=
  match read_exact 1 reader with
  | Read_Eof => Ok None
  | Read_Error | Read_Timeout => Err (Io Io_Other)
  | Read_Ok first reader =>
      match read_exact 3 reader with
      | Read_Eof => Err (UnexpectedEof 4 1)
      | Read_Error => Err (Io Io_Other)
      | Read_Timeout => Err (Io Io_TimedOut)
      | Read_Ok rest_len reader =>
          let len := be (first ++ rest_len) in
          if len =? 0 then Err (BmpParse "collector frame declared length 0 is invalid")
          else if MAX_FRAME_BYTES <? len then Err (FrameTooLarge len MAX_FRAME_BYTES)
          else
            match read_exact len reader with
            | Read_Eof => Err (UnexpectedEof (4 + len) 4)
            | Read_Error => Err (Io Io_Other)
            | Read_Timeout => Err (Io Io_TimedOut)
            | Read_Ok body reader =>
                env ← decode_body body;
                _ ← validate_bmp_header (raw_bmp env) MAX_FRAME_BYTES;
                Ok (Some (env, reader))
            end
      end
  end.

(** [write_frame]: [write_all] and [flush] are what the writer does. *)
Definition write_frame {W} (write_all : bytes -> W -> option W) (flush : W -> option W) (env : CollectorEnvelope) (writer : W)
    : Result W :=
  buf ← encode_frame env;
  writer ← or_err (write_all buf writer) (Io Io_Other);
  or_err (flush writer) (Io Io_Other).

(** ** A link in memory *)

(** A writer that appends to the octets in flight. *)
Definition send (env : CollectorEnvelope) (wire : bytes) : Result bytes :=
  write_frame (fun buf w => Some (w ++ buf)) Some env wire.

Fixpoint send_all (envs : list CollectorEnvelope) (wire : bytes) : Result bytes :=
  match envs with
  | [] => Ok wire
  | env :: envs' => wire ← send env wire; send_all envs' wire
  end.

Definition recv (wire : bytes) : Result (option (CollectorEnvelope * bytes)) := read_frame_with_timeout read_octets wire.

(** Reading until the other side closes. *)
Fixpoint recv_all (fuel : nat) (wire : bytes) : Result (list CollectorEnvelope) :=
  match fuel with
  | O => Diverge
  | S fuel' =>
      r ← recv wire;
      match r with
      | None => Ok []
      | Some (env, wire) => envs ← recv_all fuel' wire; Ok (env :: envs)
      end
  end.

(** An envelope that carries a BMP message the core accepts. *)
Definition carries_bmp (env : CollectorEnvelope) : Prop :=
  exists r, validate_bmp_header (raw_bmp env) MAX_FRAME_BYTES = Ok r.

End Codec.

(** ** What is sent is received *)

Section Link.
Context `{MessagePack}.

Lemma encode_frame_ok env buf :
  encode_frame env = Ok buf -> exists body, to_vec env = inr body /\ 0 < blen body <= MAX_FRAME_BYTES /\
    buf = to_be 4 (blen body) ++ body.
Proof.
  unfold encode_frame. destruct (to_vec env) as [e|body] eqn:Hb; [done|]. case_if; [done|]. intros [= <-].
  exists body. split_and!; [done| |lia|done]. pose proof (to_vec_nonempty env body Hb).
  destruct body; [done|]. rewrite blen_cons. pose proof (blen_nonneg body). lia.
Qed.

Lemma read_octets_short (wire : bytes) n : blen wire < n -> read_octets n wire = Read_Eof.
Proof. intros Hn. unfold read_octets. by rewrite (proj2 (Z.ltb_lt _ _)). Qed.

(** The length prefix, octet by octet. *)
Lemma length_prefix n : exists b0 b1 b2 b3, to_be 4 n = [b0; b1; b2; b3].
Proof. by eexists _, _, _, _. Qed.

Lemma recv_frame env body rest :
  to_vec env = inr body -> 0 < blen body <= MAX_FRAME_BYTES ->
  recv (to_be 4 (blen body) ++ body ++ rest) =
    (_ ← validate_bmp_header (raw_bmp env) MAX_FRAME_BYTES; Ok (Some (env, rest))).
Proof.
  intros Hb Hl. unfold recv, read_frame_with_timeout. unfold MAX_FRAME_BYTES in Hl.
  destruct (length_prefix (blen body)) as (b0 & b1 & b2 & b3 & Hp).
  assert (be [b0; b1; b2; b3] = blen body) as Hbe by (rewrite <- Hp; apply be_to_be; change (256 ^ Z.of_nat 4) with (2 ^ 32); lia).
  rewrite Hp. change ([b0; b1; b2; b3] ++ body ++ rest) with ([b0] ++ [b1; b2; b3] ++ body ++ rest).
  rewrite (read_octets_app [b0]), (read_octets_app [b1; b2; b3]) by done.
  change ([b0] ++ [b1; b2; b3]) with [b0; b1; b2; b3]. cbn zeta. rewrite Hbe.
  rewrite (proj2 (Z.eqb_neq _ _)), (proj2 (Z.ltb_ge _ _)) by (unfold MAX_FRAME_BYTES; lia).
  rewrite read_octets_app by done. unfold decode_body. by rewrite (from_slice_to_vec _ _ Hb).
Qed.

Lemma send_frame env wire buf : encode_frame env = Ok buf -> send env wire = Ok (wire ++ buf).
Proof. intros He. unfold send, write_frame. by rewrite He. Qed.

Lemma send_all_wire envs wire wire' :
  send_all envs wire = Ok wire' -> exists bufs, wire' = wire ++ mjoin bufs /\ Forall2 (fun env buf => encode_frame env = Ok buf) envs bufs.
Proof.
  revert wire. induction envs as [|env envs IH]; intros wire; cbn [send_all].
  - intros [= <-]. exists []. by rewrite app_nil_r.
  - destruct (encode_frame env) as [buf| | |] eqn:He; [|by unfold send, write_frame; rewrite He..].
    rewrite (send_frame _ _ _ He). cbn [mbind outcome_bind]. intros (bufs & -> & Hb)%IH.
    exists (buf :: bufs). split; [by rewrite <- app_assoc|by constructor].
Qed.

Lemma recv_all_S fuel wire :
  recv_all (S fuel) wire =
    (r ← recv wire; match r with None => Ok [] | Some (env, wire) => envs ← recv_all fuel wire; Ok (env :: envs) end).
Proof. done. Qed.

(** What collectors send the core receives: the envelopes that were
    written on a link, each with a BMP message behind a valid header, are read
    back, all of them, in order and unchanged, until the link is closed. *)
Theorem collector_link_roundtrip envs wire :
  Forall carries_bmp envs -> send_all envs [] = Ok wire -> recv_all (S (length envs)) wire = Ok envs.
Proof.
  intros Hbmp (bufs & -> & Hbufs)%send_all_wire. cbn [app]. revert Hbmp.
  induction Hbufs as [|env buf envs bufs He _ IH]; intros Hbmp.
  - unfold recv_all, recv, read_frame_with_timeout. by rewrite read_octets_short.
  - apply Forall_cons_1 in Hbmp as [[r Hr] Hbmp]. destruct (encode_frame_ok _ _ He) as (body & Hb & Hl & ->).
    change (length (env :: envs)) with (S (length envs)). rewrite recv_all_S.
    change (mjoin (?b :: bufs)) with (b ++ mjoin bufs). rewrite <- app_assoc, (recv_frame _ _ _ Hb Hl), Hr. cbn [mbind outcome_bind]. by rewrite IH.
Qed.

(** A frame that is cut short anywhere behind its first octet is an
    error that says how many octets were needed; only a link closed between
    two frames is a clean end. *)
Theorem truncated_frame_detected env buf pre post :
  encode_frame env = Ok buf -> buf = pre ++ post -> post <> [] ->
  recv pre = match pre with [] => Ok None | _ =>
    Err (if blen pre <? 4 then UnexpectedEof 4 1 else UnexpectedEof (blen buf) 4) end.
Proof.
  intros He Hbuf Hpost. destruct (encode_frame_ok _ _ He) as (body & Hb & Hl & ->).
  destruct (length_prefix (blen body)) as (b0 & b1 & b2 & b3 & Hp). unfold MAX_FRAME_BYTES in Hl.
  assert (be [b0; b1; b2; b3] = blen body) as Hbe by (rewrite <- Hp; apply be_to_be; change (256 ^ Z.of_nat 4) with (2 ^ 32); lia).
  rewrite blen_app, blen_to_be. rewrite Hp in Hbuf. unfold recv, read_frame_with_timeout.
  destruct pre as [|p0 pre]; [by rewrite read_octets_short|].
  injection Hbuf as <- Hbuf. change (b0 :: pre) with ([b0] ++ pre). rewrite (read_octets_app [b0]), blen_app by done.
  change (blen [b0]) with 1. destruct pre as [|p1 [|p2 [|p3 pre]]]; try (by rewrite read_octets_short).
  injection Hbuf as <- <- <- ->. change (b1 :: b2 :: b3 :: pre) with ([b1; b2; b3] ++ pre).
  rewrite (read_octets_app [b1; b2; b3]) by done. change ([b0] ++ [b1; b2; b3]) with [b0; b1; b2; b3]. cbn zeta. rewrite Hbe.
  pose proof (blen_nonneg pre). rewrite blen_app in *. change (blen [b1; b2; b3]) with 3.
  assert (0 < blen post) by (destruct post; [done|]; rewrite blen_cons; pose proof (blen_nonneg post); lia).
  rewrite (proj2 (Z.eqb_neq _ _)), !(proj2 (Z.ltb_ge _ _)) by (unfold MAX_FRAME_BYTES; lia).
  rewrite read_octets_short by lia. rewrite blen_app, (proj2 (Z.ltb_ge _ _)) by (change (blen [b1; b2; b3]) with 3; lia). done.
Qed.

(** What the framing of the collector delivers, the core accepts. *)
Lemma relayed_message_accepted {R} (read_exact : Z -> R -> ReadOutcome R) reader reader' max_frame frame env :
  (forall n r data r', 0 <= n -> read_exact n r = Read_Ok data r' -> blen data = n) ->
  read_bmp_frame read_exact reader max_frame = Ok (Some (frame, reader')) -> max_frame <= MAX_FRAME_BYTES ->
  raw_bmp env = frame -> carries_bmp env.
Proof.
  intros Hread Hr Hm <-. destruct (read_bmp_frame_exact read_exact Hread _ _ _ _ Hr) as (Hl & ty & Hv).
  exists (blen (raw_bmp env), ty). apply validate_bmp_header_iff in Hv. apply validate_bmp_header_iff.
  destruct Hv as (? & ? & ? & ? & ?). split_and!; try done; lia.
Qed.

End Link.

(** ** An instance *)

(** A toy codec for one fixed envelope apart from its message: the message
    behind a tag. *)
Section Demo.
#[local] Instance demo_chrono : Chrono := reference_chrono.

Definition demo_envelope (raw : bytes) : CollectorEnvelope := mkEnvelope _ "c1" "fra01" (IpAddr_V4 (bs [10; 0; 0; 1])) (0 : DateTime) raw.

Definition demo_to_vec (env : CollectorEnvelope) : string + bytes :=
  if decide (collector_id env = "c1"%string /\ site env = "fra01"%string /\ speaker_addr env = IpAddr_V4 (bs [10; 0; 0; 1]) /\
             (received_at env : Z) = 0)
  then inr (Byte.x95 :: raw_bmp env) else inl "unsupported"%string.

Definition demo_from_slice (body : bytes) : string + CollectorEnvelope :=
  match body with Byte.x95 :: raw => inr (demo_envelope raw) | _ => inl "bad marker"%string end.

#[local] Instance demo_msgpack : MessagePack.
Proof.
  refine {| to_vec := demo_to_vec; from_slice := demo_from_slice |}.
  - intros [c s a t raw] body. unfold demo_to_vec. cbn [collector_id site speaker_addr received_at raw_bmp].
    case_decide as Hd; [|done]. intros [= <-]. destruct Hd as (-> & -> & -> & ->). done.
  - intros env body. unfold demo_to_vec. case_decide; [|done]. by intros [= <-].
Defined.

Definition demo_envs : list CollectorEnvelope := [demo_envelope demo_termination; demo_envelope (bs [3; 0; 0; 0; 6; 4])].

Lemma collector_link_roundtrip_witness :
  exists wire, send_all demo_envs [] = Ok wire /\ recv_all 3 wire = Ok demo_envs.
Proof.
  eexists. split; [vm_compute; reflexivity|]. apply (collector_link_roundtrip demo_envs); [|vm_compute; reflexivity].
  repeat constructor; eexists; vm_compute; reflexivity.
Defined.

Lemma truncated_frame_detected_witness :
  recv (take 9 (to_be 4 13 ++ Byte.x95 :: demo_termination)) = Err (UnexpectedEof 17 4).
Proof.
  apply (truncated_frame_detected (demo_envelope demo_termination) (to_be 4 13 ++ Byte.x95 :: demo_termination)
           (take 9 (to_be 4 13 ++ Byte.x95 :: demo_termination)) (drop 9 (to_be 4 13 ++ Byte.x95 :: demo_termination)));
    [vm_compute; reflexivity|vm_compute; reflexivity|done].
Defined.

End Demo.
