(* ===== verification/HashMaps.v ===== *)
(** * Hash maps

    A [HashMap] is a finite map ([gmap]); the order in which it lists its keys
    is unspecified, so it is a parameter: any function that lists the keys of a
    map, each once.  Where the source's result depends on the order the model
    takes it from here, and the theorems hold for every such function. *)

From Stdlib Require Import ZArith Lia.
From stdpp Require Import base numbers list option gmap fin_maps sets.
From S2P Require Import Prelude.

Class HashOrder := {
  hash_keys : forall {K V : Type} `{Countable K}, gmap K V -> list K;
  hash_keys_perm : forall (K V : Type) `{Countable K} (m : gmap K V),
    hash_keys m ≡ₚ (map_to_list m).*1;
}.

(** The order of the underlying tries, for running the models. *)
Definition trie_order : HashOrder.
Proof. refine {| hash_keys K V _ _ m := (map_to_list m).*1 |}. reflexivity. Defined.

Section Keys.
Context `{HashOrder} `{Countable K} {V : Type}.
Implicit Types m : gmap K V.

Lemma elem_of_hash_keys m k : k ∈ hash_keys m <-> is_Some (m !! k).
Proof.
  rewrite (hash_keys_perm K V m), list_elem_of_fmap. split.
  - intros ([k' v] & -> & Hkv). exists v. by apply elem_of_map_to_list.
  - intros [v Hv]. exists (k, v). split; [done|]. by apply elem_of_map_to_list.
Qed.

Lemma NoDup_hash_keys m : NoDup (hash_keys m).
Proof. rewrite (hash_keys_perm K V m). apply NoDup_fst_map_to_list. Qed.

(** [HashMap::values] *)
Definition hash_vals m : list V := omap (fun k => m !! k) (hash_keys m).

Lemma elem_of_hash_vals m v : v ∈ hash_vals m <-> exists k, m !! k = Some v.
Proof.
  unfold hash_vals. rewrite list_elem_of_omap. split.
  - intros (k & _ & Hk). by exists k.
  - intros [k Hk]. exists k. rewrite elem_of_hash_keys. by rewrite Hk.
Qed.

Lemma hash_vals_perm m : hash_vals m ≡ₚ (map_to_list m).*2.
Proof.
  unfold hash_vals. rewrite (hash_keys_perm _ _ m).
  assert (forall l, (forall kv, kv ∈ l -> m !! kv.1 = Some kv.2) -> omap (fun k => m !! k) l.*1 = l.*2) as Hl.
  { induction l as [|[k v] l IH]; intros Hl; cbn; [done|]. pose proof (Hl (k, v) ltac:(left)) as E. cbn in E. rewrite E. cbn. f_equal.
    apply IH. intros kv Hkv. apply Hl. by right. }
  rewrite Hl; [done|]. intros [k v] Hkv. by apply elem_of_map_to_list.
Qed.

End Keys.

(** ** Maps of maps *)

Section Nested.
Context `{Countable K} `{Countable L} {V : Type}.

(** The lookup of a two-level map. *)
Definition lookup2 (t : gmap K (gmap L V)) (k : K) (l : L) : option V := t !! k ≫= (.!! l).

Lemma lookup2_insert t k m k' l :
  lookup2 (<[k := m]> t) k' l = if decide (k = k') then m !! l else lookup2 t k' l.
Proof. unfold lookup2. case_decide; subst; by rewrite ?lookup_insert_eq, ?lookup_insert_ne. Qed.

End Nested.

(** ** Updating the entries under a list of keys *)

Section AlterAll.
Context `{Countable K} {V : Type}.

Definition alter_all (f : K -> V -> V) (ks : list K) (m : gmap K V) : gmap K V :=
  foldl (fun m k => alter (f k) k m) m ks.

Lemma lookup_alter_all f ks m k :
  NoDup ks -> alter_all f ks m !! k = (if decide (k ∈ ks) then f k else id) <$> m !! k.
Proof.
  intros Hnd. revert m. unfold alter_all. induction Hnd as [|x ks Hx Hnd IH]; intros m; cbn [foldl].
  - rewrite decide_False by apply not_elem_of_nil. by destruct (m !! k).
  - rewrite IH. destruct (decide (k = x)) as [->|Hne].
    + rewrite lookup_alter_eq, (decide_False (P := x ∈ ks)), decide_True by (done || left). by destruct (m !! x).
    + rewrite lookup_alter_ne by done.
      destruct (decide (k ∈ ks)); [rewrite decide_True by (by right)|rewrite decide_False by set_solver]; done.
Qed.

End AlterAll.

(** Updating in place is inserting. *)
Lemma alter_as_insert `{Countable K} {V} (m : gmap K V) i f x :
  m !! i = Some x -> alter f i m = <[i := f x]> m.
Proof.
  intros Hi. apply map_eq. intros j. destruct (decide (i = j)) as [<-|Hne].
  - by rewrite lookup_alter_eq, lookup_insert_eq, Hi.
  - by rewrite lookup_alter_ne, lookup_insert_ne.
Qed.

Lemma alter_absent `{Countable K} {V} (m : gmap K V) i f : m !! i = None -> alter f i m = m.
Proof. intros Hi. apply alter_id. intros x. by rewrite Hi. Qed.

Lemma lookup_delete_all `{Countable K} {V} (m : gmap K V) ks k :
  foldl (fun m k => delete k m) m ks !! k = if decide (k ∈ ks) then None else m !! k.
Proof.
  revert m. induction ks as [|x ks IH]; intros m; cbn [foldl].
  - by rewrite decide_False by apply not_elem_of_nil.
  - rewrite IH. destruct (decide (k ∈ ks)); [by rewrite decide_True by (by right)|].
    destruct (decide (k = x)) as [->|Hne]; [by rewrite lookup_delete_eq, decide_True by left|].
    rewrite lookup_delete_ne, decide_False by (done || set_solver). done.
Qed.

(** Counting the entries of a map with a property, on its list of entries. *)
Lemma size_map_filter `{Countable K} {V} (P : K * V -> Prop) `{forall x, Decision (P x)} (m : gmap K V) :
  size (base.filter P m) = length (base.filter P (map_to_list m)).
Proof.
  rewrite <- length_map_to_list, map_filter_alt, map_to_list_to_map; [done|].
  eapply sublist_NoDup; [apply (NoDup_fst_map_to_list m)|apply fmap_sublist, sublist_filter].
Qed.

Lemma length_filter_hash_vals `{HashOrder} `{Countable K} {V} (f : V -> bool) (m : gmap K V) :
  length (base.filter (fun v => f v = true) (hash_vals m)) = size (base.filter (fun kv => f kv.2 = true) m).
Proof.
  rewrite hash_vals_perm, size_map_filter.
  induction (map_to_list m) as [|[k v] l IH]; [done|]. rewrite fmap_cons, !filter_cons. cbn.
  destruct (f v); rewrite ?decide_True, ?decide_False by done; cbn; congruence.
Qed.

(** ** Loops over the keys *)

(** A loop whose rounds respect a preorder does. *)
Lemma foldl_preorder {A S} (R : relation S) `{!PreOrder R} (f : S -> A -> S) xs s :
  (forall s x, R s (f s x)) -> R s (foldl f s xs).
Proof. intros Hf. revert s. induction xs as [|x xs IH]; intros s; cbn; [done|]. etrans; [apply Hf|apply IH]. Qed.

(** A loop whose rounds keep a property does. *)
Lemma foldl_keeps {A S} (P : S -> Prop) (f : S -> A -> S) xs s :
  (forall s x, x ∈ xs -> P s -> P (f s x)) -> P s -> P (foldl f s xs).
Proof.
  revert s. induction xs as [|x xs IH]; intros s Hf Hs; cbn; [done|].
  apply IH; [|apply Hf; [left|done]]. intros s' y Hy. apply Hf. by right.
Qed.
