(* ===== verification/RibTable.v ===== *)
(** * Per-peer route tables ([crates/rbmp-rib/src/table.rs])

    A table maps a RIB type to a map from route keys (canonical NLRI and
    Add-Path identifier) to entries.  Mutation is state passing; the only
    operation that could panic is the best-path computation, which indexes the
    map with keys it has just listed.  Instants are arguments. *)

From Stdlib Require Import ZArith Lia ZifyBool.
From stdpp Require Import base numbers list option gmap fin_maps sets.
From S2P Require Import Prelude RustStd Crates HashMaps BgpTypes Nlri BgpAttributes BmpTypes.

Local Open Scope Z_scope.

(** The engine has no error values: an operation returns or panics. *)
Abbreviation RibM := (Outcome Empty_set).

Section Table.
Context `{Chrono}.

Record RibEntry := mkRibEntry {
  e_prefix : Prefix;
  e_path_id : option Z;
  e_attributes : PathAttributes;
  e_received_at : DateTime;
  e_peer_addr : IpAddr;
  e_peer_as : Z;
  e_is_best : bool;
  e_llgr_state : LlgrState;
  e_stale_at : option DateTime;
}.

Definition set_is_best_flag (b : bool) (e : RibEntry) : RibEntry :=
  mkRibEntry (e_prefix e) (e_path_id e) (e_attributes e) (e_received_at e) (e_peer_addr e)
    (e_peer_as e) b (e_llgr_state e) (e_stale_at e).

(** [llgr_state = StaleMarked; stale_at = Some(at)] *)
Definition mark_stale (at_ : DateTime) (e : RibEntry) : RibEntry :=
  mkRibEntry (e_prefix e) (e_path_id e) (e_attributes e) (e_received_at e) (e_peer_addr e)
    (e_peer_as e) (e_is_best e) Llgr_StaleMarked (Some at_).

Record RibTable := mkRibTable { tables : gmap RibType (gmap TableRouteKey RibEntry) }.

(** [RibTable::new], [Default] *)
Definition rib_table_new : RibTable := mkRibTable ∅.

Definition entry_key (e : RibEntry) : TableRouteKey := route_key_from_prefix (e_prefix e) (e_path_id e).

(** [insert]: [entry(rib).or_default()] creates the inner table. *)
Definition table_insert (t : RibTable) (rib : RibType) (entry : RibEntry) : RibTable * bool :=
  let key := entry_key entry in
  let table := default ∅ (tables t !! rib) in
  let is_new := negb (bool_decide (is_Some (table !! key))) in
  (mkRibTable (<[rib := <[key := entry]> table]> (tables t)), is_new).

Definition remove_with_path_id (t : RibTable) (rib : RibType) (prefix : Prefix) (path_id : option Z)
    : RibTable * option RibEntry :=
  let key := route_key_from_prefix prefix path_id in
  match tables t !! rib with
  | None => (t, None)
  | Some table => (mkRibTable (<[rib := delete key table]> (tables t)), table !! key)
  end.

Definition table_remove (t : RibTable) (rib : RibType) (prefix : Prefix) : RibTable * option RibEntry :=
  remove_with_path_id t rib prefix None.

Definition get_with_path_id (t : RibTable) (rib : RibType) (prefix : Prefix) (path_id : option Z)
    : option RibEntry :=
  let key := route_key_from_prefix prefix path_id in
  tables t !! rib ≫= (.!! key).

Definition table_get (t : RibTable) (rib : RibType) (prefix : Prefix) : option RibEntry :=
  get_with_path_id t rib prefix None.

(** ** Best path *)

(** The key of [min_by_key]: LOCAL_PREF reversed, AS_PATH length, MED. *)
Definition Rank : Type := Z * Z * Z.

Definition path_rank (a : PathAttributes) : Rank :=
  let lp := match local_pref a with Some v => 2 ^ 32 - 1 - v | None => 2 ^ 32 - 1 end in
  let hop := match as_path a with Some p => hop_count p mod 2 ^ 32 | None => 0 end in
  let med := default (2 ^ 32 - 1) (multi_exit_disc a) in
  (lp, hop, med).

(** Tuples are compared lexicographically. *)
Definition rank_ltb (x y : Rank) : bool :=
  let '(x1, x2, x3) := x in
  let '(y1, y2, y3) := y in
  (x1 <? y1) || ((x1 =? y1) && ((x2 <? y2) || ((x2 =? y2) && (x3 <? y3)))).

(** [Iterator::min_by_key]: the first of the least elements. *)
Fixpoint min_by {A} (best : Rank * A) (rest : list (Rank * A)) : Rank * A :=
  match rest with
  | [] => best
  | x :: rest => min_by (if rank_ltb x.1 best.1 then x else best) rest
  end.

Definition min_by_key {A} (xs : list (Rank * A)) : option A :=
  match xs with
  | [] => None
  | x :: xs => Some (min_by x xs).2
  end.

Context `{HashOrder}.

(** [table.keys().filter(..)] *)
Definition matching_keys (table : gmap TableRouteKey RibEntry) (prefix : Prefix) : list TableRouteKey :=
  base.filter (fun k => route_key_matches_prefix k prefix = true) (hash_keys table).

Definition recompute_in (table : gmap TableRouteKey RibEntry) (prefix : Prefix) : RibM (gmap TableRouteKey RibEntry) :=
  let keys := matching_keys table prefix in
  if (length keys <=? 1)%nat then
    match keys with
    | key :: _ => Ok (alter (set_is_best_flag true) key table)
    | [] => Ok table
    end
  else
    ranked ← mapM (fun k => e ← or_panic (table !! k); Ok (path_rank (e_attributes e), k)) keys;
    let best_key := min_by_key ranked in
    Ok (alter_all (fun k => set_is_best_flag (bool_decide (best_key = Some k))) keys table).

Definition recompute_best_path (t : RibTable) (rib : RibType) (prefix : Prefix) : RibM RibTable :=
  match tables t !! rib with
  | None => Ok t
  | Some table =>
      table ← recompute_in table prefix;
      Ok (mkRibTable (<[rib := table]> (tables t)))
  end.

(** ** Counting, listing and clearing *)

Definition table_count (t : RibTable) (rib : RibType) : nat := default 0%nat (size <$> tables t !! rib).

Definition iter_rib (t : RibTable) (rib : RibType) : list RibEntry :=
  match tables t !! rib with
  | None => []
  | Some table => omap (table !!.) (hash_keys table)
  end.

Definition all_prefixes (t : RibTable) : list RibEntry :=
  hash_keys (tables t) ≫= iter_rib t.

Definition clear_rib (t : RibTable) (rib : RibType) : RibTable := mkRibTable (delete rib (tables t)).

Definition clear_all (t : RibTable) : RibTable := mkRibTable ∅.

Definition rib_counts (t : RibTable) : gmap RibType nat := size <$> tables t.

(** ** Long-lived graceful restart *)

Definition mark_stale_entry (at_ : DateTime) (e : RibEntry) : RibEntry :=
  if bool_decide (e_llgr_state e = Llgr_Normal) then mark_stale at_ e else e.

Definition mark_stale_all (t : RibTable) (at_ : DateTime) : RibTable :=
  mkRibTable (fmap (M := gmap RibType) (fmap (M := gmap TableRouteKey) (mark_stale_entry at_)) (tables t)).

(** The closure of [retain], negated. *)
Definition expired (now : DateTime) (stale_secs : Z) (e : RibEntry) : bool :=
  bool_decide (e_llgr_state e = Llgr_StaleMarked) &&
  match e_stale_at e with
  | Some at_ => stale_secs <=? num_seconds now at_
  | None => false
  end.

Definition retain_live (now : DateTime) (stale_secs : Z) (table : gmap TableRouteKey RibEntry) : gmap TableRouteKey RibEntry :=
  base.filter (fun kv => expired now stale_secs kv.2 = false) table.

(** [drain_deleted_stale]; [removed] counts the entries not retained. *)
Definition drain_deleted_stale (t : RibTable) (now : DateTime) (stale_secs : Z) : RibTable * nat :=
  (mkRibTable (retain_live now stale_secs <$> tables t),
   map_fold (fun _ table n =>
     (n + size (base.filter (fun kv => expired now stale_secs kv.2 = true) table))%nat) 0%nat (tables t)).

End Table.

(** ** The table as an abstract map *)

Section TableLaws.
Context `{Chrono} `{HashOrder}.
Implicit Types (t : RibTable) (e : RibEntry) (k : TableRouteKey).

(** What a table holds: a partial function from RIB types and route keys. *)
Definition route t (rib : RibType) k : option RibEntry := lookup2 (tables t) rib k.

Lemma route_default t rib k : default ∅ (tables t !! rib) !! k = route t rib k.
Proof. unfold route, lookup2. destruct (tables t !! rib); simpl; [done|apply lookup_empty]. Qed.

Lemma route_insert t rib e rib' k :
  route (table_insert t rib e).1 rib' k =
    if decide (rib = rib' /\ entry_key e = k) then Some e else route t rib' k.
Proof.
  unfold table_insert, route at 1. cbn [fst tables]. rewrite lookup2_insert.
  destruct (decide (rib = rib')) as [<-|Hne]; [|by rewrite decide_False by tauto].
  rewrite lookup_insert, route_default.
  destruct (decide (entry_key e = k)); [rewrite decide_True|rewrite decide_False]; tauto.
Qed.

Lemma insert_is_new t rib e :
  (table_insert t rib e).2 = bool_decide (route t rib (entry_key e) = None).
Proof.
  unfold table_insert. cbn [snd]. rewrite route_default.
  destruct (route t rib (entry_key e)); repeat case_bool_decide as Hb; try done; destruct Hb; done || eauto.
Qed.

Lemma route_remove t rib p i rib' k :
  route (remove_with_path_id t rib p i).1 rib' k =
    if decide (rib = rib' /\ route_key_from_prefix p i = k) then None else route t rib' k.
Proof.
  unfold remove_with_path_id. destruct (tables t !! rib) as [table|] eqn:Ht.
  - unfold route at 1. cbn [fst tables]. rewrite lookup2_insert.
    destruct (decide (rib = rib')) as [<-|Hne]; [|by rewrite decide_False by tauto].
    rewrite lookup_delete. unfold route, lookup2. rewrite Ht. simpl.
    destruct (decide (route_key_from_prefix p i = k)); [rewrite decide_True|rewrite decide_False]; tauto.
  - case_decide as Hd; [|done]. destruct Hd as [<- _]. unfold route, lookup2. cbn [fst]. by rewrite Ht.
Qed.

Lemma removed_entry t rib p i :
  (remove_with_path_id t rib p i).2 = route t rib (route_key_from_prefix p i).
Proof. unfold remove_with_path_id, route, lookup2. by destruct (tables t !! rib). Qed.

Lemma get_route t rib p i : get_with_path_id t rib p i = route t rib (route_key_from_prefix p i).
Proof. done. Qed.

Lemma route_clear_rib t rib rib' k :
  route (clear_rib t rib) rib' k = if decide (rib = rib') then None else route t rib' k.
Proof.
  unfold route, lookup2, clear_rib. cbn [tables]. rewrite lookup_delete. by case_decide.
Qed.

Lemma route_clear_all t rib k : route (clear_all t) rib k = None.
Proof. unfold route, lookup2, clear_all. cbn [tables]. by rewrite lookup_empty. Qed.

Lemma count_routes t rib : table_count t rib = size (default ∅ (tables t !! rib)).
Proof. unfold table_count. destruct (tables t !! rib); simpl; [done|]. by rewrite map_size_empty. Qed.

Lemma count_insert t rib e :
  table_count (table_insert t rib e).1 rib =
    (table_count t rib + if (table_insert t rib e).2 then 1 else 0)%nat.
Proof.
  rewrite !count_routes, insert_is_new. unfold table_insert. cbn [fst tables].
  rewrite lookup_insert_eq. simpl. rewrite map_size_insert, route_default.
  destruct (route t rib (entry_key e)); simpl; lia.
Qed.

Lemma count_remove t rib p i :
  (table_count (remove_with_path_id t rib p i).1 rib + match (remove_with_path_id t rib p i).2 with Some _ => 1 | None => 0 end)%nat
    = table_count t rib.
Proof.
  rewrite removed_entry. unfold remove_with_path_id.
  destruct (tables t !! rib) as [table|] eqn:Ht; cbn [fst].
  - unfold table_count, route, lookup2. cbn [tables]. rewrite lookup_insert_eq, Ht. simpl.
    rewrite map_size_delete. destruct (table !! _) eqn:Hl; simpl; [|lia].
    pose proof (map_size_ne_0_lookup_2 table _ (ex_intro _ _ Hl)). lia.
  - unfold table_count, route, lookup2. by rewrite Ht.
Qed.

(** A route table is a finite map from RIB type and route key: an
    inserted entry is found under its own key and nowhere else changes
    anything, a removed one is returned and gone, clearing empties exactly the
    requested RIB, and the counters follow. *)
Theorem rib_table_refines_map t rib e p i rib' k :
  route rib_table_new rib k = None /\
  (route (table_insert t rib e).1 rib' k =
     if decide (rib = rib' /\ entry_key e = k) then Some e else route t rib' k) /\
  (table_insert t rib e).2 = bool_decide (get_with_path_id t rib (e_prefix e) (e_path_id e) = None) /\
  (route (remove_with_path_id t rib p i).1 rib' k =
     if decide (rib = rib' /\ route_key_from_prefix p i = k) then None else route t rib' k) /\
  (remove_with_path_id t rib p i).2 = get_with_path_id t rib p i /\
  route (clear_rib t rib) rib' k = (if decide (rib = rib') then None else route t rib' k) /\
  route (clear_all t) rib' k = None /\
  table_count (table_insert t rib e).1 rib =
    (table_count t rib + if (table_insert t rib e).2 then 1 else 0)%nat /\
  (table_count (remove_with_path_id t rib p i).1 rib +
     match (remove_with_path_id t rib p i).2 with Some _ => 1 | None => 0 end)%nat = table_count t rib.
Proof.
  split_and!; [done|apply route_insert|apply insert_is_new|apply route_remove|apply removed_entry
    |apply route_clear_rib|apply route_clear_all|apply count_insert|apply count_remove].
Qed.

(** ** Best path *)

Lemma rank_ltb_irrefl r : rank_ltb r r = false.
Proof. destruct r as [[a b] c]. unfold rank_ltb. lia. Qed.

(** "Not less" is transitive. *)
Lemma rank_le_trans x y z : rank_ltb y x = false -> rank_ltb z y = false -> rank_ltb z x = false.
Proof. destruct x as [[? ?] ?], y as [[? ?] ?], z as [[? ?] ?]. unfold rank_ltb. lia. Qed.

Lemma rank_ltb_asym a b : rank_ltb a b = true -> rank_ltb b a = false.
Proof. destruct a as [[? ?] ?], b as [[? ?] ?]. unfold rank_ltb. lia. Qed.

Lemma min_by_least {A} (b : Rank * A) xs :
  min_by b xs ∈ b :: xs /\ forall x, x ∈ b :: xs -> rank_ltb x.1 (min_by b xs).1 = false.
Proof.
  revert b. induction xs as [|x xs IH]; intros b; cbn [min_by].
  - split; [left|]. intros y ->%list_elem_of_singleton. apply rank_ltb_irrefl.
  - destruct (rank_ltb x.1 b.1) eqn:Hlt.
    + destruct (IH x) as [Hin Hmin]. split; [by right|]. intros y [->|Hy]%elem_of_cons; [|by apply Hmin].
      apply (rank_le_trans _ x.1); [apply Hmin; left|by apply rank_ltb_asym].
    + destruct (IH b) as [Hin Hmin]. split; [set_solver|].
      intros y [->|[->|Hy]%elem_of_cons]%elem_of_cons; [apply Hmin; left| |apply Hmin; by right].
      apply (rank_le_trans _ b.1); [apply Hmin; left|done].
Qed.

Lemma elem_of_matching table prefix k :
  k ∈ matching_keys table prefix <-> is_Some (table !! k) /\ route_key_matches_prefix k prefix = true.
Proof. unfold matching_keys. rewrite list_elem_of_filter, elem_of_hash_keys. tauto. Qed.

Lemma NoDup_matching table prefix : NoDup (matching_keys table prefix).
Proof. apply NoDup_filter, NoDup_hash_keys. Qed.

(** Ranking the listed keys cannot fail. *)
Lemma ranked_keys (table : gmap TableRouteKey RibEntry) (ks : list TableRouteKey) :
  (forall k, k ∈ ks -> is_Some (table !! k)) ->
  exists ranked,
    mapM (M := RibM) (fun k => e ← or_panic (table !! k); Ok (path_rank (e_attributes e), k)) ks = Ok ranked /\
    ranked.*2 = ks /\
    forall r k, (r, k) ∈ ranked -> exists e, table !! k = Some e /\ r = path_rank (e_attributes e).
Proof.
  induction ks as [|k ks IH]; intros Hks.
  - exists []. split_and!; [done..|]. by intros r k ?%not_elem_of_nil.
  - destruct (Hks k ltac:(left)) as [e He]. destruct IH as (ranked & Hm & Hk & Hr); [set_solver|].
    exists ((path_rank (e_attributes e), k) :: ranked). cbn [mapM]. rewrite He. simpl. rewrite Hm. split_and!.
    + done.
    + by f_equal.
    + intros r k' [[= -> ->]|Hin]%elem_of_cons; [by exists e|by apply Hr].
Qed.

(** The result: the flag of every matching entry is set to whether it is the
    chosen one, and the chosen one has the least rank. *)
Lemma recompute_in_spec (table : gmap TableRouteKey RibEntry) prefix :
  exists best table',
    recompute_in table prefix = Ok table' /\
    (forall k, table' !! k =
       (if decide (k ∈ matching_keys table prefix)
        then set_is_best_flag (bool_decide (best = Some k)) else id) <$> table !! k) /\
    (matching_keys table prefix <> [] ->
     exists kb eb, best = Some kb /\ kb ∈ matching_keys table prefix /\ table !! kb = Some eb /\
       forall k e, k ∈ matching_keys table prefix -> table !! k = Some e ->
         rank_ltb (path_rank (e_attributes e)) (path_rank (e_attributes eb)) = false).
Proof.
  unfold recompute_in. pose proof (NoDup_matching table prefix) as Hnd.
  assert (forall k, k ∈ matching_keys table prefix -> is_Some (table !! k)) as Hsome
    by (intros k ?%elem_of_matching; tauto).
  set (keys := matching_keys table prefix) in *. clearbody keys.
  destruct (Nat.leb_spec (length keys) 1) as [Hle|Hgt].
  - destruct keys as [|kb [|]]; [| |simpl in Hle; lia].
    + exists None, table. split_and!; [done| |done]. intros k.
      rewrite decide_False by apply not_elem_of_nil. by destruct (table !! k).
    + exists (Some kb), (alter (set_is_best_flag true) kb table). split_and!; [done| |].
      * intros k. rewrite lookup_alter. destruct (decide (kb = k)) as [->|Hne].
        { rewrite (decide_True (P := k ∈ [k])), bool_decide_true by (done || left). done. }
        rewrite decide_False by set_solver. by destruct (table !! k).
      * intros _. destruct (Hsome kb ltac:(left)) as [eb Heb]. exists kb, eb. split_and!; [done|left|done|].
        intros k e ->%list_elem_of_singleton He. rewrite Heb in He. injection He as <-. apply rank_ltb_irrefl.
  - destruct (ranked_keys table keys Hsome) as (ranked & -> & Hk & Hr). simpl.
    exists (min_by_key ranked), (alter_all (fun k => set_is_best_flag (bool_decide (min_by_key ranked = Some k))) keys table).
    split; [done|]. split; [intros k; by rewrite lookup_alter_all|].
    intros _. destruct ranked as [|x xs]; [simpl in Hk; subst; simpl in Hgt; lia|].
    destruct (min_by_least x xs) as [Hin Hmin]. cbn [min_by_key]. destruct (min_by x xs) as [r kb].
    apply Hr in Hin as Hb. destruct Hb as (eb & Heb & ->). exists kb, eb. split_and!; [done| |done|].
    + rewrite <- Hk. apply list_elem_of_fmap. by exists (path_rank (e_attributes eb), kb).
    + intros k e Hke He. rewrite <- Hk in Hke. apply list_elem_of_fmap in Hke as ([r' k'] & -> & Hin').
      destruct (Hr _ _ Hin') as (e' & He' & ->). cbn [snd] in He. rewrite He in He'. injection He' as <-.
      apply (Hmin _ Hin').
Qed.

(** The same for the whole table. *)
Lemma recompute_pointwise t rib prefix :
  exists t' best, recompute_best_path t rib prefix = Ok t' /\
    (forall rib' k, route t' rib' k =
       (if decide (rib = rib' /\ route_key_matches_prefix k prefix = true)
        then set_is_best_flag (bool_decide (best = Some k)) else id) <$> route t rib' k) /\
    (forall k e, route t rib k = Some e -> route_key_matches_prefix k prefix = true ->
       exists kb eb, best = Some kb /\ route t rib kb = Some eb /\ route_key_matches_prefix kb prefix = true /\
         rank_ltb (path_rank (e_attributes e)) (path_rank (e_attributes eb)) = false).
Proof.
  unfold recompute_best_path. destruct (tables t !! rib) as [table|] eqn:Ht.
  2:{ assert (forall k, route t rib k = None) as Hn by (intros k; unfold route, lookup2; by rewrite Ht).
      exists t, None. split_and!; [done| |by intros k e; rewrite Hn].
      intros rib' k. case_decide as Hd; [|by destruct (route t rib' k)]. destruct Hd as [<- _]. by rewrite Hn. }
  destruct (recompute_in_spec table prefix) as (best & table' & -> & Hl & Hbest). simpl.
  exists (mkRibTable (<[rib := table']> (tables t))), best. split; [done|].
  assert (forall k, route t rib k = table !! k) as Hr by (intros k; unfold route, lookup2; by rewrite Ht).
  split.
  - intros rib' k. unfold route at 1. cbn [tables]. rewrite lookup2_insert.
    destruct (decide (rib = rib')) as [<-|]; [|rewrite decide_False by tauto; unfold route; by destruct (lookup2 (tables t) rib' k)].
    rewrite Hl, Hr. destruct (table !! k) as [e|] eqn:He; [|done].
    destruct (decide (route_key_matches_prefix k prefix = true)).
    + by rewrite !decide_True by (rewrite ?elem_of_matching, ?He; eauto).
    + by rewrite !decide_False by (rewrite ?elem_of_matching; tauto).
  - intros k e Hk Hm. rewrite Hr in Hk. assert (k ∈ matching_keys table prefix) as Hin
      by (apply elem_of_matching; eauto).
    destruct Hbest as (kb & eb & -> & Hkb & Heb & Hmin).
    { intros Hnil. rewrite Hnil in Hin. by apply not_elem_of_nil in Hin. }
    apply elem_of_matching in Hkb as [_ Hkb]. exists kb, eb. rewrite Hr. split_and!; [done..|by apply (Hmin k)].
Qed.

(** What an operator expects of the decision process: [a] is preferred to [b]
    when it has the greater LOCAL_PREF (absent: zero), or the same and the
    shorter AS_PATH (absent: none), or the same and the smaller MED (absent: the
    largest). *)
Definition pref_of (a : PathAttributes) : Z := default 0 (local_pref a).
Definition hops_of (a : PathAttributes) : Z :=
  match as_path a with Some p => hop_count p mod 2 ^ 32 | None => 0 end.
Definition med_of (a : PathAttributes) : Z := default (2 ^ 32 - 1) (multi_exit_disc a).

Definition preferred (a b : PathAttributes) : Prop :=
  pref_of b < pref_of a \/
  (pref_of a = pref_of b /\
   (hops_of a < hops_of b \/ (hops_of a = hops_of b /\ med_of a < med_of b))).

Lemma rank_is_preference a b : rank_ltb (path_rank a) (path_rank b) = true <-> preferred a b.
Proof.
  unfold rank_ltb, path_rank, preferred, pref_of, hops_of, med_of.
  generalize (default (2 ^ 32 - 1) (multi_exit_disc a)) (default (2 ^ 32 - 1) (multi_exit_disc b)).
  destruct (local_pref a), (local_pref b); cbn [default from_option id]; intros; lia.
Qed.

(** Claim C21: best-path selection always succeeds, changes nothing but the
    best-path flags of the routes for the prefix, and, when the prefix has a
    route, leaves exactly one flagged, to which no other is preferred: one of
    greatest LOCAL_PREF, then of shortest AS_PATH, then of least MED, whatever
    the order of the hash map. *)
Theorem recompute_best_path_spec t rib prefix :
  exists t', recompute_best_path t rib prefix = Ok t' /\
    (forall rib' k, set_is_best_flag false <$> route t' rib' k = set_is_best_flag false <$> route t rib' k) /\
    (forall rib' k, rib' <> rib \/ route_key_matches_prefix k prefix = false ->
       route t' rib' k = route t rib' k) /\
    (forall k e, route t rib k = Some e -> route_key_matches_prefix k prefix = true ->
       exists kb eb, route t' rib kb = Some eb /\ e_is_best eb = true /\
         route_key_matches_prefix kb prefix = true /\
         forall k' e', route t' rib k' = Some e' -> route_key_matches_prefix k' prefix = true ->
           (e_is_best e' = true -> k' = kb) /\
           ~ preferred (e_attributes e') (e_attributes eb)).
Proof.
  destruct (recompute_pointwise t rib prefix) as (t' & best & Ht & Hr & Hbest).
  exists t'. split; [done|]. split_and!.
  - intros rib' k. rewrite Hr. destruct (route t rib' k); [|done]. simpl. by case_decide.
  - intros rib' k Hor. rewrite Hr, decide_False by (intros [? ?]; destruct Hor; congruence). by destruct (route t rib' k).
  - intros k e Hk Hm. destruct (Hbest k e Hk Hm) as (kb & eb & -> & Hkb & Hmb & _).
    exists kb, (set_is_best_flag true eb). rewrite Hr, decide_True, Hkb, bool_decide_true by done.
    split_and!; [done..|]. intros k' e'. rewrite Hr. intros Hk' Hm'. rewrite decide_True in Hk' by done.
    destruct (route t rib k') as [e0|] eqn:He0; [|done]. injection Hk' as <-. simpl. split.
    + by intros [= ->]%bool_decide_eq_true.
    + destruct (Hbest k' e0 He0 Hm') as (kb' & eb' & [= <-] & Hkb' & _ & Hmin). simplify_eq.
      rewrite <- rank_is_preference. cbn [set_is_best_flag e_attributes]. congruence.
Qed.

(** ** Stale routes *)

Definition total_size t : nat := map_fold (fun _ table n => (n + size table)%nat) 0%nat (tables t).

Lemma route_mark_stale t at_ rib k :
  route (mark_stale_all t at_) rib k = mark_stale_entry at_ <$> route t rib k.
Proof.
  unfold route, lookup2, mark_stale_all. cbn [tables]. rewrite lookup_fmap.
  destruct (tables t !! rib); simpl; [|done]. apply lookup_fmap.
Qed.

Lemma route_drain t now secs rib k :
  route (drain_deleted_stale t now secs).1 rib k =
    (e ← route t rib k; if expired now secs e then None else Some e).
Proof.
  unfold route, lookup2, drain_deleted_stale, retain_live. cbn [fst tables]. rewrite lookup_fmap.
  destruct (tables t !! rib) as [table|]; simpl; [|done]. rewrite map_lookup_filter.
  destruct (table !! k) as [e|]; simpl; [|done]. destruct (expired now secs e); by case_guard.
Qed.

Lemma retain_size now secs table :
  (size (retain_live now secs table) +
   size (base.filter (fun kv => expired now secs kv.2 = true) table))%nat = size table.
Proof.
  unfold retain_live. rewrite <- (map_filter_union_complement (fun kv => expired now secs kv.2 = true) table) at 3.
  rewrite map_size_disj_union by apply map_disjoint_filter_complement.
  rewrite Nat.add_comm. f_equal. f_equal. apply map_filter_ext. intros k e _. simpl.
  by destruct (expired now secs e).
Qed.

Lemma drain_count t now secs :
  (total_size (drain_deleted_stale t now secs).1 + (drain_deleted_stale t now secs).2)%nat = total_size t.
Proof.
  unfold total_size, drain_deleted_stale. cbn [fst snd tables]. rewrite map_fold_fmap.
  induction (tables t) as [|rib table m Hm Hfold IH] using map_first_key_ind; [by rewrite !map_fold_empty|].
  rewrite !map_fold_insert_first_key by done. pose proof (retain_size now secs table). unfold compose in *. lia.
Qed.

(** Long-lived graceful restart.  Marking keeps every route, dates the
    normal ones and leaves those already stale with their first date, so it is
    idempotent; draining removes exactly the routes that have been stale for
    the given time, and returns their number. *)
Theorem llgr_lifecycle t at_ at_' now secs rib k :
  route (mark_stale_all t at_) rib k = mark_stale_entry at_ <$> route t rib k /\
  route (mark_stale_all (mark_stale_all t at_) at_') rib k =
    (fun e => if bool_decide (e_llgr_state e = Llgr_Normal) then mark_stale at_ e else e) <$> route t rib k /\
  route (drain_deleted_stale t now secs).1 rib k =
    (e ← route t rib k; if expired now secs e then None else Some e) /\
  (total_size (drain_deleted_stale t now secs).1 + (drain_deleted_stale t now secs).2)%nat = total_size t.
Proof.
  split_and!; [apply route_mark_stale| |apply route_drain|apply drain_count].
  rewrite !route_mark_stale. destruct (route t rib k) as [e|]; simpl; [|done]. f_equal.
  unfold mark_stale_entry. destruct (bool_decide (e_llgr_state e = Llgr_Normal)) eqn:He; [done|by rewrite He].
Qed.

End TableLaws.

Section TableWitnesses.
#[local] Instance witness_chrono : Chrono := reference_chrono.
#[local] Instance witness_order : HashOrder := trie_order.

(** Two Add-Path routes for one prefix, the second with the longer path. *)
Definition demo_entry (path_id : Z) (asns : list Z) : RibEntry :=
  mkRibEntry net_10_1_2 (Some path_id) (set_as_path (Some (mkAsPath [Seg_Sequence asns])) path_attributes_default)
    0 (IpAddr_V4 (bs [10; 0; 0; 1])) 65001 false Llgr_Normal None.

Definition demo_table : RibTable :=
  (table_insert (table_insert rib_table_new Rib_LocRib (demo_entry 1 [65001; 65002])).1
     Rib_LocRib (demo_entry 2 [65001])).1.

Lemma recompute_best_path_spec_witness :
  exists t', recompute_best_path demo_table Rib_LocRib net_10_1_2 = Ok t' /\
    exists kb eb, route t' Rib_LocRib kb = Some eb /\ e_is_best eb = true.
Proof.
  destruct (recompute_best_path_spec demo_table Rib_LocRib net_10_1_2) as (t' & Ht & _ & _ & Hb).
  exists t'. split; [exact Ht|].
  destruct (Hb (route_key_from_prefix net_10_1_2 (Some 2)) (demo_entry 2 [65001]))
    as (kb & eb & He & Hbest & _); [reflexivity|reflexivity|]. exists kb, eb. by split.
Defined.

End TableWitnesses.
