(* ===== verification/RibSession.v ===== *)
(** * Peer and speaker sessions ([crates/rbmp-rib/src/session.rs])

    The life of a BGP peer as seen over BMP, and of the BMP speaker that
    reports it.  [Utc::now()] is an argument; the flap counter keeps its
    32-bit width. *)

From Stdlib Require Import ZArith Lia ZifyBool.
From stdpp Require Import base numbers list option strings gmap fin_maps sets.
From S2P Require Import Prelude RustStd Crates HashMaps BgpTypes Capabilities BmpTypes RibTable.

Local Open Scope Z_scope.

Inductive PeerState : Type := State_Up | State_Down | State_Unknown.

#[global] Instance peer_state_eq_dec : EqDecision PeerState.
Proof. solve_decision. Defined.

Section Session.
Context `{Chrono} `{BuildProfile}.

Record PeerSession := mkPeerSession {
  ps_peer_key : PeerKey;
  ps_peer_type : PeerType;
  ps_peer_distinguisher : bytes;
  ps_peer_address : IpAddr;
  ps_peer_as : Z;
  ps_peer_bgp_id : Ipv4Addr;
  ps_local_as : Z;
  ps_hold_time : Z;
  ps_state : PeerState;
  ps_up_at : option DateTime;
  ps_down_at : option DateTime;
  ps_capabilities : list BgpCapability;
  ps_route_counts : gmap RibType nat;
  ps_flap_count : Z;
  ps_add_path_families : list (AfiSafi * Z);
  ps_llgr_stale_secs : Z;
  ps_llgr_active : bool;
  ps_eor_families : gmap RibType (gset AfiSafi);
}.

Definition peer_session_new_for_speaker (speaker : IpAddr) (hdr : PeerHeader) : PeerSession := {|
  ps_peer_key := peer_key_from_header speaker hdr;
  ps_peer_type := peer_type hdr;
  ps_peer_distinguisher := peer_distinguisher hdr;
  ps_peer_address := peer_address hdr;
  ps_peer_as := peer_as hdr;
  ps_peer_bgp_id := peer_bgp_id hdr;
  ps_local_as := 0;
  ps_hold_time := 0;
  ps_state := State_Unknown;
  ps_up_at := None;
  ps_down_at := None;
  ps_capabilities := [];
  ps_route_counts := ∅;
  ps_flap_count := 0;
  ps_add_path_families := [];
  ps_llgr_stale_secs := 0;
  ps_llgr_active := false;
  ps_eor_families := ∅;
|}.

(** [PeerSession::new]: the speaker is 0.0.0.0. *)
Definition peer_session_new (hdr : PeerHeader) : PeerSession :=
  peer_session_new_for_speaker (IpAddr_V4 (bs [0; 0; 0; 0])) hdr.

(** The inner body of the Add-Path loop: the first mode-3 entry of a family. *)
Definition add_path_push (ap : list (AfiSafi * Z)) (entry : AfiSafi * Z) : list (AfiSafi * Z) :=
  let '(fam, mode) := entry in
  if (mode =? 3) && negb (existsb (fun '(a, _) => bool_decide (a = fam)) ap) then ap ++ [(fam, mode)] else ap.

Definition session_add_path (caps : list BgpCapability) : list (AfiSafi * Z) :=
  foldl (fun ap c => foldl add_path_push ap (add_path_entries c)) [] caps.

(** [while i + 7 <= entries.len()] *)
Definition llgr_step (entries : bytes) (st : Z * Z) : RibM ((Z * Z) + Z) :=
  let '(i, max_secs) := st in
  if i + 7 <=? blen entries then
    t ← be_at 3 entries (i + 4);
    Ok (inl (i + 7, if max_secs <? t then t else max_secs))
  else Ok (inr max_secs).

Definition llgr_max_secs (entries : bytes) : RibM Z :=
  loop (S (length entries)) (llgr_step entries) (0, 0).

Definition llgr_entries (c : BgpCapability) : option bytes :=
  match c with Cap_LongLivedGracefulRestart entries => Some entries | _ => None end.

(** [caps.iter().find_map(..).unwrap_or(0)] *)
Definition llgr_stale_of (caps : list BgpCapability) : RibM Z :=
  match find_map llgr_entries caps with
  | Some entries => llgr_max_secs entries
  | None => Ok 0
  end.

Definition on_up (p : PeerSession) (local_as hold_time : Z) (caps : list BgpCapability) (at_ : DateTime)
    : RibM PeerSession :=
  flap_count ← (if bool_decide (ps_state p = State_Up) then checked_width 32 (ps_flap_count p + 1)
                else Ok (ps_flap_count p));
  stale ← llgr_stale_of caps;
  Ok {|
    ps_peer_key := ps_peer_key p;
    ps_peer_type := ps_peer_type p;
    ps_peer_distinguisher := ps_peer_distinguisher p;
    ps_peer_address := ps_peer_address p;
    ps_peer_as := ps_peer_as p;
    ps_peer_bgp_id := ps_peer_bgp_id p;
    ps_local_as := local_as;
    ps_hold_time := hold_time;
    ps_state := State_Up;
    ps_up_at := Some at_;
    ps_down_at := ps_down_at p;
    ps_capabilities := caps;
    ps_route_counts := ps_route_counts p;
    ps_flap_count := flap_count;
    ps_add_path_families := session_add_path caps;
    ps_llgr_stale_secs := stale;
    ps_llgr_active := 0 <? stale;
    ps_eor_families := ∅;
  |}.

(** [peer_as] and [peer_bgp_id] from the header, then [on_up]. *)
Definition set_peer_ids (p : PeerSession) (asn : Z) (id : Ipv4Addr) : PeerSession :=
  mkPeerSession (ps_peer_key p) (ps_peer_type p) (ps_peer_distinguisher p) (ps_peer_address p) asn id
    (ps_local_as p) (ps_hold_time p) (ps_state p) (ps_up_at p) (ps_down_at p) (ps_capabilities p)
    (ps_route_counts p) (ps_flap_count p) (ps_add_path_families p) (ps_llgr_stale_secs p)
    (ps_llgr_active p) (ps_eor_families p).

Definition on_up_with_header (p : PeerSession) (hdr : PeerHeader) (local_as hold_time : Z)
    (caps : list BgpCapability) (at_ : DateTime) : RibM PeerSession :=
  on_up (set_peer_ids p (peer_as hdr) (peer_bgp_id hdr)) local_as hold_time caps at_.

Definition add_path_active_for (p : PeerSession) (f : AfiSafi) : bool :=
  existsb (fun '(a, m) => bool_decide (a = f) && (0 <? m)) (ps_add_path_families p).

Definition decode_context (p : PeerSession) (four_byte : bool) : BgpDecodeContext :=
  from_capabilities four_byte (ps_capabilities p).

Definition set_eor (p : PeerSession) (eor : gmap RibType (gset AfiSafi)) : PeerSession :=
  mkPeerSession (ps_peer_key p) (ps_peer_type p) (ps_peer_distinguisher p) (ps_peer_address p)
    (ps_peer_as p) (ps_peer_bgp_id p) (ps_local_as p) (ps_hold_time p) (ps_state p) (ps_up_at p)
    (ps_down_at p) (ps_capabilities p) (ps_route_counts p) (ps_flap_count p) (ps_add_path_families p)
    (ps_llgr_stale_secs p) (ps_llgr_active p) eor.

Definition set_route_counts (p : PeerSession) (counts : gmap RibType nat) : PeerSession :=
  mkPeerSession (ps_peer_key p) (ps_peer_type p) (ps_peer_distinguisher p) (ps_peer_address p)
    (ps_peer_as p) (ps_peer_bgp_id p) (ps_local_as p) (ps_hold_time p) (ps_state p) (ps_up_at p)
    (ps_down_at p) (ps_capabilities p) counts (ps_flap_count p) (ps_add_path_families p)
    (ps_llgr_stale_secs p) (ps_llgr_active p) (ps_eor_families p).

Definition mark_eor (p : PeerSession) (rib : RibType) (f : AfiSafi) : PeerSession :=
  set_eor p (<[rib := {[f]} ∪ default ∅ (ps_eor_families p !! rib)]> (ps_eor_families p)).

Definition has_eor (p : PeerSession) (rib : RibType) (f : AfiSafi) : bool :=
  match ps_eor_families p !! rib with
  | Some set => bool_decide (f ∈ set)
  | None => false
  end.

Definition on_down (p : PeerSession) (at_ : DateTime) : PeerSession :=
  mkPeerSession (ps_peer_key p) (ps_peer_type p) (ps_peer_distinguisher p) (ps_peer_address p)
    (ps_peer_as p) (ps_peer_bgp_id p) (ps_local_as p) (ps_hold_time p) State_Down (ps_up_at p)
    (Some at_) (ps_capabilities p) ∅ (ps_flap_count p) (ps_add_path_families p)
    (ps_llgr_stale_secs p) (ps_llgr_active p) ∅.

Definition uptime_secs (p : PeerSession) (now : DateTime) : option Z := num_seconds now <$> ps_up_at p.

(** ** The speaker *)

Record BmpSession := mkBmpSession {
  bs_source : ObservationSource;
  bs_speaker_addr : IpAddr;
  bs_sys_name : option string;
  bs_sys_descr : option string;
  bs_connected_at : DateTime;
  bs_peers : gmap PeerKey PeerSession;
}.

Definition bmp_session_with_source (source : ObservationSource) (at_ : DateTime) : BmpSession :=
  mkBmpSession source (exporter_addr source) None None at_ ∅.

Definition bmp_session_new (speaker : IpAddr) (at_ : DateTime) : BmpSession :=
  bmp_session_with_source (observation_source_new speaker 1) at_.

Definition peer_by_key (s : BmpSession) (k : PeerKey) : option PeerSession := bs_peers s !! k.

(** [values().find(..)]: the first peer in hash order. *)
Definition peer_by_addr `{HashOrder} (s : BmpSession) (addr : IpAddr) : option PeerSession :=
  find_map (fun k => p ← bs_peers s !! k; if bool_decide (ps_peer_address p = addr) then Some p else None)
    (hash_keys (bs_peers s)).

Definition peer_count (s : BmpSession) : nat := size (bs_peers s).

Definition up_peer_count (s : BmpSession) : nat :=
  size (base.filter (fun kp => ps_state kp.2 = State_Up) (bs_peers s)).

Definition sum_counts (counts : gmap RibType nat) : nat := map_fold (fun _ => Nat.add) 0%nat counts.

Definition session_total_routes (s : BmpSession) : nat :=
  map_fold (fun _ p n => (sum_counts (ps_route_counts p) + n)%nat) 0%nat (bs_peers s).

End Session.

(** ** Properties *)

Section SessionLaws.
Context `{Chrono} `{BuildProfile}.
Implicit Types (p : PeerSession) (caps : list BgpCapability).

Lemma add_path_push_inv ap fam mode :
  NoDup ap.*1 -> Forall (fun e => e.2 = 3) ap ->
  NoDup (add_path_push ap (fam, mode)).*1 /\ Forall (fun e => e.2 = 3) (add_path_push ap (fam, mode)) /\
  forall f, f ∈ (add_path_push ap (fam, mode)).*1 <-> f ∈ ap.*1 \/ (f = fam /\ mode = 3).
Proof.
  intros Hnd H3. unfold add_path_push.
  assert (existsb (fun '(a, _) => bool_decide (a = fam)) ap = true <-> fam ∈ ap.*1) as Hex.
  { rewrite existsb_exists, list_elem_of_fmap. split.
    - intros ([a m] & Hin%list_elem_of_In & ->%bool_decide_eq_true). by exists (fam, m).
    - intros ([a m] & -> & Hin). exists (a, m). rewrite <- list_elem_of_In, bool_decide_eq_true. done. }
  destruct (Z.eqb_spec mode 3) as [->|Hm]; simpl; [|split_and!; [done..|tauto]].
  destruct (existsb _ ap); simpl.
  - split_and!; [done..|]. intros f. split; [tauto|]. intros [?|[-> _]]; [done|]. by apply Hex.
  - rewrite fmap_app, NoDup_app, Forall_app. split_and!; try done.
    + intros x Hx ->%list_elem_of_singleton. by apply Hex in Hx.
    + apply NoDup_singleton.
    + by apply Forall_singleton.
    + intros f. rewrite elem_of_app. simpl. rewrite list_elem_of_singleton. tauto.
Qed.

Lemma foldl_add_path ap es :
  NoDup ap.*1 -> Forall (fun e => e.2 = 3) ap ->
  NoDup (foldl add_path_push ap es).*1 /\ Forall (fun e => e.2 = 3) (foldl add_path_push ap es) /\
  forall f, f ∈ (foldl add_path_push ap es).*1 <-> f ∈ ap.*1 \/ (f, 3) ∈ es.
Proof.
  revert ap. induction es as [|[fam mode] es IH]; intros ap Hnd H3; cbn [foldl].
  - split_and!; [done..|]. intros f. set_solver.
  - destruct (add_path_push_inv ap fam mode Hnd H3) as (Hnd' & H3' & Hf).
    destruct (IH _ Hnd' H3') as (? & ? & Hall). split_and!; [done..|].
    intros f. rewrite Hall, Hf, elem_of_cons. naive_solver.
Qed.

Lemma session_add_path_flat caps : session_add_path caps = foldl add_path_push [] (caps ≫= add_path_entries).
Proof.
  unfold session_add_path. generalize (@nil (AfiSafi * Z)) as ap.
  induction caps as [|c caps IH]; intros ap; [done|]. cbn [foldl mbind list_bind]. by rewrite foldl_app, IH.
Qed.

(** The families a session treats as Add-Path are those offered with mode 3. *)
Lemma session_add_path_spec caps :
  NoDup (session_add_path caps).*1 /\ Forall (fun e => e.2 = 3) (session_add_path caps) /\
  forall f, f ∈ (session_add_path caps).*1 <-> offers caps f 3.
Proof.
  rewrite session_add_path_flat. destruct (foldl_add_path [] (caps ≫= add_path_entries)) as (? & ? & Hf);
    [constructor..|]. split_and!; [done..|]. intros f. rewrite Hf. unfold offers. set_solver.
Qed.

Lemma session_active_spec p f :
  ps_add_path_families p = session_add_path (ps_capabilities p) ->
  add_path_active_for p f = true <-> offers (ps_capabilities p) f 3.
Proof.
  intros Heq. destruct (session_add_path_spec (ps_capabilities p)) as (_ & H3 & Hf).
  unfold add_path_active_for. rewrite Heq, <- Hf, existsb_exists, list_elem_of_fmap.
  rewrite Forall_forall in H3. split.
  - intros ([a m] & Hin%list_elem_of_In & [->%bool_decide_eq_true _]%andb_true_iff). by exists (f, m).
  - intros ([a m] & -> & Hin). exists (a, m). rewrite <- list_elem_of_In. split; [done|].
    pose proof (H3 _ Hin). simpl in *. subst. by rewrite bool_decide_true.
Qed.

Lemma elem_of_from_capabilities four caps f :
  has_add_path (from_capabilities four caps) f = true <-> offers caps f 3.
Proof.
  unfold has_add_path, from_capabilities.
  assert (forall st, (foldl from_capabilities_step st caps).1 =
    foldl (fun (fams : gset AfiSafi) '(f, mode) => if mode =? 3 then {[f]} ∪ fams else fams) st.1
      (caps ≫= add_path_entries)) as Hflat.
  { induction caps as [|c caps IH]; intros st; [done|]. cbn [foldl mbind list_bind].
    rewrite IH, foldl_app. by destruct c. }
  specialize (Hflat (∅, false)). destruct (foldl _ _ caps) as [fams b]. cbn [fst] in Hflat.
  cbn [add_path_families]. rewrite bool_decide_eq_true, Hflat.
  rewrite (elem_of_foldl_union _ (fun e => e = (f, 3))).
  - unfold offers. set_solver.
  - intros s [g mode]. destruct (Z.eqb_spec mode 3); set_solver.
Qed.

(** ** Long-lived graceful restart times *)

Lemma llgr_loop chunks tail pre fuel m :
  Forall (fun c => blen c = 7) chunks -> blen tail < 7 -> (length chunks < fuel)%nat ->
  loop fuel (llgr_step (pre ++ concat chunks ++ tail)) (blen pre, m) =
    Ok (foldl Z.max m ((fun c => be (drop 4 c)) <$> chunks)).
Proof.
  intros Hc Ht. revert pre fuel m. induction Hc as [|c chunks Hlen Hc IH]; intros pre fuel m Hfuel;
    (destruct fuel as [|fuel]; [simpl in Hfuel; lia|]); rewrite loop_S; unfold llgr_step at 1.
  - rewrite blen_app. simpl. by rewrite (proj2 (Z.leb_gt _ _)) by lia.
  - assert (blen (concat (c :: chunks) ++ tail) >= 7) as Hge
      by (simpl; rewrite !blen_app; pose proof (blen_nonneg (concat chunks)); pose proof (blen_nonneg tail); lia).
    rewrite blen_app, (proj2 (Z.leb_le _ _)) by lia. cbn [concat]. rewrite <- app_assoc.
    rewrite (be_at_at 3 _ (pre ++ take 4 c) (drop 4 c) (concat chunks ++ tail)), bind_Ok.
    + replace (blen pre + 7) with (blen (pre ++ c)) by (rewrite blen_app; lia). rewrite (app_assoc pre c).
      rewrite IH by (simpl in Hfuel; lia). cbn [fmap list_fmap foldl]. do 2 f_equal. case_if; lia.
    + by rewrite <- app_assoc, (app_assoc (take 4 c)), take_drop.
    + rewrite blen_app. change (take 4 c) with (take (Z.to_nat 4) c). rewrite blen_take by lia. lia.
    + change (drop 4 c) with (drop (Z.to_nat 4) c). rewrite blen_drop by lia. lia.
Qed.

Lemma length_chunks (chunks : list bytes) :
  Forall (fun c => blen c = 7) chunks -> (length chunks <= length (concat chunks))%nat.
Proof. induction 1 as [|c cs Hc _ IH]; [done|]. simpl. rewrite length_app. unfold blen in Hc. lia. Qed.

(** The loop never fails, and reads numbers of three octets. *)
Lemma wp_llgr_max_secs pn entries : wp pn (llgr_max_secs entries) (fun s => 0 <= s < 2 ^ 24).
Proof.
  unfold llgr_max_secs.
  apply (wp_loop_pos_inv _ _ _ _ _ (fun m => 0 <= m < 2 ^ 24)); [pose proof (blen_nonneg entries); lia|done|].
  intros i m Hi Hm. unfold llgr_step. wp_core; [|done]. apply wp_bind, wp_post; [wp_step; done|].
  intros t (_ & _ & _ & Ht)%be_at_inv. apply wp_ok. split; [simpl; lia|]. cbn [snd].
  pose proof (be_bounds (take (Z.to_nat 3) (drop (Z.to_nat (i + 4)) entries))) as Hb.
  rewrite blen_take in Hb by (rewrite blen_drop by lia; lia). change (256 ^ 3) with (2 ^ 24) in Hb.
  rewrite <- Ht in Hb. case_if; lia.
Qed.

Lemma wp_llgr_stale_of pn caps : wp pn (llgr_stale_of caps) (fun s => 0 <= s < 2 ^ 24).
Proof. unfold llgr_stale_of. case_match; [apply wp_llgr_max_secs|done]. Qed.

(** The stale time of a long-lived graceful restart capability is the
    largest of its entries, each the last three octets of seven, and an
    incomplete entry at the end is ignored. *)
Theorem llgr_time_is_maximum (chunks : list bytes) (tail : bytes) :
  Forall (fun c => blen c = 7) chunks -> blen tail < 7 ->
  llgr_max_secs (concat chunks ++ tail) = Ok (foldl Z.max 0 ((fun c => be (drop 4 c)) <$> chunks)).
Proof.
  intros Hc Ht. apply (llgr_loop chunks tail []); [done..|].
  rewrite length_app. pose proof (length_chunks chunks Hc). lia.
Qed.

Lemma wp_on_up p local_as hold caps at_ :
  0 <= ps_flap_count p < 2 ^ 32 ->
  wp (overflow_checks = true /\ ps_state p = State_Up /\ ps_flap_count p = 2 ^ 32 - 1)
     (on_up p local_as hold caps at_) (fun p' =>
       ps_peer_key p' = ps_peer_key p /\ ps_state p' = State_Up /\ ps_up_at p' = Some at_ /\
       ps_capabilities p' = caps /\ ps_add_path_families p' = session_add_path caps /\
       ps_eor_families p' = ∅ /\ ps_route_counts p' = ps_route_counts p /\
       0 <= ps_llgr_stale_secs p' < 2 ^ 24 /\ ps_llgr_active p' = (0 <? ps_llgr_stale_secs p') /\
       (ps_state p <> State_Up -> ps_flap_count p' = ps_flap_count p) /\ 0 <= ps_flap_count p' < 2 ^ 32).
Proof.
  intros Hf. unfold on_up. apply wp_bind.
  apply (wp_mono _ _ (fun n => (ps_state p <> State_Up -> n = ps_flap_count p) /\ 0 <= n < 2 ^ 32)).
  - case_bool_decide as Hup; [|by apply wp_ok]. unfold checked_width.
    destruct ((0 <=? ps_flap_count p + 1) && (ps_flap_count p + 1 <? 2 ^ 32)) eqn:Hr; [split; [done|lia]|].
    destruct overflow_checks eqn:Hc; [split_and!; [done..|lia]|]. split; [done|]. by apply Z.mod_pos_bound.
  - intros n [Hn Hn']. apply wp_bind. eapply wp_mono; [apply wp_llgr_stale_of|]. intros secs Hs.
    cbn beta in Hs. apply wp_ok. simpl. split_and!; (done || lia || auto).
Qed.

(** A peer that comes up is in a fresh state: its End-of-RIB markers
    are gone, its stale time fits in 24 bits and decides whether LLGR is active,
    it counts a flap only if it was already up, and the two views of Add-Path
    agree: the session's families and the decoding context it hands to the
    parser are both those the capabilities offer with mode 3.  It panics only
    when the 32-bit flap counter overflows under overflow checks. *)
Theorem on_up_spec p local_as hold caps at_ :
  0 <= ps_flap_count p < 2 ^ 32 ->
  wp (overflow_checks = true /\ ps_state p = State_Up /\ ps_flap_count p = 2 ^ 32 - 1)
     (on_up p local_as hold caps at_) (fun p' =>
       ps_state p' = State_Up /\ (forall rib f, has_eor p' rib f = false) /\
       0 <= ps_llgr_stale_secs p' < 2 ^ 24 /\ ps_llgr_active p' = (0 <? ps_llgr_stale_secs p') /\
       (ps_state p <> State_Up -> ps_flap_count p' = ps_flap_count p) /\
       forall f four, (add_path_active_for p' f = true <-> offers caps f 3) /\
         add_path_active_for p' f = has_add_path (decode_context p' four) f).
Proof.
  intros Hf. eapply wp_mono; [by apply wp_on_up|].
  intros p' (_ & Hup & _ & Hc & Ha & Heor & _ & Hs & Hl & Hfl & _). split_and!; try done.
  - intros rib f. unfold has_eor. by rewrite Heor, lookup_empty.
  - lia.
  - lia.
  - intros f four. pose proof (session_active_spec p' f) as Hact.
    rewrite Hc in Hact. specialize (Hact Ha). split; [done|].
    pose proof (elem_of_from_capabilities four caps f) as Hctx.
    unfold decode_context. rewrite Hc. apply Bool.eq_true_iff_eq. by rewrite Hact, Hctx.
Qed.

(** The capabilities a session keeps: those received, then those sent that are
    not among them. *)
Definition merge_capabilities (recv sent : list BgpCapability) : list BgpCapability :=
  foldl (fun caps sc => if bool_decide (sc ∈ caps) then caps else caps ++ [sc]) recv sent.

Lemma has_eor_mark p rib f rib' f' :
  has_eor (mark_eor p rib f) rib' f' =
    (if decide (rib = rib') then bool_decide (f' = f) || has_eor p rib' f' else has_eor p rib' f').
Proof.
  unfold has_eor, mark_eor. simpl. rewrite lookup_insert. case_decide; subst; [|done].
  destruct (ps_eor_families p !! rib') as [s|]; simpl.
  - destruct (bool_decide_reflect (f' = f)) as [->|]; [by rewrite bool_decide_true by set_solver|].
    apply bool_decide_ext. set_solver.
  - rewrite orb_false_r. apply bool_decide_ext. set_solver.
Qed.

(** End-of-RIB bookkeeping: a marker is recorded for its RIB and
    family alone, and a peer that goes down or comes up again has none. *)
Theorem eor_tracking p rib f rib' f' at_ :
  has_eor (mark_eor p rib f) rib' f' =
    (if decide (rib = rib') then bool_decide (f' = f) || has_eor p rib' f' else has_eor p rib' f') /\
  has_eor (on_down p at_) rib f = false.
Proof. split; [apply has_eor_mark|done]. Qed.

(** A session can take Add-Path to be active for a family that the two
    OPENs did not negotiate: it merges both capability lists and looks for mode
    3 in either, while the negotiation needs both sides. *)
Theorem session_add_path_not_negotiated :
  exists sent recv f, f ∈ (session_add_path (merge_capabilities recv sent)).*1 /\
    has_add_path (from_negotiated_open true sent recv) f = false.
Proof.
  exists [Cap_AddPath [(ipv4_unicast, 3)]], [], ipv4_unicast. split; [|reflexivity].
  apply list_elem_of_In. by left.
Qed.

End SessionLaws.

Section SessionWitnesses.
#[local] Instance witness_chrono : Chrono := reference_chrono.
#[local] Instance witness_profile : BuildProfile := true.

Lemma llgr_time_is_maximum_witness :
  llgr_max_secs (concat [bs [0; 1; 1; 0; 0; 1; 0]; bs [0; 2; 1; 0; 0; 0; 60]] ++ bs [9]) = Ok 256.
Proof.
  rewrite (llgr_time_is_maximum [bs [0; 1; 1; 0; 0; 1; 0]; bs [0; 2; 1; 0; 0; 0; 60]] (bs [9]));
    [reflexivity|by repeat constructor|done].
Defined.

Definition demo_session : PeerSession :=
  peer_session_new (mkPeerHeader Peer_GlobalInstance (mkPeerFlags 0) (replicate 8 Byte.x00)
    (IpAddr_V4 (bs [10; 0; 0; 1])) 65001 (bs [10; 0; 0; 1]) 0 Rib_AdjRibInPrePolicy).

Lemma on_up_spec_witness :
  exists p', on_up demo_session 65000 90 [Cap_AddPath [(ipv4_unicast, 3)]] 5 = Ok p' /\
    add_path_active_for p' ipv4_unicast = true.
Proof.
  pose proof (on_up_spec demo_session 65000 90 [Cap_AddPath [(ipv4_unicast, 3)]] 5 ltac:(done)) as Hw.
  destruct (on_up demo_session 65000 90 [Cap_AddPath [(ipv4_unicast, 3)]] 5) as [p'| | |] eqn:Hp; [|done..].
  exists p'. split; [done|]. apply Hw; [exact true|]. apply list_elem_of_In. by left.
Defined.

End SessionWitnesses.
