(* ===== verification/RibFilter.v ===== *)
(** * Programmable route filters ([crates/rbmp-rib/src/filter.rs],
    [crates/rbmp-rib/src/filter_expr.rs])

    The compiled filter chain that decides which announcements enter the RIB,
    and the expression language of its predicates.  Parsing the YAML file, the
    networks and the expressions is the business of other crates: the parsers
    are parameters of [compile], and so is the membership test of [ipnet]. *)

From Stdlib Require Import ZArith Lia ZifyBool.
From stdpp Require Import base numbers list option strings gmap sets.
From S2P Require Import Prelude RustStd Crates BgpTypes Nlri BgpAttributes.

Local Open Scope Z_scope.

(** ** Expressions *)

Record RouteCtx := mkRouteCtx {
  rc_prefix_len : Z;
  rc_as_path_len : Z;
  rc_origin_asn : Z;
  rc_has_prepend : bool;
  rc_rpki : string;
  rc_action : string;
  rc_peer_as : Z;
  rc_local_pref : option Z;
  rc_med : option Z;
  rc_community_set : gset string;
}.

Inductive Expr : Type :=
| Expr_And (a b : Expr)
| Expr_Or (a b : Expr)
| Expr_Not (e : Expr)
| Expr_PrefixLenGt (n : Z) | Expr_PrefixLenLt (n : Z) | Expr_PrefixLenGe (n : Z)
| Expr_PrefixLenLe (n : Z) | Expr_PrefixLenEq (n : Z)
| Expr_AsPathLenGt (n : Z) | Expr_AsPathLenLt (n : Z) | Expr_AsPathLenGe (n : Z)
| Expr_AsPathLenLe (n : Z) | Expr_AsPathLenEq (n : Z)
| Expr_LocalPrefGt (n : Z) | Expr_LocalPrefLt (n : Z) | Expr_LocalPrefEq (n : Z)
| Expr_MedGt (n : Z) | Expr_MedLt (n : Z) | Expr_MedEq (n : Z)
| Expr_RpkiEq (v : string) | Expr_RpkiNe (v : string)
| Expr_ActionEq (v : string)
| Expr_CommunityHas (c : string)
| Expr_OriginAsIn (s : gset Z) | Expr_OriginAsNotIn (s : gset Z)
| Expr_PeerAsIn (s : gset Z) | Expr_PeerAsNotIn (s : gset Z)
| Expr_HasPrepend | Expr_True | Expr_False.

Fixpoint eval (e : Expr) (ctx : RouteCtx) : bool :=
  match e with
  | Expr_And a b => eval a ctx && eval b ctx
  | Expr_Or a b => eval a ctx || eval b ctx
  | Expr_Not e => negb (eval e ctx)
  | Expr_PrefixLenGt n => n <? rc_prefix_len ctx
  | Expr_PrefixLenLt n => rc_prefix_len ctx <? n
  | Expr_PrefixLenGe n => n <=? rc_prefix_len ctx
  | Expr_PrefixLenLe n => rc_prefix_len ctx <=? n
  | Expr_PrefixLenEq n => rc_prefix_len ctx =? n
  | Expr_AsPathLenGt n => n <? rc_as_path_len ctx
  | Expr_AsPathLenLt n => rc_as_path_len ctx <? n
  | Expr_AsPathLenGe n => n <=? rc_as_path_len ctx
  | Expr_AsPathLenLe n => rc_as_path_len ctx <=? n
  | Expr_AsPathLenEq n => rc_as_path_len ctx =? n
  | Expr_LocalPrefGt n => n <? default 100 (rc_local_pref ctx)
  | Expr_LocalPrefLt n => default 100 (rc_local_pref ctx) <? n
  | Expr_LocalPrefEq n => default 100 (rc_local_pref ctx) =? n
  | Expr_MedGt n => n <? default 0 (rc_med ctx)
  | Expr_MedLt n => default 0 (rc_med ctx) <? n
  | Expr_MedEq n => default 0 (rc_med ctx) =? n
  | Expr_RpkiEq v => bool_decide (rc_rpki ctx = v)
  | Expr_RpkiNe v => negb (bool_decide (rc_rpki ctx = v))
  | Expr_ActionEq v => bool_decide (rc_action ctx = v)
  | Expr_CommunityHas c => bool_decide (c ∈ rc_community_set ctx)
  | Expr_OriginAsIn s => bool_decide (rc_origin_asn ctx ∈ s)
  | Expr_OriginAsNotIn s => negb (bool_decide (rc_origin_asn ctx ∈ s))
  | Expr_PeerAsIn s => bool_decide (rc_peer_as ctx ∈ s)
  | Expr_PeerAsNotIn s => negb (bool_decide (rc_peer_as ctx ∈ s))
  | Expr_HasPrepend => rc_has_prepend ctx
  | Expr_True => true
  | Expr_False => false
  end.

(** ** Filters *)

Inductive FilterAction : Type := Action_Accept | Action_Deny | Action_Tag.

Inductive FilterVerdict : Type := Verdict_Accept | Verdict_Deny | Verdict_Default.

#[global] Instance filter_verdict_eq_dec : EqDecision FilterVerdict.
Proof. solve_decision. Defined.

Record RouteFilter := mkRouteFilter {
  rf_name : string;
  rf_action : FilterAction;
  rf_prefix_list : list string;
  rf_peer_as_list : list Z;
  rf_community_list : list string;
  rf_peer_addr_list : list string;
  rf_as_path_contains : list Z;
  rf_local_pref_min : option Z;
  rf_local_pref_max : option Z;
  rf_med_max : option Z;
  rf_expr : option string;
}.

(** [ipnet::IpNet] *)
Inductive IpNet : Type := IpNet_V4 (n : Ipv4Net) | IpNet_V6 (n : Ipv6Net).

(** [IpNet::contains]: same family, and equal after masking to the length. *)
Class IpNetContains := {
  net_contains : IpNet -> IpAddr -> bool;
  net_contains_v4 : forall n a, net_contains (IpNet_V4 n) (IpAddr_V4 a) =
    bool_decide (mask_octets (ipv4net_prefix_len n) a = mask_octets (ipv4net_prefix_len n) (ipv4net_addr n));
  net_contains_v6 : forall n a, net_contains (IpNet_V6 n) (IpAddr_V6 a) =
    bool_decide (mask_octets (ipv6net_prefix_len n) a = mask_octets (ipv6net_prefix_len n) (ipv6net_addr n));
  net_contains_mixed : forall n a,
    net_contains (IpNet_V4 n) (IpAddr_V6 a) = false;
  net_contains_mixed' : forall n a,
    net_contains (IpNet_V6 n) (IpAddr_V4 a) = false;
}.

Record CompiledFilter := mkCompiledFilter {
  cf_raw : RouteFilter;
  cf_nets : list IpNet;
  cf_peer_nets : list IpAddr;
  cf_compiled_expr : option Expr;
}.

(** [CompiledFilter::compile]: what does not parse is dropped. *)
Definition compile (parse_net : string -> option IpNet) (parse_addr : string -> option IpAddr)
    (parse_expr : string -> option Expr) (raw : RouteFilter) : CompiledFilter :=
  mkCompiledFilter raw (omap parse_net (rf_prefix_list raw)) (omap parse_addr (rf_peer_addr_list raw))
    (rf_expr raw ≫= parse_expr).

Fixpoint inner_addr (p : Prefix) : IpAddr :=
  match p with
  | Prefix_V4 n => IpAddr_V4 (ipv4net_addr n)
  | Prefix_V6 n => IpAddr_V6 (ipv6net_addr n)
  | Prefix_Labeled p _ | Prefix_Vpn _ p _ => inner_addr p
  end.

(** [format!("{}:{}", c.asn(), c.value())] *)
Definition community_string (c : StandardCommunity) : string :=
  (fmt_dec (community_asn c) ++ ":" ++ fmt_dec (community_value c))%string.

Definition path_asns (attrs : PathAttributes) : list Z :=
  match as_path attrs with
  | Some p => as_segments p ≫= seg_asns
  | None => []
  end.

Definition is_nil {A} (l : list A) : bool := match l with [] => true | _ => false end.

Section Engine.
Context `{IpNetContains}.

(** The criteria of [matches], in order; an empty list or an absent bound is
    no criterion. *)
Definition matches_fields (f : CompiledFilter) (prefix : Prefix) (peer_as : Z) (peer_addr : IpAddr)
    (attrs : PathAttributes) : bool :=
  let raw := cf_raw f in
  (is_nil (cf_nets f) || existsb (fun net => net_contains net (inner_addr prefix)) (cf_nets f))
  && (is_nil (rf_peer_as_list raw) || bool_decide (peer_as ∈ rf_peer_as_list raw))
  && (is_nil (cf_peer_nets f) || bool_decide (peer_addr ∈ cf_peer_nets f))
  && (is_nil (rf_community_list raw) ||
      existsb (fun want => bool_decide (want ∈ community_string <$> communities attrs)) (rf_community_list raw))
  && (is_nil (rf_as_path_contains raw) ||
      forallb (fun want => bool_decide (want ∈ path_asns attrs)) (rf_as_path_contains raw))
  && match rf_local_pref_min raw with Some m => negb (default 0 (local_pref attrs) <? m) | None => true end
  && match rf_local_pref_max raw with Some m => negb (m <? default 0 (local_pref attrs)) | None => true end
  && match rf_med_max raw with Some m => negb (m <? default 0 (multi_exit_disc attrs)) | None => true end.

Definition matches_expr (f : CompiledFilter) (ctx : option RouteCtx) : bool :=
  match cf_compiled_expr f, ctx with
  | Some compiled, Some ctx => eval compiled ctx
  | _, _ => true
  end.

Definition filter_matches (f : CompiledFilter) (prefix : Prefix) (peer_as : Z) (peer_addr : IpAddr)
    (attrs : PathAttributes) (ctx : option RouteCtx) : bool :=
  matches_fields f prefix peer_as peer_addr attrs && matches_expr f ctx.

(** [windows(2).any(|w| w[0] == w[1])] *)
Fixpoint adjacent_equal (l : list Z) : bool :=
  match l with
  | x :: ((y :: _) as rest) => (x =? y) || adjacent_equal rest
  | _ => false
  end.

(** The recursive calls of [build_route_ctx] only ask for the length. *)
Fixpoint ctx_prefix_len (p : Prefix) : Z :=
  match p with
  | Prefix_V4 n => ipv4net_prefix_len n
  | Prefix_V6 n => ipv6net_prefix_len n
  | Prefix_Labeled p _ | Prefix_Vpn _ p _ => ctx_prefix_len p
  end.

Definition build_route_ctx (prefix : Prefix) (peer_as : Z) (action : string) (attrs : PathAttributes)
    (rpki : option string) : RouteCtx :=
  let asns := path_asns attrs in
  mkRouteCtx (ctx_prefix_len prefix) (blen asns) (default 0 (last asns)) (adjacent_equal asns)
    (default "unknown"%string rpki) action peer_as (local_pref attrs) (multi_exit_disc attrs)
    (list_to_set (community_string <$> communities attrs)).

Definition FilterEngine : Type := list CompiledFilter.

Definition verdict_of (a : FilterAction) : FilterVerdict :=
  match a with
  | Action_Accept | Action_Tag => Verdict_Accept
  | Action_Deny => Verdict_Deny
  end.

(** The loop of [apply] and [apply_with_ctx]: the first match decides. *)
Fixpoint apply_with_ctx (filters : FilterEngine) (prefix : Prefix) (peer_as : Z) (peer_addr : IpAddr)
    (attrs : PathAttributes) (ctx : option RouteCtx) : FilterVerdict * option string :=
  match filters with
  | [] => (Verdict_Default, None)
  | cf :: rest =>
      if filter_matches cf prefix peer_as peer_addr attrs ctx
      then (verdict_of (rf_action (cf_raw cf)), Some (rf_name (cf_raw cf)))
      else apply_with_ctx rest prefix peer_as peer_addr attrs ctx
  end.

(** The context is built only when some filter has an expression. *)
Definition filter_apply (filters : FilterEngine) (prefix : Prefix) (peer_as : Z) (peer_addr : IpAddr)
    (attrs : PathAttributes) : FilterVerdict * option string :=
  let needs_ctx := existsb (fun f => bool_decide (is_Some (cf_compiled_expr f))) filters in
  let ctx := if needs_ctx then Some (build_route_ctx prefix peer_as "announce"%string attrs None) else None in
  apply_with_ctx filters prefix peer_as peer_addr attrs ctx.

(** ** Properties *)

(** Building the expression context lazily changes nothing: the
    verdict is the one of the chain run with the context always present. *)
Theorem filter_apply_eager (filters : FilterEngine) prefix peer_as peer_addr attrs :
  filter_apply filters prefix peer_as peer_addr attrs =
    apply_with_ctx filters prefix peer_as peer_addr attrs
      (Some (build_route_ctx prefix peer_as "announce"%string attrs None)).
Proof.
  unfold filter_apply. set (ctx := build_route_ctx _ _ _ _ _).
  destruct (existsb _ filters) eqn:Hex; [done|]. cbv zeta. revert Hex.
  induction filters as [|f fs IH]; [done|]. cbn [existsb apply_with_ctx].
  intros [Hf Hfs]%orb_false_iff. rewrite IH by done.
  assert (cf_compiled_expr f = None) as Hn.
  { destruct (cf_compiled_expr f); [|done]. rewrite bool_decide_true in Hf by eauto. done. }
  unfold filter_matches, matches_expr. by rewrite Hn.
Qed.

(** The chain is first-match-wins: the verdict is that of a filter
    which matches and before which none does, or the default when none does. *)
Theorem filter_first_match (filters : FilterEngine) prefix peer_as peer_addr attrs ctx :
  (Forall (fun f => filter_matches f prefix peer_as peer_addr attrs ctx = false) filters /\
   apply_with_ctx filters prefix peer_as peer_addr attrs ctx = (Verdict_Default, None)) \/
  exists before f after, filters = before ++ f :: after /\
    Forall (fun f => filter_matches f prefix peer_as peer_addr attrs ctx = false) before /\
    filter_matches f prefix peer_as peer_addr attrs ctx = true /\
    apply_with_ctx filters prefix peer_as peer_addr attrs ctx =
      (verdict_of (rf_action (cf_raw f)), Some (rf_name (cf_raw f))).
Proof.
  induction filters as [|f fs IH]; [by left|]. cbn [apply_with_ctx].
  destruct (filter_matches f prefix peer_as peer_addr attrs ctx) eqn:Hm.
  - right. by exists [], f, fs.
  - destruct IH as [[Hall Hv]|(before & g & after & -> & Hb & Hg & Hv)].
    + left. by split; [constructor|].
    + right. exists (f :: before), g, after. by split_and!; [|constructor| |].
Qed.

(** A prefix list none of whose entries parses is no criterion at all:
    a filter with only such a list matches every route, so a misspelt network
    in a deny filter denies everything. *)
Theorem unparsed_prefix_list_matches_all parse_net parse_addr parse_expr name action bad :
  Forall (fun s => parse_net s = None) bad ->
  forall prefix peer_as peer_addr attrs ctx,
  filter_matches
    (compile parse_net parse_addr parse_expr
       (mkRouteFilter name action bad [] [] [] [] None None None None))
    prefix peer_as peer_addr attrs ctx = true.
Proof.
  intros Hbad prefix peer_as peer_addr attrs ctx.
  assert (omap parse_net bad = []) as Hnil by (induction Hbad as [|s l Hs _ IH]; [done|]; cbn; by rewrite Hs).
  unfold filter_matches, matches_fields, matches_expr, compile. simpl. by rewrite Hnil.
Qed.

End Engine.

Section FilterWitnesses.

(** [contains], computed. *)
Definition reference_contains : IpNetContains.
Proof.
  refine {| net_contains net a :=
    match net, a with
    | IpNet_V4 n, IpAddr_V4 a =>
        bool_decide (mask_octets (ipv4net_prefix_len n) a = mask_octets (ipv4net_prefix_len n) (ipv4net_addr n))
    | IpNet_V6 n, IpAddr_V6 a =>
        bool_decide (mask_octets (ipv6net_prefix_len n) a = mask_octets (ipv6net_prefix_len n) (ipv6net_addr n))
    | _, _ => false
    end |}; done.
Defined.

#[local] Instance witness_contains : IpNetContains := reference_contains.

Lemma unparsed_prefix_list_matches_all_witness :
  filter_matches
    (compile (fun _ => None) (fun _ => None) (fun _ => None)
       (mkRouteFilter "block-bogons"%string Action_Deny ["10.0.0.0/33"%string] [] [] [] [] None None None None))
    net_10_1_2 65001 (IpAddr_V4 (bs [10; 0; 0; 1])) path_attributes_default None = true.
Proof. apply unparsed_prefix_list_matches_all. by repeat constructor. Defined.

End FilterWitnesses.
