(* ===== verification/RibEvent.v ===== *)
(** * RIB events ([crates/rbmp-rib/src/event.rs])

    The versioned events the RIB engine emits. *)

From Stdlib Require Import ZArith.
From stdpp Require Import base numbers list option strings.
From S2P Require Import Prelude RustStd Crates BgpTypes BgpAttributes BmpTypes.

Local Open Scope Z_scope.

Inductive RouteAction : Type := Route_Announce | Route_Withdraw.

Section Events.
Context `{Chrono}.

Record RouteChange := mkRouteChange {
  ch_action : RouteAction;
  ch_peer_header : PeerHeader;
  ch_peer_key : PeerKey;
  ch_view_key : ViewKey;
  ch_route_key : RouteKey;
  ch_rib_type : RibType;
  ch_prefix : Prefix;
  ch_path_id : option Z;
  ch_attributes : option PathAttributes;
}.

Inductive RibEventPayload : Type :=
| Event_SpeakerUp (sys_name sys_descr : option string)
| Event_SpeakerDown (reason : string)
| Event_PeerUp (hdr : PeerHeader) (local_asn remote_asn hold_time : Z) (capabilities : list string)
| Event_PeerDown (hdr : PeerHeader) (reason : string)
| Event_RouteChange (c : RouteChange)
| Event_Stats (hdr : PeerHeader) (counters : list StatEntry)
| Event_EndOfRib (hdr : PeerHeader) (afi_safi : string).

Record RibEvent := mkRibEvent {
  ev_schema_version : Z;
  ev_event_key : EventKey;
  ev_id : bytes;
  ev_occurred_at : DateTime;
  ev_speaker : IpAddr;
  ev_payload : RibEventPayload;
}.

End Events.
