(* ===== verification/RibManager.v ===== *)
(** * The RIB manager ([crates/rbmp-rib/src/manager.rs])

    The manager owns the speaker sessions and the route tables of their peers.
    Each operation is a function from a manager to a manager; the broadcast
    channel is the log of what was sent on it (a failed send is ignored by the
    source, so the manager cannot tell).  Counters keep their 64-bit width.
    Logging and metrics are left out; the Roto engine, a just-in-time compiler
    of another crate, is the function it computes. *)

From Stdlib Require Import ZArith Lia ZifyBool.
From stdpp Require Import base numbers list option strings gmap fin_maps sets.
From S2P Require Import Prelude RustStd Crates HashMaps BgpTypes Nlri BgpAttributes BgpUpdate Capabilities.
From S2P Require Import BmpTypes RibTable RibSession RibFilter RibEvent.

Local Open Scope Z_scope.

(** ** Event identifiers *)

(** The finaliser both halves go through, after the initial addition. *)
Definition mix64 (z : Z) : Z :=
  let z := wrapping_mul64 (Z.lxor z (Z.shiftr z 30)) 0xbf58476d1ce4e5b9 in
  let z := wrapping_mul64 (Z.lxor z (Z.shiftr z 27)) 0x94d049bb133111eb in
  Z.lxor z (Z.shiftr z 31).

Definition xor_bytes (a b : bytes) : bytes := zip_with (fun x y => as_u8 (Z.lxor (u8 x) (u8 y))) a b.

(** Octet 6 carries the version, octet 8 the variant. *)
Definition deterministic_event_uuid (msg_id : bytes) (seq local_idx : Z) : bytes :=
  let z1 := mix64 (wrapping_add64 seq 0x9e3779b97f4a7c15) in
  let z2 := mix64 (wrapping_add64 local_idx 0x517cc1b727220a95) in
  let b := xor_bytes msg_id (to_be 8 z1 ++ to_be 8 z2) in
  let b := alter (fun x => as_u8 (Z.lor (Z.land (u8 x) 0x0f) 0x40)) 6%nat b in
  alter (fun x => as_u8 (Z.lor (Z.land (u8 x) 0x3f) 0x80)) 8%nat b.

(** [format!("{:?}", reason)]: the derived [Debug] of the enum. *)
Definition debug_bytes (b : bytes) : string :=
  ("[" ++ String.concat ", " ((fun x => fmt_dec (u8 x)) <$> b) ++ "]")%string.

Definition debug_notification (n : option bytes) : string :=
  match n with
  | Some b => ("{ notification: Some(" ++ debug_bytes b ++ ") }")%string
  | None => "{ notification: None }"
  end.

Definition debug_reason (r : PeerDownReason) : string :=
  match r with
  | Down_LocalSystemClosed n => ("LocalSystemClosed " ++ debug_notification n)%string
  | Down_LocalSystemClosed2 => "LocalSystemClosed2"
  | Down_RemoteSystemClosed n => ("RemoteSystemClosed " ++ debug_notification n)%string
  | Down_RemoteSystemClosed2 => "RemoteSystemClosed2"
  | Down_PeerDeConfigured => "PeerDeConfigured"
  | Down_VrfDown => "VrfDown"
  | Down_Unknown v => ("Unknown(" ++ fmt_dec v ++ ")")%string
  end.

Section Manager.
Context `{Chrono} `{BuildProfile} `{HashOrder} `{IpNetContains}.

(** The verdict of the Roto script on the context of an announcement: prefix,
    peer AS and address, RIB type and attributes. *)
Definition RotoFilterEngine : Type := Prefix -> Z -> IpAddr -> RibType -> PathAttributes -> FilterVerdict.

Record RibManager := mkRibManager {
  speakers : gmap IpAddr BmpSession;
  ribs : gmap PeerKey RibTable;
  next_session_epoch : Z;
  next_event_seq : Z;
  event_tx : list RibEvent;
  mgr_filter : option FilterEngine;
  roto_filter : option RotoFilterEngine;
}.

Definition rib_manager_new : RibManager := mkRibManager ∅ ∅ 1 1 [] None None.

Definition set_speakers (s : gmap IpAddr BmpSession) (m : RibManager) : RibManager :=
  mkRibManager s (ribs m) (next_session_epoch m) (next_event_seq m) (event_tx m) (mgr_filter m) (roto_filter m).
Definition set_ribs (r : gmap PeerKey RibTable) (m : RibManager) : RibManager :=
  mkRibManager (speakers m) r (next_session_epoch m) (next_event_seq m) (event_tx m) (mgr_filter m) (roto_filter m).
Definition set_epoch (n : Z) (m : RibManager) : RibManager :=
  mkRibManager (speakers m) (ribs m) n (next_event_seq m) (event_tx m) (mgr_filter m) (roto_filter m).
Definition set_seq (n : Z) (m : RibManager) : RibManager :=
  mkRibManager (speakers m) (ribs m) (next_session_epoch m) n (event_tx m) (mgr_filter m) (roto_filter m).
Definition send_event (ev : RibEvent) (m : RibManager) : RibManager :=
  mkRibManager (speakers m) (ribs m) (next_session_epoch m) (next_event_seq m) (event_tx m ++ [ev])
    (mgr_filter m) (roto_filter m).
Definition set_filter (f : FilterEngine) (m : RibManager) : RibManager :=
  mkRibManager (speakers m) (ribs m) (next_session_epoch m) (next_event_seq m) (event_tx m) (Some f) (roto_filter m).
Definition clear_filter (m : RibManager) : RibManager :=
  mkRibManager (speakers m) (ribs m) (next_session_epoch m) (next_event_seq m) (event_tx m) None (roto_filter m).
Definition set_roto_filter (f : RotoFilterEngine) (m : RibManager) : RibManager :=
  mkRibManager (speakers m) (ribs m) (next_session_epoch m) (next_event_seq m) (event_tx m) (mgr_filter m) (Some f).

(** ** Sessions *)

Definition set_peers (peers : gmap PeerKey PeerSession) (s : BmpSession) : BmpSession :=
  mkBmpSession (bs_source s) (bs_speaker_addr s) (bs_sys_name s) (bs_sys_descr s) (bs_connected_at s) peers.

(** [for peer in sess.peers.values_mut() { peer.eor_families.clear() }] *)
Definition clear_eor (s : BmpSession) : BmpSession := set_peers ((fun p => set_eor p ∅) <$> bs_peers s) s.

Definition open_speaker_session (m : RibManager) (speaker : IpAddr) (at_ : DateTime) : RibM (RibManager * Z) :=
  let epoch := next_session_epoch m in
  next ← checked_width 64 (next_session_epoch m + 1);
  let m := set_epoch next m in
  let source := observation_source_new speaker epoch in
  let sess := match speakers m !! speaker with
              | Some s => clear_eor (mkBmpSession source (bs_speaker_addr s) (bs_sys_name s) (bs_sys_descr s) at_ (bs_peers s))
              | None => bmp_session_with_source source at_
              end in
  Ok (set_speakers (<[speaker := sess]> (speakers m)) m, epoch).

Definition ensure_min_event_seq (m : RibManager) (min_next_seq : Z) : RibManager :=
  if next_event_seq m <? min_next_seq then set_seq min_next_seq m else m.

Definition clear_speaker_eor (m : RibManager) (speaker : IpAddr) : RibManager :=
  set_speakers (alter clear_eor speaker (speakers m)) m.

Definition ensure_speaker_source (m : RibManager) (speaker : IpAddr) (now : DateTime)
    : RibM (RibManager * ObservationSource) :=
  match speakers m !! speaker with
  | Some s => Ok (m, bs_source s)
  | None =>
      let epoch := next_session_epoch m in
      next ← checked_width 64 (next_session_epoch m + 1);
      let source := observation_source_new speaker epoch in
      Ok (set_speakers (<[speaker := bmp_session_with_source source now]> (speakers m)) (set_epoch next m), source)
  end.

(** [peers.get_mut(key)] of the speaker's session, when both exist. *)
Definition alter_peer (f : PeerSession -> PeerSession) (speaker : IpAddr) (k : PeerKey) (m : RibManager)
    : RibManager :=
  set_speakers (alter (fun s => set_peers (alter f k (bs_peers s)) s) speaker (speakers m)) m.

Definition sync_peer_route_counts (m : RibManager) (k : PeerKey) : RibManager :=
  let counts := match ribs m !! k with Some r => rib_counts r | None => ∅ end in
  alter_peer (fun p => set_route_counts p counts) (pk_speaker_addr k) k m.

Definition expire_stale_for_peer_key (m : RibManager) (k : PeerKey) (stale_secs : Z) (now : DateTime)
    : RibManager * nat :=
  let '(m, removed) :=
    match ribs m !! k with
    | Some rib => let '(rib, n) := drain_deleted_stale rib now stale_secs in
                  (set_ribs (<[k := rib]> (ribs m)) m, n)
    | None => (m, 0%nat)
    end in
  (sync_peer_route_counts m k, removed).

(** One [Utc::now()] per key in the source; here the caller's clock. *)
Definition expire_stale_for_peer (m : RibManager) (addr : IpAddr) (stale_secs : Z) (now : PeerKey -> DateTime)
    : RibManager * nat :=
  let keys := base.filter (fun k => pk_peer_address k = addr) (hash_keys (ribs m)) in
  foldl (fun '(m, n) k => let '(m, r) := expire_stale_for_peer_key m k stale_secs (now k) in (m, (n + r)%nat))
    (m, 0%nat) keys.

(** [peers.entry(key).or_insert_with(..)] in the speaker's session. *)
Definition ensure_peer (speaker : IpAddr) (hdr : PeerHeader) (m : RibManager) : RibManager :=
  let k := peer_key_from_header speaker hdr in
  let add s := match bs_peers s !! k with
               | Some _ => s
               | None => set_peers (<[k := peer_session_new_for_speaker speaker hdr]> (bs_peers s)) s
               end in
  set_speakers (alter add speaker (speakers m)) m.

(** ** Events *)

Definition emit_with_source (m : RibManager) (id : bytes) (speaker : IpAddr) (source : ObservationSource)
    (occurred_at : DateTime) (payload : RibEventPayload) (emitted : list RibEvent)
    : RibM (RibManager * list RibEvent) :=
  let seq := next_event_seq m in
  next ← checked_width 64 (next_event_seq m + 1);
  let m := set_seq next m in
  let local_idx := blen emitted in
  let ev := mkRibEvent EVENT_SCHEMA_VERSION (event_key_new source seq)
              (deterministic_event_uuid id seq local_idx) occurred_at speaker payload in
  Ok (send_event ev m, emitted ++ [ev]).

(** ** The message handlers *)

(** A Termination of an older epoch than the session's. *)
Definition stale_termination (m : RibManager) (msg : BmpMessage) (epoch : option Z) : bool :=
  match msg_payload msg, epoch, speakers m !! msg_speaker_addr msg with
  | Bmp_Termination _ _, Some incoming, Some sess => incoming <? session_epoch (bs_source sess)
  | _, _, _ => false
  end.

Definition set_session_epoch (epoch : Z) (src : ObservationSource) : ObservationSource :=
  mkObservationSource (collector_id src) (exporter_id src) (exporter_addr src) (exporter_instance src) epoch.

(** [let source = match session_epoch { .. }] *)
Definition resolve_source (m : RibManager) (speaker : IpAddr) (now : DateTime) (epoch : option Z)
    : RibM (RibManager * ObservationSource) :=
  match epoch with
  | Some epoch =>
      m ← (if next_session_epoch m <=? epoch
           then next ← checked_width 64 (epoch + 1); Ok (set_epoch next m) else Ok m);
      let sess := default (bmp_session_with_source (observation_source_new speaker epoch) now)
                    (speakers m !! speaker) in
      let sess := if session_epoch (bs_source sess) <? epoch
                  then clear_eor (mkBmpSession (set_session_epoch epoch (bs_source sess)) (bs_speaker_addr sess)
                                    (bs_sys_name sess) (bs_sys_descr sess) now (bs_peers sess))
                  else sess in
      Ok (set_speakers (<[speaker := sess]> (speakers m)) m, bs_source sess)
  | None => ensure_speaker_source m speaker now
  end.

Definition handle_initiation (m : RibManager) (speaker : IpAddr) (sys_name sys_descr : option string)
    : RibManager :=
  set_speakers (alter (fun s => mkBmpSession (bs_source s) (bs_speaker_addr s) sys_name sys_descr
                                  (bs_connected_at s) (bs_peers s)) speaker (speakers m)) m.

(** The session is removed, then its peers' tables, then any other table of the speaker. *)
Definition handle_termination (m : RibManager) (speaker : IpAddr) : RibManager :=
  let removed := match speakers m !! speaker with
                 | Some sess => foldl (fun r k => delete k r) (ribs m) (hash_keys (bs_peers sess))
                 | None => ribs m
                 end in
  let m := set_speakers (delete speaker (speakers m)) m in
  set_ribs (base.filter (fun kr => pk_speaker_addr kr.1 <> speaker) removed) m.

(** The peer of a PeerUp, created if needed and brought up. *)
Definition handle_peer_up (m : RibManager) (speaker : IpAddr) (now : DateTime) (pu : PeerUpMessage)
    (caps : list BgpCapability) : RibM RibManager :=
  let hdr := pu_peer_header pu in
  let k := peer_key_from_header speaker hdr in
  m ← match speakers m !! speaker with
      | Some sess =>
          let peer := default (peer_session_new_for_speaker speaker hdr) (bs_peers sess !! k) in
          peer ← on_up_with_header peer hdr (open_asn (pu_sent_open pu)) (open_hold_time (pu_recv_open pu)) caps now;
          Ok (set_speakers (<[speaker := set_peers (<[k := peer]> (bs_peers sess)) sess]> (speakers m)) m)
      | None => Ok m
      end;
  Ok (sync_peer_route_counts m k).

(** With LLGR active the routes are kept and marked, otherwise dropped. *)
Definition handle_peer_down (m : RibManager) (speaker : IpAddr) (now : DateTime) (hdr : PeerHeader) : RibManager :=
  let k := peer_key_from_header speaker hdr in
  let llgr := match speakers m !! speaker ≫= (fun s => bs_peers s !! k) with
              | Some p => ps_llgr_active p
              | None => false
              end in
  let m := alter_peer (fun p => on_down p now) speaker k m in
  let f := if llgr then (fun rib => mark_stale_all rib now) else clear_all in
  sync_peer_route_counts (set_ribs (alter f k (ribs m)) m) k.

Definition change_event (action : RouteAction) (hdr : PeerHeader) (k : PeerKey) (prefix : Prefix)
    (path_id : option Z) (attrs : option PathAttributes) : RibEventPayload :=
  let view := view_key_from_peer k (prefix_afi_safi prefix) (rib_type hdr) (peer_flags hdr) in
  Event_RouteChange
    (mkRouteChange action hdr k view (mkRouteKey view (canonical_from_prefix prefix) path_id)
       (rib_type hdr) prefix path_id attrs).

(** What the loops of one message share. *)
Record Envelope := mkEnvelope {
  en_id : bytes;
  en_speaker : IpAddr;
  en_source : ObservationSource;
  en_now : DateTime;
}.

Definition emit (env : Envelope) (payload : RibEventPayload) (st : RibManager * list RibEvent)
    : RibM (RibManager * list RibEvent) :=
  emit_with_source st.1 (en_id env) (en_speaker env) (en_source env) (en_now env) payload st.2.

(** One withdrawal. *)
Definition withdraw_one (env : Envelope) (hdr : PeerHeader) (route : Prefix * option Z)
    (st : RibManager * list RibEvent) : RibM (RibManager * list RibEvent) :=
  let '(prefix, path_id) := route in
  let k := peer_key_from_header (en_speaker env) hdr in
  let '(m, emitted) := st in
  let rib := default rib_table_new (ribs m !! k) in
  let m := set_ribs (<[k := (remove_with_path_id rib (rib_type hdr) prefix path_id).1]> (ribs m)) m in
  emit env (change_event Route_Withdraw hdr k prefix path_id None) (m, emitted).

Definition filter_verdict (m : RibManager) (hdr : PeerHeader) (prefix : Prefix) (attrs : PathAttributes)
    : FilterVerdict :=
  match roto_filter m with
  | Some roto => roto prefix (peer_as hdr) (peer_address hdr) (rib_type hdr) attrs
  | None =>
      match mgr_filter m with
      | Some engine => (filter_apply engine prefix (peer_as hdr) (peer_address hdr) attrs).1
      | None => Verdict_Default
      end
  end.

Definition new_entry (now : DateTime) (hdr : PeerHeader) (prefix : Prefix) (path_id : option Z)
    (attrs : PathAttributes) : RibEntry :=
  mkRibEntry prefix path_id attrs now (peer_address hdr) (peer_as hdr) true Llgr_Normal None.

(** One announcement that the filters let through. *)
Definition install_one (env : Envelope) (hdr : PeerHeader) (attrs : PathAttributes) (prefix : Prefix)
    (path_id : option Z) (m : RibManager) : RibM RibManager :=
  let k := peer_key_from_header (en_speaker env) hdr in
  let rib := default rib_table_new (ribs m !! k) in
  let rib := (table_insert rib (rib_type hdr) (new_entry (en_now env) hdr prefix path_id attrs)).1 in
  rib ← (if is_some path_id then recompute_best_path rib (rib_type hdr) prefix else Ok rib);
  Ok (set_ribs (<[k := rib]> (ribs m)) m).

Definition announce_one (env : Envelope) (hdr : PeerHeader) (attrs : PathAttributes) (route : Prefix * option Z)
    (st : RibManager * list RibEvent) : RibM (RibManager * list RibEvent) :=
  let '(prefix, path_id) := route in
  let '(m, emitted) := st in
  if bool_decide (filter_verdict m hdr prefix attrs = Verdict_Deny) then Ok (m, emitted)
  else
    m ← install_one env hdr attrs prefix path_id m;
    emit env (change_event Route_Announce hdr (peer_key_from_header (en_speaker env) hdr) prefix path_id (Some attrs))
      (m, emitted).

Definition handle_route_monitoring (m : RibManager) (env : Envelope) (hdr : PeerHeader) (update : BgpUpdate)
    : RibM (RibManager * list RibEvent) :=
  let speaker := en_speaker env in
  let k := peer_key_from_header speaker hdr in
  let m := ensure_peer speaker hdr m in
  match eor_afi_safi update with
  | Some eor_family =>
      let m := alter_peer (fun p => mark_eor p (rib_type hdr) eor_family) speaker k m in
      emit env (Event_EndOfRib hdr (afi_safi_to_string eor_family)) (m, [])
  | None =>
      st ← for_each (all_withdrawn_with_path_id update) (withdraw_one env hdr) (m, []);
      '(m, emitted) ← for_each (all_announced_with_path_id update) (announce_one env hdr (attributes update)) st;
      Ok (sync_peer_route_counts m k, emitted)
  end.

(** [match msg.payload { .. }] *)
Definition dispatch (m : RibManager) (env : Envelope) (payload : BmpPayload) : RibM (RibManager * list RibEvent) :=
  let speaker := en_speaker env in
  let now := en_now env in
  match payload with
  | Bmp_Initiation sys_name sys_descr _ =>
      emit env (Event_SpeakerUp sys_name sys_descr) (handle_initiation m speaker sys_name sys_descr, [])
  | Bmp_Termination reason_code reason_text =>
      let reason := default ("code=" ++ fmt_dec reason_code)%string reason_text in
      emit env (Event_SpeakerDown reason) (handle_termination m speaker, [])
  | Bmp_PeerUp pu =>
      let caps := merge_capabilities (open_capabilities (pu_recv_open pu)) (open_capabilities (pu_sent_open pu)) in
      let cap_names := (fun c => fmt_dec (capability_code c)) <$> caps in
      m ← handle_peer_up m speaker now pu caps;
      emit env (Event_PeerUp (pu_peer_header pu) (open_asn (pu_sent_open pu)) (open_asn (pu_recv_open pu))
                  (open_hold_time (pu_recv_open pu)) cap_names) (m, [])
  | Bmp_PeerDown hdr reason =>
      emit env (Event_PeerDown hdr (debug_reason reason)) (handle_peer_down m speaker now hdr, [])
  | Bmp_RouteMonitoring hdr update => handle_route_monitoring m env hdr update
  | Bmp_StatsReport hdr stats => emit env (Event_Stats hdr stats) (m, [])
  | Bmp_RouteMirroring _ _ => Ok (m, [])
  end.

Definition process_for_epoch (m : RibManager) (msg : BmpMessage) (epoch : option Z)
    : RibM (RibManager * list RibEvent) :=
  if stale_termination m msg epoch then Ok (m, [])
  else
    '(m, source) ← resolve_source m (msg_speaker_addr msg) (msg_received_at msg) epoch;
    dispatch m (mkEnvelope (msg_id msg) (msg_speaker_addr msg) source (msg_received_at msg)) (msg_payload msg).

Definition process (m : RibManager) (msg : BmpMessage) : RibM (RibManager * list RibEvent) :=
  process_for_epoch m msg None.

(** ** Queries *)

Definition speaker_session (m : RibManager) (addr : IpAddr) : option BmpSession := speakers m !! addr.
Definition rib_for_peer_key (m : RibManager) (k : PeerKey) : option RibTable := ribs m !! k.
Definition ribs_for_speaker (m : RibManager) (speaker : IpAddr) : gmap PeerKey RibTable :=
  base.filter (fun kr => pk_speaker_addr kr.1 = speaker) (ribs m).
Definition rib_for_peer (m : RibManager) (peer : IpAddr) : option RibTable :=
  find_map (fun k => if bool_decide (pk_peer_address k = peer) then ribs m !! k else None) (hash_keys (ribs m)).
Definition manager_total_routes (m : RibManager) : nat :=
  map_fold (fun _ r n => (length (all_prefixes r) + n)%nat) 0%nat (ribs m).
Definition total_peers_up (m : RibManager) : nat :=
  map_fold (fun _ s n => (up_peer_count s + n)%nat) 0%nat (speakers m).

End Manager.

(** ** The state as seen from outside *)

Section ManagerLaws.
Context `{Chrono} `{BuildProfile} `{HashOrder} `{IpNetContains}.
Implicit Types (m : RibManager) (a : IpAddr) (k : PeerKey).

(** The peer filed under a speaker, and the counts its table has. *)
Definition peer_of m a k : option PeerSession := speakers m !! a ≫= (fun s => bs_peers s !! k).
Definition counts_of m k : gmap RibType nat :=
  match ribs m !! k with Some r => rib_counts r | None => ∅ end.

(** The invariant: sessions and peers are filed under their own identities,
    every table belongs to a known peer, and the route counts a peer reports
    are those of its table, except for a peer being worked on. *)
Record mgr_inv_but (dirty : option PeerKey) m : Prop := mkInv {
  inv_speakers : forall a s, speakers m !! a = Some s -> exporter_addr (bs_source s) = a /\ bs_speaker_addr s = a;
  inv_peers : forall a k p, peer_of m a k = Some p ->
    pk_speaker_addr k = a /\ ps_peer_key p = k /\ 0 <= ps_flap_count p < 2 ^ 32;
  inv_counts : forall k p, dirty <> Some k -> peer_of m (pk_speaker_addr k) k = Some p ->
    ps_route_counts p = counts_of m k;
  inv_tables : forall k, is_Some (ribs m !! k) -> is_Some (peer_of m (pk_speaker_addr k) k);
}.

Definition mgr_inv : RibManager -> Prop := mgr_inv_but None.

(** Everything that does not belong to speaker [a] is the same. *)
Record same_outside a m m' : Prop := mkSame {
  same_speakers : forall b, b <> a -> speakers m' !! b = speakers m !! b;
  same_ribs : forall k, pk_speaker_addr k <> a -> ribs m' !! k = ribs m !! k;
  same_filter : mgr_filter m' = mgr_filter m;
  same_roto : roto_filter m' = roto_filter m;
}.

#[global] Instance same_outside_preorder a : PreOrder (same_outside a).
Proof.
  split.
  - by intros m.
  - intros m1 m2 m3 [S1 R1 F1 T1] [S2 R2 F2 T2]. split.
    + intros b Hb. by rewrite S2, S1.
    + intros k Hk. by rewrite R2, R1.
    + by rewrite F2.
    + by rewrite T2.
Qed.

(** What the handlers keep besides: the epoch counter and the source of every
    session that stays. *)
Record frame a m m' : Prop := mkFrame {
  frame_same : same_outside a m m';
  frame_next : next_session_epoch m' = next_session_epoch m;
  frame_sources : forall b s', speakers m' !! b = Some s' ->
    exists s, speakers m !! b = Some s /\ bs_source s' = bs_source s;
}.

#[global] Instance frame_preorder a : PreOrder (frame a).
Proof.
  split.
  - intros m. split; [done|done|]. intros b s' Hs. by exists s'.
  - intros m1 m2 m3 [S1 N1 E1] [S2 N2 E2]. split; [by etransitivity|congruence|].
    intros b s3 (s2 & Hs2 & ->)%E2. by apply E1.
Qed.

(** ** The primitive updates *)

Lemma peer_of_alter f a k m a' k' :
  peer_of (alter_peer f a k m) a' k' =
    if decide (a = a' /\ k = k') then f <$> peer_of m a' k' else peer_of m a' k'.
Proof.
  unfold peer_of, alter_peer. simpl. rewrite lookup_alter.
  destruct (decide (a = a')) as [<-|]; [|by rewrite decide_False by tauto].
  destruct (speakers m !! a) as [s|]; simpl; [|by case_decide]. rewrite lookup_alter.
  destruct (decide (k = k')) as [<-|]; [rewrite decide_True by done|rewrite decide_False by tauto]; done.
Qed.

(** Changing the session of [a], but not its source. *)
Lemma frame_alter_speaker f a m :
  (forall s, bs_source (f s) = bs_source s) -> frame a m (set_speakers (alter f a (speakers m)) m).
Proof.
  intros Hf. split; [|done|].
  - split; try done. intros b Hb. simpl. by rewrite lookup_alter_ne.
  - intros b s'. simpl. rewrite lookup_alter. case_decide as Hb; [|intros Hs; by exists s'].
    subst. intros (s & Hs & ->)%fmap_Some. exists s. split; [done|apply Hf].
Qed.

Lemma frame_insert_speaker a s s0 m :
  speakers m !! a = Some s0 -> bs_source s = bs_source s0 ->
  frame a m (set_speakers (<[a := s]> (speakers m)) m).
Proof.
  intros Hs0 Hsrc. split; [|done|].
  - split; try done. intros b Hb. simpl. by rewrite lookup_insert_ne.
  - intros b s'. simpl. destruct (decide (a = b)) as [<-|]; [rewrite lookup_insert_eq; intros [= <-]; by exists s0|].
    rewrite lookup_insert_ne by done. intros Hs. by exists s'.
Qed.

(** Changing the tables of [a]'s peers. *)
Lemma frame_set_ribs a r m :
  (forall k, pk_speaker_addr k <> a -> r !! k = ribs m !! k) -> frame a m (set_ribs r m).
Proof. intros Hr. split; [by split|done|]. intros b s' Hs. by exists s'. Qed.

Lemma frame_alter_peer f a k m : frame a m (alter_peer f a k m).
Proof. by apply frame_alter_speaker. Qed.

Lemma frame_ensure_peer a hdr m : frame a m (ensure_peer a hdr m).
Proof. apply frame_alter_speaker. intros s. by destruct (bs_peers s !! _). Qed.

Lemma frame_set_rib k r m : frame (pk_speaker_addr k) m (set_ribs (<[k := r]> (ribs m)) m).
Proof. apply frame_set_ribs. intros k' Hk. rewrite lookup_insert_ne; [done|congruence]. Qed.

Lemma frame_alter_rib f k m : frame (pk_speaker_addr k) m (set_ribs (alter f k (ribs m)) m).
Proof. apply frame_set_ribs. intros k' Hk. rewrite lookup_alter_ne; [done|congruence]. Qed.

Lemma frame_sync k m : frame (pk_speaker_addr k) m (sync_peer_route_counts m k).
Proof. apply frame_alter_peer. Qed.

Lemma frame_set_seq a n m : frame a m (set_seq n m).
Proof. split; [done|done|]. intros b s' Hs. by exists s'. Qed.

Lemma frame_send a ev m : frame a m (send_event ev m).
Proof. split; [done|done|]. intros b s' Hs. by exists s'. Qed.

Lemma same_insert_speaker a s m : same_outside a m (set_speakers (<[a := s]> (speakers m)) m).
Proof. split; try done. intros b Hb. simpl. by rewrite lookup_insert_ne. Qed.

(** Writing a peer's table makes its counts stale; synchronising repairs them. *)
Lemma inv_set_rib d k r m :
  mgr_inv_but d m -> d = None \/ d = Some k -> is_Some (peer_of m (pk_speaker_addr k) k) ->
  mgr_inv_but (Some k) (set_ribs (<[k := r]> (ribs m)) m).
Proof.
  intros [Hs Hp Hc Ht] Hd Hk. split; try done.
  - intros k' p Hne Hp'. unfold counts_of. simpl. rewrite lookup_insert_ne by congruence.
    apply Hc; [|done]. destruct Hd; congruence.
  - intros k'. simpl. destruct (decide (k = k')) as [<-|Hne]; [done|]. rewrite lookup_insert_ne by done. apply Ht.
Qed.

Lemma inv_weaken k m : mgr_inv m -> mgr_inv_but (Some k) m.
Proof. intros [Hs Hp Hc Ht]. split; try done. intros k' p _. by apply Hc. Qed.

Lemma inv_alter_rib d k f m :
  mgr_inv_but d m -> d = None \/ d = Some k -> mgr_inv_but (Some k) (set_ribs (alter f k (ribs m)) m).
Proof.
  intros [Hs Hp Hc Ht] Hd. split; try done.
  - intros k' p Hne Hp'. unfold counts_of. simpl. rewrite lookup_alter_ne by congruence.
    apply Hc; [|done]. destruct Hd; congruence.
  - intros k'. simpl. rewrite lookup_alter. destruct (decide (k = k')) as [<-|Hne]; [|apply Ht].
    intros [r Hr]. apply Ht. by destruct (ribs m !! k).
Qed.

(** Changing a peer in place, its identity and flap count kept. *)
Lemma inv_alter_peer d f k m :
  mgr_inv_but d m ->
  (forall p, ps_peer_key (f p) = ps_peer_key p /\ ps_flap_count (f p) = ps_flap_count p) ->
  d = Some k \/ (forall p, ps_route_counts (f p) = ps_route_counts p) ->
  mgr_inv_but d (alter_peer f (pk_speaker_addr k) k m).
Proof.
  intros [Hs Hp Hc Ht] Hf Hd. split.
  - intros a s. simpl. rewrite lookup_alter. case_decide as Ha; [|apply Hs].
    subst. intros (s0 & Hs0 & ->)%fmap_Some. simpl. by apply Hs.
  - intros a k' p. rewrite peer_of_alter. case_decide as Hk; [|apply Hp].
    destruct Hk as [<- <-]. intros (p0 & Hp0 & ->)%fmap_Some. destruct (Hf p0) as [-> ->]. by apply Hp.
  - intros k' p Hne. rewrite peer_of_alter. case_decide as Hk; [|by apply Hc].
    destruct Hk as [_ <-]. intros (p0 & Hp0 & ->)%fmap_Some.
    destruct Hd as [->|Hcnt]; [done|]. rewrite Hcnt. by apply Hc.
  - intros k' Hk'. rewrite peer_of_alter. specialize (Ht k' Hk'). case_decide; [|done].
    by destruct (peer_of m (pk_speaker_addr k') k').
Qed.

Lemma inv_sync d k m :
  mgr_inv_but d m -> d = None \/ d = Some k -> mgr_inv (sync_peer_route_counts m k).
Proof.
  intros [Hs Hp Hc Ht] Hd. unfold sync_peer_route_counts. split.
  - intros a s. simpl. rewrite lookup_alter. case_decide as Ha; [|apply Hs].
    subst. intros (s0 & Hs0 & ->)%fmap_Some. simpl. by apply Hs.
  - intros a k' p. rewrite peer_of_alter. case_decide as Hk; [|apply Hp].
    destruct Hk as [<- <-]. intros (p0 & Hp0 & ->)%fmap_Some. simpl. by apply Hp.
  - intros k' p _. rewrite peer_of_alter. case_decide as Hk.
    + destruct Hk as [_ <-]. intros (p0 & Hp0 & ->)%fmap_Some. done.
    + apply Hc. destruct Hd as [->| ->]; [done|]. intros [= <-]. by apply Hk.
  - intros k' Hk'. rewrite peer_of_alter. specialize (Ht k' Hk'). case_decide; [|done].
    by destruct (peer_of m (pk_speaker_addr k') k').
Qed.


(** Filing a session whose peers are in order. *)
Lemma inv_insert_speaker d a s m :
  mgr_inv_but d m -> exporter_addr (bs_source s) = a -> bs_speaker_addr s = a ->
  (forall k p, bs_peers s !! k = Some p ->
     pk_speaker_addr k = a /\ ps_peer_key p = k /\ 0 <= ps_flap_count p < 2 ^ 32 /\
     (d <> Some k -> ps_route_counts p = counts_of m k)) ->
  (forall k, is_Some (peer_of m a k) -> is_Some (bs_peers s !! k)) ->
  mgr_inv_but d (set_speakers (<[a := s]> (speakers m)) m).
Proof.
  intros [Hs Hp Hc Ht] Hsrc Haddr Hpeers Hkeep.
  assert (forall a' k, peer_of (set_speakers (<[a := s]> (speakers m)) m) a' k =
            if decide (a = a') then bs_peers s !! k else peer_of m a' k) as Hpo.
  { intros a' k. unfold peer_of. simpl. case_decide; subst; by rewrite ?lookup_insert_eq, ?lookup_insert_ne. }
  split.
  - intros a' s'. simpl. destruct (decide (a = a')) as [<-|]; [rewrite lookup_insert_eq; by intros [= <-]|].
    rewrite lookup_insert_ne by done. apply Hs.
  - intros a' k p. rewrite Hpo. case_decide; [|apply Hp]. subst. intros Hk. destruct (Hpeers k p Hk). tauto.
  - intros k p Hne. rewrite Hpo. case_decide; [|by apply Hc]. intros Hk. destruct (Hpeers k p Hk). tauto.
  - intros k Hk. rewrite Hpo. specialize (Ht k Hk). case_decide as Ha; [|done]. apply Hkeep. by rewrite Ha.
Qed.

(** The same when the peers are those of the old session, changed harmlessly. *)
Lemma inv_update_speaker a s s' f m :
  mgr_inv m -> speakers m !! a = Some s -> exporter_addr (bs_source s') = a -> bs_speaker_addr s' = a ->
  bs_peers s' = f <$> bs_peers s ->
  (forall p, ps_peer_key (f p) = ps_peer_key p /\ ps_flap_count (f p) = ps_flap_count p /\
             ps_route_counts (f p) = ps_route_counts p) ->
  mgr_inv (set_speakers (<[a := s']> (speakers m)) m).
Proof.
  intros Hinv Hs Hsrc Haddr Hpeers Hf.
  assert (forall k, peer_of m a k = bs_peers s !! k) as Hpo by (intros k; unfold peer_of; by rewrite Hs).
  apply inv_insert_speaker; try done.
  - intros k p. rewrite Hpeers, lookup_fmap, <- Hpo. intros (p0 & Hp0 & ->)%fmap_Some.
    destruct (inv_peers _ _ Hinv a k p0 Hp0) as (Ha & Hk & Hfl). destruct (Hf p0) as (-> & -> & ->).
    split; [done|]. split; [done|]. split; [done|]. intros Hn. apply (inv_counts _ _ Hinv); [done|]. by rewrite Ha.
  - intros k. rewrite Hpo, Hpeers, lookup_fmap. by destruct (bs_peers s !! k).
Qed.

(** A session with no peers, for a speaker that has none. *)
Lemma inv_new_speaker a source at_ m :
  mgr_inv m -> speakers m !! a = None -> exporter_addr source = a ->
  mgr_inv (set_speakers (<[a := bmp_session_with_source source at_]> (speakers m)) m).
Proof.
  intros Hinv Hs Hsrc. apply inv_insert_speaker; try done. intros k. unfold peer_of. rewrite Hs. by intros [? ?].
Qed.

Lemma inv_set_epoch d n m : mgr_inv_but d m -> mgr_inv_but d (set_epoch n m).
Proof. intros [? ? ? ?]. by split. Qed.

Lemma inv_set_seq d n m : mgr_inv_but d m -> mgr_inv_but d (set_seq n m).
Proof. intros [? ? ? ?]. by split. Qed.

Lemma inv_send d ev m : mgr_inv_but d m -> mgr_inv_but d (send_event ev m).
Proof. intros [? ? ? ?]. by split. Qed.

Lemma peer_of_ensure a hdr m :
  is_Some (speakers m !! a) -> is_Some (peer_of (ensure_peer a hdr m) a (peer_key_from_header a hdr)).
Proof.
  intros [s Hs]. unfold peer_of, ensure_peer. simpl. rewrite lookup_alter_eq, Hs. simpl.
  destruct (bs_peers s !! peer_key_from_header a hdr) eqn:Hk; [rewrite Hk; by eexists|]. simpl. rewrite lookup_insert_eq. by eexists.
Qed.

Lemma inv_ensure_peer a hdr m : mgr_inv m -> mgr_inv (ensure_peer a hdr m).
Proof.
  intros Hinv. unfold ensure_peer. set (k := peer_key_from_header a hdr).
  destruct (speakers m !! a) as [s|] eqn:Hs; [|rewrite alter_absent by done; by destruct m].
  assert (forall k, peer_of m a k = bs_peers s !! k) as Hpo by (intros k'; unfold peer_of; by rewrite Hs).
  rewrite (alter_as_insert _ _ _ _ Hs). destruct (inv_speakers _ _ Hinv a s Hs) as [Hsrc Haddr].
  destruct (bs_peers s !! k) as [p|] eqn:Hk; [rewrite insert_id by done; by destruct m|].
  apply inv_insert_speaker; try done; simpl.
  - intros k' p. destruct (decide (k = k')) as [<-|Hne].
    + rewrite lookup_insert_eq. intros [= <-]. simpl. split_and!; try done. intros _. unfold counts_of.
      destruct (ribs m !! k) as [r|] eqn:Hr; [|done].
      destruct (inv_tables _ _ Hinv k) as [p Hp]; [by eexists|]. rewrite Hpo, Hk in Hp. done.
    + rewrite lookup_insert_ne, <- Hpo by done. intros Hp. destruct (inv_peers _ _ Hinv a k' p Hp) as (<- & ? & ?).
      split; [done|]. split; [done|]. split; [done|]. intros _. by apply (inv_counts _ _ Hinv).
  - intros k'. rewrite Hpo. destruct (decide (k = k')) as [<-|Hne]; [rewrite lookup_insert_eq; by eexists|].
    by rewrite lookup_insert_ne.
Qed.

(** What a Termination leaves: exactly the tables of the other speakers. *)
Lemma termination_ribs a m :
  mgr_inv m ->
  ribs (handle_termination m a) = base.filter (fun kr => pk_speaker_addr kr.1 <> a) (ribs m).
Proof.
  intros Hinv. apply map_eq. intros k. unfold handle_termination. simpl. rewrite !map_lookup_filter.
  destruct (speakers m !! a) as [s|] eqn:Hs; [|done]. rewrite lookup_delete_all. case_decide as Hin; [|done].
  apply elem_of_hash_keys in Hin as [p Hp].
  destruct (inv_peers _ _ Hinv a k p) as [Hk _]; [unfold peer_of; by rewrite Hs|].
  destruct (ribs m !! k); simpl; [|done]. by case_guard.
Qed.

Lemma frame_termination a m : mgr_inv m -> frame a m (handle_termination m a).
Proof.
  intros Hinv. split; [|done|].
  - split; try done; [intros b Hb; simpl; by rewrite lookup_delete_ne|].
    intros k Hk. rewrite (termination_ribs a m Hinv), map_lookup_filter.
    destruct (ribs m !! k); simpl; [|done]. by case_guard.
  - intros b s'. simpl. intros [_ Hs]%lookup_delete_Some. by exists s'.
Qed.

Lemma inv_handle_termination a m : mgr_inv m -> mgr_inv (handle_termination m a).
Proof.
  intros Hinv. destruct (frame_termination a m Hinv) as [[Hss Hsr _ _] _ _].
  assert (forall a' k, peer_of (handle_termination m a) a' k = if decide (a = a') then None else peer_of m a' k) as Hpo.
  { intros a' k. unfold peer_of. simpl. case_decide; subst; by rewrite ?lookup_delete_eq, ?lookup_delete_ne. }
  split.
  - intros a' s. simpl. intros [_ ?]%lookup_delete_Some. by apply (inv_speakers _ _ Hinv).
  - intros a' k p. rewrite Hpo. case_decide; [done|]. apply (inv_peers _ _ Hinv).
  - intros k p _. rewrite Hpo. case_decide; [done|]. intros Hk. rewrite (inv_counts _ _ Hinv k p) by done.
    unfold counts_of. by rewrite Hsr.
  - intros k. rewrite (termination_ribs a m Hinv), map_lookup_filter, Hpo.
    intros [r (r' & Hr & Hg)%bind_Some]. case_guard as Hne; [|done]. rewrite decide_False by done.
    apply (inv_tables _ _ Hinv). by eexists.
Qed.


(** ** The event log *)

Definition seq_ok m : Prop := 0 <= next_event_seq m < 2 ^ 64.

(** Nothing was emitted. *)
Definition silent m m' : Prop := next_event_seq m' = next_event_seq m /\ event_tx m' = event_tx m.

(** The events added to the vector and to the channel: the same ones, numbered
    consecutively from the counter (modulo its width), stamped with the
    envelope, and identified by number and position. *)
Definition logged (env : Envelope) (st st' : RibManager * list RibEvent) : Prop :=
  exists evs, st'.2 = st.2 ++ evs /\ event_tx st'.1 = event_tx st.1 ++ evs /\
    next_event_seq st'.1 = (next_event_seq st.1 + blen evs) mod 2 ^ 64 /\
    forall i ev, evs !! i = Some ev ->
      let seq := (next_event_seq st.1 + Z.of_nat i) mod 2 ^ 64 in
      ev_event_key ev = event_key_new (en_source env) seq /\
      ev_id ev = deterministic_event_uuid (en_id env) seq (blen st.2 + Z.of_nat i) /\
      ev_speaker ev = en_speaker env /\ ev_occurred_at ev = en_now env.

Lemma logged_silent env m m' evs : seq_ok m -> silent m m' -> logged env (m, evs) (m', evs).
Proof.
  intros Hs [Hn Ht]. exists []. simpl. rewrite !app_nil_r, Z.add_0_r, Z.mod_small by done. done.
Qed.

Lemma logged_trans env st1 st2 st3 :
  logged env st1 st2 -> logged env st2 st3 -> logged env st1 st3.
Proof.
  intros (e1 & Ha1 & Ht1 & Hn1 & He1) (e2 & Ha2 & Ht2 & Hn2 & He2). exists (e1 ++ e2). split_and!.
  - by rewrite Ha2, Ha1, app_assoc.
  - by rewrite Ht2, Ht1, app_assoc.
  - rewrite Hn2, Hn1, blen_app, Z.add_mod_idemp_l by done. f_equal. lia.
  - intros i ev. rewrite lookup_app. destruct (e1 !! i) as [ev1|] eqn:Hi.
    + intros [= <-]. by apply He1.
    + apply lookup_ge_None in Hi. intros Hev. specialize (He2 _ _ Hev). cbv zeta in *.
      rewrite Hn1, Z.add_mod_idemp_l, Ha1, blen_app in He2 by done. unfold blen in *.
      replace (next_event_seq st1.1 + Z.of_nat (length e1) + Z.of_nat (i - length e1))
        with (next_event_seq st1.1 + Z.of_nat i) in He2 by lia.
      replace (Z.of_nat (length st1.2) + Z.of_nat (length e1) + Z.of_nat (i - length e1))
        with (Z.of_nat (length st1.2) + Z.of_nat i) in He2 by lia. done.
Qed.

Lemma logged_seq_ok env st st' : logged env st st' -> seq_ok st'.1.
Proof. intros (evs & _ & _ & Hn & _). unfold seq_ok. rewrite Hn. by apply Z.mod_pos_bound. Qed.

(** Emitting one event. *)
Lemma wp_emit pn env payload st :
  seq_ok st.1 -> (overflow_checks = true -> next_event_seq st.1 = 2 ^ 64 - 1 -> pn) ->
  wp pn (emit env payload st) (fun st' =>
    logged env st st' /\ exists n ev, st'.1 = send_event ev (set_seq n st.1) /\
      st'.2 = st.2 ++ [ev] /\ ev_payload ev = payload).
Proof.
  intros Hs Hpn. unfold emit, emit_with_source. unfold seq_ok in Hs. apply wp_bind.
  apply wp_checked_mod; [intros Hc Hge; apply Hpn; [done|lia]|]. intros _. apply wp_ok. cbn zeta.
  split; [|by eexists _, _].
  eexists [_]. split_and!; [done|done| |].
  - done.
  - intros [|i] ev Hev; [injection Hev as <-|done]. simpl. rewrite !Z.add_0_r, Z.mod_small by done. done.
Qed.

End ManagerLaws.

(** ** The handlers *)

Section Handlers.
Context `{Chrono} `{BuildProfile} `{HashOrder} `{IpNetContains}.
Implicit Types (m : RibManager) (a : IpAddr) (k : PeerKey).

(** The counters that would have to be at their limit for a message to panic. *)
Definition event_bound (p : BmpPayload) : Z :=
  match p with
  | Bmp_RouteMonitoring _ u =>
      1 + blen (all_withdrawn_with_path_id u) + blen (all_announced_with_path_id u)
  | _ => 1
  end.

Definition counters_exhausted m (msg : BmpMessage) (epoch : option Z) : Prop :=
  overflow_checks = true /\
  (2 ^ 64 <= next_event_seq m + event_bound (msg_payload msg) \/ 2 ^ 64 <= next_session_epoch m + 1 \/
   (exists e, epoch = Some e /\ 2 ^ 64 <= e + 1) \/
   exists k p, peer_of m (msg_speaker_addr msg) k = Some p /\ ps_flap_count p = 2 ^ 32 - 1).

(** What choosing the source of a message's events leaves: the speaker has a
    session with that source, and nothing else of consequence changed. *)
Record resolved a m (r : RibManager * ObservationSource) : Prop := mkResolved {
  res_inv : mgr_inv r.1;
  res_same : same_outside a m r.1;
  res_silent : silent m r.1;
  res_ribs : ribs r.1 = ribs m;
  res_session : exists s, speakers r.1 !! a = Some s /\ bs_source s = r.2;
  res_flaps : forall k p, peer_of r.1 a k = Some p ->
    exists p0, peer_of m a k = Some p0 /\ ps_flap_count p0 = ps_flap_count p;
}.

Lemma resolved_new a source now m :
  mgr_inv m -> speakers m !! a = None -> exporter_addr source = a ->
  resolved a m (set_speakers (<[a := bmp_session_with_source source now]> (speakers m)) m, source).
Proof.
  intros Hinv Hs Hsrc. split; [by apply inv_new_speaker|apply same_insert_speaker|done|done| |].
  - simpl. rewrite lookup_insert_eq. by eexists.
  - intros k p. unfold peer_of. simpl. by rewrite lookup_insert_eq.
Qed.

Lemma resolved_update a s s' f m :
  mgr_inv m -> speakers m !! a = Some s -> exporter_addr (bs_source s') = a -> bs_speaker_addr s' = a ->
  bs_peers s' = f <$> bs_peers s ->
  (forall p, ps_peer_key (f p) = ps_peer_key p /\ ps_flap_count (f p) = ps_flap_count p /\
             ps_route_counts (f p) = ps_route_counts p) ->
  resolved a m (set_speakers (<[a := s']> (speakers m)) m, bs_source s').
Proof.
  intros Hinv Hs Hsrc Haddr Hpeers Hf.
  split; [by eapply inv_update_speaker|apply same_insert_speaker|done|done| |].
  - simpl. rewrite lookup_insert_eq. by eexists.
  - intros k p. unfold peer_of. simpl. rewrite lookup_insert_eq, Hs. simpl. rewrite Hpeers, lookup_fmap.
    intros (p0 & Hp0 & ->)%fmap_Some. exists p0. split; [done|]. by destruct (Hf p0) as (_ & -> & _).
Qed.

Lemma resolved_epoch a n m r : resolved a (set_epoch n m) r -> resolved a m r.
Proof. intros [Hi [? ? ? ?] ? ? ? ?]. by split. Qed.

Lemma wp_resolve_source pn m a now epoch :
  mgr_inv m -> 0 <= next_session_epoch m -> (forall e, epoch = Some e -> 0 <= e) ->
  (overflow_checks = true -> 2 ^ 64 <= next_session_epoch m + 1 \/ (exists e, epoch = Some e /\ 2 ^ 64 <= e + 1) -> pn) ->
  wp pn (resolve_source m a now epoch) (resolved a m).
Proof.
  intros Hinv Hn He Hpn. unfold resolve_source. destruct epoch as [e|].
  - apply wp_bind. specialize (He e eq_refl).
    apply (wp_mono _ _ (fun m' => exists n, m' = set_epoch n m)).
    { case_if; [|apply wp_ok; exists (next_session_epoch m); by destruct m]. apply wp_bind, wp_checked_mod.
      - intros Hc Hge. apply Hpn; [done|]. right. exists e. split; [done|]. lia.
      - intros _. apply wp_ok. by eexists. }
    intros m' [n ->]. cbn zeta. apply wp_ok, (resolved_epoch a n). simpl.
    assert (mgr_inv (set_epoch n m)) as Hinv' by by apply inv_set_epoch.
    destruct (speakers m !! a) as [s|] eqn:Hs; simpl.
    + destruct (inv_speakers _ _ Hinv a s Hs) as [Hsrc Haddr]. case_if.
      * by apply (resolved_update a s (clear_eor _) (fun p => set_eor p ∅) (set_epoch n m)).
      * apply (resolved_update a s s id (set_epoch n m)); try done. by rewrite map_fmap_id.
    + rewrite Z.ltb_irrefl. by apply (resolved_new a _ _ (set_epoch n m)).
  - unfold ensure_speaker_source. destruct (speakers m !! a) as [s|] eqn:Hs.
    + apply wp_ok. split; try done; [by exists s|]. intros k p Hp. by exists p.
    + apply wp_bind, wp_checked_mod; [intros Hc Hge; apply Hpn; [done|left; lia]|]. intros _. apply wp_ok. cbn zeta.
      eapply resolved_epoch, (resolved_new a _ _ (set_epoch _ m)); [by apply inv_set_epoch|done|done].
Qed.

(** The shape shared by the postconditions of the handlers. *)
Definition handled (env : Envelope) m (st : RibManager * list RibEvent) : Prop :=
  mgr_inv st.1 /\ frame (en_speaker env) m st.1 /\ logged env (m, []) st.

(** Emitting one event from a state reached silently. *)
Lemma wp_emit_handled pn env payload m m' :
  seq_ok m -> mgr_inv m' -> frame (en_speaker env) m m' -> silent m m' ->
  (overflow_checks = true -> 2 ^ 64 <= next_event_seq m + 1 -> pn) ->
  wp pn (emit env payload (m', [])) (handled env m).
Proof.
  intros Hs Hinv Hsame Hsil Hpn.
  assert (seq_ok m') as Hs' by (unfold seq_ok; destruct Hsil as [-> _]; exact Hs).
  eapply wp_mono; [apply wp_emit; [exact Hs'|]|].
  - cbn [fst]. intros Hc Hmax. apply Hpn; [done|]. destruct Hsil as [Hn _]. lia.
  - intros st [Hlog (n & ev & Hst & _ & _)]. split_and!.
    + rewrite Hst. by apply inv_send, inv_set_seq.
    + rewrite Hst. etransitivity; [exact Hsame|]. etransitivity; [apply frame_set_seq|apply frame_send].
    + eapply logged_trans; [by apply logged_silent|exact Hlog].
Qed.

Lemma silent_trans m1 m2 m3 : silent m1 m2 -> silent m2 m3 -> silent m1 m3.
Proof. intros [? ?] [? ?]. split; congruence. Qed.

Lemma inv_handle_initiation a n d m : mgr_inv m -> mgr_inv (handle_initiation m a n d).
Proof.
  intros Hinv. unfold handle_initiation. destruct (speakers m !! a) as [s|] eqn:Hs;
    [|rewrite alter_absent by done; by destruct m].
  rewrite (alter_as_insert _ _ _ _ Hs). destruct (inv_speakers _ _ Hinv a s Hs).
  apply (inv_update_speaker a s _ id); try done. by rewrite map_fmap_id.
Qed.

Lemma frame_handle_initiation a n d m : frame a m (handle_initiation m a n d).
Proof. by apply frame_alter_speaker. Qed.

Lemma handle_peer_down_spec a now hdr m :
  mgr_inv m -> mgr_inv (handle_peer_down m a now hdr) /\ frame a m (handle_peer_down m a now hdr) /\
    silent m (handle_peer_down m a now hdr).
Proof.
  intros Hinv. unfold handle_peer_down. set (k := peer_key_from_header a hdr).
  split_and!; [| |done].
  - apply (inv_sync (Some k)); [|by right]. apply (inv_alter_rib (Some k)); [|by right].
    apply (inv_alter_peer (Some k) _ k); [by apply inv_weaken|done|by left].
  - change a with (pk_speaker_addr k) at 1. etransitivity; [apply frame_alter_peer|].
    etransitivity; [apply frame_alter_rib|apply frame_sync].
Qed.

Lemma wp_handle_peer_up pn m a now pu caps :
  mgr_inv m -> (overflow_checks = true -> (exists k p, peer_of m a k = Some p /\ ps_flap_count p = 2 ^ 32 - 1) -> pn) ->
  wp pn (handle_peer_up m a now pu caps) (fun m' => mgr_inv m' /\ frame a m m' /\ silent m m').
Proof.
  intros Hinv Hpn. unfold handle_peer_up. set (k := peer_key_from_header a (pu_peer_header pu)). apply wp_bind.
  destruct (speakers m !! a) as [s|] eqn:Hs.
  2:{ apply wp_ok, wp_ok. split_and!; [by apply (inv_sync None); [|left]|apply (frame_sync k)|done]. }
  assert (forall k, peer_of m a k = bs_peers s !! k) as Hpo by (intros k'; unfold peer_of; by rewrite Hs).
  set (p0 := default _ (bs_peers s !! k)).
  assert (ps_peer_key p0 = k /\ 0 <= ps_flap_count p0 < 2 ^ 32 /\
          (ps_flap_count p0 = 2 ^ 32 - 1 -> peer_of m a k = Some p0)) as (Hk & Hfl & Hreal).
  { unfold p0. rewrite Hpo. destruct (bs_peers s !! k) as [p|] eqn:Hp; [|done]. simpl.
    rewrite <- Hpo in Hp. by destruct (inv_peers _ _ Hinv a k p Hp) as (_ & ? & ?). }
  apply wp_bind. unfold on_up_with_header. eapply wp_conseq; [by apply wp_on_up| |].
  - intros (Hc & _ & Hmax). apply Hpn; [done|]. exists k, p0. split; [by apply Hreal|done].
  - intros p (Hkey & _ & _ & _ & _ & _ & _ & _ & _ & _ & Hfl'). simpl in Hkey. apply wp_ok, wp_ok.
    destruct (inv_speakers _ _ Hinv a s Hs) as [Hsrc Haddr]. split_and!; [| |done].
    + apply (inv_sync (Some k)); [|by right]. apply inv_insert_speaker; try done; simpl; [by apply inv_weaken| |].
      * intros k' p'. destruct (decide (k = k')) as [<-|Hne].
        { rewrite lookup_insert_eq. intros [= <-]. split_and!; try done; [congruence|lia|lia]. }
        rewrite lookup_insert_ne, <- Hpo by done. intros Hp. destruct (inv_peers _ _ Hinv a k' p' Hp) as (<- & ? & ?).
        split; [done|]. split; [done|]. split; [done|]. intros _. by apply (inv_counts _ _ Hinv).
      * intros k'. rewrite Hpo. destruct (decide (k = k')) as [<-|Hne]; [rewrite lookup_insert_eq; by eexists|].
        by rewrite lookup_insert_ne.
    + etransitivity; [|apply (frame_sync k)]. by apply (frame_insert_speaker _ _ s).
Qed.
End Handlers.

(** ** Route monitoring *)

Section RouteMonitoring.
Context `{Chrono} `{BuildProfile} `{HashOrder} `{IpNetContains}.
Implicit Types (m : RibManager) (k : PeerKey).

(** The attributes a manager holds for a route, and the map that the route
    changes of a sequence of events describe. *)
Definition attrs_at m k (rib : RibType) (tk : TableRouteKey) : option PathAttributes :=
  ribs m !! k ≫= (fun t => e_attributes <$> route t rib tk).

Definition RouteView : Type := PeerKey -> RibType -> TableRouteKey -> option PathAttributes.

Definition apply_event (v : RouteView) (ev : RibEventPayload) : RouteView :=
  match ev with
  | Event_RouteChange c => fun k rib tk =>
      if decide (k = ch_peer_key c /\ rib = ch_rib_type c /\ tk = route_key_from_prefix (ch_prefix c) (ch_path_id c))
      then ch_attributes c else v k rib tk
  | _ => v
  end.

Definition replay (evs : list RibEvent) (v : RouteView) : RouteView := foldl apply_event v (ev_payload <$> evs).

Lemma replay_snoc evs ev v : replay (evs ++ [ev]) v = apply_event (replay evs v) (ev_payload ev).
Proof. unfold replay. by rewrite fmap_app, foldl_app. Qed.

Lemma apply_event_ext (v v' : RouteView) ev :
  (forall k rib tk, v k rib tk = v' k rib tk) ->
  forall k rib tk, apply_event v ev k rib tk = apply_event v' ev k rib tk.
Proof. intros Hv k rib tk. destruct ev; simpl; try done. by case_decide. Qed.

Lemma attrs_set_rib m k t k' rib tk :
  attrs_at (set_ribs (<[k := t]> (ribs m)) m) k' rib tk =
    if decide (k = k') then e_attributes <$> route t rib tk else attrs_at m k' rib tk.
Proof. unfold attrs_at. simpl. case_decide; subst; by rewrite ?lookup_insert_eq, ?lookup_insert_ne. Qed.

Lemma attrs_table m k rib tk :
  attrs_at m k rib tk = e_attributes <$> route (default rib_table_new (ribs m !! k)) rib tk.
Proof. unfold attrs_at. by destruct (ribs m !! k). Qed.

(** Withdrawing and installing act on the view as their events do. *)
Lemma attrs_withdraw m k hdr prefix path_id k' rib tk :
  attrs_at (set_ribs (<[k := (remove_with_path_id (default rib_table_new (ribs m !! k)) (rib_type hdr) prefix path_id).1]> (ribs m)) m) k' rib tk =
  apply_event (attrs_at m) (change_event Route_Withdraw hdr k prefix path_id None) k' rib tk.
Proof.
  rewrite attrs_set_rib. simpl. destruct (decide (k = k')) as [<-|Hne].
  - rewrite route_remove, attrs_table. case_decide as Hd; [rewrite decide_True|rewrite decide_False]; naive_solver.
  - rewrite decide_False; [done|]. naive_solver.
Qed.

Lemma wp_install pn env hdr attrs prefix path_id m :
  wp pn (install_one env hdr attrs prefix path_id m) (fun m' =>
    exists t, m' = set_ribs (<[peer_key_from_header (en_speaker env) hdr := t]> (ribs m)) m /\
    forall k' rib tk, attrs_at m' k' rib tk =
      apply_event (attrs_at m)
        (change_event Route_Announce hdr (peer_key_from_header (en_speaker env) hdr) prefix path_id (Some attrs)) k' rib tk).
Proof.
  unfold install_one. set (k := peer_key_from_header (en_speaker env) hdr). set (t0 := default _ (ribs m !! k)).
  set (t1 := (table_insert t0 _ _).1).
  assert (exists t, (if is_some path_id then recompute_best_path t1 (rib_type hdr) prefix else Ok t1) = Ok t /\
    forall rib tk, e_attributes <$> route t rib tk = e_attributes <$> route t1 rib tk) as (t & -> & Ht).
  { destruct (is_some path_id); [|by exists t1].
    destruct (recompute_pointwise t1 (rib_type hdr) prefix) as (t & best & -> & Hr & _). exists t. split; [done|].
    intros rib tk. rewrite Hr. destruct (route t1 rib tk); [|done]. simpl. by case_decide. }
  apply wp_ok. exists t. split; [done|]. intros k' rib tk. rewrite attrs_set_rib. simpl.
  destruct (decide (k = k')) as [<-|Hne]; [|rewrite decide_False; naive_solver].
  unfold t1 in Ht. rewrite Ht, route_insert, attrs_table. fold t0.
  case_decide as Hd; [rewrite decide_True|rewrite decide_False]; naive_solver.
Qed.

Section Loops.
Context (env : Envelope) (hdr : PeerHeader) (m1 : RibManager) (Hm1 : seq_ok m1).
Let k : PeerKey := peer_key_from_header (en_speaker env) hdr.

(** The invariant of both loops, from the state [m1] in which the peer exists. *)
Record loop_inv (st : RibManager * list RibEvent) : Prop := mkLoopInv {
  li_inv : mgr_inv_but (Some k) st.1;
  li_same : frame (en_speaker env) m1 st.1;
  li_log : logged env (m1, []) st;
  li_peer : is_Some (peer_of st.1 (en_speaker env) k);
  li_view : forall k' rib tk, attrs_at st.1 k' rib tk = replay st.2 (attrs_at m1) k' rib tk;
}.

(** Storing a table and telling about it. *)
Lemma wp_store_emit pn t payload st :
  loop_inv st ->
  (forall k' rib tk, attrs_at (set_ribs (<[k := t]> (ribs st.1)) st.1) k' rib tk =
                     apply_event (attrs_at st.1) payload k' rib tk) ->
  (overflow_checks = true -> 2 ^ 64 <= next_event_seq m1 + blen st.2 + 1 -> pn) ->
  wp pn (emit env payload (set_ribs (<[k := t]> (ribs st.1)) st.1, st.2)) (fun st' =>
    loop_inv st' /\ ev_payload <$> st'.2 = (ev_payload <$> st.2) ++ [payload]).
Proof.
  intros [Hinv Hsame Hlog Hpeer Hview] Hstep Hpn. destruct Hpeer as [p Hp].
  assert (silent st.1 (set_ribs (<[k := t]> (ribs st.1)) st.1)) as Hsil by done.
  pose proof (logged_seq_ok _ _ _ Hlog) as Hok.
  eapply wp_mono; [apply wp_emit; [exact Hok|]|].
  - cbn [fst]. simpl. intros Hc Hmax. apply Hpn; [done|]. destruct Hlog as (evs & Hevs & _ & Hn & _).
    simpl in Hevs, Hn. subst. rewrite Hn in Hmax. pose proof (blen_nonneg st.2).
    pose proof (Z.mod_le (next_event_seq m1 + blen st.2) (2 ^ 64) ltac:(unfold seq_ok in Hm1; lia) ltac:(lia)). lia.
  - intros st' [Hlog' (n & ev & Hst & Hevs & Hpay)]. cbn [fst snd] in Hst, Hevs. split.
    2:{ by rewrite Hevs, fmap_app, <- Hpay. }
    split.
    + rewrite Hst. apply inv_send, inv_set_seq. eapply inv_set_rib; [exact Hinv|by right|by exists p].
    + rewrite Hst. etransitivity; [exact Hsame|]. etransitivity; [apply (frame_set_rib k)|].
      etransitivity; [apply frame_set_seq|apply frame_send].
    + eapply logged_trans; [exact Hlog|]. eapply logged_trans; [|exact Hlog'].
      destruct st as [ms es]. by apply logged_silent.
    + rewrite Hst. by exists p.
    + intros k' rib tk. rewrite Hst, Hevs, replay_snoc, Hpay.
      change (attrs_at (send_event ev (set_seq n (set_ribs (<[k := t]> (ribs st.1)) st.1))) k' rib tk)
        with (attrs_at (set_ribs (<[k := t]> (ribs st.1)) st.1) k' rib tk).
      rewrite Hstep. by apply apply_event_ext.
Qed.

Lemma wp_withdraw_one pn r st :
  loop_inv st -> (overflow_checks = true -> 2 ^ 64 <= next_event_seq m1 + blen st.2 + 1 -> pn) ->
  wp pn (withdraw_one env hdr r st) (fun st' =>
    loop_inv st' /\
    ev_payload <$> st'.2 = (ev_payload <$> st.2) ++ [change_event Route_Withdraw hdr k r.1 r.2 None]).
Proof.
  intros Hinv Hpn. destruct r as [prefix path_id], st as [m evs]. unfold withdraw_one. fold k. cbn zeta.
  apply (wp_store_emit pn _ _ (m, evs)); [done| |done]. intros. apply attrs_withdraw.
Qed.

(** Whether the filters let a route in; they do not change during a message. *)
Definition admitted (attrs : PathAttributes) (r : Prefix * option Z) : Prop :=
  filter_verdict m1 hdr r.1 attrs <> Verdict_Deny.

#[local] Instance admitted_dec attrs r : Decision (admitted attrs r).
Proof. unfold admitted. apply _. Defined.

Lemma wp_announce_one pn attrs r st :
  loop_inv st -> (overflow_checks = true -> 2 ^ 64 <= next_event_seq m1 + blen st.2 + 1 -> pn) ->
  wp pn (announce_one env hdr attrs r st) (fun st' =>
    loop_inv st' /\
    ev_payload <$> st'.2 = (ev_payload <$> st.2) ++
      ((fun r => change_event Route_Announce hdr k r.1 r.2 (Some attrs)) <$> base.filter (admitted attrs) [r])).
Proof.
  intros Hinv Hpn. destruct r as [prefix path_id], st as [m evs]. unfold announce_one. fold k.
  assert (filter_verdict m hdr prefix attrs = filter_verdict m1 hdr prefix attrs) as Hv.
  { destruct (frame_same _ _ _ (li_same _ Hinv)) as [_ _ Hf Hr]. cbn [fst] in Hf, Hr. unfold filter_verdict. by rewrite Hr, Hf. }
  rewrite filter_cons, filter_nil. rewrite Hv. case_bool_decide as Hd.
  - apply wp_ok. rewrite decide_False by (unfold admitted; simpl; tauto). by rewrite app_nil_r.
  - rewrite decide_True by done. apply wp_bind. eapply wp_mono; [apply wp_install|].
    intros m' (t & -> & Hview). by apply (wp_store_emit pn _ _ (m, evs)).
Qed.

Lemma wp_loops pn ws anns attrs st :
  loop_inv st -> st.2 = [] ->
  (overflow_checks = true -> 2 ^ 64 <= next_event_seq m1 + 1 + blen ws + blen anns -> pn) ->
  wp pn (st ← for_each ws (withdraw_one env hdr) st; for_each anns (announce_one env hdr attrs) st) (fun st' =>
    loop_inv st' /\
    ev_payload <$> st'.2 =
      ((fun r => change_event Route_Withdraw hdr k r.1 r.2 None) <$> ws) ++
      ((fun r => change_event Route_Announce hdr k r.1 r.2 (Some attrs)) <$> base.filter (admitted attrs) anns)).
Proof.
  intros Hinv Hnil Hpn. apply wp_bind.
  eapply wp_mono; [apply (wp_for_each_done _ (fun prev st => loop_inv st /\
    ev_payload <$> st.2 = (fun r => change_event Route_Withdraw hdr k r.1 r.2 None) <$> prev)); [by rewrite Hnil|]|].
  - intros prev r st' [todo Hws] [Hinv' Hpay]. eapply wp_mono; [apply wp_withdraw_one; [done|]|].
    + intros Hc Hge. apply Hpn; [done|]. apply (f_equal length) in Hpay. rewrite !length_fmap in Hpay.
      rewrite Hws, blen_app, blen_cons. pose proof (blen_nonneg todo). pose proof (blen_nonneg anns).
      unfold blen in *. lia.
    + intros st'' [? Hpay']. split; [done|]. by rewrite Hpay', Hpay, fmap_app.
  - intros st1 [Hinv1 Hpay1].
    apply (wp_for_each_done _ (fun prev st => loop_inv st /\ ev_payload <$> st.2 =
      ((fun r => change_event Route_Withdraw hdr k r.1 r.2 None) <$> ws) ++
      ((fun r => change_event Route_Announce hdr k r.1 r.2 (Some attrs)) <$> base.filter (admitted attrs) prev)));
      [by rewrite filter_nil, app_nil_r|].
    intros prev r st' [todo Hanns] [Hinv' Hpay]. eapply wp_mono; [apply (wp_announce_one _ attrs); [done|]|].
    + intros Hc Hge. apply Hpn; [done|]. apply (f_equal length) in Hpay. rewrite length_app, !length_fmap in Hpay.
      pose proof (length_filter (admitted attrs) prev).
      rewrite Hanns, blen_app, blen_cons. pose proof (blen_nonneg todo). unfold blen in *. lia.
    + intros st'' [? Hpay']. split; [done|]. by rewrite Hpay', Hpay, filter_app, fmap_app, app_assoc.
Qed.

End Loops.

(** The events a Route Monitoring message must produce. *)
Definition monitoring_events m (env : Envelope) (hdr : PeerHeader) (u : BgpUpdate) : list RibEventPayload :=
  let k := peer_key_from_header (en_speaker env) hdr in
  match eor_afi_safi u with
  | Some f => [Event_EndOfRib hdr (afi_safi_to_string f)]
  | None =>
      ((fun r => change_event Route_Withdraw hdr k r.1 r.2 None) <$> all_withdrawn_with_path_id u) ++
      ((fun r => change_event Route_Announce hdr k r.1 r.2 (Some (attributes u))) <$>
         base.filter (fun r => filter_verdict m hdr r.1 (attributes u) <> Verdict_Deny) (all_announced_with_path_id u))
  end.

Lemma wp_handle_route_monitoring pn m env hdr u :
  mgr_inv m -> seq_ok m -> is_Some (speakers m !! en_speaker env) ->
  (overflow_checks = true -> 2 ^ 64 <= next_event_seq m + event_bound (Bmp_RouteMonitoring hdr u) -> pn) ->
  wp pn (handle_route_monitoring m env hdr u) (fun st =>
    handled env m st /\ ev_payload <$> st.2 = monitoring_events m env hdr u /\
    forall k rib tk, attrs_at st.1 k rib tk = replay st.2 (attrs_at m) k rib tk).
Proof.
  intros Hinv Hok Hsp Hpn. unfold handle_route_monitoring, monitoring_events.
  set (a := en_speaker env) in *. set (k := peer_key_from_header a hdr). set (m1 := ensure_peer a hdr m).
  assert (mgr_inv m1) as Hinv1 by by apply inv_ensure_peer.
  assert (frame a m m1) as Hsame1 by apply frame_ensure_peer.
  assert (is_Some (peer_of m1 a k)) as Hpeer by by apply peer_of_ensure.
  destruct (eor_afi_safi u) as [f|].
  - set (m2 := alter_peer _ a k m1).
    assert (mgr_inv m2) as Hinv2 by (apply (inv_alter_peer None _ k); [done|done|by right]).
    assert (frame a m m2) as Hsame2 by (etransitivity; [exact Hsame1|apply frame_alter_peer]).
    apply wp_post.
    + eapply wp_true, (wp_emit_handled _ env _ m); try done. intros Hc Hge. apply Hpn; [done|]. simpl.
      pose proof (blen_nonneg (all_withdrawn_with_path_id u)). pose proof (blen_nonneg (all_announced_with_path_id u)). lia.
    + intros st Hst.
      pose proof (wp_emit_handled True env (Event_EndOfRib hdr (afi_safi_to_string f)) m m2 Hok Hinv2 Hsame2
                    ltac:(done) ltac:(done)) as Hh.
      pose proof (wp_emit True env (Event_EndOfRib hdr (afi_safi_to_string f)) (m2, []) Hok ltac:(done)) as He.
      rewrite Hst in Hh, He. destruct He as [_ (n & ev & Hm & Hevs & Hpay)]. split; [exact Hh|].
      simpl in Hevs. rewrite Hevs. simpl. rewrite Hpay. split; [done|]. intros k' rib tk. unfold replay. simpl.
      rewrite Hpay, Hm. done.
  - assert (loop_inv env hdr m1 (m1, [])) as Hli.
    { split; [by apply inv_weaken|done|by apply logged_silent|done|done]. }
    apply wp_bind. pose proof (wp_loops env hdr m1 Hok pn (all_withdrawn_with_path_id u)
      (all_announced_with_path_id u) (attributes u) (m1, []) Hli eq_refl) as Hl.
    apply wp_bind_inv in Hl; [|intros Hc Hge; apply Hpn; [done|]; simpl in *; lia].
    eapply wp_mono; [exact Hl|]. intros st1 Hst1. apply wp_bind. eapply wp_mono; [exact Hst1|].
    intros [m' evs] [[Hi Hs Hlog _ Hview] Hpay]. apply wp_ok. cbn [fst snd] in *. split_and!.
    + split_and!.
      * by apply (inv_sync (Some k)); [|right].
      * etransitivity; [exact Hsame1|]. etransitivity; [exact Hs|apply (frame_sync k)].
      * exact Hlog.
    + rewrite Hpay. done.
    + exact Hview.
Qed.
End RouteMonitoring.

(** ** Processing a message *)

Section Process.
Context `{Chrono} `{BuildProfile} `{HashOrder} `{IpNetContains}.
Implicit Types (m : RibManager) (a : IpAddr) (k : PeerKey) (msg : BmpMessage).

(** The epoch counter, and (where an overflow would have panicked) the fact
    that it is ahead of every session. *)
Definition epochs_ok m : Prop :=
  0 <= next_session_epoch m < 2 ^ 64 /\
  (overflow_checks = true -> forall a s, speakers m !! a = Some s ->
     session_epoch (bs_source s) < next_session_epoch m).

Lemma epochs_frame a m m' : frame a m m' -> epochs_ok m -> epochs_ok m'.
Proof.
  intros [_ Hn Hs] [Hr He]. unfold epochs_ok. rewrite Hn. split; [done|].
  intros Hc b s' (s & Hb & ->)%Hs. by apply (He Hc b).
Qed.

(** Filing a session whose epoch is below the counter. *)
Lemma epochs_insert a s n m :
  epochs_ok m -> 0 <= n < 2 ^ 64 ->
  (overflow_checks = true -> next_session_epoch m <= n /\ session_epoch (bs_source s) < n) ->
  epochs_ok (set_speakers (<[a := s]> (speakers m)) (set_epoch n m)).
Proof.
  intros [_ He] Hn Hs. split; [done|]. intros Hc b s'. simpl. destruct (Hs Hc).
  destruct (decide (a = b)) as [<-|]; [rewrite lookup_insert_eq; by intros [= <-]|].
  rewrite lookup_insert_ne by done. intros Hb. specialize (He Hc b s' Hb). lia.
Qed.

Lemma wp_resolve_epochs m a now epoch :
  epochs_ok m -> (forall e, epoch = Some e -> 0 <= e < 2 ^ 64) ->
  wp True (resolve_source m a now epoch) (fun r => epochs_ok r.1).
Proof.
  intros Hok He. unfold resolve_source. destruct epoch as [e|].
  - specialize (He e eq_refl). apply wp_bind.
    apply (wp_mono _ _ (fun m' => exists n, m' = set_epoch n m /\ 0 <= n < 2 ^ 64 /\
             (overflow_checks = true -> next_session_epoch m <= n /\ e < n))).
    { case_if.
      - apply wp_bind, wp_checked_mod; [done|]. intros Hx. apply wp_ok. eexists. split; [done|].
        split; [by apply Z.mod_pos_bound|]. intros Hc. rewrite Z.mod_small by auto. lia.
      - apply wp_ok. exists (next_session_epoch m). destruct Hok as [Hr _]. split; [by destruct m|]. split; [done|lia]. }
    intros m' (n & -> & Hn & Hc). cbn zeta. apply wp_ok, (epochs_insert a _ n m); [done|done|].
    intros Hchk. specialize (Hc Hchk). split; [tauto|]. simpl.
    destruct (speakers m !! a) as [s|] eqn:Hs; simpl.
    + destruct Hok as [_ Hok]. specialize (Hok Hchk a s Hs). case_if; simpl; lia.
    + rewrite Z.ltb_irrefl. simpl. lia.
  - unfold ensure_speaker_source. destruct (speakers m !! a) as [s|] eqn:Hs; [by apply wp_ok|].
    apply wp_bind, wp_checked_mod; [done|]. intros Hx. apply wp_ok. cbn [fst].
    apply (epochs_insert a _ _ m); [done|by apply Z.mod_pos_bound|]. intros Hc. rewrite Z.mod_small by auto. simpl. lia.
Qed.

Lemma wp_dispatch pn m env payload :
  mgr_inv m -> seq_ok m -> is_Some (speakers m !! en_speaker env) ->
  (overflow_checks = true -> 2 ^ 64 <= next_event_seq m + event_bound payload -> pn) ->
  (overflow_checks = true -> (exists k p, peer_of m (en_speaker env) k = Some p /\ ps_flap_count p = 2 ^ 32 - 1) -> pn) ->
  wp pn (dispatch m env payload) (handled env m).
Proof.
  intros Hinv Hok Hs Hbound Hflap.
  assert (overflow_checks = true -> 2 ^ 64 <= next_event_seq m + 1 -> pn) as Hone.
  { intros Hc Hge. apply Hbound; [done|]. destruct payload; simpl; try lia.
    pose proof (blen_nonneg (all_withdrawn_with_path_id update)).
    pose proof (blen_nonneg (all_announced_with_path_id update)). lia. }
  unfold dispatch. destruct payload as [n d ls|code text|pu|hdr reason|hdr u|hdr stats|hdr pdu]; cbn zeta.
  - apply wp_emit_handled; [done|by apply inv_handle_initiation|apply frame_handle_initiation|done|done].
  - apply wp_emit_handled; [done|by apply inv_handle_termination|by apply frame_termination|done|done].
  - apply wp_bind. eapply wp_mono; [by apply wp_handle_peer_up|].
    intros m2 (Hi2 & Hf2 & Hs2). by apply wp_emit_handled.
  - destruct (handle_peer_down_spec (en_speaker env) (en_now env) hdr m Hinv) as (Hi2 & Hf2 & Hs2).
    by apply wp_emit_handled.
  - eapply wp_mono; [by apply wp_handle_route_monitoring|]. by intros st [Hh _].
  - by apply wp_emit_handled.
  - apply wp_ok. split_and!; [done|done|by apply logged_silent].
Qed.

(** Everything one message guarantees. *)
Definition processed m msg (r : RibManager * list RibEvent) : Prop :=
  mgr_inv r.1 /\ epochs_ok r.1 /\ same_outside (msg_speaker_addr msg) m r.1 /\
  exists src, logged (mkEnvelope (msg_id msg) (msg_speaker_addr msg) src (msg_received_at msg)) (m, []) r.

Lemma wp_process m msg epoch :
  mgr_inv m -> seq_ok m -> epochs_ok m -> (forall e, epoch = Some e -> 0 <= e < 2 ^ 64) ->
  wp (counters_exhausted m msg epoch) (process_for_epoch m msg epoch) (processed m msg).
Proof.
  intros Hinv Hok Hep He. unfold process_for_epoch. set (a := msg_speaker_addr msg).
  destruct (stale_termination m msg epoch).
  { apply wp_ok. split_and!; try done. exists (observation_source_new a 0). by apply logged_silent. }
  apply wp_bind. eapply wp_mono.
  { apply (wp_and _ _ (resolved a m)); [|by apply wp_resolve_epochs].
    apply wp_resolve_source; [done|destruct Hep; lia|intros e ->; by apply (He e)|].
    intros Hc [Hx|Hx]; (split; [done|]); [right; by left|right; right; by left]. }
  intros [m1 src] [[Hinv1 Hsame1 Hsil1 Hribs [s [Hs Hsrc]] Hflap] Hep1]. cbn [fst snd] in *.
  assert (seq_ok m1) as Hok1 by (unfold seq_ok; destruct Hsil1 as [-> _]; exact Hok).
  eapply wp_mono; [apply wp_dispatch; [done|done|by exists s| |]|].
  - intros Hc Hge. split; [done|]. left. destruct Hsil1 as [Hn _]. by rewrite <- Hn.
  - intros Hc (k & p & Hk & Hmax). split; [done|]. right; right; right.
    destruct (Hflap k p Hk) as (p0 & Hp0 & Heq). exists k, p0. split; [done|congruence].
  - intros r (Hi & Hf & Hlog). split_and!.
    + done.
    + by eapply epochs_frame.
    + etransitivity; [exact Hsame1|apply Hf].
    + exists src. eapply logged_trans; [by apply logged_silent|exact Hlog].
Qed.
End Process.

(** ** The public operations *)

Section Operations.
Context `{Chrono} `{BuildProfile} `{HashOrder} `{IpNetContains}.
Implicit Types (m : RibManager) (a : IpAddr) (k : PeerKey) (msg : BmpMessage).

Definition healthy m : Prop := mgr_inv m /\ seq_ok m /\ epochs_ok m.

Lemma healthy_frame a m m' : healthy m -> mgr_inv m' -> frame a m m' -> silent m m' -> healthy m'.
Proof.
  intros (_ & Hs & He) Hi Hf [Hn _]. split_and!; [done| |by eapply epochs_frame]. unfold seq_ok. rewrite Hn. exact Hs.
Qed.

Lemma wp_open_session m a at_ :
  healthy m ->
  wp (overflow_checks = true /\ next_session_epoch m = 2 ^ 64 - 1) (open_speaker_session m a at_) (fun r =>
    healthy r.1 /\ same_outside a m r.1 /\ r.2 = next_session_epoch m /\ ribs r.1 = ribs m /\
    (exists s, speakers r.1 !! a = Some s /\ session_epoch (bs_source s) = r.2)).
Proof.
  intros (Hinv & Hs & He). unfold open_speaker_session. destruct He as [Hr He].
  apply wp_bind, wp_checked_mod; [intros Hc Hge; split; [done|lia]|]. intros Hx. apply wp_ok.
  set (n := (next_session_epoch m + 1) mod 2 ^ 64).
  set (s := match speakers (set_epoch n m) !! a with Some _ => _ | None => _ end).
  assert (session_epoch (bs_source s) = next_session_epoch m) as Hse
    by (unfold s; simpl; by destruct (speakers m !! a)).
  unfold healthy. split_and!.
  - apply (inv_set_epoch None n) in Hinv as Hinv'. unfold s. simpl.
    destruct (speakers m !! a) as [s0|] eqn:Hs0; [|by apply (inv_new_speaker a _ _ (set_epoch n m))].
    destruct (inv_speakers _ _ Hinv a s0 Hs0) as [_ Haddr].
    by apply (inv_update_speaker a s0 _ (fun p => set_eor p ∅) (set_epoch n m)).
  - exact Hs.
  - apply (epochs_insert a s n m); [by split|by apply Z.mod_pos_bound|].
    intros Hc. unfold n. rewrite Z.mod_small by auto. lia.
  - etransitivity; [|apply same_insert_speaker]. by split.
  - done.
  - done.
  - exists s. split; [apply lookup_insert_eq|done].
Qed.

Lemma healthy_expire_key m k secs now : healthy m -> healthy (expire_stale_for_peer_key m k secs now).1.
Proof.
  intros Hm. unfold expire_stale_for_peer_key. destruct (ribs m !! k) as [rib|] eqn:Hr.
  - destruct (drain_deleted_stale rib now secs) as [rib' n]. cbn [fst].
    assert (frame (pk_speaker_addr k) m (set_ribs (<[k := rib']> (ribs m)) m)) as Hf by apply frame_set_rib.
    apply (healthy_frame (pk_speaker_addr k) m); [done| |etransitivity; [exact Hf|apply frame_sync]|done].
    apply (inv_sync (Some k)); [|by right]. apply (inv_set_rib None); [apply Hm|by left|].
    apply (inv_tables _ _ (proj1 Hm)). by exists rib.
  - cbn [fst]. apply (healthy_frame (pk_speaker_addr k) m); [done| |apply frame_sync|done].
    apply (inv_sync None); [apply Hm|by left].
Qed.

Lemma healthy_expire_peer m addr secs now : healthy m -> healthy (expire_stale_for_peer m addr secs now).1.
Proof.
  unfold expire_stale_for_peer. generalize 0%nat as n. generalize (base.filter (fun k => pk_peer_address k = addr) (hash_keys (ribs m))).
  intros ks. revert m. induction ks as [|k ks IH]; intros m n Hm; [done|]. cbn [foldl].
  pose proof (healthy_expire_key m k secs (now k) Hm) as Hk.
  destruct (expire_stale_for_peer_key m k secs (now k)) as [m' r]. by apply IH.
Qed.

Lemma healthy_clear_eor m a : healthy m -> healthy (clear_speaker_eor m a).
Proof.
  intros Hm. apply (healthy_frame a m); [done| |by apply frame_alter_speaker|done].
  unfold clear_speaker_eor. destruct (speakers m !! a) as [s|] eqn:Hs;
    [|rewrite alter_absent by done; destruct m; apply Hm].
  rewrite (alter_as_insert _ _ _ _ Hs). destruct (inv_speakers _ _ (proj1 Hm) a s Hs).
  apply (inv_update_speaker a s _ (fun p => set_eor p ∅)); try done. apply Hm.
Qed.

(** The state machine of the public operations, numbers within their types. *)
Inductive mgr_step : RibManager -> RibManager -> Prop :=
| step_process m msg epoch m' evs :
    (forall e, epoch = Some e -> 0 <= e < 2 ^ 64) ->
    process_for_epoch m msg epoch = Ok (m', evs) -> mgr_step m m'
| step_open m a at_ m' e : open_speaker_session m a at_ = Ok (m', e) -> mgr_step m m'
| step_min_seq m n : 0 <= n < 2 ^ 64 -> mgr_step m (ensure_min_event_seq m n)
| step_clear_eor m a : mgr_step m (clear_speaker_eor m a)
| step_expire_key m k secs now : mgr_step m (expire_stale_for_peer_key m k secs now).1
| step_expire_peer m addr secs now : mgr_step m (expire_stale_for_peer m addr secs now).1
| step_set_filter m f : mgr_step m (set_filter f m)
| step_clear_filter m : mgr_step m (clear_filter m)
| step_set_roto m f : mgr_step m (set_roto_filter f m).

Lemma step_healthy m m' : mgr_step m m' -> healthy m -> healthy m'.
Proof.
  intros Hstep Hm. pose proof Hm as ([Is Ip Ic It] & Hs & He). destruct Hstep as
    [m msg epoch m' evs Hepoch Hp|m a at_ m' e Hp|m n Hn|m a|m k secs now|m addr secs now|m f|m|m f].
  - pose proof (wp_process m msg epoch (mkInv _ _ Is Ip Ic It) Hs He Hepoch) as Hw. rewrite Hp in Hw.
    destruct Hw as (Hi & He' & _ & src & Hlog). split_and!; [done|by eapply (logged_seq_ok _ (m, []) (m', evs))|done].
  - pose proof (wp_open_session m a at_ Hm) as Hw. rewrite Hp in Hw. apply Hw.
  - unfold ensure_min_event_seq. case_if; [|done]. split_and!; [by split|done|exact He].
  - by apply healthy_clear_eor.
  - by apply healthy_expire_key.
  - by apply healthy_expire_peer.
  - split_and!; [by split|done|exact He].
  - split_and!; [by split|done|exact He].
  - split_and!; [by split|done|exact He].
Qed.

Lemma healthy_new : healthy rib_manager_new.
Proof.
  split_and!; [|done|split; [done|]; intros _ a s; simpl; by rewrite lookup_empty].
  split; try (intros a s; simpl; by rewrite lookup_empty).
  - intros a k p. unfold peer_of. simpl. by rewrite lookup_empty.
  - intros k p _. unfold peer_of. simpl. by rewrite lookup_empty.
  - intros k [r Hr]. simpl in Hr. by rewrite lookup_empty in Hr.
Qed.

(** Claim C1: in every state the manager can reach, through any sequence of its
    operations, sessions and peers are filed under their own identities, every
    route table belongs to a known peer, every peer reports the route counts of
    its table, and the epoch and sequence counters stay within their types;
    with overflow checks on, the epoch counter is also ahead of the epoch of
    every session (without them it can wrap around). *)
Theorem reachable_healthy m : rtc mgr_step rib_manager_new m -> healthy m.
Proof.
  intros Hr. assert (forall m0, healthy m0 -> rtc mgr_step m0 m -> healthy m) as Hgen.
  { clear Hr. intros m0 Hm0 Hr. induction Hr as [|x y z Hxy _ IH]; [done|]. apply IH. by eapply step_healthy. }
  by apply (Hgen rib_manager_new healthy_new).
Qed.

(** Claim C2: processing a message always ends, and returns a healthy state; it
    can panic only with overflow checks on and a counter at the end of its
    range: the event sequence, the epochs, or the flap count of a peer. *)
Theorem process_sound m msg epoch :
  healthy m -> (forall e, epoch = Some e -> 0 <= e < 2 ^ 64) ->
  wp (counters_exhausted m msg epoch) (process_for_epoch m msg epoch) (fun r => healthy r.1).
Proof.
  intros (Hi & Hs & He) Hepoch. eapply wp_mono; [by apply wp_process|].
  intros r (Hi' & He' & _ & src & Hlog). split_and!; [done|by eapply (logged_seq_ok _ (m, []) r)|done].
Qed.

(** Speakers are isolated: a message changes no session and no route
    table of any speaker but its own, and no filter. *)
Theorem process_isolated m msg epoch m' evs :
  healthy m -> (forall e, epoch = Some e -> 0 <= e < 2 ^ 64) ->
  process_for_epoch m msg epoch = Ok (m', evs) ->
  (forall b, b <> msg_speaker_addr msg -> speakers m' !! b = speakers m !! b) /\
  (forall k, pk_speaker_addr k <> msg_speaker_addr msg -> ribs m' !! k = ribs m !! k) /\
  mgr_filter m' = mgr_filter m /\ roto_filter m' = roto_filter m.
Proof.
  intros (Hi & Hs & He) Hepoch Hp. pose proof (wp_process m msg epoch Hi Hs He Hepoch) as Hw. rewrite Hp in Hw.
  destruct Hw as (_ & _ & [Hss Hsr Hf Ht] & _). done.
Qed.

(** The event log: what a message emits is both returned and sent to
    the subscribers, in the same order; the events are numbered consecutively
    from the manager's counter (modulo its 64 bits), carry the message's
    speaker and instant, share one source, and have the identifiers their
    number and position determine. *)
Theorem process_event_log m msg epoch m' evs :
  healthy m -> (forall e, epoch = Some e -> 0 <= e < 2 ^ 64) ->
  process_for_epoch m msg epoch = Ok (m', evs) ->
  event_tx m' = event_tx m ++ evs /\
  next_event_seq m' = (next_event_seq m + blen evs) mod 2 ^ 64 /\
  exists src, forall i ev, evs !! i = Some ev ->
    let seq := (next_event_seq m + Z.of_nat i) mod 2 ^ 64 in
    ev_event_key ev = event_key_new src seq /\
    ev_id ev = deterministic_event_uuid (msg_id msg) seq (Z.of_nat i) /\
    ev_speaker ev = msg_speaker_addr msg /\ ev_occurred_at ev = msg_received_at msg.
Proof.
  intros (Hi & Hs & He) Hepoch Hp. pose proof (wp_process m msg epoch Hi Hs He Hepoch) as Hw. rewrite Hp in Hw.
  destruct Hw as (_ & _ & _ & src & evs' & Hevs & Htx & Hn & Hev). simpl in Hevs, Htx, Hn. subst evs'.
  split_and!; [done|done|]. exists src. intros i ev Hl. exact (Hev i ev Hl).
Qed.

End Operations.

(** ** What the messages do *)

Section Behaviour.
Context `{Chrono} `{BuildProfile} `{HashOrder} `{IpNetContains}.
Implicit Types (m : RibManager) (a : IpAddr) (k : PeerKey) (msg : BmpMessage).

(** A message that is not a fenced Termination, after its source is chosen. *)
Lemma process_dispatch m msg epoch r :
  healthy m -> (forall e, epoch = Some e -> 0 <= e < 2 ^ 64) -> stale_termination m msg epoch = false ->
  process_for_epoch m msg epoch = Ok r ->
  exists m1 src, resolved (msg_speaker_addr msg) m (m1, src) /\ seq_ok m1 /\
    dispatch m1 (mkEnvelope (msg_id msg) (msg_speaker_addr msg) src (msg_received_at msg)) (msg_payload msg) = Ok r.
Proof.
  intros (Hi & Hs & He) Hepoch Hst. unfold process_for_epoch. rewrite Hst.
  intros ([m1 src] & Hr & Hd)%bind_Ok_inv.
  pose proof (wp_resolve_source True m (msg_speaker_addr msg) (msg_received_at msg) epoch Hi ltac:(destruct He; lia)
    ltac:(intros e ->; by apply (Hepoch e)) ltac:(done)) as Hw. rewrite Hr in Hw. exists m1, src. split_and!; [done| |done].
  destruct (res_silent _ _ _ Hw) as [Hn _]. unfold seq_ok. simpl in Hn. by rewrite Hn.
Qed.

(** Claim C3: the events of a Route Monitoring message are a faithful log of what
    it did to the tables: they are the withdrawals of the update followed by
    its announcements that the filters did not deny (or a single End-of-RIB
    event), and replaying them on the routes held before gives, for every peer,
    RIB and route key, exactly the attributes held afterwards. *)
Theorem route_events_replay m msg epoch hdr u m' evs :
  healthy m -> (forall e, epoch = Some e -> 0 <= e < 2 ^ 64) ->
  msg_payload msg = Bmp_RouteMonitoring hdr u ->
  process_for_epoch m msg epoch = Ok (m', evs) ->
  ev_payload <$> evs =
    monitoring_events m (mkEnvelope (msg_id msg) (msg_speaker_addr msg) (observation_source_new (msg_speaker_addr msg) 0)
                           (msg_received_at msg)) hdr u /\
  forall k rib tk, attrs_at m' k rib tk = replay evs (attrs_at m) k rib tk.
Proof.
  intros Hm Hepoch Hpay Hp. apply process_dispatch in Hp as (m1 & src & Hres & Hok & Hd); try done.
  2:{ unfold stale_termination. by rewrite Hpay. }
  rewrite Hpay in Hd. simpl in Hd. destruct (res_session _ _ _ Hres) as (s & Hs & _).
  pose proof (wp_handle_route_monitoring True m1
    (mkEnvelope (msg_id msg) (msg_speaker_addr msg) src (msg_received_at msg)) hdr u
    (res_inv _ _ _ Hres) Hok (ex_intro _ s Hs) ltac:(done)) as Hw.
  rewrite Hd in Hw. destruct Hw as (_ & Hev & Hview). cbn [fst snd] in *. split.
  - rewrite Hev. unfold monitoring_events. simpl. destruct (eor_afi_safi u); [done|]. do 2 f_equal.
    destruct (res_same _ _ _ Hres) as [_ _ Hf Hr]. simpl in Hf, Hr.
    apply list_filter_iff. intros r. unfold filter_verdict. by rewrite Hr, Hf.
  - intros k rib tk. rewrite Hview. unfold attrs_at at 1. pose proof (res_ribs _ _ _ Hres) as Hribs. simpl in Hribs.
    unfold attrs_at. by rewrite Hribs.
Qed.

(** What an accepted Termination does. *)
Lemma termination_effect m msg epoch code text m' evs :
  healthy m -> (forall e, epoch = Some e -> 0 <= e < 2 ^ 64) ->
  msg_payload msg = Bmp_Termination code text -> stale_termination m msg epoch = false ->
  process_for_epoch m msg epoch = Ok (m', evs) ->
  speakers m' !! msg_speaker_addr msg = None /\
  (forall k, ribs m' !! k = if decide (pk_speaker_addr k = msg_speaker_addr msg) then None else ribs m !! k) /\
  ev_payload <$> evs = [Event_SpeakerDown (default ("code=" ++ fmt_dec code)%string text)].
Proof.
  intros Hm Hepoch Hpay Hst Hp. apply process_dispatch in Hp as (m1 & src & Hres & Hok & Hd); try done.
  rewrite Hpay in Hd. simpl in Hd. pose proof (res_inv _ _ _ Hres) as Hinv. cbn [fst] in Hinv.
  set (env := mkEnvelope _ _ _ _) in Hd. set (a := msg_speaker_addr msg) in *.
  pose proof (wp_emit True env (Event_SpeakerDown (default ("code=" ++ fmt_dec code)%string text))
    (handle_termination m1 a, []) Hok ltac:(done)) as Hw.
  rewrite Hd in Hw. destruct Hw as [_ (n & ev & Hm' & Hevs & Hev)]. cbn [fst snd] in *. subst m' evs. split_and!.
  - simpl. apply lookup_delete_eq.
  - intros k. change (ribs (send_event ev (set_seq n (handle_termination m1 a)))) with (ribs (handle_termination m1 a)).
    rewrite (termination_ribs a m1 Hinv), map_lookup_filter. pose proof (res_ribs _ _ _ Hres) as Hribs. cbn [fst] in Hribs. rewrite Hribs.
    destruct (ribs m !! k); simpl; [|by case_decide]. case_guard; case_decide; done.
  - simpl. by rewrite Hev.
Qed.

(** An accepted Termination forgets its speaker: no session and no
    route table of it is left, those of the others are untouched, and one
    SpeakerDown event is emitted. *)
Theorem termination_forgets m msg epoch code text m' evs :
  healthy m -> (forall e, epoch = Some e -> 0 <= e < 2 ^ 64) ->
  msg_payload msg = Bmp_Termination code text -> stale_termination m msg epoch = false ->
  process_for_epoch m msg epoch = Ok (m', evs) ->
  speakers m' !! msg_speaker_addr msg = None /\
  (forall k, ribs m' !! k = if decide (pk_speaker_addr k = msg_speaker_addr msg) then None else ribs m !! k) /\
  ev_payload <$> evs = [Event_SpeakerDown (default ("code=" ++ fmt_dec code)%string text)].
Proof. apply termination_effect. Qed.

(** The epoch of a session that stays never goes back. *)
Lemma resolve_epoch m a now epoch m1 src s : speakers m !! a = Some s -> resolve_source m a now epoch = Ok (m1, src) ->
  exists s1, speakers m1 !! a = Some s1 /\ session_epoch (bs_source s) <= session_epoch (bs_source s1).
Proof.
  intros Hs. unfold resolve_source, ensure_speaker_source. destruct epoch as [e|].
  - intros (m0 & Hm0 & Hr)%bind_Ok_inv. assert (speakers m0 = speakers m) as Hsp.
    { destruct (next_session_epoch m <=? e); [|by injection Hm0 as <-]. by apply bind_Ok_inv in Hm0 as (n & _ & [= <-]). }
    injection Hr as <- _. cbn [speakers set_speakers]. rewrite Hsp, Hs. simpl. eexists. split; [apply lookup_insert_eq|].
    destruct (session_epoch (bs_source s) <? e) eqn:Hlt; simpl; lia.
  - rewrite Hs. intros [= <- _]. exists s. split; [done|lia].
Qed.

Lemma process_epoch m msg epoch m' evs a s s' : healthy m -> (forall e, epoch = Some e -> 0 <= e < 2 ^ 64) ->
  process_for_epoch m msg epoch = Ok (m', evs) -> speakers m !! a = Some s -> speakers m' !! a = Some s' ->
  session_epoch (bs_source s) <= session_epoch (bs_source s').
Proof.
  intros Hm He Hp Hs Hs'. destruct (decide (a = msg_speaker_addr msg)) as [->|Hne].
  2:{ destruct Hm as (Hi & Hq & Hep). pose proof (wp_process m msg epoch Hi Hq Hep He) as Hw. rewrite Hp in Hw.
      destruct Hw as (_ & _ & Hsame & _). cbn [fst] in Hsame. rewrite (same_speakers _ _ _ Hsame a Hne), Hs in Hs'.
      injection Hs' as <-. lia. }
  unfold process_for_epoch in Hp. case_match; [injection Hp as <- <-; simplify_eq; lia|].
  apply bind_Ok_inv in Hp as ([m1 src] & Hres & Hp). destruct (resolve_epoch _ _ _ _ _ _ _ Hs Hres) as (s1 & Hs1 & Hle).
  destruct Hm as (Hi & Hq & Hep).
  pose proof (wp_resolve_source True m (msg_speaker_addr msg) (msg_received_at msg) epoch Hi) as Hw.
  specialize (Hw ltac:(destruct Hep; lia) ltac:(intros e ->; by apply (He e)) ltac:(done)). rewrite Hres in Hw.
  destruct Hw as [Hinv1 _ Hsil1 _ [s2 [Hs2 _]] _]. cbn [fst snd] in *.
  assert (seq_ok m1) as Hok1 by (unfold seq_ok; destruct Hsil1 as [-> _]; exact Hq).
  pose proof (wp_dispatch True m1 (mkEnvelope (msg_id msg) (msg_speaker_addr msg) src (msg_received_at msg)) (msg_payload msg)
    Hinv1 Hok1 ltac:(by exists s2) ltac:(done) ltac:(done)) as Hd.
  rewrite Hp in Hd. destruct Hd as (_ & [_ _ Hsrc] & _). cbn [fst] in Hsrc. destruct (Hsrc _ _ Hs') as (s3 & Hs3 & ->). simplify_eq. done.
Qed.

(** The source of every session that stays is kept. *)
Definition keeps_sources m m' : Prop :=
  forall b s', speakers m' !! b = Some s' -> exists s, speakers m !! b = Some s /\ bs_source s' = bs_source s.

Lemma expire_key_sources m k secs now : keeps_sources m (expire_stale_for_peer_key m k secs now).1.
Proof.
  unfold expire_stale_for_peer_key. destruct (ribs m !! k) as [rib|].
  - destruct (drain_deleted_stale rib now secs) as [rib' n]. cbn [fst].
    exact (frame_sources _ _ _ (transitivity (frame_set_rib k rib' m) (frame_sync k _))).
  - exact (frame_sources _ _ _ (frame_sync k m)).
Qed.

Lemma expire_peer_sources m addr secs now : keeps_sources m (expire_stale_for_peer m addr secs now).1.
Proof.
  unfold expire_stale_for_peer. generalize 0%nat as n. generalize (base.filter (fun k => pk_peer_address k = addr) (hash_keys (ribs m))).
  intros ks. revert m. induction ks as [|k ks IH]; intros m n; [intros b s' Hs; by exists s'|]. cbn [foldl].
  pose proof (expire_key_sources m k secs (now k)) as Hk.
  destruct (expire_stale_for_peer_key m k secs (now k)) as [m' r]. intros b s' Hs.
  destruct (IH m' (n + r)%nat b s' Hs) as (s1 & Hs1 & ->). by apply Hk.
Qed.

Lemma step_epoch m m' a s s' : healthy m -> overflow_checks = true -> mgr_step m m' ->
  speakers m !! a = Some s -> speakers m' !! a = Some s' -> session_epoch (bs_source s) <= session_epoch (bs_source s').
Proof.
  intros Hm Hc Hstep Hs Hs'. assert (keeps_sources m m' -> session_epoch (bs_source s) <= session_epoch (bs_source s')) as Hkeep.
  { intros Hk. destruct (Hk a s' Hs') as (s0 & Hs0 & ->). simplify_eq. lia. }
  destruct Hstep as [m msg epoch m' evs Hepoch Hp|m b at_ m' e Hp|m n Hn|m b|m k secs now|m addr secs now|m f|m|m f].
  - by eapply process_epoch.
  - pose proof (wp_open_session m b at_ Hm) as Hw. rewrite Hp in Hw. destruct Hw as (_ & Hsame & -> & _ & s1 & Hs1 & He).
    cbn [fst snd] in *. destruct (decide (a = b)) as [->|Hne].
    + simplify_eq. destruct Hm as (_ & _ & _ & Hlt). specialize (Hlt Hc b s Hs). lia.
    + rewrite (same_speakers _ _ _ Hsame a Hne), Hs in Hs'. injection Hs' as <-. lia.
  - apply Hkeep. unfold ensure_min_event_seq. case_if; intros x y Hx; by exists y.
  - apply Hkeep. exact (frame_sources b _ _ (frame_alter_speaker clear_eor b m (fun _ => eq_refl))).
  - apply Hkeep, expire_key_sources.
  - apply Hkeep, expire_peer_sources.
  - apply Hkeep. intros x y Hx. by exists y.
  - apply Hkeep. intros x y Hx. by exists y.
  - apply Hkeep. intros x y Hx. by exists y.
Qed.

(** The operations while speaker [a] keeps a session. *)
Definition session_step a m m' : Prop := mgr_step m m' /\ is_Some (speakers m' !! a).

Lemma steps_epoch m m' a e : healthy m -> overflow_checks = true -> rtc (session_step a) m m' ->
  (exists s, speakers m !! a = Some s /\ e <= session_epoch (bs_source s)) ->
  exists s, speakers m' !! a = Some s /\ e <= session_epoch (bs_source s).
Proof.
  intros Hm Hc Hr. induction Hr as [|m1 m2 m3 [Hstep [s2 Hs2]] _ IH]; [done|]. intros (s1 & Hs1 & He).
  apply IH; [by eapply step_healthy|]. exists s2. split; [done|].
  pose proof (step_epoch _ _ _ _ _ Hm Hc Hstep Hs1 Hs2). lia.
Qed.

(** Claim C5: reconnection is fenced.  With overflow checks on, opening a session
    for a speaker gives it an epoch greater than that of every session; and
    from then on, through any operations of the manager and as long as the
    speaker has a session, a Termination of a smaller epoch, in particular one
    of the previous connection, changes nothing and emits nothing. *)
Theorem epoch_fencing m a at_ m1 epoch m2 :
  healthy m -> overflow_checks = true -> open_speaker_session m a at_ = Ok (m1, epoch) -> rtc (session_step a) m1 m2 ->
  (forall b s, speakers m !! b = Some s -> session_epoch (bs_source s) < epoch) /\
  forall msg old code text, old < epoch -> msg_speaker_addr msg = a -> msg_payload msg = Bmp_Termination code text ->
    process_for_epoch m2 msg (Some old) = Ok (m2, []).
Proof.
  intros Hm Hc Ho Hr. pose proof (wp_open_session m a at_ Hm) as Hw. rewrite Ho in Hw.
  destruct Hw as (Hm1 & _ & Heq & _ & s & Hs & Hep). cbn [fst snd] in *. subst epoch. split.
  - intros b s' Hb. destruct Hm as (_ & _ & _ & He). by apply (He Hc b).
  - intros msg old code text Hlt Hmsg Hpay.
    destruct (steps_epoch m1 m2 a (next_session_epoch m) Hm1 Hc Hr) as (s2 & Hs2 & He2); [exists s; split; [done|lia]|].
    unfold process_for_epoch, stale_termination. rewrite Hpay, Hmsg, Hs2. by rewrite (proj2 (Z.ltb_lt _ _)) by lia.
Qed.

(** What a Peer Down does to the peer's routes is decided by LLGR: if it
    was active they all stay, the normal ones marked stale from that instant,
    otherwise they are all dropped; the peer is down and reports the counts of
    what is left. *)
Theorem peer_down_llgr m a now hdr p :
  mgr_inv m -> peer_of m a (peer_key_from_header a hdr) = Some p ->
  let k := peer_key_from_header a hdr in
  let m' := handle_peer_down m a now hdr in
  (exists p', peer_of m' a k = Some p' /\ ps_state p' = State_Down /\ ps_down_at p' = Some now /\
     ps_route_counts p' = counts_of m' k) /\
  forall rib tk, (ribs m' !! k ≫= fun t => route t rib tk) =
    if ps_llgr_active p then mark_stale_entry now <$> (ribs m !! k ≫= fun t => route t rib tk) else None.
Proof.
  intros Hinv Hp k m'. change (peer_of m a k = Some p) in Hp. assert (speakers m !! a ≫= (fun s => bs_peers s !! k) = Some p) as Hp' by exact Hp.
  assert (ribs m' = alter (if ps_llgr_active p then (fun rib => mark_stale_all rib now) else clear_all) k (ribs m)) as Hr
    by (unfold m', handle_peer_down; cbn zeta; fold k; by rewrite Hp').
  split.
  - destruct (handle_peer_down_spec a now hdr m Hinv) as (Hi & _ & _). fold m' in Hi.
    assert (exists p', peer_of m' a k = Some p' /\ ps_state p' = State_Down /\ ps_down_at p' = Some now) as (p' & Hp1 & Hst & Hd).
    { unfold m', handle_peer_down. fold k. cbn zeta. unfold sync_peer_route_counts. rewrite peer_of_alter, decide_True by done.
      set (m2 := set_ribs _ _). change (peer_of m2 a k) with (peer_of (alter_peer (fun p => on_down p now) a k m) a k).
      rewrite peer_of_alter, decide_True, Hp by done. by eexists. }
    exists p'. split_and!; try done. by apply (inv_counts _ _ Hi k).
  - intros rib tk. rewrite Hr, lookup_alter_eq. destruct (ps_llgr_active p); destruct (ribs m !! k); simpl; try done.
    apply route_mark_stale.
Qed.

(** Event identifiers are well-formed version 4 UUIDs: sixteen octets
    with the version and variant bits in place. *)
Theorem event_uuid_version (id : bytes) (seq idx : Z) :
  blen id = 16 ->
  exists b6 b8, deterministic_event_uuid id seq idx !! 6%nat = Some b6 /\
    deterministic_event_uuid id seq idx !! 8%nat = Some b8 /\ blen (deterministic_event_uuid id seq idx) = 16 /\
    Z.shiftr (u8 b6) 4 = 4 /\ Z.shiftr (u8 b8) 6 = 2.
Proof.
  intros Hid. unfold deterministic_event_uuid, xor_bytes. set (mix := to_be 8 _ ++ to_be 8 _).
  assert (length mix = 16%nat) as Hmix by (unfold mix; by rewrite length_app, !length_to_be).
  set (b := zip_with _ id mix).
  assert (length b = 16%nat) as Hb by (unfold b; rewrite length_zip_with, Hmix; unfold blen in Hid; lia).
  destruct (lookup_lt_is_Some_2 b 6%nat ltac:(lia)) as [x6 H6]. destruct (lookup_lt_is_Some_2 b 8%nat ltac:(lia)) as [x8 H8].
  eexists _, _. split; [by rewrite list_lookup_alter_ne, list_lookup_alter, H6|].
  split; [by rewrite list_lookup_alter, list_lookup_alter_ne, H8|].
  split; [unfold blen; by rewrite !length_alter, Hb|].
  clear. split; [destruct x6|destruct x8]; reflexivity.
Qed.

End Behaviour.

(** ** A run, for the witnesses *)

Section ManagerWitnesses.
#[local] Instance witness_chrono : Chrono := reference_chrono.
#[local] Instance witness_profile : BuildProfile := true.
#[local] Instance witness_order : HashOrder := trie_order.
#[local] Instance witness_contains : IpNetContains := reference_contains.

Definition demo_speaker : IpAddr := IpAddr_V4 (bs [10; 0; 0; 1]).
Definition demo_hdr : PeerHeader :=
  mkPeerHeader Peer_GlobalInstance (mkPeerFlags 0) (replicate 8 Byte.x00) (IpAddr_V4 (bs [192; 0; 2; 1]))
    65001 (bs [192; 0; 2; 1]) 0 Rib_AdjRibInPrePolicy.

Definition demo_now : DateTime := 5.

(** One announcement, then the end of the session. *)
Definition demo_announce : BmpMessage :=
  mkBmpMessage (replicate 16 Byte.x07) 1000 demo_speaker
    (Bmp_RouteMonitoring demo_hdr (mkBgpUpdate [] [] path_attributes_default [net_10_1_2] [Some 7])).
Definition demo_terminate : BmpMessage :=
  mkBmpMessage (replicate 16 Byte.x08) 2000 demo_speaker (Bmp_Termination 1 None).

Definition run_or (d : RibManager) (o : RibM (RibManager * list RibEvent)) : RibManager * list RibEvent :=
  match o with Ok r => r | _ => (d, []) end.

Definition demo_state : RibManager * list RibEvent :=
  run_or rib_manager_new (process rib_manager_new demo_announce).
Definition demo_end : RibManager * list RibEvent := run_or demo_state.1 (process demo_state.1 demo_terminate).

Lemma demo_state_ok : process_for_epoch rib_manager_new demo_announce None = Ok demo_state.
Proof.
  assert (match process_for_epoch rib_manager_new demo_announce None with Ok _ => true | _ => false end = true) as Hok
    by (vm_compute; reflexivity).
  unfold demo_state, process. by destruct (process_for_epoch rib_manager_new demo_announce None).
Qed.

Lemma demo_state_healthy : healthy demo_state.1.
Proof.
  pose proof demo_state_ok as Hok. destruct demo_state as [m evs].
  apply (step_healthy rib_manager_new); [|apply healthy_new]. eapply step_process; [|exact Hok]. discriminate.
Qed.

Lemma demo_end_ok : process_for_epoch demo_state.1 demo_terminate None = Ok demo_end.
Proof.
  assert (match process_for_epoch demo_state.1 demo_terminate None with Ok _ => true | _ => false end = true) as Hok
    by (vm_compute; reflexivity).
  unfold demo_end, process. by destruct (process_for_epoch demo_state.1 demo_terminate None).
Qed.

Lemma reachable_healthy_witness : healthy demo_end.1.
Proof.
  apply reachable_healthy. pose proof demo_state_ok as H1. pose proof demo_end_ok as H2.
  destruct demo_end as [m2 e2], demo_state as [m1 e1]. apply (rtc_l _ _ m1); [eapply step_process; [|exact H1]; discriminate|].
  apply rtc_once. eapply step_process; [|exact H2]. discriminate.
Defined.

Lemma process_sound_witness : healthy demo_end.1.
Proof.
  pose proof (process_sound demo_state.1 demo_terminate None demo_state_healthy ltac:(discriminate)) as Hw.
  rewrite demo_end_ok in Hw. exact Hw.
Defined.

Lemma process_isolated_witness :
  speakers demo_state.1 !! (IpAddr_V4 (bs [10; 0; 0; 2])) = None.
Proof.
  pose proof demo_state_ok as Hok.
  destruct (process_isolated rib_manager_new demo_announce None demo_state.1 demo_state.2 healthy_new) as [Hs _].
  - discriminate.
  - rewrite Hok. destruct demo_state. exact eq_refl.
  - rewrite Hs by discriminate. reflexivity.
Defined.

Lemma process_event_log_witness : event_tx demo_state.1 = demo_state.2.
Proof.
  pose proof demo_state_ok as Hok.
  destruct (process_event_log rib_manager_new demo_announce None demo_state.1 demo_state.2 healthy_new) as [Hs _].
  - discriminate.
  - rewrite Hok. destruct demo_state. exact eq_refl.
  - exact Hs.
Defined.

Lemma route_events_replay_witness :
  attrs_at demo_state.1 (peer_key_from_header demo_speaker demo_hdr) Rib_AdjRibInPrePolicy
    (route_key_from_prefix net_10_1_2 (Some 7)) =
  replay demo_state.2 (attrs_at rib_manager_new) (peer_key_from_header demo_speaker demo_hdr) Rib_AdjRibInPrePolicy
    (route_key_from_prefix net_10_1_2 (Some 7)).
Proof.
  pose proof demo_state_ok as Hok.
  apply (route_events_replay rib_manager_new demo_announce None demo_hdr
    (mkBgpUpdate [] [] path_attributes_default [net_10_1_2] [Some 7])); [apply healthy_new|discriminate|reflexivity|].
  rewrite Hok. destruct demo_state. exact eq_refl.
Defined.

Lemma termination_forgets_witness : speakers demo_end.1 !! demo_speaker = None.
Proof.
  pose proof demo_end_ok as Hok.
  apply (termination_forgets demo_state.1 demo_terminate None 1 None demo_end.1 demo_end.2 demo_state_healthy);
    [discriminate|reflexivity| |].
  - unfold stale_termination. exact eq_refl.
  - rewrite Hok. destruct demo_end. exact eq_refl.
Defined.

(** The new connection announces itself, and then the Termination of the old
    one arrives. *)
Lemma epoch_fencing_witness :
  exists m1 m2 evs, open_speaker_session rib_manager_new demo_speaker demo_now = Ok (m1, 1) /\
    process_for_epoch m1 demo_announce (Some 1) = Ok (m2, evs) /\ process_for_epoch m2 demo_terminate (Some 0) = Ok (m2, []).
Proof.
  destruct (open_speaker_session rib_manager_new demo_speaker demo_now) as [[m1 e]| | |] eqn:Ho; [|discriminate..].
  assert (match process_for_epoch m1 demo_announce (Some 1) with Ok (m2, _) => bool_decide (is_Some (speakers m2 !! demo_speaker)) | _ => false end = true)
    as Hok by (injection Ho as <- <-; vm_compute; reflexivity).
  destruct (process_for_epoch m1 demo_announce (Some 1)) as [[m2 evs]| | |] eqn:Hp; [|discriminate..].
  apply bool_decide_eq_true in Hok. assert (e = 1) as -> by by injection Ho as _ <-.
  exists m1, m2, evs. split_and!; [done|done|].
  apply (proj2 (epoch_fencing rib_manager_new demo_speaker demo_now m1 1 m2 healthy_new eq_refl Ho
    (rtc_once _ _ (conj (step_process m1 demo_announce (Some 1) m2 evs ltac:(intros e [= <-]; lia) Hp) Hok)))) with 1 None;
    [lia|reflexivity|reflexivity].
Defined.

Lemma peer_down_llgr_witness :
  exists p', peer_of (handle_peer_down demo_state.1 demo_speaker demo_now demo_hdr) demo_speaker
               (peer_key_from_header demo_speaker demo_hdr) = Some p' /\ ps_state p' = State_Down.
Proof.
  assert (match peer_of demo_state.1 demo_speaker (peer_key_from_header demo_speaker demo_hdr) with
          | Some _ => true | None => false end = true) as Hok by (vm_compute; reflexivity).
  destruct (peer_of demo_state.1 demo_speaker (peer_key_from_header demo_speaker demo_hdr)) as [p|] eqn:Hp; [|done].
  destruct (peer_down_llgr demo_state.1 demo_speaker demo_now demo_hdr p (proj1 demo_state_healthy) Hp)
    as [(p' & Hp' & Hst & _) _]. exists p'. exact (conj Hp' Hst).
Defined.

Lemma event_uuid_version_witness : blen (deterministic_event_uuid (replicate 16 Byte.x07) 1 0) = 16.
Proof. destruct (event_uuid_version (replicate 16 Byte.x07) 1 0 eq_refl) as (b6 & b8 & _ & _ & Hl & _). exact Hl. Defined.

End ManagerWitnesses.
