(* ===== verification/Jsonl.v ===== *)
(** * JSON-lines files ([crates/rbmp-store/src/journal.rs])

    Both journals of the store are files of JSON records, one per line, that
    grow by appending.  This file holds what they share: strict UTF-8 and
    [str::trim], hexadecimal text, the interface of [serde_json], and the loop
    that reads such a file back and repairs its last line. *)

From Stdlib Require Import ZArith Lia ZifyBool Strings.Byte.
From stdpp Require Import base numbers list option strings.
From S2P Require Import Prelude RustStd.

Local Open Scope Z_scope.

(** ** Text *)

(** The characters of valid UTF-8, each as its octets. *)
Fixpoint utf8_chars (fuel : nat) (b : bytes) : option (list bytes) :=
  match b, fuel with
  | [], _ => Some []
  | b0 :: rest, S fuel' =>
      let '(valid, n) := utf8_step b0 rest in
      if valid then cons (take n b) <$> utf8_chars fuel' (drop n b) else None
  | _ :: _, O => None
  end.

(** [std::str::from_utf8]: a [&str] is its octets. *)
Definition from_utf8 (b : bytes) : option bytes :=
  match utf8_chars (length b) b with Some _ => Some b | None => None end.

(** [char::is_whitespace]: U+0009..U+000D, U+0020, U+0085, U+00A0, U+1680,
    U+2000..U+200A, U+2028, U+2029, U+202F, U+205F, U+3000. *)
Definition is_whitespace (c : bytes) : bool :=
  match u8 <$> c with
  | [v] => in_range 9 13 v || (v =? 32)
  | [v0; v1] => (v0 =? 0xC2) && ((v1 =? 0x85) || (v1 =? 0xA0))
  | [v0; v1; v2] =>
      ((v0 =? 0xE1) && (v1 =? 0x9A) && (v2 =? 0x80)) ||
      ((v0 =? 0xE2) && (v1 =? 0x80) &&
         (in_range 0x80 0x8A v2 || (v2 =? 0xA8) || (v2 =? 0xA9) || (v2 =? 0xAF))) ||
      ((v0 =? 0xE2) && (v1 =? 0x81) && (v2 =? 0x9F)) ||
      ((v0 =? 0xE3) && (v1 =? 0x80) && (v2 =? 0x80))
  | _ => false
  end.

Fixpoint skip_whitespace (cs : list bytes) : list bytes :=
  match cs with
  | c :: cs' => if is_whitespace c then skip_whitespace cs' else cs
  | [] => []
  end.

(** [str::trim] *)
Definition trim (s : bytes) : bytes :=
  match utf8_chars (length s) s with
  | Some cs => mjoin (reverse (skip_whitespace (reverse (skip_whitespace cs))))
  | None => s
  end.

(** [s.contains(needle)] *)
Fixpoint contains (needle s : bytes) : bool :=
  bool_decide (needle `prefix_of` s) ||
  match s with [] => false | _ :: s' => contains needle s' end.

Definition bytes_of_string (s : string) : bytes := String.list_byte_of_string s.

(** [s.trim().is_empty()] *)
Definition blank (s : string) : bool := match trim (bytes_of_string s) with [] => true | _ => false end.

(** ** Hexadecimal *)

Definition bytes_to_hex (b : bytes) : string := hex_encode b.

(** [char::to_digit(16)] of an octet read as a character. *)
Definition to_digit16 (b : byte) : option Z :=
  let v := u8 b in
  if in_range 48 57 v then Some (v - 48)
  else if in_range 97 102 v then Some (v - 87)
  else if in_range 65 70 v then Some (v - 55)
  else None.

(** [chunks_exact(2)] *)
Fixpoint hex_pairs (b : bytes) : option bytes :=
  match b with
  | hi :: lo :: b' =>
      h ← to_digit16 hi;
      l ← to_digit16 lo;
      cons (as_u8 (Z.lor (Z.shiftl h 4) l)) <$> hex_pairs b'
  | _ => Some []
  end.

Definition hex_to_bytes (hex_str : string) : option bytes :=
  let s := trim (bytes_of_string hex_str) in
  if negb (blen s mod 2 =? 0) then None else hex_pairs s.

(** ** Records as text

    [serde_json] on the record types of the journals.  [json_text] is the text
    of a JSON object as [to_vec] writes it: in UTF-8, between braces, with
    control characters escaped.  [serialisable] are the values that survive the
    trip (a floating-point NaN, say, does not): their text is read back as the
    value.  No proper prefix of the text of an object is valid JSON. *)
Definition newline : byte := Byte.x0a.
Definition open_brace : byte := Byte.x7b.
Definition close_brace : byte := Byte.x7d.

Definition json_object (t : bytes) : Prop :=
  from_utf8 t = Some t /\ newline ∉ t /\ exists mid, t = open_brace :: mid ++ [close_brace].

Class JsonSyntax := {
  json_text : bytes -> Prop;
  json_text_object : forall t, json_text t -> json_object t;
}.

Class Json `{JsonSyntax} (A : Type) := {
  to_vec : A -> option bytes;
  from_str : bytes -> option A;
  serialisable : A -> Prop;
  to_vec_ok : forall a, serialisable a -> exists t, to_vec a = Some t /\ json_text t /\ from_str t = Some a;
  from_str_torn : forall t p c s, json_text t -> t = p ++ c :: s -> from_str p = None;
}.

(** ** Reading a file back *)

Inductive JournalError : Type :=
| Journal_Io
| Journal_CorruptUtf8 (line : nat)
| Journal_CorruptRecord (line : nat)
| Journal_Serialise.

(** The line at [cursor]: its text without the newline, or the tail of the file. *)
Fixpoint split_line (b : bytes) : option (bytes * bytes) :=
  match b with
  | [] => None
  | c :: b' =>
      if bool_decide (c = newline) then Some ([], b')
      else match split_line b' with Some (l, rest) => Some (c :: l, rest) | None => None end
  end.

Record Scan (S : Type) := mkScan {
  sc_state : S;          (** what the records were applied to *)
  sc_file : bytes;       (** the file after the repair of its tail *)
  sc_skipped : nat;      (** torn tails dropped *)
}.
Arguments mkScan {S}.
Arguments sc_state {S}.
Arguments sc_file {S}.
Arguments sc_skipped {S}.

Section Scan.
Context {R S : Type} (parse : bytes -> option R) (apply : nat -> R -> S -> Outcome JournalError S).

(** A complete line. *)
Definition scan_line (idx : nat) (line : bytes) (s : S) : Outcome JournalError S :=
  text ← or_err (from_utf8 line) (Journal_CorruptUtf8 (idx + 1));
  let trimmed := trim text in
  match trimmed with
  | [] => Ok s
  | _ => r ← or_err (parse trimmed) (Journal_CorruptRecord (idx + 1)); apply idx r s
  end.

(** The octets behind the last newline: dropped when blank or torn, completed
    with a newline when they are a whole record. *)
Definition scan_tail (idx : nat) (valid tail : bytes) (s : S) : Outcome JournalError (Scan S) :=
  match from_utf8 tail with
  | Some text =>
      match trim text with
      | [] => Ok (mkScan s valid 0)
      | trimmed =>
          match parse trimmed with
          | Some r => s ← apply idx r s; Ok (mkScan s (valid ++ tail ++ [newline]) 0)
          | None => Ok (mkScan s valid 1)
          end
      end
  | None => Ok (mkScan s valid 1)
  end.

(** [while cursor < raw_bytes.len()]: [valid] is [raw_bytes[..valid_len]]. *)
Fixpoint scan_lines (fuel : nat) (idx : nat) (valid rest : bytes) (s : S) : Outcome JournalError (Scan S) :=
  match fuel, rest with
  | _, [] => Ok (mkScan s valid 0)
  | O, _ => Diverge
  | Datatypes.S fuel', _ =>
      match split_line rest with
      | Some (line, rest') =>
          s ← scan_line idx line s;
          scan_lines fuel' (Datatypes.S idx) (valid ++ line ++ [newline]) rest' s
      | None => scan_tail idx valid rest s
      end
  end.

Definition scan_file (raw : bytes) (s : S) : Outcome JournalError (Scan S) :=
  scan_lines (length raw) 0 [] raw s.

End Scan.

(** ** Lines *)

Lemma split_line_at (l rest : bytes) : newline ∉ l -> split_line (l ++ newline :: rest) = Some (l, rest).
Proof.
  induction l as [|c l IH]; intros Hn; cbn [app split_line].
  - by rewrite bool_decide_true.
  - apply not_elem_of_cons in Hn as [Hc Hn]. rewrite bool_decide_false, IH by congruence. done.
Qed.

Lemma split_line_none (t : bytes) : newline ∉ t -> split_line t = None.
Proof.
  induction t as [|c t IH]; intros Hn; cbn [split_line]; [done|].
  apply not_elem_of_cons in Hn as [Hc Hn]. by rewrite bool_decide_false, IH by congruence.
Qed.

(** ** UTF-8 *)

(** A character takes at least one octet; one of several octets ends in a
    continuation octet. *)
Lemma utf8_step_char b0 rest n :
  utf8_step b0 rest = (true, n) ->
  (n = 1%nat /\ u8 b0 < 0x80) \/
  (exists c bl, take n (b0 :: rest) = c ++ [bl] /\ 0x80 <= u8 bl /\ (2 <= n)%nat).
Proof.
  unfold utf8_step. intros Hs.
  repeat match type of Hs with
         | context [if ?c then _ else _] => destruct c eqn:?
         | context [match ?l with _ => _ end] => destruct l; try discriminate
         end; try discriminate; injection Hs as <-; [left; split; [done|lia]|right..].
  - exists [b0], b. split_and!; [done| |lia]. unfold utf8_cont in *. lia.
  - exists [b0; b], b1. split_and!; [done| |lia]. unfold utf8_cont in *. lia.
  - exists [b0; b; b1], b2. split_and!; [done| |lia]. unfold utf8_cont in *. lia.
Qed.

Definition char_shape (c : bytes) : Prop :=
  (exists b, c = [b] /\ u8 b < 0x80) \/ (exists c' bl, c = c' ++ [bl] /\ 0x80 <= u8 bl).

Lemma utf8_chars_spec fuel b cs :
  utf8_chars fuel b = Some cs -> mjoin cs = b /\ Forall char_shape cs.
Proof.
  revert b cs. induction fuel as [|fuel IH]; intros [|b0 rest] cs Hu; simpl in Hu; try discriminate.
  1,2: injection Hu as <-; by split.
  destruct (utf8_step b0 rest) as [[] n] eqn:Hs; [|discriminate].
  destruct (utf8_chars fuel (drop n (b0 :: rest))) as [cs'|] eqn:Hcs; [|discriminate].
  injection Hu as <-. apply IH in Hcs as [Hj Hf]. split.
  - cbn [mjoin list_join]. etransitivity; [|apply (take_drop n)]. f_equal. exact Hj.
  - constructor; [|done]. destruct (utf8_step_char _ _ _ Hs) as [[-> Hlt]|(c & bl & Hc & Hbl & _)].
    + left. exists b0. by split.
    + right. by exists c, bl.
Qed.

(** Spaces are stripped from both ends. *)
Lemma skip_whitespace_suffix cs : exists ws, cs = ws ++ skip_whitespace cs.
Proof.
  induction cs as [|c cs [ws IH]]; [by exists []|]. simpl. destruct (is_whitespace c).
  - exists (c :: ws). by rewrite IH at 1.
  - by exists [].
Qed.

Lemma trim_end_prefix cs : exists ws, cs = reverse (skip_whitespace (reverse cs)) ++ ws.
Proof.
  destruct (skip_whitespace_suffix (reverse cs)) as [ws Hws]. exists (reverse ws).
  rewrite <- reverse_app, <- Hws. by rewrite reverse_involutive.
Qed.

Lemma trim_end_head c cs : is_whitespace c = false ->
  exists cs', reverse (skip_whitespace (reverse (c :: cs))) = c :: cs'.
Proof.
  intros Hc. rewrite reverse_cons.
  assert (forall l, exists l', skip_whitespace (l ++ [c]) = l' ++ [c]) as Hl.
  { induction l as [|x l [l' IH]]; simpl; [rewrite Hc; by exists []|].
    destruct (is_whitespace x); [by exists l'|]. by exists (x :: l). }
  destruct (Hl (reverse cs)) as [l' ->]. exists (reverse l'). by rewrite reverse_app.
Qed.

Lemma first_char fuel b rest cs : u8 b < 0x80 ->
  utf8_chars fuel (b :: rest) = Some cs -> exists cs', cs = [b] :: cs'.
Proof.
  intros Hb. destruct fuel; simpl; [discriminate|]. unfold utf8_step.
  rewrite (proj2 (Z.ltb_lt _ _)) by done. cbn [take].
  destruct (utf8_chars fuel _) as [cs'|]; [|discriminate]. intros [= <-]. by exists cs'.
Qed.

Lemma brace_not_space : is_whitespace [open_brace] = false /\ is_whitespace [close_brace] = false.
Proof. done. Qed.

(** Trimming text that starts with a brace removes a suffix only. *)
Lemma trim_braced p : from_utf8 (open_brace :: p) = Some (open_brace :: p) ->
  exists q suf, trim (open_brace :: p) = open_brace :: q /\ p = q ++ suf.
Proof.
  unfold from_utf8, trim. destruct (utf8_chars _ _) as [cs|] eqn:Hcs; [|discriminate]. intros _.
  apply utf8_chars_spec in Hcs as Hj. destruct Hj as [Hj _].
  destruct (first_char _ open_brace _ _ ltac:(done) Hcs) as [cs' ->].
  cbn [skip_whitespace]. rewrite (proj1 brace_not_space).
  destruct (trim_end_head [open_brace] cs' (proj1 brace_not_space)) as [cs2 Hcs2].
  destruct (trim_end_prefix ([open_brace] :: cs')) as [ws Hws]. rewrite Hcs2 in *.
  exists (mjoin cs2), (mjoin ws). split; [done|].
  rewrite Hws in Hj. rewrite join_app in Hj. by injection Hj as <-.
Qed.

Lemma list_snoc_cases {A} (l : list A) : l = [] \/ exists l' x, l = l' ++ [x].
Proof. induction l using rev_ind; eauto. Qed.

Lemma trim_object t : json_object t -> trim t = t.
Proof.
  intros (Hu & _ & mid & ->). unfold from_utf8 in Hu. unfold trim.
  destruct (utf8_chars _ _) as [cs|] eqn:Hcs; [|discriminate].
  apply utf8_chars_spec in Hcs as Hj. destruct Hj as [Hj Hf].
  destruct (first_char _ open_brace _ _ ltac:(done) Hcs) as [cs' ->].
  cbn [skip_whitespace]. rewrite (proj1 brace_not_space).
  set (cs := [open_brace] :: cs') in *. clearbody cs. clear cs' Hcs Hu.
  destruct (list_snoc_cases cs) as [->|(cs0 & c & ->)]; [discriminate|]. rename cs0 into cs.
  apply Forall_app in Hf as [_ Hc]. rewrite Forall_singleton in Hc.
  assert (c = [close_brace]) as ->.
  { rewrite join_app in Hj. change (mjoin [c]) with (c ++ []) in Hj. rewrite app_nil_r in Hj.
    change (open_brace :: mid ++ [close_brace]) with ((open_brace :: mid) ++ [close_brace]) in Hj.
    destruct Hc as [(b & -> & _)|(c' & bl & -> & Hbl)].
    - by apply app_inj_tail in Hj as [_ ->].
    - rewrite app_assoc in Hj. apply app_inj_tail in Hj as [_ ->]. exfalso. revert Hbl. vm_compute. congruence. }
  rewrite reverse_app, reverse_singleton. cbn [app skip_whitespace]. rewrite (proj2 brace_not_space).
  rewrite reverse_cons, reverse_involutive. exact Hj.
Qed.

Lemma object_not_nil t : json_object t -> t <> [].
Proof. by intros (_ & _ & mid & ->). Qed.

(** ** Hexadecimal text round trips *)

Lemma bytes_of_hex b : bytes_of_string (fmt_hex2 b) = [as_u8 (u8 b / 16 + (if u8 b / 16 <? 10 then 48 else 87));
                                                        as_u8 (u8 b mod 16 + (if u8 b mod 16 <? 10 then 48 else 87))].
Proof. by destruct b. Qed.

Lemma bytes_of_string_app s t : bytes_of_string (s ++ t)%string = bytes_of_string s ++ bytes_of_string t.
Proof.
  unfold bytes_of_string, String.list_byte_of_string. rewrite <- List.map_app. f_equal.
  induction s as [|c s IH]; [done|]. cbn. rewrite <- IH. done.
Qed.

Lemma concat_empty_cons s ss : String.concat "" (s :: ss) = (s ++ String.concat "" ss)%string.
Proof.
  destruct ss; cbn; [|done]. induction s as [|c s IH]; [done|].
  change (String c s = String c (s ++ ""))%string. by rewrite <- IH.
Qed.

Lemma bytes_of_hex_encode b : bytes_of_string (hex_encode b) = b ≫= (fun x => bytes_of_string (fmt_hex2 x)).
Proof.
  unfold hex_encode. induction b as [|x b IH]; [done|].
  rewrite fmap_cons, concat_empty_cons, bytes_of_string_app, IH. done.
Qed.

(** The text of an octet: two ASCII characters that are digits, not spaces. *)
Definition plain_char (b : byte) : Prop := u8 b < 0x80 /\ is_whitespace [b] = false.

Lemma hex2_plain b : Forall plain_char (bytes_of_string (fmt_hex2 b)).
Proof. destruct b; repeat constructor; done. Qed.

Lemma utf8_chars_ascii (s : bytes) fuel : (length s <= fuel)%nat -> Forall (fun b => u8 b < 0x80) s ->
  utf8_chars fuel s = Some ((fun b => [b]) <$> s).
Proof.
  revert fuel. induction s as [|b s IH]; intros [|fuel] Hf Hs; simpl in *; try lia; [done..|].
  inversion Hs as [|? ? Hb Hs']; subst. unfold utf8_step.
  rewrite (proj2 (Z.ltb_lt _ _)) by done. cbn [take drop]. rewrite IH by (done || lia). done.
Qed.

Lemma skip_plain (s : bytes) : Forall plain_char s -> skip_whitespace ((fun b => [b]) <$> s) = (fun b => [b]) <$> s.
Proof. intros Hs. destruct Hs as [|b s [_ Hb] Hs]; [done|]. simpl. by rewrite Hb. Qed.

Lemma join_singletons {A} (s : list A) : mjoin ((fun b => [b]) <$> s) = s.
Proof. induction s as [|b s IH]; [done|]. by rewrite fmap_cons; cbn [mjoin list_join app]; f_equal. Qed.

Lemma trim_plain (s : bytes) : Forall plain_char s -> trim s = s.
Proof.
  intros Hs. unfold trim. rewrite utf8_chars_ascii; [|done|].
  2:{ eapply Forall_impl; [done|]. by intros b []. }
  rewrite skip_plain, <- fmap_reverse, skip_plain, <- fmap_reverse, reverse_involutive.
  - apply join_singletons.
  - by apply Forall_reverse.
  - done.
Qed.

Lemma hex_pairs_encode b : hex_pairs (b ≫= (fun x => bytes_of_string (fmt_hex2 x))) = Some b.
Proof.
  induction b as [|x b IH]; [done|]. cbn [mbind list_bind]. rewrite bytes_of_hex. cbn [app hex_pairs].
  rewrite IH. by destruct x.
Qed.

Lemma length_hex b : length (b ≫= (fun x => bytes_of_string (fmt_hex2 x))) = (2 * length b)%nat.
Proof. induction b as [|x b IH]; [done|]. cbn [mbind list_bind]. rewrite length_app, IH, bytes_of_hex. simpl. lia. Qed.

Lemma hex_roundtrip b : hex_to_bytes (bytes_to_hex b) = Some b.
Proof.
  unfold hex_to_bytes, bytes_to_hex. rewrite bytes_of_hex_encode, trim_plain.
  - unfold blen. rewrite length_hex, (proj2 (Z.eqb_eq _ _)); [apply hex_pairs_encode|].
    rewrite Nat2Z.inj_mul, Z.mul_comm. apply Z.mod_mul. lia.
  - induction b; [constructor|]. cbn [mbind list_bind]. apply Forall_app. split; [apply hex2_plain|done].
Qed.

(** ** The scan *)

Section ScanLaws.
Context {R S : Type} (parse : bytes -> option R) (apply : nat -> R -> S -> Outcome JournalError S).
Implicit Types (s : S) (rs : list R) (ts : list bytes).

(** Text that stands for a record. *)
Definition record_text (r : R) (t : bytes) : Prop := json_object t /\ parse t = Some r.

(** A file of complete lines. *)
Definition lines_of (ts : list bytes) : bytes := ts ≫= (fun t => t ++ [newline]).

(** What the records do, in order. *)
Fixpoint apply_all (idx : nat) (rs : list R) (s : S) : Outcome JournalError S :=
  match rs with
  | [] => Ok s
  | r :: rs' => s ← apply idx r s; apply_all (Datatypes.S idx) rs' s
  end.

Lemma apply_all_snoc idx rs r s :
  apply_all idx (rs ++ [r]) s = (s ← apply_all idx rs s; apply (idx + length rs) r s).
Proof.
  revert idx s. induction rs as [|r' rs IH]; intros idx s; cbn [app apply_all length].
  - rewrite Nat.add_0_r. cbn [mbind outcome_bind]. by destruct (apply idx r s).
  - destruct (apply idx r' s) as [s'| | |]; [|done..]. cbn [mbind outcome_bind].
    rewrite IH. by rewrite Nat.add_succ_r.
Qed.

Lemma lines_of_cons t ts : lines_of (t :: ts) = t ++ newline :: lines_of ts.
Proof. unfold lines_of. cbn [mbind list_bind]. by rewrite <- app_assoc. Qed.

Lemma lines_of_snoc ts t : lines_of (ts ++ [t]) = lines_of ts ++ t ++ [newline].
Proof. unfold lines_of. rewrite bind_app. cbn [mbind list_bind]. by rewrite app_nil_r. Qed.

Lemma scan_line_record idx r t s : record_text r t -> scan_line parse apply idx t s = apply idx r s.
Proof.
  intros [Ht Hp]. unfold scan_line. pose proof Ht as (Hu & _). rewrite Hu. cbn [or_err mbind outcome_bind].
  rewrite trim_object by done. pose proof (object_not_nil _ Ht). destruct t as [|c t]; [done|].
  by rewrite Hp.
Qed.

Lemma scan_lines_step fuel idx valid t rest s : newline ∉ t ->
  scan_lines parse apply (Datatypes.S fuel) idx valid (t ++ newline :: rest) s =
    (s ← scan_line parse apply idx t s;
     scan_lines parse apply fuel (Datatypes.S idx) (valid ++ t ++ [newline]) rest s).
Proof.
  intros Ht. cbn [scan_lines]. rewrite split_line_at by done. by destruct (t ++ newline :: rest) eqn:Hnil; [destruct t|].
Qed.

(** Complete lines are applied in order and kept. *)
Lemma scan_lines_records fuel idx valid rs ts rest s :
  Forall2 record_text rs ts ->
  scan_lines parse apply (length rs + fuel) idx valid (lines_of ts ++ rest) s =
    (s' ← apply_all idx rs s;
     scan_lines parse apply fuel (idx + length rs) (valid ++ lines_of ts) rest s').
Proof.
  intros Hrs. revert idx valid s. induction Hrs as [|r t rs ts Hr Hrs IH]; intros idx valid s.
  - cbn [lines_of mbind list_bind app apply_all length plus outcome_bind]. unfold lines_of. cbn [mbind list_bind].
    by rewrite app_nil_r, Nat.add_0_r.
  - rewrite lines_of_cons, <- app_assoc. cbn [length plus app apply_all].
    rewrite scan_lines_step by apply Hr. rewrite (scan_line_record idx r) by done.
    destruct (apply idx r s) as [s'| | |]; [|done..]. cbn [mbind outcome_bind]. rewrite IH.
    by rewrite <- !app_assoc, Nat.add_succ_r.
Qed.

Lemma length_lines ts : (length ts <= length (lines_of ts))%nat.
Proof. induction ts as [|t ts IH]; [done|]. rewrite lines_of_cons, length_app. simpl. lia. Qed.

Lemma scan_file_records rs ts rest s :
  Forall2 record_text rs ts ->
  exists fuel, (length rest <= fuel)%nat /\
  scan_file parse apply (lines_of ts ++ rest) s =
    (s' ← apply_all 0 rs s; scan_lines parse apply fuel (length rs) (lines_of ts) rest s').
Proof.
  intros Hrs. unfold scan_file. pose proof (Forall2_length _ _ _ Hrs) as Hl. pose proof (length_lines ts).
  exists (length (lines_of ts ++ rest) - length rs)%nat. rewrite length_app. split; [lia|].
  replace (length (lines_of ts) + length rest)%nat
    with (length rs + (length (lines_of ts) + length rest - length rs))%nat at 1 by lia.
  by rewrite scan_lines_records.
Qed.

(** A file that was closed properly. *)
Lemma scan_complete rs ts s : Forall2 record_text rs ts ->
  scan_file parse apply (lines_of ts) s = (s' ← apply_all 0 rs s; Ok (mkScan s' (lines_of ts) 0)).
Proof.
  intros Hrs. destruct (scan_file_records rs ts [] s Hrs) as (fuel & _ & Heq).
  rewrite app_nil_r in Heq. rewrite Heq. by destruct fuel.
Qed.

Lemma scan_lines_tail fuel idx valid t s : newline ∉ t -> t <> [] -> (length t <= fuel)%nat ->
  scan_lines parse apply fuel idx valid t s = scan_tail parse apply idx valid t s.
Proof.
  intros Hn Ht Hf. destruct t as [|c t]; [done|]. destruct fuel as [|fuel]; [simpl in Hf; lia|].
  cbn [scan_lines]. by rewrite split_line_none.
Qed.

(** A file whose last line was cut short: the tail is dropped. *)
Lemma scan_torn rs ts t p c q s : Forall2 record_text rs ts ->
  json_object t -> t = p ++ c :: q -> p <> [] ->
  (forall p' c' q', t = p' ++ c' :: q' -> parse p' = None) ->
  scan_file parse apply (lines_of ts ++ p) s = (s' ← apply_all 0 rs s; Ok (mkScan s' (lines_of ts) 1)).
Proof.
  intros Hrs Ht -> Hp Htorn. destruct (scan_file_records rs ts p s Hrs) as (fuel & Hf & ->).
  destruct (apply_all 0 rs s) as [s'| | |]; [|done..]. cbn [mbind outcome_bind].
  destruct Ht as (_ & Hn & mid & Hmid).
  rewrite scan_lines_tail; [|intros Hin; apply Hn, elem_of_app; by left|done|done].
  destruct p as [|b p]; [done|]. cbn [app] in Hmid. injection Hmid as -> Hmid.
  unfold scan_tail. destruct (from_utf8 (open_brace :: p)) as [text|] eqn:Hu; [|done].
  assert (text = open_brace :: p) as ->. { unfold from_utf8 in Hu. by destruct (utf8_chars _ _); simplify_eq. }
  destruct (trim_braced p Hu) as (p1 & suf & -> & ->).
  destruct suf as [|x suf].
  - rewrite (Htorn (open_brace :: p1) c q); [done|]. by rewrite app_nil_r.
  - rewrite (Htorn (open_brace :: p1) x (suf ++ c :: q)); [done|]. cbn [app]. by rewrite <- app_assoc.
Qed.

(** A file whose last record lacks only its newline: the record counts. *)
Lemma scan_unterminated rs ts r t s : Forall2 record_text rs ts -> record_text r t ->
  scan_file parse apply (lines_of ts ++ t) s =
    (s' ← apply_all 0 (rs ++ [r]) s; Ok (mkScan s' (lines_of (ts ++ [t])) 0)).
Proof.
  intros Hrs Hr. destruct (scan_file_records rs ts t s Hrs) as (fuel & Hf & ->).
  rewrite apply_all_snoc. destruct (apply_all 0 rs s) as [s'| | |]; [|done..]. cbn [mbind outcome_bind plus].
  destruct Hr as [Ht Hp]. pose proof Ht as (Hu & Hn & _). pose proof (object_not_nil t Ht) as Hne.
  rewrite scan_lines_tail by done. unfold scan_tail. rewrite Hu, trim_object by done.
  destruct t as [|b t]; [done|]. rewrite Hp. by rewrite lines_of_snoc.
Qed.

(** What a crash can leave of a file: its first lines, and possibly a part of
    the next one. *)
Lemma prefix_of_lines ts p : p `prefix_of` lines_of ts ->
  exists k q, p = lines_of (take k ts) ++ q /\
    (q = [] \/ q <> [] /\ exists t, ts !! k = Some t /\ q `prefix_of` t).
Proof.
  revert p. induction ts as [|t ts IH]; intros p Hp.
  - apply prefix_nil_inv in Hp as ->. exists 0%nat, []. split; [done|by left].
  - rewrite lines_of_cons in Hp. destruct Hp as [suf Hp].
    destruct (app_eq_inv _ _ _ _ Hp) as [(q & -> & Hq)|(q & -> & Hq)].
    + exists 0%nat, p. split; [done|]. destruct p as [|b p]; [by left|]. right. split; [done|].
      exists ((b :: p) ++ q). split; [done|by exists q].
    + destruct q as [|x q].
      * rewrite app_nil_r. exists 0%nat, t. split; [done|]. destruct t as [|b t]; [by left|].
        right. split; [done|]. by exists (b :: t).
      * injection Hq as <- Hq. destruct (IH q) as (k & q' & -> & Hor); [by exists suf|].
        exists (Datatypes.S k), q'. cbn [take]. rewrite lines_of_cons, <- app_assoc. by split.
Qed.

End ScanLaws.

(** Recovery after a crash at any point of a write: the records of the
    complete lines (and of a last line that lacks only its newline) are
    applied, nothing else is, and the file is left as a journal of exactly
    those records, whatever applying a record means. *)
Lemma scan_crash {R} (parse : bytes -> option R) (rs : list R) (ts : list bytes) p :
  Forall2 (record_text parse) rs ts ->
  (forall t p' c q, t ∈ ts -> t = p' ++ c :: q -> parse p' = None) ->
  p `prefix_of` lines_of ts ->
  exists k skipped,
    (p = lines_of (take k ts) /\ skipped = 0%nat \/ p ++ [newline] = lines_of (take k ts) /\ skipped = 0%nat \/
     exists q c r, p = lines_of (take k ts) ++ q /\ ts !! k = Some (q ++ c :: r) /\ skipped = 1%nat) /\
    forall S (apply : nat -> R -> S -> Outcome JournalError S) s, scan_file parse apply p s =
      (s' ← apply_all apply 0 (take k rs) s; Ok (mkScan s' (lines_of (take k ts)) skipped)).
Proof.
  intros Hrs Htorn Hp. destruct (prefix_of_lines ts p Hp) as (k & q & -> & Hq).
  pose proof (Forall2_take _ _ _ k Hrs) as Hk. destruct Hq as [->|(Hne & t & Ht & [suf ->])].
  - exists k, 0%nat. rewrite app_nil_r. split; [by left|]. intros. by apply scan_complete.
  - destruct (Forall2_lookup_r _ _ _ _ _ Hrs Ht) as (r & Hr & Hrt). destruct suf as [|c suf].
    + rewrite app_nil_r in *. exists (Datatypes.S k), 0%nat.
      rewrite (take_S_r ts k q), (take_S_r rs k r) by done. split.
      { right. left. by rewrite lines_of_snoc, <- app_assoc. }
      intros. by apply scan_unterminated.
    + exists k, 1%nat. split.
      { right. right. by exists q, c, suf. }
      intros. apply (scan_torn _ _ _ _ (q ++ c :: suf) q c suf); [done|apply Hrt|done|done|].
      intros p' c' q' Heq. eapply Htorn; [|exact Heq]. by eapply list_elem_of_lookup_2.
Qed.

(** Lines that were on disk before the write are not lost by it. *)
Lemma crash_keeps ts ts2 k p :
  lines_of ts `prefix_of` p ->
  (p = lines_of (take k (ts ++ ts2)) \/ p ++ [newline] = lines_of (take k (ts ++ ts2)) \/
   exists q c r, p = lines_of (take k (ts ++ ts2)) ++ q /\ (ts ++ ts2) !! k = Some (q ++ c :: r)) ->
  (length ts <= k)%nat.
Proof.
  intros Hpre%prefix_length Hor. destruct (decide (length ts <= k)%nat) as [|Hk]; [done|exfalso].
  rewrite take_app_le, lookup_app_l in Hor by lia.
  destruct (lookup_lt_is_Some_2 ts k ltac:(lia)) as [t Ht]. rewrite Ht in Hor.
  rewrite <- (take_drop_middle ts k t Ht) in Hpre. unfold lines_of in Hpre at 1.
  rewrite bind_app, bind_cons, !length_app in Hpre. cbn [length] in Hpre. fold (lines_of (take k ts)) in Hpre.
  destruct Hor as [->|[Heq|(q & c & r & -> & [= ->])]].
  - lia.
  - rewrite <- Heq, !length_app in Hpre. simpl in Hpre. lia.
  - rewrite !length_app in Hpre. simpl in Hpre. lia.
Qed.

(** ** Instances for witnesses

    A syntax with a single text, a codec that knows one record, and one that
    knows none. *)
Definition demo_text : bytes := [open_brace; close_brace].

Definition demo_syntax : JsonSyntax.
Proof.
  refine {| json_text t := t = demo_text |}. intros t ->. split; [done|]. split; [|by exists []].
  unfold demo_text. by intros [?|[?|Hn%not_elem_of_nil]%elem_of_cons]%elem_of_cons.
Defined.

Definition one_json {A} (a : A) : @Json demo_syntax A.
Proof.
  refine {| to_vec _ := Some demo_text;
            from_str t := if decide (t = demo_text) then Some a else None;
            serialisable a' := a' = a |}.
  - intros a' ->. exists demo_text. by split_and!; [|done|rewrite decide_True].
  - intros t p c s -> Hp. rewrite decide_False; [done|]. intros ->. apply (f_equal length) in Hp.
    rewrite length_app in Hp. simpl in Hp. lia.
Defined.

Definition no_json {A} : @Json demo_syntax A.
Proof. refine {| to_vec _ := None; from_str _ := None; serialisable _ := False |}; [by intros|done]. Defined.
