(* ===== verification/Journal.v ===== *)
(** * The journals ([crates/rbmp-store/src/journal.rs])

    [BmpJournal] records every BMP message before it is applied, and every
    loss of a transport; replaying it into an empty RIB manager rebuilds the
    state after a crash.  [RibEventJournal] records the events.  A journal is
    the contents of its file; a crash may cut the last write short anywhere.
    Failures of the file system other than that are not modelled. *)

From Stdlib Require Import ZArith Lia ZifyBool.
From stdpp Require Import base numbers list option strings gmap fin_maps sets.
From S2P Require Import Prelude RustStd Crates HashMaps BgpTypes Nlri BgpAttributes BgpUpdate Capabilities.
From S2P Require Import BmpTypes BmpParser RibTable RibSession RibFilter RibEvent RibManager Jsonl.

Local Open Scope Z_scope.

(** Code without errors of its own, called from code that has some. *)
Definition infallible {E A} (o : RibM A) : Outcome E A :=
  match o with
  | Ok a => Ok a
  | Err e => match e with end
  | Panic => Panic
  | Diverge => Diverge
  end.

Section Records.
Context `{Chrono}.

Record ReplayReport := mkReplayReport {
  applied_messages : nat;
  skipped_truncated_tail : nat;
}.

Record JournalTransportGap := mkGap {
  gap_speaker_addr : IpAddr;
  gap_session_epoch : option Z;
  gap_disconnected_at : DateTime;
  gap_reason : string;
}.

Record BmpJournalObservation := mkObservation {
  obs_message : BmpMessage;
  obs_session_epoch : option Z;
  obs_raw_frame_hex : option string;
}.

Inductive BmpJournalControlRecord : Type :=
| TransportDisconnect (speaker_addr : IpAddr) (session_epoch : option Z) (disconnected_at : DateTime)
    (reason : string).

Inductive ParsedBmpJournalLine : Type :=
| Line_Observation (obs : BmpJournalObservation)
| Line_Control (ctrl : BmpJournalControlRecord).

(** ["\"record_kind\""]: the tag of a control record. *)
Definition record_kind : bytes := Byte.x22 :: bytes_of_string "record_kind" ++ [Byte.x22].

Definition parse_bmp_journal_line `{JsonSyntax} `{!Json BmpJournalObservation} `{!Json BmpJournalControlRecord} (line : bytes)
    : option ParsedBmpJournalLine :=
  match (if contains record_kind line then from_str (A := BmpJournalControlRecord) line else None) with
  | Some ctrl => Some (Line_Control ctrl)
  | None => Line_Observation <$> from_str (A := BmpJournalObservation) line
  end.

Definition not_stale_epoch (gap_epoch incoming_epoch : option Z) : bool :=
  match gap_epoch, incoming_epoch with
  | Some g, Some inc => g <=? inc
  | _, _ => true
  end.

Definition should_clear_transport_gap (gap_epoch incoming_epoch : option Z) (payload : BmpPayload) : bool :=
  if negb (not_stale_epoch gap_epoch incoming_epoch) then false
  else
    match payload with
    | Bmp_Termination _ _ => true
    | Bmp_RouteMonitoring _ update => is_some (eor_afi_safi update)
    | Bmp_Initiation _ _ _ | Bmp_PeerUp _ =>
        match gap_epoch, incoming_epoch with
        | Some g, Some inc => g <? inc
        | None, Some _ => true
        | _, None => false
        end
    | _ => false
    end.

End Records.

Section BmpJournal.
Context `{BytesBuf} `{IpNetCrate} `{BuildProfile} `{Chrono} `{HashOrder} `{IpNetContains}.
Context `{JsonSyntax} `{!Json BmpJournalObservation} `{!Json BmpJournalControlRecord}.

(** What a replay builds. *)
Record Replay := mkReplay {
  rp_rib : RibManager;
  rp_applied : nat;
  rp_events : list RibEvent;
  rp_gaps : gmap IpAddr JournalTransportGap;
  rp_contexts : gmap PeerKey BgpDecodeContext;
}.

Definition set_payload (p : BmpPayload) (msg : BmpMessage) : BmpMessage :=
  mkBmpMessage (msg_id msg) (msg_received_at msg) (msg_speaker_addr msg) p.

(** The context a captured frame is decoded with: that of its peer when it is a
    Route Monitoring frame with a per-peer header. *)
Definition frame_context {now : Clock} (contexts : gmap PeerKey BgpDecodeContext) (speaker : IpAddr) (frame : bytes)
    {E} : Outcome E BgpDecodeContext :=
  if 48 <=? blen frame then
    v ← idx frame 0;
    ty ← idx frame 5;
    if (v =? 3) && (ty =? 0) then
      rest ← slice_from frame 6;
      parsed ← result_ok (parse_peer_header rest);
      match parsed with
      | Some (hdr, _) =>
          Ok (default (context_new (flags_four_byte_asn (peer_flags hdr)))
                (contexts !! peer_key_from_header speaker hdr))
      | None => Ok default_context
      end
    else Ok default_context
  else Ok default_context.

(** The captured frame, decoded again when it can be. *)
Definition redecode {now : Clock} (contexts : gmap PeerKey BgpDecodeContext) (msg : BmpMessage)
    (raw : option string) {E} : Outcome E BmpMessage :=
  match raw ≫= hex_to_bytes with
  | Some frame =>
      ctx ← frame_context contexts (msg_speaker_addr msg) frame;
      payload ← result_ok (parse_bmp_message_with_context frame (msg_speaker_addr msg) DEFAULT_MAX_FRAME ctx);
      Ok (match payload with Some p => set_payload p msg | None => msg end)
  | None => Ok msg
  end.

(** A Peer Up decides how the peer's routes are decoded from then on. *)
Definition learn_context (msg : BmpMessage) (contexts : gmap PeerKey BgpDecodeContext)
    : gmap PeerKey BgpDecodeContext :=
  match msg_payload msg with
  | Bmp_PeerUp pu =>
      <[peer_key_from_header (msg_speaker_addr msg) (pu_peer_header pu) :=
        from_negotiated_open (flags_four_byte_asn (peer_flags (pu_peer_header pu)))
          (open_capabilities (pu_sent_open pu)) (open_capabilities (pu_recv_open pu))]> contexts
  | _ => contexts
  end.

Definition active_epoch (rib : RibManager) (speaker : IpAddr) : option Z :=
  (fun s => session_epoch (bs_source s)) <$> speaker_session rib speaker.

(** [Option::or_else] *)
Definition or_else {A} (a b : option A) : option A := match a with Some _ => a | None => b end.

Definition clear_gap (msg : BmpMessage) (epoch : option Z) (gaps : gmap IpAddr JournalTransportGap)
    : gmap IpAddr JournalTransportGap :=
  match gaps !! msg_speaker_addr msg with
  | Some gap => if should_clear_transport_gap (gap_session_epoch gap) epoch (msg_payload msg)
                then delete (msg_speaker_addr msg) gaps else gaps
  | None => gaps
  end.

(** [disc_ep < act_ep]: a disconnect of an older connection. *)
Definition stale_disconnect (session_epoch active : option Z) : bool :=
  match session_epoch, active with Some d, Some a => d <? a | _, _ => false end.

Definition apply_parsed_line {now : Clock} (parsed : ParsedBmpJournalLine) (st : Replay)
    : Outcome JournalError Replay :=
  match parsed with
  | Line_Observation obs =>
      msg ← redecode (rp_contexts st) (obs_message obs) (obs_raw_frame_hex obs);
      let contexts := learn_context msg (rp_contexts st) in
      let epoch := or_else (obs_session_epoch obs) (active_epoch (rp_rib st) (msg_speaker_addr msg)) in
      let gaps := clear_gap msg epoch (rp_gaps st) in
      '(rib, events) ← infallible (process_for_epoch (rp_rib st) msg (obs_session_epoch obs));
      Ok (mkReplay rib (S (rp_applied st)) (rp_events st ++ events) gaps contexts)
  | Line_Control (TransportDisconnect speaker_addr session_epoch disconnected_at reason) =>
      let active := active_epoch (rp_rib st) speaker_addr in
      if stale_disconnect session_epoch active then Ok st
      else
        let gap := mkGap speaker_addr (or_else session_epoch active) disconnected_at reason in
        Ok (mkReplay (clear_speaker_eor (rp_rib st) speaker_addr) (rp_applied st) (rp_events st)
              (<[speaker_addr := gap]> (rp_gaps st)) (rp_contexts st))
  end.

(** [clock n] is the instant at which line [n] is applied. *)
Definition replay_into_with_state (clock : nat -> DateTime) (raw : bytes) (rib : RibManager)
    : Outcome JournalError (bytes * Replay * ReplayReport) :=
  sc ← scan_file parse_bmp_journal_line (fun n => apply_parsed_line (now := clock n)) raw
         (mkReplay rib 0 [] ∅ ∅);
  Ok (sc_file sc, sc_state sc, mkReplayReport (rp_applied (sc_state sc)) (sc_skipped sc)).

Definition replay_into (clock : nat -> DateTime) (raw : bytes) (rib : RibManager)
    : Outcome JournalError (bytes * RibManager * ReplayReport) :=
  '(file, st, report) ← replay_into_with_state clock raw rib;
  Ok (file, rp_rib st, report).

(** ** Writing *)

(** A journal without a path discards what it is given. *)
Record BmpJournal := mkBmpJournal { bj_file : option bytes }.

(** [path] is [None] when none is configured and [Some None] when there is no file yet. *)
Definition bmp_journal_open (clock : nat -> DateTime) (path : option (option bytes)) : Outcome JournalError BmpJournal :=
  match path with
  | None => Ok (mkBmpJournal None)
  | Some None => Ok (mkBmpJournal (Some []))
  | Some (Some raw) =>
      '(file, _, _) ← replay_into_with_state clock raw rib_manager_new;
      Ok (mkBmpJournal (Some file))
  end.

Definition append_line {A} `{!Json A} (record : A) (j : BmpJournal) : Outcome JournalError BmpJournal :=
  match bj_file j with
  | Some file =>
      line ← or_err (to_vec record) Journal_Serialise;
      Ok (mkBmpJournal (Some (file ++ line ++ [newline])))
  | None => Ok j
  end.

Definition append_observation (j : BmpJournal) (msg : BmpMessage) (session_epoch : option Z)
    (raw_frame : option bytes) : Outcome JournalError BmpJournal :=
  append_line (mkObservation msg session_epoch (bytes_to_hex <$> raw_frame)) j.

Definition bmp_journal_append (j : BmpJournal) (msg : BmpMessage) : Outcome JournalError BmpJournal :=
  append_observation j msg None None.

Definition append_transport_disconnect (j : BmpJournal) (gap : JournalTransportGap)
    : Outcome JournalError BmpJournal :=
  append_line (TransportDisconnect (gap_speaker_addr gap) (gap_session_epoch gap) (gap_disconnected_at gap)
                 (gap_reason gap)) j.

End BmpJournal.

(** ** Recovery *)

(** How the two kinds of record tell each other apart: a control record carries
    its tag, and an observation has none, so it is not one. *)
Class JournalJson `{JsonSyntax} `{Chrono} `{!Json BmpJournalObservation} `{!Json BmpJournalControlRecord} := {
  control_tagged : forall (c : BmpJournalControlRecord) t, serialisable c -> to_vec c = Some t ->
    contains record_kind t = true;
  observation_untagged : forall (o : BmpJournalObservation) t, serialisable o -> to_vec o = Some t ->
    from_str (A := BmpJournalControlRecord) t = None;
}.

Section Recovery.
Context `{BytesBuf} `{IpNetCrate} `{BuildProfile} `{Chrono} `{HashOrder} `{IpNetContains}.
Context `{JsonSyntax} `{!Json BmpJournalObservation} `{!Json BmpJournalControlRecord} `{!JournalJson}.
Implicit Types (ls : list ParsedBmpJournalLine) (ts : list bytes).

(** The line that was written for a record. *)
Definition line_text (l : ParsedBmpJournalLine) (t : bytes) : Prop :=
  match l with
  | Line_Observation o => serialisable o /\ to_vec o = Some t
  | Line_Control c => serialisable c /\ to_vec c = Some t
  end.

Lemma to_vec_text {A} `{!Json A} (a : A) t : serialisable a -> to_vec a = Some t ->
  json_text t /\ from_str t = Some a.
Proof. intros Ha Ht. destruct (to_vec_ok a Ha) as (t' & Ht' & Hj & Hf). by simplify_eq. Qed.

Lemma line_text_json l t : line_text l t -> json_text t.
Proof. destruct l; intros [Hs Ht]; by apply (to_vec_text _ _ Hs Ht). Qed.

Lemma line_text_parses l t : line_text l t -> record_text parse_bmp_journal_line l t.
Proof.
  intros Hl. split; [by eapply json_text_object, line_text_json|]. unfold parse_bmp_journal_line.
  destruct l as [o|c]; destruct Hl as [Hs Ht]; destruct (to_vec_text _ _ Hs Ht) as [_ Hf].
  - assert ((if contains record_kind t then from_str (A := BmpJournalControlRecord) t else None) = None) as ->.
    { case_match; [|done]. by eapply observation_untagged. }
    by rewrite Hf.
  - by rewrite (control_tagged c), Hf.
Qed.

Lemma torn_line t p c q : json_text t -> t = p ++ c :: q -> parse_bmp_journal_line p = None.
Proof.
  intros Ht Heq. unfold parse_bmp_journal_line.
  rewrite (from_str_torn (A := BmpJournalControlRecord) t p c q), (from_str_torn (A := BmpJournalObservation) t p c q)
    by done. by destruct (contains record_kind p).
Qed.

(** The file of a journal that holds the records [ls]. *)
Definition journal_of ls (file : bytes) : Prop := exists ts, Forall2 line_text ls ts /\ file = lines_of ts.

(** What replaying records does to a manager. *)
Definition replay_lines (clock : nat -> DateTime) ls (rib : RibManager) : Outcome JournalError Replay :=
  apply_all (fun n => apply_parsed_line (now := clock n)) 0 ls (mkReplay rib 0 [] ∅ ∅).

Lemma replay_journal clock ls file rib : journal_of ls file ->
  replay_into_with_state clock file rib =
    (st ← replay_lines clock ls rib; Ok (file, st, mkReplayReport (rp_applied st) 0)).
Proof.
  intros (ts & Hts & ->). unfold replay_into_with_state.
  rewrite (scan_complete _ _ ls ts); [|by eapply Forall2_impl; [|apply line_text_parses]].
  unfold replay_lines. by destruct (apply_all _ 0 ls _).
Qed.

(** Appending keeps a journal a journal, with one more record. *)
Lemma append_line_journal {A} `{!Json A} (a : A) (l : ParsedBmpJournalLine) ls file :
  serialisable a -> (forall t, to_vec a = Some t -> line_text l t) -> journal_of ls file ->
  exists file', append_line a (mkBmpJournal (Some file)) = Ok (mkBmpJournal (Some file')) /\
    journal_of (ls ++ [l]) file' /\ file `prefix_of` file'.
Proof.
  intros Ha Hl (ts & Hts & ->). destruct (to_vec_ok a Ha) as (t & Ht & _).
  exists (lines_of ts ++ t ++ [newline]). unfold append_line. cbn [bj_file]. rewrite Ht. split_and!; [done| |by eexists].
  exists (ts ++ [t]). rewrite lines_of_snoc. split; [|done]. apply Forall2_app; [done|]. constructor; [by apply Hl|done].
Qed.

(** What a crash can leave of a journal, and what replaying it does. *)
Definition crash_of (ts : list bytes) (p : bytes) (k skipped : nat) : Prop :=
  p = lines_of (take k ts) /\ skipped = 0%nat \/
  p ++ [newline] = lines_of (take k ts) /\ skipped = 0%nat \/
  exists q c r, p = lines_of (take k ts) ++ q /\ ts !! k = Some (q ++ c :: r) /\ skipped = 1%nat.

Lemma journal_crash ls ts p : Forall2 line_text ls ts -> p `prefix_of` lines_of ts ->
  exists k skipped, crash_of ts p k skipped /\
    forall clock rib,
      replay_into_with_state clock p rib =
        (st ← replay_lines clock (take k ls) rib;
         Ok (lines_of (take k ts), st, mkReplayReport (rp_applied st) skipped)).
Proof.
  intros Hts Hp. assert (Forall2 (record_text parse_bmp_journal_line) ls ts) as Hrec
    by (eapply Forall2_impl; [done|apply line_text_parses]).
  assert (forall t p' c q, t ∈ ts -> t = p' ++ c :: q -> parse_bmp_journal_line p' = None) as Htorn.
  { intros t p' c q [i Hi]%list_elem_of_lookup_1 Heq.
    destruct (Forall2_lookup_r _ _ _ _ _ Hts Hi) as (l & _ & Hl). by eapply torn_line, Heq; eapply line_text_json. }
  destruct (scan_crash _ ls ts p Hrec Htorn Hp) as (k & skipped & Hor & Hscan).
  exists k, skipped. split; [exact Hor|]. intros clock rib. unfold replay_into_with_state. rewrite Hscan.
  unfold replay_lines. by destruct (apply_all _ 0 (take k ls) _).
Qed.

(** A crash loses at most the record being written.  Whatever prefix
    of the file of a journal reaches the disk, replaying it applies exactly the
    first records of the journal: all those whose line is complete, and a last
    one that lacks only its newline.  The file is repaired to the journal of
    those records, a torn rest is counted once, and replaying the repaired file
    gives the same result with nothing left to skip. *)
Theorem journal_crash_recovery ls ts p : Forall2 line_text ls ts -> p `prefix_of` lines_of ts ->
  exists k skipped, crash_of ts p k skipped /\
    forall clock rib,
      replay_into_with_state clock p rib =
        (st ← replay_lines clock (take k ls) rib;
         Ok (lines_of (take k ts), st, mkReplayReport (rp_applied st) skipped)) /\
      replay_into_with_state clock (lines_of (take k ts)) rib =
        (st ← replay_lines clock (take k ls) rib;
         Ok (lines_of (take k ts), st, mkReplayReport (rp_applied st) 0)).
Proof.
  intros Hts Hp. destruct (journal_crash ls ts p Hts Hp) as (k & skipped & Hc & Hr).
  exists k, skipped. split; [done|]. intros clock rib. split; [done|].
  apply replay_journal. exists (take k ts). split; [by apply Forall2_take|done].
Qed.

End Recovery.

Section JournalWitness.
#[local] Instance witness_bytes : BytesBuf := reference_bytes.
#[local] Instance witness_ipnet : IpNetCrate := reference_ipnet.
#[local] Instance witness_profile : BuildProfile := true.
#[local] Instance witness_chrono : Chrono := reference_chrono.
#[local] Instance witness_order : HashOrder := trie_order.
#[local] Instance witness_contains : IpNetContains := reference_contains.

Definition demo_initiation : BmpMessage :=
  mkBmpMessage (replicate 16 Byte.x07) 1000 demo_speaker (Bmp_Initiation (Some "r1"%string) None []).
Definition demo_observation : BmpJournalObservation := mkObservation demo_initiation (Some 1) None.

#[local] Instance witness_syntax : JsonSyntax := demo_syntax.
#[local] Instance witness_observations : Json BmpJournalObservation := one_json demo_observation.
#[local] Instance witness_controls : Json BmpJournalControlRecord := no_json.

Definition demo_journal_json : JournalJson.
Proof. split; [done|]. intros o t _ _. done. Defined.
#[local] Existing Instance demo_journal_json.

Lemma journal_crash_recovery_witness :
  exists k skipped, crash_of [demo_text] [open_brace] k skipped.
Proof.
  destruct (journal_crash_recovery [Line_Observation demo_observation] [demo_text] [open_brace]) as (k & sk & Hc & _).
  - constructor; [by split|constructor].
  - by exists [close_brace; newline].
  - by exists k, sk.
Defined.

End JournalWitness.
