(* ===== verification/EventJournal.v ===== *)
(** * The event journal ([RibEventJournal] of [crates/rbmp-store/src/journal.rs])

    The durable log of the events the manager emits, kept in memory as well:
    appending, reading back after a crash, and the queries on it. *)

From Stdlib Require Import ZArith Lia ZifyBool Sorted.
From stdpp Require Import base numbers list option strings gmap fin_maps sets.
From S2P Require Import Prelude RustStd Crates HashMaps BgpTypes Nlri BgpAttributes BmpTypes RibFilter RibEvent RibManager Jsonl.

Local Open Scope Z_scope.

(** ** Keys of routes as keys of maps *)

#[global] Instance view_direction_eq_dec : EqDecision ViewDirection.
Proof. solve_decision. Defined.
#[global] Instance view_key_eq_dec : EqDecision ViewKey.
Proof. solve_decision. Defined.
#[global] Instance route_key_eq_dec : EqDecision RouteKey.
Proof. solve_decision. Defined.

#[global] Instance view_direction_countable : Countable ViewDirection.
Proof.
  refine (inj_countable' (fun d => match d with View_Inbound => 0%nat | View_Outbound => 1%nat | View_Local => 2%nat end)
            (fun n => match n with 0%nat => View_Inbound | 1%nat => View_Outbound | _ => View_Local end) _).
  by intros [].
Defined.

#[global] Instance view_key_countable : Countable ViewKey.
Proof.
  refine (inj_countable' (fun k => (vk_peer k, vk_afi_safi k, vk_rib_type k, vk_direction k, vk_is_post_policy k, vk_is_filtered k))
            (fun '(a, b, c, d, e, f) => mkViewKey a b c d e f) _).
  by intros [].
Defined.

#[global] Instance route_key_countable : Countable RouteKey.
Proof.
  refine (inj_countable' (fun k => (rk_view k, rk_nlri k, rk_path_id k)) (fun '(a, b, c) => mkRouteKey a b c) _).
  by intros [].
Defined.

(** [Display] of the networks of the [ipnet] crate. *)
Class IpNetDisplay := {
  ipv4net_display : Ipv4Net -> string;
  ipv6net_display : Ipv6Net -> string;
}.

(** [Display for Prefix]: [None] is the panic of [labels[0]] on an empty stack. *)
Fixpoint prefix_to_string `{IpNetDisplay} (p : Prefix) : option string :=
  match p with
  | Prefix_V4 n => Some (ipv4net_display n)
  | Prefix_V6 n => Some (ipv6net_display n)
  | Prefix_Labeled prefix labels =>
      s ← prefix_to_string prefix;
      l ← labels !! 0%nat;
      Some (s ++ " label=" ++ fmt_dec l)%string
  | Prefix_Vpn rd prefix labels =>
      s ← prefix_to_string prefix;
      l ← labels !! 0%nat;
      Some (rd_to_string rd ++ ":" ++ s ++ " label=" ++ fmt_dec l)%string
  end.

(** [format!("{:?}", rib_type)] *)
Definition debug_rib_type (r : RibType) : string :=
  match r with
  | Rib_AdjRibInPrePolicy => "AdjRibInPrePolicy"
  | Rib_AdjRibInPostPolicy => "AdjRibInPostPolicy"
  | Rib_AdjRibOutPrePolicy => "AdjRibOutPrePolicy"
  | Rib_AdjRibOutPostPolicy => "AdjRibOutPostPolicy"
  | Rib_LocRib => "LocRib"
  | Rib_LocRibFiltered => "LocRibFiltered"
  end.

Section EventJournal.
Context `{Chrono} `{JsonSyntax} `{!Json RibEvent}.

Record RibEventJournal := mkEventJournal {
  ej_file : option bytes;
  ej_events : list RibEvent;
}.

(** [path]: as for the BMP journal. *)
Definition event_journal_open (path : option (option bytes)) : Outcome JournalError RibEventJournal :=
  match path with
  | None => Ok (mkEventJournal None [])
  | Some None => Ok (mkEventJournal (Some []) [])
  | Some (Some raw) =>
      sc ← scan_file (from_str (A := RibEvent)) (fun _ ev evs => Ok (evs ++ [ev])) raw [];
      Ok (mkEventJournal (Some (sc_file sc)) (sc_state sc))
  end.

Definition event_line (ev : RibEvent) : Outcome JournalError bytes :=
  t ← or_err (to_vec ev) Journal_Serialise; Ok (t ++ [newline]).

Definition append_batch (j : RibEventJournal) (events : list RibEvent) : Outcome JournalError RibEventJournal :=
  match events with
  | [] => Ok j
  | _ =>
      file ← match ej_file j with
             | Some file => buf ← mapM event_line events; Ok (Some (file ++ mjoin buf))
             | None => Ok None
             end;
      Ok (mkEventJournal file (ej_events j ++ events))
  end.

Definition event_journal_append (j : RibEventJournal) (ev : RibEvent) : Outcome JournalError RibEventJournal :=
  append_batch j [ev].

Definition event_seq (ev : RibEvent) : Z := ek_sequence (ev_event_key ev).

Definition existing_sequences (j : RibEventJournal) : gset Z := list_to_set (event_seq <$> ej_events j).

Definition latest_seq (j : RibEventJournal) : Z :=
  match last (ej_events j) with Some ev => event_seq ev | None => 0 end.

Definition total_events (j : RibEventJournal) : nat := length (ej_events j).

Definition events_after_seq (j : RibEventJournal) (after_seq : Z) (limit : nat) : list RibEvent :=
  take limit (base.filter (fun ev => after_seq < event_seq ev) (ej_events j)).

(** ** The history of a prefix *)

Record PrefixHistoryItem := mkHistoryItem {
  hi_sequence : Z;
  hi_event_id : bytes;
  hi_occurred_at : DateTime;
  hi_speaker_addr : IpAddr;
  hi_peer_addr : IpAddr;
  hi_peer_as : Z;
  hi_peer_distinguisher : string;
  hi_rib_type : string;
  hi_action : string;
  hi_prefix : string;
  hi_path_id : option Z;
  hi_before_attributes : option PathAttributes;
  hi_after_attributes : option PathAttributes;
}.

(** [if let Some(x) = filter { if !x.trim().is_empty() && text != x.trim() { continue; } }] *)
Definition passes (filter : option string) (text : string) : bool :=
  match filter with
  | Some x =>
      let t := trim (bytes_of_string x) in
      match t with [] => true | _ => bool_decide (bytes_of_string text = t) end
  | None => true
  end.

Definition action_string (a : RouteAction) : string :=
  match a with Route_Announce => "announce" | Route_Withdraw => "withdraw" end.

(** The attributes a route has after an event. *)
Definition attrs_after (c : RouteChange) : option PathAttributes :=
  match ch_action c with Route_Announce => ch_attributes c | Route_Withdraw => None end.

Definition history_item (ev : RibEvent) (c : RouteChange) (prefix : string) (before : option PathAttributes)
    : PrefixHistoryItem :=
  mkHistoryItem (event_seq ev) (ev_id ev) (ev_occurred_at ev) (ev_speaker ev)
    (peer_address (ch_peer_header c)) (peer_as (ch_peer_header c)) (distinguisher_string (ch_peer_key c))
    (debug_rib_type (ch_rib_type c)) (action_string (ch_action c)) prefix (ch_path_id c) before (attrs_after c).

Context `{IpNetDisplay}.

Definition history_step {E} (prefix : string) (speaker_filter vrf_rd_filter : option string) (ev : RibEvent)
    (st : gmap RouteKey (option PathAttributes) * list PrefixHistoryItem)
    : Outcome E (gmap RouteKey (option PathAttributes) * list PrefixHistoryItem) :=
  let '(last_attrs, items) := st in
  match ev_payload ev with
  | Event_RouteChange c =>
      pfx ← or_panic (prefix_to_string (ch_prefix c));
      let prev := mjoin (last_attrs !! ch_route_key c) in
      let last_attrs := <[ch_route_key c := attrs_after c]> last_attrs in
      if bool_decide (pfx <> prefix) then Ok (last_attrs, items)
      else if negb (passes speaker_filter (ip_to_string (ev_speaker ev))) then Ok (last_attrs, items)
      else if negb (passes vrf_rd_filter (distinguisher_string (ch_peer_key c))) then Ok (last_attrs, items)
      else Ok (last_attrs, items ++ [history_item ev c pfx prev])
  | _ => Ok (last_attrs, items)
  end.

Definition prefix_history_filtered {E} (j : RibEventJournal) (prefix : string)
    (speaker_filter vrf_rd_filter : option string) (limit : nat) : Outcome E (list PrefixHistoryItem) :=
  '(_, items) ← for_each (ej_events j) (history_step prefix speaker_filter vrf_rd_filter) (∅, []);
  Ok (take limit (reverse items)).

Definition prefix_history {E} (j : RibEventJournal) (prefix : string) (limit : nat)
    : Outcome E (list PrefixHistoryItem) :=
  prefix_history_filtered j prefix None None limit.

End EventJournal.

(** ** Durability *)

Section Durability.
Context `{Chrono} `{JsonSyntax} `{!Json RibEvent}.
Implicit Types (evs : list RibEvent) (ts : list bytes) (j : RibEventJournal).

Definition event_text (ev : RibEvent) (t : bytes) : Prop := serialisable ev /\ to_vec ev = Some t.

Lemma event_text_json ev t : event_text ev t -> json_text t /\ record_text (from_str (A := RibEvent)) ev t.
Proof.
  intros [Hs Ht]. destruct (to_vec_ok ev Hs) as (t' & Ht' & Hj & Hf). simplify_eq.
  split; [done|]. split; [by apply json_text_object|done].
Qed.

(** A journal on disk: the file holds the events, one line each. *)
Definition durable j : Prop := exists ts, Forall2 event_text (ej_events j) ts /\ ej_file j = Some (lines_of ts).

Lemma collect_events evs idx acc :
  apply_all (fun _ ev l => Ok (l ++ [ev])) idx evs acc = Ok (E := JournalError) (acc ++ evs).
Proof.
  revert idx acc. induction evs as [|ev evs IH]; intros idx acc; cbn [apply_all].
  - by rewrite app_nil_r.
  - rewrite bind_Ok, IH. by rewrite <- app_assoc.
Qed.

Lemma event_line_text ev t : event_text ev t -> event_line ev = Ok (t ++ [newline]).
Proof. intros [_ Ht]. unfold event_line. by rewrite Ht. Qed.

Lemma event_lines evs ts : Forall2 event_text evs ts ->
  mapM event_line evs = Ok ((fun t => t ++ [newline]) <$> ts).
Proof.
  induction 1 as [|ev t evs ts Ht Hts IH]; [done|]. cbn [mapM]. by rewrite (event_line_text _ _ Ht), bind_Ok, IH.
Qed.

Lemma serialisable_texts evs : Forall serialisable evs -> exists ts, Forall2 event_text evs ts.
Proof.
  induction 1 as [|ev evs Hev _ [ts Hts]]; [by exists []|].
  destruct (to_vec_ok ev Hev) as (t & Ht & _). exists (t :: ts). by constructor.
Qed.

Lemma append_batch_durable j evs : durable j -> Forall serialisable evs ->
  exists j', append_batch j evs = Ok j' /\ durable j' /\ ej_events j' = ej_events j ++ evs.
Proof.
  intros (ts & Hts & Hf) Hs. destruct evs as [|ev evs].
  { exists j. rewrite app_nil_r. split_and!; [done| |done]. by exists ts. }
  destruct (serialisable_texts _ Hs) as [ts' Hts']. unfold append_batch.
  rewrite Hf, (event_lines _ _ Hts'), !bind_Ok. eexists. split; [done|]. split; [|done].
  exists (ts ++ ts'). cbn [ej_events ej_file]. split; [by apply Forall2_app|]. f_equal.
  unfold lines_of. rewrite bind_app. f_equal. clear. induction ts' as [|t ts' IH]; [done|].
  rewrite bind_cons, fmap_cons. cbn [mjoin list_join]. by f_equal.
Qed.

Lemma open_durable j : durable j -> event_journal_open (Some (ej_file j)) = Ok j.
Proof.
  intros (ts & Hts & Hf). destruct j as [file evs]. simpl in *. subst file. unfold event_journal_open.
  rewrite (scan_complete _ _ evs ts), collect_events; [done|].
  eapply Forall2_impl; [done|]. intros ev t Ht. by apply event_text_json.
Qed.

Lemma event_texts_unique evs ts ts' : Forall2 event_text evs ts -> Forall2 event_text evs ts' -> ts = ts'.
Proof.
  intros Hts. revert ts'. induction Hts as [|ev t evs ts [_ Ht] _ IH]; intros ts' Hts'.
  - by apply Forall2_nil_inv_l in Hts' as ->.
  - apply Forall2_cons_inv_l in Hts' as (t' & ts2 & [_ Ht'] & Hts' & ->). simplify_eq. by rewrite (IH ts2).
Qed.

(** Opening what a crash left of a file. *)
Lemma open_crash evs ts p : Forall2 event_text evs ts -> p `prefix_of` lines_of ts ->
  exists k jp, event_journal_open (Some (Some p)) = Ok jp /\ durable jp /\
    ej_events jp = take k evs /\
    (default [] (ej_file jp) `prefix_of` p \/ default [] (ej_file jp) = p ++ [newline]) /\
    forall n, (exists tsn, tsn `prefix_of` ts /\ n = length tsn /\ lines_of tsn `prefix_of` p) -> (n <= k)%nat.
Proof.
  intros Hts Hp. destruct (scan_crash (from_str (A := RibEvent)) evs ts p) as (k & skipped & Hor & Hscan).
  - eapply Forall2_impl; [done|]. intros ev t Ht. by apply event_text_json.
  - intros t p' c q [i Hi]%list_elem_of_lookup_1 Heq.
    destruct (Forall2_lookup_r _ _ _ _ _ Hts Hi) as (ev & _ & Hev). eapply from_str_torn; [|done].
    by destruct (event_text_json _ _ Hev).
  - done.
  - exists k, (mkEventJournal (Some (lines_of (take k ts))) (take k evs)). cbn [ej_events ej_file default from_option id].
    split; [|split; [exists (take k ts); by split; [apply Forall2_take|]|split; [done|split]]].
    + unfold event_journal_open. rewrite Hscan, collect_events. done.
    + destruct Hor as [[-> _]|[[<- _]|(q & c & r & -> & _)]]; [by left|by right|left; by eexists].
    + intros n (tsn & [ts2 ->] & -> & Hpre). apply (crash_keeps tsn ts2 k p Hpre).
      destruct Hor as [[-> _]|[[Heq _]|(q & c & r & Heq & Hk & _)]]; [by left|by right; left|].
      right; right. by exists q, c, r.
Qed.

(** Events survive a restart and a crash.  Appending a batch to a
    journal on disk and opening the file gives the events before and after; and
    if the crash leaves only a part of the file, opening it gives the first
    events (every one whose line is complete) and repairs the file to a journal
    of exactly those. *)
Theorem event_journal_durable j evs j' p :
  durable j -> Forall serialisable evs -> append_batch j evs = Ok j' ->
  event_journal_open (Some (ej_file j')) = Ok j' /\ ej_events j' = ej_events j ++ evs /\
  (p `prefix_of` default [] (ej_file j') ->
   exists k jp, event_journal_open (Some (Some p)) = Ok jp /\ durable jp /\
     ej_events jp = take k (ej_events j') /\
     (default [] (ej_file jp) `prefix_of` p \/ default [] (ej_file jp) = p ++ [newline]) /\
     (default [] (ej_file j) `prefix_of` p -> (length (ej_events j) <= k)%nat)).
Proof.
  intros Hj Hs Happ. destruct (append_batch_durable j evs Hj Hs) as (j0 & Hj0 & Hd & Hev).
  rewrite Hj0 in Happ. injection Happ as ->. split_and!; [by apply open_durable|done|].
  intros Hp. destruct Hd as (ts & Hts & Hf). rewrite Hf in Hp. cbn [default from_option id] in Hp.
  destruct (open_crash (ej_events j') ts p Hts Hp) as (k & jp & Hopen & Hd & Hk & Hfile & Hlen).
  exists k, jp. split_and!; [done..|]. intros Hpre. apply Hlen.
  destruct Hj as (tsj & Htsj & Hfj). rewrite Hfj in Hpre. cbn [default from_option id] in Hpre.
  exists tsj. split; [|split; [by apply Forall2_length in Htsj|done]].
  rewrite Hev in Hts. apply Forall2_app_inv_l in Hts as (ts1 & ts2 & Hts1 & _ & ->).
  rewrite (event_texts_unique _ _ _ Htsj Hts1). by exists ts2.
Qed.

End Durability.

(** ** Queries *)

Section Queries.
Context `{Chrono} `{JsonSyntax} `{!Json RibEvent} `{IpNetDisplay}.
Implicit Types (evs : list RibEvent) (j : RibEventJournal).

Definition change_of (ev : RibEvent) : option RouteChange :=
  match ev_payload ev with Event_RouteChange c => Some c | _ => None end.

(** The attributes of a route before the next event, read off the events so far. *)
Definition attrs_before (evs : list RibEvent) (rk : RouteKey) : option PathAttributes :=
  mjoin (last (omap (fun ev => c ← change_of ev;
                               if decide (ch_route_key c = rk) then Some (attrs_after c) else None) evs)).

(** No empty label stack anywhere in a prefix. *)
Fixpoint labels_ok (p : Prefix) : Prop :=
  match p with
  | Prefix_V4 _ | Prefix_V6 _ => True
  | Prefix_Labeled p ls | Prefix_Vpn _ p ls => labels_ok p /\ ls <> []
  end.

Lemma prefix_prints p : labels_ok p -> is_Some (prefix_to_string p).
Proof.
  induction p as [| |p IH ls|rd p IH ls]; [by eexists..| |]; intros [Hp Hls]; destruct (IH Hp) as [s Hs];
    cbn [prefix_to_string]; rewrite Hs; (destruct ls; [done|by eexists]).
Qed.

(** The item an event contributes to the history of a prefix, if any. *)
Definition selects (prefix : string) (speaker_filter vrf_rd_filter : option string) (ev : RibEvent) (c : RouteChange) : Prop :=
  prefix_to_string (ch_prefix c) = Some prefix /\
  passes speaker_filter (ip_to_string (ev_speaker ev)) = true /\
  passes vrf_rd_filter (distinguisher_string (ch_peer_key c)) = true.

#[global] Instance selects_dec prefix sf vf ev c : Decision (selects prefix sf vf ev c).
Proof. unfold selects. apply _. Defined.

Definition item_at prefix sf vf evs (i : nat) : option PrefixHistoryItem :=
  ev ← evs !! i;
  c ← change_of ev;
  if decide (selects prefix sf vf ev c)
  then Some (history_item ev c prefix (attrs_before (take i evs) (ch_route_key c))) else None.

Definition items_of prefix sf vf evs : list PrefixHistoryItem := omap (item_at prefix sf vf evs) (seq 0 (length evs)).

Lemma attrs_before_snoc evs ev rk :
  attrs_before (evs ++ [ev]) rk =
    match change_of ev with
    | Some c => if decide (ch_route_key c = rk) then attrs_after c else attrs_before evs rk
    | None => attrs_before evs rk
    end.
Proof.
  unfold attrs_before. rewrite omap_app. cbn [omap list_omap].
  destruct (change_of ev) as [c|]; cbn [mbind option_bind]; [|by rewrite app_nil_r].
  case_decide; [by rewrite last_snoc|by rewrite app_nil_r].
Qed.

Lemma items_of_snoc prefix sf vf evs ev :
  items_of prefix sf vf (evs ++ [ev]) =
    items_of prefix sf vf evs ++ option_list (item_at prefix sf vf (evs ++ [ev]) (length evs)).
Proof.
  unfold items_of. rewrite length_app, Nat.add_1_r, seq_S, omap_app. f_equal.
  apply list_omap_ext. apply Forall_Forall2_diag, Forall_seq. intros i Hi. unfold item_at.
  rewrite lookup_app_l, take_app_le by lia. done.
Qed.

(** The loop keeps, for every route, its attributes after the events so far. *)
Lemma history_loop {E} prefix sf vf evs1 evs2 m :
  Forall (fun ev => forall c, change_of ev = Some c -> labels_ok (ch_prefix c)) evs2 ->
  (forall rk, mjoin (m !! rk) = attrs_before evs1 rk) ->
  exists m', for_each (E := E) evs2 (history_step prefix sf vf) (m, items_of prefix sf vf evs1) =
    Ok (m', items_of prefix sf vf (evs1 ++ evs2)).
Proof.
  revert evs1 m. induction evs2 as [|ev evs2 IH]; intros evs1 m Hok Hm.
  { exists m. by rewrite app_nil_r. }
  apply Forall_cons in Hok as [Hev Hok].
  assert (exists m1, history_step (E := E) prefix sf vf ev (m, items_of prefix sf vf evs1) =
            Ok (m1, items_of prefix sf vf (evs1 ++ [ev])) /\
            forall rk, mjoin (m1 !! rk) = attrs_before (evs1 ++ [ev]) rk) as (m1 & Hstep & Hm1).
  { rewrite items_of_snoc. unfold item_at. rewrite list_lookup_middle by done. cbn [mbind option_bind].
    setoid_rewrite attrs_before_snoc. unfold history_step, change_of in *.
    destruct (ev_payload ev) as [| | | |c| |]; try (exists m; rewrite app_nil_r; by split).
    destruct (prefix_prints _ (Hev c eq_refl)) as [s Hs].
    rewrite Hs. cbn [or_panic]. rewrite bind_Ok. exists (<[ch_route_key c := attrs_after c]> m). split.
    - cbn [mbind option_bind]. rewrite take_app_length, <- Hm.
      destruct (decide (selects prefix sf vf ev c)) as [(Hp & Ha & Hb)|Hn].
      + rewrite Hs in Hp. injection Hp as ->. by rewrite bool_decide_false, Ha, Hb by (intros Hne; by apply Hne).
      + cbn [option_list]. rewrite app_nil_r. case_bool_decide as Hne; [done|subst s].
        destruct (passes sf _) eqn:Ha, (passes vf _) eqn:Hb; try done. by destruct Hn.
    - intros rk. rewrite lookup_insert. case_decide; [done|apply Hm]. }
  cbn [for_each]. rewrite Hstep, bind_Ok. destruct (IH (evs1 ++ [ev]) m1 Hok Hm1) as [m' Hm'].
  exists m'. rewrite Hm'. by rewrite <- app_assoc.
Qed.

(** The history of a prefix is exact.  It lists, newest first and up to
    the limit, precisely the route changes of that prefix that pass the speaker
    and VRF filters; each shows the attributes the route had after the events
    before it and has after it.  (Label stacks are non-empty: the decoders only
    produce such.) *)
Theorem prefix_history_exact {E} j prefix sf vf limit :
  Forall (fun ev => forall c, change_of ev = Some c -> labels_ok (ch_prefix c)) (ej_events j) ->
  prefix_history_filtered (E := E) j prefix sf vf limit =
    Ok (take limit (reverse (items_of prefix sf vf (ej_events j)))).
Proof.
  intros Hok. unfold prefix_history_filtered.
  destruct (history_loop (E := E) prefix sf vf [] (ej_events j) ∅ Hok) as [m' Hm']; [done|].
  change (items_of prefix sf vf []) with (@nil PrefixHistoryItem) in Hm'. by rewrite Hm'.
Qed.

(** ** Reading the events in pages *)

(** Sequence numbers grow along the journal. *)
Definition seq_sorted evs : Prop := StronglySorted (fun a b => event_seq a < event_seq b) evs.

Lemma filter_after_sorted evs s : seq_sorted evs ->
  exists before, evs = before ++ base.filter (fun ev => s < event_seq ev) evs.
Proof.
  induction 1 as [|ev evs Hs [before IH] Hev]; [by exists []|].
  destruct (decide (s < event_seq ev)).
  - exists []. rewrite filter_cons_True by done. cbn [app]. f_equal. symmetry. apply filter_all.
    eapply Forall_impl; [done|]. simpl. lia.
  - exists (ev :: before). rewrite filter_cons_False by done. cbn [app]. by f_equal.
Qed.

Lemma filter_after_elem a x b : seq_sorted (a ++ x :: b) ->
  base.filter (fun ev => event_seq x < event_seq ev) (a ++ x :: b) = b.
Proof.
  intros Hs. rewrite filter_app, filter_cons_False by lia. induction a as [|y a IH]; cbn [app] in *.
  - rewrite filter_nil. inversion Hs; subst. cbn [app]. by apply filter_all.
  - inversion Hs as [|? ? Hs' Hy]; subst. apply IH in Hs'. rewrite filter_cons_False; [done|].
    apply Forall_app in Hy as [_ Hy]. inversion Hy; subst. lia.
Qed.

(** Pages compose.  In a journal whose sequence numbers increase,
    reading a page and then the next one from the last sequence number seen
    gives exactly the events one larger page holds: a reader that keeps its
    last sequence number misses no event and sees none twice. *)
Theorem events_pages j s n m :
  seq_sorted (ej_events j) -> (0 < n)%nat ->
  let page := events_after_seq j s n in
  let mark := match last page with Some ev => event_seq ev | None => s end in
  events_after_seq j s (n + m) = page ++ events_after_seq j mark m.
Proof.
  intros Hs Hn. cbn zeta. unfold events_after_seq. destruct (filter_after_sorted _ s Hs) as [before Heq].
  set (l := base.filter (fun ev => s < event_seq ev) (ej_events j)) in *. rewrite <- take_take_drop. f_equal. f_equal.
  destruct (last (take n l)) as [x|] eqn:Hx.
  - apply last_Some in Hx as [init Hinit].
    assert (ej_events j = (before ++ init) ++ x :: drop n l) as Hsplit.
    { etransitivity; [exact Heq|]. rewrite <- (take_drop n l) at 1. rewrite Hinit, <- !app_assoc. done. }
    rewrite Hsplit. symmetry. apply filter_after_elem. by rewrite <- Hsplit.
  - apply last_None in Hx. destruct n as [|n]; [lia|].
    assert (l = []) as Hl by (destruct l; [done|discriminate]). fold l. by rewrite Hl.
Qed.

End Queries.

Section EventJournalWitnesses.
#[local] Instance witness_chrono : Chrono := reference_chrono.

Definition demo_event (seq : Z) (action : RouteAction) : RibEvent :=
  mkRibEvent EVENT_SCHEMA_VERSION (event_key_new (observation_source_new demo_speaker 1) seq)
    (replicate 16 Byte.x07) 1000 demo_speaker
    (change_event action demo_hdr (peer_key_from_header demo_speaker demo_hdr) net_10_1_2 None
       (Some path_attributes_default)).

(** An announcement and the withdrawal of the route. *)
Definition demo_events : list RibEvent := [demo_event 1 Route_Announce; demo_event 2 Route_Withdraw].
Definition demo_journal : RibEventJournal := mkEventJournal None demo_events.

Definition demo_display : IpNetDisplay :=
  {| ipv4net_display _ := "10.1.2.0/24"%string; ipv6net_display _ := "::/0"%string |}.
#[local] Existing Instance demo_display.

#[local] Instance witness_syntax : JsonSyntax := demo_syntax.
#[local] Instance witness_events : Json RibEvent := one_json (demo_event 1 Route_Announce).

Lemma event_journal_durable_witness :
  exists k jp, event_journal_open (Some (Some demo_text)) = Ok jp /\ ej_events jp = take k [demo_event 1 Route_Announce].
Proof.
  pose proof (event_journal_durable (mkEventJournal (Some []) []) [demo_event 1 Route_Announce]
    (mkEventJournal (Some (demo_text ++ [newline])) [demo_event 1 Route_Announce]) demo_text) as Hd.
  destruct Hd as (_ & _ & Hd); [by exists []|by constructor|reflexivity|].
  destruct Hd as (k & jp & Ho & _ & Hk & _); [by exists [newline]|]. by exists k, jp.
Defined.

Lemma prefix_history_exact_witness :
  hi_action <$> match prefix_history_filtered (E := Empty_set) demo_journal "10.1.2.0/24" None (Some " ") 5 with
                | Ok items => items | _ => [] end = ["withdraw"; "announce"]%string.
Proof.
  rewrite prefix_history_exact; [vm_compute; reflexivity|].
  repeat constructor; intros c Hc; injection Hc as <-; exact I.
Defined.

Lemma events_pages_witness :
  events_after_seq demo_journal 0 2 = [demo_event 1 Route_Announce] ++ events_after_seq demo_journal 1 1.
Proof.
  apply (events_pages demo_journal 0 1 1); [|lia]. repeat constructor.
Defined.

End EventJournalWitnesses.
