(* ===== verification/RoutingService.v ===== *)
(** * The routing service ([src/routing_service/mod.rs])

    The service composes the parts: a frame is decoded with the context of its
    peer, journalled, applied to the RIB manager, and the events are journalled
    in turn; the loss of a transport is recorded as a gap.  At start-up the BMP
    journal is replayed and the event journal is completed.  Calls are modelled
    one at a time: the interleavings of the awaits inside concurrent calls, and
    the HTTP handlers that print the state, are left out. *)

From Stdlib Require Import ZArith Lia ZifyBool Sorted.
From stdpp Require Import base numbers list option strings gmap fin_maps sets.
From S2P Require Import Prelude RustStd Crates CoreError HashMaps BgpTypes Nlri BgpAttributes BgpUpdate Capabilities.
From S2P Require Import BmpTypes BmpParser RibTable RibSession RibFilter RibEvent RibManager Jsonl Journal EventJournal.

Local Open Scope Z_scope.

(** [r.map_err(f)] *)
Definition map_err {E E' A} (f : E -> E') (o : Outcome E A) : Outcome E' A :=
  match o with
  | Ok a => Ok a
  | Err e => Err (f e)
  | Panic => Panic
  | Diverge => Diverge
  end.

(** ** Configuration *)

(** The paths are those of the state: they name files, whose contents are
    arguments of [new]. *)
Record RoutingServiceConfig := mkConfig {
  bmp_listen_addr : string;
  http_listen_addr : string;
  max_frame_bytes : Z;
  internal_service_token : option string;
}.

Definition validate (c : RoutingServiceConfig) : Outcome string unit :=
  if blank (bmp_listen_addr c) then Err "bmp_listen_addr must not be empty"%string
  else if blank (http_listen_addr c) then Err "http_listen_addr must not be empty"%string
  else if (max_frame_bytes c <? 6) || (16 * 1024 * 1024 <? max_frame_bytes c) then
    Err ("max_frame_bytes (" ++ fmt_dec (max_frame_bytes c) ++ ") must be between 6 and 16777216")%string
  else Ok tt.

Inductive ServiceError : Type :=
| Service_Config (message : string)
| Service_Journal (e : JournalError)
| Service_Parse (e : Error).

Section Service.
Context `{BytesBuf} `{IpNetCrate} `{BuildProfile} `{Chrono} `{HashOrder} `{IpNetContains}.
Context `{JsonSyntax} `{!Json BmpJournalObservation} `{!Json BmpJournalControlRecord} `{!Json RibEvent}.

(** A [TransportGapRecord] has the fields of a [JournalTransportGap]. *)
Record RoutingServiceState := mkService {
  sv_config : RoutingServiceConfig;
  sv_rib : RibManager;
  sv_bmp_journal : BmpJournal;
  sv_event_journal : RibEventJournal;
  sv_contexts : gmap PeerKey BgpDecodeContext;
  sv_gaps : gmap IpAddr JournalTransportGap;
}.

Definition set_bmp_journal (j : BmpJournal) (st : RoutingServiceState) : RoutingServiceState :=
  mkService (sv_config st) (sv_rib st) j (sv_event_journal st) (sv_contexts st) (sv_gaps st).
Definition set_event_journal (j : RibEventJournal) (st : RoutingServiceState) : RoutingServiceState :=
  mkService (sv_config st) (sv_rib st) (sv_bmp_journal st) j (sv_contexts st) (sv_gaps st).

(** ** Start-up *)

(** What is replayed from an existing BMP journal: the repaired file, the
    state, and the events the event journal lacks, which are appended to it. *)
Definition recover (clock : nat -> DateTime) (raw : bytes) (ej : RibEventJournal)
    : Outcome JournalError (bytes * Replay * RibEventJournal) :=
  '(file, st, _) ← replay_into_with_state clock raw rib_manager_new;
  let existing := existing_sequences ej in
  let missing := base.filter (fun ev => event_seq ev ∉ existing) (rp_events st) in
  ej ← append_batch ej missing;
  Ok (file, st, ej).

(** [RoutingServiceState::new]: [bmp_path] and [event_path] are as for the
    journals; the BMP journal is read twice, by the replay and when it is
    opened. *)
Definition service_new (clock clock' : nat -> DateTime) (config : RoutingServiceConfig)
    (bmp_path event_path : option (option bytes)) : Outcome ServiceError RoutingServiceState :=
  _ ← map_err Service_Config (validate config);
  ej ← map_err Service_Journal (event_journal_open event_path);
  '(bmp_path, st, ej) ←
    match bmp_path with
    | Some (Some raw) =>
        '(file, st, ej) ← map_err Service_Journal (recover clock raw ej);
        Ok (Some (Some file), st, ej)
    | _ => Ok (bmp_path, mkReplay rib_manager_new 0 [] ∅ ∅, ej)
    end;
  min_next ← checked_width 64 (latest_seq ej + 1);
  let rib := ensure_min_event_seq (rp_rib st) min_next in
  bj ← map_err Service_Journal (bmp_journal_open clock' bmp_path);
  Ok (mkService config rib bj ej (rp_contexts st) (rp_gaps st)).

(** ** Ingestion *)

(** An error leaves the state as far as it got. *)
Notation Ingest := (Outcome (ServiceError * RoutingServiceState)).

Definition ingest_bmp_message_internal (st : RoutingServiceState) (msg : BmpMessage) (epoch : option Z)
    (raw_frame : option bytes) : Ingest (RoutingServiceState * BmpMessage) :=
  bj ← map_err (fun e => (Service_Journal e, st)) (append_observation (sv_bmp_journal st) msg epoch raw_frame);
  let contexts := learn_context msg (sv_contexts st) in
  let speaker := msg_speaker_addr msg in
  let current_ep := or_else epoch (active_epoch (sv_rib st) speaker) in
  '(rib, emitted) ← infallible (process_for_epoch (sv_rib st) msg epoch);
  let effective_epoch := or_else current_ep (active_epoch rib speaker) in
  let gaps := clear_gap msg effective_epoch (sv_gaps st) in
  let st := mkService (sv_config st) rib bj (sv_event_journal st) contexts gaps in
  ej ← map_err (fun e => (Service_Journal e, st)) (append_batch (sv_event_journal st) emitted);
  Ok (set_event_journal ej st, msg).

Definition ingest_bmp_message (st : RoutingServiceState) (msg : BmpMessage) (epoch : option Z)
    : Ingest (RoutingServiceState * BmpMessage) :=
  ingest_bmp_message_internal st msg epoch None.

(** [id] is the fresh identifier and [now] the instant of the call. *)
Definition ingest_bmp_bytes {now : Clock} (id : bytes) (st : RoutingServiceState) (speaker : IpAddr)
    (epoch : option Z) (frame : bytes) : Ingest (RoutingServiceState * BmpMessage) :=
  ctx ← frame_context (sv_contexts st) speaker frame;
  payload ← map_err (fun e => (Service_Parse e, st))
              (parse_bmp_message_with_context frame speaker (max_frame_bytes (sv_config st)) ctx);
  ingest_bmp_message_internal st (mkBmpMessage id utc_now speaker payload) epoch (Some frame).

(** ** Transport loss *)

(** A journal that cannot take the record is ignored. *)
Definition record_transport_disconnect_for_epoch {now : Clock} (st : RoutingServiceState) (speaker : IpAddr)
    (epoch : option Z) (reason : string) : RoutingServiceState :=
  let active := active_epoch (sv_rib st) speaker in
  if stale_disconnect epoch active then st
  else
    let rib := clear_speaker_eor (sv_rib st) speaker in
    let gap := mkGap speaker (or_else epoch active) utc_now reason in
    let bj := match append_transport_disconnect (sv_bmp_journal st) gap with
              | Ok bj => bj
              | _ => sv_bmp_journal st
              end in
    mkService (sv_config st) rib bj (sv_event_journal st) (sv_contexts st) (<[speaker := gap]> (sv_gaps st)).

Definition record_transport_disconnect {now : Clock} (st : RoutingServiceState) (speaker : IpAddr) (reason : string)
    : RoutingServiceState :=
  record_transport_disconnect_for_epoch st speaker None reason.

(** A connection is accepted: a new epoch for its speaker. *)
Definition accept_connection {now : Clock} (st : RoutingServiceState) (speaker : IpAddr)
    : RibM (RoutingServiceState * Z) :=
  '(rib, epoch) ← open_speaker_session (sv_rib st) speaker utc_now;
  Ok (mkService (sv_config st) rib (sv_bmp_journal st) (sv_event_journal st) (sv_contexts st) (sv_gaps st), epoch).

(** ** Completeness *)

(** The loop over the peers of one speaker: [None] is the early return. *)
Fixpoint peers_complete (ps : list PeerSession) (any_peer all_complete : bool) : option (bool * bool) :=
  match ps with
  | [] => Some (any_peer, all_complete)
  | p :: ps' =>
      if bool_decide (ps_state p <> State_Up) then None
      else peers_complete ps' true (all_complete && negb (bool_decide (ps_eor_families p = ∅)))
  end.

Fixpoint speakers_complete (ss : list BmpSession) (any_peer all_complete : bool) : option (bool * bool) :=
  match ss with
  | [] => Some (any_peer, all_complete)
  | s :: ss' =>
      if bool_decide (bs_peers s = ∅) then speakers_complete ss' any_peer false
      else
        '(any_peer, all_complete) ← peers_complete (omap (fun k => bs_peers s !! k) (hash_keys (bs_peers s)))
                                      any_peer all_complete;
        speakers_complete ss' any_peer all_complete
  end.

Definition overall_completeness (st : RoutingServiceState) : string :=
  if negb (bool_decide (sv_gaps st = ∅)) then "gap"
  else
    let speakers := omap (fun a => speakers (sv_rib st) !! a) (hash_keys (speakers (sv_rib st))) in
    match speakers with
    | [] => "syncing"
    | _ =>
        match speakers_complete speakers false true with
        | None => "gap"
        | Some (any_peer, all_complete) =>
            if negb any_peer then "syncing"
            else if all_complete then "complete_for_observed_view" else "syncing"
        end
    end.

End Service.

(** ** Completeness *)

Section Completeness.
Context `{Chrono} `{BuildProfile} `{HashOrder} `{IpNetContains}.
Context `{JsonSyntax} `{!Json BmpJournalObservation} `{!Json BmpJournalControlRecord} `{!Json RibEvent}.
Implicit Types (st : RoutingServiceState) (ps : list PeerSession) (ss : list BmpSession).

(** The values of a map in the order it is iterated in. *)
Lemma elem_of_values {K V} `{Countable K} (m : gmap K V) v :
  v ∈ omap (fun k => m !! k) (hash_keys m) <-> exists k, m !! k = Some v.
Proof.
  rewrite list_elem_of_omap. split; [by intros (k & _ & Hk); exists k|].
  intros [k Hk]. exists k. split; [|done]. apply elem_of_hash_keys. by eexists.
Qed.

Lemma values_nil {K V} `{Countable K} (m : gmap K V) : omap (fun k => m !! k) (hash_keys m) = [] <-> m = ∅.
Proof.
  split.
  - intros Hn. apply map_empty. intros k. apply eq_None_not_Some. intros [v Hv].
    apply (not_elem_of_nil v). rewrite <- Hn. apply elem_of_values. by exists k.
  - intros ->. destruct (omap _ _) as [|v l] eqn:Hl; [done|].
    assert (v ∈ v :: l) as Hv by left. rewrite <- Hl in Hv. apply elem_of_values in Hv as [k Hk]. by rewrite lookup_empty in Hk.
Qed.

(** The peers of a session, as the loop meets them. *)
Definition peers_of (s : BmpSession) : list PeerSession := omap (fun k => bs_peers s !! k) (hash_keys (bs_peers s)).

Definition synced_peer (p : PeerSession) : bool := negb (bool_decide (ps_eor_families p = ∅)).

Lemma peers_complete_spec ps any all :
  peers_complete ps any all =
    if forallb (fun p => bool_decide (ps_state p = State_Up)) ps
    then Some (any || negb (bool_decide (ps = [])), all && forallb synced_peer ps) else None.
Proof.
  revert any all. induction ps as [|p ps IH]; intros any all; cbn [peers_complete forallb].
  - by rewrite orb_false_r, andb_true_r.
  - destruct (decide (ps_state p = State_Up)) as [Hu|Hu].
    + rewrite (bool_decide_false (ps_state p <> State_Up)) by (intros Hn; by apply Hn). rewrite (bool_decide_true (ps_state p = State_Up)) by done. rewrite IH. cbn [andb].
      case_match; [|done]. by rewrite orb_true_r, andb_assoc.
    + by rewrite (bool_decide_true (ps_state p <> State_Up)), (bool_decide_false (ps_state p = State_Up)) by done.
Qed.

Lemma speakers_complete_spec ss any all :
  speakers_complete ss any all =
    let ps := ss ≫= peers_of in
    if forallb (fun p => bool_decide (ps_state p = State_Up)) ps
    then Some (any || negb (bool_decide (ps = [])),
               all && forallb (fun s => negb (bool_decide (bs_peers s = ∅))) ss && forallb synced_peer ps)
    else None.
Proof.
  cbv zeta. revert any all. induction ss as [|s ss IH]; intros any all; cbn [speakers_complete forallb].
  - cbn. by rewrite orb_false_r, !andb_true_r.
  - rewrite bind_cons, !forallb_app. destruct (decide (bs_peers s = ∅)) as [He|He].
    + rewrite (bool_decide_true (bs_peers s = ∅)), IH by done. assert (peers_of s = []) as -> by exact (proj2 (values_nil _) He).
      cbn [app forallb andb negb]. rewrite andb_false_r. done.
    + rewrite (bool_decide_false (bs_peers s = ∅)), peers_complete_spec by done. fold (peers_of s).
      destruct (forallb _ (peers_of s)); cbn [andb]; [|done]. cbn [mbind option_bind]. rewrite IH.
      case_match; [|done]. f_equal. f_equal.
      * destruct (peers_of s) eqn:Hp; [by rewrite orb_false_r|]. cbn. by rewrite !orb_true_r.
      * cbn [negb andb]. destruct all, (forallb synced_peer (peers_of s)), (forallb synced_peer (ss ≫= peers_of)); 
          simpl; rewrite ?andb_false_r, ?andb_true_r; done.
Qed.

Lemma forallb_iff {A} (f : A -> bool) l : forallb f l = true <-> forall x, x ∈ l -> f x = true.
Proof. rewrite forallb_forall. by setoid_rewrite <- list_elem_of_In. Qed.

Lemma forallb_false {A} (f : A -> bool) l : forallb f l = false -> exists x, x ∈ l /\ f x = false.
Proof.
  induction l as [|x l IH]; [done|]. cbn [forallb]. destruct (f x) eqn:Hx.
  - intros (y & Hy & Hf)%IH. exists y. split; [by right|done].
  - intros _. exists x. split; [by left|done].
Qed.

(** A peer of some speaker. *)
Definition observed_peer st (p : PeerSession) : Prop :=
  exists a s k, speakers (sv_rib st) !! a = Some s /\ bs_peers s !! k = Some p.

Definition sessions st : list BmpSession := omap (fun a => speakers (sv_rib st) !! a) (hash_keys (speakers (sv_rib st))).

Lemma elem_of_all_peers st p : p ∈ (sessions st ≫= peers_of) <-> observed_peer st p.
Proof.
  rewrite list_elem_of_bind. unfold observed_peer, peers_of. setoid_rewrite elem_of_values.
  split; [intros (s & (k & Hk) & [a Ha]); by exists a, s, k|intros (a & s & k & Ha & Hk)].
  exists s. split; [by exists k|by exists a].
Qed.

(** What the service reports of its own completeness.  It says "gap"
    exactly when a transport was lost and not yet made up for, or a peer is not
    up; and "complete" exactly when there is no gap, some speaker is known,
    every speaker has peers, and every peer is up and has sent an End-of-RIB,
    in whatever order the maps are iterated. *)
Theorem overall_completeness_spec st :
  (overall_completeness st = "gap"%string <->
     sv_gaps st <> ∅ \/ exists p, observed_peer st p /\ ps_state p <> State_Up) /\
  (overall_completeness st = "complete_for_observed_view"%string <->
     sv_gaps st = ∅ /\ speakers (sv_rib st) <> ∅ /\
     (forall a s, speakers (sv_rib st) !! a = Some s -> bs_peers s <> ∅) /\
     (forall p, observed_peer st p -> ps_state p = State_Up /\ ps_eor_families p <> ∅)).
Proof.
  unfold overall_completeness. destruct (decide (sv_gaps st = ∅)) as [Hg|Hg].
  2:{ rewrite bool_decide_false by done. cbn [negb]. split; split; try done; [by left|by intros [? _]]. }
  rewrite bool_decide_true by done. cbn [negb]. fold (sessions st). rewrite speakers_complete_spec. cbv zeta.
  assert (forall p, p ∈ sessions st ≫= peers_of <-> observed_peer st p) as Hps by apply elem_of_all_peers.
  assert (sessions st = [] <-> speakers (sv_rib st) = ∅) as Hnil by apply values_nil.
  destruct (forallb (fun p => bool_decide (ps_state p = State_Up)) (sessions st ≫= peers_of)) eqn:Hup.
  - assert (forall p, observed_peer st p -> ps_state p = State_Up) as Hall.
    { intros p Hp. apply Hps in Hp. rewrite forallb_iff in Hup. specialize (Hup p Hp). by case_bool_decide. }
    split; [split; [|intros [?|(p & Hp & Hd)]; [done|by destruct (Hall p Hp)]]|].
    { cbn [orb andb]. intros Heq. exfalso. by repeat case_match. }
    destruct (sessions st) as [|s0 l] eqn:Hs; [by split; [|intros (_ & Hn & _); destruct Hn; apply Hnil]|].
    rewrite <- Hs in *. rewrite orb_false_l, andb_true_l, negb_involutive. split.
    + intros Heq. destruct (bool_decide _); [done|].
      destruct (forallb _ (sessions st)) eqn:H1x, (forallb synced_peer _) eqn:H2x; try done.
      rewrite forallb_iff in H1x. rewrite forallb_iff in H2x. split_and!; [done|by rewrite <- Hnil, Hs| |].
      * intros a s Ha. assert (s ∈ sessions st) as Hin by (apply elem_of_values; by exists a).
        specialize (H1x s Hin). by case_bool_decide.
      * intros p Hp. split; [by apply Hall|]. apply Hps in Hp. specialize (H2x p Hp). unfold synced_peer in H2x.
        by case_bool_decide.
    + intros (_ & _ & Hpeers & Heor).
      assert (exists p, observed_peer st p) as [p0 Hp0].
      { assert (s0 ∈ sessions st) as [a Ha]%elem_of_values by (rewrite Hs; left).
        destruct (map_choose (bs_peers s0)) as (k & p & Hk); [by eapply Hpeers|]. by exists p, a, s0, k. }
      rewrite bool_decide_false. 2:{ intros Hn. apply Hps in Hp0. rewrite Hn in Hp0. by apply not_elem_of_nil in Hp0. }
      rewrite (proj2 (forallb_iff _ (sessions st))), (proj2 (forallb_iff synced_peer _)); [done| |].
      * intros p Hp. apply Hps, Heor in Hp as [_ Hp]. unfold synced_peer. by rewrite bool_decide_false.
      * intros s [a Ha]%elem_of_values. by rewrite bool_decide_false by (by eapply Hpeers).
  - assert (exists p, observed_peer st p /\ ps_state p <> State_Up) as (p & Hp & Hd).
    { apply forallb_false in Hup as (p & Hp & Hd). exists p. rewrite Hps in Hp. by case_bool_decide. }
    assert (sessions st <> []) as Hne. { intros Hn. apply Hps in Hp. rewrite Hn in Hp. by apply not_elem_of_nil in Hp. }
    destruct (sessions st) as [|s0 l]; [done|]. split; split; try done.
    + intros _. right. by exists p.
    + intros (_ & _ & _ & Hx). by destruct (Hx p Hp).
Qed.

End Completeness.
