(* ===== verification/Recovery.v ===== *)
(** * Restarting the routing service

    A service that stops, or crashes in the middle of ingesting a message, and
    is started again on its two journals, is in exactly the state it was in:
    before or after the message.  This composes the parsers, the manager, the
    journals and the start-up of the service. *)

From Stdlib Require Import ZArith Lia ZifyBool Sorted.
From stdpp Require Import base numbers list option strings gmap fin_maps sets.
From S2P Require Import Prelude RustStd Crates CoreError HashMaps BgpTypes Nlri BgpAttributes BgpUpdate Capabilities.
From S2P Require Import BmpTypes BmpParser RibTable RibSession RibFilter RibEvent RibManager Jsonl Journal EventJournal RoutingService.

Local Open Scope Z_scope.

(** The leading computations of two programs, while they are the same. *)
Ltac same_binds :=
  repeat match goal with
         | |- mbind _ ?o = mbind _ ?o =>
             lazymatch o with checked_width _ _ => fail | _ => destruct o; [rewrite !bind_Ok|done..] end
         end.

(** ** Decoding a frame twice

    The clock is read only for a per-peer header whose timestamp [chrono]
    rejects. *)

Section Clock.
Context `{BytesBuf} `{IpNetCrate} `{BuildProfile} `{Chrono}.
Implicit Types (c : Clock) (buf frame : bytes).

Definition stamped (buf : bytes) : Prop :=
  is_Some (timestamp_opt (field 4 34 buf) (field 4 38 buf * 1000 mod 2 ^ 32)).

(** An Initiation or a Termination has no per-peer header. *)
Definition timed (frame : bytes) : Prop :=
  field 1 5 frame = 4 \/ field 1 5 frame = 5 \/ stamped (drop 6 frame).

Lemma parse_peer_header_clock c c' buf : stamped buf -> @parse_peer_header _ _ c buf = @parse_peer_header _ _ c' buf.
Proof.
  intros [t Ht]. unfold parse_peer_header. case_if; [done|]. unfold PEER_HEADER_LEN in *.
  rewrite !idx_value by lia. rewrite (be_at_value 4 buf 34), (be_at_value 4 buf 38) by lia.
  change (be (take (Z.to_nat 4) (drop (Z.to_nat 34) buf))) with (field 4 34 buf).
  change (be (take (Z.to_nat 4) (drop (Z.to_nat 38) buf))) with (field 4 38 buf).
  assert (checked_width (E := Error) 32 (field 4 38 buf * 1000) = Ok (field 4 38 buf * 1000 mod 2 ^ 32) \/
          checked_width (E := Error) 32 (field 4 38 buf * 1000) = Panic) as [Hck|Hck].
  { unfold checked_width. destruct ((0 <=? _) && _) eqn:Hr; [left; rewrite Z.mod_small by lia; done|].
    destruct overflow_checks; [by right|by left]. }
  all: rewrite !bind_Ok; same_binds; rewrite Hck, ?bind_Ok, ?Ht; done.
Qed.

Lemma parse_clock c c' frame speaker max ctx : timed frame ->
  @parse_bmp_message_with_context _ _ _ _ c frame speaker max ctx =
  @parse_bmp_message_with_context _ _ _ _ c' frame speaker max ctx.
Proof.
  intros Ht. unfold parse_bmp_message_with_context, parse_bmp_message_with_peer_context.
  destruct (validate_bmp_header frame max) as [[n ty]| | |] eqn:Hv; [|done..]. rewrite !bind_Ok.
  case_if; [done|]. case_if; [done|]. apply validate_bmp_header_iff in Hv as (Hl & _ & _ & Hn & Hty).
  unfold BMP_HEADER_LEN. rewrite slice_ok by lia. rewrite !bind_Ok.
  rewrite take_ge by (rewrite length_drop; unfold blen in *; lia). change (Z.to_nat 6) with 6%nat.
  destruct Ht as [Ht|[Ht|Ht]].
  1,2: rewrite Ht in Hty; by injection Hty as <-.
  destruct ty; try done; unfold parse_peer_up, parse_peer_down, parse_route_monitoring, parse_stats_report, parse_route_mirroring;
    by rewrite (parse_peer_header_clock c c').
Qed.

End Clock.
Section Redecode.
Context `{BytesBuf} `{IpNetCrate} `{BuildProfile} `{Chrono}.
Implicit Types (c : Clock) (frame : bytes).

(** A frame that was accepted is, at any other limit, accepted with the same
    payload or refused. *)
Lemma parse_other_limit c frame speaker max max' ctx payload :
  parse_bmp_message_with_context frame speaker max ctx = Ok payload ->
  parse_bmp_message_with_context frame speaker max' ctx = Ok payload \/
  exists e, parse_bmp_message_with_context frame speaker max' ctx = Err e.
Proof.
  unfold parse_bmp_message_with_context, parse_bmp_message_with_peer_context.
  intros ([n ty] & Hv & Hrest)%bind_Ok_inv.
  pose proof (wp_validate_bmp_header False frame max') as Hw.
  destruct (validate_bmp_header frame max') as [[n' ty']|e| |] eqn:Hv'; [|right; by exists e|done..].
  apply validate_bmp_header_iff in Hv as (_ & _ & Hn & _ & Hty), Hv' as (_ & _ & Hn' & _ & Hty').
  rewrite Hty in Hty'. rewrite Hn in Hn'. simplify_eq. left. exact Hrest.
Qed.

(** The context of a frame is the same whenever it is looked up. *)
Lemma frame_context_clock {E E'} c c' contexts speaker frame ctx : timed frame ->
  frame_context (now := c) contexts speaker frame (E := E) = Ok ctx ->
  frame_context (now := c') contexts speaker frame (E := E') = Ok ctx.
Proof.
  intros Ht. unfold frame_context. destruct (48 <=? blen frame) eqn:Hl; [|by intros [= <-]].
  rewrite !idx_value by lia. rewrite !bind_Ok. change (Z.to_nat 0) with 0%nat. change (Z.to_nat 5) with 5%nat.
  change (be (take 1 (drop 5 frame))) with (field 1 5 frame).
  destruct (_ =? 3); [|by intros [= <-]]. destruct (Z.eqb_spec (field 1 5 frame) 0) as [Hty|]; [|by intros [= <-]].
  cbn [andb]. unfold slice_from. rewrite !slice_ok by lia. rewrite !bind_Ok.
  rewrite take_ge by (rewrite length_drop; unfold blen in *; lia).
  destruct Ht as [Ht|[Ht|Ht]]; [lia..|]. rewrite (parse_peer_header_clock c c') by done.
  destruct (parse_peer_header (drop (Z.to_nat 6) frame)) as [[h rest]| | |]; cbn [result_ok];
    rewrite ?bind_Ok; by intros [= <-].
Qed.

(** Replaying a captured frame decodes it to what was ingested. *)
Lemma redecode_ingested {E E'} c c' contexts id at_ speaker frame max ctx payload : timed frame ->
  frame_context (now := c) contexts speaker frame (E := E) = Ok ctx ->
  @parse_bmp_message_with_context _ _ _ _ c frame speaker max ctx = Ok payload ->
  redecode (now := c') contexts (mkBmpMessage id at_ speaker payload) (Some (bytes_to_hex frame)) (E := E') =
    Ok (mkBmpMessage id at_ speaker payload).
Proof.
  intros Ht Hc Hp. unfold redecode. cbn [mbind option_bind msg_speaker_addr]. rewrite hex_roundtrip.
  rewrite (frame_context_clock c c' _ _ _ _ Ht Hc), bind_Ok. rewrite (parse_clock c c' _ _ _ _ Ht) in Hp.
  destruct (parse_other_limit c' _ _ _ DEFAULT_MAX_FRAME _ _ Hp) as [->|[e ->]]; done.
Qed.

End Redecode.

(** ** A service and its journals *)

Section Recovery.
Context `{BytesBuf} `{IpNetCrate} `{BuildProfile} `{Chrono} `{HashOrder} `{IpNetContains}.
Context `{JsonSyntax} `{!Json BmpJournalObservation} `{!Json BmpJournalControlRecord} `{!Json RibEvent} `{!JournalJson}.
Implicit Types (st : RoutingServiceState) (ls : list ParsedBmpJournalLine).

Definition events_of st : list RibEvent := ej_events (sv_event_journal st).
Definition bmp_file st : bytes := default [] (bj_file (sv_bmp_journal st)).
Definition event_file st : bytes := default [] (ej_file (sv_event_journal st)).

(** A service started on empty journals. *)
Definition fresh (config : RoutingServiceConfig) : RoutingServiceState :=
  mkService config rib_manager_new (mkBmpJournal (Some [])) (mkEventJournal (Some []) []) ∅ ∅.

(** The events can be written, and the sequence counter has not wrapped. *)
Definition storable st : Prop :=
  Forall serialisable (events_of st) /\ Z.of_nat (length (events_of st)) + 1 < 2 ^ 64.

(** The epoch of a call: that of a connection, or none, as in a request to the
    internal interface, when the speaker has a session. *)
Definition addressed st (speaker : IpAddr) (epoch : option Z) : Prop :=
  match epoch with
  | Some e => 0 <= e < 2 ^ 64
  | None => is_Some (speakers (sv_rib st) !! speaker)
  end.

(** One call to the service that is journalled: a frame or a message, or the
    loss of a transport.  The records it writes are serialisable. *)
Inductive live_step : RoutingServiceState -> RoutingServiceState -> Prop :=
| live_frame (c : Clock) id st speaker epoch frame st' msg :
    addressed st speaker epoch -> timed frame ->
    ingest_bmp_bytes id st speaker epoch frame = Ok (st', msg) ->
    serialisable (mkObservation msg epoch (Some (bytes_to_hex frame))) -> storable st' ->
    live_step st st'
| live_message st msg epoch st' msg' :
    addressed st (msg_speaker_addr msg) epoch ->
    ingest_bmp_message st msg epoch = Ok (st', msg') ->
    serialisable (mkObservation msg epoch None) -> storable st' ->
    live_step st st'
| live_disconnect (c : Clock) st speaker epoch reason :
    serialisable (TransportDisconnect speaker (or_else epoch (active_epoch (sv_rib st) speaker)) utc_now reason) ->
    live_step st (record_transport_disconnect_for_epoch st speaker epoch reason).

(** The journals describe the state. *)
Record synced ls st : Prop := mkSynced {
  sy_config : validate (sv_config st) = Ok tt;
  sy_file : exists file, sv_bmp_journal st = mkBmpJournal (Some file) /\ journal_of ls file;
  sy_replay : exists n, forall clock, replay_lines clock ls rib_manager_new =
                Ok (mkReplay (sv_rib st) n (events_of st) (sv_gaps st) (sv_contexts st));
  sy_durable : durable (sv_event_journal st);
  sy_healthy : healthy (sv_rib st);
  sy_next : next_event_seq (sv_rib st) = 1 + Z.of_nat (length (events_of st));
  sy_seqs : forall i ev, events_of st !! i = Some ev -> event_seq ev = 1 + Z.of_nat i;
}.

Lemma synced_fresh config : validate config = Ok tt -> synced [] (fresh config).
Proof.
  intros Hc. split; [done| | | |apply healthy_new|done|done].
  - exists []. split; [done|]. by exists [].
  - by exists 0%nat.
  - by exists [].
Qed.

Lemma replay_lines_snoc clock ls l rib :
  replay_lines clock (ls ++ [l]) rib =
    (st ← replay_lines clock ls rib; apply_parsed_line (now := clock (length ls)) l st).
Proof. unfold replay_lines. by rewrite apply_all_snoc. Qed.

Lemma map_err_Ok {E E' A} (f : E -> E') (o : Outcome E A) a : map_err f o = Ok a -> o = Ok a.
Proof. by destruct o; intros [= <-]. Qed.

Lemma append_batch_events j evs j' : append_batch j evs = Ok j' -> ej_events j' = ej_events j ++ evs.
Proof.
  unfold append_batch. destruct evs as [|ev evs]; [intros [= <-]; by rewrite app_nil_r|].
  intros (f & _ & [= <-])%bind_Ok_inv. done.
Qed.

(** A journal on disk is determined by its events. *)
Lemma durable_unique j j' : durable j -> durable j' -> ej_events j = ej_events j' -> j = j'.
Proof.
  intros (ts & Hts & Hf) (ts' & Hts' & Hf') Heq. destruct j as [f evs], j' as [f' evs']. simpl in *. subst.
  by rewrite (event_texts_unique _ _ _ Hts Hts').
Qed.

Lemma durable_prefix j j' evs : durable j -> durable j' -> ej_events j' = ej_events j ++ evs ->
  default [] (ej_file j) `prefix_of` default [] (ej_file j').
Proof.
  intros (ts & Hts & ->) (ts' & Hts' & ->) Heq. rewrite Heq in Hts'.
  apply Forall2_app_inv_l in Hts' as (ts1 & ts2 & Hts1 & _ & ->). rewrite (event_texts_unique _ _ _ Hts Hts1).
  cbn [default from_option id]. unfold lines_of. rewrite bind_app. by eexists.
Qed.

(** What one message adds to a log whose numbers start at one. *)
Lemma process_numbers m msg epoch m' evs len :
  healthy m -> (forall e, epoch = Some e -> 0 <= e < 2 ^ 64) -> process_for_epoch m msg epoch = Ok (m', evs) ->
  next_event_seq m = 1 + Z.of_nat len -> Z.of_nat (len + length evs) + 1 < 2 ^ 64 ->
  healthy m' /\ next_event_seq m' = 1 + Z.of_nat (len + length evs) /\
  forall i ev, evs !! i = Some ev -> event_seq ev = 1 + Z.of_nat (len + i).
Proof.
  intros (Hi & Hs & He) Hep Hp Hn Hb. pose proof (wp_process m msg epoch Hi Hs He Hep) as Hw. rewrite Hp in Hw.
  destruct Hw as (Hi' & He' & _ & src & Hlog). pose proof (logged_seq_ok _ (m, []) (m', evs) Hlog) as Hs'.
  destruct Hlog as (evs' & Hevs & _ & Hn' & Hev). cbn [fst snd app] in *. subst evs'. unfold blen in *.
  rewrite Hn, Z.mod_small in Hn' by lia. split_and!; [done..|lia|].
  intros i ev Hl. pose proof (lookup_lt_Some _ _ _ Hl). destruct (Hev i ev Hl) as [Hk _].
  unfold event_seq. rewrite Hk, Hn, Z.mod_small by lia. simpl. lia.
Qed.

(** What an ingestion that succeeds has done. *)
Lemma ingest_inv st msg epoch raw st' msg' : ingest_bmp_message_internal st msg epoch raw = Ok (st', msg') ->
  exists bj rib evs ej, append_observation (sv_bmp_journal st) msg epoch raw = Ok bj /\
    process_for_epoch (sv_rib st) msg epoch = Ok (rib, evs) /\
    append_batch (sv_event_journal st) evs = Ok ej /\ msg' = msg /\
    st' = mkService (sv_config st) rib bj ej (learn_context msg (sv_contexts st))
            (clear_gap msg (or_else (or_else epoch (active_epoch (sv_rib st) (msg_speaker_addr msg)))
                              (active_epoch rib (msg_speaker_addr msg))) (sv_gaps st)).
Proof.
  unfold ingest_bmp_message_internal. intros (bj & Hbj%map_err_Ok & Hin)%bind_Ok_inv. cbv zeta in Hin.
  apply bind_Ok_inv in Hin as ([rib evs] & Hp & Hin). apply bind_Ok_inv in Hin as (ej & Hej%map_err_Ok & [= <- <-]).
  exists bj, rib, evs, ej. split_and!; try done.
  by destruct (process_for_epoch (sv_rib st) msg epoch) as [[]|[]| |]; try done; injection Hp as -> ->.
Qed.

(** Ingesting a message keeps the journals in step, provided the line is
    replayed as the message. *)
Lemma synced_ingest ls st msg epoch raw st' msg' :
  synced ls st -> addressed st (msg_speaker_addr msg) epoch ->
  (forall c, redecode (now := c) (sv_contexts st) msg (bytes_to_hex <$> raw) (E := JournalError) = Ok msg) ->
  ingest_bmp_message_internal st msg epoch raw = Ok (st', msg') ->
  serialisable (mkObservation msg epoch (bytes_to_hex <$> raw)) -> storable st' ->
  msg' = msg /\ synced (ls ++ [Line_Observation (mkObservation msg epoch (bytes_to_hex <$> raw))]) st' /\
  sv_config st' = sv_config st /\ event_file st `prefix_of` event_file st'.
Proof.
  intros [Hcfg (file & Hbj & Hfile) (n & Hreplay) Hdur Hm Hnext Hseqs] Hep Hre Hin Hser [Hevs Hlen].
  set (obs := mkObservation msg epoch (bytes_to_hex <$> raw)) in *.
  assert (forall e, epoch = Some e -> 0 <= e < 2 ^ 64) as Hep' by by intros e ->.
  destruct (append_line_journal obs (Line_Observation obs) ls file Hser (fun t Ht => conj Hser Ht) Hfile)
    as (file' & Happ & Hfile' & _).
  apply ingest_inv in Hin as (bj & rib & evs & ej & Hobs & Hproc & Hej & -> & ->). split; [done|].
  unfold append_observation in Hobs. fold obs in Hobs. rewrite Hbj, Happ in Hobs. injection Hobs as <-.
  apply append_batch_events in Hej as Hall.
  unfold events_of, event_file in *. cbn [sv_event_journal set_event_journal sv_rib sv_gaps sv_contexts sv_config sv_bmp_journal] in *.
  rewrite Hall in *. rewrite length_app in Hlen.
  destruct (process_numbers _ _ _ _ _ _ Hm Hep' Hproc Hnext Hlen) as (Hm' & Hnext' & Hseqs').
  apply Forall_app in Hevs as [_ Hevs].
  destruct (append_batch_durable _ _ Hdur Hevs) as (ej' & Hej' & Hdur' & _). rewrite Hej in Hej'. injection Hej' as <-.
  split; [|split; [done|by apply (durable_prefix _ _ evs)]].
  split; unfold events_of; cbn [sv_event_journal set_event_journal sv_rib sv_gaps sv_contexts sv_config sv_bmp_journal];
    rewrite ?Hall, ?length_app; [done|by eexists| |done|done|done|].
  - exists (S n). intros clock. rewrite replay_lines_snoc, Hreplay, bind_Ok. cbn [apply_parsed_line].
    unfold obs. cbn [obs_message obs_session_epoch obs_raw_frame_hex rp_contexts rp_rib rp_gaps rp_events rp_applied].
    rewrite Hre, bind_Ok, Hproc. cbn [infallible]. rewrite bind_Ok.
    assert (forall x, or_else (or_else epoch (active_epoch (sv_rib st) (msg_speaker_addr msg))) x =
              or_else epoch (active_epoch (sv_rib st) (msg_speaker_addr msg))) as Hoe.
    { intros x. destruct epoch; [done|]. destruct Hep as [s Hs]. unfold active_epoch, speaker_session. by rewrite Hs. }
    by rewrite Hoe.
  - intros i ev. rewrite lookup_app. destruct (ej_events (sv_event_journal st) !! i) as [ev1|] eqn:Hi.
    + intros [= <-]. by apply Hseqs.
    + apply lookup_ge_None in Hi. intros Hl. rewrite (Hseqs' _ _ Hl). lia.
Qed.

Lemma synced_disconnect (c : Clock) ls st speaker epoch reason :
  synced ls st ->
  serialisable (TransportDisconnect speaker (or_else epoch (active_epoch (sv_rib st) speaker)) utc_now reason) ->
  let st' := record_transport_disconnect_for_epoch st speaker epoch reason in
  exists new, synced (ls ++ new) st' /\ (length new <= 1)%nat /\
    sv_config st' = sv_config st /\ event_file st `prefix_of` event_file st'.
Proof.
  intros Hsync Hser. cbv zeta. unfold record_transport_disconnect_for_epoch.
  set (active := active_epoch (sv_rib st) speaker) in *.
  destruct (stale_disconnect epoch active) eqn:Hstale.
  { exists []. rewrite app_nil_r. by split_and!; [|simpl; lia| |]. }
  destruct Hsync as [Hcfg (file & Hbj & Hfile) (n & Hreplay) Hdur Hm Hnext Hseqs].
  set (ctrl := TransportDisconnect speaker (or_else epoch active) utc_now reason) in *.
  destruct (append_line_journal ctrl (Line_Control ctrl) ls file Hser (fun t Ht => conj Hser Ht) Hfile)
    as (file' & Happ & Hfile' & _).
  unfold append_transport_disconnect. cbn [gap_speaker_addr gap_session_epoch gap_disconnected_at gap_reason].
  fold ctrl. rewrite Hbj, Happ. exists [Line_Control ctrl]. split_and!; [|simpl; lia|done|done].
  split; [done|by eexists| |done|by apply healthy_clear_eor|done|done].
  exists n. intros clock. rewrite replay_lines_snoc, Hreplay, bind_Ok. unfold ctrl. cbn [apply_parsed_line rp_rib].
  fold active. assert (stale_disconnect (or_else epoch active) active = false) as ->.
  { destruct epoch; [done|]. destruct active; [|done]. simpl. lia. }
  assert (or_else (or_else epoch active) active = or_else epoch active) as -> by (by destruct epoch, active).
  done.
Qed.

Lemma synced_step ls st st' : synced ls st -> live_step st st' ->
  exists new, synced (ls ++ new) st' /\ (length new <= 1)%nat /\
    sv_config st' = sv_config st /\ event_file st `prefix_of` event_file st'.
Proof.
  intros Hsync Hstep. destruct Hstep as [c id st speaker epoch frame st' msg Hep Ht Hin Hser Hst|
    st msg epoch st' msg' Hep Hin Hser Hst|c st speaker epoch reason Hser].
  - unfold ingest_bmp_bytes in Hin. apply bind_Ok_inv in Hin as (ctx & Hctx & Hin).
    apply bind_Ok_inv in Hin as (payload & Hp%map_err_Ok & Hin).
    assert (msg = mkBmpMessage id utc_now speaker payload) as ->.
    { by apply ingest_inv in Hin as (bj & rib & evs & ej & _ & _ & _ & -> & _). }
    set (msg := mkBmpMessage id utc_now speaker payload) in *.
    assert (forall c', redecode (now := c') (sv_contexts st) msg (bytes_to_hex <$> Some frame) (E := JournalError) = Ok msg)
      as Hre by (intros c'; exact (redecode_ingested c c' _ _ _ _ _ _ _ _ Ht Hctx Hp)).
    destruct (synced_ingest _ _ msg _ (Some frame) _ _ Hsync Hep Hre Hin Hser Hst) as (_ & Hs & Hc & Hpre).
    eexists. split_and!; [exact Hs|simpl; lia|done|done].
  - destruct (synced_ingest _ _ _ _ None _ _ Hsync Hep (fun _ => eq_refl) Hin Hser Hst) as (_ & Hs & Hc & Hpre).
    eexists. split_and!; [exact Hs|simpl; lia|done|done].
  - by apply synced_disconnect.
Qed.

Lemma synced_steps config st : validate config = Ok tt -> rtc live_step (fresh config) st ->
  exists ls, synced ls st /\ sv_config st = config.
Proof.
  intros Hc. assert (forall st0 ls0, synced ls0 st0 -> sv_config st0 = config -> rtc live_step st0 st ->
    exists ls, synced ls st /\ sv_config st = config) as Hgen.
  { intros st0 ls0 Hs Hcfg Hr. revert ls0 Hs Hcfg. induction Hr as [st1|st1 st2 st3 Hstep _ IH]; intros ls0 Hs Hcfg.
    - by exists ls0.
    - destruct (synced_step _ _ _ Hs Hstep) as (new & Hs' & _ & Hcfg' & _). apply (IH _ Hs'). by rewrite Hcfg'. }
  intros Hr. by apply (Hgen (fresh config) []); [apply synced_fresh| |].
Qed.

(** ** Starting again *)

(** The events that are on disk are recognised by their numbers. *)
Lemma missing_events j (evs : list RibEvent) k (base : Z) :
  (forall i ev, evs !! i = Some ev -> event_seq ev = base + Z.of_nat i) -> ej_events j = take k evs ->
  base.filter (fun ev => event_seq ev ∉ existing_sequences j) evs = drop k evs.
Proof.
  intros Hseq Hj. unfold existing_sequences. rewrite Hj. clear j Hj.
  set (known := list_to_set (event_seq <$> take k evs) : gset Z).
  transitivity (base.filter (fun ev => event_seq ev ∉ known) (take k evs ++ drop k evs)); [by rewrite take_drop|].
  rewrite filter_app. assert (base.filter (fun ev => event_seq ev ∉ known) (take k evs) = []) as ->.
  { apply filter_none, Forall_forall. intros ev Hev Hn. apply Hn, elem_of_list_to_set.
    by apply list_elem_of_fmap_2. }
  cbn [app]. apply filter_all, Forall_lookup_2. intros i ev Hi. rewrite lookup_drop in Hi. unfold known. rewrite elem_of_list_to_set, list_elem_of_fmap.
  intros (ev' & Heq & [j [Hj Hlt]%lookup_take_Some]%list_elem_of_lookup_1). apply Hseq in Hi, Hj. lia.
Qed.

Lemma durable_serialisable j : durable j -> Forall serialisable (ej_events j).
Proof.
  intros (ts & Hts & _). clear -Hts. induction Hts as [|ev t evs ts [Hs _] _ IH]; by constructor.
Qed.

(** A replay of what is on disk that applies the records of [st] and leaves
    the file as [st] has it. *)
Definition replays (p : bytes) ls st : Prop :=
  exists skipped, forall clock rib, replay_into_with_state clock p rib =
    (r ← replay_lines clock ls rib; Ok (bmp_file st, r, mkReplayReport (rp_applied r) skipped)).

Lemma replays_file ls st : synced ls st -> replays (bmp_file st) ls st.
Proof.
  intros [_ (file & Hbj & Hfile) _ _ _ _ _]. exists 0%nat. intros clock rib. unfold bmp_file. rewrite Hbj.
  by apply replay_journal.
Qed.

Lemma latest_seq_synced ls st : synced ls st -> latest_seq (sv_event_journal st) + 1 = next_event_seq (sv_rib st).
Proof.
  intros [_ _ _ _ _ -> Hseqs]. unfold latest_seq. fold (events_of st). rewrite last_lookup.
  destruct (events_of st !! pred (length (events_of st))) as [ev|] eqn:Hl.
  - apply lookup_lt_Some in Hl as Hlt. rewrite (Hseqs _ _ Hl). lia.
  - apply lookup_ge_None in Hl. lia.
Qed.

(** The journals rebuild the state. *)
Lemma restart clock clock' ls st p q : synced ls st -> replays p ls st -> q `prefix_of` event_file st ->
  service_new clock clock' (sv_config st) (Some (Some p)) (Some (Some q)) = Ok st.
Proof.
  intros Hsync [skipped Hrep] Hq. pose proof (latest_seq_synced _ _ Hsync) as Hlatest.
  pose proof (replays_file _ _ Hsync) as [sk' Hfile'].
  destruct Hsync as [Hcfg (file & Hbj & Hfile) (n & Hreplay) Hdur Hm Hnext Hseqs].
  pose proof Hdur as (ts & Hts & Hef). unfold event_file in Hq. rewrite Hef in Hq. cbn [default from_option id] in Hq.
  destruct (open_crash _ _ _ Hts Hq) as (k & jp & Hopen & Hdp & Hk & _).
  pose proof (durable_serialisable _ Hdur) as Hser. fold (events_of st) in *.
  destruct (append_batch_durable jp (drop k (events_of st)) Hdp) as (j' & Hj' & Hdj' & Hev').
  { by apply Forall_drop. }
  rewrite Hk, take_drop in Hev'. rewrite (durable_unique j' (sv_event_journal st)) in Hj' by done.
  unfold service_new. rewrite Hcfg. cbn [map_err]. rewrite bind_Ok, Hopen. cbn [map_err]. rewrite bind_Ok.
  unfold recover. rewrite Hrep, Hreplay, !bind_Ok. cbv zeta. cbn [rp_events rp_applied].
  rewrite (missing_events jp _ k 1 Hseqs Hk), Hj', bind_Ok. cbn [map_err]. rewrite !bind_Ok, Hlatest.
  destruct Hm as (_ & Hseq & _). unfold seq_ok in Hseq. unfold checked_width.
  rewrite (proj2 (Z.leb_le _ _)), (proj2 (Z.ltb_lt _ _)) by lia. cbn [andb]. rewrite bind_Ok.
  cbv zeta. cbn [rp_rib rp_contexts rp_gaps]. unfold ensure_min_event_seq. rewrite Z.ltb_irrefl.
  unfold bmp_journal_open. rewrite Hfile', Hreplay, !bind_Ok. cbn [map_err]. rewrite bind_Ok.
  unfold bmp_file. rewrite Hbj. cbn [bj_file default from_option id]. rewrite <- Hbj. by destruct st.
Qed.

(** What the disk can hold when the service stops between [st] and [st']: the
    record of the call is written first, and the events only when it is there. *)
Definition on_disk st st' (p q : bytes) : Prop :=
  bmp_file st `prefix_of` p /\ p `prefix_of` bmp_file st' /\
  (q `prefix_of` event_file st \/
   (p = bmp_file st' \/ p ++ [newline] = bmp_file st') /\ q `prefix_of` event_file st').

Lemma line_texts_unique ls ts ts' : Forall2 line_text ls ts -> Forall2 line_text ls ts' -> ts = ts'.
Proof.
  intros Hts. revert ts'. induction Hts as [|l t ls ts Ht _ IH]; intros ts' Hts'.
  - by apply Forall2_nil_inv_l in Hts' as ->.
  - apply Forall2_cons_inv_l in Hts' as (t' & ts2 & Ht' & Hts' & ->). rewrite (IH ts2) by done.
    destruct l; destruct Ht as [_ Ht], Ht' as [_ Ht']; by simplify_eq.
Qed.

(** A crash that keeps only the old records has not written the new one. *)
Lemma crash_incomplete ts t p skipped : t <> [] -> crash_of (ts ++ [t]) p (length ts) skipped ->
  p <> lines_of (ts ++ [t]) /\ p ++ [newline] <> lines_of (ts ++ [t]).
Proof.
  intros Ht Hc. rewrite lines_of_snoc. unfold crash_of in Hc. rewrite take_app_length in Hc.
  rewrite lookup_app_r, Nat.sub_diag in Hc by done. simpl in Hc.
  assert (length t <> 0)%nat as Hlen by (by destruct t).
  destruct Hc as [[-> _]|[[Hp _]|(q & c & r & -> & [= ->] & _)]].
  - split; intros Heq%(f_equal length); rewrite !length_app in Heq; simpl in Heq; lia.
  - apply (f_equal length) in Hp. rewrite length_app in Hp.
    split; intros Heq%(f_equal length); rewrite !length_app in Heq; simpl in *; lia.
  - split; intros Heq%(f_equal length); rewrite !length_app in Heq; simpl in Heq; lia.
Qed.

(** The disk in the middle of a call that writes a record. *)
Lemma crash_replays ls l st st' p q : synced ls st -> synced (ls ++ [l]) st' -> on_disk st st' p q ->
  replays p (ls ++ [l]) st' \/
  replays p ls st /\ q `prefix_of` event_file st /\ p <> bmp_file st'.
Proof.
  intros [_ (file & Hbj & (ts0 & Hts0 & ->)) _ _ _ _ _] [_ (file' & Hbj' & (ts' & Hts' & ->)) _ _ _ _ _] (Hp & Hp' & Hq).
  unfold replays, bmp_file in *. rewrite Hbj, Hbj' in *. cbn [bj_file default from_option id] in *.
  pose proof (journal_crash _ _ _ Hts' Hp') as (k & skipped & Hc & Hr).
  apply Forall2_app_inv_l in Hts' as (ts & tl & Hts & Htl & ->). rewrite (line_texts_unique _ _ _ Hts0 Hts) in *.
  apply Forall2_cons_inv_l in Htl as (t & nil & Ht & ->%Forall2_nil_inv_l & ->).
  assert (t <> []) as Hne by (eapply object_not_nil, json_text_object, line_text_json, Ht).
  pose proof (Forall2_length _ _ _ Hts) as Hlen.
  assert (length ts <= k)%nat as Hk.
  { apply (crash_keeps ts [t] k p Hp). destruct Hc as [[Hc _]|[[Hc _]|(a & b & c & Hc & Hl & _)]]; [by left|by right; left|].
    right; right. by exists a, b, c. }
  destruct (decide (k = length ts)) as [->|Hk'].
  - right. destruct (crash_incomplete ts t p skipped Hne Hc) as [Hn1 Hn2]. split_and!; [|naive_solver|done].
    exists skipped. intros clock rib. specialize (Hr clock rib). rewrite <- Hlen in Hr at 1.
    by rewrite !take_app_length in Hr.
  - left. exists skipped. intros clock rib. specialize (Hr clock rib).
    by rewrite !take_ge in Hr by (rewrite length_app; simpl; lia).
Qed.

(** A crash loses nothing but the message in flight.  Take any state a
    service reaches from empty journals through frames, messages and losses of
    transport, and stop it anywhere during the next such call.  Started again
    on what is on disk (the BMP journal whole or torn inside the new record,
    the event journal possibly behind), it is in exactly the state before the
    call or the one after it: the same routes, sessions, counters, events,
    decoding contexts, transport gaps and journal files, the missing events
    written; and if the record was complete, it is the one after. *)
Theorem crash_recovery_exact config st st' p q :
  validate config = Ok tt -> rtc live_step (fresh config) st -> live_step st st' -> on_disk st st' p q ->
  exists s, (s = st \/ s = st') /\ (p = bmp_file st' -> s = st') /\
    forall clock clock', service_new clock clock' config (Some (Some p)) (Some (Some q)) = Ok s.
Proof.
  intros Hcfg Hr Hstep Hdisk. destruct (synced_steps config st Hcfg Hr) as (ls & Hs & <-).
  destruct (synced_step ls st st' Hs Hstep) as (new & Hs' & Hlen & Hcfg' & Hpre).
  assert (q `prefix_of` event_file st') as Hq by (destruct Hdisk as (_ & _ & [Hq|[_ Hq]]); [by etransitivity|done]).
  destruct new as [|l [|]]; [| |simpl in Hlen; lia].
  - rewrite app_nil_r in Hs'. exists st'. split_and!; [by right|done|]. intros. rewrite <- Hcfg'.
    apply (restart _ _ ls); [done| |done]. assert (p = bmp_file st') as ->; [|by apply replays_file].
    destruct Hdisk as (Hp & Hp' & _). destruct Hs as [_ (f & Hb & (ts & Hts & ->)) _ _ _ _ _],
      Hs' as [_ (f' & Hb' & (ts' & Hts' & ->)) _ _ _ _ _]. unfold bmp_file in *. rewrite Hb, Hb' in *.
    rewrite (line_texts_unique _ _ _ Hts' Hts) in *. by apply (anti_symm prefix).
  - destruct (crash_replays ls l st st' p q Hs Hs' Hdisk) as [Hrep|(Hrep & Hq' & Hne)].
    + exists st'. split_and!; [by right|done|]. intros. rewrite <- Hcfg'. by apply (restart _ _ (ls ++ [l])).
    + exists st. split_and!; [by left|done|]. intros. by apply (restart _ _ ls).
Qed.

(** A new connection is not journalled, but the Termination it fences off is.
    When the new connection of a speaker was accepted and a late Termination of
    the old one arrives, the running service ignores it and keeps the routes;
    started again on the files it has written, the service applies it: the
    speaker and all its routes are gone. *)
Theorem fenced_termination_replayed (c : Clock) config st a st1 e1 msg e code text st2 m2 st2' m2' :
  validate config = Ok tt -> rtc live_step (fresh config) st ->
  (forall s, speakers (sv_rib st) !! a = Some s -> session_epoch (bs_source s) <= e) -> 0 <= e < e1 ->
  accept_connection st a = Ok (st1, e1) ->
  msg_speaker_addr msg = a -> msg_payload msg = Bmp_Termination code text ->
  serialisable (mkObservation msg (Some e) None) ->
  ingest_bmp_message st1 msg (Some e) = Ok (st2, m2) ->
  ingest_bmp_message st msg (Some e) = Ok (st2', m2') -> storable st2' ->
  ribs (sv_rib st2) = ribs (sv_rib st) /\ is_Some (speakers (sv_rib st2) !! a) /\
  exists s, speakers (sv_rib s) !! a = None /\ (forall k, pk_speaker_addr k = a -> ribs (sv_rib s) !! k = None) /\
    forall clock clock', service_new clock clock' config (Some (bj_file (sv_bmp_journal st2)))
                           (Some (ej_file (sv_event_journal st2))) = Ok s.
Proof.
  intros Hcfg Hr Hold He Hacc Haddr Hpay Hser Hin1 Hin Hst. destruct (synced_steps config st Hcfg Hr) as (ls & Hs & <-).
  unfold accept_connection in Hacc. apply bind_Ok_inv in Hacc as ([rib1 e1'] & Hopen & [= <- ->]).
  pose proof (sy_healthy _ _ Hs) as Hm. pose proof (wp_open_session _ a utc_now Hm) as Hw. rewrite Hopen in Hw.
  destruct Hw as (Hm1 & _ & Heq & Hribs & s1 & Hs1 & Hep1). cbn [fst snd] in *.
  assert (addressed st (msg_speaker_addr msg) (Some e)) as Hep by (destruct Hm as (_ & _ & [Hn _]); cbn; lia).
  destruct (synced_ingest _ _ _ _ None _ _ Hs Hep (fun _ => eq_refl) Hin Hser Hst) as (_ & Hs' & Hcfg' & Hpre).
  apply ingest_inv in Hin1 as (bj & rib & evs & ej & Hobs & Hp1 & Hej & _ & ->).
  apply ingest_inv in Hin as (bj' & rib' & evs' & ej' & Hobs' & Hp & Hej' & _ & Hst').
  cbn [sv_bmp_journal sv_rib sv_event_journal] in *. rewrite Hobs' in Hobs. injection Hobs as ->.
  assert (rib = rib1 /\ evs = []) as [-> ->].
  { unfold process_for_epoch, stale_termination in Hp1. rewrite Hpay, Haddr, Hs1, Hep1 in Hp1.
    rewrite (proj2 (Z.ltb_lt _ _)) in Hp1 by lia. by injection Hp1 as <- <-. }
  injection Hej as <-. split_and!; [done|by exists s1|]. exists st2'.
  assert (stale_termination (sv_rib st) msg (Some e) = false) as Hstale.
  { unfold stale_termination. rewrite Hpay, Haddr. destruct (speakers (sv_rib st) !! a) as [s|] eqn:Hsp; [|done].
    specialize (Hold s eq_refl). lia. }
  assert (forall x, Some e = Some x -> 0 <= x < 2 ^ 64) as Hepx by by intros x [= <-].
  destruct (termination_effect _ _ _ _ _ _ _ Hm Hepx Hpay Hstale Hp) as (Hgone & Htab & _).
  rewrite Haddr in *. assert (sv_rib st2' = rib') as Hrib by by rewrite Hst'.
  rewrite Hrib. split_and!; [done| |].
  { intros k Hk. rewrite Htab. by rewrite decide_True. }
  intros clock clock'. rewrite <- Hcfg'. pose proof (replays_file _ _ Hs') as Hrep.
  pose proof (sy_file _ _ Hs') as (file & Hfile & _). pose proof (sy_durable _ _ Hs) as (ts & _ & Hef).
  unfold bmp_file, event_file in *. rewrite Hef in *. assert (sv_bmp_journal st2' = bj) as Hbj by by rewrite Hst'.
  rewrite Hbj in Hfile, Hrep. rewrite Hfile in *.
  cbn [bj_file default from_option id] in *.
  by apply (restart clock clock' _ _ _ _ Hs' Hrep).
Qed.
End Recovery.

Section RecoveryWitnesses.
#[local] Instance witness_bytes : BytesBuf := reference_bytes.
#[local] Instance witness_ipnet : IpNetCrate := reference_ipnet.
#[local] Instance witness_profile : BuildProfile := true.
#[local] Instance witness_chrono : Chrono := reference_chrono.
#[local] Instance witness_order : HashOrder := trie_order.
#[local] Instance witness_contains : IpNetContains := reference_contains.
#[local] Instance witness_syntax : JsonSyntax := demo_syntax.
#[local] Instance witness_observations : Json BmpJournalObservation := one_json demo_observation.
#[local] Instance witness_controls : Json BmpJournalControlRecord := no_json.
#[local] Existing Instance demo_journal_json.

Definition demo_config : RoutingServiceConfig := mkConfig "127.0.0.1:11019" "127.0.0.1:8081" 65535 None.

(** The event an Initiation emits in an empty manager. *)
Definition demo_up_event : RibEvent :=
  mkRibEvent EVENT_SCHEMA_VERSION (event_key_new (observation_source_new demo_speaker 1) 1)
    (deterministic_event_uuid (replicate 16 Byte.x07) 1 0) 1000 demo_speaker (Event_SpeakerUp (Some "r1"%string) None).
#[local] Instance witness_events : Json RibEvent := one_json demo_up_event.

Definition demo_started : RoutingServiceState := fresh demo_config.
Definition demo_ingested : RoutingServiceState :=
  match ingest_bmp_message demo_started demo_initiation (Some 1) with Ok (st, _) => st | _ => demo_started end.

Lemma demo_ingested_ok : exists msg, ingest_bmp_message demo_started demo_initiation (Some 1) = Ok (demo_ingested, msg).
Proof.
  assert (match ingest_bmp_message demo_started demo_initiation (Some 1) with Ok _ => true | _ => false end = true) as Hok
    by (vm_compute; reflexivity).
  unfold demo_ingested. destruct (ingest_bmp_message demo_started demo_initiation (Some 1)) as [[st msg]| | |]; [|done..].
  by exists msg.
Qed.

Lemma demo_ingested_events : events_of demo_ingested = [demo_up_event].
Proof. reflexivity. Qed.

Lemma demo_live : live_step demo_started demo_ingested.
Proof.
  destruct demo_ingested_ok as [msg Hok].
  assert (storable demo_ingested) as Hst.
  { unfold storable. rewrite demo_ingested_events. split; [constructor; [reflexivity|constructor]|reflexivity]. }
  assert (addressed demo_started (msg_speaker_addr demo_initiation) (Some 1)) as He by (cbn; lia).
  exact (live_message demo_started demo_initiation (Some 1) demo_ingested msg He Hok eq_refl Hst).
Qed.

(** The record is torn: the service comes back empty. *)
Lemma crash_recovery_exact_witness :
  exists s, (s = demo_started \/ s = demo_ingested) /\
    service_new (fun _ => 0) (fun _ => 0) demo_config (Some (Some [open_brace])) (Some (Some [])) = Ok s.
Proof.
  destruct (crash_recovery_exact demo_config demo_started demo_ingested [open_brace] []) as (s & Hs & _ & Hnew).
  - vm_compute. reflexivity.
  - apply rtc_refl.
  - exact demo_live.
  - split; [by exists [open_brace]|]. split; [|left; apply prefix_nil]. exists [close_brace; newline]. vm_compute. reflexivity.
  - exists s. split; [exact Hs|apply Hnew].
Defined.

End RecoveryWitnesses.

Section FencingWitness.
#[local] Instance fencing_bytes : BytesBuf := reference_bytes.
#[local] Instance fencing_ipnet : IpNetCrate := reference_ipnet.
#[local] Existing Instance RibManager.witness_profile.
#[local] Existing Instance RibManager.witness_chrono.
#[local] Instance fencing_clock : Clock := (0 : DateTime).
#[local] Existing Instance RibManager.witness_order.
#[local] Existing Instance RibManager.witness_contains.
#[local] Instance fencing_syntax : JsonSyntax := demo_syntax.
#[local] Instance fencing_observations : Json BmpJournalObservation := one_json (mkObservation demo_terminate (Some 0) None).
#[local] Instance fencing_controls : Json BmpJournalControlRecord := no_json.

Definition fencing_journal_json : JournalJson.
Proof. split; [done|]. intros o t _ _. done. Defined.
#[local] Existing Instance fencing_journal_json.

Definition demo_down_event : RibEvent :=
  mkRibEvent EVENT_SCHEMA_VERSION (event_key_new (observation_source_new demo_speaker 0) 1)
    (deterministic_event_uuid (replicate 16 Byte.x08) 1 0) 2000 demo_speaker (Event_SpeakerDown "code=1").
#[local] Instance fencing_events : Json RibEvent := one_json demo_down_event.

Definition demo_accepted : RoutingServiceState :=
  match accept_connection (fresh demo_config) demo_speaker with Ok (st, _) => st | _ => fresh demo_config end.
Definition terminated (st : RoutingServiceState) : RoutingServiceState :=
  match ingest_bmp_message st demo_terminate (Some 0) with Ok (st', _) => st' | _ => st end.

Lemma demo_terminated st : (match ingest_bmp_message st demo_terminate (Some 0) with Ok _ => true | _ => false end) = true ->
  exists msg, ingest_bmp_message st demo_terminate (Some 0) = Ok (terminated st, msg).
Proof.
  intros Hok. unfold terminated. destruct (ingest_bmp_message st demo_terminate (Some 0)) as [[st' msg]| | |]; [|done..].
  by exists msg.
Qed.

Lemma demo_terminated_events : events_of (terminated (fresh demo_config)) = [demo_down_event].
Proof. reflexivity. Qed.

(** Accepted and fenced while running, the session is gone after a restart. *)
Lemma fenced_termination_replayed_witness :
  is_Some (speakers (sv_rib (terminated demo_accepted)) !! demo_speaker) /\
  exists s, speakers (sv_rib s) !! demo_speaker = None /\
    service_new (fun _ => 0) (fun _ => 0) demo_config (Some (bj_file (sv_bmp_journal (terminated demo_accepted))))
      (Some (ej_file (sv_event_journal (terminated demo_accepted)))) = Ok s.
Proof.
  destruct (demo_terminated demo_accepted) as [m2 Hin1]; [vm_compute; reflexivity|].
  destruct (demo_terminated (fresh demo_config)) as [m2' Hin]; [vm_compute; reflexivity|].
  assert (storable (terminated (fresh demo_config))) as Hst.
  { unfold storable. rewrite demo_terminated_events. split; [constructor; [reflexivity|constructor]|reflexivity]. }
  assert (accept_connection (fresh demo_config) demo_speaker = Ok (demo_accepted, 1)) as Hacc by reflexivity.
  assert (validate demo_config = Ok tt) as Hcfg by (vm_compute; reflexivity).
  assert (forall s, speakers (sv_rib (fresh demo_config)) !! demo_speaker = Some s -> session_epoch (bs_source s) <= 0) as Hold
    by discriminate.
  assert (0 <= 0 < 1) as He by lia.
  assert (serialisable (mkObservation demo_terminate (Some 0) None)) as Hser by reflexivity.
  destruct (fenced_termination_replayed fencing_clock demo_config (fresh demo_config) demo_speaker demo_accepted 1
    demo_terminate 0 1 None (terminated demo_accepted) m2 (terminated (fresh demo_config)) m2'
    Hcfg (rtc_refl _ _) Hold He Hacc eq_refl eq_refl Hser Hin1 Hin Hst) as (_ & Hsome & s & Hgone & _ & Hnew).
  split; [exact Hsome|]. exists s. split; [exact Hgone|exact (Hnew _ _)].
Defined.

End FencingWitness.
