(* ===== verification/Reconnect.v ===== *)
(** * Restarting a service with connections

    A connection that the listener of the routing service accepts
    ([run_bmp_listener] in [src/routing_service/mod.rs]) opens a session with a
    new epoch, and that is not journalled.  A service with connections is
    therefore compared with its shadow: the service that received the same
    frames, messages and losses of transport and accepted nothing, which
    [Recovery] rebuilds exactly.  The two differ in nothing but the sessions of
    speakers whose last connection has not sent anything yet, and in the time a
    session says it was connected. *)

From Stdlib Require Import ZArith Lia ZifyBool.
From stdpp Require Import base numbers list option strings gmap fin_maps sets relations.
From S2P Require Import Prelude RustStd Crates CoreError HashMaps BgpTypes Nlri BgpAttributes BgpUpdate Capabilities.
From S2P Require Import BmpTypes BmpParser RibTable RibSession RibFilter RibEvent RibManager Jsonl Journal EventJournal RoutingService.
From S2P Require Import Recovery.

Local Open Scope Z_scope.

(** ** Messages do not look at the time of connection *)

Section Graft.
Context `{Chrono} `{BuildProfile} `{HashOrder} `{IpNetContains}.
Implicit Types (m h : RibManager) (s : BmpSession).

Definition connected (t : DateTime) (s : BmpSession) : BmpSession :=
  mkBmpSession (bs_source s) (bs_speaker_addr s) (bs_sys_name s) (bs_sys_descr s) t (bs_peers s).

Variables (a : IpAddr) (t : DateTime) (x : Z) (others : gmap IpAddr BmpSession).

(** The manager with another time of connection for [a], another epoch counter
    and other speakers. *)
Definition graft m : RibManager :=
  mkRibManager (partial_alter (fun _ => connected t <$> speakers m !! a) a others) (ribs m) x (next_event_seq m)
    (event_tx m) (mgr_filter m) (roto_filter m).

Definition graft_pair (r : RibManager * list RibEvent) : RibManager * list RibEvent := (graft r.1, r.2).

Lemma graft_lookup m : speakers (graft m) !! a = connected t <$> speakers m !! a.
Proof. unfold graft. cbn [speakers]. by rewrite lookup_partial_alter_eq. Qed.

Lemma graft_alter f m : (forall s, f (connected t s) = connected t (f s)) ->
  set_speakers (alter f a (speakers (graft m))) (graft m) = graft (set_speakers (alter f a (speakers m)) m).
Proof.
  intros Hf. unfold set_speakers, graft. cbn [speakers ribs next_session_epoch next_event_seq event_tx mgr_filter roto_filter].
  f_equal. apply map_eq. intros b. destruct (decide (b = a)) as [->|Hb].
  - rewrite lookup_alter_eq, !lookup_partial_alter_eq, lookup_alter_eq. destruct (speakers m !! a); cbn; [by rewrite Hf|done].
  - by rewrite lookup_alter_ne, !lookup_partial_alter_ne.
Qed.

Lemma graft_alter_peer f k m : alter_peer f a k (graft m) = graft (alter_peer f a k m).
Proof. by apply graft_alter. Qed.

Lemma graft_sync k m : pk_speaker_addr k = a -> sync_peer_route_counts (graft m) k = graft (sync_peer_route_counts m k).
Proof. intros Hk. unfold sync_peer_route_counts. rewrite Hk. apply graft_alter_peer. Qed.

Lemma graft_ensure_peer hdr m : ensure_peer a hdr (graft m) = graft (ensure_peer a hdr m).
Proof. apply graft_alter. intros s. cbn. by case_match. Qed.

Lemma graft_initiation n d m : handle_initiation (graft m) a n d = graft (handle_initiation m a n d).
Proof. by apply graft_alter. Qed.

Lemma graft_termination m : handle_termination (graft m) a = graft (handle_termination m a).
Proof.
  unfold handle_termination. rewrite graft_lookup. unfold graft, set_speakers, set_ribs.
  cbn [speakers ribs next_session_epoch next_event_seq event_tx mgr_filter roto_filter]. rewrite lookup_delete_eq. f_equal.
  - apply map_eq. intros b. destruct (decide (b = a)) as [->|Hb].
    + by rewrite lookup_delete_eq, lookup_partial_alter_eq.
    + by rewrite lookup_delete_ne, !lookup_partial_alter_ne.
  - by destruct (speakers m !! a).
Qed.

Lemma graft_insert s m : set_speakers (<[a := connected t s]> (speakers (graft m))) (graft m) =
  graft (set_speakers (<[a := s]> (speakers m)) m).
Proof.
  unfold graft, set_speakers. cbn [speakers ribs next_session_epoch next_event_seq event_tx mgr_filter roto_filter].
  f_equal. apply map_eq. intros b. rewrite lookup_insert_eq. destruct (decide (b = a)) as [->|Hb].
  - by rewrite lookup_insert_eq, lookup_partial_alter_eq.
  - by rewrite lookup_insert_ne, !lookup_partial_alter_ne.
Qed.

Lemma graft_peer_up now pu caps m :
  handle_peer_up (graft m) a now pu caps = (m' ← handle_peer_up m a now pu caps; Ok (graft m')).
Proof.
  unfold handle_peer_up. rewrite graft_lookup. destruct (speakers m !! a) as [s|]; cbn [fmap option_fmap option_map].
  - cbn [connected bs_peers]. destruct (on_up_with_header _ _ _ _ _ _) as [p| | |]; [|done..]. cbn [mbind outcome_bind].
    rewrite <- graft_sync by done. f_equal. f_equal. by rewrite <- graft_insert.
  - cbn [mbind outcome_bind]. by rewrite <- graft_sync.
Qed.

Lemma graft_peer_down now hdr m : handle_peer_down (graft m) a now hdr = graft (handle_peer_down m a now hdr).
Proof.
  unfold handle_peer_down. rewrite graft_lookup, graft_alter_peer.
  assert ((connected t <$> speakers m !! a) ≫= (fun s => bs_peers s !! peer_key_from_header a hdr) =
          speakers m !! a ≫= (fun s => bs_peers s !! peer_key_from_header a hdr)) as -> by by destruct (speakers m !! a).
  by rewrite <- graft_sync.
Qed.

Lemma graft_emit env p r : emit env p (graft_pair r) = (r' ← emit env p r; Ok (graft_pair r')).
Proof. unfold emit, emit_with_source, graft_pair. cbn [fst snd next_event_seq graft]. by destruct (checked_width _ _). Qed.

Lemma graft_for_each {A} (body : A -> RibManager * list RibEvent -> RibM (RibManager * list RibEvent)) xs r :
  (forall y r, body y (graft_pair r) = (r' ← body y r; Ok (graft_pair r'))) ->
  for_each xs body (graft_pair r) = (r' ← for_each xs body r; Ok (graft_pair r')).
Proof.
  intros Hb. revert r. induction xs as [|y xs IH]; intros r; [done|]. cbn [for_each]. rewrite Hb.
  destruct (body y r); [apply IH|done..].
Qed.

Lemma graft_withdraw env hdr y r : withdraw_one env hdr y (graft_pair r) = (r' ← withdraw_one env hdr y r; Ok (graft_pair r')).
Proof. destruct y as [p i], r as [m evs]. apply (graft_emit env _ (set_ribs _ m, evs)). Qed.

Lemma graft_announce env hdr attrs y r :
  announce_one env hdr attrs y (graft_pair r) = (r' ← announce_one env hdr attrs y r; Ok (graft_pair r')).
Proof.
  destruct y as [p i], r as [m evs]. unfold announce_one, graft_pair. cbn [fst snd].
  change (filter_verdict (graft m) hdr p attrs) with (filter_verdict m hdr p attrs). case_bool_decide; [done|].
  unfold install_one. cbn [ribs graft]. destruct (if is_some i then _ else _) as [rib| | |]; [|done..]. cbn [mbind outcome_bind].
  apply (graft_emit env _ (set_ribs _ m, evs)).
Qed.

Lemma graft_dispatch env p m : en_speaker env = a -> dispatch (graft m) env p = (r ← dispatch m env p; Ok (graft_pair r)).
Proof.
  intros Ha. unfold dispatch. rewrite Ha. destruct p as [n d l|code text|pu|hdr reason|hdr u|hdr stats|hdr pdu].
  - rewrite graft_initiation. apply (graft_emit env _ (_, [])).
  - rewrite graft_termination. apply (graft_emit env _ (_, [])).
  - rewrite graft_peer_up. destruct (handle_peer_up _ _ _ _ _) as [m'| | |]; [|done..]. apply (graft_emit env _ (_, [])).
  - rewrite graft_peer_down. apply (graft_emit env _ (_, [])).
  - unfold handle_route_monitoring. rewrite Ha, graft_ensure_peer. destruct (eor_afi_safi u) as [f|].
    + rewrite graft_alter_peer. apply (graft_emit env _ (_, [])).
    + change (graft (ensure_peer a hdr m), []) with (graft_pair (ensure_peer a hdr m, [])).
      rewrite (graft_for_each (withdraw_one env hdr)) by apply graft_withdraw.
      destruct (for_each _ (withdraw_one env hdr) _) as [r| | |]; [|done..]. cbn [mbind outcome_bind].
      rewrite (graft_for_each (announce_one env hdr (attributes u))) by apply graft_announce.
      destruct (for_each _ (announce_one _ _ _) _) as [[m' evs]| | |]; [|done..]. cbn [mbind outcome_bind graft_pair fst snd].
      by rewrite graft_sync.
  - apply (graft_emit env _ (m, [])).
  - done.
Qed.

End Graft.

(** ** A manager and its shadow *)

Section Shadow.
Context `{Chrono} `{BuildProfile} `{HashOrder} `{IpNetContains}.
Implicit Types (m h : RibManager) (S : gset IpAddr).

(** The session of a speaker that connected again and has not sent anything:
    the old one under a new epoch, with no End-of-RIB received. *)
Definition reopened (b : IpAddr) (e : Z) (t : DateTime) (s : BmpSession) : BmpSession :=
  clear_eor (mkBmpSession (observation_source_new b e) (bs_speaker_addr s) (bs_sys_name s) (bs_sys_descr s) t (bs_peers s)).

(** A session but for the time it was connected. *)
Definition session_data (s : BmpSession) :=
  (bs_source s, bs_speaker_addr s, bs_sys_name s, bs_sys_descr s, bs_peers s).

(** [h] is [m] without the connections that were accepted: [S] are the speakers
    whose last connection is silent so far. *)
Record shadows S m h : Prop := mkShadows {
  sh_ribs : ribs h = ribs m;
  sh_seq : next_event_seq h = next_event_seq m;
  sh_tx : event_tx h = event_tx m;
  sh_filter : mgr_filter h = mgr_filter m;
  sh_roto : roto_filter h = roto_filter m;
  sh_spoken : forall b, b ∉ S -> session_data <$> speakers h !! b = session_data <$> speakers m !! b;
  sh_silent : forall b, b ∈ S -> exists s e t, speakers m !! b = Some s /\
    match speakers h !! b with
    | Some s' => s = reopened b e t s' /\ session_epoch (bs_source s') < e
    | None => s = bmp_session_with_source (observation_source_new b e) t
    end;
}.

(** Sources are those of the default collector. *)
Definition plain m : Prop := forall b s, speakers m !! b = Some s -> exists e, bs_source s = observation_source_new b e.

Lemma clear_eor_idem s : clear_eor (clear_eor s) = clear_eor s.
Proof.
  unfold clear_eor, set_peers. cbn. f_equal. rewrite <- map_fmap_compose. apply map_fmap_ext. by intros.
Qed.

Lemma reopened_again b e t e' t' s : reopened b e t (reopened b e' t' s) = reopened b e t s.
Proof.
  exact (clear_eor_idem (mkBmpSession (observation_source_new b e) (bs_speaker_addr s) (bs_sys_name s) (bs_sys_descr s) t (bs_peers s))).
Qed.

Lemma session_data_inv s s' : session_data s' = session_data s -> s = connected (bs_connected_at s) s'.
Proof. destruct s, s'. unfold session_data, connected. cbn. by intros [= -> -> -> -> ->]. Qed.

(** The shadow's session has the same epoch, or an older one. *)
Lemma shadow_epoch S m h b s' : shadows S m h -> speakers h !! b = Some s' ->
  exists s, speakers m !! b = Some s /\ session_epoch (bs_source s') <= session_epoch (bs_source s) /\
    (b ∉ S -> bs_source s' = bs_source s).
Proof.
  intros Hsh Hs'. destruct (decide (b ∈ S)) as [Hb|Hb].
  - destruct (sh_silent _ _ _ Hsh b Hb) as (s & e & t & Hs & Hm). rewrite Hs' in Hm. destruct Hm as [-> Hlt].
    eexists. split_and!; [exact Hs|cbn; lia|done].
  - pose proof (sh_spoken _ _ _ Hsh b Hb) as Heq. rewrite Hs' in Heq. cbn in Heq. symmetry in Heq.
    apply fmap_Some in Heq as (s & Hs & Hc). injection Hc as Hc _. exists s.
    split_and!; [done|by rewrite Hc|done].
Qed.

Lemma spoken_active S m h b : shadows S m h -> b ∉ S -> active_epoch h b = active_epoch m b.
Proof.
  intros Hsh Hb. pose proof (sh_spoken _ _ _ Hsh b Hb) as Heq. unfold active_epoch, speaker_session.
  destruct (speakers h !! b), (speakers m !! b); try done. cbn in *. injection Heq as ->. done.
Qed.

(** *** Accepting a connection *)

Lemma shadows_accept S m h a at_ m1 e : shadows S m h ->
  open_speaker_session m a at_ = Ok (m1, e) -> (forall s, speakers m !! a = Some s -> session_epoch (bs_source s) < e) ->
  shadows ({[a]} ∪ S) m1 h.
Proof.
  intros Hsh Ho Hlt. unfold open_speaker_session in Ho. apply bind_Ok_inv in Ho as (n & _ & [= <- ->]).
  destruct Hsh as [E1 E2 E3 E4 E5 Hsp Hsi]. split; try done; cbn [speakers set_speakers set_epoch].
  - intros b Hb. rewrite lookup_insert_ne by set_solver. apply Hsp. set_solver.
  - intros b Hb. destruct (decide (b = a)) as [->|Hne].
    2:{ rewrite lookup_insert_ne by done. apply Hsi. set_solver. }
    rewrite lookup_insert_eq. eexists _, e, at_. split; [done|]. destruct (decide (a ∈ S)) as [Ha|Ha].
    + destruct (Hsi a Ha) as (s & e0 & t & Hs & Hm). specialize (Hlt s Hs). rewrite Hs. destruct (speakers h !! a) as [s'|].
      * destruct Hm as [-> Hlt']. cbn in Hlt. split; [|lia]. apply reopened_again.
      * subst s. done.
    + specialize (Hsp a Ha). destruct (speakers m !! a) as [s|], (speakers h !! a) as [s'|]; try done.
      specialize (Hlt s eq_refl). injection Hsp as Hsrc Had Hna Hde Hpe. unfold reopened. rewrite Hsrc, Had, Hna, Hde, Hpe. done.
Qed.

(** *** Processing a message *)

(** The epoch of a call that no older connection makes. *)
Definition in_order S m (a : IpAddr) (epoch : option Z) : Prop :=
  match epoch with
  | Some e => 0 <= e < 2 ^ 64 /\ forall s, speakers m !! a = Some s -> session_epoch (bs_source s) <= e
  | None => a ∉ S /\ is_Some (speakers m !! a)
  end.

(** Finding the session of a message brings the two in step. *)
Lemma shadows_resolve S m h a now epoch m1 src : shadows S m h -> plain h -> 0 <= next_session_epoch m < 2 ^ 64 ->
  in_order S m a epoch -> resolve_source m a now epoch = Ok (m1, src) ->
  exists h1 t, resolve_source h a now epoch = Ok (h1, src) /\ m1 = graft a t (next_session_epoch m1) (speakers m1) h1 /\
    (forall b, b <> a -> speakers m1 !! b = speakers m !! b /\ speakers h1 !! b = speakers h !! b).
Proof.
  intros Hsh Hpl Hn Hord Hres. pose proof Hsh as [E1 E2 E3 E4 E5 Hsp Hsi]. unfold resolve_source in *. destruct epoch as [e|].
  - destruct Hord as [He Hold]. apply bind_Ok_inv in Hres as (m0 & Hm0 & Hres).
    assert (exists x, (if next_session_epoch h <=? e then next ← checked_width 64 (e + 1); Ok (set_epoch next h) else Ok h) = Ok (set_epoch x h : RibManager)
      :> RibM RibManager) as [y Hy].
    { destruct (next_session_epoch h <=? e); [|exists (next_session_epoch h); by destruct h].
      destruct (Z.leb_spec (next_session_epoch m) e).
      - apply bind_Ok_inv in Hm0 as (z & Hz & _). rewrite Hz. by exists z.
      - exists (e + 1). unfold checked_width. assert ((0 <=? e + 1) && (e + 1 <? 2 ^ 64) = true) as -> by lia. done. }
    rewrite Hy, bind_Ok. assert (exists z, m0 = set_epoch z m) as [z ->].
    { destruct (next_session_epoch m <=? e); [|exists (next_session_epoch m); injection Hm0 as <-; by destruct m].
      apply bind_Ok_inv in Hm0 as (z & _ & [= <-]). by exists z. }
    cbn [speakers set_epoch] in *. set (sh := if session_epoch _ <? e then _ else _).
    injection Hres as <- <-. set (sm := if session_epoch _ <? e then _ else _).
    assert (exists t, sm = connected t sh) as [t Hsm].
    { unfold sm, sh. clear sm sh. destruct (decide (a ∈ S)) as [Ha|Ha].
      - destruct (Hsi a Ha) as (s & e0 & t & Hs & Hm). specialize (Hold s Hs). rewrite Hs.
        destruct (speakers h !! a) as [s'|] eqn:Hh.
        + destruct Hm as [-> Hlt]. destruct (Hpl a s' Hh) as [e' Hsrc]. cbn in Hold |- *. rewrite (proj2 (Z.ltb_lt (session_epoch (bs_source s')) e)) by lia.
          destruct (Z.ltb_spec e0 e) as [Hlt'|Hge].
          * exists now. rewrite Hsrc. unfold reopened, clear_eor, set_peers, connected. cbn. f_equal.
            rewrite <- map_fmap_compose. apply map_fmap_ext. by intros.
          * assert (e0 = e) as -> by lia. exists t. by rewrite Hsrc.
        + subst s. cbn in Hold |- *. rewrite Z.ltb_irrefl. destruct (Z.ltb_spec e0 e) as [Hlt'|Hge].
          * exists now. done.
          * assert (e0 = e) as -> by lia. by exists t.
      - specialize (Hsp a Ha). destruct (speakers m !! a) as [s|], (speakers h !! a) as [s'|]; try done.
        + injection Hsp as Hsrc Had Hna Hde Hpe. cbn. rewrite Hsrc.
          destruct (session_epoch (bs_source s) <? e); [exists now|exists (bs_connected_at s)];
            unfold connected, clear_eor, set_peers; cbn; [by rewrite Had, Hna, Hde, Hpe|destruct s, s'; cbn in *; by subst].
        + cbn. rewrite Z.ltb_irrefl. by exists now. }
    eexists _, t. split; [|split].
    + f_equal. f_equal. rewrite Hsm. done.
    + unfold graft, set_speakers, set_epoch. cbn. f_equal; try done. apply map_eq. intros b.
      destruct (decide (b = a)) as [->|Hb]; [rewrite lookup_partial_alter_eq, !lookup_insert_eq; cbn; by rewrite Hsm|].
      by rewrite lookup_partial_alter_ne.
    + intros b Hb. cbn. by rewrite !lookup_insert_ne.
  - destruct Hord as [Ha [s Hs]]. unfold ensure_speaker_source in *. rewrite Hs in Hres. injection Hres as <- <-.
    specialize (Hsp a Ha). rewrite Hs in Hsp. destruct (speakers h !! a) as [s'|] eqn:Hh; [|done].
    injection Hsp as Hsrc Had Hna Hde Hpe. exists h, (bs_connected_at s). split_and!; [by rewrite Hsrc| |done].
    unfold graft. destruct m; cbn in *. f_equal; try done. apply map_eq. intros b.
    destruct (decide (b = a)) as [->|Hb]; [rewrite lookup_partial_alter_eq, Hh, Hs; destruct s, s'; cbn in *; by subst|].
    by rewrite lookup_partial_alter_ne.
Qed.

Lemma resolve_plain m a now epoch m1 src : plain m -> resolve_source m a now epoch = Ok (m1, src) -> plain m1.
Proof.
  intros Hpl. unfold resolve_source, ensure_speaker_source. destruct epoch as [e|].
  - intros (m0 & Hm0 & [= <- _])%bind_Ok_inv b s. assert (speakers m0 = speakers m) as Hsp.
    { destruct (_ <=? e); [|by injection Hm0 as <-]. by apply bind_Ok_inv in Hm0 as (n & _ & [= <-]). }
    cbn [speakers set_speakers]. rewrite Hsp. intros [[<- <-]|[_ Hb]]%lookup_insert_Some; [|by eapply Hpl].
    destruct (speakers m !! a) as [s|] eqn:Hs; cbn; [|rewrite Z.ltb_irrefl; by exists e].
    destruct (Hpl _ s Hs) as [e' He']. destruct (_ <? e); cbn; rewrite He'; by eexists.
  - destruct (speakers m !! a) as [s0|] eqn:Hs; [by intros [= <- _]|].
    intros (n & _ & [= <- _])%bind_Ok_inv b s. cbn [speakers set_speakers set_epoch].
    intros [[<- <-]|[_ Hb]]%lookup_insert_Some; [by eexists|by eapply Hpl].
Qed.

Lemma process_plain m msg epoch m' evs : healthy m -> (forall e, epoch = Some e -> 0 <= e < 2 ^ 64) -> plain m ->
  process_for_epoch m msg epoch = Ok (m', evs) -> plain m'.
Proof.
  intros (Hi & Hq & Hep) He Hpl Hp. unfold process_for_epoch in Hp. case_match; [by injection Hp as <- <-|].
  apply bind_Ok_inv in Hp as ([m1 src] & Hres & Hp).
  pose proof (resolve_plain _ _ _ _ _ _ Hpl Hres) as Hpl1.
  pose proof (wp_resolve_source True m (msg_speaker_addr msg) (msg_received_at msg) epoch Hi) as Hw.
  specialize (Hw ltac:(destruct Hep; lia) ltac:(intros e ->; by apply (He e)) ltac:(done)). rewrite Hres in Hw.
  destruct Hw as [Hinv1 _ Hsil1 _ [s2 [Hs2 _]] _]. cbn [fst snd] in *.
  assert (seq_ok m1) as Hok1 by (unfold seq_ok; destruct Hsil1 as [-> _]; exact Hq).
  pose proof (wp_dispatch True m1 (mkEnvelope (msg_id msg) (msg_speaker_addr msg) src (msg_received_at msg)) (msg_payload msg)
    Hinv1 Hok1 ltac:(by exists s2) ltac:(done) ltac:(done)) as Hd.
  rewrite Hp in Hd. destruct Hd as (_ & [_ _ Hsrc] & _). cbn [fst] in Hsrc.
  intros b s Hs. destruct (Hsrc b s Hs) as (s3 & Hs3 & ->). by eapply Hpl1.
Qed.

(** A message has the same effect on the shadow, and the same events. *)
Lemma shadows_process S m h msg epoch m' evs : shadows S m h -> plain h -> healthy m -> healthy h ->
  in_order S m (msg_speaker_addr msg) epoch -> process_for_epoch m msg epoch = Ok (m', evs) ->
  exists h', process_for_epoch h msg epoch = Ok (h', evs) /\ shadows (S ∖ {[msg_speaker_addr msg]}) m' h'.
Proof.
  intros Hsh Hpl Hm Hh Hord Hp. set (a := msg_speaker_addr msg) in *.
  assert (forall e, epoch = Some e -> 0 <= e < 2 ^ 64) as He by (intros e ->; apply Hord).
  assert (stale_termination m msg epoch = false /\ stale_termination h msg epoch = false) as [Hst Hst'].
  { unfold stale_termination. destruct (msg_payload msg); try done. destruct epoch as [e|]; [|done]. destruct Hord as [_ Hold].
    fold a. split; [destruct (speakers m !! a) as [s|] eqn:Hs; [specialize (Hold s eq_refl); lia|done]|].
    destruct (speakers h !! a) as [s'|] eqn:Hs'; [|done]. destruct (shadow_epoch _ _ _ _ _ Hsh Hs') as (s & Hs & Hle & _).
    specialize (Hold s Hs). lia. }
  pose proof Hp as Hp0. unfold process_for_epoch in Hp. rewrite Hst in Hp. apply bind_Ok_inv in Hp as ([m1 src] & Hres & Hd).
  fold a in Hres, Hd. pose proof Hm as (_ & _ & [Hnext _]).
  destruct (shadows_resolve S m h a _ _ m1 src Hsh Hpl Hnext Hord Hres) as (h1 & t & Hres' & Hgraft & Hothers).
  rewrite Hgraft, graft_dispatch in Hd by done. apply bind_Ok_inv in Hd as ([h' evs'] & Hd & [= <- ->]).
  assert (process_for_epoch h msg epoch = Ok (h', evs)) as Hp'.
  { unfold process_for_epoch. rewrite Hst'. fold a. by rewrite Hres', bind_Ok. }
  exists h'. split; [exact Hp'|].
  assert (forall b, b <> a -> speakers h' !! b = speakers h !! b) as Hout.
  { destruct Hh as (Hi & Hq & Hep). pose proof (wp_process h msg epoch Hi Hq Hep He) as Hw. rewrite Hp' in Hw.
    destruct Hw as (_ & _ & Hsame & _). intros b Hb. by apply (same_speakers _ _ _ Hsame). }
  split; try done; intros b Hb; cbn [speakers graft].
  - destruct (decide (b = a)) as [->|Hne]; [rewrite lookup_partial_alter_eq; by destruct (speakers h' !! a)|].
    rewrite lookup_partial_alter_ne by done. rewrite Hout by done. destruct (Hothers b Hne) as [-> _].
    apply (sh_spoken _ _ _ Hsh). set_solver.
  - assert (b <> a) as Hne by set_solver. rewrite lookup_partial_alter_ne by done. rewrite Hout by done.
    destruct (Hothers b Hne) as [-> _]. apply (sh_silent _ _ _ Hsh). set_solver.
Qed.

(** *** Losing a transport *)

Lemma shadows_clear_eor S m h a : shadows S m h -> shadows S (clear_speaker_eor m a) (clear_speaker_eor h a).
Proof.
  intros [E1 E2 E3 E4 E5 Hsp Hsi]. split; try done; intros b Hb; cbn [speakers set_speakers clear_speaker_eor];
    (destruct (decide (b = a)) as [->|Hne]; [rewrite !lookup_alter_eq|rewrite !lookup_alter_ne by done; by auto]).
  - specialize (Hsp a Hb). destruct (speakers m !! a) as [s|], (speakers h !! a) as [s'|]; try done.
    injection Hsp as Hsrc Had Hna Hde Hpe. unfold session_data, clear_eor, set_peers. cbn. by rewrite Hsrc, Had, Hna, Hde, Hpe.
  - destruct (Hsi a Hb) as (s & e & t & -> & Hm). eexists _, e, t. split; [done|]. destruct (speakers h !! a) as [s'|]; cbn.
    + destruct Hm as [-> Hlt]. split; [|done]. unfold reopened, clear_eor, set_peers. cbn. f_equal.
    + subst s. done.
Qed.

Lemma shadow_not_stale S m h a epoch : shadows S m h ->
  stale_disconnect epoch (active_epoch m a) = false -> stale_disconnect epoch (active_epoch h a) = false.
Proof.
  intros Hsh. unfold stale_disconnect, active_epoch, speaker_session. destruct epoch as [e|]; [|done].
  destruct (speakers h !! a) as [s'|] eqn:Hs'; [|done]. destruct (shadow_epoch _ _ _ _ _ Hsh Hs') as (s & -> & Hle & _). cbn. lia.
Qed.

End Shadow.

(** ** A service with connections *)

Section Connections.
Context `{BytesBuf} `{IpNetCrate} `{BuildProfile} `{Chrono} `{HashOrder} `{IpNetContains}.
Context `{JsonSyntax} `{!Json BmpJournalObservation} `{!Json BmpJournalControlRecord} `{!Json RibEvent} `{!JournalJson}.
Implicit Types (st sh : RoutingServiceState) (S : gset IpAddr).

(** The calls of the service, connections included, with the speakers whose
    last connection is silent so far.  A new connection gets an epoch ahead of
    the speaker's session, which [epoch_fencing] shows of checked builds; no
    connection speaks after a newer one of its speaker was accepted; and a call
    without an epoch concerns a speaker that has spoken. *)
Inductive conn_step : gset IpAddr * RoutingServiceState -> gset IpAddr * RoutingServiceState -> Prop :=
| conn_accept (c : Clock) S st a st' e :
    accept_connection st a = Ok (st', e) ->
    (forall s, speakers (sv_rib st) !! a = Some s -> session_epoch (bs_source s) < e) ->
    conn_step (S, st) ({[a]} ∪ S, st')
| conn_frame (c : Clock) id S st a epoch frame st' msg :
    in_order S (sv_rib st) a epoch -> timed frame ->
    ingest_bmp_bytes id st a epoch frame = Ok (st', msg) ->
    serialisable (mkObservation msg epoch (Some (bytes_to_hex frame))) -> storable st' ->
    conn_step (S, st) (S ∖ {[a]}, st')
| conn_message S st msg epoch st' msg' :
    in_order S (sv_rib st) (msg_speaker_addr msg) epoch ->
    ingest_bmp_message st msg epoch = Ok (st', msg') ->
    serialisable (mkObservation msg epoch None) -> storable st' ->
    conn_step (S, st) (S ∖ {[msg_speaker_addr msg]}, st')
| conn_disconnect (c : Clock) S st a epoch reason :
    (epoch = None -> a ∉ S) ->
    serialisable (TransportDisconnect a (or_else epoch (active_epoch (sv_rib st) a)) utc_now reason) ->
    conn_step (S, st) (S, record_transport_disconnect_for_epoch st a epoch reason).

(** What a restarted service [sh] has of a service [st] with connections: all of
    it, but for the sessions [shadows] tells about. *)
Record restores S st sh : Prop := mkRestores {
  rs_config : sv_config sh = sv_config st;
  rs_bmp : sv_bmp_journal sh = sv_bmp_journal st;
  rs_events : sv_event_journal sh = sv_event_journal st;
  rs_contexts : sv_contexts sh = sv_contexts st;
  rs_gaps : sv_gaps sh = sv_gaps st;
  rs_rib : shadows S (sv_rib st) (sv_rib sh);
}.

Record shadow_inv S st sh : Prop := mkShadowInv {
  si_restores : restores S st sh;
  si_healthy : healthy (sv_rib st);
  si_healthy' : healthy (sv_rib sh);
  si_plain : plain (sv_rib sh);
}.

Lemma shadow_inv_fresh config : shadow_inv ∅ (fresh config) (fresh config).
Proof.
  assert (shadows ∅ rib_manager_new rib_manager_new) as Hs by (split; try done; by intros b Hb%elem_of_empty).
  split; [by split|apply healthy_new|apply healthy_new|]. intros b s. cbn. by rewrite lookup_empty.
Qed.

(** A message, with or without its frame. *)
Lemma shadow_ingest S st sh msg epoch raw st' msg' : shadow_inv S st sh ->
  in_order S (sv_rib st) (msg_speaker_addr msg) epoch ->
  ingest_bmp_message_internal st msg epoch raw = Ok (st', msg') ->
  exists sh', ingest_bmp_message_internal sh msg epoch raw = Ok (sh', msg') /\
    shadow_inv (S ∖ {[msg_speaker_addr msg]}) st' sh'.
Proof.
  intros [[Rc Rb Re Rx Rg Rr] Hm Hh Hpl] Hord Hin. set (a := msg_speaker_addr msg) in *.
  apply ingest_inv in Hin as (bj & rib & evs & ej & Hobs & Hproc & Hej & -> & ->).
  assert (forall e, epoch = Some e -> 0 <= e < 2 ^ 64) as He by (intros e ->; apply Hord).
  destruct (shadows_process S _ _ msg epoch rib evs Rr Hpl Hm Hh Hord Hproc) as (rib' & Hproc' & Hsh').
  assert (forall x y, or_else (or_else epoch (active_epoch (sv_rib sh) a)) x = or_else (or_else epoch (active_epoch (sv_rib st) a)) y)
    as Hgap.
  { intros x y. destruct epoch as [e|]; [done|]. destruct Hord as [Ha [s Hs]]. rewrite (spoken_active _ _ _ _ Rr Ha).
    unfold active_epoch, speaker_session. by rewrite Hs. }
  eexists. split.
  - unfold ingest_bmp_message_internal. rewrite Rb, Hobs. cbn [map_err]. rewrite bind_Ok, Hproc'. cbn [infallible].
    rewrite bind_Ok. cbn [sv_event_journal]. rewrite Re, Hej. cbn [map_err]. by rewrite bind_Ok.
  - cbn [set_event_journal sv_config sv_rib sv_bmp_journal sv_contexts sv_gaps sv_event_journal]. split.
    + split; cbn; try done; [by rewrite Rx|]. rewrite Rg. by rewrite (Hgap _ (active_epoch rib a)).
    + cbn. eapply step_healthy; [by eapply step_process|done].
    + cbn. eapply step_healthy; [by eapply step_process|done].
    + cbn. by eapply process_plain.
Qed.

Lemma in_order_addressed S st sh a epoch : shadow_inv S st sh -> in_order S (sv_rib st) a epoch -> addressed sh a epoch.
Proof.
  intros [[_ _ _ _ _ Rr] _ _ _]. destruct epoch as [e|]; [by intros [? _]|]. intros [Ha [s Hs]].
  pose proof (sh_spoken _ _ _ Rr a Ha) as Heq. rewrite Hs in Heq. unfold addressed.
  destruct (speakers (sv_rib sh) !! a); [by eexists|done].
Qed.

Lemma restores_storable S st sh : restores S st sh -> storable st -> storable sh.
Proof. intros [_ _ Re _ _ _]. unfold storable, events_of. by rewrite Re. Qed.

(** A call of the service is one of its shadow, or none. *)
Lemma shadow_step S st S' st' sh : shadow_inv S st sh -> conn_step (S, st) (S', st') ->
  exists sh', (sh' = sh \/ live_step sh sh') /\ shadow_inv S' st' sh'.
Proof.
  intros Hinv Hstep. pose proof Hinv as [[Rc Rb Re Rx Rg Rr] Hm Hh Hpl].
  inversion Hstep as [c S0 st0 a st1 e Hacc Hlt|c id S0 st0 a epoch frame st1 msg Hord Ht Hin Hser Hst|
    S0 st0 msg epoch st1 msg' Hord Hin Hser Hst|c S0 st0 a epoch reason Ha Hser]; subst.
  - exists sh. split; [by left|]. unfold accept_connection in Hacc. apply bind_Ok_inv in Hacc as ([rib e'] & Ho & [= <- <-]).
    split; [|eapply step_healthy; [by eapply step_open|done]|done|done]. split; try done. by eapply shadows_accept.
  - unfold ingest_bmp_bytes in Hin. apply bind_Ok_inv in Hin as (ctx & Hctx & Hin).
    apply bind_Ok_inv in Hin as (payload & Hp%map_err_Ok & Hin).
    destruct (shadow_ingest S st sh (mkBmpMessage id utc_now a payload) epoch (Some frame) st' msg Hinv Hord Hin) as (sh' & Hin' & Hinv').
    exists sh'. split; [right|exact Hinv']. apply (live_frame c id sh a epoch frame sh' msg).
    + by eapply in_order_addressed.
    + done.
    + unfold ingest_bmp_bytes. rewrite Rx, Rc.
      assert (frame_context (sv_contexts st) a frame (E := ServiceError * RoutingServiceState) = Ok ctx) as -> by exact Hctx.
      rewrite bind_Ok, Hp. cbn [map_err]. by rewrite bind_Ok.
    + done.
    + eapply restores_storable; [apply Hinv'|done].
  - destruct (shadow_ingest S st sh msg epoch None st' msg' Hinv Hord Hin) as (sh' & Hin' & Hinv').
    exists sh'. split; [right|exact Hinv']. apply (live_message sh msg epoch sh' msg'); [by eapply in_order_addressed|done|done|].
    eapply restores_storable; [apply Hinv'|done].
  - unfold record_transport_disconnect_for_epoch. destruct (stale_disconnect epoch (active_epoch (sv_rib st) a)) eqn:Hstale.
    { exists sh. split; [by left|done]. }
    assert (or_else epoch (active_epoch (sv_rib sh) a) = or_else epoch (active_epoch (sv_rib st) a)) as Hor.
    { destruct epoch; [done|]. cbn. apply (spoken_active _ _ _ _ Rr). by apply Ha. }
    exists (record_transport_disconnect_for_epoch sh a epoch reason).
    split; [right; apply live_disconnect; by rewrite Hor|].
    unfold record_transport_disconnect_for_epoch. rewrite (shadow_not_stale _ _ _ _ _ Rr Hstale), Hor, Rb, Rg.
    split; cbn.
    + split; cbn; try done. by apply shadows_clear_eor.
    + by apply healthy_clear_eor.
    + by apply healthy_clear_eor.
    + intros b s Hs. unfold clear_speaker_eor in Hs. cbn in Hs. rewrite lookup_alter in Hs.
      case_decide; [|by eapply Hpl]. apply fmap_Some in Hs as (s0 & Hs0 & ->). subst b. exact (Hpl a s0 Hs0).
Qed.

Lemma shadow_steps config S st : rtc conn_step (∅, fresh config) (S, st) ->
  exists sh, rtc live_step (fresh config) sh /\ shadow_inv S st sh.
Proof.
  intros Hr. enough (forall p q, rtc conn_step p q -> forall sh0, rtc live_step (fresh config) sh0 -> shadow_inv p.1 p.2 sh0 ->
    exists sh, rtc live_step (fresh config) sh /\ shadow_inv q.1 q.2 sh) as Hgen
    by exact (Hgen _ _ Hr _ (rtc_refl _ _) (shadow_inv_fresh config)).
  clear. intros p q Hr. induction Hr as [p|[S1 st1] [S2 st2] q Hstep _ IH]; intros sh0 Hsh0 Hinv; [by exists sh0|].
  destruct (shadow_step _ _ _ _ _ Hinv Hstep) as (sh1 & Hs & Hinv1). apply (IH sh1); [|exact Hinv1].
  destruct Hs as [->|Hs]; [done|]. eapply rtc_r; [exact Hsh0|exact Hs].
Qed.


End Connections.

(** ** A run *)

Section ConnectionWitness.
#[local] Existing Instance Recovery.witness_bytes.
#[local] Existing Instance Recovery.witness_ipnet.
#[local] Existing Instance Recovery.witness_profile.
#[local] Existing Instance Recovery.witness_chrono.
#[local] Existing Instance Recovery.witness_order.
#[local] Existing Instance Recovery.witness_contains.
#[local] Existing Instance Recovery.witness_syntax.
#[local] Existing Instance Recovery.witness_observations.
#[local] Existing Instance Recovery.witness_controls.
#[local] Existing Instance Recovery.witness_events.
#[local] Existing Instance demo_journal_json.
#[local] Instance conn_clock : Clock := (5 : DateTime).

(** A connection is accepted and sends its Initiation. *)
Definition conn_accepted : RoutingServiceState :=
  match accept_connection demo_started demo_speaker with Ok (st, _) => st | _ => demo_started end.
Definition conn_ingested : RoutingServiceState :=
  match ingest_bmp_message conn_accepted demo_initiation (Some 1) with Ok (st, _) => st | _ => conn_accepted end.

Lemma conn_accept_step : conn_step (∅, demo_started) ({[demo_speaker]} ∪ ∅, conn_accepted).
Proof. apply (conn_accept conn_clock ∅ demo_started demo_speaker conn_accepted 1); [reflexivity|discriminate]. Qed.

Lemma conn_ingested_ok : exists msg, ingest_bmp_message conn_accepted demo_initiation (Some 1) = Ok (conn_ingested, msg).
Proof.
  assert (match ingest_bmp_message conn_accepted demo_initiation (Some 1) with Ok _ => true | _ => false end = true) as Hok
    by (vm_compute; reflexivity).
  unfold conn_ingested. destruct (ingest_bmp_message conn_accepted demo_initiation (Some 1)) as [[st msg]| | |]; [|done..].
  by exists msg.
Qed.

Lemma conn_message_step :
  conn_step ({[demo_speaker]} ∪ ∅, conn_accepted) (({[demo_speaker]} ∪ ∅) ∖ {[msg_speaker_addr demo_initiation]}, conn_ingested).
Proof.
  destruct conn_ingested_ok as [msg Hok]. apply (conn_message _ conn_accepted demo_initiation (Some 1) conn_ingested msg).
  - split; [lia|]. intros s Hs.
    pose proof (f_equal (fmap (fun s => session_epoch (bs_source s))) Hs) as He.
    assert (Some 1 = Some (session_epoch (bs_source s))) as [= <-]; [|done].
    etransitivity; [|exact He]. vm_compute. reflexivity.
  - exact Hok.
  - reflexivity.
  - assert (events_of conn_ingested = [demo_up_event]) as He by reflexivity. unfold storable. rewrite He.
    split; [constructor; [reflexivity|constructor]|reflexivity].
Qed.


End ConnectionWitness.
