(* ===== verification/Netflow.v ===== *)
(** * NetFlow v9 and IPFIX ([src/streaming/netflow.rs])

    The receiver keeps, per exporter and observation domain, the templates it
    has seen, and publishes one flow per data record of a known template.  The
    two rates of a published flow are floating-point quotients of its counters
    and its duration, which are what is kept here; the socket loop is not
    modelled. *)

From Stdlib Require Import ZArith Lia ZifyBool.
From stdpp Require Import base numbers list option strings gmap fin_maps.
From S2P Require Import Prelude RustStd.

Local Open Scope Z_scope.

Definition FIELD_IN_BYTES : Z := 1.
Definition FIELD_IN_PKTS : Z := 2.
Definition FIELD_PROTOCOL : Z := 4.
Definition FIELD_TCP_FLAGS : Z := 6.
Definition FIELD_SRC_PORT : Z := 7.
Definition FIELD_SRC_ADDR : Z := 8.
Definition FIELD_DST_PORT : Z := 11.
Definition FIELD_DST_ADDR : Z := 12.
Definition FIELD_INPUT_SNMP : Z := 10.
Definition FIELD_OUTPUT_SNMP : Z := 14.
Definition FIELD_FIRST_SWITCHED : Z := 22.
Definition FIELD_LAST_SWITCHED : Z := 21.
Definition FIELD_BGP_SRC_AS : Z := 16.
Definition FIELD_BGP_DST_AS : Z := 17.
Definition FIELD_DIRECTION : Z := 61.

(** [std::net::SocketAddr] *)
Inductive SocketAddr : Type :=
| SocketAddr_V4 (ip : Ipv4Addr) (port : Z)
| SocketAddr_V6 (ip : Ipv6Addr) (port flowinfo scope_id : Z).

Definition socket_ip (a : SocketAddr) : IpAddr :=
  match a with SocketAddr_V4 ip _ => IpAddr_V4 ip | SocketAddr_V6 ip _ _ _ => IpAddr_V6 ip end.

#[global] Instance socket_addr_eq_dec : EqDecision SocketAddr.
Proof. solve_decision. Defined.
#[global] Instance socket_addr_countable : Countable SocketAddr.
Proof.
  refine (inj_countable'
    (fun a => match a with SocketAddr_V4 ip p => inl (ip, p) | SocketAddr_V6 ip p f s => inr (ip, p, f, s) end)
    (fun a => match a with inl (ip, p) => SocketAddr_V4 ip p | inr (ip, p, f, s) => SocketAddr_V6 ip p f s end) _).
  by intros [].
Defined.

(** Field types and lengths; by template, by source, by exporter. *)
Abbreviation Template := (list (Z * Z)).
Abbreviation SourceCache := (gmap Z Template).
Abbreviation TemplateCache := (gmap Z SourceCache).
Abbreviation Templates := (gmap SocketAddr TemplateCache).

Record FlowRecord := mkFlowRecord {
  src_address : string;
  dst_address : string;
  src_port : Z;
  dst_port : Z;
  protocol : Z;
  flow_bytes : Z;
  packets : Z;
  flow_start_ns : Z;
  flow_end_ns : Z;
  tcp_flags : Z;
  src_as : Z;
  dst_as : Z;
  input_snmp : Z;
  flow_direction : Z;
}.

(** The [let mut] variables of [decode_record]. *)
Record RawFlow := mkRawFlow {
  raw_src_addr : bytes;
  raw_dst_addr : bytes;
  raw_src_port : Z;
  raw_dst_port : Z;
  raw_protocol : Z;
  raw_bytes : Z;
  raw_packets : Z;
  raw_first_ms : Z;
  raw_last_ms : Z;
  raw_tcp_flags : Z;
  raw_src_as : Z;
  raw_dst_as : Z;
  raw_input_snmp : Z;
  raw_flow_direction : Z;
}.

Definition raw_zero : RawFlow :=
  mkRawFlow (replicate 4 Byte.x00) (replicate 4 Byte.x00) 0 0 0 0 0 0 0 0 0 0 0 0.

(** [v as i64] and [v as u32] *)
Definition as_u32 (v : Z) : Z := v mod 2 ^ 32.

Definition protocol_name (proto : Z) : string :=
  match proto with
  | 1 => "icmp" | 6 => "tcp" | 17 => "udp" | 47 => "gre" | 50 => "esp" | 89 => "ospf" | _ => "other"
  end.

Definition classify_tcp_flags (flags protocol : Z) : string :=
  if negb (protocol =? 6) then ""
  else
    let f := Z.land flags 0x3F in
    if f =? 0x02 then "SYN_ONLY"
    else if f =? 0x12 then "SYN_ACK"
    else if bit_set f 0x04 && negb (bit_set f 0x02) then "RST_FLOOD"
    else if f =? 0x10 then "ACK_FLOOD"
    else if f =? 0x01 then "FIN_FLOOD"
    else if bit_set f 0x02 then "SYN_MIX"
    else "ESTABLISHED".

Definition classify_amplification_vector (protocol dst_port : Z) : string :=
  if negb (protocol =? 17) then ""
  else
    match dst_port with
    | 53 => "dns" | 123 => "ntp" | 1900 => "ssdp" | 11211 => "memcached" | 389 => "ldap"
    | 5353 => "mdns" | 19 => "chargen" | 17 => "qotd" | 520 | 521 => "rip" | _ => ""
    end.

Definition read_variable_u64 (data : bytes) : Z :=
  match blen data with 1 | 2 | 4 | 8 => be data | _ => 0 end.

(** ** Templates *)

(** [for _ in 0..field_count] of a v9 template. *)
Definition v9_field {E} (data : bytes) (st : Z * Template) : Outcome E (Z * Template) :=
  let '(i, fields) := st in
  ftype ← be_at 2 data i;
  flen ← be_at 2 data (i + 2);
  Ok (i + 4, fields ++ [(ftype, flen)]).

Definition v9_template_step {E} (data : bytes) (st : Z * SourceCache) : Outcome E ((Z * SourceCache) + SourceCache) :=
  let '(i, cache) := st in
  if i + 4 <=? blen data then
    template_id ← be_at 2 data i;
    field_count ← be_at 2 data (i + 2);
    let i := i + 4 in
    if blen data <? i + field_count * 4 then Ok (inr cache)
    else
      '(i, fields) ← for_each (replicate (Z.to_nat field_count) tt) (fun _ => v9_field data) (i, []);
      Ok (inl (i, <[template_id := fields]> cache))
  else Ok (inr cache).

Definition parse_v9_template {E} (data : bytes) (cache : SourceCache) : Outcome E SourceCache :=
  loop (S (length data)) (v9_template_step data) (0, cache).

(** The same of an IPFIX template: an enterprise field is eight octets long. *)
Definition ipfix_field {E} (data : bytes) (st : Z * Template) : Outcome E (Z * Template) :=
  let '(i, fields) := st in
  raw_type ← be_at 2 data i;
  let ftype := Z.land raw_type 0x7FFF in
  flen ← be_at 2 data (i + 2);
  let enterprise := bit_set raw_type 0x8000 in
  Ok (i + (if enterprise then 8 else 4), fields ++ [(ftype, flen)]).

Definition ipfix_template_step {E} (data : bytes) (st : Z * SourceCache) : Outcome E ((Z * SourceCache) + SourceCache) :=
  let '(i, cache) := st in
  if i + 4 <=? blen data then
    template_id ← be_at 2 data i;
    if template_id <? 256 then Ok (inr cache)
    else
      field_count ← be_at 2 data (i + 2);
      let i := i + 4 in
      if blen data <? i + field_count * 4 then Ok (inr cache)
      else
        '(i, fields) ← for_each (replicate (Z.to_nat field_count) tt) (fun _ => ipfix_field data) (i, []);
        Ok (inl (i, <[template_id := fields]> cache))
  else Ok (inr cache).

Definition parse_ipfix_template {E} (data : bytes) (cache : SourceCache) : Outcome E SourceCache :=
  loop (S (length data)) (ipfix_template_step data) (0, cache).

Section Receiver.
Context `{BuildProfile}.

(** ** Records *)

(** The [match ftype] of [decode_record] on the field's octets. *)
Definition set_field {E} (ftype flen : Z) (d : bytes) (r : RawFlow) : Outcome E RawFlow :=
  let '(mkRawFlow sa da sp dp pr by_ pk fi la tf ss ds inp di) := r in
  if (ftype =? FIELD_SRC_ADDR) && (flen =? 4) then Ok (mkRawFlow d da sp dp pr by_ pk fi la tf ss ds inp di)
  else if (ftype =? FIELD_DST_ADDR) && (flen =? 4) then Ok (mkRawFlow sa d sp dp pr by_ pk fi la tf ss ds inp di)
  else if (ftype =? FIELD_SRC_PORT) && (flen =? 2) then
    v ← be_at 2 d 0; Ok (mkRawFlow sa da v dp pr by_ pk fi la tf ss ds inp di)
  else if (ftype =? FIELD_DST_PORT) && (flen =? 2) then
    v ← be_at 2 d 0; Ok (mkRawFlow sa da sp v pr by_ pk fi la tf ss ds inp di)
  else if (ftype =? FIELD_PROTOCOL) && (flen =? 1) then
    v ← idx d 0; Ok (mkRawFlow sa da sp dp v by_ pk fi la tf ss ds inp di)
  else if ftype =? FIELD_IN_BYTES then Ok (mkRawFlow sa da sp dp pr (read_variable_u64 d) pk fi la tf ss ds inp di)
  else if ftype =? FIELD_IN_PKTS then Ok (mkRawFlow sa da sp dp pr by_ (read_variable_u64 d) fi la tf ss ds inp di)
  else if (ftype =? FIELD_TCP_FLAGS) && (1 <=? flen) then
    v ← idx d (flen - 1); Ok (mkRawFlow sa da sp dp pr by_ pk fi la v ss ds inp di)
  else if ftype =? FIELD_BGP_SRC_AS then
    Ok (mkRawFlow sa da sp dp pr by_ pk fi la tf (as_u32 (read_variable_u64 d)) ds inp di)
  else if ftype =? FIELD_BGP_DST_AS then
    Ok (mkRawFlow sa da sp dp pr by_ pk fi la tf ss (as_u32 (read_variable_u64 d)) inp di)
  else if ftype =? FIELD_INPUT_SNMP then
    Ok (mkRawFlow sa da sp dp pr by_ pk fi la tf ss ds (as_u32 (read_variable_u64 d)) di)
  else if ftype =? FIELD_OUTPUT_SNMP then Ok r
  else if (ftype =? FIELD_DIRECTION) && (1 <=? flen) then
    v ← idx d (flen - 1); Ok (mkRawFlow sa da sp dp pr by_ pk fi la tf ss ds inp v)
  else if (ftype =? FIELD_FIRST_SWITCHED) && (flen =? 4) then
    v ← be_at 4 d 0; Ok (mkRawFlow sa da sp dp pr by_ pk v la tf ss ds inp di)
  else if (ftype =? FIELD_LAST_SWITCHED) && (flen =? 4) then
    v ← be_at 4 d 0; Ok (mkRawFlow sa da sp dp pr by_ pk fi v tf ss ds inp di)
  else Ok r.

(** One round of the loop over the fields: the error is [return None]. *)
Definition decode_field (data : bytes) (field : Z * Z) (st : Z * RawFlow) : Outcome unit (Z * RawFlow) :=
  let '(ftype, flen) := field in
  let '(offset, r) := st in
  if blen data <? offset + flen then Err tt
  else
    d ← slice data offset (offset + flen);
    r ← set_field ftype flen d r;
    Ok (offset + flen, r).

(** The instants of a flow: relative to the uptime of the exporter, or (IPFIX)
    the instant of the export. *)
Definition flow_times {E} (sys_uptime_ms unix_secs first_ms last_ms : Z) : Outcome E (Z * Z) :=
  if 0 <? sys_uptime_ms then
    unix_ns ← checked_i64 (as_i64 unix_secs * 1000000000);
    uptime_ns ← checked_i64 (as_i64 sys_uptime_ms * 1000000);
    base1 ← checked_i64 (unix_ns - uptime_ns);
    first_ns ← checked_i64 (as_i64 first_ms * 1000000);
    start_ns ← checked_i64 (base1 + first_ns);
    base2 ← checked_i64 (unix_ns - uptime_ns);
    last_ns ← checked_i64 (as_i64 last_ms * 1000000);
    end_ns ← checked_i64 (base2 + last_ns);
    Ok (start_ns, end_ns)
  else
    end_ns ← checked_i64 (as_i64 unix_secs * 1000000000);
    Ok (end_ns, end_ns).

Definition finish_flow {E} (sys_uptime_ms unix_secs : Z) (r : RawFlow) : Outcome E FlowRecord :=
  '(start_ns, end_ns) ← flow_times sys_uptime_ms unix_secs (raw_first_ms r) (raw_last_ms r);
  Ok (mkFlowRecord (ipv4_to_string (raw_src_addr r)) (ipv4_to_string (raw_dst_addr r)) (raw_src_port r)
        (raw_dst_port r) (raw_protocol r) (raw_bytes r) (raw_packets r) start_ns end_ns (raw_tcp_flags r)
        (raw_src_as r) (raw_dst_as r) (raw_input_snmp r) (raw_flow_direction r)).

Definition decode_record {E} (data : bytes) (fields : Template) (sys_uptime_ms unix_secs : Z)
    : Outcome E (option FlowRecord) :=
  st ← result_ok (for_each fields (decode_field data) (0, raw_zero));
  match st with
  | Some (_, r) => Some <$> finish_flow sys_uptime_ms unix_secs r
  | None => Ok None
  end.

(** What is published of a flow. *)
Record PublishedFlow := mkPublished {
  pf_exporter : string;
  pf_flow : FlowRecord;
  pf_duration_ns : Z;
  pf_protocol : string;
  pf_tcp_flags_pattern : string;
  pf_amplification_vector : string;
}.

Definition publish_flow {E} (exporter_ip : string) (flow : FlowRecord) (bus : list PublishedFlow)
    : Outcome E (list PublishedFlow) :=
  dur ← checked_i64 (flow_end_ns flow - flow_start_ns flow);
  let duration_ns := if dur <=? 0 then 1000000000 else dur in
  Ok (bus ++ [mkPublished exporter_ip flow duration_ns (protocol_name (protocol flow))
                (classify_tcp_flags (tcp_flags flow) (protocol flow))
                (classify_amplification_vector (protocol flow) (dst_port flow))]).

Definition emit_step {E} (data : bytes) (fields : Template) (record_len sys_uptime_ms unix_secs : Z)
    (exporter_ip : string) (st : Z * list PublishedFlow)
    : Outcome E ((Z * list PublishedFlow) + list PublishedFlow) :=
  let '(offset, bus) := st in
  if offset + record_len <=? blen data then
    record ← slice data offset (offset + record_len);
    flow ← decode_record record fields sys_uptime_ms unix_secs;
    bus ← match flow with Some f => publish_flow exporter_ip f bus | None => Ok bus end;
    Ok (inl (offset + record_len, bus))
  else Ok (inr bus).

Definition sum_list (l : list Z) : Z := foldr Z.add 0 l.

Definition emit_flows_v9 {E} (data : bytes) (fields : Template) (sys_uptime_ms unix_secs : Z) (exporter_ip : string)
    (bus : list PublishedFlow) : Outcome E (list PublishedFlow) :=
  let record_len := sum_list (snd <$> fields) in
  if record_len =? 0 then Ok bus
  else loop (S (length data)) (emit_step data fields record_len sys_uptime_ms unix_secs exporter_ip) (0, bus).

(** ** Packets *)

(** The loop over the sets of a packet, common to the two protocols: a length
    below four or past the end stops it. *)
Definition set_step {E A} (body : Z -> bytes -> A -> Outcome E A) (pkt : bytes) (st : Z * A) : Outcome E ((Z * A) + A) :=
  let '(offset, s) := st in
  if offset + 4 <=? blen pkt then
    set_id ← be_at 2 pkt offset;
    length ← be_at 2 pkt (offset + 2);
    if (length <? 4) || (blen pkt <? offset + length) then Ok (inr s)
    else
      data ← slice pkt (offset + 4) (offset + length);
      s ← body set_id data s;
      Ok (inl (offset + length, s))
  else Ok (inr s).

Definition sets_loop {E A} (body : Z -> bytes -> A -> Outcome E A) (pkt : bytes) (offset : Z) (s : A) : Outcome E A :=
  loop (S (length pkt)) (set_step body pkt) (offset, s).

Definition v9_set {E} (sys_uptime_ms unix_secs : Z) (exporter_ip : string) (flowset_id : Z) (data : bytes)
    (st : SourceCache * list PublishedFlow) : Outcome E (SourceCache * list PublishedFlow) :=
  let '(cache, bus) := st in
  match flowset_id with
  | 0 => cache ← parse_v9_template data cache; Ok (cache, bus)
  | 1 => Ok (cache, bus)
  | template_id =>
      match cache !! template_id with
      | Some fields => bus ← emit_flows_v9 data fields sys_uptime_ms unix_secs exporter_ip bus; Ok (cache, bus)
      | None => Ok (cache, bus)
      end
  end.

Definition ipfix_set {E} (export_time : Z) (exporter_ip : string) (set_id : Z) (data : bytes)
    (st : SourceCache * list PublishedFlow) : Outcome E (SourceCache * list PublishedFlow) :=
  let '(cache, bus) := st in
  match set_id with
  | 2 => cache ← parse_ipfix_template data cache; Ok (cache, bus)
  | 3 => Ok (cache, bus)
  | template_id =>
      if 256 <=? template_id then
        match cache !! template_id with
        | Some fields => bus ← emit_flows_v9 data fields 0 export_time exporter_ip bus; Ok (cache, bus)
        | None => Ok (cache, bus)
        end
      else Ok (cache, bus)
  end.

(** [templates.entry(peer).or_default().entry(source).or_default()] *)
Definition source_cache (templates : Templates) (peer : SocketAddr) (source : Z) : SourceCache :=
  default ∅ (default ∅ (templates !! peer) !! source).
Definition set_source_cache (templates : Templates) (peer : SocketAddr) (source : Z) (c : SourceCache) : Templates :=
  <[peer := <[source := c]> (default ∅ (templates !! peer))]> templates.

Definition parse_v9 (pkt : bytes) (peer : SocketAddr) (templates : Templates) (bus : list PublishedFlow)
    (exporter_ip : string) : Outcome string (Templates * list PublishedFlow) :=
  if blen pkt <? 20 then Err "v9 header too short"%string
  else
    sys_uptime_ms ← be_at 4 pkt 4;
    unix_secs ← be_at 4 pkt 8;
    source_id ← be_at 4 pkt 16;
    '(cache, bus) ← sets_loop (v9_set sys_uptime_ms unix_secs exporter_ip) pkt 20
                      (source_cache templates peer source_id, bus);
    Ok (set_source_cache templates peer source_id cache, bus).

Definition parse_ipfix (pkt : bytes) (peer : SocketAddr) (templates : Templates) (bus : list PublishedFlow)
    (exporter_ip : string) : Outcome string (Templates * list PublishedFlow) :=
  if blen pkt <? 16 then Err "IPFIX header too short"%string
  else
    export_time ← be_at 4 pkt 4;
    domain_id ← be_at 4 pkt 12;
    '(cache, bus) ← sets_loop (ipfix_set export_time exporter_ip) pkt 16
                      (source_cache templates peer domain_id, bus);
    Ok (set_source_cache templates peer domain_id cache, bus).

Definition handle_packet (pkt : bytes) (peer : SocketAddr) (templates : Templates) (bus : list PublishedFlow)
    : Outcome string (Templates * list PublishedFlow) :=
  if blen pkt <? 4 then Err "packet too short"%string
  else
    version ← be_at 2 pkt 0;
    let exporter_ip := ip_to_string (socket_ip peer) in
    match version with
    | 9 => parse_v9 pkt peer templates bus exporter_ip
    | 10 => parse_ipfix pkt peer templates bus exporter_ip
    | v => Err ("unsupported netflow version " ++ fmt_dec v)%string
    end.

End Receiver.

(** ** Safety *)

(** Templates as they are kept: the lengths of their fields are 16-bit numbers. *)
Definition lengths_ok (fields : Template) : Prop := Forall (fun f => 0 <= f.2) fields.
Definition cache_ok (c : SourceCache) : Prop := map_Forall (fun _ fields => lengths_ok fields) c.

Lemma cache_ok_insert c id fields : cache_ok c -> lengths_ok fields -> cache_ok (<[id := fields]> c).
Proof. intros Hc Hf. by apply map_Forall_insert_2. Qed.

Lemma lengths_ok_snoc fields ftype flen : lengths_ok fields -> 0 <= flen -> lengths_ok (fields ++ [(ftype, flen)]).
Proof. intros Hf Hl. apply Forall_app. split; [done|]. by constructor. Qed.

Lemma wp_v9_fields {E} pn data n i0 :
  0 <= i0 -> i0 + 4 * Z.of_nat n <= blen data ->
  wp (E := E) pn (for_each (replicate n tt) (fun _ => v9_field data) (i0, []))
    (fun st => st.1 = i0 + 4 * Z.of_nat n /\ lengths_ok st.2).
Proof.
  intros H0 Hn. eapply wp_mono.
  - apply (wp_for_each_done pn (fun prev st => st.1 = i0 + 4 * Z.of_nat (length prev) /\ lengths_ok st.2)).
    { split; [simpl; lia|constructor]. }
    intros prev [] [i fields] [todo Htodo] [Hi Hf]. cbn [fst snd] in *. subst i.
    apply (f_equal length) in Htodo. rewrite length_replicate, length_app in Htodo. simpl in Htodo.
    unfold v9_field. repeat wp_step. cbn [fst snd]. rewrite length_app. split; [simpl; lia|].
    apply lengths_ok_snoc; [done|lia].
  - intros st Hst. by rewrite length_replicate in Hst.
Qed.

Lemma wp_v9_template {E} pn data cache : cache_ok cache -> wp (E := E) pn (parse_v9_template data cache) cache_ok.
Proof.
  intros Hc. unfold parse_v9_template. apply (wp_loop_pos_inv _ _ _ _ _ cache_ok); [pose proof (blen_nonneg data); lia|done|].
  intros i c Hi Hok. unfold v9_template_step. wp_core; [|by apply wp_ok].
  wp_core. wp_step. wp_core. wp_step. wp_core; [by apply wp_ok|]. wp_core.
  eapply wp_mono; [apply wp_v9_fields; lia|]. intros [j fields] [Hj Hf]. cbn [fst snd] in *. apply wp_ok. cbn [fst snd].
  split; [lia|]. by apply cache_ok_insert.
Qed.

(** *** Where the fields of an IPFIX template lie *)

(** The number in two octets of a buffer. *)
Definition u16_at (data : bytes) (p : Z) : Z := be (take 2 (drop (Z.to_nat p) data)).

(** A field specification takes eight octets when its enterprise bit is set. *)
Definition field_size (data : bytes) (p : Z) : Z := if bit_set (u16_at data p) 0x8000 then 8 else 4.

(** From [i], [n] field specifications end at [j]. *)
Inductive fields_at (data : bytes) (i : Z) : nat -> Z -> Prop :=
  | fields_none : fields_at data i 0 i
  | fields_next n j : fields_at data i n j -> j + 4 <= blen data -> fields_at data i (S n) (j + field_size data j).

(** A template begins at [i]: its identifier, the number of its fields, and the
    fields. *)
Inductive template_at (data : bytes) : Z -> Prop :=
  | template_first : template_at data 0
  | template_next i n j :
      template_at data i -> i + 4 <= blen data -> u16_at data (i + 2) = Z.of_nat n -> fields_at data (i + 4) n j -> template_at data j.

(** A template whose fields would fit if each took four octets, in which the
    enterprise fields among the first [k] push the next one behind the end. *)
Definition overruns (data : bytes) : Prop :=
  exists i k j, template_at data i /\ i + 4 + 4 * u16_at data (i + 2) <= blen data /\ Z.of_nat k < u16_at data (i + 2) /\
    fields_at data (i + 4) k j /\ i + 4 + 4 * Z.of_nat k < j /\ blen data < j + 4.

(** The sets of a packet, the first of which begins at [start]. *)
Inductive set_at (pkt : bytes) (start : Z) : Z -> Prop :=
  | set_first : set_at pkt start start
  | set_next o : set_at pkt start o -> 4 <= u16_at pkt (o + 2) -> o + u16_at pkt (o + 2) <= blen pkt -> set_at pkt start (o + u16_at pkt (o + 2)).

(** The octets of the set. *)
Definition set_data (pkt : bytes) (o : Z) : bytes :=
  take (Z.to_nat (u16_at pkt (o + 2) - 4)) (drop (Z.to_nat (o + 4)) pkt).

(** The packet is IPFIX and has such a template set. *)
Definition misread (pkt : bytes) : Prop :=
  u16_at pkt 0 = 10 /\ exists o, set_at pkt 16 o /\ u16_at pkt o = 2 /\ overruns (set_data pkt o).

Lemma fields_at_ge data i n j : fields_at data i n j -> i + 4 * Z.of_nat n <= j.
Proof. induction 1 as [|n j _ IH Hj]; [lia|]. unfold field_size. destruct (bit_set _ _); lia. Qed.

Lemma wp_ipfix_field {E} data i n k j fields :
  0 <= i -> template_at data i -> u16_at data (i + 2) = Z.of_nat n -> i + 4 + 4 * Z.of_nat n <= blen data -> (k < n)%nat ->
  fields_at data (i + 4) k j -> lengths_ok fields ->
  wp (E := E) (overruns data) (ipfix_field data (j, fields)) (fun st => fields_at data (i + 4) (S k) st.1 /\ lengths_ok st.2).
Proof.
  intros H0 Hi Hn Hfit Hk Hj Hf. unfold ipfix_field. pose proof (fields_at_ge _ _ _ _ Hj) as Hge.
  assert (~ j + 4 <= blen data -> overruns data) as Hpn.
  { intros Hlt. exists i, k, j. rewrite Hn. split_and!; [done|lia|lia|done|lia|lia]. }
  apply wp_bind, wp_post; [apply wp_be_at; [lia|intros; apply Hpn; lia|done]|].
  intros raw (Hr1 & Hr2 & Hr3 & ->)%be_at_inv. cbv zeta.
  apply wp_bind, wp_be_at; [lia|intros; apply Hpn; lia|]. intros flen Hl1 Hl2 Hl3. apply wp_ok. cbn [fst snd].
  split; [|apply lengths_ok_snoc; [done|lia]]. apply (fields_next data (i + 4) k j); [done|lia].
Qed.

Lemma wp_ipfix_template {E} data cache : cache_ok cache ->
  wp (E := E) (overruns data) (parse_ipfix_template data cache) cache_ok.
Proof.
  intros Hc. unfold parse_ipfix_template.
  apply (wp_loop _ (fun st => 0 <= st.1 /\ template_at data st.1 /\ cache_ok st.2) (fun st => Z.to_nat (blen data - st.1)));
    [by split_and!; [|constructor|]|simpl; unfold blen; lia|].
  intros [i c] (Hi & Hat & Hok). cbn [fst snd] in *. unfold ipfix_template_step. wp_core; [|by apply wp_ok].
  wp_core. wp_step. wp_core; [by apply wp_ok|]. wp_core. apply wp_post; [wp_step; done|].
  intros count (_ & _ & _ & Hcount)%be_at_inv. change (count = u16_at data (i + 2)) in Hcount.
  assert (0 <= count) as Hpos by (subst count; apply be_bounds).
  wp_core; [by apply wp_ok|]. wp_core. eapply wp_mono.
  - apply (wp_for_each_done _ (fun prev st => fields_at data (i + 4) (length prev) st.1 /\ lengths_ok st.2)).
    { split; constructor. }
    intros prev [] [j fields] [todo Htodo] [Hj Hf]. apply (f_equal length) in Htodo.
    rewrite length_replicate, length_app in Htodo. simpl in Htodo. rewrite length_app, Nat.add_1_r.
    apply (wp_ipfix_field data i (Z.to_nat count)); try done; lia.
  - intros [j fields] [Hj Hf]. apply wp_ok. cbn [fst snd] in *. rewrite length_replicate in Hj. pose proof (fields_at_ge _ _ _ _ Hj).
    split; [|lia]. split_and!; [lia| |by apply cache_ok_insert].
    apply (template_next data i (Z.to_nat count) j); [done|lia|lia|done].
Qed.

Section Laws.
Context `{BuildProfile}.

Lemma as_i64_u32 v : 0 <= v < 2 ^ 32 -> as_i64 v = v.
Proof. intros Hv. unfold as_i64. rewrite Z.mod_small by lia. lia. Qed.

(** The instants the header and the record describe, in nanoseconds. *)
Definition instants (up secs first last : Z) : Z * Z :=
  if 0 <? up
  then (secs * 1000000000 - up * 1000000 + first * 1000000, secs * 1000000000 - up * 1000000 + last * 1000000)
  else (secs * 1000000000, secs * 1000000000).

Lemma flow_times_exact {E} up secs first last :
  0 <= up < 2 ^ 32 -> 0 <= secs < 2 ^ 32 -> 0 <= first < 2 ^ 32 -> 0 <= last < 2 ^ 32 ->
  flow_times (E := E) up secs first last = Ok (instants up secs first last).
Proof.
  intros. unfold flow_times, instants. rewrite !as_i64_u32 by done.
  case_if; repeat (match goal with |- checked_i64 ?v ≫= _ = _ => rewrite (checked_i64_ok v) by lia | |- Ok _ ≫= _ = _ => rewrite bind_Ok end); done.
Qed.

(** What the loop over the fields keeps. *)
Definition raw_ok (r : RawFlow) : Prop := 0 <= raw_first_ms r < 2 ^ 32 /\ 0 <= raw_last_ms r < 2 ^ 32.

(** Everything is within its type. *)
Definition below (w v : Z) : Prop := 0 <= v < 2 ^ w.

Definition raw_range (r : RawFlow) : Prop :=
  raw_ok r /\ blen (raw_src_addr r) = 4 /\ blen (raw_dst_addr r) = 4 /\ below 16 (raw_src_port r) /\ below 16 (raw_dst_port r) /\
  below 8 (raw_protocol r) /\ below 64 (raw_bytes r) /\ below 64 (raw_packets r) /\ below 8 (raw_tcp_flags r) /\
  below 32 (raw_src_as r) /\ below 32 (raw_dst_as r) /\ below 32 (raw_input_snmp r) /\ below 8 (raw_flow_direction r).

Lemma read_variable_range d : below 64 (read_variable_u64 d).
Proof.
  unfold read_variable_u64, below. pose proof (be_bounds d) as Hb.
  destruct (blen d) as [|n|n]; [lia| |lia]. repeat (destruct n as [n|n|]; try lia).
Qed.

Lemma as_u32_range v : below 32 (as_u32 v).
Proof. apply Z.mod_pos_bound. lia. Qed.

#[local] Ltac in_range :=
  apply wp_ok; unfold raw_range, raw_ok, below;
  cbn [raw_src_addr raw_dst_addr raw_src_port raw_dst_port raw_protocol raw_bytes raw_packets raw_first_ms raw_last_ms raw_tcp_flags raw_src_as
       raw_dst_as raw_input_snmp raw_flow_direction];
  split_and!; (assumption || lia).

Lemma wp_set_field {E} pn ftype flen d r : blen d = flen -> raw_range r -> wp (E := E) pn (set_field ftype flen d r) raw_range.
Proof.
  intros Hd ([Hf Hl] & Hr). pose proof (read_variable_range d) as Hv. pose proof (as_u32_range (read_variable_u64 d)) as Hu. pose proof Hr as Hr'.
  destruct r. unfold set_field. unfold raw_ok, below in Hf, Hl, Hr', Hv, Hu.
  cbn [raw_src_addr raw_dst_addr raw_src_port raw_dst_port raw_protocol raw_bytes raw_packets raw_first_ms raw_last_ms raw_tcp_flags raw_src_as
       raw_dst_as raw_input_snmp raw_flow_direction] in Hf, Hl, Hr'. destruct Hr' as (? & ? & ? & ? & ? & ? & ? & ? & ? & ? & ? & ?).
  repeat (let Hc := fresh "Hc" in
          match goal with |- wp _ (if ?c then _ else _) _ => destruct c eqn:Hc; [|clear Hc] end;
          [first [in_range
                 |apply wp_bind, wp_be_at; [lia|intros; exfalso; lia|intros v ? ? ?; in_range]
                 |apply wp_bind, wp_idx; [intros; exfalso; lia|intros v ? ?; in_range]]|]).
  in_range.
Qed.

Lemma instants_bounds up secs first last :
  0 <= up < 2 ^ 32 -> 0 <= secs < 2 ^ 32 -> 0 <= first < 2 ^ 32 -> 0 <= last < 2 ^ 32 ->
  - 2 ^ 62 <= (instants up secs first last).1 < 2 ^ 62 /\ - 2 ^ 62 <= (instants up secs first last).2 < 2 ^ 62.
Proof. intros. unfold instants. case_if; cbn [fst snd]; lia. Qed.

(** The addresses of a flow are those of four octets, and its numbers within their
    types. *)
Definition flow_ok (f : FlowRecord) : Prop :=
  (exists a b, blen a = 4 /\ blen b = 4 /\ src_address f = ipv4_to_string a /\ dst_address f = ipv4_to_string b) /\
  below 16 (src_port f) /\ below 16 (dst_port f) /\ below 8 (protocol f) /\ below 64 (flow_bytes f) /\ below 64 (packets f) /\
  below 8 (tcp_flags f) /\ below 32 (src_as f) /\ below 32 (dst_as f) /\ below 32 (input_snmp f) /\ below 8 (flow_direction f) /\
  - 2 ^ 62 <= flow_start_ns f < 2 ^ 62 /\ - 2 ^ 62 <= flow_end_ns f < 2 ^ 62.

Lemma wp_decode_record {E} pn data fields up secs :
  lengths_ok fields -> 0 <= up < 2 ^ 32 -> 0 <= secs < 2 ^ 32 ->
  wp (E := E) pn (decode_record data fields up secs) (fun o => forall f, o = Some f -> flow_ok f).
Proof.
  intros Hl Hu Hs. unfold decode_record. apply wp_bind, wp_result_ok; [done|].
  eapply wp_mono.
  - apply (wp_for_each pn (fun st => 0 <= st.1 /\ raw_range st.2)); [by split; [|unfold raw_range, raw_ok, below]|].
    intros [ftype flen] [offset r] Hin [Ho Hr]. unfold decode_field.
    apply (proj1 (Forall_forall _ _) Hl) in Hin. cbn [fst snd] in *. wp_core; [done|].
    wp_core. wp_step. wp_core. eapply wp_mono; [apply wp_set_field; [lia|done]|]. intros r' Hr'. apply wp_ok. split; [simpl; lia|done].
  - intros [offset r] (_ & [Hf Hla] & Hsa & Hda & Hr). unfold finish_flow. rewrite flow_times_exact by done. apply wp_fmap.
    pose proof (instants_bounds up secs _ _ Hu Hs Hf Hla) as Hb. destruct (instants _ _ _ _) as [start end_].
    rewrite bind_Ok. apply wp_ok. intros f [= <-]. unfold flow_ok. cbn. split; [by exists (raw_src_addr r), (raw_dst_addr r)|]. tauto.
Qed.

(** What is published of a flow. *)
Definition published_ok (ip : string) (p : PublishedFlow) : Prop :=
  let f := pf_flow p in
  pf_exporter p = ip /\ flow_ok f /\ 0 < pf_duration_ns p < 2 ^ 63 /\
  pf_duration_ns p = (if flow_end_ns f <=? flow_start_ns f then 1000000000 else flow_end_ns f - flow_start_ns f) /\
  pf_protocol p = protocol_name (protocol f) /\ pf_tcp_flags_pattern p = classify_tcp_flags (tcp_flags f) (protocol f) /\
  pf_amplification_vector p = classify_amplification_vector (protocol f) (dst_port f).

(** Flows of one exporter were added. *)
Definition grew (ip : string) (bus bus' : list PublishedFlow) : Prop :=
  exists new, bus' = bus ++ new /\ Forall (published_ok ip) new.

#[global] Instance grew_preorder ip : PreOrder (grew ip).
Proof.
  split; [intros b; exists []; by rewrite app_nil_r|].
  intros b1 b2 b3 (n1 & -> & H1) (n2 & -> & H2). exists (n1 ++ n2). rewrite app_assoc. split; [done|by apply Forall_app].
Qed.

Lemma wp_publish {E} pn ip f bus : flow_ok f -> wp (E := E) pn (publish_flow ip f bus) (grew ip bus).
Proof.
  intros Hf. pose proof Hf as (_ & _ & _ & _ & _ & _ & _ & _ & _ & _ & _ & Hs & He). unfold publish_flow.
  rewrite checked_i64_ok by lia. rewrite bind_Ok. apply wp_ok. eexists. split; [done|]. apply Forall_singleton.
  unfold published_ok. cbn [pf_exporter pf_flow pf_duration_ns pf_protocol pf_tcp_flags_pattern pf_amplification_vector].
  split_and!; try done; destruct (Z.leb_spec (flow_end_ns f - flow_start_ns f) 0), (Z.leb_spec (flow_end_ns f) (flow_start_ns f)); lia.
Qed.

Lemma sum_nonneg l : Forall (fun x => 0 <= x) l -> 0 <= sum_list l.
Proof. induction 1; simpl; lia. Qed.

Lemma wp_emit_flows {E} pn data fields up secs ip bus :
  lengths_ok fields -> 0 <= up < 2 ^ 32 -> 0 <= secs < 2 ^ 32 ->
  wp (E := E) pn (emit_flows_v9 data fields up secs ip bus) (grew ip bus).
Proof.
  intros Hl Hu Hs. unfold emit_flows_v9. wp_core; [by apply wp_ok|].
  assert (0 <= sum_list (snd <$> fields)) by (apply sum_nonneg, Forall_fmap; exact Hl).
  apply (wp_loop_pos_inv _ _ _ _ _ (grew ip bus)); [pose proof (blen_nonneg data); lia|done|].
  intros offset b Ho Hb. unfold emit_step. wp_core; [|by apply wp_ok]. wp_core. wp_step. wp_core.
  eapply wp_mono; [by apply wp_decode_record|]. intros [f|] Hf; wp_core.
  - eapply wp_mono; [by apply wp_publish, Hf|]. intros b' Hb'. apply wp_ok. cbn [fst snd].
    split; [lia|]. by etransitivity.
  - apply wp_ok, wp_ok. cbn [fst snd]. split; [lia|done].
Qed.

Lemma wp_sets_loop {E A} pn (I : A -> Prop) (body : Z -> bytes -> A -> Outcome E A) pkt start s :
  0 <= start <= blen pkt -> I s ->
  (forall o s, set_at pkt start o -> I s -> wp pn (body (u16_at pkt o) (set_data pkt o) s) I) ->
  wp pn (sets_loop body pkt start s) I.
Proof.
  intros Hlen Hs Hbody. unfold sets_loop.
  apply (wp_loop _ (fun st => 0 <= st.1 /\ set_at pkt start st.1 /\ I st.2) (fun st => Z.to_nat (blen pkt - st.1)));
    [split_and!; [cbn; lia|constructor|done]|cbn; unfold blen; lia|].
  intros [o s'] (Ho & Hat & Hs'). cbn [fst snd] in *. unfold set_step. wp_core; [|by apply wp_ok].
  wp_core. apply wp_post; [wp_step; done|]. intros id (_ & _ & _ & ->)%be_at_inv.
  wp_core. apply wp_post; [wp_step; done|]. intros len (_ & _ & _ & Hlen')%be_at_inv. change (len = u16_at pkt (o + 2)) in Hlen'.
  wp_core; [by apply wp_ok|]. wp_core. apply wp_post; [wp_step; done|].
  intros data (_ & _ & _ & Hd)%slice_inv. wp_core. eapply wp_mono.
  - assert (data = set_data pkt o) as -> by (rewrite Hd; unfold set_data; rewrite <- Hlen'; do 2 f_equal; lia). by apply Hbody.
  - intros s'' Hs''. apply wp_ok. cbn [fst snd]. split; [|lia]. split_and!; [lia| |done]. rewrite Hlen'. apply set_next; [done|lia|lia].
Qed.

Definition set_inv (ip : string) (bus : list PublishedFlow) (st : SourceCache * list PublishedFlow) : Prop :=
  cache_ok st.1 /\ grew ip bus st.2.

Lemma wp_v9_set {E} pn up secs ip bus id data st :
  0 <= up < 2 ^ 32 -> 0 <= secs < 2 ^ 32 -> set_inv ip bus st ->
  wp (E := E) pn (v9_set up secs ip id data st) (set_inv ip bus).
Proof.
  intros Hu Hs [Hc Hb]. destruct st as [cache b]. cbn [fst snd] in *.
  assert (wp (E := E) pn (cache ← parse_v9_template data cache; Ok (cache, b)) (set_inv ip bus)) as Ht.
  { apply wp_bind. eapply wp_mono; [by apply wp_v9_template|]. intros c' Hc'. by apply wp_ok. }
  assert (wp (E := E) pn (match cache !! id with
            | Some fields => b ← emit_flows_v9 data fields up secs ip b; Ok (cache, b)
            | None => Ok (cache, b) end) (set_inv ip bus)) as Hd.
  { destruct (cache !! id) as [fields|] eqn:Hf; [|by apply wp_ok]. apply Hc in Hf.
    apply wp_bind. eapply wp_mono; [by apply wp_emit_flows|]. intros b' Hb'. apply wp_ok. split; [done|]. by etransitivity. }
  unfold v9_set. destruct id as [|[]|]; done.
Qed.

Lemma wp_ipfix_set {E} secs ip bus id data st :
  0 <= secs < 2 ^ 32 -> set_inv ip bus st ->
  wp (E := E) (id = 2 /\ overruns data) (ipfix_set secs ip id data st) (set_inv ip bus).
Proof.
  intros Hs [Hc Hb]. destruct st as [cache b]. cbn [fst snd] in *. set (pn := id = 2 /\ overruns data).
  assert (wp (E := E) (overruns data) (cache ← parse_ipfix_template data cache; Ok (cache, b)) (set_inv ip bus)) as Ht.
  { apply wp_bind. eapply wp_mono; [by apply wp_ipfix_template|]. intros c' Hc'. by apply wp_ok. }
  assert (wp (E := E) pn
            (if 256 <=? id then match cache !! id with
              | Some fields => b ← emit_flows_v9 data fields 0 secs ip b; Ok (cache, b)
              | None => Ok (cache, b) end else Ok (cache, b)) (set_inv ip bus)) as Hd.
  { case_if; [|by apply wp_ok]. destruct (cache !! id) as [fields|] eqn:Hf; [|by apply wp_ok]. apply Hc in Hf.
    apply wp_bind. eapply wp_mono; [by apply wp_emit_flows|]. intros b' Hb'. apply wp_ok. split; [done|]. by etransitivity. }
  unfold ipfix_set. assert (id = 2 \/ id <> 2) as [->|Hne] by lia; [by eapply wp_conseq; [exact Ht|done|]|].
  by destruct id as [|[[]|[]|]|].
Qed.

(** Every template that any exporter has sent. *)
Definition templates_ok (t : Templates) : Prop :=
  forall peer tc source c, t !! peer = Some tc -> tc !! source = Some c -> cache_ok c.

Lemma source_cache_ok t peer source : templates_ok t -> cache_ok (source_cache t peer source).
Proof.
  intros Ht. unfold source_cache. destruct (t !! peer) as [tc|] eqn:Hp; cbn [default from_option id].
  - destruct (tc !! source) as [c|] eqn:Hc; cbn [default from_option id]; [by eapply Ht|apply map_Forall_empty].
  - rewrite lookup_empty. apply map_Forall_empty.
Qed.

Lemma set_source_cache_ok t peer source c : templates_ok t -> cache_ok c -> templates_ok (set_source_cache t peer source c).
Proof.
  intros Ht Hc p tc s c'. unfold set_source_cache. rewrite lookup_insert. case_decide as Hp; [intros [= <-]|by apply Ht].
  rewrite lookup_insert. case_decide; [by intros [= <-]|]. destruct (t !! peer) as [tc0|] eqn:Hp0; cbn [default from_option id].
  - by eapply Ht.
  - by rewrite lookup_empty.
Qed.

Definition packet_post (templates : Templates) (peer : SocketAddr) (bus : list PublishedFlow)
    (r : Templates * list PublishedFlow) : Prop :=
  templates_ok r.1 /\ (forall q, q <> peer -> r.1 !! q = templates !! q) /\
  grew (ip_to_string (socket_ip peer)) bus r.2.

Lemma packet_post_ret pn templates peer bus source cache b :
  templates_ok templates -> set_inv (ip_to_string (socket_ip peer)) bus (cache, b) ->
  wp (E := string) pn (Ok (set_source_cache templates peer source cache, b)) (packet_post templates peer bus).
Proof.
  intros Ht [Hc Hb]. apply wp_ok. cbn [fst snd] in *. split_and!; [by apply set_source_cache_ok| |done].
  intros q Hq. cbn [fst]. unfold set_source_cache. by rewrite lookup_insert_ne.
Qed.

Lemma wp_parse_v9 pn pkt peer templates bus : templates_ok templates ->
  wp pn (parse_v9 pkt peer templates bus (ip_to_string (socket_ip peer))) (packet_post templates peer bus).
Proof.
  intros Ht. unfold parse_v9. wp_core; [done|]. do 3 (wp_core; wp_step). wp_core. blen_simpl. eapply wp_mono.
  - apply (wp_sets_loop _ (set_inv (ip_to_string (socket_ip peer)) bus)); [lia|split; [by apply source_cache_ok|done]|].
    intros o s _ Hs. by apply wp_v9_set.
  - intros [cache b] Hs. by apply packet_post_ret.
Qed.

Lemma wp_parse_ipfix pkt peer templates bus : templates_ok templates ->
  wp (exists o, set_at pkt 16 o /\ u16_at pkt o = 2 /\ overruns (set_data pkt o)) (parse_ipfix pkt peer templates bus (ip_to_string (socket_ip peer))) (packet_post templates peer bus).
Proof.
  intros Ht. unfold parse_ipfix. wp_core; [done|]. do 2 (wp_core; wp_step). wp_core. blen_simpl. eapply wp_mono.
  - apply (wp_sets_loop _ (set_inv (ip_to_string (socket_ip peer)) bus)); [lia|split; [by apply source_cache_ok|done]|].
    intros o s Hat Hs. eapply wp_conseq; [by apply wp_ipfix_set| |done]. intros [Hid Ho]. by exists o.
  - intros [cache b] Hs. by apply packet_post_ret.
Qed.

(** Claim C22: a packet cannot hurt the receiver, with one exception.  Whatever
    octets an exporter sends, handling them ends; the templates stay
    well-formed and those of other exporters are untouched; what is published
    is appended, carries the exporter's address, has every number within its
    type, a positive duration and the labels of its protocol, flags and port; no
    arithmetic overflows.  The only panic is on an IPFIX packet with a template
    set in which a template has as many fields as would fit in four octets each,
    and its enterprise fields, of eight octets, push a later one past the end of
    the set. *)
Theorem handle_packet_safe pkt peer templates bus : templates_ok templates ->
  wp (misread pkt) (handle_packet pkt peer templates bus) (packet_post templates peer bus).
Proof.
  intros Ht. unfold handle_packet. wp_core; [done|]. wp_core. apply wp_post; [wp_step; done|].
  intros v (_ & _ & _ & Hv)%be_at_inv. change (v = u16_at pkt 0) in Hv. unfold misread.
  rewrite <- Hv. clear Hv. assert (v = 9 \/ v <> 9) as [->|Hn9] by lia; [by apply wp_parse_v9|].
  assert (v = 10 \/ v <> 10) as [->|Hn10] by lia; [by eapply wp_conseq; [apply wp_parse_ipfix| |]|].
  destruct v as [|p|]; [done| |done]. do 4 (destruct p as [p|p|]; try done).
Qed.

(** ** What a packet means *)

Definition encode_field (f : Z * Z) : bytes := to_be 2 f.1 ++ to_be 2 f.2.
Definition encode_template (id : Z) (fields : Template) : bytes :=
  to_be 2 id ++ to_be 2 (blen fields) ++ (fields ≫= encode_field).
Definition encode_set (id : Z) (data : bytes) : bytes := to_be 2 id ++ to_be 2 (4 + blen data) ++ data.
Definition v9_header (count up secs seq source : Z) : bytes :=
  to_be 2 9 ++ to_be 2 count ++ to_be 4 up ++ to_be 4 secs ++ to_be 4 seq ++ to_be 4 source.

Definition u16_range (v : Z) : Prop := 0 <= v < 65536.
Definition u32_range (v : Z) : Prop := 0 <= v < 4294967296.
Definition field_range (f : Z * Z) : Prop := u16_range f.1 /\ u16_range f.2.

Lemma blen_encode_field f : blen (encode_field f) = 4.
Proof. unfold encode_field. by rewrite blen_app, !blen_to_be. Qed.

Lemma read_be16 {E} data pre v post i : data = pre ++ to_be 2 v ++ post -> blen pre = i -> u16_range v ->
  be_at (E := E) 2 data i = Ok v.
Proof. intros Hd Hp Hv. rewrite (be_at_at 2 data pre (to_be 2 v) post) by done. by rewrite be_to_be. Qed.

Lemma read_be32 {E} data pre v post i : data = pre ++ to_be 4 v ++ post -> blen pre = i -> u32_range v ->
  be_at (E := E) 4 data i = Ok v.
Proof. intros Hd Hp Hv. rewrite (be_at_at 4 data pre (to_be 4 v) post) by done. by rewrite be_to_be. Qed.

Lemma v9_fields_encoded {E} data fields pre post acc : data = pre ++ (fields ≫= encode_field) ++ post ->
  Forall field_range fields ->
  for_each (E := E) (replicate (length fields) tt) (fun _ => v9_field data) (blen pre, acc) =
    Ok (blen pre + 4 * blen fields, acc ++ fields).
Proof.
  intros Hdata Hf. revert pre acc Hdata. induction Hf as [|[t l] fields [Ht Hl] _ IH]; intros pre acc Hdata.
  { cbn [length replicate for_each]. change (blen (@nil (Z * Z))) with 0; by rewrite Z.mul_0_r, Z.add_0_r, app_nil_r. }
  cbn [length replicate for_each]. rewrite bind_cons in Hdata. unfold encode_field at 1 in Hdata. cbn [fst snd] in *.
  rewrite <- !app_assoc in Hdata. unfold v9_field at 2.
  rewrite (read_be16 data pre t _ _ Hdata eq_refl Ht), bind_Ok.
  rewrite (read_be16 data (pre ++ to_be 2 t) l ((fields ≫= encode_field) ++ post)), !bind_Ok;
    [|by rewrite <- !app_assoc|by rewrite blen_app, blen_to_be|done].
  specialize (IH (pre ++ to_be 2 t ++ to_be 2 l) (acc ++ [(t, l)])).
  rewrite !blen_app, !blen_to_be in IH. change (Z.of_nat 2) with 2 in IH. rewrite Z.add_assoc in IH.
  replace (blen pre + 4) with (blen pre + 2 + 2) by lia. rewrite IH by (by rewrite <- !app_assoc).
  rewrite <- app_assoc. rewrite blen_cons. do 2 f_equal. lia.
Qed.

Lemma blen_encode_fields fields : blen (fields ≫= encode_field) = 4 * blen fields.
Proof.
  induction fields as [|f fields IH]; [done|]. rewrite bind_cons, blen_app, blen_encode_field, blen_cons, IH. lia.
Qed.

Definition template_range (t : Z * Template) : Prop := u16_range t.1 /\ u16_range (blen t.2) /\ Forall field_range t.2.

Lemma v9_template_step_encoded {E} data pre id fields post cache :
  data = pre ++ encode_template id fields ++ post -> template_range (id, fields) ->
  v9_template_step (E := E) data (blen pre, cache) =
    Ok (inl (blen (pre ++ encode_template id fields), <[id := fields]> cache)).
Proof.
  intros Hdata (Hid & Hn & Hf). cbn [fst snd] in *. unfold v9_template_step. unfold encode_template in *.
  rewrite <- !app_assoc in Hdata.
  assert (blen data = blen pre + 4 + 4 * blen fields + blen post) as Hlen.
  { rewrite Hdata, !blen_app, !blen_to_be, blen_encode_fields. lia. }
  pose proof (blen_nonneg fields). pose proof (blen_nonneg post).
  rewrite (proj2 (Z.leb_le _ _)) by lia. rewrite (read_be16 data pre id _ _ Hdata eq_refl Hid), bind_Ok.
  rewrite (read_be16 data (pre ++ to_be 2 id) (blen fields) ((fields ≫= encode_field) ++ post)), bind_Ok;
    [|by rewrite <- !app_assoc|by rewrite blen_app, blen_to_be|done].
  cbv zeta. rewrite (proj2 (Z.ltb_ge _ _)) by lia.
  replace (Z.to_nat (blen fields)) with (length fields) by (unfold blen; lia).
  pose proof (v9_fields_encoded (E := E) data fields (pre ++ to_be 2 id ++ to_be 2 (blen fields)) post []) as Hfs.
  rewrite !blen_app, !blen_to_be in *. replace (blen pre + (Z.of_nat 2 + Z.of_nat 2)) with (blen pre + 4) in Hfs by lia.
  rewrite Hfs; [|by rewrite <- !app_assoc|done]. rewrite bind_Ok. cbn [app]. rewrite blen_encode_fields. do 3 f_equal. lia.
Qed.

(** A template set stores its templates in order. *)
Lemma v9_template_encoded {E} ts cache : Forall template_range ts ->
  parse_v9_template (E := E) (ts ≫= (fun t => encode_template t.1 t.2)) cache =
    Ok (foldl (fun c t => <[t.1 := t.2]> c) cache ts).
Proof.
  intros Hts. unfold parse_v9_template. set (data := ts ≫= _).
  assert (length ts < S (length data))%nat as Hfuel.
  { unfold data. clear. induction ts as [|[id f] ts IH]; [simpl; lia|].
    rewrite bind_cons, length_app. unfold encode_template at 1. rewrite length_app, length_to_be. simpl. lia. }
  assert (data = [] ++ data) as Hdata by done. unfold data in Hdata at 2.
  change 0 with (blen (@nil byte)). revert Hdata Hfuel. generalize (S (length data)). generalize (@nil byte) as pre.
  clearbody data. revert cache. induction Hts as [|[id fields] ts Ht Hts IH]; intros cache pre fuel Hdata Hfuel.
  all: destruct fuel as [|fuel]; [simpl in Hfuel; lia|]; rewrite loop_S.
  - unfold v9_template_step. rewrite app_nil_r in Hdata. by rewrite Hdata, (proj2 (Z.leb_gt _ _)) by lia.
  - rewrite bind_cons in Hdata. cbn [fst snd] in Hdata.
    rewrite (v9_template_step_encoded data pre id fields _ cache Hdata Ht). cbn [foldl fst snd].
    apply IH; [by rewrite <- app_assoc|simpl in Hfuel; lia].
Qed.

(** The values of a record, one per field of the template. *)
Definition fits (fields : Template) (vs : list bytes) : Prop := Forall2 (fun f v => blen v = f.2) fields vs.

Definition put_field {E} (fv : (Z * Z) * bytes) (r : RawFlow) : Outcome E RawFlow := set_field fv.1.1 fv.1.2 fv.2 r.

(** The flow a record stands for: its fields, whatever their order. *)
Definition record_flow {E} (up secs : Z) (fields : Template) (vs : list bytes) : Outcome E FlowRecord :=
  r ← for_each (zip fields vs) put_field raw_zero; finish_flow up secs r.

Lemma idx_some b i : 0 <= i < blen b -> exists v, forall E, idx (E := E) b i = Ok v.
Proof.
  intros Hi. unfold idx. rewrite (proj2 (Z.leb_le _ _)), (proj2 (Z.ltb_lt _ _)) by lia. cbn [andb].
  destruct (b !! Z.to_nat i) as [v|] eqn:Hv; [by exists (u8 v)|].
  apply lookup_ge_None in Hv. unfold blen in Hi. lia.
Qed.

Lemma be_at_whole {E} d n : blen d = n -> be_at (E := E) n d 0 = Ok (be d).
Proof. intros Hd. apply (be_at_at n d [] d []); [by rewrite app_nil_r|done|done]. Qed.

(** A field of the length its template says is always stored. *)
Lemma set_field_ok ftype flen d r : blen d = flen -> raw_ok r ->
  exists r', raw_ok r' /\ forall E, set_field (E := E) ftype flen d r = Ok r'.
Proof.
  intros Hd [Hf Hl]. destruct r. unfold set_field, raw_ok in *. cbn [raw_first_ms raw_last_ms] in *.
  pose proof (be_bounds d) as Hb.
  repeat (let Hc := fresh "Hc" in
          match goal with |- context [if ?c then _ else _] => destruct c eqn:Hc; [|clear Hc] end;
          [first [eexists; split; [|intros E; reflexivity]; by split
                 |eexists; split; [|intros E; rewrite be_at_whole by lia; rewrite bind_Ok; reflexivity]; by split
                 |eexists; split; [|intros E; rewrite be_at_whole by lia; rewrite bind_Ok; reflexivity];
                  replace (blen d) with 4 in Hb by lia; by split
                 |destruct (idx_some d 0 ltac:(lia)) as [v Hv]; eexists; split; [|intros E; rewrite Hv, bind_Ok; reflexivity]; by split
                 |destruct (idx_some d (flen - 1) ltac:(lia)) as [v Hv]; eexists;
                  split; [|intros E; rewrite Hv, bind_Ok; reflexivity]; by split]|]).
  eexists. split; [|intros E; reflexivity]. by split.
Qed.

(** A record decodes to the flow its values stand for. *)
Lemma decode_fields_at data fields vs pre post r : data = pre ++ mjoin vs ++ post -> fits fields vs -> raw_ok r ->
  exists r', raw_ok r' /\ (forall E, for_each (E := E) (zip fields vs) put_field r = Ok r') /\
    for_each fields (decode_field data) (blen pre, r) = Ok (blen pre + blen (mjoin vs), r').
Proof.
  intros Hdata Hfit. revert pre r Hdata. induction Hfit as [|[t l] v fields vs Hv _ IH]; intros pre r Hdata Hr.
  { exists r. split_and!; [done|done|]. cbn. by rewrite Z.add_0_r. }
  cbn [fst snd] in Hv. destruct (set_field_ok t l v r Hv Hr) as (r1 & Hr1 & Hset).
  change (mjoin (v :: vs)) with (v ++ mjoin vs) in *. rewrite <- app_assoc in Hdata.
  destruct (IH (pre ++ v) r1) as (r' & Hr' & Hput & Hdec); [by rewrite <- app_assoc|done|].
  exists r'. split_and!; [done| |].
  - intros E. cbn [zip_with for_each]. unfold put_field at 2. cbn [fst snd]. rewrite Hset, bind_Ok. apply Hput.
  - cbn [for_each]. unfold decode_field at 2.
    pose proof (blen_nonneg (mjoin vs)). pose proof (blen_nonneg post). pose proof (blen_nonneg pre). pose proof (blen_nonneg v).
    assert (blen data = blen pre + blen v + blen (mjoin vs) + blen post) as Hlen by (rewrite Hdata, !blen_app; lia).
    rewrite (proj2 (Z.ltb_ge _ _)) by lia. rewrite (slice_at data pre v (mjoin vs ++ post)), bind_Ok by (done || lia).
    rewrite Hset, !bind_Ok. rewrite blen_app in Hdec. rewrite <- Hv, Hdec, blen_app. do 2 f_equal. lia.
Qed.

Lemma decode_record_values {E} up secs fields vs : fits fields vs ->
  decode_record (E := E) (mjoin vs) fields up secs = Some <$> record_flow up secs fields vs.
Proof.
  intros Hfit. destruct (decode_fields_at (mjoin vs) fields vs [] [] raw_zero) as (r & _ & Hput & Hdec);
    [by rewrite app_nil_r|done|by split|].
  unfold decode_record, record_flow. change (blen (@nil byte)) with 0 in Hdec. rewrite Hdec, Hput, bind_Ok. done.
Qed.

(** Publishing one record. *)
Definition publish_record {E} (up secs : Z) (ip : string) (fields : Template) (vs : list bytes) (bus : list PublishedFlow)
    : Outcome E (list PublishedFlow) :=
  f ← record_flow up secs fields vs; publish_flow ip f bus.

Lemma fits_length fields vs : fits fields vs -> blen (mjoin vs) = sum_list (snd <$> fields).
Proof.
  induction 1 as [|f v fields vs Hv _ IH]; [done|]. change (mjoin (v :: vs)) with (v ++ mjoin vs).
  rewrite blen_app, IH, Hv. done.
Qed.

(** A data set publishes its records in order; padding shorter than a record is
    ignored. *)
Lemma emit_flows_encoded {E} up secs ip fields records pad bus :
  Forall (fits fields) records -> 0 < sum_list (snd <$> fields) -> blen pad < sum_list (snd <$> fields) ->
  emit_flows_v9 (E := E) ((records ≫= mjoin) ++ pad) fields up secs ip bus =
    for_each records (publish_record up secs ip fields) bus.
Proof.
  intros Hrecs Hpos Hpad. unfold emit_flows_v9. rewrite (proj2 (Z.eqb_neq _ _)) by lia.
  set (data := (records ≫= mjoin) ++ pad). set (n := sum_list (snd <$> fields)) in *.
  assert (length records < S (length data))%nat as Hfuel.
  { unfold data. rewrite length_app. subst n. clear data. induction Hrecs as [|vs records Hvs _ IH]; [simpl; lia|].
    rewrite bind_cons, length_app. apply fits_length in Hvs. unfold blen in *. cbn [length]. lia. }
  assert (data = [] ++ (records ≫= mjoin) ++ pad) as Hdata by done.
  change 0 with (blen (@nil byte)) at 1. revert Hdata Hfuel. generalize (S (length data)). generalize (@nil byte) as pre.
  clearbody data. revert bus. induction Hrecs as [|vs records Hvs _ IH]; intros bus pre fuel Hdata Hfuel.
  all: destruct fuel as [|fuel]; [simpl in Hfuel; lia|]; rewrite loop_S; unfold emit_step.
  - rewrite (proj2 (Z.leb_gt _ _)); [done|]. rewrite Hdata, !blen_app. change (blen (@mbind list _ _ _ mjoin [])) with 0. lia.
  - rewrite bind_cons, <- app_assoc in Hdata. pose proof (fits_length _ _ Hvs) as Hlen. fold n in Hlen.
    assert (blen data = blen pre + n + blen ((records ≫= mjoin) ++ pad)) as Hd by (rewrite Hdata, !blen_app; lia).
    pose proof (blen_nonneg ((records ≫= mjoin) ++ pad)). rewrite (proj2 (Z.leb_le _ _)) by lia.
    rewrite (slice_at data pre (mjoin vs) ((records ≫= mjoin) ++ pad)), bind_Ok by (done || lia).
    rewrite decode_record_values by done. cbn [for_each]. unfold publish_record at 2.
    destruct (record_flow up secs fields vs) as [f| | |]; [|done..]. cbn [fmap outcome_fmap]. rewrite !bind_Ok.
    destruct (publish_flow ip f bus) as [bus'| | |]; [|done..]. rewrite !bind_Ok.
    replace (blen pre + n) with (blen (pre ++ mjoin vs)) by (rewrite blen_app; lia).
    apply IH; [by rewrite <- app_assoc|simpl in Hfuel; lia].
Qed.

Lemma blen_encode_set id data : blen (encode_set id data) = 4 + blen data.
Proof. unfold encode_set. rewrite !blen_app, !blen_to_be. lia. Qed.

Lemma set_step_encoded {E A} (body : Z -> bytes -> A -> Outcome E A) pkt pre id data post s :
  pkt = pre ++ encode_set id data ++ post -> u16_range id -> u16_range (4 + blen data) ->
  set_step body pkt (blen pre, s) = (s ← body id data s; Ok (inl (blen (pre ++ encode_set id data), s))).
Proof.
  intros Hpkt Hid Hlen. unfold set_step. pose proof (blen_nonneg data). pose proof (blen_nonneg post).
  assert (blen pkt = blen pre + 4 + blen data + blen post) as Hl by (rewrite Hpkt, !blen_app, blen_encode_set; lia).
  rewrite blen_app, blen_encode_set. unfold encode_set in Hpkt. rewrite <- !app_assoc in Hpkt.
  rewrite (proj2 (Z.leb_le _ _)) by lia. rewrite (read_be16 pkt pre id _ _ Hpkt eq_refl Hid), bind_Ok.
  rewrite (read_be16 pkt (pre ++ to_be 2 id) (4 + blen data) (data ++ post)), bind_Ok;
    [|by rewrite <- !app_assoc|by rewrite blen_app, blen_to_be|done].
  rewrite (proj2 (Z.ltb_ge _ _)), (proj2 (Z.ltb_ge _ _)) by lia. cbn [orb].
  rewrite (slice_at pkt (pre ++ to_be 2 id ++ to_be 2 (4 + blen data)) data post), bind_Ok;
    [done|by rewrite <- !app_assoc|rewrite !blen_app, !blen_to_be; lia|lia].
Qed.

(** The sets of a packet are processed in order. *)
Lemma sets_loop_encoded {E A} (body : Z -> bytes -> A -> Outcome E A) header sets s :
  Forall (fun x => u16_range x.1 /\ u16_range (4 + blen x.2)) sets ->
  sets_loop body (header ++ (sets ≫= (fun x => encode_set x.1 x.2))) (blen header) s =
    for_each sets (fun x => body x.1 x.2) s.
Proof.
  intros Hsets. unfold sets_loop. set (pkt := header ++ _).
  assert (length sets < S (length pkt))%nat as Hfuel.
  { unfold pkt. rewrite length_app. clear. induction sets as [|[id d] sets IH]; [simpl; lia|].
    rewrite bind_cons, length_app. pose proof (blen_encode_set id d). unfold blen in *. simpl in *. lia. }
  assert (pkt = header ++ (sets ≫= (fun x => encode_set x.1 x.2))) as Hpkt by done.
  revert Hpkt Hfuel. generalize (S (length pkt)). clearbody pkt. revert header s.
  induction Hsets as [|[id d] sets [Hid Hl] _ IH]; intros pre s fuel Hpkt Hfuel.
  all: destruct fuel as [|fuel]; [simpl in Hfuel; lia|]; rewrite loop_S.
  - unfold set_step. rewrite app_nil_r in Hpkt. by rewrite Hpkt, (proj2 (Z.leb_gt _ _)) by lia.
  - rewrite bind_cons in Hpkt. cbn [fst snd] in *. rewrite (set_step_encoded body pkt pre id d _ s Hpkt Hid Hl).
    cbn [for_each fst snd]. destruct (body id d s) as [s'| | |]; [|done..]. rewrite !bind_Ok.
    apply IH; [by rewrite <- app_assoc|simpl in Hfuel; lia].
Qed.

Lemma v9_packet_sets peer templates bus count up secs seq source sets :
  Forall (fun x => u16_range x.1 /\ u16_range (4 + blen x.2)) sets ->
  u32_range up -> u32_range secs -> u32_range source ->
  handle_packet (v9_header count up secs seq source ++ (sets ≫= (fun x => encode_set x.1 x.2))) peer templates bus =
    ('(cache, bus) ← for_each sets (fun x => v9_set up secs (ip_to_string (socket_ip peer)) x.1 x.2)
                       (source_cache templates peer source, bus);
     Ok (set_source_cache templates peer source cache, bus)).
Proof.
  intros Hsets Hu Hs Hsrc. set (rest := sets ≫= _). set (pkt := v9_header count up secs seq source ++ rest).
  assert (pkt = to_be 2 9 ++ to_be 2 count ++ to_be 4 up ++ to_be 4 secs ++ to_be 4 seq ++ to_be 4 source ++ rest) as Hpkt.
  { unfold pkt, v9_header. by rewrite <- !app_assoc. }
  assert (blen pkt = 20 + blen rest) as Hlen by (rewrite Hpkt, !blen_app, !blen_to_be; lia).
  pose proof (blen_nonneg rest). unfold handle_packet. rewrite (proj2 (Z.ltb_ge _ _)) by lia.
  rewrite (read_be16 pkt [] 9 _ 0 Hpkt eq_refl), bind_Ok by done. cbv zeta. unfold parse_v9.
  rewrite (proj2 (Z.ltb_ge _ _)) by lia.
  rewrite (read_be32 pkt (to_be 2 9 ++ to_be 2 count) up (to_be 4 secs ++ to_be 4 seq ++ to_be 4 source ++ rest) 4), bind_Ok;
    [|by rewrite Hpkt, <- !app_assoc|done|done].
  rewrite (read_be32 pkt (to_be 2 9 ++ to_be 2 count ++ to_be 4 up) secs (to_be 4 seq ++ to_be 4 source ++ rest) 8), bind_Ok;
    [|by rewrite Hpkt, <- !app_assoc|done|done].
  rewrite (read_be32 pkt (to_be 2 9 ++ to_be 2 count ++ to_be 4 up ++ to_be 4 secs ++ to_be 4 seq) source rest 16), bind_Ok;
    [|by rewrite Hpkt, <- !app_assoc|done|done].
  pose proof (sets_loop_encoded (v9_set (E := string) up secs (ip_to_string (socket_ip peer)))
    (v9_header count up secs seq source) sets (source_cache templates peer source, bus) Hsets) as Hloop.
  fold rest in Hloop. fold pkt in Hloop.
  assert (blen (v9_header count up secs seq source) = 20) as Hh
    by (unfold v9_header; rewrite !blen_app, !blen_to_be; lia).
  rewrite Hh in Hloop. by rewrite Hloop.
Qed.

Lemma v9_set_data {E} up secs ip id data cache bus fields : id <> 0 -> id <> 1 -> cache !! id = Some fields ->
  v9_set (E := E) up secs ip id data (cache, bus) =
    (bus ← emit_flows_v9 data fields up secs ip bus; Ok (cache, bus)).
Proof. intros H0 H1 Hc. unfold v9_set. destruct id as [|[]|]; try done; by rewrite Hc. Qed.

Lemma v9_set_template {E} up secs ip data cache bus :
  v9_set (E := E) up secs ip 0 data (cache, bus) = (cache ← parse_v9_template data cache; Ok (cache, bus)).
Proof. done. Qed.

(** A NetFlow v9 exporter is understood.  A packet that announces a
    template and then sends records of it, followed by at most a short padding,
    leaves that template stored for the exporter and the source, and publishes
    one flow per record, in order: the flow whose attributes are the values of
    the record's fields, whatever their order in the template, and whose
    instants are the ones the header's clock gives them. *)
Theorem v9_template_then_data peer templates bus count up secs seq source id fields records pad :
  2 <= id < 65536 -> u16_range (blen fields) -> Forall field_range fields ->
  u32_range up -> u32_range secs -> u32_range source ->
  0 < sum_list (snd <$> fields) -> blen pad < sum_list (snd <$> fields) -> Forall (fits fields) records ->
  u16_range (4 + blen (encode_template id fields)) -> u16_range (4 + blen ((records ≫= mjoin) ++ pad)) ->
  handle_packet (v9_header count up secs seq source ++ encode_set 0 (encode_template id fields) ++
                 encode_set id ((records ≫= mjoin) ++ pad)) peer templates bus =
    (bus ← for_each records (publish_record up secs (ip_to_string (socket_ip peer)) fields) bus;
     Ok (set_source_cache templates peer source (<[id := fields]> (source_cache templates peer source)), bus)).
Proof.
  intros Hid Hn Hf Hu Hs Hsrc Hpos Hpad Hrecs Hl1 Hl2.
  pose proof (v9_packet_sets peer templates bus count up secs seq source
    [(0, encode_template id fields); (id, (records ≫= mjoin) ++ pad)]) as Hp.
  cbn [mbind list_bind] in Hp. rewrite app_nil_r in Hp. cbn [fst snd] in Hp. rewrite Hp; clear Hp; try done.
  2:{ constructor; [by split; [split|]|]. constructor; [|constructor]. split; [cbn [fst]; unfold u16_range; lia|done]. }
  cbn [for_each fst snd]. rewrite v9_set_template.
  pose proof (v9_template_encoded (E := string) [(id, fields)] (source_cache templates peer source)) as Ht.
  cbn [mbind list_bind fst snd foldl] in Ht. rewrite app_nil_r in Ht. rewrite Ht.
  2:{ constructor; [|constructor]. split_and!; [cbn [fst]; unfold u16_range; lia|done|done]. }
  rewrite !bind_Ok. rewrite (v9_set_data _ _ _ _ _ _ _ fields) by (lia || apply lookup_insert_eq).
  rewrite emit_flows_encoded by done. by destruct (for_each records _ bus).
Qed.

(** A template of two fields whose first has the enterprise bit, with the eight
    octets two fields need at least. *)
Lemma ipfix_template_overrun {E} id f1 f2 cache :
  256 <= id < 65536 -> blen f1 = 4 -> blen f2 = 4 -> bit_set (be (take 2 f1)) 0x8000 = true ->
  parse_ipfix_template (E := E) (to_be 2 id ++ to_be 2 2 ++ f1 ++ f2) cache = Panic.
Proof.
  intros Hid Hl1 Hl2 Hbit. set (data := to_be 2 id ++ to_be 2 2 ++ f1 ++ f2).
  assert (blen data = 12) as Hlen by (unfold data; rewrite !blen_app, !blen_to_be; lia).
  assert (blen (take 2 f1) = 2 /\ blen (drop 2 f1) = 2) as [Ht Hd] by (unfold blen in *; rewrite length_take, length_drop; lia).
  assert (data = (to_be 2 id ++ to_be 2 2) ++ take 2 f1 ++ drop 2 f1 ++ f2) as Hdata
    by (unfold data; by rewrite <- !app_assoc, (app_assoc (take 2 f1)), take_drop).
  assert (exists fl, ipfix_field (E := E) data (4, []) = Ok (12, fl)) as [fl Hf1].
  { eexists. unfold ipfix_field. rewrite (be_at_at 2 data (to_be 2 id ++ to_be 2 2) (take 2 f1) (drop 2 f1 ++ f2) 4 Hdata eq_refl Ht), bind_Ok.
    rewrite (be_at_at 2 data (to_be 2 id ++ to_be 2 2 ++ take 2 f1) (drop 2 f1) f2), bind_Ok;
      [|by rewrite Hdata, <- !app_assoc|rewrite !blen_app, !blen_to_be, Ht; lia|done].
    cbv zeta. rewrite Hbit. reflexivity. }
  assert (forall fs, ipfix_field (E := E) data (12, fs) = Panic) as Hf2.
  { intros fs. unfold ipfix_field, be_at, slice. by rewrite Hlen. }
  unfold parse_ipfix_template. rewrite loop_S. assert (ipfix_template_step (E := E) data (0, cache) = Panic) as ->; [|done].
  unfold ipfix_template_step. rewrite (proj2 (Z.leb_le _ _)) by lia.
  rewrite (read_be16 data [] id _ 0 eq_refl eq_refl), bind_Ok by (unfold u16_range; lia).
  rewrite (proj2 (Z.ltb_ge _ _)) by lia.
  rewrite (read_be16 data (to_be 2 id) 2 (f1 ++ f2)), bind_Ok by done.
  cbv zeta. rewrite (proj2 (Z.ltb_ge _ _)) by lia. change (Z.to_nat 2) with 2%nat. change (0 + 4) with 4.
  cbn [replicate for_each]. rewrite Hf1, bind_Ok, Hf2. done.
Qed.

(** One IPFIX packet stops the receiver.  Enterprise fields take eight
    octets but the length of a template is checked as if every field took four:
    a template set of two fields, the first of them an enterprise field, with
    only eight octets for both, is read past its end and panics, whatever has
    been received before. *)
Theorem ipfix_enterprise_panics peer templates bus header id f1 f2 :
  blen header = 14 -> 256 <= id < 65536 -> blen f1 = 4 -> blen f2 = 4 -> bit_set (be (take 2 f1)) 0x8000 = true ->
  handle_packet (to_be 2 10 ++ header ++ encode_set 2 (to_be 2 id ++ to_be 2 2 ++ f1 ++ f2)) peer templates bus = Panic.
Proof.
  intros Hh Hid Hl1 Hl2 Hbit. set (data := to_be 2 id ++ to_be 2 2 ++ f1 ++ f2). set (pkt := to_be 2 10 ++ _).
  assert (blen data = 12) as Hd by (unfold data; rewrite !blen_app, !blen_to_be; lia).
  assert (blen pkt = 32) as Hlen by (unfold pkt; rewrite !blen_app, blen_encode_set, blen_to_be; lia).
  unfold handle_packet. rewrite (proj2 (Z.ltb_ge _ _)) by lia.
  rewrite (read_be16 pkt [] 10 _ 0 eq_refl eq_refl), bind_Ok by done. cbv zeta. unfold parse_ipfix.
  rewrite (proj2 (Z.ltb_ge _ _)) by lia. unfold be_at. rewrite !slice_ok by lia. cbn [fmap outcome_fmap]. rewrite !bind_Ok.
  unfold sets_loop. rewrite loop_S.
  replace 16 with (blen (to_be 2 10 ++ header)) by (rewrite blen_app, blen_to_be; lia).
  rewrite (set_step_encoded _ pkt (to_be 2 10 ++ header) 2 data []);
    [|unfold pkt; by rewrite app_nil_r, <- app_assoc|done|rewrite Hd; done].
  unfold ipfix_set. unfold data. by rewrite ipfix_template_overrun.
Qed.

End Laws.

Section NetflowWitnesses.
#[local] Instance netflow_profile : BuildProfile := true.

Definition demo_exporter : SocketAddr := SocketAddr_V4 (bs [192; 0; 2; 9]) 2055.
Definition demo_template : Template :=
  [(FIELD_SRC_ADDR, 4); (FIELD_DST_ADDR, 4); (FIELD_SRC_PORT, 2); (FIELD_DST_PORT, 2); (FIELD_PROTOCOL, 1);
   (FIELD_IN_BYTES, 4); (FIELD_FIRST_SWITCHED, 4); (FIELD_LAST_SWITCHED, 4)].
Definition demo_record : list bytes :=
  [bs [10; 0; 0; 1]; bs [10; 0; 0; 2]; bs [200; 0]; bs [0; 53]; bs [17]; to_be 4 1500; to_be 4 1000; to_be 4 3000].

Definition demo_packet : bytes :=
  v9_header 2 5000 1700000000 1 7 ++ encode_set 0 (encode_template 256 demo_template) ++
  encode_set 256 (mbind (M := list) (mjoin (M := list)) [demo_record] ++ [Byte.x00]).

Definition published (o : Outcome string (Templates * list PublishedFlow)) : list (string * Z * string) :=
  match o with
  | Ok (_, bus) => (fun f => (src_address (pf_flow f), pf_duration_ns f, pf_amplification_vector f)) <$> bus
  | _ => []
  end.

Lemma handle_packet_safe_witness :
  exists t f, handle_packet demo_packet demo_exporter ∅ [] = Ok (t, [f]) /\ published_ok "192.0.2.9" f /\ templates_ok t.
Proof.
  assert (templates_ok ∅) as Hnone by (intros p tc s c Hp; by rewrite lookup_empty in Hp).
  pose proof (handle_packet_safe demo_packet demo_exporter ∅ [] Hnone) as Hs.
  assert (match handle_packet demo_packet demo_exporter ∅ [] with Ok (_, [_]) => true | _ => false end = true) as Hone by (vm_compute; reflexivity).
  destruct (handle_packet demo_packet demo_exporter ∅ []) as [[t [|f [|]]]| | |]; try discriminate Hone.
  destruct Hs as (Ht & _ & new & Hnew & Hok). cbn [fst snd app] in *. subst new.
  assert (ip_to_string (socket_ip demo_exporter) = "192.0.2.9"%string) as Hip by (vm_compute; reflexivity). rewrite Hip in Hok.
  exists t, f. split_and!; [reflexivity|apply Forall_singleton, Hok|exact Ht].
Defined.

Lemma v9_template_then_data_witness :
  published (handle_packet demo_packet demo_exporter ∅ []) = [("10.0.0.1", 2000000000, "dns")]%string.
Proof.
  unfold demo_packet. rewrite v9_template_then_data; [vm_compute; reflexivity|..].
  all: try (unfold u16_range, u32_range; vm_compute; repeat split; (reflexivity || discriminate)).
  - repeat (constructor; [split; vm_compute; split; (reflexivity || discriminate)|]). constructor.
  - repeat constructor.
Defined.

Lemma ipfix_enterprise_panics_witness :
  handle_packet (to_be 2 10 ++ replicate 14 Byte.x00 ++
                 encode_set 2 (to_be 2 256 ++ to_be 2 2 ++ bs [0x80; 1; 0; 4] ++ bs [0; 1; 0; 4])) demo_exporter ∅ [] = Panic.
Proof. apply ipfix_enterprise_panics; reflexivity || lia. Defined.

End NetflowWitnesses.
