(* ===== verification/Approval.v ===== *)
(** * Approved changes ([src/remediation/approval.rs])

    A remediation plan is checked against a digital twin, approved and signed
    by an operator, and executed at most once per idempotency key by the
    approval-bound executor, which keeps a journal.  SHA-256, HMAC and the JSON
    of a plan are parameters; a failing write of the journal is an argument of
    the execution. *)

From Stdlib Require Import ZArith Lia ZifyBool.
From stdpp Require Import base numbers list option strings gmap fin_maps.
From S2P Require Import Prelude RustStd Jsonl.

Local Open Scope Z_scope.

(** ** Plans *)

Inductive DisruptionLevel : Type :=
| NoneExpected | ControlPlaneReconvergence | TrafficShiftOrDrain | SessionResetRequired.

Record BlastRadiusSummary := mkBlastRadius {
  affected_devices : list string;
  affected_vrfs : list string;
  affected_ebgp_peers : list string;
  estimated_affected_prefixes : Z;
  expected_disruption : DisruptionLevel;
}.

Record NetworkInvariant := mkInvariant {
  invariant_id : string;
  invariant_description : string;
  invariant_type : string;
  target_scope : string;
}.

Record AssuranceCheckSpec := mkCheckSpec {
  check_id : string;
  check_description : string;
  command_or_query : string;
  expected_assertion : string;
  read_only : bool;
}.

Inductive RecoveryPolicy : Type := ExplicitRollbackSteps | HaltAndEscalate.

Record RemediationPlan := mkPlan {
  plan_id : string;
  tenant_id : string;
  device_address : string;
  vrf_rd : string;
  nos_vendor : string;
  baseline_config_revision : string;
  candidate_diff : string;
  intended_behavior : string;
  blast_radius : BlastRadiusSummary;
  invariants : list NetworkInvariant;
  prechecks : list AssuranceCheckSpec;
  postchecks : list AssuranceCheckSpec;
  recovery_policy : RecoveryPolicy;
  rollback_steps : list string;
  created_at_epoch_secs : Z;
  expires_at_epoch_secs : Z;
}.

(** The object that is hashed: every field of the plan but its creation time. *)
Record CanonicalPlan := mkCanonical {
  cp_plan_id : string;
  cp_tenant_id : string;
  cp_device_address : string;
  cp_vrf_rd : string;
  cp_nos_vendor : string;
  cp_baseline_config_revision : string;
  cp_candidate_diff : string;
  cp_intended_behavior : string;
  cp_blast_radius : BlastRadiusSummary;
  cp_invariants : list NetworkInvariant;
  cp_prechecks : list AssuranceCheckSpec;
  cp_postchecks : list AssuranceCheckSpec;
  cp_recovery_policy : RecoveryPolicy;
  cp_rollback_steps : list string;
  cp_expires_at_epoch_secs : Z;
}.

(** [sha2], [hmac] and [serde_json] on plans. A SHA-256 code has 32 octets. *)
Class PlanCrypto := {
  sha256 : bytes -> bytes;
  hmac_sha256 : bytes -> bytes -> bytes;
  hmac_sha256_length : forall k m, length (hmac_sha256 k m) = 32%nat;
  canonical_json : CanonicalPlan -> option bytes;
}.

#[global] Instance recovery_policy_eq_dec : EqDecision RecoveryPolicy.
Proof. solve_decision. Defined.

Definition canonical (p : RemediationPlan) : CanonicalPlan :=
  mkCanonical (plan_id p) (tenant_id p) (device_address p) (vrf_rd p) (nos_vendor p) (baseline_config_revision p)
    (candidate_diff p) (intended_behavior p) (blast_radius p) (invariants p) (prechecks p) (postchecks p)
    (recovery_policy p) (rollback_steps p) (expires_at_epoch_secs p).

Definition compute_plan_hash `{PlanCrypto} (p : RemediationPlan) : string :=
  hex_encode (sha256 (default [] (canonical_json (canonical p)))).

Definition validate_schema (p : RemediationPlan) : Outcome string unit :=
  if blank (plan_id p) then Err "plan_id must not be empty"%string
  else if blank (device_address p) || blank (vrf_rd p) then Err "device_address and vrf_rd scope must be non-empty"%string
  else if blank (baseline_config_revision p) then Err "baseline_config_revision must be specified"%string
  else if blank (candidate_diff p) then Err "candidate_diff must not be empty"%string
  else if bool_decide (prechecks p = []) || bool_decide (postchecks p = []) then
    Err "both prechecks and postchecks must be non-empty"%string
  else if existsb (fun c => negb (read_only c)) (prechecks p) || existsb (fun c => negb (read_only c)) (postchecks p) then
    Err "all prechecks and postchecks must be read_only = true"%string
  else if bool_decide (recovery_policy p = ExplicitRollbackSteps) && bool_decide (rollback_steps p = []) then
    Err "rollback_steps must not be empty when recovery_policy is ExplicitRollbackSteps"%string
  else if expires_at_epoch_secs p <=? created_at_epoch_secs p then
    Err "expires_at_epoch_secs must be greater than created_at_epoch_secs"%string
  else Ok tt.

#[global] Instance check_spec_eq_dec : EqDecision AssuranceCheckSpec.
Proof. solve_decision. Defined.

(** ** The digital twin *)

Inductive AssuranceFidelity : Type := ModeledSnapshotSimulation | LiveContainerlabVerified.

Record DigitalTwinSnapshot := mkTwin {
  tw_lab_topology_id : string;
  tw_nos_image_ref : string;
  tw_fidelity : AssuranceFidelity;
  target_prefix_reachable_before : bool;
  target_prefix_reachable_after : bool;
  ebgp_peers_up_before : Z;
  ebgp_peers_up_after : Z;
  vrf_isolation_intact : bool;
  max_allowed_blast_radius_devices : Z;
  unsupported_vendor_constructs : list string;
}.

Inductive AssuranceVerdict : Type := Verified | VerifiedWithLimitations | FailedInvariants | InvalidPlanSchema.

Record InvariantCheckResult := mkCheckResult {
  result_invariant_id : string;
  passed : bool;
  detail : string;
}.

Record ChangeAssuranceReport := mkReport {
  report_id : string;
  report_plan_id : string;
  report_plan_hash : string;
  report_lab_topology_id : string;
  report_fidelity : AssuranceFidelity;
  verdict : AssuranceVerdict;
  executable : bool;
  invariant_results : list InvariantCheckResult;
  unsupported_constructs : list string;
  emulation_fidelity_limitations : list string;
}.

Definition fmt_bool (b : bool) : string := if b then "true" else "false".

Definition limitations (f : AssuranceFidelity) : list string :=
  ["Containerlab emulation and modeled config analysis do not prove ASIC FIB programming, optical layer margins, or microburst queueing behavior.";
   match f with
   | ModeledSnapshotSimulation =>
       "Modeled snapshot simulation: evaluations reflect caller-supplied snapshot properties rather than real ASIC/kernel state."
   | LiveContainerlabVerified =>
       "Live Containerlab verified: verified on containerized network operating system instance."
   end]%string.

Definition twin_checks (p : RemediationPlan) (t : DigitalTwinSnapshot) : list InvariantCheckResult :=
  [mkCheckResult "prefix_reachable_in_loc_rib" (target_prefix_reachable_after t)
     ("target_prefix_reachable_before=" ++ fmt_bool (target_prefix_reachable_before t) ++ ", after="
      ++ fmt_bool (target_prefix_reachable_after t));
   mkCheckResult "no_ebgp_peer_drop"
     ((ebgp_peers_up_before t <=? ebgp_peers_up_after t)%Z && (0 <? ebgp_peers_up_after t)%Z)
     ("ebgp_peers_up_before=" ++ fmt_dec (ebgp_peers_up_before t) ++ ", after=" ++ fmt_dec (ebgp_peers_up_after t));
   mkCheckResult "vrf_isolation_preserved" (vrf_isolation_intact t)
     ("vrf_isolation_intact=" ++ fmt_bool (vrf_isolation_intact t));
   mkCheckResult "blast_radius_bounded"
     (blen (affected_devices (blast_radius p)) <=? max_allowed_blast_radius_devices t)%Z
     ("affected_devices=" ++ fmt_dec (blen (affected_devices (blast_radius p))) ++ " <= max_allowed="
      ++ fmt_dec (max_allowed_blast_radius_devices t))]%string.

Definition verify_plan_in_digital_twin `{PlanCrypto} (p : RemediationPlan) (t : DigitalTwinSnapshot)
    : ChangeAssuranceReport :=
  let report v exec results :=
    mkReport ("assurance-" ++ plan_id p) (plan_id p) (compute_plan_hash p) (tw_lab_topology_id t) (tw_fidelity t)
      v exec results (unsupported_vendor_constructs t) (limitations (tw_fidelity t)) in
  match validate_schema p with
  | Ok _ =>
      let results := twin_checks p t in
      let all_passed := forallb passed results in
      let v := if negb all_passed then FailedInvariants
               else if negb (bool_decide (unsupported_vendor_constructs t = [])) then VerifiedWithLimitations
               else Verified in
      report v all_passed results
  | Err e => report InvalidPlanSchema false [mkCheckResult "plan_schema_valid" false e]
  | _ => report InvalidPlanSchema false []
  end.

(** ** Approvals *)

Record SignedPlanApproval := mkApproval {
  approval_id : string;
  ap_plan_id : string;
  approved_plan_hash : string;
  expected_baseline_config_revision : string;
  approved_scope_device : string;
  approved_scope_vrf : string;
  assurance_report_id : string;
  approved_by : string;
  operator_rationale : string;
  approved_at_epoch_secs : Z;
  ap_expires_at_epoch_secs : Z;
  signature_algorithm : string;
  key_id : string;
  signature_hex : string;
}.

Inductive ExecutionRejectionReason : Type :=
| UnverifiedInDigitalTwin
| PlanHashMismatch
| StaleBaselineConfigRevision
| ApprovalExpired
| ScopeMismatch
| ConflictingChangeLockHeld
| PrecheckFailed (message : string)
| InvalidSignature.

Definition canonical_signing_bytes (a : SignedPlanApproval) : bytes :=
  bytes_of_string
    ("approval_id=" ++ approval_id a ++ "|plan_id=" ++ ap_plan_id a ++ "|approved_plan_hash=" ++ approved_plan_hash a
     ++ "|rev=" ++ expected_baseline_config_revision a ++ "|device=" ++ approved_scope_device a
     ++ "|vrf=" ++ approved_scope_vrf a ++ "|assurance_report_id=" ++ assurance_report_id a
     ++ "|approved_by=" ++ approved_by a ++ "|approved_at=" ++ fmt_dec (approved_at_epoch_secs a)
     ++ "|expires_at=" ++ fmt_dec (ap_expires_at_epoch_secs a)).

Definition with_signature (alg key sig : string) (a : SignedPlanApproval) : SignedPlanApproval :=
  mkApproval (approval_id a) (ap_plan_id a) (approved_plan_hash a) (expected_baseline_config_revision a)
    (approved_scope_device a) (approved_scope_vrf a) (assurance_report_id a) (approved_by a) (operator_rationale a)
    (approved_at_epoch_secs a) (ap_expires_at_epoch_secs a) alg key sig.

Definition sign_hmac_sha256 `{PlanCrypto} (key : string) (secret_key : bytes) (a : SignedPlanApproval) : SignedPlanApproval :=
  with_signature "HMAC-SHA256" key (hex_encode (hmac_sha256 secret_key (canonical_signing_bytes a))) a.

(** [hex::decode] *)
Definition hex_decode (s : string) : option bytes :=
  let b := bytes_of_string s in
  if negb (blen b mod 2 =? 0) then None else hex_pairs b.

Definition verify_signature `{PlanCrypto} (secret_key : bytes) (a : SignedPlanApproval)
    : Outcome ExecutionRejectionReason unit :=
  if bool_decide (signature_algorithm a <> "HMAC-SHA256"%string) || bool_decide (signature_hex a = ""%string) then
    Err InvalidSignature
  else
    sig ← or_err (hex_decode (signature_hex a)) InvalidSignature;
    if bool_decide (sig = hmac_sha256 secret_key (canonical_signing_bytes a)) then Ok tt else Err InvalidSignature.

(** ** The executor *)

Inductive ExecutionOutcome : Type :=
| CommittedAndPostchecksPassed | RolledBackAfterPostcheckFailure | HaltedForOperatorEscalation.

Record ExecutionJournalEntry := mkEntry {
  execution_id : string;
  idempotency_key : string;
  en_plan_id : string;
  en_plan_hash : string;
  en_approval_id : string;
  en_device_address : string;
  en_vrf_rd : string;
  en_outcome : ExecutionOutcome;
  prechecks_passed : bool;
  postchecks_passed : bool;
  steps_applied : list string;
  recovery_actions_taken : list string;
  deduplicated_replay : bool;
}.

(** [ex_file] is the journal file, when there is a path for one. *)
Record ApprovalBoundExecutor := mkExecutor {
  ex_file : option bytes;
  signing_secret : option bytes;
  active_scope_locks : gmap (string * string) string;
  completed_by_idempotency_key : gmap string ExecutionJournalEntry;
  journal : list ExecutionJournalEntry;
}.

Definition executor_new : ApprovalBoundExecutor := mkExecutor None None ∅ ∅ [].

Definition with_signing_secret (secret : bytes) (x : ApprovalBoundExecutor) : ApprovalBoundExecutor :=
  mkExecutor (ex_file x) (Some secret) (active_scope_locks x) (completed_by_idempotency_key x) (journal x).

Definition set_locks (l : gmap (string * string) string) (x : ApprovalBoundExecutor) : ApprovalBoundExecutor :=
  mkExecutor (ex_file x) (signing_secret x) l (completed_by_idempotency_key x) (journal x).

Definition set_file (f : option bytes) (x : ApprovalBoundExecutor) : ApprovalBoundExecutor :=
  mkExecutor f (signing_secret x) (active_scope_locks x) (completed_by_idempotency_key x) (journal x).

Definition complete (e : ExecutionJournalEntry) (x : ApprovalBoundExecutor) : ApprovalBoundExecutor :=
  mkExecutor (ex_file x) (signing_secret x) (active_scope_locks x)
    (<[idempotency_key e := e]> (completed_by_idempotency_key x)) (journal x ++ [e]).

Definition acquire_scope_lock (device vrf owner : string) (x : ApprovalBoundExecutor)
    : Outcome ExecutionRejectionReason ApprovalBoundExecutor :=
  let locked := set_locks (<[(device, vrf) := owner]> (active_scope_locks x)) x in
  match active_scope_locks x !! (device, vrf) with
  | Some existing_owner => if bool_decide (existing_owner <> owner) then Err ConflictingChangeLockHeld else Ok locked
  | None => Ok locked
  end.

Definition release_scope_lock (device vrf owner : string) (x : ApprovalBoundExecutor) : ApprovalBoundExecutor :=
  if bool_decide (active_scope_locks x !! (device, vrf) = Some owner)
  then set_locks (delete (device, vrf) (active_scope_locks x)) x else x.

(** What became of the append: the file is opened, the line written and the
    data synced, each of which can fail with an I/O error. *)
Inductive JournalWrite : Type :=
| Write_Done
| Open_Failed (e : string)
| Write_Failed (e : string) (octets : nat)
| Sync_Failed (e : string).

Definition set_replay (e : ExecutionJournalEntry) : ExecutionJournalEntry :=
  mkEntry (execution_id e) (idempotency_key e) (en_plan_id e) (en_plan_hash e) (en_approval_id e)
    (en_device_address e) (en_vrf_rd e) (en_outcome e) (prechecks_passed e) (postchecks_passed e) (steps_applied e)
    (recovery_actions_taken e) true.

(** The outcome and the recovery actions. *)
Definition recovery (p : RemediationPlan) (postchecks_pass : bool) : ExecutionOutcome * list string :=
  if postchecks_pass then (CommittedAndPostchecksPassed, [])
  else
    match recovery_policy p with
    | ExplicitRollbackSteps => (RolledBackAfterPostcheckFailure, rollback_steps p)
    | HaltAndEscalate =>
        (HaltedForOperatorEscalation, ["halt_further_changes_and_page_oncall: reverse diff not assumed safe"%string])
    end.

Section Executor.
Context `{PlanCrypto} `{JsonSyntax} `{!Json ExecutionJournalEntry}.

(** The text of a [serde_json] error. *)
Variable serde_error : ExecutionJournalEntry -> string.

(** [if let Some(ref path) = self.journal_path { .. }] *)
Definition append_entry (w : JournalWrite) (e : ExecutionJournalEntry) (x : ApprovalBoundExecutor)
    : ApprovalBoundExecutor * Outcome ExecutionRejectionReason ExecutionJournalEntry :=
  match ex_file x with
  | None => (x, Ok e)
  | Some file =>
      match w, to_vec e with
      | Open_Failed err, _ => (x, Err (PrecheckFailed ("failed to append to journal: " ++ err)))
      | _, None => (x, Err (PrecheckFailed ("failed to serialize journal entry: " ++ serde_error e)))
      | Write_Failed err n, Some line =>
          (set_file (Some (file ++ take n (line ++ [newline]))) x,
           Err (PrecheckFailed ("failed to write journal entry: " ++ err)))
      | Sync_Failed err, Some line =>
          (set_file (Some (file ++ line ++ [newline])) x, Err (PrecheckFailed ("failed to sync journal: " ++ err)))
      | Write_Done, Some line => (set_file (Some (file ++ line ++ [newline])) x, Ok e)
      end
  end.

(** The checks 2 to 6, in order. *)
Definition gate (p : RemediationPlan) (assurance : ChangeAssuranceReport) (approval : SignedPlanApproval)
    (current_revision : string) (now : Z) : Outcome ExecutionRejectionReason unit :=
  let actual_plan_hash := compute_plan_hash p in
  if negb (executable assurance) || bool_decide (report_plan_hash assurance <> actual_plan_hash)
     || bool_decide (report_id assurance <> assurance_report_id approval) then Err UnverifiedInDigitalTwin
  else if bool_decide (approved_plan_hash approval <> actual_plan_hash) || bool_decide (ap_plan_id approval <> plan_id p)
  then Err PlanHashMismatch
  else if bool_decide (current_revision <> expected_baseline_config_revision approval)
          || bool_decide (current_revision <> baseline_config_revision p) then Err StaleBaselineConfigRevision
  else if (ap_expires_at_epoch_secs approval <? now) || (expires_at_epoch_secs p <? now) then Err ApprovalExpired
  else if bool_decide (approved_scope_device approval <> device_address p)
          || bool_decide (approved_scope_vrf approval <> vrf_rd p) then Err ScopeMismatch
  else Ok tt.

Definition check_signature (x : ApprovalBoundExecutor) (approval : SignedPlanApproval)
    : Outcome ExecutionRejectionReason unit :=
  match signing_secret x with Some secret => verify_signature secret approval | None => Ok tt end.

Definition new_journal_entry (x : ApprovalBoundExecutor) (key : string) (p : RemediationPlan)
    (approval : SignedPlanApproval) (postchecks_pass : bool) : ExecutionJournalEntry :=
  let '(outcome, actions) := recovery p postchecks_pass in
  mkEntry ("exec-" ++ plan_id p ++ "-" ++ fmt_dec (blen (journal x) + 1)) key (plan_id p) (compute_plan_hash p)
    (approval_id approval) (device_address p) (vrf_rd p) outcome true postchecks_pass
    ["apply_candidate_diff:" ++ device_address p ++ ":" ++ baseline_config_revision p]%string actions false.

Definition execute_approved_plan (w : JournalWrite) (key : string) (p : RemediationPlan)
    (assurance : ChangeAssuranceReport) (approval : SignedPlanApproval) (current_revision : string) (now : Z)
    (prechecks_pass postchecks_pass : bool) (x : ApprovalBoundExecutor)
    : ApprovalBoundExecutor * Outcome ExecutionRejectionReason ExecutionJournalEntry :=
  match check_signature x approval with
  | Ok _ =>
      match completed_by_idempotency_key x !! key with
      | Some existing => (x, Ok (set_replay existing))
      | None =>
          match gate p assurance approval current_revision now with
          | Ok _ =>
              match acquire_scope_lock (device_address p) (vrf_rd p) (approval_id approval) x with
              | Ok x =>
                  let released := release_scope_lock (device_address p) (vrf_rd p) (approval_id approval) x in
                  if negb prechecks_pass then
                    (released, Err (PrecheckFailed "One or more read-only prechecks failed immediately before execution"))
                  else
                    let e := new_journal_entry released key p approval postchecks_pass in
                    append_entry w e (complete e released)
              | Err r => (x, Err r)
              | Panic => (x, Panic)
              | Diverge => (x, Diverge)
              end
          | Err r => (x, Err r)
          | Panic => (x, Panic)
          | Diverge => (x, Diverge)
          end
      end
  | Err r => (x, Err r)
  | Panic => (x, Panic)
  | Diverge => (x, Diverge)
  end.

(** [BufRead::lines]: a carriage return before the newline is dropped. *)
Definition strip_cr (l : bytes) : bytes :=
  match last l with Some Byte.x0d => take (length l - 1) l | _ => l end.

Fixpoint file_lines (fuel : nat) (b : bytes) : list bytes :=
  match fuel, b with
  | _, [] => []
  | O, _ => []
  | S fuel', _ =>
      match split_line b with
      | Some (l, rest) => strip_cr l :: file_lines fuel' rest
      | None => [b]
      end
  end.

Definition load_line (l : bytes) (x : ApprovalBoundExecutor) : Outcome JournalError ApprovalBoundExecutor :=
  text ← or_err (from_utf8 l) Journal_Io;
  match trim text with
  | [] => Ok x
  | _ => match from_str (A := ExecutionJournalEntry) text with Some e => Ok (complete e x) | None => Ok x end
  end.

(** [path] is as for the other journals. *)
Definition open_or_create (path : option (option bytes)) : Outcome JournalError ApprovalBoundExecutor :=
  match path with
  | None => Ok executor_new
  | Some file =>
      let file := default [] file in
      x ← for_each (file_lines (length file) file) load_line executor_new;
      Ok (set_file (Some file) x)
  end.

End Executor.

(** ** What the gates require *)

(** Everything an execution is bound to but the prechecks: the signature, a
    fresh key, a report for this very plan, the approval's plan, revision,
    expiry and scope, and a lock nobody else holds. *)
Record Authorised `{PlanCrypto} (x : ApprovalBoundExecutor) (key : string) (p : RemediationPlan)
    (a : ChangeAssuranceReport) (ap : SignedPlanApproval) (rev : string) (now : Z) : Prop := {
  auth_signed : forall s, signing_secret x = Some s -> verify_signature s ap = Ok tt;
  auth_fresh : completed_by_idempotency_key x !! key = None;
  auth_report : executable a = true /\ report_plan_hash a = compute_plan_hash p /\ report_id a = assurance_report_id ap;
  auth_plan : approved_plan_hash ap = compute_plan_hash p /\ ap_plan_id ap = plan_id p;
  auth_revision : rev = expected_baseline_config_revision ap /\ rev = baseline_config_revision p;
  auth_time : now <= ap_expires_at_epoch_secs ap /\ now <= expires_at_epoch_secs p;
  auth_scope : approved_scope_device ap = device_address p /\ approved_scope_vrf ap = vrf_rd p;
  auth_lock : forall o, active_scope_locks x !! (device_address p, vrf_rd p) = Some o -> o = approval_id ap;
}.

Lemma verify_signature_dec `{PlanCrypto} s ap : verify_signature s ap = Ok tt \/ verify_signature s ap = Err InvalidSignature.
Proof.
  unfold verify_signature. case_if; [by right|]. destruct (hex_decode _); cbn [or_err mbind outcome_bind]; [|by right].
  case_if; [by left|by right].
Qed.

Lemma check_signature_spec `{PlanCrypto} x ap :
  check_signature x ap = Ok tt /\ (forall s, signing_secret x = Some s -> verify_signature s ap = Ok tt) \/
  check_signature x ap = Err InvalidSignature /\ ~ (forall s, signing_secret x = Some s -> verify_signature s ap = Ok tt).
Proof.
  unfold check_signature. destruct (signing_secret x) as [s|]; [|by left].
  destruct (verify_signature_dec s ap) as [Hv|Hv]; [left|right]; (split; [done|]).
  - by intros ? [= <-].
  - intros Hs. specialize (Hs s eq_refl). congruence.
Qed.

Lemma gate_spec `{PlanCrypto} p a ap rev now :
  let conditions :=
    (executable a = true /\ report_plan_hash a = compute_plan_hash p /\ report_id a = assurance_report_id ap) /\
    (approved_plan_hash ap = compute_plan_hash p /\ ap_plan_id ap = plan_id p) /\
    (rev = expected_baseline_config_revision ap /\ rev = baseline_config_revision p) /\
    (now <= ap_expires_at_epoch_secs ap /\ now <= expires_at_epoch_secs p) /\
    (approved_scope_device ap = device_address p /\ approved_scope_vrf ap = vrf_rd p) in
  gate p a ap rev now = Ok tt /\ conditions \/ exists r, gate p a ap rev now = Err r /\ ~ conditions.
Proof.
  cbv zeta. unfold gate.
  repeat match goal with
         | |- context [if ?c then _ else _] => destruct c eqn:?Hc
         end; [right; eexists; split; [reflexivity|]..|left; split; [reflexivity|]].
  all: repeat match goal with
       | Hc : _ || _ = true |- _ => apply orb_true_iff in Hc as [Hc|Hc]
       | Hc : _ || _ = false |- _ => apply orb_false_iff in Hc as [? ?]
       end.
  all: repeat match goal with
       | Hc : bool_decide _ = true |- _ => apply bool_decide_eq_true in Hc
       | Hc : bool_decide (_ <> _) = false |- _ => apply bool_decide_eq_false, dec_stable in Hc
       end.
  all: try (intros (? & ? & ? & ? & ?); destruct_and?; first [congruence|lia|by destruct (executable a)]).
  split_and!; try done; lia.
Qed.

Lemma acquire_spec device vrf owner x :
  acquire_scope_lock device vrf owner x = Ok (set_locks (<[(device, vrf) := owner]> (active_scope_locks x)) x) /\
    (forall o, active_scope_locks x !! (device, vrf) = Some o -> o = owner) \/
  acquire_scope_lock device vrf owner x = Err ConflictingChangeLockHeld /\
    ~ (forall o, active_scope_locks x !! (device, vrf) = Some o -> o = owner).
Proof.
  unfold acquire_scope_lock. destruct (active_scope_locks x !! (device, vrf)) as [o|]; [|by left].
  case_bool_decide as Ho; [right|left]; (split; [done|]).
  - intros Hall. by apply Ho, Hall.
  - intros ? [= <-]. by destruct (decide (o = owner)).
Qed.

(** Taking the lock and giving it back leaves the scope free. *)
Lemma acquire_release device vrf owner x :
  release_scope_lock device vrf owner (set_locks (<[(device, vrf) := owner]> (active_scope_locks x)) x) =
  set_locks (delete (device, vrf) (active_scope_locks x)) x.
Proof.
  unfold release_scope_lock. cbn [active_scope_locks set_locks]. rewrite lookup_insert, decide_True by done.
  rewrite bool_decide_true by done. unfold set_locks. cbn. by rewrite delete_insert_eq.
Qed.

(** An append touches the file alone. *)
Lemma append_entry_frame `{PlanCrypto} `{JsonSyntax} `{!Json ExecutionJournalEntry} err w e x :
  exists f, (append_entry err w e x).1 = set_file f x.
Proof.
  unfold append_entry. destruct x as [[file|] ? ? ? ?]; cbn [ex_file]; [|by eexists].
  destruct w, (to_vec e); by eexists.
Qed.

Section ExecutorLaws.
Context `{PlanCrypto} `{JsonSyntax} `{!Json ExecutionJournalEntry} (err : ExecutionJournalEntry -> string).

(** What a fresh execution leaves behind. *)
Definition recorded (x x' : ApprovalBoundExecutor) (key : string) (p : RemediationPlan) (e : ExecutionJournalEntry) : Prop :=
  journal x' = journal x ++ [e] /\
  completed_by_idempotency_key x' = <[key := e]> (completed_by_idempotency_key x) /\
  active_scope_locks x' = delete (device_address p, vrf_rd p) (active_scope_locks x) /\
  signing_secret x' = signing_secret x.

(** What any other call leaves behind: at most the caller's own lock is gone. *)
Definition not_recorded (x x' : ApprovalBoundExecutor) (p : RemediationPlan) : Prop :=
  journal x' = journal x /\ completed_by_idempotency_key x' = completed_by_idempotency_key x /\
  ex_file x' = ex_file x /\ signing_secret x' = signing_secret x /\
  (active_scope_locks x' = active_scope_locks x \/
   active_scope_locks x' = delete (device_address p, vrf_rd p) (active_scope_locks x)).

Lemma execute_fresh w key p a ap rev now post x :
  Authorised x key p a ap rev now ->
  execute_approved_plan err w key p a ap rev now true post x =
    (let e := new_journal_entry x key p ap post in
     append_entry err w e (complete e (set_locks (delete (device_address p, vrf_rd p) (active_scope_locks x)) x))).
Proof.
  intros []. unfold execute_approved_plan.
  destruct (check_signature_spec x ap) as [[-> _]|[_ Hno]]; [|by destruct Hno].
  rewrite auth_fresh0.
  destruct (gate_spec p a ap rev now) as [[-> _]|(r & _ & Hno)]; [|by destruct Hno].
  destruct (acquire_spec (device_address p) (vrf_rd p) (approval_id ap) x) as [[-> _]|[_ Hno]]; [|by destruct Hno].
  cbn [negb]. by rewrite acquire_release.
Qed.

Lemma execute_denied w key p a ap rev now pre post x :
  ~ (Authorised x key p a ap rev now /\ pre = true) ->
  not_recorded x (execute_approved_plan err w key p a ap rev now pre post x).1 p.
Proof.
  intros Hno. assert (not_recorded x x p) as Hsame. { split_and!; try done. by left. }
  unfold execute_approved_plan.
  destruct (check_signature_spec x ap) as [[-> Hsig]|[-> _]]; [|done].
  destruct (completed_by_idempotency_key x !! key) eqn:Hkey; [done|].
  destruct (gate_spec p a ap rev now) as [(-> & Hgate)|(r & -> & _)]; [|done].
  destruct (acquire_spec (device_address p) (vrf_rd p) (approval_id ap) x) as [[-> Hlock]|[-> _]]; [|done].
  destruct pre; cbn [negb fst].
  - destruct Hno. destruct_and?. by split; [constructor|].
  - rewrite acquire_release. split_and!; try done. by right.
Qed.

Lemma execution_cases w key p a ap rev now pre post x :
  let x' := (execute_approved_plan err w key p a ap rev now pre post x).1 in
  (Authorised x key p a ap rev now /\ pre = true /\
   recorded x x' key p (new_journal_entry x key p ap post)) \/
  (~ (Authorised x key p a ap rev now /\ pre = true) /\ not_recorded x x' p).
Proof.
  cbv zeta. destruct (decide (pre = true)) as [->|Hpre].
  2:{ right. split; [by intros []|]. apply execute_denied. by intros []. }
  assert (Authorised x key p a ap rev now \/ ~ Authorised x key p a ap rev now) as [Hauth|Hauth].
  { destruct (check_signature_spec x ap) as [[_ Hsig]|[_ Hsig]]; [|right; by intros []].
    destruct (completed_by_idempotency_key x !! key) eqn:Hkey; [right; intros []; congruence|].
    destruct (gate_spec p a ap rev now) as [[_ Hgate]|(r & _ & Hgate)]; [|right; intros []; by destruct Hgate].
    destruct (acquire_spec (device_address p) (vrf_rd p) (approval_id ap) x) as [[_ Hl]|[_ Hl]]; [|right; by intros []].
    left. destruct_and?. by constructor. }
  - left. split; [done|]. split; [done|]. rewrite execute_fresh by done. cbv zeta.
    edestruct append_entry_frame as [f ->]. unfold recorded, new_journal_entry. by destruct (recovery p post).
  - right. split; [by intros []|]. apply execute_denied. by intros [].
Qed.

(** Claim C13: a change is executed exactly when it is authorised and its
    prechecks pass: then the journal grows by the entry of this plan and
    approval, the key is taken and the scope is unlocked.  Any other call
    leaves the journal, the keys and the file as they were. *)
Theorem execution_authorised w key p a ap rev now pre post x :
  let x' := (execute_approved_plan err w key p a ap rev now pre post x).1 in
  (Authorised x key p a ap rev now /\ pre = true /\
   recorded x x' key p (new_journal_entry x key p ap post)) \/
  (~ (Authorised x key p a ap rev now /\ pre = true) /\ not_recorded x x' p).
Proof. apply execution_cases. Qed.

(** *** Runs of the executor *)

(** The calls an executor can receive, when the writes of its journal end as
    [W] allows. *)
Inductive executor_step (W : JournalWrite -> Prop) : ApprovalBoundExecutor -> ApprovalBoundExecutor -> Prop :=
| step_execute w key p a ap rev now pre post x : W w ->
    executor_step W x (execute_approved_plan err w key p a ap rev now pre post x).1
| step_acquire device vrf owner x x' :
    acquire_scope_lock device vrf owner x = Ok x' -> executor_step W x x'
| step_release device vrf owner x : executor_step W x (release_scope_lock device vrf owner x)
| step_secret secret x : executor_step W x (with_signing_secret secret x).

(** The last entry of every key. *)
Definition completed_of (es : list ExecutionJournalEntry) : gmap string ExecutionJournalEntry :=
  foldl (fun m e => <[idempotency_key e := e]> m) ∅ es.

(** The keys on record are those of the journal. *)
Definition keys_agree (x : ApprovalBoundExecutor) : Prop :=
  completed_by_idempotency_key x = completed_of (journal x).

Lemma completed_of_snoc es e : completed_of (es ++ [e]) = <[idempotency_key e := e]> (completed_of es).
Proof. unfold completed_of. by rewrite foldl_app. Qed.

Lemma completed_of_none es k : completed_of es !! k = None <-> k ∉ idempotency_key <$> es.
Proof.
  induction es as [|e es IH] using rev_ind.
  - split; [intros _; apply not_elem_of_nil|done].
  - rewrite completed_of_snoc, lookup_insert_None, fmap_app, not_elem_of_app, IH.
    cbn [fmap list_fmap]. rewrite list_elem_of_singleton. naive_solver.
Qed.

Lemma completed_of_lookup es e : NoDup (idempotency_key <$> es) -> e ∈ es ->
  completed_of es !! idempotency_key e = Some e.
Proof.
  induction es as [|e' es IH] using rev_ind; intros Hnd He; [by apply not_elem_of_nil in He|].
  rewrite completed_of_snoc. rewrite fmap_app in Hnd. apply NoDup_app in Hnd as (Hnd & Hdisj & _).
  apply elem_of_app in He as [He|He%list_elem_of_singleton]; [|subst e'].
  - rewrite lookup_insert_ne; [by apply IH|]. intros Heq.
    apply (Hdisj (idempotency_key e)); [by apply list_elem_of_fmap_2|]. rewrite <- Heq. by apply list_elem_of_here.
  - by rewrite lookup_insert, decide_True.
Qed.

Lemma new_entry_key x key p ap post : idempotency_key (new_journal_entry x key p ap post) = key.
Proof. unfold new_journal_entry. by destruct (recovery p post). Qed.

(** A step records nothing or one entry whose key is new. *)
Lemma step_journal W x x' : executor_step W x x' -> keys_agree x ->
  keys_agree x' /\ exists es, journal x' = journal x ++ es /\
    (es = [] \/ exists e, es = [e] /\ idempotency_key e ∉ idempotency_key <$> journal x).
Proof.
  intros Hs Hx. assert (forall x', journal x' = journal x ->
    completed_by_idempotency_key x' = completed_by_idempotency_key x ->
    keys_agree x' /\ exists es, journal x' = journal x ++ es /\
    (es = [] \/ exists e, es = [e] /\ idempotency_key e ∉ idempotency_key <$> journal x)) as Hsame.
  { intros x'' Hj Hc. unfold keys_agree. rewrite Hj, Hc. split; [done|]. exists []. rewrite app_nil_r. by split; [|left]. }
  destruct Hs as [w key p a ap rev now pre post x _|device vrf owner x x' Hl|device vrf owner x|secret x].
  - destruct (execution_cases w key p a ap rev now pre post x) as [(Hauth & _ & Hj & Hc & _)|[_ (Hj & Hc & _)]];
      [|by apply Hsame].
    pose proof (new_entry_key x key p ap post) as Hkey. unfold keys_agree in *. rewrite Hj, Hc. split.
    + by rewrite completed_of_snoc, Hkey, Hx.
    + eexists. split; [reflexivity|]. right. eexists. split; [reflexivity|].
      apply completed_of_none. rewrite <- Hx, Hkey. apply Hauth.
  - destruct (acquire_spec device vrf owner x) as [[Heq _]|[Heq _]]; rewrite Heq in Hl; simplify_eq. by apply Hsame.
  - apply Hsame; unfold release_scope_lock; by case_bool_decide.
  - by apply Hsame.
Qed.

Lemma steps_journal W x x' : rtc (executor_step W) x x' -> keys_agree x ->
  keys_agree x' /\ exists es, journal x' = journal x ++ es /\ NoDup (idempotency_key <$> es) /\
    forall e, e ∈ es -> idempotency_key e ∉ idempotency_key <$> journal x.
Proof.
  induction 1 as [x|x x1 x' Hs _ IH]; intros Hx.
  - split; [done|]. exists []. rewrite app_nil_r. split_and!; [done|constructor|by intros e ?%not_elem_of_nil].
  - apply step_journal in Hs as [Hx1 (es1 & Hj1 & Hes1)]; [|done].
    destruct (IH Hx1) as [Hx' (es & Hj & Hnd & Hnew)]. split; [done|]. exists (es1 ++ es).
    rewrite Hj, Hj1, <- app_assoc. split; [done|]. rewrite Hj1, fmap_app in Hnew.
    destruct Hes1 as [->|(e1 & -> & He1)].
    + split; [done|]. intros e He Hin. apply (Hnew e He). apply elem_of_app. by left.
    + rewrite fmap_app. split.
      * constructor; [|done]. intros (e & Heq & He)%list_elem_of_fmap. apply (Hnew e He).
        rewrite <- Heq. apply elem_of_app. right. by apply list_elem_of_here.
      * intros e [He%list_elem_of_singleton|He]%elem_of_app; [by subst|].
        intros Hin. apply (Hnew e He). apply elem_of_app. by left.
Qed.

(** *** The journal file *)

(** A line that [BufRead::lines] returns as it is in the file. *)
Definition plain_line (t : bytes) : Prop := newline ∉ t /\ strip_cr t = t.

Lemma plain_object q t : newline ∉ q -> json_object t -> plain_line (q ++ t).
Proof.
  intros Hq (_ & Hn & mid & ->). split; [by rewrite not_elem_of_app|].
  unfold strip_cr. by rewrite app_comm_cons, app_assoc, last_snoc.
Qed.

Lemma file_lines_app fuel ts rest : Forall plain_line ts ->
  file_lines (length ts + fuel) (lines_of ts ++ rest) = ts ++ file_lines fuel rest.
Proof.
  induction 1 as [|t ts [Hn Ht] Hts IH]; [done|]. rewrite lines_of_cons, <- app_assoc. cbn [length plus app file_lines].
  rewrite split_line_at, Ht, IH by done.
  by destruct (t ++ newline :: lines_of ts ++ rest) eqn:Hnil; [destruct t|].
Qed.

Lemma file_lines_all ts rest : Forall plain_line ts -> newline ∉ rest ->
  file_lines (length (lines_of ts ++ rest)) (lines_of ts ++ rest) = ts ++ (if decide (rest = []) then [] else [rest]).
Proof.
  intros Hts Hn. pose proof (length_lines ts) as Hl.
  replace (length (lines_of ts ++ rest)) with (length ts + (length (lines_of ts ++ rest) - length ts))%nat
    by (rewrite length_app; lia).
  rewrite file_lines_app by done. f_equal. rewrite length_app.
  destruct rest as [|b rest]; [rewrite decide_True by done; by destruct (_ - _)%nat|].
  rewrite decide_False by done. destruct (_ - _)%nat eqn:Hd; [simpl in Hd; lia|].
  cbn [file_lines]. by rewrite split_line_none.
Qed.

(** An entry and its line. *)
Definition entry_line (e : ExecutionJournalEntry) (t : bytes) : Prop :=
  to_vec e = Some t /\ json_text t /\ from_str t = Some e.

Lemma entry_line_object e t : entry_line e t -> json_object t.
Proof. intros (_ & Ht & _). by apply json_text_object. Qed.

Lemma entry_lines_plain es ts : Forall2 entry_line es ts -> Forall plain_line ts.
Proof.
  induction 1 as [|e t es ts He Hes IH]; constructor; [|done].
  apply (plain_object []); [apply not_elem_of_nil|by eapply entry_line_object].
Qed.

Lemma load_entry e t x : entry_line e t -> load_line t x = Ok (complete e x).
Proof.
  intros He. pose proof (entry_line_object _ _ He) as Ht. destruct He as (_ & _ & Hf).
  unfold load_line. pose proof Ht as (-> & _). cbn [or_err mbind outcome_bind]. rewrite trim_object by done.
  pose proof (object_not_nil _ Ht). destruct t as [|c t]; [done|]. by rewrite Hf.
Qed.

(** A line that is not an entry is skipped. *)
Lemma load_other t x : from_utf8 t = Some t -> from_str (A := ExecutionJournalEntry) t = None -> load_line t x = Ok x.
Proof. unfold load_line. intros -> Hf. cbn [or_err mbind outcome_bind]. rewrite Hf. by destruct (trim t). Qed.

Lemma load_entries es ts x : Forall2 entry_line es ts ->
  for_each ts load_line x =
    Ok (mkExecutor (ex_file x) (signing_secret x) (active_scope_locks x)
          (foldl (fun m e => <[idempotency_key e := e]> m) (completed_by_idempotency_key x) es) (journal x ++ es)).
Proof.
  intros He. revert x. induction He as [|e t es ts He Hes IH]; intros x; cbn [for_each foldl].
  - rewrite app_nil_r. by destruct x.
  - rewrite (load_entry e t x He). cbn [mbind outcome_bind]. rewrite IH. cbn. by rewrite <- app_assoc.
Qed.

(** A file of whole entries; then a line behind them that is not an entry, with
    or without its newline. *)
Lemma open_entries es ts : Forall2 entry_line es ts ->
  open_or_create (Some (Some (lines_of ts))) = Ok (mkExecutor (Some (lines_of ts)) None ∅ (completed_of es) es).
Proof.
  intros He. unfold open_or_create. cbn [default from_option id].
  rewrite <- (app_nil_r (lines_of ts)) at 1 2.
  rewrite file_lines_all by (apply not_elem_of_nil || by eapply entry_lines_plain).
  rewrite decide_True, app_nil_r by done. by rewrite (load_entries es).
Qed.

Lemma open_with_junk es ts q (ended : bool) : Forall2 entry_line es ts -> newline ∉ q -> (ended = true -> strip_cr q = q) -> q <> [] ->
  from_utf8 q = Some q -> from_str (A := ExecutionJournalEntry) q = None ->
  let file := lines_of ts ++ q ++ (if ended then [newline] else []) in
  open_or_create (Some (Some file)) = Ok (mkExecutor (Some file) None ∅ (completed_of es) es).
Proof.
  intros He Hn Hcr Hne Hu Hf file. unfold open_or_create. cbn [default from_option id].
  assert (file_lines (length file) file = ts ++ [q]) as ->.
  { pose proof (entry_lines_plain es ts He) as Hts. subst file. destruct ended.
    - rewrite <- lines_of_snoc, <- (app_nil_r (lines_of (ts ++ [q]))), file_lines_all.
      + by rewrite decide_True, app_nil_r.
      + apply Forall_app_2; [done|]. by repeat constructor; [|apply Hcr].
      + apply not_elem_of_nil.
    - rewrite app_nil_r, file_lines_all by done. by rewrite decide_False. }
  rewrite for_each_app, (load_entries es) by done. cbn [mbind outcome_bind for_each]. by rewrite load_other.
Qed.

(** The file holds the lines of the journal. *)
Definition journal_on_disk (x : ApprovalBoundExecutor) : Prop :=
  exists ts, ex_file x = Some (lines_of ts) /\ Forall2 entry_line (journal x) ts.

Lemma append_on_disk e x ts : ex_file x = Some (lines_of ts) -> Forall2 entry_line (journal x) ts -> serialisable e ->
  journal_on_disk (append_entry err Write_Done e (complete e x)).1.
Proof.
  intros Hf Hts He. destruct (to_vec_ok e He) as (t & Ht & Hj & Hfs). exists (ts ++ [t]).
  unfold append_entry. cbn [ex_file complete]. rewrite Hf, Ht. cbn [fst ex_file set_file journal]. split.
  - by rewrite lines_of_snoc.
  - apply Forall2_app; [done|]. constructor; [|constructor]. by split_and!.
Qed.

Lemma step_on_disk x x' : executor_step (fun w => w = Write_Done) x x' ->
  journal_on_disk x -> Forall serialisable (journal x') -> journal_on_disk x'.
Proof.
  intros Hs (ts & Hf & Hts) Hser.
  destruct Hs as [w key p a ap rev now pre post x ->|device vrf owner x x' Hl|device vrf owner x|secret x].
  - destruct (execution_cases Write_Done key p a ap rev now pre post x) as [(Hauth & -> & Hj & _)|[_ (Hj & _ & Hfile & _)]].
    + rewrite Hj in Hser. apply Forall_app in Hser as [_ Hser]. apply Forall_inv in Hser.
      rewrite execute_fresh by done. cbv zeta. by apply append_on_disk with ts.
    + exists ts. by rewrite Hj, Hfile.
  - destruct (acquire_spec device vrf owner x) as [[Heq _]|[Heq _]]; rewrite Heq in Hl; simplify_eq. by exists ts.
  - exists ts. unfold release_scope_lock. by case_bool_decide.
  - by exists ts.
Qed.

Lemma steps_on_disk x x' : rtc (executor_step (fun w => w = Write_Done)) x x' -> keys_agree x ->
  journal_on_disk x -> Forall serialisable (journal x') -> journal_on_disk x'.
Proof.
  induction 1 as [x|x x1 x' Hs Hrest IH]; intros Hx Hdisk Hser; [done|].
  pose proof (step_journal _ _ _ Hs Hx) as [Hx1 _].
  apply IH; [done| |done]. apply (step_on_disk x x1 Hs Hdisk).
  destruct (steps_journal _ _ _ Hrest Hx1) as [_ (es & Hj & _)]. rewrite Hj in Hser. by apply Forall_app in Hser as [].
Qed.

Lemma open_keys_agree path x : open_or_create path = Ok x -> keys_agree x.
Proof.
  unfold open_or_create. destruct path as [file|]; [|by intros [= <-]].
  intros Ho. inv_ok Ho. injection Ho as <-. unfold keys_agree, set_file. cbn.
  assert (wp True (for_each (file_lines (length (default [] file)) (default [] file)) load_line executor_new)
            keys_agree) as Hwp; [|by rewrite Heq in Hwp].
  apply wp_for_each; [done|]. intros l s _ Hs. unfold load_line. wp_core. wp_core.
  destruct (trim _); [done|]. destruct (from_str _) as [e|]; [|done]. cbn. unfold keys_agree, complete. cbn.
  by rewrite completed_of_snoc, Hs.
Qed.

(** Claim C12: an idempotency key is executed at most once.  Whatever calls an
    executor receives after it was opened, and however the writes of its
    journal end, the journal only grows, by entries whose keys are distinct
    and were not on record; and each of them is what a replay of its key finds. *)
Theorem executed_at_most_once W path x0 x :
  open_or_create path = Ok x0 -> rtc (executor_step W) x0 x ->
  exists es, journal x = journal x0 ++ es /\ NoDup (idempotency_key <$> es) /\
    (forall e, e ∈ es -> idempotency_key e ∉ idempotency_key <$> journal x0) /\
    completed_by_idempotency_key x = completed_of (journal x0 ++ es).
Proof.
  intros Ho Hs. destruct (steps_journal _ _ _ Hs (open_keys_agree _ _ Ho)) as [Hx (es & Hj & Hnd & Hnew)].
  exists es. split_and!; [done..|]. by rewrite <- Hj.
Qed.

(** The journal survives a restart.  After any run on a new file in
    which the writes succeed, opening that file again gives an executor with
    the same journal and the same keys on record, and no locks. *)
Theorem executor_restart x0 x :
  open_or_create (Some None) = Ok x0 -> rtc (executor_step (fun w => w = Write_Done)) x0 x ->
  Forall serialisable (journal x) ->
  exists file, ex_file x = Some file /\
    open_or_create (Some (Some file)) =
      Ok (mkExecutor (Some file) None ∅ (completed_by_idempotency_key x) (journal x)).
Proof.
  intros Ho Hs Hser. pose proof (open_keys_agree _ _ Ho) as Hx0.
  destruct (steps_on_disk x0 x Hs Hx0) as (ts & Hf & Hts); [|done|].
  { cbn in Ho. injection Ho as <-. exists []. by split; [|constructor]. }
  destruct (steps_journal _ _ _ Hs Hx0) as [Hx _]. exists (lines_of ts). split; [done|].
  rewrite (open_entries (journal x)) by done. by rewrite Hx.
Qed.

(** A torn journal is not repaired when it is opened.  When a crash
    has left a part of a line behind the whole ones, the next execution
    succeeds and writes its line, but behind the torn part; if the two
    together are not an entry, the execution is forgotten at the next restart,
    and its key can be executed again. *)
Theorem torn_journal_forgets es ts q r c ap key p a rev now post t :
  Forall2 entry_line es ts ->
  json_text (q ++ c :: r) -> q <> [] -> from_utf8 q = Some q ->
  let file := lines_of ts ++ q in
  let x1 := mkExecutor (Some file) None ∅ (completed_of es) es in
  let e := new_journal_entry x1 key p ap post in
  Authorised x1 key p a ap rev now -> entry_line e t ->
  from_utf8 (q ++ t) = Some (q ++ t) -> from_str (A := ExecutionJournalEntry) (q ++ t) = None ->
  open_or_create (Some (Some file)) = Ok x1 /\
  exists x2, execute_approved_plan err Write_Done key p a ap rev now true post x1 = (x2, Ok e) /\
    journal x2 = es ++ [e] /\
    exists x3, open_or_create (Some (ex_file x2)) = Ok x3 /\
      journal x3 = es /\ Authorised x3 key p a ap rev now.
Proof.
  intros Hes Hq Hne Hu file x1 e Hauth He Hu2 Hf2.
  assert (newline ∉ q) as Hn.
  { apply json_text_object in Hq as (_ & Hn & _). intros Hin. apply Hn, elem_of_app. by left. }
  assert (json_object t) as Ht by by apply (entry_line_object e).
  split.
  { pose proof (open_with_junk es ts q false Hes Hn ltac:(done) Hne Hu) as Ho. cbn in Ho. rewrite app_nil_r in Ho.
    apply Ho. by eapply from_str_torn. }
  rewrite execute_fresh by done. cbv zeta. fold e. unfold append_entry.
  cbn [ex_file complete set_locks x1]. destruct He as (Hto & _). rewrite Hto. eexists. split; [reflexivity|].
  split; [done|]. cbn [ex_file set_file]. subst file. rewrite <- !app_assoc, (app_assoc q).
  destruct (plain_object q t Hn Ht) as [Hn2 Hcr]. eexists. split; [apply (open_with_junk es ts (q ++ t) true); try done|].
  - by destruct q.
  - split; [done|]. destruct Hauth. by constructor.
Qed.

(** *** Signatures *)

Lemma hex_decode_encode b : hex_decode (hex_encode b) = Some b.
Proof.
  unfold hex_decode. rewrite bytes_of_hex_encode. unfold blen.
  rewrite length_hex, (proj2 (Z.eqb_eq _ _)); [apply hex_pairs_encode|].
  rewrite Nat2Z.inj_mul, Z.mul_comm. apply Z.mod_mul. lia.
Qed.

Lemma signature_accepted k key m a :
  verify_signature k (with_signature "HMAC-SHA256" key (hex_encode (hmac_sha256 k m)) a) = Ok tt <->
  hmac_sha256 k m = hmac_sha256 k (canonical_signing_bytes a).
Proof.
  unfold verify_signature. cbn [signature_algorithm signature_hex with_signature].
  rewrite (bool_decide_false (_ <> _)) by tauto. cbn [orb].
  rewrite bool_decide_false.
  2:{ intros He. apply (f_equal (length ∘ bytes_of_string)) in He. cbn in He.
      rewrite bytes_of_hex_encode, length_hex, hmac_sha256_length in He. done. }
  rewrite hex_decode_encode. cbn [or_err mbind outcome_bind].
  change (canonical_signing_bytes (with_signature _ _ _ a)) with (canonical_signing_bytes a).
  case_bool_decide; naive_solver.
Qed.

(** A signature made for one approval is accepted on another, under
    the same key, exactly when the two have the same code; so a signed
    approval is accepted, and changing a signed field is noticed unless the
    change leaves the code the same. *)
Theorem signature_binds k key key' a b :
  let s := sign_hmac_sha256 key k a in
  verify_signature k s = Ok tt /\
  (verify_signature k (with_signature (signature_algorithm s) key' (signature_hex s) b) = Ok tt <->
   hmac_sha256 k (canonical_signing_bytes a) = hmac_sha256 k (canonical_signing_bytes b)).
Proof. cbv zeta. split; [by apply signature_accepted|]. apply signature_accepted. Qed.

Definition with_scope (device vrf : string) (a : SignedPlanApproval) : SignedPlanApproval :=
  mkApproval (approval_id a) (ap_plan_id a) (approved_plan_hash a) (expected_baseline_config_revision a)
    device vrf (assurance_report_id a) (approved_by a) (operator_rationale a)
    (approved_at_epoch_secs a) (ap_expires_at_epoch_secs a) (signature_algorithm a) (key_id a) (signature_hex a).

(** The fields that are signed are joined without escaping, so the
    signature does not determine the scope: a signature for a device and a VRF
    whose name contains the separator is accepted for another device and VRF. *)
Theorem signed_scope_ambiguous k key a device v1 v2 :
  let signed := sign_hmac_sha256 key k (with_scope device (v1 ++ "|vrf=" ++ v2) a) in
  verify_signature k (with_scope (device ++ "|vrf=" ++ v1) v2 signed) = Ok tt.
Proof.
  cbv zeta. apply (signature_accepted k key _ (with_scope (device ++ "|vrf=" ++ v1) v2 a)). f_equal.
  unfold canonical_signing_bytes. cbn -[String.append]. by rewrite !string_app_assoc.
Qed.

(** *** The digital twin *)

Lemma executable_iff p t : executable (verify_plan_in_digital_twin p t) = true <->
  validate_schema p = Ok tt /\ target_prefix_reachable_after t = true /\
  (ebgp_peers_up_before t <= ebgp_peers_up_after t /\ 0 < ebgp_peers_up_after t) /\
  vrf_isolation_intact t = true /\
  blen (affected_devices (blast_radius p)) <= max_allowed_blast_radius_devices t.
Proof.
  unfold verify_plan_in_digital_twin. destruct (validate_schema p) as [[]| | |]; [|naive_solver..].
  unfold twin_checks. cbn [executable forallb passed]. rewrite !andb_true_iff, !Z.leb_le, Z.ltb_lt. tauto.
Qed.

(** What is executed was verified.  If the report came from the
    digital twin, for some plan and snapshot, then that plan has the hash of
    the executed one, its schema is valid, and in the snapshot the target
    prefix stays reachable, no eBGP peer is lost, the VRFs stay isolated and
    the change touches no more devices than allowed. *)
Theorem executed_plan_verified w key p q t ap rev now pre post x :
  journal (execute_approved_plan err w key p (verify_plan_in_digital_twin q t) ap rev now pre post x).1 <> journal x ->
  compute_plan_hash q = compute_plan_hash p /\ approved_plan_hash ap = compute_plan_hash q /\
  assurance_report_id ap = ("assurance-" ++ plan_id q)%string /\
  validate_schema q = Ok tt /\ target_prefix_reachable_after t = true /\
  ebgp_peers_up_before t <= ebgp_peers_up_after t /\ 0 < ebgp_peers_up_after t /\
  vrf_isolation_intact t = true /\
  blen (affected_devices (blast_radius q)) <= max_allowed_blast_radius_devices t.
Proof.
  intros Hj. destruct (execution_cases w key p (verify_plan_in_digital_twin q t) ap rev now pre post x)
    as [([_ _ (Hex & Hh & Hid) (Hap & _)] & _)|[_ (Hj' & _)]]; [|done].
  apply executable_iff in Hex as (Hs & ? & [? ?] & ? & ?).
  revert Hh Hid. unfold verify_plan_in_digital_twin. rewrite Hs. cbn. intros Hh Hid.
  split_and!; try done. by rewrite Hap.
Qed.

End ExecutorLaws.

(** ** A concrete run *)

Definition demo_crypto : PlanCrypto.
Proof.
  refine {| sha256 b := b; hmac_sha256 k m := take 32 (k ++ m ++ replicate 32 Byte.x00); canonical_json c := Some (bytes_of_string (cp_plan_id c)) |}.
  intros k m. rewrite length_take, !length_app, length_replicate. lia.
Defined.

#[local] Existing Instance demo_crypto.

Definition demo_plan : RemediationPlan :=
  mkPlan "p1" "t" "10.0.0.1" "65000:1" "nokia_srl" "r7" "diff" "restore" (mkBlastRadius ["10.0.0.1"%string] [] [] 1 NoneExpected)
    [] [mkCheckSpec "c1" "" "show" "up" true] [mkCheckSpec "c2" "" "show" "up" true] HaltAndEscalate [] 100 200.

Definition demo_twin : DigitalTwinSnapshot := mkTwin "lab" "img" ModeledSnapshotSimulation false true 2 2 true 1 [].

Definition demo_report : ChangeAssuranceReport := verify_plan_in_digital_twin demo_plan demo_twin.

Definition demo_approval : SignedPlanApproval :=
  mkApproval "ap1" "p1" (compute_plan_hash demo_plan) "r7" "10.0.0.1" "65000:1" "assurance-p1" "op" "" 120 180 "" "" "".

Definition demo_entry : ExecutionJournalEntry := new_journal_entry executor_new "k1" demo_plan demo_approval true.

#[local] Instance demo_entry_syntax : JsonSyntax := demo_syntax.
#[local] Instance demo_entry_json : Json ExecutionJournalEntry := one_json demo_entry.

Definition demo_opened : ApprovalBoundExecutor := mkExecutor (Some []) None ∅ ∅ [].

Definition demo_execute (x : ApprovalBoundExecutor) :=
  execute_approved_plan (fun _ => ""%string) Write_Done "k1" demo_plan demo_report demo_approval "r7" 150 true true x.

Lemma demo_authorised file : Authorised (mkExecutor file None ∅ ∅ []) "k1" demo_plan demo_report demo_approval "r7" 150.
Proof. constructor; try done; split_and!; vm_compute; congruence. Qed.

Lemma demo_run : rtc (executor_step (fun _ => ""%string) (fun w => w = Write_Done)) demo_opened (demo_execute demo_opened).1.
Proof. eapply rtc_l; [by apply step_execute|]. constructor. Qed.

Lemma demo_journal : journal (demo_execute demo_opened).1 = [demo_entry].
Proof. by vm_compute. Qed.

Lemma executed_at_most_once_witness :
  exists es, journal (demo_execute demo_opened).1 = [] ++ es /\ NoDup (idempotency_key <$> es) /\
    (forall e, e ∈ es -> idempotency_key e ∉ idempotency_key <$> []) /\
    completed_by_idempotency_key (demo_execute demo_opened).1 = completed_of ([] ++ es).
Proof.
  exact (executed_at_most_once (fun _ => ""%string) _ (Some None) demo_opened _ eq_refl demo_run).
Defined.

Lemma executor_restart_witness :
  exists file, ex_file (demo_execute demo_opened).1 = Some file /\
    open_or_create (Some (Some file)) =
      Ok (mkExecutor (Some file) None ∅ (completed_by_idempotency_key (demo_execute demo_opened).1)
            (journal (demo_execute demo_opened).1)).
Proof.
  apply (executor_restart (fun _ => ""%string) demo_opened); [reflexivity|exact demo_run|].
  rewrite demo_journal. by repeat constructor.
Defined.

Lemma torn_journal_forgets_witness :
  let x1 := mkExecutor (Some [open_brace]) None ∅ ∅ [] in
  open_or_create (Some (Some [open_brace])) = Ok x1 /\
  exists x2, demo_execute x1 = (x2, Ok demo_entry) /\ journal x2 = [demo_entry] /\
    exists x3, open_or_create (Some (ex_file x2)) = Ok x3 /\ journal x3 = [] /\
      Authorised x3 "k1" demo_plan demo_report demo_approval "r7" 150.
Proof.
  apply (torn_journal_forgets (fun _ => ""%string) [] [] [open_brace] [] close_brace demo_approval "k1" demo_plan
           demo_report "r7" 150 true demo_text); try reflexivity; first [done|apply demo_authorised].
Defined.

Lemma executed_plan_verified_witness :
  compute_plan_hash demo_plan = compute_plan_hash demo_plan /\
  approved_plan_hash demo_approval = compute_plan_hash demo_plan /\
  assurance_report_id demo_approval = "assurance-p1"%string /\
  validate_schema demo_plan = Ok tt /\ target_prefix_reachable_after demo_twin = true /\
  2 <= 2 /\ 0 < 2 /\ vrf_isolation_intact demo_twin = true /\ 1 <= 1.
Proof.
  apply (executed_plan_verified (fun _ => ""%string) Write_Done "k1" demo_plan demo_plan demo_twin demo_approval "r7" 150
           true true demo_opened).
  change (journal (demo_execute demo_opened).1 <> []). rewrite demo_journal. discriminate.
Defined.
