(* ===== verification/CorrelationBuffer.v ===== *)
(** * Correlation of late signals ([src/correlation_buffer.rs])

    The same physical event is reported by several sources, out of order.  The
    buffer keeps a slot per device, kind of event and sub-key, absorbs the
    signals that arrive while the slot is open, and hands the slots out when
    their window has closed.  The mutex of the buffer makes each call one step.
    A call reads the clock several times; every reading is an argument. *)

From Stdlib Require Import ZArith Lia ZifyBool.
From stdpp Require Import base numbers list option strings gmap fin_maps sets.
From S2P Require Import Prelude HashMaps.

Local Open Scope Z_scope.

(** ** Slots *)

Record CorrelationKey := mkKey {
  ck_device_address : string;
  ck_semantic_type : string;
  ck_sub_key : string;
}.

#[global] Instance correlation_key_eq_dec : EqDecision CorrelationKey.
Proof. solve_decision. Defined.

#[global] Instance correlation_key_countable : Countable CorrelationKey.
Proof.
  refine (inj_countable' (fun k => (ck_device_address k, ck_semantic_type k, ck_sub_key k))
            (fun t => mkKey t.1.1 t.1.2 t.2) _). by intros [].
Defined.

(** Instants are nanoseconds since some origin. *)
Record PendingCorrelation := mkPending {
  pc_key : CorrelationKey;
  opened_at : Z;
  state_change_event_ids : list string;
  source_types : list string;
  first_signal_ns : Z;
  pc_detail_json : string;
}.

Definition pending_new (now : Z) (key : CorrelationKey) (id source : string) (ns : Z) (detail : string)
    : PendingCorrelation :=
  mkPending key now [id] [source] ns detail.

(** [if !v.contains(&x) { v.push(x) }] *)
Definition push_new (x : string) (l : list string) : list string := if decide (x ∈ l) then l else l ++ [x].

Definition absorb (id source : string) (s : PendingCorrelation) : PendingCorrelation :=
  mkPending (pc_key s) (opened_at s) (push_new id (state_change_event_ids s)) (push_new source (source_types s))
    (first_signal_ns s) (pc_detail_json s).

Definition is_multi_source (s : PendingCorrelation) : bool := bool_decide (1 < length (source_types s))%nat.

(** [upgraded.key.sub_key = ..] *)
Definition set_sub_key (sub : string) (s : PendingCorrelation) : PendingCorrelation :=
  mkPending (mkKey (ck_device_address (pc_key s)) (ck_semantic_type (pc_key s)) sub) (opened_at s)
    (state_change_event_ids s) (source_types s) (first_signal_ns s) (pc_detail_json s).

(** [Instant::elapsed]: saturates at zero. *)
Definition elapsed (now opened : Z) : Z := Z.max 0 (now - opened).

(** ** The buffer *)

Inductive RecordOutcome : Type := Absorbed | NewSlot.

Record CorrelationBuffer := mkBuffer {
  slots : gmap CorrelationKey PendingCorrelation;
  expired : list PendingCorrelation;
  window : Z;
}.

Definition buffer_new (window_secs : Z) : CorrelationBuffer := mkBuffer ∅ [] (window_secs * 10 ^ 9).

Definition set_slots (m : gmap CorrelationKey PendingCorrelation) (b : CorrelationBuffer) : CorrelationBuffer :=
  mkBuffer m (expired b) (window b).

(** The clock readings of one call of [record]. *)
Record Readings := mkReadings {
  at_exact : Z;                         (** the exact match *)
  at_sweep : CorrelationKey -> Z;       (** each slot of the sweep *)
  at_match : CorrelationKey -> Z;       (** each candidate of the wildcard match *)
  at_open : Z;                          (** [Instant::now()] of a new slot *)
}.

(** [for key in keys { if let Some(slot) = slots.remove(&key) { out.push(slot) } }] *)
Definition take_slot (st : gmap CorrelationKey PendingCorrelation * list PendingCorrelation) (k : CorrelationKey) :=
  match st.1 !! k with Some s => (delete k st.1, st.2 ++ [s]) | None => st end.

Definition take_slots (ks : list CorrelationKey) (m : gmap CorrelationKey PendingCorrelation)
    (out : list PendingCorrelation) : gmap CorrelationKey PendingCorrelation * list PendingCorrelation :=
  foldl take_slot (m, out) ks.

(** Moving slots to [expired]. *)
Definition expire (ks : list CorrelationKey) (b : CorrelationBuffer) : CorrelationBuffer :=
  let '(m, out) := take_slots ks (slots b) (expired b) in mkBuffer m out (window b).

Definition same_group (k key : CorrelationKey) : bool :=
  bool_decide (ck_device_address k = ck_device_address key) && bool_decide (ck_semantic_type k = ck_semantic_type key).

(** [slot.opened_at.elapsed() < window] *)
Definition is_open (now : Z) (b : CorrelationBuffer) (k : CorrelationKey) : bool :=
  match slots b !! k with Some s => elapsed now (opened_at s) <? window b | None => false end.

Definition has_closed (now : Z) (b : CorrelationBuffer) (k : CorrelationKey) : bool :=
  match slots b !! k with Some s => window b <=? elapsed now (opened_at s) | None => false end.

Definition empty_key (key : CorrelationKey) : CorrelationKey := mkKey (ck_device_address key) (ck_semantic_type key) "".

Section Buffer.
Context `{HashOrder}.

(** The keys of the slots that a filter keeps, in the order of the map. *)
Definition keys_where (p : CorrelationKey -> bool) (b : CorrelationBuffer) : list CorrelationKey :=
  base.filter (fun k => p k = true) (hash_keys (slots b)).

Definition wildcard_match_key (c : Readings) (key : CorrelationKey) (b : CorrelationBuffer) : option CorrelationKey :=
  if bool_decide (ck_sub_key key = ""%string) then
    match keys_where (fun k => same_group k key && is_open (at_match c k) b k) b with
    | [k] => Some k
    | _ => None
    end
  else if is_open (at_match c (empty_key key)) b (empty_key key) then Some (empty_key key) else None.

(** What follows a failed exact match. *)
Definition record_inexact (c : Readings) (key : CorrelationKey) (id source : string) (ns : Z) (detail : string)
    (b : CorrelationBuffer) : CorrelationBuffer * RecordOutcome :=
  let b := expire (keys_where (fun k => same_group k key && has_closed (at_sweep c k) b k) b) b in
  let opened := (set_slots (<[key := pending_new (at_open c) key id source ns detail]> (slots b)) b, NewSlot) in
  match wildcard_match_key c key b with
  | Some existing_key =>
      match slots b !! existing_key with
      | Some slot =>
          let slot := absorb id source slot in
          if negb (bool_decide (ck_sub_key key = ""%string)) && bool_decide (ck_sub_key existing_key = ""%string) then
            let upgraded := set_sub_key (ck_sub_key key) slot in
            (set_slots (<[pc_key upgraded := upgraded]> (delete existing_key (slots b))) b, Absorbed)
          else (set_slots (<[existing_key := slot]> (slots b)) b, Absorbed)
      | None => opened
      end
  | None => opened
  end.

Definition record (c : Readings) (key : CorrelationKey) (id source : string) (ns : Z) (detail : string)
    (b : CorrelationBuffer) : CorrelationBuffer * RecordOutcome :=
  match slots b !! key with
  | Some slot =>
      if elapsed (at_exact c) (opened_at slot) <? window b
      then (set_slots (<[key := absorb id source slot]> (slots b)) b, Absorbed)
      else record_inexact c key id source ns detail (expire [key] b)
  | None => record_inexact c key id source ns detail b
  end.

Definition drain_expired (now : CorrelationKey -> Z) (b : CorrelationBuffer)
    : CorrelationBuffer * list PendingCorrelation :=
  let '(m, flushed) := take_slots (keys_where (fun k => has_closed (now k) b k) b) (slots b) (expired b) in
  (mkBuffer m [] (window b), flushed).

Definition drain_all (b : CorrelationBuffer) : CorrelationBuffer * list PendingCorrelation :=
  (mkBuffer ∅ [] (window b), expired b ++ omap (fun k => slots b !! k) (hash_keys (slots b))).

Definition buffer_len (b : CorrelationBuffer) : Z := Z.of_nat (size (slots b)) + Z.of_nat (length (expired b)).

End Buffer.

(** ** Nothing is lost *)

(** Every slot the buffer holds, open or closed. *)
Definition held (b : CorrelationBuffer) : list PendingCorrelation := (map_to_list (slots b)).*2 ++ expired b.

(** Slots are filed under their own keys. *)
Definition filed (b : CorrelationBuffer) : Prop := map_Forall (fun k s => pc_key s = k) (slots b).

Lemma values_delete (m : gmap CorrelationKey PendingCorrelation) k s : m !! k = Some s ->
  (map_to_list m).*2 ≡ₚ s :: (map_to_list (delete k m)).*2.
Proof. intros Hk. by rewrite <- (map_to_list_delete m k s Hk). Qed.

Lemma values_insert (m : gmap CorrelationKey PendingCorrelation) k s : m !! k = None ->
  (map_to_list (<[k := s]> m)).*2 ≡ₚ s :: (map_to_list m).*2.
Proof. intros Hk. by rewrite map_to_list_insert. Qed.

Lemma values_update (m : gmap CorrelationKey PendingCorrelation) k s' :
  (map_to_list (<[k := s']> m)).*2 ≡ₚ s' :: (map_to_list (delete k m)).*2.
Proof. rewrite <- insert_delete_eq. apply values_insert, lookup_delete_eq. Qed.

(** Slots are moved, none is dropped or copied. *)
Lemma take_slots_perm ks m out :
  (map_to_list (take_slots ks m out).1).*2 ++ (take_slots ks m out).2 ≡ₚ (map_to_list m).*2 ++ out.
Proof.
  unfold take_slots. revert m out. induction ks as [|k ks IH]; intros m out; cbn [foldl]; [done|].
  unfold take_slot at 2 4. cbn [fst snd]. destruct (m !! k) as [s|] eqn:Hk; [|apply IH].
  rewrite IH, (values_delete m k s Hk). by rewrite app_assoc, (Permutation_app_comm _ [s]).
Qed.

Lemma take_slots_lookup ks m out k :
  (take_slots ks m out).1 !! k = if decide (k ∈ ks) then None else m !! k.
Proof.
  unfold take_slots. revert m out. induction ks as [|k' ks IH]; intros m out; cbn [foldl].
  { by rewrite decide_False by apply not_elem_of_nil. }
  assert (take_slot (m, out) k' = (delete k' m, (take_slot (m, out) k').2)) as ->.
  { unfold take_slot. cbn [fst snd]. destruct (m !! k') eqn:Hk; [done|]. by rewrite delete_id. }
  rewrite IH. destruct (decide (k = k')) as [->|Hne].
  - rewrite lookup_delete_eq, (decide_True (P := k' ∈ k' :: ks)) by (by left). by case_decide.
  - rewrite lookup_delete_ne by done.
    destruct (decide (k ∈ ks)); [by rewrite decide_True by (by right)|by rewrite decide_False by set_solver].
Qed.

Lemma take_slots_out ks m out s : s ∈ (take_slots ks m out).2 ->
  s ∈ out \/ exists k, k ∈ ks /\ m !! k = Some s.
Proof.
  unfold take_slots. revert m out. induction ks as [|k ks IH]; intros m out; cbn [foldl]; [by left|].
  unfold take_slot at 2. cbn [fst snd]. destruct (m !! k) as [s0|] eqn:Hk; intros Hs; apply IH in Hs as [Hs|(k' & Hk' & Hs)].
  - apply elem_of_app in Hs as [Hs|Hs%list_elem_of_singleton]; [by left|subst s0]. right. exists k. split; [by left|done].
  - right. exists k'. split; [by right|]. by apply lookup_delete_Some in Hs as [_ ?].
  - by left.
  - right. exists k'. by split; [right|].
Qed.

Lemma expire_held ks b : held (expire ks b) ≡ₚ held b.
Proof.
  unfold held, expire. pose proof (take_slots_perm ks (slots b) (expired b)) as Hp.
  by destruct (take_slots ks (slots b) (expired b)).
Qed.

Lemma expire_lookup ks b k : slots (expire ks b) !! k = if decide (k ∈ ks) then None else slots b !! k.
Proof.
  unfold expire. pose proof (take_slots_lookup ks (slots b) (expired b) k) as Hl.
  by destruct (take_slots ks (slots b) (expired b)).
Qed.

Lemma expire_window ks b : window (expire ks b) = window b.
Proof. unfold expire. by destruct (take_slots ks (slots b) (expired b)). Qed.

Lemma expire_filed ks b : filed b -> filed (expire ks b).
Proof. intros Hb k s. rewrite expire_lookup. case_decide; [done|]. apply Hb. Qed.

(** [s'] is the slot [s] of the group of [key] with one more signal. *)
Definition grows (key : CorrelationKey) (id source : string) (s s' : PendingCorrelation) : Prop :=
  same_group (pc_key s) key = true /\ same_group (pc_key s') key = true /\
  state_change_event_ids s' = push_new id (state_change_event_ids s) /\
  source_types s' = push_new source (source_types s) /\
  opened_at s' = opened_at s /\ first_signal_ns s' = first_signal_ns s /\ pc_detail_json s' = pc_detail_json s.

(** What a call of [record] did to the slots: one is new, or one has grown. *)
Definition recorded_as (now : Z) (key : CorrelationKey) (id source : string) (ns : Z) (detail : string)
    (b : CorrelationBuffer) (r : CorrelationBuffer * RecordOutcome) : Prop :=
  window r.1 = window b /\
  match r.2 with
  | NewSlot => held r.1 ≡ₚ pending_new now key id source ns detail :: held b
  | Absorbed => exists s s' rest, held b ≡ₚ s :: rest /\ held r.1 ≡ₚ s' :: rest /\ grows key id source s s'
  end.

Lemma same_group_refl k : same_group k k = true.
Proof. unfold same_group. by rewrite !bool_decide_true. Qed.

Lemma same_group_iff k key : same_group k key = true <->
  ck_device_address k = ck_device_address key /\ ck_semantic_type k = ck_semantic_type key.
Proof. unfold same_group. by rewrite andb_true_iff, !bool_decide_eq_true. Qed.

Lemma same_group_trans k1 k2 k3 : same_group k1 k2 = true -> same_group k2 k3 = true -> same_group k1 k3 = true.
Proof. rewrite !same_group_iff. naive_solver congruence. Qed.

Section BufferLaws.
Context `{HashOrder}.

Lemma elem_of_keys_where p b k : k ∈ keys_where p b <-> p k = true /\ is_Some (slots b !! k).
Proof. unfold keys_where. by rewrite list_elem_of_filter, elem_of_hash_keys. Qed.

(** Replacing a slot in place. *)
Lemma update_held b k s s' : slots b !! k = Some s ->
  exists rest, held b ≡ₚ s :: rest /\ held (set_slots (<[k := s']> (slots b)) b) ≡ₚ s' :: rest.
Proof.
  intros Hk. exists ((map_to_list (delete k (slots b))).*2 ++ expired b). unfold held. cbn [slots expired set_slots].
  by rewrite (values_delete _ _ _ Hk), values_update.
Qed.

Lemma update_filed b k s : filed b -> pc_key s = k -> filed (set_slots (<[k := s]> (slots b)) b).
Proof. intros Hb Hs. by apply map_Forall_insert_2. Qed.

Lemma absorb_grows key id source s : same_group (pc_key s) key = true -> grows key id source s (absorb id source s).
Proof. intros Hg. by split_and!. Qed.

(** A slot found by the wildcard match is of the group, and its key is the
    incoming one's but for the sub-key, which is empty on one side. *)
Lemma wildcard_spec c key b k : wildcard_match_key c key b = Some k ->
  is_Some (slots b !! k) /\ same_group k key = true /\ (ck_sub_key key <> ""%string -> k = empty_key key).
Proof.
  unfold wildcard_match_key. case_bool_decide as Hsub.
  - destruct (keys_where _ b) as [|k' [|]] eqn:Hks; try done. intros [= ->].
    assert (k ∈ [k]) as Hin by by left. rewrite <- Hks, elem_of_keys_where in Hin.
    destruct Hin as [[Hg _]%andb_true_iff Hs]. by split_and!.
  - unfold is_open. destruct (slots b !! empty_key key) as [s|] eqn:Hs; [|done]. case_if; [|done]. intros [= <-].
    split_and!; [by rewrite Hs|by apply same_group_iff|done].
Qed.

Lemma record_inexact_effect c key id source ns detail b : filed b -> slots b !! key = None ->
  let r := record_inexact c key id source ns detail b in
  filed r.1 /\ recorded_as (at_open c) key id source ns detail b r.
Proof.
  intros Hb Hkey. cbv zeta. unfold record_inexact. set (ks := keys_where _ b).
  pose proof (expire_filed ks b Hb) as Hb1. pose proof (expire_held ks b) as Hh1.
  assert (slots (expire ks b) !! key = None) as Hkey1 by (rewrite expire_lookup; by case_decide).
  pose proof (expire_window ks b) as Hw. set (b1 := expire ks b) in *.
  assert (forall r, window r.1 = window b1 -> filed r.1 /\ recorded_as (at_open c) key id source ns detail b1 r ->
    filed r.1 /\ recorded_as (at_open c) key id source ns detail b r) as Hlift.
  { intros r Hw' [Hf [_ Hr]]. split; [done|]. split; [congruence|]. destruct r.2.
    - destruct Hr as (s & s' & rest & Hr & Hr'). exists s, s', rest. by rewrite <- Hh1.
    - by rewrite <- Hh1. }
  assert (forall s, pc_key s = key ->
    filed (set_slots (<[key := s]> (slots b1)) b1) /\ held (set_slots (<[key := s]> (slots b1)) b1) ≡ₚ s :: held b1) as Hnew.
  { intros s Hs. split; [by apply update_filed|]. unfold held. cbn [slots expired set_slots]. by rewrite values_insert. }
  destruct (wildcard_match_key c key b1) as [k|] eqn:Hwild.
  2:{ apply Hlift; [done|]. destruct (Hnew (pending_new (at_open c) key id source ns detail)); done. }
  destruct (wildcard_spec c key b1 k Hwild) as ([s Hs] & Hg & Hempty). rewrite Hs.
  assert (pc_key s = k) as Hk by by apply Hb1. case_if; (apply Hlift; [done|]).
  - apply andb_true_iff in Heqb0 as [Hn%negb_true_iff%bool_decide_eq_false He%bool_decide_eq_true].
    specialize (Hempty Hn). set (s' := set_sub_key _ _).
    assert (pc_key s' = key) as Hs' by (unfold s', set_sub_key; cbn; rewrite Hk, Hempty; by destruct key).
    rewrite Hs'. split.
    + apply map_Forall_insert_2; [done|]. cbn. by apply map_Forall_delete.
    + split; [done|]. exists s, s', ((map_to_list (delete k (slots b1))).*2 ++ expired b1). split_and!.
      * unfold held. by rewrite (values_delete _ _ _ Hs).
      * unfold held. cbn [slots expired set_slots fst]. rewrite values_insert; [done|]. by apply lookup_delete_None; right.
      * split_and!; [by rewrite Hk|rewrite Hs'; apply same_group_refl|done..].
  - split; [by apply update_filed|]. split; [done|]. cbn [snd fst].
    destruct (update_held b1 k s (absorb id source s) Hs) as (rest & Hr & Hr'). exists s, (absorb id source s), rest.
    split_and!; [done..|]. apply absorb_grows. by rewrite Hk.
Qed.

Lemma record_effect c key id source ns detail b : filed b ->
  let r := record c key id source ns detail b in
  filed r.1 /\ recorded_as (at_open c) key id source ns detail b r.
Proof.
  intros Hb. cbv zeta. unfold record. destruct (slots b !! key) as [s|] eqn:Hs; [|by apply record_inexact_effect].
  pose proof (Hb _ _ Hs) as Hk. case_if.
  - split; [by apply update_filed|]. split; [done|].
    destruct (update_held b key s (absorb id source s) Hs) as (rest & Hr & Hr'). exists s, (absorb id source s), rest.
    split_and!; [done..|]. apply absorb_grows. rewrite Hk. apply same_group_refl.
  - destruct (record_inexact_effect c key id source ns detail (expire [key] b)) as [Hf [Hw Hr]];
      [by apply expire_filed|by rewrite expire_lookup, decide_True by by left|].
    split; [done|]. split; [by rewrite Hw, expire_window|]. destruct (record_inexact _ _ _ _ _ _ _).2.
    + destruct Hr as (s1 & s2 & rest & Hr & Hr'). exists s1, s2, rest. by rewrite <- (expire_held [key] b).
    + by rewrite <- (expire_held [key] b).
Qed.

Lemma drain_expired_effect now b : filed b ->
  let r := drain_expired now b in filed r.1 /\ window r.1 = window b /\ r.2 ++ held r.1 ≡ₚ held b.
Proof.
  intros Hb. cbv zeta. unfold drain_expired. set (ks := keys_where _ b).
  pose proof (take_slots_perm ks (slots b) (expired b)) as Hp.
  pose proof (take_slots_lookup ks (slots b) (expired b)) as Hl.
  destruct (take_slots ks (slots b) (expired b)) as [m out]. cbn [fst snd] in *. split_and!; [|done|].
  - intros k s Hs. cbn in Hs. rewrite Hl in Hs. case_decide; [done|]. by apply Hb.
  - unfold held. cbn. rewrite app_nil_r. by rewrite Permutation_app_comm.
Qed.

Lemma hash_values (m : gmap CorrelationKey PendingCorrelation) :
  omap (fun k => m !! k) (hash_keys m) ≡ₚ (map_to_list m).*2.
Proof.
  rewrite (hash_keys_perm _ _ m).
  assert (forall l, (forall kv, kv ∈ l -> m !! kv.1 = Some kv.2) -> omap (fun k => m !! k) l.*1 = l.*2) as Hl.
  { induction l as [|[k v] l IH]; intros Hin; [done|]. pose proof (Hin (k, v) ltac:(by left)) as Hk.
    cbn in *. rewrite Hk. f_equal. apply IH. intros kv Hkv. apply Hin. by right. }
  rewrite Hl; [done|]. intros [k v] Hkv. by apply elem_of_map_to_list.
Qed.

Lemma drain_all_effect b :
  let r := drain_all b in filed r.1 /\ window r.1 = window b /\ r.2 ≡ₚ held b /\ held r.1 = [].
Proof.
  cbv zeta. unfold drain_all, held. cbn. rewrite map_to_list_empty. split_and!; [apply map_Forall_empty|done| |done].
  by rewrite hash_values, Permutation_app_comm.
Qed.

(** *** Runs *)

Inductive BufferOp : Type :=
| Op_Record (c : Readings) (key : CorrelationKey) (id source : string) (ns : Z) (detail : string)
| Op_DrainExpired (now : CorrelationKey -> Z)
| Op_DrainAll.

(** The buffer and everything it has handed out. *)
Definition buffer_step (st : CorrelationBuffer * list PendingCorrelation) (op : BufferOp) :
    CorrelationBuffer * list PendingCorrelation :=
  match op with
  | Op_Record c key id source ns detail => ((record c key id source ns detail st.1).1, st.2)
  | Op_DrainExpired now => let r := drain_expired now st.1 in (r.1, st.2 ++ r.2)
  | Op_DrainAll => let r := drain_all st.1 in (r.1, st.2 ++ r.2)
  end.

Definition buffer_run (window_secs : Z) (ops : list BufferOp) : CorrelationBuffer * list PendingCorrelation :=
  foldl buffer_step (buffer_new window_secs, []) ops.

(** The slots handed out and those still held. *)
Definition correlations (st : CorrelationBuffer * list PendingCorrelation) : list PendingCorrelation := st.2 ++ held st.1.

(** The signal is part of the correlation. *)
Definition includes (s : PendingCorrelation) (key : CorrelationKey) (id source : string) : Prop :=
  same_group (pc_key s) key = true /\ id ∈ state_change_event_ids s /\ source ∈ source_types s.

(** Every signal of a run is in a correlation, and nothing else is. *)
Definition accounts (ops : list BufferOp) (ss : list PendingCorrelation) : Prop :=
  (forall c key id source ns detail, Op_Record c key id source ns detail ∈ ops -> exists s, s ∈ ss /\ includes s key id source) /\
  (forall s id, s ∈ ss -> id ∈ state_change_event_ids s -> exists c key source ns detail,
     Op_Record c key id source ns detail ∈ ops /\ same_group (pc_key s) key = true).

#[local] Instance accounts_proper ops : Proper ((≡ₚ) ==> iff) (accounts ops).
Proof. intros ss ss' Hp. unfold accounts. by setoid_rewrite Hp. Qed.

Lemma elem_of_push_new x y l : x ∈ push_new y l <-> x = y \/ x ∈ l.
Proof. unfold push_new. case_decide; set_solver. Qed.

Lemma accounts_drain ops op ss : match op with Op_Record _ _ _ _ _ _ => False | _ => True end ->
  accounts ops ss -> accounts (ops ++ [op]) ss.
Proof.
  intros Hop [H1 H2]. split.
  - intros c key id source ns detail [Hin|Hin%list_elem_of_singleton]%elem_of_app; [by eapply H1|by subst op].
  - intros s id Hs Hid. destruct (H2 s id Hs Hid) as (c & key & source & ns & detail & Hin & Hg).
    exists c, key, source, ns, detail. by split; [apply elem_of_app; left|].
Qed.

Lemma accounts_new ops c key id source ns detail now ss : accounts ops ss ->
  accounts (ops ++ [Op_Record c key id source ns detail]) (pending_new now key id source ns detail :: ss).
Proof.
  intros [H1 H2]. split.
  - intros c' key' id' source' ns' detail' [Hin|Hin%list_elem_of_singleton]%elem_of_app.
    + destruct (H1 _ _ _ _ _ _ Hin) as (s & Hs & Hinc). exists s. by split; [right|].
    + injection Hin as -> -> -> -> -> ->. eexists. split; [by left|]. split; [apply same_group_refl|]. split; by left.
  - intros s id' [->|Hs]%elem_of_cons Hid.
    + apply list_elem_of_singleton in Hid as ->. exists c, key, source, ns, detail.
      split; [apply elem_of_app; right; by left|apply same_group_refl].
    + destruct (H2 s id' Hs Hid) as (c' & key' & source' & ns' & detail' & Hin & Hg).
      exists c', key', source', ns', detail'. by split; [apply elem_of_app; left|].
Qed.

Lemma accounts_grow ops c key id source ns detail s s' rest : grows key id source s s' -> accounts ops (s :: rest) ->
  accounts (ops ++ [Op_Record c key id source ns detail]) (s' :: rest).
Proof.
  intros (Hg & Hg' & Hids & Hsrc & _) [H1 H2].
  assert (forall k, same_group (pc_key s) k = same_group (pc_key s') k) as Hsame.
  { intros k. apply eq_true_iff_eq. rewrite !same_group_iff in *. naive_solver congruence. }
  split.
  - intros c' key' id' source' ns' detail' [Hin|Hin%list_elem_of_singleton]%elem_of_app.
    + destruct (H1 _ _ _ _ _ _ Hin) as (s0 & [->|Hs0]%elem_of_cons & Hk & Hi & Hso); [|exists s0; split; [by right|done]].
      exists s'. split; [by left|]. split_and!; [by rewrite <- Hsame|rewrite Hids|rewrite Hsrc]; apply elem_of_push_new; by right.
    + injection Hin as -> -> -> -> -> ->. exists s'. split; [by left|].
      split_and!; [done|rewrite Hids|rewrite Hsrc]; apply elem_of_push_new; by left.
  - intros s0 id' [->|Hs0]%elem_of_cons Hid.
    + rewrite Hids, elem_of_push_new in Hid. destruct Hid as [->|Hid].
      * exists c, key, source, ns, detail. by split; [apply elem_of_app; right; left|].
      * destruct (H2 s id' ltac:(by left) Hid) as (c' & key' & source' & ns' & detail' & Hin & Hk).
        exists c', key', source', ns', detail'. rewrite <- Hsame. by split; [apply elem_of_app; left|].
    + destruct (H2 s0 id' ltac:(by right) Hid) as (c' & key' & source' & ns' & detail' & Hin & Hk).
      exists c', key', source', ns', detail'. by split; [apply elem_of_app; left|].
Qed.

Lemma buffer_step_accounts ops op st : filed st.1 -> accounts ops (correlations st) ->
  filed (buffer_step st op).1 /\ accounts (ops ++ [op]) (correlations (buffer_step st op)).
Proof.
  destruct st as [b out]. cbn [fst snd]. intros Hb Hacc. unfold correlations in *. cbn [fst snd] in *.
  destruct op as [c key id source ns detail|now|]; cbn [buffer_step fst snd].
  - destruct (record_effect c key id source ns detail b Hb) as [Hf [_ Hr]]. split; [done|].
    destruct (record _ _ _ _ _ _ _).2.
    + destruct Hr as (s & s' & rest & Hr & Hr' & Hg). rewrite Hr, <- (Permutation_middle out rest) in Hacc.
      rewrite Hr', <- (Permutation_middle out rest). by eapply accounts_grow.
    + rewrite Hr, <- (Permutation_middle out (held b)). by apply accounts_new.
  - destruct (drain_expired_effect now b Hb) as (Hf & _ & Hp). split; [done|].
    rewrite <- app_assoc, Hp. by apply accounts_drain.
  - destruct (drain_all_effect b) as (Hf & _ & Hp & Hnil). split; [done|].
    rewrite Hnil, app_nil_r, Hp. by apply accounts_drain.
Qed.

(** Claim C7: no signal is lost and none is made up.  After any calls, with any
    clock readings and whatever the order of the hash map, every recorded
    signal is in a correlation of its own device and kind of event that was
    handed out or is still held, with its identifier and its source; and every
    identifier in a correlation was recorded for its device and kind.  Slots
    are filed under their own keys, also after a key was upgraded. *)
Theorem signals_conserved window_secs ops :
  filed (buffer_run window_secs ops).1 /\ accounts ops (correlations (buffer_run window_secs ops)).
Proof.
  unfold buffer_run. induction ops as [|op ops [Hf Ha]] using rev_ind.
  - split; [apply map_Forall_empty|]. unfold correlations, held. cbn. rewrite map_to_list_empty.
    split; [intros ? ? ? ? ? ? Hin|intros ? ? Hin]; by apply not_elem_of_nil in Hin.
  - rewrite foldl_app. cbn [foldl]. by apply buffer_step_accounts.
Qed.

(** *** Which signals are absorbed *)

(** All readings of the clock in one call, at one instant. *)
Definition at_instant (t : Z) : Readings := mkReadings t (fun _ => t) (fun _ => t) t.

Lemma open_or_closed t b k s : slots b !! k = Some s -> is_open t b k = negb (has_closed t b k).
Proof. unfold is_open, has_closed. intros ->. lia. Qed.

(** Sweeping closed slots leaves the open ones alone. *)
Lemma is_open_expire t b ks k : (forall k, k ∈ ks -> has_closed t b k = true) ->
  is_open t (expire ks b) k = is_open t b k.
Proof.
  intros Hks. unfold is_open at 1. rewrite expire_lookup, expire_window. case_decide as Hk; [|done].
  specialize (Hks k Hk). unfold has_closed in Hks. destruct (slots b !! k) eqn:Hs; [|done].
  erewrite open_or_closed by done. unfold has_closed. by rewrite Hs, Hks.
Qed.

Lemma NoDup_singleton_iff {A} (l : list A) : NoDup l ->
  (exists k, l = [k]) <-> (exists k, forall k', k' ∈ l <-> k' = k).
Proof.
  intros Hnd. split.
  - intros [k ->]. exists k. intros k'. apply list_elem_of_singleton.
  - intros [k Hk]. exists k. destruct l as [|x [|y l]].
    + by pose proof (proj2 (Hk k) eq_refl) as Hin%not_elem_of_nil.
    + f_equal. apply Hk. by left.
    + assert (x = k) by (apply Hk; by left). assert (y = k) by (apply Hk; right; by left). subst.
      apply NoDup_cons in Hnd as [Hx _]. destruct Hx. by left.
Qed.

Lemma wildcard_iff t key b : is_Some (wildcard_match_key (at_instant t) key b) <->
  (ck_sub_key key = ""%string /\ exists k, forall k', same_group k' key = true /\ is_open t b k' = true <-> k' = k) \/
  (ck_sub_key key <> ""%string /\ is_open t b (empty_key key) = true).
Proof.
  unfold wildcard_match_key. cbn [at_match at_instant]. case_bool_decide as Hsub.
  - set (l := keys_where _ b). assert (NoDup l) as Hnd by (apply NoDup_filter, NoDup_hash_keys).
    assert (is_Some (match l with [k] => Some k | _ => None end) <-> exists k, l = [k]) as ->.
    { split; [|by intros [k ->]]. destruct l as [|k [|]]; intros [? ?]; try done. by exists k. }
    rewrite NoDup_singleton_iff by done.
    assert (forall k, k ∈ l <-> same_group k key = true /\ is_open t b k = true) as Hl.
    { intros k. unfold l. rewrite elem_of_keys_where, andb_true_iff. split; [naive_solver|]. intros [Hg Ho].
      split; [done|]. unfold is_open in Ho. by destruct (slots b !! k). }
    setoid_rewrite Hl. naive_solver.
  - case_if; split; naive_solver.
Qed.

Lemma record_inexact_absorbs t key id source ns detail b :
  (record_inexact (at_instant t) key id source ns detail b).2 = Absorbed <->
  is_Some (wildcard_match_key (at_instant t) key b).
Proof.
  unfold record_inexact. set (ks := keys_where _ b).
  assert (forall k, k ∈ ks -> has_closed t b k = true) as Hks.
  { intros k [[_ Hk]%andb_true_iff _]%elem_of_keys_where. done. }
  rewrite !wildcard_iff. setoid_rewrite <- (is_open_expire t b ks _ Hks). rewrite <- wildcard_iff.
  destruct (wildcard_match_key (at_instant t) key (expire ks b)) as [k|] eqn:Hw.
  - destruct (wildcard_spec _ _ _ _ Hw) as ([s ->] & _). case_if; naive_solver.
  - cbn. split; [done|]. by intros [].
Qed.

(** Which signals are absorbed.  At one instant, a signal joins a slot
    exactly when its own slot is open, or its sub-key is empty and there is
    exactly one open slot for its device and kind of event, or its sub-key is
    not and the slot without sub-key is open; it opens a slot otherwise.  The
    order of the hash map does not matter. *)
Theorem record_absorbs_iff t key id source ns detail b :
  (record (at_instant t) key id source ns detail b).2 = Absorbed <->
  is_open t b key = true \/
  (ck_sub_key key = ""%string /\ exists k, forall k', same_group k' key = true /\ is_open t b k' = true <-> k' = k) \/
  (ck_sub_key key <> ""%string /\ is_open t b (empty_key key) = true).
Proof.
  rewrite <- wildcard_iff. unfold record. destruct (slots b !! key) as [s|] eqn:Hs.
  - cbn [at_exact at_instant]. assert (is_open t b key = (elapsed t (opened_at s) <? window b)) as Ho
      by (unfold is_open; by rewrite Hs). rewrite Ho. case_if; [naive_solver|].
    assert (forall k, k ∈ [key] -> has_closed t b k = true) as Hks.
    { intros k ->%list_elem_of_singleton. unfold has_closed. rewrite Hs. lia. }
    rewrite record_inexact_absorbs, !wildcard_iff. setoid_rewrite (is_open_expire t b [key] _ Hks). naive_solver.
  - rewrite record_inexact_absorbs. unfold is_open. rewrite Hs. naive_solver.
Qed.

(** *** When slots are handed out *)

(** Slots set aside as expired have been open for the whole window. *)
Definition expired_ok (t : Z) (b : CorrelationBuffer) : Prop :=
  Forall (fun s => window b <= elapsed t (opened_at s)) (expired b).

Lemma expired_ok_later t t' b : t <= t' -> expired_ok t b -> expired_ok t' b.
Proof. intros Ht Hb. eapply Forall_impl; [exact Hb|]. intros s. unfold elapsed. lia. Qed.

Lemma expire_ok t b ks : expired_ok t b -> (forall k, k ∈ ks -> has_closed t b k = true) -> expired_ok t (expire ks b).
Proof.
  intros Hb Hks. unfold expired_ok. rewrite expire_window. apply Forall_forall. intros s Hs. unfold expire in Hs.
  pose proof (take_slots_out ks (slots b) (expired b) s) as Ho.
  destruct (take_slots ks (slots b) (expired b)) as [m out]. cbn in *. destruct (Ho Hs) as [Hin|(k & Hk & Hsk)].
  - unfold expired_ok in Hb. rewrite Forall_forall in Hb. by apply Hb.
  - specialize (Hks k Hk). unfold has_closed in Hks. rewrite Hsk in Hks. lia.
Qed.

Lemma record_expired_ok t key id source ns detail b : expired_ok t b ->
  expired_ok t (record (at_instant t) key id source ns detail b).1.
Proof.
  assert (forall b, expired_ok t b -> expired_ok t (record_inexact (at_instant t) key id source ns detail b).1) as Hin.
  { clear b. intros b Hb. unfold record_inexact. set (ks := keys_where _ b).
    assert (expired_ok t (expire ks b)) as Hok.
    { apply expire_ok; [done|]. intros k [[_ Hk]%andb_true_iff _]%elem_of_keys_where. done. }
    destruct (wildcard_match_key _ _ _); [|done]. destruct (slots _ !! _); [|done]. by case_if. }
  intros Hb. unfold record. destruct (slots b !! key) as [s|] eqn:Hs; [|by apply Hin]. case_if; [done|].
  apply Hin, expire_ok; [done|]. intros k ->%list_elem_of_singleton. unfold has_closed. rewrite Hs. cbn in *. lia.
Qed.

Lemma drain_expired_closed t b : expired_ok t b ->
  let r := drain_expired (fun _ => t) b in
  Forall (fun s => window b <= elapsed t (opened_at s)) r.2 /\
  Forall (fun s => ~ window b <= elapsed t (opened_at s)) (held r.1).
Proof.
  intros Hb. cbv zeta. unfold drain_expired. set (ks := keys_where _ b).
  pose proof (take_slots_out ks (slots b) (expired b)) as Ho.
  pose proof (take_slots_lookup ks (slots b) (expired b)) as Hl.
  destruct (take_slots ks (slots b) (expired b)) as [m out]. cbn [fst snd] in *. unfold held. cbn. split.
  - apply Forall_forall. intros s Hs. destruct (Ho s Hs) as [Hin|(k & Hk & Hsk)].
    + unfold expired_ok in Hb. rewrite Forall_forall in Hb. by apply Hb.
    + apply elem_of_keys_where in Hk as [Hc _]. unfold has_closed in Hc. rewrite Hsk in Hc. lia.
  - rewrite app_nil_r. apply Forall_forall. intros s ([k s'] & -> & Hs)%list_elem_of_fmap.
    apply elem_of_map_to_list in Hs. rewrite Hl in Hs. case_decide as Hk; [done|]. intros Hc. apply Hk.
    apply elem_of_keys_where. unfold has_closed. rewrite Hs. cbn in *. split; [lia|done].
Qed.

(** A sweep hands out exactly the slots whose window has closed, those
    set aside before included, and keeps exactly the others.  (What is set
    aside by the calls before has been open that long.) *)
Theorem drain_expired_exact t b : filed b -> expired_ok t b ->
  let closed := fun s => window b <= elapsed t (opened_at s) in
  let r := drain_expired (fun _ => t) b in
  r.2 ≡ₚ base.filter closed (held b) /\ held r.1 ≡ₚ base.filter (fun s => ~ closed s) (held b).
Proof.
  intros Hf Hb. cbv zeta. destruct (drain_expired_effect (fun _ => t) b Hf) as (_ & _ & Hp).
  destruct (drain_expired_closed t b Hb) as [Hc Hn]. rewrite <- Hp, !filter_app. split.
  - by rewrite filter_all, filter_none, app_nil_r.
  - rewrite filter_none, filter_all; [done|done|]. eapply Forall_impl; [exact Hc|]. tauto.
Qed.

End BufferLaws.

(** *** An example: a trap without peer address joins the only open slot *)

Definition demo_key (sub : string) : CorrelationKey := mkKey "10.0.0.1" "bgp_neighbor_down" sub.

Definition demo_slot : PendingCorrelation := pending_new 0 (demo_key "10.0.0.2") "e1" "bmp" 5 "{}".

Definition demo_buffer : CorrelationBuffer := mkBuffer {[ demo_key "10.0.0.2" := demo_slot ]} [] (30 * 10 ^ 9).

Lemma demo_buffer_ok : filed demo_buffer /\ expired_ok (40 * 10 ^ 9) demo_buffer.
Proof. split; [by apply map_Forall_singleton|constructor]. Qed.

Lemma drain_expired_exact_witness :
  let closed := fun s => 30 * 10 ^ 9 <= elapsed (40 * 10 ^ 9) (opened_at s) in
  (@drain_expired trie_order (fun _ => 40 * 10 ^ 9) demo_buffer).2 ≡ₚ base.filter closed (held demo_buffer) /\
  held (@drain_expired trie_order (fun _ => 40 * 10 ^ 9) demo_buffer).1 ≡ₚ base.filter (fun s => ~ closed s) (held demo_buffer).
Proof.
  apply (@drain_expired_exact trie_order (40 * 10 ^ 9) demo_buffer); apply demo_buffer_ok.
Defined.

Example demo_absorbed :
  source_types <$> held (@record trie_order (at_instant 9) (demo_key "") "e2" "snmp" 7 "" demo_buffer).1
  = [["bmp"; "snmp"]%string].
Proof. by vm_compute. Qed.
