(* ===== verification/HaCoordinator.v ===== *)
(** * Leader election ([src/ha_coordinator.rs])

    Every core of a cluster runs [start_election] once: it takes a lease from
    etcd, tries to create the election key with it, and then keeps the lease
    alive.  A node stops at each [await], so that the cores interleave: a node
    is its coordinator and the point its election has reached, and an event is
    what the next [await] returned.  etcd is an interface. *)

From Stdlib Require Import ZArith Lia.
From stdpp Require Import base numbers list option strings relations.
From S2P Require Import Prelude.

Local Open Scope Z_scope.

(** ** Coordinators *)

Inductive HAMode : Type := Standalone | Cluster (node_id : string).

Record EtcdConfig := mkEtcdConfig {
  endpoints : list string;
  election_ttl_secs : Z;
  config_prefix : string;
}.

Inductive LeaderState : Type := Leader | Follower (leader_id : string) | Electing.

#[global] Instance leader_state_eq_dec : EqDecision LeaderState.
Proof. solve_decision. Defined.

(** The callback is the list of the states it was called with. *)
Record HACoordinator := mkCoordinator {
  mode : HAMode;
  ha_state : LeaderState;
  etcd_config : option EtcdConfig;
  etcd_connected : bool;
  shutdown_signal : bool;
  leadership_change_callback : option (list LeaderState);
}.

Definition coordinator_new (m : HAMode) : HACoordinator := mkCoordinator m Electing None false false None.

Definition with_etcd_config (config : EtcdConfig) (c : HACoordinator) : HACoordinator :=
  mkCoordinator (mode c) (ha_state c) (Some config) (etcd_connected c) (shutdown_signal c) (leadership_change_callback c).

Definition is_leader (c : HACoordinator) : bool := bool_decide (ha_state c = Leader).

Definition set_state (new_state : LeaderState) (c : HACoordinator) : HACoordinator :=
  let called := if bool_decide (ha_state c <> new_state) then (fun l => l ++ [new_state]) <$> leadership_change_callback c
                else leadership_change_callback c in
  mkCoordinator (mode c) new_state (etcd_config c) (etcd_connected c) (shutdown_signal c) called.

Definition set_connected (b : bool) (c : HACoordinator) : HACoordinator :=
  mkCoordinator (mode c) (ha_state c) (etcd_config c) b (shutdown_signal c) (leadership_change_callback c).

Definition register_leadership_change_callback (c : HACoordinator) : HACoordinator :=
  mkCoordinator (mode c) (ha_state c) (etcd_config c) (etcd_connected c) (shutdown_signal c) (Some []).

Definition shutdown (c : HACoordinator) : HACoordinator :=
  mkCoordinator (mode c) (ha_state c) (etcd_config c) (etcd_connected c) true (leadership_change_callback c).

(** ** etcd

    What the election relies on: a lease that is granted is new and alive; the
    transaction creates the election key under the lease if there is none, and
    otherwise returns its value; when a lease ends, by revocation or because it
    was not kept alive, the key goes if it was created under that lease. *)
Record TxnResponse := mkTxnResponse { succeeded : bool; first_value : option string }.

Class Etcd := {
  etcd : Type;
  election_key : etcd -> option (string * Z);
  granted : etcd -> Z -> Prop;
  lease_live : etcd -> Z -> bool;
  lease_grant : etcd -> etcd * Z;
  lease_end : etcd -> Z -> etcd;
  election_txn : etcd -> Z -> string -> option (etcd * TxnResponse);
  key_grant : forall e, election_key (lease_grant e).1 = election_key e;
  grant_fresh : forall e, ~ granted e (lease_grant e).2;
  granted_grant : forall e l, granted (lease_grant e).1 l <-> l = (lease_grant e).2 \/ granted e l;
  live_grant : forall e, lease_live (lease_grant e).1 (lease_grant e).2 = true;
  key_end : forall e l, election_key (lease_end e l) =
    match election_key e with Some (v, l') => if decide (l' = l) then None else Some (v, l') | None => None end;
  granted_end : forall e l l', granted (lease_end e l) l' <-> granted e l';
  txn_present : forall e l v v0 l0, election_key e = Some (v0, l0) ->
    exists e', election_txn e l v = Some (e', mkTxnResponse false (Some v0)) /\ election_key e' = Some (v0, l0) /\
      forall l', granted e' l' <-> granted e l';
  txn_absent : forall e l v, election_key e = None -> lease_live e l = true ->
    exists e', election_txn e l v = Some (e', mkTxnResponse true None) /\ election_key e' = Some (v, l) /\
      forall l', granted e' l' <-> granted e l';
  txn_dead : forall e l v, election_key e = None -> lease_live e l = false -> election_txn e l v = None;
}.

(** ** The election *)

(** Where [start_election] and [run_etcd_election] are. *)
Inductive Phase : Type :=
| Ph_Idle
| Ph_Connecting
| Ph_Connected
| Ph_Granted (lease : Z)
| Ph_Answered (lease : Z) (r : TxnResponse)
| Ph_Keeping (lease : Z)
| Ph_Stopping
| Ph_Returned.

Record Node := mkNode { coordinator : HACoordinator; phase : Phase }.

(** [lease_keep_alive] opens a stream, [keep_alive] sends on it. *)
Inductive KeepAlive : Type := Keep_Ok | Keep_StreamFailed | Keep_SendFailed.

(** How a call to etcd ends: with its answer, with an error before etcd has
    done anything, or with an error after etcd has done what was asked. *)
Inductive Reply : Type := Answered | Refused | AnswerLost.

Inductive NodeEvent : Type :=
| Ev_Start
| Ev_Connect (ok : bool)
| Ev_Grant (r : Reply)
| Ev_Txn (r : Reply)
| Ev_SetState
| Ev_Tick (r : KeepAlive)
| Ev_Revoke (revoked : bool)
| Ev_Resign
| Ev_Shutdown.

(** The [Err(e)] arm of [start_election]. *)
Definition election_failed (c : HACoordinator) : Node :=
  mkNode (set_state Electing (set_connected false c)) Ph_Returned.

(** What the answer of the transaction makes of the node. *)
Definition election_result (node_id : string) (r : TxnResponse) : LeaderState :=
  if succeeded r then Leader
  else
    let current_leader := default "unknown"%string (first_value r) in
    if bool_decide (current_leader = node_id) then Leader else Follower current_leader.

Section Election.
Context `{Etcd}.

Definition node_event (ev : NodeEvent) (e : etcd) (n : Node) : option (etcd * Node) :=
  let c := coordinator n in
  match ev, phase n, mode c with
  | Ev_Start, Ph_Idle, Standalone => Some (e, mkNode (set_state Leader (set_connected false c)) Ph_Returned)
  | Ev_Start, Ph_Idle, Cluster _ =>
      match etcd_config c with
      | Some _ => Some (e, mkNode c Ph_Connecting)
      | None => Some (e, mkNode (set_state Electing (set_connected false c)) Ph_Returned)
      end
  | Ev_Connect ok, Ph_Connecting, _ =>
      Some (e, if ok then mkNode (set_connected true c) Ph_Connected else election_failed c)
  | Ev_Grant r, Ph_Connected, _ =>
      match r with
      | Answered => let '(e, lease) := lease_grant e in Some (e, mkNode c (Ph_Granted lease))
      | Refused => Some (e, election_failed c)
      | AnswerLost => Some ((lease_grant e).1, election_failed c)
      end
  | Ev_Txn r, Ph_Granted lease, Cluster node_id =>
      match r, election_txn e lease node_id with
      | Answered, Some (e, resp) => Some (e, mkNode c (Ph_Answered lease resp))
      | AnswerLost, Some (e, _) => Some (e, election_failed c)
      | _, _ => Some (e, election_failed c)
      end
  | Ev_SetState, Ph_Answered lease resp, Cluster node_id =>
      Some (e, mkNode (set_state (election_result node_id resp) c) (Ph_Keeping lease))
  | Ev_Tick r, Ph_Keeping lease, _ =>
      match r with
      | Keep_Ok => Some (e, n)
      | Keep_StreamFailed => Some (e, election_failed c)
      | Keep_SendFailed => Some (e, election_failed (set_state Electing (set_connected false c)))
      end
  | Ev_Revoke revoked, Ph_Keeping lease, _ =>
      if shutdown_signal c then Some (if revoked then lease_end e lease else e, mkNode c Ph_Stopping) else None
  | Ev_Resign, Ph_Stopping, _ => Some (e, mkNode (set_state Electing (set_connected false c)) Ph_Returned)
  | Ev_Shutdown, _, _ => Some (e, mkNode (shutdown c) (phase n))
  | _, _, _ => None
  end.

(** A process that starts over. *)
Definition restart (n : Node) : Node :=
  mkNode (mkCoordinator (mode (coordinator n)) Electing (etcd_config (coordinator n)) false false None) Ph_Idle.

(** *** A cluster *)

Definition holds (n : Node) (l : Z) : Prop :=
  match phase n with Ph_Granted l' | Ph_Answered l' _ | Ph_Keeping l' => l' = l | _ => False end.

(** The cores and etcd.  [restarts] says which cores may start over, and
    [expires] which leases etcd may let expire. *)
Inductive cluster_step (restarts : nat -> Prop) (expires : list Node -> Z -> Prop) :
    etcd * list Node -> etcd * list Node -> Prop :=
| step_node i ev e ns n e' n' : ns !! i = Some n -> node_event ev e n = Some (e', n') ->
    cluster_step restarts expires (e, ns) (e', <[i := n']> ns)
| step_expire e ns l : expires ns l -> cluster_step restarts expires (e, ns) (lease_end e l, ns)
| step_restart i e ns n : restarts i -> ns !! i = Some n ->
    cluster_step restarts expires (e, ns) (e, <[i := restart n]> ns).

(** etcd expires no lease that a core still holds. *)
Definition unheld (ns : list Node) (l : Z) : Prop := forall i n, ns !! i = Some n -> ~ holds n l.

Definition node_id_of (n : Node) : option string :=
  match mode (coordinator n) with Cluster id => Some id | Standalone => None end.

(** A cluster before the election: every core has an identifier of its own. *)
Definition before_election (ns : list Node) : Prop :=
  (forall i n, ns !! i = Some n -> phase n = Ph_Idle /\ ha_state (coordinator n) = Electing /\ is_Some (node_id_of n)) /\
  (forall i j n n', ns !! i = Some n -> ns !! j = Some n' -> node_id_of n = node_id_of n' -> i = j).

(** ** What an event does *)

(** The transaction of the node has been made. *)
Definition voted (n : Node) : Prop :=
  match phase n with Ph_Answered _ _ | Ph_Keeping _ | Ph_Stopping | Ph_Returned => True | _ => False end.

(** The node leads under a lease it keeps, or has been told that it will. *)
Definition claims (id : string) (n : Node) (l : Z) : Prop :=
  match phase n with
  | Ph_Keeping l' => l' = l /\ ha_state (coordinator n) = Leader
  | Ph_Answered l' r => l' = l /\ election_result id r = Leader
  | _ => False
  end.

(** Only a node that keeps a lease or is stopping is a leader. *)
Definition leads_properly (n : Node) : Prop :=
  ha_state (coordinator n) = Leader -> match phase n with Ph_Keeping _ | Ph_Stopping => True | _ => False end.

Definition same_etcd (e e' : etcd) : Prop :=
  election_key e' = election_key e /\ forall l, granted e' l <-> granted e l.

(** The effects an event can have on a core of a cluster. *)
Inductive node_effect (id : string) (e : etcd) (n : Node) : etcd -> Node -> Prop :=
| eff_quiet e' n' : same_etcd e e' ->
    (forall l, claims id n' l -> claims id n l) ->
    (forall l, holds n' l -> holds n l) -> (voted n -> voted n') ->
    node_effect id e n e' n'
| eff_grant n' l : phase n = Ph_Connected -> (lease_grant e).2 = l -> phase n' = Ph_Granted l \/ phase n' = Ph_Returned ->
    node_effect id e n (lease_grant e).1 n'
| eff_won e' n' l : phase n = Ph_Granted l ->
    (exists r, phase n' = Ph_Answered l r) \/ phase n' = Ph_Returned ->
    election_key e = None -> election_key e' = Some (id, l) -> (forall l, granted e' l <-> granted e l) ->
    node_effect id e n e' n'
| eff_lost e' n' l v0 l0 r : phase n = Ph_Granted l -> phase n' = Ph_Answered l r -> same_etcd e e' ->
    election_key e = Some (v0, l0) -> (election_result id r = Leader -> v0 = id) ->
    node_effect id e n e' n'
| eff_revoke n' l : phase n = Ph_Keeping l -> phase n' = Ph_Stopping ->
    node_effect id e n (lease_end e l) n'.

Lemma same_etcd_refl e : same_etcd e e.
Proof. by split. Qed.

(** A core that returns or stops is quiet. *)
Lemma eff_ended id e e' n n' : phase n' = Ph_Returned \/ phase n' = Ph_Stopping -> same_etcd e e' -> node_effect id e n e' n'.
Proof.
  intros Hp He. apply eff_quiet; [done|intros l|intros l|]; unfold claims, holds, voted; by destruct Hp as [->| ->].
Qed.

Lemma txn_effect id e n l n' e' r : phase n = Ph_Granted l -> election_txn e l id = Some (e', r) ->
  phase n' = Ph_Answered l r \/ phase n' = Ph_Returned -> node_effect id e n e' n'.
Proof.
  intros Hp Ht Hp'. destruct (election_key e) as [[v0 l0]|] eqn:Hk.
  - destruct (txn_present e l id v0 l0 Hk) as (e1 & Ht' & Hk' & Hg). rewrite Ht' in Ht. simplify_eq.
    assert (same_etcd e e') as He by by split; [rewrite Hk|].
    destruct Hp' as [Hp'|Hp']; [|by apply eff_ended; [left|]].
    eapply eff_lost; [done..|exact Hk|]. unfold election_result. cbn. by case_bool_decide.
  - destruct (lease_live e l) eqn:Hl; [|by rewrite (txn_dead e l id Hk Hl) in Ht].
    destruct (txn_absent e l id Hk Hl) as (e1 & Ht' & Hk' & Hg). rewrite Ht' in Ht. simplify_eq.
    eapply eff_won; eauto. destruct Hp'; eauto.
Qed.

Lemma node_event_effect ev e n e' n' id : node_id_of n = Some id -> node_event ev e n = Some (e', n') ->
  node_effect id e n e' n' /\ node_id_of n' = Some id.
Proof.
  intros Hid Hev. destruct n as [c ph]. unfold node_id_of in *. cbn [coordinator] in *.
  destruct (mode c) as [|id'] eqn:Hm; [done|]. injection Hid as ->. unfold node_event in Hev. cbn [coordinator phase] in Hev.
  rewrite Hm in Hev. pose proof (same_etcd_refl e) as Hre. destruct ev; [destruct ph; try done..|].
  - destruct (etcd_config c) eqn:Hc; injection Hev as <- <-; cbn; rewrite Hm; (split; [|done]);
      [by apply eff_quiet|apply eff_ended; auto].
  - injection Hev as <- <-. destruct ok; cbn; rewrite Hm; (split; [|done]); [by apply eff_quiet|apply eff_ended; auto].
  - destruct r; [destruct (lease_grant e) as [e1 l] eqn:Hg| |]; injection Hev as <- <-; cbn; rewrite Hm; (split; [|done]).
    + change e1 with ((e1, l).1). rewrite <- Hg. eapply eff_grant; [done|by rewrite Hg|by left].
    + apply eff_ended; auto.
    + eapply eff_grant; [done..|by right].
  - destruct (election_txn e lease id) as [[e1 resp]|] eqn:Ht; destruct r; injection Hev as <- <-; cbn; rewrite Hm; (split; [|done]).
    all: first [by eapply txn_effect; [done..|left]|by eapply txn_effect; [done..|right]|apply eff_ended; auto].
  - injection Hev as <- <-. cbn. rewrite Hm. split; [|done]. by apply eff_quiet.
  - destruct r; injection Hev as <- <-; cbn; rewrite Hm; (split; [|done]); [by apply eff_quiet|apply eff_ended; auto..].
  - destruct (shutdown_signal c); [|done]. injection Hev as <- <-. cbn. rewrite Hm. split; [|done].
    destruct revoked; [by eapply eff_revoke|apply eff_ended; auto].
  - injection Hev as <- <-. cbn. rewrite Hm. split; [apply eff_ended; auto|done].
  - injection Hev as <- <-; cbn; rewrite Hm; split; [|done]. by apply eff_quiet.
Qed.

Lemma node_event_leads ev e n e' n' id : node_id_of n = Some id -> node_event ev e n = Some (e', n') ->
  leads_properly n -> leads_properly n'.
Proof.
  unfold node_id_of, leads_properly. intros Hid Hev Hn. destruct n as [c ph]. unfold node_event in Hev. cbn [coordinator phase] in *.
  destruct (mode c) as [|id'] eqn:Hm; [done|]. destruct ev, ph; try done; repeat case_match; simplify_eq; cbn in *; try done; auto.
Qed.

(** ** At most one leader *)

Record election_inv (e : etcd) (ns : list Node) : Prop := {
  inv_ids : forall i n, ns !! i = Some n -> is_Some (node_id_of n);
  inv_distinct : forall i j n n', ns !! i = Some n -> ns !! j = Some n' -> node_id_of n = node_id_of n' -> i = j;
  inv_leads : forall i n, ns !! i = Some n -> leads_properly n;
  inv_claims : forall i n id l, ns !! i = Some n -> node_id_of n = Some id -> claims id n l -> election_key e = Some (id, l);
  inv_owner : forall i n v l, ns !! i = Some n -> election_key e = Some (v, l) -> holds n l -> node_id_of n = Some v;
  inv_voted : forall i n v l, ns !! i = Some n -> election_key e = Some (v, l) -> node_id_of n = Some v -> voted n;
  inv_granted : forall i n l, ns !! i = Some n -> holds n l -> granted e l;
  inv_leases : forall i j n n' l, ns !! i = Some n -> ns !! j = Some n' -> holds n l -> holds n' l -> i = j;
  inv_key : forall v l, election_key e = Some (v, l) -> granted e l;
}.

Lemma claims_holds id n l : claims id n l -> holds n l.
Proof. unfold claims, holds. destruct (phase n); tauto. Qed.

Lemma inv_before e ns : before_election ns -> election_key e = None -> election_inv e ns.
Proof.
  intros [Hn Hd] Hk. assert (forall i n l, ns !! i = Some n -> ~ holds n l) as Hno.
  { intros i n l Hi. destruct (Hn i n Hi) as (Hp' & _). unfold holds. rewrite Hp'. tauto. }
  constructor; try (intros; congruence); try (intros; by exfalso; eapply Hno).
  - intros i n Hi. by destruct (Hn i n Hi) as (_ & _ & ?).
  - exact Hd.
  - intros i n Hi Hl. destruct (Hn i n Hi) as (_ & He & _). congruence.
  - intros i n id l Hi _ Hc%claims_holds. by destruct (Hno i n l Hi).
Qed.

(** A lease nobody holds may end. *)
Lemma inv_expire e ns l : election_inv e ns -> unheld ns l -> election_inv (lease_end e l) ns.
Proof.
  intros [] Hu. assert (forall v l', election_key (lease_end e l) = Some (v, l') -> election_key e = Some (v, l')) as Hk.
  { intros v l' Hk. rewrite key_end in Hk. destruct (election_key e) as [[v0 l0]|]; [|done]. by case_decide. }
  constructor; try done.
  - intros i n id l' Hi Hid Hc. rewrite key_end, (inv_claims0 i n id l' Hi Hid Hc). rewrite decide_False; [done|].
    intros ->. apply (Hu i n Hi). by eapply claims_holds.
  - intros. eapply inv_owner0; eauto.
  - intros. eapply inv_voted0; eauto.
  - intros. rewrite granted_end. eauto.
  - intros. rewrite granted_end. eauto.
Qed.

(** Reading off the cores after one has changed. *)
Lemma insert_cases {A} (l : list A) i x j y : <[i := x]> l !! j = Some y -> i = j /\ y = x \/ i <> j /\ l !! j = Some y.
Proof. intros [(-> & -> & _)|[? ?]]%list_lookup_insert_Some; [by left|by right]. Qed.

Ltac cores :=
  repeat match goal with
         | Hi : <[_ := _]> _ !! _ = Some _ |- _ => let Hne := fresh "Hne" in apply insert_cases in Hi as [[<- ->]|[Hne Hi]]
         end.

Section Effects.
Variables (e e' : etcd) (ns : list Node) (i : nat) (n n' : Node) (id : string).
Hypothesis (Hinv : election_inv e ns) (Hi : ns !! i = Some n) (Hid : node_id_of n = Some id) (Hid' : node_id_of n' = Some id).
Hypothesis Hlp : leads_properly n'.

(** Two cores are the same if they share the changed one's identifier. *)
Lemma ids_kept : (forall j m, <[i := n']> ns !! j = Some m -> is_Some (node_id_of m)) /\
  (forall j k m m', <[i := n']> ns !! j = Some m -> <[i := n']> ns !! k = Some m' -> node_id_of m = node_id_of m' -> j = k) /\
  (forall j m, <[i := n']> ns !! j = Some m -> leads_properly m).
Proof.
  destruct Hinv. split_and!; intros; cores; eauto; eapply inv_distinct0; eauto; congruence.
Qed.

Lemma inv_quiet : same_etcd e e' -> (forall l, claims id n' l -> claims id n l) ->
  (forall l, holds n' l -> holds n l) -> (voted n -> voted n') -> election_inv e' (<[i := n']> ns).
Proof.
  intros [Hk Hg] Hl Hh Hv. destruct ids_kept as (H1 & H2 & H3). destruct Hinv.
  constructor; rewrite ?Hk; try setoid_rewrite Hg; try done.
  - intros j m id0 l Hj Hm Hc. cores; [|eauto]. assert (id0 = id) as -> by congruence. eauto.
  - intros j m v l Hj Hkey Hm. cores; [|eauto]. rewrite Hid', <- Hid. eauto.
  - intros j m v l Hj Hkey Hm. cores; [|eauto]. apply Hv. eapply inv_voted0; eauto. congruence.
  - intros j m l Hj Hm. cores; eauto.
  - intros j k m m' l Hj Hm' Hl1 Hl2. cores; eauto.
Qed.

Lemma inv_grant l : phase n = Ph_Connected -> (lease_grant e).2 = l -> phase n' = Ph_Granted l \/ phase n' = Ph_Returned ->
  election_inv (lease_grant e).1 (<[i := n']> ns).
Proof.
  intros Hp Hg Hp'. pose proof (grant_fresh e) as Hfresh. rewrite Hg in Hfresh.
  assert (forall l', holds n' l' -> l' = l) as Hh by (intros l'; unfold holds; by destruct Hp' as [->| ->]).
  destruct ids_kept as (H1 & H2 & H3). destruct Hinv.
  constructor; rewrite ?key_grant; try setoid_rewrite granted_grant; rewrite ?Hg; try done.
  - intros j m id0 l' Hj Hm Hc. cores; [|eauto]. unfold claims in Hc. by destruct Hp' as [Hp'|Hp']; rewrite Hp' in Hc.
  - intros j m v l' Hj Hkey Hm. cores; [|eauto]. apply Hh in Hm as ->. by apply inv_key0 in Hkey.
  - intros j m v l' Hj Hkey Hm. cores; [|eauto]. rewrite Hid', <- Hid in Hm.
    pose proof (inv_voted0 _ _ _ _ Hi Hkey Hm) as Hv. unfold voted in Hv. by rewrite Hp in Hv.
  - intros j m l' Hj Hm. cores; eauto.
  - intros j k m m' l' Hj Hk Hl1 Hl2. cores; eauto; first [apply Hh in Hl1 as ->|apply Hh in Hl2 as ->]; exfalso; eauto.
  - eauto.
Qed.

Lemma inv_won l : phase n = Ph_Granted l -> (exists r, phase n' = Ph_Answered l r) \/ phase n' = Ph_Returned ->
  election_key e = None -> election_key e' = Some (id, l) -> (forall l, granted e' l <-> granted e l) ->
  election_inv e' (<[i := n']> ns).
Proof.
  intros Hp Hp' Hk Hk' Hg. assert (holds n l) as Hl by (unfold holds; by rewrite Hp).
  assert (voted n' /\ forall l', holds n' l' -> l' = l) as [Hv Hh]
    by (unfold voted, holds; by destruct Hp' as [[r ->]| ->]).
  destruct ids_kept as (H1 & H2 & H3). destruct Hinv. constructor; rewrite ?Hk'; try setoid_rewrite Hg; try done.
  - intros j m id0 l' Hj Hm Hc. cores; [apply claims_holds, Hh in Hc as ->; congruence|].
    pose proof (inv_claims0 _ _ _ _ Hj Hm Hc). congruence.
  - intros j m v l' Hj [= <- <-] Hm. cores; [done|]. by destruct (inv_leases0 _ _ _ _ _ Hi Hj Hl Hm).
  - intros j m v l' Hj [= <- <-] Hm. cores; [done|]. exfalso. apply Hne. eapply inv_distinct0; eauto. congruence.
  - intros j m l' Hj Hm. cores; [apply Hh in Hm as ->|]; eauto.
  - intros j k m m' l' Hj Hk1 Hl1 Hl2. cores; eauto; first [apply Hh in Hl1 as ->|apply Hh in Hl2 as ->]; eauto.
  - intros v l' [= <- <-]. eauto.
Qed.

(** The key was created by another core: one's own identifier is not there. *)
Lemma inv_lost l v0 l0 r : phase n = Ph_Granted l -> phase n' = Ph_Answered l r -> same_etcd e e' ->
  election_key e = Some (v0, l0) -> (election_result id r = Leader -> v0 = id) -> election_inv e' (<[i := n']> ns).
Proof.
  intros Hp Hp' He Hk Hs. apply inv_quiet; [done|unfold claims|unfold holds|unfold voted]; rewrite ?Hp, ?Hp'; [|done..].
  intros l' [_ ->%Hs]. pose proof (inv_voted _ _ Hinv _ _ _ _ Hi Hk Hid) as Hv. unfold voted in Hv. by rewrite Hp in Hv.
Qed.

Lemma inv_revoke l : phase n = Ph_Keeping l -> phase n' = Ph_Stopping -> election_inv (lease_end e l) (<[i := n']> ns).
Proof.
  intros Hp Hp'. assert (holds n l) as Hl by (unfold holds; by rewrite Hp).
  assert (election_inv e (<[i := n']> ns)) as Hret.
  { destruct Hinv. constructor; try apply ids_kept; try done.
    - intros j m id0 l' Hj Hm Hc. cores; [unfold claims in Hc; by rewrite Hp' in Hc|eauto].
    - intros j m v l' Hj Hkey Hm. cores; [unfold holds in Hm; by rewrite Hp' in Hm|eauto].
    - intros j m v l' Hj Hkey Hm. cores; [unfold voted; by rewrite Hp'|eauto].
    - intros j m l' Hj Hm. cores; [unfold holds in Hm; by rewrite Hp' in Hm|eauto].
    - intros j k m m' l' Hj Hm' Hl1 Hl2. cores; eauto; unfold holds in Hl1, Hl2; by rewrite Hp' in *. }
  apply inv_expire; [done|]. intros j m Hj Hm. cores; [unfold holds in Hm; by rewrite Hp' in Hm|].
  by destruct (inv_leases _ _ Hinv _ _ _ _ _ Hi Hj Hl Hm).
Qed.

End Effects.

Lemma inv_effect e ns i n e' n' id : election_inv e ns -> ns !! i = Some n -> node_id_of n = Some id ->
  node_id_of n' = Some id -> leads_properly n' -> node_effect id e n e' n' -> election_inv e' (<[i := n']> ns).
Proof.
  intros Hinv Hi Hid Hid' Hlp Heff. destruct Heff.
  - apply (inv_quiet e e' ns i n n' id); done.
  - by apply (inv_grant e ns i n n' id Hinv Hi Hid Hid' Hlp l).
  - by apply (inv_won e e' ns i n n' id Hinv Hi Hid Hid' Hlp l).
  - by apply (inv_lost e e' ns i n n' id Hinv Hi Hid Hid' Hlp l v0 l0 r).
  - by apply (inv_revoke e ns i n n' id Hinv Hi Hid Hid' Hlp l).
Qed.

Lemma inv_steps e ns e' ns' : rtc (cluster_step (fun _ => False) unheld) (e, ns) (e', ns') ->
  election_inv e ns -> election_inv e' ns'.
Proof.
  intros Hr. remember (e, ns) as s eqn:Hs. remember (e', ns') as s' eqn:Hs'. revert e ns Hs.
  induction Hr as [s|s1 s2 s3 Hstep Hr IH]; intros e ns -> Hinv; [by simplify_eq|].
  inversion Hstep as [i ev e0 ns0 n e1 n1 Hi Hev|e0 ns0 l Hu|i e0 ns0 n Hno]; simplify_eq.
  - destruct (inv_ids _ _ Hinv i n Hi) as [id Hid]. destruct (node_event_effect _ _ _ _ _ _ Hid Hev) as (Heff & Hid').
    eapply IH; [done..|]. eapply inv_effect; eauto. exact (node_event_leads _ _ _ _ _ _ Hid Hev (inv_leads _ _ Hinv i n Hi)).
  - eapply IH; [done..|]. by apply inv_expire.
  - done.
Qed.



(** ** What else can happen *)

Section Runs.
Variables (restarts : nat -> Prop) (expires : list Node -> Z -> Prop).

Lemma run_node i ev e ns n e' n' s : ns !! i = Some n -> node_event ev e n = Some (e', n') ->
  rtc (cluster_step restarts expires) (e', <[i := n']> ns) s -> rtc (cluster_step restarts expires) (e, ns) s.
Proof. intros Hi Hev Hr. eapply rtc_l; [|exact Hr]. by eapply step_node. Qed.

(** A core whose calls succeed wins when there is no key, and also when there
    is one with its own identifier. *)
Lemma join e ns i n id cfg : ns !! i = Some n -> phase n = Ph_Idle ->
  mode (coordinator n) = Cluster id -> etcd_config (coordinator n) = Some cfg ->
  (election_key e = None \/ exists l0, election_key e = Some (id, l0)) ->
  exists e' n' l, rtc (cluster_step restarts expires) (e, ns) (e', <[i := n']> ns) /\
    ha_state (coordinator n') = Leader /\ phase n' = Ph_Keeping l /\
    mode (coordinator n') = Cluster id /\ etcd_config (coordinator n') = Some cfg /\
    election_key e' = Some (default (id, l) (election_key e)) /\
    ~ granted e l /\ forall l', granted e' l' <-> l' = l \/ granted e l'.
Proof.
  intros Hi Hp Hm Hc Hk. destruct n as [c ph]. cbn in *. subst ph.
  destruct (lease_grant e) as [e1 l] eqn:Hg.
  pose proof (key_grant e) as Hk1. pose proof (granted_grant e) as Hg1. pose proof (grant_fresh e) as Hf.
  pose proof (live_grant e) as Hl. rewrite Hg in *. cbn in *.
  assert (exists e2 r, election_txn e1 l id = Some (e2, r) /\ election_result id r = Leader /\
            election_key e2 = Some (default (id, l) (election_key e)) /\ forall l', granted e2 l' <-> granted e1 l')
    as (e2 & r & Ht & Hr & Hk2 & Hg2).
  { destruct Hk as [Hk|[l0 Hk]]; rewrite Hk in *.
    - destruct (txn_absent e1 l id Hk1 Hl) as (e2 & Ht & Hk2 & Hg2). by exists e2, (mkTxnResponse true None).
    - destruct (txn_present e1 l id id l0 Hk1) as (e2 & Ht & Hk2 & Hg2). exists e2, (mkTxnResponse false (Some id)).
      split_and!; try done. unfold election_result. cbn. by rewrite bool_decide_true. }
  exists e2, (mkNode (set_state Leader (set_connected true c)) (Ph_Keeping l)), l. split_and!; try done.
  - assert (i < length ns)%nat as Hlt by by eapply lookup_lt_Some.
    assert (forall m, <[i := m]> ns !! i = Some m) as Hii by (intros; by apply list_lookup_insert_eq).
    eapply (run_node i Ev_Start); [done|cbn; by rewrite Hm, Hc|].
    eapply (run_node i (Ev_Connect true)); [apply Hii|done|]. rewrite list_insert_insert_eq.
    eapply (run_node i (Ev_Grant Answered)); [apply Hii|cbn; by rewrite Hg|]. rewrite list_insert_insert_eq.
    eapply (run_node i (Ev_Txn Answered)); [apply Hii|cbn; by rewrite Hm, Ht|]. rewrite list_insert_insert_eq.
    eapply (run_node i Ev_SetState); [apply Hii|cbn; by rewrite Hm, Hr|]. by rewrite list_insert_insert_eq.
  - intros l'. by rewrite Hg2, Hg1.
Qed.

End Runs.

Definition fresh_core (cfg : EtcdConfig) (id : string) : Node :=
  mkNode (with_etcd_config cfg (coordinator_new (Cluster id))) Ph_Idle.

(** A core that restarts within the life of its old lease takes the
    key of its former self for its own and leads under a lease the key is not
    bound to.  When the old lease runs out the key goes, and another core wins
    as well: two leaders, although every lease that is held was kept alive. *)
Theorem restart_split_brain e0 cfg a b : a <> b -> election_key e0 = None ->
  exists e na nb,
    rtc (cluster_step (fun i => i = 0%nat) unheld) (e0, [fresh_core cfg a; fresh_core cfg b]) (e, [na; nb]) /\
    ha_state (coordinator na) = Leader /\ ha_state (coordinator nb) = Leader.
Proof.
  intros Hab Hk0. set (R := fun i : nat => i = 0%nat).
  destruct (join R unheld e0 [fresh_core cfg a; fresh_core cfg b] 0 (fresh_core cfg a) a cfg)
    as (e1 & n1 & l1 & Hr1 & Hs1 & Hp1 & Hm1 & Hc1 & Hk1 & _ & Hg1); [done..|by left|].
  rewrite Hk0 in Hk1. cbn in Hk1.
  destruct (join R unheld e1 [restart n1; fresh_core cfg b] 0 (restart n1) a cfg)
    as (e2 & n2 & l2 & Hr2 & Hs2 & Hp2 & _ & _ & Hk2 & Hf2 & _); [done..|right; by exists l1|].
  rewrite Hk1 in Hk2. cbn in Hk2. assert (l2 <> l1) as Hne by (intros ->; apply Hf2, Hg1; by left).
  destruct (join R unheld (lease_end e2 l1) [n2; fresh_core cfg b] 1 (fresh_core cfg b) b cfg)
    as (e3 & n3 & l3 & Hr3 & Hs3 & _); [done..|left; by rewrite key_end, Hk2, decide_True|].
  exists e3, n2, n3. split_and!; [|done..]. etransitivity; [exact Hr1|].
  eapply rtc_l; [by apply (step_restart R unheld 0 e1 [n1; fresh_core cfg b] n1)|].
  etransitivity; [exact Hr2|]. eapply rtc_l; [|exact Hr3]. apply step_expire.
  intros [|[|k]] m Hm; [| |done]; injection Hm as <-; unfold holds; cbn; [rewrite Hp2; congruence|tauto].
Qed.

(** A core that stops revokes its lease before it resigns: in between another
    core can win, and both are leaders. *)
Theorem stop_split_brain e0 cfg a b : a <> b -> election_key e0 = None ->
  exists e na nb,
    rtc (cluster_step (fun _ => False) unheld) (e0, [fresh_core cfg a; fresh_core cfg b]) (e, [na; nb]) /\
    ha_state (coordinator na) = Leader /\ ha_state (coordinator nb) = Leader.
Proof.
  intros Hab Hk0. set (R := fun _ : nat => False).
  destruct (join R unheld e0 [fresh_core cfg a; fresh_core cfg b] 0 (fresh_core cfg a) a cfg)
    as (e1 & n1 & l1 & Hr1 & Hs1 & Hp1 & Hm1 & Hc1 & Hk1 & _ & Hg1); [done..|by left|].
  rewrite Hk0 in Hk1. cbn in Hk1. set (n2 := mkNode (shutdown (coordinator n1)) Ph_Stopping).
  destruct (join R unheld (lease_end e1 l1) [n2; fresh_core cfg b] 1 (fresh_core cfg b) b cfg)
    as (e3 & n3 & l3 & Hr3 & Hs3 & _); [done..|left; by rewrite key_end, Hk1, decide_True|].
  exists e3, n2, n3. split_and!; [|done..]. etransitivity; [exact Hr1|].
  eapply (run_node R unheld 0 Ev_Shutdown); [done..|].
  eapply (run_node R unheld 0 (Ev_Revoke true)); [done|cbn; by rewrite Hp1|exact Hr3].
Qed.

(** A core that has finished the election and is not the leader stays so. *)
Definition lost (n : Node) : Prop :=
  ((exists l, phase n = Ph_Keeping l) \/ phase n = Ph_Stopping \/ phase n = Ph_Returned) /\ ha_state (coordinator n) <> Leader.

Lemma node_event_lost ev e n e' n' : lost n -> node_event ev e n = Some (e', n') -> lost n'.
Proof.
  intros [Hv Hl] Hev. destruct n as [c ph]. unfold node_event in Hev. cbn [coordinator phase] in *.
  destruct Hv as [[l Hp]|[Hp|Hp]]; cbn in Hp; subst ph; destruct ev; cbn in Hev; try done.
  all: repeat case_match; simplify_eq; split; try done; cbn; eauto.
Qed.

(** Claim C37: a follower never takes over.  A core that lost the election only
    keeps its own lease alive: whatever happens in the cluster afterwards, the
    end of the leader and of its lease included, it does not become the leader
    unless its process is restarted; [docs/HA_READINESS.md] and
    [docs/HA_TESTING.md] expect a new leader to be elected. *)
Theorem follower_never_leads i e ns e' ns' n f l :
  ns !! i = Some n -> phase n = Ph_Keeping l -> ha_state (coordinator n) = Follower f ->
  rtc (cluster_step (fun j => j <> i) (fun _ _ => True)) (e, ns) (e', ns') ->
  exists n', ns' !! i = Some n' /\ ha_state (coordinator n') <> Leader.
Proof.
  intros Hi Hp Hf Hr. assert (exists n', (e', ns').2 !! i = Some n' /\ lost n') as (n' & Hn' & _ & Hl); [|eauto].
  assert (exists m, (e, ns).2 !! i = Some m /\ lost m) as Hn.
  { exists n. split; [done|]. split; [eauto|congruence]. }
  clear Hi Hp Hf. revert Hn. induction Hr as [s|s1 s2 s3 Hs _ IH]; intros Hn; [done|]. apply IH. clear IH. destruct Hn as (m & Hm & Hlm).
  destruct Hs as [j ev e1 ns1 k e2 k' Hk Hev|e1 ns1 l' _|j e1 ns1 k Hj Hk]; cbn [snd] in *; [|by exists m|].
  - destruct (decide (j = i)) as [->|Hne].
    + exists k'. split; [apply list_lookup_insert_eq; by eapply lookup_lt_Some|].
      eapply node_event_lost; [|exact Hev]. congruence.
    + exists m. by rewrite list_lookup_insert_ne.
  - exists m. by rewrite list_lookup_insert_ne.
Qed.

End Election.

(** ** A concrete etcd, and runs on it *)

(** The key, the next lease, and the leases that have ended. *)
Definition demo_etcd : Etcd.
Proof.
  refine {| etcd := option (string * Z) * Z * list Z;
            election_key e := e.1.1;
            granted e l := l < e.1.2;
            lease_live e l := bool_decide (l < e.1.2 /\ l ∉ e.2);
            lease_grant e := ((e.1.1, e.1.2 + 1, base.filter (fun l => l < e.1.2) e.2), e.1.2);
            lease_end e l := (match e.1.1 with Some (v, l') => if decide (l' = l) then None else Some (v, l') | None => None end,
                              e.1.2, l :: e.2);
            election_txn e l v :=
              match e.1.1 with
              | Some (v0, _) => Some (e, mkTxnResponse false (Some v0))
              | None => if bool_decide (l < e.1.2 /\ l ∉ e.2) then Some ((Some (v, l), e.1.2, e.2), mkTxnResponse true None)
                        else None
              end |}; cbn.
  - done.
  - lia.
  - intros; lia.
  - intros [[k n] d]. cbn. apply bool_decide_true. split; [lia|]. rewrite list_elem_of_filter. lia.
  - done.
  - done.
  - intros [[k n] d] l v v0 l0 Hk. cbn in *. rewrite Hk. by eexists.
  - intros [[k n] d] l v Hk Hl. cbn in *. rewrite Hk, Hl. by eexists.
  - intros [[k n] d] l v Hk Hl. cbn in *. by rewrite Hk, Hl.
Defined.

Definition demo_config : EtcdConfig := mkEtcdConfig ["127.0.0.1:2379"%string] 10 "/bonsai/config".

Definition demo_e0 : @etcd demo_etcd := (None, 1, []).

Definition demo_cores : list Node := [fresh_core demo_config "a"; fresh_core demo_config "b"].

(** Core [i] runs its whole election. *)
Definition demo_join (i : nat) (s : @etcd demo_etcd * list Node) : @etcd demo_etcd * list Node :=
  foldl (fun s ev => match s.2 !! i with
                     | Some n => match @node_event demo_etcd ev s.1 n with
                                 | Some (e, n) => (e, <[i := n]> s.2)
                                 | None => s
                                 end
                     | None => s
                     end) s [Ev_Start; Ev_Connect true; Ev_Grant Answered; Ev_Txn Answered; Ev_SetState].

Lemma demo_join_run R X i s : rtc (@cluster_step demo_etcd R X) s (demo_join i s).
Proof.
  unfold demo_join. generalize [Ev_Start; Ev_Connect true; Ev_Grant Answered; Ev_Txn Answered; Ev_SetState]. intros evs. revert s.
  induction evs as [|ev evs IH]; intros s; [constructor|]. cbn [foldl]. destruct (s.2 !! i) as [n|] eqn:Hi; [|apply IH].
  destruct (node_event ev s.1 n) as [[e' n']|] eqn:Hev; [|apply IH]. destruct s as [e ns].
  eapply run_node; [exact Hi|exact Hev|apply IH].
Qed.

Lemma demo_before : before_election demo_cores.
Proof.
  split.
  - intros [|[|k]] n Hn; [| |done]; injection Hn as <-; by split_and!.
  - intros [|[|k]] [|[|k']] n n' Hn Hn'; try done; injection Hn as <-; injection Hn' as <-; done.
Qed.

(** Both cores run; the first one leads and the second follows. *)
Definition demo_end : @etcd demo_etcd * list Node := demo_join 1 (demo_join 0 (demo_e0, demo_cores)).

Example demo_end_states : ha_state ∘ coordinator <$> demo_end.2 = [Leader; Follower "a"].
Proof. reflexivity. Qed.

Lemma demo_end_run R X : rtc (@cluster_step demo_etcd R X) (demo_e0, demo_cores) (demo_end.1, demo_end.2).
Proof. rewrite <- surjective_pairing. etransitivity; apply demo_join_run. Qed.


Lemma stop_split_brain_witness :
  exists e na nb,
    rtc (@cluster_step demo_etcd (fun _ => False) unheld) (demo_e0, demo_cores) (e, [na; nb]) /\
    ha_state (coordinator na) = Leader /\ ha_state (coordinator nb) = Leader.
Proof. apply (@stop_split_brain demo_etcd demo_e0 demo_config "a" "b"); [discriminate|reflexivity]. Defined.

Lemma restart_split_brain_witness :
  exists e na nb,
    rtc (@cluster_step demo_etcd (fun i => i = 0%nat) unheld) (demo_e0, demo_cores) (e, [na; nb]) /\
    ha_state (coordinator na) = Leader /\ ha_state (coordinator nb) = Leader.
Proof. apply (@restart_split_brain demo_etcd demo_e0 demo_config "a" "b"); [discriminate|reflexivity]. Defined.

(** The leader's lease ends: the follower still does not lead. *)
Lemma follower_never_leads_witness :
  exists n', demo_end.2 !! 1%nat = Some n' /\ ha_state (coordinator n') <> Leader.
Proof.
  eapply (@follower_never_leads demo_etcd 1 demo_end.1 demo_end.2 (lease_end demo_end.1 1) demo_end.2);
    [reflexivity|reflexivity|reflexivity|].
  eapply rtc_l; [by apply step_expire|constructor].
Defined.
