(* ===== verification/StreamBmp.v ===== *)
(** * The BMP receiver of the server ([src/streaming/bmp.rs])

    The server has a BMP parser of its own, beside the one of [rbmp-core]: it
    turns a frame into an event for the telemetry bus.  This file models its
    framing, the messages, the BGP UPDATE parser and the attribution of an
    event to a configured device.  Errors are their texts. *)

From Stdlib Require Import ZArith Lia ZifyBool.
From stdpp Require Import base numbers list option strings.
From S2P Require Import Prelude RustStd Tlv BgpAttributes BmpTypes BmpParser Jsonl.

Local Open Scope Z_scope.

Notation Parse A := (Outcome string A).

Definition HEADER_LEN : Z := 6.
Definition COMMON_PEER_HEADER_LEN : Z := 42.
Definition BGP_HEADER_LEN : Z := 19.

(** ** Events *)

Record BmpPeerUpInfo := mkPeerUpInfo {
  pu_local_address : string;
  pu_local_port : Z;
  pu_remote_port : Z;
  sent_hold_time : Z;
  received_hold_time : Z;
  sent_bgp_id : string;
  received_bgp_id : string;
  sent_capabilities : list string;
  received_capabilities : list string;
}.

Record BmpStatEntry := mkStatEntry { se_stat_type : Z; stat_name : string; stat_value : Z }.

Record BmpRouteEntry := mkRouteEntry {
  re_afi_safi : string;
  re_prefix : string;
  prefix_len : Z;
  re_action : string;
  re_next_hop : string;
  re_as_path : list Z;
  re_communities : list string;
  re_med : option Z;
  re_local_pref : option Z;
}.

Record ParsedPeer := mkParsedPeer {
  pp_peer_type : Z;
  pp_peer_flags : Z;
  router_distinguisher : Z;
  router_address : string;
  pp_peer_address : string;
  pp_peer_as : Z;
  pp_peer_bgp_id : string;
}.

Record BmpEvent := mkBmpEvent {
  timestamp_ns : Z;
  collector_peer : string;
  message_type : string;
  ev_peer_type : Z;
  ev_peer_flags : Z;
  ev_router_distinguisher : Z;
  ev_router_address : string;
  ev_peer_address : string;
  ev_peer_as : Z;
  ev_peer_bgp_id : string;
  session_state : string;
  route_entries : list BmpRouteEntry;
  raw_len : Z;
  peer_down_reason : option Z;
  peer_down_reason_name : option string;
  ev_stats : list BmpStatEntry;
  sys_name : option string;
  sys_descr : option string;
  termination_reason : option Z;
  termination_reason_name : option string;
  ev_rib_type : option string;
  peer_up_info : option BmpPeerUpInfo;
  init_admin_string : option string;
  termination_message : option string;
}.

(** ** Statistics *)

Definition stat_type_name (t : Z) : string :=
  match t with
  | 0 => "prefixes_rejected_by_policy"
  | 1 => "duplicate_prefix_advertisements"
  | 2 => "duplicate_withdrawals"
  | 3 => "updates_invalid_cluster_list_loop"
  | 4 => "updates_invalid_as_path_loop"
  | 5 => "updates_invalid_originator_id"
  | 6 => "updates_invalid_as_confed_loop"
  | 7 => "adj_rib_in_routes"
  | 8 => "loc_rib_routes"
  | 9 => "adj_rib_in_routes_per_afi_safi"
  | 10 => "loc_rib_routes_per_afi_safi"
  | 11 => "updates_route_refresh"
  | 12 => "routes_stale_graceful_restart"
  | 13 => "routes_reclaimed_graceful_restart"
  | 14 => "routes_not_installed_vpn"
  | 15 => "routes_filtered_adj_rib_out"
  | _ => "unknown"
  end.

Definition stat_number (value_bytes : bytes) : Z :=
  if blen value_bytes =? 4 then be value_bytes
  else if blen value_bytes =? 8 then be value_bytes
  else if blen value_bytes =? 7 then be (drop 3 value_bytes)
  else 0.

Definition stat_entry_step (count : Z) (body : bytes) (st : Z * list BmpStatEntry)
    : Parse ((Z * list BmpStatEntry) + list BmpStatEntry) :=
  let '(cursor, entries) := st in
  if (blen entries <? count) && (cursor + 4 <=? blen body) then
    stat_type ← be_at 2 body cursor;
    stat_len ← be_at 2 body (cursor + 2);
    let cursor := cursor + 4 in
    if blen body <? cursor + stat_len then Ok (inr entries)
    else
      value_bytes ← slice body cursor (cursor + stat_len);
      Ok (inl (cursor + stat_len, entries ++ [mkStatEntry stat_type (stat_type_name stat_type) (stat_number value_bytes)]))
  else Ok (inr entries).

Definition parse_statistics_report (body : bytes) : Parse (list BmpStatEntry) :=
  if blen body <? 4 then Ok []
  else
    count ← be_at 4 body 0;
    loop (S (length body)) (stat_entry_step count body) (4, []).

(** ** Peer Down *)

Definition reason_name (reason : Z) : string :=
  match reason with
  | 0 => "reserved"
  | 1 => "local_bgp_notification"
  | 2 => "local_fsm_event"
  | 3 => "remote_bgp_notification"
  | 4 => "remote_close_no_data"
  | 5 => "peer_de_configured"
  | 6 => "vrf_peer_deleted"
  | _ => "unknown"
  end.

Definition parse_peer_down_reason (body : bytes) : Parse (Z * string) :=
  match body with
  | [] => Ok (0, "unknown"%string)
  | _ => reason ← idx body 0; Ok (reason, reason_name reason)
  end.

(** ** Initiation and Termination

    [while cursor + 4 <= payload.len() { .. }], then the check of the tail. *)
Section TlvMessages.
Context {A : Type} (truncated tail : string) (body : Z -> bytes -> A -> Parse A).

Definition message_tlv_step (payload : bytes) (st : Z * A) : Parse ((Z * A) + (Z * A)) :=
  let '(cursor, s) := st in
  if cursor + 4 <=? blen payload then
    tlv_type ← be_at 2 payload cursor;
    tlv_len ← be_at 2 payload (cursor + 2);
    let cursor := cursor + 4 in
    if blen payload <? cursor + tlv_len then Err truncated
    else
      value ← slice payload cursor (cursor + tlv_len);
      s ← body tlv_type value s;
      Ok (inl (cursor + tlv_len, s))
  else Ok (inr (cursor, s)).

Definition message_tlvs (payload : bytes) (s : A) : Parse A :=
  '(cursor, s) ← loop (S (length payload)) (message_tlv_step payload) (0, s);
  if negb (cursor =? blen payload) then Err tail else Ok s.

End TlvMessages.

Record InitiationFields := mkInitiation { in_sys_name : option string; in_sys_descr : option string; in_admin : option string }.

Definition initiation_field (tlv_type : Z) (value : bytes) (f : InitiationFields) : Parse InitiationFields :=
  match tlv_type with
  | 0 => Ok (mkInitiation (in_sys_name f) (in_sys_descr f) (Some (from_utf8_lossy value)))
  | 1 => Ok (mkInitiation (in_sys_name f) (Some (from_utf8_lossy value)) (in_admin f))
  | 2 => Ok (mkInitiation (Some (from_utf8_lossy value)) (in_sys_descr f) (in_admin f))
  | _ => Ok f
  end.

Definition initiation_tlvs (payload : bytes) : Parse InitiationFields :=
  message_tlvs "truncated BMP initiation TLV" "truncated BMP initiation TLV header" initiation_field payload
    (mkInitiation None None None).

Definition parse_initiation_event (payload : bytes) (collector_peer : string) (timestamp_ns : Z) : Parse BmpEvent :=
  f ← initiation_tlvs payload;
  Ok (mkBmpEvent timestamp_ns collector_peer "initiation" 0 0 0 "" "" 0 "" "connected" [] (blen payload + HEADER_LEN)
        None None [] (in_sys_name f) (in_sys_descr f) None None None None (in_admin f) None).

Definition termination_name (code : Z) : string :=
  match code with
  | 0 => "session_admin_closed"
  | 1 => "unspecified"
  | 2 => "out_of_resources"
  | 3 => "redundant_connection"
  | 4 => "perm_admin_closed"
  | _ => "unknown"
  end.

Record TerminationFields := mkTermination {
  tm_reason : option Z; tm_reason_name : option string; tm_message : option string;
}.

Definition termination_field (tlv_type : Z) (value : bytes) (f : TerminationFields) : Parse TerminationFields :=
  match tlv_type with
  | 0 => Ok (mkTermination (tm_reason f) (tm_reason_name f) (Some (from_utf8_lossy value)))
  | 1 =>
      if negb (blen value =? 2) then Err ("invalid BMP termination reason TLV length " ++ fmt_dec (blen value))%string
      else
        code ← be_at 2 value 0;
        Ok (mkTermination (Some code) (Some (termination_name code)) (tm_message f))
  | _ => Ok f
  end.

Definition termination_tlvs (payload : bytes) : Parse TerminationFields :=
  message_tlvs "truncated BMP termination TLV" "truncated BMP termination TLV header" termination_field payload
    (mkTermination None None None).

Definition parse_termination_event (payload : bytes) (collector_peer : string) (timestamp_ns : Z) : Parse BmpEvent :=
  f ← termination_tlvs payload;
  Ok (mkBmpEvent timestamp_ns collector_peer "termination" 0 0 0 "" "" 0 "" "disconnected" [] (blen payload + HEADER_LEN)
        None None [] None None (tm_reason f) (tm_reason_name f) None None None (tm_message f)).

(** ** The per-peer header *)

Definition parse_common_peer_header (input : bytes) : Parse ParsedPeer :=
  peer_type ← idx input 0;
  peer_flags ← idx input 1;
  router_distinguisher ← be_at 8 input 2;
  raw_addr ← slice input 10 26;
  let is_ipv6 := negb (peer_type =? 3) && bit_set peer_flags 0x80 in
  let peer_address := ip_to_string (if is_ipv6 then IpAddr_V6 raw_addr else IpAddr_V4 (drop 12 raw_addr)) in
  peer_as ← be_at 4 input 26;
  bgp_id ← slice input 30 34;
  let peer_bgp_id := ipv4_to_string bgp_id in
  Ok (mkParsedPeer peer_type peer_flags router_distinguisher peer_bgp_id peer_address peer_as peer_bgp_id).

Definition classify_rib_type (peer_type peer_flags : Z) : string :=
  if peer_type =? 3 then
    if bit_set peer_flags 0x80 then "loc-rib-filtered" else "loc-rib"
  else
    match bit_set peer_flags 0x10, bit_set peer_flags 0x40 with
    | false, false => "adj-rib-in-pre-policy"
    | false, true => "adj-rib-in-post-policy"
    | true, false => "adj-rib-out-pre-policy"
    | true, true => "adj-rib-out-post-policy"
    end.

(** ** Peer Up *)

Record ParsedBgpOpen := mkParsedOpen { po_hold_time : Z; po_bgp_id : string; po_capabilities : list string }.

Definition capability_name (code : Z) : string :=
  match code with
  | 1 => "multiprotocol"
  | 2 => "route-refresh"
  | 5 => "extended-next-hop"
  | 6 => "extended-message"
  | 64 => "graceful-restart"
  | 65 => "4-byte-as"
  | 69 => "add-path"
  | 70 => "enhanced-route-refresh"
  | 71 => "long-lived-graceful-restart"
  | 73 => "fqdn"
  | 128 => "route-refresh-cisco"
  | _ => ("cap-" ++ fmt_dec code)%string
  end.

(** The capabilities of one parameter, up to [limit]. *)
Definition cap_step (params : bytes) (limit : Z) (st : Z * list string) : Parse ((Z * list string) + list string) :=
  let '(cap_cursor, caps) := st in
  if cap_cursor + 2 <=? limit then
    cap_code ← idx params cap_cursor;
    cap_len ← idx params (cap_cursor + 1);
    let cap_cursor := cap_cursor + 2 in
    if limit <? cap_cursor + cap_len then Ok (inr caps)
    else Ok (inl (cap_cursor + cap_len, caps ++ [capability_name cap_code]))
  else Ok (inr caps).

Definition param_step (params : bytes) (st : Z * list string) : Parse ((Z * list string) + list string) :=
  let '(cursor, caps) := st in
  if cursor + 2 <=? blen params then
    param_type ← idx params cursor;
    param_len ← idx params (cursor + 1);
    let cursor := cursor + 2 in
    if blen params <? cursor + param_len then Ok (inr caps)
    else
      caps ← (if param_type =? 2
              then loop (S (length params)) (cap_step params (cursor + param_len)) (cursor, caps)
              else Ok caps);
      Ok (inl (cursor + param_len, caps))
  else Ok (inr caps).

Definition parse_bgp_capabilities (params : bytes) : Parse (list string) :=
  loop (S (length params)) (param_step params) (0, []).

(** [None] is the [None] of the source. *)
Definition parse_bgp_open_from_message (data : bytes) : Parse (option (ParsedBgpOpen * bytes)) :=
  if blen data <? BGP_HEADER_LEN then Ok None
  else
    msg_len ← be_at 2 data 16;
    if (blen data <? msg_len) || (msg_len <? BGP_HEADER_LEN + 10) then Ok None
    else
      ty ← idx data 18;
      if negb (ty =? 1) then Ok None
      else
        open ← slice data BGP_HEADER_LEN msg_len;
        if blen open <? 10 then Ok None
        else
          hold_time ← be_at 2 open 3;
          bgp_id ← slice open 5 9;
          opt_params_len ← idx open 9;
          opt_params ← (if 10 + opt_params_len <=? blen open then slice open 10 (10 + opt_params_len) else Ok []);
          capabilities ← parse_bgp_capabilities opt_params;
          remaining ← slice_from data msg_len;
          Ok (Some (mkParsedOpen hold_time (ipv4_to_string bgp_id) capabilities, remaining)).

Definition parse_peer_up_info (body : bytes) (peer_flags : Z) : Parse (option BmpPeerUpInfo) :=
  if blen body <? 20 then Ok None
  else
    raw ← slice body 0 16;
    let local_address := ip_to_string (if bit_set peer_flags 0x80 then IpAddr_V6 raw else IpAddr_V4 (drop 12 raw)) in
    local_port ← be_at 2 body 16;
    remote_port ← be_at 2 body 18;
    rest ← slice_from body 20;
    sent ← parse_bgp_open_from_message rest;
    match sent with
    | None => Ok None
    | Some (sent_open, after_sent) =>
        received ← parse_bgp_open_from_message after_sent;
        match received with
        | None => Ok None
        | Some (received_open, _) =>
            Ok (Some (mkPeerUpInfo local_address local_port remote_port (po_hold_time sent_open) (po_hold_time received_open)
                  (po_bgp_id sent_open) (po_bgp_id received_open) (po_capabilities sent_open) (po_capabilities received_open)))
        end
    end.

(** ** BGP UPDATE *)

(** [chunks_exact(n)] *)
Fixpoint chunks_exact_fuel (fuel : nat) (n : nat) (b : bytes) : list bytes :=
  match fuel with
  | O => []
  | S fuel' => if (length b <? n)%nat then [] else take n b :: chunks_exact_fuel fuel' n (drop n b)
  end.

Definition chunks_exact (n : nat) (b : bytes) : list bytes := chunks_exact_fuel (length b) n b.

(** The number of [n] octets from position [i] of a chunk. *)
Definition num_at (i n : nat) (c : bytes) : Z := be (take n (drop i c)).

Definition format_community (c : bytes) : string := (fmt_dec (num_at 0 2 c) ++ ":" ++ fmt_dec (num_at 2 2 c))%string.

Definition parse_communities (value : bytes) : list string := format_community <$> chunks_exact 4 value.

Definition format_extended (c : bytes) : string :=
  let type_byte := num_at 0 1 c in
  let high_type := Z.land type_byte 0x3F in
  if (high_type =? 0x00) || (high_type =? 0x02) then
    ("ext:" ++ fmt_dec (num_at 2 2 c) ++ ":" ++ fmt_dec (num_at 4 4 c))%string
  else if high_type =? 0x01 then
    ("ext:" ++ ipv4_to_string (take 4 (drop 2 c)) ++ ":" ++ fmt_dec (num_at 6 2 c))%string
  else ("ext:0x" ++ hex_encode (take 1 c) ++ ":" ++ hex_encode (drop 1 c))%string.

Definition parse_extended_communities (value : bytes) : list string := format_extended <$> chunks_exact 8 value.

Definition format_large (c : bytes) : string :=
  ("large:" ++ fmt_dec (num_at 0 4 c) ++ ":" ++ fmt_dec (num_at 4 4 c) ++ ":" ++ fmt_dec (num_at 8 4 c))%string.

Definition parse_large_communities (value : bytes) : list string := format_large <$> chunks_exact 12 value.

(** The ASNs of one segment; [inr] is [return result]. *)
Fixpoint segment_asns (count : nat) (width : Z) (value : bytes) (cursor : Z) (result : list Z)
    : Parse ((Z * list Z) + list Z) :=
  match count with
  | O => Ok (inl (cursor, result))
  | S count' =>
      if blen value <? cursor + width then Ok (inr result)
      else asn ← be_at width value cursor; segment_asns count' width value (cursor + width) (result ++ [asn])
  end.

Definition as_path_step (value : bytes) (st : Z * list Z) : Parse ((Z * list Z) + list Z) :=
  let '(cursor, result) := st in
  if cursor + 2 <=? blen value then
    count ← idx value (cursor + 1);
    let cursor := cursor + 2 in
    let remaining := Z.max 0 (blen value - cursor) in
    let width := if count * 4 <=? remaining then 4 else 2 in
    segment_asns (Z.to_nat count) width value cursor result
  else Ok (inr result).

Definition parse_as_path (value : bytes) : Parse (list Z) := loop (S (length value)) (as_path_step value) (0, []).

Definition afi_safi_name (afi safi : Z) : string :=
  if (afi =? 1) && (safi =? 1) then "ipv4-unicast"
  else if (afi =? 2) && (safi =? 1) then "ipv6-unicast"
  else "unknown".

(** The text of a prefix of [octets] octets. *)
Definition nlri_prefix (afi_safi : string) (octets : Z) (b : bytes) : Parse string :=
  if bool_decide (afi_safi = "ipv6-unicast"%string) then
    src ← slice b 0 octets;
    addr ← copy_into_zeroed 16 src;
    Ok (ipv6_to_string addr)
  else
    let width := Z.min octets 4 in
    src ← slice b 0 width;
    addr ← copy_into_zeroed 4 src;
    Ok (ipv4_to_string addr).

Definition nlri_step (afi_safi action : string) (st : bytes * list BmpRouteEntry)
    : Parse ((bytes * list BmpRouteEntry) + list BmpRouteEntry) :=
  let '(b, entries) := st in
  match b with
  | [] => Ok (inr entries)
  | _ =>
      prefix_len ← idx b 0;
      let octets := div_ceil8 prefix_len in
      b ← slice_from b 1;
      if blen b <? octets then Err "NLRI prefix length exceeds payload"%string
      else
        prefix ← nlri_prefix afi_safi octets b;
        b ← slice_from b octets;
        Ok (inl (b, entries ++ [mkRouteEntry afi_safi prefix prefix_len action "" [] [] None None]))
  end.

Definition parse_nlri (afi_safi : string) (b : bytes) (action : string) : Parse (list BmpRouteEntry) :=
  loop (S (length b)) (nlri_step afi_safi action) (b, []).

Record PathState := mkPathState {
  ps_next_hop : string;
  ps_as_path : list Z;
  ps_communities : list string;
  ps_med : option Z;
  ps_local_pref : option Z;
  ps_mp_reach : list BmpRouteEntry;
  ps_mp_unreach : list BmpRouteEntry;
}.

Definition path_state_default : PathState := mkPathState "" [] [] None None [] [].

Definition parse_next_hop (afi : Z) (b : bytes) : string :=
  if (afi =? 1) && (blen b =? 4) then ipv4_to_string b
  else if (afi =? 2) && (blen b =? 16) then ipv6_to_string b
  else "".

Definition set_next_hop (nh : string) (e : BmpRouteEntry) : BmpRouteEntry :=
  mkRouteEntry (re_afi_safi e) (re_prefix e) (prefix_len e) (re_action e) nh (re_as_path e) (re_communities e) (re_med e)
    (re_local_pref e).

Definition parse_mp_reach (value : bytes) (st : PathState) : Parse PathState :=
  if blen value <? 5 then Err "MP_REACH_NLRI too short"%string
  else
    afi ← be_at 2 value 0;
    safi ← idx value 2;
    nh_len ← idx value 3;
    if blen value <? 4 + nh_len + 1 then Err "MP_REACH_NLRI next-hop length exceeds payload"%string
    else
      nh ← slice value 4 (4 + nh_len);
      let next_hop := parse_next_hop afi nh in
      nlri ← slice_from value (5 + nh_len);
      entries ← parse_nlri (afi_safi_name afi safi) nlri "announce";
      Ok (mkPathState next_hop (ps_as_path st) (ps_communities st) (ps_med st) (ps_local_pref st)
            (set_next_hop next_hop <$> entries) (ps_mp_unreach st)).

Definition parse_mp_unreach (value : bytes) (st : PathState) : Parse PathState :=
  if blen value <? 3 then Err "MP_UNREACH_NLRI too short"%string
  else
    afi ← be_at 2 value 0;
    safi ← idx value 2;
    nlri ← slice_from value 3;
    entries ← parse_nlri (afi_safi_name afi safi) nlri "withdraw";
    Ok (mkPathState (ps_next_hop st) (ps_as_path st) (ps_communities st) (ps_med st) (ps_local_pref st) (ps_mp_reach st) entries).

Definition attribute (code : Z) (value : bytes) (st : PathState) : Parse PathState :=
  let '(mkPathState nh ap cs med lp reach unreach) := st in
  match code with
  | 2 => ap ← parse_as_path value; Ok (mkPathState nh ap cs med lp reach unreach)
  | 3 => if blen value =? 4 then Ok (mkPathState (ipv4_to_string value) ap cs med lp reach unreach) else Ok st
  | 4 => if blen value =? 4 then Ok (mkPathState nh ap cs (Some (be value)) lp reach unreach) else Ok st
  | 5 => if blen value =? 4 then Ok (mkPathState nh ap cs med (Some (be value)) reach unreach) else Ok st
  | 8 => Ok (mkPathState nh ap (parse_communities value) med lp reach unreach)
  | 16 => Ok (mkPathState nh ap (cs ++ parse_extended_communities value) med lp reach unreach)
  | 32 => Ok (mkPathState nh ap (cs ++ parse_large_communities value) med lp reach unreach)
  | 14 => parse_mp_reach value st
  | 15 => parse_mp_unreach value st
  | _ => Ok st
  end.

Definition attribute_step (attrs : bytes) (s : Z * PathState) : Parse ((Z * PathState) + PathState) :=
  let '(cursor, st) := s in
  if cursor <? blen attrs then
    if blen attrs <? cursor + 3 then Err "truncated BGP path attribute header"%string
    else
      flags ← idx attrs cursor;
      code ← idx attrs (cursor + 1);
      let cursor := cursor + 2 in
      '(len, cursor) ←
        (if bit_set flags 0x10 then
           if blen attrs <? cursor + 2 then Err "truncated extended path attribute length"%string
           else len ← be_at 2 attrs cursor; Ok (len, cursor + 2)
         else len ← idx attrs cursor; Ok (len, cursor + 1));
      if blen attrs <? cursor + len then Err "path attribute length exceeds payload"%string
      else
        value ← slice attrs cursor (cursor + len);
        st ← attribute code value st;
        Ok (inl (cursor + len, st))
  else Ok (inr st).

Definition parse_path_attributes (attrs : bytes) (st : PathState) : Parse PathState :=
  loop (S (length attrs)) (attribute_step attrs) (0, st).

(** The path of an announced IPv4 entry, and of an MP_REACH entry. *)
Definition announce_v4 (st : PathState) (e : BmpRouteEntry) : BmpRouteEntry :=
  mkRouteEntry (re_afi_safi e) (re_prefix e) (prefix_len e) (re_action e) (ps_next_hop st) (ps_as_path st)
    (ps_communities st) (ps_med st) (ps_local_pref st).

Definition announce_mp (st : PathState) (e : BmpRouteEntry) : BmpRouteEntry :=
  mkRouteEntry (re_afi_safi e) (re_prefix e) (prefix_len e) "announce" (re_next_hop e) (ps_as_path st)
    (ps_communities st) (ps_med st) (ps_local_pref st).

Definition clear_withdrawn (e : BmpRouteEntry) : BmpRouteEntry :=
  if bool_decide (re_action e = "withdraw"%string)
  then mkRouteEntry (re_afi_safi e) (re_prefix e) (prefix_len e) (re_action e) (re_next_hop e) [] [] None None
  else e.

Definition parse_bgp_update (payload : bytes) : Parse (list BmpRouteEntry) :=
  if blen payload <? 4 then Err "BGP UPDATE payload too short"%string
  else
    withdrawn_len ← be_at 2 payload 0;
    let cursor := 2 in
    if blen payload <? cursor + withdrawn_len then Err "withdrawn routes length exceeds BGP UPDATE payload"%string
    else
      withdrawn ← slice payload cursor (cursor + withdrawn_len);
      withdrawn_routes ← parse_nlri "ipv4-unicast" withdrawn "withdraw";
      let cursor := cursor + withdrawn_len in
      if blen payload <? cursor + 2 then Err "BGP UPDATE missing path attribute length"%string
      else
        attrs_len ← be_at 2 payload cursor;
        let cursor := cursor + 2 in
        if blen payload <? cursor + attrs_len then Err "BGP path attribute length exceeds UPDATE payload"%string
        else
          attrs ← slice payload cursor (cursor + attrs_len);
          let cursor := cursor + attrs_len in
          path_state ← parse_path_attributes attrs path_state_default;
          nlri ← slice_from payload cursor;
          announced_v4 ← parse_nlri "ipv4-unicast" nlri "announce";
          let entries := withdrawn_routes ++ (announce_v4 path_state <$> announced_v4)
                         ++ (announce_mp path_state <$> ps_mp_reach path_state) in
          Ok ((clear_withdrawn <$> entries) ++ ps_mp_unreach path_state).

Definition parse_route_monitoring (payload : bytes) : Parse (list BmpRouteEntry) :=
  if blen payload <? BGP_HEADER_LEN then Err "route monitoring payload shorter than BGP header"%string
  else
    marker ← slice payload 0 16;
    if negb (bool_decide (marker = replicate 16 Byte.xff)) then Err "invalid BGP marker in route monitoring payload"%string
    else
      length ← be_at 2 payload 16;
      if negb (in_range (BGP_HEADER_LEN + 4) 4096 length) || negb (length =? blen payload) then
        Err ("declared BGP length " ++ fmt_dec length ++ " does not match route monitoring payload length "
             ++ fmt_dec (blen payload))%string
      else
        ty ← idx payload 18;
        if negb (ty =? 2) then Err ("unexpected BGP message type " ++ fmt_dec ty ++ " in route monitoring")%string
        else update ← slice payload 19 length; parse_bgp_update update.

(** ** Messages *)

(** An event with the per-peer header filled in. *)
Definition peer_event (now : Z) (collector_peer : string) (peer : ParsedPeer) (payload_len : Z) : BmpEvent :=
  mkBmpEvent now collector_peer "" (pp_peer_type peer) (pp_peer_flags peer) (router_distinguisher peer)
    (router_address peer) (pp_peer_address peer) (pp_peer_as peer) (pp_peer_bgp_id peer) "" [] (payload_len + HEADER_LEN)
    None None [] None None None None (Some (classify_rib_type (pp_peer_type peer) (pp_peer_flags peer))) None None None.

(** The fields a kind of message sets. *)
Definition with_message (ty state : string) (routes : list BmpRouteEntry) (stats : list BmpStatEntry) (reason : option Z)
    (name : option string) (up : option BmpPeerUpInfo) (e : BmpEvent) : BmpEvent :=
  mkBmpEvent (timestamp_ns e) (collector_peer e) ty (ev_peer_type e) (ev_peer_flags e) (ev_router_distinguisher e)
    (ev_router_address e) (ev_peer_address e) (ev_peer_as e) (ev_peer_bgp_id e) state routes (raw_len e) reason name stats
    (sys_name e) (sys_descr e) (termination_reason e) (termination_reason_name e) (ev_rib_type e) up (init_admin_string e)
    (termination_message e).

Definition parse_bmp_message (now : Z) (message_type : Z) (payload : bytes) (collector_peer : string) : Parse BmpEvent :=
  if message_type =? 4 then parse_initiation_event payload collector_peer now
  else if message_type =? 5 then parse_termination_event payload collector_peer now
  else if blen payload <? COMMON_PEER_HEADER_LEN then Err "BMP payload shorter than common peer header"%string
  else
    header ← slice payload 0 COMMON_PEER_HEADER_LEN;
    peer ← parse_common_peer_header header;
    body ← slice_from payload COMMON_PEER_HEADER_LEN;
    let event := peer_event now collector_peer peer (blen payload) in
    match message_type with
    | 0 => routes ← parse_route_monitoring body;
           Ok (with_message "route_monitoring" "established" routes [] None None None event)
    | 1 => stats ← parse_statistics_report body;
           Ok (with_message "statistics_report" "established" [] stats None None None event)
    | 2 => '(reason, name) ← parse_peer_down_reason body;
           Ok (with_message "peer_down" "down" [] [] (Some reason) (Some name) None event)
    | 3 => info ← parse_peer_up_info body (pp_peer_flags peer);
           Ok (with_message "peer_up" "established" [] [] None None info event)
    | other => Err ("unsupported BMP message type " ++ fmt_dec other)%string
    end.

(** ** Framing

    As for the other reader ([ReadOutcome]); here the type and the payload are
    returned.  The texts of the timeouts leave out the duration. *)
Section ReadFrame.
Context {R : Type} (read_exact : Z -> R -> ReadOutcome R).

Definition read_payload (n : Z) (reader : R) : Parse (bytes * R) :=
  if 0 <? n then
    match read_exact n reader with
    | Read_Ok payload reader => Ok (payload, reader)
    | Read_Eof | Read_Error => Err "BMP payload read failed"%string
    | Read_Timeout => Err "BMP payload read timed out"%string
    end
  else Ok ([], reader).

Definition stream_read_bmp_frame (reader : R) (max_frame_bytes : Z) : Parse (option (Z * bytes * R)) :=
  match read_exact 1 reader with
  | Read_Eof => Ok None
  | Read_Error => Err "BMP read header failed"%string
  | Read_Timeout => Err "BMP header read timed out"%string
  | Read_Ok first reader =>
      match read_exact (HEADER_LEN - 1) reader with
      | Read_Eof | Read_Error => Err "BMP truncated header"%string
      | Read_Timeout => Err "BMP header remainder timed out"%string
      | Read_Ok rest reader =>
          let header := first ++ rest in
          version ← idx header 0;
          if negb (version =? 3) then Err ("unsupported BMP version " ++ fmt_dec version)%string
          else
            length ← be_at 4 header 1;
            if negb (in_range HEADER_LEN max_frame_bytes length) then
              Err ("BMP frame length " ++ fmt_dec length ++ " outside configured bounds " ++ fmt_dec HEADER_LEN ++ "..="
                   ++ fmt_dec max_frame_bytes)%string
            else
              '(payload, reader) ← read_payload (length - HEADER_LEN) reader;
              ty ← idx header 5;
              Ok (Some (ty, payload, reader))
      end
  end.

End ReadFrame.

(** ** Attribution to a device *)

(** The fields of a configured target that are used. *)
Record TargetConfig := mkTarget {
  tc_address : string;
  tc_extra_ips : list string;
  tc_hostname : option string;
  tc_vendor : option string;
  tc_role : option string;
  tc_site : option string;
}.

Record TargetEntry := mkTargetEntry {
  te_address : string;
  te_extra_ips : list string;
  te_hostname : string;
  te_vendor : string;
  te_role : string;
  te_site : string;
}.

Record ResolvedTarget := mkResolved { rt_address : string; rt_hostname : string; rt_vendor : string; rt_role : string; rt_site : string }.

(** [s.find(c)] and the text before it, for an ASCII character. *)
Fixpoint before (c : byte) (s : bytes) : option bytes :=
  match s with
  | [] => None
  | x :: s' => if bool_decide (x = c) then Some [] else cons x <$> before c s'
  end.

(** [s.rsplit_once(c)] *)
Definition rsplit_once (c : byte) (s : bytes) : option (bytes * bytes) :=
  port ← before c (reverse s);
  Some (take (length s - S (length port)) s, reverse port).

(** [if let Some((host, _port)) = s.rsplit_once(':') { .. }] *)
Definition unbracketed_host (s : bytes) : bytes :=
  match rsplit_once Byte.x3a s with
  | Some (host, _) => if contains [Byte.x3a] host then s else host
  | None => s
  end.

Definition strip_port_bytes (address : bytes) : bytes :=
  let s := trim address in
  match s with
  | Byte.x5b :: inner => match before Byte.x5d inner with Some host => host | None => unbracketed_host s end
  | _ => unbracketed_host s
  end.

Definition strip_port (address : string) : string := string_of_bytes (strip_port_bytes (bytes_of_string address)).

Definition target_map_new (targets : list TargetConfig) : list TargetEntry :=
  (fun t => mkTargetEntry (strip_port (tc_address t)) (strip_port <$> tc_extra_ips t) (default "" (tc_hostname t))
              (default "" (tc_vendor t)) (default "" (tc_role t)) (default "" (tc_site t))) <$> targets.

Definition entry_matches (ip : string) (e : TargetEntry) : bool :=
  bool_decide (te_address e = ip) || existsb (fun x => bool_decide (x = ip)) (te_extra_ips e).

Definition resolve (entries : list TargetEntry) (event : BmpEvent) : ResolvedTarget :=
  let ip := strip_port (collector_peer event) in
  match List.find (entry_matches ip) entries with
  | Some e => mkResolved (te_address e) (if bool_decide (te_hostname e = ""%string) then te_address e else te_hostname e)
                (te_vendor e) (te_role e) (te_site e)
  | None => mkResolved ip ip "" "" ""
  end.

(** What is published: target, path and the event; [None] when it is shed. *)
Definition event_path (ty : string) : string :=
  if bool_decide (ty = "route_monitoring"%string) then "streaming/bmp/route-monitoring"
  else if bool_decide (ty = "peer_up"%string) then "streaming/bmp/peer-up"
  else if bool_decide (ty = "peer_down"%string) then "streaming/bmp/peer-down"
  else if bool_decide (ty = "statistics_report"%string) then "streaming/bmp/statistics"
  else if bool_decide (ty = "initiation"%string) then "streaming/bmp/initiation"
  else if bool_decide (ty = "termination"%string) then "streaming/bmp/termination"
  else "streaming/bmp/unknown".

Definition publish_event (entries : list TargetEntry) (should_shed : bool) (event : BmpEvent)
    : option (ResolvedTarget * string * BmpEvent) :=
  if bool_decide (message_type event = "statistics_report"%string) && should_shed then None
  else Some (resolve entries event, event_path (message_type event), event).


(** ** A connection *)

(** How the task of a connection ends. *)
Inductive ConnectionEnd :=
| End_Closed
| End_Failed (error : string)
| End_Panicked.

Notation Published := (ResolvedTarget * string * BmpEvent)%type.

(** The task of one connection: what it published and how it ended.  [clock]
    and [should_shed] are read while the reader stands where it does; an error
    of the archive is logged only. *)
Section Connection.
Context {R : Type} (read_exact : Z -> R -> ReadOutcome R) (max_frame_bytes : Z).
Context (clock : R -> Z) (should_shed : R -> bool) (peer : string) (entries : list TargetEntry).

Fixpoint connection (fuel : nat) (reader : R) (published : list Published) : option (list Published * ConnectionEnd) :=
  match fuel with
  | O => None
  | S fuel' =>
      match stream_read_bmp_frame read_exact reader max_frame_bytes with
      | Ok (Some (msg_type, payload, reader)) =>
          match parse_bmp_message (clock reader) msg_type payload peer with
          | Ok event => connection fuel' reader (published ++ option_list (publish_event entries (should_shed reader) event))
          | Err _ => connection fuel' reader published
          | Panic => Some (published, End_Panicked)
          | Diverge => None
          end
      | Ok None => Some (published, End_Closed)
      | Err error => Some (published, End_Failed error)
      | Panic => Some (published, End_Panicked)
      | Diverge => None
      end
  end.

End Connection.

Example strip_port_v4 : strip_port "10.0.0.1:57400" = "10.0.0.1"%string /\ strip_port "router.lab" = "router.lab"%string.
Proof. by vm_compute. Qed.

Example strip_port_v6 : strip_port " [::1]:57400" = "::1"%string /\ strip_port "2001:db8::1" = "2001:db8::1"%string.
Proof. by vm_compute. Qed.

(** ** NLRI: every octet sequence is accounted for *)

(** A prefix on the wire: its length in bits and its octets. *)
Record WirePrefix := mkPrefix { wx_len : Z; wx_octets : bytes }.

Definition is_v6 (afi_safi : string) : bool := bool_decide (afi_safi = "ipv6-unicast"%string).

Definition prefix_wf (afi_safi : string) (w : WirePrefix) : Prop :=
  0 <= wx_len w < 256 /\ blen (wx_octets w) = div_ceil8 (wx_len w) /\ (is_v6 afi_safi = true -> wx_len w <= 128).

Definition encode_prefix (w : WirePrefix) : bytes := as_u8 (wx_len w) :: wx_octets w.

(** The address: the octets present, then zeros; of an IPv4 prefix the first
    four. *)
Definition prefix_text (afi_safi : string) (octets : bytes) : string :=
  if is_v6 afi_safi then ipv6_to_string (octets ++ replicate (16 - length octets) Byte.x00)
  else ipv4_to_string (take 4 octets ++ replicate (4 - length octets) Byte.x00).

Definition entry_of (afi_safi action : string) (w : WirePrefix) : BmpRouteEntry :=
  mkRouteEntry afi_safi (prefix_text afi_safi (wx_octets w)) (wx_len w) action "" [] [] None None.

(** A tail that does not start with a prefix: it is cut short, or it is IPv6 and
    announces more than 128 bits. *)
Definition overlong (afi_safi : string) (tail : bytes) : Prop :=
  match tail with
  | [] => False
  | pl :: rest => is_v6 afi_safi = true /\ 128 < u8 pl /\ div_ceil8 (u8 pl) <= blen rest
  end.

Definition nlri_stuck (afi_safi : string) (tail : bytes) : Prop :=
  match tail with
  | [] => True
  | pl :: rest => blen rest < div_ceil8 (u8 pl) \/ overlong afi_safi tail
  end.

Definition nlri_result (afi_safi action : string) (ws : list WirePrefix) (tail : bytes) : Parse (list BmpRouteEntry) :=
  match tail with
  | [] => Ok (entry_of afi_safi action <$> ws)
  | pl :: rest => if blen rest <? div_ceil8 (u8 pl) then Err "NLRI prefix length exceeds payload"%string else Panic
  end.

Lemma copy_into_zeroed_ok {E} (n : nat) src :
  blen src <= Z.of_nat n -> copy_into_zeroed (E := E) (Z.of_nat n) src = Ok (src ++ replicate (n - length src) Byte.x00).
Proof.
  intros H. unfold copy_into_zeroed. rewrite (proj2 (Z.leb_le _ _)) by done. do 3 f_equal. unfold blen in *. lia.
Qed.

Lemma div_ceil8_le16 n : 0 <= n <= 128 -> 0 <= div_ceil8 n <= 16.
Proof. unfold div_ceil8. intros. split; [apply Z.div_pos; lia|apply Z.lt_succ_r, Z.div_lt_upper_bound; lia]. Qed.

Lemma nlri_prefix_text afi_safi octets rest :
  (is_v6 afi_safi = true -> blen octets <= 16) ->
  nlri_prefix afi_safi (blen octets) (octets ++ rest) = Ok (prefix_text afi_safi octets).
Proof.
  intros H16. unfold nlri_prefix, prefix_text, is_v6 in *. case_if.
  - rewrite slice_to_app by done. cbn [mbind outcome_bind]. by rewrite (copy_into_zeroed_ok 16) by auto.
  - rewrite slice_ok by (rewrite ?blen_app; bounded). cbn [mbind outcome_bind].
    rewrite drop_0. assert (take (Z.to_nat (Z.min (blen octets) 4 - 0)) (octets ++ rest) = take 4 octets) as ->.
    { unfold blen. rewrite take_app_le by lia. destruct (decide (length octets <= 4)%nat).
      - by rewrite !take_ge by lia.
      - f_equal. lia. }
    rewrite (copy_into_zeroed_ok 4) by (unfold blen; rewrite length_take; lia). cbn [mbind outcome_bind].
    do 3 f_equal. rewrite length_take. f_equal. lia.
Qed.

Lemma nlri_step_prefix afi_safi action w rest acc :
  prefix_wf afi_safi w ->
  nlri_step afi_safi action (encode_prefix w ++ rest, acc) = Ok (inl (rest, acc ++ [entry_of afi_safi action w])).
Proof.
  intros (Hl & Ho & H6). unfold nlri_step, encode_prefix. cbn [app].
  rewrite idx_cons, u8_as_u8 by done. cbn [mbind outcome_bind]. rewrite slice_from_1. cbn [mbind outcome_bind].
  rewrite <- Ho, (proj2 (Z.ltb_ge _ _)) by (rewrite blen_app; bounded).
  rewrite nlri_prefix_text by (rewrite Ho; intros ?%H6; apply div_ceil8_le16; lia).
  cbn [mbind outcome_bind]. by rewrite slice_from_app.
Qed.

Lemma nlri_step_overlong afi_safi action tail acc :
  overlong afi_safi tail -> nlri_step afi_safi action (tail, acc) = Panic.
Proof.
  destruct tail as [|pl rest]; [done|]. intros (H6 & Hp & Hr). unfold nlri_step.
  rewrite idx_cons. cbn [mbind outcome_bind]. rewrite slice_from_1. cbn [mbind outcome_bind].
  rewrite (proj2 (Z.ltb_ge _ _)) by done. unfold nlri_prefix, is_v6 in *. rewrite H6.
  assert (17 <= div_ceil8 (u8 pl)) by (unfold div_ceil8; apply Z.div_le_lower_bound; lia).
  rewrite slice_ok by lia. cbn [mbind outcome_bind]. unfold copy_into_zeroed.
  rewrite (proj2 (Z.leb_gt _ _)); [done|]. rewrite drop_0, blen_take; lia.
Qed.

Lemma nlri_split afi_safi b :
  exists ws tail, Forall (prefix_wf afi_safi) ws /\ b = (ws ≫= encode_prefix) ++ tail /\ nlri_stuck afi_safi tail.
Proof.
  induction b as [b IH] using (induction_ltof1 _ length); unfold ltof in IH.
  destruct b as [|pl rest]; [by exists [], []|].
  assert (nlri_stuck afi_safi (pl :: rest) \/
          (div_ceil8 (u8 pl) <= blen rest /\ (is_v6 afi_safi = true -> u8 pl <= 128))) as [Hs|[Hr H6]].
  { unfold nlri_stuck, overlong. destruct (is_v6 afi_safi), (Z.lt_ge_cases (blen rest) (div_ceil8 (u8 pl))),
      (Z.lt_ge_cases 128 (u8 pl)); naive_solver. }
  { by exists [], (pl :: rest). }
  pose proof (u8_bounds pl) as Hpl.
  assert (0 <= div_ceil8 (u8 pl)) as Hd by (unfold div_ceil8; apply Z.div_pos; lia).
  set (n := Z.to_nat (div_ceil8 (u8 pl))) in *.
  destruct (IH (drop n rest)) as (ws & tail & Hws & Hb & Hs); [cbn [length]; rewrite length_drop; lia|].
  exists (mkPrefix (u8 pl) (take n rest) :: ws), tail. split; [|split; [|done]].
  - constructor; [|done]. split; [done|]. split; [|done]. cbn [wx_octets wx_len]. subst n. rewrite blen_take; lia.
  - rewrite bind_cons, <- app_assoc, <- Hb. unfold encode_prefix. cbn [wx_octets wx_len].
    by rewrite as_u8_u8, <- app_comm_cons, take_drop.
Qed.

Lemma parse_nlri_split afi_safi action ws tail :
  Forall (prefix_wf afi_safi) ws -> nlri_stuck afi_safi tail ->
  parse_nlri afi_safi ((ws ≫= encode_prefix) ++ tail) action = nlri_result afi_safi action ws tail.
Proof.
  intros Hws Hs. unfold parse_nlri.
  apply (loop_stream_tail _ encode_prefix (entry_of afi_safi action) (prefix_wf afi_safi));
    [intros; by apply nlri_step_prefix|done| |done].
  intros fuel. rewrite loop_S. destruct tail as [|pl rest]; [done|]. unfold nlri_result.
  destruct (Z.ltb_spec (blen rest) (div_ceil8 (u8 pl))) as [Hl|Hl].
  - unfold nlri_step. rewrite idx_cons. cbn [mbind outcome_bind]. rewrite slice_from_1. cbn [mbind outcome_bind].
    by rewrite (proj2 (Z.ltb_lt _ _)).
  - destruct Hs as [?|Ho]; [lia|]. by rewrite nlri_step_overlong.
Qed.

(** The NLRI parser of the receiver accounts for every octet
    sequence: it is a list of prefixes followed by a tail that is none; the
    parser returns an entry per prefix, in order, if there is no tail; an error
    if the tail is cut short; and it panics on a tail that announces more
    than 128 bits of an IPv6 prefix. *)
Theorem parse_nlri_exact afi_safi action b :
  exists ws tail, Forall (prefix_wf afi_safi) ws /\ b = (ws ≫= encode_prefix) ++ tail /\ nlri_stuck afi_safi tail /\
    parse_nlri afi_safi b action = nlri_result afi_safi action ws tail.
Proof.
  destruct (nlri_split afi_safi b) as (ws & tail & Hws & -> & Hs). exists ws, tail.
  split_and!; [done..|by apply parse_nlri_split].
Qed.

(** An IPv6 field of NLRI that makes the parser panic. *)
Definition overlong_nlri (b : bytes) : Prop :=
  exists ws tail, b = (ws ≫= encode_prefix) ++ tail /\ Forall (prefix_wf "ipv6-unicast") ws /\ overlong "ipv6-unicast" tail.

Definition bare_entry (action : string) (e : BmpRouteEntry) : Prop :=
  re_action e = action /\ re_next_hop e = ""%string /\ re_as_path e = [] /\ re_communities e = [] /\ re_med e = None /\
  re_local_pref e = None.

Lemma wp_parse_nlri afi_safi b action :
  wp (is_v6 afi_safi = true /\ overlong_nlri b) (parse_nlri afi_safi b action) (Forall (bare_entry action)).
Proof.
  destruct (nlri_split afi_safi b) as (ws & tail & Hws & Hb & Hs). rewrite Hb at 2. rewrite parse_nlri_split by done.
  destruct tail as [|pl rest]; cbn [nlri_result].
  - apply wp_ok, Forall_fmap, Forall_true. intros w. by split_and!.
  - destruct (Z.ltb_spec (blen rest) (div_ceil8 (u8 pl))) as [Hl|Hl]; [done|]. destruct Hs as [?|Ho]; [lia|].
    split; [apply Ho|]. assert (afi_safi = "ipv6-unicast"%string) as ->.
    { destruct Ho as [Ho _]. unfold is_v6 in Ho. by apply bool_decide_eq_true in Ho. }
    by exists ws, (pl :: rest).
Qed.

(** ** Path attributes: every octet sequence is accounted for *)

(** Why a tail is not an attribute ([None]: it starts with one, or is empty). *)
Definition attribute_tail_error (tail : bytes) : option string :=
  match tail with
  | [] => None
  | f :: _ :: l0 :: rest =>
      if bit_set (u8 f) 0x10 then
        match rest with
        | [] => Some "truncated extended path attribute length"%string
        | l1 :: rest => if blen rest <? be [l0; l1] then Some "path attribute length exceeds payload"%string else None
        end
      else if blen rest <? u8 l0 then Some "path attribute length exceeds payload"%string
      else None
  | _ => Some "truncated BGP path attribute header"%string
  end.

Lemma encode_attribute_short f ty v :
  bit_set f 0x10 = false -> encode_attribute (mkWireAttribute f ty v) = as_u8 f :: as_u8 ty :: as_u8 (blen v) :: v.
Proof. intros H. unfold encode_attribute, FLAG_EXT_LEN. cbn [wa_flags wa_value wa_type]. by rewrite H. Qed.

Lemma encode_attribute_long f ty v :
  bit_set f 0x10 = true -> encode_attribute (mkWireAttribute f ty v) = as_u8 f :: as_u8 ty :: to_be 2 (blen v) ++ v.
Proof. intros H. unfold encode_attribute, FLAG_EXT_LEN. cbn [wa_flags wa_value wa_type]. by rewrite H. Qed.

(** A read of a buffer known by its parts. *)
Ltac parts buf := unfold buf; repeat rewrite ?blen_to_be, ?blen_app, ?blen_cons, ?blen_nil; rewrite <- ?app_assoc; cbn [app]; rewrite <- ?app_assoc;
  first [done|lia].

Section AttributeAt.
Context (pre : bytes) (f ty : Z) (v post : bytes) (st : PathState).
Hypothesis Hf : 0 <= f < 256.
Hypothesis Ht : 0 <= ty < 256.

Lemma attribute_step_short :
  bit_set f 0x10 = false -> blen v < 256 ->
  attribute_step (pre ++ (as_u8 f :: as_u8 ty :: as_u8 (blen v) :: v) ++ post) (blen pre, st) =
    (st ← attribute ty v st; Ok (inl (blen pre + (3 + blen v), st))).
Proof.
  intros Hx Hv. pose proof (blen_nonneg pre). pose proof (blen_nonneg v). pose proof (blen_nonneg post).
  unfold attribute_step. set (buf := pre ++ _).
  assert (blen buf = blen pre + 3 + blen v + blen post) as Hb by parts buf.
  rewrite (proj2 (Z.ltb_lt _ _)), (proj2 (Z.ltb_ge _ _)) by lia.
  rewrite (idx_at buf pre (as_u8 f) (as_u8 ty :: as_u8 (blen v) :: v ++ post) (blen pre)) by parts buf. cbn [mbind outcome_bind].
  rewrite (idx_at buf (pre ++ [as_u8 f]) (as_u8 ty) (as_u8 (blen v) :: v ++ post) (blen pre + 1)) by parts buf. cbn [mbind outcome_bind].
  rewrite !u8_as_u8, Hx by lia.
  rewrite (idx_at buf (pre ++ [as_u8 f; as_u8 ty]) (as_u8 (blen v)) (v ++ post)) by parts buf.
  cbn [mbind outcome_bind]. rewrite u8_as_u8 by lia. rewrite (proj2 (Z.ltb_ge _ _)) by lia.
  rewrite (slice_at buf (pre ++ [as_u8 f; as_u8 ty; as_u8 (blen v)]) v post) by parts buf.
  cbn [mbind outcome_bind]. destruct (attribute ty v st); [|done..]. cbn [mbind outcome_bind]. do 3 f_equal. lia.
Qed.

Lemma attribute_step_long :
  bit_set f 0x10 = true -> blen v < 65536 ->
  attribute_step (pre ++ (as_u8 f :: as_u8 ty :: to_be 2 (blen v) ++ v) ++ post) (blen pre, st) =
    (st ← attribute ty v st; Ok (inl (blen pre + (4 + blen v), st))).
Proof.
  intros Hx Hv. pose proof (blen_nonneg pre). pose proof (blen_nonneg v). pose proof (blen_nonneg post).
  unfold attribute_step. set (buf := pre ++ _).
  assert (blen buf = blen pre + 4 + blen v + blen post) as Hb by parts buf.
  rewrite (proj2 (Z.ltb_lt _ _)), (proj2 (Z.ltb_ge _ _)) by lia.
  rewrite (idx_at buf pre (as_u8 f) (as_u8 ty :: to_be 2 (blen v) ++ v ++ post) (blen pre)) by parts buf. cbn [mbind outcome_bind].
  rewrite (idx_at buf (pre ++ [as_u8 f]) (as_u8 ty) (to_be 2 (blen v) ++ v ++ post) (blen pre + 1)) by parts buf. cbn [mbind outcome_bind].
  rewrite !u8_as_u8, Hx, (proj2 (Z.ltb_ge _ _)) by lia.
  rewrite (be_at_at 2 buf (pre ++ [as_u8 f; as_u8 ty]) (to_be 2 (blen v)) (v ++ post)) by parts buf.
  cbn [mbind outcome_bind]. rewrite be_to_be by lia. rewrite (proj2 (Z.ltb_ge _ _)) by lia.
  rewrite (slice_at buf (pre ++ [as_u8 f; as_u8 ty] ++ to_be 2 (blen v)) v post) by parts buf.
  cbn [mbind outcome_bind]. destruct (attribute ty v st); [|done..]. cbn [mbind outcome_bind]. do 3 f_equal. lia.
Qed.

End AttributeAt.

Lemma attribute_step_encoded pre a post st :
  wire_attribute_wf a ->
  attribute_step (pre ++ encode_attribute a ++ post) (blen pre, st) =
    (st ← attribute (wa_type a) (wa_value a) st; Ok (inl (blen pre + blen (encode_attribute a), st))).
Proof.
  destruct a as [f ty v]. intros (Hf & Ht & Hv). unfold FLAG_EXT_LEN in Hv. cbn [wa_flags wa_type wa_value] in *.
  destruct (bit_set f 0x10) eqn:Hx.
  - rewrite encode_attribute_long, attribute_step_long by done. rewrite !blen_cons, blen_app, blen_to_be.
    destruct (attribute ty v st); [|done..]. cbn [mbind outcome_bind]. do 3 f_equal. lia.
  - rewrite encode_attribute_short, attribute_step_short by done. rewrite !blen_cons.
    destruct (attribute ty v st); [|done..]. cbn [mbind outcome_bind]. do 3 f_equal. lia.
Qed.

Lemma attribute_step_tail pre tail st e :
  attribute_tail_error tail = Some e -> attribute_step (pre ++ tail) (blen pre, st) = Err e.
Proof.
  intros He. pose proof (blen_nonneg pre) as Hp. unfold attribute_step. set (buf := pre ++ tail).
  assert (blen buf = blen pre + blen tail) as Hb by parts buf. rewrite Hb.
  destruct tail as [|f [|ty [|l0 rest]]]; [done|..]; cbn [attribute_tail_error] in He; rewrite !blen_cons.
  all: pose proof (blen_nonneg (A := byte)) as Hnn.
  1,2: rewrite blen_nil, (proj2 (Z.ltb_lt _ _)), (proj2 (Z.ltb_lt _ _)) by lia; congruence.
  pose proof (Hnn rest). rewrite (proj2 (Z.ltb_lt _ _)), (proj2 (Z.ltb_ge _ _)) by lia.
  rewrite (idx_at buf pre f (ty :: l0 :: rest) (blen pre)) by parts buf. cbn [mbind outcome_bind].
  rewrite (idx_at buf (pre ++ [f]) ty (l0 :: rest) (blen pre + 1)) by parts buf. cbn [mbind outcome_bind].
  destruct (bit_set (u8 f) 0x10).
  - destruct rest as [|l1 rest].
    { rewrite blen_nil, (proj2 (Z.ltb_lt _ _)) by lia. cbn [mbind outcome_bind]. congruence. }
    rewrite blen_cons in *. pose proof (Hnn rest). rewrite (proj2 (Z.ltb_ge _ _)) by lia.
    rewrite (be_at_at 2 buf (pre ++ [f; ty]) [l0; l1] rest) by parts buf. cbn [mbind outcome_bind].
    destruct (Z.ltb_spec (blen rest) (be [l0; l1])); [|done]. rewrite (proj2 (Z.ltb_lt _ _)) by lia. congruence.
  - rewrite (idx_at buf (pre ++ [f; ty]) l0 rest (blen pre + 2)) by parts buf. cbn [mbind outcome_bind].
    destruct (Z.ltb_spec (blen rest) (u8 l0)); [|done]. rewrite (proj2 (Z.ltb_lt _ _)) by lia. congruence.
Qed.

Definition attribute_stuck (tail : bytes) : Prop := tail = [] \/ is_Some (attribute_tail_error tail).

(** What is no error is an attribute. *)
Lemma attribute_head b :
  attribute_stuck b \/ exists a rest, b = encode_attribute a ++ rest /\ wire_attribute_wf a.
Proof.
  unfold attribute_stuck. destruct (attribute_tail_error b) eqn:He; [left; by right; eexists|].
  destruct b as [|f [|ty [|l0 rest]]]; [by left; left|done..|]. right. cbn [attribute_tail_error] in He.
  pose proof (u8_bounds f). pose proof (u8_bounds ty). pose proof (u8_bounds l0).
  destruct (bit_set (u8 f) 0x10) eqn:Hx.
  - destruct rest as [|l1 rest]; [done|]. destruct (Z.ltb_spec (blen rest) (be [l0; l1])) as [?|Hl]; [done|].
    pose proof (be_bounds [l0; l1]) as Hbe. change (256 ^ blen [l0; l1]) with 65536 in Hbe.
    set (n := be [l0; l1]) in *.
    exists (mkWireAttribute (u8 f) (u8 ty) (take (Z.to_nat n) rest)), (drop (Z.to_nat n) rest).
    assert (blen (take (Z.to_nat n) rest) = n) as Hn by (apply blen_take; lia). split.
    + rewrite encode_attribute_long, Hn, !as_u8_u8 by done. unfold n at 1. rewrite to_be_be_len by done.
      cbn [app]. by rewrite take_drop.
    + unfold wire_attribute_wf, FLAG_EXT_LEN. cbn [wa_flags wa_type wa_value]. rewrite Hx, Hn. lia.
  - destruct (Z.ltb_spec (blen rest) (u8 l0)) as [?|Hl]; [done|]. set (n := u8 l0) in *.
    exists (mkWireAttribute (u8 f) (u8 ty) (take (Z.to_nat n) rest)), (drop (Z.to_nat n) rest).
    assert (blen (take (Z.to_nat n) rest) = n) as Hn by (apply blen_take; lia). split.
    + rewrite encode_attribute_short, Hn by done. unfold n at 1. rewrite !as_u8_u8. cbn [app]. by rewrite take_drop.
    + unfold wire_attribute_wf, FLAG_EXT_LEN. cbn [wa_flags wa_type wa_value]. rewrite Hx, Hn. lia.
Qed.

Lemma attribute_split b :
  exists l tail, Forall wire_attribute_wf l /\ b = (l ≫= encode_attribute) ++ tail /\ attribute_stuck tail.
Proof.
  induction b as [b IH] using (induction_ltof1 _ length); unfold ltof in IH.
  destruct (attribute_head b) as [Hs|(a & rest & -> & Ha)]; [by exists [], b|].
  destruct (IH rest) as (l & tail & Hl & -> & Hs); [rewrite length_app; simpl; lia|].
  exists (a :: l), tail. split; [by constructor|]. by rewrite bind_cons, <- app_assoc.
Qed.

Notation handle_all l := (for_each l (fun a => attribute (wa_type a) (wa_value a))).

Lemma loop_attribute_step l tail pre st fuel :
  Forall wire_attribute_wf l -> attribute_stuck tail -> (length l < fuel)%nat ->
  loop fuel (attribute_step (pre ++ (l ≫= encode_attribute) ++ tail)) (blen pre, st) =
    (st ← handle_all l st; match attribute_tail_error tail with None => Ok st | Some e => Err e end).
Proof.
  intros Hl Hs. revert pre st fuel. induction Hl as [|a l Ha Hl IH]; intros pre st fuel Hf;
    (destruct fuel as [|fuel]; [simpl in Hf; lia|]); rewrite loop_S.
  - cbn [for_each mbind outcome_bind list_bind app]. destruct Hs as [->|[e He]].
    + unfold attribute_step. by rewrite app_nil_r, Z.ltb_irrefl.
    + rewrite He. by rewrite (attribute_step_tail _ _ _ e).
  - rewrite bind_cons, <- app_assoc, attribute_step_encoded by done. cbn [for_each].
    destruct (attribute (wa_type a) (wa_value a) st) as [st'| | |]; cbn [mbind outcome_bind]; [|done..].
    rewrite <- blen_app, app_assoc, IH; [done|simpl in Hf; lia].
Qed.

Lemma parse_attributes_split l tail st :
  Forall wire_attribute_wf l -> attribute_stuck tail ->
  parse_path_attributes ((l ≫= encode_attribute) ++ tail) st =
    (st ← handle_all l st; match attribute_tail_error tail with None => Ok st | Some e => Err e end).
Proof.
  intros Hl Hs. apply (loop_attribute_step l tail []); [done|done|].
  rewrite length_app. pose proof (length_stream encode_attribute wire_attribute_wf l ltac:(done) Hl). lia.
Qed.

(** ** Which messages can make the receiver panic *)

(** An MP_REACH_NLRI or MP_UNREACH_NLRI of IPv6 unicast with an overlong prefix. *)
Definition hostile_value (code : Z) (value : bytes) : Prop :=
  (code = 14 /\ exists nh reserved nlri, value = bs [0; 2; 1] ++ as_u8 (blen nh) :: nh ++ reserved :: nlri /\
                  blen nh < 256 /\ overlong_nlri nlri) \/
  (code = 15 /\ exists nlri, value = bs [0; 2; 1] ++ nlri /\ overlong_nlri nlri).

Definition hostile_in (buf : bytes) : Prop :=
  exists pre a post, buf = pre ++ encode_attribute a ++ post /\ wire_attribute_wf a /\ hostile_value (wa_type a) (wa_value a).

Lemma hostile_in_app pre b post : hostile_in b -> hostile_in (pre ++ b ++ post).
Proof. intros (p & a & q & -> & Ha). exists (pre ++ p), a, (q ++ post). by rewrite <- !app_assoc. Qed.

Lemma is_v6_name afi safi : is_v6 (afi_safi_name afi safi) = true -> afi = 2 /\ safi = 1.
Proof. unfold is_v6, afi_safi_name. repeat case_if; intros H%bool_decide_eq_true; try done. lia. Qed.

(** The octets of a value read as AFI 2 and SAFI 1. *)
Lemma v6_header {E} value :
  be_at (E := E) 2 value 0 = Ok 2 -> idx (E := E) value 2 = Ok 1 -> exists rest, value = bs [0; 2; 1] ++ rest.
Proof.
  intros (_ & _ & Hl & Hbe)%be_at_inv Hi. rewrite drop_0 in Hbe.
  destruct value as [|x0 [|x1 [|x2 rest]]]; try (unfold blen in Hl; simpl in Hl; lia).
  { by destruct x0, x1. }
  exists rest. rewrite (idx_at _ [x0; x1] x2 rest) in Hi by done.
  change (take (Z.to_nat 2) (x0 :: x1 :: x2 :: rest)) with [x0; x1] in Hbe.
  apply (f_equal (to_be 2)) in Hbe. rewrite to_be_be_len in Hbe by done. injection Hi as Hi.
  assert (x2 = Byte.x01) as -> by (by apply u8_inj). by injection Hbe as <- <-.
Qed.

Definition path_ok (st : PathState) : Prop :=
  Forall (fun e => re_action e = "announce"%string) (ps_mp_reach st) /\ Forall (bare_entry "withdraw") (ps_mp_unreach st).

Lemma wp_stream_parse_mp_unreach value st :
  path_ok st -> wp (hostile_value 15 value) (parse_mp_unreach value st) path_ok.
Proof.
  intros [Hr Hu]. unfold parse_mp_unreach. wp_core; [done|].
  apply wp_bind, wp_post; [wp_step; done|]. intros afi Ha.
  apply wp_bind, wp_post; [wp_step; done|]. intros safi Hs.
  apply wp_bind, wp_post; [wp_step; done|]. intros nlri Hn.
  apply wp_bind. eapply wp_conseq; [apply wp_parse_nlri|..].
  - intros [[-> ->]%is_v6_name Ho]. right. split; [done|]. exists nlri. split; [|done].
    destruct (v6_header _ Ha Hs) as [rest ->]. rewrite slice_from_app in Hn by done. by injection Hn as <-.
  - intros es Hes. by split.
Qed.

Lemma be_take1 b : 0 <= be (take 1 b) < 256.
Proof. pose proof (be_bounds (take 1 b)) as Hb. destruct b as [|x b]; [done|]. exact Hb. Qed.

Lemma mp_reach_parts {E} rest nh_len nh nlri :
  idx (E := E) (bs [0; 2; 1] ++ rest) 3 = Ok nh_len -> 0 <= nh_len < 256 ->
  (blen (bs [0; 2; 1] ++ rest) <? 4 + nh_len + 1) = false ->
  slice (E := E) (bs [0; 2; 1] ++ rest) 4 (4 + nh_len) = Ok nh ->
  slice_from (E := E) (bs [0; 2; 1] ++ rest) (5 + nh_len) = Ok nlri -> overlong_nlri nlri ->
  exists nh reserved nlri, bs [0; 2; 1] ++ rest = bs [0; 2; 1] ++ as_u8 (blen nh) :: nh ++ reserved :: nlri /\
    blen nh < 256 /\ overlong_nlri nlri.
Proof.
  intros Hl Hnl Hlen Hnh Hn Ho. destruct rest as [|x rest]; [rewrite blen_app in Hlen; change (blen (bs [0; 2; 1])) with 3 in Hlen;
    rewrite blen_nil in Hlen; lia|].
  rewrite (idx_at _ (bs [0; 2; 1]) x rest) in Hl by done. injection Hl as <-.
  apply slice_split in Hnh as (pre & post & Hv & Hpre & Hnhl).
  change (bs [0; 2; 1] ++ x :: rest) with ((bs [0; 2; 1] ++ [x]) ++ rest) in *.
  apply app_inj_1 in Hv as [<- ->]; [|unfold blen in Hpre; simpl; lia].
  rewrite !blen_app in Hlen. change (blen (bs [0; 2; 1]) + blen [x]) with 4 in Hlen.
  destruct post as [|r post]; [rewrite blen_nil in Hlen; lia|].
  rewrite (app_assoc _ nh), cons_middle, (app_assoc _ [r]), slice_from_app in Hn
    by (rewrite !blen_app; change (blen (bs [0; 2; 1])) with 3; change (blen [x]) with 1; change (blen [r]) with 1; lia).
  injection Hn as ->. exists nh, r, nlri. split; [|split; [lia|done]].
  replace (blen nh) with (u8 x) by lia. by rewrite as_u8_u8.
Qed.

Lemma wp_stream_parse_mp_reach value st :
  path_ok st -> wp (hostile_value 14 value) (parse_mp_reach value st) path_ok.
Proof.
  intros [Hr Hu]. unfold parse_mp_reach. wp_core; [done|].
  apply wp_bind, wp_post; [wp_step; done|]. intros afi Ha.
  apply wp_bind, wp_post; [wp_step; done|]. intros safi Hs.
  apply wp_bind, wp_post; [wp_step; done|]. intros nh_len Hl.
  assert (0 <= nh_len < 256) as Hnl by (apply idx_Ok in Hl as [? ->]; apply be_take1).
  wp_core; [done|].
  apply wp_bind, wp_post; [wp_step; done|]. intros nh Hnh.
  apply wp_bind, wp_post; [wp_step; done|]. intros nlri Hn.
  apply wp_bind. eapply wp_conseq; [apply wp_parse_nlri|..].
  - intros [[-> ->]%is_v6_name Ho]. left. split; [done|].
    destruct (v6_header _ Ha Hs) as [rest ->]. by eapply mp_reach_parts.
  - intros es Hes. apply wp_ok. split; [|done]. apply Forall_fmap. eapply Forall_impl; [exact Hes|]. by intros e (? & _).
Qed.

Lemma wp_segment_asns pn count width value cursor result :
  0 < width -> 0 <= cursor <= blen value ->
  wp pn (segment_asns count width value cursor result)
    (fun r => match r with inl st => cursor <= st.1 <= blen value | inr _ => True end).
Proof.
  intros Hw. revert cursor result. induction count as [|count IH]; intros cursor result Hc; cbn [segment_asns].
  - apply wp_ok. simpl. lia.
  - wp_core; [done|]. wp_core. wp_step. eapply wp_mono; [apply IH; lia|]. intros [st|]; simpl; [lia|done].
Qed.

Lemma wp_stream_parse_as_path pn value : wp pn (parse_as_path value) (fun _ => True).
Proof.
  apply wp_loop_pos; [pose proof (blen_nonneg value); lia|]. intros pos acc Hp. unfold as_path_step.
  wp_core; [|done]. wp_core. wp_step.
  eapply wp_mono; [apply wp_segment_asns; [by case_if|lia]|]. intros [st|]; [simpl; lia|done].
Qed.

Lemma wp_attribute code value st :
  path_ok st -> wp (hostile_value code value) (attribute code value st) path_ok.
Proof.
  intros Hst. unfold attribute. destruct st as [nh ap cs med lp reach unreach].
  destruct (decide (code = 14)) as [->|]; [by apply wp_stream_parse_mp_reach|].
  destruct (decide (code = 15)) as [->|]; [by apply wp_stream_parse_mp_unreach|].
  repeat case_match; try done; wp_core; (eapply wp_mono; [apply wp_stream_parse_as_path|]); done.
Qed.

Lemma wp_parse_path_attributes_rcv attrs st :
  path_ok st -> wp (hostile_in attrs) (parse_path_attributes attrs st) path_ok.
Proof.
  intros Hst. destruct (attribute_split attrs) as (l & tail & Hl & Hb & Hs).
  rewrite Hb at 2. rewrite parse_attributes_split by done. wp_core.
  eapply wp_mono.
  - apply (wp_for_each _ path_ok); [done|]. intros a s Ha Hps. eapply wp_conseq; [by apply wp_attribute| |done].
    intros Hh. apply list_elem_of_split in Ha as (l1 & l2 & ->).
    exists (l1 ≫= encode_attribute), a, ((l2 ≫= encode_attribute) ++ tail).
    apply Forall_app in Hl as [_ Hl]. apply Forall_cons_1 in Hl as [Ha _].
    by rewrite Hb, bind_app, bind_cons, <- !app_assoc.
  - intros s Hps. by wp_core.
Qed.

(** An entry of an UPDATE: withdrawn and bare, or announced with the path all
    announced entries of the UPDATE share. *)
Definition update_entry (st : PathState) (e : BmpRouteEntry) : Prop :=
  bare_entry "withdraw" e \/
  (re_action e = "announce"%string /\ re_as_path e = ps_as_path st /\ re_communities e = ps_communities st /\
   re_med e = ps_med st /\ re_local_pref e = ps_local_pref st).

Lemma clear_withdrawn_entry st e : update_entry st e -> update_entry st (clear_withdrawn e).
Proof.
  unfold clear_withdrawn. destruct (bool_decide_reflect (re_action e = "withdraw"%string)) as [Ha|]; [|done].
  intros [(? & ? & ?)|(Ha' & _)]; [|congruence]. left. by split_and!.
Qed.

(** The octets of an UPDATE between the withdrawn and the announced prefixes. *)
Definition attribute_octets (upd : bytes) : bytes :=
  let withdrawn_len := be (take 2 upd) in
  let attrs_len := be (take 2 (drop (Z.to_nat (2 + withdrawn_len)) upd)) in
  take (Z.to_nat attrs_len) (drop (Z.to_nat (4 + withdrawn_len)) upd).

(** What the attributes of an UPDATE say is the path of its announced entries. *)
Definition entries_said (upd : bytes) (es : list BmpRouteEntry) : Prop :=
  exists st, parse_path_attributes (attribute_octets upd) path_state_default = Ok st /\ Forall (update_entry st) es.

Lemma wp_parse_bgp_update_rcv payload :
  wp (hostile_in payload) (parse_bgp_update payload) (entries_said payload).
Proof.
  unfold parse_bgp_update. cbn zeta. wp_core; [done|]. rewrite be_at_value by lia. rewrite bind_Ok.
  change (take (Z.to_nat 2) (drop (Z.to_nat 0) payload)) with (take 2 payload).
  pose proof (be_bounds (take 2 payload)) as Hw. wp_core; [done|].
  wp_core. wp_step. wp_core. eapply wp_conseq; [apply wp_parse_nlri|by intros [? _]|]. intros wd Hwd.
  wp_core; [done|]. rewrite be_at_value by lia. rewrite bind_Ok. change (Z.to_nat 2) with 2%nat.
  pose proof (be_bounds (take 2 (drop (Z.to_nat (2 + be (take 2 payload))) payload))) as Hn. wp_core; [done|].
  wp_core. apply wp_post; [wp_step; done|]. intros attrs Ha.
  assert (attrs = attribute_octets payload) as Hat.
  { rewrite slice_ok in Ha by lia. injection Ha as <-. unfold attribute_octets. cbv zeta. f_equal; [lia|]. f_equal. lia. }
  wp_core. apply (wp_mono _ _ (fun st => parse_path_attributes attrs path_state_default = Ok st /\ path_ok st)).
  { assert (wp (hostile_in payload) (parse_path_attributes attrs path_state_default) path_ok) as Hwp.
    { eapply wp_conseq; [by apply wp_parse_path_attributes_rcv| |done].
      apply slice_split in Ha as (pre & post & -> & _). apply hostile_in_app. }
    destruct (parse_path_attributes attrs path_state_default); [by split|exact Hwp..]. }
  intros st [Hst [Hr Hu]]. wp_core. wp_step. wp_core. eapply wp_conseq; [apply wp_parse_nlri|by intros [? _]|].
  intros v4 Hv4. apply wp_ok. exists st. split; [by rewrite <- Hat|]. apply Forall_app. split.
  - apply Forall_fmap. apply (Forall_impl (update_entry st)); [|apply clear_withdrawn_entry].
    rewrite !Forall_app, !Forall_fmap. split; [|split].
    + eapply Forall_impl; [exact Hwd|]. by left.
    + eapply Forall_impl; [exact Hv4|]. intros e (He & _). by right.
    + apply Forall_true. intros e. by right.
  - eapply Forall_impl; [exact Hu|]. by left.
Qed.

Lemma wp_stream_parse_route_monitoring payload :
  wp (hostile_in payload) (parse_route_monitoring payload) (entries_said (drop 19 payload)).
Proof.
  unfold parse_route_monitoring, BGP_HEADER_LEN. wp_core; [done|]. wp_core. wp_step. wp_core; [done|]. wp_core. wp_step.
  wp_core; [done|]. wp_core. wp_step. wp_core; [done|]. unfold in_range, BGP_HEADER_LEN in *.
  wp_core. apply wp_post; [wp_step; done|]. intros upd Hu.
  assert (upd = drop 19 payload) as Hupd.
  { rewrite slice_ok in Hu by bounded. injection Hu as <-. apply take_ge. rewrite length_drop. unfold blen in *. bounded. }
  eapply wp_conseq; [by apply wp_parse_bgp_update_rcv| |by rewrite Hupd].
  apply slice_split in Hu as (pre & post & -> & _). apply hostile_in_app.
Qed.

Lemma wp_parse_statistics_report pn body : wp pn (parse_statistics_report body) (fun _ => True).
Proof.
  unfold parse_statistics_report. wp_core; [done|]. wp_core. wp_step. apply wp_loop_pos; [lia|].
  intros pos acc Hp. unfold stat_entry_step. wp_core; [|done]. wp_core. wp_step. wp_core. wp_step. cbn zeta.
  wp_core; [done|]. wp_core. wp_step. apply wp_ok. simpl. lia.
Qed.

Lemma wp_parse_peer_down_reason pn body : wp pn (parse_peer_down_reason body) (fun _ => True).
Proof. destruct body as [|x body]; [done|]. unfold parse_peer_down_reason. by rewrite idx_cons. Qed.

Lemma wp_message_tlvs {A} pn truncated tail (body : Z -> bytes -> A -> Parse A) payload s (I : A -> Prop) :
  I s -> (forall ty v s, I s -> wp pn (body ty v s) I) -> wp pn (message_tlvs truncated tail body payload s) I.
Proof.
  intros Hs Hbody. unfold message_tlvs. wp_core.
  apply (wp_loop_pos_inv _ _ _ _ _ I); [pose proof (blen_nonneg payload); lia|done|].
  intros pos acc Hp Ha. unfold message_tlv_step. wp_core.
  - wp_core. wp_step. wp_core. wp_step. cbn zeta. wp_core; [done|]. wp_core. wp_step. wp_core.
    eapply wp_mono; [by apply Hbody|]. intros s' Hs'. apply wp_ok. simpl. split; [lia|done].
  - apply wp_ok. by wp_core.
Qed.

Lemma wp_initiation_tlvs pn payload : wp pn (initiation_tlvs payload) (fun _ => True).
Proof. apply wp_message_tlvs; [done|]. intros ty v s _. unfold initiation_field. by repeat case_match. Qed.

Lemma wp_termination_tlvs pn payload : wp pn (termination_tlvs payload) (fun _ => True).
Proof.
  apply wp_message_tlvs; [done|]. intros ty v s _. unfold termination_field. repeat case_match; try done.
  wp_core. by wp_step.
Qed.

Lemma wp_parse_common_peer_header pn input :
  blen input = COMMON_PEER_HEADER_LEN -> wp pn (parse_common_peer_header input) (fun _ => True).
Proof. unfold COMMON_PEER_HEADER_LEN. intros Hl. unfold parse_common_peer_header. by repeat (wp_core; wp_step). Qed.

Lemma wp_parse_bgp_capabilities pn params : wp pn (parse_bgp_capabilities params) (fun _ => True).
Proof.
  apply wp_loop_pos; [pose proof (blen_nonneg params); lia|]. intros pos acc Hp. unfold param_step.
  wp_core; [|done]. wp_core. wp_step. wp_core. wp_step. cbn zeta. wp_core; [done|]. wp_core.
  eapply (wp_mono _ _ (fun _ => True)); [wp_core; [|done]|intros caps _; apply wp_ok; simpl; lia].
  apply (wp_loop _ (fun st => 0 <= st.1) (fun st => Z.to_nat (blen params - st.1))); [simpl; lia|rewrite length_blen; simpl; lia|].
  intros [cur caps] Hc. simpl in Hc. unfold cap_step. wp_core; [|done]. wp_core. wp_step. wp_core. wp_step. cbn zeta.
  wp_core; [done|]. apply wp_ok. simpl. lia.
Qed.

Lemma wp_stream_parse_bgp_open pn data : wp pn (parse_bgp_open_from_message data) (fun _ => True).
Proof.
  unfold parse_bgp_open_from_message, BGP_HEADER_LEN. wp_core; [done|]. wp_core. wp_step. wp_core; [done|].
  wp_core. wp_step. wp_core; [done|]. wp_core. wp_step. wp_core; [done|].
  wp_core. wp_step. wp_core. wp_step. wp_core. wp_step. wp_core.
  eapply (wp_mono _ _ (fun _ => True)); [wp_core; [by wp_step|done]|]. intros opts _.
  wp_core. eapply wp_mono; [apply wp_parse_bgp_capabilities|]. intros caps _. wp_core. by wp_step.
Qed.

Lemma wp_parse_peer_up_info pn body flags : wp pn (parse_peer_up_info body flags) (fun _ => True).
Proof.
  unfold parse_peer_up_info. wp_core; [done|]. wp_core. wp_step. cbn zeta. wp_core. wp_step. wp_core. wp_step.
  wp_core. wp_step. wp_core. eapply wp_mono; [apply wp_stream_parse_bgp_open|]. intros [[o r']|] _; [|done].
  wp_core. eapply wp_mono; [apply wp_stream_parse_bgp_open|]. by intros [[o' r'']|] _.
Qed.

Lemma wp_parse_bmp_message now ty payload peer :
  wp (ty = 0 /\ hostile_in payload) (parse_bmp_message now ty payload peer) (fun e =>
    timestamp_ns e = now /\ collector_peer e = peer /\ raw_len e = blen payload + 6 /\
    if ty =? 0 then entries_said (drop 61 payload) (route_entries e) else route_entries e = []).
Proof.
  unfold parse_bmp_message. wp_core.
  { unfold parse_initiation_event. wp_core. eapply wp_mono; [apply wp_initiation_tlvs|]. intros f _.
    apply wp_ok. split_and!; [done..|]. repeat case_if; try done; lia. }
  wp_core.
  { unfold parse_termination_event. wp_core. eapply wp_mono; [apply wp_termination_tlvs|]. intros f _.
    apply wp_ok. split_and!; [done..|]. repeat case_if; try done; lia. }
  unfold COMMON_PEER_HEADER_LEN. wp_core; [done|]. wp_core. wp_step. wp_core.
  eapply wp_mono; [apply wp_parse_common_peer_header; unfold COMMON_PEER_HEADER_LEN; lia|]. intros ph _. wp_core.
  apply wp_post; [wp_step; done|]. intros body Hb. cbn zeta.
  destruct (decide (ty = 0)) as [->|].
  { wp_core. eapply wp_conseq; [apply wp_stream_parse_route_monitoring| |].
    - intros Hh. split; [done|]. apply slice_split in Hb as (pre & post & -> & _). by apply hostile_in_app.
    - intros es Hes. apply wp_ok. split_and!; try done. unfold slice_from in Hb. rewrite slice_ok in Hb by lia. injection Hb as <-.
      rewrite take_ge in Hes by (rewrite length_drop; unfold blen; lia). by rewrite drop_drop in Hes. }
  repeat case_match; try done; wp_core.
  - eapply wp_mono; [apply wp_parse_peer_up_info|]. intros info _. apply wp_ok. by split_and!.
  - eapply wp_mono; [apply wp_parse_peer_down_reason|]. intros [reason name] _. apply wp_ok. by split_and!.
  - eapply wp_mono; [apply wp_parse_statistics_report|]. intros s _. apply wp_ok. by split_and!.
Qed.

(** Claim C9: whatever the octets of a BMP message, the receiver's parser ends
    without a panic unless the message is a Route Monitoring that carries an
    IPv6 MP_REACH_NLRI or MP_UNREACH_NLRI attribute with a prefix of more than
    128 bits.  The event it returns carries the time, the peer and the length
    of the frame.  Only a Route Monitoring has routes: the withdrawn ones have
    no path, and all announced ones have the AS path, communities, MED and
    local preference that the attribute octets of the UPDATE in the message,
    found by its length fields, are parsed to. *)
Theorem receiver_message_safe now ty payload peer :
  wp (ty = 0 /\ hostile_in payload) (parse_bmp_message now ty payload peer) (fun e =>
    timestamp_ns e = now /\ collector_peer e = peer /\ raw_len e = blen payload + 6 /\
    if ty =? 0 then entries_said (drop 61 payload) (route_entries e) else route_entries e = []).
Proof. apply wp_parse_bmp_message. Qed.

(** ** A connection from its first frame to its end *)

Definition encode_frame (m : Z * bytes) : bytes := Byte.x03 :: to_be 4 (6 + blen m.2) ++ as_u8 m.1 :: m.2.

Definition frame_wf (max_frame_bytes : Z) (m : Z * bytes) : Prop :=
  0 <= m.1 < 256 /\ 6 + blen m.2 <= max_frame_bytes /\ 6 + blen m.2 < 2 ^ 32.

Lemma read_frame_encoded m rest max_frame_bytes :
  frame_wf max_frame_bytes m ->
  stream_read_bmp_frame read_octets (encode_frame m ++ rest) max_frame_bytes = Ok (Some (m.1, m.2, rest)).
Proof.
  destruct m as [ty payload]. intros (Ht & Hm & H32). cbn [fst snd] in *. pose proof (blen_nonneg payload) as Hp.
  unfold stream_read_bmp_frame, encode_frame. cbn [fst snd].
  change ((Byte.x03 :: ?l) ++ rest) with ([Byte.x03] ++ l ++ rest).
  rewrite (read_octets_app [Byte.x03]) by done.
  rewrite cons_middle, (app_assoc (to_be 4 _)), <- (app_assoc _ payload).
  rewrite (read_octets_app (to_be 4 (6 + blen payload) ++ [as_u8 ty])) by (rewrite blen_app, blen_to_be; done).
  rewrite (idx_at _ [] Byte.x03 (to_be 4 (6 + blen payload) ++ [as_u8 ty]) 0) by done. cbn [mbind outcome_bind].
  change (negb (u8 Byte.x03 =? 3)) with false. cbn iota.
  rewrite (be_at_at 4 _ [Byte.x03] (to_be 4 (6 + blen payload)) [as_u8 ty]) by (done || apply blen_to_be).
  cbn [mbind outcome_bind]. rewrite be_to_be by (change (256 ^ Z.of_nat 4) with (2 ^ 32); lia).
  unfold in_range, HEADER_LEN. rewrite (proj2 (Z.leb_le _ _)), (proj2 (Z.leb_le _ _)) by lia. cbn [andb negb].
  replace (6 + blen payload - 6) with (blen payload) by lia.
  assert (read_payload read_octets (blen payload) (payload ++ rest) = Ok (payload, rest)) as ->.
  { unfold read_payload. case_if; [by rewrite read_octets_app|]. destruct payload; [done|]. rewrite blen_cons in *. bounded. }
  cbn [mbind outcome_bind].
  rewrite (idx_at _ ([Byte.x03] ++ to_be 4 (6 + blen payload)) (as_u8 ty) [] 5)
    by (done || by rewrite blen_app, blen_to_be). cbn [mbind outcome_bind]. by rewrite u8_as_u8.
Qed.

Section Serve.
Context (max_frame_bytes : Z) (clock : bytes -> Z) (should_shed : bytes -> bool) (peer : string).
Context (entries : list TargetEntry).

Notation serve := (connection read_octets max_frame_bytes clock should_shed peer entries).

(** What a connection that receives these messages publishes, and how it ends. *)
Fixpoint served (ms : list (Z * bytes)) : list Published * ConnectionEnd :=
  match ms with
  | [] => ([], End_Closed)
  | m :: ms' =>
      let rest := ms' ≫= encode_frame in
      match parse_bmp_message (clock rest) m.1 m.2 peer with
      | Ok event => let '(ps, e) := served ms' in (option_list (publish_event entries (should_shed rest) event) ++ ps, e)
      | Err _ => served ms'
      | _ => ([], End_Panicked)
      end
  end.

Lemma connection_served ms published fuel :
  Forall (frame_wf max_frame_bytes) ms -> (length ms < fuel)%nat ->
  serve fuel (ms ≫= encode_frame) published = Some (published ++ (served ms).1, (served ms).2).
Proof.
  intros Hms. revert published fuel. induction Hms as [|m ms Hm Hms IH]; intros published fuel Hf;
    (destruct fuel as [|fuel]; [simpl in Hf; lia|]); cbn [connection].
  - by rewrite app_nil_r.
  - rewrite bind_cons, read_frame_encoded by done. cbn [served].
    pose proof (wp_parse_bmp_message (clock (ms ≫= encode_frame)) m.1 m.2 peer) as Hw.
    destruct (parse_bmp_message _ _ _ _) as [event|err| |]; [|apply IH; simpl in Hf; lia|by rewrite app_nil_r|done].
    rewrite IH by (simpl in Hf; lia). destruct (served ms) as [ps e]. cbn [fst snd]. by rewrite app_assoc.
Qed.

(** On a connection the messages are handled one by one, in order:
    each frame is delimited by its length, a message that does not parse is
    skipped without losing the ones behind it, an event is published unless it
    is a statistics report shed under pressure, and the task ends when the peer
    closes the connection. *)
Theorem connection_serves_frames ms fuel :
  Forall (frame_wf max_frame_bytes) ms -> (length ms < fuel)%nat ->
  serve fuel (ms ≫= encode_frame) [] = Some (served ms).
Proof. intros Hms Hf. rewrite connection_served by done. by destruct (served ms). Qed.

End Serve.

(** ** A message that ends the connection *)

Definition update_body (attrs : bytes) : bytes := to_be 2 0 ++ to_be 2 (blen attrs) ++ attrs.

(** A Route Monitoring message with no withdrawn and no announced IPv4 routes. *)
Definition monitoring_payload (header attrs : bytes) : bytes :=
  header ++ replicate 16 Byte.xff ++ to_be 2 (19 + blen (update_body attrs)) ++ Byte.x02 :: update_body attrs.

Lemma overlong_panics nlri action : overlong_nlri nlri -> parse_nlri "ipv6-unicast" nlri action = Panic.
Proof.
  intros (ws & tail & -> & Hws & Ho). rewrite parse_nlri_split; [|done|].
  - destruct tail as [|pl rest]; [done|]. destruct Ho as (_ & _ & Hr). cbn [nlri_result]. by rewrite (proj2 (Z.ltb_ge _ _)).
  - destruct tail; [done|]. by right.
Qed.

Lemma hostile_attribute_panics code value st : hostile_value code value -> attribute code value st = Panic.
Proof.
  intros [[-> (nh & r & nlri & -> & Hn & Ho)]|[-> (nlri & -> & Ho)]]; unfold attribute; destruct st.
  - unfold parse_mp_reach. pose proof (blen_nonneg nh). pose proof (blen_nonneg nlri).
    set (value := bs [0; 2; 1] ++ _). assert (blen value = 5 + blen nh + blen nlri) as Hb.
    { unfold value. rewrite blen_app, blen_cons, blen_app, blen_cons. change (blen (bs [0; 2; 1])) with 3. lia. }
    rewrite (proj2 (Z.ltb_ge _ _)) by lia.
    rewrite (be_at_at 2 value [] (bs [0; 2]) (bs [1] ++ as_u8 (blen nh) :: nh ++ r :: nlri)) by done. cbn [mbind outcome_bind].
    rewrite (idx_at value (bs [0; 2]) Byte.x01 (as_u8 (blen nh) :: nh ++ r :: nlri) 2) by done. cbn [mbind outcome_bind].
    rewrite (idx_at value (bs [0; 2; 1]) (as_u8 (blen nh)) (nh ++ r :: nlri) 3) by done. cbn [mbind outcome_bind].
    rewrite u8_as_u8, (proj2 (Z.ltb_ge _ _)) by lia.
    rewrite (slice_at value (bs [0; 2; 1] ++ [as_u8 (blen nh)]) nh (r :: nlri)) by done. cbn [mbind outcome_bind].
    replace value with ((bs [0; 2; 1] ++ as_u8 (blen nh) :: nh ++ [r]) ++ nlri)
      by (unfold value; by rewrite <- app_assoc, <- app_comm_cons, <- app_assoc).
    rewrite slice_from_app by (rewrite blen_app, blen_cons, blen_app; change (blen (bs [0; 2; 1])) with 3;
      change (blen [r]) with 1; lia). cbn [mbind outcome_bind].
    change (afi_safi_name (be (bs [0; 2])) (u8 Byte.x01)) with "ipv6-unicast"%string. by rewrite overlong_panics.
  - unfold parse_mp_unreach. pose proof (blen_nonneg nlri). set (value := bs [0; 2; 1] ++ nlri).
    assert (blen value = 3 + blen nlri) as Hb by (unfold value; rewrite blen_app; done).
    rewrite (proj2 (Z.ltb_ge _ _)) by lia.
    rewrite (be_at_at 2 value [] (bs [0; 2]) (bs [1] ++ nlri)) by done. cbn [mbind outcome_bind].
    rewrite (idx_at value (bs [0; 2]) Byte.x01 nlri 2) by done. cbn [mbind outcome_bind].
    unfold value at 1. rewrite slice_from_app by done. cbn [mbind outcome_bind].
    change (afi_safi_name (be (bs [0; 2])) (u8 Byte.x01)) with "ipv6-unicast"%string. by rewrite overlong_panics.
Qed.

(** Attributes that are handled, then a hostile one. *)
Definition hostile_attributes (attrs : bytes) : Prop :=
  exists l st a rest, attrs = (l ≫= encode_attribute) ++ encode_attribute a ++ rest /\
    Forall wire_attribute_wf (l ++ [a]) /\ handle_all l path_state_default = Ok st /\
    hostile_value (wa_type a) (wa_value a).

Lemma hostile_attributes_panic attrs :
  hostile_attributes attrs -> parse_path_attributes attrs path_state_default = Panic.
Proof.
  intros (l & st & a & rest & -> & Hl & Hh & Ha). apply Forall_app in Hl as [Hl Hw]. apply Forall_cons_1 in Hw as [Hw _].
  destruct (attribute_split rest) as (l2 & tail & Hl2 & -> & Hs).
  replace ((l ≫= encode_attribute) ++ encode_attribute a ++ (l2 ≫= encode_attribute) ++ tail)
    with (((l ++ a :: l2) ≫= encode_attribute) ++ tail) by (by rewrite bind_app, bind_cons, <- !app_assoc).
  rewrite parse_attributes_split; [|apply Forall_app; split; [done|by constructor]|done].
    rewrite for_each_app, Hh. cbn [mbind outcome_bind for_each]. by rewrite hostile_attribute_panics.
Qed.

Lemma hostile_body_panics attrs :
  blen attrs <= 4073 -> hostile_attributes attrs -> parse_bgp_update (update_body attrs) = Panic.
Proof.
  intros Hl Hat. pose proof (blen_nonneg attrs). set (payload := update_body attrs).
  assert (blen payload = 4 + blen attrs) as Hu by (unfold payload, update_body; rewrite !blen_app, !blen_to_be; lia).
  unfold parse_bgp_update. rewrite (proj2 (Z.ltb_ge _ _)) by lia.
  rewrite (be_at_at 2 payload [] (to_be 2 0) (to_be 2 (blen attrs) ++ attrs)) by done.
  cbn [mbind outcome_bind]. rewrite be_to_be by done. cbn zeta. rewrite (proj2 (Z.ltb_ge _ _)) by lia.
  rewrite (slice_at payload (to_be 2 0) [] (to_be 2 (blen attrs) ++ attrs)) by done. cbn [mbind outcome_bind].
  change (parse_nlri "ipv4-unicast" [] "withdraw") with (Ok (E := string) (@nil BmpRouteEntry)). cbn [mbind outcome_bind].
  rewrite (proj2 (Z.ltb_ge _ _)) by lia.
  rewrite (be_at_at 2 payload (to_be 2 0) (to_be 2 (blen attrs)) attrs) by done.
  cbn [mbind outcome_bind]. rewrite be_to_be by lia. rewrite (proj2 (Z.ltb_ge _ _)) by lia.
  rewrite (slice_at payload (to_be 2 0 ++ to_be 2 (blen attrs)) attrs [])
    by (unfold payload, update_body; rewrite ?app_nil_r, ?blen_app, ?blen_to_be, <- ?app_assoc; done || lia).
  cbn [mbind outcome_bind]. by rewrite hostile_attributes_panic.
Qed.

Lemma parse_common_peer_header_ok input :
  blen input = COMMON_PEER_HEADER_LEN -> exists p, parse_common_peer_header input = Ok p.
Proof.
  unfold COMMON_PEER_HEADER_LEN. intros Hl. unfold parse_common_peer_header. rewrite !idx_be by lia. unfold be_at.
  rewrite !slice_ok by lia. by eexists.
Qed.

(** The BGP message of an UPDATE. *)
Definition bgp_message (upd : bytes) : bytes := replicate 16 Byte.xff ++ to_be 2 (19 + blen upd) ++ Byte.x02 :: upd.

Lemma parse_monitoring_message upd : 4 <= blen upd <= 4077 -> parse_route_monitoring (bgp_message upd) = parse_bgp_update upd.
Proof.
  intros Hl. set (msg := bgp_message upd).
  assert (blen msg = 19 + blen upd) as Hm
    by (unfold msg, bgp_message; rewrite !blen_app, blen_to_be, blen_cons; change (blen (replicate 16 Byte.xff)) with 16; lia).
  unfold parse_route_monitoring, BGP_HEADER_LEN. rewrite (proj2 (Z.ltb_ge _ _)) by lia.
  rewrite (slice_at msg [] (replicate 16 Byte.xff) (to_be 2 (19 + blen upd) ++ Byte.x02 :: upd)) by done. cbn [mbind outcome_bind].
  rewrite bool_decide_true by done. cbn [negb].
  rewrite (be_at_at 2 msg (replicate 16 Byte.xff) (to_be 2 (19 + blen upd)) (Byte.x02 :: upd))
    by (done || apply blen_to_be). cbn [mbind outcome_bind]. rewrite be_to_be by lia.
  unfold in_range. rewrite (proj2 (Z.leb_le _ _)), (proj2 (Z.leb_le _ _)), (proj2 (Z.eqb_eq _ _)) by lia. cbn [andb negb orb].
  rewrite (idx_at msg (replicate 16 Byte.xff ++ to_be 2 (19 + blen upd)) Byte.x02 upd 18)
    by (unfold msg, bgp_message; rewrite ?blen_app, ?blen_to_be, <- ?app_assoc; done). cbn [mbind outcome_bind].
  change (negb (u8 Byte.x02 =? 2)) with false. cbn iota.
  by rewrite (slice_at msg (replicate 16 Byte.xff ++ to_be 2 (19 + blen upd) ++ [Byte.x02]) upd [])
    by (unfold msg, bgp_message; rewrite ?app_nil_r, ?blen_app, ?blen_to_be, <- ?app_assoc; done).
Qed.

Lemma parse_monitoring now header upd peer : blen header = 42 -> 4 <= blen upd <= 4077 ->
  exists ph, parse_bmp_message now 0 (header ++ bgp_message upd) peer =
    (routes ← parse_bgp_update upd;
     Ok (with_message "route_monitoring" "established" routes [] None None None
           (peer_event now peer ph (blen (header ++ bgp_message upd))))).
Proof.
  intros Hh Hl. destruct (parse_common_peer_header_ok header Hh) as [ph Hph]. exists ph.
  unfold parse_bmp_message. cbn [Z.eqb]. pose proof (blen_nonneg (bgp_message upd)).
  rewrite (proj2 (Z.ltb_ge _ _)) by (rewrite blen_app; unfold COMMON_PEER_HEADER_LEN; lia).
  rewrite slice_to_app by done. cbn [mbind outcome_bind]. rewrite Hph. cbn [mbind outcome_bind].
  rewrite slice_from_app by done. cbn [mbind outcome_bind]. by rewrite parse_monitoring_message.
Qed.

Lemma hostile_update_panics now header attrs peer :
  blen header = 42 -> blen attrs <= 4073 -> hostile_attributes attrs ->
  parse_bmp_message now 0 (monitoring_payload header attrs) peer = Panic.
Proof.
  intros Hh Hl Hat. pose proof (blen_nonneg attrs).
  assert (blen (update_body attrs) = 4 + blen attrs) as Hu by (unfold update_body; rewrite !blen_app, !blen_to_be; lia).
  destruct (parse_monitoring now header (update_body attrs) peer Hh) as [ph Hp]; [lia|].
  change (monitoring_payload header attrs) with (header ++ bgp_message (update_body attrs)). rewrite Hp.
  by rewrite hostile_body_panics.
Qed.

Section HostileConnection.
Context (max_frame_bytes : Z) (clock : bytes -> Z) (should_shed : bytes -> bool) (peer : string).
Context (entries : list TargetEntry).

Lemma served_until_panic before_it m after_it :
  (forall now, parse_bmp_message now m.1 m.2 peer = Panic) ->
  exists ps, served clock should_shed peer entries (before_it ++ m :: after_it) = (ps, End_Panicked) /\
    (length ps <= length before_it)%nat.
Proof.
  intros Hp. induction before_it as [|m' ms IH].
  - exists []. split; [|done]. cbn [app served]. by rewrite Hp.
  - cbn [app served]. destruct IH as (ps & -> & Hl). destruct (parse_bmp_message _ _ _ _) as [event|e| |].
    + eexists. split; [done|]. rewrite length_app. destruct (publish_event _ _ _); simpl; lia.
    + exists ps. split; [done|]. simpl. lia.
    + exists []. split; [done|]. simpl. lia.
    + exists []. split; [done|]. simpl. lia.
Qed.

(** An UPDATE with an IPv6 prefix of more than 128 bits in its
    MP_REACH_NLRI or MP_UNREACH_NLRI panics the task of the connection: nothing
    behind it is read or published. *)
Theorem hostile_update_ends_connection header attrs before_it after_it fuel :
  blen header = 42 -> blen attrs <= 4073 -> hostile_attributes attrs ->
  let ms := before_it ++ (0, monitoring_payload header attrs) :: after_it in
  Forall (frame_wf max_frame_bytes) ms -> (length ms < fuel)%nat ->
  exists ps, connection read_octets max_frame_bytes clock should_shed peer entries fuel (ms ≫= encode_frame) [] =
      Some (ps, End_Panicked) /\ (length ps <= length before_it)%nat.
Proof.
  intros Hh Hl Ha ms Hms Hf. rewrite connection_served by done.
  destruct (served_until_panic before_it (0, monitoring_payload header attrs) after_it) as (ps & Hps & Hn).
  { intros now. by apply hostile_update_panics. }
  exists ps. unfold ms. by rewrite Hps.
Qed.

End HostileConnection.

(** ** What an UPDATE says is what is reported *)

(** A path attribute of an IPv4 UPDATE, apart from its octets: AS numbers are of
    four octets, and [PI_Other] is an attribute the receiver does not use. *)
Inductive PathItem :=
| PI_AsPath (segments : list (Z * list Z))
| PI_NextHop (addr : bytes)
| PI_Med (n : Z)
| PI_LocalPref (n : Z)
| PI_Communities (cs : list (Z * Z))
| PI_Other (code : Z) (value : bytes).

Definition segment_wf (s : Z * list Z) : Prop :=
  0 <= s.1 < 256 /\ blen s.2 < 256 /\ Forall (fun asn => 0 <= asn < 2 ^ 32) s.2.

Definition item_wf (i : PathItem) : Prop :=
  match i with
  | PI_AsPath segs => Forall segment_wf segs
  | PI_NextHop addr => blen addr = 4
  | PI_Med n | PI_LocalPref n => 0 <= n < 2 ^ 32
  | PI_Communities cs => Forall (fun c => 0 <= c.1 < 65536 /\ 0 <= c.2 < 65536) cs
  | PI_Other code _ => 0 <= code < 256 /\ code ∉ [2; 3; 4; 5; 8; 14; 15; 16; 32]
  end.

Definition encode_segment (s : Z * list Z) : bytes := as_u8 s.1 :: as_u8 (blen s.2) :: (s.2 ≫= to_be 4).

Definition item_code (i : PathItem) : Z :=
  match i with
  | PI_AsPath _ => 2 | PI_NextHop _ => 3 | PI_Med _ => 4 | PI_LocalPref _ => 5 | PI_Communities _ => 8 | PI_Other code _ => code
  end.

Definition item_value (i : PathItem) : bytes :=
  match i with
  | PI_AsPath segs => segs ≫= encode_segment
  | PI_NextHop addr => addr
  | PI_Med n | PI_LocalPref n => to_be 4 n
  | PI_Communities cs => cs ≫= (fun c => to_be 2 c.1 ++ to_be 2 c.2)
  | PI_Other _ value => value
  end.

(** With any flags; the length takes two octets if they say so. *)
Definition encode_item (x : Z * PathItem) : bytes := encode_attribute (mkWireAttribute x.1 (item_code x.2) (item_value x.2)).

Definition item_ok (x : Z * PathItem) : Prop :=
  item_wf x.2 /\ wire_attribute_wf (mkWireAttribute x.1 (item_code x.2) (item_value x.2)).

(** What the attributes say: of each kind the last one counts. *)
Definition last_of {A} (f : PathItem -> option A) (items : list (Z * PathItem)) : option A := last (omap (fun x => f x.2) items).

Definition said_next_hop := last_of (fun i => match i with PI_NextHop a => Some (ipv4_to_string a) | _ => None end).
Definition said_as_path := last_of (fun i => match i with PI_AsPath segs => Some (segs ≫= snd) | _ => None end).
Definition said_med := last_of (fun i => match i with PI_Med n => Some n | _ => None end).
Definition said_local_pref := last_of (fun i => match i with PI_LocalPref n => Some n | _ => None end).
Definition said_communities := last_of (fun i => match i with
  | PI_Communities cs => Some ((fun c => (fmt_dec c.1 ++ ":" ++ fmt_dec c.2)%string) <$> cs) | _ => None end).

(** The octets of the UPDATE. *)
Definition update_octets (withdrawn : list WirePrefix) (items : list (Z * PathItem)) (announced : list WirePrefix) : bytes :=
  to_be 2 (blen (withdrawn ≫= encode_prefix)) ++ (withdrawn ≫= encode_prefix) ++
  to_be 2 (blen (items ≫= encode_item)) ++ (items ≫= encode_item) ++ (announced ≫= encode_prefix).

(** The entries: withdrawn prefixes, then announced ones with the path. *)
Definition said_entries (withdrawn : list WirePrefix) (items : list (Z * PathItem)) (announced : list WirePrefix) : list BmpRouteEntry :=
  (entry_of "ipv4-unicast" "withdraw" <$> withdrawn) ++
  ((fun w => mkRouteEntry "ipv4-unicast" (prefix_text "ipv4-unicast" (wx_octets w)) (wx_len w) "announce"
              (default ""%string (said_next_hop items)) (default [] (said_as_path items)) (default [] (said_communities items))
              (said_med items) (said_local_pref items)) <$> announced).

(** *** Values *)

Lemma segment_asns_encoded buf pre asns post result :
  Forall (fun asn => 0 <= asn < 2 ^ 32) asns -> buf = pre ++ (asns ≫= to_be 4) ++ post ->
  segment_asns (length asns) 4 buf (blen pre) result = Ok (inl (blen pre + 4 * blen asns, result ++ asns)).
Proof.
  intros Ha. revert pre result. induction Ha as [|asn asns Hasn _ IH]; intros pre result Hb; cbn [segment_asns length].
  - rewrite app_nil_r. do 3 f_equal. change (blen []) with 0. lia.
  - rewrite bind_cons in Hb. pose proof (blen_nonneg post). pose proof (blen_nonneg (asns ≫= to_be 4)).
    assert (blen buf = blen pre + 4 + blen (asns ≫= to_be 4) + blen post) as Hl by (rewrite Hb, !blen_app, blen_to_be; lia).
    rewrite (proj2 (Z.ltb_ge _ _)) by lia.
    rewrite (be_at_at 4 buf pre (to_be 4 asn) ((asns ≫= to_be 4) ++ post)) by (done || by rewrite Hb, <- !app_assoc).
    cbn [mbind outcome_bind]. rewrite be_to_be by exact Hasn.
    replace (blen pre + 4) with (blen (pre ++ to_be 4 asn)) by (rewrite blen_app, blen_to_be; lia).
    rewrite IH by (rewrite Hb, <- !app_assoc; done). do 3 f_equal; [rewrite blen_app, blen_to_be, blen_cons; lia|].
    by rewrite <- app_assoc.
Qed.

Lemma as_path_loop buf segs pre result fuel :
  Forall segment_wf segs -> buf = pre ++ (segs ≫= encode_segment) -> (length segs < fuel)%nat ->
  loop fuel (as_path_step buf) (blen pre, result) = Ok (result ++ (segs ≫= snd)).
Proof.
  intros Hs. revert pre result fuel. induction Hs as [|[ty asns] segs (Hty & Hn & Ha) _ IH]; intros pre result fuel Hb Hf;
    (destruct fuel as [|fuel]; [simpl in Hf; lia|]); rewrite loop_S; unfold as_path_step at 1.
  - rewrite Hb. cbn [mbind list_bind]. rewrite app_nil_r, (proj2 (Z.leb_gt _ _)) by lia. by rewrite app_nil_r.
  - cbn [fst snd] in *. rewrite bind_cons in Hb. change (encode_segment (ty, asns)) with (as_u8 ty :: as_u8 (blen asns) :: (asns ≫= to_be 4)) in Hb.
    pose proof (blen_nonneg asns) as Hna. pose proof (blen_nonneg (segs ≫= encode_segment)) as Hrest.
    assert (blen buf = blen pre + 2 + 4 * blen asns + blen (segs ≫= encode_segment)) as Hl.
    { rewrite Hb, !blen_app, !blen_cons, blen_to_be_bind. lia. }
    rewrite (proj2 (Z.leb_le _ _)) by lia.
    rewrite (idx_at buf (pre ++ [as_u8 ty]) (as_u8 (blen asns)) ((asns ≫= to_be 4) ++ (segs ≫= encode_segment)))
      by (rewrite ?Hb, ?blen_app, ?blen_cons, <- ?app_assoc; done).
    cbn [mbind outcome_bind]. rewrite u8_as_u8 by lia. rewrite (proj2 (Z.leb_le _ (Z.max _ _))) by lia.
    replace (Z.to_nat (blen asns)) with (length asns) by (unfold blen; lia).
    replace (blen pre + 2) with (blen (pre ++ [as_u8 ty; as_u8 (blen asns)])) by (rewrite blen_app, !blen_cons, blen_nil; lia).
    rewrite (segment_asns_encoded buf _ asns (segs ≫= encode_segment)) by (done || by rewrite Hb, <- !app_assoc).
    replace (blen (pre ++ [as_u8 ty; as_u8 (blen asns)]) + 4 * blen asns)
      with (blen (pre ++ as_u8 ty :: as_u8 (blen asns) :: (asns ≫= to_be 4)))
      by (rewrite !blen_app, !blen_cons, blen_nil, blen_to_be_bind; lia).
    rewrite IH; [by rewrite bind_cons, <- app_assoc|by rewrite Hb, <- !app_assoc|simpl in Hf; lia].
Qed.

Lemma parse_as_path_encoded segs : Forall segment_wf segs -> parse_as_path (segs ≫= encode_segment) = Ok (segs ≫= snd).
Proof.
  intros Hs. unfold parse_as_path. apply (as_path_loop _ segs [] []); [done|done|].
  pose proof (length_stream encode_segment segment_wf segs ltac:(done) Hs). lia.
Qed.

Lemma chunks_exact_encoded {A} (n : nat) (enc : A -> bytes) xs fuel :
  (0 < n)%nat -> (forall x, length (enc x) = n) -> (length (xs ≫= enc) <= fuel)%nat ->
  chunks_exact_fuel fuel n (xs ≫= enc) = enc <$> xs.
Proof.
  intros Hn Henc. revert fuel. induction xs as [|x xs IH]; intros fuel Hf; cbn [mbind list_bind fmap list_fmap].
  - destruct fuel; [done|]. cbn [chunks_exact_fuel length]. by rewrite (proj2 (Nat.ltb_lt 0 n)).
  - rewrite bind_cons, length_app, Henc in Hf. destruct fuel as [|fuel]; [lia|]. cbn [chunks_exact_fuel].
    rewrite (proj2 (Nat.ltb_ge _ _)) by (rewrite length_app, Henc; lia).
    rewrite take_app_length', drop_app_length' by (by rewrite Henc). f_equal. apply IH. lia.
Qed.

Lemma parse_communities_encoded cs : Forall (fun c => 0 <= c.1 < 65536 /\ 0 <= c.2 < 65536) cs ->
  parse_communities (cs ≫= (fun c => to_be 2 c.1 ++ to_be 2 c.2)) = (fun c => (fmt_dec c.1 ++ ":" ++ fmt_dec c.2)%string) <$> cs.
Proof.
  intros Hcs. unfold parse_communities, chunks_exact. rewrite chunks_exact_encoded; [|lia|intros; by rewrite length_app, !length_to_be|done].
  induction Hcs as [|c cs [H1 H2] _ IH]; [done|]. rewrite !fmap_cons, IH. f_equal. unfold format_community, num_at.
  rewrite drop_0. rewrite (take_app_length' (to_be 2 c.1)), (drop_app_length' (to_be 2 c.1)) by (by rewrite length_to_be).
  rewrite take_ge by (by rewrite length_to_be). by rewrite !be_to_be.
Qed.

(** *** The attributes *)

(** The state after the attributes [items]. *)
Definition said_state (items : list (Z * PathItem)) : PathState :=
  mkPathState (default ""%string (said_next_hop items)) (default [] (said_as_path items)) (default [] (said_communities items))
    (said_med items) (said_local_pref items) [] [].

Lemma last_of_snoc {A} (f : PathItem -> option A) items x :
  last_of f (items ++ [x]) = match f x.2 with Some y => Some y | None => last_of f items end.
Proof. unfold last_of. rewrite omap_app. cbn. destruct (f x.2); [by rewrite last_snoc|by rewrite app_nil_r]. Qed.

Lemma attribute_said items x : item_ok x ->
  attribute (item_code x.2) (item_value x.2) (said_state items) = Ok (said_state (items ++ [x])).
Proof.
  intros [Hw _]. unfold said_state, said_next_hop, said_as_path, said_communities, said_med, said_local_pref.
  rewrite !last_of_snoc. destruct (x.2) as [segs|addr|n|n|cs|code value]; cbn [item_code item_value attribute item_wf] in *.
  - by rewrite parse_as_path_encoded.
  - by rewrite Hw.
  - rewrite blen_to_be. cbn [Z.eqb Z.of_nat Pos.eqb Pos.of_succ_nat Pos.succ]. by rewrite be_to_be.
  - rewrite blen_to_be. cbn [Z.eqb Z.of_nat Pos.eqb Pos.of_succ_nat Pos.succ]. by rewrite be_to_be.
  - by rewrite parse_communities_encoded.
  - destruct Hw as [_ Hc]. rewrite !not_elem_of_cons in Hc. unfold attribute. repeat case_match; try done; subst; exfalso; tauto.
Qed.

Lemma handle_items items done_ : Forall item_ok items ->
  for_each ((fun x => mkWireAttribute x.1 (item_code x.2) (item_value x.2)) <$> items)
    (fun a => attribute (wa_type a) (wa_value a)) (said_state done_) = Ok (said_state (done_ ++ items)).
Proof.
  intros Hi. revert done_. induction Hi as [|x items Hx _ IH]; intros done_; [by rewrite app_nil_r|].
  rewrite fmap_cons. cbn [for_each wa_type wa_value]. rewrite attribute_said by done. cbn [mbind outcome_bind].
  rewrite IH. by rewrite <- app_assoc.
Qed.

Lemma parse_items items : Forall item_ok items -> parse_path_attributes (items ≫= encode_item) path_state_default = Ok (said_state items).
Proof.
  intros Hi. set (l := (fun x => mkWireAttribute x.1 (item_code x.2) (item_value x.2)) <$> items).
  assert (items ≫= encode_item = (l ≫= encode_attribute) ++ []) as ->.
  { rewrite app_nil_r. unfold l. clear. induction items as [|x items IH]; [done|]. rewrite fmap_cons, !bind_cons, IH. done. }
  rewrite parse_attributes_split; [|unfold l; apply Forall_fmap; eapply Forall_impl; [exact Hi|by intros x [_ ?]]|by left].
  change path_state_default with (said_state []). unfold l. by rewrite handle_items.
Qed.

Lemma parse_prefixes action ws : Forall (prefix_wf "ipv4-unicast") ws ->
  parse_nlri "ipv4-unicast" (ws ≫= encode_prefix) action = Ok (entry_of "ipv4-unicast" action <$> ws).
Proof. intros Hw. rewrite <- (app_nil_r (ws ≫= encode_prefix)). by rewrite parse_nlri_split. Qed.

Lemma parse_update_said withdrawn items announced :
  Forall (prefix_wf "ipv4-unicast") withdrawn -> Forall (prefix_wf "ipv4-unicast") announced -> Forall item_ok items ->
  blen (update_octets withdrawn items announced) <= 4077 ->
  parse_bgp_update (update_octets withdrawn items announced) = Ok (said_entries withdrawn items announced).
Proof.
  intros Hw Ha Hi Hl. unfold update_octets in *. set (w := withdrawn ≫= encode_prefix) in *. set (a := items ≫= encode_item) in *.
  set (n := announced ≫= encode_prefix) in *. set (payload := to_be 2 (blen w) ++ w ++ to_be 2 (blen a) ++ a ++ n) in *.
  pose proof (blen_nonneg w). pose proof (blen_nonneg a). pose proof (blen_nonneg n).
  assert (blen payload = 4 + blen w + blen a + blen n) as Hb by (unfold payload; rewrite !blen_app, !blen_to_be; lia).
  unfold parse_bgp_update. rewrite (proj2 (Z.ltb_ge _ _)) by lia.
  rewrite (be_at_at 2 payload [] (to_be 2 (blen w)) (w ++ to_be 2 (blen a) ++ a ++ n)) by (done || apply blen_to_be).
  cbn [mbind outcome_bind]. rewrite be_to_be by lia. cbn zeta. rewrite (proj2 (Z.ltb_ge _ _)) by lia.
  rewrite (slice_at payload (to_be 2 (blen w)) w (to_be 2 (blen a) ++ a ++ n)) by (done || (rewrite ?blen_to_be; lia)).
  cbn [mbind outcome_bind]. rewrite (parse_prefixes "withdraw" withdrawn Hw : parse_nlri _ w _ = _). cbn [mbind outcome_bind].
  rewrite (proj2 (Z.ltb_ge _ _)) by lia.
  rewrite (be_at_at 2 payload (to_be 2 (blen w) ++ w) (to_be 2 (blen a)) (a ++ n))
    by (unfold payload; rewrite ?blen_app, ?blen_to_be, <- ?app_assoc; done || lia).
  cbn [mbind outcome_bind]. rewrite be_to_be by lia. rewrite (proj2 (Z.ltb_ge _ _)) by lia.
  rewrite (slice_at payload (to_be 2 (blen w) ++ w ++ to_be 2 (blen a)) a n)
    by (unfold payload; rewrite ?blen_app, ?blen_to_be, <- ?app_assoc; done || lia).
  cbn [mbind outcome_bind]. rewrite (parse_items items Hi : parse_path_attributes a _ = _). cbn [mbind outcome_bind].
  replace payload with ((to_be 2 (blen w) ++ w ++ to_be 2 (blen a) ++ a) ++ n) by (unfold payload; by rewrite <- !app_assoc).
  rewrite slice_from_app by (rewrite !blen_app, !blen_to_be; lia). cbn [mbind outcome_bind].
  rewrite (parse_prefixes "announce" announced Ha : parse_nlri _ n _ = _). cbn [mbind outcome_bind said_state ps_mp_reach ps_mp_unreach].
  rewrite fmap_nil, !app_nil_r, fmap_app, <- !list_fmap_compose. done.
Qed.

(** Claim C10: what an IPv4 UPDATE says is what the receiver reports.  Take any
    withdrawn and announced IPv4 prefixes and any path attributes in any order
    (AS_PATH with AS numbers of four octets, NEXT_HOP, MULTI_EXIT_DISC,
    LOCAL_PREF, COMMUNITIES and attributes that are not used; no multiprotocol,
    extended or large ones), repeated or not, within the size of a BGP message.
    The Route Monitoring message that carries the UPDATE, behind any per-peer
    header, gives an event with an entry for each prefix, in order: the
    withdrawn ones bare, the announced ones with the path of the attributes,
    where of each kind the last counts. *)
Theorem receiver_update_roundtrip now header withdrawn items announced peer :
  blen header = 42 -> Forall (prefix_wf "ipv4-unicast") withdrawn -> Forall (prefix_wf "ipv4-unicast") announced ->
  Forall item_ok items -> blen (update_octets withdrawn items announced) <= 4077 ->
  exists e, parse_bmp_message now 0 (header ++ bgp_message (update_octets withdrawn items announced)) peer = Ok e /\
    route_entries e = said_entries withdrawn items announced /\ timestamp_ns e = now /\ collector_peer e = peer.
Proof.
  intros Hh Hw Ha Hi Hl. pose proof (parse_update_said withdrawn items announced Hw Ha Hi Hl) as Hp.
  destruct (parse_monitoring now header (update_octets withdrawn items announced) peer Hh) as [ph Hm].
  { split; [|done]. unfold update_octets. rewrite !blen_app, !blen_to_be. pose proof (blen_nonneg (withdrawn ≫= encode_prefix)).
    pose proof (blen_nonneg (items ≫= encode_item)). pose proof (blen_nonneg (announced ≫= encode_prefix)). lia. }
  rewrite Hm, Hp. eexists. split; [done|]. done.
Qed.

(** ** The two BMP parsers of the system agree

    The collector ([rbmp-core]) and the receiver of the server parse the same
    messages on their own. *)

(** Both fail, or both succeed with related results. *)
Definition agree {E1 E2 A B} (R : A -> B -> Prop) (o1 : Outcome E1 A) (o2 : Outcome E2 B) : Prop :=
  match o1, o2 with
  | Ok a, Ok b => R a b
  | Err _, Err _ | Panic, Panic | Diverge, Diverge => True
  | _, _ => False
  end.

Lemma agree_bind {E1 E2 A B A' B'} (R : A -> B -> Prop) (R' : A' -> B' -> Prop) (o1 : Outcome E1 A) (o2 : Outcome E2 B) f g :
  agree R o1 o2 -> (forall a b, R a b -> agree R' (f a) (g b)) -> agree R' (o1 ≫= f) (o2 ≫= g).
Proof. intros Ho Hf. destruct o1, o2; cbn in *; auto; done. Qed.

Section TlvAgree.
Context {A B : Type} (truncated tail : string).
Context (body1 : Z -> bytes -> A -> Parse A) (body2 : Z -> bytes -> B -> Outcome CoreError.Error B) (R : A -> B -> Prop).
Hypothesis Hbody : forall ty v a b, R a b -> agree R (body1 ty v a) (body2 ty v b).

Lemma tlv_loops_agree payload fuel pos a b :
  0 <= pos <= blen payload -> R a b ->
  agree R
    ('(cursor, s) ← loop fuel (message_tlv_step truncated body1 payload) (pos, a);
     if negb (cursor =? blen payload) then Err tail else Ok s)
    (loop fuel (strict_tlv_step body2 payload) (pos, b)).
Proof.
  revert pos a b. induction fuel as [|fuel IH]; intros pos a b Hp HR; [done|]. rewrite !loop_S.
  unfold message_tlv_step at 1, strict_tlv_step at 1.
  destruct (Z.leb_spec (pos + 4) (blen payload)) as [H4|H4].
  - rewrite (proj2 (Z.ltb_lt pos _)), (proj2 (Z.ltb_ge _ _)) by lia. unfold be_at. rewrite !slice_ok by lia.
    cbn [fmap outcome_fmap mbind outcome_bind]. set (n := be (take (Z.to_nat (pos + 2 + 2 - (pos + 2))) _)).
    assert (0 <= n) as Hn by apply be_bounds.
    destruct (Z.ltb_spec (blen payload) (pos + 4 + n)); [done|]. rewrite !slice_ok by lia. cbn [mbind outcome_bind].
    match goal with |- context [body1 ?ty ?v a] => pose proof (Hbody ty v a b HR) as Hab;
      destruct (body1 ty v a) as [a'| | |], (body2 ty v b) as [b'| | |] end; try done.
    cbn [mbind outcome_bind]. apply IH; [lia|done].
  - cbn [mbind outcome_bind]. destruct (Z.eqb_spec pos (blen payload)) as [->|Hne].
    + by rewrite Z.ltb_irrefl.
    + by rewrite (proj2 (Z.ltb_lt pos _)), (proj2 (Z.ltb_lt _ _)) by lia.
Qed.

Lemma tlvs_agree payload a b :
  R a b -> agree R (message_tlvs truncated tail body1 payload a) (strict_tlv_loop body2 payload b).
Proof. intros HR. apply tlv_loops_agree; [pose proof (blen_nonneg payload); lia|done]. Qed.

End TlvAgree.

(** The fields of an Initiation, and the TLVs the collector lists. *)
Definition same_initiation (f : InitiationFields) (infos : list InitiationInfo) : Prop :=
  let '(name, descr, labels) := foldl apply_info (None, None, []) infos in
  in_sys_name f = name /\ in_sys_descr f = descr /\ in_admin f = last labels.

Lemma initiation_tlvs_agree payload : agree same_initiation (initiation_tlvs payload) (parse_initiation_tlvs payload).
Proof.
  apply tlvs_agree; [|done]. intros ty v f infos. unfold same_initiation, initiation_field, initiation_info, agree.
  rewrite foldl_app. cbn [foldl]. destruct (foldl apply_info _ infos) as [[name descr] labels].
  intros (Hn & Hd & Ha). destruct ty as [|[p|[p|p|]|]|p]; cbn; rewrite ?last_snoc; done.
Qed.

Definition same_termination (f : TerminationFields) (r : Z * option string) : Prop :=
  default 0 (tm_reason f) = r.1 /\ tm_message f = r.2.

Lemma termination_tlvs_agree payload : agree same_termination (termination_tlvs payload) (strict_tlv_loop termination_tlv payload (0, None)).
Proof.
  apply tlvs_agree; [|done]. intros ty v f [code text] [Hc Ht]. simpl in Hc, Ht.
  unfold termination_field, termination_tlv. destruct ty as [|[p|p|]|]; try done.
  unfold agree. destruct (blen v =? 2) eqn:Hl; [|done]. cbn [negb]. unfold be_at. rewrite !slice_ok by lia. done.
Qed.

Definition rib_type_name (r : RibType) : string :=
  match r with
  | Rib_AdjRibInPrePolicy => "adj-rib-in-pre-policy"
  | Rib_AdjRibInPostPolicy => "adj-rib-in-post-policy"
  | Rib_AdjRibOutPrePolicy => "adj-rib-out-pre-policy"
  | Rib_AdjRibOutPostPolicy => "adj-rib-out-post-policy"
  | Rib_LocRib => "loc-rib"
  | Rib_LocRibFiltered => "loc-rib-filtered"
  end.

(** What an event of the receiver and a payload of the collector share. *)
Definition same_message `{Crates.Chrono} (e : BmpEvent) (p : BmpPayload) : Prop :=
  match p with
  | Bmp_Initiation name descr labels =>
      message_type e = "initiation"%string /\ sys_name e = name /\ sys_descr e = descr /\ init_admin_string e = last labels
  | Bmp_Termination code text =>
      message_type e = "termination"%string /\ default 0 (termination_reason e) = code /\ termination_message e = text
  | _ => False
  end.

(** The server's receiver and the collector, which parse BMP on their
    own, accept the same Initiation and Termination messages and read the same
    system name, description, reason and text from them (of several free-form
    strings the receiver keeps the last). *)
Theorem receivers_agree `{Crates.Chrono} now peer payload :
  agree same_message (parse_bmp_message now 4 payload peer) (parse_initiation payload) /\
  agree same_message (parse_bmp_message now 5 payload peer) (parse_termination payload).
Proof.
  split.
  - eapply agree_bind; [apply initiation_tlvs_agree|]. intros f infos. unfold same_initiation.
    by destruct (foldl apply_info _ infos) as [[name descr] labels].
  - eapply agree_bind; [apply termination_tlvs_agree|]. by intros f [code text].
Qed.

(** The two classifications of a RIB view coincide on the peer types the
    collector knows. *)
Lemma classify_rib_type_agrees pt flags ty :
  peer_type_try_from pt = Ok ty -> classify_rib_type pt flags = rib_type_name (rib_type_from_peer ty (mkPeerFlags flags)).
Proof.
  unfold peer_type_try_from, classify_rib_type, rib_type_from_peer, flags_filtered, flags_adj_rib_out, flags_post_policy.
  cbn [peer_flags_bits]. intros Ht. destruct pt as [|[[]|[]|]|]; simplify_eq; cbn [Z.eqb Pos.eqb]; by repeat case_if.
Qed.

(** ** Concrete messages *)

(** A Peer Down of reason 3, a message of unknown type, and an Initiation. *)
Definition three_messages : list (Z * bytes) :=
  [(2, replicate 42 Byte.x00 ++ bs [3]); (9, replicate 42 Byte.x00); (4, bs [0; 2; 0; 2; 114; 49])].

Definition lab_targets : list TargetEntry := target_map_new [mkTarget "10.0.0.1:57400" [] (Some "r1"%string) None None None].

Lemma three_messages_wf : Forall (frame_wf 4096) three_messages.
Proof. repeat constructor; simpl; unfold blen; simpl; lia. Qed.

(** The device and the path of what was published. *)
Definition summary (r : list Published * ConnectionEnd) : list (string * string) :=
  map (fun p : Published => (rt_hostname p.1.1, p.1.2)) r.1.

(** The unknown message is skipped and the Initiation behind it published. *)
Lemma connection_serves_frames_witness :
  option_map summary
    (connection read_octets 4096 (fun _ => 7) (fun _ => false) "10.0.0.1:40000" lab_targets 4
      (three_messages ≫= encode_frame) []) =
  Some [("r1", "streaming/bmp/peer-down"); ("r1", "streaming/bmp/initiation")]%string.
Proof.
  rewrite (connection_serves_frames 4096 (fun _ => 7) (fun _ => false) "10.0.0.1:40000" lab_targets three_messages 4);
    [by vm_compute|apply three_messages_wf|simpl; lia].
Defined.

(** An MP_REACH_NLRI of IPv6 with a prefix of 129 bits. *)
Definition overlong_value : bytes := bs [0; 2; 1] ++ as_u8 0 :: [] ++ Byte.x00 :: (bs [129] ++ replicate 17 Byte.x20).

Lemma overlong_value_hostile : hostile_value 14 overlong_value.
Proof.
  left. split; [done|]. exists [], Byte.x00, (bs [129] ++ replicate 17 Byte.x20). split; [done|]. split; [done|].
  exists [], (bs [129] ++ replicate 17 Byte.x20). split_and!; [done..|]. by vm_compute.
Qed.

Lemma hostile_update_ends_connection_witness :
  exists ps, connection read_octets 4096 (fun _ => 7) (fun _ => false) "10.0.0.1:40000" lab_targets 5
      ((take 1 three_messages ++ (0, monitoring_payload (replicate 42 Byte.x00)
          (encode_attribute (mkWireAttribute 0x80 14 overlong_value))) :: drop 1 three_messages) ≫= encode_frame) [] =
    Some (ps, End_Panicked) /\ (length ps <= 1)%nat.
Proof.
  apply (hostile_update_ends_connection 4096 (fun _ => 7) (fun _ => false) "10.0.0.1:40000" lab_targets
           (replicate 42 Byte.x00) (encode_attribute (mkWireAttribute 0x80 14 overlong_value)) (take 1 three_messages)).
  - done.
  - by vm_compute.
  - exists [], path_state_default, (mkWireAttribute 0x80 14 overlong_value), []. rewrite app_nil_r.
    split_and!; [done| |done|apply overlong_value_hostile]. apply Forall_singleton. by vm_compute.
  - repeat constructor; vm_compute; done.
  - simpl. lia.
Defined.

(** The octets of an UPDATE with these attributes and this NLRI. *)
Definition sample_update (attrs nlri : bytes) : bytes := update_body attrs ++ nlri.

(** The next hop of an IPv4 route is the one of MP_REACH_NLRI, not its own
    NEXT_HOP, when the MP_REACH_NLRI comes behind. *)
Example mp_reach_replaces_next_hop :
  option_map (map re_next_hop)
     (match parse_bgp_update (sample_update
       (encode_attribute (mkWireAttribute 0x40 3 (bs [10; 0; 0; 1])) ++
        encode_attribute (mkWireAttribute 0x80 14 (bs [0; 2; 1; 16] ++ replicate 15 Byte.x20 ++ bs [1; 0; 8; 32])))
       (bs [8; 10])) with Ok es => Some es | _ => None end) =
  Some ["2020:2020:2020:2020:2020:2020:2020:2001"; "2020:2020:2020:2020:2020:2020:2020:2001"]%string.
Proof. by vm_compute. Qed.

(** Two segments of one 2-octet AS number each (100 and 200) are read as one
    AS number of 4 octets that spans the header of the second. *)
Example as_path_width_guess : parse_as_path (bs [2; 1; 0; 100; 1; 1; 0; 200]) = Ok [0x640101].
Proof. by vm_compute. Qed.

(** Communities drop the extended communities read before them. *)
Example communities_drop_extended :
  option_map ps_communities
     (match parse_path_attributes
       (encode_attribute (mkWireAttribute 0xc0 16 (bs [0; 2; 0; 1; 0; 0; 0; 2])) ++
        encode_attribute (mkWireAttribute 0xc0 8 (bs [0; 3; 0; 4]))) path_state_default with Ok st => Some st | _ => None end)
  = Some ["3:4"]%string.
Proof. by vm_compute. Qed.

(** An IPv4 prefix of 200 bits is accepted. *)
Example v4_prefix_len_unchecked :
  parse_nlri "ipv4-unicast" (bs [200] ++ replicate 25 Byte.x0a) "announce" =
  Ok [mkRouteEntry "ipv4-unicast" "10.10.10.10" 200 "announce" "" [] [] None None].
Proof. by vm_compute. Qed.

(** Two prefixes, of which one is withdrawn; the second MED counts. *)
Definition sample_items : list (Z * PathItem) :=
  [(0x40, PI_AsPath [(2, [65001; 4200000000])]); (0x80, PI_Med 5); (0x40, PI_NextHop (bs [10; 0; 0; 1]));
   (0xd0, PI_Communities [(65001, 7)]); (0x80, PI_Med 9); (0x40, PI_Other 1 (bs [0]))].

Lemma sample_items_ok : Forall item_ok sample_items.
Proof.
  assert (forall x, item_wf x.2 -> (0 <=? x.1) && (x.1 <? 256) && (0 <=? item_code x.2) && (item_code x.2 <? 256) &&
    (blen (item_value x.2) <? 256) = true -> item_ok x) as Hok.
  { intros x Hw Hb. split; [done|]. unfold wire_attribute_wf. cbn [wa_flags wa_type wa_value]. case_if; lia. }
  unfold sample_items. repeat apply Forall_cons_2; [..|apply Forall_nil_2]; (apply Hok; [|by vm_compute]); cbn [item_wf snd].
  - apply Forall_cons_2; [|apply Forall_nil_2]. split_and!; [done..|]. repeat apply Forall_cons_2; [lia|lia|apply Forall_nil_2].
  - lia.
  - done.
  - apply Forall_cons_2; [|apply Forall_nil_2]. cbn. lia.
  - lia.
  - split; [lia|]. rewrite !not_elem_of_cons. split_and!; try lia. apply not_elem_of_nil.
Qed.

Lemma receiver_update_roundtrip_witness :
  exists e, parse_bmp_message 7 0 (replicate 42 Byte.x00 ++ bgp_message (update_octets [mkPrefix 8 (bs [11])] sample_items
      [mkPrefix 24 (bs [10; 1; 2])])) "peer" = Ok e /\
    route_entries e =
      [mkRouteEntry "ipv4-unicast" "11.0.0.0" 8 "withdraw" "" [] [] None None;
       mkRouteEntry "ipv4-unicast" "10.1.2.0" 24 "announce" "10.0.0.1" [65001; 4200000000] ["65001:7"] (Some 9) None]%string.
Proof.
  destruct (receiver_update_roundtrip 7 (replicate 42 Byte.x00) [mkPrefix 8 (bs [11])] sample_items [mkPrefix 24 (bs [10; 1; 2])] "peer")
    as (e & He & Hr & _).
  - reflexivity.
  - repeat constructor; vm_compute; congruence.
  - repeat constructor; vm_compute; congruence.
  - apply sample_items_ok.
  - vm_compute. congruence.
  - exists e. split; [exact He|]. rewrite Hr. vm_compute. reflexivity.
Defined.
