(* ===== verification/Sflow.v ===== *)
(** * The sFlow receiver ([src/streaming/sflow.rs])

    An sFlow v5 datagram holds samples, a sample holds records; flow records and
    interface counters are published on the telemetry bus.  The rates of a
    published flow, products in floating point, are left out. *)

From Stdlib Require Import ZArith Lia ZifyBool.
From stdpp Require Import base numbers list option strings.
From S2P Require Import Prelude RustStd Netflow.

Local Open Scope Z_scope.

Definition SFLOW_VERSION : Z := 5.
Definition ADDR_TYPE_IPV4 : Z := 1.
Definition SAMPLE_FLOW : Z := 1.
Definition SAMPLE_COUNTER : Z := 2.
Definition FLOW_DATA_RAW_PACKET : Z := 1.
Definition FLOW_DATA_IPV4 : Z := 3.
Definition COUNTER_GENERIC_INTERFACE : Z := 1.

Declare Scope sflow_scope.

Notation Sf A := (Outcome string A).

(** ** Reads *)

Definition read_u32 (data : bytes) (offset : Z) : Sf Z :=
  if blen data <? offset + 4 then Err ("read_u32 out of bounds at " ++ fmt_dec offset)%string else be_at 4 data offset.

Definition read_u32_bytes (data : bytes) (offset : Z) : Sf bytes :=
  if blen data <? offset + 4 then Err ("read_u32_bytes out of bounds at " ++ fmt_dec offset)%string
  else slice data offset (offset + 4).

Definition read_u64 (data : bytes) (offset : Z) : Sf Z :=
  if blen data <? offset + 8 then Err ("read_u64 out of bounds at " ++ fmt_dec offset)%string else be_at 8 data offset.

(** [r.ok()?] in a function that returns an option. *)
Definition ok_or_none {A B} (r : Sf A) (k : A -> Sf (option B)) : Sf (option B) :=
  match r with Ok a => k a | Err _ => Ok None | Panic => Panic | Diverge => Diverge end.

Notation "x ←? y ; z" := (ok_or_none y (fun x => z))
  (at level 20, y at level 100, z at level 200, only parsing) : sflow_scope.
Local Open Scope sflow_scope.

(** ** Records *)

Record SampledFlow := mkSampledFlow {
  sf_src_address : string;
  sf_dst_address : string;
  sf_src_port : Z;
  sf_dst_port : Z;
  sf_protocol : Z;
  frame_length : Z;
  sf_tcp_flags : Z;
  icmp_type : Z;
  icmp_code : Z;
}.

Record InterfaceCounters := mkCounters {
  if_index : Z;
  if_in_octets : Z;
  if_out_octets : Z;
  if_in_errors : Z;
  if_out_errors : Z;
  if_in_discards : Z;
  if_out_discards : Z;
  if_speed : Z;
}.

(** The ports and flags behind an IPv4 header of [ihl] octets. *)
Definition transport_fields (ip : bytes) (ihl protocol : Z) : Sf (Z * Z * (Z * Z * Z)) :=
  if ihl + 4 <=? blen ip then
    t ← slice_from ip ihl;
    sp ← be_at 2 t 0;
    dp ← be_at 2 t 2;
    flags ← (if (protocol =? 6) && (14 <=? blen t) then f ← idx t 13; Ok (f, 0, 0)
             else if (protocol =? 1) && (2 <=? blen t) then ty ← idx t 0; code ← idx t 1; Ok (0, ty, code)
             else Ok (0, 0, 0));
    Ok (sp, dp, flags)
  else Ok (0, 0, (0, 0, 0)).

(** [None] is the [None] of the source; [((ip[0] & 0x0F) * 4)] is at most 60. *)
Definition parse_ipv4_header (ip : bytes) (frame_length : Z) : Sf (option SampledFlow) :=
  if blen ip <? 20 then Ok None
  else
    b0 ← idx ip 0;
    let ihl := Z.land b0 0x0F * 4 in
    protocol ← idx ip 9;
    src ← slice ip 12 16;
    dst ← slice ip 16 20;
    '(src_port, dst_port, (tcp_flags, icmp_type, icmp_code)) ← transport_fields ip ihl protocol;
    Ok (Some (mkSampledFlow (ipv4_to_string src) (ipv4_to_string dst) src_port dst_port protocol frame_length tcp_flags
                icmp_type icmp_code)).

Definition parse_raw_packet_header (data : bytes) : Sf (option SampledFlow) :=
  if blen data <? 16 then Ok None
  else
    header_protocol ←? read_u32 data 0;
    frame_length ←? read_u32 data 4;
    _stripped ←? read_u32 data 8;
    header_size ←? read_u32 data 12;
    if blen data <? 16 + header_size then Ok None
    else
      header ← slice data 16 (16 + header_size);
      if header_protocol =? 1 then
        if blen header <? 34 then Ok None
        else
          ethertype ← be_at 2 header 12;
          if negb (ethertype =? 0x0800) then Ok None
          else ip ← slice_from header 14; parse_ipv4_header ip frame_length
      else Ok None.

Definition extract_transport_flags (protocol flags_word src_port : Z) : Z * Z * Z :=
  match protocol with
  | 6 => (flags_word, 0, 0)
  | 1 => (0, Z.shiftr src_port 8 mod 256, Z.land src_port 0xFF)
  | _ => (0, 0, 0)
  end.

(** [as u8] and [as u16] *)
Definition parse_ipv4_sampled_header (data : bytes) : Sf (option SampledFlow) :=
  if blen data <? 32 then Ok None
  else
    frame_length ←? read_u32 data 0;
    protocol ←? read_u32 data 4;
    let protocol := protocol mod 2 ^ 8 in
    src ←? read_u32_bytes data 8;
    dst ←? read_u32_bytes data 12;
    src_port ←? read_u32 data 16;
    let src_port := src_port mod 2 ^ 16 in
    dst_port ←? read_u32 data 20;
    let dst_port := dst_port mod 2 ^ 16 in
    word ←? read_u32 data 24;
    let '(tcp_flags, icmp_type, icmp_code) := extract_transport_flags protocol (word mod 2 ^ 8) src_port in
    Ok (Some (mkSampledFlow (ipv4_to_string src) (ipv4_to_string dst) src_port dst_port protocol frame_length tcp_flags
                icmp_type icmp_code)).

Definition parse_generic_interface_counters (data : bytes) : Sf (option InterfaceCounters) :=
  if blen data <? 88 then Ok None
  else
    if_index ←? read_u32 data 0;
    if_speed ←? read_u64 data 8;
    in_octets ←? read_u64 data 24;
    in_discards ←? read_u32 data 36;
    in_errors ←? read_u32 data 40;
    out_octets ←? read_u64 data 56;
    out_discards ←? read_u32 data 68;
    out_errors ←? read_u32 data 72;
    Ok (Some (mkCounters if_index in_octets out_octets in_errors out_errors in_discards out_discards if_speed)).

Definition classify_tcp_flags_sflow (flags protocol : Z) : string :=
  if negb (protocol =? 6) then ""
  else
    let f := Z.land flags 0x3F in
    if f =? 0x02 then "SYN_ONLY"
    else if f =? 0x12 then "SYN_ACK"
    else if bit_set f 0x04 && negb (bit_set f 0x02) then "RST_FLOOD"
    else if f =? 0x10 then "ACK_FLOOD"
    else if f =? 0x01 then "FIN_FLOOD"
    else if bit_set f 0x02 then "SYN_MIX"
    else "ESTABLISHED".

(** ** The bus *)

Inductive SflowUpdate :=
| Update_Flow (target : string) (flow : SampledFlow) (sampling_rate : Z) (proto pattern vector : string)
| Update_Counters (target : string) (counters : InterfaceCounters).

Notation SflowBus := (list SflowUpdate).

Definition publish_sampled (agent_addr : string) (sampling_rate : Z) (flow : SampledFlow) (bus : SflowBus) : SflowBus :=
  bus ++ [Update_Flow agent_addr flow sampling_rate (protocol_name (sf_protocol flow))
            (classify_tcp_flags_sflow (sf_tcp_flags flow) (sf_protocol flow))
            (classify_amplification_vector (sf_protocol flow) (sf_dst_port flow))].

Definition publish_counters (agent_addr : string) (c : InterfaceCounters) (bus : SflowBus) : SflowBus :=
  bus ++ [Update_Counters agent_addr c].

(** ** Samples

    The datagram, a flow sample and a counter sample are walked by three copies
    of one loop, which differ in what they do with a record.  The state is the
    number of records left, the offset and the bus. *)
Section Records.
Context (body : Z -> Z -> bytes -> SflowBus -> Sf SflowBus).

Definition record_step (data : bytes) (st : Z * (Z * SflowBus)) : Sf ((Z * (Z * SflowBus)) + SflowBus) :=
  let '(offset, (left_, bus)) := st in
  if left_ <=? 0 then Ok (inr bus)
  else if blen data <? offset + 8 then Ok (inr bus)
  else
    enterprise_format ← read_u32 data offset;
    record_len ← read_u32 data (offset + 4);
    let offset := offset + 8 in
    if (record_len =? 0) || (blen data <? offset + record_len) then Ok (inr bus)
    else
      record_data ← slice data offset (offset + record_len);
      bus ← body (Z.shiftr enterprise_format 12) (Z.land enterprise_format 0x0FFF) record_data bus;
      Ok (inl (offset + record_len, (left_ - 1, bus))).

Definition records_loop (data : bytes) (offset num_records : Z) (bus : SflowBus) : Sf SflowBus :=
  loop (S (length data)) (record_step data) (offset, (num_records, bus)).

End Records.

Definition publish_some {A} (publish : A -> SflowBus -> SflowBus) (r : Sf (option A)) (bus : SflowBus) : Sf SflowBus :=
  r ← r; match r with Some a => Ok (publish a bus) | None => Ok bus end.

Definition flow_record (agent_addr : string) (sampling_rate enterprise format : Z) (record_data : bytes) (bus : SflowBus)
    : Sf SflowBus :=
  if enterprise =? 0 then
    if format =? FLOW_DATA_RAW_PACKET then
      publish_some (publish_sampled agent_addr sampling_rate) (parse_raw_packet_header record_data) bus
    else if format =? FLOW_DATA_IPV4 then
      publish_some (publish_sampled agent_addr sampling_rate) (parse_ipv4_sampled_header record_data) bus
    else Ok bus
  else Ok bus.

Definition parse_flow_sample (data : bytes) (agent_addr : string) (bus : SflowBus) : Sf SflowBus :=
  if blen data <? 32 then Err "flow sample too short"%string
  else
    sampling_rate ← read_u32 data 8;
    num_records ← read_u32 data 28;
    records_loop (flow_record agent_addr sampling_rate) data 32 num_records bus.

Definition counter_record (agent_addr : string) (enterprise format : Z) (record_data : bytes) (bus : SflowBus)
    : Sf SflowBus :=
  if (enterprise =? 0) && (format =? COUNTER_GENERIC_INTERFACE)
  then publish_some (publish_counters agent_addr) (parse_generic_interface_counters record_data) bus
  else Ok bus.

Definition parse_counter_sample (data : bytes) (agent_addr : string) (bus : SflowBus) : Sf SflowBus :=
  if blen data <? 12 then Err "counter sample too short"%string
  else
    num_records ← read_u32 data 8;
    records_loop (counter_record agent_addr) data 12 num_records bus.

(** An error of a sample is logged; it comes before anything is published. *)
Definition logged (r : Sf SflowBus) (bus : SflowBus) : Sf SflowBus :=
  match r with Err _ => Ok bus | r => r end.

Definition sample (agent_addr : string) (enterprise format : Z) (sample_data : bytes) (bus : SflowBus) : Sf SflowBus :=
  if enterprise =? 0 then
    if format =? SAMPLE_FLOW then logged (parse_flow_sample sample_data agent_addr bus) bus
    else if format =? SAMPLE_COUNTER then logged (parse_counter_sample sample_data agent_addr bus) bus
    else Ok bus
  else Ok bus.

Definition handle_datagram (pkt : bytes) (bus : SflowBus) : Sf SflowBus :=
  if blen pkt <? 28 then Err "datagram too short"%string
  else
    version ← read_u32 pkt 0;
    if negb (version =? SFLOW_VERSION) then Err ("unsupported sflow version " ++ fmt_dec version)%string
    else
      addr_type ← read_u32 pkt 4;
      if negb (addr_type =? ADDR_TYPE_IPV4) then
        Err ("unsupported agent address type " ++ fmt_dec addr_type ++ " (only IPv4 supported)")%string
      else
        agent ← read_u32_bytes pkt 8;
        num_samples ← read_u32 pkt 24;
        records_loop (sample (ipv4_to_string agent)) pkt 28 num_samples bus.

(** ** Every datagram is handled *)

(** The run ends with a value that satisfies [Q]. *)
Definition total {A} (o : Sf A) (Q : A -> Prop) : Prop := exists a, o = Ok a /\ Q a.

Section Total.
Context {A B : Type}.

Lemma total_ok (a : A) (Q : A -> Prop) : Q a -> total (Ok a) Q.
Proof. by exists a. Qed.

Lemma total_bind (o : Sf A) (f : A -> Sf B) P Q : total o P -> (forall a, P a -> total (f a) Q) -> total (o ≫= f) Q.
Proof. intros (a & -> & Ha) Hf. by apply Hf. Qed.

Lemma total_ok_or_none (o : Sf A) (k : A -> Sf (option B)) P Q :
  total o P -> (forall a, P a -> total (k a) Q) -> total (ok_or_none o k) Q.
Proof. intros (a & -> & Ha) Hf. by apply Hf. Qed.

End Total.

Lemma total_be_at n b p : 0 <= n -> 0 <= p -> p + n <= blen b -> total (be_at n b p) (fun v => 0 <= v < 256 ^ n).
Proof.
  intros Hn Hp Hb. unfold be_at. rewrite slice_ok by lia. eexists. split; [done|].
  set (r := take _ _). pose proof (be_bounds r) as Hr. replace (blen r) with n in Hr; [done|].
  unfold r. rewrite blen_take; [lia|]. rewrite blen_drop; lia.
Qed.

Lemma total_idx b i : 0 <= i < blen b -> total (idx b i) (fun v => 0 <= v < 256).
Proof.
  intros Hi. unfold idx. rewrite (proj2 (Z.leb_le 0 i)), (proj2 (Z.ltb_lt i _)) by lia. cbn [andb].
  destruct (lookup_lt_is_Some_2 b (Z.to_nat i)) as [x Hx]; [unfold blen in *; lia|]. rewrite Hx.
  eexists. split; [done|apply u8_bounds].
Qed.

Lemma total_slice (b : bytes) i j : 0 <= i -> i <= j -> j <= blen b -> total (slice b i j) (fun r => blen r = j - i).
Proof. intros. rewrite slice_ok by lia. eexists. split; [done|]. rewrite blen_take; [lia|]. rewrite blen_drop; lia. Qed.

Lemma total_slice_from (b : bytes) i : 0 <= i <= blen b -> total (slice_from b i) (fun r => blen r = blen b - i).
Proof. intros. apply total_slice; lia. Qed.

Lemma total_read_u32 b p : 0 <= p -> p + 4 <= blen b -> total (read_u32 b p) (fun v => 0 <= v < 2 ^ 32).
Proof. intros. unfold read_u32. rewrite (proj2 (Z.ltb_ge _ _)) by lia. by apply (total_be_at 4). Qed.

Lemma total_read_u64 b p : 0 <= p -> p + 8 <= blen b -> total (read_u64 b p) (fun v => 0 <= v < 2 ^ 64).
Proof. intros. unfold read_u64. rewrite (proj2 (Z.ltb_ge _ _)) by lia. by apply (total_be_at 8). Qed.

Lemma total_read_u32_bytes b p : 0 <= p -> p + 4 <= blen b -> total (read_u32_bytes b p) (fun r => blen r = 4).
Proof.
  intros. unfold read_u32_bytes. rewrite (proj2 (Z.ltb_ge _ _)) by lia.
  destruct (total_slice b p (p + 4)) as (r & -> & Hr); [lia..|]. exists r. split; [done|lia].
Qed.

(** One read of a total run. *)
Ltac total_read :=
  first [eapply total_bind | eapply total_ok_or_none];
  [first [apply total_read_u32 | apply total_read_u64 | apply total_read_u32_bytes | apply total_be_at | apply total_idx
         | apply total_slice_from | apply total_slice]; lia|
   let v := fresh "v" in let Hv := fresh "Hv" in intros v Hv; cbv beta in Hv].

Definition flow_ok (f : SampledFlow) : Prop :=
  0 <= sf_src_port f < 2 ^ 16 /\ 0 <= sf_dst_port f < 2 ^ 16 /\ 0 <= sf_protocol f < 2 ^ 8 /\
  0 <= frame_length f < 2 ^ 32 /\ 0 <= sf_tcp_flags f < 2 ^ 8 /\ 0 <= icmp_type f < 2 ^ 8 /\ 0 <= icmp_code f < 2 ^ 8.

Definition optional {A} (P : A -> Prop) (o : option A) : Prop := match o with Some a => P a | None => True end.

Lemma total_transport_fields ip ihl protocol :
  0 <= ihl ->
  total (transport_fields ip ihl protocol) (fun r => 0 <= r.1.1 < 2 ^ 16 /\ 0 <= r.1.2 < 2 ^ 16 /\
    0 <= r.2.1.1 < 2 ^ 8 /\ 0 <= r.2.1.2 < 2 ^ 8 /\ 0 <= r.2.2 < 2 ^ 8).
Proof.
  intros Hi. unfold transport_fields. case_if; [|apply total_ok; simpl; lia].
  total_read. total_read. total_read.
  eapply (total_bind _ _ (fun r => 0 <= r.1.1 < 2 ^ 8 /\ 0 <= r.1.2 < 2 ^ 8 /\ 0 <= r.2 < 2 ^ 8)).
  - case_if; [total_read; apply total_ok; simpl; lia|]. case_if; [|apply total_ok; simpl; lia].
    total_read. total_read. apply total_ok. simpl. lia.
  - intros r Hr. apply total_ok. cbn [fst snd]. done.
Qed.

Lemma total_ipv4_header ip n : 0 <= n < 2 ^ 32 -> total (parse_ipv4_header ip n) (optional flow_ok).
Proof.
  intros Hn. unfold parse_ipv4_header. case_if; [by apply total_ok|]. total_read. cbn zeta. total_read. total_read. total_read.
  eapply total_bind; [apply total_transport_fields; pose proof (Z.land_nonneg v 15); lia|].
  intros [[sp dp] [[tf it] ic]] (? & ? & ? & ? & ?). apply total_ok. unfold optional, flow_ok. simpl in *. lia.
Qed.

Lemma total_raw_packet_header data : total (parse_raw_packet_header data) (fun r => optional flow_ok r /\ (blen data < 32 -> r = None)).
Proof.
  unfold parse_raw_packet_header. case_if; [by apply total_ok|]. do 4 total_read. case_if; [by apply total_ok|].
  total_read. case_if; [|by apply total_ok]. case_if; [by apply total_ok|]. total_read. case_if; [by apply total_ok|].
  total_read. destruct (total_ipv4_header v5 v0) as (r & -> & Hr); [done|]. exists r. split; [done|]. split; [done|lia].
Qed.

Lemma total_sampled_header data :
  total (parse_ipv4_sampled_header data) (fun r => optional flow_ok r /\ (blen data < 32 -> r = None)).
Proof.
  unfold parse_ipv4_sampled_header. case_if; [by apply total_ok|]. do 7 total_read. cbn zeta.
  destruct (extract_transport_flags _ _ _) as [[tf it] ic] eqn:Hx.
  apply total_ok. split; [|lia]. unfold optional, flow_ok. cbn [sf_src_port sf_dst_port sf_protocol frame_length sf_tcp_flags icmp_type icmp_code].
  pose proof (Z.mod_pos_bound v0 (2 ^ 8) eq_refl). pose proof (Z.mod_pos_bound v3 (2 ^ 16) eq_refl).
  pose proof (Z.mod_pos_bound v4 (2 ^ 16) eq_refl). split_and!; try lia.
  all: unfold extract_transport_flags in Hx; repeat case_match; simplify_eq; try lia.
  all: try (apply Z.mod_pos_bound; lia).
  all: change 0xFF with (Z.ones 8); rewrite Z.land_ones by lia; apply Z.mod_pos_bound; lia.
Qed.

Lemma total_counters data :
  total (parse_generic_interface_counters data) (fun r => blen data < 88 -> r = None).
Proof.
  unfold parse_generic_interface_counters. case_if; [by apply total_ok|]. do 8 total_read. apply total_ok. lia.
Qed.

(** What a datagram of [agent] may publish. *)
Definition update_ok (agent : string) (u : SflowUpdate) : Prop :=
  match u with
  | Update_Flow target flow _ _ _ _ => target = agent /\ flow_ok flow
  | Update_Counters target _ => target = agent
  end.

(** A body that succeeds, only appends, and publishes one update per 40 octets
    at most. *)
Definition body_ok (agent : string) (body : Z -> Z -> bytes -> SflowBus -> Sf SflowBus) : Prop :=
  forall e f d bus, exists new, body e f d bus = Ok (bus ++ new) /\ Forall (update_ok agent) new /\ 40 * blen new <= 8 + blen d.

Lemma body_nothing agent (d : bytes) (bus : SflowBus) :
  exists new, Ok bus = Ok (E := string) (bus ++ new) /\ Forall (update_ok agent) new /\ 40 * blen new <= 8 + blen d.
Proof. exists []. rewrite app_nil_r. split; [done|]. split; [done|]. pose proof (blen_nonneg d). unfold blen at 1. simpl. lia. Qed.

Lemma publish_some_ok {A} agent (publish : A -> SflowBus -> SflowBus) (r : Sf (option A)) (d : bytes) (bus : SflowBus) (P : A -> Prop) :
  total r (fun o => optional P o /\ (blen d < 32 -> o = None)) ->
  (forall a, P a -> exists u, publish a bus = bus ++ [u] /\ update_ok agent u) ->
  exists new, publish_some publish r bus = Ok (bus ++ new) /\ Forall (update_ok agent) new /\ 40 * blen new <= 8 + blen d.
Proof.
  intros (o & -> & Ho & Hn) Hp. unfold publish_some. cbn [mbind outcome_bind].
  destruct o as [a|]; [|apply body_nothing]. destruct (Hp a Ho) as (u & -> & Hu). exists [u].
  split; [done|]. split; [by constructor|]. change (blen [u]) with 1.
  destruct (Z.lt_ge_cases (blen d) 32) as [Hl|]; [by specialize (Hn Hl)|lia].
Qed.

Lemma flow_record_ok agent rate : body_ok agent (flow_record agent rate).
Proof.
  intros e f d bus. unfold flow_record. repeat case_if; try apply body_nothing.
  - apply (publish_some_ok _ _ _ _ _ flow_ok); [apply total_raw_packet_header|]. intros a Ha. by eexists.
  - apply (publish_some_ok _ _ _ _ _ flow_ok); [apply total_sampled_header|]. intros a Ha. by eexists.
Qed.

Lemma counter_record_ok agent : body_ok agent (counter_record agent).
Proof.
  intros e f d bus. unfold counter_record. case_if; [|apply body_nothing].
  apply (publish_some_ok _ _ _ _ _ (fun _ => True)).
  - destruct (total_counters d) as (o & -> & Ho). exists o. split; [done|]. split; [by destruct o|]. intros. apply Ho. lia.
  - intros a _. by eexists.
Qed.

Lemma records_loop_ok agent body data offset n bus :
  body_ok agent body -> 0 <= offset <= blen data ->
  exists new, records_loop body data offset n bus = Ok (bus ++ new) /\ Forall (update_ok agent) new /\
    40 * blen new <= blen data - offset.
Proof.
  intros Hbody Ho. unfold records_loop.
  assert (Z.to_nat (blen data - offset) < S (length data))%nat as Hf by (rewrite length_blen; lia). revert offset n bus Ho Hf. generalize (S (length data)) as fuel.
  induction fuel as [|fuel IH]; intros offset n bus Ho Hf; [lia|]. rewrite loop_S.
  assert (forall b : SflowBus, exists new, Ok b = Ok (E := string) (b ++ new) /\ Forall (update_ok agent) new /\
            40 * blen new <= blen data - offset) as Hstop
    by (intros b; exists []; rewrite app_nil_r; split_and!; [done|done|unfold blen at 1; simpl; lia]).
  unfold record_step at 1. case_if; [apply Hstop|]. case_if; [apply Hstop|].
  destruct (total_read_u32 data offset) as (ef & -> & Hef); [lia..|]. cbn [mbind outcome_bind].
  destruct (total_read_u32 data (offset + 4)) as (len & -> & Hlen); [lia..|]. cbn [mbind outcome_bind]. cbn zeta.
  case_if; [apply Hstop|].
  destruct (total_slice data (offset + 8) (offset + 8 + len)) as (rec & -> & Hrec); [lia..|]. cbn [mbind outcome_bind].
  destruct (Hbody (Z.shiftr ef 12) (Z.land ef 0x0FFF) rec bus) as (new & -> & Hn & Hl). cbn [mbind outcome_bind].
  destruct (IH (offset + 8 + len) (n - 1) (bus ++ new)) as (new' & -> & Hn' & Hl'); [lia|lia|].
  exists (new ++ new'). rewrite <- app_assoc. split_and!; [done|by apply Forall_app|]. rewrite blen_app. lia.
Qed.

(** A sample: the loop behind a header. *)
Lemma sample_records_ok agent body data offset n bus :
  body_ok agent body -> 0 <= offset <= blen data ->
  exists new, records_loop body data offset n bus = Ok (bus ++ new) /\ Forall (update_ok agent) new /\
    40 * blen new <= 8 + blen data.
Proof.
  intros Hb Ho. destruct (records_loop_ok agent body data offset n bus Hb Ho) as (new & -> & Hn & Hl).
  exists new. split_and!; [done|done|lia].
Qed.

Lemma sample_ok agent : body_ok agent (sample agent).
Proof.
  intros e f d bus. unfold sample. repeat case_if; try apply body_nothing.
  - unfold parse_flow_sample. case_if; [apply body_nothing|].
    destruct (total_read_u32 d 8) as (rate & -> & _); [lia..|]. cbn [mbind outcome_bind].
    destruct (total_read_u32 d 28) as (n & -> & _); [lia..|]. cbn [mbind outcome_bind].
    destruct (sample_records_ok agent (flow_record agent rate) d 32 n bus) as (new & -> & Hn); [apply flow_record_ok|lia|].
    by exists new.
  - unfold parse_counter_sample. case_if; [apply body_nothing|].
    destruct (total_read_u32 d 8) as (n & -> & _); [lia..|]. cbn [mbind outcome_bind].
    destruct (sample_records_ok agent (counter_record agent) d 12 n bus) as (new & -> & Hn); [apply counter_record_ok|lia|].
    by exists new.
Qed.

(** The header the receiver accepts. *)
Definition accepted (pkt : bytes) : Prop :=
  28 <= blen pkt /\ be (take 4 pkt) = SFLOW_VERSION /\ be (take 4 (drop 4 pkt)) = ADDR_TYPE_IPV4.

Lemma read_u32_at pkt p : 0 <= p -> p + 4 <= blen pkt -> read_u32 pkt p = Ok (be (take 4 (drop (Z.to_nat p) pkt))).
Proof.
  intros. unfold read_u32, be_at. rewrite (proj2 (Z.ltb_ge _ _)) by lia. rewrite slice_ok by lia.
  by replace (p + 4 - p) with 4 by lia.
Qed.

(** Every datagram is handled in finite time and without a panic.  It
    is refused, and nothing published, exactly when it is too short or its
    version or address type is not the supported one; otherwise the updates
    are appended to those before, all of them under the address of the agent
    in the header and with values of their widths, one per 40 octets of the
    datagram at most. *)
Theorem handle_datagram_total pkt bus :
  match handle_datagram pkt bus with
  | Ok bus' => accepted pkt /\ exists new, bus' = bus ++ new /\ 40 * blen new <= blen pkt - 28 /\
                 Forall (update_ok (ipv4_to_string (take 4 (drop 8 pkt)))) new
  | Err _ => ~ accepted pkt
  | _ => False
  end.
Proof.
  unfold handle_datagram, accepted. case_if; [lia|].
  rewrite !read_u32_at by lia. cbn [mbind outcome_bind]. change (drop (Z.to_nat 0) pkt) with pkt.
  destruct (Z.eqb_spec (be (take 4 pkt)) SFLOW_VERSION) as [Hv|]; cbn [negb]; [|tauto].
  change (drop (Z.to_nat 4) pkt) with (drop 4 pkt).
  destruct (Z.eqb_spec (be (take 4 (drop 4 pkt))) ADDR_TYPE_IPV4) as [Ha|]; cbn [negb]; [|tauto].
  unfold read_u32_bytes. rewrite (proj2 (Z.ltb_ge _ _)) by lia. rewrite slice_ok by lia. cbn [mbind outcome_bind].
  change (take (Z.to_nat (8 + 4 - 8)) (drop (Z.to_nat 8) pkt)) with (take 4 (drop 8 pkt)).
  set (agent := ipv4_to_string _).
  match goal with |- context [records_loop _ pkt 28 ?n bus] =>
    destruct (records_loop_ok agent (sample agent) pkt 28 n bus) as (new & -> & Hn & Hl); [apply sample_ok|lia|] end.
  split; [split_and!; [lia|done|done]|]. exists new. split_and!; [done|lia|done].
Qed.

(** ** Framing *)

(** A record on the wire: enterprise and format in one word, and its data. *)
Record WireRecord := mkWireRecord { wr_format : Z; wr_data : bytes }.

Definition wire_record_wf (r : WireRecord) : Prop := 0 <= wr_format r < 2 ^ 32 /\ 0 < blen (wr_data r) < 2 ^ 32.

Definition encode_record (r : WireRecord) : bytes := to_be 4 (wr_format r) ++ to_be 4 (blen (wr_data r)) ++ wr_data r.

Definition handle_record (body : Z -> Z -> bytes -> SflowBus -> Sf SflowBus) (r : WireRecord) : SflowBus -> Sf SflowBus :=
  body (Z.shiftr (wr_format r) 12) (Z.land (wr_format r) 0x0FFF) (wr_data r).

Lemma read_u32_parts (data pre post : bytes) v p :
  data = pre ++ to_be 4 v ++ post -> blen pre = p -> 0 <= v < 2 ^ 32 -> read_u32 data p = Ok v.
Proof.
  intros -> <- Hv. unfold read_u32. pose proof (blen_nonneg post).
  rewrite (proj2 (Z.ltb_ge _ _)) by (rewrite !blen_app, blen_to_be; lia).
  rewrite be_at_app by (done || apply blen_to_be). by rewrite be_to_be.
Qed.

Lemma records_loop_frames body pre rs tail bus fuel :
  Forall wire_record_wf rs -> (length rs < fuel)%nat ->
  loop fuel (record_step body (pre ++ (rs ≫= encode_record) ++ tail)) (blen pre, (blen rs, bus)) =
    for_each rs (handle_record body) bus.
Proof.
  intros Hrs. revert pre bus fuel. induction Hrs as [|r rs Hr Hrs IH]; intros pre bus fuel Hf;
    (destruct fuel as [|fuel]; [simpl in Hf; lia|]); rewrite loop_S; [done|].
  destruct r as [ef d], Hr as [Hef Hd]. cbn [wr_format wr_data] in *.
  rewrite bind_cons, blen_cons. pose proof (blen_nonneg rs). pose proof (blen_nonneg pre).
  assert (exists post, post = (rs ≫= encode_record) ++ tail) as [post Hpost] by by eexists.
  set (data := pre ++ _). assert (data = pre ++ to_be 4 ef ++ to_be 4 (blen d) ++ d ++ post) as Hdata
    by (unfold data, encode_record; rewrite Hpost; cbn [wr_format wr_data]; by rewrite <- !app_assoc).
  assert (blen data = blen pre + 8 + blen d + blen post) as Hlen by (rewrite Hdata, !blen_app, !blen_to_be; lia).
  pose proof (blen_nonneg post). unfold record_step at 1. rewrite (proj2 (Z.leb_gt _ _)), (proj2 (Z.ltb_ge _ _)) by lia.
  rewrite (read_u32_parts data pre (to_be 4 (blen d) ++ d ++ post) ef (blen pre)) by (done || lia). cbn [mbind outcome_bind].
  rewrite (read_u32_parts data (pre ++ to_be 4 ef) (d ++ post) (blen d) (blen pre + 4))
    by (rewrite ?blen_app, ?blen_to_be, <- ?app_assoc; done || lia). cbn [mbind outcome_bind]. cbn zeta.
  rewrite (proj2 (Z.eqb_neq _ _)), (proj2 (Z.ltb_ge _ _)) by lia. cbn [orb].
  rewrite (slice_at data (pre ++ to_be 4 ef ++ to_be 4 (blen d)) d post)
    by (rewrite ?blen_app, ?blen_to_be, <- ?app_assoc; done || lia). cbn [mbind outcome_bind for_each].
  change (handle_record body (mkWireRecord ef d) bus) with (body (Z.shiftr ef 12) (Z.land ef 4095) d bus).
  destruct (body (Z.shiftr ef 12) (Z.land ef 4095) d bus) as [bus'| | |]; cbn [mbind outcome_bind]; [|done..].
  specialize (IH (pre ++ encode_record (mkWireRecord ef d)) bus' fuel ltac:(simpl in Hf; lia)).
  rewrite <- IH. unfold data. rewrite <- !app_assoc. f_equal. f_equal; [|f_equal; lia].
  rewrite blen_app. unfold encode_record. cbn [wr_format wr_data]. rewrite !blen_app, !blen_to_be. lia.
Qed.

Lemma records_loop_encoded body pre rs tail bus :
  Forall wire_record_wf rs ->
  records_loop body (pre ++ (rs ≫= encode_record) ++ tail) (blen pre) (blen rs) bus = for_each rs (handle_record body) bus.
Proof.
  intros Hrs. apply records_loop_frames; [done|]. rewrite !length_app.
  pose proof (length_stream encode_record wire_record_wf rs ltac:(done) Hrs). lia.
Qed.

(** A datagram: version, address of the agent, three words and the samples. *)
Definition encode_datagram (agent words : bytes) (samples : list WireRecord) : bytes :=
  (to_be 4 5 ++ to_be 4 1 ++ agent ++ words ++ to_be 4 (blen samples)) ++ (samples ≫= encode_record).

(** The samples of a datagram are handled one by one, in order, each
    with exactly its own data, whatever stands behind the last. *)
Theorem datagram_frames agent words samples tail bus :
  blen agent = 4 -> blen words = 12 -> Forall wire_record_wf samples -> blen samples < 2 ^ 32 ->
  handle_datagram (encode_datagram agent words samples ++ tail) bus =
    for_each samples (handle_record (sample (ipv4_to_string agent))) bus.
Proof.
  intros Ha Hw Hs Hn. set (pre := to_be 4 5 ++ to_be 4 1 ++ agent ++ words ++ to_be 4 (blen samples)).
  assert (blen pre = 28) as Hpre by (unfold pre; rewrite !blen_app, !blen_to_be; lia).
  rewrite <- (records_loop_encoded (sample (ipv4_to_string agent)) pre samples tail bus Hs), Hpre.
  unfold encode_datagram. fold pre. rewrite <- app_assoc. set (rest := (samples ≫= encode_record) ++ tail).
  set (pkt := pre ++ rest). pose proof (blen_nonneg rest). pose proof (blen_nonneg samples).
  assert (blen pkt = 28 + blen rest) as Hp by (unfold pkt; rewrite blen_app; lia).
  unfold handle_datagram. rewrite (proj2 (Z.ltb_ge _ _)) by lia.
  assert (forall l v r p, pre = l ++ to_be 4 v ++ r -> blen l = p -> 0 <= v < 2 ^ 32 -> read_u32 pkt p = Ok v) as Hread.
  { intros l v r p Hl Hlp Hv. apply (read_u32_parts _ l (r ++ rest)); [unfold pkt; rewrite Hl; by rewrite <- !app_assoc|done|done]. }
  rewrite (Hread [] 5 (to_be 4 1 ++ agent ++ words ++ to_be 4 (blen samples)) 0) by done. cbn [mbind outcome_bind].
  change (negb (5 =? SFLOW_VERSION)) with false. cbn iota.
  rewrite (Hread (to_be 4 5) 1 (agent ++ words ++ to_be 4 (blen samples)) 4) by done. cbn [mbind outcome_bind].
  change (negb (1 =? ADDR_TYPE_IPV4)) with false. cbn iota.
  unfold read_u32_bytes. rewrite (proj2 (Z.ltb_ge _ _)) by lia.
  rewrite (slice_at pkt (to_be 4 5 ++ to_be 4 1) agent (words ++ to_be 4 (blen samples) ++ rest))
    by (unfold pkt, pre; rewrite ?blen_app, ?blen_to_be, <- ?app_assoc; done || lia). cbn [mbind outcome_bind].
  rewrite (Hread (to_be 4 5 ++ to_be 4 1 ++ agent ++ words) (blen samples) [] 24)
    by (unfold pre; rewrite ?app_nil_r, ?blen_app, ?blen_to_be, <- ?app_assoc; done || lia). done.
Qed.

(** ** Interface counters *)

(** The generic interface counters as the comment of the source (and the
    standard) lays them out. *)
Record GenericCounters := mkGeneric {
  g_index : Z; g_type : Z; g_speed : Z; g_direction : Z; g_status : Z;
  g_in_octets : Z; g_in_ucast : Z; g_in_mcast : Z; g_in_bcast : Z; g_in_discards : Z; g_in_errors : Z; g_in_unknown : Z;
  g_out_octets : Z; g_out_ucast : Z; g_out_mcast : Z; g_out_bcast : Z; g_out_discards : Z; g_out_errors : Z; g_promisc : Z;
}.

Definition encode_words (ws : list (nat * Z)) : bytes := ws ≫= (fun w => to_be w.1 w.2).

Definition counter_words (g : GenericCounters) : list (nat * Z) :=
  [(4%nat, g_index g); (4%nat, g_type g); (8%nat, g_speed g); (4%nat, g_direction g); (4%nat, g_status g);
   (8%nat, g_in_octets g); (4%nat, g_in_ucast g); (4%nat, g_in_mcast g); (4%nat, g_in_bcast g);
   (4%nat, g_in_discards g); (4%nat, g_in_errors g); (4%nat, g_in_unknown g);
   (8%nat, g_out_octets g); (4%nat, g_out_ucast g); (4%nat, g_out_mcast g); (4%nat, g_out_bcast g);
   (4%nat, g_out_discards g); (4%nat, g_out_errors g); (4%nat, g_promisc g)].

Definition encode_counters (g : GenericCounters) : bytes := encode_words (counter_words g).

Definition counters_wf (g : GenericCounters) : Prop :=
  0 <= g_index g < 2 ^ 32 /\ 0 <= g_in_mcast g < 2 ^ 32 /\ 0 <= g_in_bcast g < 2 ^ 32 /\ 0 <= g_out_mcast g < 2 ^ 32 /\
  0 <= g_out_bcast g < 2 ^ 32 /\ 0 <= g_speed g < 2 ^ 64 /\ 0 <= g_in_octets g < 2 ^ 64 /\ 0 <= g_out_octets g < 2 ^ 64.

Lemma encode_words_split ws i n v tail :
  ws !! i = Some (n, v) ->
  encode_words ws ++ tail = encode_words (take i ws) ++ to_be n v ++ encode_words (drop (S i) ws) ++ tail.
Proof.
  intros Hi. rewrite <- (take_drop_middle ws i (n, v) Hi) at 1. unfold encode_words.
  by rewrite bind_app, bind_cons, <- !app_assoc.
Qed.

Lemma read_u32_word ws i v p tail :
  ws !! i = Some (4%nat, v) -> blen (encode_words (take i ws)) = p -> 0 <= v < 2 ^ 32 ->
  read_u32 (encode_words ws ++ tail) p = Ok v.
Proof. intros Hi Hp Hv. rewrite (encode_words_split _ _ _ _ _ Hi). by eapply read_u32_parts. Qed.

Lemma read_u64_word ws i v p tail :
  ws !! i = Some (8%nat, v) -> blen (encode_words (take i ws)) = p -> 0 <= v < 2 ^ 64 ->
  read_u64 (encode_words ws ++ tail) p = Ok v.
Proof.
  intros Hi <- Hv. rewrite (encode_words_split _ _ _ _ _ Hi). unfold read_u64.
  set (post := encode_words _ ++ tail). pose proof (blen_nonneg post).
  rewrite (proj2 (Z.ltb_ge _ _)) by (rewrite !blen_app, blen_to_be; lia).
  rewrite be_at_app by (done || apply blen_to_be). by rewrite be_to_be.
Qed.

(** The discards and errors that are published for an interface are
    not its discards and errors: the reader takes the words of the multicast
    and broadcast packets for them. *)
Theorem counters_mislabelled g tail :
  counters_wf g ->
  parse_generic_interface_counters (encode_counters g ++ tail) =
    Ok (Some {| if_index := g_index g; if_in_octets := g_in_octets g; if_out_octets := g_out_octets g;
                if_in_errors := g_in_bcast g; if_out_errors := g_out_bcast g;
                if_in_discards := g_in_mcast g; if_out_discards := g_out_mcast g; if_speed := g_speed g |}).
Proof.
  intros (? & ? & ? & ? & ? & ? & ? & ?).
  unfold parse_generic_interface_counters, encode_counters. set (ws := counter_words g).
  rewrite (proj2 (Z.ltb_ge _ _)) by (rewrite blen_app; change (blen (encode_words ws)) with 88; pose proof (blen_nonneg tail); lia).
  rewrite (read_u32_word ws 0 (g_index g) 0), (read_u64_word ws 2 (g_speed g) 8), (read_u64_word ws 5 (g_in_octets g) 24),
    (read_u32_word ws 7 (g_in_mcast g) 36), (read_u32_word ws 8 (g_in_bcast g) 40),
    (read_u64_word ws 12 (g_out_octets g) 56), (read_u32_word ws 14 (g_out_mcast g) 68),
    (read_u32_word ws 15 (g_out_bcast g) 72) by done.
  done.
Qed.

Definition demo_counters : GenericCounters := mkGeneric 7 6 1000000000 1 3 500 1 2 3 4 5 6 600 8 9 10 11 12 13.

(** Interface 7 has 4 input discards and 5 input errors; 2 and 3 are published. *)
Lemma counters_mislabelled_witness :
  parse_generic_interface_counters (encode_counters demo_counters ++ []) = Ok (Some (mkCounters 7 500 600 3 10 2 9 1000000000)).
Proof. apply (counters_mislabelled demo_counters []). by vm_compute. Defined.

Lemma datagram_frames_witness :
  handle_datagram (encode_datagram (bs [10; 0; 0; 1]) (replicate 12 Byte.x00)
    [mkWireRecord 2 (to_be 8 0 ++ to_be 4 1 ++ encode_record (mkWireRecord 1 (encode_counters demo_counters)))] ++ bs [9]) [] =
  Ok [Update_Counters "10.0.0.1" (mkCounters 7 500 600 3 10 2 9 1000000000)].
Proof.
  rewrite (datagram_frames (bs [10; 0; 0; 1]) (replicate 12 Byte.x00)
    [mkWireRecord 2 (to_be 8 0 ++ to_be 4 1 ++ encode_record (mkWireRecord 1 (encode_counters demo_counters)))] (bs [9]) []);
    [vm_compute; reflexivity|done|done|repeat constructor; by vm_compute|done].
Defined.
