(* ===== verification/Text.v ===== *)
(** * Operations on text ([str] methods the receivers use)

    A [string] holds the octets of a Rust [str]; the operations here look at
    ASCII characters only, so octets and characters agree. *)

From Stdlib Require Import ZArith Lia ZifyBool String Ascii.
From stdpp Require Import base numbers list option strings pretty.
From S2P Require Import Prelude RustStd Jsonl.

Local Open Scope Z_scope.

(** ** Prefixes *)

(** [s.strip_prefix(p)] *)
Fixpoint strip_prefix (p s : string) : option string :=
  match p, s with
  | EmptyString, _ => Some s
  | String a p', String b s' => if bool_decide (a = b) then strip_prefix p' s' else None
  | _, EmptyString => None
  end.

(** [s.starts_with(p)] *)
Definition starts_with (p s : string) : bool := match strip_prefix p s with Some _ => true | None => false end.

(** [text.contains(needle)] *)
Definition text_contains (needle text : string) : bool := contains (bytes_of_string needle) (bytes_of_string text).

(** [s.trim()] *)
Definition trim_text (s : string) : string := string_of_bytes (trim (bytes_of_string s)).

(** The text before the first [sep]: [s.split(sep).next()]. *)
Fixpoint before_sep (sep s : string) : string :=
  if starts_with sep s then EmptyString
  else match s with EmptyString => EmptyString | String c s' => String c (before_sep sep s') end.

(** [s.split(sep)] for one character. *)
Fixpoint split_char (sep : ascii) (s : string) : list string :=
  match s with
  | EmptyString => [EmptyString]
  | String c s' =>
      if bool_decide (c = sep) then EmptyString :: split_char sep s'
      else match split_char sep s' with
           | part :: parts => String c part :: parts
           | [] => [String c EmptyString]
           end
  end.

(** [s.split_once(sep)] for one character. *)
Fixpoint split_once (sep : ascii) (s : string) : option (string * string) :=
  match s with
  | EmptyString => None
  | String c s' => if bool_decide (c = sep) then Some (EmptyString, s') else prod_map (String c) id <$> split_once sep s'
  end.

(** [s.splitn(n, sep)] for one character. *)
Fixpoint splitn (n : nat) (sep : ascii) (s : string) : list string :=
  match n with
  | O => []
  | S O => [s]
  | S n' => match split_once sep s with Some (a, b) => a :: splitn n' sep b | None => [s] end
  end.

(** The characters of a text, each as its octets. *)
Definition chars_of (s : string) : list bytes := default [] (utf8_chars (length (bytes_of_string s)) (bytes_of_string s)).

(** [s.trim_end()] *)
Definition trim_end_text (s : string) : string :=
  string_of_bytes (mjoin (reverse (skip_whitespace (reverse (chars_of s))))).

(** [s.split_whitespace()]: [word] is what was read of a word. *)
Fixpoint words (cs : list bytes) (word : bytes) : list string :=
  match cs with
  | [] => match word with [] => [] | _ => [string_of_bytes word] end
  | c :: cs' =>
      if is_whitespace c then match word with [] => words cs' [] | _ => string_of_bytes word :: words cs' [] end
      else words cs' (word ++ c)
  end.

Definition split_whitespace (s : string) : list string := words (chars_of s) [].

(** [s.trim_end_matches(".0")]: repeatedly, on the characters in reverse. *)
Fixpoint trim_dot_zeros (rev : list ascii) : list ascii :=
  match rev with
  | "0"%char :: "."%char :: rev' => trim_dot_zeros rev'
  | _ => rev
  end.

Definition trim_end_dot_zero (s : string) : string :=
  string_of_list_ascii (reverse (trim_dot_zeros (reverse (list_ascii_of_string s)))).

(** ** Characters *)

Definition ascii_lower (c : ascii) : ascii :=
  let v := Z.of_N (N_of_ascii c) in
  if in_range 65 90 v then ascii_of_N (Z.to_N (v + 32)) else c.

(** [s.to_ascii_lowercase()] *)
Definition to_ascii_lowercase (s : string) : string := string_of_list_ascii (ascii_lower <$> list_ascii_of_string s).

(** ** Numbers *)

Definition digit_of (c : ascii) : option Z :=
  let v := Z.of_N (N_of_ascii c) in
  if in_range 48 57 v then Some (v - 48) else None.

Fixpoint digits (acc : Z) (s : string) : option Z :=
  match s with
  | EmptyString => Some acc
  | String c s' => d ← digit_of c; digits (acc * 10 + d) s'
  end.

(** Digits, at least one. *)
Definition magnitude (s : string) : option Z := match s with EmptyString => None | _ => digits 0 s end.

(** [s.parse::<uN>()] for [max = 2^N]: a plus sign is allowed. *)
Definition parse_unsigned (max : Z) (s : string) : option Z :=
  v ← magnitude (default s (strip_prefix "+" s));
  if v <? max then Some v else None.

(** [s.parse::<i64>()] *)
Definition parse_i64 (s : string) : option Z :=
  match strip_prefix "-" s with
  | Some s' => v ← magnitude s'; if v <=? 2 ^ 63 then Some (- v) else None
  | None => v ← magnitude (default s (strip_prefix "+" s)); if v <? 2 ^ 63 then Some v else None
  end.

(** ** Laws *)

Lemma strip_prefix_app p s : strip_prefix p (p ++ s) = Some s.
Proof.
  induction p as [|c p IH]; [done|].
  change (strip_prefix (String c p) (String c p ++ s)) with (if bool_decide (c = c) then strip_prefix p (p ++ s) else None).
  by rewrite bool_decide_true.
Qed.

Lemma strip_prefix_spec p s r : strip_prefix p s = Some r <-> s = (p ++ r)%string.
Proof.
  split; [|intros ->; apply strip_prefix_app].
  revert s. induction p as [|c p IH]; intros s; [by intros [= ->]|]. destruct s as [|c' s]; [done|]. cbn [strip_prefix].
  case_bool_decide as Hc; [|done]. subst. by intros ->%IH.
Qed.

Lemma starts_with_spec p s : starts_with p s = true <-> exists r, s = (p ++ r)%string.
Proof.
  unfold starts_with. destruct (strip_prefix p s) as [r|] eqn:Hs.
  - split; [|done]. intros _. exists r. by apply strip_prefix_spec.
  - split; [done|]. intros [r Hr]. apply strip_prefix_spec in Hr. congruence.
Qed.

(** ** Decimal numbers as text *)

Lemma digit_of_pretty d : (d < 10)%N -> digit_of (pretty_N_char d) = Some (Z.of_N d).
Proof.
  intros Hd. assert (d = 0 \/ d = 1 \/ d = 2 \/ d = 3 \/ d = 4 \/ d = 5 \/ d = 6 \/ d = 7 \/ d = 8 \/ d = 9)%N as Hcases by lia.
  by destruct Hcases as [->|[->|[->|[->|[->|[->|[->|[->|[->| ->]]]]]]]]].
Qed.

Lemma digits_pretty_go x s : digits 0 (pretty_N_go x s) = digits (Z.of_N x) s.
Proof.
  revert s. induction (N.lt_wf_0 x) as [x _ IH]. intros s.
  destruct (decide (0 < x)%N) as [Hx|Hx]; [|assert (x = 0)%N as -> by lia; by rewrite pretty_N_go_0].
  rewrite pretty_N_go_step by done. rewrite IH by (by apply N.div_lt). cbn [digits].
  rewrite digit_of_pretty by (by apply N.mod_lt). cbn. f_equal.
  rewrite N2Z.inj_div, N2Z.inj_mod. pose proof (Z.div_mod (Z.of_N x) 10). lia.
Qed.

(** The octets of a decimal number are digits. *)
Definition is_ascii_digit (b : byte) : bool := in_range 48 57 (u8 b).

Lemma digit_byte d : (d < 10)%N -> is_ascii_digit (byte_of_ascii (pretty_N_char d)) = true.
Proof.
  intros Hd. assert (d = 0 \/ d = 1 \/ d = 2 \/ d = 3 \/ d = 4 \/ d = 5 \/ d = 6 \/ d = 7 \/ d = 8 \/ d = 9)%N as Hcases by lia.
  by destruct Hcases as [->|[->|[->|[->|[->|[->|[->|[->|[->| ->]]]]]]]]].
Qed.

Lemma pretty_go_bytes x s :
  Forall (fun b => is_ascii_digit b = true) (bytes_of_string s) ->
  Forall (fun b => is_ascii_digit b = true) (bytes_of_string (pretty_N_go x s)).
Proof.
  revert s. induction (N.lt_wf_0 x) as [x _ IH]. intros s Hs.
  destruct (decide (0 < x)%N) as [Hx|Hx]; [|assert (x = 0)%N as -> by lia; by rewrite pretty_N_go_0].
  rewrite pretty_N_go_step by done. apply IH; [by apply N.div_lt|]. constructor; [|done].
  apply digit_byte. by apply N.mod_lt.
Qed.

Lemma pretty_go_length k x s :
  (x < 10 ^ N.of_nat k)%N -> (String.length (pretty_N_go x s) <= k + String.length s)%nat.
Proof.
  revert x s. induction k as [|k IH]; intros x s Hx.
  - assert (x = 0)%N as -> by (cbn in Hx; lia). by rewrite pretty_N_go_0.
  - destruct (decide (0 < x)%N) as [H0|H0]; [|assert (x = 0)%N as -> by lia; rewrite pretty_N_go_0; lia].
    rewrite pretty_N_go_step by done.
    specialize (IH (x / 10)%N (String (pretty_N_char (x mod 10)) s)). cbn [String.length] in IH.
    etrans; [apply IH|lia]. apply N.Div0.div_lt_upper_bound. rewrite Nat2N.inj_succ, N.pow_succ_r' in Hx. lia.
Qed.

Lemma fmt_dec_pos n : 0 < n -> fmt_dec n = pretty_N_go (Z.to_N n) "".
Proof. destruct n as [|p|p]; try lia. intros _. done. Qed.

Lemma fmt_dec_bytes n : 0 <= n -> Forall (fun b => is_ascii_digit b = true) (bytes_of_string (fmt_dec n)).
Proof.
  intros Hn. destruct (decide (n = 0)) as [->|Hne]; [by repeat constructor|].
  rewrite fmt_dec_pos by lia. apply pretty_go_bytes. constructor.
Qed.

Lemma fmt_dec_length n k : (1 <= k)%nat -> 0 <= n < 10 ^ Z.of_nat k -> (String.length (fmt_dec n) <= k)%nat.
Proof.
  intros Hk Hn. destruct (decide (n = 0)) as [->|Hne]; [cbn; lia|].
  rewrite fmt_dec_pos by lia. pose proof (pretty_go_length k (Z.to_N n) "") as Hl. cbn [String.length] in Hl.
  rewrite Nat.add_0_r in Hl. apply Hl. apply N2Z.inj_lt. rewrite N2Z.inj_pow, Z2N.id, nat_N_Z by lia. lia.
Qed.

Lemma parse_unsigned_fmt_dec max n : 0 <= n < max -> parse_unsigned max (fmt_dec n) = Some n.
Proof.
  intros Hn. pose proof (fmt_dec_bytes n ltac:(lia)) as Hb.
  assert (digits 0 (fmt_dec n) = Some n) as Hd.
  { destruct (decide (n = 0)) as [->|Hne]; [done|]. rewrite fmt_dec_pos by lia. rewrite digits_pretty_go. cbn. f_equal. lia. }
  unfold parse_unsigned. destruct (fmt_dec n) as [|c s] eqn:Hs.
  - destruct (decide (n = 0)) as [->|Hne]; [by vm_compute in Hs|]. cbn in Hd. congruence.
  - assert (strip_prefix "+" (String c s) = None) as ->.
    { cbn. case_bool_decide as Hc; [|done]. subst c. apply Forall_cons in Hb as [Hb _]. by vm_compute in Hb. }
    cbn [from_option id]. unfold magnitude. rewrite Hd. cbn. by rewrite (proj2 (Z.ltb_lt _ _)) by lia.
Qed.

(** ** Trimming twice *)

(** A character is recognised by its own octets. *)
Definition is_char (c : bytes) : Prop :=
  exists b0 r, c = b0 :: r /\ forall rest, utf8_step b0 (r ++ rest) = (true, length c).

Lemma utf8_step_is_char b0 rest n : utf8_step b0 rest = (true, n) -> is_char (take n (b0 :: rest)).
Proof.
  intros Hs. exists b0, (take (pred n) rest). unfold utf8_step in Hs.
  destruct (u8 b0 <? 128) eqn:H1; [injection Hs as <-; split; [done|]; intros r; unfold utf8_step; by rewrite H1|].
  destruct (in_range 194 223 (u8 b0)) eqn:H2.
  { destruct rest as [|b1 rest]; [done|]. destruct (utf8_cont b1) eqn:Hc; [|done]. injection Hs as <-. split; [done|].
    intros r. unfold utf8_step. by rewrite H1, H2; cbn; rewrite Hc. }
  destruct (in_range 224 239 (u8 b0)) eqn:H3.
  { destruct rest as [|b1 rest]; [done|]. destruct (utf8_second_ok b0 b1) eqn:Hc; [|done].
    destruct rest as [|b2 rest]; [done|]. destruct (utf8_cont b2) eqn:Hc2; [|done]. injection Hs as <-. split; [done|].
    intros r. unfold utf8_step. rewrite H1, H2, H3. cbn. by rewrite Hc, Hc2. }
  destruct (in_range 240 244 (u8 b0)) eqn:H4; [|done].
  destruct rest as [|b1 rest]; [done|]. destruct (utf8_second_ok b0 b1) eqn:Hc; [|done].
  destruct rest as [|b2 rest]; [done|]. destruct (utf8_cont b2) eqn:Hc2; [|done].
  destruct rest as [|b3 rest]; [done|]. destruct (utf8_cont b3) eqn:Hc3; [|done]. injection Hs as <-. split; [done|].
  intros r. unfold utf8_step. rewrite H1, H2, H3, H4. cbn. by rewrite Hc, Hc2, Hc3.
Qed.

Lemma utf8_chars_are fuel b cs : utf8_chars fuel b = Some cs -> Forall is_char cs.
Proof.
  revert b cs. induction fuel as [|fuel IH]; intros [|b0 rest] cs; cbn; try done; try (by intros [= <-]).
  destruct (utf8_step b0 rest) as [valid n] eqn:Hs. destruct valid; [|done].
  destruct (utf8_chars fuel (drop n (b0 :: rest))) as [cs'|] eqn:Hc; cbn; [|done]. intros [= <-].
  constructor; [by apply utf8_step_is_char|by eapply IH].
Qed.

Lemma utf8_chars_join cs fuel : Forall is_char cs -> (length (mjoin cs) <= fuel)%nat -> utf8_chars fuel (mjoin cs) = Some cs.
Proof.
  intros Hcs. revert fuel. induction Hcs as [|c cs (b0 & r & -> & Hstep) Hcs IH]; intros fuel Hf; [by destruct fuel|].
  change (mjoin ((b0 :: r) :: cs)) with ((b0 :: r) ++ mjoin cs) in *. rewrite length_app in Hf. destruct fuel as [|fuel]; [cbn in Hf; lia|].
  cbn [app utf8_chars]. rewrite Hstep. change (b0 :: r ++ mjoin cs) with ((b0 :: r) ++ mjoin cs).
  rewrite take_app_length, drop_app_length. rewrite IH by (cbn in Hf; lia). done.
Qed.

Lemma skip_whitespace_idemp cs : skip_whitespace (skip_whitespace cs) = skip_whitespace cs.
Proof. induction cs as [|c cs IH]; cbn; [done|]. destruct (is_whitespace c) eqn:Hc; cbn; by rewrite ?Hc. Qed.

Lemma skip_whitespace_trimmed cs :
  let s := reverse (skip_whitespace (reverse (skip_whitespace cs))) in skip_whitespace s = s.
Proof.
  cbn zeta. destruct (skip_whitespace cs) as [|c r] eqn:Hs; [done|].
  assert (is_whitespace c = false) as Hc.
  { revert Hs. induction cs as [|x cs IH]; cbn; [done|]. destruct (is_whitespace x) eqn:Hx; [done|]. by intros [= <- _]. }
  destruct (trim_end_head c r Hc) as [r' ->]. cbn. by rewrite Hc.
Qed.

Lemma trim_idemp b : trim (trim b) = trim b.
Proof.
  unfold trim at 2 3. destruct (utf8_chars (length b) b) as [cs|] eqn:Hb; [|unfold trim; by rewrite Hb].
  set (s := reverse (skip_whitespace (reverse (skip_whitespace cs)))).
  assert (Forall is_char s) as Hs.
  { apply utf8_chars_are in Hb. unfold s. destruct (skip_whitespace_suffix cs) as [ws Hws]. rewrite Hws in Hb.
    apply Forall_app in Hb as [_ Hb]. destruct (trim_end_prefix (skip_whitespace cs)) as [ws' Hws']. rewrite Hws' in Hb.
    by apply Forall_app in Hb as [Hb _]. }
  unfold trim. rewrite utf8_chars_join by done. f_equal. unfold s at 1. rewrite (skip_whitespace_trimmed cs).
  rewrite reverse_involutive, skip_whitespace_idemp. done.
Qed.

Lemma string_of_bytes_of_string s : string_of_bytes (bytes_of_string s) = s.
Proof. apply string_of_list_byte_of_string. Qed.

Lemma bytes_of_string_of_bytes b : bytes_of_string (string_of_bytes b) = b.
Proof. apply list_byte_of_string_of_list_byte. Qed.

Lemma trim_text_idemp s : trim_text (trim_text s) = trim_text s.
Proof. unfold trim_text. by rewrite bytes_of_string_of_bytes, trim_idemp. Qed.

Lemma string_nil_app (t : string) : ("" ++ t = t)%string.
Proof. done. Qed.

Lemma string_cons_app c (s t : string) : (String c s ++ t = String c (s ++ t))%string.
Proof. done. Qed.

Lemma split_once_app c a b : split_once c a = None -> split_once c (a ++ String c b)%string = Some (a, b).
Proof.
  induction a as [|x a IH]; [intros _; rewrite string_nil_app; cbn; by rewrite bool_decide_true|].
  rewrite string_cons_app. cbn. case_bool_decide; [done|]. destruct (split_once c a) eqn:Ha; [done|]. intros _. by rewrite IH.
Qed.
