(* ===== verification/Ber.v ===== *)
(** * BER as SNMP uses it ([src/signals/snmp.rs], the reader and the decoders)

    [BerReader] walks a buffer.  A reader that fails has still moved, and one
    caller goes on after a failure, so the operations return the reader on
    every branch: a state monad over outcomes. *)

From Stdlib Require Import ZArith Zbitwise Lia ZifyBool String.
From stdpp Require Import base numbers list option strings pretty.
From S2P Require Import Prelude RustStd.

Local Open Scope Z_scope.

(** ** Values *)

Definition decode_signed (bytes : bytes) : Outcome string Z :=
  if (blen bytes =? 0) || (8 <? blen bytes) then Err ("invalid signed integer length " ++ fmt_dec (blen bytes))%string
  else
    b0 ← idx bytes 0;
    let sign_fill := if bit_set b0 0x80 then Byte.xff else Byte.x00 in
    Ok (as_i64 (be (replicate (8 - length bytes) sign_fill ++ bytes))).

Definition decode_unsigned (bytes : bytes) : Outcome string Z :=
  if (blen bytes =? 0) || (8 <? blen bytes) then Err ("invalid unsigned integer length " ++ fmt_dec (blen bytes))%string
  else Ok (be (replicate (8 - length bytes) Byte.x00 ++ bytes)).

(** [current = (current << 7) | (byte & 0x7f)] on [u32]: the shift drops the
    bits it pushes out. *)
Definition oid_shift (current : Z) (b : byte) : Z := Z.lor (Z.shiftl current 7 mod 2 ^ 32) (Z.land (u8 b) 0x7f).

(** The loop over the octets behind the first: the parts and [current]. *)
Fixpoint oid_parts (bytes : bytes) (current : Z) (parts : list Z) : list Z * Z :=
  match bytes with
  | [] => (parts, current)
  | b :: bytes' =>
      let current := oid_shift current b in
      if Z.land (u8 b) 0x80 =? 0 then oid_parts bytes' 0 (parts ++ [current]) else oid_parts bytes' current parts
  end.

(** [parts.map(to_string).join(".")] *)
Definition dotted (parts : list Z) : string := String.concat "." (fmt_dec <$> parts).

Definition decode_oid (bytes : bytes) : Outcome string string :=
  if blen bytes =? 0 then Err "empty oid"%string
  else
    first ← idx bytes 0;
    rest ← slice_from bytes 1;
    let '(parts, current) := oid_parts rest 0 [first / 40; first mod 40] in
    if negb (current =? 0) then Err "unterminated oid"%string else Ok (dotted parts).

(** ** The reader *)

Record BerReader := mkReader { ber_data : bytes; ber_pos : Z }.

Definition Ber (A : Type) : Type := BerReader -> Outcome string A * BerReader.

Definition ber_ret {A} (a : A) : Ber A := fun r => (Ok a, r).
Definition ber_lift {A} (o : Outcome string A) : Ber A := fun r => (o, r).

Definition ber_bind {A B} (m : Ber A) (f : A -> Ber B) : Ber B :=
  fun r =>
    match m r with
    | (Ok a, r') => f a r'
    | (Err e, r') => (Err e, r')
    | (Panic, r') => (Panic, r')
    | (Diverge, r') => (Diverge, r')
    end.

Declare Scope ber_scope.
Delimit Scope ber_scope with ber.
Notation "'let!' x := m 'in' k" := (ber_bind m (fun x => k))
  (at level 200, x binder, m at level 100, k at level 200, right associativity) : ber_scope.
Local Open Scope ber_scope.

Definition ber_new (data : bytes) : BerReader := mkReader data 0.

Definition is_eof (r : BerReader) : bool := blen (ber_data r) <=? ber_pos r.

(** [self.data.get(self.pos)], and [self.pos += 1]. *)
Definition next_octet (error : string) : Ber Z :=
  fun r =>
    match ber_data r !! Z.to_nat (ber_pos r) with
    | Some b => (Ok (u8 b), mkReader (ber_data r) (ber_pos r + 1))
    | None => (Err error, r)
    end.

(** [self.data.get(self.pos..end)] with [end] the position plus [n], and
    [self.pos = end].  The sum does not overflow: [n] is below 2^32. *)
Definition next_octets (n : Z) (error : string) : Ber bytes :=
  fun r =>
    let e := ber_pos r + n in
    if e <=? blen (ber_data r) then (slice (ber_data r) (ber_pos r) e, mkReader (ber_data r) e) else (Err error, r).

Definition read_length : Ber Z :=
  let! first := next_octet "unexpected end of ber length" in
  if Z.land first 0x80 =? 0 then ber_ret first
  else
    let width := Z.land first 0x7f in
    if (width =? 0) || (4 <? width) then ber_lift (Err ("unsupported ber length width " ++ fmt_dec width)%string)
    else let! bytes := next_octets width "ber length truncated" in ber_ret (be bytes).

Definition read_tlv : Ber (Z * bytes) :=
  let! tag := next_octet "unexpected end of ber buffer" in
  let! length := read_length in
  let! value := next_octets length "ber length exceeds buffer" in
  ber_ret (tag, value).

(** [{tag:02x}] *)
Definition tag_text (tag : Z) : string := fmt_hex2 (as_u8 tag).

Definition read_expected (expected_tag : Z) : Ber bytes :=
  let! tlv := read_tlv in
  if negb (tlv.1 =? expected_tag)
  then ber_lift (Err ("expected ber tag 0x" ++ tag_text expected_tag ++ ", got 0x" ++ tag_text tlv.1)%string)
  else ber_ret tlv.2.

Definition read_integer : Ber Z := let! value := read_expected 0x02 in ber_lift (decode_signed value).
Definition read_unsigned (tag : Z) : Ber Z := let! value := read_expected tag in ber_lift (decode_unsigned value).
Definition read_octet_string : Ber bytes := read_expected 0x04.
Definition read_octet_string_text : Ber string := let! value := read_octet_string in ber_ret (from_utf8_lossy value).
Definition read_oid : Ber string := let! value := read_expected 0x06 in ber_lift (decode_oid value).

(** The result of reading a whole buffer. *)
Definition run {A} (m : Ber A) (data : bytes) : Outcome string A := (m (ber_new data)).1.

(** ** Safety

    A reader that stays inside its buffer and does not move back. *)
Definition advances (r r' : BerReader) : Prop :=
  ber_data r' = ber_data r /\ ber_pos r <= ber_pos r' <= blen (ber_data r).

Definition reader_wf (r : BerReader) : Prop := 0 <= ber_pos r <= blen (ber_data r).

(** [m] neither panics nor diverges from [r], and an answer satisfies [Q]. *)
Definition ber_safe {A} (m : Ber A) (r : BerReader) (Q : A -> BerReader -> Prop) : Prop :=
  match m r with
  | (Ok a, r') => advances r r' /\ Q a r'
  | (Err _, r') => advances r r'
  | _ => False
  end.

Lemma advances_refl r : reader_wf r -> advances r r.
Proof. unfold advances, reader_wf. intros. split; [done|lia]. Qed.

Lemma advances_trans r1 r2 r3 : advances r1 r2 -> advances r2 r3 -> advances r1 r3.
Proof. unfold advances. intros [-> ?] [-> ?]. split; [done|lia]. Qed.

Lemma advances_wf r r' : reader_wf r -> advances r r' -> reader_wf r'.
Proof. unfold advances, reader_wf. intros ? (-> & ?). lia. Qed.

Lemma ber_safe_mono {A} (m : Ber A) r (Q Q' : A -> BerReader -> Prop) :
  ber_safe m r Q -> (forall a r', advances r r' -> Q a r' -> Q' a r') -> ber_safe m r Q'.
Proof. unfold ber_safe. destruct (m r) as [[] r']; naive_solver. Qed.

Lemma ber_safe_bind {A B} (m : Ber A) (f : A -> Ber B) r Q :
  reader_wf r -> ber_safe m r (fun a r' => ber_safe (f a) r' Q) -> ber_safe (ber_bind m f) r Q.
Proof.
  unfold ber_safe, ber_bind. intros Hr. destruct (m r) as [[a|e| |] r1]; [|done..]. intros [H1 Hf].
  destruct (f a r1) as [[] r2]; [|by eapply advances_trans|done..]. destruct Hf. split; [by eapply advances_trans|done].
Qed.

Lemma ber_safe_ret {A} (a : A) r (Q : A -> BerReader -> Prop) : reader_wf r -> Q a r -> ber_safe (ber_ret a) r Q.
Proof. intros Hr Hq. split; [by apply advances_refl|done]. Qed.

Lemma ber_safe_lift {A} (o : Outcome string A) r (Q : A -> BerReader -> Prop) :
  reader_wf r -> wp False o (fun a => Q a r) -> ber_safe (ber_lift o) r Q.
Proof. intros Hr Ho. unfold ber_safe, ber_lift. pose proof (advances_refl r Hr). by destruct o. Qed.

Lemma ber_safe_run {A} (m : Ber A) data (Q : A -> Prop) :
  ber_safe m (ber_new data) (fun a _ => Q a) -> wp False (run m data) Q.
Proof. unfold ber_safe, run. destruct (m (ber_new data)) as [[] r]; cbn; tauto. Qed.

Lemma reader_wf_new data : reader_wf (ber_new data).
Proof. unfold reader_wf, ber_new. simpl. pose proof (blen_nonneg data). lia. Qed.

Lemma next_octet_safe e r :
  reader_wf r -> ber_safe (next_octet e) r (fun v r' => 0 <= v < 256 /\ ber_pos r' = ber_pos r + 1).
Proof.
  unfold ber_safe, next_octet, reader_wf. intros Hr. destruct (_ !! _) as [b|] eqn:Hb; [|by apply advances_refl].
  apply lookup_lt_Some in Hb. unfold advances, blen in *. cbn [ber_data ber_pos]. pose proof (u8_bounds b). split_and!; try done; lia.
Qed.

Lemma next_octets_safe n e r :
  reader_wf r -> 0 <= n -> ber_safe (next_octets n e) r (fun v _ => blen v = n).
Proof.
  unfold ber_safe, next_octets, reader_wf. intros Hr Hn. cbn zeta. destruct (Z.leb_spec (ber_pos r + n) (blen (ber_data r))).
  - rewrite slice_ok by lia. split; [split; [done|cbn [ber_pos]; lia]|].
    rewrite blen_take; [lia|]. rewrite blen_drop; lia.
  - by apply advances_refl.
Qed.

Lemma octet_bit7 v : 0 <= v < 256 -> (Z.land v 0x80 =? 0) = (v <? 128) /\ Z.land v 0x7f = v mod 128.
Proof.
  intros Hv. split; [|by change 0x7f with (Z.ones 7); rewrite Z.land_ones by lia].
  assert (forallb (fun n => Bool.eqb (Z.land (Z.of_nat n) 0x80 =? 0) (Z.of_nat n <? 128)) (seq 0 256) = true) as Hall by done.
  rewrite forallb_forall in Hall. specialize (Hall (Z.to_nat v)). rewrite Z2Nat.id in Hall by lia.
  apply eqb_prop, Hall, in_seq. lia.
Qed.

Lemma read_length_safe r : reader_wf r -> ber_safe read_length r (fun n _ => 0 <= n < 2 ^ 32).
Proof.
  intros Hr. apply ber_safe_bind; [done|]. eapply ber_safe_mono; [by apply next_octet_safe|]. intros first r1 Ha [Hf _].
  pose proof (advances_wf _ _ Hr Ha). destruct (octet_bit7 first Hf) as [-> ->]. cbn zeta. pose proof (Z.mod_pos_bound first 128).
  destruct (Z.ltb_spec first 128); [apply ber_safe_ret; [done|lia]|].
  destruct (Z.eqb_spec (first mod 128) 0); cbn [orb]; [by apply ber_safe_lift|].
  destruct (Z.ltb_spec 4 (first mod 128)); [by apply ber_safe_lift|].
  apply ber_safe_bind; [done|]. eapply ber_safe_mono; [apply next_octets_safe; [done|]; lia|]. intros l r2 Ha2 Hl.
  apply ber_safe_ret; [by eapply advances_wf|]. pose proof (be_bounds l) as Hb. rewrite Hl in Hb.
  assert (256 ^ (first mod 128) <= 256 ^ 4) by (apply Z.pow_le_mono_r; lia). lia.
Qed.

Lemma read_tlv_safe r :
  reader_wf r -> ber_safe read_tlv r (fun tv r' => 0 <= tv.1 < 256 /\ ber_pos r < ber_pos r').
Proof.
  intros Hr. apply ber_safe_bind; [done|]. eapply ber_safe_mono; [by apply next_octet_safe|]. intros tag r1 H1 [Ht Hp].
  pose proof (advances_wf _ _ Hr H1) as Hr1. apply ber_safe_bind; [done|]. eapply ber_safe_mono; [by apply read_length_safe|].
  intros n r2 H2 [Hn _]. pose proof (advances_wf _ _ Hr1 H2) as Hr2. apply ber_safe_bind; [done|].
  eapply ber_safe_mono; [apply next_octets_safe; [done|lia]|]. intros v r3 H3 _. pose proof (advances_wf _ _ Hr2 H3).
  apply ber_safe_ret; [done|]. unfold advances in *. cbn [fst].
  destruct H1 as [_ H1], H2 as [_ H2], H3 as [_ H3]. lia.
Qed.

Lemma read_expected_safe tag r : reader_wf r -> ber_safe (read_expected tag) r (fun _ r' => ber_pos r < ber_pos r').
Proof.
  intros Hr. apply ber_safe_bind; [done|]. eapply ber_safe_mono; [by apply read_tlv_safe|]. intros [t v] r1 H1 [Ht Hp].
  pose proof (advances_wf _ _ Hr H1). destruct (negb _); [by apply ber_safe_lift|by apply ber_safe_ret].
Qed.

Lemma wp_decode_signed b : wp False (decode_signed b) (fun v => - 2 ^ 63 <= v < 2 ^ 63).
Proof.
  unfold decode_signed. destruct (Z.eqb_spec (blen b) 0); cbn [orb]; [done|]. destruct (Z.ltb_spec 8 (blen b)); [done|].
  pose proof (blen_nonneg b). apply wp_bind, wp_idx; [lia|]. intros v _ _. apply wp_ok. unfold as_i64.
  match goal with |- context [?x mod 2 ^ 64] => pose proof (Z.mod_pos_bound x (2 ^ 64)) end. lia.
Qed.

Lemma wp_decode_unsigned b : wp False (decode_unsigned b) (fun v => 0 <= v < 2 ^ 64).
Proof.
  unfold decode_unsigned. destruct (Z.eqb_spec (blen b) 0); cbn [orb]; [done|]. destruct (Z.ltb_spec 8 (blen b)); [done|].
  cbn [wp]. pose proof (be_bounds (replicate (8 - length b) Byte.x00 ++ b)) as Hb.
  assert (blen (replicate (8 - length b) Byte.x00 ++ b) = 8) as Hl
    by (rewrite blen_app; unfold blen in *; rewrite length_replicate; lia).
  rewrite Hl in Hb. exact Hb.
Qed.

Lemma wp_decode_oid b : wp False (decode_oid b) (fun _ => True).
Proof.
  unfold decode_oid. destruct (Z.eqb_spec (blen b) 0); [done|]. pose proof (blen_nonneg b). wp_steps; lia.
Qed.

(** ** Exactness of the reader *)

(** A reader with [pre] behind it and [rest] ahead. *)
Definition reading (pre rest : bytes) : BerReader := mkReader (pre ++ rest) (blen pre).

(** The octets of a definite length: the short form, or the long form with one
    to four octets, not always the shortest. *)
Definition valid_length (n : Z) (l : bytes) : Prop :=
  (0 <= n < 128 /\ l = [as_u8 n]) \/
  exists k : nat, (1 <= k <= 4)%nat /\ 0 <= n < 256 ^ Z.of_nat k /\ l = as_u8 (128 + Z.of_nat k) :: to_be k n.

Lemma next_octet_reading e pre b rest : next_octet e (reading pre (b :: rest)) = (Ok (u8 b), reading (pre ++ [b]) rest).
Proof.
  unfold next_octet, reading. cbn [ber_data ber_pos]. rewrite <- length_blen, list_lookup_middle by done.
  rewrite blen_app, <- app_assoc. done.
Qed.

Lemma next_octet_end e pre : next_octet e (reading pre []) = (Err e, reading pre []).
Proof. unfold next_octet, reading. cbn [ber_data ber_pos]. by rewrite <- length_blen, app_nil_r, lookup_ge_None_2. Qed.

Lemma next_octets_reading e pre x rest : next_octets (blen x) e (reading pre (x ++ rest)) = (Ok x, reading (pre ++ x) rest).
Proof.
  unfold next_octets, reading. cbn [ber_data ber_pos]. pose proof (blen_nonneg rest).
  rewrite (proj2 (Z.leb_le _ _)) by (rewrite !blen_app; lia). rewrite slice_app by (rewrite ?blen_app; lia).
  by rewrite blen_app, <- app_assoc.
Qed.

Lemma next_octets_inv n e pre rest v r :
  0 <= n -> next_octets n e (reading pre rest) = (Ok v, r) -> exists rest', rest = v ++ rest' /\ blen v = n /\ r = reading (pre ++ v) rest'.
Proof.
  intros Hn. unfold next_octets, reading. cbn [ber_data ber_pos]. cbn zeta. pose proof (blen_nonneg pre).
  destruct (Z.leb_spec (blen pre + n) (blen (pre ++ rest))) as [Hle|]; [|done]. rewrite blen_app in Hle.
  assert (exists x y, rest = x ++ y /\ blen x = n) as (x & y & -> & <-).
  { exists (take (Z.to_nat n) rest), (drop (Z.to_nat n) rest). rewrite take_drop, blen_take by lia. done. }
  rewrite slice_app by (rewrite ?blen_app; lia). intros [= <- <-]. exists y. by rewrite blen_app, <- app_assoc.
Qed.

Lemma be_single b : be [b] = u8 b.
Proof. unfold be. cbn. lia. Qed.

Lemma read_length_reading pre l n rest : valid_length n l -> read_length (reading pre (l ++ rest)) = (Ok n, reading (pre ++ l) rest).
Proof.
  intros [[Hn ->]|(k & Hk & Hn & ->)]; unfold read_length, ber_bind; cbn [app]; rewrite next_octet_reading, u8_as_u8 by lia.
  - destruct (octet_bit7 n) as [-> _]; [lia|]. by rewrite (proj2 (Z.ltb_lt _ _)) by lia.
  - destruct (octet_bit7 (128 + Z.of_nat k)) as [-> ->]; [lia|]. rewrite (proj2 (Z.ltb_ge _ _)) by lia.
    assert ((128 + Z.of_nat k) mod 128 = Z.of_nat k) as -> by (rewrite <- (Z.mod_unique _ 128 1 (Z.of_nat k)); lia).
    cbn zeta. rewrite (proj2 (Z.eqb_neq _ _)), (proj2 (Z.ltb_ge _ _)) by lia. cbn [orb].
    rewrite <- (blen_to_be k n) at 1. rewrite next_octets_reading. cbn. rewrite be_to_be by done. by rewrite <- app_assoc.
Qed.

Lemma read_length_inv pre b n r :
  read_length (reading pre b) = (Ok n, r) -> exists l rest, b = l ++ rest /\ valid_length n l /\ r = reading (pre ++ l) rest.
Proof.
  destruct b as [|b rest]; unfold read_length, ber_bind; [by rewrite next_octet_end|]. rewrite next_octet_reading.
  pose proof (u8_bounds b) as Hb. destruct (octet_bit7 (u8 b) Hb) as [-> ->]. cbn zeta. destruct (Z.ltb_spec (u8 b) 128).
  { intros [= <- <-]. exists [b], rest. split_and!; [done| |done]. left. split; [lia|]. by rewrite as_u8_u8. }
  pose proof (Z.mod_pos_bound (u8 b) 128). destruct (Z.eqb_spec (u8 b mod 128) 0); cbn [orb]; [done|].
  destruct (Z.ltb_spec 4 (u8 b mod 128)); [done|].
  destruct (next_octets _ _ _) as [[x| | |] r1] eqn:Hx; try done. apply next_octets_inv in Hx as (rest' & -> & Hl & ->); [|lia].
  intros [= <- <-]. exists (b :: x), rest'. split_and!; [done| |by rewrite <- app_assoc]. right. exists (length x). unfold blen in Hl.
  assert (u8 b mod 128 = u8 b - 128) as Hu by (symmetry; apply Z.mod_unique with 1; lia).
  split_and!; [lia..|pose proof (be_bounds x); unfold blen in *; lia|pose proof (be_bounds x); unfold blen in *; lia|].
  rewrite Hl, Hu, to_be_be. replace (128 + (u8 b - 128)) with (u8 b) by lia. by rewrite as_u8_u8.
Qed.

(** The encoding of a value with the tag [tag] and the length octets [l]. *)
Definition encode_tlv (tag : Z) (l v : bytes) : bytes := as_u8 tag :: l ++ v.

Lemma read_tlv_reading pre tag l v rest :
  0 <= tag < 256 -> valid_length (blen v) l ->
  read_tlv (reading pre (encode_tlv tag l v ++ rest)) = (Ok (tag, v), reading (pre ++ encode_tlv tag l v) rest).
Proof.
  intros Ht Hl. unfold read_tlv, ber_bind, encode_tlv. cbn [app]. rewrite next_octet_reading, u8_as_u8 by done.
  rewrite <- app_assoc, (read_length_reading _ _ _ _ Hl), next_octets_reading. cbn. do 2 f_equal. by rewrite <- !app_assoc.
Qed.

(** The BER reader accepts exactly the encodings: reading a value
    succeeds if and only if what is ahead starts with an octet for the tag,
    a definite length (in the short form or with up to four octets) and as
    many octets as it says; those are returned and the reader stops right
    behind them. *)
Theorem read_tlv_exact pre b tag v r :
  read_tlv (reading pre b) = (Ok (tag, v), r) <->
  exists l rest, 0 <= tag < 256 /\ valid_length (blen v) l /\ b = encode_tlv tag l v ++ rest /\
    r = reading (pre ++ encode_tlv tag l v) rest.
Proof.
  split; [|intros (l & rest & Ht & Hl & -> & ->); by apply read_tlv_reading].
  destruct b as [|t b]; unfold read_tlv, ber_bind; [by rewrite next_octet_end|]. rewrite next_octet_reading.
  destruct (read_length _) as [[n| | |] r1] eqn:Hn; try done. apply read_length_inv in Hn as (l & rest & -> & Hl & ->).
  destruct (next_octets _ _ _) as [[x| | |] r2] eqn:Hx; try done. apply next_octets_inv in Hx as (rest' & -> & Hb & ->).
  2: { destruct Hl as [[? _]|(k & _ & ? & _)]; lia. }
  intros [= <- <- <-]. exists l, rest'. pose proof (u8_bounds t). rewrite Hb. unfold encode_tlv. rewrite as_u8_u8.
  split_and!; [lia|lia|done|cbn [app]; by rewrite <- app_assoc|]. by rewrite <- !app_assoc.
Qed.

(** ** Integers *)

Lemma be_app a b : be (a ++ b) = be a * 256 ^ blen b + be b.
Proof.
  induction b as [|x b IH] using rev_ind; [rewrite app_nil_r; change (be []) with 0; change (256 ^ blen (@nil byte)) with 1; lia|].
  rewrite app_assoc, !be_snoc, IH, blen_app. change (blen [x]) with 1. pose proof (blen_nonneg b).
  rewrite Z.pow_add_r by lia. lia.
Qed.

Lemma be_replicate_zero n : be (replicate n Byte.x00) = 0.
Proof. induction n as [|n IH]; [done|]. rewrite replicate_S_end, be_snoc, IH. done. Qed.

Lemma be_replicate_ff n : be (replicate n Byte.xff) = 256 ^ Z.of_nat n - 1.
Proof.
  induction n as [|n IH]; [done|]. rewrite replicate_S_end, be_snoc, IH. change (u8 Byte.xff) with 255.
  rewrite Nat2Z.inj_succ, Z.pow_succ_r by lia. lia.
Qed.

Lemma to_be_head n v : to_be (S n) v = as_u8 (v / 256 ^ Z.of_nat n) :: to_be n v.
Proof.
  revert v. induction n as [|n IH]; intros v; [by rewrite Z.div_1_r|].
  change (to_be (S (S n)) v) with (to_be (S n) (v / 256) ++ [as_u8 v]). rewrite IH.
  rewrite Z.div_div by lia. rewrite Nat2Z.inj_succ, Z.pow_succ_r by lia. done.
Qed.

(** The two's complement of [v] in [n] octets. *)
Definition encode_signed (n : nat) (v : Z) : bytes := to_be n (v mod 256 ^ Z.of_nat n).

Lemma sign_octet n v :
  - 256 ^ Z.of_nat (S n) <= 2 * v < 256 ^ Z.of_nat (S n) ->
  exists b, encode_signed (S n) v = as_u8 b :: to_be n (v mod 256 ^ Z.of_nat (S n)) /\ 0 <= b < 256 /\ bit_set b 0x80 = (v <? 0).
Proof.
  intros Hv. set (w := v mod 256 ^ Z.of_nat (S n)). exists (w / 256 ^ Z.of_nat n). unfold encode_signed. fold w. rewrite to_be_head.
  assert (0 < 256 ^ Z.of_nat n) as Hp by (apply Z.pow_pos_nonneg; lia).
  assert (256 ^ Z.of_nat (S n) = 256 * 256 ^ Z.of_nat n) as Hs by (rewrite Nat2Z.inj_succ, Z.pow_succ_r; lia).
  assert (w = if v <? 0 then v + 256 ^ Z.of_nat (S n) else v) as Hw.
  { unfold w. destruct (Z.ltb_spec v 0); [|by apply Z.mod_small; lia]. symmetry. apply Z.mod_unique with (-1); lia. }
  assert (0 <= w / 256 ^ Z.of_nat n < 256) as Hb.
  { split; [apply Z.div_pos; destruct (Z.ltb_spec v 0); lia|apply Z.div_lt_upper_bound; destruct (Z.ltb_spec v 0); lia]. }
  split_and!; [done|lia|lia|]. unfold bit_set. destruct (octet_bit7 _ Hb) as [-> _].
  destruct (Z.ltb_spec v 0), (Z.ltb_spec (w / 256 ^ Z.of_nat n) 128) as [Hl|Hl]; try done; exfalso.
  - assert (128 <= w / 256 ^ Z.of_nat n); [apply Z.div_le_lower_bound; lia|lia].
  - assert (w / 256 ^ Z.of_nat n < 128); [apply Z.div_lt_upper_bound; lia|lia].
Qed.

Lemma decode_signed_encode n v :
  (n < 8)%nat -> - 256 ^ Z.of_nat (S n) <= 2 * v < 256 ^ Z.of_nat (S n) -> decode_signed (encode_signed (S n) v) = Ok v.
Proof.
  intros Hn Hv. destruct (sign_octet n v Hv) as (b & He & Hb & Hbit). unfold decode_signed.
  assert (blen (encode_signed (S n) v) = Z.of_nat (S n)) as Hlen by apply blen_to_be.
  rewrite Hlen, (proj2 (Z.eqb_neq _ _)), (proj2 (Z.ltb_ge _ _)) by lia. cbn [orb].
  rewrite He, idx_cons, bind_Ok, <- He, u8_as_u8, Hbit by done. f_equal.
  rewrite be_app, Hlen. unfold encode_signed at 2. rewrite be_to_be by (apply Z.mod_pos_bound, Z.pow_pos_nonneg; lia).
  unfold encode_signed. rewrite length_to_be. set (p := 256 ^ Z.of_nat (S n)) in *.
  assert (256 ^ Z.of_nat (8 - S n) * p = 2 ^ 64) as Hp.
  { unfold p. rewrite <- Z.pow_add_r by lia. replace (Z.of_nat (8 - S n) + Z.of_nat (S n)) with 8 by lia. done. }
  assert (p <= 2 ^ 64) as Hle. { unfold p. change (2 ^ 64) with (256 ^ 8). apply Z.pow_le_mono_r; lia. }
  destruct (Z.ltb_spec v 0).
  - rewrite be_replicate_ff, Z.mul_sub_distr_r, Hp, Z.mul_1_l.
    rewrite <- (Z.mod_unique v p (-1) (v + p)) by lia. unfold as_i64.
    rewrite <- (Z.mod_unique _ (2 ^ 64) 1 (v + 2 ^ 63)) by lia. lia.
  - rewrite be_replicate_zero. rewrite (Z.mod_small v) by lia. unfold as_i64. rewrite Z.mod_small by lia. lia.
Qed.

Lemma decode_unsigned_encode n v :
  (n < 8)%nat -> 0 <= v < 256 ^ Z.of_nat (S n) -> decode_unsigned (to_be (S n) v) = Ok v.
Proof.
  intros Hn Hv. unfold decode_unsigned. rewrite blen_to_be, (proj2 (Z.eqb_neq _ _)), (proj2 (Z.ltb_ge _ _)) by lia. cbn [orb].
  rewrite be_app, be_replicate_zero, be_to_be by lia. done.
Qed.

(** ** Object identifiers *)

Lemma oid_shift_mod c b : oid_shift (c mod 2 ^ 32) b = (c * 128 + u8 b mod 128) mod 2 ^ 32.
Proof.
  unfold oid_shift. rewrite Z.shiftl_mul_pow2 by lia. change (2 ^ 7) with 128. rewrite Z.mul_mod_idemp_l by lia.
  change 0x7f with (Z.ones 7). rewrite Z.land_ones by lia. change (2 ^ 7) with 128.
  set (x := u8 b mod 128). assert (0 <= x < 128) as Hx by (apply Z.mod_pos_bound; lia).
  assert ((c * 128) mod 2 ^ 32 = 128 * (c mod 2 ^ 25)) as ->.
  { rewrite (Z.mul_comm c). change (2 ^ 32) with (128 * 2 ^ 25). by rewrite Z.mul_mod_distr_l by lia. }
  pose proof (Z.mod_pos_bound c (2 ^ 25)) as Hc.
  assert (Z.land (128 * (c mod 2 ^ 25)) x = 0) as Hland.
  { apply Z.bits_inj'. intros n Hn. rewrite Z.land_spec, Z.bits_0, (Z.mul_comm 128). change 128 with (2 ^ 7) at 1.
    destruct (Z.ltb_spec n 7); [by rewrite Z.mul_pow2_bits_low by lia|].
    assert (Z.testbit x n = false) as -> by (rewrite <- (Z.mod_small x (2 ^ 7)) by done; by rewrite Z.mod_pow2_bits_high by lia).
    apply andb_false_r. }
  pose proof (Z.add_lor_land (128 * (c mod 2 ^ 25)) x) as Hadd. rewrite Hland, Z.add_0_r in Hadd. rewrite Hadd.
  apply Z.mod_unique with (c / 2 ^ 25); [lia|]. rewrite (Z.div_mod c (2 ^ 25)) at 1 by lia. lia.
Qed.

(** [n] groups of seven bits, each marked as not the last. *)
Fixpoint arc_prefix (n : nat) (v : Z) : bytes :=
  match n with
  | O => []
  | S n' => arc_prefix n' (v / 128) ++ [as_u8 (128 + v mod 128)]
  end.

(** An arc of an identifier in [n + 1] octets. *)
Definition encode_arc (nv : nat * Z) : bytes := arc_prefix nv.1 (nv.2 / 128) ++ [as_u8 (nv.2 mod 128)].

Definition arc_wf (nv : nat * Z) : Prop := 0 <= nv.2 < 128 ^ (Z.of_nat nv.1 + 1).

Lemma oid_parts_prefix n v c rest parts :
  0 <= v < 128 ^ Z.of_nat n ->
  oid_parts (arc_prefix n v ++ rest) (c mod 2 ^ 32) parts = oid_parts rest ((c * 128 ^ Z.of_nat n + v) mod 2 ^ 32) parts.
Proof.
  revert v c rest. induction n as [|n IH]; intros v c rest Hv.
  - change (128 ^ Z.of_nat 0) with 1 in *. cbn [arc_prefix app]. do 2 f_equal. lia.
  - rewrite Nat2Z.inj_succ, Z.pow_succ_r in * by lia. cbn [arc_prefix]. rewrite <- app_assoc. cbn [app].
    pose proof (Z.mod_pos_bound v 128). pose proof (Z.div_mod v 128). rewrite IH.
    2: { split; [apply Z.div_pos; lia|apply Z.div_lt_upper_bound; lia]. }
    cbn [oid_parts]. rewrite oid_shift_mod, u8_as_u8 by lia. destruct (octet_bit7 (128 + v mod 128)) as [-> _]; [lia|].
    rewrite (proj2 (Z.ltb_ge _ _)) by lia. do 2 f_equal.
    rewrite <- (Z.mod_unique (128 + v mod 128) 128 1 (v mod 128)) by lia. lia.
Qed.

Lemma oid_parts_arc a rest parts :
  arc_wf a -> oid_parts (encode_arc a ++ rest) 0 parts = oid_parts rest 0 (parts ++ [a.2 mod 2 ^ 32]).
Proof.
  destruct a as [n v]. unfold arc_wf, encode_arc. cbn [fst snd]. intros Hv. rewrite Z.add_1_r, Z.pow_succ_r in Hv by lia.
  pose proof (Z.mod_pos_bound v 128). pose proof (Z.div_mod v 128).
  rewrite <- app_assoc. change 0 with (0 mod 2 ^ 32) at 1. rewrite oid_parts_prefix.
  2: { split; [apply Z.div_pos; lia|apply Z.div_lt_upper_bound; lia]. }
  cbn [app oid_parts]. rewrite oid_shift_mod, u8_as_u8 by lia. destruct (octet_bit7 (v mod 128)) as [-> _]; [lia|].
  rewrite (proj2 (Z.ltb_lt _ _)) by lia. rewrite Z.mod_mod by lia. do 4 f_equal. lia.
Qed.

Lemma oid_parts_arcs arcs parts :
  Forall arc_wf arcs -> oid_parts (mjoin (encode_arc <$> arcs)) 0 parts = (parts ++ ((fun a => a.2 mod 2 ^ 32) <$> arcs), 0).
Proof.
  intros Ha. revert parts. induction Ha as [|a arcs Ha _ IH]; intros parts; [by rewrite app_nil_r|].
  cbn [fmap list_fmap mjoin list_join]. change (mjoin (?x :: ?l)) with (x ++ mjoin l). rewrite oid_parts_arc by done.
  rewrite IH, <- app_assoc. done.
Qed.

(** The encoding of the identifier [a.b] followed by [arcs]. *)
Definition encode_oid (a b : Z) (arcs : list (nat * Z)) : bytes := as_u8 (40 * a + b) :: mjoin (encode_arc <$> arcs).

Lemma decode_oid_encode a b arcs :
  0 <= a <= 5 -> 0 <= b < 40 -> Forall arc_wf arcs ->
  decode_oid (encode_oid a b arcs) = Ok (dotted (a :: b :: ((fun x => x.2 mod 2 ^ 32) <$> arcs))).
Proof.
  intros Ha Hb Harcs. unfold decode_oid, encode_oid. set (tl := mjoin _). rewrite blen_cons. pose proof (blen_nonneg tl).
  rewrite (proj2 (Z.eqb_neq _ _)) by lia. rewrite idx_cons, bind_Ok, slice_from_1, bind_Ok, u8_as_u8 by lia. unfold tl.
  rewrite oid_parts_arcs by done. cbn [negb Z.eqb app]. do 4 f_equal.
  - symmetry. apply Z.div_unique with b; lia.
  - f_equal. symmetry. apply Z.mod_unique with a; lia.
Qed.

(** Identifiers and numbers are read as they are written: an object
    identifier whose first two arcs share an octet and whose other arcs have
    32 bits is read as its arcs separated by dots, however many octets each
    arc takes; a signed or unsigned number of one to eight octets as its
    value. *)
Theorem ber_values_roundtrip :
  (forall a b arcs, 0 <= a <= 2 -> 0 <= b < 40 -> Forall arc_wf arcs -> Forall (fun x => x.2 < 2 ^ 32) arcs ->
     decode_oid (encode_oid a b arcs) = Ok (dotted (a :: b :: arcs.*2))) /\
  (forall n v, (n < 8)%nat -> - 256 ^ Z.of_nat (S n) <= 2 * v < 256 ^ Z.of_nat (S n) ->
     decode_signed (encode_signed (S n) v) = Ok v) /\
  (forall n v, (n < 8)%nat -> 0 <= v < 256 ^ Z.of_nat (S n) -> decode_unsigned (to_be (S n) v) = Ok v).
Proof.
  split_and!; [|exact decode_signed_encode|exact decode_unsigned_encode].
  intros a b arcs Ha Hb Hwf Hlt. rewrite decode_oid_encode by (done || lia). do 4 f_equal.
  apply list_fmap_ext. intros i x Hx. eapply Forall_lookup_1 in Hwf, Hlt; [|done..]. unfold arc_wf in Hwf. apply Z.mod_small. lia.
Qed.

(** An arc of more than 32 bits loses its high bits: two identifiers are read
    as one. *)
Example oid_arcs_collide :
  decode_oid (encode_oid 1 3 [(0%nat, 6); (4%nat, 2 ^ 32 + 7)]) = decode_oid (encode_oid 1 3 [(0%nat, 6); (0%nat, 7)]).
Proof. by vm_compute. Qed.

(** Under the arc [2] the second arc may exceed 39: [2.40] is read as [3.0], and
    [2.48], whose first two arcs take two octets, as [3.9.0]. *)
Example oid_joint_arc_misread : decode_oid (bs [120]) = Ok "3.0"%string /\ decode_oid (bs [129; 0]) = Ok "3.9.0"%string.
Proof. by vm_compute. Qed.

(** Continuation octets of zero at the end are accepted. *)
Example oid_open_end_accepted : decode_oid (bs [43; 6; 128]) = Ok "1.3.6"%string.
Proof. by vm_compute. Qed.

(** The identifier of [linkDown] and two numbers. *)
Lemma ber_values_roundtrip_witness :
  decode_oid (encode_oid 1 3 ((fun v => (0%nat, v)) <$> [6; 1; 6; 3; 1; 1; 5; 3])) = Ok "1.3.6.1.6.3.1.1.5.3"%string /\
  decode_signed (encode_signed 2 (-300)) = Ok (-300) /\ decode_unsigned (to_be 4 4000000000) = Ok 4000000000.
Proof.
  destruct ber_values_roundtrip as (Hoid & Hs & Hu). split_and!.
  - rewrite Hoid; [by vm_compute|lia|lia|repeat (apply Forall_cons; split; [by vm_compute|]); done..].
  - apply (Hs 1%nat); [lia|vm_compute; split; done].
  - apply (Hu 3%nat); [lia|vm_compute; split; done].
Defined.
