(* ===== verification/Snmp.v ===== *)
(** * SNMP traps ([src/signals/snmp.rs])

    A datagram is parsed into an event, or becomes a raw event that carries the
    error; duplicates are suppressed, the event is archived, senders that are
    not allowed are dropped, and what is left is published, with a fact when a
    configured pattern matches.  The loop over the socket is a fold of
    [handle_packet] over what arrives. *)

From Stdlib Require Import ZArith Lia ZifyBool String Ascii.
From stdpp Require Import base numbers list option strings pretty gmap fin_maps sorting.
From S2P Require Import Prelude RustStd Jsonl StreamBmp Text Ber.

Local Open Scope Z_scope.
Local Open Scope ber_scope.

Definition OID_SYS_UPTIME : string := "1.3.6.1.2.1.1.3.0".
Definition OID_SNMP_TRAP : string := "1.3.6.1.6.3.1.1.4.1.0".
Definition OID_COLD_START : string := "1.3.6.1.6.3.1.1.5.1".
Definition OID_WARM_START : string := "1.3.6.1.6.3.1.1.5.2".
Definition OID_LINK_DOWN : string := "1.3.6.1.6.3.1.1.5.3".
Definition OID_LINK_UP : string := "1.3.6.1.6.3.1.1.5.4".
Definition OID_AUTH_FAILURE : string := "1.3.6.1.6.3.1.1.5.5".

Record SnmpVarBind := mkVarBind { vb_oid : string; vb_type : string; vb_value : string }.

Record SnmpTrapEvent := mkTrap {
  sn_timestamp_ns : Z;
  sn_peer_addr : string;
  sn_version : string;
  sn_community : string;
  sn_event_type : string;
  sn_trap_oid : string;
  sn_category : string;
  sn_message : string;
  sn_enterprise_oid : string;
  sn_generic_trap : option Z;
  sn_specific_trap : option Z;
  sn_uptime_ticks : option Z;
  sn_varbinds : list SnmpVarBind;
  sn_parse_error : string;
  sn_raw_hex : string;
  sn_raw_len : Z;
  sn_usm_security_name : string;
  sn_usm_auth_protocol : string;
}.

(** ** Variable bindings *)

Definition ber_type_name (tag : Z) : string :=
  if tag =? 0x02 then "integer"
  else if tag =? 0x04 then "octet_string"
  else if tag =? 0x05 then "null"
  else if tag =? 0x06 then "object_identifier"
  else if tag =? 0x40 then "ip_address"
  else if tag =? 0x41 then "counter32"
  else if tag =? 0x42 then "gauge32"
  else if tag =? 0x43 then "timeticks"
  else if tag =? 0x46 then "counter64"
  else "unknown".

Definition decode_value (tag : Z) (value : bytes) : Outcome string string :=
  if tag =? 0x02 then fmt_dec <$> decode_signed value
  else if tag =? 0x04 then Ok (from_utf8_lossy value)
  else if tag =? 0x05 then Ok "null"%string
  else if tag =? 0x06 then decode_oid value
  else if tag =? 0x40 then
    Ok (if blen value =? 4 then String.concat "." (fmt_dec ∘ u8 <$> value) else hex_encode value)
  else if (tag =? 0x41) || (tag =? 0x42) || (tag =? 0x43) || (tag =? 0x46) then fmt_dec <$> decode_unsigned value
  else Ok (hex_encode value).

(** The contents of one binding. *)
Definition parse_varbind : Ber SnmpVarBind :=
  let! oid := read_oid in
  let! tlv := read_tlv in
  let! value := ber_lift (decode_value tlv.1 tlv.2) in
  ber_ret (mkVarBind oid (ber_type_name tlv.1) value).

(** One turn of the loop of [parse_varbinds]. *)
Definition varbind_step (st : BerReader * list SnmpVarBind)
    : Outcome string ((BerReader * list SnmpVarBind) + list SnmpVarBind) :=
  let '(reader, varbinds) := st in
  if is_eof reader then Ok (inr varbinds)
  else
    let '(o, reader) := read_expected 0x30 reader in
    varbind ← o;
    vb ← run parse_varbind varbind;
    Ok (inl (reader, varbinds ++ [vb])).

Definition parse_varbinds (data : bytes) : Outcome string (list SnmpVarBind) :=
  loop (S (length data)) varbind_step (ber_new data, []).

Definition find_varbind_oid (varbinds : list SnmpVarBind) (oid : string) : option string :=
  vb_value <$> List.find (fun vb => bool_decide (vb_oid vb = oid)) varbinds.

Definition find_varbind_u64 (varbinds : list SnmpVarBind) (oid : string) : option Z :=
  find_varbind_oid varbinds oid ≫= parse_unsigned (2 ^ 64).

(** ** Classification *)

Definition contains_any (text : string) (needles : list string) : bool := existsb (fun n => text_contains n text) needles.

(** The text of the bindings, in lower case. *)
Definition varbinds_text (varbinds : list SnmpVarBind) : string :=
  to_ascii_lowercase (String.concat " " ((fun vb => vb_oid vb ++ " " ++ vb_value vb)%string <$> varbinds)).

Definition classify_trap (trap_oid enterprise_oid : string) (generic_trap specific_trap : option Z) (varbinds : list SnmpVarBind)
    : string * string * string :=
  let text := varbinds_text varbinds in
  let message :=
    if negb (blank text) then text
    else if negb (bool_decide (trap_oid = ""%string)) then ("trap oid " ++ trap_oid)%string
    else "snmp trap"%string in
  let named oid n := bool_decide (trap_oid = oid) || bool_decide (generic_trap = Some n) in
  if named OID_COLD_START 0 then ("snmp_cold_start", "startup", "device coldStart trap received")%string
  else if named OID_WARM_START 1 then ("snmp_warm_start", "startup", "device warmStart trap received")%string
  else if named OID_LINK_DOWN 2 then ("snmp_link_down", "interface", "linkDown trap received: " ++ message)%string
  else if named OID_LINK_UP 3 then ("snmp_link_up", "interface", "linkUp trap received: " ++ message)%string
  else if named OID_AUTH_FAILURE 4 || text_contains "auth" text
       then ("snmp_auth_failure", "auth", "authenticationFailure trap received: " ++ message)%string
  else if contains_any text ["psu"; "power"; "temperature"; "thermal"; "fan"; "voltage"; "env"]%string
       then ("snmp_environmental", "environmental", "environmental trap received: " ++ message)%string
  else if contains_any text ["fru"; "linecard"; "line card"; "fabric"; "module"; "chassis"]%string
       then ("snmp_fru_failure", "fru", "fru trap received: " ++ message)%string
  else if bool_decide (generic_trap = Some 6) || starts_with enterprise_oid trap_oid
       then ("snmp_enterprise_specific", "enterprise",
             "enterprise-specific trap " ++ enterprise_oid ++ from_option (fun v => "." ++ fmt_dec v) "" specific_trap ++ ": " ++ message)%string
  else ("snmp_raw", "raw", message)%string.

(** ** Messages *)

Section Trap.
Context (peer_addr : string) (timestamp_ns : Z).

Definition parse_v1_trap (pdu : bytes) (version community : string) : Outcome string SnmpTrapEvent :=
  run
    (let! enterprise_oid := read_oid in
     let! _agent_addr := read_expected 0x40 in
     let! generic_trap := read_integer in
     let! specific_trap := read_integer in
     let! uptime_ticks := read_unsigned 0x43 in
     let! binds := read_expected 0x30 in
     let! varbinds := ber_lift (parse_varbinds binds) in
     let trap_oid :=
       if generic_trap =? 0 then OID_COLD_START
       else if generic_trap =? 1 then OID_WARM_START
       else if generic_trap =? 2 then OID_LINK_DOWN
       else if generic_trap =? 3 then OID_LINK_UP
       else if generic_trap =? 4 then OID_AUTH_FAILURE
       else if generic_trap =? 6 then (enterprise_oid ++ ".0." ++ fmt_dec specific_trap)%string
       else enterprise_oid in
     let '(event_type, category, message) :=
       classify_trap trap_oid enterprise_oid (Some generic_trap) (Some specific_trap) varbinds in
     ber_ret (mkTrap timestamp_ns peer_addr version community event_type trap_oid category message enterprise_oid
                (Some generic_trap) (Some specific_trap) (Some uptime_ticks) varbinds "" "" 0 "" ""))
    pdu.

Definition parse_v2_trap (pdu : bytes) (version community : string) (pdu_tag : Z) : Outcome string SnmpTrapEvent :=
  if negb (in_range 0xA0 0xA8 pdu_tag) then Err ("unexpected snmp pdu tag 0x" ++ tag_text pdu_tag)%string
  else
    run
      (let! _request_id := read_integer in
       let! _error_status := read_integer in
       let! _error_index := read_integer in
       let! binds := read_expected 0x30 in
       let! varbinds := ber_lift (parse_varbinds binds) in
       let trap_oid := default ""%string (find_varbind_oid varbinds OID_SNMP_TRAP) in
       let enterprise_oid := before_sep ".0." trap_oid in
       let uptime_ticks := find_varbind_u64 varbinds OID_SYS_UPTIME in
       let '(event_type, category, message) := classify_trap trap_oid enterprise_oid None None varbinds in
       ber_ret (mkTrap timestamp_ns peer_addr version community event_type trap_oid category message enterprise_oid
                  None None uptime_ticks varbinds "" "" 0 "" ""))
      pdu.

(** The reader goes on whatever each read returned. *)
Definition parse_usm_security_name (params : bytes) : Outcome string string :=
  match run (read_expected 0x30) params with
  | Ok seq =>
      let r := ber_new seq in
      let r := (read_octet_string r).2 in
      let r := (read_tlv r).2 in
      let r := (read_tlv r).2 in
      match (read_octet_string r).1 with
      | Ok name_bytes => Ok (from_utf8_lossy name_bytes)
      | Err _ => Ok ""%string
      | Panic => Panic
      | Diverge => Diverge
      end
  | Err _ => Ok ""%string
  | Panic => Panic
  | Diverge => Diverge
  end.

(** The community or the name of the user, and the PDU with its tag. *)
Definition message_body (version : Z) : Ber (string * Z * bytes) :=
  if (version =? 0) || (version =? 1) then
    let! community := read_octet_string_text in
    let! pdu := read_tlv in
    ber_ret (community, pdu.1, pdu.2)
  else if version =? 3 then
    let! _header := read_expected 0x30 in
    let! usm_params_bytes := read_octet_string in
    let! usm_security_name := ber_lift (parse_usm_security_name usm_params_bytes) in
    let! scoped := read_tlv in
    if negb (scoped.1 =? 0x30)
    then ber_lift (Err "encrypted SNMPv3 scoped PDU (privProtocol != none) is not yet supported"%string)
    else
      let! pdu := ber_lift (run (let! _context_engine_id := read_octet_string in
                                 let! _context_name := read_octet_string in
                                 read_tlv) scoped.2) in
      ber_ret (usm_security_name, pdu.1, pdu.2)
  else ber_lift (Err ("unsupported snmp version " ++ fmt_dec version)%string).

(** [event.raw_hex = ..; event.raw_len = ..; if version == 3 { .. }] *)
Definition finish_event (raw : bytes) (version : Z) (e : SnmpTrapEvent) : SnmpTrapEvent :=
  mkTrap (sn_timestamp_ns e) (sn_peer_addr e) (sn_version e) (if version =? 3 then ""%string else sn_community e) (sn_event_type e)
    (sn_trap_oid e) (sn_category e) (sn_message e) (sn_enterprise_oid e) (sn_generic_trap e) (sn_specific_trap e)
    (sn_uptime_ticks e) (sn_varbinds e) (sn_parse_error e) (hex_encode raw) (blen raw)
    (if version =? 3 then sn_community e else sn_usm_security_name e) (sn_usm_auth_protocol e).

Definition version_name (version : Z) : string :=
  if version =? 0 then "v1" else if version =? 1 then "v2c" else if version =? 3 then "v3" else "unknown".

Definition parse_snmp_message (raw : bytes) : Outcome string SnmpTrapEvent :=
  message ← run (read_expected 0x30) raw;
  body ← run (let! version := read_integer in let! body := message_body version in ber_ret (version, body)) message;
  let '(version, (community, pdu_tag, pdu_content)) := body in
  event ← (if (version =? 0) && (pdu_tag =? 0xA4) then parse_v1_trap pdu_content (version_name version) community
           else parse_v2_trap pdu_content (version_name version) community pdu_tag);
  Ok (finish_event raw version event).

(** [unwrap_or_else]: an event that carries the error. *)
Definition raw_event (raw : bytes) (error : string) : SnmpTrapEvent :=
  mkTrap timestamp_ns peer_addr "unknown" "" "snmp_raw" "" "raw" "unparsed snmp trap" "" None None None [] error
    (hex_encode raw) (blen raw) "" "".

Definition event_of (raw : bytes) : Outcome Empty_set SnmpTrapEvent :=
  match parse_snmp_message raw with
  | Ok e => Ok e
  | Err error => Ok (raw_event raw error)
  | Panic => Panic
  | Diverge => Diverge
  end.

End Trap.

(** ** Facts

    The patterns are read from YAML files by another crate.  A [BTreeMap] is a
    list of pairs in the order of its keys, or a [gmap] where only lookups
    matter. *)

Record IndexSuffixField := mkSuffix { sf_field : string; sf_byte_offset : Z; sf_suffix_type : string }.

Record SnmpOidPattern := mkPattern {
  pt_fact_type : string;
  pt_trap_oid : string;
  pt_fields : list (string * string);
  pt_field_schema : gmap string string;
  pt_index_suffix_fields : list IndexSuffixField;
}.

Record SnmpFact := mkFact {
  fa_timestamp_ns : Z;
  fa_fact_type : string;
  fa_trap_oid : string;
  fa_peer_addr : string;
  fa_enterprise_oid : string;
  fa_field_schema : gmap string string;
  fa_fields : gmap string string;
}.

Definition parse_index_suffix (components : list string) (isf : IndexSuffixField) : option string :=
  let count := Z.abs (sf_byte_offset isf) in
  slice ←
    (if sf_byte_offset isf <? 0 then
       if blen components <? count then None else Some (drop (Z.to_nat (blen components - count)) components)
     else
       let start := sf_byte_offset isf in
       if blen components <? start + count then None
       else Some (take (Z.to_nat count) (drop (Z.to_nat start) components)));
  if bool_decide (sf_suffix_type isf = "ipv4"%string) then
    if negb (blen slice =? 4) then None
    else
      let octets := omap (parse_unsigned 256) slice in
      if negb (blen octets =? 4) then None else Some (String.concat "." (fmt_dec <$> octets))
  else if bool_decide (sf_suffix_type isf = "integer"%string) then
    s ← head slice; fmt_dec <$> parse_i64 s
  else Some (String.concat "." slice).

(** [oid == base || oid.starts_with(&format!("{base}."))], both trimmed. *)
Definition oid_under (base oid : string) : bool := bool_decide (oid = base) || starts_with (base ++ ".") oid.

(** The two loops over the bindings and the fields of a pattern. *)
Definition pattern_fields (p : SnmpOidPattern) (varbinds : list SnmpVarBind) : gmap string string :=
  foldl (fun fields vb =>
    foldl (fun fields field =>
      if oid_under (trim_end_dot_zero field.1) (trim_end_dot_zero (vb_oid vb)) then <[field.2 := vb_value vb]> fields else fields)
      fields (pt_fields p)) ∅ varbinds.

(** The fields encoded in the identifier of the trap. *)
Definition suffix_fields (p : SnmpOidPattern) (trap_oid : string) (fields : gmap string string) : gmap string string :=
  let suffix := default ""%string (strip_prefix (trim_end_dot_zero (pt_trap_oid p)) trap_oid ≫= strip_prefix ".") in
  if bool_decide (suffix = ""%string) then fields
  else
    let components := split_char "."%char suffix in
    foldl (fun fields isf =>
      match parse_index_suffix components isf with Some value => <[sf_field isf := value]> fields | None => fields end)
      fields (pt_index_suffix_fields p).

Definition extract (patterns : list SnmpOidPattern) (event : SnmpTrapEvent) : option SnmpFact :=
  let trap_oid := trim_end_dot_zero (sn_trap_oid event) in
  pattern ← List.find (fun p => oid_under (trim_end_dot_zero (pt_trap_oid p)) trap_oid) patterns;
  Some (mkFact (sn_timestamp_ns event) (pt_fact_type pattern) (sn_trap_oid event) (sn_peer_addr event) (sn_enterprise_oid event)
          (pt_field_schema pattern) (suffix_fields pattern trap_oid (pattern_fields pattern (sn_varbinds event)))).

(** ** The receiver *)

(** [SnmpTargetMap]: the entries keep the address as it is configured. *)
Definition snmp_target_map (targets : list TargetConfig) : list TargetEntry :=
  (fun t => mkTargetEntry (tc_address t) [] (default "" (tc_hostname t)) (default "" (tc_vendor t)) (default "" (tc_role t))
              (default "" (tc_site t)))%string <$> targets.

Definition snmp_resolve (entries : list TargetEntry) (peer_ip : string) : ResolvedTarget :=
  let peer_base := strip_port peer_ip in
  match List.find (fun e => bool_decide (strip_port (te_address e) = peer_base)) entries with
  | Some e => mkResolved (strip_port (te_address e)) (if bool_decide (te_hostname e = ""%string) then peer_base else te_hostname e)
                (te_vendor e) (te_role e) (te_site e)
  | None => mkResolved peer_base peer_base "" "" ""
  end.

(** What is published; the JSON value is the event or the fact itself. *)
Inductive SnmpUpdate :=
| Update_Trap (target : ResolvedTarget) (path : string) (value : SnmpTrapEvent)
| Update_Fact (target : ResolvedTarget) (path : string) (timestamp_ns : Z) (value : SnmpFact).

(** The local state of the loop, the archive and the bus. *)
Record Receiver := mkReceiver {
  dedup_map : gmap (string * string) Z;
  dedup_sweep_ns : Z;
  archive : list SnmpTrapEvent;
  snmp_bus : list SnmpUpdate;
}.

(** The configuration: [v3_users] are security names. *)
Record SnmpConfig := mkSnmpConfig { community_allowlist : list string; v3_users : list string }.

Definition DEDUP_WINDOW_NS : Z := 5000000000.

(** A datagram: where it came from, when, and what the archive and the governor
    said. *)
Record Packet := mkPacket {
  pk_peer_addr : string;
  pk_peer_ip : string;
  pk_timestamp_ns : Z;
  pk_raw : bytes;
  pk_archived : bool;
  pk_shed : bool;
}.

Definition community_blocked (cfg : SnmpConfig) (e : SnmpTrapEvent) : bool :=
  negb (bool_decide (community_allowlist cfg = [])) && negb (bool_decide (sn_community e = ""%string)) &&
  negb (existsb (fun c => bool_decide (c = sn_community e)) (community_allowlist cfg)).

Definition user_blocked (cfg : SnmpConfig) (e : SnmpTrapEvent) : bool :=
  bool_decide (sn_version e = "v3"%string) && negb (bool_decide (v3_users cfg = [])) &&
  negb (existsb (fun u => bool_decide (u = sn_usm_security_name e)) (v3_users cfg)).

(** [if let Some(&prev_ns) = dedup_map.get(&key) { if timestamp_ns - prev_ns < WINDOW { continue } }] *)
Definition is_duplicate (dedup : gmap (string * string) Z) (key : string * string) (timestamp_ns : Z) : bool :=
  match dedup !! key with Some prev_ns => timestamp_ns - prev_ns <? DEDUP_WINDOW_NS | None => false end.

(** [dedup_map.insert] and the periodic sweep. *)
Definition remember (key : string * string) (timestamp_ns : Z) (r : Receiver) : Receiver :=
  let dedup := <[key := timestamp_ns]> (dedup_map r) in
  if 30000000000 <? timestamp_ns - dedup_sweep_ns r
  then mkReceiver (base.filter (fun kv => timestamp_ns - kv.2 < DEDUP_WINDOW_NS) dedup) timestamp_ns (archive r) (snmp_bus r)
  else mkReceiver dedup (dedup_sweep_ns r) (archive r) (snmp_bus r).

Definition append_archive (ok : bool) (e : SnmpTrapEvent) (r : Receiver) : Receiver :=
  if ok then mkReceiver (dedup_map r) (dedup_sweep_ns r) (archive r ++ [e]) (snmp_bus r) else r.

Definition publish (u : SnmpUpdate) (r : Receiver) : Receiver :=
  mkReceiver (dedup_map r) (dedup_sweep_ns r) (archive r) (snmp_bus r ++ [u]).

Section Loop.
Context (cfg : SnmpConfig) (entries : list TargetEntry) (patterns : list SnmpOidPattern).

(** The trap, and the fact if there is one. *)
Definition publish_trap (peer_ip : string) (e : SnmpTrapEvent) (r : Receiver) : Receiver :=
  let resolved := snmp_resolve entries peer_ip in
  let r := publish (Update_Trap resolved ("signals/snmp/" ++ sn_event_type e) e) r in
  match extract patterns e with
  | Some fact => publish (Update_Fact resolved ("signals/snmp_fact/" ++ fa_fact_type fact) (sn_timestamp_ns e) fact) r
  | None => r
  end.

(** What is done with an event that is no duplicate. *)
Definition deliver (p : Packet) (e : SnmpTrapEvent) (r : Receiver) : Receiver :=
  let r := append_archive (pk_archived p) e r in
  if community_blocked cfg e then r
  else if user_blocked cfg e then r
  else if pk_shed p then r
  else publish_trap (pk_peer_ip p) e r.

Definition handle_event (p : Packet) (e : SnmpTrapEvent) (r : Receiver) : Receiver :=
  let dedup_key := (pk_peer_ip p, sn_trap_oid e) in
  if is_duplicate (dedup_map r) dedup_key (pk_timestamp_ns p) then r
  else deliver p e (remember dedup_key (pk_timestamp_ns p) r).

Definition handle_packet (p : Packet) (r : Receiver) : Outcome Empty_set Receiver :=
  e ← event_of (pk_peer_addr p) (pk_timestamp_ns p) (pk_raw p);
  Ok (handle_event p e r).

(** The loop: the datagrams in the order they arrive. *)
Fixpoint run_snmp_receiver (ps : list Packet) (r : Receiver) : Outcome Empty_set Receiver :=
  match ps with
  | [] => Ok r
  | p :: ps' => r ← handle_packet p r; run_snmp_receiver ps' r
  end.

End Loop.

(** ** No datagram stops the receiver *)

(** One read of a sequence of reads: [safe_read lemma] leaves the rest with the
    reader that follows. *)
Ltac safe_read lemma :=
  apply ber_safe_bind; [done|]; eapply ber_safe_mono; [by apply lemma|];
  let a := fresh "a" in let r := fresh "r" in let Ha := fresh "Ha" in
  intros a r Ha _;
  match type of Ha with
  | advances ?r0 _ => let Hwf := fresh "Hwf" in
      assert (reader_wf r) as Hwf by (match goal with H : reader_wf r0 |- _ => exact (advances_wf _ _ H Ha) end)
  end.

Lemma read_integer_safe r : reader_wf r -> ber_safe read_integer r (fun _ _ => True).
Proof.
  intros Hr. safe_read read_expected_safe. apply ber_safe_lift; [done|]. eapply wp_mono; [apply wp_decode_signed|done].
Qed.

Lemma read_unsigned_safe tag r : reader_wf r -> ber_safe (read_unsigned tag) r (fun _ _ => True).
Proof.
  intros Hr. safe_read read_expected_safe. apply ber_safe_lift; [done|]. eapply wp_mono; [apply wp_decode_unsigned|done].
Qed.

Lemma read_oid_safe r : reader_wf r -> ber_safe read_oid r (fun _ _ => True).
Proof. intros Hr. safe_read read_expected_safe. apply ber_safe_lift; [done|apply wp_decode_oid]. Qed.

Lemma read_octet_string_text_safe r : reader_wf r -> ber_safe read_octet_string_text r (fun _ _ => True).
Proof. intros Hr. safe_read read_expected_safe. by apply ber_safe_ret. Qed.

Lemma wp_decode_value tag value : wp False (decode_value tag value) (fun _ => True).
Proof.
  unfold decode_value.
  repeat match goal with |- wp _ (if ?c then _ else _) _ => destruct c end; try done.
  - apply wp_fmap. eapply wp_mono; [apply wp_decode_signed|done].
  - apply wp_decode_oid.
  - apply wp_fmap. eapply wp_mono; [apply wp_decode_unsigned|done].
Qed.

Lemma parse_varbind_safe r : reader_wf r -> ber_safe parse_varbind r (fun _ _ => True).
Proof.
  intros Hr. safe_read read_oid_safe. safe_read read_tlv_safe. apply ber_safe_bind; [done|].
  apply ber_safe_lift; [done|]. eapply wp_mono; [apply wp_decode_value|]. intros v _. by apply ber_safe_ret.
Qed.

Lemma varbind_step_safe st :
  reader_wf st.1 ->
  wp False (varbind_step st) (fun o => match o with
    | inl st' => reader_wf st'.1 /\ ber_data st'.1 = ber_data st.1 /\ ber_pos st.1 < ber_pos st'.1
    | inr _ => True end).
Proof.
  destruct st as [r vbs]. cbn [fst]. intros Hr. unfold varbind_step. destruct (is_eof r); [done|].
  pose proof (read_expected_safe 0x30 r Hr) as Hs. unfold ber_safe in Hs. destruct (read_expected 48 r) as [[v|e| |] r'] eqn:He; try done.
  destruct Hs as [Ha Hp]. pose proof (advances_wf _ _ Hr Ha). rewrite bind_Ok. apply wp_bind.
  eapply wp_mono; [apply ber_safe_run, parse_varbind_safe, reader_wf_new|]. intros vb _. apply wp_ok. cbn [fst].
  destruct Ha as [Hd _]. done.
Qed.

Lemma wp_parse_varbinds data : wp False (parse_varbinds data) (fun _ => True).
Proof.
  unfold parse_varbinds.
  apply (wp_loop _ (fun st => reader_wf st.1 /\ ber_data st.1 = data)
           (fun st => Z.to_nat (blen (ber_data st.1) - ber_pos st.1))).
  - split; [apply reader_wf_new|done].
  - cbn [fst ber_new ber_data ber_pos]. unfold blen. lia.
  - intros st [Hr Hd]. eapply wp_mono; [by apply varbind_step_safe|]. intros [st'|] Hst; [|done].
    destruct Hst as (Hr' & Hd' & Hp). unfold reader_wf in *. rewrite Hd', Hd in *. split; [split; [lia|done]|lia].
Qed.

Section Safe.
Context (peer : string) (ts : Z).

Lemma wp_parse_v1_trap pdu version community : wp False (parse_v1_trap peer ts pdu version community) (fun _ => True).
Proof.
  apply ber_safe_run. pose proof (reader_wf_new pdu).
  safe_read read_oid_safe. safe_read read_expected_safe. safe_read read_integer_safe. safe_read read_integer_safe.
  safe_read read_unsigned_safe. safe_read read_expected_safe. apply ber_safe_bind; [done|]. apply ber_safe_lift; [done|].
  eapply wp_mono; [apply wp_parse_varbinds|]. intros vbs _. cbn zeta. destruct (classify_trap _ _ _ _ _) as [[? ?] ?]. by apply ber_safe_ret.
Qed.

Lemma wp_parse_v2_trap pdu version community tag : wp False (parse_v2_trap peer ts pdu version community tag) (fun _ => True).
Proof.
  unfold parse_v2_trap. destruct (negb _); [done|]. apply ber_safe_run. pose proof (reader_wf_new pdu).
  safe_read read_integer_safe. safe_read read_integer_safe. safe_read read_integer_safe.
  safe_read read_expected_safe. apply ber_safe_bind; [done|]. apply ber_safe_lift; [done|].
  eapply wp_mono; [apply wp_parse_varbinds|]. intros vbs _. cbn zeta. destruct (classify_trap _ _ _ _ _) as [[? ?] ?]. by apply ber_safe_ret.
Qed.

Lemma safe_reader {A} (m : Ber A) r Q : reader_wf r -> ber_safe m r Q -> reader_wf (m r).2.
Proof. intros Hr Hs. unfold ber_safe in Hs. destruct (m r) as [[]]; try done; eapply advances_wf; naive_solver. Qed.

Lemma wp_run_expected tag data : wp False (run (read_expected tag) data) (fun _ => True).
Proof. apply ber_safe_run. eapply ber_safe_mono; [apply read_expected_safe, reader_wf_new|done]. Qed.

Lemma wp_parse_usm_security_name params : wp False (parse_usm_security_name params) (fun _ => True).
Proof.
  unfold parse_usm_security_name.
  assert (wp False (run (read_expected 0x30) params) (fun _ => True)) as Hrun by apply wp_run_expected.
  destruct (run _ _) as [seq| | |]; try done. cbn zeta.
  pose proof (safe_reader _ _ _ (reader_wf_new seq) (read_expected_safe 0x04 _ (reader_wf_new seq))) as Hr1.
  pose proof (safe_reader _ _ _ Hr1 (read_tlv_safe _ Hr1)) as Hr2. pose proof (safe_reader _ _ _ Hr2 (read_tlv_safe _ Hr2)) as Hr3.
  pose proof (read_expected_safe 0x04 _ Hr3) as Hs. unfold ber_safe in Hs.
  change (read_expected 0x04) with read_octet_string in *. destruct (read_octet_string (read_tlv _).2) as [[]]; done.
Qed.

Lemma message_body_safe version r : reader_wf r -> ber_safe (message_body version) r (fun _ _ => True).
Proof.
  intros Hr. unfold message_body. destruct (_ || _).
  { safe_read read_octet_string_text_safe. safe_read read_tlv_safe. by apply ber_safe_ret. }
  destruct (version =? 3); [|by apply ber_safe_lift].
  safe_read read_expected_safe. safe_read read_expected_safe. apply ber_safe_bind; [done|]. apply ber_safe_lift; [done|].
  eapply wp_mono; [apply wp_parse_usm_security_name|]. intros name _. safe_read read_tlv_safe.
  destruct (negb _); [by apply ber_safe_lift|]. apply ber_safe_bind; [done|]. apply ber_safe_lift; [done|].
  eapply wp_mono with (Q := fun _ => True); [|intros pdu _; by apply ber_safe_ret]. apply ber_safe_run.
  pose proof (reader_wf_new a1.2). safe_read read_expected_safe. safe_read read_expected_safe.
  eapply ber_safe_mono; [by apply read_tlv_safe|done].
Qed.

Lemma wp_parse_snmp_message raw : wp False (parse_snmp_message peer ts raw) (fun _ => True).
Proof.
  unfold parse_snmp_message. apply wp_bind.
  eapply wp_mono; [apply wp_run_expected|]. intros message _. apply wp_bind. eapply wp_mono with (Q := fun _ => True).
  { apply ber_safe_run. pose proof (reader_wf_new message). safe_read read_integer_safe. safe_read message_body_safe. by apply ber_safe_ret. }
  intros [version [[community tag] pdu]] _. apply wp_bind.
  eapply wp_mono with (Q := fun _ => True); [|done]. destruct (_ && _); [apply wp_parse_v1_trap|apply wp_parse_v2_trap].
Qed.

(** A datagram always gives an event. *)
Lemma event_of_total raw : exists e, event_of peer ts raw = Ok e.
Proof.
  unfold event_of. pose proof (wp_parse_snmp_message raw) as Hw. destruct (parse_snmp_message peer ts raw); try done; by eexists.
Qed.

End Safe.

(** ** Suppression of duplicates

    The reference remembers every event that was let through. *)
Definition recent (seen : list ((string * string) * Z)) (key : string * string) (ts : Z) : bool :=
  existsb (fun s => bool_decide (s.1 = key) && (ts - s.2 <? DEDUP_WINDOW_NS)) seen.

Section Dedup.
Context (cfg : SnmpConfig) (entries : list TargetEntry) (patterns : list SnmpOidPattern).

Definition ideal_event (p : Packet) (e : SnmpTrapEvent) (st : list ((string * string) * Z) * Receiver)
    : list ((string * string) * Z) * Receiver :=
  let key := (pk_peer_ip p, sn_trap_oid e) in
  if recent st.1 key (pk_timestamp_ns p) then st
  else (st.1 ++ [(key, pk_timestamp_ns p)], deliver cfg entries patterns p e st.2).

(** The event a datagram gives. *)
Definition the_event (p : Packet) : SnmpTrapEvent :=
  match event_of (pk_peer_addr p) (pk_timestamp_ns p) (pk_raw p) with Ok e => e | _ => raw_event "" 0 [] "" end.

Definition ideal_run (ps : list Packet) (r : Receiver) : list ((string * string) * Z) * Receiver :=
  foldl (fun st p => ideal_event p (the_event p) st) ([], r) ps.

(** The map knows what is recent. *)
Definition tracks (now : Z) (m : gmap (string * string) Z) (seen : list ((string * string) * Z)) : Prop :=
  (forall k t, m !! k = Some t -> (k, t) ∈ seen) /\
  (forall k t, (k, t) ∈ seen -> t <= now) /\
  (forall k t, (k, t) ∈ seen -> DEDUP_WINDOW_NS <= now - t \/ exists t', m !! k = Some t' /\ t <= t').

Lemma recent_spec seen key ts :
  recent seen key ts = true <-> exists t, (key, t) ∈ seen /\ ts - t < DEDUP_WINDOW_NS.
Proof.
  unfold recent. rewrite existsb_exists. split.
  - intros ([k t] & Hin & Hb). cbn [fst snd] in Hb. apply andb_true_iff in Hb as [Hk%bool_decide_eq_true Ht%Z.ltb_lt]. subst.
    exists t. split; [by apply list_elem_of_In|done].
  - intros (t & Hin & Ht). exists (key, t). split; [by apply list_elem_of_In|]. cbn [fst snd].
    by rewrite bool_decide_true, (proj2 (Z.ltb_lt _ _)).
Qed.

Lemma tracks_duplicate now m seen key ts :
  tracks now m seen -> now <= ts -> is_duplicate m key ts = recent seen key ts.
Proof.
  intros (Hin & Hnow & Hrec) Hts. apply Bool.eq_iff_eq_true. rewrite recent_spec. unfold is_duplicate. split.
  - destruct (m !! key) as [t|] eqn:Hm; [|done]. intros Ht%Z.ltb_lt. exists t. auto.
  - intros (t & Hs & Ht). destruct (Hrec key t Hs) as [?|(t' & -> & Hle)]; [|apply Z.ltb_lt]; lia.
Qed.

Lemma tracks_later now now' m seen : tracks now m seen -> now <= now' -> tracks now' m seen.
Proof.
  intros (Hin & Hnow & Hrec) Hle. split_and!; [done|intros k t Hs; specialize (Hnow k t Hs); lia|].
  intros k t Hs. destruct (Hrec k t Hs) as [?|?]; [left; lia|by right].
Qed.

Lemma tracks_insert now m seen key : tracks now m seen -> tracks now (<[key := now]> m) (seen ++ [(key, now)]).
Proof.
  intros (Hin & Hnow & Hrec). split_and!.
  - intros k t [[-> ->]|[_ Hm]]%lookup_insert_Some; apply elem_of_app; [right; by apply list_elem_of_singleton|left; auto].
  - intros k t [Hs|[= -> ->]%list_elem_of_singleton]%elem_of_app; [eauto|lia].
  - intros k t [Hs|[= -> ->]%list_elem_of_singleton]%elem_of_app.
    + destruct (decide (k = key)) as [->|Hne].
      * right. exists now. rewrite lookup_insert_eq. eauto.
      * destruct (Hrec k t Hs) as [?|(t' & Hm & Hle)]; [by left|]. right. exists t'. by rewrite lookup_insert_ne.
    + right. exists now. by rewrite lookup_insert_eq.
Qed.

Lemma tracks_sweep now m seen :
  tracks now m seen -> tracks now (base.filter (fun kv => now - kv.2 < DEDUP_WINDOW_NS) m) seen.
Proof.
  intros (Hin & Hnow & Hrec). split_and!; [|done|].
  - intros k t [Hm _]%map_lookup_filter_Some. auto.
  - intros k t Hs. destruct (Z_lt_le_dec (now - t) DEDUP_WINDOW_NS); [|left; lia].
    destruct (Hrec k t Hs) as [?|(t' & Hm & Hle)]; [by left|]. right. exists t'. split; [|done].
    apply map_lookup_filter_Some. cbn [snd]. split; [done|lia].
Qed.

Lemma tracks_remember m seen key ts r :
  dedup_map r = m -> tracks ts m seen -> tracks ts (dedup_map (remember key ts r)) (seen ++ [(key, ts)]).
Proof. intros <- Ht. unfold remember. case_if; [apply tracks_sweep|]; by apply tracks_insert. Qed.

(** What is added to the archive and to the bus. *)
Definition archived (p : Packet) (e : SnmpTrapEvent) : list SnmpTrapEvent := if pk_archived p then [e] else [].

Definition passes (p : Packet) (e : SnmpTrapEvent) : bool := negb (community_blocked cfg e) && negb (user_blocked cfg e) && negb (pk_shed p).

Definition updates (p : Packet) (e : SnmpTrapEvent) : list SnmpUpdate :=
  let resolved := snmp_resolve entries (pk_peer_ip p) in
  Update_Trap resolved ("signals/snmp/" ++ sn_event_type e) e ::
  match extract patterns e with
  | Some fact => [Update_Fact resolved ("signals/snmp_fact/" ++ fa_fact_type fact) (sn_timestamp_ns e) fact]
  | None => []
  end.

Lemma deliver_spec p e r :
  deliver cfg entries patterns p e r =
    mkReceiver (dedup_map r) (dedup_sweep_ns r) (archive r ++ archived p e)
      (snmp_bus r ++ if passes p e then updates p e else []).
Proof.
  destruct r as [m s a b]. unfold deliver, passes, updates, publish_trap, publish, append_archive, archived. cbn zeta.
  destruct (pk_archived p), (community_blocked cfg e), (user_blocked cfg e), (pk_shed p), (extract patterns e);
    cbn [negb andb dedup_map dedup_sweep_ns archive snmp_bus]; rewrite ?app_nil_r, <- ?app_assoc; done.
Qed.

Lemma remember_parts key ts r : archive (remember key ts r) = archive r /\ snmp_bus (remember key ts r) = snmp_bus r.
Proof. unfold remember. by case_if. Qed.

Definition in_order (now : Z) (ps : list Packet) : Prop := Sorted Z.le (now :: (pk_timestamp_ns <$> ps)).

Lemma handle_packet_event p r : handle_packet cfg entries patterns p r = Ok (handle_event cfg entries patterns p (the_event p) r).
Proof.
  unfold handle_packet, the_event. destruct (event_of_total (pk_peer_addr p) (pk_timestamp_ns p) (pk_raw p)) as [e ->]. done.
Qed.

Lemma run_tracks ps now r seen ideal :
  in_order now ps -> tracks now (dedup_map r) seen -> archive r = archive ideal -> snmp_bus r = snmp_bus ideal ->
  exists r', run_snmp_receiver cfg entries patterns ps r = Ok r' /\
    let st := foldl (fun st p => ideal_event p (the_event p) st) (seen, ideal) ps in
    archive r' = archive st.2 /\ snmp_bus r' = snmp_bus st.2.
Proof.
  revert now r seen ideal. induction ps as [|p ps IH]; intros now r seen ideal Hord Ht Ha Hb; [by exists r|].
  cbn [run_snmp_receiver foldl]. rewrite handle_packet_event, bind_Ok. unfold in_order in Hord. cbn [fmap list_fmap] in Hord.
  apply Sorted_inv in Hord as [Hord Hle%HdRel_inv]. apply (tracks_later _ (pk_timestamp_ns p)) in Ht; [|done].
  rewrite (surjective_pairing (ideal_event p (the_event p) (seen, ideal))).
  apply (IH (pk_timestamp_ns p) _ _ _ Hord); unfold handle_event, ideal_event; cbn [fst snd];
    rewrite (tracks_duplicate _ _ _ _ _ Ht (Z.le_refl _)); destruct (recent _ _ _); try done; rewrite !deliver_spec;
    cbn [dedup_map archive snmp_bus fst snd].
  - by eapply tracks_remember.
  - by rewrite (proj1 (remember_parts _ _ r)), Ha.
  - by rewrite (proj2 (remember_parts _ _ r)), Hb.
Qed.

(** Claim C23: if the timestamps of the datagrams never go back, no datagram stops
    the receiver, and the periodic sweep of its memory is not observable: the
    archive and the bus are those of a receiver that remembers every trap it let
    through for ever and ignores exactly those that follow one with the same
    sender and trap by less than the window. *)
Theorem dedup_exact ps sweep :
  Sorted Z.le (pk_timestamp_ns <$> ps) ->
  exists r, run_snmp_receiver cfg entries patterns ps (mkReceiver ∅ sweep [] []) = Ok r /\
    archive r = archive (ideal_run ps (mkReceiver ∅ sweep [] [])).2 /\
    snmp_bus r = snmp_bus (ideal_run ps (mkReceiver ∅ sweep [] [])).2.
Proof.
  intros Hs. set (now := from_option pk_timestamp_ns 0 (head ps)).
  apply (run_tracks ps now); [|split_and!|done..].
  - unfold in_order, now. destruct ps as [|p ps]; cbn in *; constructor; try done; by constructor.
  - cbn [dedup_map]. by intros k t Hl%lookup_empty_Some.
  - by intros k t Hl%elem_of_nil.
  - by intros k t Hl%elem_of_nil.
Qed.

(** In the reference what was let through is apart. *)
Lemma ideal_apart ps r i j k ti tj :
  (i < j)%nat ->
  (ideal_run ps r).1 !! i = Some (k, ti) -> (ideal_run ps r).1 !! j = Some (k, tj) -> DEDUP_WINDOW_NS <= tj - ti.
Proof.
  revert i j k ti tj. unfold ideal_run. assert (forall i j k ti tj, (i < j)%nat -> @nil ((string * string) * Z) !! i = Some (k, ti) ->
    @nil ((string * string) * Z) !! j = Some (k, tj) -> DEDUP_WINDOW_NS <= tj - ti) as Hnil by done.
  revert Hnil. generalize (@nil ((string * string) * Z)) as seen. revert r. induction ps as [|p ps IH]; intros r seen Hseen; [done|].
  cbn [foldl]. rewrite (surjective_pairing (ideal_event p (the_event p) (seen, r))). apply IH.
  unfold ideal_event. cbn [fst snd]. destruct (recent seen _ _) eqn:Hrec; [done|]. cbn [fst].
  intros i j k ti tj Hij Hi Hj. apply lookup_app_Some in Hj as [Hj|[Hlen Hj]].
  - apply lookup_app_Some in Hi as [Hi|[? _]]; [by eapply Hseen|]. apply lookup_lt_Some in Hj. lia.
  - apply list_lookup_singleton_Some in Hj as [Hj [= <- <-]]. apply lookup_app_Some in Hi as [Hi|[? Hi]].
    + destruct (Z_lt_le_dec (pk_timestamp_ns p - ti) DEDUP_WINDOW_NS) as [Hlt|]; [|done].
      assert (recent seen (pk_peer_ip p, sn_trap_oid (the_event p)) (pk_timestamp_ns p) = true); [|congruence].
      apply recent_spec. exists ti. split; [by eapply list_elem_of_lookup_2|done].
    + apply lookup_lt_Some in Hi. simpl in Hi. lia.
Qed.

End Dedup.

(** ** Traps as they are sent *)

(** The length octets a sender may choose: one octet, or four. *)
Definition len_octets (n : Z) : bytes := if n <? 128 then [as_u8 n] else as_u8 132 :: to_be 4 n.

Definition enc (tag : Z) (v : bytes) : bytes := encode_tlv tag (len_octets (blen v)) v.

Lemma len_octets_valid n : 0 <= n < 2 ^ 32 -> valid_length n (len_octets n).
Proof.
  intros Hn. unfold len_octets, valid_length. destruct (Z.ltb_spec n 128); [left; split; [lia|done]|]. right. exists 4%nat.
  change (256 ^ Z.of_nat 4) with (2 ^ 32). split_and!; (lia || done).
Qed.

Lemma enc_larger tag v : blen v < blen (enc tag v).
Proof.
  unfold enc, encode_tlv. rewrite blen_cons, blen_app. pose proof (blen_nonneg (len_octets (blen v))). lia.
Qed.

Lemma read_tlv_enc pre tag v rest :
  0 <= tag < 256 -> blen v < 2 ^ 32 -> read_tlv (reading pre (enc tag v ++ rest)) = (Ok (tag, v), reading (pre ++ enc tag v) rest).
Proof. intros Ht Hv. apply read_tlv_reading; [done|]. apply len_octets_valid. pose proof (blen_nonneg v). lia. Qed.

Lemma read_expected_enc pre tag v rest :
  0 <= tag < 256 -> blen v < 2 ^ 32 -> read_expected tag (reading pre (enc tag v ++ rest)) = (Ok v, reading (pre ++ enc tag v) rest).
Proof. intros Ht Hv. unfold read_expected, ber_bind. rewrite read_tlv_enc by done. cbn [fst snd]. by rewrite Z.eqb_refl. Qed.

Lemma read_integer_enc pre n v rest :
  (n < 8)%nat -> - 256 ^ Z.of_nat (S n) <= 2 * v < 256 ^ Z.of_nat (S n) ->
  read_integer (reading pre (enc 2 (encode_signed (S n) v) ++ rest)) = (Ok v, reading (pre ++ enc 2 (encode_signed (S n) v)) rest).
Proof.
  intros Hn Hv. unfold read_integer, ber_bind. rewrite read_expected_enc; [|lia|unfold encode_signed; rewrite blen_to_be; lia].
  unfold ber_lift. by rewrite decode_signed_encode.
Qed.

(** A variable binding: an identifier, and a value with its text. *)
Record WireBind := mkWire { wb_a : Z; wb_b : Z; wb_arcs : list (nat * Z); wb_tag : Z; wb_value : bytes; wb_text : string }.

Definition bind_wf (w : WireBind) : Prop :=
  0 <= wb_a w <= 2 /\ 0 <= wb_b w < 40 /\ Forall arc_wf (wb_arcs w) /\ 0 <= wb_tag w < 256 /\
  decode_value (wb_tag w) (wb_value w) = Ok (wb_text w).

Definition encode_bind (w : WireBind) : bytes :=
  enc 0x30 (enc 6 (encode_oid (wb_a w) (wb_b w) (wb_arcs w)) ++ enc (wb_tag w) (wb_value w)).

Definition bind_of (w : WireBind) : SnmpVarBind :=
  mkVarBind (dotted (wb_a w :: wb_b w :: ((fun x => x.2 mod 2 ^ 32) <$> wb_arcs w))) (ber_type_name (wb_tag w)) (wb_text w).

Lemma parse_varbind_encode w :
  bind_wf w -> blen (encode_bind w) < 2 ^ 32 ->
  run parse_varbind (enc 6 (encode_oid (wb_a w) (wb_b w) (wb_arcs w)) ++ enc (wb_tag w) (wb_value w)) = Ok (bind_of w).
Proof.
  intros (Ha & Hb & Harcs & Ht & Hv) Hlen. unfold encode_bind in Hlen.
  set (o := encode_oid (wb_a w) (wb_b w) (wb_arcs w)) in *.
  pose proof (enc_larger 48 (enc 6 o ++ enc (wb_tag w) (wb_value w))) as H1. rewrite blen_app in H1.
  pose proof (enc_larger 6 o). pose proof (enc_larger (wb_tag w) (wb_value w)).
  pose proof (blen_nonneg (enc 6 o)). pose proof (blen_nonneg (enc (wb_tag w) (wb_value w))).
  unfold run. change (ber_new ?d) with (reading [] d). unfold parse_varbind, read_oid, ber_bind.
  rewrite read_expected_enc by lia. unfold ber_lift at 1, o. rewrite decode_oid_encode by (done || lia).
  rewrite <- (app_nil_r (enc (wb_tag w) _)), read_tlv_enc by lia. unfold ber_lift. cbn [fst snd]. rewrite Hv. done.
Qed.

Lemma varbind_loop ws pre acc fuel :
  Forall bind_wf ws -> blen (mjoin (encode_bind <$> ws)) < 2 ^ 32 -> (length ws < fuel)%nat ->
  loop fuel varbind_step (reading pre (mjoin (encode_bind <$> ws)), acc) = Ok (acc ++ (bind_of <$> ws)).
Proof.
  intros Hws. revert pre acc fuel. induction Hws as [|w ws Hw _ IH]; intros pre acc fuel Hlen Hf;
    (destruct fuel as [|fuel]; [simpl in Hf; lia|]); rewrite loop_S; unfold varbind_step at 1.
  - cbn [fmap list_fmap]. change (mjoin []) with (@nil byte). unfold is_eof, reading. cbn [ber_data ber_pos].
    rewrite !app_nil_r, (proj2 (Z.leb_le _ _)) by lia. done.
  - cbn [fmap list_fmap] in *. change (mjoin (?x :: ?l)) with (x ++ mjoin l) in *. rewrite blen_app in Hlen.
    pose proof (blen_nonneg (mjoin (encode_bind <$> ws))). pose proof (blen_nonneg (encode_bind w)).
    pose proof (enc_larger 48 (enc 6 (encode_oid (wb_a w) (wb_b w) (wb_arcs w)) ++ enc (wb_tag w) (wb_value w))) as Hlt.
    fold (encode_bind w) in Hlt. unfold is_eof, reading at 1 2. cbn [ber_data ber_pos]. rewrite !blen_app, (proj2 (Z.leb_gt _ _)).
    2: { pose proof (blen_nonneg (enc 6 (encode_oid (wb_a w) (wb_b w) (wb_arcs w)) ++ enc (wb_tag w) (wb_value w))). lia. }
    unfold encode_bind at 1. rewrite read_expected_enc by lia. rewrite bind_Ok, parse_varbind_encode by (done || lia).
    rewrite bind_Ok. fold (encode_bind w). rewrite IH by (simpl in Hf; lia || done). by rewrite <- app_assoc.
Qed.

Lemma length_binds ws : (length ws <= length (mjoin (encode_bind <$> ws)))%nat.
Proof.
  induction ws as [|w ws IH]; [done|]. cbn [fmap list_fmap length]. change (mjoin (?x :: ?l)) with (x ++ mjoin l).
  rewrite length_app. unfold encode_bind at 1, enc at 1, encode_tlv. cbn [length]. lia.
Qed.

Lemma parse_varbinds_encode ws :
  Forall bind_wf ws -> blen (mjoin (encode_bind <$> ws)) < 2 ^ 32 -> parse_varbinds (mjoin (encode_bind <$> ws)) = Ok (bind_of <$> ws).
Proof.
  intros Hws Hlen. unfold parse_varbinds. change (ber_new ?d) with (reading [] d).
  rewrite (varbind_loop ws [] []); [done..|]. pose proof (length_binds ws). lia.
Qed.

(** A notification of version 2c. *)
Record WireTrap := mkWireTrap { wt_community : bytes; wt_request_id : Z; wt_binds : list WireBind }.

Definition encode_pdu (t : WireTrap) : bytes :=
  enc 2 (encode_signed 4 (wt_request_id t)) ++ enc 2 (encode_signed 1 0) ++ enc 2 (encode_signed 1 0) ++
  enc 0x30 (mjoin (encode_bind <$> wt_binds t)).

Definition encode_body (t : WireTrap) : bytes :=
  enc 2 (encode_signed 1 1) ++ enc 4 (wt_community t) ++ enc 0xA7 (encode_pdu t).

Definition encode_trap (t : WireTrap) : bytes := enc 0x30 (encode_body t).

Definition trap_wf (t : WireTrap) : Prop :=
  - 2 ^ 31 <= wt_request_id t < 2 ^ 31 /\ Forall bind_wf (wt_binds t) /\ blen (encode_trap t) < 2 ^ 32.

(** The parts of a message are shorter than it. *)
Lemma trap_sizes t :
  trap_wf t -> blen (encode_body t) < 2 ^ 32 /\ blen (wt_community t) < 2 ^ 32 /\ blen (encode_pdu t) < 2 ^ 32 /\
    blen (mjoin (encode_bind <$> wt_binds t)) < 2 ^ 32.
Proof.
  intros (_ & _ & Hlen). pose proof (enc_larger 0x30 (encode_body t)) as Hb. fold (encode_trap t) in Hb.
  assert (blen (encode_body t) = blen (enc 2 (encode_signed 1 1)) + (blen (enc 4 (wt_community t)) + blen (enc 0xA7 (encode_pdu t))))
    as Hbody by (unfold encode_body; by rewrite !blen_app).
  pose proof (enc_larger 4 (wt_community t)). pose proof (enc_larger 0xA7 (encode_pdu t)).
  pose proof (blen_nonneg (enc 2 (encode_signed 1 1))). pose proof (blen_nonneg (wt_community t)). pose proof (blen_nonneg (encode_pdu t)).
  assert (blen (mjoin (encode_bind <$> wt_binds t)) < blen (encode_pdu t)).
  { unfold encode_pdu. rewrite !blen_app. pose proof (enc_larger 0x30 (mjoin (encode_bind <$> wt_binds t))).
    pose proof (blen_nonneg (enc 2 (encode_signed 4 (wt_request_id t)))). pose proof (blen_nonneg (enc 2 (encode_signed 1 0))). lia. }
  lia.
Qed.

(** The event it gives, before the raw octets are added. *)
Definition trap_event (peer : string) (ts : Z) (t : WireTrap) : SnmpTrapEvent :=
  let varbinds := bind_of <$> wt_binds t in
  let trap_oid := default ""%string (find_varbind_oid varbinds OID_SNMP_TRAP) in
  let enterprise_oid := before_sep ".0." trap_oid in
  let '(event_type, category, message) := classify_trap trap_oid enterprise_oid None None varbinds in
  mkTrap ts peer "v2c" (from_utf8_lossy (wt_community t)) event_type trap_oid category message enterprise_oid None None
    (find_varbind_u64 varbinds OID_SYS_UPTIME) varbinds "" "" 0 "" "".

Lemma parse_v2_encode peer ts t :
  trap_wf t -> parse_v2_trap peer ts (encode_pdu t) "v2c" (from_utf8_lossy (wt_community t)) 0xA7 = Ok (trap_event peer ts t).
Proof.
  intros Hwf. pose proof (trap_sizes t Hwf) as (_ & _ & _ & Hvb). destruct Hwf as (Hid & Hbinds & _).
  unfold parse_v2_trap. cbn [in_range]. change (negb (in_range 160 168 167)) with false. cbn match.
  unfold run, encode_pdu. change (ber_new ?d) with (reading [] d). unfold ber_bind.
  rewrite (read_integer_enc [] 3) by (cbn; lia). rewrite (read_integer_enc _ 0) by (cbn; lia).
  rewrite (read_integer_enc _ 0) by (cbn; lia). rewrite <- (app_nil_r (enc 48 _)), read_expected_enc by lia.
  unfold ber_lift. rewrite parse_varbinds_encode by done. unfold trap_event. cbn zeta. by destruct (classify_trap _ _ _ _ _) as [[? ?] ?].
Qed.

Lemma parse_encoded_trap peer ts t :
  trap_wf t -> parse_snmp_message peer ts (encode_trap t) = Ok (finish_event (encode_trap t) 1 (trap_event peer ts t)).
Proof.
  intros Hwf. pose proof (trap_sizes t Hwf) as (Hbody & Hcom & Hpdu & _). unfold parse_snmp_message.
  assert (run (read_expected 0x30) (encode_trap t) = Ok (encode_body t)) as ->.
  { unfold run, encode_trap. change (ber_new ?d) with (reading [] d). rewrite <- (app_nil_r (enc 48 _)). by rewrite read_expected_enc by lia. }
  rewrite bind_Ok.
  assert (run (let! version := read_integer in let! body := message_body version in ber_ret (version, body)) (encode_body t) =
            Ok (1, (from_utf8_lossy (wt_community t), 0xA7, encode_pdu t))) as ->.
  { unfold run, encode_body. change (ber_new ?d) with (reading [] d). unfold ber_bind at 1. rewrite (read_integer_enc [] 0) by (cbn; lia).
    unfold message_body. cbn [Z.eqb Pos.eqb orb]. unfold read_octet_string_text, read_octet_string, ber_bind, ber_ret.
    rewrite read_expected_enc by lia. rewrite <- (app_nil_r (enc 167 _)), read_tlv_enc by lia. done. }
  rewrite bind_Ok. cbn [Z.eqb Pos.eqb andb]. change (version_name 1) with "v2c"%string. by rewrite parse_v2_encode.
Qed.


(** ** Who is let through *)

Section Filtering.
Context (cfg : SnmpConfig) (entries : list TargetEntry) (patterns : list SnmpOidPattern).

Lemma handle_fresh p r :
  is_duplicate (dedup_map r) (pk_peer_ip p, sn_trap_oid (the_event p)) (pk_timestamp_ns p) = false ->
  exists m s, handle_packet cfg entries patterns p r =
    Ok (mkReceiver m s (archive r ++ archived p (the_event p))
          (snmp_bus r ++ if passes cfg p (the_event p) then updates entries patterns p (the_event p) else [])) /\
    m !! (pk_peer_ip p, sn_trap_oid (the_event p)) = Some (pk_timestamp_ns p).
Proof.
  intros Hd. rewrite handle_packet_event. unfold handle_event. cbn zeta. rewrite Hd, deliver_spec.
  destruct (remember_parts (pk_peer_ip p, sn_trap_oid (the_event p)) (pk_timestamp_ns p) r) as [-> ->].
  eexists _, _. split; [done|]. unfold remember. case_if; cbn [dedup_map]; [|by rewrite lookup_insert_eq].
  apply map_lookup_filter_Some. rewrite lookup_insert_eq. split; [done|]. cbn [snd]. unfold DEDUP_WINDOW_NS. lia.
Qed.

Lemma handle_duplicate p r :
  is_duplicate (dedup_map r) (pk_peer_ip p, sn_trap_oid (the_event p)) (pk_timestamp_ns p) = true ->
  handle_packet cfg entries patterns p r = Ok r.
Proof. intros Hd. rewrite handle_packet_event. unfold handle_event. cbn zeta. by rewrite Hd. Qed.

(** A trap that is dropped still counts as seen.  When a trap whose
    community is not allowed (anyone can send one with a forged sender)
    arrives less than five seconds before a genuine trap of the same device
    and kind, the genuine one is neither published nor archived. *)
Theorem forged_trap_masks p q r :
  is_duplicate (dedup_map r) (pk_peer_ip p, sn_trap_oid (the_event p)) (pk_timestamp_ns p) = false ->
  community_blocked cfg (the_event p) = true ->
  pk_peer_ip q = pk_peer_ip p -> sn_trap_oid (the_event q) = sn_trap_oid (the_event p) ->
  pk_timestamp_ns q - pk_timestamp_ns p < DEDUP_WINDOW_NS ->
  exists r', run_snmp_receiver cfg entries patterns [p; q] r = Ok r' /\
    snmp_bus r' = snmp_bus r /\ archive r' = archive r ++ archived p (the_event p).
Proof.
  intros Hd Hblock Hip Hoid Ht. destruct (handle_fresh p r Hd) as (m & s & Hp & Hm). cbn [run_snmp_receiver]. rewrite Hp, bind_Ok.
  rewrite handle_duplicate.
  - eexists. split; [done|]. cbn [snmp_bus archive]. unfold passes. rewrite Hblock. cbn [negb andb]. by rewrite app_nil_r.
  - cbn [dedup_map]. rewrite Hip, Hoid. unfold is_duplicate. rewrite Hm. by apply Z.ltb_lt.
Qed.

(** The list of communities does not bind a sender that names none.  A
    trap of version 2c with an empty community is published whatever the list
    allows, if it is the first of its kind and nothing is shed. *)
Theorem empty_community_admitted p t r :
  pk_raw p = encode_trap t -> trap_wf t -> wt_community t = [] -> pk_shed p = false ->
  is_duplicate (dedup_map r) (pk_peer_ip p, sn_trap_oid (the_event p)) (pk_timestamp_ns p) = false ->
  exists r' u us, handle_packet cfg entries patterns p r = Ok r' /\ snmp_bus r' = snmp_bus r ++ u :: us /\
    u = Update_Trap (snmp_resolve entries (pk_peer_ip p)) ("signals/snmp/" ++ sn_event_type (the_event p)) (the_event p).
Proof.
  intros Hraw Hwf Hcom Hshed Hd. destruct (handle_fresh p r Hd) as (m & s & Hp & _). rewrite Hp.
  assert (passes cfg p (the_event p) = true) as ->.
  { unfold passes, the_event, event_of. rewrite Hraw.
    rewrite (parse_encoded_trap _ _ _ Hwf), Hshed. unfold community_blocked, user_blocked, trap_event. cbn zeta.
    destruct (classify_trap _ _ _ _ _) as [[? ?] ?]. cbn [finish_event sn_community sn_version Z.eqb]. rewrite Hcom.
    change (from_utf8_lossy []) with ""%string. rewrite (bool_decide_true (""%string = ""%string)) by done.
    rewrite andb_false_r. done. }
  eexists _, _, _. split; [done|]. split; [cbn [snmp_bus]; unfold updates; cbn zeta; done|done].
Qed.

End Filtering.

(** ** Facts *)

(** A pattern is for an identifier and for those below it, not for identifiers
    that merely start with the same characters. *)
Lemma oid_under_spec base oid : oid_under base oid = true <-> oid = base \/ exists s, oid = (base ++ "." ++ s)%string.
Proof.
  unfold oid_under. rewrite orb_true_iff, bool_decide_eq_true, starts_with_spec. by setoid_rewrite string_app_assoc.
Qed.

(** The first pattern that is for the trap gives the fact. *)
Lemma extract_first patterns e f :
  extract patterns e = Some f <->
  exists before_ p after_, patterns = before_ ++ p :: after_ /\
    Forall (fun q => oid_under (trim_end_dot_zero (pt_trap_oid q)) (trim_end_dot_zero (sn_trap_oid e)) = false) before_ /\
    oid_under (trim_end_dot_zero (pt_trap_oid p)) (trim_end_dot_zero (sn_trap_oid e)) = true /\
    f = mkFact (sn_timestamp_ns e) (pt_fact_type p) (sn_trap_oid e) (sn_peer_addr e) (sn_enterprise_oid e) (pt_field_schema p)
          (suffix_fields p (trim_end_dot_zero (sn_trap_oid e)) (pattern_fields p (sn_varbinds e))).
Proof.
  unfold extract. cbn zeta. induction patterns as [|q patterns IH]; cbn [List.find].
  { split; [done|]. intros (b & p & a & Hl & _). by destruct b. }
  destruct (oid_under _ _) eqn:Hq.
  - cbn. split.
    + intros [= <-]. exists [], q, patterns. done.
    + intros (b & p & a & Hl & Hb & Hp & ->). destruct b as [|q' b]; [by injection Hl as -> ->|].
      injection Hl as <- _. apply Forall_cons in Hb as [Hb _]. congruence.
  - rewrite IH. split; intros (b & p & a & Hl & Hb & Hp & Hf).
    + exists (q :: b), p, a. rewrite Hl. split_and!; [done|by constructor|done|done].
    + destruct b as [|q' b]; [injection Hl as -> ->; congruence|]. injection Hl as -> ->. apply Forall_cons in Hb as [_ Hb].
      by exists b, p, a.
Qed.

(** ** Instances *)

Section Demo.

Definition octet_arcs (l : list Z) : list (nat * Z) := (fun v => (0%nat, v)) <$> l.

Definition link_down : bytes := encode_oid 1 3 (octet_arcs [6; 1; 6; 3; 1; 1; 5; 3]).

(** [sysUpTime], [snmpTrapOID] and [ifIndex]. *)
Definition demo_binds : list WireBind :=
  [mkWire 1 3 (octet_arcs [6; 1; 2; 1; 1; 3; 0]) 0x43 (to_be 4 123456) "123456";
   mkWire 1 3 (octet_arcs [6; 1; 6; 3; 1; 1; 4; 1; 0]) 0x06 link_down "1.3.6.1.6.3.1.1.5.3";
   mkWire 1 3 (octet_arcs [6; 1; 2; 1; 2; 2; 1; 1; 7]) 0x02 (encode_signed 1 7) "7"].

Definition demo_wire (community : bytes) : WireTrap := mkWireTrap community 42 demo_binds.

Lemma demo_binds_wf : Forall bind_wf demo_binds.
Proof.
  repeat (apply Forall_cons; split; [split_and!; [done..| |done|done|by vm_compute]|]); [..|done].
  all: repeat (apply Forall_cons; split; [by vm_compute|]); done.
Qed.

Lemma demo_wire_wf community : blen community < 100 -> trap_wf (demo_wire community).
Proof.
  intros Hc. split_and!; [done|done|exact demo_binds_wf|]. unfold encode_trap, enc at 1, encode_tlv. rewrite blen_cons, blen_app.
  assert (blen (len_octets (blen (encode_body (demo_wire community)))) <= 5) by (unfold len_octets; case_if; by vm_compute).
  assert (blen (encode_body (demo_wire community)) < 300); [|lia]. unfold encode_body. rewrite !blen_app.
  unfold enc at 2, encode_tlv. rewrite blen_cons, blen_app.
  assert (blen (len_octets (blen (wt_community (demo_wire community)))) <= 5) by (unfold len_octets; case_if; by vm_compute).
  cbn [wt_community demo_wire] in *.
  assert (blen (enc 2 (encode_signed 1 1)) = 3) as -> by (by vm_compute).
  assert (blen (enc 0xA7 (encode_pdu (demo_wire community))) < 150) by (by vm_compute). lia.
Qed.


Definition demo_packet (community : bytes) (ts : Z) : Packet :=
  mkPacket "10.0.0.1:162" "10.0.0.1" ts (encode_trap (demo_wire community)) true false.

Definition demo_snmp_config : SnmpConfig := mkSnmpConfig ["pub"%string] [].

Definition receiver_start : Receiver := mkReceiver ∅ 0 [] [].

(** The second trap is suppressed, the third is not. *)
Lemma dedup_exact_witness :
  exists r, run_snmp_receiver demo_snmp_config [] [] (demo_packet (bs [112; 117; 98]) <$> [1; 2; 5000000001]) receiver_start = Ok r /\
    sn_timestamp_ns <$> archive r = [1; 5000000001].
Proof.
  destruct (dedup_exact demo_snmp_config [] [] (demo_packet (bs [112; 117; 98]) <$> [1; 2; 5000000001]) 0) as (r & Hr & Ha & _).
  { repeat constructor; by vm_compute. }
  exists r. split; [exact Hr|]. rewrite Ha. vm_compute. reflexivity.
Defined.

(** A trap with another community masks the genuine one. *)
Lemma forged_trap_masks_witness :
  exists r, run_snmp_receiver demo_snmp_config [] [] [demo_packet (bs [120]) 1; demo_packet (bs [112; 117; 98]) 2] receiver_start = Ok r /\
    snmp_bus r = [] /\ sn_community <$> archive r = ["x"%string].
Proof.
  destruct (forged_trap_masks demo_snmp_config [] [] (demo_packet (bs [120]) 1) (demo_packet (bs [112; 117; 98]) 2) receiver_start)
    as (r & Hr & Hb & Ha); [vm_compute; reflexivity..|].
  exists r. split; [exact Hr|]. rewrite Hb, Ha. split_and!; vm_compute; reflexivity.
Defined.

(** No community, and the trap is published. *)
Lemma empty_community_admitted_witness :
  exists r u us, handle_packet demo_snmp_config [] [] (demo_packet [] 1) receiver_start = Ok r /\ snmp_bus r = u :: us.
Proof.
  destruct (empty_community_admitted demo_snmp_config [] [] (demo_packet [] 1) (demo_wire []) receiver_start)
    as (r & u & us & Hr & Hb & _); [done|by apply demo_wire_wf|done|done|by vm_compute|].
  exists r, u, us. split; [exact Hr|exact Hb].
Defined.

(** A table indexed by an instance and the address of a peer. *)
Definition peer_pattern : SnmpOidPattern := mkPattern "bgp_peer" "1.3.6.1.4.1.9" [] ∅ [mkSuffix "peer" (-4) "ipv4"].

Definition peer_of (trap_oid : string) : option string :=
  suffix_fields peer_pattern (trim_end_dot_zero trap_oid) ∅ !! "peer"%string.

(** Zeros at the end of an identifier are trimmed before the index is read: a
    peer whose address ends in zero is lost, or another address is reported. *)
Example index_zeros_trimmed :
  peer_of "1.3.6.1.4.1.9.5.192.0.2.1" = Some "192.0.2.1"%string /\
  peer_of "1.3.6.1.4.1.9.192.0.2.0" = None /\
  peer_of "1.3.6.1.4.1.9.5.192.0.2.0" = Some "5.192.0.2"%string.
Proof. by vm_compute. Qed.

End Demo.
