(* ===== verification/Trust.v ===== *)
(** * Trust in remediations ([src/remediation/trust.rs], [graduation.rs], [rollback.rs])

    How far a remediation may run on its own is kept per tuple of rule, kind of
    environment, site and playbook: a trust record with a state and counters.
    The records are written to a file by background threads; [graduation.rs]
    tells when a tuple is ready for more autonomy, [rollback.rs] keeps the time
    windows in which an execution can be undone. *)

From Stdlib Require Import ZArith Lia ZifyBool.
From stdpp Require Import base numbers list option strings gmap fin_maps.
From S2P Require Import Prelude RustStd HashMaps.

Local Open Scope Z_scope.

(** Nothing here returns an error; an overflow may panic. *)
Notation Run A := (Outcome Empty_set A).

(** ** Trust states *)

Inductive TrustState := SuggestOnly | ApproveEach | AutoWithNotification | AutoSilent.

#[global] Instance trust_state_eq_dec : EqDecision TrustState.
Proof. solve_decision. Defined.

Definition as_str (s : TrustState) : string :=
  match s with
  | SuggestOnly => "suggest_only"
  | ApproveEach => "approve_each"
  | AutoWithNotification => "auto_with_notification"
  | AutoSilent => "auto_silent"
  end.

Definition parse_state (s : string) : TrustState :=
  if bool_decide (s = "suggest_only"%string) then SuggestOnly
  else if bool_decide (s = "auto_with_notification"%string) then AutoWithNotification
  else if bool_decide (s = "auto_silent"%string) then AutoSilent
  else ApproveEach.

Definition requires_approval (s : TrustState) : bool :=
  match s with SuggestOnly | ApproveEach => true | _ => false end.

(** ** Keys *)

Record TrustKey := mkTrustKey {
  rule_id : string;
  environment_archetype : string;
  site_id : string;
  playbook_id : string;
}.

Definition to_storage_key (k : TrustKey) : string :=
  (rule_id k ++ ":" ++ environment_archetype k ++ ":" ++ site_id k ++ ":" ++ playbook_id k)%string.

(** ** Records *)

Record TrustRecord := mkTrustRecord {
  tr_state : TrustState;
  consecutive_successes : Z;
  last_success_at_ns : Z;
  total_failures : Z;
  operator_approvals : Z;
  operator_rejections : Z;
  updated_at_ns : Z;
}.

Definition record_default : TrustRecord := mkTrustRecord ApproveEach 0 0 0 0 0 0.

(** [TrustRecord { state, ..Default::default() }] *)
Definition record_with_state (s : TrustState) : TrustRecord := mkTrustRecord s 0 0 0 0 0 0.

(** ** Configuration (the fields that are read) *)

Record RemediationDefaultsConfig := mkDefaults {
  home_lab : string;
  data_center : string;
  service_provider : string;
  campus_wired : string;
  campus_wireless : string;
}.

Record RemediationConfig := mkRemediationConfig {
  rollback_window_secs : Z;
  consecutive_approvals_required : Z;
  defaults : RemediationDefaultsConfig;
  rule_defaults : gmap string RemediationDefaultsConfig;
}.

Definition default_state_for (config : RemediationConfig) (rule_id archetype : string) : TrustState :=
  let defaults := default (defaults config) (rule_defaults config !! rule_id) in
  let s :=
    if bool_decide (archetype = "home_lab"%string) then home_lab defaults
    else if bool_decide (archetype = "data_center"%string) then data_center defaults
    else if bool_decide (archetype = "service_provider"%string) then service_provider defaults
    else if bool_decide (archetype = "campus_wired"%string) then campus_wired defaults
    else if bool_decide (archetype = "campus_wireless"%string) then campus_wireless defaults
    else ""%string in
  parse_state s.

(** ** The store and its file

    [serde_json] for a map of records. *)
Class TrustJson := {
  trust_to_json : gmap string TrustRecord -> option bytes;
  trust_from_json : bytes -> option (gmap string TrustRecord);
  trust_json_round : forall m text, trust_to_json m = Some text -> trust_from_json text = Some m;
}.

(** Beside the store, its file and the texts that background threads have yet
    to write to it. *)
Record TrustStore := mkTrustStore {
  records : gmap string TrustRecord;
  ts_config : RemediationConfig;
  trust_file : option bytes;
  writers : list bytes;
}.

Section Store.
Context `{TrustJson, BuildProfile}.

Definition load (file : option bytes) (config : RemediationConfig) : TrustStore :=
  mkTrustStore (default ∅ (file ≫= trust_from_json)) config file [].

(** A thread is spawned with the text; an error of the serialiser is logged. *)
Definition persist (s : TrustStore) : TrustStore :=
  match trust_to_json (records s) with
  | Some json => mkTrustStore (records s) (ts_config s) (trust_file s) (writers s ++ [json])
  | None => s
  end.

Definition set_record (k : string) (r : TrustRecord) (s : TrustStore) : TrustStore :=
  mkTrustStore (<[k := r]> (records s)) (ts_config s) (trust_file s) (writers s).

Definition get_or_default (key : TrustKey) (s : TrustStore) : TrustStore * TrustRecord :=
  let k := to_storage_key key in
  match records s !! k with
  | Some r => (s, r)
  | None =>
      let r := record_with_state (default_state_for (ts_config s) (rule_id key) (environment_archetype key)) in
      (set_record k r s, r)
  end.

Definition get (key : TrustKey) (s : TrustStore) : option TrustRecord := records s !! to_storage_key key.

(** [self.records.entry(key.to_storage_key()).or_default()] *)
Definition entry (key : TrustKey) (s : TrustStore) : TrustRecord := default record_default (get key s).

(** The record of the key is replaced and the store persisted. *)
Definition update (key : TrustKey) (r : TrustRecord) (s : TrustStore) : TrustStore :=
  persist (set_record (to_storage_key key) r s).

Definition record_approval (key : TrustKey) (ts_ns : Z) (s : TrustStore) : Run TrustStore :=
  let r := entry key s in
  approvals ← checked_width 32 (operator_approvals r + 1);
  successes ← checked_width 32 (consecutive_successes r + 1);
  Ok (update key (mkTrustRecord (tr_state r) successes ts_ns (total_failures r) approvals (operator_rejections r) ts_ns) s).

Definition record_rejection (key : TrustKey) (ts_ns : Z) (s : TrustStore) : Run TrustStore :=
  let r := entry key s in
  rejections ← checked_width 32 (operator_rejections r + 1);
  Ok (update key (mkTrustRecord (tr_state r) 0 (last_success_at_ns r) (total_failures r) (operator_approvals r) rejections ts_ns) s).

Definition record_auto_success (key : TrustKey) (ts_ns : Z) (s : TrustStore) : Run TrustStore :=
  let r := entry key s in
  successes ← checked_width 32 (consecutive_successes r + 1);
  let failures := if 10 <=? successes then 0 else total_failures r in
  Ok (update key (mkTrustRecord (tr_state r) successes ts_ns failures (operator_approvals r) (operator_rejections r) ts_ns) s).

Definition record_failure (key : TrustKey) (ts_ns : Z) (s : TrustStore) : Run TrustStore :=
  let r := entry key s in
  failures ← checked_width 32 (total_failures r + 1);
  Ok (update key (mkTrustRecord (tr_state r) 0 (last_success_at_ns r) failures (operator_approvals r) (operator_rejections r) ts_ns) s).

Definition set_trust_state (key : TrustKey) (state : TrustState) (ts_ns : Z) (s : TrustStore) : TrustStore :=
  let r := entry key s in
  update key (mkTrustRecord state (consecutive_successes r) (last_success_at_ns r) (total_failures r) (operator_approvals r)
                (operator_rejections r) ts_ns) s.

End Store.

(** ** Graduation *)

Record GraduationHint := mkHint {
  gh_trust_key : string;
  from_state : string;
  to_state : string;
  gh_reason : string;
  consecutive_approvals : Z;
}.

Definition check_graduation (trust_key : string) (record : TrustRecord) (consecutive_required : Z) : option GraduationHint :=
  if (0 <? operator_rejections record) || (consecutive_successes record <? consecutive_required) then None
  else
    let hint from to :=
      Some (mkHint trust_key (as_str from) (as_str to)
              (fmt_dec (consecutive_successes record) ++ " consecutive approvals, 0 rejections — ready to graduate")
              (operator_approvals record)) in
    match tr_state record with
    | SuggestOnly => if consecutive_required <=? operator_approvals record then hint SuggestOnly ApproveEach else None
    | ApproveEach => if consecutive_required <=? operator_approvals record then hint ApproveEach AutoWithNotification else None
    | _ => None
    end.

(** ** Rollback windows *)

Record RollbackState := mkRollback {
  proposal_id : string;
  remediation_id : string;
  executed_at_ns : Z;
  window_secs : Z;
  snapshot_json : string;
  rolled_back : bool;
}.

(** [serde_json] for a map of windows. *)
Class RollbackJson := {
  rollback_to_json : gmap string RollbackState -> option bytes;
  rollback_from_json : bytes -> option (gmap string RollbackState);
  rollback_json_round : forall m text, rollback_to_json m = Some text -> rollback_from_json text = Some m;
}.

(** [rr_file] is the content of the file, if there is a path. *)
Record RollbackRegistry := mkRegistry { rr_states : gmap string RollbackState; rr_file : option (option bytes) }.

Section Rollback.
Context `{RollbackJson, BuildProfile, HashOrder}.

Definition is_expired (now_ns : Z) (s : RollbackState) : Run bool :=
  if rolled_back s then Ok true
  else
    age ← checked_i64 (now_ns - executed_at_ns s);
    window ← checked_i64 (as_i64 (window_secs s) * 1000000000);
    Ok (window <? age).

Definition registry_load (file : option bytes) : RollbackRegistry :=
  mkRegistry (default ∅ (file ≫= rollback_from_json)) (Some file).

(** A write that fails is ignored: [ok] says whether it succeeds. *)
Definition registry_persist (ok : bool) (r : RollbackRegistry) : RollbackRegistry :=
  match rr_file r, rollback_to_json (rr_states r) with
  | Some _, Some json => if ok then mkRegistry (rr_states r) (Some (Some json)) else r
  | _, _ => r
  end.

Definition register (ok : bool) (s : RollbackState) (r : RollbackRegistry) : RollbackRegistry :=
  registry_persist ok (mkRegistry (<[proposal_id s := s]> (rr_states r)) (rr_file r)).

Definition registry_get (id : string) (r : RollbackRegistry) : option RollbackState := rr_states r !! id.

(** [self.states.values()] in the order of the hash map. *)
Definition registry_values (r : RollbackRegistry) : list RollbackState :=
  omap (fun k => rr_states r !! k) (hash_keys (rr_states r)).

(** [iter().filter(|s| !s.is_expired(now_ns))] *)
Fixpoint keep_active (now_ns : Z) (l : list RollbackState) : Run (list RollbackState) :=
  match l with
  | [] => Ok []
  | s :: l' =>
      expired ← is_expired now_ns s;
      rest ← keep_active now_ns l';
      Ok (if (expired : bool) then rest else s :: rest)
  end.

Definition active_windows (now_ns : Z) (r : RollbackRegistry) : Run (list RollbackState) :=
  keep_active now_ns (registry_values r).

Definition mark_rolled_back (ok : bool) (id : string) (r : RollbackRegistry) : RollbackRegistry :=
  match rr_states r !! id with
  | Some s =>
      let s := mkRollback (proposal_id s) (remediation_id s) (executed_at_ns s) (window_secs s) (snapshot_json s) true in
      registry_persist ok (mkRegistry (<[id := s]> (rr_states r)) (rr_file r))
  | None => r
  end.

(** [self.states.retain(|_, s| !s.is_expired(now_ns))] *)
Fixpoint retain_active (now_ns : Z) (ks : list string) (m : gmap string RollbackState) : Run (gmap string RollbackState) :=
  match ks with
  | [] => Ok m
  | k :: ks' =>
      match m !! k with
      | Some s => expired ← is_expired now_ns s; retain_active now_ns ks' (if (expired : bool) then delete k m else m)
      | None => retain_active now_ns ks' m
      end
  end.

Definition prune (ok : bool) (now_ns : Z) (r : RollbackRegistry) : Run RollbackRegistry :=
  states ← retain_active now_ns (hash_keys (rr_states r)) (rr_states r);
  let r' := mkRegistry states (rr_file r) in
  Ok (if bool_decide (size states = size (rr_states r)) then r' else registry_persist ok r').

End Rollback.

(** ** Histories

    The calls a store receives, oldest first. *)
Inductive TrustCall := Call_Look | Call_Approval | Call_Rejection | Call_AutoSuccess | Call_Failure | Call_SetState (s : TrustState).

Record TrustOp := mkOp { op_key : TrustKey; op_ts : Z; op_call : TrustCall }.

Definition run_op `{TrustJson, BuildProfile} (o : TrustOp) (s : TrustStore) : Run TrustStore :=
  match op_call o with
  | Call_Look => Ok (get_or_default (op_key o) s).1
  | Call_Approval => record_approval (op_key o) (op_ts o) s
  | Call_Rejection => record_rejection (op_key o) (op_ts o) s
  | Call_AutoSuccess => record_auto_success (op_key o) (op_ts o) s
  | Call_Failure => record_failure (op_key o) (op_ts o) s
  | Call_SetState st => Ok (set_trust_state (op_key o) st (op_ts o) s)
  end.

(** The calls for a tuple. *)
Definition history (k : string) (ops : list TrustOp) : list TrustOp :=
  base.filter (fun o => to_storage_key (op_key o) = k) ops.

Definition is_approval (o : TrustOp) : bool := match op_call o with Call_Approval => true | _ => false end.
Definition is_rejection (o : TrustOp) : bool := match op_call o with Call_Rejection => true | _ => false end.

Definition is_failure (o : TrustOp) : bool := match op_call o with Call_Failure => true | _ => false end.

(** [Some true] for an outcome that was good, [Some false] for one that was
    not, [None] for calls that are no outcome. *)
Definition outcome_of (o : TrustOp) : option bool :=
  match op_call o with
  | Call_Approval | Call_AutoSuccess => Some true
  | Call_Rejection | Call_Failure => Some false
  | _ => None
  end.

(** How many of the latest outcomes were good. *)
Fixpoint leading (l : list bool) : Z := match l with true :: l' => 1 + leading l' | _ => 0 end.

Definition streak (h : list TrustOp) : Z := leading (reverse (omap outcome_of h)).

Definition number (p : TrustOp -> bool) (h : list TrustOp) : Z := blen (base.filter (fun o => p o = true) h).

(** The state a tuple starts in: the configured one when it is looked up before
    anything is recorded for it. *)
Definition initial_state (config : RemediationConfig) (h : list TrustOp) : TrustState :=
  match h with
  | mkOp key _ Call_Look :: _ => default_state_for config (rule_id key) (environment_archetype key)
  | _ => ApproveEach
  end.

Definition state_set (o : TrustOp) : option TrustState := match op_call o with Call_SetState s => Some s | _ => None end.

Definition state_after (config : RemediationConfig) (h : list TrustOp) : TrustState :=
  default (initial_state config h) (last (omap state_set h)).

(** What a record says of the history of its tuple. *)
Definition reflects (config : RemediationConfig) (h : list TrustOp) (r : TrustRecord) : Prop :=
  tr_state r = state_after config h /\ consecutive_successes r = streak h /\
  operator_approvals r = number is_approval h /\ operator_rejections r = number is_rejection h /\
  0 <= total_failures r <= number is_failure h.

Lemma leading_bounds l : 0 <= leading l <= blen l.
Proof. induction l as [|[] l IH]; cbn [leading]; rewrite ?blen_cons; unfold blen in *; simpl; lia. Qed.

Lemma omap_shorter {A B} (f : A -> option B) l : (length (omap f l) <= length l)%nat.
Proof. induction l as [|x l IH]; [done|]. cbn. destruct (f x); simpl; lia. Qed.

Lemma streak_bounds h : 0 <= streak h <= blen h.
Proof.
  unfold streak. pose proof (leading_bounds (reverse (omap outcome_of h))) as Hl.
  assert (blen (reverse (omap outcome_of h)) <= blen h); [|lia]. unfold blen. rewrite length_reverse.
  pose proof (omap_shorter outcome_of h). lia.
Qed.

Lemma number_bounds p h : 0 <= number p h <= blen h.
Proof. unfold number, blen. pose proof (length_filter (fun o => p o = true) h). lia. Qed.

Lemma number_snoc p h o : number p (h ++ [o]) = number p h + (if p o then 1 else 0).
Proof.
  unfold number. rewrite filter_app, blen_app. f_equal. rewrite filter_cons, filter_nil. by destruct (p o).
Qed.

Lemma streak_snoc h o : streak (h ++ [o]) =
  match outcome_of o with Some true => 1 + streak h | Some false => 0 | None => streak h end.
Proof.
  unfold streak. rewrite omap_app. destruct (outcome_of o) as [[]|] eqn:Ho; cbn [omap list_omap]; rewrite ?Ho, ?app_nil_r;
    [by rewrite reverse_snoc..|done].
Qed.

Lemma initial_state_snoc config h o : h <> [] -> initial_state config (h ++ [o]) = initial_state config h.
Proof. by destruct h. Qed.

Section Histories.
Context `{TrustJson, BuildProfile} (config : RemediationConfig).

Definition run_ops (ops : list TrustOp) (s : TrustStore) : Run TrustStore := for_each ops run_op s.

Definition history_inv (ops : list TrustOp) (s : TrustStore) : Prop :=
  ts_config s = config /\
  forall k, match records s !! k with
            | None => history k ops = []
            | Some r => history k ops <> [] /\ reflects config (history k ops) r
            end.

Lemma history_snoc k ops o :
  history k (ops ++ [o]) = history k ops ++ (if decide (to_storage_key (op_key o) = k) then [o] else []).
Proof. unfold history. rewrite filter_app, filter_cons, filter_nil. done. Qed.

Lemma history_shorter k ops : blen (history k ops) <= blen ops.
Proof. unfold history, blen. pose proof (length_filter (fun o => to_storage_key (op_key o) = k) ops). lia. Qed.

Lemma entry_reflects ops s key :
  history_inv ops s -> reflects config (history (to_storage_key key) ops) (entry key s).
Proof.
  intros [_ Hi]. specialize (Hi (to_storage_key key)). unfold entry, get.
  destruct (records s !! to_storage_key key) as [r|]; cbn [default from_option id]; [by destruct Hi|]. by rewrite Hi.
Qed.

Lemma persist_records s : records (persist s) = records s /\ ts_config (persist s) = ts_config s.
Proof. unfold persist. by destruct (trust_to_json (records s)). Qed.

Lemma record_inv ops s o r :
  history_inv ops s -> reflects config (history (to_storage_key (op_key o)) ops ++ [o]) r ->
  history_inv (ops ++ [o]) (set_record (to_storage_key (op_key o)) r s).
Proof.
  intros [Hc Hi] Hr. split; [done|]. intros k. cbn [set_record records]. rewrite history_snoc.
  destruct (decide (to_storage_key (op_key o) = k)) as [<-|Hk].
  - rewrite lookup_insert_eq. split; [by destruct (history _ ops)|done].
  - rewrite lookup_insert_ne, app_nil_r by done. apply Hi.
Qed.

Lemma update_inv ops s o r :
  history_inv ops s -> reflects config (history (to_storage_key (op_key o)) ops ++ [o]) r ->
  history_inv (ops ++ [o]) (update (op_key o) r s).
Proof.
  intros Hi Hr. destruct (record_inv ops s o r Hi Hr) as [Hc Hk]. unfold update.
  destruct (persist_records (set_record (to_storage_key (op_key o)) r s)) as [Hre Hco].
  split; [by rewrite Hco|]. rewrite Hre. exact Hk.
Qed.

Lemma state_after_snoc h o :
  state_set o = None -> op_call o <> Call_Look \/ h <> [] -> state_after config (h ++ [o]) = state_after config h.
Proof.
  intros Hs Hl. unfold state_after. rewrite omap_app. cbn [omap list_omap]. rewrite Hs, app_nil_r. f_equal.
  destruct h as [|o' h]; [|done]. destruct Hl as [Hl|]; [|done]. destruct o as [key ts []]; done.
Qed.

Lemma state_after_set h key ts st : state_after config (h ++ [mkOp key ts (Call_SetState st)]) = st.
Proof. unfold state_after. rewrite omap_app. cbn. by rewrite last_snoc. Qed.

Lemma checked_u32 v : 0 <= v < 2 ^ 32 -> checked_width (E := Empty_set) 32 v = Ok v.
Proof. intros Hv. unfold checked_width. by rewrite (proj2 (Z.leb_le _ _)), (proj2 (Z.ltb_lt _ _)) by lia. Qed.

(** The fields of a record after a call. *)
Lemma reflects_snoc h o r :
  tr_state r = state_after config (h ++ [o]) ->
  consecutive_successes r = match outcome_of o with Some true => 1 + streak h | Some false => 0 | None => streak h end ->
  operator_approvals r = number is_approval h + (if is_approval o then 1 else 0) ->
  operator_rejections r = number is_rejection h + (if is_rejection o then 1 else 0) ->
  0 <= total_failures r <= number is_failure h + (if is_failure o then 1 else 0) ->
  reflects config (h ++ [o]) r.
Proof. intros. unfold reflects. by rewrite streak_snoc, !number_snoc. Qed.

Lemma look_inv ops s key ts :
  history_inv ops s -> history_inv (ops ++ [mkOp key ts Call_Look]) (get_or_default key s).1.
Proof.
  intros Hi. pose proof Hi as [Hc Hk]. specialize (Hk (to_storage_key key)). unfold get_or_default.
  destruct (records s !! to_storage_key key) as [r|] eqn:Hr; cbn [fst].
  - split; [done|]. intros k. rewrite history_snoc. cbn [op_key].
    destruct (decide (to_storage_key key = k)) as [<-|]; [|rewrite app_nil_r; apply Hi].
    rewrite Hr. destruct Hk as [Hne (R1 & R2 & R3 & R4 & R5)]. split; [by destruct (history _ ops)|].
    apply reflects_snoc; simpl; [|done|lia..]. rewrite state_after_snoc; [done|done|by right].
  - apply (record_inv ops s (mkOp key ts Call_Look)); [done|]. cbn [op_key]. rewrite Hk, Hc. unfold reflects. by split_and!.
Qed.

Lemma run_op_inv ops s o :
  history_inv ops s -> blen ops + 1 < 2 ^ 32 -> exists s', run_op o s = Ok s' /\ history_inv (ops ++ [o]) s'.
Proof.
  intros Hi Hn. pose proof (entry_reflects ops s (op_key o) Hi) as (He & Hs & Ha & Hr & Hf).
  pose proof (history_shorter (to_storage_key (op_key o)) ops) as Hh.
  set (h := history (to_storage_key (op_key o)) ops) in *.
  pose proof (streak_bounds h). pose proof (number_bounds is_approval h). pose proof (number_bounds is_rejection h).
  pose proof (number_bounds is_failure h).
  assert (forall r, reflects config (h ++ [o]) r -> exists s', Ok (E := Empty_set) (update (op_key o) r s) = Ok s' /\
            history_inv (ops ++ [o]) s') as Hgo by (intros r; eexists; split; [done|by apply update_inv]).
  unfold run_op. destruct o as [key ts c]. cbn [op_call op_key op_ts] in *.
  destruct c; [eexists; split; [done|by apply look_inv]|..].
  - unfold record_approval. cbn zeta. rewrite Ha, Hs, !checked_u32 by lia. cbn [mbind outcome_bind].
    apply Hgo, reflects_snoc; simpl; try lia. rewrite state_after_snoc; [done|done|by left].
  - unfold record_rejection. cbn zeta. rewrite Hr, !checked_u32 by lia. cbn [mbind outcome_bind].
    apply Hgo, reflects_snoc; simpl; try lia. rewrite state_after_snoc; [done|done|by left].
  - unfold record_auto_success. cbn zeta. rewrite Hs, !checked_u32 by lia. cbn [mbind outcome_bind].
    apply Hgo, reflects_snoc; simpl; try lia; [|by case_if; lia]. rewrite state_after_snoc; [done|done|by left].
  - unfold record_failure. cbn zeta. rewrite !checked_u32 by lia. cbn [mbind outcome_bind].
    apply Hgo, reflects_snoc; simpl; try lia. rewrite state_after_snoc; [done|done|by left].
  - apply Hgo, reflects_snoc; simpl; try lia. by rewrite state_after_set.
Qed.

Lemma run_ops_inv ops file :
  file ≫= trust_from_json = None -> blen ops < 2 ^ 32 ->
  exists s, run_ops ops (load file config) = Ok s /\ history_inv ops s.
Proof.
  intros Hf. induction ops as [|o ops IH] using rev_ind; intros Hn.
  - eexists. split; [done|]. split; [done|]. intros k. unfold load. rewrite Hf. cbn. by rewrite lookup_empty.
  - rewrite blen_app in Hn. change (blen [o]) with 1 in Hn. destruct IH as (s & Hs & Hi); [lia|].
    destruct (run_op_inv ops s o Hi) as (s' & Ho & Hi'); [lia|]. exists s'. split; [|done].
    unfold run_ops in *. rewrite for_each_app, Hs. cbn [mbind outcome_bind for_each]. by rewrite Ho.
Qed.

Lemma check_graduation_iff k r required :
  0 <= operator_rejections r ->
  is_Some (check_graduation k r required) <->
  operator_rejections r = 0 /\ required <= consecutive_successes r /\ required <= operator_approvals r /\
  requires_approval (tr_state r) = true.
Proof.
  intros Hr. unfold check_graduation.
  destruct (Z.ltb_spec 0 (operator_rejections r)); cbn [orb]; [split; [by intros []|lia]|].
  destruct (Z.ltb_spec (consecutive_successes r) required); [split; [by intros []|lia]|].
  destruct (tr_state r); cbn [requires_approval]; try (split; [by intros []|intros (_ & _ & _ & [=])]).
  all: destruct (Z.leb_spec required (operator_approvals r)); [split; [lia|by eexists]|split; [by intros []|lia]].
Qed.

(** A tuple is reported ready for more autonomy exactly when its
    history says so.  After any calls on a new store, for any build profile,
    there is a hint for a tuple if and only if the operator never rejected it,
    its latest outcomes were good as often as required and as many of all were
    approvals, and its state, the one last set (or the one it started in), is
    one of the two that need the operator; the record is the one of that
    tuple alone. *)
Theorem graduation_from_history ops required :
  blen ops < 2 ^ 32 ->
  exists s, run_ops ops (load None config) = Ok s /\
    forall k, let h := history k ops in
      (records s !! k = None <-> h = []) /\
      (forall r, records s !! k = Some r ->
         (is_Some (check_graduation k r required) <->
          number is_rejection h = 0 /\ required <= streak h /\ required <= number is_approval h /\
          requires_approval (state_after config h) = true)).
Proof.
  intros Hn. destruct (run_ops_inv ops None) as (s & Hs & Hi); [done|done|]. exists s. split; [done|]. intros k h.
  destruct Hi as [_ Hi]. specialize (Hi k). fold h in Hi. split.
  - destruct (records s !! k); [|done]. by destruct Hi as [Hne _].
  - intros r Hr. rewrite Hr in Hi. destruct Hi as [_ (<- & <- & <- & Hrej & _)].
    pose proof (number_bounds is_rejection h) as Hb. rewrite <- Hrej in *. destruct Hb.
    by apply check_graduation_iff.
Qed.

End Histories.

(** ** The file

    A background thread writes its text and ends; which one is next is up to the
    scheduler. *)
Inductive thread_step : TrustStore -> TrustStore -> Prop :=
| step_write s i text : writers s !! i = Some text ->
    thread_step s (mkTrustStore (records s) (ts_config s) (Some text) (take i (writers s) ++ drop (S i) (writers s))).

Section File.
Context `{TrustJson, BuildProfile}.

Lemma update_spec key r s json :
  trust_to_json (<[to_storage_key key := r]> (records s)) = Some json ->
  update key r s = mkTrustStore (<[to_storage_key key := r]> (records s)) (ts_config s) (trust_file s) (writers s ++ [json]).
Proof. intros Hj. unfold update, persist. cbn [set_record records]. by rewrite Hj. Qed.

Lemma update_records key r s : records (update key r s) = <[to_storage_key key := r]> (records s).
Proof. apply persist_records. Qed.

(** What is loaded after a restart when the last thread to write wrote [json]. *)
Lemma load_written m json config : trust_to_json m = Some json -> records (load (Some json) config) = m.
Proof. intros Hj. unfold load. cbn [mbind option_bind]. by rewrite (trust_json_round _ _ Hj). Qed.

(** A rejection can be forgotten.  Each call hands the text of the
    whole store to a thread of its own, and the threads may write in any
    order: when an approval and then a rejection are recorded, a schedule of
    the two threads leaves a file from which a restart reads the store as it
    was before the rejection, although all writes were completed. *)
Theorem rejection_forgotten s key t1 t2 s1 s2 j1 j2 config :
  writers s = [] -> record_approval key t1 s = Ok s1 -> record_rejection key t2 s1 = Ok s2 ->
  trust_to_json (records s1) = Some j1 -> trust_to_json (records s2) = Some j2 ->
  exists s3, rtc thread_step s2 s3 /\ writers s3 = [] /\ records s3 = records s2 /\
    records (load (trust_file s3) config) = records s1.
Proof.
  intros Hw Ha Hr Hj1 Hj2.
  unfold record_approval in Ha. inv_ok Ha. inv_ok Ha. injection Ha as <-. rewrite update_records in Hj1.
  unfold record_rejection in Hr. inv_ok Hr. injection Hr as <-. rewrite update_records in Hj2.
  rewrite (update_spec _ _ _ _ Hj1) in Hj2 |- *. rewrite (update_spec _ _ _ _ Hj2). cbn [writers]. rewrite Hw.
  eexists. split; [|split; [|split]].
  - eapply rtc_l; [apply (step_write _ 1 j2); done|]. eapply rtc_once, (step_write _ 0 j1). done.
  - done.
  - done.
  - cbn [trust_file records]. by apply load_written.
Qed.

(** In the order of the calls the last text wins. *)
Lemma restart_in_order s key t s1 j config :
  writers s = [] -> record_rejection key t s = Ok s1 -> trust_to_json (records s1) = Some j ->
  exists s2, thread_step s1 s2 /\ writers s2 = [] /\ records (load (trust_file s2) config) = records s1.
Proof.
  intros Hw Hr Hj. unfold record_rejection in Hr. inv_ok Hr. injection Hr as <-.
  rewrite update_records in Hj.
  rewrite (update_spec _ _ _ _ Hj), Hw. eexists. split; [by apply (step_write _ 0 j)|]. split; [done|]. by apply load_written.
Qed.

End File.

(** ** Rollback windows *)

Section Windows.
Context `{RollbackJson, BuildProfile, HashOrder}.

(** Times and durations that do not overflow. *)
Definition sane (now_ns : Z) (s : RollbackState) : Prop :=
  - 2 ^ 63 <= now_ns - executed_at_ns s < 2 ^ 63 /\ 0 <= window_secs s * 1000000000 < 2 ^ 63.

Definition active (now_ns : Z) (s : RollbackState) : Prop :=
  rolled_back s = false /\ now_ns - executed_at_ns s <= window_secs s * 1000000000.

#[global] Instance active_dec now_ns s : Decision (active now_ns s).
Proof. unfold active. apply _. Defined.

Lemma is_expired_iff now_ns s : sane now_ns s -> is_expired now_ns s = Ok (negb (bool_decide (active now_ns s))).
Proof.
  intros [Ht Hw]. unfold is_expired. destruct (rolled_back s) eqn:Hr.
  - rewrite bool_decide_false; [done|]. intros [? _]. congruence.
  - assert (as_i64 (window_secs s) = window_secs s) as -> by (unfold as_i64; rewrite Z.mod_small; lia).
    rewrite !checked_i64_ok by lia. cbn [mbind outcome_bind]. f_equal. unfold active.
    destruct (Z.ltb_spec (window_secs s * 1000000000) (now_ns - executed_at_ns s)).
    + rewrite bool_decide_false; [done|]. lia.
    + by rewrite bool_decide_true.
Qed.

Lemma keep_active_filter now_ns l : Forall (sane now_ns) l -> keep_active now_ns l = Ok (base.filter (active now_ns) l).
Proof.
  induction 1 as [|s l Hs _ IH]; [done|]. cbn [keep_active]. rewrite is_expired_iff, IH by done. cbn [mbind outcome_bind].
  rewrite filter_cons. case_bool_decide; destruct (decide (active now_ns s)); done.
Qed.

Lemma registry_values_perm r : registry_values r ≡ₚ (map_to_list (rr_states r)).*2.
Proof.
  unfold registry_values. rewrite (hash_keys_perm _ _ (rr_states r)).
  assert (forall kv, kv ∈ map_to_list (rr_states r) -> rr_states r !! kv.1 = Some kv.2) as Hin
    by (intros [k v]; apply elem_of_map_to_list).
  revert Hin. generalize (map_to_list (rr_states r)) as l. induction l as [|[k v] l IH]; intros Hin; [done|].
  pose proof (Hin (k, v) (list_elem_of_here _ _)) as Hk. cbn [fst snd] in Hk. cbn. rewrite Hk. constructor. apply IH. intros kv Hkv. apply Hin. by right.
Qed.

Lemma retain_active_filter now_ns ks m :
  NoDup ks -> (forall k s, m !! k = Some s -> sane now_ns s) ->
  retain_active now_ns ks m = Ok (base.filter (fun kv => kv.1 ∉ ks \/ active now_ns kv.2) m).
Proof.
  revert m. induction ks as [|k ks IH]; intros m Hnd Hs; cbn [retain_active].
  - f_equal. symmetry. apply map_filter_id. intros i x _. left. apply not_elem_of_nil.
  - apply NoDup_cons in Hnd as [Hk Hnd]. destruct (m !! k) as [s|] eqn:Hm.
    + rewrite is_expired_iff by eauto. cbn [mbind outcome_bind]. case_bool_decide as Ha; cbn [negb].
      * rewrite IH by done. f_equal. apply map_filter_ext. intros i x Hx. cbn [fst snd].
        destruct (decide (i = k)) as [->|]; [|set_solver]. simplify_eq. set_solver.
      * rewrite IH; [|done|intros i x [_ Hx]%lookup_delete_Some; eauto]. f_equal. apply map_eq. intros i.
        destruct (decide (i = k)) as [->|Hne].
        -- rewrite !map_lookup_filter, lookup_delete_eq, Hm. cbn. rewrite option_guard_False; [done|]. set_solver.
        -- rewrite !map_lookup_filter, lookup_delete_ne by done. destruct (m !! i) as [x|]; [|done]. cbn.
           apply option_guard_iff. set_solver.
    + rewrite IH by done. f_equal. apply map_filter_ext. intros i x Hx. cbn [fst snd].
      destruct (decide (i = k)) as [->|]; [congruence|set_solver].
Qed.

Lemma registry_persist_states ok r : rr_states (registry_persist ok r) = rr_states r.
Proof. unfold registry_persist. repeat case_match; done. Qed.

(** Rollbacks are offered exactly within their windows.  When no time
    or duration overflows, the list of windows holds the executions that were
    not rolled back and whose window has not closed, whatever the order of the
    hash map; pruning drops exactly the others; and an execution that was
    marked as rolled back is not offered again at any time. *)
Theorem rollback_windows_exact now_ns ok r :
  (forall k s, rr_states r !! k = Some s -> sane now_ns s) ->
  (exists l, active_windows now_ns r = Ok l /\ l ≡ₚ base.filter (active now_ns) (map_to_list (rr_states r)).*2) /\
  (exists r', prune ok now_ns r = Ok r' /\ rr_states r' = base.filter (fun kv => active now_ns kv.2) (rr_states r)) /\
  (forall id now' s, rr_states (mark_rolled_back ok id r) !! id = Some s -> ~ active now' s).
Proof.
  intros Hs. split_and!.
  - eexists. split.
    + apply keep_active_filter. rewrite registry_values_perm. apply Forall_fmap, Forall_forall.
      intros [k s] Hin%elem_of_map_to_list. by apply (Hs k).
    + by rewrite registry_values_perm.
  - unfold prune. rewrite retain_active_filter; [|rewrite hash_keys_perm; apply NoDup_fst_map_to_list|done].
    cbn [mbind outcome_bind]. eexists. split; [done|].
    case_bool_decide; rewrite ?registry_persist_states; cbn [rr_states]; apply map_filter_ext; intros k s Hk; cbn [fst snd];
      (split; [|by right]); intros [Hn|]; [|done| |done]; destruct Hn; rewrite hash_keys_perm;
      apply list_elem_of_fmap; exists (k, s); (split; [done|by apply elem_of_map_to_list]).
  - intros id now' s. unfold mark_rolled_back. destruct (rr_states r !! id) eqn:Hid; [|congruence].
    rewrite registry_persist_states. cbn [rr_states]. rewrite lookup_insert_eq. intros [= <-] [Hf _]. done.
Qed.

(** What is registered survives a restart when it could be written. *)
Lemma register_durable s r file json :
  rr_file r = Some file -> rollback_to_json (<[proposal_id s := s]> (rr_states r)) = Some json ->
  rr_file (register true s r) = Some (Some json) /\ rr_states (registry_load (Some json)) = rr_states (register true s r).
Proof.
  intros Hf Hj. unfold register. rewrite registry_persist_states. unfold registry_persist. cbn [rr_file rr_states].
  rewrite Hf, Hj. split; [done|]. unfold registry_load. cbn [mbind option_bind rr_states]. by rewrite (rollback_json_round _ _ Hj).
Qed.

End Windows.

(** ** Instances *)

#[global] Instance trust_record_eq_dec : EqDecision TrustRecord.
Proof. solve_decision. Defined.
#[global] Instance rollback_state_eq_dec : EqDecision RollbackState.
Proof. solve_decision. Defined.

Section Demo.
#[local] Instance demo_profile : BuildProfile := true.
#[local] Instance demo_order : HashOrder := trie_order.

Definition demo_key : TrustKey := mkTrustKey "bgp-flap" "data_center" "dc1" "restore-bgp".

Definition demo_trust_config : RemediationConfig :=
  mkRemediationConfig 60 2 (mkDefaults "approve_each" "suggest_only" "" "" "") ∅.

Definition approved_map : gmap string TrustRecord := {[to_storage_key demo_key := mkTrustRecord ApproveEach 1 7 0 1 0 7]}.
Definition rejected_map : gmap string TrustRecord := {[to_storage_key demo_key := mkTrustRecord ApproveEach 0 7 0 1 1 8]}.

(** A serialiser that knows two maps. *)
#[local] Instance demo_trust_json : TrustJson.
Proof.
  refine {| trust_to_json m := if decide (m = approved_map) then Some (bs [1]) else if decide (m = rejected_map) then Some (bs [2])
                               else None;
            trust_from_json text := if decide (text = bs [1]) then Some approved_map
                                    else if decide (text = bs [2]) then Some rejected_map else None |}.
  intros m text. case_decide; [intros [= <-]; subst; by rewrite decide_True|].
  case_decide; [|done]. intros [= <-]. subst. by rewrite decide_False, decide_True.
Defined.

(** Two approvals: a hint for the tuple when two are required. *)
Lemma graduation_from_history_witness :
  exists s, run_ops [mkOp demo_key 7 Call_Approval; mkOp demo_key 8 Call_Approval] (load None demo_trust_config) = Ok s /\
    forall r, records s !! to_storage_key demo_key = Some r -> is_Some (check_graduation (to_storage_key demo_key) r 2).
Proof.
  destruct (graduation_from_history demo_trust_config [mkOp demo_key 7 Call_Approval; mkOp demo_key 8 Call_Approval] 2)
    as (s & Hs & Hk); [done|].
  exists s. split; [done|]. intros r Hr. apply (Hk (to_storage_key demo_key)); [done|]. by vm_compute.
Defined.

(** The rejection is lost when the threads write in the other order. *)
Lemma rejection_forgotten_witness :
  exists s1 s2 s3, record_approval demo_key 7 (load None demo_trust_config) = Ok s1 /\ record_rejection demo_key 8 s1 = Ok s2 /\
    rtc thread_step s2 s3 /\ writers s3 = [] /\ records s3 = records s2 /\
    records (load (trust_file s3) demo_trust_config) = records s1.
Proof.
  eexists _, _.
  edestruct (rejection_forgotten (load None demo_trust_config) demo_key 7 8) as (s3 & Hs3);
    [vm_compute; reflexivity|vm_compute; reflexivity|vm_compute; reflexivity|vm_compute; reflexivity|vm_compute; reflexivity|].
  exists s3. split; [vm_compute; reflexivity|]. split; [vm_compute; reflexivity|]. exact Hs3.
Defined.

#[local] Instance demo_rollback_json : RollbackJson.
Proof.
  refine {| rollback_to_json m := if decide (m = ∅) then Some [] else None;
            rollback_from_json text := match text with [] => Some ∅ | _ => None end |}.
  intros m text. case_decide; [|done]. intros [= <-]. by subst.
Defined.

Definition demo_registry : RollbackRegistry :=
  mkRegistry {[ "p1" := mkRollback "p1" "r1" 0 60 "[]" false; "p2" := mkRollback "p2" "r2" 100 60 "[]" true ]}%string None.

Lemma rollback_windows_exact_witness :
  exists l, active_windows 30000000000 demo_registry = Ok l /\
    l ≡ₚ base.filter (active 30000000000) (map_to_list (rr_states demo_registry)).*2.
Proof.
  apply (rollback_windows_exact 30000000000 true demo_registry). intros k s Hk.
  assert (s = mkRollback "p1" "r1" 0 60 "[]" false \/ s = mkRollback "p2" "r2" 100 60 "[]" true) as [-> | ->]; [|by vm_compute..].
  unfold demo_registry in Hk. cbn [rr_states] in Hk. apply lookup_insert_Some in Hk as [[_ <-]|[_ Hk]]; [by left|].
  apply lookup_singleton_Some in Hk as [_ <-]. by right.
Defined.

End Demo.
