(* ===== verification/Remediation.v ===== *)
(** * Decisions on remediation proposals ([src/http_server/remediation.rs])

    The handlers with which an operator approves, rejects and rolls back a
    proposal: they execute its steps on a device, keep the decision in the
    graph, and feed the trust store and the registry of rollback windows.  The
    graph database, the devices and the JSON reader of steps are interfaces; the
    audit file is left out. *)

From Stdlib Require Import ZArith Lia ZifyBool Ascii.
From stdpp Require Import base numbers list option strings gmap fin_maps sorting.
From S2P Require Import Prelude RustStd HashMaps Jsonl Trust.

Local Open Scope Z_scope.

(** ** Keys of the trust store as text *)

(** The text before the first [:], and what is behind it. *)
Fixpoint split_colon (s : string) : option (string * string) :=
  match s with
  | EmptyString => None
  | String c s' =>
      if bool_decide (c = ":"%char) then Some (EmptyString, s')
      else prod_map (String c) id <$> split_colon s'
  end.

(** One [next().unwrap_or_default()] of [splitn(4, ':')], not the last. *)
Definition next_part (rest : option string) : string * option string :=
  match rest with
  | None => (""%string, None)
  | Some s => match split_colon s with Some (part, rest) => (part, Some rest) | None => (s, None) end
  end.

Definition trust_key_from_storage (key : string) : TrustKey :=
  let '(rule, rest) := next_part (Some key) in
  let '(env, rest) := next_part rest in
  let '(site, rest) := next_part rest in
  mkTrustKey rule env site (default ""%string rest).

(** ** Proposals in the graph *)

Record ProposalNode := mkNode {
  n_id : string;
  n_detection_id : string;
  n_playbook_id : string;
  n_trust_key : string;
  n_status : string;
  n_operator_note : string;
  n_steps_json : string;
  n_rollback_steps_json : string;
  n_proposed_at_ns : Z;
  n_decided_at_ns : Z;
}.

(** The fields of a detection that are joined. *)
Record DetectionNode := mkDetection { d_device_address : string; d_rule_id : string; d_severity : string; d_features_json : string }.

Record RemediationProposalRow := mkRow {
  row_id : string;
  row_detection_id : string;
  row_device_address : string;
  row_rule_id : string;
  row_severity : string;
  row_playbook_id : string;
  row_trust_key : string;
  row_status : string;
  row_operator_note : string;
  row_steps_json : string;
  row_rollback_steps_json : string;
  row_proposed_at_ns : Z;
  row_decided_at_ns : Z;
  row_features_json : string;
}.

(** The order of the rows the database returns for
    [ORDER BY p.proposed_at DESC]: newest first, ties in any order. *)
Class GraphDb := {
  newest_first : list ProposalNode -> list ProposalNode;
  newest_first_perm : forall l, newest_first l ≡ₚ l;
  newest_first_sorted : forall l, StronglySorted (fun a b => n_proposed_at_ns b <= n_proposed_at_ns a) (newest_first l);
}.

(** Steps of a proposal; the duration of a pause is left out. *)
Inductive ProposalStep :=
| Step_GnmiSet (path value : string)
| Step_Sleep
| Step_VerifyGraph (expected_graph_state : string) (wait_seconds : Z).

(** [serde_json::from_str] for a list of steps. *)
Class StepsJson := parse_steps : string -> string + list ProposalStep.

(** What carrying out a step does: it succeeds, or it fails with an error, in
    which case the device may have been changed ([applied]). *)
Inductive StepResult := Step_Done | Step_Failed (applied : bool) (error : string).

(** ** The state of the server *)

Record App := mkApp {
  proposals : list ProposalNode;
  detections : gmap string DetectionNode;
  remediations : list (string * string * string * string);
  trust_store : TrustStore;
  rollback_registry : RollbackRegistry;
  device_log : list (string * ProposalStep);
}.

(** What the world answers while a handler runs: the clock, the identifier of a
    new node, the errors of the calls of the graph ([edge_error]: the edge to a
    new proposal), whether the registry file can be written, and what the
    devices do. *)
Record World := mkWorld {
  now_ns : Z;
  fresh_id : string;
  read_error : option string;
  decide_error : option string;
  write_error : option string;
  edge_error : option string;
  file_ok : bool;
  perform : list (string * ProposalStep) -> string -> ProposalStep -> StepResult;
}.

Record ApprovalDecisionResponse := mkResponse { success : bool; error : string; resp_remediation_id : string }.

Definition refused (e : string) : ApprovalDecisionResponse := mkResponse false e "".

Definition set_proposals (ps : list ProposalNode) (a : App) : App :=
  mkApp ps (detections a) (remediations a) (trust_store a) (rollback_registry a) (device_log a).
Definition set_trust (t : TrustStore) (a : App) : App :=
  mkApp (proposals a) (detections a) (remediations a) t (rollback_registry a) (device_log a).
Definition set_registry (r : RollbackRegistry) (a : App) : App :=
  mkApp (proposals a) (detections a) (remediations a) (trust_store a) r (device_log a).
Definition set_log (l : list (string * ProposalStep)) (a : App) : App :=
  mkApp (proposals a) (detections a) (remediations a) (trust_store a) (rollback_registry a) l.
Definition add_remediation (r : string * string * string * string) (a : App) : App :=
  mkApp (proposals a) (detections a) (remediations a ++ [r]) (trust_store a) (rollback_registry a) (device_log a).

Section Handlers.
Context `{GraphDb, StepsJson, TrustJson, RollbackJson, BuildProfile, HashOrder}.

(** ** The graph *)

(** [OPTIONAL MATCH (e:DetectionEvent {id: p.detection_id})]: a missing value
    is read as the empty text. *)
Definition row_of (a : App) (n : ProposalNode) : RemediationProposalRow :=
  let e := detections a !! n_detection_id n in
  let field (f : DetectionNode -> string) := from_option f ""%string e in
  mkRow (n_id n) (n_detection_id n) (field d_device_address) (field d_rule_id) (field d_severity) (n_playbook_id n)
    (n_trust_key n) (n_status n) (n_operator_note n) (n_steps_json n) (n_rollback_steps_json n) (n_proposed_at_ns n)
    (n_decided_at_ns n) (field d_features_json).

Definition read_remediation_proposals (w : World) (status_filter : option string) (limit : nat) (a : App)
    : string + list RemediationProposalRow :=
  match read_error w with
  | Some e => inl e
  | None =>
      let matching :=
        match status_filter with
        | Some s => if bool_decide (s = ""%string) || bool_decide (s = "all"%string) then proposals a
                    else base.filter (fun n => n_status n = s) (proposals a)
        | None => proposals a
        end in
      inr (row_of a <$> take limit (newest_first matching))
  end.

(** [MATCH (p {id: $id}) SET p.status = .., p.operator_note = .., p.decided_at = ..] *)
Definition decide_node (id status note : string) (at_ns : Z) (n : ProposalNode) : ProposalNode :=
  if bool_decide (n_id n = id)
  then mkNode (n_id n) (n_detection_id n) (n_playbook_id n) (n_trust_key n) status note (n_steps_json n)
         (n_rollback_steps_json n) (n_proposed_at_ns n) at_ns
  else n.

Definition decide_remediation_proposal (w : World) (id status note : string) (at_ns : Z) (a : App) : string + App :=
  match decide_error w with
  | Some e => inl e
  | None => inr (set_proposals (decide_node id status note at_ns <$> proposals a) a)
  end.

(** The node of an execution, written in one transaction; its details and the
    event that is published are left out. *)
Definition write_remediation (w : World) (detection_id playbook_id status : string) (a : App) : string + (App * string) :=
  match write_error w with
  | Some e => inl e
  | None => inr (add_remediation (fresh_id w, detection_id, playbook_id, status) a, fresh_id w)
  end.

Definition find_proposal (w : World) (id : string) (a : App) : string + option RemediationProposalRow :=
  match read_remediation_proposals w (Some "all"%string) 500 a with
  | inl e => inl e
  | inr rows => inr (List.find (fun p => bool_decide (row_id p = id)) rows)
  end.

(** ** Steps *)

(** The loop: the first step that fails ends it. *)
Fixpoint execute_steps (w : World) (device : string) (steps : list ProposalStep) (executed : Z)
    (log : list (string * ProposalStep)) : (string + Z) * list (string * ProposalStep) :=
  match steps with
  | [] => (inr executed, log)
  | step :: steps' =>
      match perform w log device step with
      | Step_Done => execute_steps w device steps' (executed + 1) (log ++ [(device, step)])
      | Step_Failed applied e => (inl e, if applied then log ++ [(device, step)] else log)
      end
  end.

Definition execute_proposal_steps (w : World) (device steps_json : string) (a : App) : (string + Z) * App :=
  match (if blank steps_json then inr [] else parse_steps steps_json) with
  | inl e => (inl ("invalid proposal steps_json: " ++ e)%string, a)
  | inr [] => (inr 0, a)
  | inr steps =>
      if blank device then (inl "proposal is not linked to a device address"%string, a)
      else
        let '(r, log) := execute_steps w device steps 0 (device_log a) in
        (r, set_log log a)
  end.

(** ** Handlers *)

Record CreateApprovalRequest := mkCreate {
  cr_detection_id : string;
  cr_playbook_id : string;
  cr_rule_id : string;
  cr_environment_archetype : string;
  cr_site_id : string;
  cr_trust_key : string;
  cr_steps_json : string;
  cr_rollback_steps_json : string;
}.

Record CreateApprovalResponse := mkCreateResponse {
  cs_success : bool;
  cs_error : string;
  cs_proposal_id : string;
  cs_trust_state : string;
}.

(** [MERGE (p {id}) ON CREATE SET ..] with a new identifier, then the edge, in
    no transaction: the node stays when the edge fails. *)
Definition write_remediation_proposal (w : World) (r : CreateApprovalRequest) (trust_key : string) (a : App) : App * (string + string) :=
  match write_error w with
  | Some e => (a, inl e)
  | None =>
      let a := set_proposals (proposals a ++ [mkNode (fresh_id w) (cr_detection_id r) (cr_playbook_id r) trust_key "pending" ""
                                                (cr_steps_json r) (cr_rollback_steps_json r) (now_ns w) 0]) a in
      (a, match edge_error w with Some e => inl e | None => inr (fresh_id w) end)
  end.

Definition approvals_create_handler (w : World) (r : CreateApprovalRequest) (a : App) : App * CreateApprovalResponse :=
  let trust_key :=
    if blank (cr_trust_key r)
    then to_storage_key (mkTrustKey (cr_rule_id r) (cr_environment_archetype r) (cr_site_id r) (cr_playbook_id r))
    else cr_trust_key r in
  let '(t, record) := get_or_default (trust_key_from_storage trust_key) (trust_store a) in
  let a := set_trust t a in
  let trust_state := as_str (tr_state record) in
  match write_remediation_proposal w r trust_key a with
  | (a, inr id) => (a, mkCreateResponse true "" id trust_state)
  | (a, inl e) => (a, mkCreateResponse false e "" trust_state)
  end.

Definition with_trust (f : TrustStore -> Run TrustStore) (a : App) : Run App :=
  t ← f (trust_store a); Ok (set_trust t a).

Definition not_found (id : string) : ApprovalDecisionResponse := refused ("proposal '" ++ id ++ "' not found").

Definition approvals_approve_handler (w : World) (config : RemediationConfig) (id note : string) (a : App)
    : Run (App * ApprovalDecisionResponse) :=
  match find_proposal w id a with
  | inl e => Ok (a, refused e)
  | inr None => Ok (a, not_found id)
  | inr (Some proposal) =>
      let now := now_ns w in
      let '(execution, a) := execute_proposal_steps w (row_device_address proposal) (row_steps_json proposal) a in
      let '(proposal_status, remediation_status) :=
        match execution with inr _ => ("approved", "success") | inl _ => ("failed", "failed") end%string in
      match decide_remediation_proposal w id proposal_status note now a with
      | inl e => Ok (a, refused e)
      | inr a =>
          match write_remediation w (row_detection_id proposal) (row_playbook_id proposal) remediation_status a with
          | inl e => Ok (a, refused e)
          | inr (a, remediation_id) =>
              let trust_key := trust_key_from_storage (row_trust_key proposal) in
              let succeeded := bool_decide (remediation_status = "success"%string) in
              a ← with_trust (if succeeded then record_approval trust_key now else record_failure trust_key now) a;
              let a :=
                if succeeded && negb (blank (row_rollback_steps_json proposal))
                then set_registry (register (file_ok w) (mkRollback id remediation_id now (rollback_window_secs config)
                                                           (row_rollback_steps_json proposal) false) (rollback_registry a)) a
                else a in
              Ok (a, mkResponse succeeded (if succeeded then "" else "proposal execution failed") remediation_id)
          end
      end
  end.

Definition approvals_reject_handler (w : World) (id note : string) (a : App) : Run (App * ApprovalDecisionResponse) :=
  match find_proposal w id a with
  | inl e => Ok (a, refused e)
  | inr None => Ok (a, not_found id)
  | inr (Some proposal) =>
      let now := now_ns w in
      match decide_remediation_proposal w id "rejected" note now a with
      | inl e => Ok (a, refused e)
      | inr a =>
          a ← with_trust (record_rejection (trust_key_from_storage (row_trust_key proposal)) now) a;
          Ok (a, mkResponse true "" "")
      end
  end.

(** The rollback handler up to the execution of the steps: a refusal, or what
    is to be executed. *)
Definition rollback_begin (w : World) (id : string) (a : App)
    : Run (ApprovalDecisionResponse + (RemediationProposalRow * RollbackState)) :=
  match find_proposal w id a with
  | inl e => Ok (inl (refused e))
  | inr None => Ok (inl (not_found id))
  | inr (Some proposal) =>
      match registry_get id (rollback_registry a) with
      | None => Ok (inl (refused "rollback window is not active"))
      | Some rollback_state =>
          expired ← is_expired (now_ns w) rollback_state;
          Ok (if (expired : bool) then inl (refused "rollback window expired") else inr (proposal, rollback_state))
      end
  end.

(** [record_failure] and [set_state(ApproveEach)] *)
Definition distrust (key : TrustKey) (now : Z) (a : App) : Run App :=
  with_trust (fun t => t ← record_failure key now t; Ok (set_trust_state key ApproveEach now t)) a.

(** The rest of it. *)
Definition rollback_finish (w : World) (id note : string) (proposal : RemediationProposalRow) (rollback_state : RollbackState)
    (a : App) : Run (App * ApprovalDecisionResponse) :=
  let now := now_ns w in
  let trust_key := trust_key_from_storage (row_trust_key proposal) in
  match execute_proposal_steps w (row_device_address proposal) (snapshot_json rollback_state) a with
  | (inl e, a) =>
      a ← distrust trust_key now a;
      Ok (a, mkResponse false e (remediation_id rollback_state))
  | (inr _, a) =>
      match decide_remediation_proposal w id "rolled_back" note now a with
      | inl e => Ok (a, refused e)
      | inr a =>
          let a := set_registry (mark_rolled_back (file_ok w) id (rollback_registry a)) a in
          a ← distrust trust_key now a;
          Ok (a, mkResponse true "" (remediation_id rollback_state))
      end
  end.

Definition approvals_rollback_handler (w : World) (id note : string) (a : App) : Run (App * ApprovalDecisionResponse) :=
  begin ← rollback_begin w id a;
  match begin with
  | inl response => Ok (a, response)
  | inr (proposal, rollback_state) => rollback_finish w id note proposal rollback_state a
  end.

Definition trust_graduate_handler (w : World) (trust_key to_state : string) (a : App) : App * ApprovalDecisionResponse :=
  (set_trust (set_trust_state (trust_key_from_storage trust_key) (parse_state to_state) (now_ns w) (trust_store a)) a,
   mkResponse true "" "").

(** What the list of approvals shows of the trust store. *)
Definition graduation_hints (config : RemediationConfig) (a : App) : list GraduationHint :=
  omap (fun k => r ← records (trust_store a) !! k; check_graduation k r (consecutive_approvals_required config))
    (hash_keys (records (trust_store a))).

Record ApprovalsListResponse := mkList {
  ls_proposals : list RemediationProposalRow;
  ls_trust : list (string * TrustRecord);
  ls_graduation_hints : list GraduationHint;
  ls_active_rollbacks : list RollbackState;
}.

(** [store.list()] *)
Definition trust_list (a : App) : list (string * TrustRecord) :=
  omap (fun k => pair k <$> records (trust_store a) !! k) (hash_keys (records (trust_store a))).

(** [inl] is the error 500. *)
Definition approvals_list_handler (w : World) (config : RemediationConfig) (status : string) (limit : nat) (a : App)
    : Run (App * (string + ApprovalsListResponse)) :=
  match read_remediation_proposals w (Some status) limit a with
  | inl e => Ok (a, inl e)
  | inr rows =>
      registry ← prune (file_ok w) (now_ns w) (rollback_registry a);
      active ← active_windows (now_ns w) registry;
      Ok (set_registry registry a, inr (mkList rows (trust_list a) (graduation_hints config a) active))
  end.

Definition trust_list_handler (w : World) (config : RemediationConfig) (a : App) : Run ApprovalsListResponse :=
  active ← active_windows (now_ns w) (rollback_registry a);
  Ok (mkList [] (trust_list a) (graduation_hints config a) active).

End Handlers.

(** ** Finding a proposal *)

Section Decisions.
Context `{GraphDb, StepsJson, TrustJson, RollbackJson, BuildProfile, HashOrder}.

(** The nodes have identifiers of their own and are few enough to be read. *)
Definition findable (a : App) : Prop := NoDup (n_id <$> proposals a) /\ (length (proposals a) <= 500)%nat.

Lemma find_unique {A} (f : A -> string) (l : list A) x :
  NoDup (f <$> l) -> x ∈ l -> List.find (fun y => bool_decide (f y = f x)) l = Some x.
Proof.
  induction l as [|y l IH]; intros Hnd Hx; [by apply elem_of_nil in Hx|]. cbn in Hnd. apply NoDup_cons in Hnd as [Hy Hnd].
  cbn [List.find]. apply elem_of_cons in Hx as [->|Hx]; [by rewrite bool_decide_true|].
  rewrite bool_decide_false; [by apply IH|]. intros Heq. destruct Hy. rewrite Heq. by apply list_elem_of_fmap_2.
Qed.

Lemma find_proposal_node w a n :
  read_error w = None -> findable a -> n ∈ proposals a -> find_proposal w (n_id n) a = inr (Some (row_of a n)).
Proof.
  intros Hr [Hnd Hlen] Hn. unfold find_proposal, read_remediation_proposals. rewrite Hr. cbn [orb].
  rewrite (bool_decide_false ("all"%string = ""%string)), (bool_decide_true ("all"%string = "all"%string)) by done. cbn [orb].
  pose proof (newest_first_perm (proposals a)) as Hp.
  rewrite take_ge by (rewrite (Permutation_length Hp); lia). f_equal.
  change (n_id n) with (row_id (row_of a n)). apply find_unique.
  - rewrite <- list_fmap_compose. change (row_id ∘ row_of a) with n_id. by rewrite Hp.
  - apply list_elem_of_fmap_2. by rewrite Hp.
Qed.

(** What the node of a proposal is after a decision. *)
Definition decided (status note : string) (at_ns : Z) (n : ProposalNode) : ProposalNode := decide_node (n_id n) status note at_ns n.

Lemma decide_node_id id status note t n : n_id (decide_node id status note t n) = n_id n.
Proof. unfold decide_node. by case_bool_decide. Qed.

Lemma findable_decide id status note t a :
  findable a -> findable (set_proposals (decide_node id status note t <$> proposals a) a).
Proof.
  intros [Hnd Hlen]. split; cbn [set_proposals proposals]; [|by rewrite length_fmap].
  rewrite <- list_fmap_compose. rewrite (list_fmap_ext _ n_id); [done|]. intros i n _. apply decide_node_id.
Qed.

(** ** Carrying out steps *)

Definition commands (device : string) (steps : list ProposalStep) : list (string * ProposalStep) := pair device <$> steps.

(** The graph answers and every step succeeds. *)
Definition healthy (w : World) : Prop :=
  read_error w = None /\ decide_error w = None /\ write_error w = None /\ forall log d st, perform w log d st = Step_Done.

Lemma execute_steps_done w device steps executed log :
  (forall log d st, perform w log d st = Step_Done) ->
  execute_steps w device steps executed log = (inr (executed + blen steps), log ++ commands device steps).
Proof.
  intros Hp. revert executed log. induction steps as [|st steps IH]; intros executed log; cbn [execute_steps].
  - rewrite app_nil_r. do 2 f_equal. change (blen (@nil ProposalStep)) with 0. lia.
  - rewrite Hp, IH, <- app_assoc, blen_cons. do 2 f_equal. lia.
Qed.

(** The steps of a text: a blank text has none. *)
Definition steps_of (text : string) : string + list ProposalStep := if blank text then inr [] else parse_steps text.

Lemma execute_proposal_done w device text steps a :
  (forall log d st, perform w log d st = Step_Done) -> steps_of text = inr steps -> steps = [] \/ blank device = false ->
  execute_proposal_steps w device text a = (inr (blen steps), set_log (device_log a ++ commands device steps) a).
Proof.
  intros Hp Hs Hd. unfold execute_proposal_steps. unfold steps_of in Hs. rewrite Hs. destruct steps as [|st steps].
  - change (commands device []) with (@nil (string * ProposalStep)). rewrite app_nil_r. by destruct a.
  - destruct Hd as [Hd| ->]; [done|]. by rewrite execute_steps_done.
Qed.

Definition key_of (n : ProposalNode) : TrustKey := trust_key_from_storage (n_trust_key n).
Definition device_of (a : App) (n : ProposalNode) : string := from_option d_device_address ""%string (detections a !! n_detection_id n).

(** The proposal has steps that can be sent to its device. *)
Definition runnable (a : App) (n : ProposalNode) (steps : list ProposalStep) : Prop :=
  n ∈ proposals a /\ steps_of (n_steps_json n) = inr steps /\ (steps = [] \/ blank (device_of a n) = false).

(** Counters of the tuple that leave room for [m] more. *)
Definition room (m : Z) (a : App) (key : TrustKey) : Prop :=
  let r := entry key (trust_store a) in
  0 <= operator_approvals r < 2 ^ 32 - m /\ 0 <= consecutive_successes r < 2 ^ 32 - m /\ 0 <= operator_rejections r < 2 ^ 32 - m.

Definition approved_record (t : Z) (r : TrustRecord) : TrustRecord :=
  mkTrustRecord (tr_state r) (consecutive_successes r + 1) t (total_failures r) (operator_approvals r + 1) (operator_rejections r) t.

(** What an approval leaves behind. *)
Definition approved (w : World) (config : RemediationConfig) (note : string) (n : ProposalNode) (steps : list ProposalStep) (a : App) : App :=
  mkApp (decide_node (n_id n) "approved" note (now_ns w) <$> proposals a) (detections a)
    (remediations a ++ [(fresh_id w, n_detection_id n, n_playbook_id n, "success"%string)])
    (update (key_of n) (approved_record (now_ns w) (entry (key_of n) (trust_store a))) (trust_store a))
    (if blank (n_rollback_steps_json n) then rollback_registry a
     else register (file_ok w) (mkRollback (n_id n) (fresh_id w) (now_ns w) (rollback_window_secs config) (n_rollback_steps_json n) false)
            (rollback_registry a))
    (device_log a ++ commands (device_of a n) steps).

Lemma approve_result w config note n steps a :
  healthy w -> findable a -> runnable a n steps -> room 1 a (key_of n) ->
  approvals_approve_handler w config (n_id n) note a = Ok (approved w config note n steps a, mkResponse true "" (fresh_id w)).
Proof.
  intros (Hr & Hd & Hw & Hp) Hf (Hn & Hs & Hdev) Hroom. unfold approvals_approve_handler.
  rewrite find_proposal_node by done.
  change (row_device_address (row_of a n)) with (device_of a n). change (row_steps_json (row_of a n)) with (n_steps_json n).
  rewrite (execute_proposal_done w (device_of a n) (n_steps_json n) steps a Hp Hs Hdev).
  unfold decide_remediation_proposal. rewrite Hd. unfold write_remediation. rewrite Hw.
  rewrite bool_decide_true by done. unfold with_trust, set_log, set_proposals, add_remediation, set_trust, set_registry.
  cbn [trust_store proposals detections remediations rollback_registry device_log].
  destruct Hroom as (? & ? & ?). unfold record_approval. cbn zeta.
  change (trust_key_from_storage (row_trust_key (row_of a n))) with (key_of n).
  rewrite !checked_u32 by lia. cbn [mbind outcome_bind andb rollback_registry].
  change (row_rollback_steps_json (row_of a n)) with (n_rollback_steps_json n).
  unfold approved. destruct (blank (n_rollback_steps_json n)); done.
Qed.

Definition rejected_record (t : Z) (r : TrustRecord) : TrustRecord :=
  mkTrustRecord (tr_state r) 0 (last_success_at_ns r) (total_failures r) (operator_approvals r) (operator_rejections r + 1) t.

Definition rejected (w : World) (note : string) (n : ProposalNode) (a : App) : App :=
  mkApp (decide_node (n_id n) "rejected" note (now_ns w) <$> proposals a) (detections a) (remediations a)
    (update (key_of n) (rejected_record (now_ns w) (entry (key_of n) (trust_store a))) (trust_store a))
    (rollback_registry a) (device_log a).

Lemma reject_result w note n a :
  healthy w -> findable a -> n ∈ proposals a -> room 1 a (key_of n) ->
  approvals_reject_handler w (n_id n) note a = Ok (rejected w note n a, mkResponse true "" "").
Proof.
  intros (Hr & Hd & Hw & Hp) Hf Hn Hroom. unfold approvals_reject_handler. rewrite find_proposal_node by done.
  unfold decide_remediation_proposal. rewrite Hd. unfold with_trust, set_proposals, set_trust.
  cbn [trust_store proposals detections remediations rollback_registry device_log].
  destruct Hroom as (? & ? & ?). unfold record_rejection. cbn zeta.
  change (trust_key_from_storage (row_trust_key (row_of a n))) with (key_of n).
  rewrite !checked_u32 by lia. done.
Qed.

(** Claim C11: when the graph answers and every step succeeds, there are at most
    500 proposals with identifiers of their own, and the counters of the tuple
    have room, approving a proposal whose steps can be read and whose device is
    known does exactly this: its steps are sent to the device of its detection,
    in order; the proposal is marked approved and nothing else of it or of the
    others changes; one remediation is recorded; the approval counts for the
    tuple of the proposal; and a rollback window is opened if and only if the
    text of its rollback steps is not blank (an empty list is not). *)
Theorem approve_effect w config note n steps a :
  healthy w -> findable a -> runnable a n steps -> room 1 a (key_of n) ->
  exists a', approvals_approve_handler w config (n_id n) note a = Ok (a', mkResponse true "" (fresh_id w)) /\
    device_log a' = device_log a ++ commands (device_of a n) steps /\
    (forall m, m ∈ proposals a -> n_id m <> n_id n -> m ∈ proposals a') /\
    decided "approved" note (now_ns w) n ∈ proposals a' /\
    remediations a' = remediations a ++ [(fresh_id w, n_detection_id n, n_playbook_id n, "success"%string)] /\
    get (key_of n) (trust_store a') = Some (approved_record (now_ns w) (entry (key_of n) (trust_store a))) /\
    (forall k, k <> to_storage_key (key_of n) -> records (trust_store a') !! k = records (trust_store a) !! k) /\
    rr_states (rollback_registry a') =
      if blank (n_rollback_steps_json n) then rr_states (rollback_registry a)
      else <[n_id n := mkRollback (n_id n) (fresh_id w) (now_ns w) (rollback_window_secs config) (n_rollback_steps_json n) false]>
             (rr_states (rollback_registry a)).
Proof.
  intros Hw Hf Hr Hroom. exists (approved w config note n steps a). split; [by apply approve_result|].
  unfold approved. cbn [device_log proposals remediations trust_store rollback_registry]. split_and!; try done.
  - intros m Hm Hne. apply list_elem_of_fmap. exists m. split; [|done]. unfold decide_node. by rewrite bool_decide_false.
  - apply list_elem_of_fmap. exists n. split; [done|]. apply Hr.
  - unfold get. by rewrite update_records, lookup_insert_eq.
  - intros k Hk. by rewrite update_records, lookup_insert_ne.
  - destruct (blank (n_rollback_steps_json n)); [done|]. unfold register. by rewrite registry_persist_states.
Qed.

(** ** A decision does not bind *)

Lemma runnable_decided status note t n steps a ps :
  runnable a n steps -> ps = decide_node (n_id n) status note t <$> proposals a ->
  forall a', proposals a' = ps -> detections a' = detections a -> runnable a' (decided status note t n) steps.
Proof.
  intros (Hn & Hs & Hd) -> a' Hp Hdet. unfold decided, decide_node. rewrite bool_decide_true by done. split_and!.
  - rewrite Hp. apply list_elem_of_fmap. exists n. split; [|done]. unfold decide_node. by rewrite bool_decide_true.
  - done.
  - unfold device_of in *. by rewrite Hdet.
Qed.

Lemma decided_same status note t n :
  n_id (decided status note t n) = n_id n /\ key_of (decided status note t n) = key_of n /\
  forall a, device_of a (decided status note t n) = device_of a n.
Proof. unfold decided, decide_node, key_of, device_of. by rewrite bool_decide_true. Qed.

Lemma entry_update key r s : entry key (update key r s) = r.
Proof. unfold entry, get. by rewrite update_records, lookup_insert_eq. Qed.

Lemma room_update m a a' key r :
  trust_store a' = update key r (trust_store a) ->
  0 <= operator_approvals r < 2 ^ 32 - m -> 0 <= consecutive_successes r < 2 ^ 32 - m ->
  0 <= operator_rejections r < 2 ^ 32 - m -> room m a' key.
Proof. intros Ht ? ? ?. unfold room. by rewrite Ht, entry_update. Qed.

(** After an approval the proposal can be approved again. *)
Lemma approve_again w config note n steps a m :
  healthy w -> findable a -> runnable a n steps -> 1 <= m -> room m a (key_of n) ->
  let n' := decided "approved" note (now_ns w) n in let a' := approved w config note n steps a in
  findable a' /\ runnable a' n' steps /\ room (m - 1) a' (key_of n').
Proof.
  intros Hw Hf Hr Hm Hroom n' a'. destruct (decided_same "approved" note (now_ns w) n) as (_ & Hk & _). split_and!.
  - apply (findable_decide (n_id n) "approved" note (now_ns w) a Hf).
  - by eapply runnable_decided.
  - unfold n'. rewrite Hk. destruct Hroom as (? & ? & ?). eapply room_update; [done|simpl; lia..].
Qed.

Lemma rejected_runnable w note n steps a m :
  healthy w -> findable a -> runnable a n steps -> 1 <= m -> room m a (key_of n) ->
  let n' := decided "rejected" note (now_ns w) n in let a' := rejected w note n a in
  findable a' /\ runnable a' n' steps /\ room (m - 1) a' (key_of n').
Proof.
  intros Hw Hf Hr Hm Hroom n' a'. destruct (decided_same "rejected" note (now_ns w) n) as (_ & Hk & _). split_and!.
  - apply (findable_decide (n_id n) "rejected" note (now_ns w) a Hf).
  - by eapply runnable_decided.
  - unfold n'. rewrite Hk. destruct Hroom as (? & ? & ?). eapply room_update; [done|simpl; lia..].
Qed.

Lemma room_weaken m m' a key : m' <= m -> room m a key -> room m' a key.
Proof. unfold room. intros. lia. Qed.

(** A decision is not final.  No handler looks at the status of a
    proposal: one the operator has rejected can still be approved, and one
    that was approved can be approved again; each time its steps are sent to
    the device. *)
Theorem rejected_proposal_executes w config note n steps a :
  healthy w -> findable a -> runnable a n steps -> room 3 a (key_of n) ->
  exists a1 a2 a3, approvals_reject_handler w (n_id n) note a = Ok (a1, mkResponse true "" "") /\
    approvals_approve_handler w config (n_id n) note a1 = Ok (a2, mkResponse true "" (fresh_id w)) /\
    approvals_approve_handler w config (n_id n) note a2 = Ok (a3, mkResponse true "" (fresh_id w)) /\
    device_log a3 = device_log a ++ commands (device_of a n) steps ++ commands (device_of a n) steps.
Proof.
  intros Hw Hf Hr Hroom. pose proof Hr as (Hn & _).
  destruct (rejected_runnable w note n steps a 3) as (Hf1 & Hr1 & Hroom1); [done..|].
  destruct (decided_same "rejected" note (now_ns w) n) as (Hid1 & Hk1 & Hd1).
  set (n1 := decided "rejected" note (now_ns w) n) in *. set (a1 := rejected w note n a) in *.
  destruct (approve_again w config note n1 steps a1 2) as (Hf2 & Hr2 & Hroom2); [done..|].
  destruct (decided_same "approved" note (now_ns w) n1) as (Hid2 & Hk2 & Hd2).
  set (n2 := decided "approved" note (now_ns w) n1) in *. set (a2 := approved w config note n1 steps a1) in *.
  exists a1, a2, (approved w config note n2 steps a2). split_and!.
  - apply reject_result; [done..|]. by eapply room_weaken; [|exact Hroom].
  - rewrite <- Hid1. apply approve_result; [done..|]. by eapply room_weaken; [|exact Hroom1].
  - rewrite <- Hid1, <- Hid2. apply approve_result; [done..|]. by eapply room_weaken; [|exact Hroom2].
  - unfold approved at 1. cbn [device_log]. rewrite Hd2, Hd1. unfold a2, approved. cbn [device_log].
    rewrite Hd1, <- app_assoc. done.
Qed.

(** ** Executions that fail *)

Lemma execute_steps_fails w device pre st post executed log applied e :
  (forall log st', st' ∈ pre -> perform w log device st' = Step_Done) ->
  perform w (log ++ commands device pre) device st = Step_Failed applied e ->
  execute_steps w device (pre ++ st :: post) executed log =
    (inl e, log ++ commands device pre ++ (if applied then [(device, st)] else [])).
Proof.
  revert executed log. induction pre as [|s pre IH]; intros executed log Hpre Hst; cbn [app execute_steps].
  - change (commands device []) with (@nil (string * ProposalStep)) in *. rewrite app_nil_r in Hst. rewrite Hst.
    destruct applied; [done|]. by rewrite app_nil_r.
  - rewrite Hpre by apply list_elem_of_here. rewrite IH.
    + by rewrite <- app_assoc.
    + intros l st' Hin. apply Hpre. by right.
    + by rewrite <- app_assoc.
Qed.

Definition failed_record (t : Z) (r : TrustRecord) : TrustRecord :=
  mkTrustRecord (tr_state r) 0 (last_success_at_ns r) (total_failures r + 1) (operator_approvals r) (operator_rejections r) t.

(** What an approval leaves behind whose execution failed. *)
Definition failed (w : World) (note : string) (n : ProposalNode) (log : list (string * ProposalStep)) (a : App) : App :=
  mkApp (decide_node (n_id n) "failed" note (now_ns w) <$> proposals a) (detections a)
    (remediations a ++ [(fresh_id w, n_detection_id n, n_playbook_id n, "failed"%string)])
    (update (key_of n) (failed_record (now_ns w) (entry (key_of n) (trust_store a))) (trust_store a)) (rollback_registry a) log.

Lemma approve_failed_result w config note n a log e :
  read_error w = None -> decide_error w = None -> write_error w = None -> findable a -> n ∈ proposals a ->
  execute_proposal_steps w (device_of a n) (n_steps_json n) a = (inl e, set_log log a) ->
  0 <= total_failures (entry (key_of n) (trust_store a)) < 2 ^ 32 - 1 ->
  approvals_approve_handler w config (n_id n) note a =
    Ok (failed w note n log a, mkResponse false "proposal execution failed" (fresh_id w)).
Proof.
  intros Hr Hd Hw Hf Hn Hex Hroom. unfold approvals_approve_handler. rewrite find_proposal_node by done.
  change (row_device_address (row_of a n)) with (device_of a n). change (row_steps_json (row_of a n)) with (n_steps_json n). rewrite Hex.
  unfold decide_remediation_proposal. rewrite Hd. unfold write_remediation. rewrite Hw. rewrite bool_decide_false by done.
  unfold with_trust, set_log, set_proposals, add_remediation, set_trust.
  cbn [trust_store proposals detections remediations rollback_registry device_log].
  unfold record_failure. cbn zeta. change (trust_key_from_storage (row_trust_key (row_of a n))) with (key_of n).
  rewrite checked_u32 by lia. done.
Qed.

(** An execution that fails half way is not undone and cannot be: the
    steps before the one that failed stay on the device, the proposal is
    marked failed, the failure is counted, but no rollback window is opened,
    and a rollback of the proposal is refused. *)
Theorem failed_execution_stays w w' config note note' n a pre st post applied e :
  read_error w = None -> decide_error w = None -> write_error w = None -> read_error w' = None ->
  findable a -> n ∈ proposals a -> blank (device_of a n) = false ->
  steps_of (n_steps_json n) = inr (pre ++ st :: post) ->
  (forall log st', st' ∈ pre -> perform w log (device_of a n) st' = Step_Done) ->
  perform w (device_log a ++ commands (device_of a n) pre) (device_of a n) st = Step_Failed applied e ->
  0 <= total_failures (entry (key_of n) (trust_store a)) < 2 ^ 32 - 1 ->
  registry_get (n_id n) (rollback_registry a) = None ->
  exists a', approvals_approve_handler w config (n_id n) note a = Ok (a', mkResponse false "proposal execution failed" (fresh_id w)) /\
    device_log a' = device_log a ++ commands (device_of a n) pre ++ (if applied then [(device_of a n, st)] else []) /\
    decided "failed" note (now_ns w) n ∈ proposals a' /\
    total_failures (entry (key_of n) (trust_store a')) = total_failures (entry (key_of n) (trust_store a)) + 1 /\
    approvals_rollback_handler w' (n_id n) note' a' = Ok (a', refused "rollback window is not active").
Proof.
  intros Hr Hd Hw Hr' Hf Hn Hdev Hs Hpre Hst Hroom Hreg.
  set (log := device_log a ++ commands (device_of a n) pre ++ (if applied then [(device_of a n, st)] else [])).
  assert (execute_proposal_steps w (device_of a n) (n_steps_json n) a = (inl e, set_log log a)) as Hex.
  { unfold execute_proposal_steps. unfold steps_of in Hs. rewrite Hs, Hdev.
    rewrite (execute_steps_fails w (device_of a n) pre st post 0 (device_log a) applied e Hpre Hst). by destruct pre. }
  exists (failed w note n log a). assert (decided "failed" note (now_ns w) n ∈ proposals (failed w note n log a)) as Hin
    by (apply list_elem_of_fmap; by exists n).
  split_and!; [by eapply approve_failed_result|done|done|cbn [failed trust_store]; by rewrite entry_update|].
  destruct (decided_same "failed" note (now_ns w) n) as (Hid & _).
  pose proof (find_proposal_node w' (failed w note n log a) (decided "failed" note (now_ns w) n) Hr'
                (findable_decide (n_id n) "failed" note (now_ns w) a Hf) Hin) as Hfp.
  rewrite Hid in Hfp. unfold approvals_rollback_handler, rollback_begin. rewrite Hfp. cbn [failed rollback_registry]. by rewrite Hreg.
Qed.

(** ** Rollback *)

Lemma execute_keeps_registry w device text a r a' :
  execute_proposal_steps w device text a = (r, a') -> rollback_registry a' = rollback_registry a.
Proof.
  unfold execute_proposal_steps. repeat case_match; intros [= _ <-]; done.
Qed.

Lemma rolled_back_refused w id note a s :
  registry_get id (rollback_registry a) = Some s -> rolled_back s = true ->
  exists e, approvals_rollback_handler w id note a = Ok (a, refused e).
Proof.
  intros Hg Hs. unfold approvals_rollback_handler, rollback_begin.
  destruct (find_proposal w id a) as [e|[p|]]; [by exists e| |by eexists]. rewrite Hg. unfold is_expired. rewrite Hs. by eexists.
Qed.

(** A rollback that was reported as done is not done again: every
    later request for the same proposal is refused and changes nothing. *)
Theorem rollback_once w id note a a1 response :
  approvals_rollback_handler w id note a = Ok (a1, response) -> success response = true ->
  forall w' note', exists e, approvals_rollback_handler w' id note' a1 = Ok (a1, refused e).
Proof.
  intros Hrb Hok w' note'. unfold approvals_rollback_handler in Hrb. inv_ok Hrb. unfold rollback_begin in Heq.
  destruct a0 as [resp|[p s]].
  { injection Hrb as <- <-. destruct (find_proposal w id a) as [e|[p|]]; [by injection Heq as <-| |by injection Heq as <-].
    destruct (registry_get id (rollback_registry a)); [|by injection Heq as <-]. inv_ok Heq. destruct a0; [|done].
    by injection Heq as <-. }
  destruct (find_proposal w id a) as [e|[p'|]]; [done| |done]. destruct (registry_get id (rollback_registry a)) as [s'|] eqn:Hg; [|done].
  unfold rollback_finish in Hrb. destruct (execute_proposal_steps _ _ _ _) as [[e|k] a2] eqn:Hex.
  { inv_ok Hrb. injection Hrb as <- <-. done. }
  apply execute_keeps_registry in Hex. unfold decide_remediation_proposal in Hrb. destruct (decide_error w); [by injection Hrb as <- <-|].
  inv_ok Hrb. injection Hrb as <- _. unfold distrust, with_trust in Heq0. inv_ok Heq0. injection Heq0 as <-.
  eapply rolled_back_refused; [cbn [set_trust rollback_registry set_registry]|].
  - unfold registry_get, mark_rolled_back. cbn [set_proposals rollback_registry]. rewrite Hex. unfold registry_get in Hg. rewrite Hg.
    rewrite registry_persist_states. cbn [rr_states]. by rewrite lookup_insert_eq.
  - done.
Qed.

(** The window is checked before the steps and closed after them, so two
    requests that are checked before either is done both execute. *)
Lemma rollback_finish_result w id note p s steps a :
  healthy w -> steps_of (snapshot_json s) = inr steps -> steps = [] \/ blank (row_device_address p) = false ->
  0 <= total_failures (entry (trust_key_from_storage (row_trust_key p)) (trust_store a)) < 2 ^ 32 - 1 ->
  exists a', rollback_finish w id note p s a = Ok (a', mkResponse true "" (remediation_id s)) /\
    device_log a' = device_log a ++ commands (row_device_address p) steps /\
    total_failures (entry (trust_key_from_storage (row_trust_key p)) (trust_store a')) =
      total_failures (entry (trust_key_from_storage (row_trust_key p)) (trust_store a)) + 1.
Proof.
  intros (Hr & Hd & Hw & Hp) Hs Hdev Hroom. unfold rollback_finish. cbn zeta.
  rewrite (execute_proposal_done w (row_device_address p) (snapshot_json s) steps a Hp Hs Hdev).
  unfold decide_remediation_proposal. rewrite Hd. unfold distrust, with_trust, set_log, set_proposals, set_registry.
  cbn [trust_store proposals detections remediations rollback_registry device_log].
  unfold record_failure. cbn zeta. rewrite checked_u32 by lia. cbn [mbind outcome_bind]. eexists. split_and!; [done|done|].
  cbn [set_trust trust_store]. unfold set_trust_state. cbn zeta. by rewrite !entry_update.
Qed.

(** Concurrent requests to roll a proposal back are not serialised:
    two of them that are checked before either is done both pass the check
    and both execute the steps on the device. *)
Theorem rollback_race w id note note' p s steps a :
  healthy w -> rollback_begin w id a = Ok (inr (p, s)) ->
  steps_of (snapshot_json s) = inr steps -> steps = [] \/ blank (row_device_address p) = false ->
  0 <= total_failures (entry (trust_key_from_storage (row_trust_key p)) (trust_store a)) < 2 ^ 32 - 2 ->
  exists a1 a2, rollback_finish w id note p s a = Ok (a1, mkResponse true "" (remediation_id s)) /\
    rollback_finish w id note' p s a1 = Ok (a2, mkResponse true "" (remediation_id s)) /\
    device_log a2 = device_log a ++ commands (row_device_address p) steps ++ commands (row_device_address p) steps.
Proof.
  intros Hw _ Hs Hdev Hroom.
  destruct (rollback_finish_result w id note p s steps a Hw Hs Hdev) as (a1 & Hfin1 & Hl1 & Hf1); [lia|].
  destruct (rollback_finish_result w id note' p s steps a1 Hw Hs Hdev) as (a2 & Hfin2 & Hl2 & _); [lia|].
  exists a1, a2. split_and!; [done|done|]. by rewrite Hl2, Hl1, <- app_assoc.
Qed.

(** ** Autonomy *)

(** A call of a handler other than the one that graduates a tuple. *)
Inductive server_step (config : RemediationConfig) : App -> App -> Prop :=
| step_create w r a : server_step config a (approvals_create_handler w r a).1
| step_approve w id note a a' resp : approvals_approve_handler w config id note a = Ok (a', resp) -> server_step config a a'
| step_reject w id note a a' resp : approvals_reject_handler w id note a = Ok (a', resp) -> server_step config a a'
| step_rollback w id note a a' resp : approvals_rollback_handler w id note a = Ok (a', resp) -> server_step config a a'
| step_list w status limit a a' resp : approvals_list_handler w config status limit a = Ok (a', resp) -> server_step config a a'.

(** Every record of [t] is in [t'], and one that needs the operator still does. *)
Definition no_more_autonomous (t t' : TrustStore) : Prop :=
  forall k r, records t !! k = Some r -> exists r', records t' !! k = Some r' /\
    (requires_approval (tr_state r) = true -> requires_approval (tr_state r') = true).

Lemma autonomy_refl t : no_more_autonomous t t.
Proof. intros k r Hr. by exists r. Qed.

Lemma autonomy_trans t1 t2 t3 : no_more_autonomous t1 t2 -> no_more_autonomous t2 t3 -> no_more_autonomous t1 t3.
Proof. intros H12 H23 k r Hr. destruct (H12 k r Hr) as (r2 & Hr2 & ?). destruct (H23 k r2 Hr2) as (r3 & Hr3 & ?). exists r3. auto. Qed.

Lemma autonomy_update key r t :
  (requires_approval (tr_state (entry key t)) = true -> requires_approval (tr_state r) = true) ->
  no_more_autonomous t (update key r t).
Proof.
  intros Hs k r0 Hr0. rewrite update_records. destruct (decide (to_storage_key key = k)) as [<-|Hne].
  - exists r. rewrite lookup_insert_eq. split; [done|]. intros Ha. apply Hs. unfold entry, get. by rewrite Hr0.
  - exists r0. by rewrite lookup_insert_ne.
Qed.

Lemma autonomy_record_failure key t ts t' : record_failure key ts t = Ok t' -> no_more_autonomous t t'.
Proof. unfold record_failure. intros Hr. inv_ok Hr. injection Hr as <-. by apply autonomy_update. Qed.

Lemma autonomy_record_approval key t ts t' : record_approval key ts t = Ok t' -> no_more_autonomous t t'.
Proof. unfold record_approval. intros Hr. inv_ok Hr. inv_ok Hr. injection Hr as <-. by apply autonomy_update. Qed.

Lemma autonomy_record_rejection key t ts t' : record_rejection key ts t = Ok t' -> no_more_autonomous t t'.
Proof. unfold record_rejection. intros Hr. inv_ok Hr. injection Hr as <-. by apply autonomy_update. Qed.

Lemma autonomy_distrust key now a a' : distrust key now a = Ok a' -> no_more_autonomous (trust_store a) (trust_store a').
Proof.
  unfold distrust, with_trust. intros Hd. inv_ok Hd. injection Hd as <-. inv_ok Heq. injection Heq as <-.
  eapply autonomy_trans; [by eapply autonomy_record_failure|]. by apply autonomy_update.
Qed.

Lemma execute_keeps_trust w device text a r a' :
  execute_proposal_steps w device text a = (r, a') -> trust_store a' = trust_store a.
Proof. unfold execute_proposal_steps. repeat case_match; intros [= _ <-]; done. Qed.

Lemma autonomy_create w r a : no_more_autonomous (trust_store a) (trust_store (approvals_create_handler w r a).1).
Proof.
  unfold approvals_create_handler. cbn zeta. set (key := trust_key_from_storage _).
  destruct (get_or_default key (trust_store a)) as [t rec] eqn:Hg.
  assert (no_more_autonomous (trust_store a) t) as Ht.
  { unfold get_or_default in Hg. destruct (records (trust_store a) !! to_storage_key key) eqn:Hk; injection Hg as <- _.
    - apply autonomy_refl.
    - intros k r' Hr'. exists r'. split; [|done]. cbn [set_record records]. rewrite lookup_insert_ne; [done|]. congruence. }
  unfold write_remediation_proposal. destruct (write_error w); [done|]. by destruct (edge_error w).
Qed.

Lemma autonomy_approve w config id note a a' resp :
  approvals_approve_handler w config id note a = Ok (a', resp) -> no_more_autonomous (trust_store a) (trust_store a').
Proof.
  unfold approvals_approve_handler. destruct (find_proposal w id a) as [e|[p|]]; [|cbn zeta|]; try (intros [= <- _]; apply autonomy_refl).
  destruct (execute_proposal_steps _ _ _ _) as [ex a1] eqn:Hex. apply execute_keeps_trust in Hex. rewrite <- Hex.
  destruct (match ex with inr _ => _ | inl _ => _ end) as [ps rs].
  unfold decide_remediation_proposal. destruct (decide_error w); [intros [= <- _]; apply autonomy_refl|].
  unfold write_remediation. destruct (write_error w); [intros [= <- _]; apply autonomy_refl|].
  intros Hrun. inv_ok Hrun. unfold with_trust in Heq. inv_ok Heq. injection Heq as <-. injection Hrun as <- _.
  cbn [add_remediation set_proposals trust_store] in Heq0.
  assert (no_more_autonomous (trust_store a1) a2) as Ha
    by (destruct (bool_decide _); [by eapply autonomy_record_approval|by eapply autonomy_record_failure]).
  by destruct (_ && _).
Qed.

Lemma autonomy_reject w id note a a' resp :
  approvals_reject_handler w id note a = Ok (a', resp) -> no_more_autonomous (trust_store a) (trust_store a').
Proof.
  unfold approvals_reject_handler. destruct (find_proposal w id a) as [e|[p|]]; [|cbn zeta|]; try (intros [= <- _]; apply autonomy_refl).
  unfold decide_remediation_proposal. destruct (decide_error w); [intros [= <- _]; apply autonomy_refl|].
  intros Hrun. inv_ok Hrun. injection Hrun as <- _. unfold with_trust in Heq. inv_ok Heq. injection Heq as <-.
  by eapply autonomy_record_rejection.
Qed.

Lemma autonomy_rollback w id note a a' resp :
  approvals_rollback_handler w id note a = Ok (a', resp) -> no_more_autonomous (trust_store a) (trust_store a').
Proof.
  unfold approvals_rollback_handler. intros Hrun. inv_ok Hrun. destruct a0 as [r|[p s]]; [injection Hrun as <- _; apply autonomy_refl|].
  unfold rollback_finish in Hrun. destruct (execute_proposal_steps _ _ _ _) as [[e|k] a1] eqn:Hex;
    apply execute_keeps_trust in Hex; rewrite <- Hex.
  - inv_ok Hrun. injection Hrun as <- _. by eapply autonomy_distrust.
  - unfold decide_remediation_proposal in Hrun. destruct (decide_error w); [injection Hrun as <- _; apply autonomy_refl|].
    inv_ok Hrun. injection Hrun as <- _. by apply autonomy_distrust in Heq0.
Qed.

Lemma autonomy_list w config status limit a a' resp :
  approvals_list_handler w config status limit a = Ok (a', resp) -> no_more_autonomous (trust_store a) (trust_store a').
Proof.
  unfold approvals_list_handler. destruct (read_remediation_proposals _ _ _ _); [intros [= <- _]; apply autonomy_refl|].
  intros Hrun. inv_ok Hrun. inv_ok Hrun. injection Hrun as <- _. apply autonomy_refl.
Qed.

(** Only the operator's graduation gives a remediation more autonomy.
    However many proposals are created, approved, rejected, rolled back and
    listed, whatever the devices and the graph answer, no tuple that needs
    the operator's approval stops needing it, and no record is lost. *)
Theorem autonomy_only_by_operator config a a' :
  rtc (server_step config) a a' -> no_more_autonomous (trust_store a) (trust_store a').
Proof.
  induction 1 as [a|a1 a2 a3 Hstep _ IH]; [apply autonomy_refl|]. refine (autonomy_trans _ _ _ _ IH).
  destruct Hstep; [apply autonomy_create|by eapply autonomy_approve|by eapply autonomy_reject|by eapply autonomy_rollback|by eapply autonomy_list].
Qed.

End Decisions.

(** ** Keys as text *)

(** No [:] in the text. *)
Fixpoint colon_free (s : string) : bool :=
  match s with EmptyString => true | String c s' => negb (bool_decide (c = ":"%char)) && colon_free s' end.

Lemma split_colon_app s rest : colon_free s = true -> split_colon (s ++ ":" ++ rest) = Some (s, rest).
Proof.
  induction s as [|c s IH]; cbn [colon_free]; [done|]. intros [Hc Hs]%andb_true_iff. apply negb_true_iff in Hc.
  change (split_colon (String c s ++ ":" ++ rest)) with
    (if bool_decide (c = ":"%char) then Some (""%string, (s ++ ":" ++ rest)%string)
     else prod_map (String c) id <$> split_colon (s ++ ":" ++ rest)).
  rewrite Hc, (IH Hs). done.
Qed.

Lemma split_colon_join s part rest : split_colon s = Some (part, rest) -> s = (part ++ ":" ++ rest)%string.
Proof.
  revert part. induction s as [|c s IH]; intros part; cbn [split_colon]; [done|]. case_bool_decide as Hc; [by intros [= <- <-]; subst|].
  destruct (split_colon s) as [[p r]|]; [|done]. cbn. intros [= <- <-]. by rewrite (IH p).
Qed.

(** The key of a tuple survives the text form in which proposals keep
    it: it is read back whole, whatever the playbook is called, when rule,
    environment and site have no colon; and any text with three colons is
    the key it is read as, written out. *)
Theorem trust_key_roundtrip k :
  (colon_free (rule_id k) = true -> colon_free (environment_archetype k) = true -> colon_free (site_id k) = true ->
   trust_key_from_storage (to_storage_key k) = k) /\
  (forall s p1 r1 p2 r2 p3 r3, split_colon s = Some (p1, r1) -> split_colon r1 = Some (p2, r2) -> split_colon r2 = Some (p3, r3) ->
     to_storage_key (trust_key_from_storage s) = s).
Proof.
  split.
  - intros Hr He Hs. unfold trust_key_from_storage, to_storage_key, next_part.
    rewrite !split_colon_app by done. by destruct k.
  - intros s p1 r1 p2 r2 p3 r3 H1 H2 H3. unfold trust_key_from_storage, next_part. rewrite H1, H2, H3.
    apply split_colon_join in H1, H2, H3. by subst.
Qed.

(** Two tuples with one key. *)
Example trust_keys_collide :
  to_storage_key (mkTrustKey "a:b" "c" "d" "e") = to_storage_key (mkTrustKey "a" "b:c" "d" "e").
Proof. done. Qed.

(** ** Instances *)

Section Demo.

(** A database that sorts. *)
Definition demo_newer (a b : ProposalNode) : Prop := n_proposed_at_ns b <= n_proposed_at_ns a.

#[local] Instance demo_newer_dec : RelDecision demo_newer.
Proof. unfold RelDecision, demo_newer. apply _. Defined.

#[local] Instance demo_graph : GraphDb.
Proof.
  refine {| newest_first := merge_sort demo_newer |}.
  - intros l. apply merge_sort_Permutation.
  - intros l. assert (Transitive demo_newer) by (intros a b c; unfold demo_newer; lia).
    assert (Total demo_newer) by (intros a b; unfold demo_newer; lia). by apply StronglySorted_merge_sort.
Defined.

#[local] Instance demo_steps : StepsJson :=
  fun text => if bool_decide (text = "[down]"%string) then inr [Step_GnmiSet "/interface/admin" "down"]
              else if bool_decide (text = "[up]"%string) then inr [Step_GnmiSet "/interface/admin" "up"]
              else inl "expected value"%string.

(** Serialisers that fail: nothing is written. *)
#[local] Instance demo_trust_texts : TrustJson.
Proof. by refine {| trust_to_json _ := None; trust_from_json _ := None |}. Defined.
#[local] Instance demo_rollback_texts : RollbackJson.
Proof. by refine {| rollback_to_json _ := None; rollback_from_json _ := None |}. Defined.
#[local] Instance demo_build : BuildProfile := true.
#[local] Instance demo_hash : HashOrder := trie_order.

Definition demo_world (r : StepResult) : World := mkWorld 7 "r1" None None None None true (fun _ _ _ => r).

Definition demo_node : ProposalNode :=
  mkNode "p1" "d1" "bounce" "flap:data_center:dc1:bounce" "pending" "" "[down]" "[up]" 5 0.

Definition demo_app : App :=
  mkApp [demo_node; mkNode "p2" "d1" "noop" "flap:data_center:dc1:noop" "pending" "" "" "" 6 0]
    {["d1" := mkDetection "10.0.0.1" "flap" "major" "{}"]}%string [] (load None demo_trust_config) (mkRegistry ∅ None) [].

Lemma demo_healthy : healthy (demo_world Step_Done).
Proof. done. Qed.

Lemma demo_findable : findable demo_app.
Proof. split; [by apply (bool_decide_unpack _); vm_compute|vm_compute; lia]. Qed.

Lemma demo_runnable : runnable demo_app demo_node [Step_GnmiSet "/interface/admin" "down"].
Proof. split_and!; [by left|by vm_compute|by right; vm_compute]. Qed.

Lemma demo_room m : 0 <= m < 2 ^ 32 -> room m demo_app (key_of demo_node).
Proof. intros Hm. unfold room. change (entry _ _) with record_default. simpl. lia. Qed.

(** The interface is set down and a window to set it up again is opened. *)
Lemma approve_effect_witness :
  exists a', approvals_approve_handler (demo_world Step_Done) demo_trust_config "p1" "ok" demo_app = Ok (a', mkResponse true "" "r1") /\
    device_log a' = [("10.0.0.1", Step_GnmiSet "/interface/admin" "down")]%string /\
    rr_states (rollback_registry a') = {["p1" := mkRollback "p1" "r1" 7 60 "[up]" false]}%string.
Proof.
  destruct (approve_effect (demo_world Step_Done) demo_trust_config "ok" demo_node [Step_GnmiSet "/interface/admin" "down"] demo_app
              demo_healthy demo_findable demo_runnable (demo_room 1 ltac:(lia))) as (a' & Hok & Hlog & _ & _ & _ & _ & _ & Hreg).
  exists a'. split_and!; [exact Hok|exact Hlog|exact Hreg].
Defined.

(** Rejected, approved, approved again: the interface is set down twice. *)
Lemma rejected_proposal_executes_witness :
  exists a1 a2 a3, approvals_reject_handler (demo_world Step_Done) "p1" "no" demo_app = Ok (a1, mkResponse true "" "") /\
    approvals_approve_handler (demo_world Step_Done) demo_trust_config "p1" "no" a1 = Ok (a2, mkResponse true "" "r1") /\
    approvals_approve_handler (demo_world Step_Done) demo_trust_config "p1" "no" a2 = Ok (a3, mkResponse true "" "r1") /\
    length (device_log a3) = 2%nat.
Proof.
  destruct (rejected_proposal_executes (demo_world Step_Done) demo_trust_config "no" demo_node [Step_GnmiSet "/interface/admin" "down"]
              demo_app demo_healthy demo_findable demo_runnable (demo_room 3 ltac:(lia))) as (a1 & a2 & a3 & Hrej & Hap & Hap' & Hlog).
  exists a1, a2, a3. split_and!; [exact Hrej|exact Hap|exact Hap'|by rewrite Hlog].
Defined.

(** The device takes the change, but reports an error. *)
Lemma failed_execution_stays_witness :
  exists a', approvals_approve_handler (demo_world (Step_Failed true "timeout")) demo_trust_config "p1" "ok" demo_app =
      Ok (a', mkResponse false "proposal execution failed" "r1") /\
    device_log a' = [("10.0.0.1", Step_GnmiSet "/interface/admin" "down")]%string /\
    approvals_rollback_handler (demo_world Step_Done) "p1" "undo" a' = Ok (a', refused "rollback window is not active").
Proof.
  destruct (failed_execution_stays (demo_world (Step_Failed true "timeout")) (demo_world Step_Done) demo_trust_config "ok" "undo"
              demo_node demo_app [] (Step_GnmiSet "/interface/admin" "down") [] true "timeout") as (a' & Hok & Hlog & _ & _ & Hrb);
    [done..|exact demo_findable|by left|by vm_compute|by vm_compute|by intros log st' Hin%elem_of_nil|done|vm_compute; split; done|done|].
  exists a'. split_and!; [exact Hok|exact Hlog|exact Hrb].
Defined.

(** The server after the approval, and after its rollback. *)
Definition after_approval : App :=
  match approvals_approve_handler (demo_world Step_Done) demo_trust_config "p1" "ok" demo_app with Ok (a, _) => a | _ => demo_app end.
Definition after_rollback : App :=
  match approvals_rollback_handler (demo_world Step_Done) "p1" "undo" after_approval with Ok (a, _) => a | _ => demo_app end.

Lemma rollback_once_witness :
  device_log after_rollback = [("10.0.0.1", Step_GnmiSet "/interface/admin" "down"); ("10.0.0.1", Step_GnmiSet "/interface/admin" "up")]%string /\
  forall w' note', exists e, approvals_rollback_handler w' "p1" note' after_rollback = Ok (after_rollback, refused e).
Proof.
  split; [by vm_compute|].
  apply (rollback_once (demo_world Step_Done) "p1" "undo" after_approval after_rollback (mkResponse true "" "r1")); by vm_compute.
Defined.

Lemma rollback_race_witness :
  exists p s a1 a2, rollback_begin (demo_world Step_Done) "p1" after_approval = Ok (inr (p, s)) /\
    rollback_finish (demo_world Step_Done) "p1" "x" p s after_approval = Ok (a1, mkResponse true "" (remediation_id s)) /\
    rollback_finish (demo_world Step_Done) "p1" "y" p s a1 = Ok (a2, mkResponse true "" (remediation_id s)) /\
    length (device_log a2) = 3%nat.
Proof.
  set (p := row_of after_approval (decided "approved" "ok" 7 demo_node)).
  set (s := mkRollback "p1" "r1" 7 60 "[up]" false).
  destruct (rollback_race (demo_world Step_Done) "p1" "x" "y" p s [Step_GnmiSet "/interface/admin" "up"] after_approval)
    as (a1 & a2 & Hfin1 & Hfin2 & Hlog); [exact demo_healthy|by vm_compute|by vm_compute|by right; vm_compute|by vm_compute|].
  exists p, s, a1, a2. split_and!; [by vm_compute|exact Hfin1|exact Hfin2|by rewrite Hlog].
Defined.

Lemma autonomy_only_by_operator_witness :
  no_more_autonomous (trust_store demo_app) (trust_store after_rollback).
Proof.
  apply (autonomy_only_by_operator demo_trust_config). eapply rtc_l, rtc_once.
  - apply (step_approve demo_trust_config (demo_world Step_Done) "p1" "ok" demo_app after_approval (mkResponse true "" "r1")). by vm_compute.
  - apply (step_rollback demo_trust_config (demo_world Step_Done) "p1" "undo" after_approval after_rollback (mkResponse true "" "r1")).
    by vm_compute.
Defined.

(** A playbook may have colons in its name. *)
Lemma trust_key_roundtrip_witness :
  trust_key_from_storage "flap:data_center:dc1:vendor:bounce" = mkTrustKey "flap" "data_center" "dc1" "vendor:bounce" /\
  to_storage_key (trust_key_from_storage "flap:data_center:dc1:vendor:bounce") = "flap:data_center:dc1:vendor:bounce"%string.
Proof.
  pose proof (trust_key_roundtrip (mkTrustKey "flap" "data_center" "dc1" "vendor:bounce")) as [Hread Hwrite]. split.
  - by apply Hread.
  - by eapply Hwrite.
Defined.

End Demo.
