(* ===== verification/WriteCoordinator.v ===== *)
(** * The write coordinator ([src/write_coordinator.rs], [src/playbook.rs])

    One task writes to the graph.  Telemetry and the state of subscriptions
    arrive on one channel and are written in batches; detections and
    remediations arrive on another, which is looked at first, and flush what
    is pending.  A detection can create a proposal from a playbook, or ask for
    an investigation.  The channels are queues, a turn of the loop is a
    function, and senders, turns and the end of the senders interleave. *)

From Stdlib Require Import ZArith Lia ZifyBool String.
From stdpp Require Import base numbers list option strings gmap fin_maps.
From S2P Require Import Prelude RustStd Text HashMaps Jsonl Trust Remediation.

Local Open Scope Z_scope.

(** ** Playbooks *)

(** [serde_json::Value]; the keys of an object are distinct. *)
Inductive Json :=
| J_Null | J_Bool (b : bool) | J_Number (text : string) | J_String (s : string)
| J_Array (l : list Json) | J_Object (fields : list (string * Json)).

(** [serde_json]: reading a value, writing a list of values. *)
Class JsonText := { parse_json : string -> option Json; steps_to_json : list Json -> option string }.

Record PlaybookEntry := mkPlaybook {
  pb_name : string;
  pb_vendor : string;
  pb_operation : string;
  pb_description : string;
  pb_risk_tier : string;
  pb_steps : list Json;
}.

Notation PlaybookLibrary := (gmap string (list PlaybookEntry)).

Definition find_playbook (lib : PlaybookLibrary) (rule_id : string) (vendor : option string) : option PlaybookEntry :=
  entries ← lib !! rule_id;
  match vendor with
  | Some v =>
      let v_lc := to_ascii_lowercase v in
      match List.find (fun pb => text_contains v_lc (to_ascii_lowercase (pb_vendor pb))) entries with
      | Some pb => Some pb
      | None => head entries
      end
  | None => head entries
  end.

(** [v.get(key)] *)
Definition json_get (key : string) (v : Json) : option Json :=
  match v with
  | J_Object fields => snd <$> List.find (fun f => bool_decide (f.1 = key)) fields
  | _ => None
  end.

Definition json_str (v : Json) : option string := match v with J_String s => Some s | _ => None end.

Definition extract_vendor `{JsonText} (features_json : string) : option string :=
  v ← parse_json features_json;
  field ← match json_get "vendor" v with Some x => Some x | None => json_get "device_vendor" v end;
  json_str field.

(** ** Requests and writes *)

Record DetectionRequest := mkDetectionRequest {
  dr_device_address : string;
  dr_rule_id : string;
  dr_severity : string;
  dr_features_json : string;
  dr_source_types_json : string;
  dr_latency_ns : Z;
  dr_fired_at_ns : Z;
  dr_state_change_event_id : string;
  dr_source_event_ids : list string;
}.

Record RemediationRequest := mkRemediationRequest {
  rq_detection_id : string;
  rq_action : string;
  rq_status : string;
  rq_detail_json : string;
  rq_attempted_at_ns : Z;
  rq_completed_at_ns : Z;
}.

Inductive PriorityWriteRequest := P_Detection (d : DetectionRequest) | P_Remediation (r : RemediationRequest).

Record AutoInvestigateRequest := mkInvestigate { ai_detection_id : string; ai_device_address : string; ai_rule_id : string }.

Section Coordinator.
Context {Update Status : Type} `{JsonText}.

Inductive WriteRequest := R_Telemetry (u : Update) | R_SubscriptionStatus (s : Status).

(** The calls of the graph store. *)
Inductive Write :=
| W_Batch (updates : list Update)
| W_Status (s : Status)
| W_Detection (d : DetectionRequest)
| W_Remediation (r : RemediationRequest)
| W_Proposal (detection_id playbook_id trust_key steps_json rollback_steps_json : string) (proposed_at_ns : Z).

Record WriteCoordinatorConfig := mkCoordinatorConfig {
  batch_size : Z;
  queue_capacity : Z;
  playbook_library : option PlaybookLibrary;
  auto_propose : bool;
  has_investigation_tx : bool;
}.

(** The task and its channels.  [senders] says whether the handle that owns
    both senders is alive, [running] whether the loop goes on. *)
Record Coordinator := mkCoordinator {
  rx : list WriteRequest;
  priority_rx : list PriorityWriteRequest;
  senders : bool;
  telemetry_batch : list Update;
  sub_status_pending : list Status;
  calls : list (Write * (string + string));
  investigations : list AutoInvestigateRequest;
  replies : list (string + string);
  running : bool;
}.

Definition coordinator_new : Coordinator := mkCoordinator [] [] true [] [] [] [] [] true.

(** What the graph answers to a call, given the calls before it: an error or
    an identifier; and whether the channel of investigations takes a request.
    The calls are recorded with their answers: a call that returns an error has
    written nothing. *)
Context (cfg : WriteCoordinatorConfig) (answer : list (Write * (string + string)) -> Write -> string + string)
  (accepts : list AutoInvestigateRequest -> bool).

Definition write_graph (w : Write) (c : Coordinator) : Coordinator * (string + string) :=
  (mkCoordinator (rx c) (priority_rx c) (senders c) (telemetry_batch c) (sub_status_pending c)
     (calls c ++ [(w, answer (calls c) w)]) (investigations c) (replies c) (running c), answer (calls c) w).

(** [std::mem::replace] and [write_batch]; an error is logged. *)
Definition flush_telemetry_batch (c : Coordinator) : Coordinator :=
  (write_graph (W_Batch (telemetry_batch c))
     (mkCoordinator (rx c) (priority_rx c) (senders c) [] (sub_status_pending c) (calls c) (investigations c) (replies c) (running c))).1.

Definition flush_sub_status_batch (c : Coordinator) : Coordinator :=
  foldl (fun c s => (write_graph (W_Status s) c).1)
    (mkCoordinator (rx c) (priority_rx c) (senders c) (telemetry_batch c) [] (calls c) (investigations c) (replies c) (running c))
    (sub_status_pending c).

Definition flush_nonempty (c : Coordinator) : Coordinator :=
  let c := if bool_decide (telemetry_batch c = []) then c else flush_telemetry_batch c in
  if bool_decide (sub_status_pending c = []) then c else flush_sub_status_batch c.

Definition reply (r : string + string) (c : Coordinator) : Coordinator :=
  mkCoordinator (rx c) (priority_rx c) (senders c) (telemetry_batch c) (sub_status_pending c) (calls c) (investigations c)
    (replies c ++ [r]) (running c).

Definition investigate (r : AutoInvestigateRequest) (c : Coordinator) : Coordinator :=
  mkCoordinator (rx c) (priority_rx c) (senders c) (telemetry_batch c) (sub_status_pending c) (calls c)
    (if accepts (investigations c) then investigations c ++ [r] else investigations c) (replies c) (running c).

(** The proposal of a playbook. *)
Definition auto_proposal (det_id : string) (d : DetectionRequest) (pb : PlaybookEntry) : Write :=
  W_Proposal det_id (pb_name pb) (to_storage_key (mkTrustKey (dr_rule_id d) "" "" (pb_name pb)))
    (default "[]"%string (steps_to_json (pb_steps pb))) "[]" (dr_fired_at_ns d).

Definition handle_detection (d : DetectionRequest) (c : Coordinator) : Coordinator :=
  let c := flush_nonempty c in
  let '(c, res) := write_graph (W_Detection d) c in
  let vendor := extract_vendor (dr_features_json d) in
  let '(c, playbook_matched) :=
    if auto_propose cfg then
      match res, playbook_library cfg with
      | inr det_id, Some lib =>
          match find_playbook lib (dr_rule_id d) vendor with
          | Some pb => ((write_graph (auto_proposal det_id d pb) c).1, true)
          | None => (c, false)
          end
      | _, _ => (c, false)
      end
    else (c, match playbook_library cfg ≫= (fun lib => find_playbook lib (dr_rule_id d) vendor) with Some _ => true | None => false end) in
  let c :=
    match res with
    | inr det_id =>
        if has_investigation_tx cfg && negb playbook_matched
        then investigate (mkInvestigate det_id (dr_device_address d) (dr_rule_id d)) c else c
    | inl _ => c
    end in
  reply res c.

Definition handle_remediation (r : RemediationRequest) (c : Coordinator) : Coordinator :=
  let c := flush_nonempty c in
  let '(c, res) := write_graph (W_Remediation r) c in
  reply res c.

Definition handle_request (effective_batch : Z) (r : WriteRequest) (c : Coordinator) : Coordinator :=
  match r with
  | R_Telemetry u =>
      let c := mkCoordinator (rx c) (priority_rx c) (senders c) (telemetry_batch c ++ [u]) (sub_status_pending c) (calls c)
                 (investigations c) (replies c) (running c) in
      if effective_batch <=? blen (telemetry_batch c) then flush_sub_status_batch (flush_telemetry_batch c) else c
  | R_SubscriptionStatus s =>
      let c := mkCoordinator (rx c) (priority_rx c) (senders c) (telemetry_batch c) (sub_status_pending c ++ [s]) (calls c)
                 (investigations c) (replies c) (running c) in
      if 128 <=? blen (sub_status_pending c) then flush_sub_status_batch c else c
  end.

(** A turn of the loop: the channels in the order of the biased [select!], then
    the timer.  [None] when the task has to wait. *)
Definition turn (write_pressure timer_due : bool) (c : Coordinator) : option Coordinator :=
  let effective_batch := if write_pressure then batch_size cfg * 2 else batch_size cfg in
  if negb (running c) then None
  else
    match priority_rx c with
    | p :: ps =>
        let c := mkCoordinator (rx c) ps (senders c) (telemetry_batch c) (sub_status_pending c) (calls c) (investigations c)
                   (replies c) (running c) in
        Some (match p with P_Detection d => handle_detection d c | P_Remediation r => handle_remediation r c end)
    | [] =>
        if negb (senders c)
        then Some (mkCoordinator (rx c) [] (senders c) (telemetry_batch c) (sub_status_pending c) (calls c) (investigations c)
                     (replies c) false)
        else
          match rx c with
          | r :: rs =>
              Some (handle_request effective_batch r
                      (mkCoordinator rs [] (senders c) (telemetry_batch c) (sub_status_pending c) (calls c) (investigations c)
                         (replies c) (running c)))
          | [] => if timer_due then Some (flush_nonempty c) else None
          end
    end.

(** [submit] and [submit_priority], once there is room. *)
Definition submit (r : WriteRequest) (c : Coordinator) : option Coordinator :=
  if senders c && (blen (rx c) <? queue_capacity cfg)
  then Some (mkCoordinator (rx c ++ [r]) (priority_rx c) (senders c) (telemetry_batch c) (sub_status_pending c) (calls c)
               (investigations c) (replies c) (running c))
  else None.

Definition submit_priority (p : PriorityWriteRequest) (c : Coordinator) : option Coordinator :=
  if senders c && (blen (priority_rx c) <? 256)
  then Some (mkCoordinator (rx c) (priority_rx c ++ [p]) (senders c) (telemetry_batch c) (sub_status_pending c) (calls c)
               (investigations c) (replies c) (running c))
  else None.

(** The handle is dropped. *)
Definition drop_senders (c : Coordinator) : Coordinator :=
  mkCoordinator (rx c) (priority_rx c) false (telemetry_batch c) (sub_status_pending c) (calls c) (investigations c) (replies c) (running c).

End Coordinator.

Arguments WriteRequest : clear implicits.
Arguments Write : clear implicits.
Arguments Coordinator : clear implicits.

(** ** Nothing is lost or reordered while it runs *)

Section Conservation.
Context {Update Status : Type} `{JsonText}.
Context (cfg : WriteCoordinatorConfig) (answer : list (Write Update Status * (string + string)) -> Write Update Status -> string + string)
  (accepts : list AutoInvestigateRequest -> bool).

Notation Task := (Coordinator Update Status).
Notation loop_turn := (turn cfg answer accepts).

(** The states that are reached, with what was submitted, oldest first. *)
Inductive reach : list (WriteRequest Update Status) -> Task -> Prop :=
| reach_new : reach [] coordinator_new
| reach_submit reqs r c c' : reach reqs c -> submit cfg r c = Some c' -> reach (reqs ++ [r]) c'
| reach_priority reqs p c c' : reach reqs c -> submit_priority p c = Some c' -> reach reqs c'
| reach_turn reqs wp td c c' : reach reqs c -> loop_turn wp td c = Some c' -> reach reqs c'
| reach_drop reqs c : reach reqs c -> reach reqs (drop_senders c).

Definition telemetry_of : list (WriteRequest Update Status) -> list Update :=
  omap (fun r => match r with R_Telemetry u => Some u | _ => None end).
Definition statuses_of : list (WriteRequest Update Status) -> list Status :=
  omap (fun r => match r with R_SubscriptionStatus s => Some s | _ => None end).

Definition updates_in (w : Write Update Status) : list Update := match w with W_Batch l => l | _ => [] end.
Definition statuses_in (w : Write Update Status) : list Status := match w with W_Status s => [s] | _ => [] end.
Notation Calls := (list (Write Update Status * (string + string))).

(** What was given to the store, by any call; by those that succeeded; and by
    those that failed, which is lost: an error is only logged. *)
Definition given_updates (ws : Calls) : list Update := ws ≫= (fun w => updates_in w.1).
Definition given_statuses (ws : Calls) : list Status := ws ≫= (fun w => statuses_in w.1).

Definition succeeded (w : Write Update Status * (string + string)) : bool := match w.2 with inr _ => true | inl _ => false end.

Definition written_updates (ws : Calls) : list Update := given_updates (base.filter (fun w => succeeded w = true) ws).
Definition lost_updates (ws : Calls) : list Update := given_updates (base.filter (fun w => succeeded w = false) ws).
Definition written_statuses (ws : Calls) : list Status := given_statuses (base.filter (fun w => succeeded w = true) ws).
Definition lost_statuses (ws : Calls) : list Status := given_statuses (base.filter (fun w => succeeded w = false) ws).

(** What was taken from the channel: given to the store or pending. *)
Definition taken_updates (c : Task) : list Update := given_updates (calls c) ++ telemetry_batch c.
Definition taken_statuses (c : Task) : list Status := given_statuses (calls c) ++ sub_status_pending c.

(** Nothing that was taken is lost, and only the batches and the channel of
    requests change. *)
Record keeps (c c' : Task) : Prop := mkKeeps {
  keeps_updates : taken_updates c' = taken_updates c;
  keeps_statuses : taken_statuses c' = taken_statuses c;
  keeps_rx : rx c' = rx c;
  keeps_priority : priority_rx c' = priority_rx c;
  keeps_senders : senders c' = senders c;
  keeps_running : running c' = running c;
  keeps_writes : calls c `prefix_of` calls c';
  keeps_batch : (length (telemetry_batch c') <= length (telemetry_batch c))%nat;
  keeps_pending : (length (sub_status_pending c') <= length (sub_status_pending c))%nat;
}.

Lemma keeps_refl c : keeps c c.
Proof. by split. Qed.

Lemma keeps_trans c1 c2 c3 : keeps c1 c2 -> keeps c2 c3 -> keeps c1 c3.
Proof. intros [] []. split; try congruence; [by etrans|lia|lia]. Qed.

Lemma keeps_write w c : updates_in w = [] -> statuses_in w = [] -> keeps c (write_graph answer w c).1.
Proof.
  intros Hu Hs. split; cbn; try done; try (by apply prefix_app_r).
  - unfold taken_updates, given_updates. cbn. rewrite bind_app. cbn. by rewrite Hu, !app_nil_r.
  - unfold taken_statuses, given_statuses. cbn. rewrite bind_app. cbn. by rewrite Hs, !app_nil_r.
Qed.

Lemma flush_telemetry_spec c : keeps c (flush_telemetry_batch answer c) /\ telemetry_batch (flush_telemetry_batch answer c) = [].
Proof.
  split; [|done]. split; cbn; try done; [| |by apply prefix_app_r|lia].
  - unfold taken_updates, given_updates. cbn. rewrite bind_app. cbn. by rewrite !app_nil_r.
  - unfold taken_statuses, given_statuses. cbn. rewrite bind_app. cbn. by rewrite app_nil_r.
Qed.

Lemma write_statuses ss c :
  let c' := foldl (fun c s => (write_graph answer (W_Status s) c).1) c ss in
  given_updates (calls c') = given_updates (calls c) /\ given_statuses (calls c') = given_statuses (calls c) ++ ss /\
  calls c `prefix_of` calls c' /\ telemetry_batch c' = telemetry_batch c /\ sub_status_pending c' = sub_status_pending c /\
  rx c' = rx c /\ priority_rx c' = priority_rx c /\ senders c' = senders c /\ running c' = running c.
Proof.
  revert c. induction ss as [|s ss IH]; intros c; cbn [foldl]; [by rewrite app_nil_r|].
  destruct (IH (write_graph answer (W_Status s) c).1) as (Hu & Hs & Hp & Hb & Hn & Hr & Hpr & Hse & Hru). cbn zeta.
  rewrite Hu, Hs, Hb, Hn, Hr, Hpr, Hse, Hru. cbn. unfold given_updates, given_statuses. rewrite !bind_app. cbn.
  rewrite app_nil_r, <- app_assoc. split_and!; try done. etrans; [|exact Hp]. cbn. by apply prefix_app_r.
Qed.

Lemma flush_sub_status_spec c :
  keeps c (flush_sub_status_batch answer c) /\ sub_status_pending (flush_sub_status_batch answer c) = [] /\
  telemetry_batch (flush_sub_status_batch answer c) = telemetry_batch c.
Proof.
  unfold flush_sub_status_batch. set (c0 := mkCoordinator _ _ _ _ _ _ _ _ _).
  destruct (write_statuses (sub_status_pending c) c0) as (Hu & Hs & Hp & Hb & Hn & Hr & Hpr & Hse & Hru).
  split; [|split; [by rewrite Hn|by rewrite Hb]]. split; try done.
  - unfold taken_updates. by rewrite Hu, Hb.
  - unfold taken_statuses. rewrite Hs, Hn. cbn. by rewrite app_nil_r.
  - by rewrite Hb.
  - rewrite Hn. cbn. lia.
Qed.

Lemma flush_nonempty_spec c :
  keeps c (flush_nonempty answer c) /\ telemetry_batch (flush_nonempty answer c) = [] /\ sub_status_pending (flush_nonempty answer c) = [].
Proof.
  unfold flush_nonempty. cbn zeta. set (c1 := if bool_decide (telemetry_batch c = []) then c else _).
  assert (keeps c c1 /\ telemetry_batch c1 = []) as [Hk Hb].
  { unfold c1. case_bool_decide; [split; [apply keeps_refl|done]|apply flush_telemetry_spec]. }
  case_bool_decide; [done|]. destruct (flush_sub_status_spec c1) as (Hk' & Hs & Hb'). rewrite Hb', Hb.
  split; [by eapply keeps_trans|done].
Qed.

Lemma keeps_reply r c : keeps c (reply r c).
Proof. by split. Qed.

Lemma keeps_investigate r c : keeps c (investigate accepts r c).
Proof. by split. Qed.

(** What a priority request writes: everything that is pending, then itself. *)
Lemma handle_detection_spec d c :
  let c' := handle_detection cfg answer accepts d c in
  keeps c c' /\ telemetry_batch c' = [] /\ sub_status_pending c' = [] /\
  exists r rest, calls c' = calls (flush_nonempty answer c) ++ (W_Detection d, r) :: rest.
Proof.
  unfold handle_detection. destruct (flush_nonempty_spec c) as (Hk & Hb & Hs). set (c1 := flush_nonempty answer c) in *.
  set (c2 := (write_graph answer (W_Detection d) c1).1). set (res := answer (calls c1) (W_Detection d)).
  change (write_graph answer (W_Detection d) c1) with (c2, res). cbn zeta beta match.
  assert (keeps c1 c2) as H12 by (by apply keeps_write).
  set (cm := if auto_propose cfg then _ else _).
  assert (keeps c2 cm.1 /\ telemetry_batch cm.1 = [] /\ sub_status_pending cm.1 = [] /\ exists rest, calls cm.1 = calls c2 ++ rest)
    as (H23 & Hb3 & Hs3 & rest & Hw3).
  { assert (keeps c2 c2 /\ telemetry_batch c2 = [] /\ sub_status_pending c2 = [] /\ exists rest, calls c2 = calls c2 ++ rest) as Hsame
      by (split_and!; [apply keeps_refl|done|done|exists []; by rewrite app_nil_r]).
    unfold cm. destruct (auto_propose cfg); [|done]. destruct res as [e|det_id]; [done|].
    destruct (playbook_library cfg) as [lib|]; [|done]. destruct (find_playbook _ _ _) as [pb|]; [|done].
    split_and!; [by apply keeps_write|done|done|by eexists]. }
  destruct cm as [c3 matched]. cbn [fst] in *.
  set (c4 := match res with inr _ => _ | inl _ => _ end).
  assert (keeps c3 c4 /\ telemetry_batch c4 = telemetry_batch c3 /\ sub_status_pending c4 = sub_status_pending c3 /\ calls c4 = calls c3)
    as (H34 & Hb4 & Hs4 & Hw4).
  { unfold c4. destruct res; [by split; [apply keeps_refl|]|]. case_if; [by split; [apply keeps_investigate|]|by split; [apply keeps_refl|]]. }
  split_and!; cbn [reply telemetry_batch sub_status_pending calls]; [|congruence..|].
  - eapply keeps_trans, keeps_reply. eapply keeps_trans, H34. eapply keeps_trans, H23. by eapply keeps_trans.
  - exists res, rest. rewrite Hw4, Hw3. unfold c2. cbn. by rewrite <- app_assoc.
Qed.

Lemma handle_remediation_spec r c :
  let c' := handle_remediation answer r c in
  keeps c c' /\ telemetry_batch c' = [] /\ sub_status_pending c' = [] /\
  exists a, calls c' = calls (flush_nonempty answer c) ++ [(W_Remediation r, a)].
Proof.
  unfold handle_remediation. destruct (flush_nonempty_spec c) as (Hk & Hb & Hs). set (c1 := flush_nonempty answer c) in *. cbn.
  split_and!; try done; [|by eexists]. eapply keeps_trans, keeps_reply. eapply keeps_trans; [exact Hk|]. by apply (keeps_write (W_Remediation r) c1).
Qed.

(** A request that is taken. *)
Lemma handle_request_spec eb r c :
  0 < eb -> let c' := handle_request answer eb r c in
  taken_updates c' = taken_updates c ++ telemetry_of [r] /\ taken_statuses c' = taken_statuses c ++ statuses_of [r] /\
  rx c' = rx c /\ priority_rx c' = priority_rx c /\ senders c' = senders c /\ running c' = running c /\
  (blen (telemetry_batch c') < Z.max eb (blen (telemetry_batch c) + 1)) /\
  (blen (telemetry_batch c) < eb -> blen (telemetry_batch c') < eb) /\
  (blen (sub_status_pending c) < 128 -> blen (sub_status_pending c') < 128).
Proof.
  intros Heb. unfold handle_request. destruct r as [u|s]; cbn zeta.
  - set (c1 := mkCoordinator _ _ _ _ _ _ _ _ _).
    assert (taken_updates c1 = taken_updates c ++ [u]) as Hu by (unfold taken_updates; cbn; by rewrite app_assoc).
    change (telemetry_of [R_Telemetry u]) with [u]. change (statuses_of [R_Telemetry u]) with (@nil Status). rewrite app_nil_r.
    assert (blen (telemetry_batch c1) = blen (telemetry_batch c) + 1) as Hl by (cbn; rewrite blen_app; done).
    destruct (Z.leb_spec eb (blen (telemetry_batch c1))) as [Hle|Hlt].
    + destruct (flush_telemetry_spec c1) as [Hk Hb]. set (c2 := flush_telemetry_batch answer c1) in *.
      destruct (flush_sub_status_spec c2) as (Hk2 & Hs2 & Hb2). pose proof (keeps_trans _ _ _ Hk Hk2) as []. rewrite Hb2, Hb, Hs2.
      change (blen (@nil Update)) with 0. change (blen (@nil Status)) with 0. rewrite <- Hu. pose proof (blen_nonneg (telemetry_batch c)).
      split_and!; (done || lia).
    + split_and!; (done || lia).
  - set (c1 := mkCoordinator _ _ _ _ _ _ _ _ _).
    assert (taken_statuses c1 = taken_statuses c ++ [s]) as Hu by (unfold taken_statuses; cbn; by rewrite app_assoc).
    change (statuses_of [R_SubscriptionStatus s]) with [s]. change (telemetry_of [R_SubscriptionStatus s]) with (@nil Update). rewrite app_nil_r.
    assert (blen (sub_status_pending c1) = blen (sub_status_pending c) + 1) as Hl by (cbn; rewrite blen_app; done).
    destruct (Z.leb_spec 128 (blen (sub_status_pending c1))) as [Hle|Hlt].
    + destruct (flush_sub_status_spec c1) as (Hk2 & Hs2 & Hb2). destruct Hk2. rewrite Hb2, Hs2.
      change (blen (@nil Status)) with 0. rewrite <- Hu. split_and!; (done || (cbn [telemetry_batch c1]; lia)).
    + split_and!; (done || (cbn [telemetry_batch c1]; lia)).
Qed.

(** Every update and every status was given to the store, is pending or waits, in the order
    of their submission; the batches are small. *)
Record coordinator_inv (reqs : list (WriteRequest Update Status)) (c : Task) : Prop := mkInv {
  inv_updates : taken_updates c ++ telemetry_of (rx c) = telemetry_of reqs;
  inv_statuses : taken_statuses c ++ statuses_of (rx c) = statuses_of reqs;
  inv_batch : blen (telemetry_batch c) < 2 * batch_size cfg;
  inv_pending : blen (sub_status_pending c) < 128;
}.

Lemma inv_keeps reqs c c' : coordinator_inv reqs c -> keeps c c' -> coordinator_inv reqs c'.
Proof. intros [] []. split; try congruence; unfold blen in *; lia. Qed.

Lemma turn_inv reqs wp td c c' : 0 < batch_size cfg -> coordinator_inv reqs c -> loop_turn wp td c = Some c' -> coordinator_inv reqs c'.
Proof.
  intros Hbs Hi. unfold turn. cbn zeta. destruct (running c); [|done]. cbn [negb]. destruct (priority_rx c) as [|p ps].
  - destruct (senders c); cbn [negb]; [|intros [= <-]; by destruct Hi]. destruct (rx c) as [|r rs] eqn:Hrx.
    + destruct td; [|done]. intros [= <-]. eapply inv_keeps; [done|apply flush_nonempty_spec].
    + intros [= <-]. destruct Hi as [Hu Hs Hb Hp]. rewrite Hrx in Hu, Hs.
      set (eb := if wp then _ else _). set (c0 := mkCoordinator rs _ _ _ _ _ _ _ _).
      assert (0 < eb <= 2 * batch_size cfg) as Heb by (unfold eb; case_if; lia).
      destruct (handle_request_spec eb r c0 (proj1 Heb)) as (Hu' & Hs' & Hrx' & _ & _ & _ & Hb1 & Hb2 & Hp'). split.
      * rewrite Hu', Hrx', <- app_assoc. change (r :: rs) with ([r] ++ rs) in Hu. unfold telemetry_of in *. by rewrite omap_app in Hu.
      * rewrite Hs', Hrx', <- app_assoc. change (r :: rs) with ([r] ++ rs) in Hs. unfold statuses_of in *. by rewrite omap_app in Hs.
      * cbn [telemetry_batch c0] in *. lia.
      * by apply Hp'.
  - intros [= <-]. set (c0 := mkCoordinator _ ps _ _ _ _ _ _ _).
    assert (coordinator_inv reqs c0) as Hi0 by (by destruct Hi).
    destruct p as [d|r]; eapply inv_keeps; [exact Hi0|apply handle_detection_spec|exact Hi0|apply handle_remediation_spec].
Qed.

Lemma reach_inv reqs c : 0 < batch_size cfg -> reach reqs c -> coordinator_inv reqs c.
Proof.
  intros Hbs. induction 1 as [|reqs r c c' _ IH Hs|reqs p c c' _ IH Hs|reqs wp td c c' _ IH Ht|reqs c _ IH].
  - split; cbn; try done; change (blen (@nil Update)) with 0; change (blen (@nil Status)) with 0; lia.
  - unfold submit in Hs. case_if; [|done]. injection Hs as <-. destruct IH as [Hu Hst Hb Hp]. split; try done; cbn [rx].
    + unfold telemetry_of in *. rewrite !omap_app, app_assoc, <- Hu. done.
    + unfold statuses_of in *. rewrite !omap_app, app_assoc, <- Hst. done.
  - unfold submit_priority in Hs. case_if; [|done]. injection Hs as <-. by destruct IH.
  - by eapply turn_inv.
  - by destruct IH.
Qed.

(** What was given to the store is what was written and what was lost. *)
Lemma given_split (ws : Calls) :
  written_updates ws ++ lost_updates ws ≡ₚ given_updates ws /\ written_statuses ws ++ lost_statuses ws ≡ₚ given_statuses ws.
Proof.
  unfold written_updates, lost_updates, written_statuses, lost_statuses, given_updates, given_statuses.
  induction ws as [|w ws [IHu IHs]]; [done|]. rewrite !filter_cons. cbn [mbind list_bind].
  destruct (succeeded w); cbn [decide]; repeat case_decide; try done; cbn [mbind list_bind]; rewrite <- IHu, <- IHs; split; solve_Permutation.
Qed.

Lemma none_lost (ws : Calls) : Forall (fun w => succeeded w = true) ws ->
  written_updates ws = given_updates ws /\ written_statuses ws = given_statuses ws.
Proof.
  intros Hws. unfold written_updates, written_statuses. enough (base.filter (fun w => succeeded w = true) ws = ws) as -> by done.
  induction Hws as [|w ws Hw _ IH]; [done|]. rewrite filter_cons, decide_True by done. by rewrite IH.
Qed.


(** A detection sees the graph as of the telemetry before it.  When
    the coordinator takes a detection, everything that was submitted and no
    longer waits in the channel has been given to the store before it. *)
Theorem detection_sees_telemetry reqs c d ps wp td :
  0 < batch_size cfg -> reach reqs c -> running c = true -> priority_rx c = P_Detection d :: ps ->
  exists c' before_ r rest, loop_turn wp td c = Some c' /\ calls c' = before_ ++ (W_Detection d, r) :: rest /\
    given_updates before_ ++ telemetry_of (rx c) = telemetry_of reqs /\
    given_statuses before_ ++ statuses_of (rx c) = statuses_of reqs.
Proof.
  intros Hbs Hr Hrun Hp. destruct (reach_inv reqs c Hbs Hr) as [Hu Hs _ _]. unfold turn. cbn zeta. rewrite Hrun, Hp. cbn [negb].
  set (c0 := mkCoordinator _ ps _ _ _ _ _ _ _). destruct (handle_detection_spec d c0) as (_ & _ & _ & r & rest & Hw).
  destruct (flush_nonempty_spec c0) as ([Hku Hks _ _ _ _ _ _ _] & Hb & Hn). eexists _, _, r, rest. split; [done|]. split; [exact Hw|].
  unfold taken_updates, taken_statuses in Hku, Hks. rewrite Hb, app_nil_r in Hku. rewrite Hn, app_nil_r in Hks. rewrite Hku, Hks.
  split; [exact Hu|exact Hs].
Qed.

(** What is pending is lost at the end.  When the senders are gone and
    no priority request is left, the next turn ends the task; the updates in
    the batch and those that still wait in the channel, although they were
    accepted, are never written. *)
Theorem pending_lost_at_end reqs c wp td :
  0 < batch_size cfg -> reach reqs c -> running c = true -> priority_rx c = [] ->
  exists c', loop_turn wp td (drop_senders c) = Some c' /\ (forall wp' td', loop_turn wp' td' c' = None) /\
    calls c' = calls c /\
    given_updates (calls c') ++ telemetry_batch c ++ telemetry_of (rx c) = telemetry_of reqs.
Proof.
  intros Hbs Hr Hrun Hp. destruct (reach_inv reqs c Hbs Hr) as [Hu _ _ _]. unfold turn at 1, drop_senders. cbn.
  rewrite Hrun, Hp. cbn. eexists. split; [done|]. split; [done|]. split; [done|]. cbn. by rewrite app_assoc.
Qed.

(** A tick of the timer writes what is pending. *)
Lemma tick_flushes reqs c wp :
  0 < batch_size cfg -> reach reqs c -> running c = true -> senders c = true -> priority_rx c = [] -> rx c = [] ->
  exists c', loop_turn wp true c = Some c' /\ given_updates (calls c') = telemetry_of reqs /\
    given_statuses (calls c') = statuses_of reqs.
Proof.
  intros Hbs Hr Hrun Hsend Hp Hrx. destruct (reach_inv reqs c Hbs Hr) as [Hu Hs _ _]. unfold turn. cbn zeta.
  rewrite Hrun, Hp, Hsend, Hrx. cbn [negb]. destruct (flush_nonempty_spec c) as ([Hku Hks _ _ _ _ _ _ _] & Hb & Hn).
  eexists. split; [done|]. unfold taken_updates, taken_statuses in *. rewrite Hb, app_nil_r in Hku. rewrite Hn, app_nil_r in Hks.
  rewrite Hrx, app_nil_r in Hu, Hs. rewrite Hku, Hks. done.
Qed.

End Conservation.

(** ** Proposals of playbooks *)

(** The node that [write_remediation_proposal] makes of a proposal. *)
Definition proposal_node {Update Status} (id : string) (w : Write Update Status) : option ProposalNode :=
  match w with
  | W_Proposal det_id playbook_id trust_key steps rollback_steps at_ns =>
      Some (mkNode id det_id playbook_id trust_key "pending" "" steps rollback_steps at_ns 0)
  | _ => None
  end.

Section Proposals.
Context `{JsonText, GraphDb, StepsJson, TrustJson, RollbackJson, BuildProfile, HashOrder}.

(** The window that an approval with steps to undo it opens. *)
Lemma approved_window w config note n steps a :
  blank (n_rollback_steps_json n) = false ->
  registry_get (n_id n) (rollback_registry (approved w config note n steps a)) =
    Some (mkRollback (n_id n) (fresh_id w) (now_ns w) (rollback_window_secs config) (n_rollback_steps_json n) false).
Proof.
  intros Hb. unfold approved. cbn [rollback_registry]. rewrite Hb. unfold registry_get, register.
  rewrite registry_persist_states. cbn [rr_states proposal_id]. apply lookup_insert_eq.
Qed.

(** A rollback while the window is open. *)
Lemma rollback_in_window w w' config note note' n steps undo a :
  healthy w -> healthy w' -> findable a -> runnable a n steps -> room 1 a (key_of n) ->
  blank (n_rollback_steps_json n) = false -> steps_of (n_rollback_steps_json n) = inr undo ->
  undo = [] \/ blank (device_of a n) = false ->
  0 <= now_ns w' - now_ns w <= rollback_window_secs config * 1000000000 -> rollback_window_secs config * 1000000000 < 2 ^ 63 ->
  0 <= total_failures (entry (key_of n) (trust_store a)) < 2 ^ 32 - 1 ->
  exists a1 a2, approvals_approve_handler w config (n_id n) note a = Ok (a1, mkResponse true "" (fresh_id w)) /\
    approvals_rollback_handler w' (n_id n) note' a1 = Ok (a2, mkResponse true "" (fresh_id w)) /\
    device_log a2 = device_log a1 ++ commands (device_of a n) undo.
Proof.
  intros Hw Hw' Hf Hr Hroom Hb Hundo Hdev Hnow Hwin Hfail. pose proof (approve_result w config note n steps a Hw Hf Hr Hroom) as Happ.
  set (a1 := approved w config note n steps a) in *. set (n1 := decided "approved" note (now_ns w) n).
  destruct (decided_same "approved" note (now_ns w) n) as (Hid & Hkey & Hdevice).
  assert (n1 ∈ proposals a1) as Hin by (apply list_elem_of_fmap; exists n; split; [done|apply Hr]).
  pose proof (find_proposal_node w' a1 n1 (proj1 Hw') (findable_decide (n_id n) "approved" note (now_ns w) a Hf) Hin) as Hfind.
  fold n1 in Hid, Hkey, Hdevice. rewrite Hid in Hfind.
  set (s := mkRollback (n_id n) (fresh_id w) (now_ns w) (rollback_window_secs config) (n_rollback_steps_json n) false).
  assert (rollback_begin w' (n_id n) a1 = Ok (inr (row_of a1 n1, s))) as Hbegin.
  { unfold rollback_begin. rewrite Hfind. unfold a1. rewrite (approved_window w config note n steps a Hb). fold s.
    rewrite is_expired_iff by (unfold sane; cbn [executed_at_ns window_secs s]; lia). rewrite bind_Ok.
    rewrite bool_decide_true; [done|]. split; [done|]. cbn [executed_at_ns window_secs s]. lia. }
  destruct (rollback_finish_result w' (n_id n) note' (row_of a1 n1) s undo a1 Hw' Hundo) as (a2 & Hfin & Hlog & _).
  - destruct Hdev as [Hdev|Hdev]; [by left|right]. change (row_device_address (row_of a1 n1)) with (device_of a1 n1).
    rewrite Hdevice. exact Hdev.
  - change (trust_key_from_storage (row_trust_key (row_of a1 n1))) with (key_of n1). rewrite Hkey. unfold a1, approved.
    cbn [trust_store]. rewrite entry_update. exact Hfail.
  - exists a1, a2. split_and!; [exact Happ| |].
    + unfold approvals_rollback_handler. rewrite Hbegin, bind_Ok. exact Hfin.
    + rewrite Hlog. change (row_device_address (row_of a1 n1)) with (device_of a1 n1). by rewrite Hdevice.
Qed.

(** A rollback of a playbook's proposal undoes nothing.  The proposals
    the coordinator creates on its own carry an empty list of steps to undo
    them, which is not an empty text: approving one opens a rollback window,
    and a rollback within it is reported as done without any step being sent
    to the device. *)
Theorem auto_proposal_not_undone {Update Status} w w' config note note' det_id d pb id n steps a :
  parse_steps "[]" = inr [] ->
  proposal_node id (auto_proposal (Update := Update) (Status := Status) det_id d pb) = Some n ->
  healthy w -> healthy w' -> findable a -> runnable a n steps -> room 1 a (key_of n) ->
  0 <= now_ns w' - now_ns w <= rollback_window_secs config * 1000000000 -> rollback_window_secs config * 1000000000 < 2 ^ 63 ->
  0 <= total_failures (entry (key_of n) (trust_store a)) < 2 ^ 32 - 1 ->
  exists a1 a2, approvals_approve_handler w config (n_id n) note a = Ok (a1, mkResponse true "" (fresh_id w)) /\
    device_log a1 = device_log a ++ commands (device_of a n) steps /\
    approvals_rollback_handler w' (n_id n) note' a1 = Ok (a2, mkResponse true "" (fresh_id w)) /\
    device_log a2 = device_log a1.
Proof.
  intros Hempty [= <-] Hw Hw' Hf Hr Hroom Hnow Hwin Hfail. set (n := mkNode _ _ _ _ _ _ _ _ _ _) in *.
  destruct (rollback_in_window w w' config note note' n steps [] a) as (a1 & a2 & Happ & Hrb & Hlog);
    [done|done|done|done|done|by vm_compute|exact Hempty|by left|done|done|done|].
  exists a1, a2. split_and!; [done| |done|rewrite Hlog; apply app_nil_r].
  rewrite (approve_result w config note n steps a Hw Hf Hr Hroom) in Happ. by injection Happ as <-.
Qed.

End Proposals.

(** ** Instances *)

Section Demo.

#[local] Instance demo_json : JsonText := {| parse_json _ := None; steps_to_json _ := Some "[down]"%string |}.

(** As in [Remediation], with a reader that knows the empty list. *)
#[local] Instance playbook_steps : StepsJson :=
  fun text => if bool_decide (text = "[down]"%string) then inr [Step_GnmiSet "/interface/admin" "down"]
              else if bool_decide (text = "[]"%string) then inr [] else inl "expected value"%string.
#[local] Existing Instance demo_graph.
#[local] Existing Instance demo_trust_texts.
#[local] Existing Instance demo_rollback_texts.
#[local] Existing Instance demo_build.
#[local] Existing Instance demo_hash.

Definition demo_coordinator_config : WriteCoordinatorConfig := mkCoordinatorConfig 4 16 None false false.

(** The store refuses every second call. *)
Definition demo_answer (ws : list (Write Z Z * (string + string))) (w : Write Z Z) : string + string :=
  if Nat.even (length ws) then inr "id"%string else inl "busy"%string.

Notation demo_reach := (reach demo_coordinator_config demo_answer (fun _ => true)).

Definition flap : DetectionRequest := mkDetectionRequest "10.0.0.1" "flap" "major" "{}" "[]" 0 5 "" [].

(** Two updates and a status are submitted, two requests are taken, then a
    detection arrives. *)
Definition demo_task : Coordinator Z Z :=
  mkCoordinator [R_Telemetry 2] [P_Detection flap] true [1] [7] [] [] [] true.

Definition demo_requests : list (WriteRequest Z Z) := [R_Telemetry 1; R_SubscriptionStatus 7; R_Telemetry 2].

Definition demo_before : Coordinator Z Z := mkCoordinator [R_Telemetry 2] [] true [1] [7] [] [] [] true.

Lemma demo_reached_before : demo_reach demo_requests demo_before.
Proof.
  apply (reach_turn _ _ _ _ false false (mkCoordinator [R_SubscriptionStatus 7; R_Telemetry 2] [] true [1] [] [] [] [] true)); [|reflexivity].
  apply (reach_turn _ _ _ _ false false (mkCoordinator demo_requests [] true [] [] [] [] [] true)); [|reflexivity].
  change demo_requests with ((([] ++ [R_Telemetry 1]) ++ [R_SubscriptionStatus 7]) ++ [@R_Telemetry Z Z 2]).
  apply (reach_submit _ _ _ _ _ (mkCoordinator (take 2 demo_requests) [] true [] [] [] [] [] true)); [|reflexivity].
  apply (reach_submit _ _ _ _ _ (mkCoordinator (take 1 demo_requests) [] true [] [] [] [] [] true)); [|reflexivity].
  apply (reach_submit _ _ _ _ _ coordinator_new); [apply reach_new|reflexivity].
Qed.

Lemma demo_reached : demo_reach demo_requests demo_task.
Proof. apply (reach_priority _ _ _ _ (P_Detection flap) demo_before); [apply demo_reached_before|reflexivity]. Qed.

(** The detection is taken: the batch is written, the status is lost, and the
    detection is on record. *)
Definition demo_after : Coordinator Z Z :=
  mkCoordinator [R_Telemetry 2] [] true [] []
    [(W_Batch [1], inr "id"); (W_Status 7, inl "busy"); (W_Detection flap, inr "id")]%string [] [inr "id"]%string true.

Lemma demo_reached_after : demo_reach demo_requests demo_after.
Proof. by apply (reach_turn _ _ _ _ false false demo_task); [apply demo_reached|]. Qed.


(** A batch whose write fails is lost: once the update was given to the store
    and is not there, it is never given again. *)
Example failed_status_lost : written_statuses (calls demo_after) = [] /\ sub_status_pending demo_after = [].
Proof. done. Qed.

Lemma detection_sees_telemetry_witness :
  exists c' before_ r rest, turn demo_coordinator_config demo_answer (fun _ => true) false false demo_task = Some c' /\
    calls c' = before_ ++ (W_Detection flap, r) :: rest /\
    given_updates before_ ++ telemetry_of (rx demo_task) = telemetry_of demo_requests /\
    given_statuses before_ ++ statuses_of (rx demo_task) = statuses_of demo_requests.
Proof.
  by apply (detection_sees_telemetry demo_coordinator_config demo_answer (fun _ => true) demo_requests demo_task flap []);
    [|apply demo_reached|..].
Defined.

(** The update in the batch and the one that waits are lost. *)
Lemma pending_lost_at_end_witness :
  exists c', turn demo_coordinator_config demo_answer (fun _ => true) false false (drop_senders demo_before) = Some c' /\
    (forall wp td, turn demo_coordinator_config demo_answer (fun _ => true) wp td c' = None) /\ given_updates (calls c') = [] /\
    telemetry_of demo_requests = [1; 2].
Proof.
  destruct (pending_lost_at_end demo_coordinator_config demo_answer (fun _ => true) demo_requests demo_before false false)
    as (c' & Ht & Hend & Hw & _); [done|apply demo_reached_before|done|done|].
  exists c'. split_and!; [exact Ht|exact Hend|by rewrite Hw|done].
Defined.

(** A playbook for the rule, and the node of its proposal. *)
Definition bounce : PlaybookEntry := mkPlaybook "bounce" "" "" "" "" [].
Definition bounce_node : ProposalNode := mkNode "p9" "d1" "bounce" "flap:::bounce" "pending" "" "[down]" "[]" 5 0.
Definition bounce_app : App :=
  mkApp [bounce_node] {["d1" := mkDetection "10.0.0.1" "flap" "major" "{}"]}%string [] (load None demo_trust_config) (mkRegistry ∅ None) [].

(** The interface is set down; the rollback is reported as done and it stays
    down. *)
Lemma auto_proposal_not_undone_witness :
  exists a1 a2, approvals_approve_handler (demo_world Step_Done) demo_trust_config "p9" "ok" bounce_app = Ok (a1, mkResponse true "" "r1") /\
    approvals_rollback_handler (demo_world Step_Done) "p9" "undo" a1 = Ok (a2, mkResponse true "" "r1") /\
    device_log a2 = [("10.0.0.1", Step_GnmiSet "/interface/admin" "down")]%string.
Proof.
  destruct (auto_proposal_not_undone (Update := Z) (Status := Z) (demo_world Step_Done) (demo_world Step_Done) demo_trust_config
              "ok" "undo" "d1" flap bounce "p9" bounce_node [Step_GnmiSet "/interface/admin" "down"] bounce_app)
    as (a1 & a2 & Happ & Hlog & Hrb & Hsame);
    [reflexivity|reflexivity|done|done| | | |by vm_compute|by vm_compute|by vm_compute|].
  - split; [by apply (bool_decide_unpack _); vm_compute|vm_compute; lia].
  - split_and!; [by left|by vm_compute|by right; vm_compute].
  - by vm_compute.
  - exists a1, a2. split_and!; [exact Happ|exact Hrb|]. rewrite Hsame, Hlog. reflexivity.
Defined.

End Demo.
