(* ===== verification/Clock.v ===== *)
(** * Clocks

    The monotonic clock ([Instant]) and the wall clock ([chrono::Utc]).  Times
    of both are nanoseconds; readings are arguments of the operations that make
    them. *)

From Stdlib Require Import ZArith Lia.
From stdpp Require Import base numbers.
From S2P Require Import Prelude.

Local Open Scope Z_scope.

(** [chrono]: the time some hours later, unless it cannot be represented. *)
Class UtcClock := {
  utc_plus_hours : Z -> Z -> option Z;
  utc_plus_hours_spec : forall t h t', utc_plus_hours t h = Some t' -> t' = t + h * 3600 * 10 ^ 9;
}.

(** [DateTime::timestamp] *)
Definition timestamp (t : Z) : Z := t / 10 ^ 9.

(** [Instant + Duration::from_secs]: the seconds of an instant are an [i64]. *)
Definition instant_plus_secs {E} (t secs : Z) : Outcome E Z :=
  let t' := t + secs * 10 ^ 9 in if t' / 10 ^ 9 <? 2 ^ 63 then Ok t' else Panic.

(** [Instant - Instant] saturates at zero. *)
Definition instant_since (now t : Z) : Z := Z.max 0 (now - t).

Lemma instant_plus_secs_inv {E} t secs t' :
  instant_plus_secs (E := E) t secs = Ok t' -> t' = t + secs * 10 ^ 9.
Proof. unfold instant_plus_secs. destruct (_ <? _); [|done]. by intros [= <-]. Qed.

(** A clock without a limit, for running the models. *)
Definition unbounded_utc : UtcClock.
Proof. refine {| utc_plus_hours t h := Some (t + h * 3600 * 10 ^ 9) |}. by intros t h t' [= <-]. Defined.
