(* ===== verification/Session.v ===== *)
(** * Login sessions ([src/security/session.rs])

    A session is a pair of signed tokens: an access token whose identifier
    names an entry of the table of sessions, and a refresh token with which new
    access tokens are made.  The manager keeps the table of sessions, a table
    of revoked identifiers, and an hourly task that clears both.

    The signed tokens are those of the crate [jsonwebtoken], an interface here;
    random identifiers, clock readings and the outcome of the write to the
    audit log are arguments. *)

From Stdlib Require Import ZArith Lia ZifyBool.
From stdpp Require Import base numbers list option strings gmap fin_maps sorting.
From S2P Require Import Prelude RustStd HashMaps Clock.

Local Open Scope Z_scope.

(** ** Data *)

Record SessionConfig := mkSessionConfig {
  sc_enabled : bool;
  jwt_secret : string;
  token_expiry_hours : Z;
  refresh_token_expiry_hours : Z;
  max_sessions_per_user : Z;
  idle_timeout_hours : Z;
  revoked_token_cleanup_hours : Z;
}.

Definition session_config_default : SessionConfig :=
  mkSessionConfig false "default-secret-change-in-production" 24 168 5 8 24.

Record SessionClaims := mkSessionClaims {
  sub : string;
  cl_role : string;
  jti : string;
  iat : Z;
  exp : Z;
  nbf : Z;
  iss : string;
  aud : string;
  ua : option string;
  ip : option string;
  typ : string;
}.

(** Instants are nanoseconds of the monotonic clock. *)
Record SessionInfo := mkSessionInfo {
  session_id : string;
  user_id : string;
  si_role : string;
  created_at : Z;
  expires_at : Z;
  last_activity : Z;
  user_agent : option string;
  client_ip : option string;
  is_active : bool;
}.

Record RevokedToken := mkRevokedToken {
  rt_jti : string;
  rt_user_id : string;
  revoked_at : Z;
  rt_expires_at : Z;
  reason : string;
}.

Record SessionManager := mkSessionManager {
  config : SessionConfig;
  active_sessions : gmap string SessionInfo;
  revoked_tokens : gmap string RevokedToken;
}.

(** The errors that are returned: those of the token crate, of the audit log,
    and the manager's own messages. *)
Inductive SessionError :=
  | EncodeFailed | InvalidToken | NotARefreshToken | RefreshRevoked | TokenRevoked | SessionInactive | AuditFailed.

Notation Res A := (Outcome SessionError A).

(** ** Interfaces *)

(** The part of [jsonwebtoken]'s [Validation] that bears on these tokens: the
    audiences that are accepted, and whether the audience is checked. *)
Record Validation := mkValidation { v_aud : option (list string); validate_aud : bool }.

(** [Validation::new(Algorithm::HS256)]: no audience is named, and [aud] is checked. *)
Definition validation_new : Validation := mkValidation None true.

(** [jsonwebtoken] with HS256: [jwt_decode v token secret now] checks the
    signature and the registered claims at the time [now] (seconds).  A token
    that is accepted holds what was signed; when the audience is checked, a
    token with an audience is accepted only if the validation names it. *)
Class Jwt := {
  jwt_encode : SessionClaims -> string -> option string;
  jwt_decode : Validation -> string -> string -> Z -> option SessionClaims;
  jwt_decode_encode : forall v c c' secret token now,
    jwt_encode c secret = Some token -> jwt_decode v token secret now = Some c' -> c' = c;
  jwt_decode_aud : forall v c secret token now,
    jwt_decode v token secret now = Some c -> validate_aud v = true -> exists l, v_aud v = Some l /\ aud c ∈ l;
}.

(** [Iterator::min_by_key]: the first of the least elements. *)
Fixpoint least_by {A} (f : A -> Z) (best : A) (rest : list A) : A :=
  match rest with
  | [] => best
  | x :: rest => least_by f (if f x <? f best then x else best) rest
  end.

Definition min_by_key_z {A} (f : A -> Z) (xs : list A) : option A :=
  match xs with [] => None | x :: xs => Some (least_by f x xs) end.

(** ** Operations

    Each takes the state and returns it with what the call returns; a state is
    also returned beside an error, since the write to the audit log comes after
    the change. *)

Section Manager.
Context `{Jwt, UtcClock, HashOrder, BuildProfile}.

Definition session_manager_new (config : SessionConfig) : SessionManager := mkSessionManager config ∅ ∅.

Definition set_sessions (f : gmap string SessionInfo -> gmap string SessionInfo) (m : SessionManager) : SessionManager :=
  mkSessionManager (config m) (f (active_sessions m)) (revoked_tokens m).

Definition deactivate (i : SessionInfo) : SessionInfo :=
  mkSessionInfo (session_id i) (user_id i) (si_role i) (created_at i) (expires_at i) (last_activity i)
    (user_agent i) (client_ip i) false.

Definition touch (t : Z) (i : SessionInfo) : SessionInfo :=
  mkSessionInfo (session_id i) (user_id i) (si_role i) (created_at i) (expires_at i) t
    (user_agent i) (client_ip i) (is_active i).

(** [|s| s.user_id == user_id && s.is_active] *)
Definition active_of (user : string) (i : SessionInfo) : bool := bool_decide (user_id i = user) && is_active i.

(** What a call of [create_session] reads from outside: the random identifier,
    the wall clock, the three readings of the monotonic clock, and whether the
    audit record was written. *)
Record CreateInput := mkCreateInput {
  ci_uuid : string;
  ci_utc : Z;
  ci_created : Z;
  ci_expiry : Z;
  ci_activity : Z;
  ci_audit : bool;
}.

(** The claims of the tokens: the same but for the identifier, the expiry and
    the type. *)
Definition claims_at (user role : string) (ua ip : option string) (now : Z) (id : string) (expires : Z) (typ : string) :
  SessionClaims :=
  mkSessionClaims user role id (timestamp now) (timestamp expires) (timestamp now) "bonsai" "bonsai-users" ua ip typ.

(** The pair of tokens, made before the table is locked. *)
Definition make_tokens (c : SessionConfig) (i : CreateInput) (user role : string) (ua ip : option string) :
  Res (string * string) :=
  expires ← or_panic (utc_plus_hours (ci_utc i) (as_i64 (token_expiry_hours c)));
  access ← or_err (jwt_encode (claims_at user role ua ip (ci_utc i) (ci_uuid i) expires "access") (jwt_secret c)) EncodeFailed;
  refresh_expires ← or_panic (utc_plus_hours (ci_utc i) (as_i64 (refresh_token_expiry_hours c)));
  refresh ← or_err (jwt_encode (claims_at user role ua ip (ci_utc i) ("refresh-" ++ ci_uuid i)%string refresh_expires "refresh")
                     (jwt_secret c)) EncodeFailed;
  Ok (access, refresh).

Definition make_info (c : SessionConfig) (i : CreateInput) (user role : string) (ua ip : option string) : Res SessionInfo :=
  secs ← checked_width 64 (token_expiry_hours c * 3600);
  expires ← instant_plus_secs (ci_expiry i) secs;
  Ok (mkSessionInfo (ci_uuid i) user role (ci_created i) expires (ci_activity i) ua ip true).

(** [sessions.values().filter(..).collect()] *)
Definition user_sessions (user : string) (ss : gmap string SessionInfo) : list SessionInfo :=
  base.filter (fun i => active_of user i = true) (hash_vals ss).

(** The session a full quota costs: the oldest active one of the user. *)
Definition evict_oldest (c : SessionConfig) (user : string) (ss : gmap string SessionInfo) : gmap string SessionInfo :=
  let us := user_sessions user ss in
  if max_sessions_per_user c <=? Z.of_nat (length us) then
    match min_by_key_z created_at us with
    | Some oldest => delete (session_id oldest) ss
    | None => ss
    end
  else ss.

Definition create_session (i : CreateInput) (user role : string) (ua ip : option string) (m : SessionManager) :
  SessionManager * Res (string * string) :=
  let c := config m in
  match (tokens ← make_tokens c i user role ua ip; info ← make_info c i user role ua ip; Ok (tokens, info)) with
  | Ok (tokens, info) =>
      (set_sessions (fun ss => <[ci_uuid i := info]> (evict_oldest c user ss)) m,
       if ci_audit i then Ok tokens else Err AuditFailed)
  | Err e => (m, Err e)
  | Panic => (m, Panic)
  | Diverge => (m, Diverge)
  end.

Definition is_token_revoked (id : string) (m : SessionManager) : bool := bool_decide (is_Some (revoked_tokens m !! id)).

Definition get_session_info (id : string) (m : SessionManager) : option SessionInfo := active_sessions m !! id.

(** The clock is read once per session. *)
Definition update_session_activity (at_ : string -> Z) (user : string) (m : SessionManager) : SessionManager :=
  set_sessions (map_imap (fun k i => Some (if active_of user i then touch (at_ k) i else i))) m.

(** [now] is the reading of the token crate, [utc] the manager's own. *)
Definition refresh_session (now utc : Z) (uuid : string) (at_ : string -> Z) (token : string) (m : SessionManager) :
  SessionManager * Res string :=
  let c := config m in
  match jwt_decode validation_new token (jwt_secret c) now with
  | None => (m, Err InvalidToken)
  | Some cl =>
      if negb (bool_decide (typ cl = "refresh"%string)) then (m, Err NotARefreshToken)
      else if is_token_revoked (jti cl) m then (m, Err RefreshRevoked)
      else match utc_plus_hours utc (as_i64 (token_expiry_hours c)) with
           | None => (m, Panic)
           | Some expires =>
               match jwt_encode (claims_at (sub cl) (cl_role cl) (ua cl) (ip cl) utc uuid expires "access") (jwt_secret c) with
               | None => (m, Err EncodeFailed)
               | Some access => (update_session_activity at_ (sub cl) m, Ok access)
               end
           end
  end.

Definition validate_session (now : Z) (at_ : string -> Z) (token : string) (m : SessionManager) :
  SessionManager * Res SessionClaims :=
  match jwt_decode validation_new token (jwt_secret (config m)) now with
  | None => (m, Err InvalidToken)
  | Some cl =>
      if is_token_revoked (jti cl) m then (m, Err TokenRevoked)
      else match get_session_info (jti cl) m with
           | Some info => if negb (is_active info) then (m, Err SessionInactive)
                          else (update_session_activity at_ (sub cl) m, Ok cl)
           | None => (m, Ok cl)
           end
  end.

(** Deactivating an entry and recording its identifier, as the three ways to
    revoke do. *)
Definition revoke_entry (id user why : string) (t : Z) (m : SessionManager) : SessionManager :=
  match active_sessions m !! id with
  | Some i => mkSessionManager (config m) (<[id := deactivate i]> (active_sessions m))
                (<[id := mkRevokedToken id user t (expires_at i) why]> (revoked_tokens m))
  | None => m
  end.

Definition revoke_session (t : Z) (audit : bool) (id user why : string) (m : SessionManager) : SessionManager * Res unit :=
  match active_sessions m !! id with
  | Some _ => (revoke_entry id user why t m, if audit then Ok tt else Err AuditFailed)
  | None => (m, Ok tt)
  end.

Definition revoke_all_step (at_ : string -> Z) (user why : string) (acc : SessionManager * Z) (id : string) :
  SessionManager * Z :=
  match active_sessions acc.1 !! id with
  | Some _ => (revoke_entry id user why (at_ id) acc.1, acc.2 + 1)
  | None => acc
  end.

Definition revoke_all_user_sessions (at_ : string -> Z) (audit : bool) (user why : string) (m : SessionManager) :
  SessionManager * Res Z :=
  let ids := session_id <$> user_sessions user (active_sessions m) in
  let r := foldl (revoke_all_step at_ user why) (m, 0) ids in
  (r.1, if audit then Ok r.2 else Err AuditFailed).

Definition get_user_sessions (user : string) (m : SessionManager) : list SessionInfo :=
  user_sessions user (active_sessions m).

Definition get_all_active_sessions (m : SessionManager) : list SessionInfo :=
  base.filter (fun i => is_active i = true) (hash_vals (active_sessions m)).

Definition get_active_session_count (m : SessionManager) : Z := Z.of_nat (length (get_all_active_sessions m)).

(** [now - session.last_activity > idle_timeout]: the difference of two instants
    saturates at zero. *)
Definition idle_longer (now secs : Z) (i : SessionInfo) : bool := secs * 10 ^ 9 <? instant_since now (last_activity i).

Definition idle_step (now secs : Z) (m : SessionManager) (k : string) : SessionManager :=
  match active_sessions m !! k with
  | Some i =>
      if is_active i && idle_longer now secs i then
        mkSessionManager (config m) (<[k := deactivate i]> (active_sessions m))
          (<[session_id i := mkRevokedToken (session_id i) (user_id i) now (expires_at i) "idle_timeout"]> (revoked_tokens m))
      else m
  | None => m
  end.

Definition drop_expired (now : Z) (m : SessionManager) : SessionManager :=
  mkSessionManager (config m)
    (base.filter (fun kv => now < expires_at kv.2) (active_sessions m))
    (base.filter (fun kv => now < rt_expires_at kv.2) (revoked_tokens m)).

Definition cleanup_expired (now : Z) (m : SessionManager) : SessionManager * Res unit :=
  let m1 := drop_expired now m in
  match checked_width (E := SessionError) 64 (idle_timeout_hours (config m) * 3600) with
  | Ok secs => (foldl (idle_step now secs) m1 (hash_keys (active_sessions m1)), Ok tt)
  | _ => (m1, Panic)
  end.

(** The numbers of [get_session_stats], in the order of the object; the product
    is computed once per active session. *)
Record SessionStats := mkSessionStats {
  st_active_sessions : Z;
  st_idle_sessions : Z;
  st_revoked_tokens : Z;
  st_max_sessions_per_user : Z;
  st_token_expiry_hours : Z;
  st_idle_timeout_hours : Z;
}.

Definition stats_idle (now : string -> Z) (hours : Z) (i : SessionInfo) : Res bool :=
  if is_active i then secs ← checked_width 64 (hours * 3600); Ok (idle_longer (now (session_id i)) secs i) else Ok false.

Definition get_session_stats (now : string -> Z) (m : SessionManager) : Res SessionStats :=
  idle ← mapM (stats_idle now (idle_timeout_hours (config m))) (hash_vals (active_sessions m));
  Ok (mkSessionStats (get_active_session_count m) (Z.of_nat (length (base.filter (fun b : bool => b = true) idle)))
       (Z.of_nat (size (revoked_tokens m))) (max_sessions_per_user (config m)) (token_expiry_hours (config m))
       (idle_timeout_hours (config m))).

(** ** Histories: the calls that were made of a manager, one after the other *)

Inductive Op :=
  | OpCreate (i : CreateInput) (user role : string) (ua ip : option string)
  | OpRefresh (now utc : Z) (uuid : string) (at_ : string -> Z) (token : string)
  | OpValidate (now : Z) (at_ : string -> Z) (token : string)
  | OpRevoke (t : Z) (audit : bool) (id user why : string)
  | OpRevokeAll (at_ : string -> Z) (audit : bool) (user why : string)
  | OpCleanup (now : Z).

Definition apply_op (m : SessionManager) (op : Op) : SessionManager :=
  match op with
  | OpCreate i user role ua ip => (create_session i user role ua ip m).1
  | OpRefresh now utc uuid at_ token => (refresh_session now utc uuid at_ token m).1
  | OpValidate now at_ token => (validate_session now at_ token m).1
  | OpRevoke t audit id user why => (revoke_session t audit id user why m).1
  | OpRevokeAll at_ audit user why => (revoke_all_user_sessions at_ audit user why m).1
  | OpCleanup now => (cleanup_expired now m).1
  end.

Definition run (ops : list Op) (m : SessionManager) : SessionManager := foldl apply_op m ops.

(** ** What no call but [create_session] undoes

    An entry keeps its identity, its owner and its expiry, and is never
    activated again. *)

Definition later_entry (i i' : SessionInfo) : Prop :=
  session_id i' = session_id i /\ user_id i' = user_id i /\ expires_at i' = expires_at i /\
  (is_active i' = true -> is_active i = true).

Definition shrinks (m m' : SessionManager) : Prop :=
  config m' = config m /\
  forall k i', active_sessions m' !! k = Some i' -> exists i, active_sessions m !! k = Some i /\ later_entry i i'.

#[global] Instance later_entry_preorder : PreOrder later_entry.
Proof. unfold later_entry. split; [done|]. intros a b c (? & ? & ? & ?) (? & ? & ? & ?). split_and!; try congruence. auto. Qed.

#[global] Instance shrinks_preorder : PreOrder shrinks.
Proof.
  split.
  - intros m. split; [done|]. intros k i Hi. by exists i.
  - intros a b c [Hc1 H1'] [Hc2 H2']. split; [congruence|]. intros k i Hi.
    destruct (H2' k i Hi) as (i2 & Hi2 & Hl2), (H1' k i2 Hi2) as (i1 & Hi1 & Hl1).
    exists i1. split; [done|]. by trans i2.
Qed.

Lemma later_touch t i : later_entry i (touch t i).
Proof. done. Qed.

Lemma later_deactivate i : later_entry i (deactivate i).
Proof. done. Qed.

Lemma shrinks_insert m k i i' rv :
  active_sessions m !! k = Some i -> later_entry i i' ->
  shrinks m (mkSessionManager (config m) (<[k := i']> (active_sessions m)) rv).
Proof.
  intros Hi Hl. split; [done|]. intros k' j. cbn. destruct (decide (k = k')) as [<-|Hne].
  - rewrite lookup_insert_eq. intros [= <-]. eauto.
  - rewrite lookup_insert_ne by done. intros Hj. by exists j.
Qed.

Lemma shrinks_update_activity at_ user m : shrinks m (update_session_activity at_ user m).
Proof.
  split; [done|]. intros k i'. cbn. rewrite map_lookup_imap.
  destruct (active_sessions m !! k) as [i|] eqn:Hi; cbn; [|done]. intros [= <-].
  exists i. split; [done|]. case_if; done.
Qed.

Lemma shrinks_revoke_entry id user why t m : shrinks m (revoke_entry id user why t m).
Proof. unfold revoke_entry. case_match; [|done]. eapply shrinks_insert; [done|apply later_deactivate]. Qed.

Lemma shrinks_idle_step now secs m k : shrinks m (idle_step now secs m k).
Proof.
  unfold idle_step. case_match; [|done]. case_if; [|done]. eapply shrinks_insert; [done|apply later_deactivate].
Qed.

Lemma shrinks_drop_expired now m : shrinks m (drop_expired now m).
Proof.
  split; [done|]. intros k i'. cbn. rewrite map_lookup_filter_Some. intros [Hi _]. by exists i'.
Qed.

Lemma revoke_all_fst at_ user why ids m n :
  (foldl (revoke_all_step at_ user why) (m, n) ids).1 = foldl (fun m id => revoke_entry id user why (at_ id) m) m ids.
Proof.
  revert m n. induction ids as [|id ids IH]; intros m n; cbn [foldl]; [done|].
  unfold revoke_all_step at 2. cbn [fst snd]. destruct (active_sessions m !! id) eqn:Hid; rewrite IH; [done|].
  f_equal. unfold revoke_entry. by rewrite Hid.
Qed.

Lemma shrinks_revoke_entries at_ user why ids m :
  shrinks m (foldl (fun m id => revoke_entry id user why (at_ id) m) m ids).
Proof. apply (foldl_preorder shrinks). intros. apply shrinks_revoke_entry. Qed.

Lemma shrinks_revoke_all at_ user why ids m n : shrinks m (foldl (revoke_all_step at_ user why) (m, n) ids).1.
Proof. rewrite revoke_all_fst. apply shrinks_revoke_entries. Qed.

Lemma shrinks_op m op : (forall i user role ua ip, op <> OpCreate i user role ua ip) -> shrinks m (apply_op m op).
Proof.
  destruct op as [i user role ua ip|now utc uuid at_ token|now at_ token|t audit id user why|at_ audit user why|now];
    cbn [apply_op]; intros Hop.
  - by destruct (Hop i user role ua ip).
  - unfold refresh_session. repeat (case_match || case_if); cbn; try done. apply shrinks_update_activity.
  - unfold validate_session. repeat (case_match || case_if); cbn; try done. apply shrinks_update_activity.
  - unfold revoke_session. case_match; cbn; [apply shrinks_revoke_entry|done].
  - apply shrinks_revoke_all.
  - unfold cleanup_expired. case_match; cbn; try apply shrinks_drop_expired.
    etrans; [apply (shrinks_drop_expired now)|]. apply foldl_preorder; [apply _|]. intros. apply shrinks_idle_step.
Qed.

(** What [create_session] leaves: nothing changed, or the new entry beside
    those that were kept. *)
Lemma create_session_cases i user role ua ip m :
  (create_session i user role ua ip m).1 = m \/
  exists info, make_info (config m) i user role ua ip = Ok info /\
    (create_session i user role ua ip m).1 =
      set_sessions (fun ss => <[ci_uuid i := info]> (evict_oldest (config m) user ss)) m.
Proof.
  unfold create_session.
  destruct (make_tokens (config m) i user role ua ip) as [tokens| | |]; cbn; try by left.
  destruct (make_info (config m) i user role ua ip) as [info| | |]; cbn; try by left.
  right. by exists info.
Qed.

Lemma make_info_inv c i user role ua ip info :
  make_info c i user role ua ip = Ok info ->
  session_id info = ci_uuid i /\ user_id info = user /\ is_active info = true /\ created_at info = ci_created i.
Proof.
  unfold make_info. intros Hi. apply bind_Ok_inv in Hi as (secs & _ & Hi).
  apply bind_Ok_inv in Hi as (e & _ & Hi). by injection Hi as <-.
Qed.

Lemma evict_oldest_cases c user ss :
  evict_oldest c user ss = ss \/ exists k, evict_oldest c user ss = delete k ss.
Proof. unfold evict_oldest. case_if; [|by left]. case_match; [right; eauto|by left]. Qed.

Lemma evict_oldest_lookup c user ss k i : evict_oldest c user ss !! k = Some i -> ss !! k = Some i.
Proof. destruct (evict_oldest_cases c user ss) as [->|[k' ->]]; [done|]. rewrite lookup_delete_Some. tauto. Qed.

(** *** Entries are kept under their own identifier *)

Definition keyed (ss : gmap string SessionInfo) : Prop := forall k i, ss !! k = Some i -> session_id i = k.

Lemma keyed_shrinks m m' : shrinks m m' -> keyed (active_sessions m) -> keyed (active_sessions m').
Proof. intros [_ Hs] Hk k j Hj. destruct (Hs k j Hj) as (j0 & Hj0 & Hid & _). rewrite Hid. by apply Hk. Qed.

Lemma keyed_op m op : keyed (active_sessions m) -> keyed (active_sessions (apply_op m op)).
Proof.
  intros Hk. destruct op as [i user role ua ip| | | | |].
  2-6: eapply keyed_shrinks; [apply shrinks_op; done|done].
  cbn [apply_op]. destruct (create_session_cases i user role ua ip m) as [->|(info & Hi & ->)]; [done|].
  destruct (make_info_inv _ _ _ _ _ _ _ Hi) as (Hid & _). intros k j. cbn.
  rewrite lookup_insert_Some. intros [[<- <-]|[_ Hj]]; [done|]. apply Hk. by eapply evict_oldest_lookup.
Qed.

Lemma keyed_run ops m : keyed (active_sessions m) -> keyed (active_sessions (run ops m)).
Proof. intros Hk. apply (foldl_keeps (fun m => keyed (active_sessions m))); [intros; by apply keyed_op|done]. Qed.

Lemma keyed_new c : keyed (active_sessions (session_manager_new c)).
Proof. intros k i. cbn. by rewrite lookup_empty. Qed.

Lemma config_op m op : config (apply_op m op) = config m.
Proof.
  destruct op as [i user role ua ip| | | | |]; try (apply shrinks_op; done).
  cbn. by destruct (create_session_cases i user role ua ip m) as [->|(info & _ & ->)].
Qed.

Lemma config_run ops m : config (run ops m) = config m.
Proof. apply (foldl_keeps (fun m' => config m' = config m)); [intros s x _ <-; apply config_op|done]. Qed.

(** *** Counting the active sessions of a user *)

Definition active_map (user : string) (ss : gmap string SessionInfo) : gmap string SessionInfo :=
  base.filter (fun kv => active_of user kv.2 = true) ss.

Lemma length_user_sessions user ss : length (user_sessions user ss) = size (active_map user ss).
Proof. apply (length_filter_hash_vals (active_of user)). Qed.

Lemma elem_of_user_sessions user ss i :
  i ∈ user_sessions user ss <-> active_of user i = true /\ exists k, ss !! k = Some i.
Proof. unfold user_sessions. by rewrite list_elem_of_filter, elem_of_hash_vals. Qed.

Lemma count_shrinks user m m' :
  shrinks m m' -> (size (active_map user (active_sessions m')) <= size (active_map user (active_sessions m)))%nat.
Proof.
  intros [_ Hs]. rewrite <- !size_dom. apply subseteq_size. intros k.
  rewrite !elem_of_dom. unfold active_map. intros [i' [Hi' Ha]%map_lookup_filter_Some].
  destruct (Hs k i' Hi') as (i & Hi & _ & Hu & _ & Hact). exists i. apply map_lookup_filter_Some. split; [done|].
  cbn in *. unfold active_of in *. rewrite Hu in Ha. apply andb_prop in Ha as [? ?]. apply andb_true_intro. auto.
Qed.

Lemma least_by_elem {A} (f : A -> Z) b xs : least_by f b xs ∈ b :: xs.
Proof.
  revert b. induction xs as [|x xs IH]; intros b; cbn; [left|].
  specialize (IH (if f x <? f b then x else b)). destruct (f x <? f b); apply elem_of_cons in IH as [IH|IH]; rewrite ?IH; set_solver.
Qed.

Lemma min_by_key_z_elem {A} (f : A -> Z) xs x : min_by_key_z f xs = Some x -> x ∈ xs.
Proof. destruct xs as [|y ys]; cbn; [done|]. intros [= <-]. apply least_by_elem. Qed.

Lemma least_by_least {A} (f : A -> Z) b xs x : x ∈ b :: xs -> f (least_by f b xs) <= f x.
Proof.
  revert b x. induction xs as [|y ys IH]; intros b x Hx; cbn.
  - apply list_elem_of_singleton in Hx. by subst.
  - assert (f (if f y <? f b then y else b) <= f y /\ f (if f y <? f b then y else b) <= f b) as [Hy Hb] by (destruct (f y <? f b) eqn:?; lia).
    pose proof (IH (if f y <? f b then y else b) _ ltac:(left)).
    apply elem_of_cons in Hx as [->|[->|Hx]%elem_of_cons]; [lia..|]. apply IH. by right.
Qed.

(** The quota, and the room [evict_oldest] makes. *)
Definition quota (c : SessionConfig) : Z := Z.max 1 (max_sessions_per_user c).

Lemma active_map_insert_le user ss k i :
  (size (active_map user (<[k := i]> ss)) <= size (active_map user ss) + (if active_of user i then 1 else 0))%nat.
Proof.
  unfold active_map. rewrite map_filter_insert. cbn. destruct (active_of user i) eqn:Ha; cbn.
  - rewrite decide_True by done. rewrite map_size_insert. case_match; unfold id; lia.
  - rewrite decide_False by done. rewrite map_filter_delete, map_size_delete. case_match; unfold id; lia.
Qed.

Lemma evict_oldest_room c user ss :
  keyed ss -> Z.of_nat (size (active_map user ss)) <= quota c ->
  Z.of_nat (size (active_map user (evict_oldest c user ss))) < quota c.
Proof.
  intros Hk Hle. unfold evict_oldest, quota in *. rewrite length_user_sessions. case_if; [|lia].
  destruct (min_by_key_z created_at (user_sessions user ss)) as [o|] eqn:Hmin.
  - apply min_by_key_z_elem, elem_of_user_sessions in Hmin as (Ha & k & Hko).
    rewrite (Hk k o Hko). unfold active_map. rewrite map_filter_delete, map_size_delete.
    assert (active_map user ss !! k = Some o) as Hin by (by apply map_lookup_filter_Some).
    unfold active_map in *. rewrite Hin.
    assert (size (base.filter (fun kv => active_of user kv.2 = true) ss) <> 0%nat).
    { intros H0'. apply map_size_empty_inv in H0'. rewrite H0', lookup_empty in Hin. done. }
    lia.
  - assert (length (user_sessions user ss) = 0%nat) as Hz by (destruct (user_sessions user ss); done).
    rewrite length_user_sessions in Hz. lia.
Qed.

Lemma evict_oldest_count user c user' ss :
  (size (active_map user (evict_oldest c user' ss)) <= size (active_map user ss))%nat.
Proof.
  destruct (evict_oldest_cases c user' ss) as [->|[k ->]]; [done|].
  unfold active_map. rewrite map_filter_delete, map_size_delete. case_match; unfold id; lia.
Qed.

Definition within_quota (m : SessionManager) : Prop :=
  keyed (active_sessions m) /\ forall user, Z.of_nat (size (active_map user (active_sessions m))) <= quota (config m).

Lemma within_quota_op m op : within_quota m -> within_quota (apply_op m op).
Proof.
  intros [Hk Hq]. split; [by apply keyed_op|]. intros user. rewrite config_op.
  destruct op as [i user' role ua ip| | | | |].
  2-6: etrans; [apply inj_le, count_shrinks, shrinks_op; done|apply Hq].
  cbn [apply_op]. destruct (create_session_cases i user' role ua ip m) as [->|(info & Hi & ->)]; [done|].
  destruct (make_info_inv _ _ _ _ _ _ _ Hi) as (_ & Hu & _). cbn.
  pose proof (active_map_insert_le user (evict_oldest (config m) user' (active_sessions m)) (ci_uuid i) info) as Hins.
  destruct (decide (user = user')) as [->|Hne].
  - pose proof (evict_oldest_room (config m) user' _ Hk (Hq user')). case_if; lia.
  - pose proof (evict_oldest_count user (config m) user' (active_sessions m)). specialize (Hq user).
    replace (active_of user info) with false in Hins by (unfold active_of; rewrite bool_decide_false; [done|congruence]). lia.
Qed.

(** Claim C33: a user never has more active sessions than the configured number
    (one, when that is zero), whatever calls were made and in whatever order
    the hash map lists its entries. *)
Theorem sessions_within_quota (c : SessionConfig) (ops : list Op) (user : string) :
  Z.of_nat (length (get_user_sessions user (run ops (session_manager_new c)))) <= quota c.
Proof.
  unfold get_user_sessions. rewrite length_user_sessions.
  assert (within_quota (run ops (session_manager_new c))) as [_ Hq].
  { apply (foldl_keeps within_quota); [intros; by apply within_quota_op|]. split; [apply keyed_new|].
    intros u. cbn. unfold active_map. rewrite map_filter_empty, map_size_empty. unfold quota. lia. }
  etrans; [apply Hq|]. by rewrite config_run.
Qed.

(** *** A revoked identifier stays revoked until it expires *)

(** The identifier is revoked until the instant [e] at least, also if its entry
    is revoked again. *)
Definition barred (id : string) (e : Z) (m : SessionManager) : Prop :=
  (exists r, revoked_tokens m !! id = Some r /\ e <= rt_expires_at r) /\
  (forall i, active_sessions m !! id = Some i -> e <= expires_at i) /\
  keyed (active_sessions m).

(** Calls that leave it so: identifiers are not drawn twice, and the clock of a
    clean-up has not reached the expiry. *)
Definition before_expiry (id : string) (e : Z) (op : Op) : Prop :=
  match op with
  | OpCreate i _ _ _ _ => ci_uuid i <> id
  | OpCleanup now => now < e
  | _ => True
  end.

Lemma barred_shrinks id e m m' :
  barred id e m -> shrinks m m' ->
  (forall r, revoked_tokens m !! id = Some r -> e <= rt_expires_at r ->
    exists r', revoked_tokens m' !! id = Some r' /\ e <= rt_expires_at r') ->
  barred id e m'.
Proof.
  intros ((r & Hr & He) & Hi & Hk) Hs Hrev. split_and!; [by eapply Hrev| |by eapply keyed_shrinks].
  destruct Hs as [_ Hs]. intros i' Hi'. destruct (Hs _ _ Hi') as (i & Hi0 & _ & _ & -> & _). by apply Hi.
Qed.

Lemma barred_revoke_entry id e id' user why t m : barred id e m -> barred id e (revoke_entry id' user why t m).
Proof.
  intros Hb. eapply barred_shrinks; [exact Hb|apply shrinks_revoke_entry|]. intros r Hr He.
  unfold revoke_entry. case_match eqn:Hid; [|by exists r]. cbn. destruct (decide (id' = id)) as [->|Hne].
  - rewrite lookup_insert_eq. eexists. split; [done|]. cbn. destruct Hb as (_ & Hi & _). by apply Hi.
  - rewrite lookup_insert_ne by done. by exists r.
Qed.

Lemma barred_idle_step id e now secs k m : barred id e m -> barred id e (idle_step now secs m k).
Proof.
  intros Hb. eapply barred_shrinks; [exact Hb|apply shrinks_idle_step|]. intros r Hr He.
  unfold idle_step. case_match eqn:Hk; [|by exists r]. case_if; [|by exists r]. cbn.
  destruct Hb as (_ & Hi & Hkey). rewrite (Hkey _ _ Hk). destruct (decide (k = id)) as [->|Hne].
  - rewrite lookup_insert_eq. eexists. split; [done|]. cbn. by apply Hi.
  - rewrite lookup_insert_ne by done. by exists r.
Qed.

Lemma barred_drop_expired id e now m : now < e -> barred id e m -> barred id e (drop_expired now m).
Proof.
  intros Hlt Hb. eapply barred_shrinks; [exact Hb|apply shrinks_drop_expired|]. intros r Hr He.
  exists r. split; [|done]. cbn. apply map_lookup_filter_Some. split; [done|]. cbn. lia.
Qed.

Lemma barred_create id e i user role ua ip m :
  ci_uuid i <> id -> barred id e m -> barred id e (create_session i user role ua ip m).1.
Proof.
  intros Hne Hb. pose proof (keyed_op m (OpCreate i user role ua ip)) as Hk. cbn in Hk.
  destruct Hb as (Hr & Hi & Hkey). specialize (Hk Hkey). revert Hk.
  destruct (create_session_cases i user role ua ip m) as [->|(info & _ & ->)]; [done|]. intros Hk. split_and!; [done| |done].
  cbn. intros j. rewrite lookup_insert_ne by done. intros Hj%evict_oldest_lookup. by apply Hi.
Qed.

Lemma barred_op id e m op : before_expiry id e op -> barred id e m -> barred id e (apply_op m op).
Proof.
  destruct op as [i user role ua ip|now utc uuid at_ token|now at_ token|t audit id' user why|at_ audit user why|now];
    cbn [apply_op before_expiry]; intros Hop Hb.
  - by apply barred_create.
  - unfold refresh_session. repeat (case_match || case_if); cbn; try done.
    eapply barred_shrinks; [exact Hb|apply shrinks_update_activity|]. intros r Hr He. by exists r.
  - unfold validate_session. repeat (case_match || case_if); cbn; try done.
    eapply barred_shrinks; [exact Hb|apply shrinks_update_activity|]. intros r Hr He. by exists r.
  - unfold revoke_session. case_match; cbn; [by apply barred_revoke_entry|done].
  - unfold revoke_all_user_sessions. cbn [fst]. rewrite revoke_all_fst.
    apply (foldl_keeps (barred id e)); [|done]. intros. by apply barred_revoke_entry.
  - unfold cleanup_expired. case_match; cbn; try (by apply barred_drop_expired).
    apply (foldl_keeps (barred id e)); [intros; by apply barred_idle_step|by apply barred_drop_expired].
Qed.

Lemma barred_run id e m ops : Forall (before_expiry id e) ops -> barred id e m -> barred id e (run ops m).
Proof.
  rewrite Forall_forall. intros Hops Hb. apply (foldl_keeps (barred id e)); [|done].
  intros m' op Hin. apply barred_op. by apply Hops.
Qed.

(** Revoking an entry bars it. *)
Lemma revoke_entry_bars id user why t m i :
  keyed (active_sessions m) -> active_sessions m !! id = Some i -> barred id (expires_at i) (revoke_entry id user why t m).
Proof.
  intros Hk Hi. pose proof (keyed_shrinks _ _ (shrinks_revoke_entry id user why t m) Hk) as Hk'.
  revert Hk'. unfold revoke_entry. rewrite Hi. intros Hk'. split_and!; [|intros i'|done]; cbn; rewrite lookup_insert_eq.
  - by eexists.
  - intros [= <-]. done.
Qed.

Lemma revoke_all_bars at_ user why ids m id i :
  keyed (active_sessions m) -> id ∈ ids -> active_sessions m !! id = Some i ->
  barred id (expires_at i) (foldl (fun m id => revoke_entry id user why (at_ id) m) m ids).
Proof.
  intros Hk Hin Hi. apply list_elem_of_split in Hin as (l1 & l2 & ->). rewrite foldl_app. cbn.
  apply (foldl_keeps (barred id (expires_at i))); [intros; by apply barred_revoke_entry|].
  set (m1 := foldl _ m l1).
  assert (shrinks m m1 /\ exists i1, active_sessions m1 !! id = Some i1 /\ expires_at i1 = expires_at i)
    as (Hs & i1 & Hi1 & <-).
  { apply (foldl_keeps (fun m1 => shrinks m m1 /\ exists i1, active_sessions m1 !! id = Some i1 /\ expires_at i1 = expires_at i)).
    - intros m2 x _ (Hs & i2 & Hi2 & He). split; [etrans; [done|apply shrinks_revoke_entry]|].
      unfold revoke_entry. case_match eqn:Hx; [|by exists i2]. cbn. destruct (decide (x = id)) as [->|Hne].
      + rewrite lookup_insert_eq. eexists. split; [done|]. cbn. congruence.
      + rewrite lookup_insert_ne by done. by exists i2.
    - split; [done|]. by exists i. }
  apply revoke_entry_bars; [|done]. by eapply keyed_shrinks.
Qed.

Lemma revoke_all_deactivates at_ user why ids m id i :
  id ∈ ids -> active_sessions (foldl (fun m id => revoke_entry id user why (at_ id) m) m ids) !! id = Some i ->
  is_active i = false.
Proof.
  intros Hin Hi. apply list_elem_of_split in Hin as (l1 & l2 & ->). rewrite foldl_app in Hi. cbn in Hi.
  set (m1 := foldl _ m l1) in Hi.
  destruct (shrinks_revoke_entries at_ user why l2 (revoke_entry id user why (at_ id) m1)) as [_ Hs].
  destruct (Hs _ _ Hi) as (i1 & Hi1 & _ & _ & _ & Hact). unfold revoke_entry in Hi1. case_match eqn:H1'.
  - cbn in Hi1. rewrite lookup_insert_eq in Hi1. injection Hi1 as <-. cbn in Hact.
    destruct (is_active i); [|done]. by discriminate Hact.
  - congruence.
Qed.

Lemma revoke_all_clears at_ audit user why m :
  keyed (active_sessions m) -> get_user_sessions user (revoke_all_user_sessions at_ audit user why m).1 = [].
Proof.
  intros Hk. unfold revoke_all_user_sessions. cbn [fst]. rewrite revoke_all_fst. set (m' := foldl _ _ _).
  destruct (get_user_sessions user m') as [|j l] eqn:Hl; [done|].
  assert (j ∈ get_user_sessions user m') as (Hact & k & Hj)%elem_of_user_sessions by (rewrite Hl; left).
  assert (shrinks m m') as [_ Hs] by apply shrinks_revoke_entries.
  destruct (Hs _ _ Hj) as (j0 & Hj0 & _ & Hu & _ & Ha). unfold active_of in Hact. rewrite Hu in Hact.
  apply andb_prop in Hact as [Hu0 Ha0].
  enough (is_active j = false) by congruence. eapply (revoke_all_deactivates at_ user why); [|exact Hj].
  apply list_elem_of_fmap. exists j0. split; [by rewrite (Hk _ _ Hj0)|]. apply elem_of_user_sessions.
  split; [|by exists k]. unfold active_of. rewrite Hu0. auto.
Qed.

(** Claim C38: once [revoke_all_user_sessions] has been called for a user, also
    if the audit log refuses the entry, the user has no active session left,
    and the identifier of every active session the user then had stays in the
    table of revoked tokens through any later calls, as long as no identifier
    is drawn a second time and no clean-up runs at or after the expiry of the
    session. *)
Theorem revoke_all_revokes (c : SessionConfig) (before after : list Op) (at_ : string -> Z) (audit : bool)
    (user why : string) (i : SessionInfo) :
  let m := run before (session_manager_new c) in
  let m' := (revoke_all_user_sessions at_ audit user why m).1 in
  i ∈ get_user_sessions user m ->
  Forall (before_expiry (session_id i) (expires_at i)) after ->
  get_user_sessions user m' = [] /\ is_token_revoked (session_id i) (run after m') = true.
Proof.
  intros m m' Hi Hafter.
  assert (keyed (active_sessions m)) as Hk by apply keyed_run, keyed_new.
  assert (barred (session_id i) (expires_at i) m') as Hb.
  { unfold m', revoke_all_user_sessions. cbn [fst]. rewrite revoke_all_fst. apply revoke_all_bars; [done| |].
    - by apply list_elem_of_fmap_2.
    - apply elem_of_user_sessions in Hi as (_ & k & Hki). by rewrite (Hk _ _ Hki). }
  split; [by apply revoke_all_clears|].
  destruct (barred_run _ _ _ _ Hafter Hb) as ((r & Hr & _) & _). apply bool_decide_true. by exists r.
Qed.

(** *** What becomes of the tokens *)

Lemma decode_refuses token secret now : jwt_decode validation_new token secret now = None.
Proof.
  destruct (jwt_decode validation_new token secret now) as [cl|] eqn:Hd; [|done].
  destruct (jwt_decode_aud _ _ _ _ _ Hd eq_refl) as (l & Hl & _). discriminate.
Qed.

(** No token is ever accepted, neither those that a login returns nor those of
    a refresh: every token names an audience, and the validation accepts none.
    A refusal changes nothing. *)
Theorem tokens_refused (m : SessionManager) (token uuid : string) (now utc : Z) (at_ : string -> Z) :
  validate_session now at_ token m = (m, Err InvalidToken) /\
  refresh_session now utc uuid at_ token m = (m, Err InvalidToken).
Proof. unfold validate_session, refresh_session. by rewrite !decode_refuses. Qed.

(** *** What revocation does not reach *)

(** Identifiers known to a manager were drawn by [create_session]. *)
Definition created (ops : list Op) (id : string) : Prop :=
  exists i user role ua ip, OpCreate i user role ua ip ∈ ops /\ ci_uuid i = id.

Definition known_only (P : string -> Prop) (m : SessionManager) : Prop :=
  keyed (active_sessions m) /\
  forall id, is_Some (active_sessions m !! id) \/ is_Some (revoked_tokens m !! id) -> P id.

Lemma known_shrinks P m m' :
  known_only P m -> shrinks m m' ->
  (forall id, is_Some (revoked_tokens m' !! id) -> is_Some (active_sessions m !! id) \/ is_Some (revoked_tokens m !! id)) ->
  known_only P m'.
Proof.
  intros [Hk Hp] Hs Hr. split; [by eapply keyed_shrinks|]. intros id [[i Hi]|Hid]; apply Hp; [|by apply Hr].
  destruct Hs as [_ Hs]. destruct (Hs _ _ Hi) as (i0 & Hi0 & _). left. by exists i0.
Qed.

Lemma known_revoke_entry P id user why t m : known_only P m -> known_only P (revoke_entry id user why t m).
Proof.
  intros Hm. eapply known_shrinks; [exact Hm|apply shrinks_revoke_entry|]. intros id'. unfold revoke_entry.
  case_match eqn:Hid; [|by right]. cbn. rewrite lookup_insert_is_Some. intros [<-|[_ ?]]; [left; by eexists|by right].
Qed.

Lemma known_idle_step P now secs k m : known_only P m -> known_only P (idle_step now secs m k).
Proof.
  intros Hm. eapply known_shrinks; [exact Hm|apply shrinks_idle_step|]. intros id'. unfold idle_step.
  case_match eqn:Hk; [|by right]. case_if; [|by right]. cbn. destruct Hm as [Hkey _]. rewrite (Hkey _ _ Hk).
  rewrite lookup_insert_is_Some. intros [<-|[_ ?]]; [left; by eexists|by right].
Qed.

Lemma known_drop_expired P now m : known_only P m -> known_only P (drop_expired now m).
Proof.
  intros Hm. eapply known_shrinks; [exact Hm|apply shrinks_drop_expired|]. intros id'. cbn.
  intros [r [Hr _]%map_lookup_filter_Some]. right. by exists r.
Qed.

Lemma known_update_activity P at_ user m : known_only P m -> known_only P (update_session_activity at_ user m).
Proof. intros Hm. eapply known_shrinks; [exact Hm|apply shrinks_update_activity|]. intros id'. by right. Qed.

Lemma known_op ops m op : op ∈ ops -> known_only (created ops) m -> known_only (created ops) (apply_op m op).
Proof.
  destruct op as [i user role ua ip|now utc uuid at_ token|now at_ token|t audit id' user why|at_ audit user why|now];
    cbn [apply_op]; intros Hop Hm.
  - pose proof (keyed_op m (OpCreate i user role ua ip)) as Hk. cbn in Hk. destruct Hm as [Hkey Hp]. specialize (Hk Hkey).
    revert Hk. destruct (create_session_cases i user role ua ip m) as [->|(info & _ & ->)]; [done|]. intros Hk.
    split; [done|]. cbn. intros id [[j Hj]|Hr]; [|apply Hp; by right].
    apply lookup_insert_Some in Hj as [[<- _]|[_ Hj%evict_oldest_lookup]].
    + by exists i, user, role, ua, ip.
    + apply Hp. left. by exists j.
  - unfold refresh_session. repeat (case_match || case_if); cbn; try done. by apply known_update_activity.
  - unfold validate_session. repeat (case_match || case_if); cbn; try done. by apply known_update_activity.
  - unfold revoke_session. case_match; cbn; [by apply known_revoke_entry|done].
  - unfold revoke_all_user_sessions. cbn [fst]. rewrite revoke_all_fst.
    apply (foldl_keeps (known_only (created ops))); [|done]. intros. by apply known_revoke_entry.
  - unfold cleanup_expired. case_match; cbn; try (by apply known_drop_expired).
    apply (foldl_keeps (known_only (created ops))); [intros; by apply known_idle_step|by apply known_drop_expired].
Qed.

Lemma known_run c ops : known_only (created ops) (run ops (session_manager_new c)).
Proof.
  apply (foldl_keeps (known_only (created ops))); [intros; by apply known_op|].
  split; [apply keyed_new|]. cbn. intros id [[? Hid]|[? Hid]]; by rewrite lookup_empty in Hid.
Qed.

(** Only the identifiers of sessions are ever revoked: those of refresh tokens,
    which have a prefix, never are. *)
Lemma unknown_not_revoked c ops id : ~ created ops id -> is_token_revoked id (run ops (session_manager_new c)) = false.
Proof. intros Hn. destruct (known_run c ops) as [_ Hp]. apply bool_decide_false. intros Hid. apply Hn, Hp. by right. Qed.

(** The session that a full quota costs is the user's oldest, and its
    identifier is not revoked: eviction only removes the entry. *)
Theorem evicted_session_not_revoked (c : SessionConfig) (i : CreateInput) (user role : string) (ua ip : option string)
    (m : SessionManager) (o info : SessionInfo) :
  config m = c -> keyed (active_sessions m) ->
  max_sessions_per_user c <= Z.of_nat (length (get_user_sessions user m)) ->
  min_by_key_z created_at (get_user_sessions user m) = Some o ->
  make_info c i user role ua ip = Ok info -> ci_uuid i <> session_id o ->
  is_Some (match make_tokens c i user role ua ip with Ok t => Some t | _ => None end) ->
  revoked_tokens m !! session_id o = None ->
  let m' := (create_session i user role ua ip m).1 in
  (forall s, s ∈ get_user_sessions user m -> created_at o <= created_at s) /\
  get_session_info (session_id o) m' = None /\ is_token_revoked (session_id o) m' = false.
Proof.
  intros <- Hk Hfull Hmin Hinfo Hne Htok Hrev m'.
  assert (active_sessions m' !! session_id o = None /\ config m' = config m /\ revoked_tokens m' = revoked_tokens m)
    as (Hgone & Hc & Hr).
  { unfold m', create_session. destruct (make_tokens _ _ _ _ _ _) as [toks| | |]; try by inversion Htok.
    cbn. rewrite Hinfo. cbn. rewrite lookup_insert_ne by done. split; [|done].
    unfold evict_oldest, get_user_sessions in *. rewrite (proj2 (Z.leb_le _ _) Hfull), Hmin. apply lookup_delete_eq. }
  split_and!.
  - intros s Hs. destruct (get_user_sessions user m) as [|x xs]; [done|]. injection Hmin as <-. by apply least_by_least.
  - exact Hgone.
  - unfold is_token_revoked. by rewrite Hr, Hrev.
Qed.

(** *** The hourly task *)

Definition settled (now secs : Z) (k : string) (m : SessionManager) : Prop :=
  forall i, active_sessions m !! k = Some i -> is_active i && idle_longer now secs i = false.

Lemma idle_step_settles now secs k m : settled now secs k (idle_step now secs m k).
Proof.
  intros i. unfold idle_step. case_match eqn:Hk; [|congruence]. case_if; [|congruence].
  cbn. rewrite lookup_insert_eq. by intros [= <-].
Qed.

Lemma idle_step_keeps_settled now secs k k' m : settled now secs k m -> settled now secs k (idle_step now secs m k').
Proof.
  intros Hs i. unfold idle_step. case_match eqn:Hk'; [|apply Hs]. case_if; [|apply Hs].
  cbn. rewrite lookup_insert_Some. intros [[-> <-]|[_ Hi]]; [done|by apply Hs].
Qed.

Lemma idle_loop_settles now secs ks m k : k ∈ ks -> settled now secs k (foldl (idle_step now secs) m ks).
Proof.
  intros (l1 & l2 & ->)%list_elem_of_split. rewrite foldl_app. cbn.
  apply (foldl_keeps (settled now secs k)); [intros; by apply idle_step_keeps_settled|apply idle_step_settles].
Qed.

(** After the task ran every session left is unexpired, and active only if it
    was used within the idle timeout. *)
Theorem cleanup_expired_spec (now : Z) (m : SessionManager) (k : string) (i : SessionInfo) :
  idle_timeout_hours (config m) * 3600 < 2 ^ 64 -> 0 <= idle_timeout_hours (config m) ->
  (cleanup_expired now m).2 = Ok tt /\
  (active_sessions (cleanup_expired now m).1 !! k = Some i ->
   now < expires_at i /\
   (is_active i = true -> instant_since now (last_activity i) <= idle_timeout_hours (config m) * 3600 * 10 ^ 9)).
Proof.
  intros Hhi Hlo. set (secs := idle_timeout_hours (config m) * 3600).
  assert (checked_width (E := SessionError) 64 secs = Ok secs) as Hw.
  { unfold checked_width. case_if; [done|lia]. }
  unfold cleanup_expired. fold secs. rewrite Hw. cbn [fst snd]. split; [done|]. intros Hi.
  set (m1 := drop_expired now m) in *.
  assert (shrinks m1 (foldl (idle_step now secs) m1 (hash_keys (active_sessions m1)))) as [_ Hs]
    by (apply (foldl_preorder shrinks); intros; apply shrinks_idle_step).
  destruct (Hs _ _ Hi) as (i1 & Hi1 & _ & _ & He & _). split.
  - rewrite He. cbn in Hi1. by apply map_lookup_filter_Some in Hi1 as [_ Hlt].
  - intros Ha. assert (k ∈ hash_keys (active_sessions m1)) as Hk by (apply elem_of_hash_keys; by exists i1).
    pose proof (idle_loop_settles now secs _ m1 k Hk i Hi) as Hq. rewrite Ha in Hq. unfold idle_longer in Hq. cbn in Hq. lia.
Qed.

End Manager.

(** ** Running the model *)

Section Demo.

#[local] Instance claims_eq_dec : EqDecision SessionClaims.
Proof. solve_decision. Defined.

#[local] Instance demo_order : HashOrder := trie_order.
#[local] Instance demo_profile : BuildProfile := true.

#[local] Instance demo_utc : UtcClock := unbounded_utc.

(** A token crate that can sign the claims of the runs below. *)
Definition demo_config : SessionConfig := mkSessionConfig true "s" 24 168 1 8 24.
Definition demo_access : SessionClaims := claims_at "ann" "operator" None None 0 "id-1" (24 * 3600 * 10 ^ 9) "access".
Definition demo_refresh : SessionClaims :=
  claims_at "ann" "operator" None None 0 "refresh-id-1" (168 * 3600 * 10 ^ 9) "refresh".
Definition demo_renewed : SessionClaims := claims_at "ann" "operator" None None 0 "id-2" (24 * 3600 * 10 ^ 9) "access".

Definition demo_refresh_2 : SessionClaims :=
  claims_at "ann" "operator" None None 0 "refresh-id-2" (168 * 3600 * 10 ^ 9) "refresh".

Definition demo_open (token : string) : option SessionClaims :=
  if bool_decide (token = "access"%string) then Some demo_access
  else if bool_decide (token = "refresh"%string) then Some demo_refresh
  else if bool_decide (token = "renewed"%string) then Some demo_renewed
  else if bool_decide (token = "refresh-2"%string) then Some demo_refresh_2 else None.

#[local] Instance demo_jwt : Jwt.
Proof.
  refine {| jwt_encode c _ := if decide (c = demo_access) then Some "access"%string
                              else if decide (c = demo_refresh) then Some "refresh"%string
                              else if decide (c = demo_renewed) then Some "renewed"%string
                              else if decide (c = demo_refresh_2) then Some "refresh-2"%string else None;
            jwt_decode v token _ _ :=
              c ← demo_open token;
              if validate_aud v then
                match v_aud v with Some l => if decide (aud c ∈ l) then Some c else None | None => None end
              else Some c |}.
  - intros v c c' secret token now He Hd. apply bind_Some in Hd as (c1 & Ho & Hd).
    assert (c1 = c') as -> by (repeat case_match; congruence).
    apply (inj Some). rewrite <- Ho. clear Ho Hd. repeat case_decide; simplify_eq; reflexivity.
  - intros v c secret token now Hd Hv. apply bind_Some in Hd as (c1 & Ho & Hd). rewrite Hv in Hd.
    destruct (v_aud v) as [l|]; [|done]. case_decide; [|done]. injection Hd as <-. by exists l.
Defined.

Definition demo_create : Op := OpCreate (mkCreateInput "id-1" 0 5 5 5 true) "ann" "operator" None None.
Definition demo_revoke_all : Op := OpRevokeAll (fun _ => 7) true "ann" "left the company".
Definition demo_info : SessionInfo := mkSessionInfo "id-1" "ann" "operator" 5 (5 + 86400 * 10 ^ 9) 5 None None true.

Lemma revoke_all_revokes_witness :
  is_token_revoked "id-1"
     (run [OpCleanup 100] (revoke_all_user_sessions (fun _ => 7) true "ann" "left the company"
        (run [demo_create] (session_manager_new demo_config))).1) = true.
Proof.
  refine (proj2 (revoke_all_revokes demo_config [demo_create] [OpCleanup 100] (fun _ => 7) true "ann" "left the company"
    demo_info _ _)).
  - vm_compute. left.
  - repeat constructor.
Defined.

(** A crate that decodes the token for a validation that names the audience,
    and the token of a login all the same refused. *)
Lemma tokens_refused_witness :
  jwt_decode (mkValidation (Some ["bonsai-users"%string]) true) "access" "s" 9 = Some demo_access /\
  let r := create_session (mkCreateInput "id-1" 0 5 5 5 true) "ann" "operator" None None (session_manager_new demo_config) in
  r.2 = Ok ("access", "refresh")%string /\ (validate_session 9 (fun _ => 9) "access" r.1).2 = Err InvalidToken.
Proof.
  split; [vm_compute; reflexivity|]. split; [vm_compute; reflexivity|].
  exact (f_equal snd (proj1 (tokens_refused _ "access" "u" 9 0 (fun _ => 9)))).
Defined.

(** A second login with a quota of one: the first session is evicted, and its
    identifier is not revoked. *)
Example evicted_session_example :
  let m := run [demo_create] (session_manager_new demo_config) in
  let r := create_session (mkCreateInput "id-2" 0 6 6 6 true) "ann" "operator" None None m in
  r.2 = Ok ("renewed", "refresh-2")%string /\ get_session_info "id-1" r.1 = None /\
  is_token_revoked "id-1" r.1 = false.
Proof. cbn zeta. split_and!; vm_compute; reflexivity. Qed.

(** The clean-up at the expiry of a revoked session forgets the revocation. *)
Example cleanup_forgets_revocation :
  let m := run [demo_create; demo_revoke_all; OpCleanup (5 + 86400 * 10 ^ 9)] (session_manager_new demo_config) in
  is_token_revoked "id-1" m = false.
Proof. vm_compute. reflexivity. Qed.

End Demo.
