(* ===== verification/Mfa.v ===== *)
(** * Second factors ([src/security/mfa.rs])

    A user proves a second factor by answering a challenge: a time-based code
    of a secret the user enrolled, a code that was sent, or one of ten backup
    codes.  The manager keeps the settings of the users and the open
    challenges.  Random values, clock readings and the outcome of the write to
    the audit log are arguments; base32, percent encoding and the time-based
    codes ([totp-lite]) are other crates, an interface here. *)

From Stdlib Require Import ZArith Lia ZifyBool.
From stdpp Require Import base numbers list option strings gmap fin_maps.
From S2P Require Import Prelude RustStd HashMaps Clock.

Local Open Scope Z_scope.

(** ** Data *)

Record MfaConfig := mkMfaConfig {
  mc_enabled : bool;
  totp_enabled : bool;
  sms_enabled : bool;
  email_enabled : bool;
  backup_codes_enabled : bool;
  issuer : string;
  totp_window : Z;
  sms_provider : option string;
  email_provider : option string;
}.

Definition mfa_config_default : MfaConfig :=
  mkMfaConfig false false false false false "Bonsai Network Monitor" 30 None None.

Inductive MfaMethod := Totp | Sms | Email | BackupCode.

#[global] Instance mfa_method_eq_dec : EqDecision MfaMethod.
Proof. solve_decision. Defined.

Record MfaChallenge := mkMfaChallenge {
  ch_user_id : string;
  challenge_id : string;
  method : MfaMethod;
  code : option string;
  ch_expires_at : Z;
  attempts : Z;
  max_attempts : Z;
}.

Record UserMfaSettings := mkUserMfaSettings {
  us_user_id : string;
  totp_secret : option string;
  phone_number : option string;
  email_address : option string;
  backup_codes : list string;
  enabled_methods : list MfaMethod;
  last_used : option MfaMethod;
}.

Record MfaManager := mkMfaManager {
  mfa_config : MfaConfig;
  user_settings : gmap string UserMfaSettings;
  active_challenges : gmap string MfaChallenge;
}.

Inductive MfaError := SettingsNotFound | ChallengeNotFound | NoPhoneNumber | NoEmailAddress | MfaAuditFailed.

Notation MRes A := (Outcome MfaError A).

Class MfaCrates := {
  base32_encode : bytes -> string;
  url_encode : string -> string;
  totp : string -> Z -> string;
}.

(** ** Enrolment *)

Section Manager.
Context `{MfaCrates}.

Definition mfa_manager_new (c : MfaConfig) : MfaManager := mkMfaManager c ∅ ∅.

Definition set_settings (u : string) (s : UserMfaSettings) (m : MfaManager) : MfaManager :=
  mkMfaManager (mfa_config m) (<[u := s]> (user_settings m)) (active_challenges m).

Definition set_challenges (f : gmap string MfaChallenge -> gmap string MfaChallenge) (m : MfaManager) : MfaManager :=
  mkMfaManager (mfa_config m) (user_settings m) (f (active_challenges m)).

(** What [or_insert_with] makes. *)
Definition empty_settings (u : string) : UserMfaSettings := mkUserMfaSettings u None None None [] [] None.

Definition with_method (x : MfaMethod) (l : list MfaMethod) : list MfaMethod :=
  if bool_decide (x ∈ l) then l else l ++ [x].

Definition generate_totp_secret (random : bytes) (u : string) (m : MfaManager) : MfaManager * string :=
  let secret := base32_encode random in
  let s := default (empty_settings u) (user_settings m !! u) in
  let s' := mkUserMfaSettings (us_user_id s) (Some secret) (phone_number s) (email_address s) (backup_codes s)
              (with_method Totp (enabled_methods s)) (last_used s) in
  (set_settings u s' m, secret).

Definition generate_totp_qr_code (u secret : string) (m : MfaManager) : MRes string :=
  _ ← or_err (user_settings m !! u) SettingsNotFound;
  let i := url_encode (issuer (mfa_config m)) in
  Ok ("otpauth://totp/" ++ i ++ ":" ++ url_encode u ++ "?secret=" ++ secret ++ "&issuer=" ++ i)%string.

(** [&code[i..j]] of an ASCII text *)
Definition str_slice (i j : nat) (s : string) : MRes string :=
  if (Nat.leb i j && Nat.leb j (String.length s))%bool then Ok (String.substring i (j - i) s) else Panic.

(** [(0..n).map(|_| rng.gen_range(0..10).to_string()).collect()] *)
Definition digits_text (ds : list Z) : string := String.concat "" (fmt_dec <$> ds).

Definition backup_code (ds : list Z) : MRes string :=
  let code := digits_text ds in
  a ← str_slice 0 2 code; b ← str_slice 2 4 code; c ← str_slice 4 6 code; d ← str_slice 6 8 code;
  Ok (a ++ "-" ++ b ++ "-" ++ c ++ "-" ++ d)%string.

(** [random] holds the digits of the ten codes. *)
Definition generate_backup_codes (random : list (list Z)) (u : string) (m : MfaManager) : MfaManager * MRes (list string) :=
  match mapM backup_code random with
  | Ok codes =>
      (match user_settings m !! u with
       | Some s => set_settings u (mkUserMfaSettings (us_user_id s) (totp_secret s) (phone_number s) (email_address s) codes
                                    (with_method BackupCode (enabled_methods s)) (last_used s)) m
       | None => m
       end, Ok codes)
  | Err e => (m, Err e) | Panic => (m, Panic) | Diverge => (m, Diverge)
  end.

(** ** Challenges *)

(** The texts of [send_sms_code] and [send_email_code] are only logged. *)
Definition send_sms_code (audit : bool) (u : string) (m : MfaManager) : MRes unit :=
  s ← or_err (user_settings m !! u) SettingsNotFound;
  match phone_number s with
  | Some _ => if audit then Ok tt else Err MfaAuditFailed
  | None => Err NoPhoneNumber
  end.

Definition send_email_code (audit : bool) (u : string) (m : MfaManager) : MRes unit :=
  s ← or_err (user_settings m !! u) SettingsNotFound;
  match email_address s with
  | Some _ => if audit then Ok tt else Err MfaAuditFailed
  | None => Err NoEmailAddress
  end.

(** A call's random identifier, clock, six digits and audit outcome. *)
Record ChallengeInput := mkChallengeInput { in_uuid : string; in_now : Z; in_digits : list Z; in_audit : bool }.

Definition challenge_name (u uuid : string) : string := ("mfa-" ++ u ++ "-" ++ uuid)%string.

Definition make_challenge (i : ChallengeInput) (u : string) (meth : MfaMethod) (m : MfaManager) : MRes MfaChallenge :=
  expires ← instant_plus_secs (in_now i) 300;
  c ← match meth with
      | Totp | BackupCode => Ok None
      | Sms => _ ← send_sms_code (in_audit i) u m; Ok (Some (digits_text (in_digits i)))
      | Email => _ ← send_email_code (in_audit i) u m; Ok (Some (digits_text (in_digits i)))
      end;
  Ok (mkMfaChallenge u (challenge_name u (in_uuid i)) meth c expires 0 3).

Definition create_challenge (i : ChallengeInput) (u : string) (meth : MfaMethod) (m : MfaManager) : MfaManager * MRes string :=
  match make_challenge i u meth m with
  | Ok ch => (set_challenges <[challenge_id ch := ch]> m, Ok (challenge_id ch))
  | Err e => (m, Err e) | Panic => (m, Panic) | Diverge => (m, Diverge)
  end.

(** [secs]: the wall clock in seconds.  The text of the secret is the key. *)
Definition verify_totp (secs : Z) (u c : string) (m : MfaManager) : MRes bool :=
  s ← or_err (user_settings m !! u) SettingsNotFound;
  match totp_secret s with
  | Some secret => Ok (bool_decide (totp secret secs = c))
  | None => Ok false
  end.

(** [Vec::remove] of the first position with the code *)
Fixpoint remove_first (c : string) (l : list string) : list string :=
  match l with
  | [] => []
  | x :: l => if bool_decide (x = c) then l else x :: remove_first c l
  end.

Definition verify_backup_code (u c : string) (m : MfaManager) : MfaManager * bool :=
  match user_settings m !! u with
  | Some s =>
      if bool_decide (c ∈ backup_codes s) then
        (set_settings u (mkUserMfaSettings (us_user_id s) (totp_secret s) (phone_number s) (email_address s)
                          (remove_first c (backup_codes s)) (enabled_methods s) (last_used s)) m, true)
      else (m, false)
  | None => (m, false)
  end.

Definition update_last_used (u : string) (meth : MfaMethod) (m : MfaManager) : MfaManager :=
  match user_settings m !! u with
  | Some s => set_settings u (mkUserMfaSettings (us_user_id s) (totp_secret s) (phone_number s) (email_address s)
                (backup_codes s) (enabled_methods s) (Some meth)) m
  | None => m
  end.

Definition count_attempt (ch : MfaChallenge) : MfaChallenge :=
  mkMfaChallenge (ch_user_id ch) (challenge_id ch) (method ch) (code ch) (ch_expires_at ch) (attempts ch + 1) (max_attempts ch).

(** The comparison of the code, which a backup code pays for. *)
Definition check_code (secs : Z) (ch : MfaChallenge) (c : string) (m : MfaManager) : MfaManager * MRes bool :=
  match method ch with
  | Totp => (m, verify_totp secs (ch_user_id ch) c m)
  | Sms | Email => (m, Ok (bool_decide (code ch = Some c)))
  | BackupCode => let r := verify_backup_code (ch_user_id ch) c m in (r.1, Ok r.2)
  end.

(** [now] is the instant of the expiry check, [secs] that of the time-based
    code.  The comparison is an argument, so that one can also see from outside
    whether a call makes it. *)
Definition verify_challenge_with (check : Z -> MfaChallenge -> string -> MfaManager -> MfaManager * MRes bool)
    (now secs : Z) (id c : string) (m : MfaManager) : MfaManager * MRes bool :=
  match active_challenges m !! id with
  | None => (m, Err ChallengeNotFound)
  | Some ch =>
      if ch_expires_at ch <? now then (set_challenges (delete id) m, Ok false)
      else if max_attempts ch <=? attempts ch then (set_challenges (delete id) m, Ok false)
      else
        let m1 := set_challenges <[id := count_attempt ch]> m in
        match check secs ch c m1 with
        | (m2, Ok true) => (update_last_used (ch_user_id ch) (method ch) (set_challenges (delete id) m2), Ok true)
        | r => r
        end
  end.

Definition verify_challenge : Z -> Z -> string -> string -> MfaManager -> MfaManager * MRes bool :=
  verify_challenge_with check_code.

(** ** Settings *)

Definition get_user_settings (u : string) (m : MfaManager) : option UserMfaSettings := user_settings m !! u.

Definition update_user_settings (s : UserMfaSettings) (m : MfaManager) : MfaManager := set_settings (us_user_id s) s m.

Definition get_enabled_methods (m : MfaManager) : list MfaMethod :=
  let c := mfa_config m in
  (if totp_enabled c then [Totp] else []) ++ (if sms_enabled c then [Sms] else []) ++
  (if email_enabled c then [Email] else []) ++ (if backup_codes_enabled c then [BackupCode] else []).

Definition is_mfa_enabled_for_user (u : string) (m : MfaManager) : bool :=
  match user_settings m !! u with Some s => negb (bool_decide (enabled_methods s = [])) | None => false end.

Definition cleanup_expired_challenges (now : Z) (m : MfaManager) : MfaManager :=
  set_challenges (base.filter (fun kv => now < ch_expires_at kv.2)) m.

(** ** Histories *)

Inductive MOp :=
  | MSecret (random : bytes) (u : string)
  | MCodes (random : list (list Z)) (u : string)
  | MCreate (i : ChallengeInput) (u : string) (meth : MfaMethod)
  | MVerify (now secs : Z) (id c : string)
  | MUpdate (s : UserMfaSettings)
  | MCleanup (now : Z).

Definition mfa_op (m : MfaManager) (op : MOp) : MfaManager :=
  match op with
  | MSecret random u => (generate_totp_secret random u m).1
  | MCodes random u => (generate_backup_codes random u m).1
  | MCreate i u meth => (create_challenge i u meth m).1
  | MVerify now secs id c => (verify_challenge now secs id c m).1
  | MUpdate s => update_user_settings s m
  | MCleanup now => cleanup_expired_challenges now m
  end.

Definition mfa_run (ops : list MOp) (m : MfaManager) : MfaManager := foldl mfa_op m ops.

(** The sum of a quantity over the calls of a history, each in the state it
    was made in. *)
Fixpoint mfa_sum (q : MfaManager -> MOp -> Z) (m : MfaManager) (ops : list MOp) : Z :=
  match ops with
  | [] => 0
  | op :: ops => q m op + mfa_sum q (mfa_op m op) ops
  end.

(** A quantity that is paid out of a potential, which another quantity fills. *)
Lemma mfa_sum_potential (pot : MfaManager -> Z) (out in_ : MfaManager -> MOp -> Z) m ops :
  (forall m, 0 <= pot m) ->
  (forall m op, pot (mfa_op m op) + out m op <= pot m + in_ m op) ->
  mfa_sum out m ops <= pot m + mfa_sum in_ m ops.
Proof.
  intros Hpos Hstep. revert m. induction ops as [|op ops IH]; intros m; cbn; [specialize (Hpos m); lia|].
  specialize (IH (mfa_op m op)). specialize (Hstep m op). lia.
Qed.

(** The calls that are counted. *)
Definition creates (id : string) (_ : MfaManager) (op : MOp) : Z :=
  match op with MCreate i u _ => if bool_decide (challenge_name u (in_uuid i) = id) then 1 else 0 | _ => 0 end.

(** A code is compared: with a comparison that would panic in the place of the
    real one, the call panics. *)
Definition compares (id : string) (m : MfaManager) (op : MOp) : Z :=
  match op with
  | MVerify now secs id' c =>
      if bool_decide (id' = id) then
        match (verify_challenge_with (fun _ _ _ m => (m, Panic)) now secs id' c m).2 with Panic => 1 | _ => 0 end
      else 0
  | _ => 0
  end.

(** [Ok(true)] *)
Definition granted (r : MRes bool) : bool := match r with Ok b => b | _ => false end.

Definition accepts (id : string) (m : MfaManager) (op : MOp) : Z :=
  match op with
  | MVerify now secs id' c =>
      if bool_decide (id' = id) && granted (verify_challenge now secs id' c m).2 then 1 else 0
  | _ => 0
  end.

Definition occurrences (c : string) (l : list string) : Z := Z.of_nat (length (base.filter (fun x => x = c) l)).

Definition spends (u c : string) (m : MfaManager) (op : MOp) : Z :=
  match op with
  | MVerify now secs id c' =>
      match active_challenges m !! id with
      | Some ch => if bool_decide (ch_user_id ch = u) && bool_decide (method ch = BackupCode) && bool_decide (c' = c) &&
                      granted (verify_challenge now secs id c' m).2 then 1 else 0
      | None => 0
      end
  | _ => 0
  end.

Definition issues (u c : string) (_ : MfaManager) (op : MOp) : Z :=
  match op with
  | MCodes random u' =>
      if bool_decide (u' = u) then match mapM backup_code random with Ok codes => occurrences c codes | _ => 0 end else 0
  | MUpdate s => if bool_decide (us_user_id s = u) then occurrences c (backup_codes s) else 0
  | _ => 0
  end.

(** *** What the operations leave of the challenges *)

Lemma check_code_challenges secs ch c m : active_challenges (check_code secs ch c m).1 = active_challenges m.
Proof. unfold check_code, verify_backup_code. repeat (case_match || case_if); done. Qed.

Lemma update_last_used_challenges u meth m : active_challenges (update_last_used u meth m) = active_challenges m.
Proof. unfold update_last_used. by case_match. Qed.

(** The four outcomes of a verification. *)
Lemma verify_challenge_cases now secs id c m (Q : MfaManager * MRes bool -> Prop) :
  (active_challenges m !! id = None -> Q (m, Err ChallengeNotFound)) ->
  (forall ch, active_challenges m !! id = Some ch -> ch_expires_at ch < now \/ max_attempts ch <= attempts ch ->
    Q (set_challenges (delete id) m, Ok false)) ->
  (forall ch m2 r, active_challenges m !! id = Some ch -> now <= ch_expires_at ch -> attempts ch < max_attempts ch ->
    check_code secs ch c (set_challenges <[id := count_attempt ch]> m) = (m2, r) -> r <> Ok true -> Q (m2, r)) ->
  (forall ch m2, active_challenges m !! id = Some ch -> now <= ch_expires_at ch -> attempts ch < max_attempts ch ->
    check_code secs ch c (set_challenges <[id := count_attempt ch]> m) = (m2, Ok true) ->
    Q (update_last_used (ch_user_id ch) (method ch) (set_challenges (delete id) m2), Ok true)) ->
  Q (verify_challenge now secs id c m).
Proof.
  intros Hnone Hgone Hbad Hgood. unfold verify_challenge, verify_challenge_with. case_match eqn:Hid; [|by apply Hnone].
  destruct (ch_expires_at m0 <? now) eqn:He; [apply (Hgone _ eq_refl); lia|].
  destruct (max_attempts m0 <=? attempts m0) eqn:Ha; [apply (Hgone _ eq_refl); lia|].
  destruct (check_code _ _ _ _) as [m2 r] eqn:Hc.
  destruct r as [[]| | |]; [eapply Hgood|eapply Hbad..]; try done; lia.
Qed.

(** What is left of a challenge: its attempts, and whether it is open. *)
Definition left_attempts (id : string) (m : MfaManager) : Z :=
  match active_challenges m !! id with Some ch => Z.max 0 (max_attempts ch - attempts ch) | None => 0 end.

Definition open_challenge (id : string) (m : MfaManager) : Z :=
  match active_challenges m !! id with Some _ => 1 | None => 0 end.

Lemma make_challenge_inv i u meth m ch :
  make_challenge i u meth m = Ok ch ->
  challenge_id ch = challenge_name u (in_uuid i) /\ ch_user_id ch = u /\ method ch = meth /\ attempts ch = 0 /\
  max_attempts ch = 3 /\ ch_expires_at ch = in_now i + 300 * 10 ^ 9 /\
  (meth = Sms \/ meth = Email -> code ch = Some (digits_text (in_digits i))).
Proof.
  unfold make_challenge. intros Hm. apply bind_Ok_inv in Hm as (e & He & Hm). apply bind_Ok_inv in Hm as (c & Hc & Hm).
  injection Hm as <-. cbn. split_and!; try done; [by eapply instant_plus_secs_inv|].
  destruct meth; intros [?|?]; try done; by apply bind_Ok_inv in Hc as (_ & _ & [= <-]).
Qed.

Lemma create_challenge_cases i u meth m (Q : MfaManager -> Prop) :
  Q m -> (forall ch, make_challenge i u meth m = Ok ch -> Q (set_challenges <[challenge_id ch := ch]> m)) ->
  Q (create_challenge i u meth m).1.
Proof. intros H1' H2'. unfold create_challenge. case_match; cbn; auto. Qed.

(** Operations on the settings leave the challenges alone. *)
Lemma settings_ops_challenges m op :
  match op with MSecret _ _ | MCodes _ _ | MUpdate _ => active_challenges (mfa_op m op) = active_challenges m | _ => True end.
Proof. destruct op; cbn; try done. unfold generate_backup_codes. by repeat case_match. Qed.

Lemma granted_spec r : granted r = true <-> r = Ok true.
Proof. destruct r as [[]| | |]; naive_solver. Qed.

(** Per identifier, what an operation does to the entry of the table. *)
Lemma entry_insert id id' ch m :
  active_challenges (set_challenges <[id' := ch]> m) !! id =
  if bool_decide (id' = id) then Some ch else active_challenges m !! id.
Proof. cbn. case_bool_decide; subst; by rewrite ?lookup_insert_eq, ?lookup_insert_ne. Qed.

Lemma entry_delete id id' m :
  active_challenges (set_challenges (delete id') m) !! id =
  if bool_decide (id' = id) then None else active_challenges m !! id.
Proof. cbn. case_bool_decide; subst; by rewrite ?lookup_delete_eq, ?lookup_delete_ne. Qed.

(** The entry under [id] after a verification of [id']. *)
Lemma verify_entry now secs id' c m id :
  let r := verify_challenge now secs id' c m in
  active_challenges r.1 !! id =
  if bool_decide (id' = id) then
    match active_challenges m !! id with
    | Some ch => if (ch_expires_at ch <? now) || (max_attempts ch <=? attempts ch) || granted r.2 then None
                 else Some (count_attempt ch)
    | None => None
    end
  else active_challenges m !! id.
Proof.
  cbn zeta. case_bool_decide as Hid; [subst id'|].
  - apply verify_challenge_cases; cbn [fst snd].
    + by intros ->.
    + intros ch -> Hor. rewrite entry_delete, bool_decide_true by done.
      destruct (_ <? _) eqn:?, (_ <=? _) eqn:?; try done. lia.
    + intros ch m2 r -> He Ha Hc Hr. apply (f_equal fst) in Hc. cbn in Hc. subst m2.
      rewrite check_code_challenges, entry_insert, bool_decide_true by done.
      rewrite (proj2 (Z.ltb_ge _ _)), (proj2 (Z.leb_gt _ _)) by lia. cbn.
      destruct (granted r) eqn:Hg; [by apply granted_spec in Hg|done].
    + intros ch m2 -> He Ha Hc. rewrite update_last_used_challenges, entry_delete, bool_decide_true by done.
      by rewrite orb_true_r.
  - apply verify_challenge_cases; cbn [fst snd]; try done.
    + intros. by rewrite entry_delete, bool_decide_false.
    + intros ch m2 r _ _ _ Hc _. apply (f_equal fst) in Hc. cbn in Hc. subst m2.
      by rewrite check_code_challenges, entry_insert, bool_decide_false.
    + intros ch m2 _ _ _ Hc. apply (f_equal fst) in Hc. cbn in Hc. subst m2.
      by rewrite update_last_used_challenges, entry_delete, check_code_challenges, entry_insert, !bool_decide_false.
Qed.

Lemma cleanup_entry now m id :
  active_challenges (cleanup_expired_challenges now m) !! id = None \/
  active_challenges (cleanup_expired_challenges now m) !! id = active_challenges m !! id.
Proof.
  cbn. destruct (base.filter _ (active_challenges m) !! id) eqn:Hf; [|by left].
  apply map_lookup_filter_Some in Hf as [-> _]. by right.
Qed.

Lemma granted_open now secs id c m :
  granted (verify_challenge now secs id c m).2 = true ->
  exists ch, active_challenges m !! id = Some ch /\ now <= ch_expires_at ch /\ attempts ch < max_attempts ch.
Proof.
  apply verify_challenge_cases; cbn; try done.
  - intros ch m2 r ? ? ? _ Hr Hg. apply granted_spec in Hg. done.
  - intros ch m2 ? ? ? _ _. by exists ch.
Qed.

(** When a call compares. *)
Lemma compares_verify now secs id c m :
  compares id m (MVerify now secs id c) =
  match active_challenges m !! id with
  | Some ch => if (now <=? ch_expires_at ch) && (attempts ch <? max_attempts ch) then 1 else 0
  | None => 0
  end.
Proof.
  unfold compares, verify_challenge_with. rewrite bool_decide_true by done. destruct (active_challenges m !! id) as [ch|]; [|done].
  destruct (ch_expires_at ch <? now) eqn:E1, (max_attempts ch <=? attempts ch) eqn:E2; cbn; destruct (_ && _)%bool eqn:E; try done;
    rewrite ?andb_true_iff, ?andb_false_iff in E; lia.
Qed.

(** Attempts are paid by creations, three each. *)
Lemma left_attempts_step id m op :
  left_attempts id (mfa_op m op) + compares id m op <= left_attempts id m + 3 * creates id m op.
Proof.
  unfold left_attempts, creates.
  destruct op as [random u|random u|i u meth|now secs id' c|s|now]; cbn [mfa_op]; try change (compares id m _) with 0.
  - cbn. case_match; lia.
  - pose proof (settings_ops_challenges m (MCodes random u)) as E. cbn [mfa_op] in E. rewrite E. case_match; lia.
  - apply (create_challenge_cases i u meth m (fun m' => match active_challenges m' !! id with Some _ => _ | None => _ end + _ <= _)).
    + repeat case_match; lia.
    + intros ch Hch. apply make_challenge_inv in Hch as (Hid & _ & _ & Ha & Hm & _).
      rewrite entry_insert, Hid. case_bool_decide; [case_match; lia|lia].
  - rewrite verify_entry. destruct (decide (id' = id)) as [->|Hid].
    + rewrite bool_decide_true, compares_verify by done. destruct (active_challenges m !! id) as [ch|]; [|lia].
      destruct (ch_expires_at ch <? now) eqn:E1, (max_attempts ch <=? attempts ch) eqn:E2, (granted _); cbn;
        repeat case_if; cbn; lia.
    + unfold compares. rewrite bool_decide_false by done. case_match; lia.
  - cbn. case_match; lia.
  - destruct (cleanup_entry now m id) as [->| ->]; case_match; lia.
Qed.

Lemma open_challenge_step id m op :
  open_challenge id (mfa_op m op) + accepts id m op <= open_challenge id m + creates id m op.
Proof.
  unfold open_challenge, accepts, creates.
  destruct op as [random u|random u|i u meth|now secs id' c|s|now]; cbn [mfa_op].
  - cbn. case_match; lia.
  - pose proof (settings_ops_challenges m (MCodes random u)) as E. cbn [mfa_op] in E. rewrite E. case_match; lia.
  - apply (create_challenge_cases i u meth m (fun m' => match active_challenges m' !! id with Some _ => _ | None => _ end + _ <= _)).
    + repeat case_match; lia.
    + intros ch Hch. apply make_challenge_inv in Hch as (Hid & _).
      rewrite entry_insert, Hid. case_bool_decide; [case_match; lia|lia].
  - rewrite verify_entry. case_bool_decide as Hid; [subst id'|case_match; cbn; lia].
    destruct (granted _) eqn:Hg.
    + apply granted_open in Hg as (ch & -> & _). by rewrite orb_true_r.
    + cbn. destruct (active_challenges m !! id); [case_if; lia|lia].
  - cbn. case_match; lia.
  - destruct (cleanup_entry now m id) as [->| ->]; case_match; lia.
Qed.

Lemma mfa_sum_scale k q m ops : mfa_sum (fun m op => k * q m op) m ops = k * mfa_sum q m ops.
Proof. revert m. induction ops as [|op ops IH]; intros m; cbn; [lia|]. rewrite IH. lia. Qed.

(** Claim C34: whatever calls are made, at most three codes are compared against
    a challenge, and it is passed at most once, for each time it was created;
    an identifier that is drawn once is guessed at three times and used once. *)
Theorem challenge_attempts_bounded (c : MfaConfig) (ops : list MOp) (id : string) :
  let m := mfa_manager_new c in
  mfa_sum (compares id) m ops <= 3 * mfa_sum (creates id) m ops /\
  mfa_sum (accepts id) m ops <= mfa_sum (creates id) m ops.
Proof.
  cbn zeta. split.
  - pose proof (mfa_sum_potential (left_attempts id) (compares id) (fun m op => 3 * creates id m op) (mfa_manager_new c) ops)
      as Hsum.
    rewrite mfa_sum_scale in Hsum. apply Hsum; [|apply left_attempts_step].
    intros m. unfold left_attempts. case_match; lia.
  - pose proof (mfa_sum_potential (open_challenge id) (accepts id) (creates id) (mfa_manager_new c) ops) as Hsum.
    apply Hsum; [|apply open_challenge_step]. intros m. unfold open_challenge. case_match; lia.
Qed.

(** *** Backup codes *)

Definition stored (u c : string) (m : MfaManager) : Z :=
  match user_settings m !! u with Some s => occurrences c (backup_codes s) | None => 0 end.

Lemma occurrences_remove c x l :
  x ∈ l -> occurrences c (remove_first x l) = occurrences c l - (if bool_decide (x = c) then 1 else 0).
Proof.
  unfold occurrences. induction l as [|y l IH]; [by intros ?%elem_of_nil|]. intros Hx. cbn [remove_first].
  destruct (decide (y = x)) as [->|Hy].
  - rewrite (bool_decide_true (x = x)) by done. rewrite filter_cons.
    destruct (decide (x = c)); [rewrite bool_decide_true by done|rewrite bool_decide_false by done]; cbn [length]; lia.
  - apply elem_of_cons in Hx as [->|Hx]; [done|]. rewrite (bool_decide_false (y = x)) by done. cbv iota. specialize (IH Hx). rewrite !filter_cons.
    destruct (decide (y = c)); cbn [length]; lia.
Qed.

Lemma stored_set u c u' s m :
  stored u c (set_settings u' s m) = if bool_decide (u' = u) then occurrences c (backup_codes s) else stored u c m.
Proof. unfold stored. cbn. case_bool_decide; subst; by rewrite ?lookup_insert_eq, ?lookup_insert_ne. Qed.

Lemma stored_challenges u c f m : stored u c (set_challenges f m) = stored u c m.
Proof. done. Qed.

Lemma stored_last_used u c u' meth m : stored u c (update_last_used u' meth m) = stored u c m.
Proof.
  unfold update_last_used. case_match eqn:Hs; [|done]. rewrite stored_set. case_bool_decide; [|done]. subst.
  unfold stored. by rewrite Hs.
Qed.

Lemma stored_check_code u c secs ch x m m2 r :
  check_code secs ch x m = (m2, r) ->
  stored u c m2 =
  stored u c m - (if bool_decide (ch_user_id ch = u) && bool_decide (method ch = BackupCode) && bool_decide (x = c) && granted r
                  then 1 else 0).
Proof.
  unfold check_code. destruct (method ch) eqn:Hm; intros [= <- <-].
  1-3: rewrite andb_false_r; cbn; lia.
  unfold verify_backup_code. destruct (user_settings m !! ch_user_id ch) as [s|] eqn:Hs; [|rewrite andb_false_r; cbn; lia].
  case_bool_decide as Hin; [|rewrite andb_false_r; cbn; lia]. cbn [fst snd granted]. rewrite stored_set. cbn [backup_codes].
  case_bool_decide as Hu; [|cbn; lia]. subst u. unfold stored. rewrite Hs.
  rewrite (occurrences_remove c x _ Hin). cbn. by rewrite andb_true_r.
Qed.

Lemma stored_step u c m op : stored u c (mfa_op m op) + spends u c m op <= stored u c m + issues u c m op.
Proof.
  assert (forall l, 0 <= occurrences c l) as Hocc by (intros; unfold occurrences; lia).
  assert (forall m, 0 <= stored u c m) as Hpos by (intros m'; unfold stored; case_match; [apply Hocc|lia]).
  unfold spends, issues. destruct op as [random u'|random u'|i u' meth|now secs id x|s|now]; cbn [mfa_op].
  - unfold generate_totp_secret. cbn [fst]. rewrite stored_set. cbn [backup_codes]. case_bool_decide; [|lia]. subst.
    unfold stored. destruct (user_settings m !! u); apply Z.le_refl.
  - unfold generate_backup_codes. destruct (mapM backup_code random) as [codes| | |]; cbn [fst];
      [|destruct (bool_decide (u' = u)); lia..].
    specialize (Hocc codes). destruct (user_settings m !! u') as [s|]; [|destruct (bool_decide (u' = u)); lia].
    rewrite stored_set. cbn [backup_codes]. specialize (Hpos m). case_bool_decide; lia.
  - apply (create_challenge_cases i u' meth m (fun m' => stored u c m' + _ <= _)); [lia|]. intros ch _.
    rewrite stored_challenges. lia.
  - apply verify_challenge_cases; cbn [fst snd].
    + intros ->. lia.
    + intros ch -> _. rewrite stored_challenges. cbn. rewrite andb_false_r. lia.
    + intros ch m2 r -> _ _ Hc Hr. rewrite (stored_check_code u c _ _ _ _ _ _ Hc), stored_challenges.
      repeat case_if; lia.
    + intros ch m2 -> _ _ Hc. rewrite stored_last_used, stored_challenges, (stored_check_code u c _ _ _ _ _ _ Hc), stored_challenges.
      repeat case_if; lia.
  - unfold update_user_settings. rewrite stored_set. specialize (Hpos m). case_bool_decide; lia.
  - unfold cleanup_expired_challenges. rewrite stored_challenges. lia.
Qed.

(** Claim C35: a user passes challenges with a backup code at most as often as
    the code was given out to the user, whatever challenges are made and in
    whatever order they are answered. *)
Theorem backup_codes_spent_once (c : MfaConfig) (ops : list MOp) (u x : string) :
  mfa_sum (spends u x) (mfa_manager_new c) ops <= mfa_sum (issues u x) (mfa_manager_new c) ops.
Proof.
  pose proof (mfa_sum_potential (stored u x) (spends u x) (issues u x) (mfa_manager_new c) ops) as Hsum.
  apply Hsum; [|apply stored_step]. intros m. unfold stored, occurrences. case_match; lia.
Qed.

(** *** What a passed challenge proves *)

(** Every challenge in the table was made by a call, with its clock and its
    digits. *)
Definition made_by (ops : list MOp) (id : string) (ch : MfaChallenge) : Prop :=
  exists i, MCreate i (ch_user_id ch) (method ch) ∈ ops /\ id = challenge_name (ch_user_id ch) (in_uuid i) /\
    ch_expires_at ch = in_now i + 300 * 10 ^ 9 /\
    (method ch = Sms \/ method ch = Email -> code ch = Some (digits_text (in_digits i))).

Definition all_made (ops : list MOp) (m : MfaManager) : Prop :=
  forall id ch, active_challenges m !! id = Some ch -> made_by ops id ch.

Lemma all_made_step ops m op : op ∈ ops -> all_made ops m -> all_made ops (mfa_op m op).
Proof.
  intros Hin Hm id ch. destruct op as [random u|random u|i u meth|now secs id' c|s|now]; cbn [mfa_op].
  - apply Hm.
  - pose proof (settings_ops_challenges m (MCodes random u)) as E. cbn [mfa_op] in E. rewrite E. apply Hm.
  - apply (create_challenge_cases i u meth m (fun m' => active_challenges m' !! id = Some ch -> _)); [apply Hm|].
    intros ch' Hch. rewrite entry_insert. case_bool_decide as Hid; [|apply Hm]. intros [= <-].
    apply make_challenge_inv in Hch as (Hid' & Hu & Hmeth & _ & _ & He & Hc). subst id.
    exists i. rewrite Hid', Hu, Hmeth. by rewrite He.
  - rewrite verify_entry. case_bool_decide; [|apply Hm]. subst id'.
    destruct (active_challenges m !! id) as [ch0|] eqn:H0'; [|done]. case_if; [done|]. intros [= <-].
    apply (Hm _ _ H0').
  - apply Hm.
  - destruct (cleanup_entry now m id) as [->| ->]; [done|apply Hm].
Qed.

Lemma all_made_run c ops : all_made ops (mfa_run ops (mfa_manager_new c)).
Proof.
  apply (foldl_keeps (all_made ops)); [intros; by apply all_made_step|]. intros id ch. cbn. by rewrite lookup_empty.
Qed.

(** A challenge that is passed was made, by a call for its user and
    method no more than five minutes before, and the code is the right one: the
    digits that were sent, the user's current time-based code, or a backup code
    the user held. *)
Theorem passed_challenge_sound (c : MfaConfig) (ops : list MOp) (now secs : Z) (id x : string) :
  let m := mfa_run ops (mfa_manager_new c) in
  (verify_challenge now secs id x m).2 = Ok true ->
  exists i u meth, MCreate i u meth ∈ ops /\ id = challenge_name u (in_uuid i) /\ now <= in_now i + 300 * 10 ^ 9 /\
    match meth with
    | Sms | Email => x = digits_text (in_digits i)
    | Totp => exists s secret, user_settings m !! u = Some s /\ totp_secret s = Some secret /\ x = totp secret secs
    | BackupCode => exists s, user_settings m !! u = Some s /\ x ∈ backup_codes s
    end.
Proof.
  intros m. apply verify_challenge_cases; cbn [snd]; try done. intros ch m2 Hch Hnow _ Hcheck _.
  destruct (all_made_run c ops id ch Hch) as (i & Hin & Hid & He & Hcode).
  exists i, (ch_user_id ch), (method ch). split_and!; [done|done|lia|].
  unfold check_code in Hcheck. destruct (method ch); cbn in Hcheck.
  - injection Hcheck as _ Hv. unfold verify_totp in Hv. apply bind_Ok_inv in Hv as (s & Hs & Hv). cbn in Hs.
    destruct (user_settings m !! ch_user_id ch) as [s'|]; [|done]. injection Hs as <-.
    destruct (totp_secret s') as [secret|] eqn:Hsec; [|done]. injection Hv as Hv. apply bool_decide_eq_true in Hv.
    by exists s', secret.
  - injection Hcheck as _ Hv. apply bool_decide_eq_true in Hv. rewrite Hcode in Hv by auto. congruence.
  - injection Hcheck as _ Hv. apply bool_decide_eq_true in Hv. rewrite Hcode in Hv by auto. congruence.
  - injection Hcheck as _ Hv. unfold verify_backup_code in Hv. cbn in Hv.
    destruct (user_settings m !! ch_user_id ch) as [s'|]; [|done]. case_bool_decide; [|done]. eauto.
Qed.

(** The three attempts are of a challenge, not of a user: in any state, after
    any number of failures and whatever methods the configuration and the user
    enabled, a new challenge compares one more guess with the time-based code,
    and the same code passes again. *)
Theorem totp_guesses_unlimited (m : MfaManager) (u secret uuid x : string) (s : UserMfaSettings) (now secs : Z) (audit : bool) :
  user_settings m !! u = Some s -> totp_secret s = Some secret -> (now + 300 * 10 ^ 9) / 10 ^ 9 < 2 ^ 63 ->
  let i := mkChallengeInput uuid now [] audit in
  let r := create_challenge i u Totp m in
  r.2 = Ok (challenge_name u uuid) /\
  (verify_challenge now secs (challenge_name u uuid) x r.1).2 = Ok (bool_decide (totp secret secs = x)).
Proof.
  intros Hs Hsec Hmax i r.
  assert (r = (set_challenges <[challenge_name u uuid := mkMfaChallenge u (challenge_name u uuid) Totp None (now + 300 * 10 ^ 9) 0 3]> m,
               Ok (challenge_name u uuid))) as ->.
  { unfold r, create_challenge, make_challenge, instant_plus_secs. cbn [in_now i]. by rewrite (proj2 (Z.ltb_lt _ _) Hmax). }
  cbn [fst snd]. split; [done|]. unfold verify_challenge, verify_challenge_with. rewrite entry_insert, bool_decide_true by done.
  cbn [ch_expires_at max_attempts attempts]. rewrite (proj2 (Z.ltb_ge _ _)) by lia.
  cbn [Z.leb Z.compare]. unfold check_code, verify_totp. cbn. rewrite Hs. cbn. rewrite Hsec. cbn. by case_bool_decide.
Qed.

(** Backup codes have the documented form: four pairs of digits. *)
Lemma fmt_digit d : 0 <= d < 10 -> exists c, fmt_dec d = String c EmptyString.
Proof.
  intros Hd. assert (d = 0 \/ d = 1 \/ d = 2 \/ d = 3 \/ d = 4 \/ d = 5 \/ d = 6 \/ d = 7 \/ d = 8 \/ d = 9) as Hcases by lia.
  destruct Hcases as [->|[->|[->|[->|[->|[->|[->|[->|[->| ->]]]]]]]]]; by eexists.
Qed.

Theorem backup_code_form (d1 d2 d3 d4 d5 d6 d7 d8 : Z) :
  Forall (fun d => 0 <= d < 10) [d1; d2; d3; d4; d5; d6; d7; d8] ->
  backup_code [d1; d2; d3; d4; d5; d6; d7; d8] =
    Ok (fmt_dec d1 ++ fmt_dec d2 ++ "-" ++ fmt_dec d3 ++ fmt_dec d4 ++ "-" ++
        fmt_dec d5 ++ fmt_dec d6 ++ "-" ++ fmt_dec d7 ++ fmt_dec d8)%string.
Proof.
  rewrite !Forall_cons. intros (H1' & H2' & H3' & H4' & H5' & H6' & H7' & H8' & _).
  destruct (fmt_digit d1 H1') as [c1 E1], (fmt_digit d2 H2') as [c2 E2], (fmt_digit d3 H3') as [c3 E3],
    (fmt_digit d4 H4') as [c4 E4], (fmt_digit d5 H5') as [c5 E5], (fmt_digit d6 H6') as [c6 E6],
    (fmt_digit d7 H7') as [c7 E7], (fmt_digit d8 H8') as [c8 E8].
  unfold backup_code, digits_text. cbn [fmap list_fmap]. rewrite E1, E2, E3, E4, E5, E6, E7, E8. reflexivity.
Qed.

End Manager.

(** ** Running the model *)

Section Demo.

#[local] Instance demo_crates : MfaCrates :=
  {| base32_encode b := hex_encode b; url_encode s := s; totp secret secs := fmt_dec (secs / 30) |}.

Definition demo_settings : UserMfaSettings :=
  mkUserMfaSettings "ann" None (Some "555") None ["11-22-33-44"]%string [BackupCode] None.

Definition demo_history : list MOp :=
  [MUpdate demo_settings; MCreate (mkChallengeInput "x" 0 [4; 2; 0; 0; 0; 7] true) "ann" Sms].

Lemma passed_challenge_sound_witness :
  exists i u meth, MCreate i u meth ∈ demo_history /\ "mfa-ann-x"%string = challenge_name u (in_uuid i) /\
    5 <= in_now i + 300 * 10 ^ 9 /\
    match meth with
    | Sms | Email => "420007"%string = digits_text (in_digits i)
    | Totp => exists s secret, user_settings (mfa_run demo_history (mfa_manager_new mfa_config_default)) !! u = Some s /\
        totp_secret s = Some secret /\ "420007"%string = totp secret 7
    | BackupCode => exists s, user_settings (mfa_run demo_history (mfa_manager_new mfa_config_default)) !! u = Some s /\
        "420007"%string ∈ backup_codes s
    end.
Proof. apply (passed_challenge_sound mfa_config_default demo_history 5 7 "mfa-ann-x" "420007"). vm_compute. reflexivity. Defined.

(** A wrong guess, another, the right code, and the challenge is gone; a backup
    code passes once. *)
Example mfa_demo_run :
  let m := mfa_run demo_history (mfa_manager_new mfa_config_default) in
  let m1 := (verify_challenge 5 7 "mfa-ann-x" "000000" m).1 in
  let r := verify_challenge 5 7 "mfa-ann-x" "420007" m1 in
  r.2 = Ok true /\ (verify_challenge 5 7 "mfa-ann-x" "420007" r.1).2 = Err ChallengeNotFound.
Proof. cbn zeta. split; vm_compute; reflexivity. Qed.

Example mfa_demo_backup :
  let b u := MCreate (mkChallengeInput u 0 [] true) "ann" BackupCode in
  let m := mfa_run (demo_history ++ [b "p"; b "q"]%string) (mfa_manager_new mfa_config_default) in
  let r := verify_challenge 5 7 "mfa-ann-p" "11-22-33-44" m in
  r.2 = Ok true /\ (verify_challenge 5 7 "mfa-ann-q" "11-22-33-44" r.1).2 = Ok false.
Proof. cbn zeta. split; vm_compute; reflexivity. Qed.

End Demo.
