(* ===== verification/Shun.v ===== *)
(** * Suppression of syslog events ([src/shun.rs], [src/http_server/shun.rs])

    Operators keep rules that drop matching events or let a number of them
    through per minute.  The rules are nodes of the graph database; an engine
    holds the compiled ones, a token bucket per rate limit and the counts of
    what was suppressed.  The handlers of the HTTP server change the nodes and
    reload the engine.  Regular expressions are another crate. *)

From Stdlib Require Import ZArith Lia ZifyBool.
From stdpp Require Import base numbers list option strings gmap fin_maps sorting.
From S2P Require Import Prelude RustStd HashMaps Jsonl Text.

Local Open Scope Z_scope.

(** ** Rules *)

Inductive ShunScope := ScopeDevice | ScopeGlobal.
Inductive ShunMatchType := Substring | MatchRegex | FactType.
Inductive ShunAction := Drop | RateLimit.

#[global] Instance shun_action_eq_dec : EqDecision ShunAction.
Proof. solve_decision. Defined.

Definition scope_as_str (s : ShunScope) : string := match s with ScopeDevice => "device" | ScopeGlobal => "global" end.

Definition match_as_str (m : ShunMatchType) : string :=
  match m with Substring => "substring" | MatchRegex => "regex" | FactType => "fact_type" end.

Definition action_as_str (a : ShunAction) : string := match a with Drop => "drop" | RateLimit => "rate_limit" end.

(** [s.trim().to_ascii_lowercase()] *)
Definition normal_name (s : string) : string := to_ascii_lowercase (trim_text s).

Definition scope_from_str (s : string) : ShunScope :=
  if bool_decide (normal_name s = "device"%string) then ScopeDevice else ScopeGlobal.

Definition match_from_str (s : string) : ShunMatchType :=
  let n := normal_name s in
  if bool_decide (n = "regex"%string) then MatchRegex
  else if bool_decide (n = "fact_type"%string) then FactType else Substring.

Definition action_from_str (s : string) : ShunAction :=
  if bool_decide (normal_name s = "rate_limit"%string) then RateLimit else Drop.

Record ShunRule := mkShunRule {
  id : string;
  scope_type : string;
  scope_value : string;
  match_type : string;
  match_value : string;
  action : string;
  rate_limit_per_min : Z;
  expires_at_ns : Z;
  created_by : string;
  created_at_ns : Z;
  enabled : bool;
}.

Definition new_drop (uuid : string) (now : Z) (scope scope_val kind value : string) (expires : Z) (by_ : string) : ShunRule :=
  mkShunRule uuid scope scope_val kind value "drop" 0 expires by_ now true.

(** [regex] *)
Class RegexCrate := {
  Regex : Type;
  regex_new : string -> option Regex;
  regex_is_match : Regex -> string -> bool;
}.

(** ** Token buckets

    The tokens are an [f64]; they start from an integer, and one is subtracted
    at a time, so they are always an integer that an [f64] holds.
    [f64_round] is the nearest such integer, ties to even. *)

Definition f64_round (v : Z) : Z :=
  if v <? 2 ^ 53 then v
  else let u := 2 ^ (Z.log2 v - 52) in
       let q := v / u in let r := v mod u in
       if (2 * r <? u) || ((2 * r =? u) && Z.even q) then q * u else (q + 1) * u.

Record TokenBucket := mkTokenBucket { tokens : Z; capacity : Z; last_refill : Z }.

Definition bucket_new (per_min now : Z) : TokenBucket :=
  let cap := f64_round (Z.max per_min 1) in mkTokenBucket cap cap now.

(** [elapsed] and the instant stored by a refill are two readings of the clock. *)
Definition try_consume (now refill : Z) (b : TokenBucket) : TokenBucket * bool :=
  let b := if 60 * 10 ^ 9 <=? now - last_refill b then mkTokenBucket (capacity b) (capacity b) refill else b in
  if 1 <=? tokens b then (mkTokenBucket (f64_round (tokens b - 1)) (capacity b) (last_refill b), true)
  else (b, false).

Inductive ShunOutcome := Pass | Dropped (rule_id : string) | RateLimited (rule_id : string).

(** ** The engine *)

Section Engine.
Context `{RegexCrate}.

Record CompiledRule := mkCompiledRule { rule : ShunRule; regex : option Regex }.

Record ShunEngine := mkShunEngine {
  rules : list CompiledRule;
  buckets : gmap string TokenBucket;
  shunned_counts : gmap string Z;
}.

Definition engine_new : ShunEngine := mkShunEngine [] ∅ ∅.

Definition compile (r : ShunRule) : CompiledRule :=
  mkCompiledRule r (if bool_decide (match_type r = "regex"%string) then regex_new (match_value r) else None).

Definition live (now : Z) (r : ShunRule) : bool := enabled r && ((expires_at_ns r =? 0) || (now <? expires_at_ns r)).

Definition usable (c : CompiledRule) : bool :=
  negb (bool_decide (match_type (rule c) = "regex"%string)) || match regex c with Some _ => true | None => false end.

Definition reload (now : Z) (rs : list ShunRule) (e : ShunEngine) : ShunEngine :=
  mkShunEngine (base.filter (fun c => usable c = true) (compile <$> base.filter (fun r => live now r = true) rs))
    (buckets e) (shunned_counts e).

(** An event: the address of the device, the message and the facts found in it. *)
Record SyslogInput := mkSyslogInput { device_address : string; message : string; fact_types : list string }.

Definition in_scope (r : ShunRule) (x : SyslogInput) : bool :=
  negb (bool_decide (scope_type r = "device"%string) && negb (bool_decide (scope_value r = ""%string)) &&
        negb (bool_decide (scope_value r = device_address x))).

Definition matched (c : CompiledRule) (x : SyslogInput) : bool :=
  let r := rule c in
  if bool_decide (match_type r = "substring"%string) then text_contains (match_value r) (message x)
  else if bool_decide (match_type r = "regex"%string) then
    match regex c with Some re => regex_is_match re (message x) | None => false end
  else if bool_decide (match_type r = "fact_type"%string) then bool_decide (match_value r ∈ fact_types x)
  else false.

(** The counter is a [u64]. *)
Definition record_shun `{BuildProfile} (rid : string) (e : ShunEngine) : Outcome Empty_set ShunEngine :=
  n ← checked_width 64 (default 0 (shunned_counts e !! rid) + 1);
  Ok (mkShunEngine (rules e) (buckets e) (<[rid := n]> (shunned_counts e))).

(** [now] and [refill]: the readings of the bucket's clock.  A new bucket is
    dated by a reading of its own. *)
Record Clocks := mkClocks { c_new : Z; c_now : Z; c_refill : Z }.

Definition apply_action `{BuildProfile} (t : Clocks) (r : ShunRule) (e : ShunEngine) :
  Outcome Empty_set (ShunEngine * ShunOutcome) :=
  match action_from_str (action r) with
  | Drop => e ← record_shun (id r) e; Ok (e, Dropped (id r))
  | RateLimit =>
      let b := default (bucket_new (rate_limit_per_min r) (c_new t)) (buckets e !! id r) in
      let ba := try_consume (c_now t) (c_refill t) b in
      let e1 := mkShunEngine (rules e) (<[id r := ba.1]> (buckets e)) (shunned_counts e) in
      if ba.2 then Ok (e1, Pass) else e2 ← record_shun (id r) e1; Ok (e2, RateLimited (id r))
  end.

Fixpoint evaluate_rules `{BuildProfile} (t : Clocks) (x : SyslogInput) (cs : list CompiledRule) (e : ShunEngine) :
  Outcome Empty_set (ShunEngine * ShunOutcome) :=
  match cs with
  | [] => Ok (e, Pass)
  | c :: cs =>
      if negb (in_scope (rule c) x) then evaluate_rules t x cs e
      else if negb (matched c x) then evaluate_rules t x cs e
      else apply_action t (rule c) e
  end.

Definition evaluate `{BuildProfile} (t : Clocks) (x : SyslogInput) (e : ShunEngine) :
  Outcome Empty_set (ShunEngine * ShunOutcome) := evaluate_rules t x (rules e) e.

Definition stats (e : ShunEngine) : gmap string Z := shunned_counts e.

(** ** The handlers

    The nodes of the database are kept by identifier (the statements [MERGE] on
    it); a statement may fail.  Rules are listed newest first, rules of the same
    age in an order of the database's own. *)

Record ShunState := mkShunState { store : gmap string ShunRule; shun_engine : option ShunEngine }.

Record CreateShunRuleRequest := mkCreateShunRuleRequest {
  req_scope_type : string;
  req_scope_value : string;
  req_match_type : string;
  req_match_value : string;
  req_action : string;
  req_rate_limit_per_min : Z;
  req_expires_at_ns : Z;
  req_created_by : string;
}.

(** What [serde] fills in for fields that are left out. *)
Definition default_scope_type : string := "global".
Definition default_match_type : string := "substring".
Definition default_action : string := "drop".
Definition default_created_by : string := "api".

Inductive ShunActionResponse := ActionOk | ActionFailed (error : string).

Section Handlers.
Context `{HashOrder, BuildProfile}.

Definition newer (r r' : ShunRule) : Prop := created_at_ns r' <= created_at_ns r.

#[global] Instance newer_dec r r' : Decision (newer r r').
Proof. unfold newer. apply _. Defined.

(** Which statements of a call succeed: the first listing, the write, the
    listing of the reload. *)
Record Db := mkDb { db_list : bool; db_write : bool; db_relist : bool }.

Definition sorted_rules (s : gmap string ShunRule) : list ShunRule := merge_sort newer (hash_vals s).

Definition list_shun_rules (ok : bool) (s : gmap string ShunRule) : option (list ShunRule) :=
  if ok then Some (sorted_rules s) else None.

Definition upsert_shun_rule (ok : bool) (r : ShunRule) (s : gmap string ShunRule) : option (gmap string ShunRule) :=
  if ok then Some (<[id r := r]> s) else None.

Definition delete_shun_rule (ok : bool) (rid : string) (s : gmap string ShunRule) : option (gmap string ShunRule * bool) :=
  if ok then Some (match s !! rid with Some _ => (delete rid s, true) | None => (s, false) end) else None.

(** "Reload the in-memory engine": a failed listing leaves it as it is. *)
Definition reload_engine (db : Db) (now : Z) (st : ShunState) : ShunState :=
  match shun_engine st, list_shun_rules (db_relist db) (store st) with
  | Some e, Some rs => mkShunState (store st) (Some (reload now rs e))
  | _, _ => st
  end.

Definition list_shun_rules_handler (db : Db) (st : ShunState) : option (list ShunRule) :=
  list_shun_rules (db_list db) (store st).

(** [now_db]: the clock of the handler, [now]: that of the reload. *)
Definition create_shun_rule_handler (db : Db) (uuid : string) (now_db now : Z) (req : CreateShunRuleRequest) (st : ShunState) :
  ShunState * option ShunRule :=
  let r := mkShunRule uuid (req_scope_type req) (req_scope_value req) (req_match_type req) (req_match_value req)
             (req_action req) (req_rate_limit_per_min req) (req_expires_at_ns req) (req_created_by req) now_db true in
  match upsert_shun_rule (db_write db) r (store st) with
  | Some s => (reload_engine db now (mkShunState s (shun_engine st)), Some r)
  | None => (st, None)
  end.

Definition disabled (r : ShunRule) : ShunRule :=
  mkShunRule (id r) (scope_type r) (scope_value r) (match_type r) (match_value r) (action r) (rate_limit_per_min r)
    (expires_at_ns r) (created_by r) (created_at_ns r) false.

Definition disable_shun_rule_handler (db : Db) (now : Z) (rid : string) (st : ShunState) : ShunState * ShunActionResponse :=
  match list_shun_rules (db_list db) (store st) with
  | None => (st, ActionFailed "database error")
  | Some rs =>
      match List.find (fun r => bool_decide (id r = rid)) rs with
      | None => (st, ActionFailed ("rule " ++ rid ++ " not found"))
      | Some r =>
          match upsert_shun_rule (db_write db) (disabled r) (store st) with
          | None => (st, ActionFailed "database error")
          | Some s => (reload_engine db now (mkShunState s (shun_engine st)), ActionOk)
          end
      end
  end.

Definition delete_shun_rule_handler (db : Db) (now : Z) (rid : string) (st : ShunState) : ShunState * ShunActionResponse :=
  match delete_shun_rule (db_write db) rid (store st) with
  | Some (s, found) =>
      if negb found then (mkShunState s (shun_engine st), ActionFailed "rule not found")
      else (reload_engine db now (mkShunState s (shun_engine st)), ActionOk)
  | None => (st, ActionFailed "database error")
  end.

Definition shun_stats_handler (st : ShunState) : gmap string Z :=
  match shun_engine st with Some e => stats e | None => ∅ end.

(** ** Evaluation is first match *)

Definition applies (x : SyslogInput) (c : CompiledRule) : bool := in_scope (rule c) x && matched c x.

Lemma evaluate_first_match t x e :
  evaluate t x e = match List.find (applies x) (rules e) with
                   | Some c => apply_action t (rule c) e
                   | None => Ok (e, Pass)
                   end.
Proof.
  unfold evaluate. generalize (rules e) as cs. induction cs as [|c cs IH]; cbn; [done|].
  unfold applies at 1. by destruct (in_scope (rule c) x), (matched c x).
Qed.

(** The rule an outcome names is the one that applied. *)
Lemma apply_action_names t r e e' rid :
  apply_action t r e = Ok (e', Dropped rid) \/ apply_action t r e = Ok (e', RateLimited rid) -> rid = id r.
Proof.
  unfold apply_action. destruct (action_from_str (action r)).
  - intros [Hr|Hr]; apply bind_Ok_inv in Hr as (e1 & _ & Hr); congruence.
  - case_if; [naive_solver|]. intros [Hr|Hr]; apply bind_Ok_inv in Hr as (e1 & _ & Hr); congruence.
Qed.

Lemma apply_action_rules t r e e' o : apply_action t r e = Ok (e', o) -> rules e' = rules e.
Proof.
  unfold apply_action, record_shun. destruct (action_from_str (action r)).
  - intros Hr. apply bind_Ok_inv in Hr as (e1 & He & [= <- <-]). by apply bind_Ok_inv in He as (n & _ & [= <-]).
  - case_if; [by intros [= <- <-]|]. intros Hr. apply bind_Ok_inv in Hr as (e1 & He & [= <- <-]).
    by apply bind_Ok_inv in He as (n & _ & [= <-]).
Qed.

(** ** The engine follows the store *)

Lemma elem_of_sorted_rules s r : r ∈ sorted_rules s <-> exists k, s !! k = Some r.
Proof. unfold sorted_rules. by rewrite merge_sort_Permutation, elem_of_hash_vals. Qed.

Lemma elem_of_reload now rs e c :
  c ∈ rules (reload now rs e) <-> exists r, r ∈ rs /\ live now r = true /\ c = compile r /\ usable c = true.
Proof.
  cbn. rewrite list_elem_of_filter, list_elem_of_fmap. setoid_rewrite list_elem_of_filter. naive_solver.
Qed.

(** Every rule is stored under its own identifier. *)
Definition filed (s : gmap string ShunRule) : Prop := forall k r, s !! k = Some r -> id r = k.

Lemma filed_insert s r : filed s -> filed (<[id r := r]> s).
Proof. intros Hf k r'. rewrite lookup_insert_Some. intros [[<- <-]|[_ Hr]]; [done|by apply Hf]. Qed.

Lemma filed_delete s k : filed s -> filed (delete k s).
Proof. intros Hf k' r. rewrite lookup_delete_Some. intros [_ Hr]. by apply Hf. Qed.

(** The engine holds exactly the rules of the store that were live. *)
Definition in_sync (now : Z) (st : ShunState) : Prop :=
  match shun_engine st with
  | Some e => rules e = base.filter (fun c => usable c = true)
                          (compile <$> base.filter (fun r => live now r = true) (sorted_rules (store st)))
  | None => True
  end.

Lemma reload_engine_sync db now st : db_relist db = true -> in_sync now (reload_engine db now st).
Proof.
  intros Hdb. unfold in_sync, reload_engine, list_shun_rules. rewrite Hdb. by destruct (shun_engine st) eqn:He; cbn; rewrite ?He.
Qed.

Lemma store_reload_engine db now st : store (reload_engine db now st) = store st.
Proof. unfold reload_engine. by repeat case_match. Qed.

(** Reloading leaves the buckets and the counts. *)
Lemma reload_engine_keeps db now st e :
  shun_engine st = Some e ->
  exists e', shun_engine (reload_engine db now st) = Some e' /\ buckets e' = buckets e /\ shunned_counts e' = shunned_counts e.
Proof. intros He. unfold reload_engine. rewrite He. case_match; cbn; eauto. Qed.

(** ** Runs of an engine: events and reloads in some order *)

Inductive EngineOp := Event (t : Clocks) (x : SyslogInput) | Reload (now : Z) (rs : list ShunRule).

(** The outcomes, one per event, with the rule that decided it. *)
Fixpoint engine_run (ops : list EngineOp) (e : ShunEngine) : Outcome Empty_set (list (option string * ShunOutcome) * ShunEngine) :=
  match ops with
  | [] => Ok ([], e)
  | Event t x :: ops =>
      eo ← evaluate t x e;
      let by_ := (fun c => id (rule c)) <$> List.find (applies x) (rules e) in
      r ← engine_run ops eo.1;
      Ok ((by_, eo.2) :: r.1, r.2)
  | Reload now rs :: ops => engine_run ops (reload now rs e)
  end.

Definition is_event (op : EngineOp) : Prop := match op with Event _ _ => True | _ => False end.

Lemma evaluate_rules_kept t x e e' o : evaluate t x e = Ok (e', o) -> rules e' = rules e.
Proof.
  rewrite evaluate_first_match. case_match; [apply apply_action_rules|]. by intros [= <- _].
Qed.

Lemma engine_run_rules_only rid ops e r :
  Forall is_event ops -> (forall c, c ∈ rules e -> id (rule c) <> rid) -> engine_run ops e = Ok r ->
  Forall (fun bo => bo.2 <> Dropped rid /\ bo.2 <> RateLimited rid) r.1.
Proof.
  intros Hev. revert e r. induction Hev as [|op ops Hop Hev IH]; intros e r Hno Hr; cbn in Hr.
  - injection Hr as <-. constructor.
  - destruct op as [t x|]; [|done]. apply bind_Ok_inv in Hr as ([e1 o] & He & Hr). cbn in Hr.
    apply bind_Ok_inv in Hr as (r1 & Hr1 & [= <-]). cbn.
    constructor; [|eapply IH; [|done]; cbn; by rewrite (evaluate_rules_kept _ _ _ _ _ He)].
    rewrite evaluate_first_match in He. destruct (List.find (applies x) (rules e)) as [c|] eqn:Hf; [|by injection He as <- <-].
    apply find_some in Hf as [Hc _]. apply list_elem_of_In in Hc. specialize (Hno c Hc).
    cbn. split; intros ->; apply Hno; symmetry; eapply apply_action_names; eauto.
Qed.

(** Once an operator has disabled or deleted a rule, and the handler
    has reported success with the database answering, the engine holds exactly
    the live rules of the store, and no event is ever suppressed by that rule
    again before the next reload. *)
Theorem retired_rule_never_fires (db : Db) (now : Z) (rid : string) (st st' : ShunState) (e : ShunEngine)
    (ops : list EngineOp) (r : list (option string * ShunOutcome) * ShunEngine) :
  filed (store st) -> db_relist db = true ->
  disable_shun_rule_handler db now rid st = (st', ActionOk) \/ delete_shun_rule_handler db now rid st = (st', ActionOk) ->
  shun_engine st' = Some e -> Forall is_event ops -> engine_run ops e = Ok r ->
  in_sync now st' /\ Forall (fun bo => bo.2 <> Dropped rid /\ bo.2 <> RateLimited rid) r.1.
Proof.
  intros Hf Hdb Hh He Hops Hr.
  assert (in_sync now st' /\ forall r, r ∈ sorted_rules (store st') -> id r = rid -> enabled r = false) as [Hs Hno].
  { destruct Hh as [Hh|Hh].
    - unfold disable_shun_rule_handler in Hh. case_match; [|done].
      destruct (List.find _ l) as [r0|] eqn:Hfind; [|done]. unfold upsert_shun_rule in Hh. case_if; [|done].
      injection Hh as <-. split; [by apply reload_engine_sync|]. rewrite store_reload_engine. cbn.
      intros r' (k & Hk)%elem_of_sorted_rules Hid. apply find_some in Hfind as [_ Hr0%bool_decide_eq_true].
      pose proof (filed_insert _ (disabled r0) Hf _ _ Hk) as Hk'. cbn in Hk, Hk'. subst k. rewrite Hid, <- Hr0, lookup_insert_eq in Hk.
      by injection Hk as <-.
    - unfold delete_shun_rule_handler, delete_shun_rule in Hh. case_if; [|done]. destruct (store st !! rid) eqn:Hl; [|done].
      injection Hh as <-. split; [by apply reload_engine_sync|]. rewrite store_reload_engine. cbn.
      intros r' (k & Hk)%elem_of_sorted_rules Hid. pose proof (filed_delete _ rid Hf _ _ Hk) as Hk'. subst k.
      by rewrite Hid, lookup_delete_eq in Hk. }
  split; [done|]. eapply engine_run_rules_only; [done| |done]. intros c Hc Hid.
  unfold in_sync in Hs. rewrite He in Hs. rewrite Hs in Hc.
  apply list_elem_of_filter in Hc as [_ (r0 & -> & [Hlive Hr0]%list_elem_of_filter)%list_elem_of_fmap].
  cbn in Hid. unfold live in Hlive. by rewrite (Hno _ Hr0 Hid) in Hlive.
Qed.

(** ** Rate limits *)

(** An outcome that a rate limit with identifier [rid] let through. *)
Definition limited_pass (rid : string) (bo : option string * ShunOutcome) : Z :=
  match bo with (Some k, Pass) => if bool_decide (k = rid) then 1 else 0 | _ => 0 end.

Definition passes (rid : string) (l : list (option string * ShunOutcome)) : Z := foldr (fun bo n => limited_pass rid bo + n) 0 l.

(** Events within a minute of [t0], and limits of the rule up to [n]. *)
Definition in_window (rid : string) (t0 n : Z) (op : EngineOp) : Prop :=
  match op with
  | Event t _ => t0 <= c_new t /\ t0 <= c_now t < t0 + 60 * 10 ^ 9 /\ c_now t <= c_refill t
  | Reload _ rs => Forall (fun r => id r = rid -> rate_limit_per_min r <= n) rs
  end.

Definition bucket_ok (n : Z) (b : TokenBucket) : Prop := 0 <= tokens b <= capacity b /\ capacity b <= n.

(** What the bucket can still give within the minute. *)
Definition pot (rid : string) (t0 n : Z) (e : ShunEngine) : Z :=
  match buckets e !! rid with
  | Some b => tokens b + (if t0 <=? last_refill b then 0 else capacity b)
  | None => n
  end.

Definition limits_ok (rid : string) (n : Z) (e : ShunEngine) : Prop :=
  (forall c, c ∈ rules e -> id (rule c) = rid -> rate_limit_per_min (rule c) <= n) /\
  (forall b, buckets e !! rid = Some b -> bucket_ok n b).

Lemma f64_round_small v : v < 2 ^ 53 -> f64_round v = v.
Proof. intros Hv. unfold f64_round. case_if; lia. Qed.

Lemma f64_round_top : f64_round (2 ^ 53) = 2 ^ 53.
Proof. reflexivity. Qed.

Lemma f64_round_exact v : v <= 2 ^ 53 -> f64_round v = v.
Proof. intros Hv. destruct (decide (v = 2 ^ 53)) as [->|Hne]; [apply f64_round_top|apply f64_round_small; lia]. Qed.

Lemma bucket_new_ok n per_min now :
  1 <= n -> n <= 2 ^ 53 -> per_min <= n -> bucket_ok n (bucket_new per_min now) /\ tokens (bucket_new per_min now) <= n.
Proof. intros. unfold bucket_new, bucket_ok. cbn. rewrite f64_round_exact by lia. lia. Qed.

(** One reading of a bucket within the minute. *)
Lemma try_consume_pot n t0 now refill b :
  n <= 2 ^ 53 -> bucket_ok n b -> t0 <= now < t0 + 60 * 10 ^ 9 -> now <= refill ->
  let r := try_consume now refill b in
  bucket_ok n r.1 /\
  tokens r.1 + (if t0 <=? last_refill r.1 then 0 else capacity r.1) + (if r.2 then 1 else 0) <=
  tokens b + (if t0 <=? last_refill b then 0 else capacity b).
Proof.
  intros Hn [Ht Hc] Hnow Hre. unfold try_consume.
  destruct (60 * 10 ^ 9 <=? now - last_refill b) eqn:Hel; cbn [tokens capacity last_refill].
  - assert (t0 <=? last_refill b = false) as -> by lia. assert (t0 <=? refill = true) as Hr by lia.
    case_if; unfold bucket_ok; cbn; rewrite ?f64_round_exact, ?Hr by lia; lia.
  - case_if; unfold bucket_ok; cbn; rewrite ?f64_round_exact by lia; lia.
Qed.

Lemma record_shun_inv rid e e' : record_shun rid e = Ok e' -> buckets e' = buckets e /\ rules e' = rules e.
Proof. unfold record_shun. intros Hr. by apply bind_Ok_inv in Hr as (n & _ & [= <-]). Qed.

(** What an applied rule does to the buckets. *)
Lemma apply_action_buckets t r e e' o :
  apply_action t r e = Ok (e', o) ->
  match action_from_str (action r) with
  | Drop => buckets e' = buckets e /\ o = Dropped (id r)
  | RateLimit =>
      let ba := try_consume (c_now t) (c_refill t) (default (bucket_new (rate_limit_per_min r) (c_new t)) (buckets e !! id r)) in
      buckets e' = <[id r := ba.1]> (buckets e) /\ o = if ba.2 then Pass else RateLimited (id r)
  end.
Proof.
  unfold apply_action. destruct (action_from_str (action r)).
  - intros Hr. apply bind_Ok_inv in Hr as (e1 & He%record_shun_inv & [= <- <-]). naive_solver.
  - cbn zeta. destruct (try_consume _ _ _) as [b []]; cbn; [by intros [= <- <-]|].
    intros Hr. apply bind_Ok_inv in Hr as (e1 & He%record_shun_inv & [= <- <-]). naive_solver.
Qed.

Lemma apply_action_pot rid t0 n t r e e' o :
  1 <= n -> n <= 2 ^ 53 -> limits_ok rid n e -> (id r = rid -> rate_limit_per_min r <= n) ->
  t0 <= c_new t /\ t0 <= c_now t < t0 + 60 * 10 ^ 9 /\ c_now t <= c_refill t ->
  apply_action t r e = Ok (e', o) ->
  limits_ok rid n e' /\ pot rid t0 n e' + limited_pass rid (Some (id r), o) <= pot rid t0 n e.
Proof.
  intros Hn1 Hn [Hrules Hb] Hr (Hnew & Hnow & Hre) Ha.
  pose proof (apply_action_rules _ _ _ _ _ Ha) as Hsame. apply apply_action_buckets in Ha. unfold limits_ok, pot. rewrite Hsame.
  destruct (action_from_str (action r)); cbn zeta in Ha; destruct Ha as [Hbk ->]; rewrite Hbk.
  { cbn. split; [done|]. lia. }
  destruct (decide (id r = rid)) as [Hid|Hid].
  - specialize (Hr Hid). rewrite Hid. rewrite lookup_insert_eq.
    set (b := default _ (buckets e !! rid)).
    assert (bucket_ok n b /\ tokens b + (if t0 <=? last_refill b then 0 else capacity b) <=
            match buckets e !! rid with Some b => tokens b + (if t0 <=? last_refill b then 0 else capacity b) | None => n end)
      as [Hok Hle].
    { unfold b. destruct (buckets e !! rid) as [b0|] eqn:Hb0; cbn [from_option id]; [split; [by apply Hb|apply Z.le_refl]|].
      destruct (bucket_new_ok n (rate_limit_per_min r) (c_new t)) as [? ?]; [lia..|]. split; [done|].
      cbn. cbn in *. rewrite (proj2 (Z.leb_le _ _)) by lia. lia. }
    destruct (try_consume_pot n t0 (c_now t) (c_refill t) b) as [Hok' Hpot]; [done..|]. cbn zeta in *.
    split; [split; [done|]; by intros b' [= <-]|].
    cbn. rewrite (bool_decide_true (rid = rid)) by done.
    destruct (try_consume (c_now t) (c_refill t) b) as [b1 []]; cbn in *; lia.
  - rewrite lookup_insert_ne by done. split; [done|].
    cbn. rewrite (bool_decide_false (id r = rid)) by done. case_if; lia.
Qed.

Lemma engine_run_pot rid t0 n ops e r :
  1 <= n -> n <= 2 ^ 53 -> limits_ok rid n e -> Forall (in_window rid t0 n) ops -> engine_run ops e = Ok r ->
  passes rid r.1 <= pot rid t0 n e.
Proof.
  intros Hn1 Hn Hok Hops. revert e r Hok. induction Hops as [|op ops Hop Hops IH]; intros e r Hok Hr; cbn in Hr.
  - injection Hr as <-. cbn. unfold pot. destruct Hok as [_ Hb].
    destruct (buckets e !! rid) as [b|]; [|lia]. specialize (Hb b eq_refl) as [? ?]. case_if; lia.
  - destruct op as [t x|now rs].
    + apply bind_Ok_inv in Hr as ([e1 o] & He & Hr). cbn in Hr. apply bind_Ok_inv in Hr as (r1 & Hr1 & [= <-]). cbn [fst passes foldr].
      change (foldr _ 0 r1.1) with (passes rid r1.1).
      rewrite evaluate_first_match in He. destruct (List.find (applies x) (rules e)) as [c|] eqn:Hf; cbn [fmap option_fmap option_map].
      * apply find_some in Hf as [Hc _]. apply list_elem_of_In in Hc.
        destruct (apply_action_pot rid t0 n t (rule c) e e1 o) as [Hok1 Hpot]; [done..|by apply Hok|done|done|].
        specialize (IH e1 r1 Hok1 Hr1). cbn [snd]. lia.
      * injection He as <- <-. specialize (IH e r1 Hok Hr1). cbn. lia.
    + apply (IH (reload now rs e)); [|done]. split; [|apply Hok].
      intros c (r0 & Hr0 & _ & -> & _)%elem_of_reload. cbn in *. rewrite Forall_forall in Hop. by apply Hop.
Qed.

(** A rate limit of [n] events per minute lets at most [2 * n] events
    through in any sixty seconds, whatever the events, the other rules and the
    reloads between; the buckets are refilled at the end of a minute, not
    gradually, so that bound is the exact one. *)
Theorem rate_limit_window (rid : string) (t0 n : Z) (ops : list EngineOp) (e : ShunEngine)
    (r : list (option string * ShunOutcome) * ShunEngine) :
  1 <= n -> n <= 2 ^ 53 -> limits_ok rid n e -> Forall (in_window rid t0 n) ops -> engine_run ops e = Ok r ->
  passes rid r.1 <= 2 * n.
Proof.
  intros Hn1 Hn Hok Hops Hr. etrans; [by eapply engine_run_pot|]. unfold pot. destruct Hok as [_ Hb].
  destruct (buckets e !! rid) as [b|]; [|lia]. specialize (Hb b eq_refl) as [? ?]. case_if; lia.
Qed.

(** ** What the engine does not do *)

(** The expiry is looked at by a reload only: whatever the time, an event that a
    loaded rule drops is dropped. *)
Theorem expired_rule_still_drops (now : Z) (r : ShunRule) (t : Clocks) (x : SyslogInput) (e : ShunEngine) :
  live now r = true -> usable (compile r) = true -> applies x (compile r) = true -> action_from_str (action r) = Drop ->
  default 0 (shunned_counts e !! id r) < 2 ^ 64 - 1 -> 0 <= default 0 (shunned_counts e !! id r) ->
  exists e', evaluate t x (reload now [r] e) = Ok (e', Dropped (id r)).
Proof.
  intros Hl Hu Ha Hact Hlt Hge. rewrite evaluate_first_match. cbn [rules reload].
  rewrite filter_cons, decide_True, filter_nil by done. cbn [fmap list_fmap].
  rewrite filter_cons, decide_True, filter_nil by done. cbn [List.find]. rewrite Ha.
  unfold apply_action. cbn [rule compile]. rewrite Hact. unfold record_shun. cbn [reload shunned_counts].
  unfold checked_width. rewrite (proj2 (Z.leb_le _ _)), (proj2 (Z.ltb_lt _ _)) by lia. cbn. eauto.
Qed.

(** A rate limit that has a token ends the evaluation: a rule after it that
    drops the event is not looked at. *)
Theorem rate_limit_shadows_drop (t : Clocks) (x : SyslogInput) (e : ShunEngine) (c : CompiledRule) (cs : list CompiledRule) :
  rules e = c :: cs -> applies x c = true -> action_from_str (action (rule c)) = RateLimit ->
  (try_consume (c_now t) (c_refill t)
     (default (bucket_new (rate_limit_per_min (rule c)) (c_new t)) (buckets e !! id (rule c)))).2 = true ->
  exists e', evaluate t x e = Ok (e', Pass).
Proof.
  intros He Ha Hact Hb. rewrite evaluate_first_match, He. cbn [List.find]. rewrite Ha. unfold apply_action. rewrite Hact, Hb. eauto.
Qed.

End Handlers.

End Engine.

(** ** Running the model *)

Section Demo.

(** Regular expressions that are literal texts. *)
#[local] Instance demo_regex : RegexCrate := {| Regex := string; regex_new s := Some s; regex_is_match re s := text_contains re s |}.
#[local] Instance demo_order : HashOrder := trie_order.
#[local] Instance demo_profile : BuildProfile := true.

Definition noise (rid act : string) (rate : Z) : ShunRule := mkShunRule rid "global" "" "substring" "noise" act rate 0 "test" 0 true.
Definition noisy : SyslogInput := mkSyslogInput "10.0.0.1" "noise message" [].
Definition at_secs (s : Z) : Clocks := mkClocks (s * 10 ^ 9) (s * 10 ^ 9) (s * 10 ^ 9).
Definition all_ok : Db := mkDb true true true.

Definition demo_state : ShunState :=
  mkShunState {["a"%string := noise "a" "drop" 0]} (Some (reload 5 [noise "a" "drop" 0] engine_new)).

Lemma retired_rule_never_fires_witness :
  in_sync 9 (disable_shun_rule_handler all_ok 9 "a" demo_state).1 /\
  Forall (fun bo => bo.2 <> Dropped "a" /\ bo.2 <> RateLimited "a") [(@None string, Pass)].
Proof.
  apply (retired_rule_never_fires all_ok 9 "a" demo_state (disable_shun_rule_handler all_ok 9 "a" demo_state).1
    (reload 9 [] engine_new) [Event (at_secs 1) noisy] ([(None, Pass)], reload 9 [] engine_new)).
  - intros k r. cbn. rewrite lookup_singleton_Some. by intros [<- <-].
  - reflexivity.
  - left. vm_compute. reflexivity.
  - vm_compute. reflexivity.
  - repeat constructor.
  - vm_compute. reflexivity.
Defined.

(** Two events of a rule for one per minute pass within two seconds. *)
Definition limited : ShunEngine :=
  mkShunEngine [compile (noise "a" "rate_limit" 1)] {["a"%string := mkTokenBucket 1 1 0]} ∅.

Definition limited_result : list (option string * ShunOutcome) * ShunEngine :=
  ([(Some "a"%string, Pass); (Some "a"%string, Pass)],
   mkShunEngine [compile (noise "a" "rate_limit" 1)] {["a"%string := mkTokenBucket 0 1 (60 * 10 ^ 9)]} ∅).

Lemma rate_limit_window_witness : passes "a" limited_result.1 <= 2 * 1 /\ passes "a" limited_result.1 = 2.
Proof.
  split; [|reflexivity].
  apply (rate_limit_window "a" (59 * 10 ^ 9) 1 [Event (at_secs 59) noisy; Event (at_secs 60) noisy] limited limited_result);
    [lia|lia| | |vm_compute; reflexivity].
  - split.
    + intros c Hc _. apply list_elem_of_singleton in Hc. subst c. cbn. lia.
    + intros b Hb. cbn in Hb. apply lookup_singleton_Some in Hb as [_ <-]. unfold bucket_ok. cbn. lia.
  - repeat constructor; cbn; lia.
Defined.

(** A bucket keeps the limit it was made with: raising the limit of the rule has
    no effect on a running engine. *)
Example raised_limit_ignored :
  let e := reload 5 [noise "a" "rate_limit" 100] limited in
  (fun r => r.1.*2) <$> engine_run [Event (at_secs 1) noisy; Event (at_secs 2) noisy] e = Ok [Pass; RateLimited "a"].
Proof. vm_compute. reflexivity. Qed.

(** Scopes are compared as written: a rule for the scope [Device] holds for all
    devices. *)
Example misspelt_scope_is_global :
  let r := mkShunRule "a" "Device" "10.9.9.9" "substring" "noise" "drop" 0 0 "test" 0 true in
  scope_from_str (scope_type r) = ScopeDevice /\
  (fun r => r.1.*2) <$> engine_run [Event (at_secs 1) noisy] (reload 5 [r] engine_new) = Ok [Dropped "a"].
Proof. split; vm_compute; reflexivity. Qed.

End Demo.
