(* ===== verification/Syslog.v ===== *)
(** * The syslog receiver ([src/signals/syslog.rs])

    Messages arrive in datagrams or on connections, framed by newlines or by
    octet counts (RFC 6587).  Each is parsed (RFC 5424 or the legacy form),
    archived, attributed to a managed device, searched for facts with the
    patterns of the operators, and published unless a rule of the operators
    suppresses it or the process sheds load. *)

From Stdlib Require Import ZArith Lia ZifyBool String Ascii.
From stdpp Require Import base numbers list option strings pretty gmap fin_maps.
From S2P Require Import Prelude RustStd Jsonl Text StreamBmp Shun.

Local Open Scope Z_scope.
Local Open Scope string_scope.

(** ** Events *)

Inductive SyslogCategory := Cat_Auth | Cat_Hardware | Cat_Software | Cat_Protocol | Cat_License | Cat_Custom.

#[global] Instance syslog_category_eq_dec : EqDecision SyslogCategory.
Proof. solve_decision. Defined.

Definition category_as_str (c : SyslogCategory) : string :=
  match c with
  | Cat_Auth => "auth" | Cat_Hardware => "hardware" | Cat_Software => "software"
  | Cat_Protocol => "protocol" | Cat_License => "license" | Cat_Custom => "custom"
  end.

Definition category_from_str (value : string) : option SyslogCategory :=
  let n := normal_name value in
  if bool_decide (n = "auth") then Some Cat_Auth
  else if bool_decide (n = "hardware") then Some Cat_Hardware
  else if bool_decide (n = "software") then Some Cat_Software
  else if bool_decide (n = "protocol") then Some Cat_Protocol
  else if bool_decide (n = "license") then Some Cat_License
  else if bool_decide (n = "custom") then Some Cat_Custom
  else None.

Record SyslogEvent := mkSyslogEvent {
  sy_timestamp_ns : Z;
  sy_priority : option Z;
  sy_facility : option Z;
  sy_severity : option Z;
  sy_hostname : string;
  sy_app_name : string;
  sy_proc_id : string;
  sy_msg_id : string;
  sy_category : SyslogCategory;
  sy_message : string;
  sy_raw : string;
  sy_transport : string;
  sy_peer_addr : string;
}.

(** ** Parsing *)

Definition parse_priority (raw : string) : option Z * string :=
  match strip_prefix "<" raw with
  | None => (None, raw)
  | Some after_lt =>
      match split_once ">"%char after_lt with
      | None => (None, raw)
      | Some (pri, rest) => (parse_unsigned 256 pri, rest)
      end
  end.

Definition normalise_nil (value : string) : string := if bool_decide (value = "-") then "" else value.

(** Host name, application, process, message identifier and message. *)
Definition Parsed : Type := string * string * string * string * string.

(** The message behind the header: what follows the structured data. *)
Definition message_of (structured tail : string) : string :=
  if starts_with "[" structured || bool_decide (structured = "-") then tail
  else if bool_decide (tail = "") then structured
  else structured ++ " " ++ tail.

Definition parse_rfc5424 (rest : string) : option Parsed :=
  match splitn 8 " "%char rest with
  | version :: _ :: hostname :: app :: proc :: msg :: tl =>
      if bool_decide (version = "1") then
        Some (normalise_nil hostname, normalise_nil app, normalise_nil proc, normalise_nil msg,
              message_of (default "" (tl !! 0%nat)) (default "" (tl !! 1%nat)))
      else None
  | _ => None
  end.

Definition join_words (l : list string) : string := String.concat " " l.

Definition parse_legacy (rest : string) : Parsed :=
  let tokens := split_whitespace rest in
  match tokens with
  | month :: day :: time :: host :: m :: ms =>
      if bool_decide (String.length month = 3%nat) && bool_decide (is_Some (parse_unsigned 256 day)) && text_contains ":" time
      then (host, "", "", "", join_words (m :: ms))
      else (month, "", "", "", join_words (day :: time :: host :: m :: ms))
  | host :: m :: ms => (host, "", "", "", join_words (m :: ms))
  | _ => ("", "", "", "", rest)
  end.

Definition contains_any (text : string) (needles : list string) : bool := existsb (fun n => text_contains n text) needles.

Definition classify_message (message : string) : SyslogCategory :=
  let text := to_ascii_lowercase message in
  if contains_any text ["auth"; "login failed"; "failed password"; "aaa"; "ssh"] then Cat_Auth
  else if contains_any text ["fan"; "psu"; "power"; "temperature"; "thermal"; "fru"] then Cat_Hardware
  else if contains_any text ["crash"; "panic"; "core"; "process restart"; "restarted"] then Cat_Software
  else if contains_any text ["bgp"; "bfd"; "ospf"; "isis"; "is-is"; "lldp"; "stp"] then Cat_Protocol
  else if contains_any text ["license"; "licence"; "subscription expired"] then Cat_License
  else Cat_Custom.

Definition parse_syslog (raw transport peer_addr : string) (timestamp_ns : Z) : SyslogEvent :=
  let '(priority, rest) := parse_priority raw in
  let '(hostname, app, proc, msg, message) :=
    if starts_with "1 " rest then default (parse_legacy rest) (parse_rfc5424 rest) else parse_legacy rest in
  mkSyslogEvent timestamp_ns priority ((fun p => p / 8) <$> priority) ((fun p => p mod 8) <$> priority)
    hostname app proc msg (classify_message message) message raw transport peer_addr.

(** ** Targets *)

Definition syslog_target_map (targets : list TargetConfig) : list TargetEntry :=
  omap (fun t =>
    hostname ← trim_text <$> tc_hostname t;
    if bool_decide (hostname = "") then None
    else Some (mkTargetEntry (tc_address t) [] (to_ascii_lowercase hostname) (default "" (tc_vendor t))
                 (default "" (tc_role t)) (default "" (tc_site t)))) targets.

Definition syslog_resolve (entries : list TargetEntry) (event : SyslogEvent) : ResolvedTarget :=
  let hostname := to_ascii_lowercase (trim_text (sy_hostname event)) in
  match List.find (fun e => bool_decide (te_hostname e = hostname)) entries with
  | Some e => mkResolved (strip_port (te_address e)) (te_hostname e) (te_vendor e) (te_role e) (te_site e)
  | None => mkResolved (strip_port (if bool_decide (hostname = "") then sy_peer_addr event else sy_hostname event))
              (sy_hostname event) "" "" ""
  end.

(** ** Facts *)

Record SyslogFact := mkSyslogFact {
  sf_timestamp_ns : Z;
  sf_fact_type : string;
  sf_category : string;
  sf_hostname : string;
  sf_source_vendor : string;
  sf_message : string;
  sf_raw : string;
  sf_transport : string;
  sf_peer_addr : string;
  sf_field_schema : gmap string string;
  sf_fields : gmap string string;
}.

Record SyslogFactPattern := mkSyslogFactPattern {
  fp_fact_type : string;
  fp_category : string;
  fp_regex : string;
  fp_field_schema : gmap string string;
}.

Record SyslogPatternCatalog := mkSyslogPatternCatalog {
  ca_vendor : string;
  ca_patterns : list string;
  ca_facts : list SyslogFactPattern;
}.

(** The named groups of an expression and what they matched; [serde_yaml]. *)
Class SyslogCrates `{RegexCrate} := {
  capture_names : Regex -> list string;
  captures : Regex -> string -> option (string -> option string);
  yaml_catalog : string -> option SyslogPatternCatalog;
}.

Section Receiver.
Context `{SyslogCrates, BuildProfile}.

Record CompiledPattern := mkCompiledPattern {
  cp_vendor : string;
  cp_fact_type : string;
  cp_category : option SyslogCategory;
  cp_regex : Regex;
  cp_field_schema : gmap string string;
}.

Definition compile_fact (vendor : string) (f : SyslogFactPattern) : option CompiledPattern :=
  if blank (fp_fact_type f) || blank (fp_regex f) then None
  else
    re ← regex_new (fp_regex f);
    Some (mkCompiledPattern (to_ascii_lowercase vendor) (fp_fact_type f)
            (if blank (fp_category f) then None else category_from_str (fp_category f)) re (fp_field_schema f)).

Definition compile_catalog (c : SyslogPatternCatalog) : list CompiledPattern := omap (compile_fact (ca_vendor c)) (ca_facts c).

(** A directory: its files that can be read, or [None]. *)
Definition load_from_dir (dir : option (list string)) : list CompiledPattern :=
  match dir with
  | None => []
  | Some files => omap yaml_catalog files ≫= compile_catalog
  end.

Definition load_from_yaml_strings (items : list (string * string)) (fallback : option (list string)) : list CompiledPattern :=
  match items with
  | [] => load_from_dir fallback
  | _ => omap (fun it => yaml_catalog it.2) items ≫= compile_catalog
  end.

(** The groups that matched something but blanks. *)
Definition captured_fields (re : Regex) (caps : string -> option string) : gmap string string :=
  foldl (fun fields name =>
    match trim_text <$> caps name with
    | Some value => if bool_decide (value = "") then fields else <[name := value]> fields
    | None => fields
    end) ∅ (capture_names re).

Definition pattern_applies (vendor : string) (event : SyslogEvent) (p : CompiledPattern) : bool :=
  (bool_decide (vendor = "") || bool_decide (cp_vendor p = "") || text_contains (cp_vendor p) vendor) &&
  match cp_category p with None => true | Some c => bool_decide (c = sy_category event) end.

Definition fact_of (vendor : string) (event : SyslogEvent) (p : CompiledPattern) : option SyslogFact :=
  caps ← captures (cp_regex p) (sy_message event);
  let fields := captured_fields (cp_regex p) caps in
  if bool_decide (fields = ∅) then None
  else Some (mkSyslogFact (sy_timestamp_ns event) (cp_fact_type p) (category_as_str (sy_category event)) (sy_hostname event) vendor
               (sy_message event) (sy_raw event) (sy_transport event) (sy_peer_addr event) (cp_field_schema p) fields).

Definition extract_facts (patterns : list CompiledPattern) (event : SyslogEvent) (vendor : string) : list SyslogFact :=
  let vendor := to_ascii_lowercase vendor in
  omap (fact_of vendor event) (base.filter (fun p => pattern_applies vendor event p = true) patterns).

Definition parse_syslog_fixture (dir : option (list string)) (raw vendor transport peer_addr : string) (timestamp_ns : Z) :
  SyslogEvent * list SyslogFact :=
  let event := parse_syslog raw transport peer_addr timestamp_ns in
  (event, extract_facts (load_from_dir dir) event vendor).

Definition matches_syslog_config_change_trigger (dir : option (list string)) (vendor message : string) : bool :=
  match dir with
  | None => false
  | Some files =>
      let vendor := to_ascii_lowercase vendor in
      let message := to_ascii_lowercase message in
      existsb (fun c => (blank (ca_vendor c) || text_contains (to_ascii_lowercase (ca_vendor c)) vendor) &&
                        existsb (fun p => text_contains (to_ascii_lowercase p) message) (ca_patterns c))
        (omap yaml_catalog files)
  end.

(** ** A frame *)

Inductive SyslogUpdate :=
  | Update_Event (target : ResolvedTarget) (path : string) (value : SyslogEvent)
  | Update_SyslogFact (target : ResolvedTarget) (path : string) (value : SyslogFact).

Record SyslogState := mkSyslogState {
  sy_archive : list SyslogEvent;
  sy_bus : list SyslogUpdate;
  sy_engine : option ShunEngine;
}.

(** What a frame meets: the time, whether the archive took the event (there may
    be none), the clocks of the engine, and whether load is shed. *)
Record FrameInput := mkFrameInput { fi_now : Z; fi_archived : bool; fi_clocks : Clocks; fi_shed : bool }.

Definition SYSLOG_NOISE_APPS : list string := ["sr_grpc_server"].

Definition archive_event (ok : bool) (e : SyslogEvent) (s : SyslogState) : SyslogState :=
  if ok then mkSyslogState (sy_archive s ++ [e])%list (sy_bus s) (sy_engine s) else s.

Definition publish_updates (us : list SyslogUpdate) (s : SyslogState) : SyslogState :=
  mkSyslogState (sy_archive s) (sy_bus s ++ us)%list (sy_engine s).

(** The engine's verdict; without an engine everything passes. *)
Definition shun (t : Clocks) (target : ResolvedTarget) (e : SyslogEvent) (facts : list SyslogFact) (s : SyslogState) :
  Outcome Empty_set (SyslogState * ShunOutcome) :=
  match sy_engine s with
  | None => Ok (s, Pass)
  | Some engine =>
      r ← evaluate t (mkSyslogInput (rt_address target) (sy_message e) (sf_fact_type <$> facts)) engine;
      Ok (mkSyslogState (sy_archive s) (sy_bus s) (Some r.1), r.2)
  end.

Definition updates_of (target : ResolvedTarget) (e : SyslogEvent) (facts : list SyslogFact) : list SyslogUpdate :=
  Update_Event target ("signals/syslog/" ++ category_as_str (sy_category e)) e ::
  ((fun f => Update_SyslogFact target ("signals/syslog_fact/" ++ sf_fact_type f) f) <$> facts).

Definition handle_frame (patterns : list CompiledPattern) (entries : list TargetEntry) (i : FrameInput)
    (raw transport peer_addr : string) (s : SyslogState) : Outcome Empty_set SyslogState :=
  if bool_decide (raw = "") then Ok s
  else
    let event := parse_syslog raw transport peer_addr (fi_now i) in
    let s := archive_event (fi_archived i) event s in
    let target := syslog_resolve entries event in
    let facts := extract_facts patterns event (rt_vendor target) in
    if bool_decide (sy_app_name event ∈ SYSLOG_NOISE_APPS) then Ok s
    else
      r ← shun (fi_clocks i) target event facts s;
      match r.2 with
      | Pass => if fi_shed i then Ok r.1 else Ok (publish_updates (updates_of target event facts) r.1)
      | _ => Ok r.1
      end.

(** The frames of a listener, one after the other. *)
Fixpoint handle_frames (patterns : list CompiledPattern) (entries : list TargetEntry) (transport peer_addr : string)
    (raws : list (FrameInput * string)) (s : SyslogState) : Outcome Empty_set SyslogState :=
  match raws with
  | [] => Ok s
  | (i, raw) :: raws => s ← handle_frame patterns entries i raw transport peer_addr s; handle_frames patterns entries transport peer_addr raws s
  end.

End Receiver.

(** ** Framing *)

Local Close Scope string_scope.

(** [String::from_utf8_lossy(..).trim_end().to_string()] *)
Definition raw_text (b : bytes) : string := trim_end_text (from_utf8_lossy b).

(** A datagram longer than the buffer is cut. *)
Definition udp_raw (max_frame_bytes : Z) (datagram : bytes) : string :=
  raw_text (take (Z.to_nat (Z.max max_frame_bytes 1)) datagram).

(** How the reader of a connection ends: the stream ended or failed between or
    within frames, or the peer broke the framing. *)
Inductive FramingEnd := End_Of_Stream | End_Read_Error | End_Too_Long | End_Bad_Length | End_Incomplete.

(** What follows the octets that were received: the end of the stream or an error. *)
Inductive StreamTail := Tail_Eof | Tail_Error.

Definition stream_end (t : StreamTail) : FramingEnd := match t with Tail_Eof => End_Of_Stream | Tail_Error => End_Read_Error end.

(** The line at the front, with its newline, and the rest. *)
Fixpoint take_line (b : bytes) : option (bytes * bytes) :=
  match b with
  | [] => None
  | x :: b' => if bool_decide (x = newline) then Some ([x], b') else prod_map (cons x) Datatypes.id <$> take_line b'
  end.

(** [read_line]: text that is not UTF-8 is an error. *)
Definition line_text (b : bytes) : option string := string_of_bytes <$> from_utf8 b.

Fixpoint newline_frames (fuel : nat) (max_frame_bytes : Z) (tail : StreamTail) (b : bytes) : list string * FramingEnd :=
  match fuel with
  | O => ([], stream_end tail)
  | S fuel' =>
      match take_line b with
      | Some (line, rest) =>
          match line_text line with
          | None => ([], End_Read_Error)
          | Some text =>
              if max_frame_bytes <? blen line then ([], End_Too_Long)
              else prod_map (cons (trim_end_text text)) Datatypes.id (newline_frames fuel' max_frame_bytes tail rest)
          end
      | None =>
          match b, tail with
          | [], _ => ([], stream_end tail)
          | _, Tail_Error => ([], End_Read_Error)
          | _, Tail_Eof =>
              match line_text b with
              | None => ([], End_Read_Error)
              | Some text => if max_frame_bytes <? blen b then ([], End_Too_Long) else ([trim_end_text text], End_Of_Stream)
              end
          end
      end
  end.

(** The scan for the space behind the length; [len_buf] is what was read of it. *)
Fixpoint scan_length (b : bytes) (len_buf : bytes) : option (option (bytes * bytes)) :=
  match b with
  | [] => Some None
  | x :: b' =>
      if bool_decide (x = Byte.x20) then Some (Some (len_buf, b'))
      else if negb (is_ascii_digit x) || (7 <? blen len_buf) then None
      else scan_length b' (len_buf ++ [x])
  end.

Fixpoint octet_frames (fuel : nat) (max_frame_bytes : Z) (tail : StreamTail) (b : bytes) : list string * FramingEnd :=
  match fuel with
  | O => ([], stream_end tail)
  | S fuel' =>
      match scan_length b [] with
      | None => ([], End_Bad_Length)
      | Some None => ([], stream_end tail)
      | Some (Some (len_buf, rest)) =>
          match parse_unsigned (2 ^ 64) (string_of_bytes len_buf) with
          | None => ([], End_Bad_Length)
          | Some n =>
              if max_frame_bytes <? n then ([], End_Too_Long)
              else if blen rest <? n then ([], End_Incomplete)
              else prod_map (cons (raw_text (take (Z.to_nat n) rest))) Datatypes.id
                     (octet_frames fuel' max_frame_bytes tail (drop (Z.to_nat n) rest))
          end
      end
  end.

(** A connection: the first octet chooses the framing.  Every frame takes an
    octet at least, so the length of the stream is enough fuel. *)
Definition tcp_frames (max_frame_bytes : Z) (tail : StreamTail) (b : bytes) : list string * FramingEnd :=
  match b with
  | x :: _ => if is_ascii_digit x then octet_frames (S (length b)) max_frame_bytes tail b
              else newline_frames (S (length b)) max_frame_bytes tail b
  | [] => newline_frames 1 max_frame_bytes tail b
  end.

Definition MAX_TCP_CONNECTIONS : Z := 128.

(** Whether a connection is served, given how many are. *)
Definition accept_connection (current : Z) : option Z := if MAX_TCP_CONNECTIONS <=? current then None else Some (current + 1).

(** ** Framing round trips *)

(** A message as RFC 6587 counts it. *)
Definition octet_frame (m : bytes) : bytes := bytes_of_string (fmt_dec (blen m)) ++ Byte.x20 :: m.

Lemma scan_length_digits ds rest acc :
  Forall (fun b => is_ascii_digit b = true) ds -> blen acc + blen ds <= 8 ->
  scan_length (ds ++ Byte.x20 :: rest) acc = Some (Some (acc ++ ds, rest)).
Proof.
  intros Hds. revert acc. induction Hds as [|d ds Hd Hds IH]; intros acc Hlen; cbn [app scan_length].
  - by rewrite bool_decide_true, app_nil_r.
  - rewrite blen_cons in Hlen. pose proof (blen_nonneg ds).
    rewrite bool_decide_false by (intros ->; by vm_compute in Hd). rewrite Hd. cbn [negb orb].
    rewrite (proj2 (Z.ltb_ge _ _)) by lia. rewrite IH by (rewrite blen_app, blen_cons, blen_nil; lia).
    by rewrite <- app_assoc.
Qed.

Lemma blen_bytes_of_string s : blen (bytes_of_string s) = Z.of_nat (String.length s).
Proof. unfold blen. f_equal. induction s as [|c s IH]; cbn; [done|]. f_equal. apply IH. Qed.

Lemma octet_frames_cons fuel max tail m rest :
  blen m <= max -> blen m < 10 ^ 8 ->
  octet_frames (S fuel) max tail (octet_frame m ++ rest) =
  prod_map (cons (raw_text m)) Datatypes.id (octet_frames fuel max tail rest).
Proof.
  intros Hmax Hlen. pose proof (blen_nonneg m). cbn [octet_frames]. unfold octet_frame. rewrite <- app_assoc. cbn [app].
  rewrite scan_length_digits; cbn [app].
  - rewrite string_of_bytes_of_string, parse_unsigned_fmt_dec by lia.
    rewrite (proj2 (Z.ltb_ge _ _)) by lia. rewrite blen_app. pose proof (blen_nonneg rest). rewrite (proj2 (Z.ltb_ge _ _)) by lia.
    rewrite <- length_blen, take_app_length, drop_app_length. done.
  - by apply fmt_dec_bytes.
  - rewrite blen_nil, blen_bytes_of_string. pose proof (fmt_dec_length (blen m) 8 ltac:(lia) ltac:(lia)). lia.
Qed.

Lemma octet_frames_stream max tail ms fuel :
  Forall (fun m => blen m <= max /\ blen m < 10 ^ 8) ms -> (length ms < fuel)%nat ->
  octet_frames fuel max tail (mjoin (octet_frame <$> ms)) = (raw_text <$> ms, stream_end tail).
Proof.
  intros Hms. revert fuel. induction Hms as [|m ms [Hm Hm'] Hms IH]; intros fuel Hf.
  - destruct fuel; [lia|]. done.
  - destruct fuel as [|fuel]; [lia|]. cbn [fmap list_fmap mjoin list_join]. rewrite octet_frames_cons by done.
    by rewrite IH by (cbn in Hf; lia).
Qed.

Lemma octet_frame_head m : exists b r, octet_frame m = b :: r /\ is_ascii_digit b = true.
Proof.
  unfold octet_frame. pose proof (fmt_dec_bytes (blen m) (blen_nonneg m)) as Hd.
  pose proof (parse_unsigned_fmt_dec (blen m + 1) (blen m) ltac:(pose proof (blen_nonneg m); lia)) as Hp.
  destruct (bytes_of_string (fmt_dec (blen m))) as [|b r] eqn:Hb.
  - exfalso. rewrite <- (string_of_bytes_of_string (fmt_dec (blen m))), Hb in Hp. by vm_compute in Hp.
  - apply Forall_cons in Hd as [Hd _]. by exists b, (r ++ Byte.x20 :: m).
Qed.

Lemma length_octet_frames ms : (length ms <= length (mjoin (octet_frame <$> ms)))%nat.
Proof.
  induction ms as [|m ms IH]; [cbn; lia|].
  change (mjoin (octet_frame <$> m :: ms)) with (octet_frame m ++ mjoin (octet_frame <$> ms)).
  destruct (octet_frame_head m) as (b & r & -> & _). rewrite length_app. cbn [length]. lia.
Qed.

Lemma tcp_octet_frames (max : Z) (tail : StreamTail) (ms : list bytes) :
  Forall (fun m => blen m <= max /\ blen m < 10 ^ 8) ms -> ms <> [] ->
  tcp_frames max tail (mjoin (octet_frame <$> ms)) = (raw_text <$> ms, stream_end tail).
Proof.
  intros Hms Hne. pose proof (length_octet_frames ms) as Hlen.
  pose proof (octet_frames_stream max tail ms (S (length (mjoin (octet_frame <$> ms)))) Hms ltac:(lia)) as Hs.
  rewrite <- Hs. clear Hs Hlen. destruct ms as [|m ms]; [done|].
  change (mjoin (octet_frame <$> m :: ms)) with (octet_frame m ++ mjoin (octet_frame <$> ms)).
  destruct (octet_frame_head m) as (b & r & -> & Hb). unfold tcp_frames. cbn [app]. by rewrite Hb.
Qed.

(** Claim C36: if a peer counts its messages as RFC 6587 asks, sends at least one,
    and each is within the configured size and shorter than 100,000,000 octets,
    then one text is delivered for each message, in order, none lost, merged or
    split, namely the message decoded lossily and trimmed; and the end of the
    stream or its failure is noticed. *)
Theorem octet_framing_roundtrip (max : Z) (tail : StreamTail) (ms : list bytes) :
  Forall (fun m => blen m <= max /\ blen m < 10 ^ 8) ms -> ms <> [] ->
  tcp_frames max tail (mjoin (octet_frame <$> ms)) = (raw_text <$> ms, stream_end tail).
Proof. apply tcp_octet_frames. Qed.

(** The longest frame with octet counts: a ninth digit ends the connection. *)
Theorem long_octet_count_refused (fuel : nat) (max : Z) (tail : StreamTail) (ds rest : bytes) :
  Forall (fun b => is_ascii_digit b = true) ds -> blen ds = 9 ->
  octet_frames (S fuel) max tail (ds ++ rest) = ([], End_Bad_Length).
Proof.
  intros Hds Hlen. cbn [octet_frames]. enough (scan_length (ds ++ rest) [] = None) as -> by done.
  assert (forall ds acc, Forall (fun b => is_ascii_digit b = true) ds -> blen acc + blen ds = 9 -> blen acc <= 8 ->
            scan_length (ds ++ rest) acc = None) as Hgen; [|apply Hgen; [done|rewrite blen_nil; lia..]].
  clear. induction ds as [|d ds IH]; intros acc Hds Hlen Hacc; [rewrite blen_nil in Hlen; lia|].
  apply Forall_cons in Hds as [Hd Hds]. cbn [app scan_length]. rewrite blen_cons in Hlen.
  rewrite bool_decide_false by (intros ->; by vm_compute in Hd). rewrite Hd. cbn [negb orb].
  destruct (7 <? blen acc) eqn:Ha; [done|]. pose proof (blen_nonneg ds).
  apply IH; [done|rewrite blen_app, blen_cons, blen_nil; lia..].
Qed.

(** ** The RFC 5424 form *)

Lemma split_once_digits s :
  Forall (fun b => is_ascii_digit b = true) (bytes_of_string s) -> split_once ">"%char s = None /\ split_once " "%char s = None.
Proof.
  induction s as [|c s IH]; [done|]. intros Hs. apply Forall_cons in Hs as [Hc Hs]. destruct (IH Hs) as [IH1 IH2].
  split; cbn; rewrite bool_decide_false by (intros ->; by vm_compute in Hc); by rewrite ?IH1, ?IH2.
Qed.

(** A header field: [-] stands for an empty one. *)
Definition header_field (f : string) : string := if bool_decide (f = ""%string) then "-"%string else f.

Definition rfc5424 (pri : Z) (ts host app proc msgid message : string) : string :=
  ("<" ++ fmt_dec pri ++ ">1 " ++ ts ++ " " ++ header_field host ++ " " ++ header_field app ++ " " ++ header_field proc ++ " " ++
   header_field msgid ++ " - " ++ message)%string.

(** Fields of a header: no spaces, and not the text that stands for none. *)
Definition is_field (f : string) : Prop := split_once " "%char f = None /\ f <> "-"%string.

Lemma header_field_split f rest : is_field f -> split_once " "%char (header_field f ++ String " "%char rest)%string = Some (header_field f, rest).
Proof. intros [Hf _]. apply split_once_app. unfold header_field. destruct (bool_decide _); [reflexivity|exact Hf]. Qed.

Lemma normalise_header_field f : is_field f -> normalise_nil (header_field f) = f.
Proof.
  intros [_ Hne]. unfold normalise_nil, header_field. destruct (decide (f = ""%string)) as [->|Hf]; [done|].
  rewrite (bool_decide_false (f = ""%string)) by done. by rewrite bool_decide_false.
Qed.

(** A message that a device writes as RFC 5424 asks, with a header
    whose fields have no spaces and without structured data, is read back: the
    priority is split into facility and severity, and host name, application,
    process, message identifier and message are what was written. *)
Theorem rfc5424_roundtrip (pri : Z) (ts host app proc msgid message transport peer : string) (now : Z) :
  0 <= pri < 192 -> split_once " "%char ts = None -> is_field host -> is_field app -> is_field proc -> is_field msgid ->
  let e := parse_syslog (rfc5424 pri ts host app proc msgid message) transport peer now in
  sy_priority e = Some pri /\ sy_facility e = Some (pri / 8) /\ sy_severity e = Some (pri mod 8) /\
  sy_hostname e = host /\ sy_app_name e = app /\ sy_proc_id e = proc /\ sy_msg_id e = msgid /\ sy_message e = message.
Proof.
  intros Hpri Hts Hhost Happ Hproc Hmsg.
  set (sp := String " "%char).
  set (tail := (header_field host ++ sp (header_field app ++ sp (header_field proc ++ sp (header_field msgid ++
                 sp (String "-"%char (sp message))))))%string).
  set (rest := String "1"%char (sp (ts ++ sp tail)%string)).
  assert (rfc5424 pri ts host app proc msgid message = ("<" ++ (fmt_dec pri ++ String ">"%char rest))%string) as Hform by reflexivity.
  assert (parse_priority (rfc5424 pri ts host app proc msgid message) = (Some pri, rest)) as Hp.
  { rewrite Hform. unfold parse_priority. rewrite strip_prefix_app.
    rewrite split_once_app by (apply split_once_digits, fmt_dec_bytes; lia). by rewrite parse_unsigned_fmt_dec by lia. }
  assert (splitn 8 " "%char rest = ["1"%string; ts; header_field host; header_field app; header_field proc; header_field msgid; "-"%string; message]) as Hsplit.
  { unfold rest, tail, sp. cbn [splitn].
    rewrite (split_once_app " "%char "1" (ts ++ _) eq_refl : split_once " "%char (String "1"%char (String " "%char _)) = _).
    rewrite split_once_app by done. rewrite !header_field_split by done.
    by rewrite (split_once_app " "%char "-" message eq_refl : split_once " "%char (String "-"%char (String " "%char _)) = _). }
  assert (parse_rfc5424 rest = Some (host, app, proc, msgid, message)) as Hr.
  { unfold parse_rfc5424. rewrite Hsplit. rewrite bool_decide_true by done. by rewrite !normalise_header_field by done. }
  unfold parse_syslog. rewrite Hp.
  assert (starts_with "1 " rest = true) as -> by (apply starts_with_spec; by eexists).
  rewrite Hr. cbn. split_and!; done.
Qed.

(** ** Nothing is lost before the archive *)

Section Frames.
Context `{SyslogCrates, BuildProfile}.

Lemma shun_keeps t target e facts s r :
  shun t target e facts s = Ok r -> sy_archive r.1 = sy_archive s /\ sy_bus r.1 = sy_bus s.
Proof.
  unfold shun. destruct (sy_engine s); [|by intros [= <-]]. intros Hr. by apply bind_Ok_inv in Hr as (x & _ & [= <-]).
Qed.

(** One frame: archived whatever the rules say; published in full or not at all. *)
Lemma handle_frame_effect patterns entries i raw transport peer s s' :
  raw <> ""%string -> handle_frame patterns entries i raw transport peer s = Ok s' ->
  let e := parse_syslog raw transport peer (fi_now i) in
  let target := syslog_resolve entries e in
  sy_archive s' = sy_archive s ++ (if fi_archived i then [e] else []) /\
  (sy_bus s' = sy_bus s \/ sy_bus s' = sy_bus s ++ updates_of target e (extract_facts patterns e (rt_vendor target))).
Proof.
  intros Hraw Hs e target. unfold handle_frame in Hs. rewrite bool_decide_false in Hs by done. fold e in Hs. fold target in Hs.
  set (s1 := archive_event (fi_archived i) e s) in Hs.
  assert (sy_archive s1 = sy_archive s ++ (if fi_archived i then [e] else []) /\ sy_bus s1 = sy_bus s) as [Ha Hb].
  { unfold s1, archive_event. by destruct (fi_archived i); rewrite ?app_nil_r. }
  destruct (bool_decide (sy_app_name e ∈ SYSLOG_NOISE_APPS)); [injection Hs as <-; auto|].
  apply bind_Ok_inv in Hs as (r & Hr & Hs). apply shun_keeps in Hr as [Hra Hrb].
  destruct r.2; [destruct (fi_shed i)|..]; injection Hs as <-; cbn; rewrite Hra, Hrb, ?Ha, ?Hb; auto.
Qed.

(** The events of the frames that are not empty. *)
Definition events_of (transport peer : string) (raws : list (FrameInput * string)) : list SyslogEvent :=
  omap (fun ir => if bool_decide (ir.2 = ""%string) then None else Some (parse_syslog ir.2 transport peer (fi_now ir.1))) raws.

(** What is published of them when nothing is held back. *)
Definition all_updates (patterns : list CompiledPattern) (entries : list TargetEntry) (es : list SyslogEvent) : list SyslogUpdate :=
  es ≫= fun e => let target := syslog_resolve entries e in updates_of target e (extract_facts patterns e (rt_vendor target)).

Lemma handle_frames_effect patterns entries transport peer raws s s' :
  Forall (fun ir => fi_archived ir.1 = true) raws ->
  handle_frames patterns entries transport peer raws s = Ok s' ->
  sy_archive s' = sy_archive s ++ events_of transport peer raws /\
  exists published, sublist published (all_updates patterns entries (events_of transport peer raws)) /\
    sy_bus s' = sy_bus s ++ published.
Proof.
  intros Harch. revert s. induction Harch as [|[i raw] raws Hi Harch IH]; intros s Hs; cbn [handle_frames] in Hs.
  - injection Hs as <-. cbn. rewrite app_nil_r. split; [done|]. exists []. by rewrite app_nil_r.
  - apply bind_Ok_inv in Hs as (s1 & Hs1 & Hs). destruct (IH s1 Hs) as (Ha & pub & Hsub & Hb).
    unfold events_of. cbn [omap list_omap fst snd]. fold (events_of transport peer raws).
    destruct (decide (raw = ""%string)) as [->|Hraw].
    + unfold handle_frame in Hs1. cbn in Hs1. injection Hs1 as <-. rewrite bool_decide_true by done. eauto.
    + rewrite bool_decide_false by done. destruct (handle_frame_effect _ _ _ _ _ _ _ _ Hraw Hs1) as (Ha1 & Hb1).
      cbn in Hi. rewrite Hi in Ha1. split; [rewrite Ha, Ha1, <- app_assoc; done|].
      unfold all_updates. rewrite bind_cons. destruct Hb1 as [Hb1|Hb1]; rewrite Hb1 in Hb.
      * exists pub. split; [|done]. by apply sublist_inserts_l.
      * eexists. split; [|rewrite Hb, <- app_assoc; done]. by apply sublist_app.
Qed.

(** Every message that is not empty, sent on a connection with octet counts, is
    in the archive, in order, also the ones that are suppressed by a rule or
    shed under load, provided the archive can be written; and what is published
    is, in order, the events and facts of archived messages and nothing else. *)
Theorem syslog_archive_complete (patterns : list CompiledPattern) (entries : list TargetEntry) (peer : string)
    (max : Z) (tail : StreamTail) (ms : list bytes) (is_ : list FrameInput) (s s' : SyslogState) :
  Forall (fun m => blen m <= max /\ blen m < 10 ^ 8) ms -> ms <> [] -> length is_ = length ms ->
  Forall (fun i => fi_archived i = true) is_ ->
  handle_frames patterns entries "tcp" peer (zip is_ (tcp_frames max tail (mjoin (octet_frame <$> ms))).1) s = Ok s' ->
  let es := events_of "tcp" peer (zip is_ (raw_text <$> ms)) in
  sy_archive s' = sy_archive s ++ es /\
  exists published, sublist published (all_updates patterns entries es) /\ sy_bus s' = sy_bus s ++ published.
Proof.
  intros Hms Hne Hlen Harch Hs es. rewrite tcp_octet_frames in Hs by done.
  apply (handle_frames_effect patterns entries "tcp" peer (zip is_ (raw_text <$> ms)) s s'); [|done].
  apply Forall_forall. intros [i raw] Hin. apply (proj1 (Forall_forall _ _) Harch). by eapply elem_of_zip_l.
Qed.

End Frames.

(** ** Newline framing *)

Lemma take_line_app l rest : newline ∉ l -> take_line (l ++ newline :: rest) = Some (l ++ [newline], rest).
Proof.
  induction l as [|x l IH]; intros Hl; cbn [app take_line]; [by rewrite bool_decide_true|].
  rewrite bool_decide_false by set_solver. by rewrite IH by set_solver.
Qed.

(** Lines of UTF-8 within the size are delivered in order. *)
Theorem newline_framing_roundtrip (max : Z) (tail : StreamTail) (ls : list bytes) (fuel : nat) :
  Forall (fun l => newline ∉ l /\ from_utf8 (l ++ [newline]) = Some (l ++ [newline]) /\ blen l + 1 <= max) ls ->
  (length ls < fuel)%nat ->
  newline_frames fuel max tail (mjoin ((fun l => l ++ [newline]) <$> ls)) =
    ((fun l => trim_end_text (string_of_bytes (l ++ [newline]))) <$> ls, stream_end tail).
Proof.
  intros Hls. revert fuel. induction Hls as [|l ls (Hn & Hu & Hm) Hls IH]; intros [|fuel] Hf; try (cbn in Hf; lia); [done|].
  change (mjoin ((fun l => l ++ [newline]) <$> l :: ls)) with ((l ++ [newline]) ++ mjoin ((fun l => l ++ [newline]) <$> ls)).
  cbn [newline_frames]. rewrite <- app_assoc. cbn [app]. rewrite take_line_app by done. unfold line_text. rewrite Hu.
  cbn [fmap option_fmap option_map]. rewrite blen_app, blen_cons, blen_nil. rewrite (proj2 (Z.ltb_ge _ _)) by lia.
  by rewrite IH by (cbn in Hf; lia).
Qed.

(** ** Running the model *)

Section Demo.

#[local] Instance demo_regex : RegexCrate := {| Regex := string; regex_new s := Some s; regex_is_match re s := text_contains re s |}.
#[local] Instance demo_crates : SyslogCrates :=
  {| capture_names _ := []; captures _ _ := None; yaml_catalog _ := None |}.
#[local] Instance demo_profile : BuildProfile := true.

Definition hello : bytes := bytes_of_string "<34>1 - leaf1 sshd 1 - - Failed password".
Definition quiet_frame : FrameInput := mkFrameInput 42 true (mkClocks 0 0 0) false.
Definition empty_state : SyslogState := mkSyslogState [] [] None.

Lemma octet_framing_roundtrip_witness :
  tcp_frames 100 Tail_Eof (mjoin (octet_frame <$> [hello; hello])) = (raw_text <$> [hello; hello], End_Of_Stream).
Proof. apply (octet_framing_roundtrip 100 Tail_Eof [hello; hello]); [repeat constructor; vm_compute; done|done]. Defined.

Lemma rfc5424_roundtrip_witness :
  sy_message (parse_syslog (rfc5424 34 "2026-05-09T12:00:00Z" "leaf1" "sshd" "123" "" "Failed password for admin") "udp" "p" 42)
    = "Failed password for admin"%string.
Proof.
  apply (rfc5424_roundtrip 34 "2026-05-09T12:00:00Z" "leaf1" "sshd" "123" "" "Failed password for admin" "udp" "p" 42);
    [lia|reflexivity|split; [reflexivity|discriminate]..].
Defined.

(** Two messages, of which load shedding keeps one from the bus. *)
Definition shed_frame : FrameInput := mkFrameInput 43 true (mkClocks 0 0 0) true.

Definition demo_after : SyslogState :=
  let e now := parse_syslog (raw_text hello) "tcp" "p" now in
  mkSyslogState [e 42; e 43] (updates_of (syslog_resolve [] (e 42)) (e 42) []) None.

Lemma syslog_archive_complete_witness :
  sy_archive demo_after = sy_archive empty_state ++ events_of "tcp" "p" (zip [quiet_frame; shed_frame] (raw_text <$> [hello; hello])).
Proof.
  apply (syslog_archive_complete [] [] "p" 100 Tail_Eof [hello; hello] [quiet_frame; shed_frame] empty_state demo_after).
  - repeat constructor; vm_compute; done.
  - done.
  - reflexivity.
  - repeat constructor.
  - vm_compute. reflexivity.
Defined.

(** Structured data with a space is cut at the space: the rest of it becomes
    part of the message. *)
Example structured_data_cut :
  sy_message (parse_syslog "<34>1 - leaf1 sshd 1 - [id@1 key=v] link down" "udp" "p" 0) = "key=v] link down"%string.
Proof. vm_compute. reflexivity. Qed.

(** A connection whose first line starts with a digit, a time say, is taken for
    one with octet counts and closed. *)
Example digit_line_refused :
  tcp_frames 1000 Tail_Eof (bytes_of_string "2026-05-09T12:00:00Z leaf1 link down" ++ [newline]) = ([], End_Bad_Length).
Proof. vm_compute. reflexivity. Qed.

(** One octet that is not UTF-8 ends a connection with newlines; in a datagram
    it is replaced. *)
Example bad_octet_ends_connection :
  tcp_frames 1000 Tail_Eof (bytes_of_string "<34>up " ++ [Byte.xff; newline] ++ bytes_of_string "<34>down" ++ [newline])
    = ([], End_Read_Error).
Proof. vm_compute. reflexivity. Qed.

(** Priorities above 191 are taken although no facility has them. *)
Example high_priority_accepted :
  sy_facility (parse_syslog "<255>1 - h a - - - m" "udp" "p" 0) = Some 31.
Proof. vm_compute. reflexivity. Qed.

End Demo.
