(* ===== verification/Registry.v ===== *)
(** * The device registry ([src/registry.rs], [src/sqlite_store.rs])

    The managed devices are kept in memory by address, announced to subscribers
    when they change, and made durable in a table of an SQLite database or, when
    that cannot be opened, in a JSON file.  A statement of the database may fail;
    which ones do, and the clock, are arguments.  The columns that hold JSON are
    the values they encode. *)

From Stdlib Require Import ZArith Lia ZifyBool String Ascii.
From stdpp Require Import base numbers list option strings gmap fin_maps sorting relations.
From S2P Require Import Prelude RustStd HashMaps Jsonl Text.

Local Open Scope Z_scope.

(** ** Addresses *)

(** Texts of addresses, as the parsers of the standard library read them. *)
Definition digit_value (radix : Z) (b : byte) : option Z :=
  d ← to_digit16 b; if d <? radix then Some d else None.

(** The digits at the front, their number and their value. *)
Fixpoint read_digits (radix : Z) (b : bytes) (n v : Z) : Z * Z * bytes :=
  match b with
  | x :: b' => match digit_value radix x with Some d => read_digits radix b' (n + 1) (v * radix + d) | None => (n, v, b) end
  | [] => (n, v, b)
  end.

(** [read_number]: at most [digits] of them, a value below [max], leading zeros
    only where they are allowed. *)
Definition read_number (radix digits max : Z) (zeros : bool) (b : bytes) : option (Z * bytes) :=
  let '(n, v, rest) := read_digits radix b 0 0 in
  let leading_zero := match b with Byte.x30 :: _ => true | _ => false end in
  if (n =? 0) || (digits <? n) || (max <=? v) || (negb zeros && leading_zero && (1 <? n)) then None else Some (v, rest).

Definition read_char (c : byte) (b : bytes) : option bytes :=
  match b with x :: b' => if bool_decide (x = c) then Some b' else None | [] => None end.

(** [read_separator] *)
Definition read_separated {A} (c : byte) (index : nat) (inner : bytes -> option (A * bytes)) (b : bytes) : option (A * bytes) :=
  match index with O => inner b | S _ => b' ← read_char c b; inner b' end.

Fixpoint read_octets (n index : nat) (b : bytes) : option bytes :=
  match n with
  | O => Some b
  | S n' => vr ← read_separated Byte.x2e index (read_number 10 3 256 false) b; read_octets n' (S index) vr.2
  end.

Definition read_ipv4 (b : bytes) : option bytes := read_octets 4 0 b.

(** [host.parse::<Ipv4Addr>().is_ok()] *)
Definition is_ipv4 (s : bytes) : bool :=
  if 15 <? blen s then false else match read_ipv4 s with Some [] => true | _ => false end.

(** [read_groups]: how many groups of an IPv6 address were read, and whether the
    last two were written as an IPv4 address. *)
Fixpoint read_groups (limit n index : nat) (b : bytes) : nat * bool * bytes :=
  match n with
  | O => (index, false, b)
  | S n' =>
      match (if (Nat.ltb index (limit - 1)) then read_separated Byte.x3a index (fun b => pair tt <$> read_ipv4 b) b else None) with
      | Some (_, rest) => ((index + 2)%nat, true, rest)
      | None =>
          match read_separated Byte.x3a index (read_number 16 4 65536 true) b with
          | Some (_, rest) => read_groups limit n' (S index) rest
          | None => (index, false, b)
          end
      end
  end.

Definition is_ipv6 (s : bytes) : bool :=
  let '(head, v4, rest) := read_groups 8 8 0 s in
  if Nat.eqb head 8 then bool_decide (rest = [])
  else if v4 then false
  else match (r ← read_char Byte.x3a rest; read_char Byte.x3a r) with
       | None => false
       | Some rest => let limit := (8 - (head + 1))%nat in bool_decide ((read_groups limit limit 0 rest).2 = [])
       end.

(** Labels of host names. *)
Definition is_ascii_alnum (c : ascii) : bool :=
  let v := Z.of_N (N_of_ascii c) in in_range 48 57 v || in_range 65 90 v || in_range 97 122 v.

Definition is_valid_hostname_label (label : string) : bool :=
  let cs := list_ascii_of_string label in
  match cs, last cs with
  | first :: _, Some final =>
      (blen cs <=? 63) && is_ascii_alnum first && is_ascii_alnum final &&
      forallb (fun c => is_ascii_alnum c || bool_decide (c = "-"%char)) cs
  | _, _ => false
  end.

Definition is_valid_host (host : string) : bool :=
  let b := bytes_of_string host in
  if (blen b =? 0) || (253 <? blen b) || existsb is_whitespace (chars_of host) then false
  else is_ipv4 b || is_ipv6 b || forallb is_valid_hostname_label (split_char "."%char host).

Definition is_valid_port (port : string) : bool :=
  match parse_unsigned 65536 port with Some p => 0 <? p | None => false end.

(** [s.rsplit_once(c)] for one character *)
Fixpoint rsplit_once_char (c : ascii) (s : string) : option (string * string) :=
  match s with
  | EmptyString => None
  | String x s' =>
      match rsplit_once_char c s' with
      | Some (a, b) => Some (String x a, b)
      | None => if bool_decide (x = c) then Some (EmptyString, s') else None
      end
  end.

Definition split_host_port (address : string) : option (string * string) :=
  match strip_prefix "[" address with
  | Some rest =>
      '(host, remainder) ← split_once "]"%char rest;
      port ← strip_prefix ":" remainder;
      if text_contains ":" port then None else Some (host, port)
  | None =>
      '(host, port) ← rsplit_once_char ":"%char address;
      if text_contains ":" host || text_contains ":" port then None else Some (host, port)
  end.

Definition is_valid_host_port (address : string) : bool :=
  if bool_decide (address = ""%string) then false
  else match split_host_port address with
       | Some (host, port) => is_valid_port port && is_valid_host host
       | None => false
       end.

(** The error is its message. *)
Notation Reg A := (Outcome string A).

Definition normalize_address (address : string) : Reg string :=
  let normalized := trim_text address in
  if is_valid_host_port normalized || is_valid_host normalized then Ok normalized
  else Err "device address must be host or host:port"%string.

(** ** Devices *)

Record SelectedSubscriptionPath := mkSelectedPath {
  sp_path : string;
  sp_origin : string;
  sp_mode : string;
  sp_sample_interval_ns : Z;
  sp_rationale : string;
  sp_optional : bool;
}.

Record TargetConfig := mkTargetConfig {
  address : string;
  enabled : bool;
  tls_domain : option string;
  ca_cert : option string;
  vendor : option string;
  credential_alias : option string;
  username_env : option string;
  password_env : option string;
  username : option string;
  password : option string;
  hostname : option string;
  role : option string;
  site : option string;
  collector_id : option string;
  selected_paths : list SelectedSubscriptionPath;
  paths : list string;
  optional : bool;
  extra_ips : list string;
  created_at_ns : Z;
  updated_at_ns : Z;
  created_by : string;
  updated_by : string;
  last_operator_action : string;
}.

Inductive RegistryChange := Added (t : TargetConfig) | Removed (a : string) | Updated (t : TargetConfig).

Inductive OverrideScope := ScopeSite (s : string) | RoleEnv (role environment : string) | ScopeDevice (d : string).

#[global] Instance override_scope_eq_dec : EqDecision OverrideScope.
Proof. solve_decision. Defined.

Inductive OverrideAction := ActAdd | ActDrop | ActModify.

Record PathOverride := mkPathOverride {
  scope : OverrideScope;
  ov_path : string;
  ov_action : OverrideAction;
  sample_interval_s : option Z;
  ov_optional : option bool;
  ov_created_at_ns : Z;
  ov_created_by : string;
}.

Record RegistryState := mkRegistryState { targets : gmap string TargetConfig; overrides : list PathOverride }.

Definition from_targets (ts : list TargetConfig) : RegistryState :=
  mkRegistryState (foldl (fun m t => <[address t := t]> m) ∅ ts) [].

(** Copies of a device with some fields replaced. *)
Definition with_address (a : string) (t : TargetConfig) : TargetConfig :=
  mkTargetConfig a (enabled t) (tls_domain t) (ca_cert t) (vendor t) (credential_alias t) (username_env t) (password_env t)
    (username t) (password t) (hostname t) (role t) (site t) (collector_id t) (selected_paths t) (paths t) (optional t)
    (extra_ips t) (created_at_ns t) (updated_at_ns t) (created_by t) (updated_by t) (last_operator_action t).

Definition with_collector (c : option string) (t : TargetConfig) : TargetConfig :=
  mkTargetConfig (address t) (enabled t) (tls_domain t) (ca_cert t) (vendor t) (credential_alias t) (username_env t)
    (password_env t) (username t) (password t) (hostname t) (role t) (site t) c (selected_paths t) (paths t) (optional t)
    (extra_ips t) (created_at_ns t) (updated_at_ns t) (created_by t) (updated_by t) (last_operator_action t).

Definition with_audit (created updated : Z) (cby uby act : string) (t : TargetConfig) : TargetConfig :=
  mkTargetConfig (address t) (enabled t) (tls_domain t) (ca_cert t) (vendor t) (credential_alias t) (username_env t)
    (password_env t) (username t) (password t) (hostname t) (role t) (site t) (collector_id t) (selected_paths t) (paths t)
    (optional t) (extra_ips t) created updated cby uby act.

(** The columns of the table: all fields but the selected paths and the extra
    addresses. *)
Definition columns (t : TargetConfig) : TargetConfig :=
  mkTargetConfig (address t) (enabled t) (tls_domain t) (ca_cert t) (vendor t) (credential_alias t) (username_env t)
    (password_env t) (username t) (password t) (hostname t) (role t) (site t) (collector_id t) [] (paths t) (optional t)
    [] (created_at_ns t) (updated_at_ns t) (created_by t) (updated_by t) (last_operator_action t).

Definition stamp_new_target_audit (now : Z) (actor action : string) (t : TargetConfig) : TargetConfig :=
  with_audit (if created_at_ns t <=? 0 then now else created_at_ns t) now
    (if blank (created_by t) then actor else created_by t) actor action t.

(** The clock is read once for a missing date of creation and once for the
    date of the change. *)
Definition stamp_existing_target_audit (now_c now_u : Z) (actor action : string) (existing t : TargetConfig) : TargetConfig :=
  with_audit (if 0 <? created_at_ns existing then created_at_ns existing else now_c) now_u
    (if blank (created_by existing) then actor else created_by existing) actor action t.

(** [if existing.f.as_deref().unwrap_or_default().is_empty() { existing.f = seed.f }] *)
Definition or_seed (e s : option string) : option string := if bool_decide (default ""%string e = ""%string) then s else e.

Definition merge_seed_target (e s : TargetConfig) : TargetConfig :=
  mkTargetConfig (address e) (enabled s) (or_seed (tls_domain e) (tls_domain s)) (or_seed (ca_cert e) (ca_cert s))
    (or_seed (vendor e) (vendor s)) (or_seed (credential_alias e) (credential_alias s))
    (or_seed (username_env e) (username_env s)) (or_seed (password_env e) (password_env s))
    (or_seed (username e) (username s)) (or_seed (password e) (password s)) (or_seed (hostname e) (hostname s))
    (or_seed (role e) (role s)) (or_seed (site e) (site s)) (or_seed (collector_id e) (collector_id s))
    (selected_paths e) (match paths e with [] => paths s | _ => paths e end) (optional e) (extra_ips e)
    (created_at_ns e) (updated_at_ns e) (created_by e) (updated_by e) (last_operator_action e).

(** The actor when none is given: three variables of the environment. *)
Definition default_audit_actor (operator user username_ : option string) : string :=
  match operator with
  | Some v => if blank v then default "unknown"%string (match user with Some u => Some u | None => username_ end) else v
  | None => default "unknown"%string (match user with Some u => Some u | None => username_ end)
  end.

(** ** The database *)

Record AuditEntry := mkAuditEntry {
  au_table : string;
  au_operation : string;
  au_key : string;
  au_actor : string;
  au_action : string;
  au_timestamp_ns : Z;
  au_old : option TargetConfig;
  au_new : option TargetConfig;
}.

Record Sqlite := mkSqlite { devices : gmap string TargetConfig; audit_log : list AuditEntry }.

(** Whether the three statements of a call succeed, and the clocks of the row and
    of its audit record. *)
Record SqlCall := mkSqlCall { sq_select : bool; sq_write : bool; sq_audit : bool; sq_now : Z; sq_audit_now : Z }.

(** The row after an upsert: the dates and the author of the creation are kept
    on conflict; actor and action are those of the call. *)
Definition upsert_row (now : Z) (actor action : string) (old : option TargetConfig) (d : TargetConfig) : TargetConfig :=
  match old with
  | Some o => with_audit (created_at_ns o) now (created_by o) actor action (columns d)
  | None => with_audit (created_at_ns d) now (created_by d) actor action (columns d)
  end.

Definition sqlite_get_device (ok : bool) (a : string) (db : Sqlite) : option (option TargetConfig) :=
  if ok then Some (devices db !! a) else None.

Definition upsert_device (c : SqlCall) (d : TargetConfig) (actor action : string) (db : Sqlite) : Sqlite * bool :=
  match sqlite_get_device (sq_select c) (address d) db with
  | None => (db, false)
  | Some old =>
      if negb (sq_write c) then (db, false)
      else
        let db1 := mkSqlite (<[address d := upsert_row (sq_now c) actor action old d]> (devices db)) (audit_log db) in
        if negb (sq_audit c) then (db1, false)
        else (mkSqlite (devices db1)
               (audit_log db1 ++ [mkAuditEntry "devices" "UPSERT" (address d) actor action (sq_audit_now c) old (Some d)]), true)
  end.

Definition delete_device (c : SqlCall) (a actor : string) (db : Sqlite) : Sqlite * bool :=
  match sqlite_get_device (sq_select c) a db with
  | None => (db, false)
  | Some old =>
      if negb (sq_write c) then (db, false)
      else
        match devices db !! a with
        | None => (db, true)
        | Some _ =>
            let db1 := mkSqlite (delete a (devices db)) (audit_log db) in
            if negb (sq_audit c) then (db1, false)
            else (mkSqlite (devices db1)
                   (audit_log db1 ++ [mkAuditEntry "devices" "DELETE" a actor "registry_remove_device" (sq_audit_now c) old None]), true)
        end
  end.

(** ** The registry *)

(** The entries of a [BTreeMap] in the order of their keys. *)
Definition key_le {V} (a b : string * V) : Prop := String.leb a.1 b.1 = true.

#[global] Instance key_le_dec {V} (a b : string * V) : Decision (key_le a b).
Proof. unfold key_le. apply _. Defined.

Definition btree_values {V} (m : gmap string V) : list V := (merge_sort key_le (map_to_list m)).*2.

(** [serde_json] on the state, with [targets_from_json] the reader of a list after
    [trim_start].  The state is written as an object; a list is not read from an
    object. *)
Class RegistryJson := {
  registry_to_json : RegistryState -> option string;
  state_from_json : string -> option RegistryState;
  targets_from_json : string -> option (list TargetConfig);
  registry_json_object : forall st s, registry_to_json st = Some s -> exists r, s = String "{"%char r;
  targets_not_object : forall r, targets_from_json (String "{"%char r) = None;
}.

(** Where the state is made durable. *)
Inductive Backend := OnSqlite (db : Sqlite) | OnFile (file : option string).

Record ApiRegistry := mkApiRegistry { state : RegistryState; backend : Backend; changes : list RegistryChange }.

(** What a call meets: the statements made for each device when the state is
    persisted, those of the call's own statement, whether the file can be
    written, and the readings of the clock. *)
Record RegEnv := mkRegEnv { e_persist : string -> SqlCall; e_direct : SqlCall; e_file_ok : bool; e_now : Z; e_now2 : Z }.

Section Registry.
Context `{RegistryJson, HashOrder}.

(** Errors of the database are logged; an error of the file is returned. *)
Definition persist_state (env : RegEnv) (st : RegistryState) (b : Backend) : Backend * Reg unit :=
  match b with
  | OnSqlite db =>
      (OnSqlite (foldl (fun db t => (upsert_device (e_persist env (address t)) t "registry" "persist" db).1) db
                   (btree_values (targets st))), Ok tt)
  | OnFile file =>
      match registry_to_json st with
      | None => (OnFile file, Err "failed to serialize registry state"%string)
      | Some s => if e_file_ok env then (OnFile (Some s), Ok tt) else (OnFile file, Err "failed to write registry"%string)
      end
  end.

(** What a call still does when it has released the lock: its own statement, where
    there is a database and whatever its result, and then the announcement. *)
Record Tail := mkTail { tl_row : option (Sqlite -> Sqlite * bool); tl_change : option RegistryChange }.

Definition no_tail : Tail := mkTail None None.

Definition direct (f : option (Sqlite -> Sqlite * bool)) (b : Backend) : Backend :=
  match f, b with Some f, OnSqlite db => OnSqlite (f db).1 | _, _ => b end.

Definition write_row (tl : Tail) (r : ApiRegistry) : ApiRegistry := mkApiRegistry (state r) (direct (tl_row tl) (backend r)) (changes r).

Definition announce (tl : Tail) (r : ApiRegistry) : ApiRegistry :=
  mkApiRegistry (state r) (backend r) (changes r ++ option_list (tl_change tl)).

(** A call with nothing in between. *)
Definition complete {A} (x : ApiRegistry * Reg (Tail * A)) : ApiRegistry * Reg A :=
  match x with
  | (r, Ok (tl, a)) => (announce tl (write_row tl r), Ok a)
  | (r, Err e) => (r, Err e) | (r, Panic) => (r, Panic) | (r, Diverge) => (r, Diverge)
  end.

Definition get_device (a : string) (r : ApiRegistry) : option TargetConfig := targets (state r) !! a.

Definition put_target (a : string) (t : TargetConfig) (st : RegistryState) : RegistryState :=
  mkRegistryState (<[a := t]> (targets st)) (overrides st).

(** The end of a locked part: the state is persisted, and the rest is left to do if
    that succeeded. *)
Definition persist_then {A} (env : RegEnv) (st : RegistryState) (r : ApiRegistry) (tl : Tail) (a : A) : ApiRegistry * Reg (Tail * A) :=
  match persist_state env st (backend r) with
  | (b, Ok _) => (mkApiRegistry st b (changes r), Ok (tl, a))
  | (b, Err e) => (mkApiRegistry st b (changes r), Err e)
  | (b, Panic) => (mkApiRegistry st b (changes r), Panic)
  | (b, Diverge) => (mkApiRegistry st b (changes r), Diverge)
  end.

Definition add_device_locked (env : RegEnv) (t : TargetConfig) (actor action : string) (r : ApiRegistry) :
  ApiRegistry * Reg (Tail * TargetConfig) :=
  match normalize_address (address t) with
  | Ok a =>
      let t := stamp_new_target_audit (e_now env) actor action (with_address a t) in
      match targets (state r) !! a with
      | Some _ => (r, Err ("device '" ++ a ++ "' already exists")%string)
      | None => persist_then env (put_target a t (state r)) r
                  (mkTail (Some (upsert_device (e_direct env) t "registry" "add_device")) (Some (Added t))) t
      end
  | Err e => (r, Err e) | Panic => (r, Panic) | Diverge => (r, Diverge)
  end.

Definition add_device_with_audit (env : RegEnv) (t : TargetConfig) (actor action : string) (r : ApiRegistry) :
  ApiRegistry * Reg TargetConfig := complete (add_device_locked env t actor action r).

Definition update_device_locked (env : RegEnv) (t : TargetConfig) (actor action : string) (r : ApiRegistry) :
  ApiRegistry * Reg (Tail * TargetConfig) :=
  match normalize_address (address t) with
  | Ok a =>
      match targets (state r) !! a with
      | None => (r, Err ("device '" ++ a ++ "' does not exist")%string)
      | Some existing =>
          let t := stamp_existing_target_audit (e_now env) (e_now2 env) actor action existing (with_address a t) in
          persist_then env (put_target a t (state r)) r (mkTail None (Some (Updated t))) t
      end
  | Err e => (r, Err e) | Panic => (r, Panic) | Diverge => (r, Diverge)
  end.

Definition update_device_with_audit (env : RegEnv) (t : TargetConfig) (actor action : string) (r : ApiRegistry) :
  ApiRegistry * Reg TargetConfig := complete (update_device_locked env t actor action r).

Definition remove_device_locked (env : RegEnv) (a : string) (r : ApiRegistry) : ApiRegistry * Reg (Tail * option TargetConfig) :=
  match normalize_address a with
  | Ok a =>
      match targets (state r) !! a with
      | None => (r, Ok (no_tail, None))
      | Some t =>
          persist_then env (mkRegistryState (delete a (targets (state r))) (overrides (state r))) r
            (mkTail (Some (delete_device (e_direct env) a "registry_remove_device")) (Some (Removed a))) (Some t)
      end
  | Err e => (r, Err e) | Panic => (r, Panic) | Diverge => (r, Diverge)
  end.

Definition remove_device (env : RegEnv) (a : string) (r : ApiRegistry) : ApiRegistry * Reg (option TargetConfig) :=
  complete (remove_device_locked env a r).

Definition assign_device_locked (env : RegEnv) (a : string) (c : option string) (actor action : string) (r : ApiRegistry) :
  ApiRegistry * Reg (Tail * TargetConfig) :=
  match normalize_address a with
  | Ok a =>
      match targets (state r) !! a with
      | None => (r, Err ("device '" ++ a ++ "' does not exist")%string)
      | Some t =>
          let t := with_audit (created_at_ns t) (e_now env) (created_by t) actor action (with_collector c t) in
          persist_then env (put_target a t (state r)) r (mkTail None (Some (Updated t))) t
      end
  | Err e => (r, Err e) | Panic => (r, Panic) | Diverge => (r, Diverge)
  end.

Definition assign_device_with_audit (env : RegEnv) (a : string) (c : option string) (actor action : string) (r : ApiRegistry) :
  ApiRegistry * Reg TargetConfig := complete (assign_device_locked env a c actor action r).

(** The calls without an actor take the one of the environment. *)
Definition add_device (env : RegEnv) (actor : string) (t : TargetConfig) := add_device_with_audit env t actor "registry_add_device".
Definition update_device (env : RegEnv) (actor : string) (t : TargetConfig) :=
  update_device_with_audit env t actor "registry_update_device".
Definition assign_device (env : RegEnv) (actor a : string) (c : option string) :=
  assign_device_with_audit env a c actor "registry_assign_device".

Definition list_overrides (r : ApiRegistry) : list PathOverride := overrides (state r).

(** The calls for overrides hold the lock to their end. *)
Definition add_override_locked (env : RegEnv) (o : PathOverride) (r : ApiRegistry) : ApiRegistry * Reg (Tail * unit) :=
  persist_then env (mkRegistryState (targets (state r)) (overrides (state r) ++ [o])) r no_tail tt.

Definition add_override (env : RegEnv) (o : PathOverride) (r : ApiRegistry) : ApiRegistry * Reg unit :=
  complete (add_override_locked env o r).

Definition remove_override_locked (env : RegEnv) (s : OverrideScope) (p : string) (r : ApiRegistry) : ApiRegistry * Reg (Tail * bool) :=
  let kept := base.filter (fun o => ~ (scope o = s /\ ov_path o = p)) (overrides (state r)) in
  if bool_decide (length kept = length (overrides (state r))) then (r, Ok (no_tail, false))
  else persist_then env (mkRegistryState (targets (state r)) kept) r no_tail true.

Definition remove_override (env : RegEnv) (s : OverrideScope) (p : string) (r : ApiRegistry) : ApiRegistry * Reg bool :=
  complete (remove_override_locked env s p r).

Definition list_all_targets (r : ApiRegistry) : list TargetConfig := btree_values (targets (state r)).
Definition list_active (r : ApiRegistry) : list TargetConfig := btree_values (targets (state r)).

Definition list_assigned_to (c : string) (r : ApiRegistry) : list TargetConfig :=
  base.filter (fun t => collector_id t = Some c) (list_all_targets r).

(** ** Opening *)

(** Devices of the old file become rows, once. *)
Definition migrate_from_json (file : option string) (db : Sqlite) : Sqlite :=
  if bool_decide (devices db = ∅) then
    match file ≫= state_from_json with
    | Some st => mkSqlite (map_imap (fun a t => Some (columns (with_address a t))) (targets st)) (audit_log db)
    | None => db
    end
  else db.

(** Both forms of the file are read as a list of devices. *)
Definition load_targets (ok : bool) (b : Backend) : Reg (list TargetConfig) :=
  match b with
  | OnSqlite db => Ok (if ok then hash_vals (devices db) else [])
  | OnFile (Some raw) => or_err (targets_from_json raw) "failed to parse registry"%string
  | OnFile None => Ok []
  end.

Definition merge_seed (ts : list TargetConfig) (s : TargetConfig) : Reg (list TargetConfig) :=
  a ← normalize_address (address s);
  let s := with_address a s in
  match list_find (fun t => address t = a) ts with
  | Some (i, t) => Ok (<[i := merge_seed_target t s]> ts)
  | None => Ok (ts ++ [s])
  end.

Fixpoint merge_seeds (ts : list TargetConfig) (seeds : list TargetConfig) : Reg (list TargetConfig) :=
  match seeds with
  | [] => Ok ts
  | s :: seeds => ts ← merge_seed ts s; merge_seeds ts seeds
  end.

(** [ok]: the table can be read. *)
Definition load_state (env : RegEnv) (ok : bool) (seeds : list TargetConfig) (b : Backend) : Backend * Reg RegistryState :=
  match (ts ← load_targets ok b; merge_seeds ts seeds) with
  | Ok ts =>
      let st := from_targets ts in
      match persist_state env st b with
      | (b', Ok _) => (b', Ok st)
      | (b', Err e) => (b', Err e) | (b', Panic) => (b', Panic) | (b', Diverge) => (b', Diverge)
      end
  | Err e => (b, Err e) | Panic => (b, Panic) | Diverge => (b, Diverge)
  end.

(** [db]: the database, if it can be opened; [file]: the registry file. *)
Definition open (env : RegEnv) (ok : bool) (db : option Sqlite) (file : option string) (seeds : list TargetConfig) :
  Backend * Reg ApiRegistry :=
  let b := match db with Some db => OnSqlite (migrate_from_json file db) | None => OnFile file end in
  match load_state env ok seeds b with
  | (b', Ok st) => (b', Ok (mkApiRegistry st b' []))
  | (b', Err e) => (b', Err e) | (b', Panic) => (b', Panic) | (b', Diverge) => (b', Diverge)
  end.

(** ** Histories *)

Inductive RegOp :=
  | RAdd (env : RegEnv) (t : TargetConfig) (actor action : string)
  | RUpdate (env : RegEnv) (t : TargetConfig) (actor action : string)
  | RRemove (env : RegEnv) (a : string)
  | RAssign (env : RegEnv) (a : string) (c : option string) (actor action : string)
  | RAddOverride (env : RegEnv) (o : PathOverride)
  | RRemoveOverride (env : RegEnv) (s : OverrideScope) (p : string).

Definition reg_op (r : ApiRegistry) (op : RegOp) : ApiRegistry :=
  match op with
  | RAdd env t actor action => (add_device_with_audit env t actor action r).1
  | RUpdate env t actor action => (update_device_with_audit env t actor action r).1
  | RRemove env a => (remove_device env a r).1
  | RAssign env a c actor action => (assign_device_with_audit env a c actor action r).1
  | RAddOverride env o => (add_override env o r).1
  | RRemoveOverride env s p => (remove_override env s p r).1
  end.

Definition reg_run (ops : list RegOp) (r : ApiRegistry) : ApiRegistry := foldl reg_op r ops.

(** The locked part of a call, with what it leaves to do. *)
Definition tail_of {A} (x : ApiRegistry * Reg (Tail * A)) : ApiRegistry * option Tail :=
  (x.1, match x.2 with Ok (tl, _) => Some tl | _ => None end).

Definition reg_begin (r : ApiRegistry) (op : RegOp) : ApiRegistry * option Tail :=
  match op with
  | RAdd env t actor action => tail_of (add_device_locked env t actor action r)
  | RUpdate env t actor action => tail_of (update_device_locked env t actor action r)
  | RRemove env a => tail_of (remove_device_locked env a r)
  | RAssign env a c actor action => tail_of (assign_device_locked env a c actor action r)
  | RAddOverride env o => tail_of (add_override_locked env o r)
  | RRemoveOverride env s p => tail_of (remove_override_locked env s p r)
  end.

(** Calls of several threads: their locked parts, their own statements and their
    announcements come in any order that is that of each call. *)
Record RegSystem := mkRegSystem { registry : ApiRegistry; tails : list Tail }.

Inductive reg_step : RegSystem -> RegSystem -> Prop :=
  | call_locked op r tls r' o : reg_begin r op = (r', o) -> reg_step (mkRegSystem r tls) (mkRegSystem r' (tls ++ option_list o))
  | call_row r tls1 tl tls2 :
      reg_step (mkRegSystem r (tls1 ++ tl :: tls2)) (mkRegSystem (write_row tl r) (tls1 ++ mkTail None (tl_change tl) :: tls2))
  | call_announces r tls1 tl tls2 :
      tl_row tl = None -> reg_step (mkRegSystem r (tls1 ++ tl :: tls2)) (mkRegSystem (announce tl r) (tls1 ++ tls2)).

(** *** The shapes of a call

    A call leaves the registry alone, or persists a new state and goes on; the
    new state differs in one device or in the overrides. *)

(** Addresses in normal form. *)
Definition valid_address (a : string) : bool := bool_decide (trim_text a = a) && (is_valid_host_port a || is_valid_host a).

Inductive Edit := EPut (t : TargetConfig) | EDelete (a : string) | EOverrides (os : list PathOverride).

Definition edit (e : Edit) (st : RegistryState) : RegistryState :=
  match e with
  | EPut t => put_target (address t) t st
  | EDelete a => mkRegistryState (delete a (targets st)) (overrides st)
  | EOverrides os => mkRegistryState (targets st) os
  end.

(** What a call announces, and what it does to the database beyond persisting. *)
Definition announced (e : Edit) (ch : option RegistryChange) : Prop :=
  match e with
  | EPut t => ch = Some (Added t) \/ ch = Some (Updated t)
  | EDelete a => ch = Some (Removed a)
  | EOverrides _ => ch = None
  end.

Definition follow_up (env : RegEnv) (e : Edit) (row : option (Sqlite -> Sqlite * bool)) : Prop :=
  match e with
  | EPut t => row = None \/ row = Some (upsert_device (e_direct env) t "registry" "add_device")
  | EDelete a => row = Some (delete_device (e_direct env) a "registry_remove_device")
  | EOverrides _ => row = None
  end.

Definition op_env (op : RegOp) : RegEnv :=
  match op with RAdd e _ _ _ | RUpdate e _ _ _ | RRemove e _ | RAssign e _ _ _ _ | RAddOverride e _ | RRemoveOverride e _ _ => e end.

Lemma normalize_address_inv a a' : normalize_address a = Ok a' -> valid_address a' = true.
Proof.
  unfold normalize_address, valid_address. case_if; [|done]. intros [= <-]. rewrite trim_text_idemp, bool_decide_true by done. done.
Qed.

Lemma valid_address_normal a : valid_address a = true -> normalize_address a = Ok a.
Proof.
  unfold valid_address, normalize_address. intros [Ht Hv]%andb_prop. apply bool_decide_eq_true in Ht. by rewrite Ht, Hv.
Qed.

Lemma persist_then_cases {A} env st r tl (a : A) (P : ApiRegistry * option Tail -> Prop) :
  (forall b e, persist_state env st (backend r) = (b, Err e) -> P (mkApiRegistry st b (changes r), None)) ->
  (forall b, persist_state env st (backend r) = (b, Ok tt) -> P (mkApiRegistry st b (changes r), Some tl)) ->
  P (tail_of (persist_then env st r tl a)).
Proof.
  intros He Ho. unfold persist_then, tail_of. destruct (persist_state env st (backend r)) as [b o] eqn:Hp.
  destruct o as [[]| | |]; cbn.
  - by apply Ho.
  - by eapply He.
  - unfold persist_state in Hp. by repeat case_match.
  - unfold persist_state in Hp. by repeat case_match.
Qed.

(** Every device is filed under its own address. *)
Definition filed_targets (st : RegistryState) : Prop := forall a t, targets st !! a = Some t -> address t = a.

(** The cases of the locked part of a call: no change, a change that could not be
    persisted, and a change that was. *)
Lemma reg_begin_cases r op (P : ApiRegistry * option Tail -> Prop) :
  filed_targets (state r) -> (forall o, o = None \/ o = Some no_tail -> P (r, o)) ->
  (forall e b err, match e with EPut t => valid_address (address t) = true | _ => True end ->
     persist_state (op_env op) (edit e (state r)) (backend r) = (b, Err err) ->
     P (mkApiRegistry (edit e (state r)) b (changes r), None)) ->
  (forall e b tl, match e with EPut t => valid_address (address t) = true | _ => True end ->
     persist_state (op_env op) (edit e (state r)) (backend r) = (b, Ok tt) ->
     announced e (tl_change tl) -> follow_up (op_env op) e (tl_row tl) ->
     P (mkApiRegistry (edit e (state r)) b (changes r), Some tl)) ->
  P (reg_begin r op).
Proof.
  intros Hfiled H0' Hbad Hgood. destruct op as [env t actor action|env t actor action|env a|env a c actor action|env o|env s p];
    cbn [reg_begin op_env] in *.
  - unfold add_device_locked. destruct (normalize_address (address t)) as [a| | |] eqn:Ha; try (by apply H0'; left).
    apply normalize_address_inv in Ha. case_match; [by apply H0'; left|].
    set (t' := stamp_new_target_audit _ _ _ _). assert (put_target a t' (state r) = edit (EPut t') (state r)) as -> by done.
    apply persist_then_cases; [intros; by eapply (Hbad (EPut t'))|].
    intros b Hp. eapply (Hgood (EPut t')); [done|done|by left|by right].
  - unfold update_device_locked. destruct (normalize_address (address t)) as [a| | |] eqn:Ha; try (by apply H0'; left).
    apply normalize_address_inv in Ha. case_match; [|by apply H0'; left].
    set (t' := stamp_existing_target_audit _ _ _ _ _ _). assert (put_target a t' (state r) = edit (EPut t') (state r)) as -> by done.
    apply persist_then_cases; [intros; by eapply (Hbad (EPut t'))|].
    intros b Hp. eapply (Hgood (EPut t')); [done|done|by right|by left].
  - unfold remove_device_locked. destruct (normalize_address a) as [a'| | |] eqn:Ha; try (by apply H0'; left).
    case_match; [|by apply H0'; right].
    apply persist_then_cases; [intros; by eapply (Hbad (EDelete a'))|]. intros b Hp. by eapply (Hgood (EDelete a')).
  - unfold assign_device_locked. destruct (normalize_address a) as [a'| | |] eqn:Ha; try (by apply H0'; left).
    apply normalize_address_inv in Ha. case_match eqn:Ht; [|by apply H0'; left].
    set (t' := with_audit _ _ _ _ _ _).
    assert (put_target a' t' (state r) = edit (EPut t') (state r)) as -> by (cbn; by rewrite (Hfiled _ _ Ht)).
    assert (valid_address (address t') = true) by (cbn; by rewrite (Hfiled _ _ Ht)).
    apply persist_then_cases; [intros; by eapply (Hbad (EPut t'))|].
    intros b Hp. eapply (Hgood (EPut t')); [done|done|by right|by left].
  - unfold add_override_locked. apply persist_then_cases; [intros; by eapply (Hbad (EOverrides _))|].
    intros b Hp. by eapply (Hgood (EOverrides _)).
  - unfold remove_override_locked. case_if; [by apply H0'; right|]. apply persist_then_cases; [intros; by eapply (Hbad (EOverrides _))|].
    intros b Hp. by eapply (Hgood (EOverrides _)).
Qed.

Lemma complete_tail {A} (x : ApiRegistry * Reg (Tail * A)) :
  (complete x).1 = match (tail_of x).2 with Some tl => announce tl (write_row tl (tail_of x).1) | None => (tail_of x).1 end.
Proof. by destruct x as [r [[tl a]| | |]]. Qed.

Lemma reg_op_begin r op :
  reg_op r op = match (reg_begin r op).2 with Some tl => announce tl (write_row tl (reg_begin r op).1) | None => (reg_begin r op).1 end.
Proof. destruct op; apply complete_tail. Qed.

(** The cases of a call. *)
Lemma reg_op_cases r op (P : ApiRegistry -> Prop) :
  filed_targets (state r) -> P r ->
  (forall e b err, match e with EPut t => valid_address (address t) = true | _ => True end ->
     persist_state (op_env op) (edit e (state r)) (backend r) = (b, Err err) ->
     P (mkApiRegistry (edit e (state r)) b (changes r))) ->
  (forall e b row ch, match e with EPut t => valid_address (address t) = true | _ => True end ->
     persist_state (op_env op) (edit e (state r)) (backend r) = (b, Ok tt) ->
     announced e ch -> follow_up (op_env op) e row ->
     P (mkApiRegistry (edit e (state r)) (direct row b) (changes r ++ option_list ch))) ->
  P (reg_op r op).
Proof.
  intros Hf H0' Hbad Hgood. rewrite reg_op_begin.
  apply (reg_begin_cases r op (fun x => P match x.2 with Some tl => announce tl (write_row tl x.1) | None => x.1 end)); [done|..].
  - intros o [->| ->]; [done|]. unfold announce, write_row. cbn. rewrite app_nil_r. by destruct r.
  - intros e b err He Hp. by eapply Hbad.
  - intros e b tl He Hp Han Hfol. by eapply Hgood.
Qed.

Lemma filed_edit e st : filed_targets st -> filed_targets (edit e st).
Proof.
  intros Hf a t. destruct e as [t'|a'|os]; cbn; [|rewrite lookup_delete_Some; intros [_ ?]; by apply Hf|apply Hf].
  rewrite lookup_insert_Some. intros [[<- <-]|[_ ?]]; [done|by apply Hf].
Qed.

(** *** Types *)

(** Devices are filed under their own address, which is a host or a host and a port. *)
Definition well_formed (st : RegistryState) : Prop :=
  filed_targets st /\ forall a t, targets st !! a = Some t -> valid_address a = true.

Lemma well_formed_edit e st :
  match e with EPut t => valid_address (address t) = true | _ => True end -> well_formed st -> well_formed (edit e st).
Proof.
  intros He [Hf Hv]. split; [by apply filed_edit|]. intros a t. destruct e as [t'|a'|os]; cbn.
  - rewrite lookup_insert_Some. intros [[<- <-]|[_ ?]]; [done|by eapply Hv].
  - rewrite lookup_delete_Some. intros [_ ?]. by eapply Hv.
  - apply Hv.
Qed.

Lemma well_formed_op r op : well_formed (state r) -> well_formed (state (reg_op r op)).
Proof.
  intros Hw. apply (reg_op_cases r op (fun r => well_formed (state r))); [apply Hw|done|..].
  - intros e b err He _. by apply well_formed_edit.
  - intros e b row ch He _ _ _. by apply well_formed_edit.
Qed.

Lemma well_formed_run ops r : well_formed (state r) -> well_formed (state (reg_run ops r)).
Proof. intros Hw. apply (foldl_keeps (fun r => well_formed (state r))); [intros; by apply well_formed_op|done]. Qed.

Lemma from_targets_lookup ts a t : targets (from_targets ts) !! a = Some t -> t ∈ ts /\ address t = a.
Proof.
  unfold from_targets. cbn.
  assert (forall m : gmap string TargetConfig, foldl (fun m t => <[address t := t]> m) m ts !! a = Some t -> (t ∈ ts /\ address t = a) \/ m !! a = Some t) as Hgen.
  { induction ts as [|x ts IH]; intros m Hm; cbn in Hm; [by right|]. apply IH in Hm as [[Hin Ha]|Hm].
    - left. split; [by right|done].
    - apply lookup_insert_Some in Hm as [[<- <-]|[_ Hm]]; [left; split; [left|done]|by right]. }
  intros [Hin|Hin]%Hgen; [done|]. by rewrite lookup_empty in Hin.
Qed.

Lemma merge_seeds_valid ts seeds ts' :
  merge_seeds ts seeds = Ok ts' -> Forall (fun t => valid_address (address t) = true) ts ->
  Forall (fun t => valid_address (address t) = true) ts'.
Proof.
  revert ts. induction seeds as [|s seeds IH]; intros ts Hm Hts; cbn in Hm; [by injection Hm as <-|].
  apply bind_Ok_inv in Hm as (ts1 & Hs & Hm). apply (IH ts1 Hm). unfold merge_seed in Hs.
  apply bind_Ok_inv in Hs as (a & Ha%normalize_address_inv & Hs).
  destruct (list_find _ ts) as [[i t]|] eqn:Hfind; injection Hs as <-.
  - apply list_find_Some in Hfind as (Hi & _ & _). apply Forall_insert; [done|]. cbn. by eapply (Forall_lookup_1 _ _ _ _ Hts).
  - apply Forall_app. split; [done|]. by constructor.
Qed.

(** Claim C28: after a start from a table of valid devices, with any seeds, and any
    calls, successful or not and with any failures of the store, every device is
    filed under its own address, and that is a host or a host and a port in
    normal form. *)
Theorem registry_well_formed (env : RegEnv) (ok : bool) (db : Sqlite) (seeds : list TargetConfig) (b : Backend)
    (r : ApiRegistry) (ops : list RegOp) :
  (forall a t, devices db !! a = Some t -> valid_address (address t) = true) ->
  open env ok (Some db) None seeds = (b, Ok r) ->
  well_formed (state (reg_run ops r)).
Proof.
  intros Hdb Ho. apply well_formed_run. unfold open in Ho. unfold load_state in Ho.
  assert (migrate_from_json None db = db) as Hm by (unfold migrate_from_json; by case_if). rewrite Hm in Ho.
  destruct (ts ← load_targets ok (OnSqlite db); merge_seeds ts seeds) as [ts| | |] eqn:Hts; try done.
  destruct (persist_state _ _ _) as [b' o]. destruct o as [[]| | |]; try done. injection Ho as <- <-.
  apply bind_Ok_inv in Hts as (ts0 & Hload & Hseeds). cbn in Hload. injection Hload as <-.
  assert (Forall (fun t => valid_address (address t) = true) ts) as Hv.
  { apply (merge_seeds_valid _ _ _ Hseeds). destruct ok; [|constructor]. apply Forall_forall.
    intros t (a & Ha)%elem_of_hash_vals. by eapply Hdb. }
  split; intros a t Ht; apply from_targets_lookup in Ht as [Hin Ha]; [done|].
  rewrite <- Ha. by apply (proj1 (Forall_forall _ _) Hv).
Qed.

(** *** The changes that are announced *)

Definition apply_change (m : gmap string TargetConfig) (c : RegistryChange) : gmap string TargetConfig :=
  match c with
  | Added t | Updated t => <[address t := t]> m
  | Removed a => delete a m
  end.

Definition replay (cs : list RegistryChange) (m : gmap string TargetConfig) : gmap string TargetConfig := foldl apply_change m cs.

Definition on_sqlite (r : ApiRegistry) : Prop := exists db, backend r = OnSqlite db.

Lemma persist_sqlite env st db : exists db', persist_state env st (OnSqlite db) = (OnSqlite db', Ok tt).
Proof. by eexists. Qed.

(** Calls on a database: nothing, or an edit that is announced. *)
Lemma reg_op_sqlite r op db (P : ApiRegistry -> Prop) :
  filed_targets (state r) -> backend r = OnSqlite db -> P r ->
  (forall e db' row ch, announced e ch -> follow_up (op_env op) e row ->
     direct row (persist_state (op_env op) (edit e (state r)) (OnSqlite db)).1 = OnSqlite db' ->
     P (mkApiRegistry (edit e (state r)) (OnSqlite db') (changes r ++ option_list ch))) ->
  P (reg_op r op).
Proof.
  intros Hf Hb H0' Hgood. apply reg_op_cases; [done|done|..]; rewrite Hb.
  - intros e b err _ Hp. done.
  - intros e b row ch _ Hp Han Hfol. cbn in Hp. injection Hp as <-.
    assert (exists db', direct row (persist_state (op_env op) (edit e (state r)) (OnSqlite db)).1 = OnSqlite db') as [db' Hdb'].
    { destruct row; by eexists. }
    cbn in Hdb'. rewrite Hdb'. by eapply Hgood.
Qed.

Lemma replay_announced e ch st :
  announced e ch -> targets (edit e st) = replay (option_list ch) (targets st).
Proof. destruct e as [t|a|os]; cbn; [intros [->| ->]|intros ->..]; done. Qed.

(** The device a change is about; changes of different devices commute. *)
Definition about (c : RegistryChange) : string := match c with Added t | Updated t => address t | Removed a => a end.

Lemma apply_change_comm m c c' : about c <> about c' -> apply_change (apply_change m c) c' = apply_change (apply_change m c') c.
Proof.
  intros Hne. destruct c, c'; cbn in *;
    first [by apply insert_insert_ne|by apply delete_insert_ne|by rewrite delete_insert_ne|by apply delete_delete].
Qed.

Lemma replay_app cs cs' m : replay (cs ++ cs') m = replay cs' (replay cs m).
Proof. apply foldl_app. Qed.

Lemma replay_perm cs cs' m : cs ≡ₚ cs' -> NoDup (about <$> cs) -> replay cs m = replay cs' m.
Proof.
  intros Hp. revert m. induction Hp as [|c cs cs' _ IH|c c' cs|cs1 cs2 cs3 H12 IH1 H23 IH2]; intros m Hnd; [done|..].
  - cbn in *. apply NoDup_cons in Hnd as [_ Hnd]. by apply IH.
  - cbn in *. unfold replay. cbn. rewrite apply_change_comm; [done|]. apply NoDup_cons in Hnd as [Hn _]. set_solver.
  - rewrite IH1 by done. apply IH2. by rewrite <- H12.
Qed.

(** The changes that are still to be announced. *)
Definition unannounced (y : RegSystem) : list RegistryChange := tails y ≫= fun tl => option_list (tl_change tl).

(** No two calls for one device are under way. *)
Definition apart (y : RegSystem) : Prop := NoDup (about <$> unannounced y).

(** The table is what the announced changes and those to come make of [m]. *)
Definition in_step (m : gmap string TargetConfig) (old : list RegistryChange) (y : RegSystem) : Prop :=
  filed_targets (state (registry y)) /\ on_sqlite (registry y) /\
  exists new, changes (registry y) = old ++ new /\ targets (state (registry y)) = replay (new ++ unannounced y) m.

Lemma in_step_locked m old op r tls r' o :
  in_step m old (mkRegSystem r tls) -> reg_begin r op = (r', o) -> in_step m old (mkRegSystem r' (tls ++ option_list o)).
Proof.
  intros (Hf & [db Hdb] & new & Hch & Ht) Hb.
  enough (let x := reg_begin r op in in_step m old (mkRegSystem x.1 (tls ++ option_list x.2))) as Hx by (by rewrite Hb in Hx).
  unfold in_step, unannounced in *. cbn [registry tails] in *.
  apply reg_begin_cases; [done|..]; cbn [fst snd state changes backend].
  - intros o' Ho. split_and!; [done|by exists db|]. exists new. split; [done|]. rewrite Ht. do 2 f_equal. rewrite bind_app.
    destruct Ho as [-> | ->]; cbn; by rewrite app_nil_r.
  - intros e b err _ Hp. by rewrite Hdb in Hp.
  - intros e b tl _ Hp Han _. rewrite Hdb in Hp. cbn in Hp. injection Hp as <-. split_and!; [by apply filed_edit|by eexists|].
    exists new. split; [done|]. rewrite (replay_announced e (tl_change tl)), Ht by done. rewrite bind_app. cbn. rewrite app_nil_r.
    by rewrite !replay_app.
Qed.

Lemma in_step_step m old y y' : in_step m old y -> apart y -> reg_step y y' -> in_step m old y'.
Proof.
  intros Hy Hap Hs. destruct Hs as [op r tls r' o Hb|r tls1 tl tls2|r tls1 tl tls2 Hrow]; [by eapply in_step_locked|..];
    destruct Hy as (Hf & [db Hdb] & new & Hch & Ht); unfold in_step, apart, unannounced in *; cbn [registry tails] in *;
    rewrite bind_app, bind_cons in *.
  - split_and!; [done| |by exists new]. exists match tl_row tl with Some f => (f db).1 | None => db end. cbn. rewrite Hdb. by destruct (tl_row tl).
  - split_and!; [done|by exists db|]. exists (new ++ option_list (tl_change tl)). cbn [announce changes state]. rewrite Hch, <- app_assoc. split; [done|].
    rewrite Ht, <- app_assoc, !(replay_app new). by apply replay_perm; [solve_Permutation|].
Qed.

(** Claim C26: calls of several threads interleave as they can: a call changes the
    devices under the lock, and writes its row and announces its change when it
    has released it.  On a database, whatever statements of it fail, and as long
    as no two calls for one device are under way at the same time, a subscriber
    that starts from the devices at some time and has applied the changes
    announced since, none missed, has the devices of the registry but for the
    calls that are under way, in whatever order these will announce their
    changes; when none is, it has the devices of the registry. *)
Theorem registry_changes_replay (r : ApiRegistry) (y : RegSystem) :
  filed_targets (state r) -> on_sqlite r ->
  rtc (fun y1 y2 => apart y1 /\ reg_step y1 y2) (mkRegSystem r []) y -> apart y ->
  exists new, changes (registry y) = changes r ++ new /\
    forall cs, cs ≡ₚ unannounced y -> targets (state (registry y)) = replay cs (replay new (targets (state r))).
Proof.
  intros Hf Hs Hr Hap.
  assert (in_step (targets (state r)) (changes r) y) as (_ & _ & new & Hch & Ht).
  { assert (in_step (targets (state r)) (changes r) (mkRegSystem r [])) as Hy by (split_and!; [done|done|]; exists []; by rewrite app_nil_r).
    clear Hap. revert Hy. induction Hr as [|y1 y2 y3 [Ha Hst] _ IH]; intros Hy; [done|]. apply IH. by eapply in_step_step. }
  exists new. split; [done|]. intros cs Hcs. rewrite Ht, replay_app. symmetry. apply replay_perm; [done|]. by rewrite Hcs.
Qed.

(** *** What a restart keeps *)

(** A device without its audit trail, its selected paths and its extra addresses. *)
Definition kept (t : TargetConfig) : TargetConfig := with_audit 0 0 "" "" "" (columns t).

(** The table holds the devices, as far as it has columns for them. *)
Definition mirrors (db : Sqlite) (st : RegistryState) : Prop :=
  forall a, kept <$> devices db !! a = kept <$> targets st !! a.

(** Rows are what the table can hold. *)
Definition rows_ok (db : Sqlite) : Prop := forall a t, devices db !! a = Some t -> columns t = t /\ address t = a.

Definition all_ok (c : SqlCall) : Prop := sq_select c = true /\ sq_write c = true /\ sq_audit c = true.

Lemma kept_upsert_row now actor action old t : kept (upsert_row now actor action old t) = kept t.
Proof. by destruct old. Qed.

Lemma upsert_device_devices c t actor action db :
  all_ok c -> exists row, devices (upsert_device c t actor action db).1 = <[address t := row]> (devices db) /\
    kept row = kept t /\ columns row = row /\ address row = address t.
Proof.
  intros (Hs & Hw & Ha). unfold upsert_device, sqlite_get_device. rewrite Hs, Hw, Ha. cbn. eexists. split; [done|].
  rewrite kept_upsert_row. by destruct (devices db !! address t).
Qed.

Lemma delete_device_devices c a actor db : all_ok c -> devices (delete_device c a actor db).1 = delete a (devices db).
Proof.
  intros (Hs & Hw & Ha). unfold delete_device, sqlite_get_device. rewrite Hs, Hw, Ha. cbn.
  destruct (devices db !! a) eqn:Hd; cbn; [done|]. by rewrite delete_id.
Qed.

Lemma elem_of_btree_values {V} (m : gmap string V) v : v ∈ btree_values m <-> exists k, m !! k = Some v.
Proof.
  unfold btree_values. rewrite list_elem_of_fmap. setoid_rewrite (merge_sort_Permutation key_le (map_to_list m)). split.
  - intros ([k v'] & -> & Hin). exists k. by apply elem_of_map_to_list.
  - intros [k Hk]. exists (k, v). split; [done|]. by apply elem_of_map_to_list.
Qed.

(** Persisting: the row of every device is the device's, other rows are left. *)
Lemma persist_rows (env : string -> SqlCall) ts db a :
  (forall x, all_ok (env x)) ->
  let db' := foldl (fun db t => (upsert_device (env (address t)) t "registry" "persist" db).1) db ts in
  (rows_ok db -> rows_ok db') /\
  ((exists t, t ∈ ts /\ address t = a /\ kept <$> devices db' !! a = Some (kept t)) \/
   ((forall t, t ∈ ts -> address t <> a) /\ devices db' !! a = devices db !! a)).
Proof.
  intros Hok. revert db. induction ts as [|t ts IH]; intros db; cbn [foldl].
  { split; [done|]. right. split; [by intros ? ?%elem_of_nil|done]. }
  destruct (upsert_device_devices (env (address t)) t "registry" "persist" db (Hok _)) as (row & Hdev & Hkept & Hcol & Hadr).
  destruct (IH (upsert_device (env (address t)) t "registry" "persist" db).1) as [Hrows Hcase]. split.
  - intros Hr. apply Hrows. intros a' t'. rewrite Hdev, lookup_insert_Some. intros [[<- <-]|[_ Ht']]; [done|by apply Hr].
  - destruct Hcase as [(t' & Ht' & Ha & Hk)|[Hno Hsame]]; [left; exists t'; split_and!; [by right|done|done]|].
    destruct (decide (address t = a)) as [Ha|Ha].
    + left. exists t. split_and!; [left|done|]. cbn zeta. rewrite Hsame, Hdev, <- Ha, lookup_insert_eq. cbn. by rewrite Hkept.
    + right. split; [intros t' [->|Ht']%elem_of_cons; [done|by apply Hno]|]. cbn zeta. by rewrite Hsame, Hdev, lookup_insert_ne.
Qed.

Definition env_ok (env : RegEnv) : Prop := (forall a, all_ok (e_persist env a)) /\ all_ok (e_direct env).

(** Persisting makes the table hold the devices, but does not remove rows. *)
Lemma persist_mirrors env st db a :
  env_ok env -> filed_targets st ->
  let db' := foldl (fun db t => (upsert_device (e_persist env (address t)) t "registry" "persist" db).1) db (btree_values (targets st)) in
  (rows_ok db -> rows_ok db') /\
  kept <$> devices db' !! a = match targets st !! a with Some t => Some (kept t) | None => kept <$> devices db !! a end.
Proof.
  intros [Hok _] Hf. destruct (persist_rows (e_persist env) (btree_values (targets st)) db a Hok) as [Hr Hcase].
  cbn zeta in *. split; [done|]. destruct Hcase as [(t & (k & Hk)%elem_of_btree_values & Ha & ->)|[Hno ->]].
  - pose proof (Hf _ _ Hk) as Hk'. rewrite Ha in Hk'. subst k. by rewrite Hk.
  - destruct (targets st !! a) as [t|] eqn:Ht; [|done]. exfalso. apply (Hno t); [apply elem_of_btree_values; by exists a|by apply Hf].
Qed.

Definition durable (r : ApiRegistry) : Prop :=
  filed_targets (state r) /\ exists db, backend r = OnSqlite db /\ rows_ok db /\ mirrors db (state r).

Lemma edit_lookup e st a :
  targets (edit e st) !! a =
  match e with
  | EPut t => if bool_decide (address t = a) then Some t else targets st !! a
  | EDelete x => if bool_decide (x = a) then None else targets st !! a
  | EOverrides _ => targets st !! a
  end.
Proof. destruct e as [t|x|os]; cbn; [..|done]; case_bool_decide; subst; by rewrite ?lookup_insert_eq, ?lookup_insert_ne, ?lookup_delete_eq, ?lookup_delete_ne. Qed.

Lemma follow_up_rows env e db db' row st :
  env_ok env -> rows_ok db -> follow_up env e row -> direct row (OnSqlite db) = OnSqlite db' ->
  (forall a, match e with EDelete x => x <> a | _ => True end -> kept <$> devices db !! a = kept <$> targets (edit e st) !! a) ->
  rows_ok db' /\ mirrors db' (edit e st).
Proof.
  intros [_ Hok] Hr Hfol Hdir Hm. destruct e as [t|x|os]; cbn [follow_up] in Hfol.
  - destruct Hfol as [-> | ->]; injection Hdir as <-; [split; [done|intros a; by apply Hm]|].
    destruct (upsert_device_devices (e_direct env) t "registry" "add_device" db Hok) as (row & Hdev & Hkept & Hcol & Hadr). split.
    + intros a t'. rewrite Hdev, lookup_insert_Some. intros [[<- <-]|[_ Ht']]; [done|by apply Hr].
    + intros a. rewrite Hdev. destruct (decide (address t = a)) as [<-|Hne].
      * rewrite lookup_insert_eq, edit_lookup, bool_decide_true by done. cbn. by rewrite Hkept.
      * rewrite lookup_insert_ne by done. by apply Hm.
  - subst row. injection Hdir as <-. split.
    + intros a t. rewrite delete_device_devices, lookup_delete_Some by done. intros [_ Ht]. by apply Hr.
    + intros a. rewrite delete_device_devices by done. destruct (decide (x = a)) as [<-|Hne].
      * by rewrite lookup_delete_eq, edit_lookup, bool_decide_true.
      * rewrite lookup_delete_ne by done. by apply Hm.
  - subst row. injection Hdir as <-. split; [done|]. intros a. by apply Hm.
Qed.

Lemma durable_op r op : env_ok (op_env op) -> durable r -> durable (reg_op r op).
Proof.
  intros Henv (Hf & db & Hdb & Hr & Hm). apply (reg_op_sqlite r op db); [done|done|by split; [|exists db]|].
  intros e db' row ch _ Hfol Hdir. split; [by apply filed_edit|]. exists db'. split; [done|].
  cbn [state persist_state fst] in *. set (db1 := foldl _ db _) in Hdir.
  assert (forall a, (rows_ok db -> rows_ok db1) /\
            kept <$> devices db1 !! a = match targets (edit e (state r)) !! a with Some t => Some (kept t) | None => kept <$> devices db !! a end)
    as Hp by (intros a; by apply persist_mirrors; [|apply filed_edit]).
  eapply follow_up_rows; [done| |exact Hfol|exact Hdir|]; [by apply (Hp ""%string)|].
  intros a Ha. rewrite (proj2 (Hp a)). destruct (targets (edit e (state r)) !! a) as [t|] eqn:Ht; [done|].
  rewrite (Hm a). rewrite edit_lookup in Ht. destruct e as [t|x|os]; [case_bool_decide; [done|]| |]; [by rewrite Ht| |by rewrite Ht].
  rewrite bool_decide_false in Ht by done. by rewrite Ht.
Qed.

Lemma durable_run ops r : Forall (fun op => env_ok (op_env op)) ops -> durable r -> durable (reg_run ops r).
Proof.
  rewrite Forall_forall. intros Hops Hd. apply (foldl_keeps durable); [|done]. intros r1 op Hin. apply durable_op. by apply Hops.
Qed.

Lemma from_targets_is_Some ts t : t ∈ ts -> is_Some (targets (from_targets ts) !! address t).
Proof.
  intros (l1 & l2 & ->)%list_elem_of_split. cbn. rewrite foldl_app. cbn.
  apply (foldl_keeps (fun m : gmap string TargetConfig => is_Some (m !! address t))).
  - intros m x _ Hm. rewrite lookup_insert_is_Some. destruct (decide (address x = address t)); [by left|by right].
  - rewrite lookup_insert_eq. by eexists.
Qed.

(** Loading a table without seeds gives its rows. *)
Lemma from_rows db a : rows_ok db -> targets (from_targets (hash_vals (devices db))) !! a = devices db !! a.
Proof.
  intros Hr. assert (forall t, targets (from_targets (hash_vals (devices db))) !! a = Some t -> devices db !! a = Some t) as Hfwd.
  { intros t [(k & Hk)%elem_of_hash_vals Ha]%from_targets_lookup. destruct (Hr _ _ Hk) as [_ Hk']. congruence. }
  destruct (devices db !! a) as [t|] eqn:Hd.
  - destruct (Hr _ _ Hd) as [_ Ha].
    destruct (from_targets_is_Some (hash_vals (devices db)) t) as [t' Ht']; [apply elem_of_hash_vals; by exists a|].
    rewrite Ha in Ht'. rewrite Ht'. f_equal. apply Hfwd in Ht'. congruence.
  - destruct (targets (from_targets (hash_vals (devices db))) !! a) as [t|]; [|done]. by specialize (Hfwd t eq_refl).
Qed.

(** Claim C27: when the statements of the database succeed, the devices survive a
    restart: after any calls, one after the other, that leave a device, opening the database again
    without seeds gives devices at the same addresses, alike in every field the
    table has a column for but the audit trail; the paths an operator selected,
    the extra addresses and all overrides of paths are gone.  (Once no device
    is left, opening the database imports the file of the earlier format.) *)
Theorem devices_survive_restart (ops : list RegOp) (r : ApiRegistry) (env : RegEnv) (file : option string) :
  durable r -> Forall (fun op => env_ok (op_env op)) ops -> targets (state (reg_run ops r)) <> ∅ ->
  exists db b r', backend (reg_run ops r) = OnSqlite db /\ open env true (Some db) file [] = (b, Ok r') /\
    (forall a, kept <$> targets (state r') !! a = kept <$> targets (state (reg_run ops r)) !! a) /\
    (forall a t, targets (state r') !! a = Some t -> selected_paths t = [] /\ extra_ips t = []) /\
    overrides (state r') = [].
Proof.
  intros Hd Hops Hne. destruct (durable_run ops r Hops Hd) as (Hf & db & Hdb & Hr & Hm).
  assert (migrate_from_json file db = db) as Hmig.
  { unfold migrate_from_json. rewrite bool_decide_false; [done|]. intros He. apply Hne. apply map_eq. intros a.
    specialize (Hm a). rewrite He, lookup_empty in Hm. cbn in Hm. rewrite lookup_empty. by destruct (targets (state (reg_run ops r)) !! a). }
  exists db. do 2 eexists. split; [done|]. unfold open, load_state. rewrite Hmig. cbn. split; [done|]. cbn [state].
  assert (forall a, targets (from_targets (hash_vals (devices db))) !! a = devices db !! a) as Hrows by (intros; by apply from_rows).
  cbn in Hrows. split_and!; [|intros a t|done]; [intros a|]; rewrite Hrows; [apply Hm|].
  intros Ht. destruct (Hr _ _ Ht) as [Hc _]. rewrite <- Hc. done.
Qed.

(** *** What does not survive *)

(** Without a database the registry cannot be opened twice: the file is written
    as an object and read as a list. *)
Theorem json_registry_never_reopens (env env' : RegEnv) (ok ok' : bool) (file : option string) (seeds seeds' : list TargetConfig)
    (b : Backend) (r : ApiRegistry) :
  open env ok None file seeds = (b, Ok r) ->
  exists s, b = OnFile (Some s) /\ (open env' ok' None (Some s) seeds').2 = Err "failed to parse registry"%string.
Proof.
  intros Ho. unfold open, load_state in Ho.
  destruct (ts ← load_targets ok (OnFile file); merge_seeds ts seeds) as [ts| | |]; try done.
  unfold persist_state in Ho. destruct (registry_to_json (from_targets ts)) as [s|] eqn:Hs; [|done].
  destruct (e_file_ok env); [|done]. injection Ho as <- <-. exists s. split; [done|].
  destruct (registry_json_object _ _ Hs) as [rest ->]. unfold open, load_state, load_targets. by rewrite targets_not_object.
Qed.

(** A call that reports an error has still registered the device, unannounced,
    when the file cannot be written. *)
Theorem failed_add_registers (env : RegEnv) (t : TargetConfig) (actor action : string) (r : ApiRegistry) (a : string) (file : option string) :
  normalize_address (address t) = Ok a -> targets (state r) !! a = None -> backend r = OnFile file -> e_file_ok env = false ->
  let x := add_device_with_audit env t actor action r in
  (exists e, x.2 = Err e) /\ is_Some (get_device a x.1) /\ changes x.1 = changes r.
Proof.
  intros Ha Hnew Hb Hfile x. unfold x, add_device_with_audit, add_device_locked. rewrite Ha, Hnew. unfold persist_then, persist_state. rewrite Hb, Hfile.
  destruct (registry_to_json _); cbn; split_and!; eauto; unfold get_device; cbn; rewrite lookup_insert_eq; by eexists.
Qed.

(** A device whose row cannot be deleted is reported as removed and is back
    after a restart. *)
Theorem failed_delete_resurrects (env : RegEnv) (a a' : string) (t row : TargetConfig) (r : ApiRegistry) (db : Sqlite) :
  normalize_address a = Ok a' -> targets (state r) !! a' = Some t -> backend r = OnSqlite db -> devices db !! a' = Some row ->
  (forall x, e_persist env x = e_direct env) -> sq_write (e_direct env) = false ->
  let x := remove_device env a r in
  x.2 = Ok (Some t) /\ get_device a' x.1 = None /\ exists db', backend x.1 = OnSqlite db' /\ devices db' !! a' = Some row.
Proof.
  intros Ha Ht Hb Hrow Hper Hw x. unfold x, remove_device, remove_device_locked. rewrite Ha, Ht. unfold persist_then, persist_state. rewrite Hb. cbn [fst snd].
  split_and!; [done|by apply lookup_delete_eq|]. eexists. split; [done|].
  assert (forall c t ac an db, sq_write c = false -> (upsert_device c t ac an db).1 = db) as Hup.
  { intros c t0 ac an db0 Hc. unfold upsert_device. case_match; [|done]. by rewrite Hc. }
  unfold delete_device. case_match; [rewrite Hw|]; cbn.
  1-2: apply (foldl_keeps (fun db => devices db !! a' = Some row)); [|done];
    intros db1 t1 _ Hdb1; rewrite Hper, Hup by done; exact Hdb1.
Qed.

(** A device on a database is registered with the operator's name, and its row
    names the registry: the persisting of the state is the last to write it. *)
Theorem row_names_registry (c : SqlCall) (t : TargetConfig) (db : Sqlite) :
  all_ok c ->
  exists row, devices (upsert_device c t "registry" "persist" db).1 !! address t = Some row /\
    updated_by row = "registry"%string /\ last_operator_action row = "persist"%string.
Proof.
  intros (Hs & Hw & Ha). unfold upsert_device, sqlite_get_device. rewrite Hs, Hw, Ha. cbn. rewrite lookup_insert_eq.
  eexists. split; [done|]. by destruct (devices db !! address t).
Qed.

End Registry.

(** ** Running the model *)

Section Demo.

#[local] Instance demo_order : HashOrder := trie_order.

#[local] Instance demo_json : RegistryJson.
Proof.
  refine {| registry_to_json _ := Some "{}"%string; state_from_json _ := None; targets_from_json _ := None |}.
  - intros st s [= <-]. by eexists.
  - done.
Defined.

Definition demo_call : SqlCall := mkSqlCall true true true 7 7.
Definition demo_env : RegEnv := mkRegEnv (fun _ => demo_call) demo_call true 5 6.

Definition demo_target : TargetConfig :=
  mkTargetConfig " 10.0.0.1:57400" true None None (Some "nokia") None None None None None (Some "leaf1") None (Some "dc-a") None
    [mkSelectedPath "/interfaces" "" "sample" 10 "" false] ["/bgp"] false ["10.9.9.9"] 0 0 "" "" "".

Definition demo_registry : ApiRegistry := mkApiRegistry (mkRegistryState ∅ []) (OnSqlite (mkSqlite ∅ [])) [].
Definition demo_ops : list RegOp := [RAdd demo_env demo_target "ann" "onboard"; RAssign demo_env "10.0.0.1:57400" (Some "c1") "ann" "assign"].

Lemma registry_well_formed_witness :
  well_formed (state (reg_run demo_ops demo_registry)).
Proof.
  apply (registry_well_formed demo_env true (mkSqlite ∅ []) [] (OnSqlite (mkSqlite ∅ [])) demo_registry demo_ops).
  - intros a t. cbn. by rewrite lookup_empty.
  - reflexivity.
Defined.

(** Two calls for two devices: both change the table, then both write their rows,
    and the second announces its change first. *)
Definition second_target : TargetConfig := with_address "10.0.0.2:57400" demo_target.
Definition add_first : RegOp := RAdd demo_env demo_target "ann" "onboard".
Definition add_second : RegOp := RAdd demo_env second_target "bob" "onboard".

Definition both_begun : RegSystem :=
  let x := reg_begin demo_registry add_first in
  let y := reg_begin x.1 add_second in
  mkRegSystem y.1 (option_list x.2 ++ option_list y.2).

Definition finish_at (i : nat) (y : RegSystem) : RegSystem :=
  match tails y !! i with
  | Some tl => mkRegSystem (announce tl (write_row tl (registry y))) (delete i (tails y))
  | None => y
  end.

Lemma finish_at_steps (Q : RegSystem -> Prop) i y :
  (i < length (tails y))%nat -> Q y -> (forall y', unannounced y' = unannounced y -> Q y') ->
  rtc (fun y1 y2 => Q y1 /\ reg_step y1 y2) y (finish_at i y).
Proof.
  intros [tl Hi]%lookup_lt_is_Some Hy HQ. unfold finish_at. rewrite Hi. destruct y as [r tls]. cbn [registry tails] in *.
  apply list_elem_of_split_length in Hi as (l1 & l2 & -> & Hi). eapply rtc_l; [split; [done|apply call_row]|].
  eapply rtc_l; [split; [|by apply call_announces]|].
  - apply HQ. unfold unannounced. cbn [tails]. by rewrite !bind_app, !bind_cons.
  - rewrite Hi, delete_middle. apply rtc_refl.
Qed.

Lemma registry_changes_replay_witness :
  exists new, changes (registry (finish_at 0 (finish_at 1 both_begun))) = [] ++ new /\ about <$> new = ["10.0.0.2:57400"; "10.0.0.1:57400"]%string /\
    targets (state (registry (finish_at 0 (finish_at 1 both_begun)))) = replay new ∅.
Proof.
  destruct (registry_changes_replay demo_registry (finish_at 0 (finish_at 1 both_begun))) as (new & Hch & Hr).
  - intros a t. cbn. by rewrite lookup_empty.
  - by eexists.
  - eapply rtc_l; [split; [apply NoDup_nil_2|apply (call_locked add_first); reflexivity]|].
    eapply rtc_l; [split; [apply (bool_decide_unpack _); vm_compute; reflexivity|apply (call_locked add_second); reflexivity]|].
    etransitivity; [apply (finish_at_steps apart 1 both_begun)|apply (finish_at_steps apart 0 (finish_at 1 both_begun))].
    1,4: vm_compute; lia.
    1,3: apply (bool_decide_unpack _); vm_compute; reflexivity.
    all: intros y' Hy'; unfold apart; rewrite Hy'; apply (bool_decide_unpack _); vm_compute; reflexivity.
  - apply NoDup_nil_2.
  - exists new. split_and!; [exact Hch| |by apply (Hr [])]. change (changes demo_registry ++ new) with new in Hch. rewrite <- Hch. vm_compute. reflexivity.
Defined.

(** Two calls for one device that overlap: it is added and removed, and the
    removal is announced first.  The table is empty, what was announced says
    that the device is there, and so does the database, whose row is written
    again after it was deleted. *)
Definition add_remove_begun : RegSystem :=
  let x := reg_begin demo_registry add_first in
  let y := reg_begin x.1 (RRemove demo_env "10.0.0.1:57400") in
  mkRegSystem y.1 (option_list x.2 ++ option_list y.2).

Example overlapping_calls_diverge :
  rtc reg_step (mkRegSystem demo_registry []) (finish_at 0 (finish_at 1 add_remove_begun)) /\
  let r := registry (finish_at 0 (finish_at 1 add_remove_begun)) in
  get_device "10.0.0.1:57400" r = None /\
  address <$> replay (changes r) ∅ !! "10.0.0.1:57400"%string = Some "10.0.0.1:57400"%string /\
  match backend r with OnSqlite db => address <$> devices db !! "10.0.0.1:57400"%string | _ => None end = Some "10.0.0.1:57400"%string.
Proof.
  split; [|split_and!; vm_compute; reflexivity].
  eapply rtc_l; [apply (call_locked add_first); reflexivity|].
  eapply rtc_l; [apply (call_locked (RRemove demo_env "10.0.0.1:57400")); reflexivity|].
  etransitivity; (eapply (rtc_subrel (fun y1 y2 => True /\ reg_step y1 y2)); [by intros ? ? [_ Hst]|]);
    [apply (finish_at_steps (fun _ => True) 1 add_remove_begun)|apply (finish_at_steps (fun _ => True) 0 (finish_at 1 add_remove_begun))];
    try done; vm_compute; lia.
Qed.

Lemma devices_survive_restart_witness :
  exists db b r', backend (reg_run demo_ops demo_registry) = OnSqlite db /\ open demo_env true (Some db) None [] = (b, Ok r') /\
    (forall a, kept <$> targets (state r') !! a = kept <$> targets (state (reg_run demo_ops demo_registry)) !! a) /\
    (forall a t, targets (state r') !! a = Some t -> selected_paths t = [] /\ extra_ips t = []) /\
    overrides (state r') = [].
Proof.
  apply (devices_survive_restart demo_ops demo_registry demo_env None).
  - split; [intros a t; cbn; by rewrite lookup_empty|]. exists (mkSqlite ∅ []). split_and!; [done| |].
    + intros a t. cbn. by rewrite lookup_empty.
    + intros a. cbn. by rewrite !lookup_empty.
  - repeat constructor.
  - intros He. apply (f_equal (fun m => m !! "10.0.0.1:57400"%string)) in He. vm_compute in He. discriminate He.
Defined.

(** The operator selected a path; after the restart the device has none. *)
Example selected_paths_lost :
  match open demo_env true (match backend (reg_run demo_ops demo_registry) with OnSqlite db => Some db | _ => None end) None [] with
  | (_, Ok r) => (fun t => (sp_path <$> selected_paths t, collector_id t, updated_by t)) <$> get_device "10.0.0.1:57400" r
                 = Some ([], Some "c1"%string, "registry"%string)
  | _ => False
  end /\
  (fun t => (sp_path <$> selected_paths t, updated_by t)) <$> get_device "10.0.0.1:57400" (reg_run demo_ops demo_registry)
    = Some (["/interfaces"%string], "ann"%string).
Proof. split; vm_compute; reflexivity. Qed.

Example addresses_accepted :
  is_valid_host <$> ["10.0.0.1"; "2001:db8::1"; "::ffff:10.0.0.1"; "router.lab"; "a b"; "-x"; "1::2::3"; ""]%string =
    [true; true; true; true; false; false; false; false] /\
  is_valid_host_port <$> ["10.0.0.1:57400"; "[::1]:57400"; "router:0"; "router:65536"; "::1"; "[::1]"]%string =
    [true; true; false; false; false; false].
Proof. split; vm_compute; reflexivity. Qed.

End Demo.
