(* ===== verification/Assignment.v ===== *)
(** * Assignment of devices to collectors ([src/assignment.rs])

    Collectors connect to the core and are sent the devices they are to watch.
    Rules, by site and role, say which collector a device goes to; a site stands
    for the sites below it.  [discovery.rs] resolves the paths a device is
    subscribed to, and [api.rs] carries a device over the wire.  The vault of
    credentials and the environment of the process are arguments. *)

From Stdlib Require Import ZArith Lia ZifyBool String Ascii.
From stdpp Require Import base numbers list option strings gmap fin_maps sorting.
From S2P Require Import Prelude RustStd HashMaps Jsonl Text Registry.

Local Open Scope Z_scope.

(** ** Rules and sites *)

Record AssignmentRule := mkAssignmentRule {
  match_site : string;
  match_role : option string;
  rule_collector : string;
  priority : Z;
}.

(** The fields of a site that are used. *)
Record SiteRecord := mkSiteRecord { site_id : string; site_name : string; parent_id : string }.

(** [rules.sort_by_key(|rule| Reverse(rule.priority))], a stable sort. *)
Definition higher (a b : AssignmentRule) : Prop := priority b <= priority a.

#[global] Instance higher_dec a b : Decision (higher a b).
Proof. unfold higher. apply _. Defined.

Definition sort_rules (rs : list AssignmentRule) : list AssignmentRule := merge_sort higher rs.

(** [if !val.is_empty() && !result.contains(val) { result.push(val) }] *)
Definition push_new (v : string) (acc : list string) : list string :=
  if bool_decide (v = ""%string) || bool_decide (v ∈ acc) then acc else acc ++ [v].

Definition is_site (key : string) (s : SiteRecord) : bool := bool_decide (site_name s = key) || bool_decide (site_id s = key).

Fixpoint climb (n : nat) (sites : list SiteRecord) (key : string) (acc : list string) : list string :=
  match n with
  | O => acc
  | S n' =>
      match List.find (is_site key) sites with
      | None => acc
      | Some s =>
          let acc := push_new (site_id s) (push_new (site_name s) acc) in
          if bool_decide (parent_id s = ""%string) || bool_decide (parent_id s ∈ acc) then acc else climb n' sites (parent_id s) acc
      end
  end.

Definition site_ancestor_set (device_site : string) (sites : list SiteRecord) : list string :=
  if bool_decide (device_site = ""%string) || bool_decide (sites = []) then [device_site]
  else climb 10 sites device_site [device_site].

Definition rule_matches (ancestors : list string) (device_role : string) (r : AssignmentRule) : bool :=
  bool_decide (match_site r ∈ ancestors) &&
  match match_role r with Some required => bool_decide (required = device_role) | None => true end.

Definition assign_by_rules (rules : list AssignmentRule) (sites : list SiteRecord) (t : TargetConfig) : option string :=
  let ancestors := site_ancestor_set (default ""%string (site t)) sites in
  rule_collector <$> List.find (rule_matches ancestors (default ""%string (role t))) rules.

(** ** Subscription paths ([discovery.rs]) *)

Definition scope_matches (d : TargetConfig) (s : OverrideScope) : bool :=
  match s with
  | ScopeSite x => bool_decide (site d = Some x)
  | RoleEnv r _ => bool_decide (default ""%string (role d) = r)
  | ScopeDevice x => bool_decide (address d = x)
  end.

Definition scope_str (s : OverrideScope) : string :=
  match s with
  | ScopeSite x => "site-override(" ++ x ++ ")"
  | RoleEnv r e => "role-override(" ++ r ++ "/" ++ e ++ ")"
  | ScopeDevice x => "device-override(" ++ x ++ ")"
  end%string.

Notation Resolve A := (Outcome Empty_set A).
Definition PathMap : Type := gmap string SelectedSubscriptionPath.

Section Paths.
Context `{BuildProfile}.

Definition apply_override (d : TargetConfig) (st : PathMap * list string) (o : PathOverride) : Resolve (PathMap * list string) :=
  let '(ps, audit) := st in
  if negb (scope_matches d (scope o)) then Ok st
  else
    let s := scope_str (scope o) in
    match ov_action o with
    | ActAdd =>
        interval ← checked_width 64 (default 10 (sample_interval_s o) * 1000000000);
        Ok (<[ov_path o := mkSelectedPath (ov_path o) ("override: " ++ s)%string "SAMPLE" interval "Added by override"
                             (default false (ov_optional o))]> ps,
            audit ++ [("Applied " ++ s ++ ": added path '" ++ ov_path o ++ "'")%string])
    | ActDrop =>
        match ps !! ov_path o with
        | Some _ => Ok (delete (ov_path o) ps, audit ++ [("Applied " ++ s ++ ": dropped path '" ++ ov_path o ++ "'")%string])
        | None => Ok st
        end
    | ActModify =>
        match ps !! ov_path o with
        | None => Ok st
        | Some p =>
            interval ← match sample_interval_s o with
                       | Some v => checked_width 64 (v * 1000000000)
                       | None => Ok (sp_sample_interval_ns p)
                       end;
            Ok (<[ov_path o := mkSelectedPath (sp_path p) ("override(mod): " ++ s)%string (sp_mode p) interval (sp_rationale p)
                                 (default (sp_optional p) (ov_optional o))]> ps,
                audit ++ [("Applied " ++ s ++ ": modified path '" ++ ov_path o ++ "'")%string])
        end
    end.

Definition base_paths (d : TargetConfig) : PathMap * list string :=
  match selected_paths d with
  | [] => (∅, ["Started with 0 paths (no base profile selected)"%string])
  | ps => (foldl (fun m p => <[sp_path p := p]> m) ∅ ps,
           [("Started from profile with " ++ fmt_dec (Z.of_nat (length ps)) ++ " paths")%string])
  end.

Definition resolve_subscription_paths (d : TargetConfig) (os : list PathOverride) :
  Resolve (list SelectedSubscriptionPath * list string) :=
  st ← for_each os (fun o st => apply_override d st o) (base_paths d);
  Ok (btree_values st.1, st.2 ++ [("Final path list has " ++ fmt_dec (Z.of_nat (size st.1)) ++ " paths")%string]).

End Paths.

(** ** The wire form of a device ([api.rs]) *)

Record ManagedDevice := mkManagedDevice {
  md_address : string;
  md_enabled : option bool;
  md_tls_domain : string;
  md_ca_cert : string;
  md_vendor : string;
  md_credential_alias : string;
  md_username_env : string;
  md_password_env : string;
  md_hostname : string;
  md_role : string;
  md_site : string;
  md_collector_id : string;
  md_selected_paths : list SelectedSubscriptionPath;
}.

Definition managed_device_from_target (t : TargetConfig) : ManagedDevice :=
  let s := default ""%string in
  mkManagedDevice (address t) (Some (enabled t)) (s (tls_domain t)) (s (ca_cert t)) (s (vendor t)) (s (credential_alias t))
    (s (username_env t)) (s (password_env t)) (s (hostname t)) (s (role t)) (s (site t)) (s (collector_id t)) (selected_paths t).

Definition option_string (v : string) : option string :=
  let trimmed := trim_text v in if bool_decide (trimmed = ""%string) then None else Some trimmed.

Definition target_from_managed_device (d : option ManagedDevice) : Reg TargetConfig :=
  match d with
  | None => Err "device is required"%string
  | Some d =>
      if blank (md_address d) then Err "device.address is required"%string
      else Ok (mkTargetConfig (md_address d) (default true (md_enabled d)) (option_string (md_tls_domain d)) (option_string (md_ca_cert d))
                 (option_string (md_vendor d)) (option_string (md_credential_alias d)) (option_string (md_username_env d))
                 (option_string (md_password_env d)) None None (option_string (md_hostname d)) (option_string (md_role d))
                 (option_string (md_site d)) (option_string (md_collector_id d)) (md_selected_paths d) [] false [] 0 0 "" "" "")
  end.

Record DeviceAssignment := mkDeviceAssignment { da_device : ManagedDevice; da_username : string; da_password : string }.

Record AssignmentUpdate := mkAssignmentUpdate { assignments : list DeviceAssignment; is_full_sync : bool }.

(** [TargetConfig::resolved_username] and [resolved_password] *)
Definition resolved (getenv : string -> option string) (var inline : option string) : option string :=
  match var with Some key => getenv key | None => inline end.

Definition with_selected_paths (ps : list SelectedSubscriptionPath) (t : TargetConfig) : TargetConfig :=
  mkTargetConfig (address t) (enabled t) (tls_domain t) (ca_cert t) (vendor t) (credential_alias t) (username_env t)
    (password_env t) (username t) (password t) (hostname t) (role t) (site t) (collector_id t) ps (paths t) (optional t)
    (extra_ips t) (created_at_ns t) (updated_at_ns t) (created_by t) (updated_by t) (last_operator_action t).

(** [vault]: what an alias resolves to, for the purpose of subscribing. *)
Definition credentials_of (vault : string -> option (string * string)) (getenv : string -> option string) (t : TargetConfig) :
  string * string :=
  match credential_alias t with
  | Some alias => default (""%string, ""%string) (vault alias)
  | None =>
      match resolved getenv (username_env t) (username t) with
      | Some u => (u, default ""%string (resolved getenv (password_env t) (password t)))
      | None => (""%string, ""%string)
      end
  end.

Definition create_assignment `{BuildProfile} (vault : string -> option (string * string)) (getenv : string -> option string)
    (os : list PathOverride) (t : TargetConfig) : Resolve DeviceAssignment :=
  let '(u, p) := credentials_of vault getenv t in
  r ← resolve_subscription_paths t os;
  Ok (mkDeviceAssignment (managed_device_from_target (with_selected_paths r.1 t)) u p).

(** ** The manager *)

Record ReceiverStatusRecord := mkReceiverStatus {
  rs_name : string;
  rs_state : string;
  rs_addr : string;
  rs_packet_count : Z;
  rs_error_count : Z;
  rs_last_error : option string;
}.

(** What a heartbeat carries; the utilisation is the bits of an [f32]. *)
Record Heartbeat := mkHeartbeat {
  queue_depth_updates : Z;
  subscription_count : Z;
  uptime_secs : Z;
  queue_bytes : Z;
  queue_utilization_pct : Z;
  active_subscribers : Z;
  failed_subscribers : Z;
  memory_used_bytes : Z;
  recent_warn_count : Z;
  recent_error_count : Z;
  receiver_statuses : list ReceiverStatusRecord;
}.

Definition no_heartbeat : Heartbeat := mkHeartbeat 0 0 0 0 0 0 0 0 0 0 [].

Record CollectorRuntimeState := mkRuntime { connected : bool; last_heartbeat_ns : Z; heartbeat : Heartbeat }.

Definition runtime_default : CollectorRuntimeState := mkRuntime false 0 no_heartbeat.

(** Beside the manager: what was sent to each connected collector, and the
    announced changes of connection. *)
Record CollectorManager := mkCollectorManager {
  registry : ApiRegistry;
  active_collectors : gmap string (list AssignmentUpdate);
  runtime_state : gmap string CollectorRuntimeState;
  rules : list AssignmentRule;
  sites_cache : list SiteRecord;
  published : list (string * bool);
}.

Definition with_registry (r : ApiRegistry) (m : CollectorManager) : CollectorManager :=
  mkCollectorManager r (active_collectors m) (runtime_state m) (rules m) (sites_cache m) (published m).

Section Manager.
Context `{RegistryJson, HashOrder, BuildProfile}.

(** What the calls of the registry meet, per device. *)
Context (env : string -> RegEnv).

Definition manager_new (r : ApiRegistry) (rs : list AssignmentRule) : CollectorManager :=
  mkCollectorManager r ∅ ∅ (sort_rules rs) [] [].

Definition get_rules (m : CollectorManager) : list AssignmentRule := rules m.

Definition set_sites (ss : list SiteRecord) (m : CollectorManager) : CollectorManager :=
  mkCollectorManager (registry m) (active_collectors m) (runtime_state m) (rules m) ss (published m).

(** One device of [reassign_unassigned]; an error of the registry is logged. *)
Definition reassign_one (rs : list AssignmentRule) (ss : list SiteRecord) (r : ApiRegistry) (t : TargetConfig) : ApiRegistry :=
  match collector_id t with
  | Some _ => r
  | None =>
      match assign_by_rules rs ss t with
      | Some c => (assign_device_with_audit (env (address t)) (address t) (Some c) "system" "assignment_rule_auto_assign" r).1
      | None => r
      end
  end.

Definition reassign_unassigned (m : CollectorManager) : CollectorManager :=
  with_registry (foldl (reassign_one (rules m) (sites_cache m)) (registry m) (list_all_targets (registry m))) m.

Definition set_rules (rs : list AssignmentRule) (m : CollectorManager) : CollectorManager :=
  reassign_unassigned
    (mkCollectorManager (registry m) (active_collectors m) (runtime_state m) (sort_rules rs) (sites_cache m) (published m)).

Definition register_collector (vault : string -> option (string * string)) (getenv : string -> option string) (now : Z) (cid : string)
    (m : CollectorManager) : Resolve (CollectorManager * AssignmentUpdate) :=
  az ← mapM (create_assignment vault getenv (list_overrides (registry m))) (list_assigned_to cid (registry m));
  let u := mkAssignmentUpdate az true in
  let rt := default runtime_default (runtime_state m !! cid) in
  Ok (mkCollectorManager (registry m) (<[cid := [u]]> (active_collectors m))
        (<[cid := mkRuntime true now (heartbeat rt)]> (runtime_state m)) (rules m) (sites_cache m) (published m ++ [(cid, true)]), u).

(** One device of a collector that left: cleared, then assigned by the rules. *)
Definition orphan_one (rs : list AssignmentRule) (ss : list SiteRecord) (r : ApiRegistry) (t : TargetConfig) : ApiRegistry :=
  match assign_device_with_audit (env (address t)) (address t) None "system" "collector_unregister_clear_assignment" r with
  | (r1, Ok _) =>
      match assign_by_rules rs ss t with
      | Some c => (assign_device_with_audit (env (address t)) (address t) (Some c) "system" "collector_unregister_reassign" r1).1
      | None => r1
      end
  | (r1, _) => r1
  end.

Definition unregister_collector (cid : string) (m : CollectorManager) : CollectorManager :=
  let rt := match runtime_state m !! cid with
            | Some s => <[cid := mkRuntime false (last_heartbeat_ns s) (heartbeat s)]> (runtime_state m)
            | None => runtime_state m
            end in
  mkCollectorManager (foldl (orphan_one (rules m) (sites_cache m)) (registry m) (list_assigned_to cid (registry m)))
    (delete cid (active_collectors m)) rt (rules m) (sites_cache m) (published m ++ [(cid, false)]).

Definition record_heartbeat (now : Z) (cid : string) (h : Heartbeat) (m : CollectorManager) : CollectorManager :=
  mkCollectorManager (registry m) (active_collectors m) (<[cid := mkRuntime true now h]> (runtime_state m)) (rules m) (sites_cache m)
    (published m).

Record CollectorStatus := mkCollectorStatus {
  cs_id : string;
  cs_connected : bool;
  assigned_device_count : Z;
  assigned_targets : list string;
  cs_last_heartbeat_ns : Z;
  cs_heartbeat : Heartbeat;
}.

Record CollectorStatusSummary := mkSummary { collectors : list CollectorStatus; unassigned_devices : list string }.

(** [by_collector] *)
Definition assigned_addresses (cid : string) (m : CollectorManager) : list string := address <$> list_assigned_to cid (registry m).

Definition known_collectors (m : CollectorManager) : gset string :=
  dom (active_collectors m) ∪ list_to_set (omap collector_id (list_all_targets (registry m))) ∪ dom (runtime_state m).

Definition status_of (m : CollectorManager) (cid : string) : CollectorStatus :=
  let rt := default runtime_default (runtime_state m !! cid) in
  let az := assigned_addresses cid m in
  mkCollectorStatus cid (bool_decide (is_Some (active_collectors m !! cid)) || connected rt) (Z.of_nat (length az)) az
    (last_heartbeat_ns rt) (heartbeat rt).

(** [a.id.cmp(&b.id)] *)
Definition id_le (a b : string) : Prop := String.leb a b = true.

#[global] Instance id_le_dec a b : Decision (id_le a b).
Proof. unfold id_le. apply _. Defined.

Definition collector_status_summary (m : CollectorManager) : CollectorStatusSummary :=
  let ids := merge_sort id_le (elements (known_collectors m)) in
  mkSummary (status_of m <$> ids) (address <$> base.filter (fun t => collector_id t = None) (list_all_targets (registry m))).

(** ** Which rule decides *)

(** The rules are kept by descending priority. *)
#[global] Instance higher_total : Total higher.
Proof. intros a b. unfold higher. lia. Qed.

#[global] Instance higher_trans : Transitive higher.
Proof. intros a b c. unfold higher. lia. Qed.

Lemma sort_rules_sorted rs : StronglySorted higher (sort_rules rs).
Proof. apply StronglySorted_merge_sort; apply _. Qed.

Lemma elem_of_sort_rules rs r : r ∈ sort_rules rs <-> r ∈ rs.
Proof. unfold sort_rules. by rewrite merge_sort_Permutation. Qed.

Lemma find_sorted {A} (R : relation A) (f : A -> bool) l x y :
  StronglySorted R l -> Reflexive R -> List.find f l = Some x -> y ∈ l -> f y = true -> R x y.
Proof.
  intros Hs Hrefl. induction Hs as [|z l Hs IH Hz]; cbn; [done|]. destruct (f z) eqn:Hf.
  - intros [= <-] [->|Hy]%elem_of_cons _; [done|]. rewrite Forall_forall in Hz. by apply Hz.
  - intros Hx [->|Hy]%elem_of_cons Hfy; [congruence|by apply IH].
Qed.

(** The collector a device goes to, if any, is that of a matching rule, and no
    matching rule has a greater priority. *)
Lemma assign_by_rules_best rs ss t c :
  assign_by_rules (sort_rules rs) ss t = Some c ->
  let matches := rule_matches (site_ancestor_set (default ""%string (site t)) ss) (default ""%string (role t)) in
  exists r, r ∈ rs /\ matches r = true /\ rule_collector r = c /\ forall r', r' ∈ rs -> matches r' = true -> priority r' <= priority r.
Proof.
  intros Ha matches. unfold assign_by_rules in Ha. fold matches in Ha.
  destruct (List.find matches (sort_rules rs)) as [r|] eqn:Hf; [|done]. injection Ha as <-.
  exists r. split_and!; [| |done|].
  - apply elem_of_sort_rules. apply find_some in Hf as [Hin _]. by apply list_elem_of_In.
  - by apply find_some in Hf as [_ ?].
  - intros r' Hr' Hm. apply (find_sorted higher matches (sort_rules rs) r r'); [apply sort_rules_sorted| |done|by apply elem_of_sort_rules|done].
    intros x. unfold higher. lia.
Qed.

Lemma assign_by_rules_none rs ss t :
  assign_by_rules (sort_rules rs) ss t = None ->
  forall r, r ∈ rs -> rule_matches (site_ancestor_set (default ""%string (site t)) ss) (default ""%string (role t)) r = false.
Proof.
  unfold assign_by_rules. destruct (List.find _ _) as [r|] eqn:Hf; [done|]. intros _ r Hr.
  apply elem_of_sort_rules, list_elem_of_In in Hr. by apply (find_none _ _ Hf).
Qed.

(** Sites above a device: the chain of parents. *)
Inductive above (ss : list SiteRecord) : string -> SiteRecord -> Prop :=
  | above_self key s : List.find (is_site key) ss = Some s -> above ss key s
  | above_parent key s s' : List.find (is_site key) ss = Some s -> above ss (parent_id s) s' -> above ss key s'.

Lemma push_new_elem v acc x : x ∈ push_new v acc -> x = v \/ x ∈ acc.
Proof. unfold push_new. case_if; [by right|]. rewrite elem_of_app, list_elem_of_singleton. tauto. Qed.

Lemma climb_above n ss key acc x :
  x ∈ climb n ss key acc -> x ∈ acc \/ exists s, above ss key s /\ (x = site_name s \/ x = site_id s).
Proof.
  revert key acc. induction n as [|n IH]; intros key acc Hx; cbn in Hx; [by left|].
  destruct (List.find (is_site key) ss) as [s|] eqn:Hf; [|by left].
  assert (forall x, x ∈ push_new (site_id s) (push_new (site_name s) acc) ->
            x ∈ acc \/ exists s, above ss key s /\ (x = site_name s \/ x = site_id s)) as Hpush.
  { intros y [->|[->|Hy]%push_new_elem]%push_new_elem; [right; exists s; split; [by constructor|auto]..|by left]. }
  case_if; [by apply Hpush|]. apply IH in Hx as [Hx|(s' & Hs' & Hx)]; [by apply Hpush|].
  right. exists s'. split; [by eapply above_parent|done].
Qed.

(** A rule for a site holds for a device of the site or of one below it only. *)
Theorem ancestors_above (d : string) (ss : list SiteRecord) (x : string) :
  x ∈ site_ancestor_set d ss -> x = d \/ exists s, above ss d s /\ (x = site_name s \/ x = site_id s).
Proof.
  unfold site_ancestor_set. case_if; [by intros ?%list_elem_of_singleton; left|].
  intros [Hx%list_elem_of_singleton|Hx]%climb_above; [by left|by right].
Qed.

(** ** The loops over devices *)

Definition collector_of (r : ApiRegistry) (a : string) : option (option string) := collector_id <$> get_device a r.

(** A registry on a database, in good order. *)
Definition sound (r : ApiRegistry) : Prop := well_formed (state r) /\ on_sqlite r.

Lemma assign_sound e a c actor action r t :
  sound r -> get_device a r = Some t ->
  let x := assign_device_with_audit e a c actor action r in
  sound x.1 /\ (exists t', x.2 = Ok t') /\
  forall b, collector_of x.1 b = if bool_decide (a = b) then Some c else collector_of r b.
Proof.
  intros [Hw [db Hdb]] Ht x. pose proof (well_formed_op r (RAssign e a c actor action) Hw) as Hw'. cbn in Hw'. fold x in Hw'.
  unfold get_device in Ht. assert (normalize_address a = Ok a) as Hn by (apply valid_address_normal; by eapply (proj2 Hw)).
  unfold x, assign_device_with_audit, assign_device_locked in *. rewrite Hn, Ht in *. unfold persist_then, persist_state in *. rewrite Hdb in *.
  cbn [complete announce write_row direct tl_row fst snd state backend] in *. split_and!; [split; [done|by eexists]|by eexists|].
  intros b. unfold collector_of, get_device. cbn. case_bool_decide; subst; by rewrite ?lookup_insert_eq, ?lookup_insert_ne.
Qed.

(** A loop that gives each device of a list the collector decided on. *)
Definition decides (f : ApiRegistry -> TargetConfig -> ApiRegistry) (d : TargetConfig -> option (option string)) : Prop :=
  forall r t, sound r -> is_Some (get_device (address t) r) ->
  sound (f r t) /\
  forall b, collector_of (f r t) b =
    if bool_decide (address t = b) then match d t with Some c => Some c | None => collector_of r b end else collector_of r b.

Lemma collector_present r a : is_Some (get_device a r) <-> is_Some (collector_of r a).
Proof. unfold collector_of. by rewrite fmap_is_Some. Qed.

Lemma decides_loop f d ts r :
  decides f d -> sound r -> (forall t, t ∈ ts -> is_Some (get_device (address t) r)) -> NoDup (address <$> ts) ->
  let r' := foldl f r ts in
  sound r' /\
  (forall t, t ∈ ts -> collector_of r' (address t) = match d t with Some c => Some c | None => collector_of r (address t) end) /\
  (forall a, a ∉ address <$> ts -> collector_of r' a = collector_of r a).
Proof.
  intros Hf. revert r. induction ts as [|t ts IH]; intros r Hs Hin Hnd; cbn [foldl].
  { split_and!; [done|by intros ? ?%elem_of_nil|done]. }
  apply NoDup_cons in Hnd as [Hnotin Hnd]. destruct (Hf r t Hs (Hin t ltac:(left))) as [Hs1 Hc1].
  destruct (IH (f r t)) as (Hs2 & Hin2 & Hout2); [done| |done|].
  { intros t' Ht'. apply collector_present. rewrite Hc1. case_bool_decide as Ha.
    - exfalso. apply Hnotin. rewrite Ha. by apply list_elem_of_fmap_2.
    - apply collector_present, Hin. by right. }
  split_and!; [done| |].
  - intros t' [->|Ht']%elem_of_cons.
    + rewrite Hout2 by done. by rewrite Hc1, bool_decide_true.
    + rewrite Hin2 by done. destruct (d t'); [done|]. rewrite Hc1, bool_decide_false; [done|]. intros Ha. apply Hnotin. rewrite Ha.
      by apply list_elem_of_fmap_2.
  - intros a Ha. cbn in Ha. apply not_elem_of_cons in Ha as [Ha1 Ha2]. rewrite Hout2 by done. by rewrite Hc1, bool_decide_false.
Qed.

Lemma list_all_targets_addresses r : filed_targets (state r) -> NoDup (address <$> list_all_targets r).
Proof.
  intros Hf. unfold list_all_targets, btree_values. rewrite <- list_fmap_compose.
  rewrite (list_fmap_ext _ fst (merge_sort key_le (map_to_list (targets (state r))))).
  - rewrite (merge_sort_Permutation key_le). apply NoDup_fst_map_to_list.
  - intros i [k t] Hi. apply list_elem_of_lookup_2 in Hi. rewrite merge_sort_Permutation in Hi. apply elem_of_map_to_list in Hi.
    cbn. by apply Hf.
Qed.

Lemma elem_of_list_all_targets r t : filed_targets (state r) -> t ∈ list_all_targets r <-> get_device (address t) r = Some t.
Proof.
  intros Hf. unfold list_all_targets. rewrite elem_of_btree_values. unfold get_device. split; [|by eexists].
  intros [k Hk]. by rewrite (Hf _ _ Hk).
Qed.

Lemma list_all_targets_present r t : filed_targets (state r) -> t ∈ list_all_targets r -> is_Some (get_device (address t) r).
Proof. intros Hf Ht%elem_of_list_all_targets; [|done]. by exists t. Qed.

Lemma elem_of_assigned cid r t : t ∈ list_assigned_to cid r <-> collector_id t = Some cid /\ t ∈ list_all_targets r.
Proof. unfold list_assigned_to. by rewrite list_elem_of_filter. Qed.

Lemma list_assigned_addresses cid r : filed_targets (state r) -> NoDup (address <$> list_assigned_to cid r).
Proof.
  intros Hf. eapply sublist_NoDup; [by apply list_all_targets_addresses|apply fmap_sublist, sublist_filter].
Qed.

(** An unassigned device gets the collector of the rules, if there is one. *)
Definition reassigned (rs : list AssignmentRule) (ss : list SiteRecord) (t : TargetConfig) : option (option string) :=
  match collector_id t with Some _ => None | None => Some <$> assign_by_rules rs ss t end.

Lemma reassign_one_decides rs ss : decides (reassign_one rs ss) (reassigned rs ss).
Proof.
  intros r t Hs Hp. unfold reassign_one, reassigned. destruct (collector_id t); [split; [done|]; intros b; by case_bool_decide|].
  destruct (assign_by_rules rs ss t) as [c|]; cbn; [|split; [done|]; intros b; by case_bool_decide].
  destruct Hp as [t' Ht']. destruct (assign_sound (env (address t)) (address t) (Some c) "system" "assignment_rule_auto_assign" r t')
    as (? & _ & ?); [done..|]. done.
Qed.

(** A device of a collector that left gets the collector of the rules, or none. *)
Lemma orphan_one_decides rs ss : decides (orphan_one rs ss) (fun t => Some (assign_by_rules rs ss t)).
Proof.
  intros r t Hs [t' Ht']. unfold orphan_one.
  destruct (assign_sound (env (address t)) (address t) None "system" "collector_unregister_clear_assignment" r t')
    as (Hs1 & [t1 Hok] & Hc1); [done..|].
  destruct (assign_device_with_audit (env (address t)) (address t) None "system" "collector_unregister_clear_assignment" r) as [r1 o].
  cbn [fst snd] in *. subst o. destruct (assign_by_rules rs ss t) as [c|]; [|split; [done|]; intros b; by rewrite Hc1].
  destruct (proj2 (collector_present r1 (address t))) as [t2 Ht2]; [rewrite Hc1, bool_decide_true by done; by eexists|].
  destruct (assign_sound (env (address t)) (address t) (Some c) "system" "collector_unregister_reassign" r1 t2) as (? & _ & Hc2);
    [done..|].
  split; [done|]. intros b. rewrite Hc2, Hc1. by case_bool_decide.
Qed.

(** After the rules are replaced, every device that had a collector has
    the same, and every one that had none goes to the collector of a rule that
    holds for its site, or a site above it, and its role, such that no rule that
    holds has a greater priority; it stays without one only if no rule holds. *)
Theorem set_rules_assigns (rs : list AssignmentRule) (m : CollectorManager) (a : string) (t : TargetConfig) :
  sound (registry m) -> get_device a (registry m) = Some t ->
  let m' := set_rules rs m in
  let holds := rule_matches (site_ancestor_set (default ""%string (site t)) (sites_cache m)) (default ""%string (role t)) in
  sound (registry m') /\
  match collector_id t with
  | Some c => collector_of (registry m') a = Some (Some c)
  | None =>
      (exists r, r ∈ rs /\ holds r = true /\ collector_of (registry m') a = Some (Some (rule_collector r)) /\
         forall r', r' ∈ rs -> holds r' = true -> priority r' <= priority r) \/
      (collector_of (registry m') a = Some None /\ forall r, r ∈ rs -> holds r = false)
  end.
Proof.
  intros Hs Ht m' holds. assert (filed_targets (state (registry m))) as Hf by apply Hs.
  assert (address t = a) as Ha by (by apply Hf).
  destruct (decides_loop (reassign_one (sort_rules rs) (sites_cache m)) (reassigned (sort_rules rs) (sites_cache m))
              (list_all_targets (registry m)) (registry m)) as (Hs' & Hin & _).
  - apply reassign_one_decides.
  - done.
  - intros x. by apply list_all_targets_present.
  - by apply list_all_targets_addresses.
  - split; [done|]. cbn. specialize (Hin t). rewrite Ha in Hin.
    assert (t ∈ list_all_targets (registry m)) as Htin by (apply elem_of_list_all_targets; [done|by rewrite Ha]).
    specialize (Hin Htin). assert (collector_of (registry m) a = Some (collector_id t)) as Hold by (unfold collector_of; by rewrite Ht). rewrite Hold in Hin. unfold reassigned in Hin. cbn in Hin.
    destruct (collector_id t) as [c|] eqn:Hc; [done|].
    destruct (assign_by_rules (sort_rules rs) (sites_cache m) t) as [c|] eqn:Hr; cbn in Hin.
    + left. destruct (assign_by_rules_best _ _ _ _ Hr) as (r & ? & ? & <- & ?). by exists r.
    + right. split; [done|]. by apply assign_by_rules_none.
Qed.

(** A collector that leaves loses its devices to the rules, and no other
    collector does. *)
Theorem unregister_reassigns (cid : string) (m : CollectorManager) (a : string) (t : TargetConfig) :
  sound (registry m) -> get_device a (registry m) = Some t ->
  let m' := unregister_collector cid m in
  sound (registry m') /\ active_collectors m' !! cid = None /\
  collector_of (registry m') a =
    Some (if bool_decide (collector_id t = Some cid) then assign_by_rules (rules m) (sites_cache m) t else collector_id t).
Proof.
  intros Hs Ht m'. assert (filed_targets (state (registry m))) as Hf by apply Hs. assert (address t = a) as Ha by (by apply Hf).
  assert (t ∈ list_all_targets (registry m)) as Htin by (apply elem_of_list_all_targets; [done|by rewrite Ha]).
  destruct (decides_loop (orphan_one (rules m) (sites_cache m)) (fun t => Some (assign_by_rules (rules m) (sites_cache m) t))
              (list_assigned_to cid (registry m)) (registry m)) as (Hs' & Hin & Hout).
  - apply orphan_one_decides.
  - done.
  - intros x [_ Hx]%elem_of_assigned. by apply list_all_targets_present.
  - by apply list_assigned_addresses.
  - split_and!; [done|cbn; by rewrite lookup_delete_eq|]. cbn. case_bool_decide as Hc.
    + rewrite <- Ha. apply Hin. by apply elem_of_assigned.
    + rewrite Hout; [unfold collector_of; by rewrite Ht|]. intros (x & Hxa & [Hx Hxin]%elem_of_assigned)%list_elem_of_fmap.
      apply elem_of_list_all_targets in Hxin; [|done]. rewrite <- Hxa, Ht in Hxin. by injection Hxin as <-.
Qed.

(** The rules are read without regard to which collectors are connected: a
    device may go back to the collector that has just left. *)
Corollary orphan_returns_to_departed (cid : string) (m : CollectorManager) (a : string) (t : TargetConfig) :
  sound (registry m) -> get_device a (registry m) = Some t -> collector_id t = Some cid ->
  assign_by_rules (rules m) (sites_cache m) t = Some cid ->
  collector_of (registry (unregister_collector cid m)) a = Some (Some cid).
Proof.
  intros Hs Ht Hc Hr. destruct (unregister_reassigns cid m a t Hs Ht) as (_ & _ & ->). by rewrite bool_decide_true, Hr.
Qed.

(** ** The status summary *)

Lemma group_cons (ids : list string) (t : TargetConfig) (ts : list TargetConfig) c :
  NoDup ids -> c ∈ ids -> collector_id t = Some c ->
  concat ((fun i => base.filter (fun t => collector_id t = Some i) (t :: ts)) <$> ids) ≡ₚ
  t :: concat ((fun i => base.filter (fun t => collector_id t = Some i) ts) <$> ids).
Proof.
  intros Hnd Hc Ht. induction ids as [|i ids IH]; [by apply elem_of_nil in Hc|].
  apply NoDup_cons in Hnd as [Hni Hnd]. cbn [fmap list_fmap concat]. rewrite filter_cons. destruct (decide (collector_id t = Some i)) as [Hi|Hi].
  - rewrite <- app_comm_cons. apply perm_skip, Permutation_app_head.
    rewrite (list_fmap_ext _ (fun i => base.filter (fun t => collector_id t = Some i) ts) ids); [done|].
    intros j x Hj%list_elem_of_lookup_2. rewrite filter_cons_False; [done|]. intros Hx. congruence.
  - apply elem_of_cons in Hc as [->|Hc]; [done|]. rewrite (IH Hnd Hc). by rewrite Permutation_middle.
Qed.

Lemma group_by_collector (ids : list string) (ts : list TargetConfig) :
  NoDup ids -> (forall t c, t ∈ ts -> collector_id t = Some c -> c ∈ ids) ->
  concat ((fun i => base.filter (fun t => collector_id t = Some i) ts) <$> ids) ++ base.filter (fun t => collector_id t = None) ts ≡ₚ ts.
Proof.
  intros Hnd. induction ts as [|t ts IH]; intros Hin.
  { cbn. rewrite app_nil_r. clear. by induction ids. }
  rewrite filter_cons. destruct (collector_id t) as [c|] eqn:Hc.
  - rewrite decide_False by done. rewrite (group_cons ids t ts c); [|done| |done].
    + cbn. f_equiv. apply IH. intros t' c' Ht'. apply Hin. by right.
    + by apply (Hin t); [left|].
  - rewrite decide_True by done. rewrite <- Permutation_middle. f_equiv.
    rewrite (list_fmap_ext _ (fun i => base.filter (fun t => collector_id t = Some i) ts) ids).
    + apply IH. intros t' c' Ht'. apply Hin. by right.
    + intros j x _. rewrite filter_cons_False; [done|]. congruence.
Qed.

Lemma concat_fmap_fmap {A B C} (f : B -> C) (g : A -> list B) l : concat ((fun x => f <$> g x) <$> l) = f <$> concat (g <$> l).
Proof. induction l as [|x l IH]; cbn; [done|]. by rewrite IH, fmap_app. Qed.

(** The status summary accounts for every device once: the devices
    reported under the collectors, with those reported as unassigned, are the
    devices of the registry; no collector is reported twice, and each count is
    that of the devices reported with it. *)
Theorem status_summary_accounts (m : CollectorManager) :
  let s := collector_status_summary m in
  concat (assigned_targets <$> collectors s) ++ unassigned_devices s ≡ₚ address <$> list_all_targets (registry m) /\
  NoDup (cs_id <$> collectors s) /\
  Forall (fun c => assigned_device_count c = Z.of_nat (length (assigned_targets c))) (collectors s).
Proof.
  intros s. unfold s, collector_status_summary. cbn [collectors unassigned_devices].
  set (ids := merge_sort id_le (elements (known_collectors m))).
  assert (NoDup ids) as Hnd by (unfold ids; rewrite (merge_sort_Permutation id_le); apply NoDup_elements).
  split_and!.
  - rewrite <- (group_by_collector ids (list_all_targets (registry m)) Hnd) at 2.
    + rewrite fmap_app, <- list_fmap_compose. f_equiv. rewrite <- concat_fmap_fmap. done.
    + intros t c Ht Hc. unfold ids. rewrite (merge_sort_Permutation id_le). apply elem_of_elements. unfold known_collectors.
      apply elem_of_union_l, elem_of_union_r, elem_of_list_to_set, list_elem_of_omap. by exists t.
  - rewrite <- list_fmap_compose. rewrite (list_fmap_ext _ (@Datatypes.id string) ids); [by rewrite list_fmap_id|done].
  - apply Forall_fmap, Forall_true. done.
Qed.

End Manager.

(** ** The wire *)

(** A text that the receiving side takes as it is: trimmed and not empty. *)
Definition clean (o : option string) : bool :=
  match o with Some s => bool_decide (trim_text s = s) && negb (bool_decide (s = ""%string)) | None => true end.

Lemma option_string_default o : clean o = true -> option_string (default ""%string o) = o.
Proof.
  destruct o as [s|]; cbn; [|done]. unfold option_string. intros [Ht Hs]%andb_true_iff. apply bool_decide_eq_true in Ht.
  apply negb_true_iff, bool_decide_eq_false in Hs. cbn [from_option id]. rewrite Ht. by rewrite bool_decide_false.
Qed.

(** What the wire carries of a device. *)
Definition wire_part (t : TargetConfig) : TargetConfig :=
  mkTargetConfig (address t) (enabled t) (tls_domain t) (ca_cert t) (vendor t) (credential_alias t) (username_env t)
    (password_env t) None None (hostname t) (role t) (site t) (collector_id t) (selected_paths t) [] false [] 0 0 "" "" "".

Definition clean_target (t : TargetConfig) : bool :=
  negb (blank (address t)) &&
  forallb clean [tls_domain t; ca_cert t; vendor t; credential_alias t; username_env t; password_env t; hostname t; role t; site t;
                 collector_id t].

(** A device sent to a collector arrives as it was, apart from the fields that
    are not sent: the inline credentials, the literal paths and the audit trail. *)
Theorem device_wire_roundtrip (t : TargetConfig) :
  clean_target t = true -> target_from_managed_device (Some (managed_device_from_target t)) = Ok (wire_part t).
Proof.
  unfold clean_target. intros [Hb Hc]%andb_true_iff. apply negb_true_iff in Hb.
  cbn in Hc. repeat (apply andb_true_iff in Hc as [? Hc]).
  unfold target_from_managed_device, managed_device_from_target. cbn [md_address]. rewrite Hb.
  cbn [md_enabled md_tls_domain md_ca_cert md_vendor md_credential_alias md_username_env md_password_env md_hostname md_role md_site
       md_collector_id md_selected_paths]. by rewrite !option_string_default.
Qed.

(** ** Concrete runs *)

Section Demo.
#[local] Instance assignment_order : HashOrder := trie_order.

#[local] Instance assignment_json : RegistryJson.
Proof.
  refine {| registry_to_json _ := Some "{}"%string; state_from_json _ := None; targets_from_json _ := None |}.
  - intros st s [= <-]. by eexists.
  - done.
Defined.

Definition demo_device (site : string) (c : option string) : TargetConfig :=
  mkTargetConfig "10.0.0.1:57400" true None None None None None None None None None (Some "leaf"%string) (Some site) c [] [] false [] 0 0 "" "" "".

Definition demo_reg_env : RegEnv := mkRegEnv (fun _ => mkSqlCall true true true 7 7) (mkSqlCall true true true 7 7) true 5 6.

Definition demo_manager (c : option string) : CollectorManager :=
  set_sites [mkSiteRecord "s1" "dc-a" "s0"; mkSiteRecord "s0" "europe" ""]
    (manager_new (mkApiRegistry (mkRegistryState {["10.0.0.1:57400"%string := demo_device "dc-a" c]} []) (OnSqlite (mkSqlite ∅ [])) [])
       [mkAssignmentRule "europe" None "c1" 10]).

Definition demo_rules : list AssignmentRule :=
  [mkAssignmentRule "europe" None "c1" 10; mkAssignmentRule "dc-a" (Some "leaf"%string) "c2" 20; mkAssignmentRule "dc-a" (Some "spine"%string) "c3" 30].

Lemma demo_sound c : sound (registry (demo_manager c)).
Proof.
  split; [|by eexists]. split; intros a t; cbn; intros [<- <-]%lookup_singleton_Some; [done|by vm_compute].
Qed.

Lemma set_rules_assigns_witness :
  sound (registry (set_rules (fun _ => demo_reg_env) demo_rules (demo_manager None))) /\
  collector_of (registry (set_rules (fun _ => demo_reg_env) demo_rules (demo_manager None))) "10.0.0.1:57400" = Some (Some "c2"%string).
Proof.
  split; [|by vm_compute].
  exact (proj1 (set_rules_assigns (fun _ => demo_reg_env) demo_rules (demo_manager None) "10.0.0.1:57400" (demo_device "dc-a" None)
                  (demo_sound None) eq_refl)).
Defined.

(** The only rule names the collector that leaves: its device stays with it. *)
Example departed_keeps_device :
  collector_of (registry (unregister_collector (fun _ => demo_reg_env) "c1" (demo_manager (Some "c1"%string)))) "10.0.0.1:57400"
    = Some (Some "c1"%string).
Proof. by vm_compute. Qed.

(** An override for a role in one environment applies to the role everywhere:
    the environment is not compared. *)
Example environment_not_compared :
  scope_matches (demo_device "dc-a" None) (RoleEnv "leaf" "service-provider") = true.
Proof. by vm_compute. Qed.

End Demo.
