(* ===== verification/IngestQueue.v ===== *)
(** * The disk queue of a collector ([src/ingest.rs])

    A collector keeps the updates it cannot send yet in a file of framed records
    and the offset up to which the core took them in a second file.  Every call
    is modelled with the states the two files pass through, so that a crash or a
    failed system call at any point can be spoken of: a call is interrupted in
    one of them.  The protobuf codec is an interface; the clock and the answers
    of the core are arguments. *)

From Stdlib Require Import ZArith Lia ZifyBool String Strings.Byte.
From stdpp Require Import base numbers list option strings relations.
From S2P Require Import Prelude RustStd Jsonl Text.

Local Open Scope Z_scope.

(** ** The protobuf codec *)

(** [prost]: [encode_to_vec] and [decode] of the message type, with the law that
    a message is read back. *)
Class ProtoCodec := {
  Update : Type;
  encode_to_vec : Update -> bytes;
  proto_decode : bytes -> option Update;
  proto_roundtrip u : proto_decode (encode_to_vec u) = Some u;
}.

(** [to_le_bytes] and [from_le_bytes] *)
Definition to_le (n : nat) (v : Z) : bytes := reverse (to_be n v).
Definition from_le (b : bytes) : Z := be (reverse b).

(** ** The two files *)

Record Disk := mkDisk { data_file : bytes; ack_file : string }.

(** A computation on the files: the states it takes them through, in order, and
    its result. *)
Definition Fs (A : Type) : Type := Disk -> list Disk * Outcome string A.

Definition after (d : Disk) (tr : list Disk) : Disk := default d (last tr).

#[global] Instance fs_ret : MRet Fs := fun A a d => ([], Ok a).

#[global] Instance fs_bind : MBind Fs := fun A B f m d =>
  let '(tr, r) := m d in
  match r with
  | Ok a => let '(tr', r') := f a (after d tr) in (tr ++ tr', r')
  | Err e => (tr, Err e)
  | Panic => (tr, Panic)
  | Diverge => (tr, Diverge)
  end.

Definition bail {A} (e : string) : Fs A := fun d => ([], Err e).
Definition look : Fs Disk := fun d => ([], Ok d).
Definition change (f : Disk -> list Disk) : Fs unit := fun d => (f d, Ok tt).

Definition run_fs {A} (m : Fs A) (d : Disk) : Disk * Outcome string A := (after d (m d).1, (m d).2).

(** The states in which a crash or a failed system call can leave the files. *)
Definition interrupted {A} (m : Fs A) (d d' : Disk) : Prop := d' = d \/ d' ∈ (m d).1.

(** [write_all] at the end of the data file: any part of the octets may be
    written when it is interrupted. *)
Definition write_data (b : bytes) : Fs unit :=
  change (fun d => (fun i => mkDisk (data_file d ++ take i b) (ack_file d)) <$> seq 1 (length b)).

(** [file.set_len(n)] *)
Definition set_len (n : Z) : Fs unit := change (fun d => [mkDisk (take (Z.to_nat n) (data_file d)) (ack_file d)]).

(** [fs::rename] of the complete temporary file, which nothing else reads. *)
Definition replace_data (b : bytes) : Fs unit := change (fun d => [mkDisk b (ack_file d)]).

(** [fs::write(&self.ack_path, offset.to_string())]: the file is emptied first. *)
Definition write_ack (offset : Z) : Fs unit :=
  change (fun d => (fun i => mkDisk (data_file d) (string_of_bytes (take i (bytes_of_string (fmt_dec offset)))))
                     <$> seq 0 (S (String.length (fmt_dec offset)))).

Definition ack_value (s : string) : Z := default 0 (parse_unsigned (2 ^ 64) (trim_text s)).

Definition read_ack : Fs Z := d ← look; mret (ack_value (ack_file d)).

(** ** Records *)

Record CollectorQueueConfig := mkQueueConfig { max_bytes : Z; max_age_hours : Z; drain_batch_size : Z }.

(** [config.drain_batch_size.max(1)] *)
Definition batch_size (c : CollectorQueueConfig) : Z := Z.max 1 (drain_batch_size c).

Definition QUEUE_RECORD_HEADER_BYTES : Z := 12.

(** [file.read_exact(&mut buf)] for a buffer of [n] octets; [None] is the
    unexpected end of the file. *)
Definition read_exact (n : Z) (rest : bytes) : option (bytes * bytes) :=
  if n <=? blen rest then Some (take (Z.to_nat n) rest, drop (Z.to_nat n) rest) else None.

(** The three reads of [read_record], which treat the end of the file alike: the
    time, the payload and what is behind them. *)
Definition take_frame (rest : bytes) : option (Z * bytes * bytes) :=
  len_rest ← read_exact 4 rest;
  enqueued_rest ← read_exact 8 len_rest.2;
  payload_rest ← read_exact (from_le len_rest.1) enqueued_rest.2;
  Some (as_i64 (from_le enqueued_rest.1), payload_rest.1, payload_rest.2).

(** [age_ns as u64 > max_age_ns] *)
Definition is_expired (c : CollectorQueueConfig) (now enqueued_at_ns : Z) : bool :=
  if max_age_hours c =? 0 then false
  else
    let max_age_ns := Z.min (max_age_hours c * 3600000000000) (2 ^ 64 - 1) in
    let age_ns := Z.max (- 2 ^ 63) (Z.min (2 ^ 63 - 1) (now - enqueued_at_ns)) in
    max_age_ns <? age_ns mod 2 ^ 64.

Section Queue.
Context `{ProtoCodec} (c : CollectorQueueConfig).

Record RawQueuedRecord := mkRaw { enqueued_at_ns : Z; payload : bytes; update : Update; next_offset : Z }.

Record QueueStats := mkQueueStats {
  pending_records : Z;
  pending_bytes : Z;
  data_file_bytes : Z;
  qs_max_bytes : Z;
  qs_max_age_hours : Z;
}.

(** The offset cannot overflow: it is at most the length of the file. *)
Definition read_record (rest : bytes) (offset : Z) : Fs (option (RawQueuedRecord * bytes)) :=
  match take_frame rest with
  | None => _ ← set_len offset; mret None
  | Some (t, p, rest') =>
      match proto_decode p with
      | None => bail "failed to decode collector queue protobuf record"
      | Some u => mret (Some (mkRaw t p u (offset + QUEUE_RECORD_HEADER_BYTES + blen p), rest'))
      end
  end.

(** [write_raw_record] *)
Definition raw_frame (t : Z) (p : bytes) : bytes := to_le 4 (blen p) ++ to_le 8 (t mod 2 ^ 64) ++ p.

Definition retained_size (rs : list RawQueuedRecord) : Z :=
  foldr (fun r n => QUEUE_RECORD_HEADER_BYTES + blen (payload r) + n) 0 rs.

(** [while let Some(record) = read_record(..)?]; each record takes twelve octets
    at least, so the fuel of the callers is enough. *)
Fixpoint scan (fuel : nat) (rest : bytes) (offset : Z) : Fs (list RawQueuedRecord) :=
  match fuel with
  | O => fun d => ([], Diverge)
  | S fuel' =>
      r ← read_record rest offset;
      match r with
      | None => mret []
      | Some (rec, rest') => rs ← scan fuel' rest' (next_offset rec); mret (rec :: rs)
      end
  end.

Definition unacked_records : Fs (list RawQueuedRecord) :=
  ack ← read_ack;
  d ← look;
  let offset := if blen (data_file d) <? ack then 0 else ack in
  scan (S (length (data_file d))) (drop (Z.to_nat offset) (data_file d)) offset.

Definition rewrite_records (rs : list RawQueuedRecord) : Fs unit :=
  _ ← replace_data (rs ≫= fun r => raw_frame (enqueued_at_ns r) (payload r));
  write_ack 0.

Definition stats : Fs QueueStats :=
  d ← look;
  rs ← unacked_records;
  mret (mkQueueStats (Z.of_nat (length rs)) (retained_size rs) (blen (data_file d)) (max_bytes c) (max_age_hours c)).

(** The records of [enforce_limits] that are not expired, with the number of the
    others; [clock i] is read for the record at position [i]. *)
Fixpoint unexpired (clock : nat -> Z) (i : nat) (rs : list RawQueuedRecord) : list RawQueuedRecord * Z :=
  match rs with
  | [] => ([], 0)
  | r :: rs' =>
      let '(kept, dropped) := unexpired clock (S i) rs' in
      if is_expired c (clock i) (enqueued_at_ns r) then (kept, dropped + 1) else (r :: kept, dropped)
  end.

(** [while retained_size(&retained) > self.max_bytes { retained.remove(0) }] *)
Fixpoint shrink (max : Z) (rs : list RawQueuedRecord) : list RawQueuedRecord * Z :=
  match rs with
  | [] => ([], 0)
  | r :: rs' => if max <? retained_size rs then let '(kept, dropped) := shrink max rs' in (kept, dropped + 1) else (rs, 0)
  end.

Definition enforce_limits (clock : nat -> Z) : Fs unit :=
  records ← unacked_records;
  let '(retained, dropped_expired) := unexpired clock 0 records in
  let '(retained, dropped_for_size) := if 0 <? max_bytes c then shrink (max_bytes c) retained else (retained, 0) in
  ack ← read_ack;
  if (0 <? dropped_expired) || (0 <? dropped_for_size) || (0 <? ack) then rewrite_records retained else mret tt.

Definition compact_reclaim_acked : Fs unit :=
  ack ← read_ack;
  if ack =? 0 then mret tt else (rs ← unacked_records; rewrite_records rs).

(** The loop of [CollectorQueueInner::next_batch], for [left] more records. *)
Fixpoint batch_loop (fuel : nat) (clock : nat -> Z) (i : nat) (left : Z) (rest : bytes) (offset : Z) : Fs (list RawQueuedRecord) :=
  match fuel with
  | O => fun d => ([], Diverge)
  | S fuel' =>
      if left <=? 0 then mret []
      else
        r ← read_record rest offset;
        match r with
        | None => mret []
        | Some (rec, rest') =>
            if is_expired c (clock i) (enqueued_at_ns rec) then
              _ ← write_ack (next_offset rec);
              batch_loop fuel' clock (S i) left rest' (next_offset rec)
            else
              rs ← batch_loop fuel' clock (S i) (left - 1) rest' (next_offset rec);
              mret (rec :: rs)
        end
  end.

Definition inner_next_batch (clock : nat -> Z) : Fs (list RawQueuedRecord) :=
  ack ← read_ack;
  d ← look;
  offset ← (if blen (data_file d) <? ack then (_ ← write_ack 0; mret 0) else mret ack);
  batch_loop (S (S (length (data_file d)))) clock 0 (batch_size c) (drop (Z.to_nat offset) (data_file d)) offset.

(** ** The queue *)

(** [CollectorQueue::open]: files that are missing are created. *)
Definition queue_open (data : option bytes) (ack : option string) : Disk := mkDisk (default [] data) (default "0"%string ack).

(** Appending, then the statistics for a warning. *)
Definition append (now : Z) (u : Update) : Fs unit :=
  let p := encode_to_vec u in
  if 2 ^ 32 - 1 <? blen p then bail "collector queue record exceeds u32 length limit"
  else
    _ ← write_data (to_le 4 (blen p));
    _ ← write_data (to_le 8 (now mod 2 ^ 64));
    _ ← write_data p;
    _ ← stats;
    mret tt.

(** The clock is read again by the second pass. *)
Definition next_batch (clock clock' : nat -> Z) : Fs (list RawQueuedRecord) :=
  _ ← enforce_limits clock;
  inner_next_batch clock'.

Definition ack (offset : Z) : Fs unit :=
  _ ← write_ack offset;
  compact_reclaim_acked.

(** ** Draining *)

(** What becomes of the stream to the core: a failed call, or its response. *)
Inductive CoreAnswer := StreamFailed | Response (accepted : Z) (error : string).

(** What [drain_queue_to_core] does with the answer to a batch: the updates of the
    batch when the core took them all. *)
Definition finish_round (batch : list RawQueuedRecord) (answer : CoreAnswer) : Fs (list Update) :=
  match answer with
  | StreamFailed => bail "core telemetry ingest stream failed"
  | Response accepted error =>
      if negb (bool_decide (error = ""%string)) then bail "core rejected telemetry ingest stream"
      else if accepted =? 0 then bail "core accepted zero records from non-empty telemetry ingest batch"
      else
        let ack_index := Z.min (Z.max 0 (accepted - 1)) (blen batch - 1) in
        match batch !! Z.to_nat ack_index with
        | None => fun d => ([], Panic)
        | Some r =>
            _ ← ack (next_offset r);
            if accepted <? blen batch then bail "core accepted only part of the queued telemetry records"
            else mret (update <$> batch)
        end
  end.

(** One round of [drain_queue_to_core] with nothing in between: [None] when the
    queue is empty and the task waits, otherwise the updates that were sent. *)
Definition drain_round (clock clock' : nat -> Z) (core : list Update -> CoreAnswer) : Fs (option (list Update)) :=
  batch ← next_batch clock clock';
  match batch with
  | [] => mret None
  | _ => us ← finish_round batch (core (update <$> batch)); mret (Some us)
  end.

(** ** Computations on the files *)

Lemma after_app d tr tr' : after d (tr ++ tr') = after (after d tr) tr'.
Proof. unfold after. rewrite last_app. by destruct (last tr'). Qed.

Lemma run_bind {A B} (m : Fs A) (f : A -> Fs B) d d1 a : run_fs m d = (d1, Ok a) -> run_fs (m ≫= f) d = run_fs (f a) d1.
Proof.
  unfold run_fs, mbind, fs_bind. destruct (m d) as [tr r]. cbn [fst snd]. intros [= <- ->].
  destruct (f a (after d tr)) as [tr' r']. cbn [fst snd]. by rewrite after_app.
Qed.

Lemma run_bind_err {A B} (m : Fs A) (f : A -> Fs B) d d1 e : run_fs m d = (d1, Err e) -> run_fs (m ≫= f) d = (d1, Err e).
Proof. unfold run_fs, mbind, fs_bind. destruct (m d) as [tr r]. cbn. by intros [= <- ->]. Qed.

Lemma run_write_data b d : run_fs (write_data b) d = (mkDisk (data_file d ++ b) (ack_file d), Ok tt).
Proof.
  unfold run_fs, write_data, change, after. cbn [fst snd]. f_equal. destruct b as [|x b].
  { cbn. rewrite app_nil_r. by destruct d. }
  rewrite fmap_last. cbn [length]. rewrite seq_S, last_snoc. cbn [fmap option_fmap option_map from_option id].
  by rewrite (take_ge (x :: b)) by (cbn; lia).
Qed.

Lemma length_bytes s : length (bytes_of_string s) = String.length s.
Proof.
  unfold bytes_of_string, list_byte_of_string. rewrite length_map. induction s as [|a s IH]; [done|]. cbn. by rewrite IH.
Qed.

Lemma run_write_ack offset d : run_fs (write_ack offset) d = (mkDisk (data_file d) (fmt_dec offset), Ok tt).
Proof.
  unfold run_fs, write_ack, change, after. cbn [fst snd]. f_equal. rewrite fmap_last, seq_S, last_snoc.
  cbn [fmap option_fmap option_map from_option id].
  rewrite take_ge by (rewrite length_bytes; lia). by rewrite string_of_bytes_of_string.
Qed.

Lemma run_set_len n d : run_fs (set_len n) d = (mkDisk (take (Z.to_nat n) (data_file d)) (ack_file d), Ok tt).
Proof. done. Qed.

Lemma run_replace_data b d : run_fs (replace_data b) d = (mkDisk b (ack_file d), Ok tt).
Proof. done. Qed.

Lemma run_read_ack d : run_fs read_ack d = (d, Ok (ack_value (ack_file d))).
Proof. done. Qed.

Lemma run_look d : run_fs look d = (d, Ok d).
Proof. done. Qed.

Lemma ack_value_fmt n : 0 <= n < 2 ^ 64 -> ack_value (fmt_dec n) = n.
Proof.
  intros Hn. unfold ack_value, trim_text. rewrite trim_plain.
  - rewrite string_of_bytes_of_string. by rewrite parse_unsigned_fmt_dec.
  - eapply Forall_impl; [apply fmt_dec_bytes; lia|]. intros b Hb. cbn in Hb. destruct b; try discriminate Hb; by vm_compute.
Qed.

(** ** Frames *)

Lemma blen_to_le n v : blen (to_le n v) = Z.of_nat n.
Proof. unfold blen, to_le. by rewrite length_reverse, length_to_be. Qed.

Lemma from_to_le n v : 0 <= v < 256 ^ Z.of_nat n -> from_le (to_le n v) = v.
Proof. intros Hv. unfold from_le, to_le. by rewrite reverse_involutive, be_to_be. Qed.

Lemma as_i64_wrap t : - 2 ^ 63 <= t < 2 ^ 63 -> as_i64 (t mod 2 ^ 64) = t.
Proof. intros Ht. unfold as_i64. rewrite Zplus_mod_idemp_l, Z.mod_small by lia. lia. Qed.

Lemma read_exact_app n b rest : blen b = n -> read_exact n (b ++ rest) = Some (b, rest).
Proof.
  intros <-. unfold read_exact. rewrite (proj2 (Z.leb_le _ _)) by (unfold blen; rewrite length_app; lia).
  unfold blen. rewrite Nat2Z.id. by rewrite take_app_length, drop_app_length.
Qed.

Lemma read_exact_short n b : blen b < n -> read_exact n b = None.
Proof. intros Hb. unfold read_exact. by rewrite (proj2 (Z.leb_gt _ _)). Qed.

Lemma take_frame_raw t p rest :
  - 2 ^ 63 <= t < 2 ^ 63 -> blen p < 2 ^ 32 -> take_frame (raw_frame t p ++ rest) = Some (t, p, rest).
Proof.
  intros Ht Hp. unfold take_frame, raw_frame. rewrite <- !app_assoc.
  rewrite read_exact_app by apply blen_to_le. cbn [mbind option_bind snd fst].
  rewrite read_exact_app by apply blen_to_le. cbn [mbind option_bind snd fst].
  rewrite (from_to_le 4) by (change (256 ^ Z.of_nat 4) with (2 ^ 32); unfold blen in *; lia). rewrite read_exact_app by done. cbn [mbind option_bind snd fst].
  rewrite (from_to_le 8) by (change (256 ^ Z.of_nat 8) with (2 ^ 64); apply Z.mod_pos_bound; lia). by rewrite as_i64_wrap.
Qed.

(** A part of a frame is not taken for one. *)
Lemma take_frame_part t p i : blen p < 2 ^ 32 -> (i < length (raw_frame t p))%nat -> take_frame (take i (raw_frame t p)) = None.
Proof.
  intros Hp Hi. unfold raw_frame in *. set (l := to_le 4 (blen p)) in *. set (e := to_le 8 (t mod 2 ^ 64)) in *.
  assert (length l = 4%nat) as Hl by (unfold l, to_le; rewrite length_reverse; apply length_to_be).
  assert (length e = 8%nat) as He by (unfold e, to_le; rewrite length_reverse; apply length_to_be).
  rewrite !length_app, Hl, He in Hi. unfold take_frame. destruct (decide (i < 4)%nat) as [H4|H4].
  { rewrite read_exact_short; [done|]. unfold blen. rewrite length_take. lia. }
  rewrite take_app_ge by lia. rewrite read_exact_app by (unfold blen; lia). cbn [mbind option_bind snd fst].
  rewrite Hl. destruct (decide (i < 12)%nat) as [H12|H12].
  { rewrite read_exact_short; [done|]. unfold blen. rewrite length_take. lia. }
  rewrite take_app_ge by lia. rewrite read_exact_app by (unfold blen; lia). cbn [mbind option_bind snd fst].
  rewrite read_exact_short; [done|]. subst l. rewrite (from_to_le 4) by (change (256 ^ Z.of_nat 4) with (2 ^ 32); unfold blen in *; lia). unfold blen. rewrite length_take. lia.
Qed.

(** ** The queue as a list of items *)

Definition Item : Type := Z * Update.

Definition item_ok (it : Item) : Prop := - 2 ^ 63 <= it.1 < 2 ^ 63 /\ blen (encode_to_vec it.2) < 2 ^ 32.

Definition frame (it : Item) : bytes := raw_frame it.1 (encode_to_vec it.2).
Definition enc (its : list Item) : bytes := its ≫= frame.
Definition item_size (it : Item) : Z := QUEUE_RECORD_HEADER_BYTES + blen (encode_to_vec it.2).

Definition item_of (r : RawQueuedRecord) : Item := (enqueued_at_ns r, update r).

Fixpoint raws (offset : Z) (its : list Item) : list RawQueuedRecord :=
  match its with
  | [] => []
  | it :: its' =>
      mkRaw it.1 (encode_to_vec it.2) it.2 (offset + item_size it) :: raws (offset + item_size it) its'
  end.

Lemma blen_frame it : blen (frame it) = item_size it.
Proof. unfold frame, raw_frame, item_size, QUEUE_RECORD_HEADER_BYTES. rewrite !blen_app, !blen_to_le. lia. Qed.

Lemma enc_cons it its : enc (it :: its) = frame it ++ enc its.
Proof. done. Qed.

Lemma enc_app a b : enc (a ++ b) = enc a ++ enc b.
Proof. apply bind_app. Qed.

Lemma item_size_pos it : 12 <= item_size it.
Proof. unfold item_size, QUEUE_RECORD_HEADER_BYTES, blen. lia. Qed.

Lemma length_enc its : (length its <= length (enc its))%nat.
Proof.
  induction its as [|it its IH]; [done|]. rewrite enc_cons, length_app. pose proof (blen_frame it) as Hf.
  pose proof (item_size_pos it). unfold blen in Hf. cbn [length]. lia.
Qed.

Lemma items_raws offset its : item_of <$> raws offset its = its.
Proof. revert offset. induction its as [|[t u] its IH]; intros offset; [done|]. cbn. by rewrite IH. Qed.

Lemma length_raws offset its : length (raws offset its) = length its.
Proof. by rewrite <- (length_fmap item_of), items_raws. Qed.

Lemma raws_lookup offset its k r :
  raws offset its !! k = Some r -> next_offset r = offset + blen (enc (take (S k) its)) /\ its !! k = Some (item_of r).
Proof.
  revert offset k. induction its as [|it its IH]; intros offset k; [by rewrite lookup_nil|]. destruct k as [|k]; cbn [raws lookup list_lookup].
  - intros [= <-]. split; [|by destruct it]. cbn [next_offset take]. rewrite enc_cons, blen_app, blen_frame. change (blen (enc (take 0 its))) with 0. lia.
  - intros Hr. apply IH in Hr as [-> Hit]. split; [|done]. change (take (S (S k)) (it :: its)) with (it :: take (S k) its).
    rewrite enc_cons, blen_app, blen_frame. lia.
Qed.

(** What an update is written and read as. *)
Lemma run_read_record it rest offset d :
  item_ok it -> run_fs (read_record (frame it ++ rest) offset) d =
    (d, Ok (Some (mkRaw it.1 (encode_to_vec it.2) it.2 (offset + item_size it), rest))).
Proof.
  intros [Ht Hp]. unfold read_record, frame. rewrite take_frame_raw by done. rewrite proto_roundtrip.
  unfold item_size. by rewrite Z.add_assoc.
Qed.

Lemma run_read_end rest offset d :
  take_frame rest = None ->
  run_fs (read_record rest offset) d = (mkDisk (take (Z.to_nat offset) (data_file d)) (ack_file d), Ok None).
Proof. intros Hr. unfold read_record. by rewrite Hr. Qed.

Lemma take_frame_nil : take_frame [] = None.
Proof. done. Qed.

Lemma run_scan fuel its junk offset d :
  Forall item_ok its -> take_frame junk = None -> (length its < fuel)%nat ->
  run_fs (scan fuel (enc its ++ junk) offset) d =
    (mkDisk (take (Z.to_nat (offset + blen (enc its))) (data_file d)) (ack_file d), Ok (raws offset its)).
Proof.
  intros Hits Hj. revert fuel offset. induction Hits as [|it its Hit Hits IH]; 
    (intros [|fuel] offset Hfuel; [cbn [length] in Hfuel; lia|]).
  - cbn [scan]. erewrite run_bind by (by apply run_read_end). cbn. unfold blen. cbn. by rewrite Z.add_0_r.
  - cbn [length] in Hfuel. cbn [scan]. rewrite enc_cons, <- app_assoc. erewrite run_bind by (by apply run_read_record).
    cbn [next_offset]. erewrite run_bind by (apply IH; lia). cbn [raws]. rewrite blen_app, blen_frame, Z.add_assoc. done.
Qed.

Lemma run_unacked d pre its junk :
  data_file d = pre ++ enc its ++ junk -> ack_value (ack_file d) = blen pre -> Forall item_ok its -> take_frame junk = None ->
  run_fs unacked_records d = (mkDisk (pre ++ enc its) (ack_file d), Ok (raws (blen pre) its)).
Proof.
  intros Hd Ha Hits Hj. unfold unacked_records. erewrite run_bind by apply run_read_ack. erewrite run_bind by apply run_look.
  rewrite Ha, (proj2 (Z.ltb_ge _ _)) by (rewrite Hd, !blen_app; unfold blen; lia).
  assert (drop (Z.to_nat (blen pre)) (data_file d) = enc its ++ junk) as -> by (rewrite Hd; unfold blen; by rewrite Nat2Z.id, drop_app_length).
  rewrite run_scan; [|done..|].
  - do 2 f_equal. rewrite Hd, app_assoc. rewrite take_app_le; [rewrite take_ge; [done|]|]; rewrite !length_app; unfold blen; lia.
  - pose proof (length_enc its). rewrite Hd, !length_app. lia.
Qed.

(** ** Retention *)

Fixpoint fit (max : Z) (its : list Item) : list Item :=
  match its with
  | [] => []
  | it :: its' => if max <? blen (enc its) then fit max its' else its
  end.

(** The items that are not expired; [clock i] is read for the item at [i]. *)
Fixpoint fresh_at (clock : nat -> Z) (i : nat) (its : list Item) : list Item :=
  match its with
  | [] => []
  | it :: its' => if is_expired c (clock i) it.1 then fresh_at clock (S i) its' else it :: fresh_at clock (S i) its'
  end.

(** What [enforce_limits] keeps, and what it keeps when the clock stands still. *)
Definition kept_at (clock : nat -> Z) (its : list Item) : list Item :=
  let fresh := fresh_at clock 0 its in
  if 0 <? max_bytes c then fit (max_bytes c) fresh else fresh.

Definition kept (now : Z) : list Item -> list Item := kept_at (fun _ => now).

(** Records as they are read: the payload is that of the update. *)
Definition raw_ok (r : RawQueuedRecord) : Prop := payload r = encode_to_vec (update r).

Lemma raws_ok offset its : Forall raw_ok (raws offset its).
Proof. revert offset. induction its as [|it its IH]; intros offset; cbn; constructor; [done|apply IH]. Qed.

Lemma rewritten rs : Forall raw_ok rs -> (rs ≫= fun r => raw_frame (enqueued_at_ns r) (payload r)) = enc (item_of <$> rs).
Proof. induction 1 as [|r rs Hr Hrs IH]; [done|]. cbn [fmap list_fmap]. rewrite enc_cons, <- IH. cbn. unfold frame. cbn. by rewrite Hr. Qed.

Lemma retained_size_enc rs : Forall raw_ok rs -> retained_size rs = blen (enc (item_of <$> rs)).
Proof.
  induction 1 as [|r rs Hr Hrs IH]; [done|]. cbn [fmap list_fmap]. rewrite enc_cons, blen_app, blen_frame, <- IH.
  cbn. unfold item_size. by rewrite Hr.
Qed.

Lemma unexpired_spec clock i rs :
  Forall raw_ok rs ->
  let x := unexpired clock i rs in
  item_of <$> x.1 = fresh_at clock i (item_of <$> rs) /\ Forall raw_ok x.1 /\ 0 <= x.2 /\ (x.2 = 0 -> x.1 = rs).
Proof.
  intros Hrs. revert i. induction Hrs as [|r rs Hr Hrs IH]; intros i; [done|]. cbn [unexpired]. specialize (IH (S i)).
  destruct (unexpired clock (S i) rs) as [kept dropped]. cbn [fst snd] in IH. destruct IH as (He & Hok & Hn & Hz).
  cbn [fmap list_fmap fresh_at]. change ((item_of r).1) with (enqueued_at_ns r).
  destruct (is_expired c (clock i) (enqueued_at_ns r)) eqn:Hx; cbn [fst snd].
  - split_and!; [done..|lia|lia].
  - split_and!; [cbn; by rewrite He|by constructor|done|]. intros Hd. by rewrite Hz.
Qed.

Lemma shrink_spec max rs :
  Forall raw_ok rs ->
  let x := shrink max rs in
  item_of <$> x.1 = fit max (item_of <$> rs) /\ Forall raw_ok x.1 /\ 0 <= x.2 /\ (x.2 = 0 -> x.1 = rs).
Proof.
  induction 1 as [|r rs Hr Hrs IH]; [done|]. cbn [shrink fmap list_fmap fit].
  rewrite (retained_size_enc (r :: rs)) by (by constructor). cbn [fmap list_fmap].
  destruct (max <? blen (enc (item_of r :: (item_of <$> rs)))) eqn:Hm.
  - destruct (shrink max rs) as [kept dropped]. cbn [fst snd] in *. destruct IH as (? & ? & ? & ?). split_and!; [done..|lia|lia].
  - cbn [fst snd]. split_and!; [done|by constructor|done|done].
Qed.

(** A queue between two calls: the frames of the pending items, and nothing
    acknowledged. *)
Definition Rep (d : Disk) (its : list Item) : Prop :=
  data_file d = enc its /\ ack_value (ack_file d) = 0 /\ Forall item_ok its.

Lemma rep_empty : Rep (queue_open None None) [].
Proof. split_and!; [done|by vm_compute|done]. Qed.

Lemma run_rewrite rs d its :
  Forall raw_ok rs -> item_of <$> rs = its -> Forall item_ok its -> exists d', run_fs (rewrite_records rs) d = (d', Ok tt) /\ Rep d' its.
Proof.
  intros Hrs <- Hok. unfold rewrite_records. erewrite run_bind by apply run_replace_data. rewrite run_write_ack. eexists. split; [done|].
  split_and!; [cbn; by apply rewritten|by vm_compute|done].
Qed.

Lemma fit_ok (P : Item -> Prop) max its : Forall P its -> Forall P (fit max its).
Proof. induction 1 as [|it its Hit Hits IH]; cbn [fit]; [done|]. destruct (max <? _); [done|by constructor]. Qed.

Lemma fit_sublist max its : fit max its `sublist_of` its.
Proof. induction its as [|it its IH]; cbn [fit]; [done|]. destruct (max <? _); [by constructor|done]. Qed.

Lemma fresh_sublist clock i its : fresh_at clock i its `sublist_of` its.
Proof. revert i. induction its as [|it its IH]; intros i; cbn [fresh_at]; [done|]. destruct (is_expired _ _ _); by constructor. Qed.

Lemma kept_sublist clock its : kept_at clock its `sublist_of` its.
Proof. unfold kept_at. destruct (0 <? max_bytes c); [etrans; [apply fit_sublist|]|]; apply fresh_sublist. Qed.

Lemma sublist_ok (P : Item -> Prop) a b : a `sublist_of` b -> Forall P b -> Forall P a.
Proof. induction 1; inversion_clear 1; auto. Qed.

Lemma kept_ok (P : Item -> Prop) clock its : Forall P its -> Forall P (kept_at clock its).
Proof. apply sublist_ok, kept_sublist. Qed.

(** Reading back, repairing a torn end and enforcing the limits. *)
Lemma run_enforce clock d pre its junk :
  data_file d = pre ++ enc its ++ junk -> ack_value (ack_file d) = blen pre -> Forall item_ok its -> take_frame junk = None ->
  exists d', run_fs (enforce_limits clock) d = (d', Ok tt) /\ Rep d' (kept_at clock its).
Proof.
  intros Hd Ha Hits Hj. unfold enforce_limits. erewrite run_bind by (by eapply run_unacked).
  pose proof (unexpired_spec clock 0 (raws (blen pre) its) (raws_ok _ _)) as Hu.
  destruct (unexpired clock 0 (raws (blen pre) its)) as [fresh ne]. cbn [fst snd] in Hu. destruct Hu as (Hi & Hok & Hne & Hne0).
  rewrite items_raws in Hi.
  assert (exists rest ns, (if 0 <? max_bytes c then shrink (max_bytes c) fresh else (fresh, 0)) = (rest, ns) /\
            item_of <$> rest = kept_at clock its /\ Forall raw_ok rest /\ 0 <= ns /\ (ns = 0 -> rest = fresh)) as (rest & ns & -> & Hk & Hok' & Hns & Hns0).
  { unfold kept_at. rewrite <- Hi. destruct (0 <? max_bytes c); [|by exists fresh, 0].
    pose proof (shrink_spec (max_bytes c) fresh Hok) as Hs. destruct (shrink (max_bytes c) fresh) as [rest ns]. by exists rest, ns. }
  erewrite run_bind by apply run_read_ack. cbn [ack_file]. rewrite Ha.
  destruct ((0 <? ne) || (0 <? ns) || (0 <? blen pre)) eqn:Hc.
  - eapply run_rewrite; [done|done|by apply kept_ok].
  - eexists. split; [done|]. assert (ne = 0 /\ ns = 0 /\ blen pre = 0) as (-> & -> & Hp) by (unfold blen in *; lia).
    rewrite Hns0, Hne0, items_raws in Hk by done. rewrite <- Hk. destruct pre; [|unfold blen in Hp; cbn in Hp; lia].
    split_and!; [done|cbn; by rewrite Ha|done].
Qed.

(** ** The calls on the list *)

(** What the second pass makes of an item: it is in the batch, it is expired by
    now and passed over, or the batch was full. *)
Inductive Mark := Waits | InBatch | PassedOver.

Definition Marked : Type := Item * Mark.

Fixpoint pick (clock : nat -> Z) (i : nat) (left : Z) (its : list Item) : list Marked :=
  match its with
  | [] => []
  | it :: its' =>
      if left <=? 0 then (., Waits) <$> its
      else if is_expired c (clock i) it.1 then (it, PassedOver) :: pick clock (S i) left its'
      else (it, InBatch) :: pick clock (S i) (left - 1) its'
  end.

(** The items of the batch and the others; how far the offset is advanced: behind
    the last item that was passed over. *)
Definition batch_of (l : list Marked) : list Item :=
  l ≫= fun x => match x.2 with InBatch => [x.1] | _ => [] end.

Definition others_of (l : list Marked) : list Item :=
  l ≫= fun x => match x.2 with InBatch => [] | _ => [x.1] end.

Fixpoint advanced (l : list Marked) : nat :=
  match l with
  | [] => 0
  | (_, m) :: l' => match advanced l', m with S n, _ => S (S n) | O, PassedOver => 1 | O, _ => 0 end
  end.

(** The records of the batch, as they are read. *)
Fixpoint batch_raws (offset : Z) (l : list Marked) : list RawQueuedRecord :=
  match l with
  | [] => []
  | (it, m) :: l' =>
      let next := offset + item_size it in
      match m with
      | InBatch => mkRaw it.1 (encode_to_vec it.2) it.2 next :: batch_raws next l'
      | _ => batch_raws next l'
      end
  end.

Lemma waits_idle its off : advanced ((., Waits) <$> its) = 0%nat /\ batch_raws off ((., Waits) <$> its) = [] /\ batch_of ((., Waits) <$> its) = [].
Proof. revert off. induction its as [|it its IH]; intros off; [done|]. destruct (IH (off + item_size it)) as (H1 & H2 & H3). cbn. rewrite H1. done. Qed.

Lemma items_batch_raws off l : item_of <$> batch_raws off l = batch_of l.
Proof. revert off. induction l as [|[[t u] m] l IH]; intros off; [done|]. cbn. destruct m; cbn; by rewrite IH. Qed.

(** The offset behind the items that were passed over. *)
Definition advance (off : Z) (l : list Marked) (ack : string) : string :=
  match advanced l with O => ack | n => fmt_dec (off + blen (enc (take n l.*1))) end.

Lemma advance_cons off it m l ack :
  advance off ((it, m) :: l) ack =
  advance (off + item_size it) l match m with PassedOver => fmt_dec (off + item_size it) | _ => ack end.
Proof.
  unfold advance. cbn [advanced]. destruct (advanced l) as [|n]; [destruct m|].
  1,2: done.
  - cbn [fmap list_fmap fst take]. rewrite enc_cons, app_nil_r, blen_frame. done.
  - change (take (S (S n)) ((it, m) :: l).*1) with (it :: take (S n) l.*1). rewrite enc_cons, blen_app, blen_frame. by rewrite Z.add_assoc.
Qed.

Lemma run_batch_loop fuel clock i left pre its d :
  data_file d = pre ++ enc its -> Forall item_ok its -> (S (length its) < fuel)%nat ->
  run_fs (batch_loop fuel clock i left (enc its) (blen pre)) d =
    (mkDisk (data_file d) (advance (blen pre) (pick clock i left its) (ack_file d)), Ok (batch_raws (blen pre) (pick clock i left its))).
Proof.
  intros Hd Hits. revert fuel i left pre d Hd. induction Hits as [|it its Hit Hits IH]; intros [|fuel] i left pre d Hd Hf;
    try (cbn [length] in Hf; lia); cbn [batch_loop pick]; destruct (left <=? 0) eqn:Hl; try by destruct d.
  - erewrite run_bind by apply run_read_end, take_frame_nil. cbn. f_equal.
    rewrite Hd, app_nil_r. unfold blen. by rewrite Nat2Z.id, firstn_all.
  - destruct (waits_idle (it :: its) (blen pre)) as (Ha & Hb & _). unfold advance. rewrite Ha, Hb. by destruct d.
  - rewrite enc_cons. erewrite run_bind by (by apply run_read_record). cbn [enqueued_at_ns next_offset].
    assert (blen pre + item_size it = blen (pre ++ frame it)) as Ho by (rewrite blen_app, blen_frame; lia).
    cbn [length] in Hf. rewrite enc_cons, app_assoc in Hd. destruct (is_expired c (clock i) it.1).
    + rewrite advance_cons, Ho. cbn [batch_raws]. rewrite Ho. erewrite run_bind by apply run_write_ack. by rewrite IH by (done || lia).
    + rewrite advance_cons. cbn [batch_raws]. rewrite Ho. erewrite run_bind by (apply IH; [done|lia]). done.
Qed.

(** A batch is read from what the limits keep. *)
Lemma run_next_batch_at clock clock' d pre its junk :
  data_file d = pre ++ enc its ++ junk -> ack_value (ack_file d) = blen pre -> Forall item_ok its -> take_frame junk = None ->
  let p := kept_at clock its in
  exists d1, Rep d1 p /\
    run_fs (next_batch clock clock') d =
      (mkDisk (enc p) (advance 0 (pick clock' 0 (batch_size c) p) (ack_file d1)), Ok (batch_raws 0 (pick clock' 0 (batch_size c) p))).
Proof.
  intros Hd Ha Hits Hj p. destruct (run_enforce clock d pre its junk Hd Ha Hits Hj) as (d1 & Hr & Hrep).
  exists d1. split; [done|]. destruct Hrep as (Hd1 & Ha1 & Hok). fold p in Hd1, Hok. unfold next_batch. erewrite run_bind by exact Hr. unfold inner_next_batch.
  erewrite run_bind by apply run_read_ack. erewrite run_bind by apply run_look. rewrite Ha1.
  rewrite (proj2 (Z.ltb_ge _ _)) by (unfold blen; lia). rewrite (run_bind (mret 0) _ d1 d1 0) by done. rewrite Hd1.
  change (drop (Z.to_nat 0) (enc p)) with (enc p).
  rewrite (run_batch_loop _ _ _ _ [] p); [by rewrite Hd1|by rewrite Hd1|done|].
  pose proof (length_enc p). lia.
Qed.

Lemma fresh_ok now i its : Forall (fun it => is_expired c now it.1 = false) (fresh_at (fun _ => now) i its).
Proof. revert i. induction its as [|it its IH]; intros i; cbn [fresh_at]; [done|]. destruct (is_expired _ _ _) eqn:Hx; [done|by constructor]. Qed.

Lemma kept_fresh now its : Forall (fun it => is_expired c now it.1 = false) (kept now its).
Proof. unfold kept, kept_at. destruct (0 <? max_bytes c); [apply fit_ok|]; apply fresh_ok. Qed.

Lemma pick_fresh clock i left its off :
  Forall (fun it => forall j, is_expired c (clock j) it.1 = false) its ->
  advanced (pick clock i left its) = 0%nat /\ batch_raws off (pick clock i left its) = take (Z.to_nat left) (raws off its).
Proof.
  intros Hits. revert i left off. induction Hits as [|it its Hit Hits IH]; intros i left off; [by destruct (Z.to_nat left)|].
  cbn [pick]. destruct (left <=? 0) eqn:Hl.
  - destruct (waits_idle (it :: its) off) as (-> & -> & _). by replace (Z.to_nat left) with O by lia.
  - rewrite Hit. cbn [advanced batch_raws raws]. destruct (IH (S i) (left - 1) (off + item_size it)) as [-> ->].
    by replace (Z.to_nat left) with (S (Z.to_nat (left - 1))) by lia.
Qed.

(** When the clock stands still the batch is the front of what the limits keep. *)
Lemma run_next_batch now d pre its junk :
  data_file d = pre ++ enc its ++ junk -> ack_value (ack_file d) = blen pre -> Forall item_ok its -> take_frame junk = None ->
  exists d', run_fs (next_batch (fun _ => now) (fun _ => now)) d = (d', Ok (take (Z.to_nat (batch_size c)) (raws 0 (kept now its)))) /\
    Rep d' (kept now its).
Proof.
  intros Hd Ha Hits Hj. destruct (run_next_batch_at (fun _ => now) (fun _ => now) d pre its junk Hd Ha Hits Hj) as (d1 & Hrep & Hr).
  fold (kept now) in Hr, Hrep. destruct (pick_fresh (fun _ => now) 0 (batch_size c) (kept now its) 0) as [Hadv Hb].
  { eapply Forall_impl; [apply kept_fresh|]. done. }
  unfold advance in Hr. rewrite Hadv, Hb in Hr. exists d1. split; [|done]. rewrite Hr. destruct Hrep as (<- & _). by destruct d1.
Qed.

(** Acknowledging the first [n] items removes them. *)
Lemma run_ack d its n :
  data_file d = enc its -> Forall item_ok its -> blen (enc its) < 2 ^ 64 -> (0 < n <= length its)%nat ->
  exists d', run_fs (ack (blen (enc (take n its)))) d = (d', Ok tt) /\ Rep d' (drop n its).
Proof.
  intros Hd Hok Hlt Hn.
  assert (0 < blen (enc (take n its)) <= blen (enc its)) as Hb.
  { split; [|rewrite <- (take_drop n its) at 2; rewrite enc_app, blen_app; unfold blen; lia].
    destruct its as [|it its]; [cbn in Hn; lia|]. destruct n as [|n]; [lia|]. cbn [take]. rewrite enc_cons, blen_app, blen_frame.
    pose proof (item_size_pos it). unfold blen. lia. }
  unfold ack. erewrite run_bind by apply run_write_ack. unfold compact_reclaim_acked. erewrite run_bind by apply run_read_ack.
  cbn [ack_file]. rewrite ack_value_fmt by lia. rewrite (proj2 (Z.eqb_neq _ _)) by lia.
  erewrite run_bind.
  2:{ apply (run_unacked _ (enc (take n its)) (drop n its) []); cbn [data_file ack_file]; [|by rewrite ack_value_fmt by lia|by apply Forall_drop|done].
      by rewrite Hd, app_nil_r, <- enc_app, take_drop. }
  eapply run_rewrite; [apply raws_ok|apply items_raws|by apply Forall_drop].
Qed.

(** The record at position [k] of a batch, and how many items end with it. *)
Fixpoint reach (k : nat) (l : list Marked) : nat :=
  match l, k with
  | [], _ | _, O => 0
  | (_, m) :: l', S k' => S (reach match m with InBatch => k' | _ => k end l')
  end.

Lemma reach_O l : reach 0 l = 0%nat.
Proof. by destruct l as [|[]]. Qed.

Lemma batch_raws_lookup off l k r :
  batch_raws off l !! k = Some r ->
  next_offset r = off + blen (enc (take (reach (S k) l) l.*1)) /\ (0 < reach (S k) l <= length l)%nat.
Proof.
  revert off k. induction l as [|[it m] l IH]; intros off k; [done|].
  assert (forall n, off + blen (enc (take (S n) ((it, m) :: l).*1)) = off + item_size it + blen (enc (take n l.*1))) as Hs.
  { intros n. change (take (S n) ((it, m) :: l).*1) with (it :: take n l.*1). rewrite enc_cons, blen_app, blen_frame. lia. }
  cbn [batch_raws reach length]. destruct m; [|destruct k as [|k]; cbn [lookup list_lookup]|].
  2:{ intros [= <-]. rewrite reach_O, Hs. change (blen (enc (take 0 l.*1))) with 0. cbn [next_offset]. lia. }
  all: intros [Ho Hn]%IH; rewrite Hs, Ho; split; [done|lia].
Qed.

Lemma batch_reach k l : batch_of (take (reach k l) l) = take k (batch_of l).
Proof.
  revert k. induction l as [|[it m] l IH]; intros k; [by destruct k|]. destruct k as [|k]; [done|].
  cbn [reach take]. unfold batch_of at 1 2. cbn [mbind list_bind snd fst]. fold (batch_of l). fold (batch_of (take (reach match m with InBatch => k | _ => S k end l) l)).
  rewrite IH. by destruct m.
Qed.

Lemma batch_others l : batch_of l ++ others_of l ≡ₚ l.*1.
Proof.
  induction l as [|[it m] l IH]; [done|]. cbn [fmap list_fmap fst]. rewrite <- IH. unfold batch_of at 1, others_of at 1. cbn [mbind list_bind snd fst].
  fold (batch_of l) (others_of l). destruct m; cbn [app]; [|done|]; by rewrite <- Permutation_middle.
Qed.

Lemma batch_sublist l : batch_of l `sublist_of` l.*1.
Proof. induction l as [|[it m] l IH]; [done|]. destruct m; by constructor. Qed.

(** Items that are appended leave the batch and the offset as they are. *)
Definition enqueue (it : Item) (l : list Marked) : list Marked := l ++ [(it, Waits)].

Lemma append_marked l it off :
  batch_raws off (enqueue it l) = batch_raws off l /\ advanced (enqueue it l) = advanced l /\
  batch_of (enqueue it l) = batch_of l /\ (enqueue it l).*1 = l.*1 ++ [it] /\ (advanced l <= length l)%nat.
Proof.
  unfold enqueue. rewrite fmap_app. revert off. induction l as [|[x m] l IH]; intros off; [done|].
  destruct (IH (off + item_size x)) as (H1 & H2 & H3 & _ & H4).
  cbn [app batch_raws advanced length]. rewrite H1, H2. split_and!; [done|done| |done|destruct (advanced l); [destruct m|]; lia].
  unfold batch_of at 1. cbn [mbind list_bind snd fst]. fold (batch_of (l ++ [(it, Waits)])). by rewrite H3.
Qed.

Lemma run_append d pre its now u :
  data_file d = pre ++ enc its -> ack_value (ack_file d) = blen pre -> Forall item_ok its -> item_ok (now, u) ->
  run_fs (append now u) d = (mkDisk (pre ++ enc (its ++ [(now, u)])) (ack_file d), Ok tt).
Proof.
  intros Hd Ha Hits Hit. pose proof Hit as [_ Hp]. cbn [snd] in Hp. unfold append. cbn zeta.
  rewrite (proj2 (Z.ltb_ge _ _)) by lia. do 3 (erewrite run_bind by apply run_write_data). cbn [data_file ack_file].
  erewrite run_bind.
  2:{ unfold stats. erewrite run_bind by apply run_look. erewrite run_bind; [reflexivity|].
      apply (run_unacked _ pre (its ++ [(now, u)]) []); cbn [data_file ack_file]; [|done|apply Forall_app; split; [done|by constructor]|done].
      rewrite app_nil_r, Hd, enc_app. cbn. rewrite app_nil_r. unfold frame, raw_frame. cbn. by rewrite <- !app_assoc. }
  done.
Qed.

(** ** The queue implements a bounded first-in first-out list *)

(** The items on the disk, each with what the last round made of it; whether a
    batch is on its way to the core; the items that the core took, those that a
    limit removed, and those that were in a batch the core did not take and are
    acknowledged nevertheless, since one behind them expired. *)
Record Fifo := mkFifo {
  pending : list Marked;
  awaiting : bool;
  taken : list Item;
  dropped : list Item;
  unsent : list Item;
}.

Definition fifo_empty : Fifo := mkFifo [] false [] [] [].

(** The calls of the two tasks, in the order in which they take the lock: those
    of a round are apart, with the answer of the core between them; a restart
    opens the files that are there. *)
Inductive QOp :=
  | QAppend (now : Z) (u : Update)
  | QNext (clock clock' : nat -> Z)
  | QAnswer (answer : CoreAnswer)
  | QStats
  | QReopen.

Inductive QResult :=
  | RAppend (r : Outcome string unit)
  | RNext (r : Outcome string (list Update))
  | RAnswer (r : Outcome string (list Update))
  | RStats (r : Outcome string Z)
  | RNone.

(** The files, and the batch with which the drainer awaits the core. *)
Record Queue := mkQueue { disk : Disk; held : list RawQueuedRecord }.

Definition queue_start : Queue := mkQueue (queue_open None None) [].

Definition q_step (op : QOp) (q : Queue) : Queue * QResult :=
  match op with
  | QAppend now u => let x := run_fs (append now u) (disk q) in (mkQueue x.1 (held q), RAppend x.2)
  | QNext clock clock' =>
      match held q with
      | [] => let x := run_fs (next_batch clock clock') (disk q) in
              (mkQueue x.1 match x.2 with Ok batch => batch | _ => [] end, RNext (map update <$> x.2))
      | _ => (q, RNone)
      end
  | QAnswer answer =>
      match held q with
      | [] => (q, RNone)
      | batch => let x := run_fs (finish_round batch answer) (disk q) in (mkQueue x.1 [], RAnswer x.2)
      end
  | QStats => let x := run_fs stats (disk q) in (mkQueue x.1 (held q), RStats (pending_records <$> x.2))
  | QReopen => (mkQueue (queue_open (Some (data_file (disk q))) (Some (ack_file (disk q)))) [], RNone)
  end.

(** How many records of a batch the core took, and what becomes of the round. *)
Definition accepted_of (answer : CoreAnswer) (batch : list Item) : nat :=
  match answer with
  | Response accepted error => if bool_decide (error = ""%string) then Nat.min (Z.to_nat accepted) (length batch) else 0
  | StreamFailed => 0
  end%nat.

Definition round_result (answer : CoreAnswer) (batch : list Item) : Outcome string (list Update) :=
  match answer with
  | StreamFailed => Err "core telemetry ingest stream failed"%string
  | Response accepted error =>
      if negb (bool_decide (error = ""%string)) then Err "core rejected telemetry ingest stream"%string
      else if accepted =? 0 then Err "core accepted zero records from non-empty telemetry ingest batch"%string
      else if accepted <? blen batch then Err "core accepted only part of the queued telemetry records"%string
      else Ok (batch.*2)
  end.

Definition too_long (u : Update) : bool := 2 ^ 32 - 1 <? blen (encode_to_vec u).

(** What the limits remove: the expired items, then the oldest of the others. *)
Fixpoint expired_at (clock : nat -> Z) (i : nat) (its : list Item) : list Item :=
  match its with
  | [] => []
  | it :: its' => if is_expired c (clock i) it.1 then it :: expired_at clock (S i) its' else expired_at clock (S i) its'
  end.

Definition removed (clock : nat -> Z) (its : list Item) : list Item :=
  expired_at clock 0 its ++ take (length (fresh_at clock 0 its) - length (kept_at clock its)) (fresh_at clock 0 its).

Definition fifo_step (op : QOp) (s : Fifo) : Fifo * QResult :=
  match op with
  | QAppend now u =>
      if too_long u then (s, RAppend (Err "collector queue record exceeds u32 length limit"%string))
      else (mkFifo (enqueue (now, u) (pending s)) (awaiting s) (taken s) (dropped s) (unsent s), RAppend (Ok tt))
  | QNext clock clock' =>
      if awaiting s then (s, RNone)
      else
        let gone := take (advanced (pending s)) (pending s) in
        let live := drop (advanced (pending s)) (pending s).*1 in
        let p := pick clock' 0 (batch_size c) (kept_at clock live) in
        (mkFifo p (negb (bool_decide (batch_of p = []))) (taken s) (dropped s ++ others_of gone ++ removed clock live) (unsent s ++ batch_of gone),
         RNext (Ok (batch_of p).*2))
  | QAnswer answer =>
      if awaiting s then
        let k := accepted_of answer (batch_of (pending s)) in
        let n := reach k (pending s) in
        (if decide (k = 0)%nat then mkFifo (pending s) false (taken s) (dropped s) (unsent s)
         else mkFifo ((., Waits) <$> drop n (pending s).*1) false (taken s ++ take k (batch_of (pending s)))
                (dropped s ++ others_of (take n (pending s))) (unsent s),
         RAnswer (round_result answer (batch_of (pending s))))
      else (s, RNone)
  | QStats => (s, RStats (Ok (Z.of_nat (length (pending s) - advanced (pending s)))))
  | QReopen => (mkFifo (pending s) false (taken s) (dropped s) (unsent s), RNone)
  end.

(** The clock is an [i64], the number of accepted records not negative. *)
Definition op_ok (op : QOp) : Prop :=
  match op with
  | QAppend now _ => - 2 ^ 63 <= now < 2 ^ 63
  | QAnswer (Response accepted _) => 0 <= accepted
  | _ => True
  end.

(** The files hold the items with the offset behind those that are gone, and the
    drainer holds the records of its batch. *)
Definition Holds (q : Queue) (s : Fifo) : Prop :=
  data_file (disk q) = enc (pending s).*1 /\
  ack_value (ack_file (disk q)) = blen (enc (take (advanced (pending s)) (pending s).*1)) /\
  Forall item_ok (pending s).*1 /\
  held q = (if awaiting s then batch_raws 0 (pending s) else []) /\
  (awaiting s = true -> batch_of (pending s) <> []).

Lemma holds_parts q s :
  Holds q s -> let n := advanced (pending s) in
  data_file (disk q) = enc (take n (pending s).*1) ++ enc (drop n (pending s).*1) /\ Forall item_ok (drop n (pending s).*1).
Proof. intros (Hd & _ & Hok & _) n. split; [by rewrite <- enc_app, take_drop|by apply Forall_drop]. Qed.

Lemma batch_raws_nil off l : batch_of l = [] <-> batch_raws off l = [].
Proof. rewrite <- (items_batch_raws off). by destruct (batch_raws off l). Qed.

Lemma waits_fst (its : list Item) : ((., Waits) <$> its : list Marked).*1 = its.
Proof. rewrite <- list_fmap_compose. apply list_fmap_id. Qed.

Lemma pick_items clock i left its : (pick clock i left its).*1 = its.
Proof.
  revert i left. induction its as [|it its IH]; intros i left; [done|]. cbn [pick]. destruct (left <=? 0); [apply waits_fst|].
  destruct (is_expired _ _ _); cbn; by rewrite IH.
Qed.

Lemma enc_sublist a b : a `sublist_of` b -> blen (enc a) <= blen (enc b).
Proof.
  induction 1 as [|x a b Hs IH|x a b Hs IH]; [done|rewrite !enc_cons, !blen_app; lia|].
  rewrite enc_cons, blen_app. pose proof (Zle_0_nat (length (frame x))). unfold blen in *. lia.
Qed.

Lemma enc_perm a b : a ≡ₚ b -> blen (enc a) = blen (enc b).
Proof. induction 1; rewrite ?enc_cons, ?blen_app; lia || congruence. Qed.

Lemma append_simulates now u q s :
  Holds q s -> - 2 ^ 63 <= now < 2 ^ 63 ->
  (q_step (QAppend now u) q).2 = (fifo_step (QAppend now u) s).2 /\ Holds (q_step (QAppend now u) q).1 (fifo_step (QAppend now u) s).1.
Proof.
  intros Hh Hnow. pose proof (holds_parts _ _ Hh) as [Hd Hok]. pose proof Hh as (_ & Ha & Hits & Hheld & Hne).
  cbn [q_step fifo_step]. unfold too_long. destruct (2 ^ 32 - 1 <? blen (encode_to_vec u)) eqn:Hl.
  { unfold append. rewrite Hl. cbn. by destruct q. }
  assert (item_ok (now, u)) as Hit by (split; [done|cbn; lia]).
  rewrite (run_append _ _ _ _ _ Hd Ha Hok Hit). split; [done|]. unfold Holds. cbn [fst snd pending awaiting disk held data_file ack_file].
  destruct (append_marked (pending s) (now, u) 0) as (-> & -> & -> & -> & Hle). split_and!.
  - by rewrite <- enc_app, app_assoc, take_drop.
  - rewrite take_app_le by (by rewrite length_fmap). done.
  - apply Forall_app. split; [done|by constructor].
  - done.
  - done.
Qed.

Lemma next_simulates clock clock' q s :
  Holds q s -> blen (enc (pending s).*1) < 2 ^ 64 ->
  (q_step (QNext clock clock') q).2 = (fifo_step (QNext clock clock') s).2 /\
  Holds (q_step (QNext clock clock') q).1 (fifo_step (QNext clock clock') s).1.
Proof.
  intros Hh Hlt. pose proof (holds_parts _ _ Hh) as [Hd Hok]. pose proof Hh as (Hall & Ha & Hits & Hheld & Hne).
  cbn [q_step fifo_step]. rewrite Hheld. destruct (awaiting s).
  { destruct (batch_raws 0 (pending s)) eqn:Hb; [|done]. apply batch_raws_nil in Hb. by destruct Hne. }
  set (live := drop (advanced (pending s)) (pending s).*1) in *.
  destruct (run_next_batch_at clock clock' (disk q) _ live [] ltac:(by rewrite app_nil_r) Ha Hok eq_refl) as (d1 & (Hd1 & Ha1 & Hok1) & ->).
  set (p := pick clock' 0 (batch_size c) (kept_at clock live)). cbn zeta. cbn [fst snd].
  assert (p.*1 = kept_at clock live) as Hp by apply pick_items.
  split; [cbn; by rewrite <- (items_batch_raws 0 p), <- !list_fmap_compose|].
  unfold Holds. cbn [pending awaiting disk held data_file ack_file]. rewrite Hp. split_and!; [done| |done| |].
  - unfold advance. rewrite Hp. destruct (advanced p) as [|n] eqn:Hadv; [by rewrite Ha1|]. rewrite Z.add_0_l. apply ack_value_fmt.
    split; [unfold blen; lia|]. eapply Z.le_lt_trans; [|exact Hlt]. apply enc_sublist.
    etrans; [apply sublist_take|]. etrans; [apply kept_sublist|]. apply sublist_drop.
  - case_bool_decide as Hb; [|done]. by apply batch_raws_nil.
  - by case_bool_decide.
Qed.

Lemma finish_simulates d l answer :
  data_file d = enc l.*1 -> Forall item_ok l.*1 -> blen (enc l.*1) < 2 ^ 64 -> op_ok (QAnswer answer) -> batch_of l <> [] ->
  let k := accepted_of answer (batch_of l) in
  exists d', run_fs (finish_round (batch_raws 0 l) answer) d = (d', round_result answer (batch_of l)) /\
    (if decide (k = 0)%nat then d' = d else Rep d' (drop (reach k l) l.*1)).
Proof.
  intros Hd Hok Hlt Hans Hne k. subst k. unfold finish_round, round_result, accepted_of.
  assert (blen (batch_raws 0 l) = blen (batch_of l)) as Hl by (unfold blen; by rewrite <- (items_batch_raws 0 l), length_fmap).
  destruct answer as [|accepted error]; [by exists d|]. destruct (bool_decide (error = ""%string)); cbn [negb]; [|by exists d].
  destruct (accepted =? 0) eqn:Hz; [exists d; replace (Z.to_nat accepted) with O by lia; done|]. cbn in Hans.
  set (i := Z.to_nat (Z.min (Z.max 0 (accepted - 1)) (blen (batch_raws 0 l) - 1))).
  assert (0 < length (batch_of l))%nat as Hpos by (destruct (batch_of l); [done|cbn; lia]).
  assert (Nat.min (Z.to_nat accepted) (length (batch_of l)) = S i) as -> by (unfold i; rewrite Hl; unfold blen; lia).
  destruct (lookup_lt_is_Some_2 (batch_raws 0 l) i) as [r Hr]; [unfold blen in Hl; unfold i, blen; lia|].
  rewrite Hr. apply batch_raws_lookup in Hr as [Ho Hn]. rewrite Z.add_0_l in Ho. rewrite Ho.
  destruct (run_ack d l.*1 (reach (S i) l) Hd Hok Hlt) as (d' & Hrun & Hrep); [by rewrite length_fmap|].
  exists d'. rewrite decide_False by lia. split; [|done]. rewrite (run_bind _ _ _ _ _ Hrun), Hl.
  destruct (accepted <? blen (batch_of l)); [done|]. cbn. by rewrite <- (items_batch_raws 0 l), <- list_fmap_compose.
Qed.

Lemma answer_simulates answer q s :
  Holds q s -> op_ok (QAnswer answer) -> blen (enc (pending s).*1) < 2 ^ 64 ->
  (q_step (QAnswer answer) q).2 = (fifo_step (QAnswer answer) s).2 /\
  Holds (q_step (QAnswer answer) q).1 (fifo_step (QAnswer answer) s).1.
Proof.
  intros Hh Hans Hlt. pose proof Hh as (Hd & Ha & Hok & Hheld & Hne). cbn [q_step fifo_step].
  destruct (awaiting s) eqn:Haw; rewrite Hheld; [|done]. specialize (Hne eq_refl).
  destruct (finish_simulates (disk q) (pending s) answer Hd Hok Hlt Hans Hne) as (d' & Hrun & Hd').
  destruct (batch_raws 0 (pending s)) as [|r rs] eqn:Hb; [by apply batch_raws_nil in Hb|]. rewrite Hrun. cbn zeta. cbn [fst snd].
  split; [done|]. destruct (decide _) as [Hk|Hk]; unfold Holds; cbn [pending awaiting disk held].
  - by rewrite Hd'.
  - destruct Hd' as (Hd1 & Ha1 & Hok1). rewrite waits_fst. destruct (waits_idle (drop (reach (accepted_of answer (batch_of (pending s))) (pending s)) (pending s).*1) 0) as (-> & _).
    split_and!; [done|by rewrite Ha1|done..].
Qed.

Lemma q_step_simulates op q s :
  Holds q s -> op_ok op -> blen (enc (pending s).*1) < 2 ^ 64 ->
  (q_step op q).2 = (fifo_step op s).2 /\ Holds (q_step op q).1 (fifo_step op s).1.
Proof.
  intros Hh Hop Hlt. destruct op as [now u|clock clock'|answer| |];
    [by apply append_simulates|by apply next_simulates|by apply answer_simulates|..]; cbn [q_step fifo_step].
  - pose proof (holds_parts _ _ Hh) as [Hd Hok]. pose proof Hh as (Hall & Ha & _). unfold stats. rewrite (run_bind _ _ _ _ _ (run_look _)).
    rewrite (run_bind _ _ _ _ _ (run_unacked _ _ _ [] ltac:(by rewrite app_nil_r) Ha Hok eq_refl)). cbn [fst snd]. split.
    + cbn. by rewrite length_raws, length_drop, length_fmap.
    + unfold Holds in *. cbn [disk held data_file ack_file]. rewrite <- enc_app, take_drop. tauto.
  - split; [done|]. destruct Hh as (? & ? & ? & _). done.
Qed.

Fixpoint q_run (ops : list QOp) (q : Queue) : Queue * list QResult :=
  match ops with
  | [] => (q, [])
  | op :: ops' => let x := q_step op q in let y := q_run ops' x.1 in (y.1, x.2 :: y.2)
  end.

Fixpoint fifo_run (ops : list QOp) (s : Fifo) : Fifo * list QResult :=
  match ops with
  | [] => (s, [])
  | op :: ops' => let x := fifo_step op s in let y := fifo_run ops' x.1 in (y.1, x.2 :: y.2)
  end.

(** The updates that were put into the queue. *)
Definition appended_by (op : QOp) : list Item :=
  match op with QAppend now u => if too_long u then [] else [(now, u)] | _ => [] end.

Definition appended (ops : list QOp) : list Item := ops ≫= appended_by.

Lemma fit_drop max its : fit max its = drop (length its - length (fit max its)) its.
Proof.
  induction its as [|it its IH]; [done|]. cbn [fit]. destruct (max <? _).
  - pose proof (sublist_length _ _ (fit_sublist max its)). cbn [length].
    replace (S (length its) - length (fit max its))%nat with (S (length its - length (fit max its))) by lia. done.
  - by rewrite Nat.sub_diag.
Qed.

Lemma expired_fresh clock i its : expired_at clock i its ++ fresh_at clock i its ≡ₚ its.
Proof.
  revert i. induction its as [|it its IH]; intros i; [done|]. cbn [expired_at fresh_at]. destruct (is_expired _ _ _).
  - cbn. by rewrite IH.
  - by rewrite <- Permutation_middle, IH.
Qed.

Lemma removed_kept clock its : removed clock its ++ kept_at clock its ≡ₚ its.
Proof.
  unfold removed. rewrite <- app_assoc. etrans; [apply Permutation_app_head|apply (expired_fresh clock 0 its)].
  unfold kept_at. destruct (0 <? max_bytes c); [|by rewrite Nat.sub_diag].
  rewrite (fit_drop (max_bytes c) (fresh_at clock 0 its)) at 2. by rewrite take_drop.
Qed.

(** Every item is in one of the places. *)
Definition everything (s : Fifo) : list Item := taken s ++ dropped s ++ unsent s ++ (pending s).*1.

Lemma marked_parts n (l : list Marked) : l.*1 ≡ₚ batch_of (take n l) ++ others_of (take n l) ++ drop n l.*1.
Proof. rewrite app_assoc, batch_others. by rewrite fmap_take, take_drop. Qed.

Lemma fifo_step_accounts op s : everything (fifo_step op s).1 ≡ₚ everything s ++ appended_by op.
Proof.
  unfold everything, appended_by. destruct op as [now u|clock clock'|answer| |]; cbn [fifo_step]; rewrite ?app_nil_r; try done.
  - destruct (too_long u); cbn [fst taken dropped unsent pending]; [by rewrite app_nil_r|]. unfold enqueue. by rewrite fmap_app, !app_assoc.
  - destruct (awaiting s); [done|]. cbn [fst taken dropped unsent pending]. rewrite pick_items.
    pose proof (marked_parts (advanced (pending s)) (pending s)) as Hp.
    set (live := drop (advanced (pending s)) (pending s).*1) in *. pose proof (removed_kept clock live) as Hl. clearbody live.
    rewrite Hp. rewrite <- Hl at 3. solve_Permutation.
  - destruct (awaiting s); [|done]. cbn zeta. cbn [fst]. destruct (decide _) as [Hk|Hk]; [done|]. cbn [taken dropped unsent pending]. rewrite waits_fst.
    set (k := accepted_of _ _). pose proof (marked_parts (reach k (pending s)) (pending s)) as Hp. rewrite batch_reach in Hp.
    set (rest := drop _ _) in *. clearbody rest. rewrite Hp. solve_Permutation.
Qed.

Lemma fifo_step_order op s :
  let s' := (fifo_step op s).1 in taken s' ++ (pending s').*1 `sublist_of` (taken s ++ (pending s).*1) ++ appended_by op.
Proof.
  unfold appended_by. destruct op as [now u|clock clock'|answer| |]; cbn [fifo_step]; rewrite ?app_nil_r; try done.
  - destruct (too_long u); cbn [fst taken pending]; [by rewrite app_nil_r|]. unfold enqueue. by rewrite fmap_app, app_assoc.
  - destruct (awaiting s); [done|]. cbn [fst taken pending]. rewrite pick_items. apply sublist_app; [done|].
    etrans; [apply kept_sublist|apply sublist_drop].
  - destruct (awaiting s); [|done]. cbn zeta. cbn [fst]. destruct (decide _) as [Hk|Hk]; [done|]. cbn [taken pending]. rewrite waits_fst.
    set (k := accepted_of _ _). set (n := reach k (pending s)). rewrite <- app_assoc. apply sublist_app; [done|].
    rewrite <- (batch_reach k). fold n. etrans; [apply sublist_app; [apply batch_sublist|done]|]. by rewrite fmap_take, take_drop.
Qed.

Lemma fifo_run_accounts ops s :
  let s' := (fifo_run ops s).1 in
  everything s' ≡ₚ everything s ++ appended ops /\
  taken s' ++ (pending s').*1 `sublist_of` (taken s ++ (pending s).*1) ++ appended ops.
Proof.
  revert s. induction ops as [|op ops IH]; intros s; cbn [fifo_run fst]; [by rewrite !app_nil_r|].
  specialize (IH (fifo_step op s).1) as [Hp Ho]. change (appended (op :: ops)) with (appended_by op ++ appended ops). cbn zeta. split.
  - by rewrite Hp, fifo_step_accounts, <- app_assoc.
  - etrans; [exact Ho|]. rewrite (app_assoc _ (appended_by op)). apply sublist_app; [apply fifo_step_order|done].
Qed.

Lemma q_run_simulates ops q s :
  Holds q s -> Forall op_ok ops -> blen (enc (everything s ++ appended ops)) < 2 ^ 64 ->
  (q_run ops q).2 = (fifo_run ops s).2 /\ Holds (q_run ops q).1 (fifo_run ops s).1.
Proof.
  intros Hh Hops. revert q s Hh. induction Hops as [|op ops Hop Hops IH]; intros q s Hh Hlt; [done|].
  change (appended (op :: ops)) with (appended_by op ++ appended ops) in Hlt. cbn [q_run fifo_run fst snd].
  destruct (q_step_simulates op q s Hh Hop) as [-> Hh'].
  - eapply Z.le_lt_trans; [|exact Hlt]. unfold everything. rewrite !enc_app, !blen_app. unfold blen. lia.
  - destruct (IH _ _ Hh') as [-> Hfin]; [|done]. rewrite enc_app, blen_app, (enc_perm _ _ (fifo_step_accounts op s)). rewrite !enc_app, !blen_app in *. lia.
Qed.

(** ** Without an age limit *)

(** Then no item is passed over: the batch is the front of the queue. *)
Definition in_front (s : Fifo) : Prop :=
  unsent s = [] /\ (max_bytes c = 0 -> dropped s = []) /\
  exists a b, pending s = ((., InBatch) <$> a) ++ ((., Waits) <$> b).

Lemma pick_front clock i left its :
  max_age_hours c = 0 -> exists a b, pick clock i left its = ((., InBatch) <$> a) ++ ((., Waits) <$> b).
Proof.
  intros Hh. revert i left. induction its as [|it its IH]; intros i left; [by exists [], []|]. cbn [pick].
  destruct (left <=? 0); [by exists [], (it :: its)|]. unfold is_expired. rewrite Hh. cbn [Z.eqb].
  destruct (IH (S i) (left - 1)) as (a & b & ->). by exists (it :: a), b.
Qed.

Lemma fresh_all clock i its : max_age_hours c = 0 -> expired_at clock i its = [] /\ fresh_at clock i its = its.
Proof.
  intros Hh. revert i. induction its as [|it its IH]; intros i; [done|]. cbn [expired_at fresh_at]. unfold is_expired. rewrite Hh.
  cbn [Z.eqb]. destruct (IH (S i)) as [-> ->]. done.
Qed.

Lemma front_advanced (a b : list Item) :
  let l : list Marked := ((., InBatch) <$> a) ++ ((., Waits) <$> b) in
  advanced l = 0%nat /\ batch_of l = a /\ forall k, (k <= length a)%nat -> others_of (take (reach k l) l) = [].
Proof.
  induction a as [|it a (IH1 & IH2 & IH3)]; cbn zeta.
  - destruct (waits_idle b 0) as (H1 & _ & H3). split_and!; [done|done|]. intros k Hk. cbn in Hk. replace k with O by lia. by rewrite reach_O.
  - cbn [fmap list_fmap app advanced]. rewrite IH1. split_and!; [done|unfold batch_of; cbn; by f_equal|].
    intros [|k] Hk; [done|]. cbn [length] in Hk. cbn [reach take]. unfold others_of. cbn. apply IH3. lia.
Qed.

Lemma in_front_step op s : max_age_hours c = 0 -> in_front s -> in_front (fifo_step op s).1.
Proof.
  intros Hh (Hu & Hdr & a & b & Hp). destruct (front_advanced a b) as (Hadv & Hba & Hoth). rewrite <- Hp in Hadv, Hba, Hoth.
  destruct op as [now u|clock clock'|answer| |]; cbn [fifo_step].
  - destruct (too_long u); cbn [fst]; [by split_and!; [..|exists a, b]|]. split_and!; [done|done|]. exists a, (b ++ [(now, u)]). cbn [pending].
    unfold enqueue. by rewrite Hp, fmap_app, app_assoc.
  - destruct (awaiting s); cbn [fst]; [by split_and!; [..|exists a, b]|]. rewrite Hadv, drop_0, take_0. split_and!; cbn [unsent dropped pending].
    + by rewrite Hu.
    + intros Hb. rewrite (Hdr Hb). unfold removed, kept_at. rewrite Hb. cbn [Z.ltb Z.compare]. rewrite Nat.sub_diag.
      destruct (fresh_all clock 0 (pending s).*1 Hh) as [-> _]. done.
    + by apply pick_front.
  - destruct (awaiting s); cbn zeta; cbn [fst]; [|by split_and!; [..|exists a, b]]. destruct (decide _); [by split_and!; [..|exists a, b]|].
    split_and!; cbn [unsent dropped pending]; [done| |by exists [], (drop (reach (accepted_of answer (batch_of (pending s))) (pending s)) (pending s).*1)].
    intros Hb. rewrite (Hdr Hb). apply Hoth. rewrite Hba. unfold accepted_of. destruct answer; [lia|]. destruct (bool_decide _); lia.
  - by split_and!; [..|exists a, b].
  - by split_and!; [..|exists a, b].
Qed.

Lemma in_front_run ops s : max_age_hours c = 0 -> in_front s -> in_front (fifo_run ops s).1.
Proof. intros Hh. revert s. induction ops as [|op ops IH]; intros s Hs; [done|]. cbn [fifo_run fst]. apply IH. by apply in_front_step. Qed.

(** Claim C14: the two files implement a bounded first-in first-out list.  For
    any interleaving of appended updates, batches read under any readings of the
    clock, answers of the core to them, statistics and restarts, as long as the
    appended records take less than 2^64 octets and no write to the files fails:
    every call returns what it returns on the list; the updates that the core
    took, with those on the disk, are in the order in which they were appended;
    every appended update was taken, was removed by one of the limits, is
    acknowledged although the core did not take it (because a record behind it
    in the batch expired), or is on the disk, and is counted once; without an age
    limit none is acknowledged without being taken, and without limits none is
    removed. *)
Theorem queue_refines_fifo (ops : list QOp) :
  Forall op_ok ops -> blen (enc (appended ops)) < 2 ^ 64 ->
  let x := q_run ops queue_start in
  let y := fifo_run ops fifo_empty in
  x.2 = y.2 /\ Holds x.1 y.1 /\
  taken y.1 ++ (pending y.1).*1 `sublist_of` appended ops /\
  taken y.1 ++ dropped y.1 ++ unsent y.1 ++ (pending y.1).*1 ≡ₚ appended ops /\
  (max_age_hours c = 0 -> unsent y.1 = [] /\ (max_bytes c = 0 -> dropped y.1 = [])).
Proof.
  intros Hops Hlt x y. destruct (q_run_simulates ops queue_start fifo_empty) as [Hres Hrep]; [|done|done|].
  { split_and!; [done|by vm_compute|done..]. }
  destruct (fifo_run_accounts ops fifo_empty) as [Hp Ho]. split_and!; [done..|]. intros Hh.
  destruct (in_front_run ops fifo_empty Hh) as (Hu & Hd & _); [|done]. split_and!; [done..|by exists [], []].
Qed.

(** ** Interrupted calls *)

Lemma trace_bind {A B} (m : Fs A) (f : A -> Fs B) d d' :
  d' ∈ ((m ≫= f) d).1 -> d' ∈ (m d).1 \/ exists d1 a, run_fs m d = (d1, Ok a) /\ d' ∈ (f a d1).1.
Proof.
  unfold run_fs, mbind, fs_bind. destruct (m d) as [tr r]. destruct r as [a| | |]; cbn [fst snd]; [|by left..].
  destruct (f a (after d tr)) as [tr' r'] eqn:Hf. cbn [fst snd]. intros [Hd|Hd]%elem_of_app; [by left|].
  right. exists (after d tr), a. by rewrite Hf.
Qed.

Lemma trace_write b d d' :
  d' ∈ (write_data b d).1 -> exists i, (i <= length b)%nat /\ d' = mkDisk (data_file d ++ take i b) (ack_file d).
Proof. cbn. intros (i & -> & Hi%elem_of_seq)%list_elem_of_fmap. exists i. split; [lia|done]. Qed.

Lemma trace_scan fuel its offset d d' :
  Forall item_ok its -> (length its < fuel)%nat -> d' ∈ (scan fuel (enc its) offset d).1 ->
  d' = mkDisk (take (Z.to_nat (offset + blen (enc its))) (data_file d)) (ack_file d).
Proof.
  intros Hits. revert fuel offset. induction Hits as [|it its Hit Hits IH];
    (intros [|fuel] offset Hfuel; [cbn [length] in Hfuel; lia|]); cbn [scan]; intros [Hd|(d1 & a & Hr & Hd)]%trace_bind.
  - cbn in Hd. apply list_elem_of_singleton in Hd as ->.
    change (blen (enc [])) with 0. by rewrite Z.add_0_r.
  - rewrite run_read_end in Hr by done. injection Hr as <- <-. by apply elem_of_nil in Hd.
  - exfalso. unfold read_record in Hd. rewrite enc_cons in Hd. destruct Hit as [? ?]. unfold frame in Hd. rewrite take_frame_raw, proto_roundtrip in Hd by done.
    by apply elem_of_nil in Hd.
  - rewrite enc_cons in Hr. rewrite run_read_record in Hr by done. injection Hr as <- <-. cbn [next_offset] in Hd.
    apply trace_bind in Hd as [Hd|(d2 & rs & Hr & Hd)]; [|by apply elem_of_nil in Hd].
    cbn [length] in Hfuel. apply IH in Hd; [|lia]. rewrite Hd, enc_cons, blen_app, blen_frame. do 3 f_equal. lia.
Qed.

Lemma trace_stats d its d' : Rep d its -> d' ∈ (stats d).1 -> d' = d.
Proof.
  intros (Hd & Ha & Hok) [[]%elem_of_nil|(d1 & a & Hr & Ht)]%trace_bind. rewrite run_look in Hr. injection Hr as <- <-.
  apply trace_bind in Ht as [Ht|(d2 & rs & Hr & Ht)]; [|by apply elem_of_nil in Ht].
  unfold unacked_records in Ht. apply trace_bind in Ht as [[]%elem_of_nil|(d2 & x & Hr & Ht)].
  rewrite run_read_ack, Ha in Hr. injection Hr as <- <-. apply trace_bind in Ht as [[]%elem_of_nil|(d2 & x & Hr & Ht)].
  rewrite run_look in Hr. injection Hr as <- <-. rewrite (proj2 (Z.ltb_ge _ _)) in Ht by (unfold blen; lia).
  change (drop (Z.to_nat 0) (data_file d)) with (data_file d) in Ht. rewrite Hd in Ht.
  apply trace_scan in Ht; [|done|pose proof (length_enc its); lia]. rewrite Ht, Hd. destruct d as [data a]. cbn in *. subst data.
  unfold blen. rewrite Z.add_0_l, Nat2Z.id, firstn_all. done.
Qed.

(** An interrupted [append] leaves a part of the frame behind the others. *)
Lemma append_interrupted d its now u d' :
  Rep d its -> item_ok (now, u) -> interrupted (append now u) d d' ->
  exists i, (i <= length (frame (now, u)))%nat /\ d' = mkDisk (enc its ++ take i (frame (now, u))) (ack_file d).
Proof.
  intros Hrep Hit Hint. pose proof Hrep as (Hd & Ha & Hok). pose proof Hit as [_ Hp]. cbn [snd] in Hp.
  destruct Hint as [->|Ht]; [exists O; split; [lia|]; destruct d; cbn in *; by rewrite Hd, app_nil_r|].
  unfold append in Ht. cbn zeta in Ht. rewrite (proj2 (Z.ltb_ge _ _)) in Ht by lia.
  set (p := encode_to_vec u) in *. set (l := to_le 4 (blen p)) in *. set (e := to_le 8 (now mod 2 ^ 64)) in *.
  assert (frame (now, u) = l ++ e ++ p) as Hf by done. rewrite Hf, !length_app, <- Hd. clearbody l e p.
  apply trace_bind in Ht as [(i & Hi & ->)%trace_write|(d1 & [] & Hr & Ht)].
  { exists i. split; [lia|]. by rewrite take_app_le. }
  rewrite run_write_data in Hr. injection Hr as <-.
  apply trace_bind in Ht as [(i & Hi & ->)%trace_write|(d1 & [] & Hr & Ht)]; cbn [data_file ack_file] in *.
  { exists (length l + i)%nat. split; [lia|]. rewrite take_app_add, take_app_le by done. by rewrite app_assoc. }
  rewrite run_write_data in Hr. injection Hr as <-.
  apply trace_bind in Ht as [(i & Hi & ->)%trace_write|(d1 & [] & Hr & Ht)]; cbn [data_file ack_file] in *.
  { exists (length l + (length e + i))%nat. split; [lia|]. rewrite take_app_add, take_app_add. by rewrite !app_assoc. }
  rewrite run_write_data in Hr. injection Hr as <-. cbn [data_file ack_file] in *.
  assert (Rep (mkDisk (((data_file d ++ l) ++ e) ++ p) (ack_file d)) (its ++ [(now, u)])) as Hrep'.
  { split_and!; cbn [data_file ack_file]; [|done|apply Forall_app; split; [done|by constructor]].
    rewrite enc_app, enc_cons, Hf, Hd. cbn. by rewrite app_nil_r, !app_assoc. }
  apply trace_bind in Ht as [Ht|(d1 & a & Hr & Ht)]; [|by apply elem_of_nil in Ht]. apply (trace_stats _ _ _ Hrep') in Ht as ->.
  exists (length l + (length e + length p))%nat. split; [lia|]. rewrite !take_app_add, firstn_all. by rewrite !app_assoc.
Qed.

(** Claim C15: an update that is being appended when the process or a system call
    fails is either in the queue or not in it: whatever part of its frame was
    written, the next round after a restart repairs the file, and sends from the
    queue as it was or from the queue with the whole update. *)
Theorem append_crash_safe (d : Disk) (its : list Item) (now now' : Z) (u : Update) (d' : Disk) :
  Rep d its -> item_ok (now, u) -> interrupted (append now u) d d' ->
  exists its' d'', (its' = its \/ its' = its ++ [(now, u)]) /\
    run_fs (next_batch (fun _ => now') (fun _ => now')) (queue_open (Some (data_file d')) (Some (ack_file d'))) =
      (d'', Ok (take (Z.to_nat (batch_size c)) (raws 0 (kept now' its')))) /\
    Rep d'' (kept now' its').
Proof.
  intros Hrep Hit Hint. destruct (append_interrupted _ _ _ _ _ Hrep Hit Hint) as (i & Hi & ->). destruct Hrep as (Hd & Ha & Hok).
  destruct (decide (i = length (frame (now, u)))) as [->|Hne].
  - destruct (run_next_batch now' (mkDisk (enc (its ++ [(now, u)])) (ack_file d)) [] (its ++ [(now, u)]) []) as (d'' & Hr & Hrep');
      [cbn; by rewrite app_nil_r|done|apply Forall_app; split; [done|by constructor]|done|].
    exists (its ++ [(now, u)]), d''. split_and!; [by right| |done]. rewrite <- Hr. unfold queue_open. cbn. do 2 f_equal.
    rewrite firstn_all, enc_app, enc_cons. cbn. by rewrite app_nil_r.
  - destruct (run_next_batch now' (mkDisk (enc its ++ take i (frame (now, u))) (ack_file d)) [] its (take i (frame (now, u))))
      as (d'' & Hr & Hrep'); [done|done|done| |].
    { apply take_frame_part; [apply Hit|unfold frame in *; lia]. }
    exists its, d''. split_and!; [by left|exact Hr|done].
Qed.

(** ** What the queue does not do *)

(** A clock that was set back, if only by a nanosecond, makes the records from
    before expire: the negative age is read as an unsigned number. *)
Theorem clock_set_back_expires (now t : Z) :
  0 < max_age_hours c -> max_age_hours c * 3600000000000 < 2 ^ 63 -> - 2 ^ 63 <= now -> t < 2 ^ 63 -> now < t ->
  is_expired c now t = true.
Proof.
  intros Hh Hm Hn Ht Hlt. unfold is_expired. rewrite (proj2 (Z.eqb_neq _ _)) by lia. apply Z.ltb_lt.
  set (age := Z.max (- 2 ^ 63) (Z.min (2 ^ 63 - 1) (now - t))). assert (- 2 ^ 63 <= age < 0) as Ha by lia.
  replace (age mod 2 ^ 64) with (age + 2 ^ 64); [lia|]. rewrite <- (Z.mod_small (age + 2 ^ 64) (2 ^ 64)) by lia.
  by rewrite <- (Z_mod_plus_full age 1), Z.mul_1_l.
Qed.

End Queue.

(** ** Waiting for work

    The drainer looks at the queue, and if there is nothing to send waits to be
    notified; [notify_waiters] wakes a task that is waiting and is not
    remembered.  The steps of the drainer and of the writer interleave. *)

Inductive Drainer := Looking | FoundNothing | Waiting.

Record WaitState := mkWaitState { queued : nat; drainer : Drainer }.

Inductive wait_step : WaitState -> WaitState -> Prop :=
  | step_append n d : wait_step (mkWaitState n d) (mkWaitState (S n) match d with Waiting => Looking | d => d end)
  | step_drain n : wait_step (mkWaitState (S n) Looking) (mkWaitState 0 Looking)
  | step_empty : wait_step (mkWaitState 0 Looking) (mkWaitState 0 FoundNothing)
  | step_wait n : wait_step (mkWaitState n FoundNothing) (mkWaitState n Waiting).

(** An update that is appended after the drainer found nothing and before it
    waits is not sent until another one is appended. *)
Theorem wakeup_lost :
  exists s, rtc wait_step (mkWaitState 0 Looking) s /\ queued s = 1%nat /\
    forall s', wait_step s s' -> queued s' = 2%nat.
Proof.
  exists (mkWaitState 1 Waiting). split_and!; [|done|].
  - eapply rtc_l; [apply step_empty|]. eapply rtc_l; [apply step_append|]. eapply rtc_l; [apply step_wait|]. apply rtc_refl.
  - intros s' Hs. by inversion Hs.
Qed.

(** ** Running the model *)

Section Demo.

(** Updates are octets, written behind a mark. *)
#[local] Instance marked_codec : ProtoCodec.
Proof.
  refine {| Update := bytes; encode_to_vec u := Byte.x2a :: u;
            proto_decode b := match b with Byte.x2a :: u => Some u | _ => None end |}.
  done.
Defined.

Definition u1 : Update := [Byte.x01].
Definition u2 : Update := [Byte.x02].
Definition u3 : Update := [Byte.x03].

Definition no_limits : CollectorQueueConfig := mkQueueConfig 0 0 2.
Definition one_hour : CollectorQueueConfig := mkQueueConfig 0 1 2.

Definition core_takes (n : Z) (us : list Update) : CoreAnswer := Response n "".

Definition at_time (now : Z) : nat -> Z := fun _ => now.

(** An update comes while a batch is on its way; a batch is taken in part; the
    process restarts while one is on its way. *)
Definition demo_queue_ops : list QOp :=
  [QAppend 1 u1; QAppend 2 u2; QNext (at_time 4) (at_time 5); QAppend 6 u3; QAnswer (Response 1 "");
   QNext (at_time 7) (at_time 8); QReopen; QNext (at_time 9) (at_time 9); QAnswer (Response 2 ""); QStats].

Lemma queue_refines_fifo_witness :
  (q_run no_limits demo_queue_ops queue_start).2 = (fifo_run no_limits demo_queue_ops fifo_empty).2 /\
  Holds (q_run no_limits demo_queue_ops queue_start).1 (fifo_run no_limits demo_queue_ops fifo_empty).1 /\
  taken (fifo_run no_limits demo_queue_ops fifo_empty).1 = appended demo_queue_ops.
Proof.
  destruct (queue_refines_fifo no_limits demo_queue_ops) as (Hres & Hrep & _).
  - repeat constructor; cbn; lia.
  - vm_compute. reflexivity.
  - split_and!; [exact Hres|exact Hrep|vm_compute; reflexivity].
Defined.

(** The disk after one update, and the update that is interrupted. *)
Definition one_update : Disk := (run_fs (append no_limits 1 u1) (queue_open None None)).1.
Definition torn : Disk := mkDisk (take 27 (enc [(1, u1); (2, u2)])) "0".

Lemma append_crash_safe_witness :
  exists its' d'', (its' = [(1, u1)] \/ its' = [(1, u1); (2, u2)]) /\
    run_fs (next_batch no_limits (fun _ => 3) (fun _ => 3)) (queue_open (Some (data_file torn)) (Some (ack_file torn))) =
      (d'', Ok (take 2 (raws 0 (kept no_limits 3 its')))) /\
    Rep d'' (kept no_limits 3 its').
Proof.
  apply (append_crash_safe no_limits one_update [(1, u1)] 2 3 u2 torn).
  - split_and!; [vm_compute; reflexivity|vm_compute; reflexivity|]. repeat constructor; vm_compute; congruence.
  - repeat constructor; vm_compute; congruence.
  - right. apply (list_elem_of_lookup_2 _ 12). vm_compute. reflexivity.
Defined.

(** Two updates of the same length; the core takes the first.  A crash between
    the replacement of the data and the reset of the offset leaves the offset of
    the old file with the new one: the second update is taken for sent. *)
Definition two_updates : Disk := (run_fs (append no_limits 2 u2) one_update).1.

Definition after_rename : Disk := mkDisk (enc [(2, u2)]) "14".

Example compaction_crash_loses :
  interrupted (ack 14) two_updates after_rename /\
  run_fs (drain_round no_limits (fun _ => 3) (fun _ => 3) (core_takes 1)) after_rename = (mkDisk [] "0", Ok None).
Proof. split; [right; apply (list_elem_of_lookup_2 _ 4)|]; vm_compute; reflexivity. Qed.

(** A crash while an update was appended, then a restart and another update: the
    writer does not repair the end of the file, the two frames run together,
    and from then on appending and sending fail. *)
Definition torn_header : Disk := mkDisk (take 12 (enc [(1, u1)])) "0".

Example append_after_crash_poisons :
  let d := (run_fs (append no_limits 2 u2) torn_header).1 in
  interrupted (append no_limits 1 u1) (queue_open None None) torn_header /\
  run_fs (append no_limits 3 u3) d =
    (mkDisk (data_file d ++ frame (3, u3)) "0", Err "failed to decode collector queue protobuf record"%string) /\
  run_fs (next_batch no_limits (fun _ => 4) (fun _ => 4)) d = (d, Err "failed to decode collector queue protobuf record"%string).
Proof. split_and!; [right; apply (list_elem_of_lookup_2 _ 11)|..]; vm_compute; reflexivity. Qed.

(** A record that expires between the two passes of a round, behind one that does
    not: the offset is set behind both, and when the core is not reached the
    first is lost. *)
Definition mixed : Disk := mkDisk (enc [(4000000000000, u1); (1000000000000, u2)]) "0".

Example expiry_acknowledges_unsent :
  let d := (run_fs (drain_round one_hour (fun _ => 4600000000000) (fun _ => 4600000000001) (fun _ => StreamFailed)) mixed).1 in
  is_expired one_hour 4600000000002 4000000000000 = false /\
  (run_fs (next_batch one_hour (fun _ => 4600000000002) (fun _ => 4600000000002)) d).2 = Ok [].
Proof. split; vm_compute; reflexivity. Qed.

End Demo.
