(* ===== verification/Telemetry.v ===== *)
(** * Telemetry updates ([src/telemetry.rs])

    Every receiver hands its data on as an update: a device, a path and a JSON
    value.  [classify] reads off the path, and some keys of the value, what the
    update is about; debouncing, summaries, the verification of subscriptions and
    the writer of the graph act on the result. *)

From Stdlib Require Import ZArith Lia ZifyBool String Ascii.
From stdpp Require Import base numbers list option strings.
From S2P Require Import Prelude RustStd Jsonl Text.

Local Open Scope Z_scope.

(** ** JSON values *)

(** [serde_json::Number]: an integer of 64 bits, signed or not, or the bits of
    an [f64]. *)
Inductive JsonNumber := N_Int (z : Z) | N_Float (bits : Z).

(** [serde_json::Value]; the fields of an object are in the order of its map, and
    their keys are distinct. *)
Inductive JsonValue :=
  | V_Null
  | V_Bool (b : bool)
  | V_Number (n : JsonNumber)
  | V_String (s : string)
  | V_Array (l : list JsonValue)
  | V_Object (fields : list (string * JsonValue)).

(** [v.get(key)] and [v.get(0)] *)
Definition get (key : string) (v : JsonValue) : option JsonValue :=
  match v with V_Object fields => snd <$> List.find (fun f => bool_decide (f.1 = key)) fields | _ => None end.

Definition get_first (v : JsonValue) : option JsonValue := match v with V_Array (x :: _) => Some x | _ => None end.

Definition as_str (v : JsonValue) : option string := match v with V_String s => Some s | _ => None end.
Definition as_object (v : JsonValue) : option (list (string * JsonValue)) := match v with V_Object f => Some f | _ => None end.

Definition number_as_i64 (n : JsonNumber) : option Z :=
  match n with N_Int z => if (- 2 ^ 63 <=? z) && (z <? 2 ^ 63) then Some z else None | N_Float _ => None end.

Definition as_i64_value (v : JsonValue) : option Z := match v with V_Number n => number_as_i64 n | _ => None end.

Definition as_u64_value (v : JsonValue) : option Z :=
  match v with V_Number (N_Int z) => if (0 <=? z) && (z <? 2 ^ 64) then Some z else None | _ => None end.

(** What [as_f64] converts; the conversion itself is not modelled. *)
Definition as_number (v : JsonValue) : option JsonNumber := match v with V_Number n => Some n | _ => None end.

Definition is_some {A} (o : option A) : bool := match o with Some _ => true | None => false end.

(** ** Text *)

(** [str::to_lowercase], known on ASCII. *)
Class Lowercase := {
  to_lowercase : string -> string;
  to_lowercase_ascii s : Forall (fun b => u8 b < 128) (bytes_of_string s) -> to_lowercase s = to_ascii_lowercase s;
}.

(** [s.ends_with(suffix)] *)
Definition ends_with (suffix s : string) : bool := bool_decide (bytes_of_string suffix `suffix_of` bytes_of_string s).

(** [&s[s.find(needle)? + needle.len()..]] *)
Fixpoint after_first (needle s : string) : option string :=
  match strip_prefix needle s with
  | Some rest => Some rest
  | None => match s with EmptyString => None | String _ s' => after_first needle s' end
  end.

(** [s.rsplit('/').next()] *)
Definition last_segment (s : string) : string := default ""%string (last (split_char "/"%char s)).

Definition extract_bracketed (path prefix : string) : option string :=
  rest ← after_first prefix path;
  fst <$> split_once "]"%char rest.

Definition json_find (v : JsonValue) (key : string) : option JsonValue :=
  match get key v with
  | Some x => Some x
  | None => fields ← as_object v; snd <$> List.find (fun f => ends_with (":" ++ key) f.1) fields
  end.

Definition json_i64 (v : JsonValue) (key : string) : Z :=
  match json_find v key with
  | Some (V_Number n) => default 0 (number_as_i64 n)
  | Some (V_String s) => default 0 (parse_i64 s)
  | _ => 0
  end.

Fixpoint json_i64_multi (v : JsonValue) (keys : list string) : Z :=
  match keys with
  | [] => 0
  | key :: keys' => if is_some (json_find v key) then json_i64 v key else json_i64_multi v keys'
  end.

Definition json_str (v : JsonValue) (key : string) : string := default ""%string (json_find v key ≫= as_str).

(** ** Updates and events *)

Record TelemetryUpdate := mkTelemetryUpdate {
  target : string;
  vendor : string;
  hostname : string;
  role : string;
  site : string;
  timestamp_ns : Z;
  path : string;
  value : JsonValue;
}.

(** A flow of NetFlow or sFlow; a rate is the number it is converted from. *)
Record FlowFields := mkFlowFields {
  exporter_address : string;
  src_address : string;
  dst_address : string;
  dst_port : Z;
  protocol : string;
  bytes_per_sec : option JsonNumber;
  packets_per_sec : option JsonNumber;
}.

Inductive TelemetryEvent :=
  | InterfaceStats (if_name : string)
  | InterfaceSummary (if_name : string)
  | InterfaceDescription (if_name description : string)
  | BfdSessionState (if_name local_discriminator : string) (state_value : option JsonValue)
  | IsisAdjacencyState (system_id if_name : string)
  | BgpNeighborState (peer_address : string) (state_value : option JsonValue)
  | LldpNeighbor (local_if neighbor_id : string) (state_value : option JsonValue)
  | ServiceEndpoint (if_name service_type service_name : string) (confidence : option JsonNumber)
  | QoSPolicyChange (policy_name action : string) (interface_name : option string)
  | InterfaceOperStatus (if_name oper_status : string)
  | SyslogEvent (category : string)
  | SyslogFact (fact_type : string)
  | SnmpTrap (event_type : string)
  | SnmpFact (fact_type : string)
  | ConfigChange (yang_path : string) (new_value : JsonValue)
  | BmpPeerState
  | BmpRouteMonitoring
  | BmpInitiation
  | BmpStatisticsReport
  | BgpLsState
  | EnvSensor (component_name sensor_type : string)
  | OpticsDiagnostics (if_name : string)
  | OtlpSpan (service_name peer_address : string)
  | OtlpMetrics (service_name metric_name : string) (value : option JsonNumber) (peer_address : string)
  | NetflowRecord (f : FlowFields)
  | SflowRecord (f : FlowFields) (sampling_rate : Z)
  | SflowCounters (exporter : string) (if_index if_speed in_octets out_octets in_errors out_errors in_discards out_discards : Z)
  | OpticalChannel (channel_name : string)
  | PowerUnit (unit_name kind : string)
  | Ignored.

(** ** Classification

    One definition per [if] of [classify], in its order: an event, or nothing
    when the next is tried. *)

Section Classify.
Context `{Lowercase}.

Definition guard (b : bool) {A} (o : option A) : option A := if b then o else None.

Definition in_path (s : string) (u : TelemetryUpdate) : bool := text_contains s (path u).
Definition path_ends (s : string) (u : TelemetryUpdate) : bool := ends_with s (path u).
Definition path_starts (s : string) (u : TelemetryUpdate) : bool := starts_with s (path u).
Definition path_is (s : string) (u : TelemetryUpdate) : bool := bool_decide (path u = s).
Definition bracketed (prefix : string) (u : TelemetryUpdate) : option string := extract_bracketed (path u) prefix.
Definition has (key : string) (u : TelemetryUpdate) : bool := is_some (get key (value u)).
Definition finds (key : string) (u : TelemetryUpdate) : bool := is_some (json_find (value u) key).

(** [self.value.get(key).and_then(|v| v.as_str()).unwrap_or(d).to_string()] *)
Definition str_field (key d : string) (u : TelemetryUpdate) : string := default d (get key (value u) ≫= as_str).
Definition u64_field (key : string) (d : Z) (u : TelemetryUpdate) : Z := default d (get key (value u) ≫= as_u64_value).
Definition f64_field (key : string) (u : TelemetryUpdate) : option JsonNumber := get key (value u) ≫= as_number.

Definition or_else {A} (a b : option A) : option A := match a with Some x => Some x | None => b end.

Definition summary_path (u : TelemetryUpdate) : option TelemetryEvent :=
  guard (path_ends "/summary" u)
    (InterfaceSummary <$> or_else (bracketed "interface[name=" u) (bracketed "interfaces/interface[name=" u)).

Definition srl_statistics (u : TelemetryUpdate) : option TelemetryEvent :=
  guard (in_path "interface[name=" u && path_ends "/statistics" u) (InterfaceStats <$> bracketed "interface[name=" u).

Definition srl_bgp (u : TelemetryUpdate) : option TelemetryEvent :=
  guard (in_path "bgp/neighbor[peer-address=" u && path_ends "]" u)
    (addr ← bracketed "bgp/neighbor[peer-address=" u; guard (has "session-state" u) (Some (BgpNeighborState addr None))).

Definition srl_lldp (u : TelemetryUpdate) : option TelemetryEvent :=
  guard (in_path "lldp/interface[name=" u && in_path "/neighbor[id=" u && path_ends "]" u && has "chassis-id" u)
    (local ← bracketed "lldp/interface[name=" u; id ← bracketed "neighbor[id=" u; Some (LldpNeighbor local id None)).

Definition oc_lldp (u : TelemetryUpdate) : option TelemetryEvent :=
  guard (in_path "lldp/interfaces/interface[name=" u && in_path "/neighbors/neighbor[id=" u &&
         (path_ends "/state" u || path_ends "]" u) && (finds "chassis-id" u || finds "system-name" u || finds "port-id" u))
    (local ← bracketed "lldp/interfaces/interface[name=" u; id ← bracketed "neighbor[id=" u; Some (LldpNeighbor local id None)).

Definition oc_counters (u : TelemetryUpdate) : option TelemetryEvent :=
  guard (in_path "interfaces/interface[name=" u && path_ends "/state/counters" u)
    (InterfaceStats <$> bracketed "interfaces/interface[name=" u).

Definition oc_description (u : TelemetryUpdate) : option TelemetryEvent :=
  guard (in_path "interfaces/interface[name=" u && path_ends "/state/description" u)
    (name ← bracketed "interfaces/interface[name=" u; d ← as_str (value u); Some (InterfaceDescription name d)).

Definition oc_octets (u : TelemetryUpdate) : option TelemetryEvent :=
  guard (in_path "interfaces/interface[name=" u &&
         (path_ends "/state/counters/in-octets" u || path_ends "/state/counters/out-octets" u))
    (InterfaceStats <$> bracketed "interfaces/interface[name=" u).

Definition srl_bfd (u : TelemetryUpdate) : option TelemetryEvent :=
  guard (in_path "bfd/network-instance[name=" u && in_path "/peer[local-discriminator=" u &&
         (path_ends "]" u || path_ends "/state" u) && finds "session-state" u)
    (name ← bracketed "network-instance[name=" u; d ← bracketed "peer[local-discriminator=" u; Some (BfdSessionState name d None)).

Definition oc_bfd (u : TelemetryUpdate) : option TelemetryEvent :=
  guard (in_path "bfd/interfaces/interface[id=" u && in_path "/peers/peer[local-discriminator=" u &&
         (path_ends "/state" u || path_ends "]" u) && finds "session-state" u)
    (name ← bracketed "interface[id=" u; d ← bracketed "peer[local-discriminator=" u; Some (BfdSessionState name d None)).

Definition oc_bgp (u : TelemetryUpdate) : option TelemetryEvent :=
  guard (in_path "neighbors/neighbor[neighbor-address=" u && (path_ends "]" u || path_ends "/state" u) && has "session-state" u)
    ((fun addr => BgpNeighborState addr None) <$> bracketed "neighbor[neighbor-address=" u).

Definition walk_xrd_bgp_blob (v : JsonValue) : option TelemetryEvent :=
  instance ← get "network-instance" v;
  protocols ← get "protocols" instance;
  protocol ← get "protocol" protocols;
  bgp ← get "bgp" protocol;
  neighbors ← get "neighbors" bgp;
  neighbor ← get "neighbor" neighbors;
  address ← get "neighbor-address" neighbor;
  peer_address ← as_str address;
  state ← get "state" neighbor;
  _ ← json_find state "session-state";
  Some (BgpNeighborState peer_address (Some state)).

Definition xrd_bgp (u : TelemetryUpdate) : option TelemetryEvent :=
  guard (path_is "network-instances" u) (walk_xrd_bgp_blob (value u)).

Definition xr_counters (u : TelemetryUpdate) : option TelemetryEvent :=
  guard (in_path "interface[interface-name=" u && path_ends "/generic-counters" u)
    (InterfaceStats <$> bracketed "interface[interface-name=" u).

Definition walk_xr_lldp_blob (v : JsonValue) : option JsonValue :=
  nbr ← get "lldp-neighbor" v;
  let entry := default nbr (get_first nbr) in
  let text o := default ""%string (o ≫= as_str) in
  let system_name :=
    default ""%string
      (or_else (d ← get "detail" entry; s ← json_find d "system-name"; as_str s) (s ← json_find entry "system-name"; as_str s)) in
  Some (V_Object [("chassis-id"%string, V_String (text (json_find entry "chassis-id")));
                  ("port-id"%string, V_String (text (json_find entry "port-id-detail")));
                  ("system-name"%string, V_String system_name)]).

Definition xr_lldp (u : TelemetryUpdate) : option TelemetryEvent :=
  guard (in_path "lldp/nodes/node[node-name=" u && in_path "[interface-name=" u && in_path "[device-id=" u && has "lldp-neighbor" u)
    (local ← bracketed "interface-name=" u; id ← bracketed "device-id=" u;
     Some (LldpNeighbor local id (walk_xr_lldp_blob (value u)))).

Definition srl_oper_state (u : TelemetryUpdate) : option TelemetryEvent :=
  guard (in_path "interface[name=" u && finds "oper-state" u)
    (name ← bracketed "interface[name=" u;
     let status := json_str (value u) "oper-state" in
     guard (negb (bool_decide (status = ""%string))) (Some (InterfaceOperStatus name status))).

Definition oc_oper_status (u : TelemetryUpdate) : option TelemetryEvent :=
  guard (in_path "interfaces/interface[name=" u && (path_ends "/state" u || path_ends "]" u) && finds "oper-status" u)
    (name ← bracketed "interface[name=" u;
     let status := to_lowercase (json_str (value u) "oper-status") in
     guard (negb (bool_decide (status = ""%string))) (Some (InterfaceOperStatus name status))).

Definition srl_isis (u : TelemetryUpdate) : option TelemetryEvent :=
  guard (in_path "isis/instance[name=" u && (in_path "/adjacency[neighbor-system-id=" u || in_path "/adjacency[adjacency-level=" u))
    (sid ← or_else (bracketed "adjacency[neighbor-system-id=" u) (bracketed "neighbor-system-id=" u);
     iface ← bracketed "interface[interface-name=" u;
     Some (IsisAdjacencyState sid iface)).

Definition last_named (u : TelemetryUpdate) : option string :=
  let s := last_segment (path u) in guard (negb (bool_decide (s = ""%string))) (Some s).

Definition syslog_event (u : TelemetryUpdate) : option TelemetryEvent :=
  guard (path_starts "signals/syslog/" u && has "message" u) (SyslogEvent <$> last_named u).

Definition syslog_fact (u : TelemetryUpdate) : option TelemetryEvent :=
  guard (path_starts "signals/syslog_fact/" u && has "fields" u) (SyslogFact <$> last_named u).

Definition snmp_fact (u : TelemetryUpdate) : option TelemetryEvent :=
  guard (path_starts "signals/snmp_fact/" u) (SnmpFact <$> last_named u).

Definition snmp_trap (u : TelemetryUpdate) : option TelemetryEvent :=
  guard (path_starts "signals/snmp/" u) (SnmpTrap <$> last_named u).

Definition config_leaves : list string := ["admin-state"; "ingress-vni"; "config"; "as-number"; "action"]%string.

Definition config_change (u : TelemetryUpdate) : option TelemetryEvent :=
  guard (bool_decide (last_segment (path u) ∈ config_leaves) && negb match as_object (value u) with Some [] => true | _ => false end)
    (Some (ConfigChange (path u) (value u))).

Definition otlp_span (u : TelemetryUpdate) : option TelemetryEvent :=
  guard (path_is "streaming/otlp/span" u) (Some (OtlpSpan (str_field "service_name" "" u) (str_field "peer_address" "" u))).

Definition otlp_metrics (u : TelemetryUpdate) : option TelemetryEvent :=
  guard (path_is "streaming/otlp/metrics" u)
    (Some (OtlpMetrics (str_field "service_name" "" u) (str_field "metric_name" "" u) (f64_field "value" u) (str_field "peer_address" "" u))).

Definition flow_fields (u : TelemetryUpdate) : FlowFields :=
  mkFlowFields (str_field "exporter_address" (target u) u) (str_field "src_address" "" u) (str_field "dst_address" "" u)
    (default 0 (get "dst_port" (value u) ≫= as_i64_value)) (str_field "protocol" "" u) (f64_field "bytes_per_sec" u)
    (f64_field "packets_per_sec" u).

Definition netflow_flow (u : TelemetryUpdate) : option TelemetryEvent :=
  guard (path_is "streaming/netflow/flow" u) (Some (NetflowRecord (flow_fields u))).

Definition bmp_peer (u : TelemetryUpdate) : option TelemetryEvent :=
  guard (path_is "streaming/bmp/peer-up" u || path_is "streaming/bmp/peer-down" u || path_is "streaming/bmp/peer-state" u)
    (Some BmpPeerState).

Definition bmp_routes (u : TelemetryUpdate) : option TelemetryEvent :=
  guard (path_is "streaming/bmp/route-monitoring" u) (Some BmpRouteMonitoring).

Definition bmp_statistics (u : TelemetryUpdate) : option TelemetryEvent :=
  guard (path_is "streaming/bmp/statistics" u) (Some BmpStatisticsReport).

Definition sflow_flow (u : TelemetryUpdate) : option TelemetryEvent :=
  guard (path_is "streaming/sflow/flow" u) (Some (SflowRecord (flow_fields u) (u64_field "sampling_rate" 1 u mod 2 ^ 32))).

Definition sflow_counters (u : TelemetryUpdate) : option TelemetryEvent :=
  let u32 key := u64_field key 0 u mod 2 ^ 32 in
  guard (path_is "streaming/sflow/counters" u)
    (Some (SflowCounters (str_field "exporter_address" (target u) u) (u32 "if_index"%string) (u64_field "if_speed" 0 u)
             (u64_field "in_octets" 0 u) (u64_field "out_octets" 0 u) (u32 "in_errors"%string) (u32 "out_errors"%string)
             (u32 "in_discards"%string) (u32 "out_discards"%string))).

Definition bmp_initiation (u : TelemetryUpdate) : option TelemetryEvent :=
  guard (path_is "streaming/bmp/initiation" u) (Some BmpInitiation).

Definition bgp_ls (u : TelemetryUpdate) : option TelemetryEvent := guard (path_starts "streaming/bgp-ls/" u) (Some BgpLsState).

Definition env_sensor (u : TelemetryUpdate) : option TelemetryEvent :=
  guard ((in_path "platform/chassis/environment" u || in_path "platform/component" u || in_path "environment-monitoring" u ||
          (path_starts "components/component" u && (path_ends "/state" u || path_ends "]" u))) &&
         (finds "temperature" u || finds "current-temperature" u || finds "temperature-input" u || finds "voltage" u || finds "fan-speed" u))
    (let component := default "chassis"%string (or_else (bracketed "component[name=" u) (bracketed "component[" u)) in
     let sensor := if finds "fan-speed" u then "fan" else if finds "voltage" u then "voltage" else "temperature" in
     Some (EnvSensor component sensor)).

Definition optics (u : TelemetryUpdate) : option TelemetryEvent :=
  guard ((in_path "/transceiver" u || in_path "optics-ports/optics-port" u) &&
         (finds "rx-power" u || finds "rx-optical-power" u || finds "receive-power" u || finds "tx-power" u))
    (Some (OpticsDiagnostics
       (default ""%string
          (or_else (bracketed "interface[name=" u) (or_else (bracketed "optics-port[name=" u) (bracketed "component[name=" u)))))).

Definition tests : list (TelemetryUpdate -> option TelemetryEvent) :=
  [summary_path; srl_statistics; srl_bgp; srl_lldp; oc_lldp; oc_counters; oc_description; oc_octets; srl_bfd; oc_bfd; oc_bgp; xrd_bgp;
   xr_counters; xr_lldp; srl_oper_state; oc_oper_status; srl_isis; syslog_event; syslog_fact; snmp_fact; snmp_trap; config_change;
   otlp_span; otlp_metrics; netflow_flow; bmp_peer; bmp_routes; bmp_statistics; sflow_flow; sflow_counters; bmp_initiation; bgp_ls;
   env_sensor; optics].

Fixpoint first_event (ts : list (TelemetryUpdate -> option TelemetryEvent)) (u : TelemetryUpdate) : TelemetryEvent :=
  match ts with
  | [] => Ignored
  | t :: ts' => match t u with Some e => e | None => first_event ts' u end
  end.

Definition classify (u : TelemetryUpdate) : TelemetryEvent := first_event tests u.

(** ** Paths and names *)

Lemma after_first_prefix p s : after_first p (p ++ s) = Some s.
Proof. pose proof (strip_prefix_app p s) as Hp. destruct (p ++ s)%string; cbn [after_first]; by rewrite Hp. Qed.

(** The name in a bracket is read back. *)
Lemma extract_bracketed_spec prefix name rest :
  split_once "]"%char name = None -> extract_bracketed (prefix ++ name ++ String "]" rest) prefix = Some name.
Proof.
  intros Hn. unfold extract_bracketed. rewrite after_first_prefix. cbn [mbind option_bind]. by rewrite split_once_app.
Qed.

Lemma contains_prefix (n b : bytes) : contains n (n ++ b) = true.
Proof.
  assert (bool_decide (n `prefix_of` n ++ b) = true) as Hp by (apply bool_decide_eq_true; by exists b).
  destruct (n ++ b) eqn:He; cbn [contains]; by rewrite Hp.
Qed.

Lemma text_contains_prefix n b : text_contains n (n ++ b) = true.
Proof. unfold text_contains. rewrite bytes_of_string_app. apply contains_prefix. Qed.

Lemma ends_with_app a b : ends_with b (a ++ b) = true.
Proof. unfold ends_with. rewrite bytes_of_string_app. apply bool_decide_eq_true. by exists (bytes_of_string a). Qed.

(** A short ending is looked for in the last part of a text only. *)
Lemma ends_with_tail a b c : (length (bytes_of_string c) <= length (bytes_of_string b))%nat -> ends_with c (a ++ b) = ends_with c b.
Proof.
  intros Hl. unfold ends_with. rewrite bytes_of_string_app. apply bool_decide_ext. split; intros [k Hk].
  - apply app_eq_inv in Hk as [(l & Ha & Hb)|(l & Ha & Hb)]; [|by exists l].
    assert (l = []) as -> by (apply (f_equal length) in Hb; rewrite length_app in Hb; destruct l; [done|cbn in Hb; lia]).
    exists []. done.
  - exists (bytes_of_string a ++ k). by rewrite Hk, app_assoc.
Qed.

Lemma path_ends_tail u a b c :
  path u = (a ++ b)%string -> (length (bytes_of_string c) <= length (bytes_of_string b))%nat -> path_ends c u = ends_with c b.
Proof. intros Hp Hl. unfold path_ends. rewrite Hp. by apply ends_with_tail. Qed.

Lemma path_ends_longer u a b c :
  path u = (a ++ b)%string -> (length (bytes_of_string b) <= length (bytes_of_string c))%nat -> ends_with b c = false -> path_ends c u = false.
Proof.
  intros Hp Hl He. apply bool_decide_eq_false in He. unfold path_ends, ends_with. rewrite Hp. apply bool_decide_eq_false.
  rewrite bytes_of_string_app. intros [k Hk]. apply He. apply app_eq_inv in Hk as [(l & Ha & Hb)|(l & Ha & Hb)]; [by exists l|].
  assert (l = []) as -> by (apply (f_equal length) in Hb; rewrite length_app in Hb; destruct l; [done|cbn in Hb; lia]).
  by exists [].
Qed.

(** Decides what the path of an update ends with, from its known last part. *)
Ltac eval_ends Hp b :=
  repeat match goal with
         | |- context [path_ends ?c ?u] =>
             first [ rewrite (path_ends_longer u _ b c Hp) by (vm_compute; (lia || reflexivity))
                   | rewrite (path_ends_tail u _ b c Hp) by (vm_compute; lia);
                     let r := eval vm_compute in (ends_with c b) in change (ends_with c b) with r ]
         end.

(** The counters of an interface are recognised under the paths of each of the
    three kinds of devices, whatever the name of the interface and the value. *)
Theorem counters_classified (u : TelemetryUpdate) (name : string) :
  split_once "]"%char name = None ->
  path u = ("interface[name=" ++ name ++ "]/statistics")%string \/
  path u = ("interfaces/interface[name=" ++ name ++ "]/state/counters")%string \/
  path u = ("interface[interface-name=" ++ name ++ "]/generic-counters")%string ->
  classify u = InterfaceStats name.
Proof.
  intros Hn [Hp|[Hp|Hp]]; unfold classify, tests; cbn [first_event].
  - assert (path u = ("interface[name=" ++ name) ++ "]/statistics")%string as Hp' by (by rewrite Hp, string_app_assoc).
    unfold summary_path, srl_statistics, in_path, bracketed. eval_ends Hp' "]/statistics"%string. cbn [guard andb].
    rewrite Hp, text_contains_prefix. cbn [guard andb]. by rewrite extract_bracketed_spec.
  - assert (path u = ("interfaces/interface[name=" ++ name) ++ "]/state/counters")%string as Hp' by (by rewrite Hp, string_app_assoc).
    unfold summary_path, srl_statistics, srl_bgp, srl_lldp, oc_lldp, oc_counters. eval_ends Hp' "]/state/counters"%string.
    rewrite ?andb_false_r; cbn [guard orb andb]; rewrite ?andb_false_r; cbn [guard andb].
    unfold in_path, bracketed. rewrite Hp, text_contains_prefix. cbn [guard andb]. by rewrite extract_bracketed_spec.
  - assert (path u = ("interface[interface-name=" ++ name) ++ "]/generic-counters")%string as Hp' by (by rewrite Hp, string_app_assoc).
    unfold summary_path, srl_statistics, srl_bgp, srl_lldp, oc_lldp, oc_counters, oc_description, oc_octets, srl_bfd, oc_bfd, oc_bgp,
      xrd_bgp, xr_counters. eval_ends Hp' "]/generic-counters"%string.
    rewrite ?andb_false_r; cbn [guard orb andb]; rewrite ?andb_false_r; cbn [guard andb].
    unfold path_is. rewrite bool_decide_false by (rewrite Hp; discriminate). cbn [guard].
    unfold in_path, bracketed. rewrite Hp, text_contains_prefix. cbn [guard andb]. by rewrite extract_bracketed_spec.
Qed.

(** *** Kinds that are never recognised *)

Definition recognised (e : TelemetryEvent) : bool :=
  match e with ServiceEndpoint _ _ _ _ | QoSPolicyChange _ _ _ | OpticalChannel _ | PowerUnit _ _ => false | _ => true end.

Lemma guard_some {A} b (o : option A) x : guard b o = Some x -> o = Some x.
Proof. by destruct b. Qed.

Ltac recognised_event :=
  repeat match goal with
         | Hx : guard _ _ = Some _ |- _ => apply guard_some in Hx
         | Hx : _ <$> _ = Some _ |- _ => apply fmap_Some in Hx as (? & ? & ->)
         | Hx : mbind _ _ = Some _ |- _ => apply bind_Some in Hx as (? & ? & Hx)
         | Hx : Some _ = Some _ |- _ => injection Hx as <-
         end; done.

Lemma tests_recognise : Forall (fun t => forall u e, t u = Some e -> recognised e = true) tests.
Proof.
  unfold tests. repeat (apply Forall_cons; split; [intros u e He|]); [..|constructor].
  all: unfold summary_path, srl_statistics, srl_bgp, srl_lldp, oc_lldp, oc_counters, oc_description, oc_octets, srl_bfd, oc_bfd, oc_bgp,
    xrd_bgp, xr_counters, xr_lldp, srl_oper_state, oc_oper_status, srl_isis, syslog_event, syslog_fact, snmp_fact, snmp_trap,
    config_change, otlp_span, otlp_metrics, netflow_flow, bmp_peer, bmp_routes, bmp_statistics, sflow_flow, sflow_counters,
    bmp_initiation, bgp_ls, env_sensor, optics, walk_xrd_bgp_blob in He; cbn zeta in He; recognised_event.
Qed.

(** Service endpoints, changes of QoS policies, optical channels and power units
    have handlers in the graph and are documented as received; no update is
    classified as one of them. *)
Theorem never_recognised (u : TelemetryUpdate) : recognised (classify u) = true.
Proof.
  unfold classify. induction tests_recognise as [|t ts Ht Hts IH]; cbn [first_event]; [done|].
  destruct (t u) eqn:He; [by eapply Ht|done].
Qed.

End Classify.
