(* ===== verification/SubscriptionStatus.v ===== *)
(** * Verification of subscriptions ([src/subscription_status.rs])

    When a device is subscribed to, the verifier is told the paths it should hear
    from; it marks a path as observed with the first update that matches it, and
    as silent when none came within thirty seconds.  Each change is written to
    the store and published.  The store is the sequence of the writes it took;
    whether it takes one, and the readings of the clock, are arguments. *)

From Stdlib Require Import ZArith Lia ZifyBool String Ascii.
From stdpp Require Import base numbers list option strings gmap fin_maps.
From S2P Require Import Prelude RustStd HashMaps Jsonl Text Telemetry.

Local Open Scope Z_scope.

Definition VERIFICATION_WINDOW : Z := 30 * 10 ^ 9.

Record SubscriptionPathExpectation := mkExpectation {
  ex_path : string;
  ex_origin : string;
  ex_mode : string;
  ex_interval_ns : Z;
}.

Record SubscriptionPlan := mkPlan { pl_target : string; pl_paths : list SubscriptionPathExpectation }.

Record TrackedPath := mkTracked {
  expectation : SubscriptionPathExpectation;
  status : string;
  first_observed_at_ns : Z;
  last_observed_at_ns : Z;
  deadline : Z;
}.

(** [SubscriptionStatusWrite]; the published event is made of it. *)
Record StatusWrite := mkStatusWrite {
  w_device : string;
  w_path : string;
  w_origin : string;
  w_mode : string;
  w_interval_ns : Z;
  w_status : string;
  w_first_ns : Z;
  w_last_ns : Z;
  w_updated_ns : Z;
}.

Definition Key : Type := string * string.

(** The tracked paths, the writes the store took and the events, in order. *)
Record Verifier := mkVerifier { tracked : gmap Key TrackedPath; writes : list (Key * StatusWrite); events : list StatusWrite }.

Definition verifier_new : Verifier := mkVerifier ∅ [] [].

Definition tracked_key (target : string) (e : SubscriptionPathExpectation) : Key :=
  (target, (ex_origin e ++ "|" ++ ex_mode e ++ "|" ++ fmt_dec (ex_interval_ns e) ++ "|" ++ ex_path e)%string).

(** A write that fails is logged, and only one that succeeds is published. *)
Definition write_status (ok : bool) (k : Key) (w : StatusWrite) (v : Verifier) : Verifier :=
  if ok then mkVerifier (tracked v) (writes v ++ [(k, w)]) (events v ++ [w]) else v.

Definition track (k : Key) (p : TrackedPath) (v : Verifier) : Verifier := mkVerifier (<[k := p]> (tracked v)) (writes v) (events v).

Definition write_of (device : string) (e : SubscriptionPathExpectation) (s : string) (first last now : Z) : StatusWrite :=
  mkStatusWrite device (ex_path e) (ex_origin e) (ex_mode e) (as_i64 (ex_interval_ns e)) s first last now.

Definition register_path (ok : Key -> bool) (now deadline : Z) (target : string) (v : Verifier) (e : SubscriptionPathExpectation) :
  Verifier :=
  let k := tracked_key target e in
  write_status (ok k) k (write_of target e "pending" 0 0 now) (track k (mkTracked e "pending" 0 0 deadline) v).

Definition register_plan (ok : Key -> bool) (now instant : Z) (p : SubscriptionPlan) (v : Verifier) : Verifier :=
  foldl (register_path ok now (instant + VERIFICATION_WINDOW) (pl_target p)) v (pl_paths p).

(** [a.eq_ignore_ascii_case(b)] *)
Definition eq_ignore_ascii_case (a b : string) : bool := bool_decide (to_ascii_lowercase a = to_ascii_lowercase b).

Section Verifier.
Context `{Lowercase, HashOrder}.

Definition path_matches_update (e : SubscriptionPathExpectation) (u : TelemetryUpdate) (event : TelemetryEvent) : bool :=
  let expected := to_lowercase (ex_path e) in
  let actual := to_lowercase (path u) in
  let expects s := text_contains s expected in
  match event with
  | InterfaceStats _ | InterfaceSummary _ | SflowCounters _ _ _ _ _ _ _ _ _ =>
      expects "statistics"%string || expects "generic-counters"%string ||
      (expects "interfaces"%string && eq_ignore_ascii_case (ex_mode e) "SAMPLE") ||
      text_contains "statistics" actual || text_contains "generic-counters" actual || text_contains "summary" actual
  | InterfaceDescription _ _ => expects "description"%string
  | ServiceEndpoint _ _ _ _ | QoSPolicyChange _ _ _ | SyslogEvent _ | SyslogFact _ | SnmpTrap _ | SnmpFact _ | BmpInitiation
  | BmpStatisticsReport | OtlpMetrics _ _ _ _ | NetflowRecord _ | SflowRecord _ _ | EnvSensor _ _ | OpticsDiagnostics _
  | OpticalChannel _ | PowerUnit _ _ => text_contains expected actual || text_contains actual expected
  | InterfaceOperStatus _ _ =>
      expects "oper-state"%string || (expects "interfaces"%string && eq_ignore_ascii_case (ex_mode e) "ON_CHANGE")
  | BgpNeighborState _ _ => expects "bgp"%string || expects "network-instances"%string
  | BfdSessionState _ _ _ => expects "bfd"%string
  | IsisAdjacencyState _ _ => expects "isis"%string
  | LldpNeighbor _ _ _ => expects "lldp"%string
  | ConfigChange _ _ | BmpPeerState | BmpRouteMonitoring | BgpLsState | OtlpSpan _ _ | Ignored => false
  end.

(** One of the matching keys. *)
Definition observe_key (ok : Key -> bool) (now : Z) (v : Verifier) (k : Key) : Verifier :=
  match tracked v !! k with
  | None => v
  | Some p =>
      if bool_decide (status p = "observed"%string) then
        track k (mkTracked (expectation p) "observed" (first_observed_at_ns p) now (deadline p)) v
      else
        write_status (ok k) k (write_of k.1 (expectation p) "observed" now now now)
          (track k (mkTracked (expectation p) "observed" now now (deadline p)) v)
  end.

Definition matches (u : TelemetryUpdate) (k : Key) (p : TrackedPath) : bool :=
  bool_decide (k.1 = target u) && path_matches_update (expectation p) u (classify u).

(** The keys of the paths that satisfy a test, in the order of the hash map. *)
Definition keys_where (f : Key -> TrackedPath -> bool) (v : Verifier) : list Key :=
  List.filter (fun k => match tracked v !! k with Some p => f k p | None => false end) (hash_keys (tracked v)).

(** [now_ns] is read once, [now = update.timestamp_ns.max(now_ns())]. *)
Definition observe_update (ok : Key -> bool) (now_ns : Z) (u : TelemetryUpdate) (v : Verifier) : Verifier :=
  let now := Z.max (timestamp_ns u) now_ns in
  foldl (observe_key ok now) v (keys_where (matches u) v).

Definition silence_key (ok : Key -> bool) (now : Z) (v : Verifier) (k : Key) : Verifier :=
  match tracked v !! k with
  | None => v
  | Some p =>
      write_status (ok k) k (write_of k.1 (expectation p) "subscribed_but_silent" 0 0 now)
        (track k (mkTracked (expectation p) "subscribed_but_silent" (first_observed_at_ns p) (last_observed_at_ns p) (deadline p)) v)
  end.

Definition mark_silent_paths (ok : Key -> bool) (instant now : Z) (v : Verifier) : Verifier :=
  foldl (silence_key ok now) v (keys_where (fun _ p => bool_decide (status p = "pending"%string) && (deadline p <=? instant)) v).

(** What the loop of [run_subscription_verifier] is woken for. *)
Inductive VOp :=
  | VPlan (ok : Key -> bool) (now instant : Z) (p : SubscriptionPlan)
  | VUpdate (ok : Key -> bool) (now : Z) (u : TelemetryUpdate)
  | VTick (ok : Key -> bool) (instant now : Z).

Definition v_op (v : Verifier) (op : VOp) : Verifier :=
  match op with
  | VPlan ok now instant p => register_plan ok now instant p v
  | VUpdate ok now u => observe_update ok now u v
  | VTick ok instant now => mark_silent_paths ok instant now v
  end.

Definition v_run (ops : list VOp) (v : Verifier) : Verifier := foldl v_op v ops.

(** ** What the store holds *)

(** The write that decides what the store says of a path. *)
Definition last_write (k : Key) (ws : list (Key * StatusWrite)) : option StatusWrite :=
  snd <$> last (base.filter (fun kw => kw.1 = k) ws).

Lemma last_write_snoc k ws k' w : last_write k (ws ++ [(k', w)]) = if bool_decide (k' = k) then Some w else last_write k ws.
Proof.
  unfold last_write. rewrite filter_app. case_bool_decide as Hk.
  - rewrite filter_cons_True by done. rewrite filter_nil, last_snoc. done.
  - rewrite filter_cons_False by done. by rewrite filter_nil, app_nil_r.
Qed.

Definition statuses : list string := ["pending"; "observed"; "subscribed_but_silent"]%string.

(** What a write says of a path: the device, the subscription and its status,
    and, once the path was observed, since when. *)
Definition describes (k : Key) (p : TrackedPath) (w : StatusWrite) : Prop :=
  w = write_of k.1 (expectation p) (status p) (w_first_ns w) (w_last_ns w) (w_updated_ns w) /\
  k = tracked_key k.1 (expectation p) /\
  (status p = "observed"%string -> w_first_ns w = first_observed_at_ns p).

(** The store says of each tracked path what the verifier does. *)
Definition agrees (v : Verifier) : Prop :=
  events v = (writes v).*2 /\
  forall k p, tracked v !! k = Some p ->
    status p ∈ statuses /\ exists w, last_write k (writes v) = Some w /\ describes k p w.

(** The steps that change a path: it is tracked anew, and written. *)
Lemma agrees_write k p w v : agrees v -> describes k p w -> status p ∈ statuses -> agrees (write_status true k w (track k p v)).
Proof.
  intros [He Ha] Hw Hs. split; cbn [write_status track writes events tracked]; [by rewrite He, fmap_app|]. intros k' p'. rewrite last_write_snoc. case_bool_decide as Hk.
  - subst k'. rewrite lookup_insert_eq. intros [= <-]. split; [done|]. by exists w.
  - rewrite lookup_insert_ne by done. apply Ha.
Qed.

(** The steps that leave what is written of a path as it is. *)
Lemma agrees_keep k p p' v :
  agrees v -> tracked v !! k = Some p -> status p' = status p -> expectation p' = expectation p ->
  first_observed_at_ns p' = first_observed_at_ns p -> agrees (track k p' v).
Proof.
  intros [He Ha] Hp Hs Hx Hf. split; [done|]. cbn. intros k' q. destruct (decide (k = k')) as [<-|Hne].
  - rewrite lookup_insert_eq. intros [= <-]. unfold describes. rewrite Hs, Hx, Hf. by apply Ha.
  - rewrite lookup_insert_ne by done. apply Ha.
Qed.

(** The key of a tracked path is its own. *)
Lemma agrees_key v k p : agrees v -> tracked v !! k = Some p -> k = tracked_key k.1 (expectation p).
Proof. intros [_ Ha] Hp. destruct (Ha k p Hp) as (_ & w & _ & _ & Hk & _). done. Qed.

Lemma agrees_observe now v k : agrees v -> agrees (observe_key (fun _ => true) now v k).
Proof.
  intros Ha. unfold observe_key. destruct (tracked v !! k) as [p|] eqn:Hp; [|done]. case_bool_decide as Hs.
  - by eapply agrees_keep.
  - apply agrees_write; [done| |cbn; set_solver]. split_and!; [done|exact (agrees_key _ _ _ Ha Hp)|done].
Qed.

Lemma agrees_silence now v k : agrees v -> agrees (silence_key (fun _ => true) now v k).
Proof.
  intros Ha. unfold silence_key. destruct (tracked v !! k) as [p|] eqn:Hp; [|done].
  apply agrees_write; [done| |cbn; set_solver]. split_and!; [done|exact (agrees_key _ _ _ Ha Hp)|done].
Qed.

Lemma agrees_register now d t v e : agrees v -> agrees (register_path (fun _ => true) now d t v e).
Proof. intros Ha. by apply agrees_write; [done| |cbn; set_solver]. Qed.

(** The calls of a run in which the store takes every write. *)
Definition taken_op (op : VOp) : Prop :=
  match op with VPlan ok _ _ _ | VUpdate ok _ _ | VTick ok _ _ => ok = fun _ => true end.

Lemma agrees_op v op : taken_op op -> agrees v -> agrees (v_op v op).
Proof.
  intros Hop Ha. destruct op as [ok now instant p|ok now u|ok instant now]; cbn in Hop; subst ok; apply (foldl_keeps agrees); try done; intros;
    by first [apply agrees_register|apply agrees_observe|apply agrees_silence].
Qed.

(** Claim C29: if the store takes every write, then after any plans, updates and
    ticks and in whatever order the hash map lists its keys, the last write for
    every tracked path says of it what the verifier knows: the device, path,
    origin, mode and interval of the subscription, whether it is pending,
    observed or silent, and if it was observed since when; and the published
    events are the writes. *)
Theorem verifier_store_agrees (ops : list VOp) (k : Key) (p : TrackedPath) :
  Forall taken_op ops -> tracked (v_run ops verifier_new) !! k = Some p ->
  status p ∈ statuses /\
  (exists w, last_write k (writes (v_run ops verifier_new)) = Some w /\ describes k p w) /\
  events (v_run ops verifier_new) = (writes (v_run ops verifier_new)).*2.
Proof.
  intros Hops Hp. assert (agrees (v_run ops verifier_new)) as [He Ha].
  { apply (foldl_keeps agrees); [|split; [done|]; cbn; intros k' q; by rewrite lookup_empty].
    intros v op Hin. apply agrees_op. rewrite Forall_forall in Hops. by apply Hops. }
  destruct (Ha k p Hp) as [? ?]. done.
Qed.

(** ** What the verifier does not do *)

Definition observed_at (v : Verifier) (k : Key) : Prop := exists p, tracked v !! k = Some p /\ status p = "observed"%string.

(** A path that was observed is tracked as observed, and not written. *)
Definition settled (k : Key) (o : option StatusWrite) (v : Verifier) : Prop := observed_at v k /\ last_write k (writes v) = o.

Lemma settled_observe ok now k o v k' : settled k o v -> settled k o (observe_key ok now v k').
Proof.
  intros [(p & Hp & Hs) Hw]. unfold observe_key. destruct (tracked v !! k') as [p'|] eqn:Hp'; [|by split; [exists p|]].
  destruct (decide (k' = k)) as [->|Hne].
  - rewrite Hp in Hp'. injection Hp' as <-. rewrite bool_decide_true by done. split; [|done]. eexists. split; [cbn; apply lookup_insert_eq|done].
  - destruct (bool_decide (status p' = "observed"%string)); [|unfold write_status; destruct (ok k')]; (split; [exists p; split; [cbn; by rewrite lookup_insert_ne|done]|cbn [track writes]]); try done.
    rewrite last_write_snoc. by rewrite bool_decide_false.
Qed.

Lemma elem_of_tracked_where f v k : k ∈ keys_where f v <-> exists p, tracked v !! k = Some p /\ f k p = true.
Proof.
  unfold keys_where. rewrite list_elem_of_In, filter_In, <- list_elem_of_In, elem_of_hash_keys. split.
  - intros [[p Hp] Hf]. rewrite Hp in Hf. by exists p.
  - intros (p & Hp & Hf). rewrite Hp. split; [by eexists|done].
Qed.

Lemma settled_silence ok now k o v k' : k' <> k -> settled k o v -> settled k o (silence_key ok now v k').
Proof.
  intros Hne [(p & Hp & Hs) Hw]. unfold silence_key. destruct (tracked v !! k') as [p'|] eqn:Hp'; [|by split; [exists p|]].
  unfold write_status; destruct (ok k'); (split; [exists p; split; [cbn; by rewrite lookup_insert_ne|done]|cbn [track writes]]); [|done].
  rewrite last_write_snoc. by rewrite bool_decide_false.
Qed.

Definition not_plan (op : VOp) : Prop := match op with VPlan _ _ _ _ => False | _ => True end.

(** Once a path is tracked as observed, no update and no tick writes its status:
    a device that falls silent later is not noticed, and when the write of the
    change failed the store says pending for good. *)
Theorem observed_never_written_again (ops : list VOp) (v : Verifier) (k : Key) :
  observed_at v k -> Forall not_plan ops ->
  observed_at (v_run ops v) k /\ last_write k (writes (v_run ops v)) = last_write k (writes v).
Proof.
  intros Ho Hops. apply (foldl_keeps (settled k (last_write k (writes v)))); [|done].
  intros v' op Hin Hs. rewrite Forall_forall in Hops. specialize (Hops _ Hin). destruct op as [|ok now u|ok instant now]; [done|..].
  - apply (foldl_keeps (settled k (last_write k (writes v)))); [|done]. intros. by apply settled_observe.
  - unfold v_op, mark_silent_paths. destruct Hs as [(p & Hp & Hst) Hw].
    apply (foldl_keeps (settled k (last_write k (writes v)))); [|split; [by exists p|done]].
    intros v'' k' (p' & Hp' & Hf)%elem_of_tracked_where Hs'. apply settled_silence; [|done]. intros ->. rewrite Hp in Hp'. injection Hp' as <-.
    rewrite Hst in Hf. done.
Qed.

Lemma contains_tail n (a b : bytes) : contains n b = true -> contains n (a ++ b) = true.
Proof. intros Hb. induction a as [|x a IH]; [done|]. cbn. rewrite IH. apply orb_true_r. Qed.

Lemma to_ascii_lowercase_app a b : to_ascii_lowercase (a ++ b) = (to_ascii_lowercase a ++ to_ascii_lowercase b)%string.
Proof.
  unfold to_ascii_lowercase. induction a as [|x a IH]; [done|]. rewrite string_cons_app. cbn [list_ascii_of_string fmap list_fmap string_of_list_ascii].
  by rewrite IH.
Qed.

Lemma observe_key_observes ok now v k : is_Some (tracked v !! k) -> observed_at (observe_key ok now v k) k.
Proof.
  intros [p Hp]. unfold observe_key. rewrite Hp. unfold write_status.
  destruct (bool_decide _); [|destruct (ok k)]; eexists; (split; [cbn; apply lookup_insert_eq|done]).
Qed.

Lemma observe_update_observes ok now u v k p :
  tracked v !! k = Some p -> matches u k p = true -> observed_at (observe_update ok now u v) k.
Proof.
  intros Hp Hm. assert (k ∈ keys_where (matches u) v) as Hin by (apply elem_of_tracked_where; by exists p).
  unfold observe_update. apply list_elem_of_split in Hin as (l1 & l2 & ->). rewrite foldl_app. cbn [foldl].
  assert (forall l w, observed_at w k -> observed_at (foldl (observe_key ok (Z.max (timestamp_ns u) now)) w l) k) as Hkeep.
  { intros l w Hw. apply (foldl_keeps (fun w => observed_at w k)); [|done]. intros w' x _ Ho.
    by apply (settled_observe _ _ k (last_write k (writes w'))). }
  apply Hkeep, observe_key_observes.
  apply (foldl_keeps (fun w => is_Some (tracked w !! k))); [|by rewrite Hp]. intros w x _ Hw.
  unfold observe_key. destruct (tracked w !! x) as [q|]; [|done]. unfold write_status.
  destruct (bool_decide _); [|destruct (ok x)]; cbn; destruct (decide (x = k)) as [->|Hne];
    rewrite ?lookup_insert_eq, ?lookup_insert_ne by done; done.
Qed.

(** The counters of one interface confirm every subscription of the
    device: whatever path was subscribed to (BGP sessions, say), it is marked as
    observed when the device sends statistics of an interface, because the path
    of the update is looked at without regard to the one expected. *)
Theorem counters_confirm_everything (ok : Key -> bool) (now : Z) (u : TelemetryUpdate) (name : string) (v : Verifier) (k : Key)
    (p : TrackedPath) :
  split_once "]"%char name = None -> Forall (fun b => u8 b < 128) (bytes_of_string name) ->
  path u = ("interface[name=" ++ name ++ "]/statistics")%string ->
  tracked v !! k = Some p -> k.1 = target u ->
  observed_at (observe_update ok now u v) k.
Proof.
  intros Hn Ha Hp Hk Ht. apply (observe_update_observes ok now u v k p Hk). unfold matches. rewrite bool_decide_true by done.
  rewrite (counters_classified u name Hn) by (by left). cbn [path_matches_update andb].
  assert (text_contains "statistics" (to_lowercase (path u)) = true) as ->; [|by rewrite !orb_true_r].
  rewrite to_lowercase_ascii.
  - rewrite Hp, !to_ascii_lowercase_app. unfold text_contains. rewrite !bytes_of_string_app. by apply contains_tail, contains_tail.
  - rewrite Hp, !bytes_of_string_app. apply Forall_app. split; [by repeat constructor|]. apply Forall_app. split; [done|by repeat constructor].
Qed.

End Verifier.

(** ** Running the model *)

Section Demo.

#[local] Instance ascii_case : Lowercase.
Proof. refine {| to_lowercase := to_ascii_lowercase |}. done. Defined.

#[local] Instance verifier_order : HashOrder := trie_order.

Definition bgp_plan : SubscriptionPlan := mkPlan "10.0.0.1" [mkExpectation "network-instances/bgp" "" "ON_CHANGE" 0].

Definition counters_update : TelemetryUpdate :=
  mkTelemetryUpdate "10.0.0.1" "nokia" "leaf1" "" "" 5 "interface[name=ethernet-1/1]/statistics" (V_Object []).

Definition planned : Verifier := register_plan (fun _ => true) 1 1 bgp_plan verifier_new.
Definition bgp_key : Key := ("10.0.0.1", "|ON_CHANGE|0|network-instances/bgp")%string.

Lemma counters_confirm_everything_witness : observed_at (observe_update (fun _ => true) 5 counters_update planned) bgp_key.
Proof.
  apply (counters_confirm_everything (fun _ => true) 5 counters_update "ethernet-1/1" planned bgp_key
           (mkTracked (mkExpectation "network-instances/bgp" "" "ON_CHANGE" 0) "pending" 0 0 (1 + VERIFICATION_WINDOW))).
  - reflexivity.
  - repeat constructor.
  - reflexivity.
  - vm_compute. reflexivity.
  - reflexivity.
Defined.

Definition demo_v_ops : list VOp := [VPlan (fun _ => true) 1 1 bgp_plan; VTick (fun _ => true) (2 + VERIFICATION_WINDOW) 9].

Lemma verifier_store_agrees_witness :
  exists w, last_write bgp_key (writes (v_run demo_v_ops verifier_new)) = Some w /\
    describes bgp_key (mkTracked (mkExpectation "network-instances/bgp" "" "ON_CHANGE" 0) "subscribed_but_silent" 0 0 (1 + VERIFICATION_WINDOW)) w.
Proof.
  destruct (verifier_store_agrees demo_v_ops bgp_key
    (mkTracked (mkExpectation "network-instances/bgp" "" "ON_CHANGE" 0) "subscribed_but_silent" 0 0 (1 + VERIFICATION_WINDOW)))
    as (_ & Hw & _); [repeat constructor|vm_compute; reflexivity|exact Hw].
Defined.

End Demo.
