(* ===== verification/Debounce.v ===== *)
(** * Debouncing of telemetry ([src/ingest.rs])

    Before an update is ingested, repetitions are dropped: a state that is the
    same as the last one seen for its path, counters of an interface within a
    window, and under pressure more than that.  The memory is three caches of
    limited size, each of sixteen shards; the [lru] crate is an interface, and
    the hash of a key, the readings of the clock and the depth of the queue are
    arguments. *)

From Stdlib Require Import ZArith Lia ZifyBool String Ascii.
From stdpp Require Import base numbers list option strings.
From S2P Require Import Prelude RustStd HashMaps Jsonl Text Telemetry.

Local Open Scope Z_scope.

(** ** Caches *)

(** [lru::LruCache] with texts as keys: an entry that is put can be looked at
    until it is evicted or put again. *)
Class LruCrate := {
  Lru : Type -> Type;
  lru_new {V} : Z -> Lru V;
  lru_cap {V} : Lru V -> Z;
  lru_peek {V} : string -> Lru V -> option V;
  lru_put {V} : string -> V -> Lru V -> Lru V;
  lru_resize {V} : Z -> Lru V -> Lru V;
  lru_peek_new {V} c k : lru_peek k (@lru_new V c) = None;
  lru_peek_put {V} k (v : V) l : lru_peek k (lru_put k v l) = Some v;
  lru_peek_put_ne {V} k k' (v w : V) l : k <> k' -> lru_peek k (lru_put k' v l) = Some w -> lru_peek k l = Some w;
  lru_peek_resize {V} c k (w : V) l : lru_peek k (lru_resize c l) = Some w -> lru_peek k l = Some w;
}.

(** The hasher of the standard library. *)
Class KeyHash := key_hash : string -> Z.

(** [serde_json::Value::to_string] *)
Class JsonPrint := json_to_string : JsonValue -> string.

Definition CACHE_SHARDS : nat := 16.

Section Debounce.
Context `{LruCrate, KeyHash, JsonPrint, Lowercase}.

Notation Sharded V := (list (Lru V)).

Definition sharded_new {V} (per_shard_cap : Z) : Sharded V := replicate CACHE_SHARDS (lru_new (Z.max per_shard_cap 64)).

Definition shard_idx (key : string) : nat := Z.to_nat (key_hash key mod Z.of_nat CACHE_SHARDS).

Definition shrink_to_pct {V} (pct : Z) (c : Sharded V) : Sharded V :=
  let pct := Z.min 90 (Z.max 10 pct) in
  (fun l => lru_resize (Z.max 64 (lru_cap l * pct / 100)) l) <$> c.

Definition sharded_peek {V} (key : string) (c : Sharded V) : option V := l ← c !! shard_idx key; lru_peek key l.

Definition sharded_put {V} (key : string) (v : V) (c : Sharded V) : Sharded V := alter (lru_put key v) (shard_idx key) c.

(** [self.shards[idx]] is in range: there are sixteen shards. *)
Definition check_debounce {V} (key : string) (new_value : V) (skip_if : V -> bool) (c : Sharded V) : Sharded V * bool :=
  match sharded_peek key c with
  | Some existing => if skip_if existing then (c, true) else (sharded_put key new_value c, false)
  | None => (sharded_put key new_value c, false)
  end.

Definition shard_cap_from_budget (total_budget_bytes entry_bytes : Z) : Z :=
  Z.max 64 (total_budget_bytes / Z.max 1 entry_bytes / Z.of_nat CACHE_SHARDS).

(** ** The debouncer *)

Record BackpressureConfig := mkBackpressure { level_1_pct : Z; level_2_pct : Z }.

Record TelemetryDebouncer := mkDebouncer {
  last_counter_write : Sharded Z;
  debounce_window : Z;
  queue_capacity : Z;
  backpressure : BackpressureConfig;
  last_oper_status_write : Sharded Z;
  last_state_write : Sharded (Z * string);
  state_debounce_window : Z;
}.

Definition debouncer_new (debounce_secs : Z) (b : BackpressureConfig) (queue_capacity debounce_memory_bytes : Z) : TelemetryDebouncer :=
  let budget := debounce_memory_bytes / 3 in
  mkDebouncer (sharded_new (shard_cap_from_budget budget 128)) (debounce_secs * 10 ^ 9) queue_capacity b
    (sharded_new (shard_cap_from_budget budget 128)) (sharded_new (shard_cap_from_budget budget 256))
    (Z.min 30 (Z.max 10 (debounce_secs / 2)) * 10 ^ 9).

Definition shrink_debounce_caches (pct : Z) (d : TelemetryDebouncer) : TelemetryDebouncer :=
  mkDebouncer (shrink_to_pct pct (last_counter_write d)) (debounce_window d) (queue_capacity d) (backpressure d)
    (shrink_to_pct pct (last_oper_status_write d)) (shrink_to_pct pct (last_state_write d)) (state_debounce_window d).

Definition with_state (c : Sharded (Z * string)) (d : TelemetryDebouncer) : TelemetryDebouncer :=
  mkDebouncer (last_counter_write d) (debounce_window d) (queue_capacity d) (backpressure d) (last_oper_status_write d) c
    (state_debounce_window d).

Definition with_counter (c : Sharded Z) (d : TelemetryDebouncer) : TelemetryDebouncer :=
  mkDebouncer c (debounce_window d) (queue_capacity d) (backpressure d) (last_oper_status_write d) (last_state_write d)
    (state_debounce_window d).

Definition with_oper (c : Sharded Z) (d : TelemetryDebouncer) : TelemetryDebouncer :=
  mkDebouncer (last_counter_write d) (debounce_window d) (queue_capacity d) (backpressure d) c (last_state_write d)
    (state_debounce_window d).

(** Why an update is dropped, as the metrics name it. *)
Inductive Verdict := EmptyTargetOrPath | TopologyUnchanged | Level1Counter | CounterDebounced | Level2OperStatus | Passed.

Definition should_drop_result (v : Verdict) : bool := match v with Passed => false | _ => true end.

(** [now.duration_since(t) < window]; an instant in the future is as [now]. *)
Definition within (window now t : Z) : bool := Z.max 0 (now - t) <? window.

Definition state_key (u : TelemetryUpdate) : string := (target u ++ "/" ++ path u)%string.
Definition if_key (u : TelemetryUpdate) (if_name : string) : string := (target u ++ ":" ++ if_name)%string.

(** Updates that are compared with the last value: all but counters and those
    that are not recognised. *)
Definition is_state (e : TelemetryEvent) : bool := match e with InterfaceStats _ | Ignored => false | _ => true end.

Definition check_state (now : Z) (u : TelemetryUpdate) (d : TelemetryDebouncer) : TelemetryDebouncer * bool :=
  if is_state (classify u) then
    let value_str := json_to_string (value u) in
    let r := check_debounce (state_key u) (now, value_str)
               (fun last => bool_decide (last.2 = value_str) && within (state_debounce_window d) now last.1) (last_state_write d) in
    (with_state r.1 d, r.2)
  else (d, false).

Definition check_pressure (now fill_pct : Z) (u : TelemetryUpdate) (d : TelemetryDebouncer) : TelemetryDebouncer * Verdict :=
  match classify u with
  | InterfaceStats if_name =>
      if level_1_pct (backpressure d) <=? fill_pct then (d, Level1Counter)
      else if negb (debounce_window d =? 0) then
        let r := check_debounce (if_key u if_name) now (within (debounce_window d) now) (last_counter_write d) in
        (with_counter r.1 d, if r.2 then CounterDebounced else Passed)
      else (d, Passed)
  | InterfaceOperStatus if_name _ =>
      if level_2_pct (backpressure d) <=? fill_pct then
        let r := check_debounce (if_key u if_name) now (within (6 * 10 ^ 9) now) (last_oper_status_write d) in
        (with_oper r.1 d, if r.2 then Level2OperStatus else Passed)
      else (d, Passed)
  | _ => (d, Passed)
  end.

(** [now] and [now'] are the readings of the two checks. *)
Definition should_drop (depth now now' : Z) (u : TelemetryUpdate) (d : TelemetryDebouncer) : TelemetryDebouncer * Verdict :=
  if bool_decide (target u = ""%string) || bool_decide (path u = ""%string) then (d, EmptyTargetOrPath)
  else
    let fill_pct := if 0 <? queue_capacity d then depth * 100 / queue_capacity d else 0 in
    let r := check_state now u d in
    if r.2 then (r.1, TopologyUnchanged) else check_pressure now' fill_pct u r.1.

(** ** What a dropped state repeats *)

Inductive DOp := DUpdate (depth now now' : Z) (u : TelemetryUpdate) | DShrink (pct : Z).

(** The updates that were judged, in order, with the reading of the first check. *)
Definition History : Type := list (Z * TelemetryUpdate * Verdict).

Definition d_op (s : TelemetryDebouncer * History) (op : DOp) : TelemetryDebouncer * History :=
  match op with
  | DUpdate depth now now' u => let r := should_drop depth now now' u s.1 in (r.1, s.2 ++ [(now, u, r.2)])
  | DShrink pct => (shrink_debounce_caches pct s.1, s.2)
  end.

Definition d_run (ops : list DOp) (d : TelemetryDebouncer) : TelemetryDebouncer * History := foldl d_op (d, []) ops.

(** The update is the last known state of its path from then on: it was compared
    and found new. *)
Definition sets_state (k : string) (x : Z * TelemetryUpdate * Verdict) : bool :=
  is_state (classify x.1.2) && bool_decide (state_key x.1.2 = k) &&
  match x.2 with EmptyTargetOrPath | TopologyUnchanged => false | _ => true end.

Definition last_state (k : string) (h : History) : option (Z * TelemetryUpdate * Verdict) := last (List.filter (sets_state k) h).

Lemma last_state_snoc k h x : last_state k (h ++ [x]) = if sets_state k x then Some x else last_state k h.
Proof.
  unfold last_state. rewrite List.filter_app. cbn [List.filter]. destruct (sets_state k x); [by rewrite last_snoc|by rewrite app_nil_r].
Qed.

(** *** Sharded caches *)

Lemma sharded_peek_put {V} k (v : V) c : length c = CACHE_SHARDS -> sharded_peek k (sharded_put k v c) = Some v.
Proof.
  intros Hl. unfold sharded_peek, sharded_put. rewrite list_lookup_alter_eq.
  destruct (c !! shard_idx k) as [l|] eqn:Hc; [cbn; apply lru_peek_put|]. exfalso. apply lookup_ge_None in Hc. rewrite Hl in Hc.
  unfold shard_idx, CACHE_SHARDS in Hc. pose proof (Z.mod_pos_bound (key_hash k) (Z.of_nat 16)). lia.
Qed.

Lemma sharded_peek_put_ne {V} k k' (v w : V) c : k <> k' -> sharded_peek k (sharded_put k' v c) = Some w -> sharded_peek k c = Some w.
Proof.
  intros Hne. unfold sharded_peek, sharded_put. destruct (decide (shard_idx k' = shard_idx k)) as [Hi|Hi].
  - rewrite Hi, list_lookup_alter_eq. destruct (c !! shard_idx k); cbn; [|done]. by apply lru_peek_put_ne.
  - by rewrite list_lookup_alter_ne.
Qed.

Lemma sharded_peek_shrink {V} pct k (w : V) c : sharded_peek k (shrink_to_pct pct c) = Some w -> sharded_peek k c = Some w.
Proof.
  unfold sharded_peek, shrink_to_pct. rewrite list_lookup_fmap. destruct (c !! shard_idx k); cbn; [|done]. apply lru_peek_resize.
Qed.

Lemma sharded_peek_new {V} cap k : sharded_peek k (@sharded_new V cap) = None.
Proof.
  unfold sharded_peek, sharded_new. destruct (replicate CACHE_SHARDS (lru_new (V := V) (Z.max cap 64)) !! shard_idx k) as [l|] eqn:Hl; [|done].
  apply lookup_replicate in Hl as [-> _]. cbn. apply lru_peek_new.
Qed.

(** *** The invariant *)

Definition state_of (x : Z * TelemetryUpdate * Verdict) : Z * string := (x.1.1, json_to_string (value x.1.2)).

Definition remembers (s : TelemetryDebouncer * History) : Prop :=
  length (last_state_write s.1) = CACHE_SHARDS /\
  forall k e, sharded_peek k (last_state_write s.1) = Some e -> exists x, last_state k s.2 = Some x /\ state_of x = e.

Lemma pressure_keeps_state now fill u d :
  last_state_write (check_pressure now fill u d).1 = last_state_write d /\
  state_debounce_window (check_pressure now fill u d).1 = state_debounce_window d.
Proof. unfold check_pressure. by destruct (classify u); repeat case_match. Qed.

Lemma pressure_verdict now fill u d :
  (check_pressure now fill u d).2 <> TopologyUnchanged /\ (check_pressure now fill u d).2 <> EmptyTargetOrPath /\
  (is_state (classify u) = true -> (check_pressure now fill u d).2 = Passed \/ (check_pressure now fill u d).2 = Level2OperStatus).
Proof. unfold check_pressure. destruct (classify u); repeat case_match; cbn; split_and!; try done; auto. Qed.

Lemma check_state_keeps now u d : state_debounce_window (check_state now u d).1 = state_debounce_window d.
Proof. unfold check_state. by case_match. Qed.

Lemma length_sharded_put {V} k (v : V) c : length (sharded_put k v c) = length c.
Proof. apply length_alter. Qed.

Lemma remembers_new secs b cap mem : remembers (debouncer_new secs b cap mem, []).
Proof. split; [by apply length_replicate|]. intros k e He. unfold debouncer_new in He. cbn [fst last_state_write] in He. by rewrite sharded_peek_new in He. Qed.

Lemma remembers_shrink pct s : remembers s -> remembers (d_op s (DShrink pct)).
Proof.
  intros [Hl Hr]. unfold d_op, shrink_debounce_caches. split; cbn [fst snd last_state_write].
  - unfold shrink_to_pct. by rewrite length_fmap.
  - intros k e He. by eapply Hr, sharded_peek_shrink.
Qed.

(** The state check of an update that is compared. *)
Lemma remembers_state now u d h :
  remembers (d, h) -> is_state (classify u) = true ->
  let r := check_state now u d in
  (r.2 = true -> r.1 = with_state (last_state_write d) d /\
     exists x, last_state (state_key u) h = Some x /\ json_to_string (value x.1.2) = json_to_string (value u) /\
       within (state_debounce_window d) now x.1.1 = true) /\
  (r.2 = false -> forall v, v <> EmptyTargetOrPath -> v <> TopologyUnchanged -> remembers (r.1, h ++ [(now, u, v)])).
Proof.
  intros [Hl Hr] Hs r. unfold r, check_state. rewrite Hs. cbn [fst snd]. unfold check_debounce.
  set (js := json_to_string (value u)).
  assert (forall v, v <> EmptyTargetOrPath -> v <> TopologyUnchanged ->
            remembers (with_state (sharded_put (state_key u) (now, js) (last_state_write d)) d, h ++ [(now, u, v)])) as Hput.
  { intros v Hv1 Hv2. split; [cbn; by rewrite length_sharded_put|]. intros k e He. cbn [fst snd with_state last_state_write] in He |- *.
    rewrite last_state_snoc. unfold sets_state. cbn [fst snd]. rewrite Hs. cbn [andb]. destruct (decide (state_key u = k)) as [<-|Hne].
    - rewrite sharded_peek_put in He by done. injection He as <-. rewrite bool_decide_true by done.
      exists (now, u, v). split; [by destruct v|done].
    - rewrite bool_decide_false by done. cbn [andb]. apply Hr. by eapply sharded_peek_put_ne. }
  destruct (sharded_peek (state_key u) (last_state_write d)) as [last|] eqn:Hp; cbn [fst snd]; [|split; [done|auto]].
  destruct (bool_decide (last.2 = js) && within (state_debounce_window d) now last.1) eqn:Hb; cbn [fst snd]; [|by split; [|auto]].
  split; [|done]. intros _. split; [done|]. apply andb_true_iff in Hb as [Hv Hw]. apply bool_decide_eq_true in Hv.
  destruct (Hr _ _ Hp) as (x & Hx & <-). by exists x.
Qed.

(** An entry of the history that was dropped as unchanged is justified by the
    entries before it. *)
Definition justified (window : Z) (h : History) : Prop :=
  forall h1 now u h2, h = h1 ++ (now, u, TopologyUnchanged) :: h2 ->
    exists now0 u0 v0, last_state (state_key u) h1 = Some (now0, u0, v0) /\ (v0 = Passed \/ v0 = Level2OperStatus) /\
      json_to_string (value u0) = json_to_string (value u) /\ within window now now0 = true.

(** The verdicts states can have. *)
Definition state_verdicts (h : History) : Prop :=
  Forall (fun x => is_state (classify x.1.2) = true -> x.2 <> Level1Counter /\ x.2 <> CounterDebounced) h.

Lemma within_last_state k h x : last_state k h = Some x -> x ∈ h /\ sets_state k x = true.
Proof.
  unfold last_state. intros Hx%last_Some_elem_of. apply list_elem_of_In, filter_In in Hx as [Hx Hs]. by rewrite list_elem_of_In.
Qed.

Definition sound_run (w : Z) (s : TelemetryDebouncer * History) : Prop :=
  remembers s /\ state_debounce_window s.1 = w /\ justified w s.2 /\ state_verdicts s.2.

Lemma justified_snoc w h now u v :
  justified w h ->
  (v = TopologyUnchanged -> exists now0 u0 v0, last_state (state_key u) h = Some (now0, u0, v0) /\ (v0 = Passed \/ v0 = Level2OperStatus) /\
      json_to_string (value u0) = json_to_string (value u) /\ within w now now0 = true) ->
  justified w (h ++ [(now, u, v)]).
Proof.
  intros Hj Hv h1 now1 u1 h2 He. destruct h2 as [|y h2' _] using rev_ind.
  - apply app_inj_tail in He as [<- [= -> -> ->]]. by apply Hv.
  - rewrite app_comm_cons, app_assoc in He. apply app_inj_tail in He as [He _]. by eapply Hj.
Qed.

Lemma sound_update w depth now now' u s : sound_run w s -> sound_run w (d_op s (DUpdate depth now now' u)).
Proof.
  destruct s as [d h]. intros (Hr & Hw & Hj & Hv). cbn [fst snd] in *. unfold d_op, should_drop. cbn [fst snd].
  destruct (bool_decide (target u = ""%string) || bool_decide (path u = ""%string)).
  { split_and!; [|done|by apply justified_snoc|]; cbn [fst snd].
    - destruct Hr as [Hl Hr]. split; [done|]. intros k e He. cbn [fst snd]. rewrite last_state_snoc.
      unfold sets_state. cbn [snd]. rewrite andb_false_r. by apply Hr.
    - apply Forall_app. split; [done|]. by repeat constructor. }
  destruct (is_state (classify u)) eqn:Hs.
  - pose proof (remembers_state now u d h Hr Hs) as [Hsame Hnew]. cbn zeta in Hsame, Hnew. pose proof (check_state_keeps now u d) as Hwin.
    destruct (check_state now u d) as [d1 b]. cbn [fst snd] in *. destruct b.
    + destruct (Hsame eq_refl) as (-> & [[now0 u0] v0] & Hx & Hval & Hwi). cbn [fst snd] in *. split_and!; [|done| |]; cbn [fst snd].
      * destruct Hr as [Hl Hr]. split; [done|]. intros k e He. cbn [fst snd]. rewrite last_state_snoc.
        unfold sets_state. cbn [snd]. rewrite andb_false_r. by apply Hr.
      * apply justified_snoc; [done|]. intros _. exists now0, u0, v0. rewrite Hw in Hwi. split_and!; [done| |done|done].
        apply within_last_state in Hx as [Hin Hset]. pose proof (proj1 (Forall_forall _ _) Hv _ Hin) as Hv'. cbn [fst snd] in Hv'.
        unfold sets_state in Hset. cbn [fst snd] in Hset. apply andb_true_iff in Hset as [[Hst _]%andb_true_iff Hvv]. destruct (Hv' Hst) as [? ?].
        destruct v0; try done; auto.
      * apply Forall_app. split; [done|]. by repeat constructor.
    + set (fill := if 0 <? queue_capacity d then _ else _). pose proof (pressure_verdict now' fill u d1) as (Hv1 & Hv2 & Hv3).
      pose proof (pressure_keeps_state now' fill u d1) as [Hk1 Hk2]. destruct (check_pressure now' fill u d1) as [d2 v]. cbn [fst snd] in *.
      split_and!; cbn [fst snd]; [|by rewrite Hk2, Hwin|by apply justified_snoc|].
      * destruct (Hnew eq_refl v Hv2 Hv1) as [Hl Hr']. split; cbn [fst snd] in *; by rewrite Hk1.
      * apply Forall_app. split; [done|]. apply Forall_singleton. intros _. cbn. destruct (Hv3 Hs) as [-> | ->]; done.
  - unfold check_state. rewrite Hs. cbn [fst snd]. set (fill := if 0 <? queue_capacity d then _ else _).
    pose proof (pressure_verdict now' fill u d) as (Hv1 & Hv2 & _). pose proof (pressure_keeps_state now' fill u d) as [Hk1 Hk2].
    destruct (check_pressure now' fill u d) as [d2 v]. cbn [fst snd] in *. split_and!; cbn [fst snd]; [|by rewrite Hk2|by apply justified_snoc|].
    + destruct Hr as [Hl Hr]. split; cbn [fst snd] in *; [by rewrite Hk1|]. intros k e He. rewrite Hk1 in He. rewrite last_state_snoc.
      unfold sets_state. cbn [fst snd]. rewrite Hs. cbn [andb]. by apply Hr.
    + apply Forall_app. split; [done|]. apply Forall_singleton. cbn [fst snd]. by rewrite Hs.
Qed.

(** Claim C30: a state is dropped as unchanged only if it is: whatever updates came
    and however the caches were evicted and shrunk, the last state of its path
    that was not itself dropped as unchanged had the same value, and was seen
    within the window.  That state was passed on, or it was dropped under
    pressure. *)
Theorem unchanged_was_seen (secs : Z) (b : BackpressureConfig) (cap mem : Z) (ops : list DOp) (h1 h2 : History) (now : Z)
    (u : TelemetryUpdate) :
  let d := debouncer_new secs b cap mem in
  (d_run ops d).2 = h1 ++ (now, u, TopologyUnchanged) :: h2 ->
  exists now0 u0 v0, last_state (state_key u) h1 = Some (now0, u0, v0) /\ (v0 = Passed \/ v0 = Level2OperStatus) /\
    json_to_string (value u0) = json_to_string (value u) /\ within (state_debounce_window d) now now0 = true.
Proof.
  intros d Hh. enough (sound_run (state_debounce_window d) (d_run ops d)) as (_ & _ & Hj & _) by (by eapply Hj).
  apply (foldl_keeps (sound_run (state_debounce_window d))).
  - intros s op _ Hs. destruct op as [depth n n' x|pct]; [by apply sound_update|].
    destruct Hs as (Hr & Hw & Hj & Hv). split_and!; [by apply remembers_shrink|done..].
  - split_and!; [apply remembers_new|done| |constructor]. intros a n x c He. by destruct a.
Qed.

End Debounce.

(** ** Running the model *)

Section Demo.

(** A cache as a list, the most recent entry first. *)
Definition lookup_entry {V} (k : string) (l : list (string * V)) : option V := snd <$> List.find (fun e => bool_decide (e.1 = k)) l.

Lemma lookup_entry_take {V} k n (l : list (string * V)) w : lookup_entry k (take n l) = Some w -> lookup_entry k l = Some w.
Proof.
  unfold lookup_entry. revert n. induction l as [|[k' v] l IH]; intros [|n]; cbn; try done. destruct (bool_decide (k' = k)); [done|apply IH].
Qed.

Lemma lookup_entry_filter {V} k k' (l : list (string * V)) :
  k <> k' -> lookup_entry k (List.filter (fun e => negb (bool_decide (e.1 = k'))) l) = lookup_entry k l.
Proof.
  intros Hne. unfold lookup_entry. induction l as [|[a v] l IH]; [done|]. cbn. case_bool_decide; subst; cbn.
  - rewrite bool_decide_false by done. apply IH.
  - case_bool_decide; [done|apply IH].
Qed.

#[local] Instance list_lru : LruCrate.
Proof.
  refine {| Lru V := (Z * list (string * V))%type; lru_new V c := (c, []); lru_cap V l := l.1; lru_peek V k l := lookup_entry k l.2;
            lru_put V k v l := (l.1, (k, v) :: take (Z.to_nat (l.1 - 1)) (List.filter (fun e => negb (bool_decide (e.1 = k))) l.2));
            lru_resize V c l := (c, take (Z.to_nat c) l.2) |}.
  - done.
  - intros V k v l. unfold lookup_entry. cbn. by rewrite bool_decide_true.
  - intros V k k' v w l Hne. unfold lookup_entry at 1. cbn. rewrite bool_decide_false by done. intros Hw%lookup_entry_take.
    by rewrite lookup_entry_filter in Hw.
  - intros V c k w l. apply lookup_entry_take.
Defined.

#[local] Instance one_shard : KeyHash := fun _ => 0.
#[local] Instance print_state : JsonPrint := fun v => json_str v "oper-state".
#[local] Instance debounce_case : Lowercase.
Proof. refine {| to_lowercase := to_ascii_lowercase |}. done. Defined.

Definition oper (s : string) : TelemetryUpdate :=
  mkTelemetryUpdate "10.0.0.1" "nokia" "" "" "" 0 "interface[name=e1]" (V_Object [("oper-state"%string, V_String s)]).

Definition at_sec (depth s : Z) (u : TelemetryUpdate) : DOp := DUpdate depth (s * 10 ^ 9) (s * 10 ^ 9) u.

Definition loaded : BackpressureConfig := mkBackpressure 50 80.

(** Under pressure an interface goes down and up again within six seconds: the
    second change is dropped, and so is its repetition after the pressure is
    gone, because the value was remembered before it was dropped. *)
Definition flap_ops : list DOp := [at_sec 90 0 (oper "down"); at_sec 90 2 (oper "up"); at_sec 0 9 (oper "up")].

Example change_dropped_twice :
  (fun x => x.2) <$> (d_run flap_ops (debouncer_new 60 loaded 100 0)).2 = [Passed; Level2OperStatus; TopologyUnchanged].
Proof. vm_compute. reflexivity. Qed.

Lemma unchanged_was_seen_witness :
  exists now0 u0 v0,
    last_state (state_key (oper "up")) [(0, oper "down", Passed); (2 * 10 ^ 9, oper "up", Level2OperStatus)] = Some (now0, u0, v0) /\
    (v0 = Passed \/ v0 = Level2OperStatus) /\
    json_to_string (value u0) = json_to_string (value (oper "up")) /\
    within (state_debounce_window (debouncer_new 60 loaded 100 0)) (9 * 10 ^ 9) now0 = true.
Proof.
  apply (unchanged_was_seen 60 loaded 100 0 flap_ops [(0, oper "down", Passed); (2 * 10 ^ 9, oper "up", Level2OperStatus)] []
           (9 * 10 ^ 9) (oper "up")).
  vm_compute. reflexivity.
Defined.

End Demo.
