(* ===== verification/Credentials.v ===== *)
(** * The credential vault ([src/credentials.rs])

    Credentials of devices are kept in memory and in an encrypted file with an
    authentication tag; a second file holds what may be listed without the
    passphrase.  Both are replaced as a whole.  The [age] crate, the HMAC and
    [serde_json] are interfaces; whether a file or the audit log can be written,
    and the clock, are arguments. *)

From Stdlib Require Import ZArith Lia ZifyBool String Ascii Strings.Byte.
From stdpp Require Import base numbers list option strings gmap fin_maps sorting.
From S2P Require Import Prelude RustStd HashMaps Jsonl Text Registry.

Local Open Scope Z_scope.

Definition LAST_USED_WRITE_WINDOW_NS : Z := 5 * 60 * 1000000000.
Definition HMAC_TAG_LEN : Z := 32.

(** ** Data *)

Record StoredCredential := mkStored { sc_username : string; sc_password : string; sc_created_at_ns : Z; sc_updated_at_ns : Z }.

Record CredentialMetadata := mkMetadata { cm_created_at_ns : Z; cm_updated_at_ns : Z; cm_last_used_at_ns : Z }.

Record CredentialSummary := mkCredentialSummary {
  cs_alias : string;
  cs_created_at_ns : Z;
  cs_updated_at_ns : Z;
  cs_last_used_at_ns : Z;
}.

Inductive ResolvePurpose :=
  | Subscribe | Remediate | Discover | Enrich | PurposeTest | Internal | ServiceNowAdmin | AiopsEvent | TrustOperation
  | OtherPurpose (v : string).

Definition as_audit_value (p : ResolvePurpose) : string :=
  match p with
  | Subscribe => "subscribe"
  | Remediate => "remediate"
  | Discover => "discover"
  | Enrich => "enrich"
  | PurposeTest => "test"
  | Internal => "internal"
  | ServiceNowAdmin => "servicenow_admin"
  | AiopsEvent => "aiops_event"
  | TrustOperation => "trust_op"
  | OtherPurpose v => let trimmed := trim_text v in if bool_decide (trimmed = ""%string) then "other" else "other:" ++ trimmed
  end%string.

Notation Entries := (gmap string StoredCredential).
Notation Metadata := (gmap string CredentialMetadata).

(** ** The crates *)

(** [age] with a passphrase: what was encrypted is decrypted with the same
    passphrase, and a file has a header; the randomness is an argument. *)
Class AgeCrate := {
  age_encrypt : string -> Z -> bytes -> bytes;
  age_decrypt : string -> bytes -> Outcome string bytes;
  age_roundtrip p r x : age_decrypt p (age_encrypt p r x) = Ok x;
  age_header p r x : 0 < blen (age_encrypt p r x);
}.

(** HMAC-SHA-256 *)
Class HmacCrate := { hmac : string -> bytes -> bytes; hmac_length k m : blen (hmac k m) = HMAC_TAG_LEN }.

(** [serde_json] on the two maps. *)
Class VaultJson := {
  entries_to_json : Entries -> bytes;
  entries_from_json : bytes -> option Entries;
  metadata_to_json : Metadata -> bytes;
  metadata_from_json : bytes -> option Metadata;
  entries_roundtrip e : entries_from_json (entries_to_json e) = Some e;
  metadata_roundtrip m : metadata_from_json (metadata_to_json m) = Some m;
}.

(** The two files, and the entries of the audit log: alias, purpose and outcome. *)
Record VaultDisk := mkVaultDisk {
  vault_file : option bytes;
  metadata_file : option bytes;
  resolve_audit : list (string * string * string);
}.

Record VaultState := mkVaultState { entries : Entries; metadata : Metadata; unlocked : bool }.

Record CredentialVault := mkVault { passphrase : option string; vstate : VaultState }.

(** What a call meets: whether each file can be replaced, whether the audit log
    can be written, the randomness and the clock. *)
Record VaultEnv := mkVaultEnv { io_vault : bool; io_metadata : bool; io_audit : bool; random : Z; v_now : Z }.

(** ** Names *)

Definition alias_char (b : byte) : bool :=
  let v := u8 b in
  in_range 48 57 v || in_range 65 90 v || in_range 97 122 v || bool_decide (b ∈ [Byte.x2d; Byte.x5f; Byte.x2e; Byte.x3a]).

Definition normalize_alias (alias : string) : Outcome string string :=
  let alias := trim_text alias in
  if bool_decide (alias = ""%string) then Err "credential alias is required"%string
  else if (128 <? Z.of_nat (String.length alias)) || negb (forallb alias_char (bytes_of_string alias)) then
    Err "credential alias must use ASCII letters, digits, dash, underscore, dot, or colon"%string
  else Ok alias.

Definition normalize_required (field value : string) : Outcome string string :=
  let value := trim_text value in
  if bool_decide (value = ""%string) then Err (field ++ " is required")%string else Ok value.

Definition should_persist_last_used (last_used now : Z) : bool :=
  (last_used <=? 0) || (LAST_USED_WRITE_WINDOW_NS <=? Z.max (- 2 ^ 63) (Z.min (2 ^ 63 - 1) (now - last_used))).

Section Vault.
Context `{AgeCrate, HmacCrate, VaultJson}.

Notation Vres A := (Outcome string A).

(** ** Files *)

Definition decrypt_entries (pass : string) (raw : bytes) : Vres Entries :=
  encrypted ←
    (if HMAC_TAG_LEN <? blen raw then
       let stored_tag := take (Z.to_nat HMAC_TAG_LEN) raw in
       let ciphertext := drop (Z.to_nat HMAC_TAG_LEN) raw in
       if bool_decide (hmac pass ciphertext = stored_tag) then Ok ciphertext
       else Err "vault integrity check failed"%string
     else Ok raw);
  plaintext ← age_decrypt pass encrypted;
  or_err (entries_from_json plaintext) "failed to parse decrypted credential vault"%string.

Definition sealed (pass : string) (r : Z) (e : Entries) : bytes :=
  let ciphertext := age_encrypt pass r (entries_to_json e) in hmac pass ciphertext ++ ciphertext.

Definition encrypt_entries (env : VaultEnv) (pass : string) (e : Entries) (d : VaultDisk) : VaultDisk * Vres unit :=
  if io_vault env then (mkVaultDisk (Some (sealed pass (random env) e)) (metadata_file d) (resolve_audit d), Ok tt)
  else (d, Err "failed to write vault tmp file"%string).

Definition read_metadata (d : VaultDisk) : Vres Metadata :=
  match metadata_file d with
  | None => Ok ∅
  | Some raw => or_err (metadata_from_json raw) "failed to parse credential metadata"%string
  end.

Definition write_metadata (env : VaultEnv) (m : Metadata) (d : VaultDisk) : VaultDisk * Vres unit :=
  if io_metadata env then (mkVaultDisk (vault_file d) (Some (metadata_to_json m)) (resolve_audit d), Ok tt)
  else (d, Err "failed to write metadata tmp file"%string).

Definition persist_with (env : VaultEnv) (pass : string) (st : VaultState) (d : VaultDisk) : VaultDisk * Vres unit :=
  match encrypt_entries env pass (entries st) d with
  | (d1, Ok _) => write_metadata env (metadata st) d1
  | r => r
  end.

Definition persist_locked (env : VaultEnv) (v : CredentialVault) (d : VaultDisk) : VaultDisk * Vres unit :=
  match passphrase v with
  | None => (d, Err "credential vault is locked; set BONSAI_VAULT_PASSPHRASE"%string)
  | Some pass => persist_with env pass (vstate v) d
  end.

(** ** Operations

    [pass] is the value of the environment variable, if it is set. *)

Definition vault_open (pass : option string) (d : VaultDisk) : Vres CredentialVault :=
  m ← read_metadata d;
  match pass ≫= fun p => if bool_decide (p = ""%string) then None else Some p with
  | Some p =>
      e ← match vault_file d with Some raw => decrypt_entries p raw | None => Ok ∅ end;
      Ok (mkVault (Some p) (mkVaultState e m true))
  | None => Ok (mkVault None (mkVaultState ∅ m false))
  end.

Definition is_unlocked (v : CredentialVault) : bool := unlocked (vstate v).

Definition summary_of (alias : string) (m : CredentialMetadata) : CredentialSummary :=
  mkCredentialSummary alias (cm_created_at_ns m) (cm_updated_at_ns m) (cm_last_used_at_ns m).

Definition list_credentials (v : CredentialVault) : list CredentialSummary :=
  (fun am => summary_of am.1 am.2) <$> merge_sort key_le (map_to_list (metadata (vstate v))).

Definition ensure_unlocked (v : CredentialVault) : Vres unit :=
  if unlocked (vstate v) then Ok tt
  else Err "credential vault is locked; set BONSAI_VAULT_PASSPHRASE before starting bonsai"%string.

Notation Step A := (CredentialVault * VaultDisk * Vres A)%type.

(** The change of the memory stands when the files cannot be written. *)
Definition persisting {A} (env : VaultEnv) (v : CredentialVault) (d : VaultDisk) (a : A) : Step A :=
  let '(d', r) := persist_locked env v d in (v, d', _ ← r; Ok a).

Definition set_credential (v : CredentialVault) (alias : string) (c : StoredCredential) (m : CredentialMetadata) : CredentialVault :=
  mkVault (passphrase v)
    (mkVaultState (<[alias := c]> (entries (vstate v))) (<[alias := m]> (metadata (vstate v))) (unlocked (vstate v))).

(** The three texts of a request, checked in order. *)
Definition checked_request (alias username password : string) : Vres (string * string * string) :=
  alias ← normalize_alias alias;
  username ← normalize_required "username" username;
  password ← normalize_required "password" password;
  Ok (alias, username, password).

Definition add (env : VaultEnv) (alias username password : string) (v : CredentialVault) (d : VaultDisk) : Step CredentialSummary :=
  match (x ← checked_request alias username password; _ ← ensure_unlocked v; Ok x) with
  | Ok (alias, username, password) =>
      match entries (vstate v) !! alias with
      | Some _ => (v, d, Err ("credential alias '" ++ alias ++ "' already exists; use update() to change it")%string)
      | None =>
          let now := v_now env in
          let v' := set_credential v alias (mkStored username password now now) (mkMetadata now now 0) in
          persisting env v' d (mkCredentialSummary alias now now 0)
      end
  | Err e => (v, d, Err e) | Panic => (v, d, Panic) | Diverge => (v, d, Diverge)
  end.

Definition update (env : VaultEnv) (alias username password : string) (v : CredentialVault) (d : VaultDisk) : Step CredentialSummary :=
  match (x ← checked_request alias username password; _ ← ensure_unlocked v; Ok x) with
  | Ok (alias, username, password) =>
      match entries (vstate v) !! alias with
      | None => (v, d, Err ("credential alias '" ++ alias ++ "' not found")%string)
      | Some old =>
          let now := v_now env in
          let used := default 0 (cm_last_used_at_ns <$> metadata (vstate v) !! alias) in
          let v' := set_credential v alias (mkStored username password (sc_created_at_ns old) now) (mkMetadata (sc_created_at_ns old) now used) in
          persisting env v' d (mkCredentialSummary alias (sc_created_at_ns old) now used)
      end
  | Err e => (v, d, Err e) | Panic => (v, d, Panic) | Diverge => (v, d, Diverge)
  end.

Definition remove (env : VaultEnv) (alias : string) (v : CredentialVault) (d : VaultDisk) : Step (option CredentialSummary) :=
  match (alias ← normalize_alias alias; _ ← ensure_unlocked v; Ok alias) with
  | Ok alias =>
      let st := vstate v in
      let v' := mkVault (passphrase v) (mkVaultState (delete alias (entries st)) (delete alias (metadata st)) (unlocked st)) in
      let out := summary_of alias <$> metadata st !! alias in
      match entries st !! alias with
      | Some _ => persisting env v' d out
      | None => (v', d, Ok out)
      end
  | Err e => (v, d, Err e) | Panic => (v, d, Panic) | Diverge => (v, d, Diverge)
  end.

Definition username_for_alias (alias : string) (v : CredentialVault) : Vres string :=
  alias ← normalize_alias alias;
  _ ← ensure_unlocked v;
  sc_username <$> or_err (entries (vstate v) !! alias) ("credential alias '" ++ alias ++ "' not found")%string.

(** [log_resolve_audit]: a failure to write is logged. *)
Definition log_resolve (env : VaultEnv) (alias : string) (p : ResolvePurpose) (outcome : string) (d : VaultDisk) : VaultDisk :=
  if io_audit env then mkVaultDisk (vault_file d) (metadata_file d) (resolve_audit d ++ [(alias, as_audit_value p, outcome)]) else d.

(** The closure of [resolve]. *)
Definition resolve_entry (env : VaultEnv) (alias : string) (v : CredentialVault) (d : VaultDisk) : Step (string * string) :=
  match (_ ← ensure_unlocked v; or_err (entries (vstate v) !! alias) ("credential alias '" ++ alias ++ "' not found")%string) with
  | Ok entry =>
      let creds := (sc_username entry, sc_password entry) in
      match metadata (vstate v) !! alias with
      | None => (v, d, Ok creds)
      | Some m =>
          if should_persist_last_used (cm_last_used_at_ns m) (v_now env) then
            let ms := <[alias := mkMetadata (cm_created_at_ns m) (cm_updated_at_ns m) (v_now env)]> (metadata (vstate v)) in
            let '(d', r) := write_metadata env ms d in
            (mkVault (passphrase v) (mkVaultState (entries (vstate v)) ms (unlocked (vstate v))), d', _ ← r; Ok creds)
          else (v, d, Ok creds)
      end
  | Err e => (v, d, Err e) | Panic => (v, d, Panic) | Diverge => (v, d, Diverge)
  end.

Definition resolve (env : VaultEnv) (alias : string) (p : ResolvePurpose) (v : CredentialVault) (d : VaultDisk) : Step (string * string) :=
  match normalize_alias alias with
  | Ok a =>
      let '(v', d', r) := resolve_entry env a v d in
      (v', log_resolve env a p match r with Ok _ => "success" | _ => "error" end d', r)
  | Err e => (v, log_resolve env (trim_text alias) p "error" d, Err e)
  | Panic => (v, d, Panic) | Diverge => (v, d, Diverge)
  end.

Definition rekey (env : VaultEnv) (new_pass : option string) (v : CredentialVault) (d : VaultDisk) : Step unit :=
  match (p ← or_err (new_pass ≫= fun p => if bool_decide (p = ""%string) then None else Some p) "new passphrase env var is not set or empty"%string;
         _ ← ensure_unlocked v; Ok p) with
  | Ok p => let '(d', r) := persist_with env p (vstate v) d in (v, d', r)
  | Err e => (v, d, Err e) | Panic => (v, d, Panic) | Diverge => (v, d, Diverge)
  end.

(** ** The files hold the vault *)

Lemma decrypt_sealed p r e : decrypt_entries p (sealed p r e) = Ok e.
Proof.
  unfold decrypt_entries, sealed. set (c := age_encrypt p r (entries_to_json e)).
  pose proof (hmac_length p c) as Hh. pose proof (age_header p r (entries_to_json e)) as Hc. fold c in Hc.
  rewrite (proj2 (Z.ltb_lt _ _)) by (rewrite blen_app; lia).
  assert (length (hmac p c) = Z.to_nat HMAC_TAG_LEN) as Hl by (unfold blen in Hh; lia).
  rewrite <- Hl, take_app_length, drop_app_length, bool_decide_true by done. cbn [mbind outcome_bind].
  unfold c. rewrite age_roundtrip. cbn [mbind outcome_bind]. by rewrite entries_roundtrip.
Qed.

(** What is in memory is on disk, and every credential can be listed. *)
Definition Saved (p : string) (v : CredentialVault) (d : VaultDisk) : Prop :=
  p <> ""%string /\ passphrase v = Some p /\ unlocked (vstate v) = true /\
  (vault_file d = None /\ entries (vstate v) = ∅ \/ exists r, vault_file d = Some (sealed p r (entries (vstate v)))) /\
  (metadata_file d = None /\ metadata (vstate v) = ∅ \/ metadata_file d = Some (metadata_to_json (metadata (vstate v)))) /\
  (forall a, is_Some (metadata (vstate v) !! a) <-> is_Some (entries (vstate v) !! a)).

Lemma open_saved p v d : Saved p v d -> vault_open (Some p) d = Ok v.
Proof.
  intros (Hp & Hpass & Hu & Hv & Hm & _). destruct v as [pass [e m u]]. cbn in *. subst pass u. unfold vault_open, read_metadata.
  cbn [mbind option_bind]. rewrite bool_decide_false by done.
  destruct Hm as [[-> ->] | ->]; cbn [mbind outcome_bind or_err]; rewrite ?metadata_roundtrip; cbn [mbind outcome_bind or_err];
    (destruct Hv as [[-> ->]|[r ->]]; [done|]; rewrite decrypt_sealed; done).
Qed.

(** The calls, of which a restart with the same passphrase is one. *)
Inductive VaultOp :=
  | VAdd (env : VaultEnv) (alias username password : string)
  | VUpdate (env : VaultEnv) (alias username password : string)
  | VRemove (env : VaultEnv) (alias : string)
  | VResolve (env : VaultEnv) (alias : string) (p : ResolvePurpose)
  | VReopen.

Inductive VaultResult := VDone (ok : bool) | VCreds (r : Vres (string * string)).

Definition succeeded {A} (r : Vres A) : bool := match r with Ok _ => true | _ => false end.

Definition vault_step (pass : string) (op : VaultOp) (s : CredentialVault * VaultDisk) : CredentialVault * VaultDisk * VaultResult :=
  let '(v, d) := s in
  match op with
  | VAdd env a u p => let '(v', d', r) := add env a u p v d in (v', d', VDone (succeeded r))
  | VUpdate env a u p => let '(v', d', r) := update env a u p v d in (v', d', VDone (succeeded r))
  | VRemove env a => let '(v', d', r) := remove env a v d in (v', d', VDone (succeeded r))
  | VResolve env a p => let '(v', d', r) := resolve env a p v d in (v', d', VCreds r)
  | VReopen => match vault_open (Some pass) d with Ok v' => (v', d, VDone true) | _ => (v, d, VDone false) end
  end.

(** The vault as a map from aliases to user names and passwords. *)
Notation Creds := (gmap string (string * string)).

Definition map_step (op : VaultOp) (m : Creds) : Creds * VaultResult :=
  match op with
  | VAdd _ a u p =>
      match checked_request a u p with
      | Ok (a, u, p) => match m !! a with None => (<[a := (u, p)]> m, VDone true) | Some _ => (m, VDone false) end
      | _ => (m, VDone false)
      end
  | VUpdate _ a u p =>
      match checked_request a u p with
      | Ok (a, u, p) => match m !! a with Some _ => (<[a := (u, p)]> m, VDone true) | None => (m, VDone false) end
      | _ => (m, VDone false)
      end
  | VRemove _ a => match normalize_alias a with Ok a => (delete a m, VDone true) | _ => (m, VDone false) end
  | VResolve _ a _ =>
      (m, VCreds (a ← normalize_alias a; or_err (m !! a) ("credential alias '" ++ a ++ "' not found")%string))
  | VReopen => (m, VDone true)
  end.

Definition creds (v : CredentialVault) : Creds := (fun c => (sc_username c, sc_password c)) <$> entries (vstate v).

Definition io_ok (env : VaultEnv) : Prop := io_vault env = true /\ io_metadata env = true.

Definition vop_ok (op : VaultOp) : Prop :=
  match op with VAdd env _ _ _ | VUpdate env _ _ _ | VRemove env _ | VResolve env _ _ => io_ok env | VReopen => True end.

Lemma persisting_saved {A} env p v d (a : A) :
  io_ok env -> p <> ""%string -> passphrase v = Some p -> unlocked (vstate v) = true ->
  (forall a, is_Some (metadata (vstate v) !! a) <-> is_Some (entries (vstate v) !! a)) ->
  exists d', persisting env v d a = (v, d', Ok a) /\ Saved p v d'.
Proof.
  intros [Hv Hm] Hp Hpass Hu Hdom. unfold persisting, persist_locked, persist_with, encrypt_entries, write_metadata.
  rewrite Hpass, Hv, Hm. eexists. split; [reflexivity|]. split_and!; cbn; [done..|right; by eexists|by right|done].
Qed.

Lemma set_credential_saved {A} env p v d alias c m (a : A) :
  io_ok env -> Saved p v d ->
  exists d', persisting env (set_credential v alias c m) d a = (set_credential v alias c m, d', Ok a) /\ Saved p (set_credential v alias c m) d'.
Proof.
  intros Hio (Hp & Hpass & Hu & _ & _ & Hdom). apply persisting_saved; [done..|]. intros b. cbn.
  destruct (decide (alias = b)) as [->|Hne]; [by rewrite !lookup_insert_eq|by rewrite !lookup_insert_ne].
Qed.

Lemma creds_lookup v a : creds v !! a = (fun c => (sc_username c, sc_password c)) <$> entries (vstate v) !! a.
Proof. apply lookup_fmap. Qed.

Lemma checked_unlocked {A} v (x : Vres A) : unlocked (vstate v) = true -> (a ← x; _ ← ensure_unlocked v; Ok a) = x.
Proof. intros Hu. unfold ensure_unlocked. rewrite Hu. by destruct x. Qed.

(** ** The vault implements the map *)

(** A step keeps memory and disk alike and does what it does on the map. *)
Definition simulates (p : string) (op : VaultOp) (v : CredentialVault) (d : VaultDisk) : Prop :=
  let '(v', d', r) := vault_step p op (v, d) in
  Saved p v' d' /\ r = (map_step op (creds v)).2 /\ creds v' = (map_step op (creds v)).1.

Lemma creds_set v alias c m : creds (set_credential v alias c m) = <[alias := (sc_username c, sc_password c)]> (creds v).
Proof. unfold creds. cbn. by rewrite fmap_insert. Qed.

Lemma simulates_add p env a u pw v d : io_ok env -> Saved p v d -> simulates p (VAdd env a u pw) v d.
Proof.
  intros Hio Hs. pose proof Hs as (_ & _ & Hu & _). unfold simulates, vault_step, map_step, add. rewrite checked_unlocked by done.
  destruct (checked_request a u pw) as [[[a' u'] pw']| | |]; [|done..]. rewrite creds_lookup.
  destruct (entries (vstate v) !! a') as [c|]; cbn [fmap option_fmap option_map]; [done|].
  destruct (set_credential_saved env p v d a' (mkStored u' pw' (v_now env) (v_now env)) (mkMetadata (v_now env) (v_now env) 0)
              (mkCredentialSummary a' (v_now env) (v_now env) 0) Hio Hs) as (d' & -> & Hs').
  split_and!; [done|done|]. by rewrite creds_set.
Qed.

Lemma simulates_update p env a u pw v d : io_ok env -> Saved p v d -> simulates p (VUpdate env a u pw) v d.
Proof.
  intros Hio Hs. pose proof Hs as (_ & _ & Hu & _). unfold simulates, vault_step, map_step, update. rewrite checked_unlocked by done.
  destruct (checked_request a u pw) as [[[a' u'] pw']| | |]; [|done..]. rewrite creds_lookup.
  destruct (entries (vstate v) !! a') as [c|]; cbn [fmap option_fmap option_map]; [|done].
  set (used := default 0 _).
  destruct (set_credential_saved env p v d a' (mkStored u' pw' (sc_created_at_ns c) (v_now env))
              (mkMetadata (sc_created_at_ns c) (v_now env) used)
              (mkCredentialSummary a' (sc_created_at_ns c) (v_now env) used) Hio Hs) as (d' & -> & Hs').
  split_and!; [done|done|]. by rewrite creds_set.
Qed.

Lemma simulates_remove p env a v d : io_ok env -> Saved p v d -> simulates p (VRemove env a) v d.
Proof.
  intros Hio Hs. pose proof Hs as (Hp & Hpass & Hu & Hv & Hm & Hdom). unfold simulates, vault_step, map_step, remove.
  rewrite checked_unlocked by done. destruct (normalize_alias a) as [a'| | |]; [|done..].
  set (v' := mkVault (passphrase v) _). assert (creds v' = delete a' (creds v)) as Hc by (unfold creds; cbn; by rewrite fmap_delete).
  assert (forall b, is_Some (metadata (vstate v') !! b) <-> is_Some (entries (vstate v') !! b)) as Hdom'.
  { intros b. cbn. destruct (decide (a' = b)) as [->|Hne]; [by rewrite !lookup_delete_eq|by rewrite !lookup_delete_ne]. }
  destruct (entries (vstate v) !! a') as [c|] eqn:He.
  - destruct (persisting_saved env p v' d (summary_of a' <$> metadata (vstate v) !! a') Hio Hp Hpass Hu Hdom') as (d' & -> & Hs'). done.
  - assert (metadata (vstate v) !! a' = None) as Hm'.
    { destruct (metadata (vstate v) !! a') eqn:Hx; [|done]. assert (is_Some (entries (vstate v) !! a')) as [? Hy] by (apply Hdom; by eexists). congruence. }
    assert (v' = v) as ->. { unfold v'. destruct v as [pass [e m un]]. cbn in *. by rewrite !delete_id. }
    split_and!; [done|done|]. rewrite delete_id; [done|]. by rewrite creds_lookup, He.
Qed.

Lemma saved_log env p v d a pu o : Saved p v d -> Saved p v (log_resolve env a pu o d).
Proof. unfold log_resolve. by destruct (io_audit env). Qed.

Lemma simulates_resolve p env a pu v d : io_ok env -> Saved p v d -> simulates p (VResolve env a pu) v d.
Proof.
  intros [Hio1 Hio2] Hs. pose proof Hs as (Hp & Hpass & Hu & Hv & Hm & Hdom). unfold simulates, vault_step, map_step, resolve.
  destruct (normalize_alias a) as [a'|e| |]; cbn [mbind outcome_bind fst snd]; [|by split_and!; [by apply saved_log|..]|done..].
  unfold resolve_entry, ensure_unlocked. rewrite Hu. cbn [mbind outcome_bind]. rewrite creds_lookup.
  destruct (entries (vstate v) !! a') as [c|] eqn:He; cbn [or_err fmap option_fmap option_map]; [|by split_and!; [by apply saved_log|..]].
  destruct (metadata (vstate v) !! a') as [m|] eqn:Hma; [|by split_and!; [by apply saved_log|..]].
  destruct (should_persist_last_used (cm_last_used_at_ns m) (v_now env)); [|by split_and!; [by apply saved_log|..]].
  unfold write_metadata. rewrite Hio2. split_and!; [|done|done]. apply saved_log. split_and!; cbn; [done..|by right|].
  intros b. destruct (decide (a' = b)) as [<-|Hne]; [rewrite lookup_insert_eq, He; by split|by rewrite lookup_insert_ne].
Qed.

Lemma vault_simulates p op v d : vop_ok op -> Saved p v d -> simulates p op v d.
Proof.
  intros Hop Hs. destruct op; [by apply simulates_add|by apply simulates_update|by apply simulates_remove|by apply simulates_resolve|].
  unfold simulates, vault_step. by rewrite (open_saved p v d Hs).
Qed.

Fixpoint vault_run (pass : string) (ops : list VaultOp) (s : CredentialVault * VaultDisk) : CredentialVault * VaultDisk * list VaultResult :=
  match ops with
  | [] => (s, [])
  | op :: ops' => let '(v, d, r) := vault_step pass op s in let '(s', rs) := vault_run pass ops' (v, d) in (s', r :: rs)
  end.

Fixpoint map_run (ops : list VaultOp) (m : Creds) : Creds * list VaultResult :=
  match ops with
  | [] => (m, [])
  | op :: ops' => let '(m1, r) := map_step op m in let '(m', rs) := map_run ops' m1 in (m', r :: rs)
  end.

Definition no_files : VaultDisk := mkVaultDisk None None [].

Lemma vault_run_simulates p ops v d :
  Forall vop_ok ops -> Saved p v d ->
  let '(v', d', rs) := vault_run p ops (v, d) in
  Saved p v' d' /\ rs = (map_run ops (creds v)).2 /\ creds v' = (map_run ops (creds v)).1.
Proof.
  intros Hops. revert v d. induction Hops as [|op ops Hop Hops IH]; intros v d Hs; cbn [vault_run map_run]; [done|].
  pose proof (vault_simulates p op v d Hop Hs) as Hsim. unfold simulates in Hsim. destruct (vault_step p op (v, d)) as [[v1 d1] r].
  destruct (map_step op (creds v)) as [m1 r1]. cbn [fst snd] in Hsim. destruct Hsim as (Hs1 & -> & <-). specialize (IH v1 d1 Hs1).
  destruct (vault_run p ops (v1, d1)) as [[v2 d2] rs]. destruct (map_run ops (creds v1)) as [m2 rs2]. cbn [fst snd] in *.
  destruct IH as (? & -> & ->). done.
Qed.

(** Claim C16: as long as every write to the files succeeds and the passphrase is
    not changed, a vault is a map from aliases to credentials that outlives the
    process: whatever credentials are added, changed, removed and asked for, and
    however often the process is restarted with the passphrase, every call
    succeeds, fails and returns as on the map; and exactly the credentials of
    the map are listed. *)
Theorem vault_refines_map (p : string) (v : CredentialVault) (ops : list VaultOp) :
  p <> ""%string -> vault_open (Some p) no_files = Ok v -> Forall vop_ok ops ->
  let '(v', d', rs) := vault_run p ops (v, no_files) in
  rs = (map_run ops ∅).2 /\ creds v' = (map_run ops ∅).1 /\ vault_open (Some p) d' = Ok v' /\
  forall a, a ∈ cs_alias <$> list_credentials v' <-> is_Some ((map_run ops ∅).1 !! a).
Proof.
  intros Hp Ho Hops. unfold vault_open in Ho. cbn in Ho. rewrite bool_decide_false in Ho by done. injection Ho as <-.
  set (v := mkVault (Some p) (mkVaultState ∅ ∅ true)).
  assert (Saved p v no_files) as Hs. { split_and!; [done..|by left|by left|]. intros a. cbn. by rewrite !lookup_empty. }
  pose proof (vault_run_simulates p ops v no_files Hops Hs) as Hr. destruct (vault_run p ops (v, no_files)) as [[v' d'] rs].
  assert (creds v = ∅) as Hc by (unfold creds; cbn; by rewrite fmap_empty). rewrite Hc in Hr. destruct Hr as (Hs' & -> & Hcr).
  split_and!; [done|done|by apply open_saved|]. intros a. rewrite <- Hcr, creds_lookup, fmap_is_Some.
  destruct Hs' as (_ & _ & _ & _ & _ & <-). unfold list_credentials. rewrite <- list_fmap_compose, list_elem_of_fmap. split.
  - intros ([a' m] & -> & Hin). rewrite merge_sort_Permutation in Hin. apply elem_of_map_to_list in Hin. cbn. by eexists.
  - intros [m Hm]. exists (a, m). split; [done|]. rewrite merge_sort_Permutation. by apply elem_of_map_to_list.
Qed.

(** ** Changing the passphrase *)

(** After the passphrase was changed, the files open with the new one. *)
Theorem rekey_reopens (env : VaultEnv) (p q : string) (v : CredentialVault) (d : VaultDisk) :
  io_ok env -> q <> ""%string -> Saved p v d ->
  exists d', rekey env (Some q) v d = (v, d', Ok tt) /\ vault_open (Some q) d' = Ok (mkVault (Some q) (vstate v)).
Proof.
  intros [Hv Hm] Hq (Hp & Hpass & Hu & _ & _ & Hdom). unfold rekey, ensure_unlocked. cbn [mbind option_bind].
  rewrite bool_decide_false, Hu by done. cbn [or_err mbind outcome_bind]. unfold persist_with, encrypt_entries, write_metadata.
  rewrite Hv, Hm. eexists. split; [reflexivity|]. apply open_saved. split_and!; cbn; [done..|right; by eexists|by right|done].
Qed.

(** A file that was sealed with another passphrase is refused. *)
Lemma wrong_tag q p r e : (forall c, hmac q c <> hmac p c) -> decrypt_entries q (sealed p r e) = Err "vault integrity check failed"%string.
Proof.
  intros Hk. unfold decrypt_entries, sealed. set (c := age_encrypt p r (entries_to_json e)).
  pose proof (hmac_length p c) as Hh. pose proof (age_header p r (entries_to_json e)) as Hc. fold c in Hc.
  rewrite (proj2 (Z.ltb_lt _ _)) by (rewrite blen_app; lia).
  assert (length (hmac p c) = Z.to_nat HMAC_TAG_LEN) as Hl by (unfold blen in Hh; lia).
  rewrite <- Hl, take_app_length, drop_app_length, bool_decide_false by apply Hk. done.
Qed.

(** A change of the passphrase does not last: the running process keeps
    the old one, so the next credential that is added writes the file with it,
    and the process that is started with the new passphrase, as the instructions
    say, does not start, provided the authentication code depends on its key. *)
Theorem rekey_undone_by_next_write (env env' : VaultEnv) (p q : string) (v : CredentialVault) (d : VaultDisk)
    (alias username password : string) :
  io_ok env -> io_ok env' -> q <> ""%string -> Saved p v d ->
  (forall c, hmac q c <> hmac p c) ->
  let '(v1, d1, r1) := rekey env (Some q) v d in
  let '(v2, d2, r2) := add env' alias username password v1 d1 in
  r1 = Ok tt /\
  (succeeded r2 = true -> vault_open (Some q) d2 = Err "vault integrity check failed"%string /\ vault_open (Some p) d2 = Ok v2).
Proof.
  intros Hio Hio' Hq Hs Hk. destruct (rekey_reopens env p q v d Hio Hq Hs) as (d1 & -> & _).
  pose proof Hs as (Hp & Hpass & Hu & _ & _ & Hdom). unfold add. rewrite checked_unlocked by done.
  destruct (checked_request alias username password) as [[[a u] pw]| | |]; [|done..].
  destruct (entries (vstate v) !! a) as [c|] eqn:He; [done|].
  set (c := mkStored u pw (v_now env') (v_now env')). set (m := mkMetadata (v_now env') (v_now env') 0).
  assert (forall b, is_Some (metadata (vstate (set_credential v a c m)) !! b) <-> is_Some (entries (vstate (set_credential v a c m)) !! b)) as Hdom'.
  { intros b. cbn. destruct (decide (a = b)) as [->|Hne]; [by rewrite !lookup_insert_eq|by rewrite !lookup_insert_ne]. }
  destruct (persisting_saved env' p (set_credential v a c m) d1 (mkCredentialSummary a (v_now env') (v_now env') 0) Hio' Hp Hpass Hu Hdom')
    as (d2 & -> & Hs2).
  split; [done|]. intros _. split; [|by apply open_saved].
  destruct Hs2 as (_ & _ & _ & [[_ Hemp]|[r Hv]] & Hm & _).
  { exfalso. apply (f_equal (fun x => x !! a)) in Hemp. cbn in Hemp. by rewrite lookup_insert_eq, lookup_empty in Hemp. }
  unfold vault_open, read_metadata. rewrite Hv. cbn [mbind option_bind]. rewrite bool_decide_false by done.
  assert (exists ms, (match metadata_file d2 with None => Ok ∅ | Some raw => or_err (metadata_from_json raw) "failed to parse credential metadata"%string end)
            = (Ok ms : Vres Metadata)) as [ms ->].
  { destruct Hm as [[-> _] | ->]; [by eexists|]. rewrite metadata_roundtrip. by eexists. }
  cbn [mbind outcome_bind]. by rewrite (wrong_tag q p).
Qed.

(** ** What else the vault does not do *)

(** A vault file from before the tags, which the reader means to accept, is
    refused if it has more than thirty-two octets, as every such file has, unless
    its beginning happens to be a tag of the rest. *)
Theorem legacy_vault_refused (p : string) (raw : bytes) (m : option bytes) (a : list (string * string * string)) :
  p <> ""%string -> HMAC_TAG_LEN < blen raw -> m = None ->
  hmac p (drop (Z.to_nat HMAC_TAG_LEN) raw) <> take (Z.to_nat HMAC_TAG_LEN) raw ->
  vault_open (Some p) (mkVaultDisk (Some raw) m a) = Err "vault integrity check failed"%string.
Proof.
  intros Hp Hl -> Hh. unfold vault_open. cbn. rewrite bool_decide_false by done. unfold decrypt_entries.
  rewrite (proj2 (Z.ltb_lt _ _)) by done. by rewrite bool_decide_false.
Qed.

(** A credential that could not be written is reported as failed, and is handed
    out all the same until the process restarts. *)
Theorem failed_add_is_resolved (env env' : VaultEnv) (p : string) (v : CredentialVault) (d : VaultDisk) (a u pw : string) (pu : ResolvePurpose) :
  io_vault env = false -> io_ok env' -> Saved p v d -> checked_request a u pw = Ok (a, u, pw) -> normalize_alias a = Ok a ->
  entries (vstate v) !! a = None ->
  let '(v1, d1, r1) := add env a u pw v d in
  r1 = Err "failed to write vault tmp file"%string /\ (resolve env' a pu v1 d1).2 = Ok (u, pw) /\ vault_open (Some p) d1 = Ok v.
Proof.
  intros Hio [_ Hio'] Hs Hc Ha He. pose proof Hs as (Hp & Hpass & Hu & _). unfold add. rewrite checked_unlocked, Hc, He by done.
  unfold persisting, persist_locked, persist_with, encrypt_entries. cbn [passphrase set_credential]. rewrite Hpass, Hio.
  split_and!; [done| |by apply open_saved]. unfold resolve, resolve_entry, ensure_unlocked. rewrite Ha. cbn [vstate set_credential unlocked]. rewrite Hu.
  cbn [mbind outcome_bind entries metadata]. rewrite !lookup_insert_eq. cbn [or_err].
  destruct (should_persist_last_used _ _); [|done]. unfold write_metadata. by rewrite Hio'.
Qed.

End Vault.

(** ** Running the model *)

Section Demo.

#[local] Instance plain_age : AgeCrate.
Proof.
  refine {| age_encrypt _ _ x := Byte.x61 :: x; age_decrypt _ c := match c with Byte.x61 :: x => Ok x | _ => Err "invalid age vault file"%string end |}.
  - done.
  - intros p r x. unfold blen. cbn. lia.
Defined.

(** The first letter of the key, over and over. *)
#[local] Instance letter_hmac : HmacCrate.
Proof.
  refine {| hmac k _ := replicate 32 (default Byte.x00 (head (bytes_of_string k))) |}.
  intros k m. unfold blen. by rewrite length_replicate.
Defined.

(** Maps as numbers, and numbers as their bits. *)
#[local] Instance stored_eq_dec : EqDecision StoredCredential.
Proof. solve_decision. Defined.

#[local] Instance metadata_eq_dec : EqDecision CredentialMetadata.
Proof. solve_decision. Defined.

#[local] Instance stored_countable : Countable StoredCredential.
Proof.
  refine (inj_countable' (fun c => (sc_username c, sc_password c, sc_created_at_ns c, sc_updated_at_ns c))
            (fun '(u, p, a, b) => mkStored u p a b) _). by intros [].
Defined.

#[local] Instance metadata_countable : Countable CredentialMetadata.
Proof.
  refine (inj_countable' (fun c => (cm_created_at_ns c, cm_updated_at_ns c, cm_last_used_at_ns c)) (fun '(a, b, u) => mkMetadata a b u) _).
  by intros [].
Defined.

Fixpoint bits (p : positive) : bytes := match p with xH => [] | xO p => Byte.x00 :: bits p | xI p => Byte.x01 :: bits p end.
Fixpoint unbits (b : bytes) : positive := match b with [] => xH | Byte.x00 :: b => xO (unbits b) | _ :: b => xI (unbits b) end.

Lemma unbits_bits p : unbits (bits p) = p.
Proof. induction p as [p IH|p IH|]; cbn; by rewrite ?IH. Qed.

#[local] Instance bits_json : VaultJson.
Proof.
  refine {| entries_to_json e := bits (encode e); entries_from_json b := decode (unbits b);
            metadata_to_json m := bits (encode m); metadata_from_json b := decode (unbits b) |}.
  - intros e. by rewrite unbits_bits, decode_encode.
  - intros m. by rewrite unbits_bits, decode_encode.
Defined.

Definition good_env : VaultEnv := mkVaultEnv true true true 0 5.
Definition fresh_vault : CredentialVault := mkVault (Some "old"%string) (mkVaultState ∅ ∅ true).

Definition demo_vault_ops : list VaultOp :=
  [VAdd good_env "core" " admin " "secret"; VReopen; VResolve good_env "core" Subscribe; VRemove good_env "core";
   VResolve good_env "core" Subscribe].

Definition demo_results : list VaultResult :=
  [VDone true; VDone true; VCreds (Ok ("admin", "secret")%string); VDone true; VCreds (Err "credential alias 'core' not found"%string)].

Lemma vault_refines_map_witness :
  let '(v', d', rs) := vault_run "old" demo_vault_ops (fresh_vault, no_files) in
  rs = (map_run demo_vault_ops ∅).2 /\ creds v' = (map_run demo_vault_ops ∅).1 /\ vault_open (Some "old"%string) d' = Ok v' /\
  forall a, a ∈ cs_alias <$> list_credentials v' <-> is_Some ((map_run demo_vault_ops ∅).1 !! a).
Proof.
  apply (vault_refines_map "old" fresh_vault demo_vault_ops).
  - discriminate.
  - reflexivity.
  - repeat constructor.
Defined.

Example vault_demo_run : (map_run demo_vault_ops ∅).2 = demo_results.
Proof. vm_compute. reflexivity. Qed.

Lemma rekey_undone_by_next_write_witness :
  let '(v1, d1, r1) := rekey good_env (Some "new"%string) fresh_vault no_files in
  let '(v2, d2, r2) := add good_env "core" "admin" "secret" v1 d1 in
  r1 = Ok tt /\
  (succeeded r2 = true ->
     vault_open (Some "new"%string) d2 = Err "vault integrity check failed"%string /\ vault_open (Some "old"%string) d2 = Ok v2).
Proof.
  apply (rekey_undone_by_next_write good_env good_env "old" "new" fresh_vault no_files "core" "admin" "secret").
  - done.
  - done.
  - discriminate.
  - split_and!; [discriminate|done|done|by left|by left|]. intros a. cbn. by rewrite !lookup_empty.
  - intros c. discriminate.
Defined.

End Demo.
