(* ===== verification/IncidentResponse.v ===== *)
(** * Incident response workflows ([src/security/incident_response.rs])

    A workflow is made from a template, waits for an approval when it needs one,
    and is executed by a task of its own.  Callers and tasks run on several
    threads and share the tables behind locks: each definition from
    [create_insert] to [task_step] is what happens while a lock is held, and a run
    is any interleaving of them.  The audit log, the random identifiers and the
    clock are arguments. *)

From Stdlib Require Import ZArith Lia ZifyBool String Ascii.
From stdpp Require Import base numbers list option strings gmap fin_maps.
From S2P Require Import Prelude RustStd HashMaps Jsonl Text.

Local Open Scope Z_scope.

(** ** Data *)

Inductive IncidentSeverity := Low | Medium | High | Critical.

Inductive IncidentStatus := New | InProgress | PendingApproval | Resolved | Closed.

#[global] Instance incident_severity_eq_dec : EqDecision IncidentSeverity.
Proof. solve_decision. Defined.
#[global] Instance incident_status_eq_dec : EqDecision IncidentStatus.
Proof. solve_decision. Defined.

(** [notification_channels] has no reader. *)
Record IncidentResponseConfig := mkIrConfig {
  ir_enabled : bool;
  auto_response_enabled : bool;
  approval_required_for_critical : bool;
  max_concurrent_workflows : Z;
  default_timeout_minutes : Z;
}.

Definition ir_config_default : IncidentResponseConfig := mkIrConfig false false true 5 60.

Inductive WorkflowAction :=
  | BlockIp (ip : string) (duration_hours : Z) (reason : string)
  | IsolateDevice (device_id reason : string)
  | DisableAccount (username reason : string)
  | QuarantineFile (file_hash reason : string)
  | NotifyTeam (message : string) (severity : IncidentSeverity)
  | CreateTicket (title description priority : string)
  | RunPlaybook (playbook_id : string) (parameters : gmap string string)
  | LogEvent (event_type : string) (details : gmap string string).

Record IncidentWorkflow := mkWorkflow {
  wf_id : string;
  incident_id : string;
  wf_name : string;
  wf_description : string;
  wf_severity : IncidentSeverity;
  wf_status : IncidentStatus;
  wf_actions : list WorkflowAction;
  current_action_index : Z;
  created_at : Z;
  updated_at : Z;
  started_at : option Z;
  completed_at : option Z;
  assigned_to : option string;
  approval_required : bool;
  approved_by : option string;
  approved_at : option Z;
  error_message : option string;
}.

Record WorkflowResult := mkResult {
  r_workflow_id : string;
  action_index : nat;
  success : bool;
  r_message : string;
  executed_at : Z;
  duration_ms : Z;
}.

Record WorkflowTemplate := mkTemplate {
  tpl_id : string;
  tpl_name : string;
  tpl_description : string;
  trigger_conditions : list string;
  tpl_actions : list WorkflowAction;
  tpl_approval_required : bool;
  timeout_minutes : Z;
}.

(** ** The default templates *)

Local Open Scope string_scope.

Definition malicious_ip_template : WorkflowTemplate :=
  mkTemplate "malicious_ip_detected" "Block Malicious IP" "Automatically block IP addresses detected as malicious"
    ["threat_intel.malicious_ip_detected"; "firewall.suspicious_ip_activity"]
    [LogEvent "malicious_ip_block_initiated" ∅;
     BlockIp "${ip}" 24 "Automated block - malicious IP detected";
     NotifyTeam "Malicious IP ${ip} has been automatically blocked" Medium;
     CreateTicket "Malicious IP Blocked - ${ip}" "IP ${ip} was automatically blocked due to threat intelligence detection" "medium"]
    false 30.

Definition security_incident_template : WorkflowTemplate :=
  mkTemplate "security_incident_detected" "Security Incident Response" "Respond to detected security incidents"
    ["security.incident.detected"; "authentication.multiple_failures"; "access.privilege_escalation"]
    [LogEvent "security_incident_response_initiated" ∅;
     NotifyTeam "Security incident detected: ${incident_type}" High;
     CreateTicket "Security Incident - ${incident_type}" "Security incident detected: ${description}" "high"]
    true 60.

Definition device_compromise_template : WorkflowTemplate :=
  mkTemplate "device_compromise_detected" "Device Isolation" "Isolate compromised devices from the network"
    ["device.compromise_detected"; "malware.detected"; "anomaly.suspicious_behavior"]
    [LogEvent "device_isolation_initiated" ∅;
     IsolateDevice "${device_id}" "Automated isolation - compromise detected";
     NotifyTeam "Device ${device_id} has been isolated due to compromise detection" Critical;
     CreateTicket "Device Isolated - ${device_id}" "Device ${device_id} was automatically isolated due to compromise detection" "critical"]
    true 15.

(** Nothing else is ever inserted into the table of templates. *)
Definition default_templates : gmap string WorkflowTemplate :=
  <["device_compromise_detected" := device_compromise_template]>
    (<["security_incident_detected" := security_incident_template]> {["malicious_ip_detected" := malicious_ip_template]}).

Definition action_type_name (a : WorkflowAction) : string :=
  match a with
  | BlockIp _ _ _ => "block_ip"
  | IsolateDevice _ _ => "isolate_device"
  | DisableAccount _ _ => "disable_account"
  | QuarantineFile _ _ => "quarantine_file"
  | NotifyTeam _ _ => "notify_team"
  | CreateTicket _ _ _ => "create_ticket"
  | RunPlaybook _ _ => "run_playbook"
  | LogEvent _ _ => "log_event"
  end.

(** ** Placeholders *)

(** [s.replace(from, to)]: every match of [from], from the left. *)
Fixpoint replace_fuel (fuel : nat) (from to s : string) : string :=
  match fuel with
  | O => s
  | S n =>
      match strip_prefix from s with
      | Some rest => to ++ replace_fuel n from to rest
      | None => match s with EmptyString => EmptyString | String c s' => String c (replace_fuel n from to s') end
      end
  end.

Definition replace_text (from to s : string) : string := replace_fuel (S (String.length s)) from to s.

(** The debug format of severities and statuses. *)
Definition severity_name (s : IncidentSeverity) : string :=
  match s with Low => "Low" | Medium => "Medium" | High => "High" | Critical => "Critical" end.

Definition status_name (s : IncidentStatus) : string :=
  match s with
  | New => "New" | InProgress => "InProgress" | PendingApproval => "PendingApproval" | Resolved => "Resolved" | Closed => "Closed"
  end.

(** The debug format of a map of strings, which the language leaves open. *)
Class DebugMap := fmt_debug_map : gmap string string -> string.

Section Substitute.
Context `{HashOrder}.

Definition substitute_string (input : string) (parameters : gmap string string) : string :=
  foldl (fun result key => match parameters !! key with
                           | Some value => replace_text ("${" ++ key ++ "}") value result
                           | None => result
                           end) input (hash_keys parameters).

Definition substitute_action_parameters (parameters : gmap string string) (a : WorkflowAction) : WorkflowAction :=
  let sub s := substitute_string s parameters in
  match a with
  | BlockIp ip h reason => BlockIp (sub ip) h (sub reason)
  | IsolateDevice d reason => IsolateDevice (sub d) (sub reason)
  | DisableAccount u reason => DisableAccount (sub u) (sub reason)
  | QuarantineFile f reason => QuarantineFile (sub f) (sub reason)
  | NotifyTeam m sev => NotifyTeam (sub m) sev
  | CreateTicket t d p => CreateTicket (sub t) (sub d) (sub p)
  | RunPlaybook p params => RunPlaybook (sub p) (sub <$> params)
  | LogEvent t details => LogEvent (sub t) (sub <$> details)
  end.

End Substitute.

Local Close Scope string_scope.

(** ** The manager *)

(** What is written to the audit log, beside its category and outcome, which are
    always the same. *)
Record AuditEntry := mkAudit { a_timestamp_ns : Z; a_event_name : string; a_details : string }.

(** What [append_security_event] does: the line is written; it is written and
    the deletion of old files fails; or it is not. *)
Inductive AuditReply := Appended | AppendedThenFailed (e : string) | AppendFailed (e : string).

(** A task in [execute_workflow]: before the action with an index; after it
    failed; before its result is stored; before the workflow is marked; done. *)
Inductive TaskPoint :=
  | T_Act (index : nat)
  | T_Failed (index : nat) (start : Z) (e : string)
  | T_Store (r : WorkflowResult)
  | T_Complete
  | T_Done.

(** [t_workflow] is the clone the task was started with. *)
Record Task := mkTask { t_workflow : IncidentWorkflow; t_point : TaskPoint }.

Record Manager := mkManager {
  active_workflows : gmap string IncidentWorkflow;
  workflow_history : list WorkflowResult;
  audit_log : list AuditEntry;
  tasks : list Task;
}.

Definition manager_new : Manager := mkManager ∅ [] [] [].

Definition set_workflow (id : string) (w : IncidentWorkflow) (m : Manager) : Manager :=
  mkManager (<[id := w]> (active_workflows m)) (workflow_history m) (audit_log m) (tasks m).

Definition append_security_event (e : AuditEntry) (r : AuditReply) (m : Manager) : Manager * Outcome string unit :=
  let logged := mkManager (active_workflows m) (workflow_history m) (audit_log m ++ [e]) (tasks m) in
  match r with
  | Appended => (logged, Ok tt)
  | AppendedThenFailed err => (logged, Err err)
  | AppendFailed err => (m, Err err)
  end.

(** *** Actions: all they do is write to the audit log *)
Section Manager.
Context `{HashOrder, DebugMap} (cfg : IncidentResponseConfig).

Definition action_audit (a : WorkflowAction) : string * string :=
  match a with
  | BlockIp ip h reason => ("ip_blocked", "ip: " ++ ip ++ ", duration: " ++ fmt_dec h ++ ", reason: " ++ reason)
  | IsolateDevice d reason => ("device_isolated", "device: " ++ d ++ ", reason: " ++ reason)
  | DisableAccount u reason => ("account_disabled", "username: " ++ u ++ ", reason: " ++ reason)
  | QuarantineFile f reason => ("file_quarantined", "file_hash: " ++ f ++ ", reason: " ++ reason)
  | NotifyTeam msg sev => ("team_notified", "message: " ++ msg ++ ", severity: " ++ severity_name sev)
  | CreateTicket t _ p => ("ticket_created", "title: " ++ t ++ ", priority: " ++ p)
  | RunPlaybook p params => ("playbook_executed", "playbook: " ++ p ++ ", parameters: " ++ fmt_debug_map params)
  | LogEvent t details => (t, "details: " ++ fmt_debug_map details)
  end%string.

Definition action_message (a : WorkflowAction) : string :=
  match a with
  | BlockIp ip _ _ => "IP " ++ ip ++ " blocked successfully"
  | IsolateDevice d _ => "Device " ++ d ++ " isolated successfully"
  | DisableAccount u _ => "Account " ++ u ++ " disabled successfully"
  | QuarantineFile f _ => "File " ++ f ++ " quarantined successfully"
  | NotifyTeam _ _ => "Team notified successfully"
  | CreateTicket _ _ _ => "Ticket created successfully"
  | RunPlaybook p _ => "Playbook " ++ p ++ " executed successfully"
  | LogEvent _ _ => "Event logged successfully"
  end%string.

Definition action_entry (now_ns : Z) (a : WorkflowAction) : AuditEntry := mkAudit now_ns (action_audit a).1 (action_audit a).2.

Definition execute_action (now_ns : Z) (r : AuditReply) (a : WorkflowAction) (m : Manager) : Manager * Outcome string string :=
  let '(m', o) := append_security_event (action_entry now_ns a) r m in
  (m', _ ← o; Ok (action_message a)).

(** *** Creation, approval and start *)

Definition new_workflow (id incident : string) (t : WorkflowTemplate) (parameters : gmap string string) (sev : IncidentSeverity) (c u : Z) :
  IncidentWorkflow :=
  let approval := tpl_approval_required t || (bool_decide (sev = Critical) && approval_required_for_critical cfg) in
  mkWorkflow id incident (tpl_name t) (tpl_description t) sev (if approval then PendingApproval else New)
    (substitute_action_parameters parameters <$> tpl_actions t) 0 c u None None None approval None None None.

(** The readings of the clocks, the answer of the audit log and the identifier. *)
Record Env := mkEnv { instant : Z; instant' : Z; now_ns : Z; audit : AuditReply; uuid : string }.

(** [create_workflow] up to the automatic start. *)
Definition create_insert (e : Env) (incident template : string) (parameters : gmap string string) (sev : IncidentSeverity) (m : Manager) :
  Manager * Outcome string (string * bool) :=
  match default_templates !! template with
  | None => (m, Err ("Workflow template not found: " ++ template)%string)
  | Some t =>
      let id := ("workflow-" ++ incident ++ "-" ++ uuid e)%string in
      let w := new_workflow id incident t parameters sev (instant e) (instant' e) in
      let '(m', o) := append_security_event
        (mkAudit (now_ns e) "workflow_created" ("workflow_id: " ++ id ++ ", template: " ++ template ++ ", incident: " ++ incident))
        (audit e) (set_workflow id w m) in
      (m', _ ← o; Ok (id, approval_required w))
  end.

(** The status, the start and the error of a workflow are all that changes. *)
Definition started (s : Z) (u : Z) (w : IncidentWorkflow) : IncidentWorkflow :=
  mkWorkflow (wf_id w) (incident_id w) (wf_name w) (wf_description w) (wf_severity w) InProgress (wf_actions w) (current_action_index w)
    (created_at w) u (Some s) (completed_at w) (assigned_to w) (approval_required w) (approved_by w) (approved_at w) (error_message w).

Definition approved (who : string) (a u : Z) (w : IncidentWorkflow) : IncidentWorkflow :=
  mkWorkflow (wf_id w) (incident_id w) (wf_name w) (wf_description w) (wf_severity w) New (wf_actions w) (current_action_index w)
    (created_at w) u (started_at w) (completed_at w) (assigned_to w) (approval_required w) (Some who) (Some a) (error_message w).

Definition failed (err : string) (u : Z) (w : IncidentWorkflow) : IncidentWorkflow :=
  mkWorkflow (wf_id w) (incident_id w) (wf_name w) (wf_description w) (wf_severity w) New (wf_actions w) (current_action_index w)
    (created_at w) u (started_at w) (completed_at w) (assigned_to w) (approval_required w) (approved_by w) (approved_at w) (Some err).

Definition resolved (c u : Z) (w : IncidentWorkflow) : IncidentWorkflow :=
  mkWorkflow (wf_id w) (incident_id w) (wf_name w) (wf_description w) (wf_severity w) Resolved (wf_actions w) (current_action_index w)
    (created_at w) u (started_at w) (Some c) (assigned_to w) (approval_required w) (approved_by w) (approved_at w) (error_message w).

Definition start_workflow (e : Env) (id : string) (m : Manager) : Manager * Outcome string unit :=
  match active_workflows m !! id with
  | None => (m, Err ("Workflow not found: " ++ id)%string)
  | Some w =>
      if bool_decide (wf_status w = New) then
        let w' := started (instant e) (instant' e) w in
        (mkManager (<[id := w']> (active_workflows m)) (workflow_history m) (audit_log m) (tasks m ++ [mkTask w' (T_Act 0)]), Ok tt)
      else (m, Err ("Workflow cannot be started in current status: " ++ status_name (wf_status w))%string)
  end.

Definition create_workflow (e e' : Env) (incident template : string) (parameters : gmap string string) (sev : IncidentSeverity) (m : Manager) :
  Manager * Outcome string string :=
  match create_insert e incident template parameters sev m with
  | (m', Ok (id, approval)) =>
      if negb approval && auto_response_enabled cfg then
        let '(m'', o) := start_workflow e' id m' in (m'', _ ← o; Ok id)
      else (m', Ok id)
  | (m', Err err) => (m', Err err) | (m', Panic) => (m', Panic) | (m', Diverge) => (m', Diverge)
  end.

(** [approve_workflow] up to the start. *)
Definition approve_mark (e : Env) (id who : string) (m : Manager) : Manager * Outcome string unit :=
  match active_workflows m !! id with
  | None => (m, Err ("Workflow not found: " ++ id)%string)
  | Some w =>
      if bool_decide (wf_status w = PendingApproval) then
        append_security_event (mkAudit (now_ns e) "workflow_approved" ("workflow_id: " ++ id ++ ", approved_by: " ++ who))
          (audit e) (set_workflow id (approved who (instant e) (instant' e) w) m)
      else (m, Err "Workflow is not pending approval"%string)
  end.

Definition approve_workflow (e e' : Env) (id who : string) (m : Manager) : Manager * Outcome string unit :=
  match approve_mark e id who m with
  | (m', Ok _) => start_workflow e' id m'
  | r => r
  end.

(** *** The task of a workflow *)

(** The readings of the clocks a step of a task may need. *)
Record TaskEnv := mkTaskEnv { te_instant : Z; te_instant' : Z; te_elapsed_ms : Z; te_now_ns : Z; te_audit : AuditReply }.

Definition update_workflow (id : string) (f : IncidentWorkflow -> IncidentWorkflow) (m : Manager) : Manager :=
  match active_workflows m !! id with Some w => set_workflow id (f w) m | None => m end.

Definition task_step (e : TaskEnv) (t : Task) (m : Manager) : Task * Manager :=
  let w := t_workflow t in
  let to p := mkTask w p in
  match t_point t with
  | T_Act index =>
      match wf_actions w !! index with
      | None => (to T_Complete, m)
      | Some a =>
          match execute_action (te_now_ns e) (te_audit e) a m with
          | (m', Ok message) => (to (T_Store (mkResult (wf_id w) index true message (te_instant e) (te_elapsed_ms e))), m')
          | (m', Err err) => (to (T_Failed index (te_instant e) err), m')
          | (m', _) => (t, m')
          end
      end
  | T_Failed index start err =>
      (to (T_Store (mkResult (wf_id w) index false err start (te_elapsed_ms e))), update_workflow (wf_id w) (failed err (te_instant e)) m)
  | T_Store r =>
      (to (if success r then T_Act (S (action_index r)) else T_Complete),
       mkManager (active_workflows m) (workflow_history m ++ [r]) (audit_log m) (tasks m))
  | T_Complete => (to T_Done, update_workflow (wf_id w) (resolved (te_instant e) (te_instant' e)) m)
  | T_Done => (t, m)
  end.

(** [execute_workflow] with nothing in between: [fuel] steps at most. *)
Fixpoint execute_workflow (fuel : nat) (env : nat -> TaskEnv) (t : Task) (m : Manager) : Task * Manager :=
  match fuel with
  | O => (t, m)
  | S n => let '(t', m') := task_step (env O) t m in execute_workflow n (fun i => env (S i)) t' m'
  end.

(** *** Queries *)

Definition get_active_workflows (m : Manager) : list IncidentWorkflow := hash_vals (active_workflows m).

Definition get_active_workflows_count (m : Manager) : Z := Z.of_nat (size (active_workflows m)).

Definition get_workflow (id : string) (m : Manager) : option IncidentWorkflow := active_workflows m !! id.

Definition get_workflow_history (id : string) (m : Manager) : list WorkflowResult :=
  List.filter (fun r => bool_decide (r_workflow_id r = id)) (workflow_history m).

Record ResponseStats := mkResponseStats {
  st_active : Z;
  st_max_concurrent : Z;
  st_auto : bool;
  st_approval_for_critical : bool;
  st_by_status : gmap string Z;
  st_by_severity : gmap string Z;
  st_total : Z;
  st_successful : Z;
  st_failed : Z;
}.

Definition count_names (names : list string) : gmap string Z :=
  foldl (fun c n => <[n := default 0 (c !! n) + 1]> c) ∅ names.

Definition get_incident_response_stats (m : Manager) : ResponseStats :=
  mkResponseStats (Z.of_nat (size (active_workflows m))) (max_concurrent_workflows cfg) (auto_response_enabled cfg)
    (approval_required_for_critical cfg)
    (count_names ((fun w => status_name (wf_status w)) <$> hash_vals (active_workflows m)))
    (count_names ((fun w => severity_name (wf_severity w)) <$> hash_vals (active_workflows m)))
    (Z.of_nat (length (workflow_history m)))
    (Z.of_nat (length (List.filter success (workflow_history m))))
    (Z.of_nat (length (List.filter (fun r => negb (success r)) (workflow_history m)))).

(** *** Runs *)

Inductive IrOp :=
  | OpCreate (e : Env) (incident template : string) (parameters : gmap string string) (sev : IncidentSeverity)
  | OpApprove (e : Env) (id who : string)
  | OpStart (e : Env) (id : string)
  | OpTask (e : TaskEnv) (i : nat).

(** A caller or a task moves; the calls that consist of two parts are two
    operations, between which others may come. *)
Definition ir_step (m : Manager) (op : IrOp) : Manager :=
  match op with
  | OpCreate e incident template parameters sev => (create_insert e incident template parameters sev m).1
  | OpApprove e id who => (approve_mark e id who m).1
  | OpStart e id => (start_workflow e id m).1
  | OpTask e i =>
      match tasks m !! i with
      | Some t => let '(t', m') := task_step e t m in
                  mkManager (active_workflows m') (workflow_history m') (audit_log m') (<[i := t']> (tasks m'))
      | None => m
      end
  end.

Definition ir_run (ops : list IrOp) (m : Manager) : Manager := foldl ir_step m ops.

End Manager.

(** ** Substitution *)

Section SubstitutionProof.
Local Open Scope string_scope.

(** The text has no occurrence of the character. *)
Definition free_of (c : ascii) (s : string) : Prop := split_once c s = None.

Lemma free_of_cons c x s : free_of c (String x s) -> x <> c /\ free_of c s.
Proof. unfold free_of. cbn. case_bool_decide; [done|]. by destruct (split_once c s) as [[??]|]. Qed.

Lemma free_of_intro c x s : x <> c -> free_of c s -> free_of c (String x s).
Proof. unfold free_of. intros Hx Hs. cbn [split_once]. by rewrite bool_decide_false, Hs. Qed.

Lemma string_length_app a b : String.length (a ++ b) = (String.length a + String.length b)%nat.
Proof. induction a as [|x a IH]; [done|]. rewrite string_cons_app. cbn. by rewrite IH. Qed.

Lemma strip_prefix_shorter p s r : p <> "" -> strip_prefix p s = Some r -> (String.length r < String.length s)%nat.
Proof. intros Hp ->%strip_prefix_spec. rewrite string_length_app. destruct p; [done|]. cbn. lia. Qed.

Lemma replace_fuel_enough from to n m s :
  from <> "" -> (String.length s < n)%nat -> (String.length s < m)%nat -> replace_fuel n from to s = replace_fuel m from to s.
Proof.
  intros Hf. revert m s. induction n as [|n IH]; intros [|m] s Hn Hm; [lia..|]. cbn [replace_fuel].
  destruct (strip_prefix from s) as [r|] eqn:Hs.
  - apply strip_prefix_shorter in Hs; [|done]. f_equal. apply IH; lia.
  - destruct s as [|x s]; [done|]. cbn in Hn, Hm. f_equal. apply IH; lia.
Qed.

Lemma replace_text_match from to r : from <> "" -> replace_text from to (from ++ r) = to ++ replace_text from to r.
Proof.
  intros Hf. unfold replace_text. remember (S (String.length r)) as k. cbn [replace_fuel]. rewrite strip_prefix_app. f_equal. subst k.
  apply replace_fuel_enough; [done| |lia]. rewrite string_length_app. destruct from; [done|]. cbn. lia.
Qed.

Lemma replace_text_skip from to x s :
  strip_prefix from (String x s) = None -> replace_text from to (String x s) = String x (replace_text from to s).
Proof. intros Hs. unfold replace_text. remember (S (String.length s)) as k. cbn [replace_fuel String.length]. rewrite Hs. by subst k. Qed.

Lemma strip_prefix_ne a b p s : a <> b -> strip_prefix (String a p) (String b s) = None.
Proof. intros. cbn [strip_prefix]. by rewrite bool_decide_false. Qed.

Lemma placeholder_needs_dollar from to s r :
  free_of "$" s -> replace_text ("${" ++ from) to (s ++ r) = s ++ replace_text ("${" ++ from) to r.
Proof.
  induction s as [|x s IH]; intros Hs; [done|]. apply free_of_cons in Hs as [Hx Hs]. rewrite (string_cons_app x s r).
  rewrite replace_text_skip; [by rewrite IH, string_cons_app|]. apply strip_prefix_ne. congruence.
Qed.

(** A text with placeholders. *)
Inductive Piece := Lit (s : string) | Hole (key : string).

Definition piece_text (p : Piece) : string := match p with Lit s => s | Hole k => "${" ++ k ++ "}" end.

Fixpoint render (ps : list Piece) : string := match ps with [] => "" | p :: ps' => piece_text p ++ render ps' end.

Definition piece_ok (p : Piece) : Prop := match p with Lit s => free_of "$" s | Hole k => free_of "$" k /\ free_of "}" k end.

Definition fill_one (k v : string) (p : Piece) : Piece :=
  match p with Lit s => Lit s | Hole k' => if bool_decide (k' = k) then Lit v else Hole k' end.

Definition fill (parameters : gmap string string) (p : Piece) : Piece :=
  match p with Lit s => Lit s | Hole k => match parameters !! k with Some v => Lit v | None => Hole k end end.

Lemma other_placeholder k k' r : free_of "}" k -> free_of "}" k' -> k <> k' -> strip_prefix ("${" ++ k ++ "}") ("${" ++ k' ++ "}" ++ r) = None.
Proof.
  intros Hk Hk' Hne. destruct (strip_prefix _ _) as [r'|] eqn:Hs; [|done]. apply strip_prefix_spec in Hs. exfalso. apply Hne.
  rewrite !string_cons_app, !string_nil_app, string_app_assoc in Hs. injection Hs as Hs. rewrite !string_cons_app, !string_nil_app in Hs.
  pose proof (split_once_app "}" k r' Hk) as H1. pose proof (split_once_app "}" k' r Hk') as H2. rewrite Hs in H2. congruence.
Qed.

Lemma replace_render k v ps :
  free_of "}" k -> Forall piece_ok ps -> replace_text ("${" ++ k ++ "}") v (render ps) = render (fill_one k v <$> ps).
Proof.
  intros Hk. induction 1 as [|p ps Hp Hps IH]; [done|]. cbn [render fmap list_fmap]. destruct p as [s|k']; cbn [piece_text piece_ok] in *.
  - rewrite placeholder_needs_dollar by done. by rewrite IH.
  - destruct Hp as [Hd Hb]. unfold fill_one at 1. case_bool_decide as He.
    + subst k'. rewrite replace_text_match by done. by rewrite IH.
    + cbn [piece_text]. pose proof (other_placeholder k k' (render ps) Hk Hb (not_eq_sym He)) as Hs. rewrite !string_app_assoc.
      change ("${" ++ (k' ++ ("}" ++ render ps))) with (String "$" (("{" ++ k') ++ ("}" ++ render ps))) in *.
      rewrite replace_text_skip by done.
      rewrite placeholder_needs_dollar by (by apply free_of_intro). rewrite placeholder_needs_dollar by (by apply free_of_intro).
      by rewrite IH.
Qed.

Lemma pieces_filled k v ps : free_of "$" v -> Forall piece_ok ps -> Forall piece_ok (fill_one k v <$> ps).
Proof.
  intros Hv Hps. apply Forall_fmap. eapply Forall_impl; [exact Hps|]. intros [s|k'] Hp; [done|]. unfold compose, fill_one. by case_bool_decide.
Qed.

(** The holes of the first keys are filled. *)
Definition fill_in (ks : list string) (parameters : gmap string string) (p : Piece) : Piece :=
  match p with Lit s => Lit s | Hole k => if bool_decide (k ∈ ks) then fill parameters (Hole k) else Hole k end.

Lemma fill_in_cons k v ks parameters p :
  parameters !! k = Some v -> fill_in ks parameters (fill_one k v p) = fill_in (k :: ks) parameters p.
Proof.
  intros Hk. destruct p as [s|k']; [done|]. unfold fill_one. case_bool_decide as He.
  - subst k'. cbn. rewrite bool_decide_true by constructor. by rewrite Hk.
  - cbn. destruct (decide (k' ∈ ks)); [rewrite !bool_decide_true by (by try constructor)|rewrite !bool_decide_false]; try done. set_solver.
Qed.

Definition parameter_ok (k v : string) : Prop := free_of "}" k /\ free_of "$" v.

(** Substituting parameters into a text is filling all placeholders at
    once, whatever the order in which the hash map lists them, as long as no
    value has a dollar sign and no key a brace: placeholders of parameters are
    replaced by their values, the others and the text between them are kept. *)
Theorem substitution_simultaneous `{HashOrder} (ps : list Piece) (parameters : gmap string string) :
  Forall piece_ok ps -> map_Forall parameter_ok parameters ->
  substitute_string (render ps) parameters = render (fill parameters <$> ps).
Proof.
  intros Hps Hpar. unfold substitute_string.
  trans (render (fill_in (hash_keys parameters) parameters <$> ps)).
  - assert (forall k, k ∈ hash_keys parameters -> is_Some (parameters !! k)) as Hks by (intros k; by rewrite elem_of_hash_keys).
    revert ps Hps. induction (hash_keys parameters) as [|k ks IH]; intros ps Hps; cbn [foldl].
    + f_equal. rewrite <- (list_fmap_id ps) at 1. apply list_fmap_ext. intros _ [s|k] _; [done|]. cbn. by rewrite bool_decide_false by set_solver.
    + destruct (Hks k) as [v Hv]; [by constructor|]. rewrite Hv. destruct (Hpar k v Hv) as [Hk Hd]. rewrite replace_render by done.
      rewrite IH; [|set_solver|by apply pieces_filled]. f_equal. rewrite <- list_fmap_compose. apply list_fmap_ext. intros _ p _.
      by apply fill_in_cons.
  - f_equal. apply list_fmap_ext. intros _ [s|k] _; [done|]. cbn. case_bool_decide as Hin; [done|]. rewrite elem_of_hash_keys in Hin.
    by rewrite (proj2 (eq_None_not_Some _)).
Qed.

End SubstitutionProof.

(** ** Runs of the manager *)

Section Runs.
Context `{HashOrder, DebugMap} (cfg : IncidentResponseConfig).

Definition created_id (e : Env) (incident : string) : string := ("workflow-" ++ incident ++ "-" ++ uuid e)%string.

(** Random identifiers are not drawn twice. *)
Fixpoint fresh_run (ops : list IrOp) (m : Manager) : Prop :=
  match ops with
  | [] => True
  | op :: ops' =>
      match op with OpCreate e incident _ _ _ => active_workflows m !! created_id e incident = None | _ => True end /\
      fresh_run ops' (ir_step cfg m op)
  end.

(** An invariant that every operation keeps, given the operations before it. *)
Lemma fresh_run_keeps (P : list IrOp -> Manager -> Prop) ops (ok : IrOp -> Prop) :
  P [] manager_new ->
  (forall before m op, P before m -> ok op ->
     match op with OpCreate e incident _ _ _ => active_workflows m !! created_id e incident = None | _ => True end ->
     P (before ++ [op]) (ir_step cfg m op)) ->
  Forall ok ops -> fresh_run ops manager_new -> P ops (ir_run cfg ops manager_new).
Proof.
  intros Hinit Hstep Hok Hf. change ops with ([] ++ ops) at 1. revert Hinit Hf. generalize (@nil IrOp), manager_new.
  induction Hok as [|op ops Hop Hok IH]; intros before m Hp Hf; cbn [ir_run foldl].
  - by rewrite app_nil_r.
  - destruct Hf as [Hfr Hf]. rewrite (cons_middle op), app_assoc. apply IH; [by apply Hstep|done].
Qed.

(** *** What the operations do to the tables *)

Lemma append_tables e r m :
  let m' := (append_security_event e r m).1 in
  active_workflows m' = active_workflows m /\ workflow_history m' = workflow_history m /\ tasks m' = tasks m.
Proof. by destruct r. Qed.

Lemma execute_tables t r a m :
  let m' := (execute_action t r a m).1 in
  active_workflows m' = active_workflows m /\ workflow_history m' = workflow_history m /\ tasks m' = tasks m.
Proof. unfold execute_action. pose proof (append_tables (action_entry t a) r m) as Ht. by destruct (append_security_event _ _ _). Qed.

Lemma execute_result t r a m : (execute_action t r a m).2 = match r with Appended => Ok (action_message a) | AppendedThenFailed e | AppendFailed e => Err e end.
Proof. by destruct r. Qed.

(** What [create_insert] does. *)
Lemma create_tables e incident template parameters sev m :
  let m' := (create_insert cfg e incident template parameters sev m).1 in
  workflow_history m' = workflow_history m /\ tasks m' = tasks m /\
  (active_workflows m' = active_workflows m \/
   exists t, default_templates !! template = Some t /\
     active_workflows m' = <[created_id e incident :=
       new_workflow cfg (created_id e incident) incident t parameters sev (instant e) (instant' e)]> (active_workflows m)).
Proof.
  unfold create_insert. destruct (default_templates !! template) as [t|]; [|by split_and!; auto].
  match goal with |- context [append_security_event ?x ?r ?y] => pose proof (append_tables x r y) as (Ha & Hh & Ht); destruct (append_security_event x r y) end.
  cbn [fst] in *. split_and!; [done..|]. right. exists t. done.
Qed.

Lemma approve_tables e id who m :
  let m' := (approve_mark e id who m).1 in
  workflow_history m' = workflow_history m /\ tasks m' = tasks m /\
  (active_workflows m' = active_workflows m \/
   exists w, active_workflows m !! id = Some w /\ wf_status w = PendingApproval /\
     active_workflows m' = <[id := approved who (instant e) (instant' e) w]> (active_workflows m)).
Proof.
  unfold approve_mark. destruct (active_workflows m !! id) as [w|] eqn:Hw; [|by split_and!; auto]. case_bool_decide; [|by split_and!; auto].
  match goal with |- context [append_security_event ?x ?r ?y] => pose proof (append_tables x r y) as (Ha & Hh & Ht) end.
  split_and!; [done..|]. right. by exists w.
Qed.

Lemma start_tables e id m :
  let m' := (start_workflow e id m).1 in
  m' = m \/
  exists w, active_workflows m !! id = Some w /\ wf_status w = New /\
    let w' := started (instant e) (instant' e) w in
    workflow_history m' = workflow_history m /\ active_workflows m' = <[id := w']> (active_workflows m) /\
    tasks m' = tasks m ++ [mkTask w' (T_Act 0)].
Proof.
  unfold start_workflow. destruct (active_workflows m !! id) as [w|] eqn:Hw; [|by left]. case_bool_decide; [|by left]. right. by exists w.
Qed.

(** A step of a task changes the status of its own workflow, and not to pending. *)
Lemma task_tables e t m :
  let '(t', m') := task_step e t m in
  let id := wf_id (t_workflow t) in
  t_workflow t' = t_workflow t /\ tasks m' = tasks m /\
  (active_workflows m' = active_workflows m /\
     (workflow_history m' = workflow_history m \/ exists r, t_point t = T_Store r /\ workflow_history m' = workflow_history m ++ [r]) \/
   workflow_history m' = workflow_history m /\
     exists w w', active_workflows m !! id = Some w /\ active_workflows m' = <[id := w']> (active_workflows m) /\
       wf_id w' = wf_id w /\ approval_required w' = approval_required w /\ wf_actions w' = wf_actions w /\
       wf_status w' = match t_point t with T_Complete => Resolved | _ => New end).
Proof.
  unfold task_step. destruct (t_point t) as [i|i s err|r| |] eqn:Hp.
  - destruct (wf_actions (t_workflow t) !! i) as [a|]; [|by split_and!; auto].
    pose proof (execute_tables (te_now_ns e) (te_audit e) a m) as (Ha & Hh & Ht).
    destruct (execute_action _ _ _ _) as [m' []]; cbn [fst] in *; split_and!; auto.
  - unfold update_workflow. destruct (active_workflows m !! _) as [w|] eqn:Hw; [|by split_and!; auto].
    split_and!; auto. right. split; [done|]. by eexists w, _.
  - split_and!; auto. left. split; [done|]. right. by exists r.
  - unfold update_workflow. destruct (active_workflows m !! _) as [w|] eqn:Hw; [|by split_and!; auto].
    split_and!; auto. right. split; [done|]. by eexists w, _.
  - split_and!; auto.
Qed.

(** *** Approval *)

Definition approved_in (ops : list IrOp) (id : string) : Prop := exists e who, OpApprove e id who ∈ ops.

Definition waits (m : Manager) (id : string) : Prop :=
  match active_workflows m !! id with Some w => wf_status w = PendingApproval | None => True end.

(** Who left the pending status was approved if it had to be; tasks, and results,
    are of workflows that left it. *)
Definition approvals_sound (ops : list IrOp) (m : Manager) : Prop :=
  (forall id w, active_workflows m !! id = Some w -> approval_required w = true -> wf_status w = PendingApproval \/ approved_in ops id) /\
  (forall t, t ∈ tasks m -> ~ waits m (wf_id (t_workflow t)) /\ forall r, t_point t = T_Store r -> r_workflow_id r = wf_id (t_workflow t)) /\
  (forall id w, active_workflows m !! id = Some w -> wf_id w = id) /\
  (forall r, r ∈ workflow_history m -> ~ waits m (r_workflow_id r)).

Lemma approved_in_app ops op id : approved_in ops id -> approved_in (ops ++ [op]) id.
Proof. intros (e & who & Hin). exists e, who. set_solver. Qed.

(** The table changes at one workflow that does not come to wait. *)
Lemma waits_insert m m' id w :
  active_workflows m' = <[id := w]> (active_workflows m) -> wf_status w <> PendingApproval \/ active_workflows m !! id = None ->
  forall id', ~ waits m id' -> ~ waits m' id'.
Proof.
  intros Ha Hw id' Hn. unfold waits in *. rewrite Ha. destruct (decide (id = id')) as [<-|Hne]; [|by rewrite lookup_insert_ne].
  rewrite lookup_insert_eq. destruct Hw as [|Hw]; [done|]. by rewrite Hw in Hn.
Qed.

Lemma approvals_create ops m e incident template parameters sev :
  approvals_sound ops m -> active_workflows m !! created_id e incident = None ->
  approvals_sound (ops ++ [OpCreate e incident template parameters sev]) (ir_step cfg m (OpCreate e incident template parameters sev)).
Proof.
  intros (Hw & Ht & Hid & Hr) Hf. cbn [ir_step]. destruct (create_tables e incident template parameters sev m) as (Hh & Hts & [Ha|(t & Htpl & Ha)]);
    set (m' := (create_insert _ _ _ _ _ _ _).1) in *; unfold approvals_sound; rewrite Hh, Hts.
  - unfold waits. rewrite Ha. split_and!; [|done..]. intros id w Hl Hap. destruct (Hw id w Hl Hap); [by left|right; by apply approved_in_app].
  - pose proof (waits_insert m m' _ _ Ha (or_intror Hf)) as Hn. split_and!.
    + intros id w. rewrite Ha. destruct (decide (created_id e incident = id)) as [<-|Hne].
      * rewrite lookup_insert_eq. intros [= <-]. cbn. intros ->. by left.
      * rewrite lookup_insert_ne by done. intros Hl Hap. destruct (Hw id w Hl Hap); [by left|right; by apply approved_in_app].
    + intros t' Hin. destruct (Ht t' Hin) as [? ?]. split; [by apply Hn|done].
    + intros id w. rewrite Ha. destruct (decide (created_id e incident = id)) as [<-|Hne]; [rewrite lookup_insert_eq; by intros [= <-]|].
      rewrite lookup_insert_ne by done. apply Hid.
    + intros r Hin. by apply Hn, Hr.
Qed.

(** The other operations replace a workflow by one that keeps what it is. *)
Lemma approvals_replace ops m m' op id w w' :
  approvals_sound ops m -> active_workflows m !! id = Some w -> active_workflows m' = <[id := w']> (active_workflows m) ->
  wf_id w' = wf_id w -> approval_required w' = approval_required w -> wf_status w' <> PendingApproval ->
  (wf_status w <> PendingApproval \/ exists e who, op = OpApprove e id who) ->
  (forall t, t ∈ tasks m' -> t ∈ tasks m \/ wf_id (t_workflow t) = id /\ forall r, t_point t = T_Store r -> r_workflow_id r = id) ->
  workflow_history m' = workflow_history m ->
  approvals_sound (ops ++ [op]) m'.
Proof.
  intros (Hw & Ht & Hid & Hr) Hl Ha Hwid Hap Hst Hop Hts Hh. pose proof (waits_insert m m' _ _ Ha (or_introl Hst)) as Hn. split_and!.
  - intros id' w''. rewrite Ha. destruct (decide (id = id')) as [<-|Hne].
    + rewrite lookup_insert_eq. intros [= <-]. rewrite Hap. intros Hreq. right. destruct Hop as [Hop|(e & who & ->)].
      * destruct (Hw id w Hl Hreq); [done|by apply approved_in_app].
      * exists e, who. set_solver.
    + rewrite lookup_insert_ne by done. intros Hl' Hreq. destruct (Hw id' w'' Hl' Hreq); [by left|right; by apply approved_in_app].
  - intros t [Hin|[Heq Hpt]]%Hts.
    + destruct (Ht t Hin) as [? ?]. split; [by apply Hn|done].
    + rewrite Heq. split; [|done]. unfold waits. by rewrite Ha, lookup_insert_eq.
  - intros id' w''. rewrite Ha. destruct (decide (id = id')) as [<-|Hne]; [|rewrite lookup_insert_ne by done; apply Hid].
    rewrite lookup_insert_eq. intros [= <-]. rewrite Hwid. by apply Hid.
  - intros r. rewrite Hh. intros Hin. by apply Hn, Hr.
Qed.

(** And those that leave the table alone. *)
Lemma approvals_same ops m m' op :
  approvals_sound ops m -> active_workflows m' = active_workflows m ->
  (forall t, t ∈ tasks m' -> ~ waits m (wf_id (t_workflow t)) /\ forall r, t_point t = T_Store r -> r_workflow_id r = wf_id (t_workflow t)) ->
  (forall r, r ∈ workflow_history m' -> ~ waits m (r_workflow_id r)) ->
  approvals_sound (ops ++ [op]) m'.
Proof.
  intros (Hw & Ht & Hid & Hr) Ha Hts Hh. unfold approvals_sound, waits. rewrite Ha. split_and!; [|done..].
  intros id w Hl Hreq. destruct (Hw id w Hl Hreq); [by left|right; by apply approved_in_app].
Qed.

Lemma task_store_id e t m r :
  (forall r, t_point t = T_Store r -> r_workflow_id r = wf_id (t_workflow t)) -> t_point (task_step e t m).1 = T_Store r ->
  r_workflow_id r = wf_id (t_workflow t).
Proof.
  intros Hr. unfold task_step. destruct (t_point t) as [i|i s err|r0| |] eqn:Hp; cbn.
  - destruct (wf_actions (t_workflow t) !! i) as [a|]; [|done].
    destruct (execute_action _ _ _ _) as [m' []]; cbn; try done; [by intros [= <-]|by rewrite Hp..].
  - by intros [= <-].
  - by destruct (success r0).
  - done.
  - by rewrite Hp.
Qed.

Lemma approvals_task ops m e i : approvals_sound ops m -> approvals_sound (ops ++ [OpTask e i]) (ir_step cfg m (OpTask e i)).
Proof.
  intros Hs. pose proof Hs as (Hw & Ht & Hid & Hr). cbn [ir_step]. destruct (tasks m !! i) as [t|] eqn:Hi; [|by apply (approvals_same _ m)].
  pose proof (Ht t (list_elem_of_lookup_2 _ _ _ Hi)) as [Hnw Hst].
  pose proof (task_tables e t m) as Htab. pose proof (task_store_id e t m) as Hsid. destruct (task_step e t m) as [t' m'].
  cbn [fst] in Hsid. destruct Htab as (Htw & Htm & Hact).
  assert (forall x, x ∈ <[i := t']> (tasks m') -> x ∈ tasks m \/ x = t') as Hins.
  { intros x Hx. rewrite Htm in Hx. apply list_elem_of_lookup in Hx as [j Hj]. destruct (decide (i = j)) as [<-|Hne].
    - rewrite list_lookup_insert_eq in Hj by (by eapply lookup_lt_Some). injection Hj as <-. by right.
    - rewrite list_lookup_insert_ne in Hj by done. left. by eapply list_elem_of_lookup_2. }
  destruct Hact as [[Ha Hhis]|(Hh & w & w' & Hl & Ha & Hwid & Hap & _ & Hstat)].
  - apply (approvals_same _ m); [done|done| |].
    + intros x [Hx| ->]%Hins; [by apply Ht|]. rewrite Htw. split; [done|]. intros r Hp'. by apply (Hsid r Hst).
    + intros r. cbn. destruct Hhis as [->|(r0 & Hp & ->)]; [apply Hr|]. rewrite elem_of_app, list_elem_of_singleton. intros [Hin| ->]; [by apply Hr|].
      by rewrite (Hst _ Hp).
  - eapply (approvals_replace _ m _ _ _ w w'); try done.
    + rewrite Hstat. by destruct (t_point t).
    + left. unfold waits in Hnw. by rewrite Hl in Hnw.
    + intros x [Hx| ->]%Hins; [by left|right]. rewrite Htw. split; [done|]. intros r Hp'. by apply (Hsid r Hst).
Qed.

Lemma approvals_step ops m op :
  approvals_sound ops m ->
  match op with OpCreate e incident _ _ _ => active_workflows m !! created_id e incident = None | _ => True end ->
  approvals_sound (ops ++ [op]) (ir_step cfg m op).
Proof.
  intros Hs Hf. destruct op as [e incident template parameters sev|e id who|e id|e i].
  - by apply approvals_create.
  - cbn [ir_step]. pose proof Hs as (_ & Ht & _ & Hr). destruct (approve_tables e id who m) as (Hh & Hts & [Ha|(w & Hw & Hst & Ha)]).
    + apply (approvals_same _ m); rewrite ?Hts, ?Hh; try done.
    + eapply (approvals_replace _ m _ _ _ w); try done; [right; eauto|]. rewrite Hts. by left.
  - cbn [ir_step]. pose proof Hs as (_ & Ht & Hid & Hr). destruct (start_tables e id m) as [->|(w & Hw & Hst & Hh & Ha & Hts)]; [by apply (approvals_same _ m)|].
    eapply (approvals_replace _ m _ _ _ w); try done; [left; by rewrite Hst|]. rewrite Hts. intros t [Hin|Hin]%elem_of_app; [by left|right].
    apply list_elem_of_singleton in Hin as ->. cbn. split; [by apply Hid|done].
  - by apply approvals_task.
Qed.

(** Claim C19: no action of a workflow that needs an approval is executed before
    somebody approved it: however the callers and the tasks interleave, if one of
    its tasks exists or a result of it is stored, there was an approval. *)
Theorem actions_need_approval (ops : list IrOp) (id : string) (w : IncidentWorkflow) :
  let m := ir_run cfg ops manager_new in
  fresh_run ops manager_new -> active_workflows m !! id = Some w -> approval_required w = true ->
  (exists t, t ∈ tasks m /\ wf_id (t_workflow t) = id) \/ get_workflow_history id m <> [] ->
  approved_in ops id.
Proof.
  intros m Hf Hl Hreq Hact. assert (approvals_sound ops m) as (Hw & Ht & _ & Hr).
  { apply (fresh_run_keeps approvals_sound ops (fun _ => True)); [|auto using approvals_step|by apply Forall_true|done].
    split_and!; cbn; intros *; by rewrite ?lookup_empty, ?elem_of_nil. }
  assert (~ waits m id) as Hn.
  { destruct Hact as [(t & Hin & <-)|Hh]; [by apply Ht|]. destruct (get_workflow_history id m) as [|r rs] eqn:He; [done|].
    assert (r ∈ get_workflow_history id m) as Hin by (rewrite He; by constructor).
    unfold get_workflow_history in Hin. rewrite list_elem_of_In, filter_In, <- list_elem_of_In, bool_decide_eq_true in Hin.
    destruct Hin as [Hin <-]. by apply Hr. }
  unfold waits in Hn. rewrite Hl in Hn. by destruct (Hw id w Hl Hreq).
Qed.

(** *** Each workflow is executed once *)

Definition done_upto (n : nat) (h : list WorkflowResult) : Prop := action_index <$> h = seq 0 n /\ Forall (fun r => success r = true) h.

Definition idle (m : Manager) (id : string) : Prop := forall j t, tasks m !! j = Some t -> wf_id (t_workflow t) <> id.

(** The only task of a workflow. *)
Definition runs_at (m : Manager) (id : string) (i : nat) (t : Task) : Prop :=
  tasks m !! i = Some t /\ wf_id (t_workflow t) = id /\
  forall j t', tasks m !! j = Some t' -> wf_id (t_workflow t') = id -> j = i.

(** How far a task is, and what it stored. *)
Definition progress (id : string) (n : nat) (p : TaskPoint) (h : list WorkflowResult) : Prop :=
  match p with
  | T_Act i => (i <= n)%nat /\ done_upto i h
  | T_Store r => r_workflow_id r = id /\ success r = true /\ (action_index r < n)%nat /\ done_upto (action_index r) h
  | T_Complete => done_upto n h
  | T_Failed _ _ _ | T_Done => False
  end.

Definition phase_ok (m : Manager) (id : string) (w : IncidentWorkflow) : Prop :=
  let h := get_workflow_history id m in
  match wf_status w with
  | New | PendingApproval => idle m id /\ h = []
  | InProgress => exists i t, runs_at m id i t /\ wf_actions (t_workflow t) = wf_actions w /\ progress id (length (wf_actions w)) (t_point t) h
  | Resolved => exists i t, runs_at m id i t /\ t_point t = T_Done /\ done_upto (length (wf_actions w)) h
  | Closed => False
  end.

Definition once (m : Manager) : Prop :=
  (forall id w, active_workflows m !! id = Some w -> wf_id w = id /\ phase_ok m id w) /\
  (forall j t, tasks m !! j = Some t -> is_Some (active_workflows m !! wf_id (t_workflow t))) /\
  (forall r, r ∈ workflow_history m -> is_Some (active_workflows m !! r_workflow_id r)).

(** Two managers with the same tasks and results of a workflow. *)
Definition same_for (id : string) (m m' : Manager) : Prop :=
  (forall j t, wf_id (t_workflow t) = id -> tasks m !! j = Some t <-> tasks m' !! j = Some t) /\
  get_workflow_history id m = get_workflow_history id m'.

Lemma phase_ok_same id w m m' : same_for id m m' -> phase_ok m id w -> phase_ok m' id w.
Proof.
  intros [Ht Hh]. unfold phase_ok. rewrite <- Hh.
  assert (idle m id -> idle m' id) as Hidle.
  { intros Hi j t Hj Heq. apply Ht in Hj; [|done]. by apply (Hi j t). }
  assert (forall i t, runs_at m id i t -> runs_at m' id i t) as Hruns.
  { intros i t (Hi & Hid & Hu). split_and!; [by apply Ht|done|]. intros j t' Hj Heq. apply Ht in Hj; [|done]. by eapply Hu. }
  destruct (wf_status w); [naive_solver| | |naive_solver..]; [|naive_solver]. intros (i & t & Hr & ? & ?). exists i, t. auto.
Qed.

Lemma same_for_refl id m m' : tasks m' = tasks m -> workflow_history m' = workflow_history m -> same_for id m m'.
Proof. intros Ht Hh. unfold same_for, get_workflow_history. by rewrite Ht, Hh. Qed.

(** One workflow changes, with its tasks and results. *)
Lemma once_change id w' m m' :
  once m -> active_workflows m' = <[id := w']> (active_workflows m) -> wf_id w' = id -> phase_ok m' id w' ->
  (forall id', id' <> id -> same_for id' m m') ->
  (forall j t, tasks m' !! j = Some t -> wf_id (t_workflow t) = id \/ tasks m !! j = Some t) ->
  (forall r, r ∈ workflow_history m' -> r_workflow_id r = id \/ r ∈ workflow_history m) ->
  once m'.
Proof.
  intros (Hw & Ht & Hr) Ha Hid Hp Hs Hts Hrs.
  assert (forall id', is_Some (active_workflows m !! id') \/ id' = id -> is_Some (active_workflows m' !! id')) as Hsome.
  { intros id' Hid'. rewrite Ha. apply lookup_insert_is_Some. destruct (decide (id = id')) as [->|]; [by left|right]. split; [done|].
    by destruct Hid' as [|<-]. }
  split_and!.
  - intros id' w. rewrite Ha. destruct (decide (id = id')) as [<-|Hne]; [rewrite lookup_insert_eq; by intros [= <-]|].
    rewrite lookup_insert_ne by done. intros Hl. destruct (Hw id' w Hl) as [? Hph]. split; [done|]. eapply phase_ok_same; [|exact Hph]. by apply Hs.
  - intros j t Hj. apply Hsome. destruct (Hts j t Hj); [by right|left; by eapply Ht].
  - intros r Hin. apply Hsome. destruct (Hrs r Hin); [by right|left; by apply Hr].
Qed.

Lemma history_none id m : (forall r, r ∈ workflow_history m -> r_workflow_id r <> id) -> get_workflow_history id m = [].
Proof.
  unfold get_workflow_history. intros Hn. induction (workflow_history m) as [|r rs IH]; [done|]. cbn. rewrite bool_decide_false; [|apply Hn; by constructor].
  apply IH. intros r' Hr'. apply Hn. by constructor.
Qed.

Lemma workflow_history_snoc id m r :
  (List.filter (fun r => bool_decide (r_workflow_id r = id)) (workflow_history m ++ [r])) =
  get_workflow_history id m ++ (if bool_decide (r_workflow_id r = id) then [r] else []).
Proof. rewrite List.filter_app. cbn. by destruct (bool_decide _). Qed.

Lemma once_create m e incident template parameters sev :
  once m -> active_workflows m !! created_id e incident = None -> once (ir_step cfg m (OpCreate e incident template parameters sev)).
Proof.
  intros Ho Hf. pose proof Ho as (Hw & Ht & Hr). cbn [ir_step].
  destruct (create_tables e incident template parameters sev m) as (Hh & Hts & [Ha|(t & Htpl & Ha)]); set (m' := (create_insert _ _ _ _ _ _ _).1) in *.
  - split_and!; rewrite ?Ha, ?Hts, ?Hh; try done. intros id w Hl. destruct (Hw id w Hl) as [? Hp]. split; [done|].
    eapply phase_ok_same; [by apply same_for_refl|done].
  - eapply once_change; try done; [|intros; by apply same_for_refl|rewrite Hts; by right|rewrite Hh; by right].
    assert (idle m' (created_id e incident) /\ get_workflow_history (created_id e incident) m' = []) as Hidle.
    { split; [|apply history_none; rewrite Hh; intros r Hin Heq; specialize (Hr r Hin); rewrite Heq, Hf in Hr; by destruct Hr].
      unfold idle. rewrite Hts. intros j t' Hj Heq. specialize (Ht j t' Hj). rewrite Heq, Hf in Ht. by destruct Ht. }
    unfold phase_ok. cbn. by destruct (tpl_approval_required t || _).
Qed.

Lemma once_approve m e id who : once m -> once (ir_step cfg m (OpApprove e id who)).
Proof.
  intros Ho. pose proof Ho as (Hw & Ht & Hr). cbn [ir_step].
  destruct (approve_tables e id who m) as (Hh & Hts & [Ha|(w & Hl & Hst & Ha)]); set (m' := (approve_mark _ _ _ _).1) in *.
  - split_and!; rewrite ?Ha, ?Hts, ?Hh; try done. intros id' w Hl. destruct (Hw id' w Hl) as [? Hp]. split; [done|].
    eapply phase_ok_same; [by apply same_for_refl|done].
  - destruct (Hw id w Hl) as [Hid Hp]. eapply once_change; try done; [|intros; by apply same_for_refl|rewrite Hts; by right|rewrite Hh; by right].
    eapply (phase_ok_same _ _ m); [by apply same_for_refl|]. unfold phase_ok in *. by rewrite Hst in Hp.
Qed.

Lemma once_start m e id : once m -> once (ir_step cfg m (OpStart e id)).
Proof.
  intros Ho. pose proof Ho as (Hw & Ht & Hr). cbn [ir_step].
  destruct (start_tables e id m) as [->|(w & Hl & Hst & Hh & Ha & Hts)]; [done|]. set (m' := (start_workflow _ _ _).1) in *.
  destruct (Hw id w Hl) as [Hid Hp]. unfold phase_ok in Hp. rewrite Hst in Hp. destruct Hp as [Hidle Hnone].
  eapply once_change; try done.
  - exists (length (tasks m)), (mkTask (started (instant e) (instant' e) w) (T_Act 0)). unfold runs_at. split_and!; try done.
    + rewrite Hts. by apply list_lookup_middle.
    + intros j t'. rewrite Hts. intros [Hj|[Hge Hj]]%lookup_app_Some Heq; [by destruct (Hidle j t' Hj)|].
      apply list_lookup_singleton_Some in Hj as [? _]. lia.
    + cbn. unfold get_workflow_history in *. rewrite Hh, Hnone. split; [lia|]. by split.
  - intros id' Hne. split; [|unfold get_workflow_history; by rewrite Hh]. intros j t Heq. rewrite Hts. split; [intros; by apply lookup_app_l_Some|].
    intros [Hj|[Hge Hj]]%lookup_app_Some; [done|]. apply list_lookup_singleton_Some in Hj as [_ <-]. cbn in Heq. congruence.
  - rewrite Hts. intros j t [Hj|[_ Hj]]%lookup_app_Some; [by right|left]. by apply list_lookup_singleton_Some in Hj as [_ <-].
  - rewrite Hh. by right.
Qed.

Lemma done_upto_snoc h r : done_upto (action_index r) h -> success r = true -> done_upto (S (action_index r)) (h ++ [r]).
Proof.
  intros [Hi Hs] Hr. split; [|apply Forall_app; by repeat constructor]. rewrite fmap_app, Hi. cbn [fmap list_fmap]. by rewrite seq_S.
Qed.

(** Task [i], of a workflow in progress, moves to another point. *)
Lemma once_move m m' i t p id w w' :
  once m -> active_workflows m !! id = Some w -> wf_status w = InProgress -> runs_at m id i t ->
  tasks m' = <[i := mkTask (t_workflow t) p]> (tasks m) -> active_workflows m' = <[id := w']> (active_workflows m) -> wf_id w' = id ->
  (workflow_history m' = workflow_history m \/ exists r, r_workflow_id r = id /\ workflow_history m' = workflow_history m ++ [r]) ->
  (runs_at m' id i (mkTask (t_workflow t) p) -> phase_ok m' id w') ->
  once m'.
Proof.
  intros Ho Hl Hst (Hi & Hid & Hu) Hts Ha Hw' Hh Hp.
  assert (forall j t', tasks m' !! j = Some t' -> j = i /\ t' = mkTask (t_workflow t) p \/ j <> i /\ tasks m !! j = Some t') as Hlook.
  { intros j t'. rewrite Hts. destruct (decide (i = j)) as [<-|Hne]; [|rewrite list_lookup_insert_ne by done; auto].
    rewrite list_lookup_insert_eq by (by eapply lookup_lt_Some). intros [= <-]. auto. }
  eapply once_change; try done.
  - apply Hp. split_and!; [rewrite Hts; apply list_lookup_insert_eq; by eapply lookup_lt_Some|done|].
    intros j t' [[-> _]|[_ Hj]]%Hlook Heq; [done|by eapply Hu].
  - intros id' Hne. split.
    + intros j t' Heq. split; [|intros [[_ ->]|[_ Hj]]%Hlook; [cbn in Heq; congruence|done]].
      intros Hj. rewrite Hts, list_lookup_insert_ne; [done|]. intros <-. rewrite Hi in Hj. injection Hj as <-. congruence.
    + unfold get_workflow_history. destruct Hh as [->|(r & Hr & ->)]; [done|]. rewrite workflow_history_snoc. rewrite bool_decide_false by congruence. by rewrite app_nil_r.
  - intros j t' [[_ ->]|[_ Hj]]%Hlook; [by left|by right].
  - destruct Hh as [->|(r & Hr & ->)]; [by right|]. intros r' [Hin|Hin]%elem_of_app; [by right|left]. by apply list_elem_of_singleton in Hin as ->.
Qed.

Lemma once_task m e i : once m -> te_audit e = Appended -> once (ir_step cfg m (OpTask e i)).
Proof.
  intros Ho Hap. pose proof Ho as (Hw & Ht & Hr). cbn [ir_step]. destruct (tasks m !! i) as [t|] eqn:Hi; [|done].
  destruct (Ht i t Hi) as [w Hl]. set (id := wf_id (t_workflow t)) in *. destruct (Hw id w Hl) as [Hid Hp]. unfold phase_ok in Hp.
  destruct (wf_status w) eqn:Hst; [destruct Hp as [Hp _]; by destruct (Hp i t Hi)| |destruct Hp as [Hp _]; by destruct (Hp i t Hi)| |done].
  2:{ destruct Hp as (i' & t' & (Hi' & _ & Hu) & Hd & _). specialize (Hu i t Hi eq_refl) as <-. rewrite Hi in Hi'. injection Hi' as <-.
      unfold task_step. rewrite Hd, list_insert_id by done. by destruct m. }
  destruct Hp as (i' & t' & Hrun & Hacts & Hprog). pose proof Hrun as (Hi' & _ & Hu). specialize (Hu i t Hi eq_refl) as <-.
  rewrite Hi in Hi'. injection Hi' as <-. unfold task_step. destruct (t_point t) as [k| |r| |] eqn:Hpt; try done.
  - destruct Hprog as [Hk Hd]. destruct (wf_actions (t_workflow t) !! k) as [a|] eqn:Hak; cbn [fst snd].
    + pose proof (execute_tables (te_now_ns e) (te_audit e) a m) as (Ha & Hh & Htk). pose proof (execute_result (te_now_ns e) (te_audit e) a m) as Hres.
      rewrite Hap in *. destruct (execute_action _ _ _ _) as [m1 o]. cbn [fst snd] in *. subst o. cbn.
      eapply (once_move m _ i t _ id w w); try done; cbn; [by rewrite Htk|by rewrite Ha, insert_id|by left|].
      intros Hrun'. unfold phase_ok. rewrite Hst. eexists i, _. split_and!; [exact Hrun'|done|]. apply lookup_lt_Some in Hak. rewrite Hacts in Hak.
      cbn. unfold get_workflow_history in *. cbn. rewrite Hh. by split_and!.
    + eapply (once_move m _ i t _ id w w); try done; cbn; [by rewrite insert_id|by left|].
      intros Hrun'. unfold phase_ok. rewrite Hst. eexists i, _. split_and!; [exact Hrun'|done|]. apply lookup_ge_None in Hak. rewrite Hacts in Hak.
      cbn. by replace (length (wf_actions w)) with k by lia.
  - destruct Hprog as (Hrid & Hs & Hlt & Hd). cbn [fst snd]. rewrite Hs.
    eapply (once_move m _ i t _ id w w); try done; cbn; [by rewrite insert_id|right; by exists r|].
    intros Hrun'. unfold phase_ok. rewrite Hst. eexists i, _. split_and!; [exact Hrun'|done|]. cbn. split; [lia|].
    unfold get_workflow_history. cbn. rewrite workflow_history_snoc, bool_decide_true by done. by apply done_upto_snoc.
  - cbn [fst snd]. unfold update_workflow. fold id. rewrite Hl.
    eapply (once_move m _ i t _ id w (resolved (te_instant e) (te_instant' e) w)); try done; cbn; [by left|].
    intros Hrun'. unfold phase_ok. cbn. eexists i, _. by split_and!.
Qed.

(** The audit log takes what the actions write to it. *)
Definition action_succeeds (op : IrOp) : Prop := match op with OpTask e _ => te_audit e = Appended | _ => True end.

Lemma once_run ops : Forall action_succeeds ops -> fresh_run ops manager_new -> once (ir_run cfg ops manager_new).
Proof.
  apply (fresh_run_keeps (fun _ => once)); [split_and!; cbn; intros *; by rewrite ?lookup_empty, ?elem_of_nil|].
  intros _ m [e incident template parameters sev|e id who|e id|e i] Ho Hok Hf;
    [by apply once_create|by apply once_approve|by apply once_start|by apply once_task].
Qed.

(** Claim C20: while no action fails, each workflow is executed at most once and in
    order, however the callers and the tasks interleave: the results stored for
    it are successes of its first actions, each once; there are none before it
    was started, and all of them when it is resolved; and it has one task at
    most. *)
Theorem workflow_runs_once (ops : list IrOp) (id : string) (w : IncidentWorkflow) :
  let m := ir_run cfg ops manager_new in
  Forall action_succeeds ops -> fresh_run ops manager_new -> active_workflows m !! id = Some w ->
  exists n, (n <= length (wf_actions w))%nat /\ done_upto n (get_workflow_history id m) /\
    (wf_status w = New \/ wf_status w = PendingApproval -> n = O) /\
    (wf_status w = Resolved -> n = length (wf_actions w)) /\
    forall i j t t', tasks m !! i = Some t -> tasks m !! j = Some t' -> wf_id (t_workflow t) = id -> wf_id (t_workflow t') = id -> i = j.
Proof.
  intros m Hops Hf Hl. destruct (once_run ops Hops Hf) as (Hw & _ & _). destruct (Hw id w Hl) as [_ Hp]. unfold phase_ok in Hp. fold m in Hp.
  destruct (wf_status w) eqn:Hst; try done.
  1,3: destruct Hp as [Hidle Hnone]; exists O; rewrite Hnone; split_and!; try done; [lia|intros i j t t' Hi _ Hid; by destruct (Hidle i t Hi)].
  - destruct Hp as (i & t & (Hi & Hid & Hu) & _ & Hpr).
    assert (exists n, (n <= length (wf_actions w))%nat /\ done_upto n (get_workflow_history id m)) as (n & Hn & Hd).
    { destruct (t_point t); try done; [by eexists|destruct Hpr as (_ & _ & ? & ?); eexists; split; [|done]; lia|by eexists]. }
    exists n. split_and!; try done; [by intros []|]. intros a b ta tb Ha Hb Hia Hib. by rewrite (Hu a ta), (Hu b tb).
  - destruct Hp as (i & t & (Hi & Hid & Hu) & _ & Hd). exists (length (wf_actions w)). split_and!; try done; [by intros []|].
    intros a b ta tb Ha Hb Hia Hib. by rewrite (Hu a ta), (Hu b tb).
Qed.

(** *** An execution *)

(** The results of the actions from [k] on: all succeeded, or all before the last. *)
Definition results_from (w : IncidentWorkflow) (k : nat) (rs : list WorkflowResult) : Prop :=
  action_index <$> rs = seq k (length rs) /\ Forall (fun r => r_workflow_id r = wf_id w) rs /\
  (Forall (fun r => success r = true) rs /\ (k + length rs = length (wf_actions w))%nat \/
   exists rs0 r, rs = rs0 ++ [r] /\ Forall (fun r => success r = true) rs0 /\ success r = false).

Lemma execute_done n env w m : execute_workflow n env (mkTask w T_Done) m = (mkTask w T_Done, m).
Proof. revert env. induction n as [|n IH]; intros env; [done|]. cbn [execute_workflow task_step t_point]. apply IH. Qed.

(** What an execution that started with the results [h] leaves behind. *)
Definition finished (w : IncidentWorkflow) (k : nat) (h : list WorkflowResult) (x : Task * Manager) : Prop :=
  t_point x.1 = T_Done /\
  (exists w', active_workflows x.2 !! wf_id w = Some w' /\ wf_status w' = Resolved) /\
  exists rs, workflow_history x.2 = h ++ rs /\ results_from w k rs.

Lemma execute_complete n env w m :
  is_Some (active_workflows m !! wf_id w) ->
  exists m', execute_workflow (S n) env (mkTask w T_Complete) m = (mkTask w T_Done, m') /\
    (exists w', active_workflows m' !! wf_id w = Some w' /\ wf_status w' = Resolved) /\ workflow_history m' = workflow_history m.
Proof.
  intros [w0 Hw]. cbn [execute_workflow task_step t_point t_workflow]. unfold update_workflow. rewrite Hw, execute_done. eexists. split; [done|]. cbn.
  split; [|done]. eexists. split; [apply lookup_insert_eq|done].
Qed.

Lemma results_from_cons w r rs :
  r_workflow_id r = wf_id w -> success r = true -> results_from w (S (action_index r)) rs -> results_from w (action_index r) (r :: rs).
Proof.
  intros Hid Hs (Hi & Hids & Hrs). split_and!; [cbn; by rewrite Hi|by constructor|]. destruct Hrs as [[Hall Hlen]|(rs0 & r0 & -> & Hall & Hf)].
  - left. split; [by constructor|]. cbn. lia.
  - right. exists (r :: rs0), r0. split_and!; [done|by constructor|done].
Qed.

Lemma execute_S n env t m :
  execute_workflow (S n) env t m = execute_workflow n (fun i => env (S i)) (task_step (env O) t m).1 (task_step (env O) t m).2.
Proof. cbn [execute_workflow]. by destruct (task_step _ _ _). Qed.

Lemma execution_failed w k err start n env m :
  is_Some (active_workflows m !! wf_id w) ->
  finished w k (workflow_history m) (execute_workflow (S (S (S n))) env (mkTask w (T_Failed k start err)) m).
Proof.
  intros [w0 Hw]. rewrite execute_S. cbn [task_step t_point t_workflow fst snd]. unfold update_workflow. rewrite Hw, execute_S.
  cbn [task_step t_point t_workflow fst snd success set_workflow active_workflows workflow_history audit_log tasks].
  match goal with |- context [execute_workflow (S n) ?en _ ?mm] => destruct (execute_complete n en w mm) as (m' & Hx & Hres & Hh) end.
  { cbn. rewrite lookup_insert_eq. by eexists. }
  rewrite Hx. split_and!; [done|done|]. cbn in Hh. eexists. split; [exact Hh|]. split_and!; [done|by repeat constructor|]. right. eexists [], _. by split_and!.
Qed.

Lemma execution_from w :
  forall left k n env m, (length (wf_actions w) - k = left)%nat -> (k <= length (wf_actions w))%nat -> (2 * left + 4 <= n)%nat ->
  is_Some (active_workflows m !! wf_id w) -> finished w k (workflow_history m) (execute_workflow n env (mkTask w (T_Act k)) m).
Proof.
  induction left as [|left IH]; intros k n env m Hleft Hk Hn Hsome; destruct n as [|[|[|[|n]]]]; try lia; rewrite execute_S;
    cbn [task_step t_point t_workflow].
  - rewrite (proj2 (lookup_ge_None _ _)) by lia. cbn [fst snd]. destruct (execute_complete (S (S n)) (fun i => env (S i)) w m Hsome) as (m' & -> & Hres & Hh).
    split_and!; [done|done|]. exists []. split; [by rewrite app_nil_r|]. split_and!; [done|done|]. left. split; [done|]. cbn. lia.
  - destruct (lookup_lt_is_Some_2 (wf_actions w) k) as [a Ha]; [lia|]. rewrite Ha.
    pose proof (execute_tables (te_now_ns (env O)) (te_audit (env O)) a m) as (Hact & Hh & _).
    pose proof (execute_result (te_now_ns (env O)) (te_audit (env O)) a m) as Hres.
    destruct (execute_action _ _ _ _) as [m1 o]. cbn [fst snd] in *. subst o. rewrite <- Hact in Hsome. rewrite <- Hh.
    destruct (te_audit (env O)); cbn [fst snd]; [|by apply execution_failed..].
    rewrite execute_S. cbn [task_step t_point t_workflow fst snd success action_index].
    match goal with |- context [execute_workflow _ ?en _ ?mm] => destruct (IH (S k) (S (S n)) en mm) as (Hd & Hw' & rs & Hrs & Hfrom) end; [lia..|done|].
    split_and!; [done|done|]. eexists (_ :: rs). rewrite Hrs. cbn [workflow_history]. rewrite <- app_assoc. split; [done|].
    by apply (results_from_cons w (mkResult (wf_id w) k true _ _ _)).
Qed.

(** The task of a workflow ends, within two steps for each action and
    four more: it executes the actions in order up to the first that fails,
    stores one result for each, and leaves the workflow resolved.  A failure
    makes no difference to that, although the code means to reset the status
    for another try. *)
Theorem execution_finishes (w : IncidentWorkflow) (env : nat -> TaskEnv) (m : Manager) (n : nat) :
  is_Some (active_workflows m !! wf_id w) -> (2 * length (wf_actions w) + 4 <= n)%nat ->
  finished w 0 (workflow_history m) (execute_workflow n env (mkTask w (T_Act 0)) m).
Proof. intros Hs Hn. apply (execution_from w (length (wf_actions w))); [lia..|done]. Qed.

(** A workflow that failed can neither be started nor be approved again. *)
Theorem failed_workflow_not_retried (w : IncidentWorkflow) (env : nat -> TaskEnv) (m : Manager) (n : nat) (e : Env) (who : string) :
  is_Some (active_workflows m !! wf_id w) -> (2 * length (wf_actions w) + 4 <= n)%nat ->
  let m' := (execute_workflow n env (mkTask w (T_Act 0)) m).2 in
  (start_workflow e (wf_id w) m').2 = Err "Workflow cannot be started in current status: Resolved"%string /\
  (approve_workflow e e (wf_id w) who m').2 = Err "Workflow is not pending approval"%string.
Proof.
  intros Hs Hn m'. destruct (execution_from w (length (wf_actions w)) 0 n env m) as (_ & (w' & Hl & Hst) & _); [lia..|done|].
  unfold approve_workflow, approve_mark, start_workflow. fold m' in Hl. rewrite Hl, Hst. done.
Qed.

(** *** Statistics *)

Lemma count_names_lookup names n :
  default 0 (count_names names !! n) = Z.of_nat (length (List.filter (fun x => bool_decide (x = n)) names)).
Proof.
  induction names as [|x names IH] using rev_ind; [done|]. unfold count_names in *. rewrite foldl_app, List.filter_app, length_app. cbn [foldl List.filter].
  case_bool_decide as Hx.
  - subst x. rewrite lookup_insert_eq. cbn [length from_option id default]. lia.
  - rewrite lookup_insert_ne by done. cbn [length]. lia.
Qed.

Lemma filter_fmap_length {A B} (f : A -> B) (p : B -> bool) l : length (List.filter p (f <$> l)) = length (List.filter (fun x => p (f x)) l).
Proof. induction l as [|x l IH]; [done|]. cbn. destruct (p (f x)); cbn; by rewrite IH. Qed.

Definition has_status (s : IncidentStatus) (w : IncidentWorkflow) : bool := bool_decide (wf_status w = s).

(** The statistics count what they say, whatever the order of the hash map. *)
Theorem stats_accurate (m : Manager) (s : IncidentStatus) :
  let st := get_incident_response_stats cfg m in
  default 0 (st_by_status st !! status_name s) = Z.of_nat (size (filter (fun kw => has_status s kw.2 = true) (active_workflows m))) /\
  st_total st = st_successful st + st_failed st.
Proof.
  cbn zeta. split; cbn [st_by_status st_total st_successful st_failed get_incident_response_stats].
  - rewrite count_names_lookup, filter_fmap_length.
    f_equal. etrans; [|apply (length_filter_hash_vals (has_status s) (active_workflows m))].
    induction (hash_vals (active_workflows m)) as [|w l IH]; [done|]. cbn [List.filter]. rewrite filter_cons.
    assert (bool_decide (status_name (wf_status w) = status_name s) = has_status s w) as ->
      by (apply bool_decide_ext; split; [by destruct (wf_status w), s|by intros ->]).
    destruct (has_status s w); [rewrite decide_True by done|rewrite decide_False by done]; cbn; by rewrite IH.
  - induction (workflow_history m) as [|r l IH]; [done|]. cbn [List.filter length]. destruct (success r); cbn [negb length]; lia.
Qed.

End Runs.

(** ** Running the model *)

Section Demo.

#[local] Instance debug_plain : DebugMap := fun _ => "{}"%string.
#[local] Existing Instance trie_order.

Definition env_at (n : Z) (id : string) : Env := mkEnv n n n Appended id.
Definition task_at (n : Z) : TaskEnv := mkTaskEnv n n 1 n Appended.
Definition task_fails (n : Z) : TaskEnv := mkTaskEnv n n 1 n (AppendFailed "disk full").
Definition steps (k i : nat) : list IrOp := (fun n => OpTask (task_at (Z.of_nat n)) i) <$> seq 0 k.

Definition isolate (id : string) : IrOp :=
  OpCreate (env_at 1 id) "i1" "device_compromise_detected" {["device_id" := "r1"]}%string High.
Definition block (id : string) : IrOp := OpCreate (env_at 1 id) "i1" "malicious_ip_detected" {["ip" := "1.2.3.4"]}%string High.

(** A device is isolated: approved, started, executed to the end. *)
Definition isolate_ops : list IrOp :=
  [isolate "u"; OpApprove (env_at 2 "") "workflow-i1-u" "alice"; OpStart (env_at 3 "") "workflow-i1-u"] ++ steps 10 0.

Lemma actions_need_approval_witness : approved_in isolate_ops "workflow-i1-u".
Proof.
  refine (actions_need_approval ir_config_default isolate_ops "workflow-i1-u" _ _ (eq_refl (Some _)) _ _).
  - vm_compute. tauto.
  - vm_compute. reflexivity.
  - right. vm_compute. discriminate.
Defined.

Lemma workflow_runs_once_witness :
  exists n, (n <= 4)%nat /\ action_index <$> get_workflow_history "workflow-i1-u" (ir_run ir_config_default isolate_ops manager_new) = seq 0 n.
Proof.
  pose proof (workflow_runs_once ir_config_default isolate_ops "workflow-i1-u") as Hp. cbn zeta in Hp.
  assert (exists w, active_workflows (ir_run ir_config_default isolate_ops manager_new) !! "workflow-i1-u"%string = Some w /\ length (wf_actions w) = 4%nat)
    as (w & Hw & Hl) by (vm_compute; eexists; split; reflexivity).
  destruct (Hp w) as (n & Hn & [Hd _] & _).
  - vm_compute. repeat constructor.
  - vm_compute. tauto.
  - exact Hw.
  - exists n. rewrite Hl in Hn. by split.
Defined.

Definition started_block : Manager := ir_run ir_config_default [block "u"; OpStart (env_at 3 "") "workflow-i1-u"] manager_new.

(** The second of the four actions fails. *)
Definition second_fails (n : nat) : TaskEnv := if bool_decide (n = 2)%nat then task_fails 5 else task_at 4.

Lemma execution_finishes_witness :
  exists t, tasks started_block !! 0%nat = Some t /\
    finished (t_workflow t) 0 [] (execute_workflow 12 second_fails (mkTask (t_workflow t) (T_Act 0)) started_block).
Proof.
  eexists. split; [vm_compute; reflexivity|]. apply (execution_finishes _ second_fails started_block 12).
  - vm_compute. by eexists.
  - vm_compute. lia.
Defined.

(** The failure is stored, the workflow is resolved all the same. *)
Example failure_is_resolved :
  let m := ir_run ir_config_default ([block "u"; OpStart (env_at 3 "") "workflow-i1-u"; OpTask (task_fails 4) 0] ++ steps 3 0) manager_new in
  (fun w => (wf_status w, error_message w)) <$> active_workflows m !! "workflow-i1-u"%string = Some (Resolved, Some "disk full"%string) /\
  success <$> workflow_history m = [false].
Proof. vm_compute. split; reflexivity. Qed.

(** Between the reset of the status and the end of the task the workflow can be
    started again: two tasks execute it. *)
Example retry_race_runs_twice :
  let ops := [block "u"; OpStart (env_at 3 "") "workflow-i1-u"; OpTask (task_at 4) 0; OpTask (task_at 4) 0; OpTask (task_fails 4) 0;
              OpTask (task_at 5) 0; OpStart (env_at 6 "") "workflow-i1-u"] ++ steps 2 0 ++ steps 10 1 in
  let m := ir_run ir_config_default ops manager_new in
  (fun r => (action_index r, success r)) <$> get_workflow_history "workflow-i1-u" m =
    [(0%nat, true); (1%nat, false); (0%nat, true); (1%nat, true); (2%nat, true); (3%nat, true)] /\
  length (tasks m) = 2%nat.
Proof. vm_compute. split; reflexivity. Qed.

(** Any number of workflows run at a time; five is the configured maximum. *)
Example concurrency_not_limited :
  let ids := ["a"; "b"; "c"; "d"; "e"; "f"; "g"]%string in
  let m := ir_run ir_config_default (ids ≫= fun i => [block i; OpStart (env_at 3 "") ("workflow-i1-" ++ i)%string]) manager_new in
  size (base.filter (fun kw => has_status InProgress kw.2 = true) (active_workflows m)) = 7%nat /\ max_concurrent_workflows ir_config_default = 5.
Proof. vm_compute. split; reflexivity. Qed.

(** The call that could not write to the audit log reports an error, and the
    workflow is there. *)
Example failed_create_inserts :
  let r := create_insert ir_config_default (mkEnv 1 1 1 (AppendFailed "disk full") "u") "i1" "malicious_ip_detected" ∅ Low manager_new in
  r.2 = Err "disk full"%string /\ wf_status <$> active_workflows r.1 !! "workflow-i1-u"%string = Some New.
Proof. vm_compute. split; reflexivity. Qed.

(** All texts of the templates are covered by [substitution_simultaneous]. *)
Definition blocked_text : list Piece := [Lit "Malicious IP "; Hole "ip"; Lit " has been automatically blocked"].

Lemma substitution_simultaneous_witness :
  let parameters := {["ip" := "1.2.3.4"]}%string in
  render blocked_text = "Malicious IP ${ip} has been automatically blocked"%string /\
  substitute_string (render blocked_text) parameters = render (fill parameters <$> blocked_text) /\
  render (fill parameters <$> blocked_text) = "Malicious IP 1.2.3.4 has been automatically blocked"%string.
Proof.
  split; [vm_compute; reflexivity|]. split; [|vm_compute; reflexivity]. apply substitution_simultaneous.
  - repeat (constructor; try (vm_compute; tauto)).
  - apply map_Forall_singleton. vm_compute. tauto.
Defined.

Definition reverse_order : HashOrder.
Proof. refine {| hash_keys K V _ _ m := rev (map_to_list m).*1 |}. intros. symmetry. apply Permutation_rev. Defined.

(** A value that looks like a placeholder is substituted again, or not, as the
    hash map has it. *)
Example substitution_depends_on_order :
  let parameters := <["a" := "${b}"]> {["b" := "x"]}%string in
  @substitute_string trie_order "${a}" parameters <> @substitute_string reverse_order "${a}" parameters.
Proof. vm_compute. discriminate. Qed.

End Demo.
