(* ===== verification/Float64.v ===== *)
(** * Double precision numbers

    The operations of [f64] the code uses, on the standard library's executable
    specification of IEEE 754: 53 bits of mantissa, exponents below 1024. *)

From Stdlib Require Import ZArith SpecFloat.
From stdpp Require Import base list.

Definition f64 : Type := spec_float.

#[global] Instance spec_float_eq_dec : EqDecision spec_float.
Proof. solve_decision. Defined.

Definition f64_add (a b : f64) : f64 := SFadd 53 1024 a b.

Definition f64_div (a b : f64) : f64 := SFdiv 53 1024 a b.

(** [v as f64] of an integer: the nearest number, ties to even. *)
Definition f64_of_Z (v : Z) : f64 := binary_normalize 53 1024 v 0 false.

(** Comparisons with a value that is not a number are false. *)
Definition f64_lt (a b : f64) : bool := SFltb a b.
Definition f64_le (a b : f64) : bool := SFleb a b.

Definition f64_is_nan (a : f64) : bool := match a with S754_nan => true | _ => false end.
Definition f64_is_finite (a : f64) : bool := match a with S754_nan | S754_infinity _ => false | _ => true end.

(** [a.max(b)] and [a.min(b)]: the other argument if one is not a number.  Which of
    two zeros is returned is left open by the language; here it is the first. *)
Definition f64_max (a b : f64) : f64 := if f64_is_nan a then b else if f64_lt a b then b else a.
Definition f64_min (a b : f64) : f64 := if f64_is_nan a then b else if f64_lt b a then b else a.

Definition f64_zero : f64 := S754_zero false.

(** [iter.sum()], from the left. *)
Definition f64_sum (l : list f64) : f64 := foldl f64_add (S754_zero true) l.

(** [0.005], [1.0], [20.0] and [40.0] *)
Definition f64_5em3 : f64 := S754_finite false 5764607523034235 (-60).
Definition f64_one : f64 := S754_finite false 4503599627370496 (-52).
Definition f64_20 : f64 := S754_finite false 5629499534213120 (-48).
Definition f64_40 : f64 := S754_finite false 5629499534213120 (-47).

Lemma f64_lt_irrefl a : f64_lt a a = false.
Proof.
  unfold f64_lt, SFltb. destruct a as [s|s| |s m e]; cbn; try done; [by destruct s|]. unfold SFcompare.
  rewrite Z.compare_refl. destruct s; by rewrite Pos.compare_cont_refl.
Qed.

(** An amount that was clamped at zero is not negative. *)
Lemma f64_max_zero_not_negative a : f64_lt (f64_max a f64_zero) f64_zero = false.
Proof. unfold f64_max. destruct (f64_is_nan a); [done|]. by destruct (f64_lt a f64_zero) eqn:Ha. Qed.
