(* ===== verification/Investigation.v ===== *)
(** * AI investigations ([src/investigation_runtime.rs])

    An investigation asks a language model, executes the tool calls it answers
    with, and asks again, within a budget.  The budget is a ledger in the store,
    which all running investigations share: an amount is reserved before a
    question and committed or released after it, each under a lock.  An
    investigation is a machine that stops at each [await]; a run interleaves any
    number of them.  The model, the tools and the store are arguments, the
    readers and printers of the crates are interfaces. *)

From Stdlib Require Import ZArith Lia ZifyBool String Ascii.
From stdpp Require Import base numbers list option strings gmap fin_maps.
From S2P Require Import Prelude RustStd HashMaps Jsonl Text Telemetry Debounce Float64.

Local Open Scope Z_scope.

Definition MAX_ITERATIONS : nat := 15.

(** ** Data *)

Inductive InvestigationTerminalState := Completed | Partial | BudgetExhausted | Failed | Cancelled | AwaitingHuman.

#[global] Instance terminal_state_eq_dec : EqDecision InvestigationTerminalState.
Proof. solve_decision. Defined.

Definition as_str (s : InvestigationTerminalState) : string :=
  match s with
  | Completed => "completed" | Partial => "partial" | BudgetExhausted => "budget_exhausted" | Failed => "failed"
  | Cancelled => "cancelled" | AwaitingHuman => "awaiting_human"
  end.

Inductive LoopExitReason :=
  | ModelEndTurn
  | IterationLimitReached (max_iterations : nat)
  | RepeatedToolCallDetected (tool_name : string)
  | PerInvestigationBudgetExceeded (cost budget : f64)
  | DailyBudgetExceeded (spent daily_budget : f64)
  | DailyBudgetCheckFailed (error : string)
  | ProviderUnavailable (error : string)
  | ProviderCallFailed (error : string) (iteration : nat)
  | LoopCancelled (reason : string).

Record TypedInvestigationRca := mkRca {
  root_cause_type : string;
  confidence : f64;
  confidence_is_uncalibrated : bool;
  epistemic_state : string;
  affected_scope : list string;
  recommended_action : string;
  missing_data : list string;
  supporting_evidence_ids : list string;
  counterevidence_ids : list string;
  next_check : option string;
}.

Record InvestigationOutcome := mkOutcome {
  o_state : InvestigationTerminalState;
  stop_reason : string;
  summary : string;
  proposal_json : string;
  validated_rca : option TypedInvestigationRca;
}.

Record AiToolCall := mkToolCall { tc_id : string; tc_name : string; tc_arguments : JsonValue }.

(** [raw_parts] is copied from an answer to the next question and not read. *)
Record AiMessage := mkMessage {
  role : string;
  content : option string;
  tool_calls : list AiToolCall;
  tool_call_id : option string;
}.

Record AiResponse := mkResponse {
  resp_content : option string;
  resp_tool_calls : list AiToolCall;
  resp_stop_reason : string;
  tokens_used : Z;
  cost_usd : f64;
}.

Definition tool_result (id text : string) : AiMessage := mkMessage "tool" (Some text) [] (Some id).

(** ** Interfaces *)

(** [serde_json] on root causes, and the formats of the standard library whose
    text is left open: [{:.n}] and [{}] of a float, [{:?}] of a string. *)
Class RcaText := {
  rca_from_str : string -> string + TypedInvestigationRca;
  rca_to_string : TypedInvestigationRca -> string;
  fmt_fixed : nat -> f64 -> string;
  fmt_float : f64 -> string;
  fmt_debug_str : string -> string;
}.

(** ** Root causes *)

(** [s.find(pat)]: the text before and after the first match. *)
Fixpoint find_text (pat s : string) : option (string * string) :=
  match strip_prefix pat s with
  | Some rest => Some (EmptyString, rest)
  | None => match s with EmptyString => None | String c s' => prod_map (String c) id <$> find_text pat s' end
  end.

(** The text up to and with the last occurrence of a character. *)
Fixpoint upto_last (c : ascii) (s : string) : option string :=
  match s with
  | EmptyString => None
  | String x s' =>
      match upto_last c s' with
      | Some r => Some (String x r)
      | None => if bool_decide (x = c) then Some (String x EmptyString) else None
      end
  end.

(** What is between a mark and the next fence. *)
Definition fenced (mark s : string) : option string :=
  '(_, after) ← find_text mark s; '(inside, _) ← find_text "```" after; Some (trim_text inside).

Definition extract_json_candidate (summary : string) : option string :=
  match fenced "```json" summary with
  | Some r => Some r
  | None =>
      let plain := match fenced "```" summary with
                   | Some r => if starts_with "{" r && ends_with "}" r then Some r else None
                   | None => None
                   end in
      match plain with
      | Some r => Some r
      | None => '(_, rest) ← find_text "{" summary; r ← upto_last "}" rest; Some (String "{" r)
      end
  end.

Definition VALID_EPISTEMIC_STATES : list string :=
  ["supported"; "plausible"; "contradicted"; "insufficient_evidence"; "awaiting_human"]%string.

(** The questions to the model and the answers it gives cost what [AiConfig] says
    they may. *)
Record AiConfig := mkAiConfig { per_investigation_budget_usd : f64; daily_budget_usd : f64 }.

Section Rca.
Context `{RcaText, Lowercase}.

Definition fmt_debug_list (l : list string) : string := ("[" ++ String.concat ", " (fmt_debug_str <$> l) ++ "]")%string.

Definition parse_and_validate_rca (summary : string) : string + TypedInvestigationRca :=
  match extract_json_candidate summary with
  | None => inl "no JSON block found in summary"%string
  | Some candidate =>
      match rca_from_str candidate with
      | inl e => inl ("invalid RCA JSON structure: " ++ e)%string
      | inr rca =>
          let root := trim_text (root_cause_type rca) in
          if bool_decide (root = EmptyString) then inl "root_cause_type must not be empty"%string
          else if negb (f64_is_finite (confidence rca)) || negb (f64_le f64_zero (confidence rca) && f64_le (confidence rca) f64_one) then
            inl ("confidence must be a finite number in [0.0, 1.0], got " ++ fmt_float (confidence rca))%string
          else
            let action := trim_text (recommended_action rca) in
            if bool_decide (action = EmptyString) then inl "recommended_action must not be empty"%string
            else
              let epistemic := to_lowercase (trim_text (epistemic_state rca)) in
              if bool_decide (epistemic ∈ VALID_EPISTEMIC_STATES) then
                inr (mkRca root (confidence rca) true epistemic (affected_scope rca) action (missing_data rca)
                       (supporting_evidence_ids rca) (counterevidence_ids rca) (next_check rca))
              else inl ("epistemic_state must be one of " ++ fmt_debug_list VALID_EPISTEMIC_STATES ++ ", got " ++ fmt_debug_str epistemic)%string
      end
  end.

Definition extract_rca_json (summary : string) : string :=
  match parse_and_validate_rca summary with inr rca => rca_to_string rca | inl _ => "{}" end.

(** ** The outcome *)

Definition partial_rca (raw : string) : option TypedInvestigationRca := match parse_and_validate_rca raw with inr r => Some r | inl _ => None end.

Definition partial_proposal (raw : string) : string := match partial_rca raw with Some r => rca_to_string r | None => "{}" end.

Definition blank (raw : string) : bool := bool_decide (trim_text raw = EmptyString).

(** ["\n\n"] *)
Definition gap : string := String "010" (String "010" "").

Definition model_end_turn (raw : string) : InvestigationOutcome :=
  match parse_and_validate_rca raw with
  | inr rca =>
      let '(state, reason) :=
        if bool_decide (epistemic_state rca = "awaiting_human"%string) then (AwaitingHuman, "awaiting_human_review"%string)
        else if bool_decide (epistemic_state rca = "insufficient_evidence"%string) || bool_decide (epistemic_state rca = "contradicted"%string)
        then (Partial, ("epistemic_" ++ epistemic_state rca)%string)
        else (Completed, "completed_valid_rca"%string) in
      mkOutcome state reason raw (rca_to_string rca) (Some rca)
  | inl err =>
      mkOutcome Partial "invalid_or_missing_rca_schema"
        (if blank raw then "STOP_REASON=invalid_or_missing_rca_schema: " ++ err
         else raw ++ gap ++ "[Validation Note: Output did not satisfy TypedInvestigationRca schema (" ++ err
              ++ "); marked partial rather than completed.]")%string "{}" None
  end.

Definition resolve_investigation_outcome (exit_reason : LoopExitReason) (raw : string) : InvestigationOutcome :=
  match exit_reason with
  | DailyBudgetExceeded spent daily =>
      mkOutcome BudgetExhausted "daily_budget_exceeded"
        ("STOP_REASON=daily_budget_exceeded: Daily AI budget (" ++ fmt_fixed 4 daily ++ " USD) exceeded; today spent " ++ fmt_fixed 4 spent
           ++ " USD.")%string "{}" None
  | DailyBudgetCheckFailed err =>
      mkOutcome Failed "daily_budget_check_failed"
        ("STOP_REASON=daily_budget_check_failed: Failed to verify daily AI budget (" ++ err ++ "); halting model spend.")%string "{}" None
  | ProviderUnavailable err =>
      mkOutcome Failed "provider_unavailable" ("STOP_REASON=provider_unavailable: AI provider unavailable: " ++ err)%string "{}" None
  | PerInvestigationBudgetExceeded cost budget =>
      mkOutcome BudgetExhausted "investigation_budget_exceeded"
        (if blank raw then "Investigation halted: per-investigation budget (" ++ fmt_fixed 4 budget ++ " USD) exhausted at " ++ fmt_fixed 4 cost ++ " USD."
         else "STOP_REASON=investigation_budget_exceeded (spent " ++ fmt_fixed 4 cost ++ "/" ++ fmt_fixed 4 budget ++ " USD)" ++ gap ++ raw)%string
        (partial_proposal raw) (partial_rca raw)
  | ProviderCallFailed err iteration =>
      let head := ("STOP_REASON=provider_call_failed at iteration " ++ fmt_dec (Z.of_nat iteration) ++ ": " ++ err)%string in
      mkOutcome Failed "provider_call_failed" (if blank raw then head else head ++ gap ++ raw)%string "{}" None
  | IterationLimitReached max =>
      mkOutcome Partial "iteration_limit_reached"
        (if blank raw then "STOP_REASON=iteration_limit_reached: Exhausted " ++ fmt_dec (Z.of_nat max) ++ " iterations without final RCA."
         else "STOP_REASON=iteration_limit_reached (" ++ fmt_dec (Z.of_nat max) ++ " iterations)" ++ gap ++ raw)%string
        (partial_proposal raw) (partial_rca raw)
  | RepeatedToolCallDetected tool =>
      let head := ("STOP_REASON=repeated_tool_call_detected (" ++ tool ++ ")")%string in
      mkOutcome Partial "repeated_tool_call_detected" (if blank raw then head else head ++ gap ++ raw)%string "{}" None
  | LoopCancelled reason => mkOutcome Cancelled "cancelled" ("STOP_REASON=cancelled: " ++ reason)%string "{}" None
  | ModelEndTurn => model_end_turn raw
  end.

End Rca.

(** ** The ledger *)

Record BudgetReservationLedger := mkLedger {
  daily_committed_usd : f64;
  committed_by_investigation : gmap string f64;
  active_reservations : gmap string (string * f64);
}.

Definition ledger_default : BudgetReservationLedger := mkLedger f64_zero ∅ ∅.

Definition ledger_new (initial : f64) : BudgetReservationLedger := mkLedger (f64_max initial f64_zero) ∅ ∅.

Definition investigation_committed_usd (inv : string) (l : BudgetReservationLedger) : f64 :=
  default f64_zero (committed_by_investigation l !! inv).

Section Ledger.
Context `{HashOrder}.

Definition total_reserved_usd (l : BudgetReservationLedger) : f64 := f64_sum (snd <$> hash_vals (active_reservations l)).

Definition investigation_reserved_usd (inv : string) (l : BudgetReservationLedger) : f64 :=
  f64_sum (snd <$> List.filter (fun r => bool_decide (r.1 = inv)) (hash_vals (active_reservations l))).

Definition reserve (rid inv : string) (estimated per_limit daily_limit : f64) (l : BudgetReservationLedger) :
  LoopExitReason + BudgetReservationLedger :=
  let est := f64_max estimated f64_zero in
  let inv_total := f64_add (f64_add (investigation_committed_usd inv l) (investigation_reserved_usd inv l)) est in
  if f64_lt f64_zero per_limit && f64_lt per_limit inv_total then inl (PerInvestigationBudgetExceeded inv_total per_limit)
  else
    let total := f64_add (f64_add (daily_committed_usd l) (total_reserved_usd l)) est in
    if f64_lt f64_zero daily_limit && f64_lt daily_limit total then inl (DailyBudgetExceeded total daily_limit)
    else inr (mkLedger (daily_committed_usd l) (committed_by_investigation l) (<[rid := (inv, est)]> (active_reservations l))).

End Ledger.

Definition commit (rid : string) (actual_usd : f64) (l : BudgetReservationLedger) : BudgetReservationLedger * (string + f64) :=
  match active_reservations l !! rid with
  | None => (l, inl ("unknown reservation_id: " ++ rid)%string)
  | Some (inv, _) =>
      let actual := f64_max actual_usd f64_zero in
      (mkLedger (f64_add (daily_committed_usd l) actual)
         (<[inv := f64_add (investigation_committed_usd inv l) actual]> (committed_by_investigation l)) (delete rid (active_reservations l)), inr actual)
  end.

Definition release (rid : string) (l : BudgetReservationLedger) : BudgetReservationLedger * option f64 :=
  (mkLedger (daily_committed_usd l) (committed_by_investigation l) (delete rid (active_reservations l)), snd <$> active_reservations l !! rid).

(** *** The ledger in the store *)

(** Its text is one item of the configuration.  A ledger whose amounts are finite is
    read back with the same reservations and investigations; the amounts are
    printed in decimal and may come back changed in the last place, and infinite
    ones are printed as [null], which is not read back. *)
Definition storable (l : BudgetReservationLedger) : Prop :=
  f64_is_finite (daily_committed_usd l) = true /\
  map_Forall (fun _ x => f64_is_finite x = true) (committed_by_investigation l) /\
  map_Forall (fun _ x => f64_is_finite x.2 = true) (active_reservations l).

Class LedgerJson := {
  ledger_to_string : BudgetReservationLedger -> string;
  ledger_from_str : string -> option BudgetReservationLedger;
  ledger_reads_back : forall l, storable l ->
    exists l', ledger_from_str (ledger_to_string l) = Some l' /\ fst <$> active_reservations l' = fst <$> active_reservations l;
}.

(** What is recorded by [complete_investigation] and [add_tool_call]. *)
Record Completion := mkCompletion { c_id : string; c_status : string; c_summary : string; c_proposal : string; c_tokens : Z; c_cost : f64 }.
Record ToolRecord := mkToolRecord { tr_id : string; tr_name : string; tr_input : string; tr_output : string }.

Record Store := mkStore {
  ledger_item : option string;
  completions : list Completion;
  tool_records : list ToolRecord;
}.

Definition store_new : Store := mkStore None [] [].

Section Durable.
Context `{HashOrder, LedgerJson}.

(** Whether the item can be listed and written. *)
Record StoreReply := mkReply { lists : bool; writes : bool }.

Definition load_durable_budget_ledger (r : StoreReply) (s : Store) : BudgetReservationLedger :=
  if lists r then default ledger_default (ledger_item s ≫= ledger_from_str) else ledger_default.

Definition save_durable_budget_ledger (r : StoreReply) (l : BudgetReservationLedger) (s : Store) : Store :=
  if writes r then mkStore (Some (ledger_to_string l)) (completions s) (tool_records s) else s.

Definition sync_durable_budget_ledger (r : StoreReply) (db_daily_spent : f64) (s : Store) : Store * BudgetReservationLedger :=
  let l := load_durable_budget_ledger r s in
  if f64_lt (daily_committed_usd l) db_daily_spent then
    let l' := mkLedger db_daily_spent (committed_by_investigation l) (active_reservations l) in
    (save_durable_budget_ledger r l' s, l')
  else (s, l).

Definition reserve_durable_budget (r : StoreReply) (rid inv : string) (estimated per_limit daily_limit : f64) (s : Store) :
  Store * option LoopExitReason :=
  match reserve rid inv estimated per_limit daily_limit (load_durable_budget_ledger r s) with
  | inl e => (s, Some e)
  | inr l => (save_durable_budget_ledger r l s, None)
  end.

Definition commit_durable_budget (r : StoreReply) (rid : string) (actual : f64) (s : Store) : Store * (f64 * f64) :=
  let l := load_durable_budget_ledger r s in
  let inv := default EmptyString (fst <$> active_reservations l !! rid) in
  let l' := (commit rid actual l).1 in
  (save_durable_budget_ledger r l' s, (investigation_committed_usd inv l', daily_committed_usd l')).

Definition release_durable_budget (r : StoreReply) (rid : string) (s : Store) : Store :=
  match release rid (load_durable_budget_ledger r s) with
  | (l', Some _) => save_durable_budget_ledger r l' s
  | (_, None) => s
  end.

End Durable.

(** ** Coverage of the evidence *)

Record WeakDevice := mkWeak { wd_address : string; wd_missing : list string }.

(** Of each dimension only the percentage is read. *)
Record GraphQuality := mkQuality {
  overall_score : f64;
  gnmi_pct : f64;
  syslog_pct : f64;
  bmp_pct : f64;
  interface_counter_pct : f64;
  topology_link_pct : f64;
  netbox_enrichment_pct : f64;
  weak_devices : list WeakDevice;
}.

Section Coverage.
Context `{RcaText}.
Local Open Scope string_scope.

(** The dash of the messages, in UTF-8. *)
Definition dash : string := String "226" (String "128" (String "148" "")).
Definition newline : string := String "010" "".

Definition quality_gaps (q : GraphQuality) (device : string) : list string :=
  (if f64_lt (gnmi_pct q) f64_40 then
     ["gNMI telemetry coverage is low (" ++ fmt_fixed 0 (gnmi_pct q) ++ "%) " ++ dash
        ++ " real-time interface and BGP state may be unavailable for " ++ device ++ "."] else []) ++
  (if f64_lt (syslog_pct q) f64_40 then
     ["Syslog coverage is low (" ++ fmt_fixed 0 (syslog_pct q) ++ "%) " ++ dash ++ " fault events from device logs may be missing."] else []) ++
  (if f64_lt (bmp_pct q) f64_40 then
     ["BMP coverage is low (" ++ fmt_fixed 0 (bmp_pct q) ++ "%) " ++ dash ++ " BGP route-level analysis is limited."] else []) ++
  (if f64_lt (interface_counter_pct q) f64_40 then
     ["Interface counter coverage is low (" ++ fmt_fixed 0 (interface_counter_pct q) ++ "%) " ++ dash
        ++ " traffic utilization and error analysis may be incomplete."] else []) ++
  (if f64_lt (topology_link_pct q) f64_40 then
     ["Topology link coverage is low (" ++ fmt_fixed 0 (topology_link_pct q) ++ "%) " ++ dash
        ++ " blast radius calculation may miss physical paths."] else []) ++
  (if f64_lt (netbox_enrichment_pct q) f64_20 then
     ["NetBox enrichment is absent " ++ dash ++ " site, rack, and role context unavailable."] else []) ++
  (weak_devices q ≫= fun weak => if bool_decide (wd_address weak = device) then
     (fun missing => "Device " ++ device ++ " is missing " ++ missing ++ " signal data.") <$> wd_missing weak else []).

Definition tool_gaps (queried : list string) : list string :=
  let has name := bool_decide (name ∈ queried) in
  (if has "get_device_blast_radius" then [] else ["Blast radius was not checked " ++ dash ++ " nearby device impact is unknown."]) ++
  (if has "query_graph" then []
   else ["No direct graph queries were performed " ++ dash ++ " deeper Cypher analysis may reveal additional context."]) ++
  (if has "check_change_context" then []
   else ["Change management context was not checked " ++ dash ++ " this fault may be correlated with an active change window."]).

Definition compute_coverage_gaps (quality : option GraphQuality) (queried : list string) (device : string) : string :=
  let gaps := (match quality with Some q => quality_gaps q device | None => [] end ++ tool_gaps queried)%list in
  match gaps with
  | [] => ""
  | _ => "---" ++ newline ++ "## Coverage Gaps (auto-generated)" ++ newline
           ++ "The following data gaps may affect investigation accuracy:" ++ newline
           ++ String.concat "" ((fun g => "- " ++ g ++ newline) <$> gaps)
  end.

Definition evaluate_preflight_warning (quality : option GraphQuality) (device : string) : option string :=
  q ← quality;
  let device_missing := weak_devices q ≫= fun w => if bool_decide (wd_address w = device) then wd_missing w else [] in
  match device_missing with
  | _ :: _ => Some ("WARNING: Target device " ++ device ++ " is missing telemetry signals (" ++ String.concat ", " device_missing
                      ++ ") (global graph score " ++ fmt_fixed 0 (overall_score q) ++ "/100). Findings for this device may be incomplete.")
  | [] => if f64_lt (overall_score q) f64_40 then
            Some ("WARNING: Graph data sparse for " ++ device ++ " (global quality score " ++ fmt_fixed 0 (overall_score q)
                    ++ "/100, missing: multiple signal sources). Findings may be incomplete.")
          else None
  end.

End Coverage.

(** ** The run of an investigation *)

(** Where it is: before the check of [run_investigation], before the provider is
    made, before the second check, at the head of the loop, waiting for an answer
    with an amount reserved, with an answer, with an error, before the next of
    the tool calls, after the loop, before an early end, at the end, and stopped
    by a panic. *)
Inductive Point :=
  | I_Gate
  | I_Provider
  | I_Check
  | I_Reserve (iteration : nat)
  | I_Call (iteration : nat)
  | I_Commit (iteration : nat) (resp : AiResponse)
  | I_Release (iteration : nat) (error : string)
  | I_Tools (iteration : nat) (calls : list AiToolCall)
  | I_Finish (reason : LoopExitReason)
  | I_Early (reason : LoopExitReason)
  | I_Done (outcome : InvestigationOutcome)
  | I_Panicked (iteration : nat).

Record Investigation := mkInvestigation {
  i_id : string;
  i_device : string;
  i_quality : option GraphQuality;
  messages : list AiMessage;
  total_cost : f64;
  total_tokens : Z;
  queried_paths : list string;
  seen_calls : gset string;
  i_point : Point;
}.

Definition investigation_new (id device : string) : Investigation :=
  mkInvestigation id device None [] f64_zero 0 [] ∅ I_Gate.

(** What the next [await]s return: the cost of the day, the store's replies, the
    provider, the quality of the graph, the two prompts, the answer of the
    model, the result of a tool, and whether records are written. *)
Record InvEnv := mkInvEnv {
  e_daily : string + f64;
  e_reply : StoreReply;
  e_provider_error : option string;
  e_quality : option GraphQuality;
  e_prompt : string * string;
  e_answer : string + AiResponse;
  e_tool : string + JsonValue;
  e_records : bool;
}.

Section Machine.
Context `{HashOrder, LedgerJson, RcaText, Lowercase, JsonPrint, BuildProfile} (cfg : AiConfig).

Definition first_messages (p : string * string) : list AiMessage :=
  [mkMessage "system" (Some p.1) [] None; mkMessage "user" (Some p.2) [] None].

Definition goto (p : Point) (i : Investigation) : Investigation :=
  mkInvestigation (i_id i) (i_device i) (i_quality i) (messages i) (total_cost i) (total_tokens i) (queried_paths i) (seen_calls i) p.

Definition say (m : AiMessage) (i : Investigation) : Investigation :=
  mkInvestigation (i_id i) (i_device i) (i_quality i) (messages i ++ [m]) (total_cost i) (total_tokens i) (queried_paths i) (seen_calls i) (i_point i).

(** The budget of the day, in both checks. *)
Definition daily_gate (e : InvEnv) (s : Store) : Store * option LoopExitReason :=
  match e_daily e with
  | inr spent =>
      let '(s', l) := sync_durable_budget_ledger (e_reply e) spent s in
      let used := f64_add (daily_committed_usd l) (total_reserved_usd l) in
      (s', if f64_lt f64_zero (daily_budget_usd cfg) && f64_le (daily_budget_usd cfg) used
           then Some (DailyBudgetExceeded used (daily_budget_usd cfg)) else None)
  | inl err => (s, if f64_lt f64_zero (daily_budget_usd cfg) then Some (DailyBudgetCheckFailed err) else None)
  end.

Definition estimated_call_usd : f64 :=
  if f64_lt f64_zero (per_investigation_budget_usd cfg) then f64_min (per_investigation_budget_usd cfg) f64_5em3
  else if f64_lt f64_zero (daily_budget_usd cfg) then f64_min (daily_budget_usd cfg) f64_5em3
  else f64_zero.

Definition reservation_id (id : string) (iteration : nat) : string := (id ++ ":iter:" ++ fmt_dec (Z.of_nat iteration))%string.

Definition complete_investigation (ok : bool) (c : Completion) (s : Store) : Store :=
  if ok then mkStore (ledger_item s) (completions s ++ [c]) (tool_records s) else s.

Definition add_tool_call (ok : bool) (r : ToolRecord) (s : Store) : Store :=
  if ok then mkStore (ledger_item s) (completions s) (tool_records s ++ [r]) else s.

(** The tokens and the cost of an answer are counted before its reservation is
    committed; the tokens in an [i64]. *)
Definition counted (iteration : nat) (resp : AiResponse) (i : Investigation) : Investigation :=
  match checked_i64 (E := unit) (total_tokens i + as_i64 (tokens_used resp)) with
  | Ok tokens => mkInvestigation (i_id i) (i_device i) (i_quality i) (messages i) (f64_add (total_cost i) (cost_usd resp)) tokens
                   (queried_paths i) (seen_calls i) (I_Commit iteration resp)
  | _ => goto (I_Panicked iteration) i
  end.

(** The answer is added to the messages, and the budgets are compared. *)
Definition after_commit (iteration : nat) (resp : AiResponse) (committed : f64 * f64) (i : Investigation) : Investigation :=
  let i1 := say (mkMessage "assistant" (resp_content resp) (resp_tool_calls resp) None) i in
  if f64_lt f64_zero (per_investigation_budget_usd cfg) && f64_lt (per_investigation_budget_usd cfg) committed.1 then
    goto (I_Finish (PerInvestigationBudgetExceeded committed.1 (per_investigation_budget_usd cfg))) i1
  else if f64_lt f64_zero (daily_budget_usd cfg) && f64_lt (daily_budget_usd cfg) committed.2 then
    goto (I_Finish (DailyBudgetExceeded committed.2 (daily_budget_usd cfg))) i1
  else if bool_decide (resp_tool_calls resp = []) || bool_decide (resp_stop_reason resp = "end_turn"%string) then goto (I_Finish ModelEndTurn) i1
  else goto (I_Tools iteration (resp_tool_calls resp)) i1.

(** [ToolCallDeduplicator::record_or_detect_repeat] *)
Definition call_key (name : string) (input : string) : string := (trim_text name ++ "::" ++ input)%string.

Definition tool_step (e : InvEnv) (iteration : nat) (tc : AiToolCall) (rest : list AiToolCall) (i : Investigation) (s : Store) :
  Investigation * Store :=
  let input := json_to_string (tc_arguments tc) in
  let key := call_key (tc_name tc) input in
  if bool_decide (key ∈ seen_calls i) then (goto (I_Finish (RepeatedToolCallDetected (tc_name tc))) i, s)
  else
    let output := match e_tool e with inr v => json_to_string v | inl err => json_to_string (V_Object [("error"%string, V_String err)]) end in
    (mkInvestigation (i_id i) (i_device i) (i_quality i) (messages i ++ [tool_result (tc_id tc) output]) (total_cost i) (total_tokens i)
       (queried_paths i ++ [tc_name tc]) ({[key]} ∪ seen_calls i) (I_Tools iteration rest),
     add_tool_call (e_records e) (mkToolRecord (i_id i) (tc_name tc) input output) s).

Definition raw_assistant_text (ms : list AiMessage) : string :=
  default EmptyString (List.find (fun m => bool_decide (role m = "assistant"%string) && bool_decide (is_Some (content m))) (rev ms) ≫= content).

(** What is done after the loop. *)
Definition final_outcome (reason : LoopExitReason) (i : Investigation) : InvestigationOutcome :=
  let o := resolve_investigation_outcome reason (raw_assistant_text (messages i)) in
  let report := compute_coverage_gaps (i_quality i) (queried_paths i) (i_device i) in
  let s1 := match evaluate_preflight_warning (i_quality i) (i_device i) with Some w => w ++ gap ++ summary o | None => summary o end%string in
  let s2 := (if bool_decide (report = EmptyString) then s1 else s1 ++ gap ++ report)%string in
  mkOutcome (o_state o) (stop_reason o) s2 (proposal_json o) (validated_rca o).

Definition completion_of (i : Investigation) (o : InvestigationOutcome) (tokens : Z) (cost : f64) : Completion :=
  mkCompletion (i_id i) (as_str (o_state o)) (summary o) (proposal_json o) tokens cost.

Definition inv_step (e : InvEnv) (i : Investigation) (s : Store) : Investigation * Store :=
  match i_point i with
  | I_Gate =>
      let '(s', stop) := daily_gate e s in
      (goto (match stop with Some reason => I_Early reason | None => I_Provider end) i, s')
  | I_Provider => (goto (match e_provider_error e with Some err => I_Early (ProviderUnavailable err) | None => I_Check end) i, s)
  | I_Check =>
      let '(s', stop) := daily_gate e s in
      match stop with
      | Some reason => (goto (I_Early reason) i, s')
      | None => (mkInvestigation (i_id i) (i_device i) (e_quality e) (first_messages (e_prompt e)) f64_zero 0 [] ∅ (I_Reserve 0), s')
      end
  | I_Reserve n =>
      if (MAX_ITERATIONS <=? n)%nat then (goto (I_Finish (IterationLimitReached MAX_ITERATIONS)) i, s)
      else
        match reserve_durable_budget (e_reply e) (reservation_id (i_id i) n) (i_id i) estimated_call_usd
                (per_investigation_budget_usd cfg) (daily_budget_usd cfg) s with
        | (s', Some reason) => (goto (I_Finish reason) i, s')
        | (s', None) => (goto (I_Call n) i, s')
        end
  | I_Call n => (match e_answer e with inr resp => counted n resp i | inl err => goto (I_Release n err) i end, s)
  | I_Release n err => (goto (I_Finish (ProviderCallFailed err n)) i, release_durable_budget (e_reply e) (reservation_id (i_id i) n) s)
  | I_Commit n resp =>
      let '(s', committed) := commit_durable_budget (e_reply e) (reservation_id (i_id i) n) (cost_usd resp) s in
      (after_commit n resp committed i, s')
  | I_Tools n [] => (goto (I_Reserve (S n)) i, s)
  | I_Tools n (tc :: rest) => tool_step e n tc rest i s
  | I_Finish reason =>
      let o := final_outcome reason i in
      (goto (I_Done o) i, complete_investigation (e_records e) (completion_of i o (total_tokens i) (total_cost i)) s)
  | I_Early reason =>
      let o := resolve_investigation_outcome reason EmptyString in
      (goto (I_Done o) i, complete_investigation (e_records e) (completion_of i o 0 f64_zero) s)
  | I_Done _ | I_Panicked _ => (i, s)
  end.

(** [complete_investigation_handler]: a client of the server completes an
    investigation with what it sends. *)
Definition complete_investigation_handler (ok : bool) (body : Completion) (s : Store) : Store := complete_investigation ok body s.

(** Any number of investigations, each a task, and clients of the server. *)
Record System := mkSystem { investigations : list Investigation; store : Store }.

Inductive SysOp := OpSpawn (id device : string) | OpMove (k : nat) (e : InvEnv) | OpPost (ok : bool) (body : Completion).

Definition sys_step (y : System) (op : SysOp) : System :=
  match op with
  | OpSpawn id device => mkSystem (investigations y ++ [investigation_new id device]) (store y)
  | OpMove k e =>
      match investigations y !! k with
      | Some i => let '(i', s') := inv_step e i (store y) in mkSystem (<[k := i']> (investigations y)) s'
      | None => y
      end
  | OpPost ok body => mkSystem (investigations y) (complete_investigation_handler ok body (store y))
  end.

Definition sys_run (ops : list SysOp) (y : System) : System := foldl sys_step y ops.

End Machine.

(** ** Honest outcomes *)

Section Honest.
Context `{HashOrder, LedgerJson, RcaText, Lowercase, JsonPrint, BuildProfile} (cfg : AiConfig).

Definition valid_rca (r : TypedInvestigationRca) : Prop :=
  root_cause_type r <> EmptyString /\ trim_text (root_cause_type r) = root_cause_type r /\
  recommended_action r <> EmptyString /\ trim_text (recommended_action r) = recommended_action r /\
  f64_le f64_zero (confidence r) = true /\ f64_le (confidence r) f64_one = true /\
  confidence_is_uncalibrated r = true /\ epistemic_state r ∈ VALID_EPISTEMIC_STATES.

Lemma parse_valid raw rca : parse_and_validate_rca raw = inr rca -> valid_rca rca.
Proof.
  unfold parse_and_validate_rca. destruct (extract_json_candidate raw) as [candidate|]; [|done]. destruct (rca_from_str candidate) as [|r]; [done|].
  case_bool_decide as Hroot; [done|]. destruct (negb _ || negb _) eqn:Hc; [done|]. case_bool_decide as Hact; [done|]. case_bool_decide as Hep; [|done].
  intros [= <-]. apply orb_false_iff in Hc as [_ Hc]. apply negb_false_iff, andb_true_iff in Hc as [? ?].
  unfold valid_rca. cbn [root_cause_type confidence confidence_is_uncalibrated epistemic_state recommended_action].
  split_and!; try done; apply trim_text_idemp.
Qed.

(** A proposal that is made of an answer of the model which was validated. *)
Definition validated (proposal : string) (rca : TypedInvestigationRca) : Prop :=
  (exists raw, parse_and_validate_rca raw = inr rca) /\ valid_rca rca /\ proposal = rca_to_string rca.

Definition honest (state : InvestigationTerminalState) (proposal : string) : Prop :=
  (proposal = "{}"%string \/ exists rca, validated proposal rca) /\
  (state = Completed -> exists rca, validated proposal rca /\ (epistemic_state rca = "supported"%string \/ epistemic_state rca = "plausible"%string)).

Lemma partial_honest raw : partial_proposal raw = "{}"%string \/ exists rca, validated (partial_proposal raw) rca.
Proof.
  unfold partial_proposal, partial_rca. destruct (parse_and_validate_rca raw) as [|rca] eqn:Hp; [by left|right]. exists rca.
  split_and!; [by exists raw|by eapply parse_valid|done].
Qed.

Lemma resolve_honest reason raw :
  let o := resolve_investigation_outcome reason raw in honest (o_state o) (proposal_json o).
Proof.
  destruct reason; cbn [resolve_investigation_outcome]; try (split; [by left|done]); try (split; [apply partial_honest|done]).
  unfold model_end_turn. destruct (parse_and_validate_rca raw) as [err|rca] eqn:Hp; [split; [by left|done]|].
  assert (validated (rca_to_string rca) rca) as Hv by (split_and!; [by exists raw|by eapply parse_valid|done]).
  pose proof (parse_valid _ _ Hp) as Hval. unfold valid_rca, VALID_EPISTEMIC_STATES in Hval.
  destruct (bool_decide (epistemic_state rca = "awaiting_human"%string)) eqn:Ha; cbn; [split; [right; by exists rca|done]|].
  destruct (bool_decide (epistemic_state rca = "insufficient_evidence"%string) || bool_decide (epistemic_state rca = "contradicted"%string)) eqn:Hi; cbn;
    (split; [right; by exists rca|]); [done|]. intros _. exists rca. split; [done|].
  apply bool_decide_eq_false in Ha. apply orb_false_iff in Hi as [Hi Hc]. apply bool_decide_eq_false in Hi, Hc. set_solver.
Qed.

Lemma as_str_completed s : as_str s = "completed"%string -> s = Completed.
Proof. by destruct s. Qed.

Lemma durable_keeps_records r rid inv est per daily s :
  completions (reserve_durable_budget r rid inv est per daily s).1 = completions s /\
  tool_records (reserve_durable_budget r rid inv est per daily s).1 = tool_records s.
Proof. unfold reserve_durable_budget, save_durable_budget_ledger. by destruct (reserve _ _ _ _ _ _), (writes r). Qed.

Lemma commit_keeps_records r rid x s :
  completions (commit_durable_budget r rid x s).1 = completions s /\ tool_records (commit_durable_budget r rid x s).1 = tool_records s.
Proof. unfold commit_durable_budget, save_durable_budget_ledger. by destruct (writes r). Qed.

Lemma release_keeps_records r rid s :
  completions (release_durable_budget r rid s) = completions s /\ tool_records (release_durable_budget r rid s) = tool_records s.
Proof. unfold release_durable_budget, save_durable_budget_ledger. destruct (release _ _) as [l [x|]]; [by destruct (writes r)|done]. Qed.

Lemma gate_keeps_records e s : completions (daily_gate cfg e s).1 = completions s /\ tool_records (daily_gate cfg e s).1 = tool_records s.
Proof.
  unfold daily_gate, sync_durable_budget_ledger, save_durable_budget_ledger. destruct (e_daily e); [done|].
  by destruct (f64_lt _ _), (writes (e_reply e)).
Qed.

(** The records a step adds. *)
Lemma inv_step_records e i s :
  let s' := (inv_step cfg e i s).2 in
  (completions s' = completions s \/ exists o tokens cost, completions s' = completions s ++ [completion_of i o tokens cost] /\
     honest (o_state o) (proposal_json o)) /\
  (tool_records s' = tool_records s \/ exists n tc rest output, i_point i = I_Tools n (tc :: rest) /\
     call_key (tc_name tc) (json_to_string (tc_arguments tc)) ∉ seen_calls i /\
     tool_records s' = tool_records s ++ [mkToolRecord (i_id i) (tc_name tc) (json_to_string (tc_arguments tc)) output]).
Proof.
  unfold inv_step. destruct (i_point i) as [| | |n|n|n resp|n err|n [|tc rest]|reason|reason|o|np] eqn:Hp; cbn [snd]; try (split; by left).
  - pose proof (gate_keeps_records e s) as [Hc Ht]. destruct (daily_gate cfg e s). split; by left.
  - pose proof (gate_keeps_records e s) as [Hc Ht]. destruct (daily_gate cfg e s) as [s' [r|]]; split; by left.
  - destruct (_ <=? n)%nat; [split; by left|]. match goal with |- context [reserve_durable_budget ?a ?b ?c ?d ?f ?g ?h] =>
      pose proof (durable_keeps_records a b c d f g h) as [Hc Ht]; destruct (reserve_durable_budget a b c d f g h) as [s' [r|]] end; split; by left.
  - match goal with |- context [commit_durable_budget ?a ?b ?c ?d] => pose proof (commit_keeps_records a b c d) as [Hc Ht]; destruct (commit_durable_budget a b c d) end.
    split; by left.
  - match goal with |- context [release_durable_budget ?a ?b ?c] => pose proof (release_keeps_records a b c) as [Hc Ht] end. split; by left.
  - unfold tool_step. case_bool_decide as Hs; [split; by left|]. cbn [snd]. unfold add_tool_call. destruct (e_records e); [|split; by left].
    split; [by left|]. right. by eexists n, tc, rest, _.
  - unfold complete_investigation. destruct (e_records e); [|split; by left]. split; [|by left]. right. eexists _, _, _. split; [done|]. apply resolve_honest.
  - unfold complete_investigation. destruct (e_records e); [|split; by left]. split; [|by left]. right. eexists _, _, _. split; [done|]. apply resolve_honest.
Qed.

(** What clients of the server posted. *)
Definition posted (ops : list SysOp) : list Completion := omap (fun op => match op with OpPost _ body => Some body | _ => None end) ops.

Lemma sys_step_honest (P : Completion -> Prop) y op :
  (forall c st, c_status c = as_str st -> honest st (c_proposal c) -> P c) -> (forall c, c ∈ posted [op] -> P c) ->
  Forall P (completions (store y)) -> Forall P (completions (store (sys_step cfg y op))).
Proof.
  intros Hh Hpost Hy. destruct op as [id d|k e|ok body]; cbn [sys_step]; [done|..].
  - destruct (investigations y !! k) as [i|]; [|done]. pose proof (inv_step_records e i (store y)) as [Hc _]. destruct (inv_step cfg e i (store y)) as [i' s'].
    cbn in *. destruct Hc as [->|(o & tk & co & -> & Ho)]; [done|]. apply Forall_app. split; [done|]. apply Forall_singleton. by eapply Hh.
  - cbn. unfold complete_investigation_handler, complete_investigation. destruct ok; [|done]. apply Forall_app. split; [done|].
    apply Forall_singleton, Hpost. by left.
Qed.

(** Claim C18: the runtime records an investigation as completed only with a root
    cause that was validated: its cause and its action are not empty, its
    confidence is between zero and one and marked as uncalibrated, and it is
    supported or plausible; and it records no other proposal than a validated
    one.  This holds of all records of any interleaving of investigations,
    whatever the model, the tools and the store answer, but for the records that
    clients of the server post, which are not checked. *)
Theorem outcomes_are_honest (ops : list SysOp) (c : Completion) :
  c ∈ completions (store (sys_run cfg ops (mkSystem [] store_new))) ->
  c ∈ posted ops \/
  (c_proposal c = "{}"%string \/ exists rca, validated (c_proposal c) rca) /\
  (c_status c = "completed"%string ->
     exists rca, validated (c_proposal c) rca /\ (epistemic_state rca = "supported"%string \/ epistemic_state rca = "plausible"%string)).
Proof.
  intros Hin. set (P c := c ∈ posted ops \/ exists st, c_status c = as_str st /\ honest st (c_proposal c)).
  assert (Forall P (completions (store (sys_run cfg ops (mkSystem [] store_new))))) as Hs.
  { apply (foldl_keeps (fun y => Forall P (completions (store y)))); [|constructor]. intros y op Hop Hy.
    apply (sys_step_honest P); [intros; right; by eexists| |done]. intros c' Hc'. left. unfold posted in *. apply list_elem_of_omap in Hc' as (op' & Hop' & Hb).
    apply list_elem_of_singleton in Hop' as ->. apply list_elem_of_omap. by exists op. }
  destruct (proj1 (Forall_forall _ _) Hs c Hin) as [Hp|(st & Hst & Hh & Hc)]; [by left|right]. split; [done|]. intros He. apply Hc, as_str_completed. congruence.
Qed.

End Honest.

(** ** Investigations beside each other *)

Section Concurrent.
Context `{HashOrder, LedgerJson, RcaText, Lowercase, JsonPrint, BuildProfile} (cfg : AiConfig).

(** The identifiers that are spawned; the store gives out each once. *)
Definition spawned (ops : list SysOp) : list string := omap (fun op => match op with OpSpawn id _ => Some id | _ => None end) ops.

Definition ids (y : System) : list string := i_id <$> investigations y.

Lemma inv_step_id e i s : i_id (inv_step cfg e i s).1 = i_id i.
Proof.
  unfold inv_step, counted, after_commit, tool_step. destruct (i_point i) as [| | |n|n|n resp|n err|n [|tc rest]|reason|reason|o|np]; try done.
  - by destruct (daily_gate cfg e s).
  - by destruct (daily_gate cfg e s) as [s' [r|]].
  - destruct (_ <=? n)%nat; [done|]. by destruct (reserve_durable_budget _ _ _ _ _ _ _) as [s' [r|]].
  - by destruct (e_answer e); [|destruct (checked_i64 _)].
  - destruct (commit_durable_budget _ _ _ _). by repeat case_match.
  - by case_match.
Qed.

Lemma sys_step_ids y op : ids (sys_step cfg y op) = ids y ++ spawned [op].
Proof.
  unfold ids. destruct op as [id d|k e|ok body]; cbn [sys_step spawned omap list_omap investigations]; [by rewrite fmap_app|..|by rewrite app_nil_r]. rewrite app_nil_r.
  destruct (investigations y !! k) as [i|] eqn:Hi; [|done]. pose proof (inv_step_id e i (store y)) as Hid.
  destruct (inv_step cfg e i (store y)) as [i' s']. cbn [investigations] in *. rewrite list_fmap_insert. apply list_insert_id.
  rewrite list_lookup_fmap, Hi. cbn in *. by rewrite Hid.
Qed.

(** An invariant of every run in which no identifier is spawned twice. *)
Lemma sys_run_keeps (P : System -> Prop) (ok : System -> SysOp -> Prop) ops :
  (forall y op, P y -> ok y op -> NoDup (ids y) -> (forall id d, op = OpSpawn id d -> id ∉ ids y) -> P (sys_step cfg y op)) ->
  forall y, P y -> NoDup (ids y ++ spawned ops) ->
  (forall n op, ops !! n = Some op -> ok (sys_run cfg (take n ops) y) op) -> P (sys_run cfg ops y) /\ NoDup (ids (sys_run cfg ops y)).
Proof.
  intros Hstep. induction ops as [|op ops IH]; intros y Hp Hnd Hok; [by rewrite app_nil_r in Hnd|].
  assert (spawned (op :: ops) = spawned [op] ++ spawned ops) as Hsp by (destruct op; done). rewrite Hsp, app_assoc, <- sys_step_ids in Hnd.
  cbn [sys_run foldl]. apply IH; [|done|].
  - rewrite sys_step_ids in Hnd. apply NoDup_app in Hnd as (Hnd & _ & _). apply NoDup_app in Hnd as (Hnd & Hx & _).
    apply Hstep; [done|by apply (Hok O)|done|]. intros id d -> Hin. by apply (Hx id Hin), list_elem_of_singleton.
  - intros n op' Hn. by apply (Hok (S n)).
Qed.

(** *** No tool call is repeated *)

Definition calls_of (id : string) (s : Store) : list string :=
  (fun r => call_key (tr_name r) (tr_input r)) <$> List.filter (fun r => bool_decide (tr_id r = id)) (tool_records s).

Definition before_loop (p : Point) : bool := match p with I_Gate | I_Provider | I_Check => true | _ => false end.

Definition calls_known (i : Investigation) (s : Store) : Prop :=
  NoDup (calls_of (i_id i) s) /\ (forall k, k ∈ calls_of (i_id i) s -> k ∈ seen_calls i) /\
  (before_loop (i_point i) = true -> calls_of (i_id i) s = []).

Definition calls_inv (y : System) : Prop :=
  (forall k i, investigations y !! k = Some i -> calls_known i (store y)) /\
  (forall r, r ∈ tool_records (store y) -> tr_id r ∈ ids y).

Lemma calls_of_snoc id s rs r :
  tool_records s = rs ++ [r] -> calls_of id s =
  ((fun r => call_key (tr_name r) (tr_input r)) <$> List.filter (fun r => bool_decide (tr_id r = id)) rs) ++
  (if bool_decide (tr_id r = id) then [call_key (tr_name r) (tr_input r)] else []).
Proof. intros Hr. unfold calls_of. rewrite Hr, List.filter_app, fmap_app. cbn. by destruct (bool_decide _). Qed.

(** A step that records no tool call keeps what is known, or starts the loop. *)
Lemma inv_step_seen e i s :
  (forall n tc rest, i_point i <> I_Tools n (tc :: rest)) ->
  let i' := (inv_step cfg e i s).1 in
  (seen_calls i' = seen_calls i \/ i_point i = I_Check) /\ (before_loop (i_point i') = true -> before_loop (i_point i) = true) /\
  tool_records (inv_step cfg e i s).2 = tool_records s.
Proof.
  intros Hn. destruct (inv_step_records cfg e i s) as [_ [Ht|(n & tc & rest & out & Hp & _)]]; [|by destruct (Hn n tc rest)]. revert Ht.
  unfold inv_step, counted, after_commit. destruct (i_point i) as [| | |n|n|n resp|n err|n [|tc rest]|reason|reason|o|np] eqn:Hp; try (by destruct (Hn n tc rest)).
  all: try destruct (daily_gate cfg e s) as [s' [r|]].
  all: try (destruct (_ <=? n)%nat; [|destruct (reserve_durable_budget _ _ _ _ _ _ _) as [s' [r|]]]).
  all: try destruct (commit_durable_budget _ _ _ _) as [s' committed].
  all: cbn [fst snd]; intros Ht; split_and!; try done; auto; try (by rewrite Hp); repeat case_match; try done; auto.
Qed.

Lemma calls_of_same id s s' : tool_records s' = tool_records s -> calls_of id s' = calls_of id s.
Proof. unfold calls_of. by intros ->. Qed.

Lemma calls_of_none id s : (forall r, r ∈ tool_records s -> tr_id r <> id) -> calls_of id s = [].
Proof.
  unfold calls_of. intros Hn. induction (tool_records s) as [|r rs IH]; [done|]. cbn. rewrite bool_decide_false; [|apply Hn; by constructor].
  apply IH. intros r' Hr'. apply Hn. by constructor.
Qed.

(** A step of an investigation, and what it knows of its own calls. *)
Lemma calls_known_step e i s : calls_known i s -> calls_known (inv_step cfg e i s).1 (inv_step cfg e i s).2.
Proof.
  intros (Hnd & Hseen & Hbef). unfold calls_known. rewrite inv_step_id.
  destruct (i_point i) as [| | |n|n|n resp|n err|n [|tc rest]|reason|reason|o|np] eqn:Hp.
  8: { unfold inv_step. rewrite Hp. by split_and!. }
  8: { unfold inv_step. rewrite Hp. unfold tool_step. case_bool_decide as Hk; [by split_and!|]. cbn [fst snd seen_calls i_point i_id before_loop].
       unfold add_tool_call. destruct (e_records e); [|split_and!; [done|set_solver|done]].
       erewrite (calls_of_snoc _ (mkStore _ _ _)) by (cbn; reflexivity). rewrite bool_decide_true by done. split_and!; [|set_solver|done].
       apply NoDup_app. split_and!; [done| |apply NoDup_singleton]. intros k Hin Hk'. apply list_elem_of_singleton in Hk' as ->. by apply Hk, Hseen. }
  all: destruct (inv_step_seen e i s) as (Hs & Hb & Ht); [by rewrite Hp|]; rewrite (calls_of_same _ _ _ Ht), Hp in *; split_and!; try done; auto.
  all: destruct Hs as [->|Hs]; try done. rewrite (Hbef eq_refl). set_solver.
Qed.

Lemma calls_of_other e i s id : id <> i_id i -> calls_of id (inv_step cfg e i s).2 = calls_of id s.
Proof.
  intros Hne. destruct (inv_step_records cfg e i s) as [_ [Ht|(n & tc & rest & out & _ & _ & Ht)]]; [by apply calls_of_same|].
  rewrite (calls_of_snoc _ _ _ _ Ht). rewrite bool_decide_false by (cbn; congruence). apply app_nil_r.
Qed.

Lemma calls_inv_step y op : calls_inv y -> NoDup (ids y) -> (forall id d, op = OpSpawn id d -> id ∉ ids y) -> calls_inv (sys_step cfg y op).
Proof.
  intros [Hk Hr] Hnd Hf. split.
  2: { intros r. rewrite sys_step_ids, elem_of_app. destruct op as [id d|k e|[] body]; cbn [sys_step]; [left; by apply Hr| |left; by apply Hr..].
       destruct (investigations y !! k) as [i|] eqn:Hi; [|left; by apply Hr]. pose proof (inv_step_records cfg e i (store y)) as [_ Ht].
       destruct (inv_step cfg e i (store y)) as [i' s']. cbn in *. intros Hin. left. destruct Ht as [Ht|(n & tc & rest & out & _ & _ & Ht)]; rewrite Ht in Hin; [by apply Hr|].
       apply elem_of_app in Hin as [Hin|Hin]; [by apply Hr|]. apply list_elem_of_singleton in Hin as ->. cbn. apply list_elem_of_fmap. exists i.
       split; [done|by eapply list_elem_of_lookup_2]. }
  destruct op as [id d|k e|[] body]; cbn [sys_step]; [| |done..].
  - intros j i [Hj|[_ Hj]]%lookup_app_Some; [by eapply Hk|]. apply list_lookup_singleton_Some in Hj as [_ <-]. cbn.
    assert (calls_of id (store y) = []) as Hnone.
    { apply calls_of_none. intros r Hin <-. by eapply (Hf (tr_id r) d eq_refl), Hr. }
    unfold calls_known. cbn. rewrite Hnone. split_and!; [constructor|set_solver|done].
  - destruct (investigations y !! k) as [i|] eqn:Hi; [|done]. pose proof (calls_known_step e i (store y) (Hk k i Hi)) as Hs.
    pose proof (calls_of_other e i (store y)) as Ho. pose proof (inv_step_id e i (store y)) as Hid. destruct (inv_step cfg e i (store y)) as [i' s']. cbn in *.
    intros j i0 Hj. destruct (decide (k = j)) as [<-|Hne].
    + rewrite list_lookup_insert_eq in Hj by (by eapply lookup_lt_Some). by injection Hj as <-.
    + rewrite list_lookup_insert_ne in Hj by done. unfold calls_known. rewrite Ho; [by eapply Hk|]. intros Heq. apply Hne.
      eapply (NoDup_lookup (ids y) k j); [done|unfold ids; rewrite list_lookup_fmap, ?Hi, ?Hj; done|unfold ids; rewrite list_lookup_fmap, Hj; cbn; by rewrite Heq].
Qed.

(** Claim C39: no investigation executes a tool call twice: if investigations have
    identifiers of their own, the recorded calls of one differ in the name of the
    tool, without the blanks around it, or in the arguments, in every interleaving
    of investigations and whatever the model answers. *)
Theorem tool_calls_distinct (ops : list SysOp) (id : string) :
  NoDup (spawned ops) -> NoDup (calls_of id (store (sys_run cfg ops (mkSystem [] store_new)))).
Proof.
  intros Hnd. destruct (sys_run_keeps calls_inv (fun _ _ => True) ops) with (y := mkSystem [] store_new) as [[Hk Hr] _]; try done.
  - intros y op Hc _ Hn Hf. by apply calls_inv_step.
  - split; [done|]. cbn. intros r. by rewrite elem_of_nil.
  - set (y := sys_run cfg ops (mkSystem [] store_new)) in *. destruct (decide (id ∈ ids y)) as [Hin|Hn].
    + apply list_elem_of_fmap in Hin as (i & -> & Hin). apply list_elem_of_lookup in Hin as [k Hi]. apply (Hk k i Hi).
    + rewrite calls_of_none; [constructor|]. intros r Hin <-. by apply Hn, Hr.
Qed.

(** *** Reservations *)

(** The reservation an investigation holds while it waits for an answer, or for good
    when it panicked over one. *)
Definition holding (i : Investigation) : option string :=
  match i_point i with I_Call n | I_Commit n _ | I_Release n _ | I_Panicked n => Some (reservation_id (i_id i) n) | _ => None end.

Definition store_works : StoreReply := mkReply true true.

(** The reservations of the ledger in the store, with their investigations. *)
Definition reserved (s : Store) : gmap string string := fst <$> active_reservations (load_durable_budget_ledger store_works s).

(** The ledger a step saves. *)
Definition ledger_saved (e : InvEnv) (i : Investigation) (s : Store) : option BudgetReservationLedger :=
  let l := load_durable_budget_ledger (e_reply e) s in
  match i_point i with
  | I_Gate | I_Check =>
      match e_daily e with
      | inr spent => if f64_lt (daily_committed_usd l) spent
                     then Some (mkLedger spent (committed_by_investigation l) (active_reservations l)) else None
      | inl _ => None
      end
  | I_Reserve n =>
      if (MAX_ITERATIONS <=? n)%nat then None
      else match reserve (reservation_id (i_id i) n) (i_id i) (estimated_call_usd cfg) (per_investigation_budget_usd cfg) (daily_budget_usd cfg) l with
           | inr l' => Some l' | inl _ => None end
  | I_Commit n resp => Some (commit (reservation_id (i_id i) n) (cost_usd resp) l).1
  | I_Release n _ => match release (reservation_id (i_id i) n) l with (l', Some _) => Some l' | _ => None end
  | _ => None
  end.

(** The store works, and the amounts of the ledger are finite. *)
Definition good_move (y : System) (op : SysOp) : Prop :=
  match op with
  | OpMove k e => e_reply e = store_works /\
      forall i l, investigations y !! k = Some i -> ledger_saved e i (store y) = Some l -> storable l
  | OpSpawn _ _ | OpPost _ _ => True
  end.

Lemma reserved_save l s : storable l -> reserved (save_durable_budget_ledger store_works l s) = fst <$> active_reservations l.
Proof. intros Hl. destruct (ledger_reads_back l Hl) as (l' & Hr & He). unfold reserved, load_durable_budget_ledger. cbn. by rewrite Hr. Qed.

Lemma reserved_item s s' : ledger_item s' = ledger_item s -> reserved s' = reserved s.
Proof. unfold reserved, load_durable_budget_ledger. by intros ->. Qed.

(** A step exchanges what its investigation holds. *)
Definition exchange (id : string) (old new : option string) (m : gmap string string) : gmap string string :=
  let m' := match old with Some rid => delete rid m | None => m end in
  match new with Some rid => <[rid := id]> m' | None => m' end.

Lemma gate_reserved e s :
  e_reply e = store_works ->
  (forall l spent, e_daily e = inr spent -> f64_lt (daily_committed_usd (load_durable_budget_ledger store_works s)) spent = true ->
     l = mkLedger spent (committed_by_investigation (load_durable_budget_ledger store_works s))
           (active_reservations (load_durable_budget_ledger store_works s)) -> storable l) ->
  reserved (daily_gate cfg e s).1 = reserved s.
Proof.
  intros He Hl. unfold daily_gate, sync_durable_budget_ledger. rewrite He. destruct (e_daily e) as [|spent]; [done|].
  destruct (f64_lt _ spent) eqn:Hlt; [|done]. cbn [fst]. rewrite reserved_save by (by eapply Hl). done.
Qed.

Lemma reserve_inserts rid inv est per daily l l' :
  reserve rid inv est per daily l = inr l' -> exists x, active_reservations l' = <[rid := (inv, x)]> (active_reservations l).
Proof. unfold reserve. cbn zeta. repeat (case_match; try done). intros [= <-]. by eexists. Qed.

Lemma inv_step_reserved e i s :
  e_reply e = store_works -> (forall l, ledger_saved e i s = Some l -> storable l) ->
  (forall rid, holding i = Some rid -> reserved s !! rid = Some (i_id i)) ->
  let i' := (inv_step cfg e i s).1 in
  reserved (inv_step cfg e i s).2 = exchange (i_id i) (holding i) (holding i') (reserved s).
Proof.
  intros He Hl Hhold. unfold ledger_saved in Hl. rewrite He in Hl. unfold inv_step, holding in *. rewrite He in *.
  destruct (i_point i) as [| | |n|n|n resp|n err|n [|tc rest]|reason|reason|o|np] eqn:Hp; cbn [fst snd goto i_point i_id exchange]; try done.
  - pose proof (gate_reserved e s He) as Hg. destruct (daily_gate cfg e s) as [s' [r|]]; apply Hg; intros l spent Hd Hlt ->; apply Hl; by rewrite Hd, Hlt.
  - by destruct (e_provider_error e).
  - pose proof (gate_reserved e s He) as Hg. destruct (daily_gate cfg e s) as [s' [r|]]; apply Hg; intros l spent Hd Hlt ->; apply Hl; by rewrite Hd, Hlt.
  - destruct (_ <=? n)%nat; [done|]. unfold reserve_durable_budget. destruct (reserve _ _ _ _ _ _) as [r|l'] eqn:Hres; [done|].
    cbn [fst snd goto i_point i_id exchange]. rewrite reserved_save by (by apply Hl). destruct (reserve_inserts _ _ _ _ _ _ _ Hres) as [x ->].
    by rewrite fmap_insert.
  - specialize (Hhold _ eq_refl). unfold counted. destruct (e_answer e); [|destruct (checked_i64 _)];
      cbn [fst snd goto i_point i_id exchange]; by rewrite insert_delete_id.
  - destruct (commit_durable_budget _ _ _ _) as [s' c] eqn:Hc. unfold commit_durable_budget in Hc. injection Hc as <- <-.
    cbn [fst snd]. rewrite reserved_save by (by apply Hl). unfold commit.
    specialize (Hhold _ eq_refl). unfold reserved in Hhold. rewrite lookup_fmap in Hhold.
    destruct (active_reservations _ !! _) as [[inv x]|]; [|done]. cbn [fst snd active_reservations].
    rewrite fmap_delete. unfold after_commit. repeat case_match; done.
  - specialize (Hhold _ eq_refl). unfold release_durable_budget, release in *. unfold reserved in Hhold. rewrite lookup_fmap in Hhold.
    destruct (active_reservations _ !! _) as [[inv x]|] eqn:Ha; [|done]. cbn [fst snd fmap option_fmap option_map] in *. rewrite reserved_save by (by apply Hl). cbn [active_reservations]. by rewrite fmap_delete.
  - unfold tool_step. case_bool_decide; [done|]. cbn. unfold add_tool_call. destruct (e_records e); [|done]. by apply reserved_item.
  - unfold complete_investigation. destruct (e_records e); [|done]. by apply reserved_item.
  - unfold complete_investigation. destruct (e_records e); [|done]. by apply reserved_item.
  - by rewrite Hp.
  - rewrite Hp. cbn [exchange]. by rewrite insert_delete_id by (by apply Hhold).
Qed.

(** *** Identifiers of reservations *)

Lemma split_at_last {A} (c : A) x y d d' : c ∉ d -> c ∉ d' -> x ++ c :: d = y ++ c :: d' -> x = y.
Proof.
  intros Hd Hd'. revert y. induction x as [|a x IH]; intros [|b y] He; [done|..].
  - injection He as -> ->. destruct Hd. set_solver.
  - injection He as -> He. destruct Hd'. rewrite <- He. set_solver.
  - injection He as -> He. f_equal. by apply IH.
Qed.

Lemma no_colon n : 0 <= n -> byte_of_ascii ":" ∉ bytes_of_string (fmt_dec n).
Proof. intros Hn Hin. pose proof (proj1 (Forall_forall _ _) (fmt_dec_bytes n Hn) _ Hin) as Hd. by vm_compute in Hd. Qed.

Lemma bytes_of_string_inj a b : bytes_of_string a = bytes_of_string b -> a = b.
Proof. intros He. by rewrite <- (string_of_bytes_of_string a), <- (string_of_bytes_of_string b), He. Qed.

Lemma reservation_id_inj a n b m : reservation_id a n = reservation_id b m -> a = b.
Proof.
  intros He%(f_equal bytes_of_string). unfold reservation_id in He. rewrite !bytes_of_string_app in He.
  change (bytes_of_string ":iter:") with (bytes_of_string ":iter" ++ [byte_of_ascii ":"]) in He. rewrite <- !app_assoc in He. cbn [app] in He.
  rewrite !app_assoc in He. apply split_at_last in He; [|apply no_colon; lia..]. apply app_inj_2 in He as [He _]; [|done]. by apply bytes_of_string_inj.
Qed.

(** The reservations in the ledger are those that are held. *)
Definition ledger_matches (y : System) : Prop :=
  forall rid id, reserved (store y) !! rid = Some id <-> exists i, i ∈ investigations y /\ i_id i = id /\ holding i = Some rid.

Lemma holding_id i rid : holding i = Some rid -> exists n, rid = reservation_id (i_id i) n.
Proof. unfold holding. destruct (i_point i); try done; intros [= <-]; by eexists. Qed.

Lemma elem_of_insert_list {A} (l : list A) k (x x' z : A) :
  l !! k = Some x -> NoDup l -> z ∈ <[k := x']> l <-> z = x' \/ z ∈ l /\ z <> x.
Proof.
  intros Hk Hnd. rewrite !list_elem_of_lookup. split.
  - intros [j Hj]. destruct (decide (k = j)) as [<-|Hne].
    + rewrite list_lookup_insert_eq in Hj by (by eapply lookup_lt_Some). injection Hj as <-. by left.
    + rewrite list_lookup_insert_ne in Hj by done. right. split; [by exists j|]. intros ->. by destruct Hne; eapply (NoDup_lookup l).
  - intros [->|[[j Hj] Hne]].
    + exists k. apply list_lookup_insert_eq. by eapply lookup_lt_Some.
    + exists j. rewrite list_lookup_insert_ne; [done|]. intros <-. congruence.
Qed.

Lemma ledger_matches_step y op :
  ledger_matches y -> good_move y op -> NoDup (ids y) -> ledger_matches (sys_step cfg y op).
Proof.
  unfold ledger_matches. intros Hm Hg Hnd. destruct op as [id d|k e|ok body]; cbn [sys_step];
    [| |intros rid id; cbn; rewrite <- Hm, (reserved_item (store y)); [done|by destruct ok]].
  - intros rid id'. rewrite Hm. cbn. setoid_rewrite elem_of_app. setoid_rewrite list_elem_of_singleton. split.
    + intros (i & ? & ? & ?). exists i. auto.
    + intros (i & [?| ->] & ? & ?); [by exists i|done].
  - destruct (investigations y !! k) as [i|] eqn:Hi; [|done]. destruct Hg as [He Hst].
    assert (forall rid, holding i = Some rid -> reserved (store y) !! rid = Some (i_id i)) as Hhold.
    { intros rid Hr. apply Hm. exists i. split_and!; [by eapply list_elem_of_lookup_2|done|done]. }
    pose proof (inv_step_reserved e i (store y) He (fun l => Hst i l Hi) Hhold) as Hres. pose proof (inv_step_id e i (store y)) as Hid.
    destruct (inv_step cfg e i (store y)) as [i' s']. cbn [fst snd] in *.
    assert (forall z, z ∈ <[k := i']> (investigations y) <-> z = i' \/ z ∈ investigations y /\ z <> i) as Hins.
    { intros z. apply elem_of_insert_list; [done|]. by eapply NoDup_fmap_1. }
    assert (forall z rid, z ∈ investigations y -> z <> i -> holding z = Some rid -> forall n, rid <> reservation_id (i_id i) n) as Hother.
    { intros z rid Hz Hne (n & ->)%holding_id m Heq%reservation_id_inj. apply Hne. apply list_elem_of_lookup in Hz as [j Hj].
      assert (k = j) as <- by (eapply (NoDup_lookup (ids y)); [done|unfold ids; rewrite list_lookup_fmap, Hi; done|unfold ids; rewrite list_lookup_fmap, Hj; cbn; by rewrite Heq]).
      congruence. }
    intros rid id. cbn [store investigations]. rewrite Hres. unfold exchange. setoid_rewrite Hins.
    assert (match holding i with Some r => delete r (reserved (store y)) | None => reserved (store y) end !! rid = Some id <->
      exists z, (z ∈ investigations y /\ z <> i) /\ i_id z = id /\ holding z = Some rid) as Hold.
    { destruct (holding i) as [r|] eqn:Hh.
      - rewrite lookup_delete_Some, Hm. split.
        + intros [Hne (z & Hz & Hzi & Hzr)]. exists z. split_and!; try done. intros ->. congruence.
        + intros (z & [Hz Hne] & Hzi & Hzr). split; [|by exists z]. destruct (holding_id _ _ Hh) as [n ->]. intros <-. by eapply (Hother z).
      - rewrite Hm. split; intros (z & Hz & Hzi & Hzr); exists z; [|naive_solver]. split_and!; try done. intros ->. congruence. }
    destruct (holding i') as [r|] eqn:Hh'.
    + rewrite lookup_insert_Some, Hold. split.
      * intros [[<- <-]|[Hne (z & Hz & ? & ?)]]; [exists i'; split_and!; auto|exists z; auto].
      * intros (z & [-> |Hz] & Hzi & Hzr); [left; split; congruence|]. right. split; [|by exists z].
        destruct (holding_id _ _ Hh') as [n ->]. rewrite Hid. intros <-. by eapply (Hother z); destruct Hz.
    + rewrite Hold. split; [intros (z & ? & ? & ?); exists z; auto|]. intros (z & [-> |Hz] & Hzi & Hzr); [congruence|by exists z].
Qed.

(** Claim C17: if the store lists and takes every record, the amounts in the ledger
    stay finite and investigations have identifiers of their own, the
    reservations in the shared ledger are exactly those of the investigations
    that wait for an answer, or panicked over it: none is lost, none is left
    behind by an investigation that went on or ended, and each belongs to the
    investigation that made it, in every interleaving. *)
Theorem reservations_match (ops : list SysOp) :
  let y := sys_run cfg ops (mkSystem [] store_new) in
  NoDup (spawned ops) ->
  (forall n op, ops !! n = Some op -> good_move (sys_run cfg (take n ops) (mkSystem [] store_new)) op) ->
  forall rid id, reserved (store y) !! rid = Some id <-> exists i, i ∈ investigations y /\ i_id i = id /\ holding i = Some rid.
Proof.
  intros y Hnd Hg. destruct (sys_run_keeps ledger_matches good_move ops) with (y := mkSystem [] store_new) as [Hm _]; try done.
  - intros y' op Hm Hgood Hn _. by apply ledger_matches_step.
  - intros rid id. change (reserved (store (mkSystem [] store_new))) with (fst <$> (∅ : gmap string (string * f64))).
    rewrite fmap_empty, lookup_empty. split; [done|]. intros (i & Hi & _). by apply elem_of_nil in Hi.
Qed.


(** *** Questions *)

(** The moves of one investigation. *)
Fixpoint inv_run (n : nat) (env : nat -> InvEnv) (i : Investigation) (s : Store) : Investigation * Store :=
  match n with
  | O => (i, s)
  | S n' => let '(i', s') := inv_step cfg (env O) i s in inv_run n' (fun k => env (S k)) i' s'
  end.

(** The questions to the model among the first [n] moves. *)
Definition asks (p : Point) : nat := match p with I_Call _ => 1 | _ => 0 end.

Fixpoint questions (n : nat) (env : nat -> InvEnv) (i : Investigation) (s : Store) : nat :=
  match n with
  | O => 0
  | S n' => let '(i', s') := inv_step cfg (env O) i s in asks (i_point i) + questions n' (fun k => env (S k)) i' s'
  end.

(** How many more there can be. *)
Definition remaining (p : Point) : nat :=
  match p with
  | I_Gate | I_Provider | I_Check => MAX_ITERATIONS
  | I_Reserve n | I_Call n => MAX_ITERATIONS - n
  | I_Commit n _ | I_Release n _ | I_Tools n _ => MAX_ITERATIONS - S n
  | I_Finish _ | I_Early _ | I_Done _ | I_Panicked _ => 0
  end.

Definition iteration_ok (p : Point) : Prop := match p with I_Call n => (n < MAX_ITERATIONS)%nat | _ => True end.

#[local] Ltac within :=
  cbn [fst goto say i_point remaining asks iteration_ok] in *; unfold MAX_ITERATIONS in *; split; [first [exact I|lia]|lia].

Lemma remaining_step e i s :
  iteration_ok (i_point i) ->
  let i' := (inv_step cfg e i s).1 in iteration_ok (i_point i') /\ (asks (i_point i) + remaining (i_point i') <= remaining (i_point i))%nat.
Proof.
  intros Hok. unfold inv_step. destruct (i_point i) as [| | |n|n|n resp|n err|n [|tc rest]|reason|reason|o|np] eqn:Hp; cbn [iteration_ok asks remaining] in *.
  - destruct (daily_gate cfg e s) as [s' [r|]]; within.
  - destruct (e_provider_error e); within.
  - destruct (daily_gate cfg e s) as [s' [r|]]; within.
  - destruct (Nat.leb_spec MAX_ITERATIONS n); [within|]. destruct (reserve_durable_budget _ _ _ _ _ _ _) as [s' [r|]]; within.
  - unfold counted. destruct (e_answer e); [|destruct (checked_i64 _)]; within.
  - destruct (commit_durable_budget _ _ _ _) as [s' c]. unfold after_commit. repeat case_match; within.
  - within.
  - within.
  - unfold tool_step. case_bool_decide; within.
  - within.
  - within.
  - cbn [fst]. rewrite Hp. within.
  - cbn [fst]. rewrite Hp. within.
Qed.

Lemma questions_bounded n env i s : iteration_ok (i_point i) -> (questions n env i s <= remaining (i_point i))%nat.
Proof.
  revert env i s. induction n as [|n IH]; intros env i s Hok; [cbn; lia|]. cbn [questions].
  pose proof (remaining_step (env O) i s Hok) as [Hok' Hr]. destruct (inv_step cfg (env O) i s) as [i' s']. cbn [fst] in *.
  specialize (IH (fun k => env (S k)) i' s' Hok'). lia.
Qed.

(** *** The end *)

(** An answer that reports more tokens than any model has. *)
Definition excessive (e : InvEnv) : Prop := exists resp, e_answer e = inr resp /\ ~ 0 <= tokens_used resp < 2 ^ 59.

(** It ends with an outcome, or in a checked build with a panic, after such an
    answer (or when [b] holds, which says that there was one before). *)
Definition ended (b : Prop) (env : nat -> InvEnv) (p : Point) : Prop :=
  (exists o, p = I_Done o) \/ (exists k, p = I_Panicked k) /\ overflow_checks = true /\ (b \/ exists k, excessive (env k)).

Definition ends (b : Prop) (i : Investigation) : Prop := forall env s, exists n, ended b env (i_point (inv_run n env i s).1).

Lemma ends_step b i : (forall e s, ends (b \/ excessive e) (inv_step cfg e i s).1) -> ends b i.
Proof.
  intros Hs env s. destruct (Hs (env O) s (fun k => env (S k)) (inv_step cfg (env O) i s).2) as (n & Hn). exists (S n). cbn [inv_run].
  destruct (inv_step cfg (env O) i s). destruct Hn as [Ho|(Hp & Hov & Hx)]; [by left|right]. split_and!; [done|done|].
  destruct Hx as [[Hb|Hx]|[k Hx]]; [by left|right; by exists O|right; by exists (S k)].
Qed.

Lemma ends_done b i o : i_point i = I_Done o -> ends b i.
Proof. intros Hp env s. exists O. left. by exists o. Qed.

Lemma ends_finish b i reason : i_point i = I_Finish reason \/ i_point i = I_Early reason -> ends b i.
Proof. intros Hp. apply ends_step. intros e s. destruct Hp as [Hp|Hp]; unfold inv_step; rewrite Hp; by eapply ends_done. Qed.

(** The tokens so far, unless there was an excessive answer. *)
Definition tokens_ok (b : Prop) (n : nat) (i : Investigation) : Prop := b \/ 0 <= total_tokens i <= Z.of_nat n * 2 ^ 59.

Lemma tokens_ok_weaken (b b' : Prop) n i : (b -> b') -> tokens_ok b n i -> tokens_ok b' n i.
Proof. unfold tokens_ok. tauto. Qed.

(** Counting an answer: the tokens stay small, or the panic is after an excessive one. *)
Lemma counted_cases b n e resp i :
  (n < MAX_ITERATIONS)%nat -> e_answer e = inr resp -> tokens_ok b n i ->
  (i_point (counted n resp i) = I_Commit n resp /\ tokens_ok (b \/ excessive e) (S n) (counted n resp i)) \/
  (i_point (counted n resp i) = I_Panicked n /\ overflow_checks = true /\ (b \/ excessive e)).
Proof.
  intros Hn He Ht. unfold counted, checked_i64. set (v := total_tokens i + as_i64 (tokens_used resp)).
  assert ((b \/ excessive e) \/ 0 <= v <= Z.of_nat (S n) * 2 ^ 59) as Hv.
  { destruct Ht as [Hb|Ht]; [by do 2 left|]. destruct (decide (0 <= tokens_used resp < 2 ^ 59)) as [Hs|Hs]; [right|left; right; by exists resp].
    unfold v, as_i64. rewrite Z.mod_small by lia. lia. }
  unfold MAX_ITERATIONS in Hn. destruct ((- 2 ^ 63 <=? v) && (v <? 2 ^ 63)) eqn:Hr; [left; split; [done|]; destruct Hv; [by left|by right]|].
  destruct Hv as [Hx|Hv]; [|lia]. destruct overflow_checks eqn:Hov; [right; done|left]. split; [done|by left].
Qed.

Lemma ends_panicked (b : Prop) i n : i_point i = I_Panicked n -> overflow_checks = true -> b -> ends b i.
Proof. intros Hp Hov Hb env s. exists O. right. split_and!; [by exists n|done|by left]. Qed.

Lemma inv_tokens_tools e i s n calls :
  i_point i = I_Tools n calls -> total_tokens (inv_step cfg e i s).1 = total_tokens i.
Proof. intros Hp. unfold inv_step. rewrite Hp. destruct calls; [done|]. unfold tool_step. by case_bool_decide. Qed.

Lemma ends_tools (n : nat) :
  (forall b i, i_point i = I_Reserve (S n) -> tokens_ok b (S n) i -> ends b i) ->
  forall calls b i, i_point i = I_Tools n calls -> tokens_ok b (S n) i -> ends b i.
Proof.
  intros Hnext. induction calls as [|tc rest IH]; intros b i Hi Ht; apply ends_step; intros e s;
    pose proof (inv_tokens_tools e i s n _ Hi) as Htk; unfold inv_step in *; rewrite Hi in *.
  - apply Hnext; [done|]. unfold tokens_ok in *. tauto.
  - unfold tool_step in *. case_bool_decide; [by eapply ends_finish; left|]. apply IH; [done|]. unfold tokens_ok in *. cbn in *. tauto.
Qed.

Lemma ends_commit n resp b i :
  (forall b i, i_point i = I_Reserve (S n) -> tokens_ok b (S n) i -> ends b i) ->
  i_point i = I_Commit n resp -> tokens_ok b (S n) i -> ends b i.
Proof.
  intros Hnext Hi Ht. apply ends_step. intros e s. unfold inv_step. rewrite Hi. destruct (commit_durable_budget _ _ _ _) as [s4 c]. cbn [fst].
  unfold after_commit. repeat case_match; [by eapply ends_finish; left..|]. eapply ends_tools; [done|done|]. unfold tokens_ok in *. cbn. tauto.
Qed.

Lemma ends_loop k : forall n b i, (MAX_ITERATIONS - n = k)%nat -> i_point i = I_Reserve n -> tokens_ok b n i -> ends b i.
Proof.
  induction k as [|k IH]; intros n b i Hk Hp Ht; apply ends_step; intros e s; unfold inv_step; rewrite Hp;
    destruct (Nat.leb_spec MAX_ITERATIONS n) as [Hle|Hlt]; try lia.
  { by eapply ends_finish; left. }
  destruct (reserve_durable_budget _ _ _ _ _ _ _) as [s' [r|]]; [by eapply ends_finish; left|].
  apply ends_step. intros e2 s2. unfold inv_step. cbn [fst goto i_point]. destruct (e_answer e2) as [err|resp] eqn:He2.
  - apply ends_step. intros e3 s3. by eapply ends_finish; left.
  - destruct (counted_cases b n e2 resp (goto (I_Call n) i) Hlt He2 Ht) as [[Hc Hct]|(Hc & Hov & Hx)].
    + apply (ends_commit n resp); [intros b' i' Hi' Ht'; by apply (IH (S n)); [lia|..]|exact Hc|].
      apply (tokens_ok_weaken (b \/ excessive e2)); [|exact Hct]. intros [?|?]; [by left; left|by right].
    + apply (ends_panicked _ _ n); [exact Hc|done|]. destruct Hx as [?|?]; [by left; left|by right].
Qed.

Lemma ends_new id device : ends False (investigation_new id device).
Proof.
  assert (forall b j, i_point j = I_Check -> ends b j) as Hcheck.
  { intros b j Hj. apply ends_step. intros e1 s1. unfold inv_step. rewrite Hj. destruct (daily_gate cfg e1 s1) as [s2 [r|]]; [by eapply ends_finish; right|].
    eapply (ends_loop _ O); [done|done|]. right. cbn. lia. }
  apply ends_step. intros e1 s1. unfold inv_step. cbn [investigation_new i_point]. destruct (daily_gate cfg e1 s1) as [s2 [r|]]; [by eapply ends_finish; right|].
  apply ends_step. intros e2 s3. unfold inv_step. cbn [fst goto i_point]. destruct (e_provider_error e2); [by eapply ends_finish; right|]. by apply Hcheck.
Qed.

(** Claim C31: an investigation asks the model fifteen times at most, and ends with an
    outcome, whatever the model, the tools and the store answer, unless the build
    checks for overflow and an answer reports 2^59 tokens or more: then it may
    end in a panic, when their sum leaves an [i64]. *)
Theorem investigation_ends (id device : string) (env : nat -> InvEnv) (s : Store) :
  (forall n, questions n env (investigation_new id device) s <= MAX_ITERATIONS)%nat /\
  exists n, let p := i_point (inv_run n env (investigation_new id device) s).1 in
    (exists o, p = I_Done o) \/ (exists k, p = I_Panicked k) /\ overflow_checks = true /\ exists k, excessive (env k).
Proof.
  split; [intros n; by apply questions_bounded|]. destruct (ends_new id device env s) as (n & Hn). exists n.
  destruct Hn as [Ho|(Hp & Hov & [[]|Hx])]; [by left|by right].
Qed.

(** *** What the ledger does not do *)

(** The amount committed on a day is never taken back: on the next day, when nothing
    has been spent, the ledger still has it and no investigation starts. *)
Theorem daily_budget_never_resets (e : InvEnv) (i : Investigation) (s : Store) (spent : f64) :
  let l := load_durable_budget_ledger (e_reply e) s in
  i_point i = I_Gate -> e_daily e = inr spent -> f64_lt (daily_committed_usd l) spent = false ->
  f64_lt f64_zero (daily_budget_usd cfg) = true ->
  f64_le (daily_budget_usd cfg) (f64_add (daily_committed_usd l) (total_reserved_usd l)) = true ->
  exists used, inv_step cfg e i s = (goto (I_Early (DailyBudgetExceeded used (daily_budget_usd cfg))) i, s).
Proof.
  intros l Hp Hd Hlt Hpos Hle. unfold inv_step. rewrite Hp. unfold daily_gate, sync_durable_budget_ledger. rewrite Hd. fold l. rewrite Hlt, Hpos, Hle.
  by eexists.
Qed.

(** When the ledger cannot be listed the reservation is made in an empty one, which is
    then saved: what was committed and reserved before is forgotten. *)
Theorem failed_listing_forgets (rid inv : string) (est per daily : f64) (s s' : Store) :
  reserve_durable_budget (mkReply false true) rid inv est per daily s = (s', None) ->
  exists l, ledger_item s' = Some (ledger_to_string l) /\ daily_committed_usd l = f64_zero /\ committed_by_investigation l = ∅ /\
    dom (active_reservations l) = {[rid]}.
Proof.
  unfold reserve_durable_budget. destruct (reserve _ _ _ _ _ _) as [|l] eqn:Hr; [done|]. intros [= <-]. exists l. split; [done|].
  unfold reserve in Hr. cbn zeta in Hr. repeat (case_match; try done). injection Hr as <-. cbn. split_and!; try done. set_solver.
Qed.

End Concurrent.

(** ** Running the model *)

Section Demo.

(** A ledger as text: its encoding as a number, in binary. *)
Fixpoint bits_text (p : positive) : string :=
  match p with xH => EmptyString | xO p' => String "0" (bits_text p') | xI p' => String "1" (bits_text p') end.

Fixpoint text_bits (s : string) : positive :=
  match s with EmptyString => xH | String c s' => if bool_decide (c = "0"%char) then xO (text_bits s') else xI (text_bits s') end.

Lemma text_bits_text p : text_bits (bits_text p) = p.
Proof. induction p as [p IH|p IH|]; cbn; rewrite ?IH; done. Qed.

#[local] Instance spec_float_countable : Countable SpecFloat.spec_float.
Proof.
  refine (inj_countable'
    (fun x => match x with SpecFloat.S754_zero s => inl (inl s) | SpecFloat.S754_infinity s => inl (inr s) | SpecFloat.S754_nan => inr (inl tt)
                         | SpecFloat.S754_finite s m e => inr (inr (s, m, e)) end)
    (fun x => match x with inl (inl s) => SpecFloat.S754_zero s | inl (inr s) => SpecFloat.S754_infinity s | inr (inl _) => SpecFloat.S754_nan
                         | inr (inr (s, m, e)) => SpecFloat.S754_finite s m e end) _).
  by intros [].
Defined.

#[local] Instance ledger_eq_dec : EqDecision BudgetReservationLedger.
Proof. solve_decision. Defined.

#[local] Instance ledger_countable : Countable BudgetReservationLedger.
Proof.
  refine (inj_countable' (fun l => (daily_committed_usd l, committed_by_investigation l, active_reservations l))
            (fun x => mkLedger x.1.1 x.1.2 x.2) _).
  by intros [].
Defined.

#[local] Instance binary_ledger : LedgerJson.
Proof.
  refine {| ledger_to_string l := bits_text (encode l); ledger_from_str s := decode (text_bits s) |}.
  intros l _. exists l. by rewrite text_bits_text, decode_encode.
Defined.

(** A reader that finds a plausible cause in every candidate. *)
Definition link_flap (epistemic : string) : TypedInvestigationRca :=
  mkRca " link_flap " f64_one false epistemic ["r1"] "replace the optic" [] [] [] None.

#[local] Instance one_rca : RcaText :=
  {| rca_from_str s := if bool_decide (s = "{?}"%string) then inr (link_flap " Plausible ") else inl "expected value"%string;
     rca_to_string r := (root_cause_type r ++ "/" ++ epistemic_state r)%string; fmt_fixed _ _ := "0"; fmt_float _ := "0"; fmt_debug_str s := s |}.

#[local] Instance ascii_case : Lowercase.
Proof. refine {| to_lowercase := to_ascii_lowercase |}. done. Defined.

#[local] Instance print_nothing : JsonPrint := fun _ => "null"%string.
#[local] Existing Instance trie_order.
#[local] Instance checked_build : BuildProfile := true.

Definition budget : AiConfig := mkAiConfig f64_one f64_one.

Definition call (name : string) : AiToolCall := mkToolCall "c1" name V_Null.
Definition answer (text : string) (calls : list AiToolCall) : InvEnv :=
  mkInvEnv (inr f64_zero) store_works None None ("sys", "usr")%string
    (inr (mkResponse (Some text) calls "tool_use" 10 f64_5em3)) (inr V_Null) true.
Definition model_error : InvEnv :=
  mkInvEnv (inr f64_zero) store_works None None ("sys", "usr")%string (inl "timeout"%string) (inr V_Null) true.

Definition moves (k n : nat) (e : InvEnv) : list SysOp := replicate n (OpMove k e).

(** Two investigations: one asks twice and completes, the other fails. *)
Definition demo_ops : list SysOp :=
  [OpSpawn "a" "r1"; OpSpawn "b" "r2"] ++ moves 0 4 (answer "" []) ++ moves 1 4 (answer "" []) ++
  moves 0 5 (answer "looking" [call "query_graph"]) ++ moves 1 4 model_error ++ moves 0 6 (answer "done: {?}" []).

Example investigation_demo_run :
  let y := sys_run budget demo_ops (mkSystem [] store_new) in
  (fun c => (c_id c, c_status c, c_proposal c)) <$> completions (store y) = [("b", "failed", "{}"); ("a", "completed", "link_flap/plausible")]%string /\
  tr_name <$> tool_records (store y) = ["query_graph"%string] /\ reserved (store y) = ∅.
Proof. vm_compute. split_and!; reflexivity. Qed.

Lemma outcomes_are_honest_witness :
  exists rca, validated "link_flap/plausible" rca /\ (epistemic_state rca = "supported"%string \/ epistemic_state rca = "plausible"%string).
Proof.
  assert (exists c, c ∈ completions (store (sys_run budget demo_ops (mkSystem [] store_new))) /\
            c_status c = "completed"%string /\ c_proposal c = "link_flap/plausible"%string) as (c & Hc & Hst & Hp).
  { eexists. split; [apply list_elem_of_lookup_2 with (i := 1%nat); vm_compute; reflexivity|split; reflexivity]. }
  destruct (outcomes_are_honest budget demo_ops c Hc) as [Hposted|[_ Hr]].
  - assert (posted demo_ops = []) as Hnone by reflexivity. rewrite Hnone in Hposted. by apply elem_of_nil in Hposted.
  - rewrite <- Hp. by apply Hr.
Defined.

(** A client completes an investigation with a proposal of its own. *)
Definition made_up : Completion := mkCompletion "a" "completed" "" "reboot everything" 0 f64_zero.

Example posted_outcome_unchecked :
  made_up ∈ completions (store (sys_run budget (demo_ops ++ [OpPost true made_up]) (mkSystem [] store_new))).
Proof. apply list_elem_of_lookup_2 with (i := 2%nat). vm_compute. reflexivity. Qed.

(** Two answers that report 2^62 tokens each stop the task in a checked build; what
    it reserved stays in the ledger. *)
Definition large_answer : InvEnv :=
  mkInvEnv (inr f64_zero) store_works None None ("sys", "usr")%string
    (inr (mkResponse (Some ""%string) [call "query_graph"] "tool_use" (2 ^ 62) f64_zero)) (inr V_Null) true.

Example token_count_panics :
  let y := sys_run budget (OpSpawn "a" "r1" :: moves 0 10 large_answer) (mkSystem [] store_new) in
  i_point <$> investigations y = [I_Panicked 1] /\ reserved (store y) = {["a:iter:1"%string := "a"%string]}.
Proof. vm_compute. split; reflexivity. Qed.

Lemma tool_calls_distinct_witness : NoDup (calls_of "a" (store (sys_run budget demo_ops (mkSystem [] store_new)))).
Proof. apply (tool_calls_distinct budget demo_ops "a"). vm_compute. apply (bool_decide_unpack _). vm_compute. exact I. Defined.

#[local] Instance storable_dec l : Decision (storable l).
Proof. unfold storable. apply _. Defined.

Definition waiting_ops : list SysOp := OpSpawn "a" "r1" :: moves 0 4 (answer "" []).

(** The last of the four moves made the reservation. *)
Lemma reservations_match_witness :
  reserved (store (sys_run budget waiting_ops (mkSystem [] store_new))) !! "a:iter:0"%string = Some "a"%string.
Proof.
  apply (reservations_match budget waiting_ops).
  - apply (bool_decide_unpack _). vm_compute. exact I.
  - intros n op Hn. destruct n as [|[|[|[|[|n]]]]]; cbn in Hn; [injection Hn as <-..|done]; [exact I|..];
      (split; [reflexivity|]; intros i l Hi Hl; vm_compute in Hi; injection Hi as <-; vm_compute in Hl; try discriminate Hl;
       injection Hl as <-; apply (bool_decide_unpack _); vm_compute; exact I).
  - eexists. split; [apply list_elem_of_lookup_2 with (i := 0%nat); vm_compute; reflexivity|split; reflexivity].
Defined.

(** Of two days with the same ledger: what the first one spent blocks the second. *)
Definition spent_ledger : Store := save_durable_budget_ledger store_works (mkLedger f64_one ∅ ∅) store_new.

Example second_day_blocked :
  i_point (inv_run budget 2 (fun _ => answer "" []) (investigation_new "c" "r3") spent_ledger).1 =
  I_Done (resolve_investigation_outcome (DailyBudgetExceeded f64_one f64_one) "").
Proof. vm_compute. reflexivity. Qed.

(** A ledger in which two calls together are within the budget, the reservation of
    the first being smaller than what it costs in the end: the limit is passed. *)
Example reservation_does_not_bound_spend :
  let e := mkInvEnv (inr f64_zero) store_works None None ("", "")%string
             (inr (mkResponse None [] "end_turn" 10 f64_40)) (inr V_Null) true in
  let y := sys_run budget (OpSpawn "a" "r1" :: moves 0 6 e) (mkSystem [] store_new) in
  daily_committed_usd (load_durable_budget_ledger store_works (store y)) = f64_40.
Proof. vm_compute. reflexivity. Qed.

End Demo.
