(* ===== verification/Summarizer.v ===== *)
(** * Counter summaries ([src/counter_summarizer.rs])

    A collector may send summaries of interface counters instead of every update:
    the values of a window of time are folded into a minimum, a maximum, a mean and
    a difference, which are sent when the next window begins or the interface
    falls silent.  The clock is an argument of each call. *)

From Stdlib Require Import ZArith Lia ZifyBool String Ascii.
From stdpp Require Import base numbers list option strings gmap fin_maps.
From S2P Require Import Prelude RustStd HashMaps Jsonl Text Telemetry Float64.

Local Open Scope Z_scope.

Record CounterStats := mkStats {
  cs_min : Z;
  cs_max : Z;
  cs_sum : f64;
  cs_count : Z;
  first_val : Z;
  last_val : Z;
}.

Record InterfaceWindow := mkWindow {
  iw_target : string;
  iw_if_name : string;
  window_start_ts : Z;
  last_update_ts : Z;
  counters : gmap string CounterStats;
}.

Record CounterSummarizer := mkSummarizer {
  window_duration_secs : Z;
  max_entries : Z;
  windows : gmap string InterfaceWindow;
}.

(** [InterfaceCounterSummary] and [InterfaceSummary] of the protocol. *)
Record InterfaceCounterSummary := mkCounterSummary {
  counter_name : string;
  sm_min : Z;
  sm_max : Z;
  sm_mean : f64;
  sm_delta : Z;
}.

Record InterfaceSummary := mkSummary {
  sm_counters : list InterfaceCounterSummary;
  window_secs : Z;
  sm_target : string;
  sm_if_name : string;
}.

Definition with_max_entries (window max : Z) : CounterSummarizer := mkSummarizer window (Z.max max 1) ∅.

Definition summarizer_new (window : Z) : CounterSummarizer := with_max_entries window 1024.

Definition summarizer_len (s : CounterSummarizer) : Z := Z.of_nat (size (windows s)).

Definition summarizer_is_empty (s : CounterSummarizer) : bool := bool_decide (windows s = ∅).

(** The key of a window, with a zero between its parts. *)
Definition window_key (target if_name : string) : string := (target ++ String "000" if_name)%string.

Definition is_counter (v : JsonValue) : bool := match v with V_Number _ | V_String _ => true | _ => false end.

(** The counters an update carries. *)
Definition sampled (u : TelemetryUpdate) : list (string * Z) :=
  match as_object (value u) with
  | Some obj => (fun f => (f.1, json_i64 (value u) f.1)) <$> List.filter (fun f => is_counter f.2) obj
  | None => []
  end.

Definition add_sample (c : gmap string CounterStats) (x : string * Z) : gmap string CounterStats :=
  let '(name, v) := x in
  let st := default (mkStats v v f64_zero 0 v v) (c !! name) in
  <[name := mkStats (Z.min (cs_min st) v) (Z.max (cs_max st) v) (f64_add (cs_sum st) (f64_of_Z v)) (cs_count st + 1) (first_val st) v]> c.

Section Summarizer.
Context `{HashOrder, Lowercase, BuildProfile}.

Local Notation Res := (Outcome unit).

(** The difference is computed in 64 bits. *)
Fixpoint emit_counters (c : gmap string CounterStats) (names : list string) : Res (list InterfaceCounterSummary) :=
  match names with
  | [] => Ok []
  | name :: names' =>
      match c !! name with
      | Some st =>
          if 0 <? cs_count st then
            delta ← checked_i64 (last_val st - first_val st);
            rest ← emit_counters c names';
            Ok (mkCounterSummary name (cs_min st) (cs_max st) (f64_div (cs_sum st) (f64_of_Z (cs_count st))) delta :: rest)
          else emit_counters c names'
      | None => emit_counters c names'
      end
  end.

Definition emit_summary (w : InterfaceWindow) (window : Z) : Res InterfaceSummary :=
  cs ← emit_counters (counters w) (hash_keys (counters w));
  Ok (mkSummary cs (window mod 2 ^ 32) (iw_target w) (iw_if_name w)).

(** [min_by_key]: the first of the windows that were updated longest ago. *)
Fixpoint oldest (best : string * Z) (l : list (string * InterfaceWindow)) : string :=
  match l with
  | [] => best.1
  | (k, w) :: l' => oldest (if last_update_ts w <? best.2 then (k, last_update_ts w) else best) l'
  end.

Definition oldest_key (ws : gmap string InterfaceWindow) : option string :=
  match omap (fun k => (fun w => (k, w)) <$> ws !! k) (hash_keys ws) with
  | [] => None
  | (k, w) :: l => Some (oldest (k, last_update_ts w) l)
  end.

(** The windows after a full table gave up its oldest one. *)
Definition make_room (key : string) (max : Z) (ws : gmap string InterfaceWindow) : gmap string InterfaceWindow :=
  if bool_decide (ws !! key = None) && (max <=? Z.of_nat (size ws)) then
    match oldest_key ws with Some k => delete k ws | None => ws end
  else ws.

Definition observe (now : Z) (u : TelemetryUpdate) (s : CounterSummarizer) : Res (CounterSummarizer * option InterfaceSummary) :=
  match classify u with
  | InterfaceStats if_name =>
      let key := window_key (target u) if_name in
      if window_duration_secs s =? 0 then Panic
      else
        let start := now / window_duration_secs s * window_duration_secs s in
        '(ws, expired) ← match windows s !! key with
                         | Some w => if negb (window_start_ts w =? start) then
                                       sm ← emit_summary w (window_duration_secs s); Ok (delete key (windows s), Some sm)
                                     else Ok (windows s, None)
                         | None => Ok (windows s, None)
                         end;
        let ws1 := make_room key (max_entries s) ws in
        let w := default (mkWindow (target u) if_name start now ∅) (ws1 !! key) in
        let w' := mkWindow (iw_target w) (iw_if_name w) (window_start_ts w) now (foldl add_sample (counters w) (sampled u)) in
        Ok (mkSummarizer (window_duration_secs s) (max_entries s) (<[key := w']> ws1), expired)
  | _ => Ok (s, None)
  end.

Fixpoint flush_keys (keys : list string) (s : CounterSummarizer) : Res (CounterSummarizer * list InterfaceSummary) :=
  match keys with
  | [] => Ok (s, [])
  | k :: keys' =>
      match windows s !! k with
      | Some w =>
          sm ← emit_summary w (window_duration_secs s);
          '(s', sms) ← flush_keys keys' (mkSummarizer (window_duration_secs s) (max_entries s) (delete k (windows s)));
          Ok (s', sm :: sms)
      | None => flush_keys keys' s
      end
  end.

Definition is_stale (now idle : Z) (w : InterfaceWindow) : bool := idle <=? Z.max 0 (now - last_update_ts w).

Definition flush_stale (now idle : Z) (s : CounterSummarizer) : Res (CounterSummarizer * list InterfaceSummary) :=
  flush_keys (List.filter (fun k => match windows s !! k with Some w => is_stale now idle w | None => false end) (hash_keys (windows s))) s.

End Summarizer.

(** ** What a summary says *)

(** The values of one counter among samples. *)
Definition vals (name : string) (l : list (string * Z)) : list Z := snd <$> List.filter (fun x => bool_decide (x.1 = name)) l.

(** The statistics of a list of values. *)
Definition exact (vs : list Z) (st : CounterStats) : Prop :=
  head vs = Some (first_val st) /\ last vs = Some (last_val st) /\ cs_count st = Z.of_nat (length vs) /\
  cs_sum st = foldl f64_add f64_zero (f64_of_Z <$> vs) /\
  (cs_min st ∈ vs /\ forall v, v ∈ vs -> cs_min st <= v) /\ (cs_max st ∈ vs /\ forall v, v ∈ vs -> v <= cs_max st).

Definition tracked (l : list (string * Z)) (c : gmap string CounterStats) : Prop :=
  forall name, match c !! name with Some st => exact (vals name l) st | None => vals name l = [] end.

Lemma vals_snoc name l n v : vals name (l ++ [(n, v)]) = vals name l ++ (if bool_decide (n = name) then [v] else []).
Proof. unfold vals. rewrite List.filter_app, fmap_app. cbn. by destruct (bool_decide _). Qed.

Lemma exact_one v : exact [v] (mkStats (Z.min v v) (Z.max v v) (f64_add f64_zero (f64_of_Z v)) (0 + 1) v v).
Proof. rewrite Z.min_id, Z.max_id. unfold exact. cbn. split_and!; try done; try set_solver; intros w ->%list_elem_of_singleton; lia. Qed.

Lemma exact_snoc vs st v :
  exact vs st -> exact (vs ++ [v]) (mkStats (Z.min (cs_min st) v) (Z.max (cs_max st) v) (f64_add (cs_sum st) (f64_of_Z v)) (cs_count st + 1) (first_val st) v).
Proof.
  intros (Hf & Hl & Hc & Hs & (Hmin & Hmin') & Hmax & Hmax'). unfold exact. cbn [cs_min cs_max cs_sum cs_count first_val last_val]. split_and!.
  - by destruct vs.
  - apply last_snoc.
  - rewrite Hc, length_app. cbn. lia.
  - by rewrite fmap_app, foldl_app, <- Hs.
  - destruct (Z.min_spec (cs_min st) v) as [[_ ->]|[_ ->]]; set_solver.
  - intros w [Hw|Hw]%elem_of_app; [specialize (Hmin' w Hw)|apply list_elem_of_singleton in Hw]; lia.
  - destruct (Z.max_spec (cs_max st) v) as [[_ ->]|[_ ->]]; set_solver.
  - intros w [Hw|Hw]%elem_of_app; [specialize (Hmax' w Hw)|apply list_elem_of_singleton in Hw]; lia.
Qed.

Lemma tracked_sample l c x : tracked l c -> tracked (l ++ [x]) (add_sample c x).
Proof.
  intros Ht. destruct x as [n v]. intros name. specialize (Ht name). rewrite vals_snoc. unfold add_sample. case_bool_decide as Hn.
  - subst n. rewrite lookup_insert_eq. destruct (c !! name) as [st|]; cbn [default from_option id]; [by apply exact_snoc|]. rewrite Ht. apply exact_one.
  - rewrite lookup_insert_ne by done. by rewrite app_nil_r.
Qed.

Lemma tracked_samples xs : forall l c, tracked l c -> tracked (l ++ xs) (foldl add_sample c xs).
Proof.
  induction xs as [|x xs IH]; intros l c Ht; [by rewrite app_nil_r|]. cbn [foldl]. rewrite (cons_middle x), app_assoc. by apply IH, tracked_sample.
Qed.

Lemma tracked_nil : tracked [] ∅.
Proof. intros name. by rewrite lookup_empty. Qed.

(** A summary of samples: each counter once, with its extremes, mean and difference. *)
Definition summarises (l : list (string * Z)) (sm : InterfaceSummary) : Prop :=
  NoDup (counter_name <$> sm_counters sm) /\
  (forall name, name ∈ counter_name <$> sm_counters sm <-> vals name l <> []) /\
  Forall (fun c => exists st, exact (vals (counter_name c) l) st /\ sm_min c = cs_min st /\ sm_max c = cs_max st /\
                     sm_mean c = f64_div (cs_sum st) (f64_of_Z (cs_count st)) /\ sm_delta c = as_i64 (last_val st - first_val st))
         (sm_counters sm).

Section Exact.
Context `{HashOrder, Lowercase, BuildProfile}.

Lemma checked_i64_as v r : checked_i64 (E := unit) v = Ok r -> r = as_i64 v.
Proof.
  unfold checked_i64. destruct ((- 2 ^ 63 <=? v) && (v <? 2 ^ 63)) eqn:Hr.
  - intros [= <-]. unfold as_i64. rewrite Z.mod_small; lia.
  - destruct overflow_checks; [done|]. by intros [= <-].
Qed.

Lemma exact_counted vs st : exact vs st -> 0 < cs_count st.
Proof. intros (Hh & _ & -> & _). destruct vs; [done|]. cbn. lia. Qed.

Lemma emit_counters_spec l c names cs :
  tracked l c -> NoDup names -> emit_counters c names = Ok cs ->
  (forall name, name ∈ counter_name <$> cs <-> name ∈ names /\ is_Some (c !! name)) /\ NoDup (counter_name <$> cs) /\
  Forall (fun x => exists st, exact (vals (counter_name x) l) st /\ sm_min x = cs_min st /\ sm_max x = cs_max st /\
                     sm_mean x = f64_div (cs_sum st) (f64_of_Z (cs_count st)) /\ sm_delta x = as_i64 (last_val st - first_val st)) cs.
Proof.
  intros Ht Hnd. revert cs. induction Hnd as [|name names Hn Hnd IH]; intros cs.
  - intros [= <-]. split_and!; [|constructor|constructor]. cbn. set_solver.
  - cbn [emit_counters]. specialize (Ht name). destruct (c !! name) as [st|] eqn:Hc.
    + rewrite (proj2 (Z.ltb_lt _ _)) by (by eapply exact_counted).
      destruct (checked_i64 (last_val st - first_val st)) as [d| | |] eqn:Hd; try done. apply checked_i64_as in Hd.
      destruct (emit_counters c names) as [rest| | |]; try done. intros [= <-]. destruct (IH rest eq_refl) as (Hin & Hnd' & Hall). split_and!.
      * intros n. cbn. rewrite !elem_of_cons, Hin. split; [intros [->|[? ?]]; [split; [by left|by exists st]|split; [by right|done]]|].
        intros [[->|?] ?]; [by left|by right].
      * cbn. constructor; [|done]. rewrite Hin. by intros [? _].
      * constructor; [|done]. exists st. cbn. done.
    + intros He. destruct (IH cs He) as (Hin & Hnd' & Hall). split_and!; [|done|done]. intros n. rewrite Hin, elem_of_cons.
      split; [intros [? ?]; split; [by right|done]|]. intros [[->|?] Hs]; [rewrite Hc in Hs; by destruct Hs|done].
Qed.

Lemma emit_summarises l w window sm : tracked l (counters w) -> emit_summary w window = Ok sm -> summarises l sm.
Proof.
  intros Ht. unfold emit_summary. destruct (emit_counters (counters w) (hash_keys (counters w))) as [cs| | |] eqn:He; try done. intros [= <-].
  destruct (emit_counters_spec l _ _ cs Ht (NoDup_hash_keys _) He) as (Hin & Hnd & Hall). split_and!; [done| |done].
  intros name. rewrite Hin, elem_of_hash_keys. specialize (Ht name). destruct (counters w !! name) as [st|].
  - split; [intros _|by intros _; split; eexists]. intros Hv. rewrite Hv in Ht. by destruct Ht.
  - split; [by intros [[? ?] _]|done].
Qed.

End Exact.

(** ** Runs *)

Section Runs.
Context `{HashOrder, Lowercase, BuildProfile}.

Inductive SumOp := SObserve (now : Z) (u : TelemetryUpdate) | SFlush (now idle : Z).

(** The window an update belongs to. *)
Definition key_of (u : TelemetryUpdate) : option string :=
  match classify u with InterfaceStats if_name => Some (window_key (target u) if_name) | _ => None end.

Local Notation Updates := (list (Z * TelemetryUpdate)).

(** Beside the summarizer: the updates each open window has seen, and the summaries
    that were returned with the updates of their windows. *)
Record SumState := mkSumState { ss : CounterSummarizer; seen : gmap string Updates; outs : list (Updates * InterfaceSummary) }.

Definition stale_keys (now idle : Z) (s : CounterSummarizer) : list string :=
  List.filter (fun k => match windows s !! k with Some w => is_stale now idle w | None => false end) (hash_keys (windows s)).

Definition open_only (s : CounterSummarizer) (g : gmap string Updates) : gmap string Updates :=
  base.filter (fun kv => is_Some (windows s !! kv.1)) g.

Definition sum_step (x : SumState) (op : SumOp) : Outcome unit SumState :=
  match op with
  | SObserve now u =>
      '(s', o) ← observe now u (ss x);
      match key_of u with
      | None => Ok (mkSumState s' (seen x) (outs x))
      | Some k =>
          let kept := open_only s' (match o with Some _ => delete k (seen x) | None => seen x end) in
          Ok (mkSumState s' (<[k := default [] (kept !! k) ++ [(now, u)]]> kept)
                (outs x ++ match o with Some sm => [(default [] (seen x !! k), sm)] | None => [] end))
      end
  | SFlush now idle =>
      '(s', sms) ← flush_stale now idle (ss x);
      Ok (mkSumState s' (open_only s' (seen x)) (outs x ++ zip ((fun k => default [] (seen x !! k)) <$> stale_keys now idle (ss x)) sms))
  end.

Fixpoint sum_run (ops : list SumOp) (x : SumState) : Outcome unit SumState :=
  match ops with [] => Ok x | op :: ops' => x' ← sum_step x op; sum_run ops' x' end.

Definition samples (us : Updates) : list (string * Z) := us ≫= fun x => sampled x.2.

(** The updates of one interface in one window of time. *)
Definition of_window (dur : Z) (k : string) (start : Z) (us : Updates) : Prop :=
  us <> [] /\ Forall (fun x => key_of x.2 = Some k /\ x.1 / dur * dur = start) us.

(** The device and the interface of the first update. *)
Definition opened_by (us : Updates) (tgt if_name : string) : Prop :=
  exists y us', us = y :: us' /\ target y.2 = tgt /\ classify y.2 = InterfaceStats if_name.

Definition of_interface (tgt if_name : string) (us : Updates) : Prop :=
  Forall (fun y => target y.2 = tgt /\ classify y.2 = InterfaceStats if_name) us.

(** A summary is filed under the interface its updates came for. *)
Definition out_ok (dur : Z) (o : Updates * InterfaceSummary) : Prop :=
  let '(us, sm) := o in
  (exists start, of_window dur (window_key (sm_target sm) (sm_if_name sm)) start us) /\ opened_by us (sm_target sm) (sm_if_name sm) /\
  window_secs sm = dur mod 2 ^ 32 /\ summarises (samples us) sm.

Definition window_ok (dur : Z) (k : string) (us : Updates) (w : InterfaceWindow) : Prop :=
  of_window dur k (window_start_ts w) us /\ tracked (samples us) (counters w) /\ opened_by us (iw_target w) (iw_if_name w).

Definition Tracks (dur max : Z) (x : SumState) : Prop :=
  window_duration_secs (ss x) = dur /\ max_entries (ss x) = max /\ Z.of_nat (size (windows (ss x))) <= max /\
  (forall k, match windows (ss x) !! k, seen x !! k with
             | Some w, Some us => window_ok dur k us w
             | None, None => True
             | _, _ => False
             end) /\
  Forall (out_ok dur) (outs x).

Lemma window_ok_lookup dur max x k w :
  Tracks dur max x -> windows (ss x) !! k = Some w -> exists us, seen x !! k = Some us /\ window_ok dur k us w.
Proof. intros (_ & _ & _ & Hw & _) Hk. specialize (Hw k). rewrite Hk in Hw. destruct (seen x !! k) as [us|]; [by exists us|done]. Qed.

(** The key of a window is that of the interface it was opened for. *)
Lemma window_ok_key dur k us w : window_ok dur k us w -> k = window_key (iw_target w) (iw_if_name w).
Proof.
  intros ([_ Hall] & _ & y & us' & -> & <- & Hc). inversion_clear Hall as [|? ? [Hk _] _]. unfold key_of in Hk. rewrite Hc in Hk. congruence.
Qed.

Lemma emit_filed w window sm :
  emit_summary w window = Ok sm -> sm_target sm = iw_target w /\ sm_if_name sm = iw_if_name w /\ window_secs sm = window mod 2 ^ 32.
Proof. unfold emit_summary. destruct (emit_counters _ _); try done. by intros [= <-]. Qed.

Lemma emitted_ok dur max x k w sm :
  Tracks dur max x -> windows (ss x) !! k = Some w -> emit_summary w dur = Ok sm -> out_ok dur (default [] (seen x !! k), sm).
Proof.
  intros Ht Hk He. destruct (window_ok_lookup _ _ _ _ _ Ht Hk) as (us & -> & Hok). pose proof (window_ok_key _ _ _ _ Hok) as Hkey.
  destruct Hok as (Hof & Htr & Hop). destruct (emit_filed _ _ _ He) as (Ht' & Hn & Hs). unfold out_ok. cbn [default from_option id].
  rewrite Ht', Hn. split_and!; [exists (window_start_ts w); by rewrite <- Hkey|done|done|by eapply emit_summarises].
Qed.

(** The character between the parts of a key tells them apart. *)
Lemma window_key_inj t n t' n' :
  split_once "000" t = None -> split_once "000" t' = None -> window_key t n = window_key t' n' -> t = t' /\ n = n'.
Proof.
  intros Ht Ht' He. unfold window_key in He. pose proof (split_once_app "000" t n Ht) as Hs1. pose proof (split_once_app "000" t' n' Ht') as Hs2.
  rewrite He, Hs2 in Hs1. by injection Hs1.
Qed.

Lemma out_of_interface dur us sm :
  out_ok dur (us, sm) -> Forall (fun y => split_once "000" (target y.2) = None) us -> of_interface (sm_target sm) (sm_if_name sm) us.
Proof.
  intros ((start & _ & Hall) & (y & us' & Hus & Hy & _) & _) Hz.
  assert (split_once "000" (sm_target sm) = None) as Hsm by (rewrite <- Hy; subst us; by inversion_clear Hz).
  clear Hus. unfold of_interface. induction us as [|x us IH]; [done|]. inversion_clear Hall as [|? ? [Hk _] ?]. inversion_clear Hz. constructor; [|by apply IH].
  unfold key_of in Hk. destruct (classify x.2) eqn:Hc; try done. injection Hk as Hk. apply window_key_inj in Hk as [-> ->]; done.
Qed.

Lemma lookup_open_only s g k : open_only s g !! k = match windows s !! k with Some _ => g !! k | None => None end.
Proof.
  unfold open_only. rewrite map_lookup_filter. destruct (g !! k) as [us|]; cbn; [|by destruct (windows s !! k)].
  destruct (windows s !! k) eqn:Hk; cbn; rewrite ?Hk; [by rewrite option_guard_True by (by eexists)|].
  rewrite option_guard_False; [done|]. by intros [? ?].
Qed.

Lemma oldest_elem l best : oldest best l = best.1 \/ oldest best l ∈ l.*1.
Proof.
  revert best. induction l as [|[k w] l IH]; intros best; cbn [oldest]; [by left|].
  destruct (IH (if last_update_ts w <? best.2 then (k, last_update_ts w) else best)) as [He|He]; [|right; by right].
  rewrite He. destruct (last_update_ts w <? best.2); [right; by left|by left].
Qed.

Lemma oldest_key_some ws : ws <> ∅ -> exists k, oldest_key ws = Some k /\ is_Some (ws !! k).
Proof.
  intros Hne. unfold oldest_key. set (l := omap _ (hash_keys ws)).
  assert (forall k, k ∈ l.*1 -> is_Some (ws !! k)) as Hl.
  { intros k Hk. apply list_elem_of_fmap in Hk as ([k' w] & -> & Hin). unfold l in Hin. apply list_elem_of_omap in Hin as (k2 & _ & Hw).
    destruct (ws !! k2) eqn:Hk2; [|done]. injection Hw as <- <-. by exists i. }
  destruct l as [|[k w] l'] eqn:Hl'.
  - destruct Hne. apply map_eq. intros k. rewrite lookup_empty. destruct (ws !! k) as [w|] eqn:Hk; [|done]. exfalso.
    assert ((k, w) ∈ l) as Hin; [|rewrite Hl' in Hin; by apply elem_of_nil in Hin]. unfold l. apply list_elem_of_omap. exists k. rewrite Hk.
    split; [|done]. apply elem_of_hash_keys. by eexists.
  - eexists. split; [done|]. apply Hl. cbn. destruct (oldest_elem l' (k, last_update_ts w)) as [->|Hin]; [by left|by right].
Qed.

(** The table has room for the key after [make_room], and keeps its windows but one. *)
Lemma make_room_spec key max ws :
  1 <= max -> Z.of_nat (size ws) <= max ->
  let ws1 := make_room key max ws in
  (forall k w, ws1 !! k = Some w -> ws !! k = Some w) /\ ws1 !! key = ws !! key /\
  (Z.of_nat (size ws1) <= max) /\ (ws !! key = None -> Z.of_nat (size ws1) < max).
Proof.
  intros Hmax Hsz. unfold make_room. destruct (bool_decide (ws !! key = None)) eqn:Hb; cbn [andb].
  - apply bool_decide_eq_true in Hb. destruct (Z.leb_spec max (Z.of_nat (size ws))) as [Hle|Hlt]; [|split_and!; try done; lia].
    destruct (oldest_key_some ws) as (k & -> & [w Hw]); [intros ->; rewrite map_size_empty in Hle; lia|].
    assert (size (delete k ws) = Nat.pred (size ws)) as Hd by (apply map_size_delete_Some; by eexists).
    assert (size ws <> O) as Hpos by (intros Hz; apply map_size_empty_inv in Hz; subst ws; by rewrite lookup_empty in Hw).
    split_and!; [intros k' w'; by intros [_ ?]%lookup_delete_Some|rewrite lookup_delete_ne; [done|intros ->; congruence]|lia|lia].
  - apply bool_decide_eq_false in Hb. split_and!; try done; lia.
Qed.

(** The windows after an expired one was taken out. *)
Lemma roll_spec dur max x key start ws o :
  Tracks dur max x ->
  match windows (ss x) !! key with
  | Some w => if negb (window_start_ts w =? start) then sm ← emit_summary w dur; Ok (delete key (windows (ss x)), Some sm)
              else Ok (windows (ss x), None)
  | None => Ok (windows (ss x), None)
  end = Ok (ws, o) ->
  Z.of_nat (size ws) <= max /\
  (forall k w, ws !! k = Some w -> windows (ss x) !! k = Some w) /\
  (forall w, ws !! key = Some w -> o = None /\ window_start_ts w = start) /\
  (o = None -> ws = windows (ss x)) /\ (forall k, k <> key -> ws !! k = windows (ss x) !! k) /\
  Forall (out_ok dur) (match o with Some sm => [(default [] (seen x !! key), sm)] | None => [] end).
Proof.
  intros Ht. pose proof Ht as (_ & _ & Hsz & _ & _). destruct (windows (ss x) !! key) as [w|] eqn:Hk.
  - destruct (Z.eqb_spec (window_start_ts w) start) as [He|Hne]; cbn [negb].
    + intros [= <- <-]. split_and!; try done. intros w' Hw'. rewrite Hk in Hw'. by injection Hw' as <-.
    + destruct (emit_summary w dur) as [sm| | |] eqn:He; try done. intros [= <- <-]. split_and!; [|..|repeat constructor; by eapply emitted_ok].
      * pose proof (map_size_delete key (windows (ss x))) as Hd. rewrite Hk in Hd. lia.
      * by intros k w' [_ ?]%lookup_delete_Some.
      * intros w'. by rewrite lookup_delete_eq.
      * done.
      * intros k Hk'. by rewrite lookup_delete_ne.
  - intros [= <- <-]. split_and!; try done. intros w'. by rewrite Hk.
Qed.

(** The window of the update, after it was counted. *)
Lemma window_ok_counted dur k us w now u if_name :
  classify u = InterfaceStats if_name -> k = window_key (target u) if_name -> now / dur * dur = window_start_ts w ->
  (us = [] -> counters w = ∅ /\ iw_target w = target u /\ iw_if_name w = if_name) -> (us <> [] -> window_ok dur k us w) ->
  window_ok dur k (us ++ [(now, u)])
    (mkWindow (iw_target w) (iw_if_name w) (window_start_ts w) now (foldl add_sample (counters w) (sampled u))).
Proof.
  intros Hc -> Hs Hnil Hok.
  assert (tracked (samples us) (counters w) /\ Forall (fun x => key_of x.2 = Some (window_key (target u) if_name) /\ x.1 / dur * dur = window_start_ts w) us)
    as [Htr Hall].
  { destruct us as [|y us]; [rewrite (proj1 (Hnil eq_refl)); split; [apply tracked_nil|constructor]|]. by destruct (Hok ltac:(done)) as ([_ ?] & ? & _). }
  split; [split|split].
  - by destruct us.
  - apply Forall_app. split; [done|]. apply Forall_singleton. cbn. split; [|done]. unfold key_of. by rewrite Hc.
  - cbn [counters]. unfold samples in *. rewrite bind_app. cbn [mbind list_bind]. rewrite app_nil_r. by apply tracked_samples.
  - cbn [iw_target iw_if_name]. destruct us as [|y us]; [destruct (Hnil eq_refl) as (_ & -> & ->); by exists (now, u), []|].
    destruct (Hok ltac:(done)) as (_ & _ & z & us' & [= -> ->] & Hz). by exists z, (us' ++ [(now, u)]).
Qed.

Lemma tracks_observe dur max now u x x' :
  1 <= max -> Tracks dur max x -> sum_step x (SObserve now u) = Ok x' -> Tracks dur max x'.
Proof.
  intros Hmax Ht. pose proof Ht as (Hdur & Hmx & Hsz & Hw & Ho). cbn [sum_step]. unfold observe, key_of.
  destruct (classify u) eqn:Hc; try (by intros [= <-]; destruct x).
  rewrite Hdur, Hmx. destruct (dur =? 0); [done|]. set (key := window_key (target u) if_name). set (start := now / dur * dur).
  match goal with |- context [match windows (ss x) !! key with _ => _ end] =>
    destruct (match windows (ss x) !! key with
              | Some w => if negb (window_start_ts w =? start) then sm ← emit_summary w dur; Ok (delete key (windows (ss x)), Some sm)
                          else Ok (windows (ss x), None)
              | None => Ok (windows (ss x), None)
              end) as [[ws o]| | |] eqn:Hroll end; try done.
  destruct (roll_spec _ _ _ _ _ _ _ Ht Hroll) as (Hsz' & Hsub & Hkey & Hsame & Hother & Hout).
  destruct (make_room_spec key max ws Hmax Hsz') as (Hmr & Hmk & Hms & Hmn). set (ws1 := make_room key max ws) in *.
  intros [= <-]. fold ws1. split_and!; cbn [ss windows window_duration_secs max_entries seen outs]; [done|done| | |by apply Forall_app].
  - destruct (ws1 !! key) as [w|] eqn:Hk1; [rewrite map_size_insert_Some by (by eexists); done|].
    rewrite map_size_insert_None by done. specialize (Hmn (eq_sym Hmk)). lia.
  - intros k. destruct (decide (key = k)) as [<-|Hne].
    + rewrite !lookup_insert_eq, lookup_open_only. cbn [windows]. rewrite lookup_insert_eq.
      destruct (ws1 !! key) as [w|] eqn:Hk1; cbn [default from_option id].
      * pose proof (Hmr _ _ Hk1) as Hws. destruct (Hkey w Hws) as [-> Hst]. pose proof (Hsub _ _ Hws) as Hwx.
        destruct (window_ok_lookup _ _ _ _ _ Ht Hwx) as (us & -> & Hok). cbn [default from_option id].
        eapply window_ok_counted; try done. intros ->. by destruct Hok as ([? _] & _).
      * assert (default [] (match o with Some _ => delete key (seen x) | None => seen x end !! key) = []) as ->.
        { destruct o; [by rewrite lookup_delete_eq|]. specialize (Hw key). rewrite <- (Hsame eq_refl), <- Hmk in Hw. by destruct (seen x !! key). }
        eapply (window_ok_counted _ _ []); try done.
    + rewrite !lookup_insert_ne, lookup_open_only by done. cbn [windows]. rewrite lookup_insert_ne by done.
      destruct (ws1 !! k) as [w|] eqn:Hk1; [|done]. pose proof (Hmr _ _ Hk1) as Hws. rewrite (Hother k) in Hws by done.
      destruct (window_ok_lookup _ _ _ _ _ Ht Hws) as (us & Hus & Hok).
      assert (match o with Some _ => delete key (seen x) | None => seen x end !! k = seen x !! k) as -> by (destruct o; [by rewrite lookup_delete_ne|done]).
      by rewrite Hus.
Qed.

Lemma flush_keys_spec dur max x keys : forall s s' sms,
  Tracks dur max x -> NoDup keys -> window_duration_secs s = dur ->
  (forall k, k ∈ keys -> windows s !! k = windows (ss x) !! k /\ is_Some (windows (ss x) !! k)) ->
  flush_keys keys s = Ok (s', sms) ->
  window_duration_secs s' = dur /\ max_entries s' = max_entries s /\ windows s' = foldl (fun m k => delete k m) (windows s) keys /\
  Forall (out_ok dur) (zip ((fun k => default [] (seen x !! k)) <$> keys) sms).
Proof.
  intros s s' sms Ht Hnd. revert s sms. induction Hnd as [|k keys Hk Hnd IH]; intros s sms Hdur Hin; cbn [flush_keys].
  - intros [= <- <-]. by split_and!.
  - destruct (Hin k) as [Hs [w Hw]]; [by left|]. rewrite Hs, Hw, Hdur.
    destruct (emit_summary w dur) as [sm| | |] eqn:He; try done. cbn [mbind outcome_bind].
    destruct (flush_keys keys _) as [[s2 sms2]| | |] eqn:Hf; try done. intros [= <- <-].
    apply IH in Hf as (? & ? & Hws & Hall); [|done|].
    + split_and!; [done|done|done|]. cbn. constructor; [by eapply emitted_ok|done].
    + intros k' Hk'. destruct (Hin k') as [Hs' ?]; [by right|]. cbn [windows]. rewrite lookup_delete_ne; [done|]. by intros ->.
Qed.

Lemma tracks_flush dur max now idle x x' : Tracks dur max x -> sum_step x (SFlush now idle) = Ok x' -> Tracks dur max x'.
Proof.
  intros Ht. pose proof Ht as (Hdur & Hmx & Hsz & Hw & Ho). cbn [sum_step]. unfold flush_stale. fold (stale_keys now idle (ss x)).
  destruct (flush_keys _ _) as [[s' sms]| | |] eqn:Hf; try done. intros [= <-].
  apply (flush_keys_spec dur max x) in Hf as (Hd & Hm & Hws & Hall); [|done| |done|].
  - split_and!; cbn [ss seen outs]; [done|congruence| | |by apply Forall_app].
    + rewrite Hws. clear -Hsz. revert Hsz. generalize (windows (ss x)). induction (stale_keys now idle (ss x)) as [|k ks IH]; intros m Hm; [done|].
      cbn [foldl]. apply IH. pose proof (map_size_delete k m) as Hd. destruct (m !! k); cbn in Hd; lia.
    + intros k. rewrite lookup_open_only, Hws, lookup_delete_all. specialize (Hw k). case_decide; [done|]. destruct (windows (ss x) !! k); [|done].
      by destruct (seen x !! k).
  - apply NoDup_ListNoDup, List.NoDup_filter, NoDup_ListNoDup, NoDup_hash_keys.
  - intros k. unfold stale_keys. rewrite list_elem_of_In, filter_In. intros [_ Hs]. split; [done|]. by destruct (windows (ss x) !! k).
Qed.

(** Claim C32: every summary that is returned, when a window ends or an interface
    falls silent, is the exact summary of updates that came in one window of time
    under one key, has the device and the interface of the first of them, which
    are those of all of them if no device address contains the character that
    separates the parts of a key, and the configured length modulo 2^32; each
    counter they carry is there once, with the least and the greatest value, the
    mean and the difference of the last and the first; and there are never more
    windows than configured.  Nothing else is returned. *)
Theorem summaries_exact (dur max : Z) (ops : list SumOp) (x : SumState) :
  sum_run ops (mkSumState (with_max_entries dur max) ∅ []) = Ok x ->
  Forall (fun '(us, sm) =>
    (exists start, of_window dur (window_key (sm_target sm) (sm_if_name sm)) start us) /\
    opened_by us (sm_target sm) (sm_if_name sm) /\
    (Forall (fun y => split_once "000" (target y.2) = None) us -> of_interface (sm_target sm) (sm_if_name sm) us) /\
    window_secs sm = dur mod 2 ^ 32 /\ summarises (samples us) sm) (outs x) /\
  Z.of_nat (size (windows (ss x))) <= Z.max max 1.
Proof.
  assert (forall ops x0, Tracks dur (Z.max max 1) x0 -> sum_run ops x0 = Ok x -> Tracks dur (Z.max max 1) x) as Hrun.
  { clear ops. induction ops as [|op ops IH]; intros x0 Ht; cbn [sum_run]; [by intros [= <-]|].
    destruct (sum_step x0 op) as [x1| | |] eqn:Hs; try done. apply IH. destruct op; [by eapply tracks_observe; [lia|..]|by eapply tracks_flush]. }
  intros Hx. apply Hrun in Hx as (_ & _ & Hsz & _ & Ho).
  { split; [|done]. eapply Forall_impl; [exact Ho|]. intros [us sm] Hok. pose proof (out_of_interface dur us sm Hok) as Hi.
    destruct Hok as (? & ? & ? & ?). done. } unfold Tracks. cbn [ss windows window_duration_secs max_entries seen outs with_max_entries].
  split_and!; [done|done|rewrite map_size_empty; lia|intros k; by rewrite !lookup_empty|constructor].
Qed.

(** The calls return: a window of no length is the only way to a panic in a release
    build. *)
Theorem summarizer_total (dur max : Z) (ops : list SumOp) :
  overflow_checks = false -> dur <> 0 -> exists x, sum_run ops (mkSumState (with_max_entries dur max) ∅ []) = Ok x.
Proof.
  intros Hov Hdur.
  assert (forall v, exists d, checked_i64 (E := unit) v = Ok d) as Hch by (intros v; unfold checked_i64; rewrite Hov; case_match; by eexists).
  assert (forall c names, exists cs, emit_counters c names = Ok cs) as Hec.
  { intros c. induction names as [|n names [cs IH]]; cbn [emit_counters]; [by eexists|]. destruct (c !! n) as [st|]; [|by exists cs].
    destruct (0 <? cs_count st); [|by exists cs]. destruct (Hch (last_val st - first_val st)) as [d ->]. cbn. rewrite IH. by eexists. }
  assert (forall w d, exists sm, emit_summary w d = Ok sm) as Hem.
  { intros w d. unfold emit_summary. destruct (Hec (counters w) (hash_keys (counters w))) as [cs ->]. by eexists. }
  assert (forall keys s, window_duration_secs s = dur -> exists s' sms, flush_keys keys s = Ok (s', sms) /\ window_duration_secs s' = dur) as Hfl.
  { induction keys as [|k keys IH]; intros s Hs; cbn [flush_keys]; [by exists s, []|]. destruct (windows s !! k) as [w|]; [|by apply IH].
    destruct (Hem w (window_duration_secs s)) as [sm ->]. cbn [mbind outcome_bind].
    destruct (IH (mkSummarizer (window_duration_secs s) (max_entries s) (delete k (windows s))) Hs) as (s' & sms & -> & ?). by eexists _, _. }
  assert (forall ops x, window_duration_secs (ss x) = dur -> exists x', sum_run ops x = Ok x') as Hgo.
  { clear ops. induction ops as [|op ops IH]; intros x Hx; cbn [sum_run]; [by eexists|].
    enough (exists x1, sum_step x op = Ok x1 /\ window_duration_secs (ss x1) = dur) as (x1 & -> & Hx1) by (by apply IH).
    destruct op as [now u|now idle]; cbn [sum_step].
    - unfold observe, key_of. destruct (classify u); try (by eexists). rewrite Hx, (proj2 (Z.eqb_neq _ _)) by done.
      destruct (windows (ss x) !! _) as [w|]; [destruct (negb _); [destruct (Hem w dur) as [sm ->]|]|]; by eexists.
    - unfold flush_stale. destruct (Hfl (stale_keys now idle (ss x)) (ss x) Hx) as (s' & sms & Hf & ?). fold (stale_keys now idle (ss x)). rewrite Hf. by eexists. }
  by apply Hgo.
Qed.

End Runs.

(** ** Running the model *)

Section Demo.
#[local] Existing Instance trie_order.
#[local] Instance summary_case : Lowercase.
Proof. refine {| to_lowercase := to_ascii_lowercase |}. done. Defined.
#[local] Instance release_build : BuildProfile := false.

Definition counter_update (if_name : string) (v : Z) : TelemetryUpdate :=
  mkTelemetryUpdate "10.0.0.1" "nokia" "" "" "" 0 ("interfaces/interface[name=" ++ if_name ++ "]/state/counters")
    (V_Object [("in-octets"%string, V_Number (N_Int v))]).

Definition two_windows : list SumOp :=
  [SObserve 100 (counter_update "e1" 5); SObserve 101 (counter_update "e1" 9); SObserve 110 (counter_update "e1" 12); SFlush 200 60].

Example two_windows_run :
  (fun x => (fun o => (fun c => (sm_min c, sm_max c, sm_delta c)) <$> sm_counters o.2) <$> outs x) <$>
    match sum_run two_windows (mkSumState (summarizer_new 10) ∅ []) with Ok x => Some x | _ => None end =
  Some [[(5, 9, 4)]; [(12, 12, 0)]].
Proof. vm_compute. reflexivity. Qed.

Lemma summaries_exact_witness :
  exists x, sum_run two_windows (mkSumState (summarizer_new 10) ∅ []) = Ok x /\ length (outs x) = 2%nat /\
    Forall (fun o => of_interface "10.0.0.1" "e1" o.1) (outs x) /\ Z.of_nat (size (windows (ss x))) <= 1024.
Proof.
  eexists. split; [vm_compute; reflexivity|].
  match goal with |- length (outs ?x) = _ /\ _ =>
    destruct (summaries_exact 10 1024 two_windows x) as [Ho Hs]; [vm_compute; reflexivity|] end.
  split_and!; [reflexivity| |exact Hs]. cbn [outs] in Ho |- *.
  apply Forall_cons in Ho as [(_ & _ & Hi1 & _) Ho]. apply Forall_cons in Ho as [(_ & _ & Hi2 & _) _].
  apply Forall_cons. split; [apply Hi1; repeat constructor|]. apply Forall_singleton, Hi2. repeat constructor.
Defined.

(** With room for one interface, two that take turns are never summarised: what is
    evicted is lost. *)
Example eviction_loses_summaries :
  let ops := n ← seq 0 10; [SObserve (Z.of_nat n) (counter_update "e1" 1); SObserve (Z.of_nat n) (counter_update "e2" 1)] in
  match sum_run ops (mkSumState (with_max_entries 3 1) ∅ []) with Ok x => outs x = [] | _ => False end.
Proof. vm_compute. reflexivity. Qed.

(** The length of a window is configured, and zero divides. *)
Example zero_window_panics : sum_run [SObserve 1 (counter_update "e1" 1)] (mkSumState (summarizer_new 0) ∅ []) = Panic.
Proof. vm_compute. reflexivity. Qed.

End Demo.
